(* ===== verification/_CoqProject ===== *)
-Q . S2P
Prelude.v
RingBuffer.v
SplInl.v
SplMath.v
SplVector.v
SplFilter.v
SplResample.v
Codecs.v
Cng.v
Vad.v
VadFacts.v
OrderedMap.v
Wire.v
Floats.v
RtpHeaders.v
BitBuffer.v
VideoHeaders.v
Vp8Aggregator.v
RtpVp8.v
RtpVp8Facts.v
RtpVp9.v
RtpVp9Facts.v
H264Sps.v
RtpH264.v
RtpH264Facts.v
RtpGeneric.v
Depacketize.v
JanusRtcp.v
JanusWalk.v
JanusCompound.v
JanusRewrite.v
JanusBuild.v
JanusStats.v
Nack.v
NackFacts.v
Remb.v
NtpTime.v
Speaker.v
FrameQueue.v
Layout.v
SeqRing.v
PacketQueue.v
PacketBuffer.v
PacketBufferFacts.v
NetworkStatus.v
NetworkStatusFacts.v
RtcpReports.v
RtpExtensions.v
RtpExtensionsFacts.v
RtpExtensionsParse.v
RtpExtensionsUpdate.v
RateStatistics.v
InterArrival.v
Overuse.v
AimdRateControl.v
RemoteBitrate.v
RtcpCommon.v
RtcpWriter.v
TransportFeedback.v
TransportFeedbackFacts.v
TransportFeedbackRoundtrip.v
RtcpParser.v
RtcpParserFacts.v
RtcpPackets.v
RtcpPacketsFacts.v
RtcpFeedbackFacts.v
RtcpOtherFacts.v
RtcpPacketParse.v
RtcpCompound.v
RtcpProcessor.v
Text.v
Sdp.v
SdpFacts.v
SdpRoundtrip.v
Transport.v
TransportReceive.v
TransportNegotiate.v
