(* ===== verification/Prelude.v ===== *)
(** * The Orbit stream service: a verification development

    The Orbit media server (src/orbit) relays audio and video between the
    members of a room.  RTP packets come in and go out through transports;
    lost packets are asked for and sent again with RTCP; players reorder the
    packets and keep the last key frame of a video, which they find by parsing
    the payload formats of the codecs; audio is mixed, and a voice activity
    detector finds the active speaker.  This development models the parts of it
    that compute: the RTP and RTCP code of the server (C++, src/orbit/rtp and
    src/orbit/modules), the video payload formats it uses
    (src/orbit/webrtc/modules/rtp_rtcp/source), the estimation of the received
    bitrate (modules/remote_bitrate_estimator), and the C code of the WebRTC
    audio library it carries (src/orbit/webrtc/common_audio and the codecs).

    ** The files

    Shared:
    - Prelude: machine integers, arrays, counted loops, sums; the tactics and
      hint databases the other files use.
    - Wire: the fields of a packet in memory, and [res], the results of code
      that may access memory outside its arrays or loop.
    - OrderedMap: [std::map] with integer keys.
    - Floats: single and double precision on the standard library's
      [spec_float], rounded as the processor does, and the conversions between
      them and integers.

    Audio:
    - RingBuffer: ring_buffer.c, one function per C function on the record [t]
      of the struct.  A buffer denotes the queue [contents] of its bytes.
    - SplInl: include/spl_inl.h, the saturating and normalising arithmetic.
    - SplMath: divisions, square roots, bit reversal, the Hanning window.
    - SplVector: minima and maxima, copies, scalings, products, energies,
      correlations, the random generator.
    - SplFilter: the AR, MA and decimating filters, conversions between
      reflection and prediction coefficients, Levinson-Durbin and Schur.
    - SplResample: the all-pass resamplers by two, the fractional resamplers
      and the 48 kHz chains built from both.
    - Vad, VadFacts: the voice activity detector, from [WebRtcVad_Process] down
      to the filter bank, the mixture model and the tracked minima.
    - Codecs: G.711 in both laws and 16-bit PCM.
    - Cng: comfort noise, the encoder that describes it and the decoder that
      makes it with the filters of SplFilter.
    - Speaker: speaker_estimator.cc, who speaks in a window of frames.

    RTP and RTCP:
    - RtpHeaders: rtp_headers.h, the accessors of the headers on the packet.
    - JanusRtcp: janus_rtcp_processor.cc, the whole file: the walk over a
      compound packet and what is done with it (finding sources, FIR, PLI,
      NACK and REMB; rewriting sources; capping REMBs; removing NACKs), the
      packet builders, and the reception statistics.
    - JanusWalk, JanusCompound, JanusRewrite, JanusBuild, JanusStats: the
      theorems on JanusRtcp.
    - Nack, NackFacts: nack_processor.cc, the receiver that tracks sequence
      numbers and asks for the missing ones, and the sender that keeps packets
      and answers; it calls the builders and readers of JanusRtcp.
    - SeqRing: the circular doubly linked list of sequence numbers in memory,
      with its [prev] and [next] pointers, refined to the list Nack works on.
    - Remb: remb_processor.cc, which builds REMBs with JanusRtcp.
    - NtpTime: rtp_to_ntp.cc, timestamp_extrapolator.cc and
      remote_ntp_time_estimator.cc, from the sender reports of a stream to the
      time at which a packet was captured.
    - RtcpReports: rtcp_sender.cc and rtcp_receiver.cc, the reports that are sent
      and the history by which they are recognised in the answers.
    - RtcpProcessor: rtcp_processor.cc, which hands the packets of a transport to
      JanusRtcp, Nack, Remb, NtpTime, RtcpReports, NetworkStatus, RtcpParser and
      RtpExtensions, and the received ones to an estimator of the bitrate, which
      it knows by the class [RemoteBitrateEstimator] only.
    - NetworkStatus, NetworkStatusFacts: network_status.cc, the statistics of a
      stream (windows of losses, round trip times, bitrates), the level of its
      network and the manager of the streams.
    - PacketQueue: rtp_packet_queue.cc, the queue sorted by serial number.

    RTCP with the WebRTC library (src/orbit/webrtc/modules/rtp_rtcp/source):
    - RtcpCommon: the formats of a header and the writing of one
      (rtcp_packet.cc), big-endian fields (byte_io.h), the structs of
      rtcp_utility.h.
    - RtcpWriter: the buffer an object writes into and the callback that gets a
      full one (OnBufferFull).  A writer is a function of the buffer, the
      position and the packets already sent; [room], [wrote] and [written] say
      what a sequence of writes leaves.
    - TransportFeedback, TransportFeedbackFacts, TransportFeedbackRoundtrip:
      rtcp_packet/transport_feedback.cc, the chunks that encode the arrivals of
      packets, building, parsing and reading of the message.
    - RtcpParser, RtcpParserFacts: the class RTCPParserV2 of rtcp_utility.cc, a
      state machine with one state per kind of item, and RTCPPacketIterator's
      test of the headers.  A packet is read as the list of its items.
    - RtcpPackets: rtcp_packet.cc and rtcp_packet/*.cc, one record and one
      [_Create] per class of packet, the appended packets, and [Build].
    - RtcpPacketsFacts, RtcpFeedbackFacts, RtcpOtherFacts: the items the parser
      reads from what each class writes.
    - RtcpPacketParse: the [Parse] methods of the classes that have one.
    - RtcpCompound: a compound packet of any packets, built and read back.

    Headers and bitrates of the WebRTC library:
    - RtpExtensions: the extensions of an RTP header in rtp_header_extension.cc,
      their writing and changing in rtp_sender.cc, their reading in
      rtp_utility.cc; RtpExtensionsFacts, RtpExtensionsParse,
      RtpExtensionsUpdate: what is written, read and changed.
    - RateStatistics, InterArrival, Overuse, AimdRateControl: rate_statistics.cc,
      inter_arrival.cc, overuse_estimator.cc with overuse_detector.cc, and
      aimd_rate_control.cc, the parts of an estimator.
    - RemoteBitrate: the interface of the estimators as the class
      [RemoteBitrateEstimator] and remote_bitrate_estimator_single_stream.cc as
      its instance.

    Session descriptions:
    - Text: the strings of the C++ library as lists of bytes: searching, lines,
      numbers, and the extraction of words and numbers from a stream.
    - Sdp: sdp_info.cc and sdp_info.h.  The text of a description is written by
      [getSdp]; [processSdp] reads lines one after the other into a [reader], in
      the order of the tests of the code.
    - SdpFacts, SdpRoundtrip: how each kind of line is read, and what a peer
      holds of a description that it reads.

    Transports:
    - Transport: the state of transport_delegate.cc with its records, the packets
      it sends (queueData, RelayPacket), and rtp_sender.cc, the queue in front of
      the network.  It holds an RtcpProcessor and two descriptions of Sdp, and
      is written against the classes of the estimators and of priority queues.
      What it tells the transports, the plugin and the listeners is a list of
      [event]s.
    - TransportReceive: the packets that come in, from their source to the RTCP
      processor, the plugin and the listeners.
    - TransportNegotiate: the answer to an offer, candidates in both directions,
      the states, and the side of a client.

    Video payload formats:
    - BitBuffer: bitbuffer.cc, bits and Exponential-Golomb codes.  An operation
      is an [op], a function of the buffer to a result and the buffer after it;
      [reads], [writes], [safe] and [ensures] relate operations to the bits at
      the position and compose along [let?], so the formats' proofs follow
      their code.
    - VideoHeaders: the structs the formats fill.
    - Vp8Aggregator; RtpVp8, RtpVp8Facts: VP8.
    - RtpVp9, RtpVp9Facts: VP9, on BitBuffer.
    - H264Sps: the sequence parameter set, on BitBuffer.
    - RtpH264, RtpH264Facts: H.264, which takes the picture size from H264Sps.
    - RtpGeneric: the generic format.
    - Depacketize: the choice of a format by codec and by payload type, and the
      test for a key frame (rtp_format.cc, webrtc_format_util.cc,
      rtp_format_util.cc).

    Players and mixers:
    - PacketBuffer, PacketBufferFacts: rtp_packet_buffer.cc.  The buffer is
      written against the class [PriorityQueue] of what the standard promises
      of [std::priority_queue]; a list is an instance.
    - FrameQueue: video_frame_queue.cc, on OrderedMap and Depacketize.
    - Layout: video_mixer_position_manager.cc, the places of a mixed picture.

    ** Conventions

    Names are those of the source.  An integer of the source is a [Z]; where an
    operation may leave the range of its type the conversion to the type is
    written ([s16], [u16], [s32], [u32], [u64], ...).  Signed overflow, which C
    leaves undefined, is written as the wrap-around of the machines the code is
    built for, and the theorems that exclude it say so in their statement.  An
    array is the list of its elements; in the audio files a read outside it
    gives 0 and a write outside it does nothing ([rd], [wr]), and the theorems
    have the lengths as hypotheses (Cng has [None] instead, a fault, for every
    array of the caller), whereas in the packet files an access
    outside the buffer is an error value, [Oob], and the theorems show that it
    does not happen.  [Oob] also stands for the other things C++ leaves
    undefined: a division by zero, the front of an empty queue, a function that
    ends without its result.  Assertions are taken as compiled out, but for those
    of the transport on the bundle, on which the code behind them rests; one
    that fails is [Oob].  A pointer
    into an array is the array with an offset.  A function that writes through a
    pointer returns the new array.  A pointer that may be NULL is an option.  An
    object is a record, a method a function that returns the new record; a
    callback is part of the result, in order.  What a clock answers is an
    argument, one for each call in the order of the calls, and so are the bytes
    and variables that the source leaves uninitialised.  A floating-point
    operation is the correctly rounded one of its width, in the order of the
    source; constants are the nearest numbers.

    Loops with a counter are [for_up] and [for_down], with the number of rounds
    the source computes.  The loops of the packet files whose end depends on
    what they read have fuel and give [NoFuel] when it is used up:
    [walk_fuel len] is one more than the length of the packet, enough because a
    round that goes on takes at least four bytes ([rtcp_walks_terminate]); the
    loop over the new sequence numbers has 160 rounds, enough because the code
    enters it only when the new number is at most 160 ahead ([receiver_safe]);
    the loops of the packetizers have as many rounds as the frame has bytes or
    partitions, enough because a round queues a byte at least
    ([GeneratePackets_covers], [BalancedAggregates_covers],
    [Vp9_GeneratePackets_covers], [H264_frame_roundtrip]); the parsers have as
    many rounds as the packet has bytes or bits ([Vp8_Parse_safe],
    [Vp9_Parse_safe], [H264_Parse_safe]).  RTCPParserV2 is given three rounds
    per byte and one: it ends within them or is in the one state, named in
    [parser_ends_or_hangs], in which it never ends.  The NACK writer has two
    rounds per item and two, enough when a message fits the buffer
    ([build_is_read]).  The loop that writes extensions has a round for each
    registered one and one more, enough when no type has two numbers
    ([header_is_read]); the parser of the extensions has a round per byte
    ([Parse_reads]); the loop that drops old counts has one per counter and one
    ([rate_is_the_window]).  The loop over the items of an incoming RTCP packet
    takes its fuel as an argument.

    ** The theorems

    - RTCP.  [rtcp_walks_terminate]: every function that walks ends, on any
      bytes.  [compound_readers], [remove_nacks_compound], [fix_ssrc_compound],
      [cap_remb_compound]: on a compound packet made of well-formed blocks each
      function is the list function on its blocks, and changes no other byte; a
      source is replaced where the standards put it, but for the blocks in which
      the code looks for it elsewhere ([sdes_source_is_missed]).
      [nacks_roundtrip], [remb_roundtrip], [feedback_builders]: what is built is
      read back.  [stream_statistics], [report_block_spec]: the statistics of a
      stream are exact across the wraps of the sequence number.
      [slow_link_spec]: when REMBs are built and the bitrate halved.
      [rtp_header_fields]: the headers are records of independent fields.
    - Lost packets.  [receiver_safe]: in every state reached by packets in any
      order, the list is a run of at most 160 consecutive numbers, and no step
      fails.  [receiver_tracks], [receiver_message]: what is remembered and what
      is asked for.  [PushPacket_spec], [ProcessRtcpNackPackets_spec]: the
      sender's queue and its answers.  [append_ring], [pop_ring], [free_ring]:
      the list in memory.
    - RTCP with the WebRTC library.  [build_is_read]: when the packets of a
      compound fit the buffer, the parser reads from what is built the items
      the packets stand for, in order, whether or not the buffer was sent in
      several parts.  [nack_numbers_kept]: a NACK's packed items name the
      numbers it was given.  [parser_ends_or_hangs]: on any bytes the parser
      reads inside the packet, and ends unless a feedback message is shorter
      than its header.  [feedback_roundtrip], [ParseFrom_safe],
      [received_refused]: the feedback on the transport is what was received,
      parsing stays inside the packet, and what cannot be encoded is refused.
    - Headers.  [header_is_read]: a header with CSRCs and extensions is read as
      it was written; [Parse_reads]: how far the parser reads on any bytes;
      [extensions_updated]: in a header without CSRCs a changed extension is the
      one that would have been written, the audio level the one that was given.
    - Reports.  [rtt_measured]: the round trip of an answered report, through the
      history of the sender, the processor and the network status.
    - Session descriptions.  [description_is_read]: a peer reads from the text
      of a description what the description holds, through the search for the
      keywords, the splitting of the lines and the types of the codecs;
      [remote_type_is_mapped]: the numbers a peer gives to codecs;
      [candidate_from_string]: candidates as strings.
    - Transports.  [offer_is_answered]: an offer and its answer, from text to
      text, with what is opened and told on the way; [candidate_is_added]: a
      candidate of the peer reaches its transport; [relayed_video_is_kept]: what
      is queued and what is kept of a video packet; [everything_is_sent]: the
      sender loses nothing, and keeps the order of the sequence numbers while
      all that is queued has one priority ([mixed_queue_has_no_order]);
      [plugin_hears_packet]: what comes in from a known source reaches the plugin
      once, as it came.
    - Bitrates.  [rate_is_the_window]: the counter is the sum over the window;
      [deltas_telescope]: the deltas between groups lose nothing;
      [overuse_is_sustained], [rate_changes]: when over-use is found and what it
      does to the rate; [estimator_never_fails]: the whole estimator answers
      every packet.
    - Statistics.  [receive_loss_exact]: the reports are those of a log of the
      packets that arrived: a number is lost when no packet with it came in
      time, that is at most 12 ms after it was missed.  [connect_status_spec]: the level reported
      fits the numbers reported.
    - Payload formats.  The packetizers end and cover the frame with packets
      that fit ([GeneratePackets_covers], [BalancedAggregates_covers],
      [Vp9_GeneratePackets_covers]), with aggregates of least cost
      ([aggregate_optimal]).  What is sent is received: [Vp8_packet_roundtrip],
      [Vp9_packet_roundtrip], [generic_frame_roundtrip], and for H.264 the whole
      frame, sent, parsed and put together again ([H264_frame_roundtrip]);
      [Sps_roundtrip], [WriteBits_ReadBits], [golomb_roundtrip].  Any bytes are
      parsed without an access outside the packet: [Vp8_Parse_safe],
      [Vp9_Parse_safe], [H264_Parse_safe], [Sps_Parse_safe],
      [key_frame_test_safe].  [vp8_key_frame_recognised]: the packetizer and the
      test for key frames fit together.
    - Players.  [reordering_repaired]: packets come out of the buffer in the
      order of the stream.  [storage_keeps], [kept_from_key_frame],
      [frame_queue_invariant]: what is kept for a late viewer.
      [pushPacket_spec], [popPacket_spec], [drain_in_order]: the sorted queue,
      which lets in packets up to 50 behind what it gave out
      ([older_packet_is_pushed]).
      [layout_fits]: the places of a mixed picture do not overlap.
    - Ring buffer.  Writing, reading and moving are the queue operations.
    - Signal processing.  Exactness: where the code's scaling is meant to
      prevent overflow, the result is the one over the integers
      ([AutoCorrelation_exact], [Energy_exact], [fir_filters_exact], ...);
      [SqrtFloor_exact], [ComplexBitReverse_permutes], [IncreaseSeed_permutes],
      [LevinsonDurbin_stability], [fractional_in_place].
    - Voice and sound.  [vad_contract]: the calls that are refused leave the
      state alone, the others answer 0 or 1 and keep the state's invariant,
      from initialisation on.  [hangover], [FindMinimum_spec],
      [process_48khz_first_block].  [g711_roundtrip], [pcm16b_roundtrip];
      [cng_sid_roundtrip], [cng_encode_contract]; [cng_states]: the comfort
      noise codec stays in its arrays and types in every state it reaches;
      [window_speaker].

    ** What is not modelled

    Logging, locks (a lock taken with try-lock is a flag), what the pages of the
    session show, and ICE, DTLS and SRTP (what is sent is returned).  The receiver of
    the error correction, for its tables: what it recovers is an argument.  Code outside the repository is a parameter:
    glib's sort, which the NACK builder calls, with the property that it sorts
    and permutes; boost's search for a regular expression in the codes of an
    offer, with none; [pow] and [sscanf] of the C library in the estimation of the
    bitrate, with none.  In signal_processing the splitting filter, the
    resamplers of resample.c and resample_by_2.c and the FFTs serve parts of the
    library the server does not call; the MIPS and ARM variants compute what the
    C files do.  Of the server's own code the audio buffers, the mixers and the
    video map drive GStreamer pipelines;
    HTTP, gRPC, ZooKeeper, DTLS and ICE are glue to libraries that are not in
    the repository.  The rest of the vendored WebRTC tree (its own RTP sender and
    receiver, jitter buffer, the other estimators, pacing, sockets and threads) is
    not called by the server. *)

From Stdlib Require Export ZArith List Bool Lia.
From Stdlib Require Import Permutation Sorted.
Export ListNotations.

#[global] Open Scope Z_scope.
#[global] Set Default Goal Selector "!".

(** ** Machine integers

    A C integer of width [w] is a [Z]; every operation of the source that can
    leave the range of its type is followed by the conversion to that type. *)

Definition uwrap (w x : Z) : Z := x mod 2 ^ w.
Definition swrap (w x : Z) : Z := (x + 2 ^ (w - 1)) mod 2 ^ w - 2 ^ (w - 1).

Definition u8 (x : Z) : Z := x mod 256.
Definition u16 (x : Z) : Z := x mod 65536.
Definition u32 (x : Z) : Z := x mod 4294967296.
Definition u64 (x : Z) : Z := x mod 18446744073709551616.
Definition s8 (x : Z) : Z := (x + 128) mod 256 - 128.
Definition s16 (x : Z) : Z := (x + 32768) mod 65536 - 32768.
Definition s32 (x : Z) : Z := (x + 2147483648) mod 4294967296 - 2147483648.
Definition s64 (x : Z) : Z :=
  (x + 9223372036854775808) mod 18446744073709551616 - 9223372036854775808.

Definition in_u8 (x : Z) : Prop := 0 <= x < 256.
Definition in_u16 (x : Z) : Prop := 0 <= x < 65536.
Definition in_u32 (x : Z) : Prop := 0 <= x < 4294967296.
Definition in_u64 (x : Z) : Prop := 0 <= x < 18446744073709551616.
Definition in_s16 (x : Z) : Prop := -32768 <= x <= 32767.
Definition in_s32 (x : Z) : Prop := -2147483648 <= x <= 2147483647.
Definition in_s64 (x : Z) : Prop :=
  -9223372036854775808 <= x <= 9223372036854775807.

(** Arithmetic with division and modulo by constants. *)
Ltac dlia := Z.div_mod_to_equations; lia.
Ltac int_unfold :=
  unfold u8, u16, u32, u64, s8, s16, s32, s64,
    in_u8, in_u16, in_u32, in_u64, in_s16, in_s32, in_s64 in *.
Ltac int_lia := int_unfold; dlia.

Lemma u8_range x : in_u8 (u8 x).    Proof. int_lia. Qed.
Lemma u16_range x : in_u16 (u16 x). Proof. int_lia. Qed.
Lemma u32_range x : in_u32 (u32 x). Proof. int_lia. Qed.
Lemma u64_range x : in_u64 (u64 x). Proof. int_lia. Qed.
Lemma s16_range x : in_s16 (s16 x). Proof. int_lia. Qed.
Lemma s32_range x : in_s32 (s32 x). Proof. int_lia. Qed.
Lemma s64_range x : in_s64 (s64 x). Proof. int_lia. Qed.

Lemma u8_id x : in_u8 x -> u8 x = x.    Proof. int_lia. Qed.
Lemma u16_id x : in_u16 x -> u16 x = x. Proof. int_lia. Qed.
Lemma u32_id x : in_u32 x -> u32 x = x. Proof. int_lia. Qed.
Lemma u64_id x : in_u64 x -> u64 x = x. Proof. int_lia. Qed.
Lemma s16_id x : in_s16 x -> s16 x = x. Proof. int_lia. Qed.
Lemma s32_id x : in_s32 x -> s32 x = x. Proof. int_lia. Qed.
Lemma s64_id x : in_s64 x -> s64 x = x. Proof. int_lia. Qed.

Create HintDb cint.
#[export] Hint Resolve u8_range u16_range u32_range u64_range
  s16_range s32_range s64_range : cint.
#[export] Hint Rewrite u8_id u16_id u32_id u64_id s16_id s32_id s64_id
  using (int_unfold; lia) : cint.

(** The shifts and masks the source writes with constants. *)
Lemma shiftr_div a k : 0 <= k -> Z.shiftr a k = a / 2 ^ k.
Proof. intros; now apply Z.shiftr_div_pow2. Qed.
Lemma shiftl_mul a k : 0 <= k -> Z.shiftl a k = a * 2 ^ k.
Proof. intros; now apply Z.shiftl_mul_pow2. Qed.
Lemma land_ones_mod a k : 0 <= k -> Z.land a (2 ^ k - 1) = a mod 2 ^ k.
Proof. intros. rewrite <- Z.land_ones by lia. now rewrite Z.ones_equiv. Qed.

Lemma lnot_eq a : Z.lnot a = - a - 1.
Proof. unfold Z.lnot. rewrite <- Z.sub_1_r. lia. Qed.

Lemma lor_lt_pow2 a b n : 0 <= n -> 0 <= a < 2 ^ n -> 0 <= b < 2 ^ n -> 0 <= Z.lor a b < 2 ^ n.
Proof.
  intros Hn Ha Hb. assert (0 <= Z.lor a b) by (apply Z.lor_nonneg; lia). split; [assumption|].
  destruct (Z.eq_dec (Z.lor a b) 0) as [->|Hne]; [apply Z.pow_pos_nonneg; lia|].
  apply Z.log2_lt_pow2; [lia|]. rewrite Z.log2_lor by lia.
  assert (Hlog : forall x, 0 <= x < 2 ^ n -> Z.log2 x < n \/ x = 0).
  { intros x Hx. destruct (Z.eq_dec x 0); [now right|left]. apply Z.log2_lt_pow2; lia. }
  change (Z.log2 0) with 0 in *. pose proof (Z.log2_nonneg a). pose proof (Z.log2_nonneg b).
  destruct (Hlog a Ha) as [?|Ea], (Hlog b Hb) as [?|Eb].
  - lia.
  - subst b. change (Z.log2 0) with 0. lia.
  - subst a. change (Z.log2 0) with 0. lia.
  - subst. now elim Hne.
Qed.

(** Or of two numbers whose bits do not overlap. *)
Lemma lor_add a b k : 0 <= k -> 0 <= a < 2 ^ k -> Z.lor a (b * 2 ^ k) = a + b * 2 ^ k.
Proof.
  intros Hk Ha. rewrite <- shiftl_mul by lia.
  assert (H0 : Z.land a (Z.shiftl b k) = 0).
  { apply Z.bits_inj'; intros i Hi. rewrite Z.land_spec, Z.shiftl_spec, Z.bits_0 by lia.
    destruct (Z.ltb_spec i k); [rewrite (Z.testbit_neg_r b) by lia; apply andb_false_r|].
    rewrite <- (Z.mod_small a (2 ^ k)) by lia. now rewrite Z.mod_pow2_bits_high by lia. }
  rewrite <- Z.lxor_lor by exact H0. symmetry. now apply Z.add_nocarry_lxor.
Qed.

(** C's truncating division and remainder are [Z.quot] and [Z.rem]. *)

(** ** Booleans of the source *)

Definition b2z (b : bool) : Z := if b then 1 else 0.

Ltac bool_lia :=
  repeat match goal with
    | H : (_ && _)%bool = true |- _ => apply andb_true_iff in H; destruct H
    | H : (_ || _)%bool = false |- _ => apply orb_false_iff in H; destruct H
    end; lia.

(** Case analysis on the innermost test of the goal. *)
Ltac case_if :=
  match goal with
  | |- context [if ?b then _ else _] =>
      lazymatch type of b with bool => idtac end;
      lazymatch b with
      | context [if _ then _ else _] => fail
      | _ => destruct b eqn:?
      end
  end.

(** Split every test of the goal; each branch is an arithmetic fact. *)
Ltac ifs_lia := repeat case_if; first [reflexivity | lia | f_equal; lia | exfalso; bool_lia].

(** ** Arrays

    A C array is the list of its elements.  [rd a i] is [a[i]]; a read outside
    the array is undefined in C and is given the value 0 here; the theorems
    about a routine that indexes state the bounds it relies on.  [wr a i v] is
    [a[i] = v] and leaves the array alone outside its bounds. *)

Definition rd (a : list Z) (i : Z) : Z :=
  if i <? 0 then 0 else nth (Z.to_nat i) a 0.

Fixpoint upd {A} (a : list A) (i : nat) (v : A) : list A :=
  match a, i with
  | [], _ => []
  | _ :: t, O => v :: t
  | x :: t, S i' => x :: upd t i' v
  end.

Definition wr (a : list Z) (i v : Z) : list Z :=
  if i <? 0 then a else upd a (Z.to_nat i) v.

Definition zlen {A} (a : list A) : Z := Z.of_nat (length a).

Definition zeros (n : Z) : list Z := repeat 0 (Z.to_nat n).

(** [slice a i n] is the [n] elements starting at pointer [a + i]. *)
Definition slice {A} (a : list A) (i n : Z) : list A :=
  firstn (Z.to_nat n) (skipn (Z.to_nat i) a).

(** [memcpy(a + i, src, |src|)]. *)
Fixpoint blit (a : list Z) (i : Z) (src : list Z) : list Z :=
  match src with
  | [] => a
  | x :: t => blit (wr a i x) (i + 1) t
  end.

Lemma length_upd {A} (a : list A) i v : length (upd a i v) = length a.
Proof. revert i; induction a as [|x a IH]; intros [|i]; simpl; auto. Qed.

Lemma zlen_wr a i v : zlen (wr a i v) = zlen a.
Proof. unfold wr, zlen. destruct (i <? 0); now rewrite ?length_upd. Qed.

Lemma length_wr a i v : length (wr a i v) = length a.
Proof. unfold wr. destruct (i <? 0); now rewrite ?length_upd. Qed.

Lemma length_blit a i src : length (blit a i src) = length a.
Proof. revert a i; induction src; intros; simpl; auto. now rewrite IHsrc, length_wr. Qed.

Lemma nth_upd_eq {A} (a : list A) i v d :
  (i < length a)%nat -> nth i (upd a i v) d = v.
Proof. revert i; induction a as [|x a IH]; intros [|i]; simpl; intros; try lia; auto. apply IH; lia. Qed.

Lemma nth_upd_ne {A} (a : list A) i j v d :
  i <> j -> nth j (upd a i v) d = nth j a d.
Proof.
  revert i j; induction a as [|x a IH]; intros [|i] [|j]; simpl; intros; try congruence; auto.
Qed.

Lemma rd_wr_eq a i v : 0 <= i < zlen a -> rd (wr a i v) i = v.
Proof.
  unfold rd, wr, zlen; intros. destruct (i <? 0) eqn:?; [lia|].
  apply nth_upd_eq; lia.
Qed.

Lemma rd_wr_ne a i j v : i <> j -> 0 <= i -> rd (wr a i v) j = rd a j.
Proof.
  unfold rd, wr; intros. destruct (i <? 0) eqn:?; [lia|].
  destruct (j <? 0) eqn:?; [reflexivity|]. apply nth_upd_ne; lia.
Qed.

Lemma rd_wr a i j v :
  0 <= i < zlen a -> rd (wr a i v) j = if j =? i then v else rd a j.
Proof.
  intros. destruct (j =? i) eqn:E.
  - assert (j = i) by lia; subst. now apply rd_wr_eq.
  - apply rd_wr_ne; lia.
Qed.

Lemma zlen_nonneg {A} (a : list A) : 0 <= zlen a.
Proof. unfold zlen; lia. Qed.

Lemma zlen_app {A} (a b : list A) : zlen (a ++ b) = zlen a + zlen b.
Proof. unfold zlen; rewrite length_app; lia. Qed.

Lemma zlen_cons {A} (x : A) b : zlen (x :: b) = 1 + zlen b.
Proof. unfold zlen; cbn [length]; lia. Qed.

Lemma zlen_nil {A} : zlen (@nil A) = 0.
Proof. reflexivity. Qed.

Lemma zlen_map {A B} (f : A -> B) l : zlen (map f l) = zlen l.
Proof. unfold zlen; now rewrite length_map. Qed.

Lemma zlen_zeros n : 0 <= n -> zlen (zeros n) = n.
Proof. intros; unfold zlen, zeros; rewrite repeat_length; lia. Qed.

Lemma zlen_slice {A} (a : list A) i n :
  0 <= i -> 0 <= n -> i + n <= zlen a -> zlen (slice a i n) = n.
Proof.
  unfold zlen, slice; intros. rewrite length_firstn, length_skipn. lia.
Qed.

#[export] Hint Rewrite @zlen_app @zlen_cons @zlen_nil @zlen_map zlen_wr : zlen.

Lemma rd_in_bounds a i : 0 <= i < zlen a -> In (rd a i) a.
Proof.
  unfold rd, zlen; intros. destruct (i <? 0) eqn:?; [lia|]. apply nth_In; lia.
Qed.

Lemma Forall_rd (P : Z -> Prop) a i : P 0 -> Forall P a -> P (rd a i).
Proof.
  intros H0 HF. unfold rd. destruct (i <? 0); auto.
  destruct (Nat.lt_ge_cases (Z.to_nat i) (length a)) as [H|H].
  - rewrite Forall_forall in HF. now apply HF, nth_In.
  - now rewrite nth_overflow.
Qed.

Lemma Forall_upd {A} (P : A -> Prop) a i v : P v -> Forall P a -> Forall P (upd a i v).
Proof.
  intros Hv HF; revert i; induction HF; intros [|i]; simpl; constructor; auto.
Qed.

Lemma Forall_wr (P : Z -> Prop) a i v : P v -> Forall P a -> Forall P (wr a i v).
Proof. intros; unfold wr; destruct (i <? 0); auto using Forall_upd. Qed.

Lemma rd_app_l a b i : i < zlen a -> rd (a ++ b) i = rd a i.
Proof.
  unfold rd, zlen; intros. destruct (i <? 0) eqn:?; auto.
  apply app_nth1; lia.
Qed.

Lemma rd_app_r a b i : zlen a <= i -> rd (a ++ b) i = rd b (i - zlen a).
Proof.
  unfold rd, zlen; intros. destruct (i <? 0) eqn:?; [lia|].
  destruct (i - Z.of_nat (length a) <? 0) eqn:?; [lia|].
  rewrite app_nth2 by lia. f_equal; lia.
Qed.

Lemma rd_cons x a i : 0 < i -> rd (x :: a) i = rd a (i - 1).
Proof.
  unfold rd; intros. destruct (i <? 0) eqn:?; [lia|].
  destruct (i - 1 <? 0) eqn:?; [lia|].
  replace (Z.to_nat i) with (S (Z.to_nat (i - 1))) by lia. reflexivity.
Qed.

Lemma rd_0 x a : rd (x :: a) 0 = x.
Proof. reflexivity. Qed.

(** Two arrays of one length with equal elements are equal. *)
Lemma rd_ext a b :
  zlen a = zlen b -> (forall i, 0 <= i < zlen a -> rd a i = rd b i) -> a = b.
Proof.
  unfold zlen; intros Hl H. apply nth_ext with (d := 0) (d' := 0); [lia|].
  intros n Hn. specialize (H (Z.of_nat n) ltac:(lia)). unfold rd in H.
  destruct (Z.of_nat n <? 0) eqn:?; [lia|]. now rewrite Nat2Z.id in H.
Qed.

(** ** Loops

    [for_up i n f s] is [for (k = i; k < i + n; k++) s = f(k, s)], and
    [for_down] counts down from [i]. *)

Fixpoint for_up {S} (i : Z) (n : nat) (f : Z -> S -> S) (s : S) : S :=
  match n with
  | O => s
  | Datatypes.S n' => for_up (i + 1) n' f (f i s)
  end.

Fixpoint for_down {S} (i : Z) (n : nat) (f : Z -> S -> S) (s : S) : S :=
  match n with
  | O => s
  | Datatypes.S n' => for_down (i - 1) n' f (f i s)
  end.

Lemma for_up_inv {S} (P : Z -> S -> Prop) (f : Z -> S -> S) n i s :
  P i s ->
  (forall k t, i <= k < i + Z.of_nat n -> P k t -> P (k + 1) (f k t)) ->
  P (i + Z.of_nat n) (for_up i n f s).
Proof.
  revert i s; induction n as [|n IH]; intros i s H0 Hs; simpl.
  - now rewrite Z.add_0_r.
  - replace (i + Z.pos (Pos.of_succ_nat n)) with ((i + 1) + Z.of_nat n) by lia.
    apply IH; [apply Hs; [lia|auto]|]. intros; apply Hs; [lia|auto].
Qed.

Lemma for_down_inv {S} (P : Z -> S -> Prop) (f : Z -> S -> S) n i s :
  P i s ->
  (forall k t, i - Z.of_nat n < k <= i -> P k t -> P (k - 1) (f k t)) ->
  P (i - Z.of_nat n) (for_down i n f s).
Proof.
  revert i s; induction n as [|n IH]; intros i s H0 Hs; simpl.
  - now rewrite Z.sub_0_r.
  - replace (i - Z.pos (Pos.of_succ_nat n)) with ((i - 1) - Z.of_nat n) by lia.
    apply IH; [apply Hs; [lia|auto]|]. intros; apply Hs; [lia|auto].
Qed.

(** An invariant that does not mention the index. *)
Lemma for_up_pres {S} (P : S -> Prop) (f : Z -> S -> S) n i s :
  P s -> (forall k t, i <= k < i + Z.of_nat n -> P t -> P (f k t)) ->
  P (for_up i n f s).
Proof. intros H Hs. apply (for_up_inv (fun _ => P)); auto. Qed.

Lemma for_down_pres {S} (P : S -> Prop) (f : Z -> S -> S) n i s :
  P s -> (forall k t, i - Z.of_nat n < k <= i -> P t -> P (f k t)) ->
  P (for_down i n f s).
Proof. intros H Hs. apply (for_down_inv (fun _ => P)); auto. Qed.

Lemma for_up_ext {S} (f g : Z -> S -> S) n i s :
  (forall k t, i <= k < i + Z.of_nat n -> f k t = g k t) ->
  for_up i n f s = for_up i n g s.
Proof.
  revert i s; induction n as [|n IH]; intros i s H; simpl; auto.
  rewrite H by lia. apply IH. intros; apply H; lia.
Qed.

Lemma for_up_snoc {S} (f : Z -> S -> S) n i s :
  for_up i (Datatypes.S n) f s = f (i + Z.of_nat n) (for_up i n f s).
Proof.
  revert i s; induction n as [|n IH]; intros i s.
  - simpl. now rewrite Z.add_0_r.
  - change (for_up i (Datatypes.S (Datatypes.S n)) f s)
      with (for_up (i + 1) (Datatypes.S n) f (f i s)).
    rewrite IH. simpl. f_equal. lia.
Qed.

(** ** Pointwise description of the array operations *)

Lemma rd_blit src a i j :
  0 <= i -> i + zlen src <= zlen a ->
  rd (blit a i src) j =
    if (i <=? j) && (j <? i + zlen src) then rd src (j - i) else rd a j.
Proof.
  revert a i; induction src as [|x src IH]; intros a i Hi Hl; cbn [blit].
  - rewrite zlen_nil, Z.add_0_r.
    destruct ((i <=? j) && (j <? i)) eqn:E; [bool_lia|reflexivity].
  - autorewrite with zlen in *. pose proof (zlen_nonneg src).
    rewrite IH by (autorewrite with zlen; lia).
    destruct (Z.eq_dec j i) as [->|Hne].
    + replace ((i + 1 <=? i) && _) with false by lia.
      replace ((i <=? i) && _) with true by lia.
      rewrite Z.sub_diag, rd_0. apply rd_wr_eq; lia.
    + replace ((i <=? j) && (j <? i + (1 + zlen src)))
        with ((i + 1 <=? j) && (j <? i + 1 + zlen src)) by lia.
      destruct (_ && _) eqn:E.
      * rewrite rd_cons by bool_lia. f_equal; lia.
      * apply rd_wr_ne; lia.
Qed.

Lemma zlen_blit a i src : zlen (blit a i src) = zlen a.
Proof. unfold zlen; now rewrite length_blit. Qed.
#[export] Hint Rewrite zlen_blit : zlen.

Lemma rd_slice a i n j :
  0 <= i -> 0 <= j < n -> rd (slice a i n) j = rd a (i + j).
Proof.
  unfold rd, slice; intros. destruct (j <? 0) eqn:?; [lia|].
  destruct (i + j <? 0) eqn:?; [lia|].
  rewrite nth_firstn. destruct (Nat.ltb_spec (Z.to_nat j) (Z.to_nat n)); [|lia].
  rewrite nth_skipn. f_equal. lia.
Qed.

(** The array whose [j]-th element is [f j]. *)
Definition tabulate (n : Z) (f : Z -> Z) : list Z :=
  map (fun k => f (Z.of_nat k)) (seq 0 (Z.to_nat n)).

Lemma zlen_tabulate n f : 0 <= n -> zlen (tabulate n f) = n.
Proof. unfold zlen, tabulate; intros; rewrite length_map, length_seq; lia. Qed.

Lemma rd_tabulate n f j : 0 <= j < n -> rd (tabulate n f) j = f j.
Proof.
  unfold rd, tabulate; intros. destruct (j <? 0) eqn:?; [lia|].
  rewrite nth_indep with (d' := f (Z.of_nat (Z.to_nat j)))
    by (rewrite length_map, length_seq; lia).
  rewrite (map_nth (fun k => f (Z.of_nat k)) (seq 0 (Z.to_nat n)) (Z.to_nat j)).
  rewrite seq_nth by lia. f_equal; lia.
Qed.

Lemma NoDup_app_disj {A} (a b : list A) : NoDup (a ++ b) -> forall x, In x a -> ~ In x b.
Proof.
  induction a as [|y a IH]; cbn; intros N x Hx; [destruct Hx|].
  inversion N as [|? ? Hy N']; subst. destruct Hx as [<-|Hx]; [|now apply IH].
  intros H. apply Hy, in_or_app. now right.
Qed.

Lemma Forall_firstn {A} (P : A -> Prop) n l : Forall P l -> Forall P (firstn n l).
Proof.
  intros H. revert n; induction H as [|x l Hx _ IH]; intros [|n]; cbn; constructor; auto.
Qed.

Lemma Forall_skipn {A} (P : A -> Prop) n l : Forall P l -> Forall P (skipn n l).
Proof. intros H; revert n; induction H; intros [|n]; cbn; auto. Qed.

Lemma rd_firstn a n j : 0 <= j < n -> rd (firstn (Z.to_nat n) a) j = rd a j.
Proof.
  intros. change (firstn (Z.to_nat n) a) with (slice a 0 n).
  rewrite rd_slice by lia. f_equal; lia.
Qed.

Lemma rd_skipn a n j : 0 <= n -> 0 <= j -> rd (skipn (Z.to_nat n) a) j = rd a (n + j).
Proof.
  unfold rd; intros. destruct (j <? 0) eqn:?; [lia|].
  destruct (n + j <? 0) eqn:?; [lia|]. rewrite nth_skipn. f_equal; lia.
Qed.

Lemma zlen_firstn {A} (a : list A) n :
  0 <= n <= zlen a -> zlen (firstn (Z.to_nat n) a) = n.
Proof. unfold zlen; intros; rewrite length_firstn; lia. Qed.

Lemma zlen_skipn {A} (a : list A) n :
  0 <= n <= zlen a -> zlen (skipn (Z.to_nat n) a) = zlen a - n.
Proof. unfold zlen; intros; rewrite length_skipn; lia. Qed.

Lemma firstn_add {A} (l : list A) m n :
  firstn (m + n) l = firstn m l ++ firstn n (skipn m l).
Proof. revert l; induction m; intros [|x l]; simpl; rewrite ?firstn_nil; f_equal; auto. Qed.

Lemma slice_add {A} (a : list A) i m n :
  0 <= i -> 0 <= m -> 0 <= n -> slice a i (m + n) = slice a i m ++ slice a (i + m) n.
Proof.
  unfold slice; intros. rewrite !Z2Nat.inj_add by lia.
  rewrite firstn_add, skipn_skipn. now rewrite (Nat.add_comm (Z.to_nat m)).
Qed.

Lemma slice_mid {A} (a b c : list A) : slice (a ++ b ++ c) (zlen a) (zlen b) = b.
Proof.
  unfold slice, zlen. rewrite !Nat2Z.id, skipn_app, skipn_all, Nat.sub_diag. cbn [skipn app].
  rewrite firstn_app, Nat.sub_diag, firstn_all. apply app_nil_r.
Qed.

Lemma slice_0 {A} (a : list A) n : slice a 0 n = firstn (Z.to_nat n) a.
Proof. reflexivity. Qed.

Lemma slice_all {A} (a : list A) : slice a 0 (zlen a) = a.
Proof. unfold slice, zlen. rewrite Nat2Z.id. apply firstn_all. Qed.

(** ** Loops that fill an array *)

Lemma zlen_for_wr (f : Z -> list Z -> Z) (g : Z -> Z) n i a :
  zlen (for_up i n (fun k a => wr a (g k) (f k a)) a) = zlen a.
Proof.
  apply (for_up_pres (fun b => zlen b = zlen a)); [reflexivity|].
  intros k t _ H. now autorewrite with zlen.
Qed.

(** Writing [f k] at [k] for [i <= k < i + n]. *)
Lemma rd_for_wr (f : Z -> Z) n i a j :
  0 <= i -> i + Z.of_nat n <= zlen a ->
  rd (for_up i n (fun k a => wr a k (f k)) a) j =
    if (i <=? j) && (j <? i + Z.of_nat n) then f j else rd a j.
Proof.
  revert i a; induction n as [|n IH]; intros i a Hi Hn; cbn [for_up].
  - change (Z.of_nat 0) with 0. rewrite Z.add_0_r.
    destruct ((i <=? j) && (j <? i)) eqn:E; [bool_lia|reflexivity].
  - rewrite IH by (rewrite ?zlen_wr; lia). rewrite Nat2Z.inj_succ in *.
    pose proof (Nat2Z.is_nonneg n) as Hm. clear IH. revert Hn Hm.
    generalize (Z.of_nat n). unfold Z.succ. intros m Hn Hm.
    destruct (Z.eq_dec j i) as [->|Hne].
    + rewrite rd_wr_eq by lia. ifs_lia.
    + rewrite rd_wr_ne by lia. ifs_lia.
Qed.

(** ** Finite sums *)

(** [f i + f (i + 1) + ... + f (i + n - 1)]. *)
Fixpoint sum_up (i : Z) (n : nat) (f : Z -> Z) : Z :=
  match n with
  | O => 0
  | S n' => f i + sum_up (i + 1) n' f
  end.

Lemma sum_up_snoc i n f : sum_up i (S n) f = sum_up i n f + f (i + Z.of_nat n).
Proof.
  revert i; induction n as [|n IH]; intros i.
  - replace (i + Z.of_nat 0) with i by lia. cbn [sum_up]. lia.
  - change (sum_up i (S (S n)) f) with (f i + sum_up (i + 1) (S n) f).
    rewrite IH. replace (i + 1 + Z.of_nat n) with (i + Z.of_nat (S n)) by lia. cbn [sum_up]. lia.
Qed.

Lemma sum_up_ext i n f g :
  (forall k, i <= k < i + Z.of_nat n -> f k = g k) -> sum_up i n f = sum_up i n g.
Proof.
  revert i; induction n as [|n IH]; intros i H; simpl; [reflexivity|].
  rewrite H by lia. f_equal. apply IH. intros; apply H; lia.
Qed.

Lemma sum_up_abs_le i n f B :
  (forall k, i <= k < i + Z.of_nat n -> - B <= f k <= B) ->
  - (Z.of_nat n * B) <= sum_up i n f <= Z.of_nat n * B.
Proof.
  revert i; induction n as [|n IH]; intros i H; cbn [sum_up]; [lia|].
  pose proof (H i ltac:(lia)). specialize (IH (i + 1) ltac:(intros; apply H; lia)). lia.
Qed.

Lemma sum_up_nonneg i n f :
  (forall k, i <= k < i + Z.of_nat n -> 0 <= f k) -> 0 <= sum_up i n f.
Proof.
  revert i; induction n as [|n IH]; intros i H; cbn [sum_up]; [lia|].
  pose proof (H i ltac:(lia)). specialize (IH (i + 1) ltac:(intros; apply H; lia)). lia.
Qed.

Lemma sum_up_app i m n f :
  sum_up i (m + n) f = sum_up i m f + sum_up (i + Z.of_nat m) n f.
Proof.
  revert i; induction m as [|m IH]; intros i.
  - simpl. now rewrite Z.add_0_r.
  - cbn [sum_up Nat.add]. rewrite IH.
    replace (i + 1 + Z.of_nat m) with (i + Z.of_nat (S m)) by lia. lia.
Qed.

(** An accumulator reduced to 32 bits at every step is the exact sum when the
    partial sums stay in range. *)
Lemma for_up_sum32 (f : Z -> Z) n i s B :
  (forall k, i <= k < i + Z.of_nat n -> - B <= f k <= B) ->
  - 2147483648 <= s - Z.of_nat n * B -> s + Z.of_nat n * B <= 2147483647 ->
  for_up i n (fun k s => s32 (s + f k)) s = s + sum_up i n f.
Proof.
  revert i s; induction n as [|n IH]; intros i s H Hlo Hhi; cbn [for_up sum_up]; [lia|].
  pose proof (H i ltac:(lia)).
  rewrite s32_id by (int_unfold; nia).
  rewrite IH; [lia|intros; apply H; lia|lia|lia].
Qed.

(** The same from a bound on the sum of the magnitudes. *)
Lemma for_up_sum32_abs (f : Z -> Z) n i s :
  Z.abs s + sum_up i n (fun k => Z.abs (f k)) <= 2147483647 ->
  for_up i n (fun k s => s32 (s + f k)) s = s + sum_up i n f.
Proof.
  revert i s; induction n as [|n IH]; intros i s H; cbn [for_up sum_up] in *; [lia|].
  pose proof (sum_up_nonneg (i + 1) n (fun k => Z.abs (f k)) ltac:(intros; lia)).
  rewrite s32_id by (int_unfold; lia). rewrite IH by lia. lia.
Qed.

Lemma sum_up_le i n f g :
  (forall k, i <= k < i + Z.of_nat n -> f k <= g k) -> sum_up i n f <= sum_up i n g.
Proof.
  revert i; induction n as [|n IH]; intros i H; cbn [sum_up]; [lia|].
  pose proof (H i ltac:(lia)). specialize (IH (i + 1) ltac:(intros; apply H; lia)). lia.
Qed.

Lemma sum_up_mul i n c f : sum_up i n (fun k => c * f k) = c * sum_up i n f.
Proof. revert i; induction n as [|n IH]; intros i; cbn [sum_up]; [lia|]. rewrite IH. lia. Qed.

(** ** Finite checks *)

(** A boolean property of the numbers below [n], by evaluation. *)
Lemma below_forallb (P : Z -> bool) n x :
  forallb P (map Z.of_nat (seq 0 (Z.to_nat n))) = true -> 0 <= x < n -> P x = true.
Proof.
  intros H Hx. rewrite forallb_forall in H. apply H. apply in_map_iff.
  exists (Z.to_nat x). split; [lia|]. apply in_seq. lia.
Qed.
