(* ===== verification/RingBuffer.v ===== *)
(** * The ring buffer of common_audio

    Models src/orbit/webrtc/common_audio/ring_buffer.c: the struct, its seven
    operations, the two-region read and the wrap indicator.  The abstract
    value of a buffer is the byte queue [contents]; the theorems show that
    reading, writing and moving the read pointer are the queue operations. *)

From S2P Require Import Prelude.

Module RingBuffer.

Inductive Wrap := SAME_WRAP | DIFF_WRAP.

(** struct RingBuffer; [data] is the allocated byte array. *)
Record t := mk {
  read_pos : Z;
  write_pos : Z;
  element_count : Z;
  element_size : Z;
  rw_wrap : Wrap;
  data : list Z
}.

Definition set_read (b : t) (p : Z) (w : Wrap) : t :=
  mk p (write_pos b) (element_count b) (element_size b) w (data b).

Definition WebRtc_available_read (self : option t) : Z :=
  match self with
  | None => 0
  | Some b =>
      match rw_wrap b with
      | SAME_WRAP => u64 (write_pos b - read_pos b)
      | DIFF_WRAP => u64 (element_count b - read_pos b + write_pos b)
      end
  end.

Definition WebRtc_available_write (self : option t) : Z :=
  match self with
  | None => 0
  | Some b => u64 (element_count b - WebRtc_available_read self)
  end.

Definition WebRtc_InitBuffer (b : t) : t :=
  mk 0 0 (element_count b) (element_size b) SAME_WRAP
     (blit (data b) 0 (zeros (u64 (element_count b * element_size b)))).

(** [mem] is what the second malloc returns: the fresh (uninitialised) block
    of the requested size, or [None] when the allocation fails; [mem0] says
    whether the first malloc, of the struct, succeeds. *)
Definition WebRtc_CreateBuffer (element_count element_size : Z)
    (mem0 : bool) (mem : Z -> option (list Z)) : option t :=
  if (element_count =? 0) || (element_size =? 0) then None
  else if negb mem0 then None
  else match mem (u64 (element_count * element_size)) with
       | None => None
       | Some d => Some (WebRtc_InitBuffer (mk 0 0 element_count element_size SAME_WRAP d))
       end.

(** The regions of a read: byte offset and byte count of the first, byte count
    of the second (which starts at offset 0), and the elements to read. *)
Definition GetBufferReadRegions (buf : t) (element_count_ : Z) : Z * Z * Z * Z :=
  let readable_elements := WebRtc_available_read (Some buf) in
  let read_elements :=
    if readable_elements <? element_count_ then readable_elements else element_count_ in
  let margin := u64 (element_count buf - read_pos buf) in
  let off := u64 (read_pos buf * element_size buf) in
  if margin <? read_elements then
    (off, u64 (margin * element_size buf),
     u64 ((read_elements - margin) * element_size buf), read_elements)
  else
    (off, u64 (read_elements * element_size buf), 0, read_elements).

Definition WebRtc_MoveReadPtr (self : option t) (element_count_ : Z) : Z * option t :=
  match self with
  | None => (0, None)
  | Some b =>
      let free_elements := s32 (WebRtc_available_write self) in
      let readable_elements := s32 (WebRtc_available_read self) in
      let pos := s32 (read_pos b) in
      let e := if readable_elements <? element_count_ then readable_elements else element_count_ in
      let e := if e <? - free_elements then - free_elements else e in
      let pos := s32 (pos + e) in
      let (pos, w) :=
        if s32 (element_count b) <? pos then (s32 (pos - s32 (element_count b)), SAME_WRAP)
        else (pos, rw_wrap b) in
      let (pos, w) :=
        if pos <? 0 then (s32 (pos + s32 (element_count b)), DIFF_WRAP) else (pos, w) in
      (e, Some (set_read b (u64 pos) w))
  end.

(** Where the reader finds its data: in the buffer at a byte offset, or in the
    array it passed. *)
Inductive where_ := InBuffer (off : Z) | InData.

(** [want_ptr] is [data_ptr != NULL]; the result is the count, the buffer, the
    contents of [data] and [*data_ptr]. *)
Definition WebRtc_ReadBuffer (self : option t) (want_ptr : bool)
    (data_ : option (list Z)) (element_count_ : Z)
    : Z * option t * option (list Z) * option where_ :=
  match self, data_ with
  | None, _ => (0, self, data_, None)
  | _, None => (0, self, data_, None)
  | Some b, Some out =>
      let '(off1, bytes1, bytes2, read_count) := GetBufferReadRegions b element_count_ in
      let '(out, p) :=
        if 0 <? bytes2 then
          (blit (blit out 0 (slice (data b) off1 bytes1)) bytes1 (slice (data b) 0 bytes2),
           InData)
        else if negb want_ptr then
          (blit out 0 (slice (data b) off1 bytes1), InBuffer off1)
        else (out, InBuffer off1) in
      let (_, b') := WebRtc_MoveReadPtr self (s32 read_count) in
      (read_count, b', Some out, if want_ptr then Some p else None)
  end.

Definition WebRtc_WriteBuffer (self : option t) (src : option (list Z))
    (element_count_ : Z) : Z * option t :=
  match self, src with
  | None, _ => (0, None)
  | _, None => (0, self)
  | Some b, Some src =>
      let free_elements := WebRtc_available_write self in
      let write_elements :=
        if free_elements <? element_count_ then free_elements else element_count_ in
      let margin := u64 (element_count b - write_pos b) in
      let es := element_size b in
      let '(n, wpos, w, d) :=
        if margin <? write_elements then
          (u64 (write_elements - margin), 0, DIFF_WRAP,
           blit (data b) (u64 (write_pos b * es)) (slice src 0 (u64 (margin * es))))
        else (write_elements, write_pos b, rw_wrap b, data b) in
      let d := blit d (u64 (wpos * es))
                 (slice src (u64 ((write_elements - n) * es)) (u64 (n * es))) in
      (write_elements,
       Some (mk (read_pos b) (u64 (wpos + n)) (element_count b) es w d))
  end.

(** ** The abstract queue *)

Definition readable (b : t) : Z :=
  match rw_wrap b with
  | SAME_WRAP => write_pos b - read_pos b
  | DIFF_WRAP => element_count b - read_pos b + write_pos b
  end.

Definition capacity_bytes (b : t) : Z := element_count b * element_size b.

(** The [len] bytes starting at offset [R] of a ring of [N] bytes. *)
Definition ring_view (N R len : Z) (d : list Z) : list Z :=
  tabulate len (fun j => let k := R + j in rd d (if k <? N then k else k - N)).

(** The bytes a reader has not consumed, oldest first. *)
Definition contents (b : t) : list Z :=
  ring_view (capacity_bytes b) (read_pos b * element_size b)
            (readable b * element_size b) (data b).

(** Well-formed buffers: the element count is below 2^30, so that the [int]
    sum [read_pos + element_count] of [WebRtc_MoveReadPtr] does not overflow,
    and the positions are where the wrap indicator says. *)
Record wf (b : t) : Prop := {
  wf_count : 0 < element_count b < 1073741824;
  wf_size : 0 < element_size b;
  wf_bytes : capacity_bytes b < 18446744073709551616;
  wf_data : zlen (data b) = capacity_bytes b;
  wf_read : 0 <= read_pos b <= element_count b;
  wf_write : 0 <= write_pos b <= element_count b;
  wf_wrap : match rw_wrap b with
            | SAME_WRAP => read_pos b <= write_pos b
            | DIFF_WRAP => write_pos b <= read_pos b
            end
}.

Ltac open_wf H :=
  destruct H as [?Hc ?Hs ?Hb ?Hd ?Hr ?Hw ?Hx].

Lemma readable_range b : wf b -> 0 <= readable b <= element_count b.
Proof. intros H; open_wf H. unfold readable. destruct (rw_wrap b); lia. Qed.

Lemma available_read_eq b : wf b -> WebRtc_available_read (Some b) = readable b.
Proof.
  intros H. pose proof (readable_range b H). open_wf H.
  unfold WebRtc_available_read, readable in *. destruct (rw_wrap b); apply u64_id; int_unfold; lia.
Qed.

Lemma available_write_eq b :
  wf b -> WebRtc_available_write (Some b) = element_count b - readable b.
Proof.
  intros H. cbn [WebRtc_available_write]. rewrite available_read_eq by auto.
  pose proof (readable_range b H). open_wf H. apply u64_id; int_unfold; lia.
Qed.

Lemma zlen_contents b : wf b -> zlen (contents b) = readable b * element_size b.
Proof.
  intros H. pose proof (readable_range b H). open_wf H.
  apply zlen_tabulate. nia.
Qed.

(** ** Byte rings *)

Lemma zlen_ring_view N R len d : 0 <= len -> zlen (ring_view N R len d) = len.
Proof. apply zlen_tabulate. Qed.

Lemma rd_ring_view N R len d j :
  0 <= j < len ->
  rd (ring_view N R len d) j = rd d (if R + j <? N then R + j else R + j - N).
Proof. intros. unfold ring_view. now rewrite rd_tabulate. Qed.

(** Writing after the last byte of the view appends to it. *)
Lemma ring_view_append N R len W d s :
  zlen d = N -> 0 <= R <= N -> 0 <= len -> len + zlen s <= N ->
  0 <= W -> W + zlen s <= N -> (W = R + len \/ W = R + len - N) ->
  ring_view N R (len + zlen s) (blit d W s) = ring_view N R len d ++ s.
Proof.
  intros Hd HR Hlen Hfit HW0 HW Hpos. pose proof (zlen_nonneg s).
  apply rd_ext.
  - rewrite zlen_app, !zlen_ring_view; lia.
  - intros j Hj. rewrite zlen_ring_view in Hj by lia.
    rewrite rd_ring_view, rd_blit by lia.
    destruct (Z.ltb_spec j len).
    + rewrite rd_app_l by (rewrite zlen_ring_view; lia).
      rewrite rd_ring_view by lia. ifs_lia.
    + rewrite rd_app_r by (rewrite zlen_ring_view; lia).
      rewrite zlen_ring_view by lia.
      ifs_lia.
Qed.

(** Dropping bytes from the front. *)
Lemma ring_view_split N R len K R' d :
  0 <= K <= len -> len <= N -> 0 <= R <= N -> 0 <= R' <= N ->
  (R' = R + K \/ R' = R + K - N) ->
  ring_view N R len d = ring_view N R K d ++ ring_view N R' (len - K) d.
Proof.
  intros HK Hl HR HR' Hpos. apply rd_ext.
  - rewrite zlen_app, !zlen_ring_view; lia.
  - intros j Hj. rewrite zlen_ring_view in Hj by lia.
    rewrite rd_ring_view by lia.
    destruct (Z.ltb_spec j K).
    + rewrite rd_app_l by (rewrite zlen_ring_view; lia). now rewrite rd_ring_view by lia.
    + rewrite rd_app_r by (rewrite zlen_ring_view; lia). rewrite zlen_ring_view by lia.
      rewrite rd_ring_view by lia. ifs_lia.
Qed.

(** A view that does not wrap is a slice; one that does is two. *)
Lemma ring_view_slice N R K d :
  0 <= R -> 0 <= K -> R + K <= N -> N <= zlen d ->
  ring_view N R K d = slice d R K.
Proof.
  intros. apply rd_ext; [rewrite zlen_ring_view, zlen_slice; lia|].
  intros j Hj. rewrite zlen_ring_view in Hj by lia.
  rewrite rd_ring_view, rd_slice by lia. ifs_lia.
Qed.

(** Rewrites the conversions of a well-formed buffer away. *)
Ltac norm_u64 :=
  repeat match goal with
    | |- context [u64 ?x] =>
        lazymatch x with
        | context [u64 _] => fail
        | _ => rewrite (u64_id x) by (int_unfold; nia)
        end
    end.

(** The positions in bytes. *)
Lemma wf_scaled b :
  wf b ->
  let R := read_pos b * element_size b in
  let W := write_pos b * element_size b in
  let len := readable b * element_size b in
  0 <= R <= capacity_bytes b /\ 0 <= W <= capacity_bytes b /\
  0 <= len <= capacity_bytes b /\
  match rw_wrap b with
  | SAME_WRAP => W = R + len
  | DIFF_WRAP => W = R + len - capacity_bytes b
  end.
Proof.
  intros H. pose proof (readable_range b H). open_wf H.
  unfold capacity_bytes, readable in *. destruct (rw_wrap b); cbn; repeat split; nia.
Qed.

Lemma WriteBuffer_nowrap b src n :
  wf b -> 0 <= n < 18446744073709551616 ->
  let k := Z.min n (element_count b - readable b) in
  k <= element_count b - write_pos b ->
  WebRtc_WriteBuffer (Some b) (Some src) n =
    (k, Some (mk (read_pos b) (write_pos b + k) (element_count b) (element_size b)
               (rw_wrap b)
               (blit (data b) (write_pos b * element_size b)
                  (slice src 0 (k * element_size b))))).
Proof.
  intros H Hn k Hm. pose proof (readable_range b H) as Hrr.
  unfold WebRtc_WriteBuffer. rewrite available_write_eq by auto.
  replace (if _ <? n then _ else n) with k by (unfold k; case_if; lia).
  assert (0 <= k <= element_count b) by lia. clearbody k.
  open_wf H. unfold capacity_bytes in *. norm_u64.
  replace (_ <? k) with false by lia. rewrite Z.sub_diag, Z.mul_0_l. norm_u64. reflexivity.
Qed.

Lemma WriteBuffer_wrap b src n :
  wf b -> 0 <= n < 18446744073709551616 ->
  let k := Z.min n (element_count b - readable b) in
  let m := element_count b - write_pos b in
  m < k ->
  WebRtc_WriteBuffer (Some b) (Some src) n =
    (k, Some (mk (read_pos b) (k - m) (element_count b) (element_size b) DIFF_WRAP
               (blit (blit (data b) (write_pos b * element_size b)
                        (slice src 0 (m * element_size b)))
                  0 (slice src (m * element_size b) ((k - m) * element_size b))))).
Proof.
  intros H Hn k m Hm. pose proof (readable_range b H) as Hrr.
  unfold WebRtc_WriteBuffer. rewrite available_write_eq by auto.
  replace (if _ <? n then _ else n) with k by (unfold k; case_if; lia).
  assert (0 <= k <= element_count b) by lia. clearbody k.
  open_wf H. unfold capacity_bytes in *.
  assert (0 <= m <= element_count b) by lia.
  replace (u64 (element_count b - write_pos b)) with m by (symmetry; apply u64_id; int_unfold; lia).
  replace (m <? k) with true by lia. rewrite Z.mul_0_l, Z.add_0_l. norm_u64.
  replace (k - (k - m)) with m by lia. reflexivity.
Qed.

(** In a state where the write wraps, the reader is behind the writer. *)
Lemma wrap_is_same b k :
  wf b -> k <= element_count b - readable b -> element_count b - write_pos b < k ->
  rw_wrap b = SAME_WRAP.
Proof.
  intros H; open_wf H. unfold readable. destruct (rw_wrap b); [auto|lia].
Qed.

(** Elements to bytes. *)
Lemma scaled_le k n E : k <= n -> 0 < E -> k * E <= n * E.
Proof. nia. Qed.

Lemma zlen_slice0 {A} (a : list A) n : 0 <= n <= zlen a -> zlen (slice a 0 n) = n.
Proof. intros; apply zlen_slice; lia. Qed.

Lemma write_nowrap_spec b src k :
  wf b -> 0 <= k <= element_count b - readable b ->
  k * element_size b <= zlen src -> k <= element_count b - write_pos b ->
  let b' := mk (read_pos b) (write_pos b + k) (element_count b) (element_size b)
               (rw_wrap b)
               (blit (data b) (write_pos b * element_size b)
                  (slice src 0 (k * element_size b))) in
  wf b' /\ contents b' = contents b ++ slice src 0 (k * element_size b).
Proof.
  intros H Hk Hsrc Hm b'.
  pose proof (wf_scaled b H) as (HR & HW & HL & HX).
  pose proof (zlen_slice0 src (k * element_size b) ltac:(open_wf H; nia)) as Hsl.
  assert (Hread : readable b' = readable b + k)
    by (unfold readable, b'; cbn; destruct (rw_wrap b); lia).
  split.
  - open_wf H. unfold readable, capacity_bytes in *.
    split; unfold capacity_bytes; cbn; autorewrite with zlen; try lia.
    destruct (rw_wrap b); lia.
  - unfold contents. rewrite Hread. cbn [read_pos element_size data b'].
    change (capacity_bytes b') with (capacity_bytes b).
    rewrite Z.mul_add_distr_r, <- Hsl at 1. open_wf H.
    apply ring_view_append; rewrite ?Hsl; unfold capacity_bytes in *; try lia.
    + pose proof (scaled_le _ _ (element_size b) (proj2 Hk) Hs). lia.
    + pose proof (scaled_le _ _ (element_size b) Hm Hs). lia.
    + destruct (rw_wrap b); lia.
Qed.

Lemma write_wrap_spec b src k :
  wf b -> let m := element_count b - write_pos b in
  m < k <= element_count b - readable b ->
  k * element_size b <= zlen src ->
  let b' := mk (read_pos b) (k - m) (element_count b) (element_size b) DIFF_WRAP
               (blit (blit (data b) (write_pos b * element_size b)
                        (slice src 0 (m * element_size b)))
                  0 (slice src (m * element_size b) ((k - m) * element_size b))) in
  wf b' /\ contents b' = contents b ++ slice src 0 (k * element_size b).
Proof.
  intros H m Hk Hsrc b'.
  pose proof (wrap_is_same b k H ltac:(lia) ltac:(lia)) as Hsame.
  pose proof (wf_scaled b H) as (HR & HW & HL & HX).
  assert (Hread : readable b' = readable b + k)
    by (unfold readable, b'; rewrite Hsame; cbn; lia).
  assert (Hm0 : 0 <= m) by (open_wf H; lia).
  assert (Hs1 : zlen (slice src 0 (m * element_size b)) = m * element_size b)
    by (open_wf H; apply zlen_slice0; nia).
  assert (Hs2 : zlen (slice src (m * element_size b) ((k - m) * element_size b))
                = (k - m) * element_size b) by (open_wf H; apply zlen_slice; nia).
  rewrite Hsame in HX.
  assert (HmE : m * element_size b = capacity_bytes b - write_pos b * element_size b)
    by (unfold capacity_bytes; nia).
  assert (Hfit : k * element_size b <= capacity_bytes b - readable b * element_size b)
    by (unfold capacity_bytes; open_wf H; nia).
  rewrite Z.mul_sub_distr_r in Hs2.
  split.
  - unfold readable in *; rewrite Hsame in *. open_wf H. unfold capacity_bytes in *.
    split; unfold capacity_bytes; cbn; autorewrite with zlen; lia.
  - unfold contents. rewrite Hread. cbn [read_pos element_size data b'].
    change (capacity_bytes b') with (capacity_bytes b).
    rewrite Z.mul_sub_distr_r in *.
    replace (slice src 0 (k * element_size b)) with
      (slice src 0 (m * element_size b) ++
       slice src (m * element_size b) (k * element_size b - m * element_size b)).
    + rewrite app_assoc, <- ring_view_append with (W := write_pos b * element_size b);
        open_wf H; try (rewrite ?Hs1; lia).
      rewrite <- ring_view_append with (W := 0); autorewrite with zlen; try (rewrite ?Hs1, ?Hs2; lia).
      f_equal. rewrite Hs1, Hs2. lia.
    + rewrite <- slice_add by (open_wf H; nia). f_equal. lia.
Qed.

(** C38. [WebRtc_WriteBuffer] on a well-formed buffer appends to the byte queue
    as many of the caller's elements as there is room for, and no other byte
    of the queue changes; the buffer stays well formed and the count returned
    is the number of elements appended. *)
Theorem WriteBuffer_refines b src n :
  wf b -> 0 <= n < 18446744073709551616 ->
  let k := Z.min n (element_count b - readable b) in
  k * element_size b <= zlen src ->
  exists b', WebRtc_WriteBuffer (Some b) (Some src) n = (k, Some b') /\
    wf b' /\ contents b' = contents b ++ slice src 0 (k * element_size b).
Proof.
  intros H Hn k Hsrc. pose proof (readable_range b H).
  destruct (Z.le_gt_cases k (element_count b - write_pos b)) as [Hm|Hm].
  - eexists. split; [apply WriteBuffer_nowrap; auto|]. apply write_nowrap_spec; auto; lia.
  - eexists. split; [apply WriteBuffer_wrap; auto; lia|]. apply write_wrap_spec; auto; lia.
Qed.

(** The number of elements [WebRtc_MoveReadPtr] moves over. *)
Definition moved (b : t) (e : Z) : Z :=
  Z.max (readable b - element_count b) (Z.min (readable b) e).

(** The buffer after the read pointer moved by [k] elements. *)
Definition move_to (b : t) (k : Z) : t :=
  let p := read_pos b + k in
  if element_count b <? p then set_read b (p - element_count b) SAME_WRAP
  else if p <? 0 then set_read b (p + element_count b) DIFF_WRAP
  else set_read b p (rw_wrap b).

Lemma MoveReadPtr_eq b e :
  wf b -> in_s32 e -> WebRtc_MoveReadPtr (Some b) e = (moved b e, Some (move_to b (moved b e))).
Proof.
  intros H He. pose proof (readable_range b H). unfold WebRtc_MoveReadPtr.
  rewrite available_write_eq, available_read_eq by auto.
  pose proof H as Hwf. open_wf H.
  rewrite !(s32_id (element_count b)), (s32_id (read_pos b)), (s32_id (readable b)),
    (s32_id (element_count b - readable b)) by (int_unfold; lia).
  replace (if _ <? - _ then _ else _) with (moved b e)
    by (unfold moved; case_if; case_if; lia).
  assert (Hm : - element_count b <= moved b e <= readable b) by (unfold moved; lia).
  unfold move_to. rewrite (s32_id (read_pos b + moved b e)) by (int_unfold; lia).
  destruct (element_count b <? read_pos b + moved b e) eqn:E1.
  - rewrite s32_id by (int_unfold; lia).
    replace (_ <? 0) with false by lia. rewrite u64_id by (int_unfold; lia). reflexivity.
  - destruct (read_pos b + moved b e <? 0) eqn:E2.
    + rewrite s32_id by (int_unfold; lia). rewrite u64_id by (int_unfold; lia). reflexivity.
    + rewrite u64_id by (int_unfold; lia). reflexivity.
Qed.

Lemma move_to_wf b k :
  wf b -> readable b - element_count b <= k <= readable b ->
  wf (move_to b k) /\ readable (move_to b k) = readable b - k.
Proof.
  intros H Hk. open_wf H. unfold readable, move_to, capacity_bytes in *.
  destruct (rw_wrap b) eqn:?; repeat case_if; cbn; rewrite ?Heqw; (split;
    [split; unfold capacity_bytes; cbn; rewrite ?Heqw; try lia; nia | lia]).
Qed.

Lemma move_to_pos b k :
  wf b -> readable b - element_count b <= k <= readable b ->
  let R := read_pos b * element_size b in
  let R' := read_pos (move_to b k) * element_size b in
  0 <= R' <= capacity_bytes b /\
  (R' = R + k * element_size b \/
   0 < k /\ R' = R + k * element_size b - capacity_bytes b \/
   k < 0 /\ R' = R + k * element_size b + capacity_bytes b).
Proof.
  intros H Hk R R'. destruct (move_to_wf b k H Hk) as [H' _].
  assert (element_count (move_to b k) = element_count b)
    by (unfold move_to; repeat case_if; reflexivity).
  pose proof (wf_read _ H') as Hr'. rewrite H0 in Hr'. clear H' H0.
  unfold R, R', capacity_bytes. open_wf H. split; [nia|].
  unfold move_to in *. repeat case_if; cbn in *;
    [right; left; split; [lia|ring]|right; right; split; [lia|ring]|left; ring].
Qed.

Lemma move_to_same b k :
  element_size (move_to b k) = element_size b /\
  capacity_bytes (move_to b k) = capacity_bytes b /\ data (move_to b k) = data b.
Proof. unfold move_to. repeat case_if; auto. Qed.

Lemma move_forward_contents b k :
  wf b -> 0 <= k <= readable b ->
  contents b = ring_view (capacity_bytes b) (read_pos b * element_size b)
                 (k * element_size b) (data b) ++ contents (move_to b k).
Proof.
  intros H Hk. pose proof (readable_range b H).
  destruct (move_to_wf b k H ltac:(lia)) as [_ Hr].
  destruct (move_to_pos b k H ltac:(lia)) as [HR' Hp].
  destruct (move_to_same b k) as (He & Hc & Hd).
  destruct (wf_scaled b H) as (HR & HW & HL & HX).
  pose proof (wf_size b H) as Hs. pose proof (wf_count b H) as Hcnt.
  assert (Hk1 : 0 <= k * element_size b) by nia.
  assert (Hk2 : k * element_size b <= readable b * element_size b) by nia.
  unfold contents. rewrite Hr, He, Hc, Hd, Z.mul_sub_distr_r.
  apply ring_view_split; lia.
Qed.

Lemma move_back_contents b k :
  wf b -> readable b - element_count b <= k < 0 ->
  contents (move_to b k) =
    ring_view (capacity_bytes b) (read_pos (move_to b k) * element_size b)
      (- k * element_size b) (data b) ++ contents b.
Proof.
  intros H Hk. pose proof (readable_range b H).
  destruct (move_to_wf b k H ltac:(lia)) as [H' Hr].
  destruct (move_to_pos b k H ltac:(lia)) as [HR' Hp].
  destruct (move_to_same b k) as (He & Hc & Hd).
  destruct (wf_scaled b H) as (HR & HW & HL & HX).
  destruct (wf_scaled _ H') as (_ & _ & HL' & _).
  rewrite Hr, He, Hc in HL'.
  pose proof (wf_size b H) as Hs.
  assert (Hk1 : 0 < - k * element_size b) by nia.
  assert (HE : - k * element_size b = - (k * element_size b)) by ring.
  rewrite Z.mul_sub_distr_r in HL'.
  unfold contents. rewrite Hr, He, Hc, Hd.
  replace (readable b * element_size b) with
    ((readable b - k) * element_size b - - k * element_size b) by ring.
  rewrite Z.mul_sub_distr_r.
  apply ring_view_split; rewrite ?HE; lia.
Qed.

Lemma app_split_length {A} (x y z : list A) n :
  z = x ++ y -> zlen x = n -> x = slice z 0 n /\ y = skipn (Z.to_nat n) z.
Proof.
  intros -> <-. unfold slice, zlen. rewrite Nat2Z.id.
  change (skipn (Z.to_nat 0) (x ++ y)) with (x ++ y).
  rewrite skipn_app, skipn_all, Nat.sub_diag. cbn [skipn app].
  rewrite firstn_app, firstn_all, Nat.sub_diag. cbn. now rewrite app_nil_r.
Qed.

(** [WebRtc_MoveReadPtr] returns the move clamped to the readable and the
    free elements; a forward move drops that many elements from the front of
    the queue, a backward one puts that many bytes of older data back before
    it, and the buffer stays well formed. *)
Theorem MoveReadPtr_refines b e :
  wf b -> in_s32 e ->
  let k := moved b e in
  exists b', WebRtc_MoveReadPtr (Some b) e = (k, Some b') /\ wf b' /\
    readable b' = readable b - k /\
    (0 <= k -> contents b' = skipn (Z.to_nat (k * element_size b)) (contents b)) /\
    (k < 0 -> exists old, zlen old = - k * element_size b /\ contents b' = old ++ contents b).
Proof.
  intros H He k. exists (move_to b k). pose proof (readable_range b H).
  assert (Hk : readable b - element_count b <= k <= readable b) by (unfold k, moved; lia).
  destruct (move_to_wf b k H Hk) as [H' Hr].
  split; [now apply MoveReadPtr_eq|]. split; [exact H'|]. split; [exact Hr|].
  pose proof (wf_size b H). split; intros Hs.
  - pose proof (move_forward_contents b k H ltac:(lia)) as Hc.
    eapply app_split_length; [exact Hc|]. apply zlen_ring_view. nia.
  - eexists. split; [|apply move_back_contents; auto; lia]. apply zlen_ring_view. nia.
Qed.

(** The bytes a reader finds after a read of [n] bytes. *)
Definition delivered (b : t) (w : option where_) (out : list Z) (n : Z) : list Z :=
  match w with
  | Some (InBuffer off) => slice (data b) off n
  | _ => slice out 0 n
  end.

Lemma slice_blit0 out s : zlen s <= zlen out -> slice (blit out 0 s) 0 (zlen s) = s.
Proof.
  intros. pose proof (zlen_nonneg s). apply rd_ext.
  - apply zlen_slice0. autorewrite with zlen. lia.
  - intros j Hj. rewrite zlen_slice0 in Hj by (autorewrite with zlen; lia).
    rewrite rd_slice, rd_blit by lia. ifs_lia.
Qed.

Lemma slice_blit_app out s1 s2 :
  zlen s1 + zlen s2 <= zlen out ->
  slice (blit (blit out 0 s1) (zlen s1) s2) 0 (zlen s1 + zlen s2) = s1 ++ s2.
Proof.
  intros. pose proof (zlen_nonneg s1). pose proof (zlen_nonneg s2). apply rd_ext.
  - rewrite zlen_app. apply zlen_slice0. autorewrite with zlen. lia.
  - intros j Hj. rewrite zlen_slice0 in Hj by (autorewrite with zlen; lia).
    rewrite rd_slice, rd_blit, rd_blit by (autorewrite with zlen; lia).
    destruct (Z.ltb_spec j (zlen s1)); [rewrite rd_app_l by lia|rewrite rd_app_r by lia]; ifs_lia.
Qed.

(** The regions of a read are the front of the queue. *)
Lemma ReadRegions_spec b n :
  wf b -> 0 <= n < 18446744073709551616 ->
  let k := Z.min n (readable b) in
  exists off b1 b2,
    GetBufferReadRegions b n = (off, b1, b2, k) /\
    0 <= off /\ 0 <= b1 /\ 0 <= b2 /\ off + b1 <= capacity_bytes b /\ b2 <= capacity_bytes b /\
    b1 + b2 = k * element_size b /\
    slice (data b) off b1 ++ slice (data b) 0 b2 =
      ring_view (capacity_bytes b) (read_pos b * element_size b) (k * element_size b) (data b).
Proof.
  intros H Hn k. pose proof (readable_range b H) as Hrr.
  destruct (wf_scaled b H) as (HR & HW & HL & HX).
  unfold GetBufferReadRegions. rewrite available_read_eq by auto.
  replace (if _ <? n then _ else n) with k by (unfold k; case_if; lia).
  assert (Hk : 0 <= k <= readable b) by lia. clearbody k.
  assert (Hk1 : 0 <= k * element_size b <= readable b * element_size b)
    by (pose proof (wf_size b H); nia).
  open_wf H.
  rewrite (u64_id (element_count b - read_pos b)) by (int_unfold; lia).
  rewrite (u64_id (read_pos b * element_size b)) by (int_unfold; lia).
  assert (HmE : (element_count b - read_pos b) * element_size b
                = capacity_bytes b - read_pos b * element_size b)
    by (unfold capacity_bytes; ring).
  destruct (element_count b - read_pos b <? k) eqn:Em.
  - assert (Hgt : capacity_bytes b - read_pos b * element_size b <= k * element_size b)
      by (rewrite <- HmE; nia).
    replace ((k - (element_count b - read_pos b)) * element_size b) with
      (k * element_size b - (capacity_bytes b - read_pos b * element_size b))
      by (rewrite <- HmE; ring).
    rewrite HmE, !u64_id by (int_unfold; lia).
    eexists _, _, _. split; [reflexivity|]. repeat (split; [lia|]).
    rewrite (ring_view_split _ _ (k * element_size b)
       (capacity_bytes b - read_pos b * element_size b) 0) by lia.
    rewrite !ring_view_slice by lia. f_equal.
  - assert (Hle : k * element_size b <= capacity_bytes b - read_pos b * element_size b)
      by (rewrite <- HmE; nia).
    rewrite !u64_id by (int_unfold; lia).
    eexists _, _, _. split; [reflexivity|]. repeat (split; [lia|]).
    rewrite ring_view_slice by lia. now rewrite app_nil_r.
Qed.

(** [WebRtc_ReadBuffer] hands over the front of the queue, as many elements
    as asked for and available, in one or two regions: the caller finds them
    at the returned address (or in its own array, which is where they are
    whenever a copy was requested or the region wraps), and exactly those
    bytes leave the queue. *)
Theorem ReadBuffer_refines b want_ptr out n :
  wf b -> 0 <= n < 2147483648 ->
  let k := Z.min n (readable b) in
  k * element_size b <= zlen out ->
  exists b' out' w,
    WebRtc_ReadBuffer (Some b) want_ptr (Some out) n = (k, Some b', Some out', w) /\
    (w = None <-> want_ptr = false) /\
    delivered b w out' (k * element_size b) = slice (contents b) 0 (k * element_size b) /\
    wf b' /\ contents b' = skipn (Z.to_nat (k * element_size b)) (contents b).
Proof.
  intros H Hn k Hout. pose proof (readable_range b H) as Hrr.
  assert (Hk : 0 <= k <= readable b) by lia.
  destruct (move_to_wf b k H ltac:(lia)) as [H' _].
  pose proof (move_forward_contents b k H ltac:(lia)) as Hc.
  assert (HkE : 0 <= k * element_size b) by (pose proof (wf_size b H); nia).
  destruct (app_split_length _ _ _ _ Hc (zlen_ring_view _ _ _ _ HkE)) as [Hf Hr].
  destruct (ReadRegions_spec b n H ltac:(lia)) as
    (off & b1 & b2 & He & Ho & Hb1 & Hb2 & Hcap1 & Hcap2 & Hsum & Hreg).
  fold k in He, Hsum, Hreg.
  assert (Hmove : WebRtc_MoveReadPtr (Some b) (s32 k) = (k, Some (move_to b k))).
  { pose proof (wf_count b H). rewrite s32_id by (int_unfold; lia).
    rewrite MoveReadPtr_eq by (auto; int_unfold; lia). do 3 f_equal; unfold moved; lia. }
  pose proof (wf_data b H) as Hd.
  assert (Hz1 : zlen (slice (data b) off b1) = b1) by (apply zlen_slice; lia).
  assert (Hz2 : zlen (slice (data b) 0 b2) = b2) by (apply zlen_slice0; lia).
  unfold WebRtc_ReadBuffer. rewrite He, Hmove.
  destruct (0 <? b2) eqn:E2.
  - eexists _, _, _. split; [reflexivity|]. split; [destruct want_ptr; intuition congruence|].
    split; [|split; [exact H'|exact Hr]].
    rewrite <- Hf, <- Hreg, <- Hsum. rewrite <- (slice_blit_app out) by lia.
    rewrite Hz1, Hz2. destruct want_ptr; reflexivity.
  - assert (b2 = 0) as -> by lia. rewrite Z.add_0_r in Hsum. subst b1.
    rewrite app_nil_r in Hreg. rewrite <- Hreg in Hf.
    destruct want_ptr; cbn [negb]; (eexists _, _, _; split; [reflexivity|];
      split; [intuition congruence|]; split; [|split; [exact H'|exact Hr]]); cbn [delivered].
    + exact Hf.
    + rewrite <- Hf. rewrite <- (slice_blit0 out (slice (data b) off (k * element_size b))) at 2 by lia.
      now rewrite Hz1.
Qed.

(** A buffer made by [WebRtc_CreateBuffer] is well formed and empty, and its
    whole capacity is free; zero counts and failed allocations give NULL. *)
Theorem CreateBuffer_spec count size mem0 mem :
  0 <= count < 1073741824 -> 0 <= size ->
  count * size < 18446744073709551616 ->
  (forall n d, 0 <= n -> mem n = Some d -> zlen d = n) ->
  match WebRtc_CreateBuffer count size mem0 mem with
  | None => count = 0 \/ size = 0 \/ mem0 = false \/ mem (count * size) = None
  | Some b => wf b /\ contents b = [] /\
      element_count b = count /\ element_size b = size /\
      WebRtc_available_write (Some b) = count /\ data b = zeros (count * size)
  end.
Proof.
  intros Hc Hs Hb Hmem. unfold WebRtc_CreateBuffer.
  destruct (count =? 0) eqn:E1; [left; lia|].
  destruct (size =? 0) eqn:E2; [right; left; lia|]. cbn [orb].
  destruct mem0; cbn [negb]; [|auto].
  assert (Hp : 0 <= count * size) by nia.
  rewrite u64_id by (int_unfold; lia).
  destruct (mem (count * size)) as [d|] eqn:E; [|auto].
  apply Hmem in E; [|lia]. unfold WebRtc_InitBuffer; cbn [element_count element_size data].
  rewrite u64_id by (int_unfold; lia).
  assert (Hz : blit d 0 (zeros (count * size)) = zeros (count * size)).
  { pose proof (zlen_zeros _ Hp) as Hz. apply rd_ext; [autorewrite with zlen; lia|].
    intros j Hj. autorewrite with zlen in Hj. rewrite rd_blit by lia. ifs_lia. }
  rewrite Hz.
  assert (H : wf (mk 0 0 count size SAME_WRAP (zeros (count * size)))).
  { split; unfold capacity_bytes; cbn; rewrite ?zlen_zeros; lia. }
  rewrite available_write_eq by exact H. unfold readable; cbn.
  repeat split; first [exact H | lia | apply H].
Qed.

(** A four-element buffer of two-byte elements, filled, half read and wrapped. *)
Definition ring4 : t := mk 0 0 4 2 SAME_WRAP (zeros 8).

Lemma ring4_wf : wf ring4.
Proof. split; vm_compute; intuition discriminate. Qed.

Lemma WriteBuffer_refines_witness :
  exists b', WebRtc_WriteBuffer (Some ring4) (Some [1;2;3;4;5;6]) 3 = (3, Some b') /\
    wf b' /\ contents b' = contents ring4 ++ [1;2;3;4;5;6].
Proof.
  apply (WriteBuffer_refines ring4 [1;2;3;4;5;6] 3 ring4_wf); vm_compute; intuition discriminate.
Defined.

Definition ring4_wrapped : t := mk 3 1 4 2 DIFF_WRAP [7;8;0;0;0;0;5;6].

Lemma ring4_wrapped_wf : wf ring4_wrapped.
Proof. split; vm_compute; intuition discriminate. Qed.

Lemma ReadBuffer_refines_witness :
  exists b' out' w,
    WebRtc_ReadBuffer (Some ring4_wrapped) true (Some (zeros 4)) 2 = (2, Some b', Some out', w) /\
    (w = None <-> true = false) /\
    delivered ring4_wrapped w out' 4 = [5;6;7;8] /\
    wf b' /\ contents b' = [].
Proof.
  apply (ReadBuffer_refines ring4_wrapped true (zeros 4) 2 ring4_wrapped_wf);
    vm_compute; intuition discriminate.
Defined.

Lemma MoveReadPtr_refines_witness :
  exists b', WebRtc_MoveReadPtr (Some ring4_wrapped) (-5) = (-2, Some b') /\ wf b' /\
    readable b' = 4 /\
    (0 <= -2 -> contents b' = skipn 0 (contents ring4_wrapped)) /\
    (-2 < 0 -> exists old, zlen old = 4 /\ contents b' = old ++ contents ring4_wrapped).
Proof.
  apply (MoveReadPtr_refines ring4_wrapped (-5) ring4_wrapped_wf). vm_compute; intuition discriminate.
Defined.

Definition malloc9 (n : Z) : option (list Z) := Some (repeat 9 (Z.to_nat n)).

Lemma malloc9_size n d : 0 <= n -> malloc9 n = Some d -> zlen d = n.
Proof. unfold malloc9, zlen. intros Hn [= <-]. rewrite repeat_length. lia. Qed.

Lemma CreateBuffer_spec_witness :
  exists b, WebRtc_CreateBuffer 4 2 true malloc9 = Some b /\ wf b /\ contents b = [].
Proof.
  pose proof (CreateBuffer_spec 4 2 true malloc9 ltac:(lia) ltac:(lia) ltac:(lia) malloc9_size) as H.
  eexists. split; [reflexivity|]. exact (conj (proj1 H) (proj1 (proj2 H))).
Defined.
End RingBuffer.
