(* ===== verification/SplInl.v ===== *)
(** * Saturation, normalisation and bit counting of the signal processing library

    Models the C branch of
    src/orbit/webrtc/common_audio/signal_processing/include/spl_inl.h and the
    macros of signal_processing_library.h that the other files use.  An [int]
    whose value may leave 32 bits is reduced by [s32]; a shift by [zeros] of an
    [int] that is then masked with an unsigned constant is [u32 (shiftl ..)]. *)

From S2P Require Import Prelude.

Module SplInl.

Definition WEBRTC_SPL_SAT (a b c : Z) : Z := if a <? b then a else if b <? c then c else b.
Definition WEBRTC_SPL_MIN (a b : Z) : Z := if a <? b then a else b.
Definition WEBRTC_SPL_MAX (a b : Z) : Z := if b <? a then a else b.
Definition WEBRTC_SPL_MUL (a b : Z) : Z := s32 (a * b).
Definition WEBRTC_SPL_ABS_W16 (a : Z) : Z := if 0 <=? a then a else - a.
Definition WEBRTC_SPL_ABS_W32 (a : Z) : Z := if 0 <=? a then a else s32 (- a).
Definition WEBRTC_SPL_LSHIFT_W32 (x c : Z) : Z := s32 (Z.shiftl x c).
Definition WEBRTC_SPL_SHIFT_W32 (x c : Z) : Z :=
  if 0 <=? c then s32 (Z.shiftl x c) else Z.shiftr x (- c).

Definition WebRtcSpl_SatW32ToW16 (value32 : Z) : Z :=
  let out16 := s16 value32 in
  if 32767 <? value32 then 32767
  else if value32 <? -32768 then -32768
  else out16.

Definition WebRtcSpl_AddSatW32 (l_var1 l_var2 : Z) : Z :=
  let l_sum := s32 (l_var1 + l_var2) in
  if l_var1 <? 0 then
    if (l_var2 <? 0) && (0 <=? l_sum) then s32 0x80000000 else l_sum
  else
    if (0 <? l_var2) && (l_sum <? 0) then s32 0x7FFFFFFF else l_sum.

Definition WebRtcSpl_SubSatW32 (l_var1 l_var2 : Z) : Z :=
  let l_diff := s32 (l_var1 - l_var2) in
  if l_var1 <? 0 then
    if (0 <? l_var2) && (0 <? l_diff) then s32 0x80000000 else l_diff
  else
    if (l_var2 <? 0) && (l_diff <? 0) then s32 0x7FFFFFFF else l_diff.

Definition WebRtcSpl_AddSatW16 (a b : Z) : Z := WebRtcSpl_SatW32ToW16 (a + b).
Definition WebRtcSpl_SubSatW16 (var1 var2 : Z) : Z := WebRtcSpl_SatW32ToW16 (var1 - var2).

(** [if (mask & v) x += d]. *)
Definition add_if_set (mask v x d : Z) : Z := if Z.land mask v =? 0 then x else x + d.
Definition add_if_clear (mask v x d : Z) : Z := if Z.land mask v =? 0 then x + d else x.

Definition WebRtcSpl_GetSizeInBits (n : Z) : Z :=
  let bits := add_if_set 0xFFFF0000 n 0 16 in
  let bits := add_if_set 0x0000FF00 (Z.shiftr n bits) bits 8 in
  let bits := add_if_set 0x000000F0 (Z.shiftr n bits) bits 4 in
  let bits := add_if_set 0x0000000C (Z.shiftr n bits) bits 2 in
  let bits := add_if_set 0x00000002 (Z.shiftr n bits) bits 1 in
  add_if_set 0x00000001 (Z.shiftr n bits) bits 1.

Definition WebRtcSpl_NormW32 (a : Z) : Z :=
  if a =? 0 then 0
  else
    let a := if a <? 0 then Z.lnot a else a in
    let zeros := add_if_clear 0xFFFF8000 (u32 a) 0 16 in
    let zeros := add_if_clear 0xFF800000 (u32 (Z.shiftl a zeros)) zeros 8 in
    let zeros := add_if_clear 0xF8000000 (u32 (Z.shiftl a zeros)) zeros 4 in
    let zeros := add_if_clear 0xE0000000 (u32 (Z.shiftl a zeros)) zeros 2 in
    add_if_clear 0xC0000000 (u32 (Z.shiftl a zeros)) zeros 1.

Definition WebRtcSpl_NormU32 (a : Z) : Z :=
  if a =? 0 then 0
  else
    let zeros := add_if_clear 0xFFFF0000 a 0 16 in
    let zeros := add_if_clear 0xFF000000 (u32 (Z.shiftl a zeros)) zeros 8 in
    let zeros := add_if_clear 0xF0000000 (u32 (Z.shiftl a zeros)) zeros 4 in
    let zeros := add_if_clear 0xC0000000 (u32 (Z.shiftl a zeros)) zeros 2 in
    add_if_clear 0x80000000 (u32 (Z.shiftl a zeros)) zeros 1.

Definition WebRtcSpl_NormW16 (a : Z) : Z :=
  if a =? 0 then 0
  else
    let a := if a <? 0 then Z.lnot a else a in
    let zeros := add_if_clear 0xFF80 a 0 8 in
    let zeros := add_if_clear 0xF800 (Z.shiftl a zeros) zeros 4 in
    let zeros := add_if_clear 0xE000 (Z.shiftl a zeros) zeros 2 in
    add_if_clear 0xC000 (Z.shiftl a zeros) zeros 1.

Definition WebRtc_MulAccumW16 (a b c : Z) : Z := s32 (a * b + c).

(** ** Masks of high bits *)

(** A mask of the bits from [k] up to [w] is clear on [x] below [2^w] exactly
    when [x] is below [2^k]. *)
Lemma high_mask_clear w k x :
  0 <= k <= w -> 0 <= x < 2 ^ w ->
  (Z.land (2 ^ w - 2 ^ k) x =? 0) = (x <? 2 ^ k).
Proof.
  intros Hk Hx.
  assert (Hland : Z.land (2 ^ w - 2 ^ k) x = Z.shiftl (Z.shiftr x k) k).
  { replace (2 ^ w - 2 ^ k) with (Z.shiftl (Z.ones (w - k)) k).
    2:{ rewrite shiftl_mul, Z.ones_equiv by lia.
        replace w with ((w - k) + k) at 2 by lia. rewrite Z.pow_add_r by lia. lia. }
    assert (Hhi : forall i, w <= i -> Z.testbit x i = false).
    { intros i Hi. rewrite <- (Z.mod_small x (2 ^ w)) by lia. apply Z.mod_pow2_bits_high. lia. }
    apply Z.bits_inj'; intros i Hi.
    rewrite Z.land_spec, !Z.shiftl_spec by lia.
    destruct (Z.ltb_spec i k); [rewrite !(Z.testbit_neg_r _ (i - k)) by lia; reflexivity|].
    rewrite Z.shiftr_spec, Z.testbit_ones by lia.
    replace (i - k + k) with i by lia.
    destruct (Z.ltb_spec i w); [|rewrite Hhi by lia; apply andb_false_r].
    replace ((0 <=? i - k) && (i - k <? w - k)) with true by lia. reflexivity. }
  rewrite Hland, shiftl_mul, shiftr_div by lia.
  pose proof (Z.pow_pos_nonneg 2 k ltac:(lia) ltac:(lia)).
  destruct (Z.ltb_spec x (2 ^ k)).
  - rewrite Z.div_small by lia. reflexivity.
  - assert (1 <= x / 2 ^ k) by (apply Z.div_le_lower_bound; lia). nia.
Qed.

(** One step of the search for the leading bit from above: [x] is the shifted
    value, which is shifted by [d] more exactly when it has room for it; the
    result has its leading bit at [k] or higher. *)
Lemma clear_step w t k d a zs :
  0 <= d -> 0 <= k -> k + d = t -> t <= w -> 0 <= zs ->
  a * 2 ^ zs < 2 ^ t -> 0 < a -> 2 ^ k <= a * 2 ^ zs * 2 ^ d ->
  let z' := add_if_clear (2 ^ w - 2 ^ k) (a * 2 ^ zs) zs d in
  zs <= z' <= zs + d /\ 2 ^ k <= a * 2 ^ z' < 2 ^ t.
Proof.
  intros Hd Hk Ht Hw Hz Hx Ha Hlo. unfold add_if_clear.
  pose proof (Z.pow_pos_nonneg 2 zs ltac:(lia) ltac:(lia)).
  pose proof (Z.pow_le_mono_r 2 t w ltac:(lia) ltac:(lia)).
  rewrite high_mask_clear by nia.
  destruct (Z.ltb_spec (a * 2 ^ zs) (2 ^ k)); cbn; [|lia].
  rewrite Z.pow_add_r, Z.mul_assoc by lia.
  replace (2 ^ t) with (2 ^ k * 2 ^ d) by (rewrite <- Z.pow_add_r by lia; f_equal; lia).
  pose proof (Z.pow_pos_nonneg 2 d ltac:(lia) ltac:(lia)). nia.
Qed.

(** A shift that stays below 2^32 is not reduced. *)
Lemma u32_shiftl a z : 0 <= z -> 0 <= a * 2 ^ z < 4294967296 -> u32 (Z.shiftl a z) = a * 2 ^ z.
Proof. intros. rewrite shiftl_mul by lia. apply u32_id. int_unfold; lia. Qed.

(** Runs one step of a normalisation: [z] names the shift it reaches. *)
Ltac norm_step w t k d a z0 z :=
  let H := fresh "H" in
  pose proof (clear_step w t k d a z0 ltac:(lia) ltac:(lia) eq_refl ltac:(lia) ltac:(lia)
                ltac:(cbn [Z.pow Z.pow_pos Pos.iter Z.mul]; lia) ltac:(lia)
                ltac:(cbn [Z.pow Z.pow_pos Pos.iter Z.mul]; lia)) as H;
  cbv zeta in H;
  let m := eval compute in (2 ^ w - 2 ^ k) in change (2 ^ w - 2 ^ k) with m in H;
  let p := eval compute in (2 ^ k) in change (2 ^ k) with p in H;
  let q := eval compute in (2 ^ t) in change (2 ^ t) with q in H;
  lazymatch z0 with 0 => rewrite Z.pow_0_r, Z.mul_1_r in H | _ => idtac end;
  try (rewrite (u32_shiftl a z0) by lia); try (rewrite (shiftl_mul a z0) by lia);
  let e := lazymatch type of H with context [add_if_clear m ?x z0 d] => x end in
  set (z := add_if_clear m e z0 d) in *; clearbody z.

Lemma NormU32_spec a :
  0 < a < 4294967296 ->
  let z := WebRtcSpl_NormU32 a in 0 <= z <= 31 /\ 2147483648 <= a * 2 ^ z < 4294967296.
Proof.
  intros Ha. cbv zeta. unfold WebRtcSpl_NormU32. replace (a =? 0) with false by lia.
  norm_step 32 32 16 16 a 0 z1. norm_step 32 32 24 8 a z1 z2.
  norm_step 32 32 28 4 a z2 z3. norm_step 32 32 30 2 a z3 z4.
  norm_step 32 32 31 1 a z4 z5. lia.
Qed.

Lemma shift_lt m z k : 0 < m -> 0 <= k -> m * 2 ^ z < 2 ^ k -> z < k.
Proof.
  intros Hm Hk H. destruct (Z.ltb_spec z k); [assumption|].
  pose proof (Z.pow_le_mono_r 2 k z ltac:(lia) ltac:(lia)). nia.
Qed.

(** The magnitude a signed normalisation works on. *)
Lemma lnot_mag a : (if a <? 0 then Z.lnot a else a) = Z.max a (- a - 1).
Proof. rewrite lnot_eq. case_if; lia. Qed.

Lemma NormW32_mag m :
  0 < m < 2147483648 ->
  let z := WebRtcSpl_NormW32 m in 0 <= z <= 30 /\ 1073741824 <= m * 2 ^ z < 2147483648.
Proof.
  intros Ha. cbv zeta. unfold WebRtcSpl_NormW32. replace (m =? 0) with false by lia.
  replace (m <? 0) with false by lia. rewrite (u32_id m) by (int_unfold; lia).
  norm_step 32 31 15 16 m 0 z1. norm_step 32 31 23 8 m z1 z2.
  norm_step 32 31 27 4 m z2 z3. norm_step 32 31 29 2 m z3 z4.
  norm_step 32 31 30 1 m z4 z5. pose proof (shift_lt m z5 31). lia.
Qed.

Lemma NormW16_mag m :
  0 < m < 32768 ->
  let z := WebRtcSpl_NormW16 m in 0 <= z <= 14 /\ 16384 <= m * 2 ^ z < 32768.
Proof.
  intros Ha. cbv zeta. unfold WebRtcSpl_NormW16. replace (m =? 0) with false by lia.
  replace (m <? 0) with false by lia.
  norm_step 16 15 7 8 m 0 z1. norm_step 16 15 11 4 m z1 z2.
  norm_step 16 15 13 2 m z2 z3. norm_step 16 15 14 1 m z3 z4.
  pose proof (shift_lt m z4 15). lia.
Qed.

Lemma NormW32_neg a : a < -1 -> WebRtcSpl_NormW32 a = WebRtcSpl_NormW32 (Z.lnot a).
Proof.
  intros. unfold WebRtcSpl_NormW32.
  replace (a =? 0) with false by lia. replace (Z.lnot a =? 0) with false by (rewrite lnot_eq; lia).
  replace (a <? 0) with true by lia. now replace (Z.lnot a <? 0) with false by (rewrite lnot_eq; lia).
Qed.

Lemma NormW16_neg a : a < -1 -> WebRtcSpl_NormW16 a = WebRtcSpl_NormW16 (Z.lnot a).
Proof.
  intros. unfold WebRtcSpl_NormW16.
  replace (a =? 0) with false by lia. replace (Z.lnot a =? 0) with false by (rewrite lnot_eq; lia).
  replace (a <? 0) with true by lia. now replace (Z.lnot a <? 0) with false by (rewrite lnot_eq; lia).
Qed.

Lemma set_step w k b n :
  0 <= k -> w = 2 * k -> 0 <= b -> 1 <= n / 2 ^ b < 2 ^ w ->
  let b' := add_if_set (2 ^ w - 2 ^ k) (Z.shiftr n b) b k in
  b <= b' <= b + k /\ 1 <= n / 2 ^ b' < 2 ^ k.
Proof.
  intros Hk -> Hb Hn. unfold add_if_set. rewrite shiftr_div, high_mask_clear by lia.
  destruct (Z.ltb_spec (n / 2 ^ b) (2 ^ k)); cbn; [lia|].
  pose proof (Z.pow_pos_nonneg 2 k ltac:(lia) ltac:(lia)).
  pose proof (Z.pow_pos_nonneg 2 b ltac:(lia) ltac:(lia)).
  rewrite Z.pow_add_r, <- Z.div_div by lia.
  replace (2 * k) with (k + k) in * by lia. rewrite Z.pow_add_r in Hn by lia.
  repeat split; try lia.
  - apply Z.div_le_lower_bound; lia.
  - apply Z.div_lt_upper_bound; lia.
Qed.

Ltac set_step_at w k n b0 b :=
  let H := fresh "H" in
  pose proof (set_step w k b0 n ltac:(lia) eq_refl ltac:(lia)
                ltac:(let q := eval compute in (2 ^ w) in change (2 ^ w) with q; lia)) as H;
  cbv zeta in H;
  let m := eval compute in (2 ^ w - 2 ^ k) in change (2 ^ w - 2 ^ k) with m in H;
  let p := eval compute in (2 ^ k) in change (2 ^ k) with p in H;
  lazymatch b0 with 0 => rewrite Z.shiftr_0_r in H | _ => idtac end;
  let e := lazymatch type of H with context [add_if_set m ?x b0 k] => x end in
  set (b := add_if_set m e b0 k) in *; clearbody b.

Lemma GetSizeInBits_spec n :
  0 < n < 4294967296 -> WebRtcSpl_GetSizeInBits n = Z.log2 n + 1.
Proof.
  intros Hn. unfold WebRtcSpl_GetSizeInBits.
  assert (1 <= n / 2 ^ 0 < 4294967296) by (rewrite Z.pow_0_r, Z.div_1_r; lia).
  set_step_at 32 16 n 0 b1. set_step_at 16 8 n b1 b2. set_step_at 8 4 n b2 b3.
  set_step_at 4 2 n b3 b4. set_step_at 2 1 n b4 b5.
  assert (Hb : n / 2 ^ b5 = 1) by lia.
  unfold add_if_set. rewrite shiftr_div, Hb by lia. cbn.
  f_equal. symmetry. apply Z.log2_unique; [lia|].
  pose proof (Z.pow_pos_nonneg 2 b5 ltac:(lia) ltac:(lia)).
  pose proof (Z.div_mod n (2 ^ b5) ltac:(lia)). pose proof (Z.mod_pos_bound n (2 ^ b5) ltac:(lia)).
  rewrite Hb in *. rewrite Z.pow_succ_r by lia. lia.
Qed.

(** ** What the functions promise *)

(** The headroom of a two's complement value: the left shifts that keep it in
    [w] bits and bring its magnitude to the top half. *)
Definition headroom (w a z : Z) : Prop :=
  0 <= z < w /\
  (0 < a -> 2 ^ (w - 2) <= a * 2 ^ z < 2 ^ (w - 1)) /\
  (a < 0 -> - 2 ^ (w - 1) <= a * 2 ^ z < - 2 ^ (w - 2)).

Lemma headroom_neg w a z :
  0 <= z < w -> a < -1 -> 2 <= w ->
  2 ^ (w - 2) <= Z.lnot a * 2 ^ z < 2 ^ (w - 1) -> headroom w a z.
Proof.
  intros Hz Ha Hw H. split; [lia|]. split; [lia|]. intros _.
  rewrite lnot_eq in H. pose proof (Z.pow_pos_nonneg 2 z ltac:(lia) ltac:(lia)).
  split; [|lia].
  assert (Hp : 2 ^ (w - 1) = 2 ^ (w - 1 - z) * 2 ^ z)
    by (rewrite <- Z.pow_add_r by lia; f_equal; lia).
  rewrite Hp in *. assert (- a - 1 < 2 ^ (w - 1 - z))
    by (apply (Z.mul_lt_mono_pos_r (2 ^ z)); lia). nia.
Qed.

Lemma headroom_norm w a z m :
  2 <= w -> a <> 0 -> (a = -1 -> z = w - 1) ->
  m = (if a <? 0 then Z.lnot a else a) ->
  (0 < m -> 0 <= z <= w - 2 /\ 2 ^ (w - 2) <= m * 2 ^ z < 2 ^ (w - 1)) ->
  headroom w a z.
Proof.
  intros Hw Ha H1 -> Hm. destruct (Z.ltb_spec a 0).
  - destruct (Z.eq_dec a (-1)) as [->|Hne].
    + rewrite H1 by reflexivity. pose proof (Z.pow_lt_mono_r 2 (w - 2) (w - 1) ltac:(lia) ltac:(lia) ltac:(lia)).
      split; [lia|]. split; lia.
    + rewrite lnot_eq in Hm. apply headroom_neg; rewrite ?lnot_eq; lia.
  - split; [lia|]. split; lia.
Qed.

Lemma NormW32_headroom a : in_s32 a -> a <> 0 -> headroom 32 a (WebRtcSpl_NormW32 a).
Proof.
  intros Hr Ha. eapply headroom_norm; [lia|auto|intros ->; reflexivity|reflexivity|].
  intros Hm. destruct (Z.ltb_spec a 0).
  - rewrite lnot_eq in Hm. rewrite NormW32_neg by lia. apply NormW32_mag.
    rewrite lnot_eq. int_unfold; lia.
  - apply NormW32_mag. int_unfold; lia.
Qed.

Lemma NormW16_headroom a : in_s16 a -> a <> 0 -> headroom 16 a (WebRtcSpl_NormW16 a).
Proof.
  intros Hr Ha. eapply headroom_norm; [lia|auto|intros ->; reflexivity|reflexivity|].
  intros Hm. destruct (Z.ltb_spec a 0).
  - rewrite lnot_eq in Hm. rewrite NormW16_neg by lia. apply NormW16_mag.
    rewrite lnot_eq. int_unfold; lia.
  - apply NormW16_mag. int_unfold; lia.
Qed.

Lemma SatW32ToW16_eq a : WebRtcSpl_SatW32ToW16 a = Z.max (-32768) (Z.min 32767 a).
Proof.
  unfold WebRtcSpl_SatW32ToW16.
  repeat case_if; [lia|lia|]. rewrite s16_id by (int_unfold; lia). lia.
Qed.

Lemma SatW32ToW16_range a : in_s16 (WebRtcSpl_SatW32ToW16 a).
Proof. rewrite SatW32ToW16_eq. int_unfold; lia. Qed.
#[export] Hint Resolve SatW32ToW16_range : cint.

Lemma AddSatW32_eq a b :
  in_s32 a -> in_s32 b ->
  WebRtcSpl_AddSatW32 a b = Z.max (-2147483648) (Z.min 2147483647 (a + b)).
Proof.
  unfold WebRtcSpl_AddSatW32; intros.
  pose proof (s32_range (a + b)).
  assert (s32 (a + b) = a + b \/ (a + b < -2147483648 /\ s32 (a + b) = a + b + 4294967296) \/
          (2147483647 < a + b /\ s32 (a + b) = a + b - 4294967296)) by int_lia.
  change (s32 0x80000000) with (-2147483648). change (s32 0x7FFFFFFF) with 2147483647.
  unfold in_s32 in *. repeat case_if; bool_lia.
Qed.

Lemma SubSatW32_eq a b :
  in_s32 a -> in_s32 b ->
  WebRtcSpl_SubSatW32 a b = Z.max (-2147483648) (Z.min 2147483647 (a - b)).
Proof.
  unfold WebRtcSpl_SubSatW32; intros.
  pose proof (s32_range (a - b)).
  assert (s32 (a - b) = a - b \/ (a - b < -2147483648 /\ s32 (a - b) = a - b + 4294967296) \/
          (2147483647 < a - b /\ s32 (a - b) = a - b - 4294967296)) by int_lia.
  change (s32 0x80000000) with (-2147483648). change (s32 0x7FFFFFFF) with 2147483647.
  unfold in_s32 in *. repeat case_if; bool_lia.
Qed.

(** The normalisations return the headroom of their argument: how far it
    can be shifted left without leaving the type; [WebRtcSpl_GetSizeInBits]
    returns the length of the binary notation. *)
Theorem Norm_headroom a :
  in_s32 a -> a <> 0 ->
  headroom 32 a (WebRtcSpl_NormW32 a) /\
  (in_s16 a -> headroom 16 a (WebRtcSpl_NormW16 a)) /\
  (0 < a -> let z := WebRtcSpl_NormU32 a in
     0 <= z <= 31 /\ 2 ^ 31 <= a * 2 ^ z < 2 ^ 32 /\
     WebRtcSpl_GetSizeInBits a = 32 - z).
Proof.
  intros Hr Ha. split; [now apply NormW32_headroom|].
  split; [intros; now apply NormW16_headroom|]. intros Hp z.
  assert (Hu : 0 < a < 4294967296) by (int_unfold; lia).
  destruct (NormU32_spec a Hu) as [Hz Hb]. fold z in Hz, Hb.
  split; [exact Hz|]. split; [exact Hb|]. rewrite GetSizeInBits_spec by exact Hu.
  cut (Z.log2 (a * 2 ^ z) = 31); [rewrite Z.log2_mul_pow2; lia|].
  apply Z.log2_unique; lia.
Qed.

(** Saturating arithmetic clamps the exact result to the type. *)
Theorem Sat_clamps a b :
  WebRtcSpl_SatW32ToW16 a = Z.max (-32768) (Z.min 32767 a) /\
  (in_s16 a -> in_s16 b ->
     WebRtcSpl_AddSatW16 a b = Z.max (-32768) (Z.min 32767 (a + b)) /\
     WebRtcSpl_SubSatW16 a b = Z.max (-32768) (Z.min 32767 (a - b))) /\
  (in_s32 a -> in_s32 b ->
     WebRtcSpl_AddSatW32 a b = Z.max (-2147483648) (Z.min 2147483647 (a + b)) /\
     WebRtcSpl_SubSatW32 a b = Z.max (-2147483648) (Z.min 2147483647 (a - b))).
Proof.
  split; [apply SatW32ToW16_eq|].
  split; [intros; split; apply SatW32ToW16_eq|].
  intros; split; [now apply AddSatW32_eq|now apply SubSatW32_eq].
Qed.

Lemma Norm_headroom_witness :
  headroom 32 (-20000) (WebRtcSpl_NormW32 (-20000)) /\ WebRtcSpl_NormW32 (-20000) = 16.
Proof.
  split; [|reflexivity]. apply (Norm_headroom (-20000)); [vm_compute; split|]; discriminate.
Defined.

Lemma Sat_clamps_witness :
  WebRtcSpl_SubSatW32 (-2147483648) 2147483647 = -2147483648 /\
  WebRtcSpl_AddSatW16 30000 30000 = 32767.
Proof.
  split.
  - apply (Sat_clamps (-2147483648) 2147483647); vm_compute; split; discriminate.
  - apply (Sat_clamps 30000 30000); vm_compute; split; discriminate.
Defined.
End SplInl.
