(* ===== verification/SplMath.v ===== *)
(** * Divisions, square roots, bit reversal and the Hanning window

    Models division_operations.c, spl_sqrt_floor.c, spl_sqrt.c,
    sqrt_of_one_minus_x_squared.c, complex_bit_reverse.c and
    get_hanning_window.c of src/orbit/webrtc/common_audio/signal_processing/. *)

From S2P Require Import Prelude SplInl.
Import SplInl.

Module SplMath.

(** ** division_operations.c *)

Definition WebRtcSpl_DivU32U16 (num den : Z) : Z :=
  if negb (den =? 0) then u32 (Z.quot num den) else 0xFFFFFFFF.

Definition WebRtcSpl_DivW32W16 (num den : Z) : Z :=
  if negb (den =? 0) then s32 (Z.quot num den) else 0x7FFFFFFF.

Definition WebRtcSpl_DivW32W16ResW16 (num den : Z) : Z :=
  if negb (den =? 0) then s16 (Z.quot num den) else 0x7FFF.

(** One turn of [while (k--)]. *)
Definition div_q31_step (L_den : Z) (s : Z * Z) : Z * Z :=
  let (L_num, div) := s in
  let div := s32 (Z.shiftl div 1) in
  let L_num := s32 (Z.shiftl L_num 1) in
  if L_den <=? L_num then (s32 (L_num - L_den), s32 (div + 1)) else (L_num, div).

Definition WebRtcSpl_DivResultInQ31 (num den : Z) : Z :=
  if num =? 0 then 0
  else
    let L_num := if num <? 0 then s32 (- num) else num in
    let L_den := if den <? 0 then s32 (- den) else den in
    let change_sign := b2z (num <? 0) + b2z (den <? 0) in
    let (_, div) := for_up 0 31 (fun _ => div_q31_step L_den) (L_num, 0) in
    if change_sign =? 1 then s32 (- div) else div.

Definition WebRtcSpl_DivW32HiLow (num den_hi den_low : Z) : Z :=
  let approx := s16 (WebRtcSpl_DivW32W16 0x1FFFFFFF den_hi) in
  let tmpW32 := s32 (s32 (Z.shiftl (den_hi * approx) 1) +
                     Z.shiftl (Z.shiftr (den_low * approx) 15) 1) in
  let tmpW32 := s32 (0x7fffffff - tmpW32) in
  let tmp_hi := s16 (Z.shiftr tmpW32 16) in
  let tmp_low := s16 (Z.shiftr (s32 (tmpW32 - s32 (Z.shiftl tmp_hi 16))) 1) in
  let tmpW32 := s32 (Z.shiftl (s32 (tmp_hi * approx + Z.shiftr (tmp_low * approx) 15)) 1) in
  let tmp_hi := s16 (Z.shiftr tmpW32 16) in
  let tmp_low := s16 (Z.shiftr (s32 (tmpW32 - s32 (Z.shiftl tmp_hi 16))) 1) in
  let num_hi := s16 (Z.shiftr num 16) in
  let num_low := s16 (Z.shiftr (s32 (num - s32 (Z.shiftl num_hi 16))) 1) in
  let tmpW32 := s32 (num_hi * tmp_hi + Z.shiftr (num_hi * tmp_low) 15 +
                     Z.shiftr (num_low * tmp_hi) 15) in
  WEBRTC_SPL_LSHIFT_W32 tmpW32 3.

(** ** spl_sqrt_floor.c *)

Definition WEBRTC_SPL_SQRT_ITER (N : Z) (s : Z * Z) : Z * Z :=
  let (value, root) := s in
  let try1 := s32 (root + Z.shiftl 1 N) in
  let t := s32 (Z.shiftl try1 N) in
  if t <=? value then (s32 (value - t), Z.lor root (Z.shiftl 2 N)) else (value, root).

Definition WebRtcSpl_SqrtFloor (value : Z) : Z :=
  let s := (value, 0) in
  let s := WEBRTC_SPL_SQRT_ITER 15 s in
  let s := WEBRTC_SPL_SQRT_ITER 14 s in
  let s := WEBRTC_SPL_SQRT_ITER 13 s in
  let s := WEBRTC_SPL_SQRT_ITER 12 s in
  let s := WEBRTC_SPL_SQRT_ITER 11 s in
  let s := WEBRTC_SPL_SQRT_ITER 10 s in
  let s := WEBRTC_SPL_SQRT_ITER 9 s in
  let s := WEBRTC_SPL_SQRT_ITER 8 s in
  let s := WEBRTC_SPL_SQRT_ITER 7 s in
  let s := WEBRTC_SPL_SQRT_ITER 6 s in
  let s := WEBRTC_SPL_SQRT_ITER 5 s in
  let s := WEBRTC_SPL_SQRT_ITER 4 s in
  let s := WEBRTC_SPL_SQRT_ITER 3 s in
  let s := WEBRTC_SPL_SQRT_ITER 2 s in
  let s := WEBRTC_SPL_SQRT_ITER 1 s in
  let s := WEBRTC_SPL_SQRT_ITER 0 s in
  Z.shiftr (snd s) 1.

(** ** spl_sqrt.c *)

Definition WebRtcSpl_SqrtLocal (in_ : Z) : Z :=
  let B := Z.quot in_ 2 in
  let B := s32 (B - 0x40000000) in
  let x_half := s16 (Z.shiftr B 16) in
  let B := s32 (B + 0x40000000) in
  let B := s32 (B + 0x40000000) in
  let x2 := s32 (x_half * x_half * 2) in
  let A := s32 (- x2) in
  let B := s32 (B + Z.shiftr A 1) in
  let A := Z.shiftr A 16 in
  let A := s32 (A * A * 2) in
  let t16 := s16 (Z.shiftr A 16) in
  let B := s32 (B + s32 (-20480 * t16 * 2)) in
  let A := s32 (x_half * t16 * 2) in
  let t16 := s16 (Z.shiftr A 16) in
  let B := s32 (B + s32 (28672 * t16 * 2)) in
  let t16 := s16 (Z.shiftr x2 16) in
  let A := s32 (x_half * t16 * 2) in
  let B := s32 (B + Z.shiftr A 1) in
  s32 (B + 32768).

(** What follows the call of [WebRtcSpl_SqrtLocal]. *)
Definition sqrt_scale (A sh : Z) : Z :=
  let k_sqrt_2 := 23170 in
  let nshift := Z.quot sh 2 in
  let A :=
    if 2 * nshift =? sh then
      let t16 := s16 (Z.shiftr A 16) in
      let A := s32 (k_sqrt_2 * t16 * 2) in
      let A := s32 (A + 32768) in
      let A := Z.land A 0x7fff0000 in
      Z.shiftr A 15
    else Z.shiftr A 16 in
  let A := Z.land A 0x0000ffff in
  Z.shiftr A nshift.

Definition WebRtcSpl_Sqrt (value : Z) : Z :=
  let A := value in
  if A =? 0 then 0
  else
    let sh := WebRtcSpl_NormW32 A in
    let A := WEBRTC_SPL_LSHIFT_W32 A sh in
    let A := if A <? 0x7fffffff - 32767 then s32 (A + 32768) else 0x7fffffff in
    let x_norm := s16 (Z.shiftr A 16) in
    let A := WEBRTC_SPL_LSHIFT_W32 x_norm 16 in
    let A := s32 (WEBRTC_SPL_ABS_W32 A) in
    let A := WebRtcSpl_SqrtLocal A in
    sqrt_scale A sh.

(** [yQ15] may be [xQ15] itself: each element is read before it is written. *)
Definition WebRtcSpl_SqrtOfOneMinusXSquared (xQ15 : list Z) (vector_length : nat)
    (yQ15 : list Z) : list Z :=
  for_up 0 vector_length (fun m yQ15 =>
    let tmp := rd xQ15 m in
    let sq := s32 (tmp * tmp) in
    let sq := s32 (1073741823 - sq) in
    wr yQ15 m (s16 (WebRtcSpl_Sqrt sq))) yQ15.

(** ** complex_bit_reverse.c *)

Definition index_7 : list Z :=
  [ 1; 64; 2; 32; 3; 96; 4; 16; 5; 80; 6; 48; 7; 112; 9; 72; 10; 40;
    11; 104; 12; 24; 13; 88; 14; 56; 15; 120; 17; 68; 18; 36; 19; 100; 21; 84;
    22; 52; 23; 116; 25; 76; 26; 44; 27; 108; 29; 92; 30; 60; 31; 124; 33; 66;
    35; 98; 37; 82; 38; 50; 39; 114; 41; 74; 43; 106; 45; 90; 46; 58; 47; 122;
    49; 70; 51; 102; 53; 86; 55; 118; 57; 78; 59; 110; 61; 94; 63; 126; 67; 97;
    69; 81; 71; 113; 75; 105; 77; 89; 79; 121; 83; 101; 87; 117; 91; 109; 95; 125;
    103; 115; 111; 123 ].

Definition index_8 : list Z :=
  [ 1; 128; 2; 64; 3; 192; 4; 32; 5; 160; 6; 96; 7; 224; 8; 16; 9; 144;
    10; 80; 11; 208; 12; 48; 13; 176; 14; 112; 15; 240; 17; 136; 18; 72; 19; 200;
    20; 40; 21; 168; 22; 104; 23; 232; 25; 152; 26; 88; 27; 216; 28; 56; 29; 184;
    30; 120; 31; 248; 33; 132; 34; 68; 35; 196; 37; 164; 38; 100; 39; 228; 41; 148;
    42; 84; 43; 212; 44; 52; 45; 180; 46; 116; 47; 244; 49; 140; 50; 76; 51; 204;
    53; 172; 54; 108; 55; 236; 57; 156; 58; 92; 59; 220; 61; 188; 62; 124; 63; 252;
    65; 130; 67; 194; 69; 162; 70; 98; 71; 226; 73; 146; 74; 82; 75; 210; 77; 178;
    78; 114; 79; 242; 81; 138; 83; 202; 85; 170; 86; 106; 87; 234; 89; 154; 91; 218;
    93; 186; 94; 122; 95; 250; 97; 134; 99; 198; 101; 166; 103; 230; 105; 150; 107; 214;
    109; 182; 110; 118; 111; 246; 113; 142; 115; 206; 117; 174; 119; 238; 121; 158; 123; 222;
    125; 190; 127; 254; 131; 193; 133; 161; 135; 225; 137; 145; 139; 209; 141; 177; 143; 241;
    147; 201; 149; 169; 151; 233; 155; 217; 157; 185; 159; 249; 163; 197; 167; 229; 171; 213;
    173; 181; 175; 245; 179; 205; 183; 237; 187; 221; 191; 253; 199; 227; 203; 211; 207; 243;
    215; 235; 223; 251; 239; 247 ].

(** [complex_data] is seen, as the code does, as an array of 32-bit words. *)
Definition swap (a : list Z) (i j : Z) : list Z :=
  let temp := rd a i in
  let a := wr a i (rd a j) in
  wr a j temp.

(** [do l >>= 1; while (l > nn - mr)]. *)
Fixpoint next_bit (fuel : nat) (l bound : Z) : Z :=
  match fuel with
  | O => l
  | S fuel => let l := Z.shiftr l 1 in if bound <? l then next_bit fuel l bound else l
  end.

Definition WebRtcSpl_ComplexBitReverse (complex_data : list Z) (stages : Z) : list Z :=
  if (stages =? 7) || (stages =? 8) then
    let (length, index) := if stages =? 8 then (240, index_8) else (112, index_7) in
    for_up 0 (Z.to_nat (length / 2)) (fun h a =>
      let m := 2 * h in swap a (rd index m) (rd index (m + 1))) complex_data
  else
    let n := Z.shiftl 1 stages in
    let nn := n - 1 in
    snd (for_up 1 (Z.to_nat nn) (fun m '(mr, a) =>
      let l := next_bit 32 n (nn - mr) in
      let mr := Z.land mr (l - 1) + l in
      if mr <=? m then (mr, a) else (mr, swap a m mr)) (0, complex_data)).

(** ** get_hanning_window.c *)

Definition kHanningTable : list Z :=
  [ 1; 2; 6; 10; 15; 22; 30; 39; 50; 62; 75; 89; 104; 121;
    138; 157; 178; 199; 222; 246; 271; 297; 324; 353; 383; 413; 446; 479;
    513; 549; 586; 624; 663; 703; 744; 787; 830; 875; 920; 967; 1015; 1064;
    1114; 1165; 1218; 1271; 1325; 1381; 1437; 1494; 1553; 1612; 1673; 1734; 1796; 1859;
    1924; 1989; 2055; 2122; 2190; 2259; 2329; 2399; 2471; 2543; 2617; 2691; 2765; 2841;
    2918; 2995; 3073; 3152; 3232; 3312; 3393; 3475; 3558; 3641; 3725; 3809; 3895; 3980;
    4067; 4154; 4242; 4330; 4419; 4509; 4599; 4689; 4781; 4872; 4964; 5057; 5150; 5244;
    5338; 5432; 5527; 5622; 5718; 5814; 5910; 6007; 6104; 6202; 6299; 6397; 6495; 6594;
    6693; 6791; 6891; 6990; 7090; 7189; 7289; 7389; 7489; 7589; 7690; 7790; 7890; 7991;
    8091; 8192; 8293; 8393; 8494; 8594; 8694; 8795; 8895; 8995; 9095; 9195; 9294; 9394;
    9493; 9593; 9691; 9790; 9889; 9987; 10085; 10182; 10280; 10377; 10474; 10570; 10666; 10762;
    10857; 10952; 11046; 11140; 11234; 11327; 11420; 11512; 11603; 11695; 11785; 11875; 11965; 12054;
    12142; 12230; 12317; 12404; 12489; 12575; 12659; 12743; 12826; 12909; 12991; 13072; 13152; 13232;
    13311; 13389; 13466; 13543; 13619; 13693; 13767; 13841; 13913; 13985; 14055; 14125; 14194; 14262;
    14329; 14395; 14460; 14525; 14588; 14650; 14711; 14772; 14831; 14890; 14947; 15003; 15059; 15113;
    15166; 15219; 15270; 15320; 15369; 15417; 15464; 15509; 15554; 15597; 15640; 15681; 15721; 15760;
    15798; 15835; 15871; 15905; 15938; 15971; 16001; 16031; 16060; 16087; 16113; 16138; 16162; 16185;
    16206; 16227; 16246; 16263; 16280; 16295; 16309; 16322; 16334; 16345; 16354; 16362; 16369; 16374;
    16378; 16382; 16383; 16384 ].

Definition WebRtcSpl_GetHanningWindow (v : list Z) (size : Z) : list Z :=
  let factor := WebRtcSpl_DivW32W16 0x40000000 (s16 size) in
  let index := if size <? 513 then -0x200000 else -0x100000 in
  snd (for_up 0 (Z.to_nat size) (fun jj '(index, v) =>
    let index := s32 (index + factor) in
    (index, wr v jj (rd kHanningTable (Z.shiftr index 22)))) (index, v)).

(** ** The integer square root *)

(** Before the turn for bit [N]: the root found so far is [2 r], [r] has no
    bit below [N + 1], and the remainder is what [r] leaves. *)
Definition sqrt_inv (V N : Z) (s : Z * Z) : Prop :=
  exists q, let r := q * 2 ^ (N + 1) in
    s = (V - r * r, 2 * r) /\ 0 <= q /\ r * r <= V < (r + 2 ^ (N + 1)) * (r + 2 ^ (N + 1)).

Lemma try_bound V N q :
  0 <= N <= 15 -> 0 <= q -> V < 2147483648 ->
  let r := q * 2 ^ (N + 1) in
  r * r <= V -> 0 <= (2 * r + 2 ^ N) * 2 ^ N < 2147483648.
Proof.
  intros HN Hq HV r Hr.
  assert (r <= 46340) by nia. assert (0 <= r) by (unfold r; pose proof (Z.pow_pos_nonneg 2 (N + 1)); nia).
  destruct (Z.eq_dec N 15) as [->|]; [change (2 ^ (15 + 1)) with 65536 in r; change (2 ^ 15) with 32768; lia|].
  destruct (Z.eq_dec N 14) as [->|]; [change (2 ^ (14 + 1)) with 32768 in r; change (2 ^ 14) with 16384; lia|].
  pose proof (Z.pow_le_mono_r 2 N 13 ltac:(lia) ltac:(lia)).
  pose proof (Z.pow_pos_nonneg 2 N ltac:(lia) ltac:(lia)). change (2 ^ 13) with 8192 in *. nia.
Qed.

Lemma sqrt_iter_inv V N s :
  0 <= N <= 15 -> V < 2147483648 ->
  sqrt_inv V N s -> sqrt_inv V (N - 1) (WEBRTC_SPL_SQRT_ITER N s).
Proof.
  intros HN HV (q & -> & Hq & Hle & Hlt). pose proof (try_bound V N q HN Hq HV Hle) as Ht.
  unfold sqrt_inv, WEBRTC_SPL_SQRT_ITER. replace (N - 1 + 1) with N by lia.
  rewrite !shiftl_mul by lia. rewrite Z.pow_add_r in * by lia. change (2 ^ 1) with 2 in *.
  pose proof (Z.pow_pos_nonneg 2 N ltac:(lia) ltac:(lia)) as Hp.
  pose proof (Z.pow_le_mono_r 2 N 15 ltac:(lia) ltac:(lia)) as Hp15. change (2 ^ 15) with 32768 in Hp15.
  assert (Hr : 0 <= q * (2 ^ N * 2)) by nia. assert (q * (2 ^ N * 2) <= 46340) by nia.
  rewrite (s32_id (_ + 1 * 2 ^ N)) by (int_unfold; lia). rewrite Z.mul_1_l, s32_id by (int_unfold; lia).
  case_if.
  - exists (q * 2 + 1). rewrite s32_id by (int_unfold; nia). rewrite Z.lor_comm.
    replace (2 * (q * (2 ^ N * 2))) with (q * 2 ^ (N + 2))
      by (rewrite Z.pow_add_r by lia; change (2 ^ 2) with 4; lia).
    rewrite lor_add by (rewrite ?Z.pow_add_r by lia; change (2 ^ 2) with 4; lia).
    rewrite Z.pow_add_r by lia. change (2 ^ 2) with 4. split; [f_equal; lia|]. split; [lia|]. nia.
  - exists (q * 2). split; [f_equal; lia|]. split; [lia|]. nia.
Qed.

Lemma sqrt_iter_negative V N : 0 <= N <= 15 -> V < 0 -> WEBRTC_SPL_SQRT_ITER N (V, 0) = (V, 0).
Proof.
  intros HN HV. unfold WEBRTC_SPL_SQRT_ITER. rewrite !shiftl_mul by lia.
  pose proof (Z.pow_pos_nonneg 2 N ltac:(lia) ltac:(lia)).
  pose proof (Z.pow_le_mono_r 2 N 15 ltac:(lia) ltac:(lia)) as Hp15. change (2 ^ 15) with 32768 in Hp15.
  rewrite (s32_id (0 + _)) by (int_unfold; lia). rewrite s32_id by (int_unfold; nia).
  replace (_ <=? V) with false by nia. reflexivity.
Qed.

(** [WebRtcSpl_SqrtFloor] is the integer square root, and 0 on negative
    values, for every 32-bit value; no intermediate result overflows. *)
Theorem SqrtFloor_exact V :
  in_s32 V -> WebRtcSpl_SqrtFloor V = Z.sqrt V.
Proof.
  intros HV. unfold WebRtcSpl_SqrtFloor. destruct (Z.ltb_spec V 0).
  - rewrite !sqrt_iter_negative by lia. cbn [snd]. now rewrite Z.sqrt_neg.
  - assert (H0 : sqrt_inv V 15 (V, 0)).
    { exists 0. cbn. int_unfold. split; [f_equal; lia|]. change (Z.pow_pos 2 16) with 65536. lia. }
    do 16 (apply sqrt_iter_inv in H0; [|lia|int_unfold; lia]; cbn [Z.sub Z.opp Z.add Z.pos_sub Pos.pred_double Z.pred_double] in H0).
    destruct H0 as (q & E & Hq & Hr). cbv zeta. rewrite E. cbn [snd]. rewrite shiftr_div by lia.
    change (2 ^ 1) with 2. change (2 ^ (-1 + 1)) with 1 in *. rewrite Z.mul_comm, Z.div_mul by lia.
    symmetry. apply Z.sqrt_unique. lia.
Qed.

(** ** The division of fractions *)

Lemma div_q31_spec n d :
  0 <= n < d -> d <= 1073741824 ->
  snd (for_up 0 31 (fun _ => div_q31_step d) (n, 0)) = n * 2 ^ 31 / d.
Proof.
  intros Hn Hd.
  assert (H : let s := for_up 0 31 (fun _ => div_q31_step d) (n, 0) in
    n * 2 ^ (0 + Z.of_nat 31) = snd s * d + fst s /\ 0 <= fst s < d /\
    0 <= snd s < 2 ^ (0 + Z.of_nat 31)).
  { apply (for_up_inv (fun k s => n * 2 ^ k = snd s * d + fst s /\ 0 <= fst s < d /\ 0 <= snd s < 2 ^ k)).
    - cbn. lia.
    - intros k [ln dv] Hk (E & Hl & Hv). cbn [fst snd] in *. unfold div_q31_step.
      rewrite !shiftl_mul by lia. change (2 ^ 1) with 2. rewrite Z.pow_add_r in * by lia.
      change (2 ^ 1) with 2 in *.
      pose proof (Z.pow_le_mono_r 2 k 30 ltac:(lia) ltac:(lia)) as H30.
      change (2 ^ 30) with 1073741824 in H30.
      rewrite (s32_id (dv * 2)), (s32_id (ln * 2)) by (int_unfold; lia).
      destruct (Z.leb_spec d (ln * 2)); cbn [fst snd]; [rewrite !s32_id by (int_unfold; lia)|];
        (split; [nia|split; lia]). }
  cbv zeta in H. change (0 + Z.of_nat 31) with 31 in H. destruct H as (E & Hl & _).
  apply (Z.div_unique _ _ _ _ (or_introl Hl)). lia.
Qed.

(** [WebRtcSpl_DivResultInQ31] of two numbers with quotient below 1 is the
    quotient in Q31, truncated, with the sign of the quotient, when the
    denominator is at most 2^30 in size. *)
Theorem DivResultInQ31_spec num den :
  Z.abs num < Z.abs den <= 1073741824 ->
  WebRtcSpl_DivResultInQ31 num den = Z.quot (num * 2 ^ 31) den.
Proof.
  intros H. unfold WebRtcSpl_DivResultInQ31. destruct (Z.eqb_spec num 0) as [->|Hne].
  { symmetry. apply Z.quot_0_l. lia. }
  cbv zeta. replace (if num <? 0 then s32 (- num) else num) with (Z.abs num)
    by (case_if; rewrite ?s32_id by (int_unfold; lia); lia).
  replace (if den <? 0 then s32 (- den) else den) with (Z.abs den)
    by (case_if; rewrite ?s32_id by (int_unfold; lia); lia).
  pose proof (div_q31_spec (Z.abs num) (Z.abs den) ltac:(lia) ltac:(lia)) as E.
  destruct (for_up 0 31 _ _) as [ln dv]. cbn [snd] in E. subst dv.
  assert (Hb : 0 <= Z.abs num * 2 ^ 31 / Z.abs den < 2147483648).
  { split; [apply Z.div_pos; lia|]. apply Z.div_lt_upper_bound; [lia|]. change (2 ^ 31) with 2147483648. nia. }
  rewrite <- Z.quot_div_nonneg in * by lia.
  destruct (Z.ltb_spec num 0), (Z.ltb_spec den 0); cbn [b2z Z.add Z.eqb Pos.eqb Pos.add].
  - rewrite !Z.abs_neq by lia. rewrite Z.quot_opp_r, Z.mul_opp_l, Z.quot_opp_l by lia. lia.
  - rewrite s32_id by (int_unfold; lia). rewrite Z.abs_neq, Z.abs_eq by lia.
    rewrite Z.mul_opp_l, Z.quot_opp_l by lia. lia.
  - rewrite s32_id by (int_unfold; lia). rewrite Z.abs_eq, Z.abs_neq by lia.
    rewrite Z.quot_opp_r by lia. lia.
  - now rewrite !Z.abs_eq by lia.
Qed.

(** ** Bit reversal *)

Fixpoint bit_reverse (stages : nat) (i : Z) : Z :=
  match stages with
  | O => 0
  | S k => (i mod 2) * 2 ^ Z.of_nat k + bit_reverse k (i / 2)
  end.

(** Swapping commutes with a renaming of the data. *)
Lemma rd_map (g : Z -> Z) a i : 0 <= i < zlen a -> rd (map g a) i = g (rd a i).
Proof.
  unfold rd, zlen; intros. case_if; [lia|]. rewrite nth_indep with (d' := g 0) by (rewrite length_map; lia).
  apply map_nth.
Qed.

Lemma upd_map (g : Z -> Z) a i v : upd (map g a) i (g v) = map g (upd a i v).
Proof. revert i; induction a as [|x a IH]; intros [|i]; cbn; auto. now rewrite IH. Qed.

Lemma swap_map g a i j :
  0 <= i < zlen a -> 0 <= j < zlen a -> swap (map g a) i j = map g (swap a i j).
Proof.
  intros. unfold swap, wr. rewrite !rd_map by assumption. repeat case_if; try lia.
  now rewrite !upd_map.
Qed.

Lemma zlen_swap a i j : zlen (swap a i j) = zlen a.
Proof. unfold swap. now rewrite !zlen_wr. Qed.

(** The sequence of swaps of a run, with the counter of the generic loop. *)
Definition bit_swaps (stages : Z) : list (Z * Z) :=
  if (stages =? 7) || (stages =? 8) then
    let (length, index) := if stages =? 8 then (240, index_8) else (112, index_7) in
    map (fun h => let m := 2 * Z.of_nat h in (rd index m, rd index (m + 1)))
      (seq 0 (Z.to_nat (length / 2)))
  else
    let n := Z.shiftl 1 stages in
    let nn := n - 1 in
    snd (for_up 1 (Z.to_nat nn) (fun m '(mr, l) =>
      let b := next_bit 32 n (nn - mr) in
      let mr := Z.land mr (b - 1) + b in
      (mr, if mr <=? m then l else l ++ [(m, mr)])) (0, [])).

Definition do_swaps (l : list (Z * Z)) (a : list Z) : list Z :=
  fold_left (fun a '(i, j) => swap a i j) l a.

Lemma for_up_rel {S T} (R : S -> T -> Prop) f g n : forall i s t,
  R s t -> (forall k s t, R s t -> R (f k s) (g k t)) -> R (for_up i n f s) (for_up i n g t).
Proof. induction n as [|n IH]; intros i s t H Hs; cbn; [exact H|]. apply IH; auto. Qed.

Lemma for_up_seq {S} (f : Z -> S -> S) n : forall i s,
  for_up (Z.of_nat i) n f s = fold_left (fun s h => f (Z.of_nat h) s) (seq i n) s.
Proof.
  induction n as [|n IH]; intros i s; cbn [for_up seq fold_left]; [reflexivity|].
  replace (Z.of_nat i + 1) with (Z.of_nat (Datatypes.S i)) by lia. apply IH.
Qed.

Lemma fold_left_map {A B C} (f : A -> C -> A) (h : B -> C) l : forall a,
  fold_left f (map h l) a = fold_left (fun a b => f a (h b)) l a.
Proof. induction l as [|b l IH]; intros a; cbn; auto. Qed.

Lemma BitReverse_swaps a stages :
  WebRtcSpl_ComplexBitReverse a stages = do_swaps (bit_swaps stages) a.
Proof.
  unfold WebRtcSpl_ComplexBitReverse, bit_swaps, do_swaps. case_if.
  - destruct (if stages =? 8 then _ else _) as [len index]. rewrite fold_left_map.
    apply (for_up_seq (fun h a => swap a (rd index (2 * h)) (rd index (2 * h + 1))) _ 0%nat).
  - cbv zeta. set (n := Z.shiftl 1 stages).
    apply (for_up_rel (fun (s : Z * list Z) (t : Z * list (Z * Z)) =>
      fst s = fst t /\ snd s = fold_left (fun a '(i, j) => swap a i j) (snd t) a) _ _ _ 1 (0, a) (0, [])).
    { split; reflexivity. }
    intros k [mr b] [mr' l] [E1 E2]. cbn [fst snd] in *. subst.
    case_if; cbn [fst snd]; (split; [reflexivity|]); [reflexivity|]. now rewrite fold_left_app.
Qed.

Definition swaps_in (n : Z) (l : list (Z * Z)) : bool :=
  forallb (fun '(i, j) => (0 <=? i) && (i <? n) && (0 <=? j) && (j <? n)) l.

Lemma do_swaps_map g l : forall a,
  swaps_in (zlen a) l = true -> do_swaps l (map g a) = map g (do_swaps l a).
Proof.
  induction l as [|[i j] l IH]; intros a H; [reflexivity|]. cbn [swaps_in forallb] in H.
  apply andb_prop in H as [H Hl]. unfold do_swaps. cbn [fold_left]. rewrite swap_map by lia.
  apply IH. now rewrite zlen_swap.
Qed.

(** The runs on the array of the indices, by evaluation. *)
Definition reverses (stages : nat) : bool :=
  let n := 2 ^ Z.of_nat stages in
  let l := bit_swaps (Z.of_nat stages) in
  swaps_in n l &&
  forallb (fun '(x, y) => x =? y)
    (combine (do_swaps l (tabulate n (fun i => i))) (tabulate n (bit_reverse stages))).

Lemma reverses_upto_10 : forallb reverses (seq 0 11) = true.
Proof. vm_compute. reflexivity. Qed.

Lemma combine_eq (a b : list Z) :
  zlen a = zlen b -> forallb (fun '(x, y) => x =? y) (combine a b) = true -> a = b.
Proof.
  unfold zlen. revert b; induction a as [|x a IH]; intros [|y b]; cbn; intros Hl H; try lia; [reflexivity|].
  apply andb_prop in H as [E H]. f_equal; [lia|]. apply IH; [lia|exact H].
Qed.

Lemma zlen_do_swaps l : forall a, zlen (do_swaps l a) = zlen a.
Proof.
  induction l as [|[i j] l IH]; intros a; [reflexivity|]. unfold do_swaps. cbn [fold_left].
  fold (do_swaps l (swap a i j)). now rewrite IH, zlen_swap.
Qed.

Lemma map_tabulate g n f : map g (tabulate n f) = tabulate n (fun i => g (f i)).
Proof. unfold tabulate. now rewrite map_map. Qed.

Lemma tabulate_rd a : tabulate (zlen a) (rd a) = a.
Proof.
  apply rd_ext; rewrite zlen_tabulate by apply zlen_nonneg; [reflexivity|].
  intros i Hi. now rewrite rd_tabulate.
Qed.

(** On the [2 ^ stages] complex numbers of an FFT, up to the largest of the
    library, [WebRtcSpl_ComplexBitReverse] puts at each index the number whose
    index has its bits reversed: the tables used for 7 and 8 stages and the
    counting loop used for the others compute the same permutation. *)
Theorem ComplexBitReverse_permutes stages a :
  (stages <= 10)%nat -> zlen a = 2 ^ Z.of_nat stages ->
  WebRtcSpl_ComplexBitReverse a (Z.of_nat stages) =
    tabulate (zlen a) (fun i => rd a (bit_reverse stages i)).
Proof.
  intros Hs Hl. pose proof reverses_upto_10 as H. rewrite forallb_forall in H.
  specialize (H stages ltac:(apply in_seq; lia)). unfold reverses in H.
  apply andb_prop in H as [Hi He]. rewrite <- Hl in *.
  pose proof (zlen_nonneg a). apply combine_eq in He; [|rewrite zlen_do_swaps, !zlen_tabulate by lia; reflexivity].
  assert (Ea : a = map (rd a) (tabulate (zlen a) (fun i => i)))
    by (symmetry; etransitivity; [apply map_tabulate|apply tabulate_rd]).
  rewrite BitReverse_swaps. rewrite Ea at 1.
  rewrite do_swaps_map by now rewrite zlen_tabulate by lia.
  rewrite He. apply map_tabulate.
Qed.

(** ** The Hanning window *)

Definition window_value (size jj : Z) : Z :=
  let half := if size <? 513 then 0x200000 else 0x100000 in
  rd kHanningTable (((jj + 1) * (0x40000000 / size) - half) / 2 ^ 22).

(** Windows of 1 to 1024 values are read from the table, which is never
    left. *)
Theorem GetHanningWindow_spec size v :
  1 <= size <= 1024 -> zlen v = size ->
  WebRtcSpl_GetHanningWindow v size = tabulate size (window_value size) /\
  forall jj, 0 <= jj < size ->
    let half := if size <? 513 then 0x200000 else 0x100000 in
    0 <= ((jj + 1) * (0x40000000 / size) - half) / 2 ^ 22 < 256.
Proof.
  intros Hs Hv. set (half := if size <? 513 then 0x200000 else 0x100000).
  set (fac := 0x40000000 / size).
  assert (Hf : half <= fac /\ size * fac <= 0x40000000 /\ 0 < half <= 0x200000).
  { unfold half, fac. split; [|split].
    - apply Z.div_le_lower_bound; [lia|]. case_if; lia.
    - apply Z.mul_div_le. lia.
    - case_if; lia. }
  assert (Hr : forall jj, 0 <= jj < size -> 0 <= (jj + 1) * fac - half < 0x40000000) by (intros; nia).
  split.
  - unfold WebRtcSpl_GetHanningWindow, WebRtcSpl_DivW32W16.
    rewrite s16_id by (int_unfold; lia). replace (size =? 0) with false by lia. cbn [negb].
    rewrite Z.quot_div_nonneg by lia. fold fac. rewrite (s32_id fac) by (int_unfold; nia).
    replace (if size <? 513 then -0x200000 else -0x100000) with (0 * fac - half)
      by (unfold half; case_if; lia).
    match goal with |- snd (for_up 0 ?n ?f ?s) = _ => pose proof (for_up_inv
      (fun k t => fst t = k * fac - half /\ zlen (snd t) = size /\
        forall i, 0 <= i < k -> rd (snd t) i = window_value size i) f n 0 s) as H end.
    destruct H as (_ & Hz & H).
    + cbn. repeat split; auto; lia.
    + intros k [ix w] Hk (E & Hz & H). cbn [fst snd] in *. subst ix.
      specialize (Hr k ltac:(lia)). rewrite s32_id by (int_unfold; lia).
      split; [lia|]. rewrite zlen_wr. split; [exact Hz|]. intros i Hi.
      rewrite rd_wr by lia. destruct (Z.eqb_spec i k) as [->|]; [|apply H; lia].
      unfold window_value. fold half fac. rewrite shiftr_div by lia. f_equal. f_equal. lia.
    + apply rd_ext; [rewrite zlen_tabulate by lia; exact Hz|]. intros i Hi. rewrite Hz in Hi.
      rewrite rd_tabulate by lia. apply H. lia.
  - intros jj Hjj. cbv zeta. specialize (Hr jj Hjj). fold fac. fold half.
    split; [apply Z.div_pos; lia|apply Z.div_lt_upper_bound; lia].
Qed.

(** The example worked out in the comment of [WebRtcSpl_Sqrt]. *)
Example Sqrt_73632 : WebRtcSpl_Sqrt 73632 = 271.
Proof. vm_compute. reflexivity. Qed.

(** ** Examples *)

Lemma SqrtFloor_witness : WebRtcSpl_SqrtFloor 2147483647 = Z.sqrt 2147483647.
Proof. apply (SqrtFloor_exact 2147483647). int_unfold; lia. Defined.

Lemma DivResultInQ31_witness : WebRtcSpl_DivResultInQ31 (-1) 3 = Z.quot (-1 * 2 ^ 31) 3.
Proof. apply (DivResultInQ31_spec (-1) 3). lia. Defined.

(** Above 2^30 the doubled remainder overflows and the result is wrong. *)
Example DivResultInQ31_large : WebRtcSpl_DivResultInQ31 1610612736 2147483647 <> Z.quot (1610612736 * 2 ^ 31) 2147483647.
Proof. vm_compute. discriminate. Qed.

Lemma ComplexBitReverse_witness :
  WebRtcSpl_ComplexBitReverse [10; 11; 12; 13; 14; 15; 16; 17] 3 =
    tabulate 8 (fun i => rd [10; 11; 12; 13; 14; 15; 16; 17] (bit_reverse 3 i)).
Proof. apply (ComplexBitReverse_permutes 3 [10; 11; 12; 13; 14; 15; 16; 17]); [lia|reflexivity]. Defined.

Lemma GetHanningWindow_witness :
  WebRtcSpl_GetHanningWindow (zeros 4) 4 = tabulate 4 (window_value 4).
Proof. apply (GetHanningWindow_spec 4 (zeros 4)); [lia|reflexivity]. Defined.

(** A longer window starts before the table. *)
Example hanning_1100 : (0x40000000 / 1100 - 0x100000) / 2 ^ 22 = -1.
Proof. reflexivity. Qed.
End SplMath.
