(* ===== verification/SplVector.v ===== *)
(** * Vector operations of the signal processing library

    Models, from src/orbit/webrtc/common_audio/signal_processing/:
    min_max_operations.c, copy_set_operations.c, vector_scaling_operations.c,
    ilbc_specific_functions.c, randomization_functions.c,
    get_scaling_square.c, energy.c, dot_product_with_scale.c,
    cross_correlation.c and auto_correlation.c (the C versions, which
    spl_init.c installs).  An output array is passed in and returned. *)

From S2P Require Import Prelude SplInl.
Import SplInl.

Module SplVector.

(** ** min_max_operations.c *)

(** [for (i = 0; i < length; i++) s = f(vector[i], i, s)]. *)
Definition scan {S} (f : Z -> Z -> S -> S) (vector : list Z) (length : Z) (s : S) : S :=
  for_up 0 (Z.to_nat length) (fun i s => f (rd vector i) i s) s.

Definition WebRtcSpl_MaxAbsValueW16C (vector : list Z) (length : Z) : Z :=
  let maximum := scan (fun v _ maximum =>
    let absolute := Z.abs v in
    if maximum <? absolute then absolute else maximum) vector length 0 in
  s16 (if 32767 <? maximum then 32767 else maximum).

(** [abs] of the most negative [int] overflows; the source stores it as the
    unsigned 0x80000000. *)
Definition WebRtcSpl_MaxAbsValueW32C (vector : list Z) (length : Z) : Z :=
  let maximum := scan (fun v _ maximum =>
    let absolute := u32 (s32 (Z.abs v)) in
    if maximum <? absolute then absolute else maximum) vector length 0 in
  s32 (WEBRTC_SPL_MIN maximum 2147483647).

Definition WebRtcSpl_MaxValueW16C (vector : list Z) (length : Z) : Z :=
  scan (fun v _ maximum => if maximum <? v then v else maximum) vector length (-32768).

Definition WebRtcSpl_MaxValueW32C (vector : list Z) (length : Z) : Z :=
  scan (fun v _ maximum => if maximum <? v then v else maximum) vector length (-2147483648).

Definition WebRtcSpl_MinValueW16C (vector : list Z) (length : Z) : Z :=
  scan (fun v _ minimum => if v <? minimum then v else minimum) vector length 32767.

Definition WebRtcSpl_MinValueW32C (vector : list Z) (length : Z) : Z :=
  scan (fun v _ minimum => if v <? minimum then v else minimum) vector length 2147483647.

(** The state of an index search: the index and the extreme value so far. *)
Definition WebRtcSpl_MaxAbsIndexW16 (vector : list Z) (length : Z) : Z :=
  fst (scan (fun v i '(index, maximum) =>
    let absolute := Z.abs v in
    if maximum <? absolute then (i, absolute) else (index, maximum)) vector length (0, 0)).

Definition WebRtcSpl_MaxIndexW16 (vector : list Z) (length : Z) : Z :=
  fst (scan (fun v i '(index, maximum) =>
    if maximum <? v then (i, v) else (index, maximum)) vector length (0, -32768)).

Definition WebRtcSpl_MaxIndexW32 (vector : list Z) (length : Z) : Z :=
  fst (scan (fun v i '(index, maximum) =>
    if maximum <? v then (i, v) else (index, maximum)) vector length (0, -2147483648)).

Definition WebRtcSpl_MinIndexW16 (vector : list Z) (length : Z) : Z :=
  fst (scan (fun v i '(index, minimum) =>
    if v <? minimum then (i, v) else (index, minimum)) vector length (0, 32767)).

Definition WebRtcSpl_MinIndexW32 (vector : list Z) (length : Z) : Z :=
  fst (scan (fun v i '(index, minimum) =>
    if v <? minimum then (i, v) else (index, minimum)) vector length (0, 2147483647)).

(** ** copy_set_operations.c *)

(** [for (i = 0; i < length; i++) out[i] = f(i)]. *)
Definition each (length : Z) (f : Z -> Z) (out : list Z) : list Z :=
  for_up 0 (Z.to_nat length) (fun i out => wr out i (f i)) out.

Definition WebRtcSpl_MemSetW16 (ptr : list Z) (set_value length : Z) : list Z :=
  each length (fun _ => set_value) ptr.

Definition WebRtcSpl_MemSetW32 (ptr : list Z) (set_value length : Z) : list Z :=
  each length (fun _ => set_value) ptr.

(** [dest] is written downwards from index [d]. *)
Definition WebRtcSpl_MemCpyReversedOrder (dest : list Z) (d : Z) (source : list Z)
    (length : Z) : list Z :=
  for_up 0 (Z.to_nat length) (fun j dest => wr dest (d - j) (rd source j)) dest.

Definition WebRtcSpl_CopyFromEndW16 (vector_in : list Z) (length samples : Z)
    (vector_out : list Z) : list Z :=
  blit vector_out 0 (slice vector_in (u64 (length - samples)) samples).

Definition WebRtcSpl_ZerosArrayW16 (vector : list Z) (length : Z) : list Z :=
  WebRtcSpl_MemSetW16 vector 0 length.

Definition WebRtcSpl_ZerosArrayW32 (vector : list Z) (length : Z) : list Z :=
  WebRtcSpl_MemSetW32 vector 0 length.

(** ** vector_scaling_operations.c *)

Definition WebRtcSpl_VectorBitShiftW16 (res : list Z) (length : Z) (in_ : list Z)
    (right_shifts : Z) : list Z :=
  if 0 <? right_shifts then each length (fun i => s16 (Z.shiftr (rd in_ i) right_shifts)) res
  else each length (fun i => s16 (s32 (Z.shiftl (rd in_ i) (- right_shifts)))) res.

Definition WebRtcSpl_VectorBitShiftW32 (out_vector : list Z) (vector_length : Z)
    (in_vector : list Z) (right_shifts : Z) : list Z :=
  if 0 <? right_shifts then
    each vector_length (fun i => Z.shiftr (rd in_vector i) right_shifts) out_vector
  else
    each vector_length (fun i => s32 (Z.shiftl (rd in_vector i) (- right_shifts))) out_vector.

Definition WebRtcSpl_VectorBitShiftW32ToW16 (out : list Z) (length : Z) (in_ : list Z)
    (right_shifts : Z) : list Z :=
  if 0 <=? right_shifts then
    each length (fun i => WebRtcSpl_SatW32ToW16 (Z.shiftr (rd in_ i) right_shifts)) out
  else
    let left_shifts := - right_shifts in
    each length (fun i => WebRtcSpl_SatW32ToW16 (s32 (Z.shiftl (rd in_ i) left_shifts))) out.

Definition WebRtcSpl_ScaleVector (in_vector out_vector : list Z) (gain in_vector_length
    right_shifts : Z) : list Z :=
  each in_vector_length
    (fun i => s16 (Z.shiftr (rd in_vector i * gain) right_shifts)) out_vector.

Definition WebRtcSpl_ScaleVectorWithSat (in_vector out_vector : list Z)
    (gain in_vector_length right_shifts : Z) : list Z :=
  each in_vector_length
    (fun i => WebRtcSpl_SatW32ToW16 (Z.shiftr (rd in_vector i * gain) right_shifts)) out_vector.

Definition WebRtcSpl_ScaleAndAddVectors (in1 : list Z) (gain1 shift1 : Z) (in2 : list Z)
    (gain2 shift2 : Z) (out : list Z) (vector_length : Z) : list Z :=
  each vector_length
    (fun i => s16 (s16 (Z.shiftr (gain1 * rd in1 i) shift1) +
                   s16 (Z.shiftr (gain2 * rd in2 i) shift2))) out.

(** [None] is the NULL pointer; the result is the return value and the output. *)
Definition WebRtcSpl_ScaleAndAddVectorsWithRoundC (in_vector1 : option (list Z))
    (in_vector1_scale : Z) (in_vector2 : option (list Z)) (in_vector2_scale right_shifts : Z)
    (out_vector : option (list Z)) (length : Z) : Z * option (list Z) :=
  let round_value := Z.shiftr (s32 (Z.shiftl 1 right_shifts)) 1 in
  match in_vector1, in_vector2, out_vector with
  | Some in1, Some in2, Some out =>
      if (length =? 0) || (right_shifts <? 0) then (-1, out_vector)
      else
        (0, Some (each length (fun i =>
           s16 (Z.shiftr
             (s32 (s32 (rd in1 i * in_vector1_scale + rd in2 i * in_vector2_scale) + round_value))
             right_shifts)) out))
  | _, _, _ => (-1, out_vector)
  end.

(** ** ilbc_specific_functions.c *)

(** [win] is read downwards from index [w]. *)
Definition WebRtcSpl_ReverseOrderMultArrayElements (out in_ win : list Z) (w : Z)
    (vector_length right_shifts : Z) : list Z :=
  each vector_length
    (fun i => s16 (Z.shiftr (rd in_ i * rd win (w - i)) right_shifts)) out.

Definition WebRtcSpl_ElementwiseVectorMult (out in_ win : list Z)
    (vector_length right_shifts : Z) : list Z :=
  each vector_length (fun i => s16 (Z.shiftr (rd in_ i * rd win i) right_shifts)) out.

Definition WebRtcSpl_AddVectorsAndShift (out in1 in2 : list Z)
    (vector_length right_shifts : Z) : list Z :=
  each vector_length (fun i => s16 (Z.shiftr (rd in1 i + rd in2 i) right_shifts)) out.

Definition WebRtcSpl_AddAffineVectorToVector (out in_ : list Z)
    (gain add_constant right_shifts vector_length : Z) : list Z :=
  for_up 0 (Z.to_nat vector_length) (fun i out =>
    wr out i (s16 (rd out i +
      s16 (Z.shiftr (s32 (rd in_ i * gain + add_constant)) right_shifts)))) out.

Definition WebRtcSpl_AffineTransformVector (out in_ : list Z)
    (gain add_constant right_shifts vector_length : Z) : list Z :=
  each vector_length
    (fun i => s16 (Z.shiftr (s32 (rd in_ i * gain + add_constant)) right_shifts)) out.

(** ** randomization_functions.c *)

Definition kMaxSeedUsed : Z := 0x80000000.

Definition kRandNTable : list Z := [
   9178; -7260; 40; 10189; 4894; -3531; -13779; 14764; -4008; -8884; -8990; 1008; 7368; 5184; 3251; -5817;
   -9786; 5963; 1770; 8066; -7135; 10772; -2298; 1361; 6484; 2241; -8633; 792; 199; -3344; 6553; -10079;
   -15040; 95; 11608; -12469; 14161; -4176; 2476; 6403; 13685; -16005; 6646; 2239; 10916; -3004; -602; -3141;
   2142; 14144; -5829; 5305; 8209; 4713; 2697; -5112; 16092; -1210; -2891; -6631; -5360; -11878; -6781; -2739;
   -6392; 536; 10923; 10872; 5059; -4748; -7770; 5477; 38; -1025; -2892; 1638; 6304; 14375; -11028; 1553;
   -1565; 10762; -393; 4040; 5257; 12310; 6554; -4799; 4899; -6354; 1603; -1048; -2220; 8247; -186; -8944;
   -12004; 2332; 4801; -4933; 6371; 131; 8614; -5927; -8287; -22760; 4033; -15162; 3385; 3246; 3153; -5250;
   3766; 784; 6494; -62; 3531; -1582; 15572; 662; -3952; -330; -3196; 669; 7236; -2678; -6569; 23319;
   -8645; -741; 14830; -15976; 4903; 315; -11342; 10311; 1858; -7777; 2145; 5436; 5677; -113; -10033; 826;
   -1353; 17210; 7768; 986; -1471; 8291; -4982; 8207; -14911; -6255; -2449; -11881; -7059; -11703; -4338; 8025;
   7538; -2823; -12490; 9470; -1613; -2529; -10092; -7807; 9480; 6970; -12844; 5123; 3532; 4816; 4803; -8455;
   -5045; 14032; -4378; -1643; 5756; -11041; -2732; -16618; -6430; -18375; -3320; 6098; 5131; -4269; -8840; 2482;
   -7048; 1547; -21890; -6505; -7414; -424; -11722; 7955; 1653; -17299; 1823; 473; -9232; 3337; 1111; 873;
   4018; -8982; 9889; 3531; -11763; -3799; 7373; -4539; 3231; 7054; -8537; 7616; 6244; 16635; 447; -2915;
   13967; 705; -2669; -1520; -1771; -16188; 5956; 5117; 6371; -9936; -1448; 2480; 5128; 7550; -8130; 5236;
   8213; -6443; 7707; -1950; -13811; 7218; 7031; -3883; 67; 5731; -2874; 13480; -3743; 9298; -3280; 3552;
   -4425; -18; -3785; -9988; -5357; 5477; -11794; 2117; 1416; -9935; 3376; 802; -5079; -8243; 12652; 66;
   3653; -2368; 6781; -21895; -7227; 2487; 7839; -385; 6646; -7016; -4658; 5531; -1705; 834; 129; 3694;
   -1343; 2238; -22640; -6417; -11139; 11301; -2945; -3494; -5626; 185; -3615; -2041; -7972; -3106; -60; -23497;
   -1566; 17064; 3519; 2518; 304; -6805; -10269; 2105; 1936; -426; -736; -8122; -1467; 4238; -6939; -13309;
   360; 7402; -7970; 12576; 3287; 12194; -6289; -16006; 9171; 4042; -9193; 9123; -2512; 6388; -4734; -8739;
   1028; -5406; -1696; 5889; -666; -4736; 4971; 3565; 9362; -6292; 3876; -3652; -19666; 7523; -4061; 391;
   -11773; 7502; -3763; 4929; -9478; 13278; 2805; 4496; 7814; 16419; 12455; -14773; 2127; -2746; 3763; 4847;
   3698; 6978; 4751; -6957; -3581; -45; 6252; 1513; -4797; -7925; 11270; 16188; -2359; -5269; 9376; -10777;
   7262; 20031; -6515; -2208; -5353; 8085; -1341; -1303; 7333; 5576; 3625; 5763; -7931; 9833; -3371; -10305;
   6534; -13539; -9971; 997; 8464; -4064; -1495; 1857; 13624; 5458; 9490; -11086; -4524; 12022; -550; -198;
   408; -8455; -7068; 10289; 9712; -3366; 9028; -7621; -5243; 2362; 6909; 4672; -4933; -1799; 4709; -4563;
   -62; -566; 1624; -7010; 14730; -17791; -3697; -2344; -1741; 7099; -9509; -6855; -1989; 3495; -2289; 2031;
   12784; 891; 14189; -3963; -5683; 421; -12575; 1724; -12682; -5970; -8169; 3143; -1824; -5488; -5130; 8536;
   12799; 794; 5738; 3459; -11689; -258; -3738; -3775; -8742; 2333; 8312; -9383; 10331; 13119; 8398; 10644;
   -19433; -6446; -16277; -11793; 16284; 9345; 15222; 15834; 2009; -7349; 130; -14547; 338; -5998; 3337; 21492;
   2406; 7703; -951; 11196; -564; 3406; 2217; 4806; 2374; -5797; 11839; 8940; -11874; 18213; 2855; 10492].

Definition IncreaseSeed (seed : Z) : Z :=
  Z.land (u32 (u32 (seed * 69069) + 1)) (kMaxSeedUsed - 1).

(** The result and the seed after the call. *)
Definition WebRtcSpl_RandU (seed : Z) : Z * Z :=
  let seed := IncreaseSeed seed in (s16 (Z.shiftr seed 16), seed).

Definition WebRtcSpl_RandN (seed : Z) : Z * Z :=
  let seed := IncreaseSeed seed in (rd kRandNTable (Z.shiftr seed 23), seed).

Definition WebRtcSpl_RandUArray (vector : list Z) (vector_length seed : Z)
    : Z * list Z * Z :=
  let '(vector, seed) :=
    for_up 0 (Z.to_nat vector_length) (fun i '(vector, seed) =>
      let '(r, seed) := WebRtcSpl_RandU seed in (wr vector i r, seed)) (vector, seed) in
  (vector_length, vector, seed).

(** ** Energies and correlations *)

Definition WebRtcSpl_GetScalingSquare (in_vector : list Z) (in_vector_length times : Z) : Z :=
  let nbits := WebRtcSpl_GetSizeInBits (u32 times) in
  let smax := for_up 0 (Z.to_nat in_vector_length) (fun i smax =>
    let v := rd in_vector i in
    let sabs := s16 (if 0 <? v then v else - v) in
    if smax <? sabs then sabs else smax) (-1) in
  let t := WebRtcSpl_NormW32 (WEBRTC_SPL_MUL smax smax) in
  if smax =? 0 then 0 else if nbits <? t then 0 else nbits - t.

Definition WebRtcSpl_Energy (vector : list Z) (vector_length : Z) : Z * Z :=
  let scaling := WebRtcSpl_GetScalingSquare vector vector_length vector_length in
  let en := for_up 0 (Z.to_nat vector_length) (fun i en =>
    s32 (en + Z.shiftr (rd vector i * rd vector i) scaling)) 0 in
  (en, scaling).

(** One term of a scaled product sum. *)
Definition mac (a b : list Z) (scaling : Z) (i j sum : Z) : Z :=
  s32 (sum + Z.shiftr (rd a i * rd b j) scaling).

(** Four terms a round, then the rest one by one. *)
Definition WebRtcSpl_DotProductWithScale (vector1 vector2 : list Z) (length scaling : Z) : Z :=
  let rounds := Z.to_nat (length / 4) in
  let sum := for_up 0 rounds (fun r sum =>
    let i := 4 * r in
    let sum := mac vector1 vector2 scaling (i + 0) (i + 0) sum in
    let sum := mac vector1 vector2 scaling (i + 1) (i + 1) sum in
    let sum := mac vector1 vector2 scaling (i + 2) (i + 2) sum in
    mac vector1 vector2 scaling (i + 3) (i + 3) sum) 0 in
  for_up (4 * (length / 4)) (Z.to_nat (length - 4 * (length / 4)))
    (fun i sum => mac vector1 vector2 scaling i i sum) sum.

(** [s2] is the offset of [seq2] in its array, which moves by [step_seq2]. *)
Definition WebRtcSpl_CrossCorrelationC (cross_correlation seq1 seq2 : list Z) (s2 : Z)
    (dim_seq dim_cross_correlation right_shifts step_seq2 : Z) : list Z :=
  fst (for_up 0 (Z.to_nat dim_cross_correlation) (fun i '(cross_correlation, s2) =>
    let corr := for_up 0 (Z.to_nat dim_seq)
      (fun j corr => mac seq1 seq2 right_shifts j (s2 + j) corr) 0 in
    (wr cross_correlation i corr, s2 + step_seq2)) (cross_correlation, s2)).

Definition WebRtcSpl_AutoCorrelation (in_vector : list Z) (in_vector_length order : Z)
    (result : list Z) : Z * list Z * Z :=
  let smax := WebRtcSpl_MaxAbsValueW16C in_vector in_vector_length in
  let scaling :=
    if smax =? 0 then 0
    else
      let nbits := WebRtcSpl_GetSizeInBits (u32 in_vector_length) in
      let t := WebRtcSpl_NormW32 (WEBRTC_SPL_MUL smax smax) in
      if nbits <? t then 0 else nbits - t in
  let result := for_up 0 (Z.to_nat (order + 1)) (fun i result =>
    let n := in_vector_length - i in
    let sum := for_up 0 (Z.to_nat (n / 4)) (fun r sum =>
      let j := 4 * r in
      let sum := mac in_vector in_vector scaling (j + 0) (i + j + 0) sum in
      let sum := mac in_vector in_vector scaling (j + 1) (i + j + 1) sum in
      let sum := mac in_vector in_vector scaling (j + 2) (i + j + 2) sum in
      mac in_vector in_vector scaling (j + 3) (i + j + 3) sum) 0 in
    let sum := for_up (4 * (n / 4)) (Z.to_nat (n - 4 * (n / 4)))
      (fun j sum => mac in_vector in_vector scaling j (i + j) sum) sum in
    wr result i sum) result in
  (order + 1, result, scaling).

(** ** Extremes *)

(** [m] is the largest [f] of the first [n] elements. *)
Definition is_max (f : Z -> Z) (v : list Z) (n m : Z) : Prop :=
  (exists i, 0 <= i < n /\ f (rd v i) = m) /\ forall i, 0 <= i < n -> f (rd v i) <= m.

(** [k] is the first index at which [f] is largest. *)
Definition first_max (f : Z -> Z) (v : list Z) (n k : Z) : Prop :=
  0 <= k < n /\ (forall i, 0 <= i < n -> f (rd v i) <= f (rd v k)) /\
  (forall i, 0 <= i < k -> f (rd v i) < f (rd v k)).

Lemma scan_max (f g : Z -> Z) step v n s0 :
  (forall x i m, g (step x i m) = Z.max (g m) (f x)) ->
  0 < n -> (forall i, 0 <= i < n -> g s0 <= f (rd v i)) ->
  is_max f v n (g (scan step v n s0)).
Proof.
  intros Hstep Hn H0. unfold scan.
  pose proof (for_up_inv (fun k m => (k = 0 /\ m = s0) \/ (0 < k /\ is_max f v k (g m)))
    (fun i s => step (rd v i) i s) (Z.to_nat n) 0 s0) as H.
  destruct H as [[H _]|[_ H]]; [left; lia| |lia|].
  - intros k m Hk [[-> ->]|[Hk0 [(i & Hi & He) Hall]]]; right; (split; [lia|]); rewrite Hstep.
    + pose proof (H0 0 ltac:(lia)). split.
      * exists 0. split; lia.
      * intros i Hi. replace i with 0 by lia. lia.
    + split.
      * destruct (Z.le_gt_cases (f (rd v k)) (g m)); [exists i|exists k]; split; lia.
      * intros j Hj. destruct (Z.eq_dec j k) as [->|]; [lia|]. specialize (Hall j). lia.
  - rewrite Z2Nat.id, Z.add_0_l in H by lia. exact H.
Qed.

Lemma scan_first_max (f g : Z -> Z) step v n s0 :
  (forall x i k m, exists m', g m' = f x /\
     step x i (k, m) = if g m <? f x then (i, m') else (k, m)) ->
  0 < n -> (forall i, 0 <= i < n -> g s0 <= f (rd v i)) ->
  first_max f v n (fst (scan step v n (0, s0))).
Proof.
  intros Hstep Hn H0. unfold scan.
  pose proof (for_up_inv (fun k s => (k = 0 /\ s = (0, s0)) \/
      (0 < k /\ first_max f v k (fst s) /\ g (snd s) = f (rd v (fst s))))
    (fun i s => step (rd v i) i s) (Z.to_nat n) 0 (0, s0)) as H.
  destruct H as [[H _]|[_ [H _]]]; [left; auto| |lia|].
  - intros k s Hk Hs. right. split; [lia|]. destruct s as [j m]. cbn [fst snd] in Hs.
    destruct (Hstep (rd v k) k j m) as (m' & Hm' & ->).
    destruct Hs as [[-> [= -> ->]]|(Hk0 & (Hj & Hall & Hlt) & Hg)].
    + pose proof (H0 0 ltac:(lia)).
      assert (Hf : first_max f v (0 + 1) 0).
      { split; [lia|]. split; intros i Hi; [replace i with 0 by lia|]; lia. }
      destruct (Z.ltb_spec (g s0) (f (rd v 0))); (split; [exact Hf|cbn [fst snd]; lia]).
    + destruct (Z.ltb_spec (g m) (f (rd v k))); (split; [cbn [fst snd]|cbn [fst snd]; lia]).
      * split; [lia|]. split; intros i Hi.
        -- destruct (Z.eq_dec i k) as [->|]; [lia|]. specialize (Hall i). lia.
        -- specialize (Hall i). lia.
      * split; [lia|]. split; intros i Hi; [|apply Hlt; lia].
        destruct (Z.eq_dec i k) as [->|]; [lia|]. apply Hall; lia.
  - rewrite Z2Nat.id, Z.add_0_l in H by lia. exact H.
Qed.

Lemma Forall_at (P : Z -> Prop) v n i : Forall P v -> n <= zlen v -> 0 <= i < n -> P (rd v i).
Proof.
  intros HF Hn Hi. rewrite Forall_forall in HF. apply HF, rd_in_bounds. lia.
Qed.

Lemma is_max_cap f v n m c :
  (forall i, 0 <= i < n -> f (rd v i) <= c + 1) -> is_max f v n m ->
  is_max (fun x => Z.min c (f x)) v n (Z.min c m).
Proof.
  intros Hc [(i & Hi & He) Hall]. split.
  - exists i. split; lia.
  - intros j Hj. specialize (Hall j Hj). lia.
Qed.

Lemma is_max_ext f g v n m :
  (forall i, 0 <= i < n -> f (rd v i) = g (rd v i)) -> is_max f v n m -> is_max g v n m.
Proof.
  intros Hfg [(i & Hi & He) Hall]. split.
  - exists i. split; [lia|]. now rewrite <- Hfg.
  - intros j Hj. rewrite <- Hfg by lia. now apply Hall.
Qed.

(** The two shapes of step, for the value and for the index. *)
Lemma pick_max m x : (if m <? x then x else m) = Z.max m x.
Proof. case_if; lia. Qed.

Lemma scan_id v n s0 :
  0 < n -> (forall i, 0 <= i < n -> s0 <= rd v i) ->
  is_max (fun x => x) v n (scan (fun x _ m => if m <? x then x else m) v n s0).
Proof.
  intros. apply (scan_max (fun x => x) (fun m => m)); auto. intros; apply pick_max.
Qed.

Lemma scan_opp v n s0 :
  0 < n -> (forall i, 0 <= i < n -> rd v i <= s0) ->
  is_max Z.opp v n (- scan (fun x _ m => if x <? m then x else m) v n s0).
Proof.
  intros Hn H0. apply (scan_max Z.opp Z.opp); auto.
  - intros x i m. case_if; lia.
  - intros i Hi. specialize (H0 i Hi). lia.
Qed.

Lemma index_id v n s0 :
  0 < n -> (forall i, 0 <= i < n -> s0 <= rd v i) ->
  first_max (fun x => x) v n
    (fst (scan (fun x i '(index, m) => if m <? x then (i, x) else (index, m)) v n (0, s0))).
Proof.
  intros. apply (scan_first_max (fun x => x) (fun m => m)); auto.
  intros x i k m. exists x. auto.
Qed.

Lemma index_opp v n s0 :
  0 < n -> (forall i, 0 <= i < n -> rd v i <= s0) ->
  first_max Z.opp v n
    (fst (scan (fun x i '(index, m) => if x <? m then (i, x) else (index, m)) v n (0, s0))).
Proof.
  intros Hn H0. apply (scan_first_max Z.opp Z.opp); auto.
  - intros x i k m. exists x. split; [reflexivity|]. f_equal.
    replace (x <? m) with (- m <? - x) by lia. reflexivity.
  - intros i Hi. specialize (H0 i Hi). lia.
Qed.

Lemma MaxAbsValueW16C_max v n :
  Forall in_s16 v -> 0 < n <= zlen v ->
  is_max (fun x => Z.min 32767 (Z.abs x)) v n (WebRtcSpl_MaxAbsValueW16C v n).
Proof.
  intros HF Hn. unfold WebRtcSpl_MaxAbsValueW16C.
  assert (Hv : forall i, 0 <= i < n -> -32768 <= rd v i <= 32767)
    by (intros; now apply (Forall_at in_s16 v n)).
  pose proof (scan_max Z.abs (fun m => m)
    (fun v _ maximum => let absolute := Z.abs v in
       if maximum <? absolute then absolute else maximum) v n 0
    ltac:(intros; apply pick_max) ltac:(lia) ltac:(intros; cbv beta; lia)) as Hm.
  set (m := scan _ v n 0) in *. clearbody m.
  assert (Hm' := Hm). destruct Hm' as [(i & Hi & He) _]. specialize (Hv i Hi).
  replace (if 32767 <? m then 32767 else m) with (Z.min 32767 m) by (case_if; lia).
  rewrite s16_id by (int_unfold; lia). apply is_max_cap; [|exact Hm].
  intros j Hj. pose proof (Forall_at in_s16 v n j HF ltac:(lia) Hj). unfold in_s16 in *. lia.
Qed.

Lemma MaxAbsValueW32C_max v n :
  Forall in_s32 v -> 0 < n <= zlen v ->
  is_max (fun x => Z.min 2147483647 (Z.abs x)) v n (WebRtcSpl_MaxAbsValueW32C v n).
Proof.
  intros HF Hn. unfold WebRtcSpl_MaxAbsValueW32C.
  assert (Hv : forall i, 0 <= i < n -> in_s32 (rd v i))
    by (intros; now apply (Forall_at in_s32 v n)).
  assert (Habs : forall i, 0 <= i < n -> u32 (s32 (Z.abs (rd v i))) = Z.abs (rd v i)).
  { intros i Hi. specialize (Hv i Hi). int_lia. }
  pose proof (scan_max (fun x => u32 (s32 (Z.abs x))) (fun m => m)
    (fun v _ maximum => let absolute := u32 (s32 (Z.abs v)) in
       if maximum <? absolute then absolute else maximum) v n 0
    ltac:(intros; apply pick_max) ltac:(lia)
    ltac:(intros; cbv beta; rewrite Habs by lia; lia)) as Hm.
  set (m := scan _ v n 0) in *. clearbody m.
  apply (is_max_ext _ Z.abs) in Hm; [|exact Habs].
  assert (Hm' := Hm). destruct Hm' as [(i & Hi & He) _]. specialize (Hv i Hi).
  replace (WEBRTC_SPL_MIN m 2147483647) with (Z.min 2147483647 m)
    by (unfold WEBRTC_SPL_MIN; case_if; lia).
  unfold in_s32 in Hv. rewrite s32_id by (unfold in_s32; lia).
  apply is_max_cap; [|exact Hm].
  intros j Hj. pose proof (Forall_at in_s32 v n j HF ltac:(lia) Hj). unfold in_s32 in *. lia.
Qed.

(** Over a non-empty vector of samples of its width, each extreme-value
    function returns the largest (smallest) element, the absolute maximum of
    16-bit samples capped at 32767, and each index function the first index
    at which that extreme is reached. *)
Theorem MinMax_operations_16 v n :
  Forall in_s16 v -> 0 < n <= zlen v ->
  is_max (fun x => Z.min 32767 (Z.abs x)) v n (WebRtcSpl_MaxAbsValueW16C v n) /\
  is_max (fun x => x) v n (WebRtcSpl_MaxValueW16C v n) /\
  is_max Z.opp v n (- WebRtcSpl_MinValueW16C v n) /\
  first_max Z.abs v n (WebRtcSpl_MaxAbsIndexW16 v n) /\
  first_max (fun x => x) v n (WebRtcSpl_MaxIndexW16 v n) /\
  first_max Z.opp v n (WebRtcSpl_MinIndexW16 v n).
Proof.
  intros HF Hn.
  assert (Hv : forall i, 0 <= i < n -> -32768 <= rd v i <= 32767)
    by (intros; now apply (Forall_at in_s16 v n)).
  assert (Hv' : forall i, 0 <= i < n -> -32768 <= rd v i) by (intros; now apply Hv).
  assert (Hv'' : forall i, 0 <= i < n -> rd v i <= 32767) by (intros; now apply Hv).
  split; [now apply MaxAbsValueW16C_max|].
  split; [now apply scan_id|]. split; [now apply scan_opp|].
  split; [|split; [now apply index_id|now apply index_opp]].
  apply (scan_first_max Z.abs (fun m => m)); [|lia|intros; lia].
  intros x i k m. exists (Z.abs x). auto.
Qed.

(** The same over 32-bit samples; the index searches are the same loops. *)
Lemma MinMax_operations_32 v n :
  Forall in_s32 v -> 0 < n <= zlen v ->
  is_max (fun x => Z.min 2147483647 (Z.abs x)) v n (WebRtcSpl_MaxAbsValueW32C v n) /\
  is_max (fun x => x) v n (WebRtcSpl_MaxValueW32C v n) /\
  is_max Z.opp v n (- WebRtcSpl_MinValueW32C v n) /\
  first_max (fun x => x) v n (WebRtcSpl_MaxIndexW32 v n) /\
  first_max Z.opp v n (WebRtcSpl_MinIndexW32 v n).
Proof.
  intros HF Hn.
  assert (Hv : forall i, 0 <= i < n -> -2147483648 <= rd v i <= 2147483647)
    by (intros; now apply (Forall_at in_s32 v n)).
  assert (Hv' : forall i, 0 <= i < n -> -2147483648 <= rd v i) by (intros; now apply Hv).
  assert (Hv'' : forall i, 0 <= i < n -> rd v i <= 2147483647) by (intros; now apply Hv).
  split; [now apply MaxAbsValueW32C_max|].
  split; [now apply scan_id|]. split; [now apply scan_opp|].
  split; [now apply index_id|now apply index_opp].
Qed.

(** ** Sums of products *)

(** Splitting a loop in rounds of four. *)
Lemma for_up_by4 {S} (f : Z -> S -> S) m s :
  for_up 0 m (fun r s => f (4 * r + 3) (f (4 * r + 2) (f (4 * r + 1) (f (4 * r + 0) s)))) s =
  for_up 0 (4 * m) f s.
Proof.
  induction m as [|m IH]; [reflexivity|].
  rewrite for_up_snoc, IH. replace (4 * Datatypes.S m)%nat with
    (Datatypes.S (Datatypes.S (Datatypes.S (Datatypes.S (4 * m))))) by lia.
  rewrite !for_up_snoc. f_equal; [lia|]. f_equal; [lia|]. f_equal; [lia|]. f_equal. lia.
Qed.

Lemma for_up_split {S} (f : Z -> S -> S) i m n s :
  for_up i (m + n) f s = for_up (i + Z.of_nat m) n f (for_up i m f s).
Proof.
  revert i s; induction m as [|m IH]; intros i s; cbn [for_up Nat.add].
  - f_equal. lia.
  - rewrite IH. f_equal. lia.
Qed.

(** Rounds of four followed by the rest are the plain loop. *)
Lemma unrolled_by4 {S} (f : Z -> S -> S) n s :
  0 <= n ->
  for_up (4 * (n / 4)) (Z.to_nat (n - 4 * (n / 4))) f
    (for_up 0 (Z.to_nat (n / 4))
       (fun r s => f (4 * r + 3) (f (4 * r + 2) (f (4 * r + 1) (f (4 * r + 0) s)))) s) =
  for_up 0 (Z.to_nat n) f s.
Proof.
  intros Hn. rewrite for_up_by4.
  assert (0 <= n / 4 /\ 4 * (n / 4) <= n) by dlia.
  replace (Z.to_nat n) with (4 * Z.to_nat (n / 4) + Z.to_nat (n - 4 * (n / 4)))%nat by lia.
  rewrite for_up_split. f_equal. lia.
Qed.

(** The unrolled dot product is the plain one, and it is the exact sum of
    the shifted products whenever no partial sum can leave 32 bits. *)
Theorem DotProductWithScale_exact a b n scaling B :
  0 <= n ->
  (forall i, 0 <= i < n -> - B <= Z.shiftr (rd a i * rd b i) scaling <= B) ->
  n * B <= 2147483647 ->
  WebRtcSpl_DotProductWithScale a b n scaling =
    sum_up 0 (Z.to_nat n) (fun i => Z.shiftr (rd a i * rd b i) scaling).
Proof.
  intros Hn HB Hsum. unfold WebRtcSpl_DotProductWithScale.
  rewrite (unrolled_by4 (fun i s => mac a b scaling i i s)) by lia.
  rewrite <- (Z.add_0_l (sum_up _ _ _)).
  apply (for_up_sum32 (fun i => Z.shiftr (rd a i * rd b i) scaling) _ 0 0 B);
    [intros; apply HB|..]; lia.
Qed.

(** ** Scaled energies do not overflow *)

(** The shift chosen from the largest magnitude [smax] and the number of terms. *)
Definition scaling_for (smax n : Z) : Z :=
  if smax =? 0 then 0
  else let nbits := WebRtcSpl_GetSizeInBits (u32 n) in
       let t := WebRtcSpl_NormW32 (WEBRTC_SPL_MUL smax smax) in
       if nbits <? t then 0 else nbits - t.

(** With that shift, the products of samples of magnitude at most [smax] (or
    32768, where [smax] is capped at 32767) are so small that [n] of them fit. *)
Lemma scaling_for_bound smax n :
  0 <= smax <= 32767 -> 0 < n < 2147483648 ->
  exists B, n * B <= 2147483647 /\ 0 <= scaling_for smax n /\
    forall p, (smax < 32767 -> Z.abs p <= smax * smax) -> Z.abs p <= 1073741824 ->
      - B <= Z.shiftr p (scaling_for smax n) <= B.
Proof.
  intros Hs Hn.
  pose proof (GetSizeInBits_spec n ltac:(lia)) as Hb.
  pose proof (Z.log2_spec n ltac:(lia)) as Hl.
  pose proof (Z.log2_nonneg n).
  assert (Hl31 : Z.log2 n < 31) by (apply Z.log2_lt_pow2; lia).
  unfold scaling_for. destruct (smax =? 0) eqn:E0.
  { exists 0. split; [lia|]. split; [lia|]. intros p Hp _. rewrite Z.shiftr_0_r.
    assert (smax = 0) by lia. subst. lia. }
  assert (Hsq : 0 < smax * smax <= 1073676289) by nia.
  unfold WEBRTC_SPL_MUL. rewrite u32_id, s32_id, Hb by (int_unfold; lia).
  destruct (NormW32_mag (smax * smax) ltac:(lia)) as [Ht Hm].
  set (t := WebRtcSpl_NormW32 (smax * smax)) in *. set (l := Z.log2 n) in *.
  assert (Hlast : forall p, (smax < 32767 -> Z.abs p <= smax * smax) ->
            Z.abs p <= 1073741824 -> Z.abs p * 2 ^ t <= 2147483648).
  { intros p Hp1 Hp2. destruct (Z.eq_dec smax 32767) as [->|].
    - change (32767 * 32767) with 1073676289 in *.
      assert (t = 1) as -> by reflexivity. lia.
    - specialize (Hp1 ltac:(lia)). pose proof (Z.pow_pos_nonneg 2 t). nia. }
  exists (2 ^ (30 - l)).
  assert (HB : n * 2 ^ (30 - l) <= 2147483647).
  { assert (2 ^ Z.succ l * 2 ^ (30 - l) = 2147483648)
      by (rewrite <- Z.pow_add_r by lia; replace (Z.succ l + (30 - l)) with 31 by lia; reflexivity).
    pose proof (Z.pow_pos_nonneg 2 (30 - l)). nia. }
  assert (Hk : forall p k, (smax < 32767 -> Z.abs p <= smax * smax) -> Z.abs p <= 1073741824 ->
            0 <= k -> l + 1 - t <= k -> - 2 ^ (30 - l) <= Z.shiftr p k <= 2 ^ (30 - l)).
  { intros p k Hp1 Hp2 Hk0 Hk. specialize (Hlast p Hp1 Hp2). rewrite shiftr_div by lia.
    assert (Hpk : Z.abs p <= 2 ^ (30 - l) * 2 ^ k).
    { pose proof (Z.pow_pos_nonneg 2 t ltac:(lia) ltac:(lia)).
      apply (Z.mul_le_mono_pos_r _ _ (2 ^ t)); [lia|].
      rewrite <- !Z.pow_add_r by lia.
      pose proof (Z.pow_le_mono_r 2 31 (30 - l + k + t) ltac:(lia) ltac:(lia)). lia. }
    pose proof (Z.pow_pos_nonneg 2 k ltac:(lia) ltac:(lia)).
    split; [apply Z.div_le_lower_bound|apply Z.div_le_upper_bound]; lia. }
  split; [lia|]. destruct (l + 1 <? t) eqn:Et; (split; [lia|]);
    intros p Hp1 Hp2; apply Hk; auto; lia.
Qed.

(** The magnitude [WebRtcSpl_GetScalingSquare] works with. *)
Lemma GetScalingSquare_eq v n m :
  (forall i, 0 <= i < n -> -32768 < rd v i <= 32767) ->
  0 < n -> is_max Z.abs v n m ->
  WebRtcSpl_GetScalingSquare v n n = scaling_for m n.
Proof.
  intros Hv Hn Hm. unfold WebRtcSpl_GetScalingSquare, scaling_for. cbv zeta.
  pose proof (scan_max (fun x => s16 (if 0 <? x then x else - x)) (fun m => m)
    (fun x _ smax => let sabs := s16 (if 0 <? x then x else - x) in
       if smax <? sabs then sabs else smax) v n (-1)
    ltac:(intros; apply pick_max) ltac:(lia)) as H.
  assert (Habs : forall i, 0 <= i < n -> s16 (if 0 <? rd v i then rd v i else - rd v i) = Z.abs (rd v i)).
  { intros i Hi. specialize (Hv i Hi). rewrite s16_id by (int_unfold; case_if; lia). case_if; lia. }
  specialize (H ltac:(intros; cbv beta; rewrite Habs by lia; lia)).
  apply (is_max_ext _ Z.abs) in H; [|exact Habs].
  unfold scan in H. cbv zeta in H. set (k := for_up _ _ _ (-1)) in *. clearbody k.
  assert (k = m) as ->.
  { destruct H as [(i & Hi & Hk) Hall], Hm as [(j & Hj & Hm) Hall'].
    specialize (Hall j Hj). specialize (Hall' i Hi). lia. }
  reflexivity.
Qed.

(** The energy of fewer than 2^31 samples, none of them -32768, is the
    exact sum of the squares scaled down by the returned factor: the factor
    is large enough that the 32-bit sum never overflows. *)
Theorem Energy_exact v n :
  (forall i, 0 <= i < n -> -32768 < rd v i <= 32767) -> 0 < n < 2147483648 ->
  let (en, scaling) := WebRtcSpl_Energy v n in
  0 <= scaling /\
  en = sum_up 0 (Z.to_nat n) (fun i => Z.shiftr (rd v i * rd v i) scaling) /\
  0 <= en <= 2147483647.
Proof.
  intros Hv Hn. unfold WebRtcSpl_Energy.
  assert (Hm : exists m, is_max Z.abs v n m).
  { eexists. apply (scan_max Z.abs (fun m => m)
      (fun x _ m => if m <? Z.abs x then Z.abs x else m) v n 0); [intros; apply pick_max|lia|intros; lia]. }
  destruct Hm as [m Hm]. rewrite (GetScalingSquare_eq v n m) by (auto; lia).
  assert (Hmr : 0 <= m <= 32767).
  { destruct Hm as [(i & Hi & Hm) _]. specialize (Hv i Hi). lia. }
  assert (HB : forall i, 0 <= i < n -> Z.abs (rd v i * rd v i) <= m * m).
  { intros i Hi. destruct Hm as [_ Hall]. specialize (Hall i Hi). nia. }
  destruct (scaling_for_bound m n Hmr Hn) as (B & HnB & Hsc & Hp).
  assert (Hr : forall i, 0 <= i < 0 + Z.of_nat (Z.to_nat n) ->
    - B <= Z.shiftr (rd v i * rd v i) (scaling_for m n) <= B).
  { intros i Hi. apply Hp; [intros _; apply HB; lia|]. specialize (HB i ltac:(lia)). nia. }
  split; [exact Hsc|].
  rewrite (for_up_sum32 (fun i => Z.shiftr (rd v i * rd v i) (scaling_for m n)) _ 0 0 B)
    by (auto; lia).
  rewrite Z.add_0_l. split; [reflexivity|].
  pose proof (sum_up_abs_le 0 _ _ B Hr).
  split; [|lia]. apply sum_up_nonneg. intros i Hi.
  apply Z.shiftr_nonneg. nia.
Qed.

(** The value of one lag. *)
Definition lag (v : list Z) (n k scaling : Z) : Z :=
  sum_up 0 (Z.to_nat (n - k)) (fun j => Z.shiftr (rd v j * rd v (k + j)) scaling).

(** The autocorrelation of up to 2^31 16-bit samples: entry [k] of the result
    is the exact sum of the scaled products at lag [k], for every lag up to the
    order, and no 32-bit partial sum overflows. *)
Theorem AutoCorrelation_exact v n order result :
  Forall in_s16 v -> 0 < n < 2147483648 -> n <= zlen v ->
  0 <= order <= n -> order < zlen result ->
  exists scaling result',
    WebRtcSpl_AutoCorrelation v n order result = (order + 1, result', scaling) /\
    0 <= scaling /\ zlen result' = zlen result /\
    forall k, 0 <= k < zlen result ->
      rd result' k = if k <=? order then lag v n k scaling else rd result k.
Proof.
  intros HF Hn Hlen Ho Hr. unfold WebRtcSpl_AutoCorrelation.
  pose proof (MaxAbsValueW16C_max v n HF ltac:(lia)) as Hm.
  set (smax := WebRtcSpl_MaxAbsValueW16C v n) in *.
  assert (Hmr : 0 <= smax <= 32767) by (destruct Hm as [(i & Hi & Hm) _]; lia).
  assert (HB : forall i, 0 <= i < n -> Z.min 32767 (Z.abs (rd v i)) <= smax /\ Z.abs (rd v i) <= 32768).
  { intros i Hi. split; [now apply Hm|]. pose proof (Forall_at in_s16 v n i HF ltac:(lia) Hi).
    unfold in_s16 in *. lia. }
  destruct (scaling_for_bound smax n Hmr ltac:(lia)) as (B & HnB & Hsc & Hp).
  fold (scaling_for smax n). set (sc := scaling_for smax n) in *.
  exists sc. eexists. split; [reflexivity|]. split; [exact Hsc|].
  split; [apply (zlen_for_wr (fun i _ => _) (fun i => i))|].
  intros k Hk. rewrite (rd_for_wr (fun i => _)) by lia.
  rewrite Z2Nat.id by lia. rewrite Z.add_0_l.
  destruct (Z.leb_spec k order);
    [|now replace (k <? order + 1) with false by lia; rewrite andb_false_r].
  replace ((0 <=? k) && (k <? order + 1)) with true by lia.
  rewrite (for_up_ext (fun r sum => mac v v sc (4 * r + 3) (k + 4 * r + 3) _) (fun r s =>
    (fun j s => mac v v sc j (k + j) s) (4 * r + 3) ((fun j s => mac v v sc j (k + j) s) (4 * r + 2)
      ((fun j s => mac v v sc j (k + j) s) (4 * r + 1)
        ((fun j s => mac v v sc j (k + j) s) (4 * r + 0) s)))))
    by (intros; cbv beta; rewrite !Z.add_assoc; reflexivity).
  rewrite (unrolled_by4 (fun j s => mac v v sc j (k + j) s)) by lia.
  unfold lag. rewrite <- (Z.add_0_l (sum_up _ _ _)).
  apply (for_up_sum32 (fun j => Z.shiftr (rd v j * rd v (k + j)) sc) _ 0 0 B); [|nia|nia].
  intros j Hj. pose proof (HB j ltac:(lia)). pose proof (HB (k + j) ltac:(lia)).
  apply Hp; [intros|]; rewrite Z.abs_mul; nia.
Qed.

(** ** The pseudo-random seed *)

Lemma IncreaseSeed_eq seed :
  in_u32 seed -> IncreaseSeed seed = (seed * 69069 + 1) mod 2147483648.
Proof.
  intros H. unfold IncreaseSeed, kMaxSeedUsed.
  change (0x80000000 - 1) with (2 ^ 31 - 1). rewrite land_ones_mod by lia.
  change (2 ^ 31) with 2147483648. int_lia.
Qed.

Lemma mult_inj s1 s2 :
  0 <= s1 < 2147483648 -> 0 <= s2 < 2147483648 ->
  (s1 * 69069 + 1) mod 2147483648 = (s2 * 69069 + 1) mod 2147483648 -> s1 = s2.
Proof.
  intros H1 H2 E. rewrite !Z.mod_eq in E by lia.
  set (q1 := (s1 * 69069 + 1) / _) in *. set (q2 := (s2 * 69069 + 1) / _) in *. clearbody q1 q2.
  assert (s1 - s2 = 2147483648 * (635610885 * (q1 - q2) - 20443 * (s1 - s2))) by lia.
  lia.
Qed.

(** The seed update is a permutation of the 31-bit seeds, so the generator
    never gets stuck in a shorter tail: two seeds with one successor are
    equal, and every seed has a predecessor; [WebRtcSpl_RandU] returns a
    non-negative sample and [WebRtcSpl_RandN] reads inside its table. *)
Theorem IncreaseSeed_permutes s1 s2 :
  0 <= s1 < 2147483648 -> 0 <= s2 < 2147483648 ->
  (IncreaseSeed s1 = IncreaseSeed s2 -> s1 = s2) /\
  (exists p, 0 <= p < 2147483648 /\ IncreaseSeed p = s1) /\
  0 <= IncreaseSeed s1 < 2147483648 /\
  0 <= fst (WebRtcSpl_RandU s1) <= 32767 /\
  0 <= Z.shiftr (IncreaseSeed s1) 23 < zlen kRandNTable.
Proof.
  intros H1 H2.
  assert (Hr : 0 <= IncreaseSeed s1 < 2147483648).
  { rewrite IncreaseSeed_eq by (int_unfold; lia). apply Z.mod_pos_bound. lia. }
  split; [|split; [|split; [exact Hr|]]].
  - rewrite !IncreaseSeed_eq by (int_unfold; lia). intros E.
    apply mult_inj in E; lia.
  - exists ((635610885 * (s1 - 1)) mod 2147483648).
    pose proof (Z.mod_pos_bound (635610885 * (s1 - 1)) 2147483648 ltac:(lia)) as Hm.
    split; [exact Hm|]. rewrite IncreaseSeed_eq by (int_unfold; lia).
    rewrite (Z.mod_eq (635610885 * (s1 - 1))) in * by lia.
    set (q := 635610885 * (s1 - 1) / 2147483648) in *. clearbody q.
    symmetry. apply (Z.mod_unique_pos _ _ (20443 * (s1 - 1) - 69069 * q)); lia.
  - unfold WebRtcSpl_RandU. cbn [fst]. set (x := IncreaseSeed s1) in *. clearbody x.
    rewrite !shiftr_div by lia. change (zlen kRandNTable) with 512.
    change (2 ^ 16) with 65536. change (2 ^ 23) with 8388608.
    rewrite s16_id by int_lia. dlia.
Qed.

(** ** Elementwise operations *)

Lemma rd_each n f out j :
  0 <= n <= zlen out ->
  rd (each n f out) j = if (0 <=? j) && (j <? n) then f j else rd out j.
Proof.
  intros. unfold each. rewrite rd_for_wr by lia. rewrite Z2Nat.id, Z.add_0_l by lia. reflexivity.
Qed.

(** Mixing two vectors with rounding: a missing vector, an empty length or a
    negative shift is refused with -1 and the output untouched; otherwise
    sample [i] is the rounded, scaled sum, reduced to 16 bits, and nothing
    beyond [length] is written. *)
Theorem ScaleAndAddVectorsWithRound_spec in1 g1 in2 g2 shift out length :
  in_s16 g1 -> in_s16 g2 -> -32768 < g1 ->
  Forall in_s16 in1 -> Forall in_s16 in2 ->
  shift <= 15 -> 0 <= length <= zlen out ->
  let call := fun a b o => WebRtcSpl_ScaleAndAddVectorsWithRoundC a g1 b g2 shift o length in
  (forall a b o, (a = None \/ b = None \/ o = None \/ length = 0 \/ shift < 0) ->
     call a b o = (-1, o)) /\
  (0 < length -> 0 <= shift ->
   exists out', call (Some in1) (Some in2) (Some out) = (0, Some out') /\
     zlen out' = zlen out /\
     forall i, 0 <= i < zlen out ->
       rd out' i =
         if i <? length then s16 ((rd in1 i * g1 + rd in2 i * g2 + 2 ^ shift / 2) / 2 ^ shift)
         else rd out i).
Proof.
  intros Hg1 Hg2 Hg HF1 HF2 Hs Hl call. split.
  - intros a b o H. unfold call, WebRtcSpl_ScaleAndAddVectorsWithRoundC.
    destruct a, b, o; try reflexivity.
    replace ((length =? 0) || (shift <? 0)) with true; [reflexivity|].
    symmetry. apply orb_true_iff. destruct H as [H|[H|[H|H]]]; try discriminate. lia.
  - intros Hl0 Hs0. unfold call, WebRtcSpl_ScaleAndAddVectorsWithRoundC.
    replace ((length =? 0) || (shift <? 0)) with false by lia.
    eexists. split; [reflexivity|]. split; [apply (zlen_for_wr (fun i _ => _) (fun i => i))|].
    intros i Hi. rewrite rd_each by lia.
    replace (0 <=? i) with true by lia. cbn [andb].
    destruct (i <? length); [|reflexivity].
    assert (H1 : in_s16 (rd in1 i)) by (apply Forall_rd; [int_unfold; lia|assumption]).
    assert (H2 : in_s16 (rd in2 i)) by (apply Forall_rd; [int_unfold; lia|assumption]).
    assert (Hp : 1 <= 2 ^ shift <= 32768)
      by (split; [apply Z.lt_succ_r; pose proof (Z.pow_pos_nonneg 2 shift); lia|];
          apply (Z.pow_le_mono_r 2 shift 15); lia).
    rewrite shiftl_mul, Z.mul_1_l, !shiftr_div by lia.
    set (p := 2 ^ shift) in *. change (2 ^ 1) with 2.
    assert (Hb1 : -1073741824 <= rd in1 i * g1 <= 1073741824 - 32768) by (int_unfold; nia).
    assert (Hb2 : -1073741824 <= rd in2 i * g2 <= 1073741824) by (int_unfold; nia).
    rewrite !s32_id by (int_unfold; dlia). reflexivity.
Qed.

(** ** Witnesses *)

Definition vec8 : list Z := [3; -7; 7; 0; -32767; 12; 5; -1].

Lemma vec8_s16 : Forall in_s16 vec8.
Proof. repeat constructor; vm_compute; discriminate. Qed.

Lemma MinMax_operations_16_witness :
  first_max Z.abs vec8 8 (WebRtcSpl_MaxAbsIndexW16 vec8 8) /\
  WebRtcSpl_MaxAbsIndexW16 vec8 8 = 4 /\ WebRtcSpl_MaxAbsValueW16C vec8 8 = 32767.
Proof.
  split; [|split; reflexivity].
  apply (MinMax_operations_16 vec8 8 vec8_s16). vm_compute. split; [reflexivity|discriminate].
Defined.

Lemma DotProductWithScale_exact_witness :
  WebRtcSpl_DotProductWithScale [1; 2; 3; 4; 5] [5; 4; 3; 2; 1] 5 0 = 35.
Proof.
  apply (DotProductWithScale_exact [1; 2; 3; 4; 5] [5; 4; 3; 2; 1] 5 0 9); [lia| |lia].
  intros i Hi. assert (i = 0 \/ i = 1 \/ i = 2 \/ i = 3 \/ i = 4) by lia.
  intuition (subst; vm_compute; intuition discriminate).
Defined.

Lemma Energy_exact_witness :
  let (en, scaling) := WebRtcSpl_Energy vec8 8 in
  0 <= scaling /\
  en = sum_up 0 8 (fun i => Z.shiftr (rd vec8 i * rd vec8 i) scaling) /\
  0 <= en <= 2147483647.
Proof.
  apply (Energy_exact vec8 8); [|lia].
  intros i Hi. pose proof (rd_in_bounds vec8 i ltac:(change (zlen vec8) with 8; lia)) as H.
  cbn [vec8 In] in H. intuition lia.
Defined.

Lemma AutoCorrelation_exact_witness :
  exists scaling result',
    WebRtcSpl_AutoCorrelation vec8 8 2 [0; 0; 0] = (3, result', scaling) /\
    0 <= scaling /\ zlen result' = 3 /\
    forall k, 0 <= k < 3 ->
      rd result' k = if k <=? 2 then lag vec8 8 k scaling else rd [0; 0; 0] k.
Proof.
  apply (AutoCorrelation_exact vec8 8 2 [0; 0; 0] vec8_s16); vm_compute; intuition discriminate.
Defined.

Lemma IncreaseSeed_permutes_witness :
  (exists p, 0 <= p < 2147483648 /\ IncreaseSeed p = 12345) /\ IncreaseSeed 777 = 53666614.
Proof.
  split; [|reflexivity]. apply (IncreaseSeed_permutes 12345 777); lia.
Defined.

Lemma ScaleAndAddVectorsWithRound_spec_witness :
  exists out', WebRtcSpl_ScaleAndAddVectorsWithRoundC (Some vec8) 3 (Some vec8) 2 1
      (Some (zeros 8)) 2 = (0, Some out') /\ rd out' 1 = -17.
Proof.
  destruct (ScaleAndAddVectorsWithRound_spec vec8 3 vec8 2 1 (zeros 8) 2) as [_ H];
    try exact vec8_s16; try (vm_compute; intuition discriminate).
  destruct H as (out' & He & _ & Hi); [lia|lia|].
  exists out'. split; [exact He|]. rewrite Hi by (change (zlen (zeros 8)) with 8; lia). reflexivity.
Defined.
End SplVector.
