(* ===== verification/SplFilter.v ===== *)
(** * Filters and linear prediction

    Models filter_ar.c, filter_ar_fast_q12.c, filter_ma_fast_q12.c,
    downsample_fast.c, lpc_to_refl_coef.c, refl_coef_to_lpc.c,
    auto_corr_to_refl_coef.c and levinson_durbin.c of
    src/orbit/webrtc/common_audio/signal_processing/.  A pointer into a longer
    array, read at negative indices for the past samples, is the array and the
    offset of the pointer. *)

From S2P Require Import Prelude SplInl SplMath SplVector.
Import SplInl SplMath SplVector.

Module SplFilter.

(** ** filter_ar.c *)

(** The two sums of one output sample, high and low part. *)
Definition ar_sums (a : list Z) (a_length i x_i : Z) (state : list Z) (state_length : Z)
    (state_low filtered filtered_low : list Z) : Z * Z :=
  let stop := if i <? a_length then i + 1 else a_length in
  let s := for_up 1 (Z.to_nat (stop - 1)) (fun j '(o, oLOW) =>
    (s32 (o - rd a j * rd filtered (i - j)), s32 (oLOW - rd a j * rd filtered_low (i - j))))
    (s32 (Z.shiftl x_i 12), 0) in
  for_up (i + 1) (Z.to_nat (a_length - (i + 1))) (fun j '(o, oLOW) =>
    let p := state_length - 1 - (j - (i + 1)) in
    (s32 (o - rd a j * rd state p), s32 (oLOW - rd a j * rd state_low p))) s.

(** [filtered], [filtered_low], [state], [state_low] and the result. *)
Definition WebRtcSpl_FilterAR (a : list Z) (a_length : Z) (x : list Z) (x_length : Z)
    (state : list Z) (state_length : Z) (state_low filtered filtered_low : list Z)
    : list Z * list Z * list Z * list Z * Z :=
  let (filtered, filtered_low) :=
    for_up 0 (Z.to_nat x_length) (fun i '(filtered, filtered_low) =>
      let (o, oLOW) := ar_sums a a_length i (rd x i) state state_length state_low
                         filtered filtered_low in
      let o := s32 (o + Z.shiftr oLOW 12) in
      let f := s16 (Z.shiftr (s32 (o + 2048)) 12) in
      (wr filtered i f, wr filtered_low i (s16 (s32 (o - s32 (Z.shiftl f 12))))))
      (filtered, filtered_low) in
  let (state, state_low) :=
    if state_length <=? x_length then
      (WebRtcSpl_CopyFromEndW16 filtered x_length (a_length - 1) state,
       WebRtcSpl_CopyFromEndW16 filtered_low x_length (a_length - 1) state_low)
    else
      let (state, state_low) :=
        for_up 0 (Z.to_nat (state_length - x_length)) (fun i '(state, state_low) =>
          (wr state i (rd state (i + x_length)), wr state_low i (rd state_low (i + x_length))))
          (state, state_low) in
      (for_up 0 (Z.to_nat x_length) (fun i state =>
         let state := wr state (state_length - x_length + i) (rd filtered i) in
         wr state (state_length - x_length + i) (rd filtered_low i)) state,
       state_low) in
  (filtered, filtered_low, state, state_low, x_length).

(** ** filter_ar_fast_q12.c *)

(** [dp] is the offset of [data_out]: the past outputs are before it. *)
Definition WebRtcSpl_FilterARFastQ12 (data_in : list Z) (data_out : list Z) (dp : Z)
    (coefficients : list Z) (coefficients_length data_length : Z) : list Z :=
  for_up 0 (Z.to_nat data_length) (fun i data_out =>
    let sum := for_down (coefficients_length - 1) (Z.to_nat (coefficients_length - 1))
      (fun j sum => s32 (sum + rd coefficients j * rd data_out (dp + i - j))) 0 in
    let output := s32 (rd coefficients 0 * rd data_in i) in
    let output := s32 (output - sum) in
    let output := WEBRTC_SPL_SAT 134215679 output (-134217728) in
    wr data_out (dp + i) (s16 (Z.shiftr (output + 2048) 12))) data_out.

(** ** filter_ma_fast_q12.c *)

(** [ip] is the offset of [in_ptr]. *)
Definition WebRtcSpl_FilterMAFastQ12 (in_ptr : list Z) (ip : Z) (out_ptr : list Z)
    (B : list Z) (B_length length : Z) : list Z :=
  for_up 0 (Z.to_nat length) (fun i out_ptr =>
    let o := for_up 0 (Z.to_nat B_length)
      (fun j o => s32 (o + rd B j * rd in_ptr (ip + i - j))) 0 in
    let o := WEBRTC_SPL_SAT 134215679 o (-134217728) in
    wr out_ptr i (s16 (Z.shiftr (o + 2048) 12))) out_ptr.

(** ** downsample_fast.c *)

(** One output: the filter at position [i]. *)
Definition downsample_at (data_in : list Z) (ip : Z) (coefficients : list Z)
    (coefficients_length i : Z) : Z :=
  let out_s32 := for_up 0 (Z.to_nat coefficients_length)
    (fun j o => s32 (o + rd coefficients j * rd data_in (ip + i - j))) 2048 in
  WebRtcSpl_SatW32ToW16 (Z.shiftr out_s32 12).

(** [for (i = delay; i < endpos; i += factor)]; the number of turns bounds the
    loop, which for a factor of 0 would not end. *)
Fixpoint downsample_loop (fuel : nat) (at_ : Z -> Z) (i endpos factor o : Z)
    (data_out : list Z) : option (list Z) :=
  if i <? endpos then
    match fuel with
    | O => None
    | S fuel =>
        downsample_loop fuel at_ (u64 (i + factor)) endpos factor (o + 1) (wr data_out o (at_ i))
    end
  else Some data_out.

(** The result and [data_out]; [None] when the loop runs out of fuel. *)
Definition WebRtcSpl_DownsampleFastC (fuel : nat) (data_in : list Z) (ip data_in_length : Z)
    (data_out : list Z) (data_out_length : Z) (coefficients : list Z)
    (coefficients_length factor delay : Z) : option (Z * list Z) :=
  let endpos := u64 (delay + u64 (factor * u64 (data_out_length - 1)) + 1) in
  if (data_out_length =? 0) || (coefficients_length =? 0) || (data_in_length <? endpos) then
    Some (-1, data_out)
  else
    match downsample_loop fuel (downsample_at data_in ip coefficients coefficients_length)
            delay endpos factor 0 data_out with
    | Some data_out => Some (0, data_out)
    | None => None
    end.

(** ** lpc_to_refl_coef.c *)

(** [a16] and [k16] after the call. *)
Definition WebRtcSpl_LpcToReflCoef (a16 : list Z) (use_order : Z) (k16 : list Z)
    : list Z * list Z :=
  let k16 := wr k16 (use_order - 1) (s16 (Z.shiftl (rd a16 use_order) 3)) in
  let '(a16, k16, _) :=
    for_down (use_order - 1) (Z.to_nat (use_order - 1)) (fun m '(a16, k16, tmp32) =>
      let tmp_inv_denom32 := s32 (1073741823 - rd k16 m * rd k16 m) in
      let tmp_inv_denom16 := s16 (Z.shiftr tmp_inv_denom32 15) in
      let tmp32 := for_up 1 (Z.to_nat m) (fun k tmp32 =>
        let t := s32 (s32 (Z.shiftl (rd a16 k) 16) -
                      s32 (Z.shiftl (rd k16 m * rd a16 (m - k + 1)) 1)) in
        wr tmp32 k (WebRtcSpl_DivW32W16 t tmp_inv_denom16)) tmp32 in
      let a16 := for_up 1 (Z.to_nat (m - 1)) (fun k a16 =>
        wr a16 k (s16 (Z.shiftr (rd tmp32 k) 1))) a16 in
      let tmp32 := wr tmp32 m (WEBRTC_SPL_SAT 8191 (rd tmp32 m) (-8191)) in
      (a16, wr k16 (m - 1) (s16 (WEBRTC_SPL_LSHIFT_W32 (rd tmp32 m) 2)), tmp32))
      (a16, k16, zeros 50) in
  (a16, k16).

(** ** refl_coef_to_lpc.c *)

Definition WEBRTC_SPL_MAX_LPC_ORDER : Z := 14.

Definition WebRtcSpl_ReflCoefToLpc (k : list Z) (use_order : Z) (a : list Z) : list Z :=
  let a := wr a 0 4096 in
  let any := wr (zeros (WEBRTC_SPL_MAX_LPC_ORDER + 1)) 0 (rd a 0) in
  let a := wr a 1 (Z.shiftr (rd k 0) 3) in
  fst (for_up 1 (Z.to_nat (use_order - 1)) (fun m '(a, any) =>
    let any := wr any (m + 1) (Z.shiftr (rd k m) 3) in
    let any := for_up 0 (Z.to_nat m) (fun i any =>
      wr any (1 + i) (s16 (rd a (1 + i) + s16 (Z.shiftr (rd a (m - i) * rd k m) 15)))) any in
    (for_up 0 (Z.to_nat (m + 2)) (fun i a => wr a i (rd any i)) a, any)) (a, any)).

(** ** auto_corr_to_refl_coef.c *)

(** One turn of [while (i--)]: [L_num] and [*K]. *)
Definition refl_div_step (L_den : Z) (s : Z * Z) : Z * Z :=
  let (L_num, K) := s in
  let K := s16 (Z.shiftl K 1) in
  let L_num := s32 (Z.shiftl L_num 1) in
  if L_den <=? L_num then (s32 (L_num - L_den), s16 (K + 1)) else (L_num, K).

Definition refl_coef (p0 p1 : Z) : Z :=
  let tmp := s16 (WEBRTC_SPL_ABS_W16 p1) in
  if tmp =? 0 then 0
  else
    let K := snd (for_up 0 15 (fun _ => refl_div_step p0) (tmp, 0)) in
    if 0 <? p1 then s16 (- K) else K.

(** The Schur recursion on [P] and [W]. *)
Definition schur (P W : list Z) (K use_order n : Z) : list Z * list Z :=
  let tmp := s16 (Z.shiftr (rd P 1 * K + 16384) 15) in
  let P := wr P 0 (WebRtcSpl_AddSatW16 (rd P 0) tmp) in
  for_up 1 (Z.to_nat (use_order - n)) (fun i '(P, W) =>
    let tmp := s16 (Z.shiftr (rd W i * K + 16384) 15) in
    let P := wr P i (WebRtcSpl_AddSatW16 (rd P (i + 1)) tmp) in
    let tmp := s16 (Z.shiftr (rd P (i + 1) * K + 16384) 15) in
    (P, wr W i (WebRtcSpl_AddSatW16 (rd W i) tmp))) (P, W).

(** The turns from [n] on, at most [turns] of them. *)
Fixpoint refl_loop (turns : nat) (n use_order : Z) (P W K : list Z) : list Z :=
  match turns with
  | O => K
  | S turns =>
      if rd P 0 <? s16 (WEBRTC_SPL_ABS_W16 (rd P 1)) then
        for_up n (Z.to_nat (use_order - n + 1)) (fun i K => wr K (i - 1) 0) K
      else
        let k := refl_coef (rd P 0) (rd P 1) in
        let K := wr K (n - 1) k in
        if n =? use_order then K
        else
          let (P, W) := schur P W k use_order n in
          refl_loop turns (n + 1) use_order P W K
  end.

(** The arrays have one element more than the code's [WEBRTC_SPL_MAX_LPC_ORDER]
    so that the order 14 fits. *)
Definition WebRtcSpl_AutoCorrToReflCoef (R : list Z) (use_order : Z) (K : list Z) : list Z :=
  let tmp := s16 (WebRtcSpl_NormW32 (rd R 0)) in
  let acf := fun i => s16 (Z.shiftr (s32 (Z.shiftl (rd R i) tmp)) 16) in
  let P := for_up 0 (Z.to_nat (use_order + 1)) (fun i P => wr P i (acf i)) (zeros 15) in
  let W := for_up 1 (Z.to_nat use_order) (fun i W => wr W i (acf i)) (zeros 15) in
  refl_loop (Z.to_nat use_order) 1 use_order P W K.

(** ** levinson_durbin.c *)

Definition SPL_LEVINSON_MAXORDER : Z := 20.

(** The high and low parts of a 32-bit number. *)
Definition hi_part (x : Z) : Z := s16 (Z.shiftr x 16).
Definition low_part (x : Z) : Z := s16 (Z.shiftr (s32 (x - s32 (Z.shiftl (hi_part x) 16))) 1).

(** [(hi << 16) + (low << 1)]. *)
Definition of_parts (hi low : Z) : Z :=
  s32 (WEBRTC_SPL_LSHIFT_W32 hi 16 + WEBRTC_SPL_LSHIFT_W32 low 1).

(** [(a_hi * b_hi + (a_hi * b_low >> 15) + (a_low * b_hi >> 15)) << 1]. *)
Definition mul_parts (a_hi a_low b_hi b_low : Z) : Z :=
  s32 (Z.shiftl (s32 (a_hi * b_hi + Z.shiftr (a_hi * b_low) 15 + Z.shiftr (a_low * b_hi) 15)) 1).

(** [1 - K * K] in Q31. *)
Definition one_minus_square (K_hi K_low : Z) : Z :=
  let t := s32 (Z.shiftl (s32 (Z.shiftr (K_hi * K_low) 14 + K_hi * K_hi)) 1) in
  let t := s32 (WEBRTC_SPL_ABS_W32 t) in
  s32 (0x7fffffff - t).

Record levinson := mk_lev {
  A_hi : list Z;
  A_low : list Z;
  Alpha_hi : Z;
  Alpha_low : Z;
  Alpha_exp : Z;
  lev_K : list Z
}.

(** [Alpha] times [1 - K * K], normalised: the parts and the shift. *)
Definition update_alpha (Alpha_hi Alpha_low K_hi K_low : Z) : Z * Z * Z :=
  let t := one_minus_square K_hi K_low in
  let t := mul_parts Alpha_hi Alpha_low (hi_part t) (low_part t) in
  let norm := s16 (WebRtcSpl_NormW32 t) in
  let t := WEBRTC_SPL_LSHIFT_W32 t norm in
  (hi_part t, low_part t, norm).

(** The numbers before the loop. *)
Definition lev_start (R_hi R_low K : list Z) : levinson :=
  let temp2W32 := of_parts (rd R_hi 1) (rd R_low 1) in
  let temp3W32 := s32 (WEBRTC_SPL_ABS_W32 temp2W32) in
  let temp1W32 := WebRtcSpl_DivW32HiLow temp3W32 (rd R_hi 0) (rd R_low 0) in
  let temp1W32 := if 0 <? temp2W32 then s32 (- temp1W32) else temp1W32 in
  let K_hi := hi_part temp1W32 in
  let K_low := low_part temp1W32 in
  let temp1W32 := Z.shiftr temp1W32 4 in
  let '(a_hi, a_low, e) := update_alpha (rd R_hi 0) (rd R_low 0) K_hi K_low in
  let z := zeros (SPL_LEVINSON_MAXORDER + 1) in
  mk_lev (wr z 1 (hi_part temp1W32)) (wr z 1 (low_part temp1W32)) a_hi a_low e (wr K 0 K_hi).

(** The reflection coefficient of the turn [i], in Q31. *)
Definition lev_refl (R_hi R_low : list Z) (i : Z) (st : levinson) : Z :=
  let temp1W32 := for_up 1 (Z.to_nat (i - 1)) (fun j t =>
    s32 (t + (s32 (Z.shiftl (rd R_hi j * rd (A_hi st) (i - j)) 1) +
              Z.shiftl (Z.shiftr (rd R_hi j * rd (A_low st) (i - j)) 15 +
                        Z.shiftr (rd R_low j * rd (A_hi st) (i - j)) 15) 1))) 0 in
  let temp1W32 := WEBRTC_SPL_LSHIFT_W32 temp1W32 4 in
  let temp1W32 := s32 (temp1W32 + of_parts (rd R_hi i) (rd R_low i)) in
  let temp2W32 := s32 (WEBRTC_SPL_ABS_W32 temp1W32) in
  let temp3W32 := WebRtcSpl_DivW32HiLow temp2W32 (Alpha_hi st) (Alpha_low st) in
  let temp3W32 := if 0 <? temp1W32 then s32 (- temp3W32) else temp3W32 in
  let norm := s16 (WebRtcSpl_NormW32 temp3W32) in
  if (Alpha_exp st <=? norm) || (temp3W32 =? 0) then WEBRTC_SPL_LSHIFT_W32 temp3W32 (Alpha_exp st)
  else if 0 <? temp3W32 then 0x7fffffff
  else s32 0x80000000.

(** One turn: the state afterwards, or the coefficients [K] of an unstable
    filter. *)
Definition lev_step (R_hi R_low : list Z) (i : Z) (st : levinson) : levinson + list Z :=
  let temp3W32 := lev_refl R_hi R_low i st in
  let K_hi := hi_part temp3W32 in
  let K_low := low_part temp3W32 in
  let K := wr (lev_K st) (i - 1) K_hi in
  if 32750 <? WEBRTC_SPL_ABS_W16 K_hi then inr K
  else
    let new := fun j => s32 (of_parts (rd (A_hi st) j) (rd (A_low st) j) +
      mul_parts K_hi K_low (rd (A_hi st) (i - j)) (rd (A_low st) (i - j))) in
    let z := zeros (SPL_LEVINSON_MAXORDER + 1) in
    let A_upd_hi := for_up 1 (Z.to_nat (i - 1)) (fun j a => wr a j (hi_part (new j))) z in
    let A_upd_low := for_up 1 (Z.to_nat (i - 1)) (fun j a => wr a j (low_part (new j))) z in
    let temp3W32 := Z.shiftr temp3W32 4 in
    let A_upd_hi := wr A_upd_hi i (hi_part temp3W32) in
    let A_upd_low := wr A_upd_low i (low_part temp3W32) in
    let '(a_hi, a_low, norm) := update_alpha (Alpha_hi st) (Alpha_low st) K_hi K_low in
    inl (mk_lev
      (for_up 1 (Z.to_nat i) (fun j a => wr a j (rd A_upd_hi j)) (A_hi st))
      (for_up 1 (Z.to_nat i) (fun j a => wr a j (rd A_upd_low j)) (A_low st))
      a_hi a_low (s16 (Alpha_exp st + norm)) K).

Fixpoint lev_loop (n : nat) (R_hi R_low : list Z) (i : Z) (st : levinson) : levinson + list Z :=
  match n with
  | O => inl st
  | S n =>
      match lev_step R_hi R_low i st with
      | inl st => lev_loop n R_hi R_low (i + 1) st
      | inr K => inr K
      end
  end.

(** The result, [A] and [K]. *)
Definition WebRtcSpl_LevinsonDurbin (R A K : list Z) (order : Z) : Z * list Z * list Z :=
  let norm := s16 (WebRtcSpl_NormW32 (rd R 0)) in
  let z := zeros (SPL_LEVINSON_MAXORDER + 1) in
  let R_hi := for_up 0 (Z.to_nat (order + 1)) (fun i r =>
    wr r i (hi_part (WEBRTC_SPL_LSHIFT_W32 (rd R i) norm))) z in
  let R_low := for_up 0 (Z.to_nat (order + 1)) (fun i r =>
    wr r i (low_part (WEBRTC_SPL_LSHIFT_W32 (rd R i) norm))) z in
  match lev_loop (Z.to_nat (order - 1)) R_hi R_low 2 (lev_start R_hi R_low K) with
  | inr K => (0, A, K)
  | inl st =>
      let A := wr A 0 4096 in
      let A := for_up 1 (Z.to_nat order) (fun i A =>
        let t := of_parts (rd (A_hi st) i) (rd (A_low st) i) in
        wr A i (s16 (Z.shiftr (s32 (s32 (Z.shiftl t 1) + 32768)) 16))) A in
      (1, A, lev_K st)
  end.

(** ** Finite impulse responses *)

(** The convolution at position [p] of the data. *)
Definition conv (coef : list Z) (n : Z) (data : list Z) (p : Z) : Z :=
  sum_up 0 (Z.to_nat n) (fun j => rd coef j * rd data (p - j)).

(** A filter whose sums stay in 32 bits on 16-bit data. *)
Definition fir_fits (coef : list Z) (n : Z) : Prop :=
  sum_up 0 (Z.to_nat n) (fun j => Z.abs (rd coef j)) <= 65534.

(** Rounding from Q12 and limiting to 16 bits. *)
Definition round_q12 (x : Z) : Z := Z.max (-32768) (Z.min 32767 ((x + 2048) / 4096)).

Lemma conv_exact coef n data p s :
  Forall in_s16 data -> fir_fits coef n -> Z.abs s <= 2048 ->
  for_up 0 (Z.to_nat n) (fun j o => s32 (o + rd coef j * rd data (p - j))) s =
    s + conv coef n data p /\ Z.abs (s + conv coef n data p) <= 2147420160.
Proof.
  intros Hd Hf Hs.
  assert (Ha : sum_up 0 (Z.to_nat n) (fun j => Z.abs (rd coef j * rd data (p - j))) <= 2147418112).
  { etransitivity; [|apply (Z.mul_le_mono_nonneg_l _ _ 32768 ltac:(lia)) in Hf; apply Hf].
    rewrite <- sum_up_mul. apply sum_up_le. intros k _. rewrite Z.abs_mul.
    pose proof (Forall_rd in_s16 data (p - k) ltac:(int_unfold; lia) Hd). int_unfold. nia. }
  split; [apply for_up_sum32_abs; lia|]. unfold conv.
  assert (Hc : forall i m f, Z.abs (sum_up i m f) <= sum_up i m (fun k => Z.abs (f k))).
  { intros i m g. revert i; induction m as [|m IH]; intros i; cbn [sum_up]; [lia|]. specialize (IH (i + 1)). lia. }
  specialize (Hc 0 (Z.to_nat n) (fun j => rd coef j * rd data (p - j))). cbv beta in Hc. lia.
Qed.

Lemma sat_round_q12 x :
  Z.abs x <= 2147420160 ->
  s16 (Z.shiftr (WEBRTC_SPL_SAT 134215679 x (-134217728) + 2048) 12) = round_q12 x.
Proof.
  intros H. unfold WEBRTC_SPL_SAT, round_q12. rewrite shiftr_div by lia. change (2 ^ 12) with 4096.
  rewrite s16_id by (int_unfold; repeat case_if; dlia). repeat case_if; dlia.
Qed.

Lemma FilterMA_eq in_ptr ip out_ptr B B_length length :
  Forall in_s16 in_ptr -> fir_fits B B_length -> 0 <= length <= zlen out_ptr ->
  let out := WebRtcSpl_FilterMAFastQ12 in_ptr ip out_ptr B B_length length in
  zlen out = zlen out_ptr /\
  forall i, rd out i = if (0 <=? i) && (i <? length)
                       then round_q12 (conv B B_length in_ptr (ip + i)) else rd out_ptr i.
Proof.
  intros Hd Hf Hl. unfold WebRtcSpl_FilterMAFastQ12. cbv zeta.
  rewrite (for_up_ext _ (fun i a => wr a i (round_q12 (conv B B_length in_ptr (ip + i))))).
  - split; [apply (zlen_for_wr (fun i _ => round_q12 (conv B B_length in_ptr (ip + i))) (fun i => i))|].
    intros i. rewrite (rd_for_wr (fun i => round_q12 (conv B B_length in_ptr (ip + i)))) by lia.
    now replace (0 + Z.of_nat (Z.to_nat length)) with length by lia.
  - intros k t _. destruct (conv_exact B B_length in_ptr (ip + k) 0 Hd Hf ltac:(lia)) as [E H].
    rewrite E. rewrite Z.add_0_l in *. now rewrite sat_round_q12.
Qed.

Lemma downsample_at_eq data ip coef n i :
  Forall in_s16 data -> fir_fits coef n ->
  downsample_at data ip coef n i = round_q12 (conv coef n data (ip + i)).
Proof.
  intros Hd Hf. unfold downsample_at, round_q12.
  destruct (conv_exact coef n data (ip + i) 2048 Hd Hf ltac:(lia)) as [E H].
  rewrite E, SatW32ToW16_eq, shiftr_div by lia. change (2 ^ 12) with 4096.
  now rewrite (Z.add_comm 2048).
Qed.

Lemma downsample_loop_spec at_ endpos factor : forall n fuel i o out,
  (n <= fuel)%nat -> 0 < factor -> 0 <= i -> endpos + factor < 18446744073709551616 ->
  endpos = i + factor * (Z.of_nat n - 1) + 1 -> (n = 0%nat -> endpos <= i) ->
  0 <= o -> o + Z.of_nat n <= zlen out ->
  exists out', downsample_loop fuel at_ i endpos factor o out = Some out' /\
    zlen out' = zlen out /\
    forall k, rd out' k = if (o <=? k) && (k <? o + Z.of_nat n)
                          then at_ (i + factor * (k - o)) else rd out k.
Proof.
  induction n as [|n IH]; intros fuel i o out Hf Hfac Hi He E H0 Ho Hl.
  - specialize (H0 eq_refl). exists out. split; [destruct fuel; cbn; now replace (i <? endpos) with false by lia|].
    split; [reflexivity|]. intros k. change (Z.of_nat 0) with 0. ifs_lia.
  - destruct fuel as [|fuel]; [lia|]. cbn [downsample_loop].
    replace (i <? endpos) with true by nia. rewrite u64_id by (int_unfold; nia).
    destruct (IH fuel (i + factor) (o + 1) (wr out o (at_ i))) as (out' & E' & Hz & Hr);
      try (rewrite ?zlen_wr; nia).
    exists out'. split; [exact E'|]. split; [now rewrite Hz, zlen_wr|]. intros k. rewrite Hr.
    rewrite Nat2Z.inj_succ in *. pose proof (Nat2Z.is_nonneg n) as Hn. rewrite rd_wr by lia.
    revert Hn. generalize (Z.of_nat n). clear. intros m Hn. unfold Z.succ.
    destruct (Z.eqb_spec k o) as [->|].
    + replace (o + 1 <=? o) with false by lia. replace (o <=? o) with true by lia.
      replace (o <? o + (m + 1)) with true by lia. cbn [andb]. f_equal. lia.
    + replace (o + 1 <=? k) with (o <=? k) by lia.
      replace (k <? o + (m + 1)) with (k <? o + 1 + m) by lia.
      case_if; [f_equal; lia|reflexivity].
Qed.

(** The two finite impulse response filters compute the convolution with
    their coefficients, rounded from Q12 and limited to 16 bits, whenever the
    coefficients are small enough for 32-bit sums.  [FilterMAFastQ12] does so
    at each position; [DownsampleFastC] at every [factor]-th one from [delay]
    on, with as many turns as outputs, and it rejects arguments that would
    read past the end, leaving the output alone. *)
Theorem fir_filters_exact data ip out coef n :
  Forall in_s16 data -> fir_fits coef n -> zlen out < 4294967296 ->
  (forall length, 0 <= length <= zlen out ->
     let out' := WebRtcSpl_FilterMAFastQ12 data ip out coef n length in
     zlen out' = zlen out /\
     forall i, rd out' i = if (0 <=? i) && (i <? length)
                           then round_q12 (conv coef n data (ip + i)) else rd out i) /\
  (forall fuel data_in_length factor delay,
     let m := zlen out in
     let endpos := delay + factor * (m - 1) + 1 in
     (Z.to_nat m <= fuel)%nat -> 0 < m -> 0 < n -> 0 < factor < 2147483648 ->
     0 <= delay < 4294967296 ->
     if data_in_length <? endpos then
       WebRtcSpl_DownsampleFastC fuel data ip data_in_length out m coef n factor delay =
         Some (-1, out)
     else exists out',
       WebRtcSpl_DownsampleFastC fuel data ip data_in_length out m coef n factor delay =
         Some (0, out') /\
       zlen out' = m /\
       forall k, 0 <= k < m ->
         rd out' k = round_q12 (conv coef n data (ip + (delay + factor * k)))).
Proof.
  intros Hd Hf Hz. split.
  - intros length Hl. now apply FilterMA_eq.
  - intros fuel dl factor delay m endpos Hfu Hm Hn Hfac Hdel.
    assert (0 <= factor * (m - 1) < 9223372036854775808) by (unfold m; nia).
    unfold WebRtcSpl_DownsampleFastC. rewrite (u64_id (m - 1)) by (int_unfold; unfold m; lia).
    rewrite (u64_id (factor * _)), (u64_id (delay + _ + _)) by (int_unfold; lia).
    fold endpos. replace (m =? 0) with false by lia. replace (n =? 0) with false by lia. cbn [orb].
    case_if; [reflexivity|].
    assert (Em : Z.of_nat (Z.to_nat m) = m) by (apply Z2Nat.id; lia).
    destruct (downsample_loop_spec (downsample_at data ip coef n) endpos factor (Z.to_nat m)
      fuel delay 0 out) as (out' & -> & Hz' & Hr); rewrite ?Em; try (unfold endpos; lia).
    exists out'. split; [reflexivity|]. split; [exact Hz'|]. intros k Hk. rewrite Hr, Em.
    replace ((0 <=? k) && (k <? 0 + m)) with true by lia.
    rewrite downsample_at_eq by assumption. now rewrite Z.sub_0_r.
Qed.

Lemma fir_filters_witness :
  let coef := [4096; 2048] in let data := [5; 10; 20; 40; 80] in
  exists out', WebRtcSpl_DownsampleFastC 2 data 1 4 (zeros 2) 2 coef 2 2 1 = Some (0, out') /\
    zlen out' = 2 /\
    forall k, 0 <= k < 2 -> rd out' k = round_q12 (conv coef 2 data (1 + (1 + 2 * k))).
Proof.
  exact (proj2 (fir_filters_exact [5; 10; 20; 40; 80] 1 (zeros 2) [4096; 2048] 2
    ltac:(repeat constructor; int_unfold; lia) ltac:(vm_compute; discriminate) eq_refl)
    2%nat 4 2 1 (le_n 2) eq_refl eq_refl ltac:(lia) ltac:(lia)).
Defined.

(** ** Levinson-Durbin *)

(** The coefficients from the second to the one before [i] are stable. *)
Definition stable_upto (K : list Z) (i : Z) : Prop :=
  forall k, 1 <= k < i -> Z.abs (rd K k) <= 32750.

Lemma hi_part_s16 x : in_s16 (hi_part x).
Proof. apply s16_range. Qed.

Lemma lev_step_spec R_hi R_low i st :
  2 <= i <= zlen (lev_K st) -> stable_upto (lev_K st) (i - 1) ->
  match lev_step R_hi R_low i st with
  | inl st' => zlen (lev_K st') = zlen (lev_K st) /\ stable_upto (lev_K st') i
  | inr K => zlen K = zlen (lev_K st) /\ 32750 < Z.abs (rd K (i - 1))
  end.
Proof.
  intros Hi Hs. unfold lev_step. cbv zeta. pose proof (hi_part_s16 (lev_refl R_hi R_low i st)) as Hk.
  set (k := hi_part _) in *. clearbody k.
  assert (Ha : WEBRTC_SPL_ABS_W16 k = Z.abs k).
  { unfold WEBRTC_SPL_ABS_W16. ifs_lia. }
  rewrite Ha. destruct (Z.ltb_spec 32750 (Z.abs k)).
  - rewrite zlen_wr, rd_wr_eq by lia. auto.
  - destruct (update_alpha _ _ _ _) as [[? ?] ?]. cbn [lev_K]. rewrite zlen_wr. split; [reflexivity|].
    intros j Hj. rewrite rd_wr by lia. destruct (Z.eqb_spec j (i - 1)) as [->|]; [lia|]. apply Hs. lia.
Qed.

Lemma lev_loop_spec R_hi R_low n : forall i st,
  2 <= i -> i + Z.of_nat n <= zlen (lev_K st) + 1 -> stable_upto (lev_K st) (i - 1) ->
  match lev_loop n R_hi R_low i st with
  | inl st' => zlen (lev_K st') = zlen (lev_K st) /\ stable_upto (lev_K st') (i - 1 + Z.of_nat n)
  | inr K => zlen K = zlen (lev_K st) /\
      exists k, 1 <= k < i - 1 + Z.of_nat n /\ 32750 < Z.abs (rd K k)
  end.
Proof.
  induction n as [|n IH]; intros i st Hi Hn Hs; cbn [lev_loop].
  - change (Z.of_nat 0) with 0. rewrite Z.add_0_r. auto.
  - rewrite Nat2Z.inj_succ in *. pose proof (lev_step_spec R_hi R_low i st ltac:(lia) Hs) as H.
    destruct (lev_step R_hi R_low i st) as [st'|K].
    + destruct H as [Hz Hs']. specialize (IH (i + 1) st' ltac:(lia) ltac:(lia)).
      replace (i + 1 - 1) with i in IH by lia. specialize (IH Hs').
      replace (i - 1 + Z.succ (Z.of_nat n)) with (i + Z.of_nat n) by lia. rewrite Hz in IH. exact IH.
    + destruct H as [Hz Hk]. split; [exact Hz|]. exists (i - 1). split; [lia|exact Hk].
Qed.

(** [LevinsonDurbin] answers 1 for a stable filter: then every reflection
    coefficient after the first is at most 32750 in size and the prediction
    filter starts with 4096, 1 in Q12.  It answers 0 exactly when it has met a
    larger coefficient; it then leaves the prediction filter alone.  The
    number of coefficients is kept in both cases. *)
Theorem LevinsonDurbin_stability R A K order :
  2 <= order <= zlen K -> order < zlen A ->
  let '(r, A', K') := WebRtcSpl_LevinsonDurbin R A K order in
  zlen K' = zlen K /\ zlen A' = zlen A /\
  ((r = 1 /\ rd A' 0 = 4096 /\ forall k, 1 <= k < order -> Z.abs (rd K' k) <= 32750) \/
   (r = 0 /\ A' = A /\ exists k, 1 <= k < order /\ 32750 < Z.abs (rd K' k))).
Proof.
  intros Ho HA. unfold WebRtcSpl_LevinsonDurbin. cbv zeta.
  set (R_hi := for_up 0 _ _ _). set (R_low := for_up 0 _ _ _). clearbody R_hi R_low.
  assert (Hz : zlen (lev_K (lev_start R_hi R_low K)) = zlen K).
  { unfold lev_start. destruct (update_alpha _ _ _ _) as [[? ?] ?]. cbn [lev_K]. apply zlen_wr. }
  pose proof (lev_loop_spec R_hi R_low (Z.to_nat (order - 1)) 2 (lev_start R_hi R_low K)) as H.
  rewrite Hz in H. specialize (H ltac:(lia) ltac:(lia) ltac:(intros k Hk; lia)).
  replace (2 - 1 + Z.of_nat (Z.to_nat (order - 1))) with order in H by lia.
  destruct (lev_loop _ _ _ _ _) as [st|K'].
  - destruct H as [Hk Hs]. split; [exact Hk|]. split.
    + rewrite (zlen_for_wr _ (fun i => i)). apply zlen_wr.
    + left. split; [reflexivity|]. split; [|exact Hs].
      rewrite (rd_for_wr (fun i => s16 _)) by (rewrite ?zlen_wr; lia). cbn [andb Z.leb Z.compare].
      apply rd_wr_eq. lia.
  - destruct H as [Hk He]. split; [exact Hk|]. split; [reflexivity|]. right. auto.
Qed.

Lemma LevinsonDurbin_witness :
  let '(r, A', K') := WebRtcSpl_LevinsonDurbin [1000000; 500000; 100000] (zeros 3) (zeros 2) 2 in
  zlen K' = 2 /\ zlen A' = 3 /\
  ((r = 1 /\ rd A' 0 = 4096 /\ forall k, 1 <= k < 2 -> Z.abs (rd K' k) <= 32750) \/
   (r = 0 /\ A' = zeros 3 /\ exists k, 1 <= k < 2 /\ 32750 < Z.abs (rd K' k))).
Proof.
  exact (LevinsonDurbin_stability [1000000; 500000; 100000] (zeros 3) (zeros 2) 2
    (conj (Z.le_refl 2) (Z.le_refl 2)) eq_refl).
Defined.

(** What it computes there, in Q12 and Q15. *)
Example LevinsonDurbin_run :
  WebRtcSpl_LevinsonDurbin [1000000; 500000; 100000] (zeros 3) (zeros 2) 2 =
    (1, [4096; -2458; 819], [-16384; 6553]).
Proof. vm_compute. reflexivity. Qed.
End SplFilter.
