(* ===== verification/SplResample.v ===== *)
(** * Resampling

    Models resample_by_2_internal.c, resample_fractional.c and
    resample_48khz.c of src/orbit/webrtc/common_audio/signal_processing/.
    The stages of a resampler work inside one scratch array; a pointer into it
    is an offset, so that input and output of a stage may overlap as they do
    in the code. *)

From S2P Require Import Prelude SplInl.
Import SplInl.

Module SplResample.

(** ** resample_by_2_internal.c *)

Definition kResampleAllpass : list (list Z) := [[821; 6110; 12382]; [3050; 9368; 15063]].

(** The scaling down between two sections: [diff >> 14], truncated. *)
Definition scale_down (diff : Z) : Z :=
  let diff := Z.shiftr diff 14 in if diff <? 0 then diff + 1 else diff.

(** One sample through the three sections whose states are at [o] to [o + 3];
    the output is left in [state[o + 3]]. *)
Definition allpass (row o tmp0 : Z) (state : list Z) : list Z :=
  let c := nth (Z.to_nat row) kResampleAllpass [] in
  let diff := s32 (tmp0 - rd state (o + 1)) in
  let diff := Z.shiftr (s32 (diff + Z.shiftl 1 13)) 14 in
  let tmp1 := s32 (rd state o + diff * rd c 0) in
  let state := wr state o tmp0 in
  let diff := s32 (tmp1 - rd state (o + 2)) in
  let diff := scale_down diff in
  let tmp0 := s32 (rd state (o + 1) + diff * rd c 1) in
  let state := wr state (o + 1) tmp1 in
  let diff := s32 (tmp0 - rd state (o + 3)) in
  let diff := scale_down diff in
  let state := wr state (o + 3) (s32 (rd state (o + 2) + diff * rd c 2)) in
  wr state (o + 2) tmp0.

(** A loop of [n] samples: [x i] is read from the scratch array and [y i v]
    stores the output [v]. *)
Definition allpass_loop (row o n : Z) (x : Z -> list Z -> Z) (y : Z -> Z -> list Z -> list Z)
    (s : list Z * list Z) : list Z * list Z :=
  for_up 0 (Z.to_nat n) (fun i '(mem, state) =>
    let state := allpass row o (x i mem) state in
    (y i (rd state (o + 3)) mem, state)) s.

(** [((int32_t)in[i] << 15) + (1 << 14)]. *)
Definition to_q15 (v : Z) : Z := s32 (s32 (Z.shiftl v 15) + Z.shiftl 1 14).

Definition limit_w16 (tmp : Z) : Z :=
  let tmp := if 0x00007FFF <? tmp then 0x00007FFF else tmp in
  let tmp := if tmp <? -32768 then -32768 else tmp in
  s16 tmp.

(** The scratch array, [out] and [state]. *)
Definition WebRtcSpl_DownBy2IntToShort (mem : list Z) (ip len : Z) (out : list Z) (op : Z)
    (state : list Z) : list Z * list Z * list Z :=
  let len := Z.shiftr len 1 in
  let s := allpass_loop 1 0 len (fun i mem => rd mem (ip + 2 * i))
             (fun i v mem => wr mem (ip + 2 * i) (Z.shiftr v 1)) (mem, state) in
  let '(mem, state) := allpass_loop 0 4 len (fun i mem => rd mem (ip + 1 + 2 * i))
             (fun i v mem => wr mem (ip + 1 + 2 * i) (Z.shiftr v 1)) s in
  let out := for_up 0 (Z.to_nat ((len + 1) / 2)) (fun h out =>
    let i := 2 * h in
    let tmp0 := Z.shiftr (s32 (rd mem (ip + 2 * i) + rd mem (ip + 2 * i + 1))) 15 in
    let tmp1 := Z.shiftr (s32 (rd mem (ip + 2 * i + 2) + rd mem (ip + 2 * i + 3))) 15 in
    let out := wr out (op + i) (limit_w16 tmp0) in
    wr out (op + i + 1) (limit_w16 tmp1)) out in
  (mem, out, state).

(** The scratch array, which holds the output, and [state]. *)
Definition WebRtcSpl_DownBy2ShortToInt (in_ : list Z) (ip len : Z) (mem : list Z) (op : Z)
    (state : list Z) : list Z * list Z :=
  let len := Z.shiftr len 1 in
  let s := allpass_loop 1 0 len (fun i _ => to_q15 (rd in_ (ip + 2 * i)))
             (fun i v mem => wr mem (op + i) (Z.shiftr v 1)) (mem, state) in
  allpass_loop 0 4 len (fun i _ => to_q15 (rd in_ (ip + 1 + 2 * i)))
    (fun i v mem => wr mem (op + i) (s32 (rd mem (op + i) + Z.shiftr v 1))) s.

Definition WebRtcSpl_UpBy2ShortToInt (in_ : list Z) (ip len : Z) (mem : list Z) (op : Z)
    (state : list Z) : list Z * list Z :=
  let s := allpass_loop 0 4 len (fun i _ => to_q15 (rd in_ (ip + i)))
             (fun i v mem => wr mem (op + 2 * i) (Z.shiftr v 15)) (mem, state) in
  allpass_loop 1 0 len (fun i _ => to_q15 (rd in_ (ip + i)))
    (fun i v mem => wr mem (op + 1 + 2 * i) (Z.shiftr v 15)) s.

Definition WebRtcSpl_UpBy2IntToInt (mem : list Z) (ip len op : Z) (state : list Z)
    : list Z * list Z :=
  let s := allpass_loop 0 4 len (fun i mem => rd mem (ip + i))
             (fun i v mem => wr mem (op + 2 * i) v) (mem, state) in
  allpass_loop 1 0 len (fun i mem => rd mem (ip + i))
    (fun i v mem => wr mem (op + 1 + 2 * i) v) s.

(** [out] and [state]. *)
Definition WebRtcSpl_UpBy2IntToShort (mem : list Z) (ip len : Z) (out : list Z) (op : Z)
    (state : list Z) : list Z * list Z :=
  let s := allpass_loop 0 4 len (fun i _ => rd mem (ip + i))
             (fun i v out => wr out (op + 2 * i) (limit_w16 (Z.shiftr v 15))) (out, state) in
  allpass_loop 1 0 len (fun i _ => rd mem (ip + i))
    (fun i v out => wr out (op + 1 + 2 * i) (limit_w16 (Z.shiftr v 15))) s.

(** The four loops of the two lowpass filters, on the samples [x]: the first
    takes the odd samples one step late, starting from [state[12]]. *)
Definition lp_by_2 (x : Z -> list Z -> Z) (len : Z) (mem : list Z) (op : Z) (state : list Z)
    : list Z * list Z :=
  let len := Z.shiftr len 1 in
  let delay := rd state 12 in
  let average := fun p v mem => wr mem p (Z.shiftr (s32 (rd mem p + Z.shiftr v 1)) 15) in
  let s := allpass_loop 1 0 len (fun i mem => if i =? 0 then delay else x (1 + 2 * (i - 1)) mem)
             (fun i v mem => wr mem (op + 2 * i) (Z.shiftr v 1)) (mem, state) in
  let s := allpass_loop 0 4 len (fun i mem => x (2 * i) mem)
             (fun i v mem => average (op + 2 * i) v mem) s in
  let s := allpass_loop 1 8 len (fun i mem => x (2 * i) mem)
             (fun i v mem => wr mem (op + 1 + 2 * i) (Z.shiftr v 1)) s in
  allpass_loop 0 12 len (fun i mem => x (1 + 2 * i) mem)
    (fun i v mem => average (op + 1 + 2 * i) v mem) s.

Definition WebRtcSpl_LPBy2ShortToInt (in_ : list Z) (ip len : Z) (mem : list Z) (op : Z)
    (state : list Z) : list Z * list Z :=
  lp_by_2 (fun i _ => to_q15 (rd in_ (ip + i))) len mem op state.

Definition WebRtcSpl_LPBy2IntToInt (mem : list Z) (ip len op : Z) (state : list Z)
    : list Z * list Z :=
  lp_by_2 (fun i mem => rd mem (ip + i)) len mem op state.

(** ** resample_fractional.c *)

Definition kCoefficients48To32 : list (list Z) :=
  [[778; -2050; 1087; 23285; 12903; -3783; 441; 222];
   [222; 441; -3783; 12903; 23285; 1087; -2050; 778]].

Definition kCoefficients32To24 : list (list Z) :=
  [[767; -2362; 2434; 24406; 10620; -3838; 721; 90];
   [386; -381; -2646; 19062; 19062; -2646; -381; 386];
   [90; 721; -3838; 10620; 24406; 2434; -2362; 767]].

Definition kCoefficients44To32 : list (list Z) :=
  [[117; -669; 2245; -6183; 26267; 13529; -3245; 845; -138];
   [-101; 612; -2283; 8532; 29790; -5138; 1789; -524; 91];
   [50; -292; 1016; -3064; 32010; 3933; -1147; 315; -53];
   [-156; 974; -3863; 18603; 21691; -6246; 2353; -712; 126]].

(** [tmp] plus the products of [n] coefficients with the numbers from [p] on,
    upwards or downwards. *)
Definition inner (c : list Z) (n : nat) (mem : list Z) (p step : Z) : Z :=
  for_up 0 n (fun j tmp => s32 (tmp + rd c j * rd mem (p + step * j))) (Z.shiftl 1 14).

Definition WebRtcSpl_Resample48khzTo32khz (mem : list Z) (In Out K : Z) : list Z :=
  let c := fun r => nth r kCoefficients48To32 [] in
  for_up 0 (Z.to_nat K) (fun m mem =>
    let mem := wr mem (Out + 2 * m) (inner (c 0%nat) 8 mem (In + 3 * m) 1) in
    wr mem (Out + 2 * m + 1) (inner (c 1%nat) 8 mem (In + 3 * m + 1) 1)) mem.

Definition WebRtcSpl_Resample32khzTo24khz (mem : list Z) (In Out K : Z) : list Z :=
  let c := fun r => nth r kCoefficients32To24 [] in
  for_up 0 (Z.to_nat K) (fun m mem =>
    let mem := wr mem (Out + 3 * m) (inner (c 0%nat) 8 mem (In + 4 * m) 1) in
    let mem := wr mem (Out + 3 * m + 1) (inner (c 1%nat) 8 mem (In + 4 * m + 1) 1) in
    wr mem (Out + 3 * m + 2) (inner (c 2%nat) 8 mem (In + 4 * m + 2) 1)) mem.

Definition WebRtcSpl_ResampDotProduct (mem : list Z) (in1 in2 : Z) (coef_ptr : list Z)
    (out1 out2 : Z) : list Z :=
  let tmp1 := inner coef_ptr 9 mem in1 1 in
  let tmp2 := inner coef_ptr 9 mem in2 (-1) in
  wr (wr mem out1 tmp1) out2 tmp2.

Definition WebRtcSpl_Resample44khzTo32khz (mem : list Z) (In Out K : Z) : list Z :=
  let c := fun r => nth r kCoefficients44To32 [] in
  for_up 0 (Z.to_nat K) (fun m mem =>
    let i := In + 11 * m in
    let o := Out + 8 * m in
    let mem := wr mem o (s32 (s32 (Z.shiftl (rd mem (i + 3)) 15) + Z.shiftl 1 14)) in
    let mem := wr mem (o + 4) (inner (c 3%nat) 9 mem (i + 5) 1) in
    let mem := WebRtcSpl_ResampDotProduct mem i (i + 17) (c 0%nat) (o + 1) (o + 7) in
    let mem := WebRtcSpl_ResampDotProduct mem (i + 2) (i + 15) (c 1%nat) (o + 2) (o + 6) in
    WebRtcSpl_ResampDotProduct mem (i + 3) (i + 14) (c 2%nat) (o + 3) (o + 5)) mem.

(** ** resample_48khz.c *)

Record WebRtcSpl_State48khzTo16khz := mk_48_16 { S_48_48 : list Z; S_48_32 : list Z; S_32_16 : list Z }.
Record WebRtcSpl_State16khzTo48khz := mk_16_48 { S_16_32 : list Z; S_32_24 : list Z; S_24_48 : list Z }.
Record WebRtcSpl_State48khzTo8khz :=
  mk_48_8 { S_48_24 : list Z; S_24_24 : list Z; S_24_16 : list Z; S_16_8 : list Z }.
Record WebRtcSpl_State8khzTo48khz :=
  mk_8_48 { S_8_16 : list Z; S_16_12 : list Z; S_12_24 : list Z; S8_24_48 : list Z }.

(** The state copied in front of the stage's input and back from its end. *)
Definition exchange (mem : list Z) (front back : Z) (S : list Z) : list Z * list Z :=
  let mem := blit mem front (slice S 0 8) in
  (mem, blit S 0 (slice mem back 8)).

(** [out], the state and the scratch array. *)
Definition WebRtcSpl_Resample48khzTo16khz (in_ : list Z) (ip : Z) (out : list Z) (op : Z)
    (state : WebRtcSpl_State48khzTo16khz) (tmpmem : list Z)
    : list Z * WebRtcSpl_State48khzTo16khz * list Z :=
  let '(tmpmem, s1) := WebRtcSpl_LPBy2ShortToInt in_ ip 480 tmpmem 16 (S_48_48 state) in
  let '(tmpmem, s2) := exchange tmpmem 8 488 (S_48_32 state) in
  let tmpmem := WebRtcSpl_Resample48khzTo32khz tmpmem 8 0 160 in
  let '(tmpmem, out, s3) := WebRtcSpl_DownBy2IntToShort tmpmem 0 320 out op (S_32_16 state) in
  (out, mk_48_16 s1 s2 s3, tmpmem).

Definition WebRtcSpl_ResetResample48khzTo16khz : WebRtcSpl_State48khzTo16khz :=
  mk_48_16 (zeros 16) (zeros 8) (zeros 8).

Definition WebRtcSpl_Resample16khzTo48khz (in_ : list Z) (ip : Z) (out : list Z) (op : Z)
    (state : WebRtcSpl_State16khzTo48khz) (tmpmem : list Z)
    : list Z * WebRtcSpl_State16khzTo48khz * list Z :=
  let '(tmpmem, s1) := WebRtcSpl_UpBy2ShortToInt in_ ip 160 tmpmem 16 (S_16_32 state) in
  let '(tmpmem, s2) := exchange tmpmem 8 328 (S_32_24 state) in
  let tmpmem := WebRtcSpl_Resample32khzTo24khz tmpmem 8 0 80 in
  let '(out, s3) := WebRtcSpl_UpBy2IntToShort tmpmem 0 240 out op (S_24_48 state) in
  (out, mk_16_48 s1 s2 s3, tmpmem).

Definition WebRtcSpl_ResetResample16khzTo48khz : WebRtcSpl_State16khzTo48khz :=
  mk_16_48 (zeros 8) (zeros 8) (zeros 8).

Definition WebRtcSpl_Resample48khzTo8khz (in_ : list Z) (ip : Z) (out : list Z) (op : Z)
    (state : WebRtcSpl_State48khzTo8khz) (tmpmem : list Z)
    : list Z * WebRtcSpl_State48khzTo8khz * list Z :=
  let '(tmpmem, s1) := WebRtcSpl_DownBy2ShortToInt in_ ip 480 tmpmem 256 (S_48_24 state) in
  let '(tmpmem, s2) := WebRtcSpl_LPBy2IntToInt tmpmem 256 240 16 (S_24_24 state) in
  let '(tmpmem, s3) := exchange tmpmem 8 248 (S_24_16 state) in
  let tmpmem := WebRtcSpl_Resample48khzTo32khz tmpmem 8 0 80 in
  let '(tmpmem, out, s4) := WebRtcSpl_DownBy2IntToShort tmpmem 0 160 out op (S_16_8 state) in
  (out, mk_48_8 s1 s2 s3 s4, tmpmem).

Definition WebRtcSpl_ResetResample48khzTo8khz : WebRtcSpl_State48khzTo8khz :=
  mk_48_8 (zeros 8) (zeros 16) (zeros 8) (zeros 8).

Definition WebRtcSpl_Resample8khzTo48khz (in_ : list Z) (ip : Z) (out : list Z) (op : Z)
    (state : WebRtcSpl_State8khzTo48khz) (tmpmem : list Z)
    : list Z * WebRtcSpl_State8khzTo48khz * list Z :=
  let '(tmpmem, s1) := WebRtcSpl_UpBy2ShortToInt in_ ip 80 tmpmem 264 (S_8_16 state) in
  let '(tmpmem, s2) := exchange tmpmem 256 416 (S_16_12 state) in
  let tmpmem := WebRtcSpl_Resample32khzTo24khz tmpmem 256 240 40 in
  let '(tmpmem, s3) := WebRtcSpl_UpBy2IntToInt tmpmem 240 120 0 (S_12_24 state) in
  let '(out, s4) := WebRtcSpl_UpBy2IntToShort tmpmem 0 240 out op (S8_24_48 state) in
  (out, mk_8_48 s1 s2 s3 s4, tmpmem).

Definition WebRtcSpl_ResetResample8khzTo48khz : WebRtcSpl_State8khzTo48khz :=
  mk_8_48 (zeros 8) (zeros 8) (zeros 8) (zeros 8).

(** ** Resampling in place *)

Lemma inner_ext c n mem mem' p :
  (forall q, p <= q -> rd mem' q = rd mem q) -> inner c n mem' p 1 = inner c n mem p 1.
Proof. intros H. apply for_up_ext. intros k t Hk. now rewrite H by lia. Qed.

(** After [m] blocks of [a] outputs: the outputs [v], the rest as before. *)
Definition blocks_done (mem : list Z) (Out a m : Z) (v : Z -> Z) (mem' : list Z) : Prop :=
  zlen mem' = zlen mem /\
  forall p, rd mem' p = if (Out <=? p) && (p <? Out + a * m) then v (p - Out) else rd mem p.

Lemma blocks_done_after mem Out a m v mem' q :
  blocks_done mem Out a m v mem' -> Out + a * m <= q -> forall p, q <= p -> rd mem' p = rd mem p.
Proof. intros [_ H] Hq p Hp. rewrite H. now replace (p <? Out + a * m) with false by lia; rewrite andb_false_r. Qed.

(** One more output. *)
Lemma blocks_done_wr mem Out a m v mem' j x :
  blocks_done mem Out 1 (a * m + j) v mem' -> 0 <= Out -> 0 <= a * m + j ->
  Out + a * m + j < zlen mem -> x = v (a * m + j) ->
  blocks_done mem Out 1 (a * m + (j + 1)) v (wr mem' (Out + a * m + j) x).
Proof.
  intros [Hz H] Ho Hm Hl ->. split; [now rewrite zlen_wr|]. intros p. rewrite rd_wr by lia.
  destruct (Z.eqb_spec p (Out + a * m + j)) as [->|].
  - replace (Out <=? Out + a * m + j) with true by lia.
    replace (Out + a * m + j <? Out + 1 * (a * m + (j + 1))) with true by lia. cbn [andb]. f_equal. lia.
  - rewrite H. replace (p <? Out + 1 * (a * m + (j + 1))) with (p <? Out + 1 * (a * m + j)) by lia. reflexivity.
Qed.

(** The outputs of the two fractional filters, from the input. *)
Definition out_48_32 (mem : list Z) (In k : Z) : Z :=
  inner (nth (Z.to_nat (k mod 2)) kCoefficients48To32 []) 8 mem (In + 3 * (k / 2) + k mod 2) 1.

Definition out_32_24 (mem : list Z) (In k : Z) : Z :=
  inner (nth (Z.to_nat (k mod 3)) kCoefficients32To24 []) 8 mem (In + 4 * (k / 3) + k mod 3) 1.

Lemma mod_block a m j : 0 <= j < a -> (a * m + j) mod a = j /\ (a * m + j) / a = m.
Proof.
  intros H. rewrite Z.mul_comm, Z.add_comm, Z.mod_add, Z.div_add by lia.
  rewrite Z.mod_small, Z.div_small by lia. lia.
Qed.

Lemma Resample48To32_block mem In Out m mem' :
  0 <= Out <= In -> 0 <= m -> Out + 2 * m + 2 <= zlen mem ->
  blocks_done mem Out 1 (2 * m) (out_48_32 mem In) mem' ->
  let c := fun r => nth r kCoefficients48To32 [] in
  let mem1 := wr mem' (Out + 2 * m) (inner (c 0%nat) 8 mem' (In + 3 * m) 1) in
  blocks_done mem Out 1 (2 * (m + 1)) (out_48_32 mem In)
    (wr mem1 (Out + 2 * m + 1) (inner (c 1%nat) 8 mem1 (In + 3 * m + 1) 1)).
Proof.
  intros Ho Hm Hl H c mem1.
  assert (H1 : blocks_done mem Out 1 (2 * m + 1) (out_48_32 mem In) mem1).
  { unfold mem1. rewrite <- (Z.add_0_r (Out + 2 * m)). apply (blocks_done_wr mem Out 2 m _ _ 0); try lia.
    - now rewrite Z.add_0_r.
    - unfold out_48_32. destruct (mod_block 2 m 0) as [-> ->]; [lia|]. rewrite Z.add_0_r.
      apply inner_ext. apply (blocks_done_after _ _ _ _ _ _ _ H). lia. }
  replace (2 * (m + 1)) with (2 * m + (1 + 1)) by lia. apply blocks_done_wr; try lia; [exact H1|].
  unfold out_48_32. destruct (mod_block 2 m 1) as [-> ->]; [lia|].
  apply inner_ext. apply (blocks_done_after _ _ _ _ _ _ _ H1). lia.
Qed.

Lemma Resample32To24_block mem In Out m mem' :
  0 <= Out <= In -> 0 <= m -> Out + 3 * m + 3 <= zlen mem ->
  blocks_done mem Out 1 (3 * m) (out_32_24 mem In) mem' ->
  let c := fun r => nth r kCoefficients32To24 [] in
  let mem1 := wr mem' (Out + 3 * m) (inner (c 0%nat) 8 mem' (In + 4 * m) 1) in
  let mem2 := wr mem1 (Out + 3 * m + 1) (inner (c 1%nat) 8 mem1 (In + 4 * m + 1) 1) in
  blocks_done mem Out 1 (3 * (m + 1)) (out_32_24 mem In)
    (wr mem2 (Out + 3 * m + 2) (inner (c 2%nat) 8 mem2 (In + 4 * m + 2) 1)).
Proof.
  intros Ho Hm Hl H c mem1 mem2.
  assert (H1 : blocks_done mem Out 1 (3 * m + 1) (out_32_24 mem In) mem1).
  { unfold mem1. rewrite <- (Z.add_0_r (Out + 3 * m)). apply (blocks_done_wr mem Out 3 m _ _ 0); try lia.
    - now rewrite Z.add_0_r.
    - unfold out_32_24. destruct (mod_block 3 m 0) as [-> ->]; [lia|]. rewrite Z.add_0_r.
      apply inner_ext. apply (blocks_done_after _ _ _ _ _ _ _ H). lia. }
  assert (H2 : blocks_done mem Out 1 (3 * m + (1 + 1)) (out_32_24 mem In) mem2).
  { apply blocks_done_wr; try lia; [exact H1|]. unfold out_32_24.
    destruct (mod_block 3 m 1) as [-> ->]; [lia|].
    apply inner_ext. apply (blocks_done_after _ _ _ _ _ _ _ H1). lia. }
  replace (3 * (m + 1)) with (3 * m + (1 + 1 + 1)) by lia. apply blocks_done_wr; try lia; [exact H2|].
  unfold out_32_24. destruct (mod_block 3 m 2) as [-> ->]; [lia|].
  apply inner_ext. apply (blocks_done_after _ _ _ _ _ _ _ H2). lia.
Qed.

Lemma blocks_done_0 mem Out v : blocks_done mem Out 1 (0 * 0) v mem.
Proof. split; [reflexivity|]. intros p. ifs_lia. Qed.

(** The two fractional resamplers may work in place, as the 48 kHz
    resamplers use them: when the output starts at or before the input in the
    same array, every output is the filter applied to the input as it was
    before the call, and nothing outside the output is changed. *)
Theorem fractional_in_place mem In Out K :
  0 <= Out <= In -> 0 <= K ->
  (Out + 2 * K <= zlen mem ->
     blocks_done mem Out 1 (2 * K) (out_48_32 mem In) (WebRtcSpl_Resample48khzTo32khz mem In Out K)) /\
  (Out + 3 * K <= zlen mem ->
     blocks_done mem Out 1 (3 * K) (out_32_24 mem In) (WebRtcSpl_Resample32khzTo24khz mem In Out K)).
Proof.
  intros Ho HK. split; intros Hl.
  - replace (2 * K) with (2 * (0 + Z.of_nat (Z.to_nat K))) by lia.
    apply (for_up_inv (fun m mem' => blocks_done mem Out 1 (2 * m) (out_48_32 mem In) mem')).
    + apply blocks_done_0.
    + intros m mem' Hm H. apply Resample48To32_block; auto; lia.
  - replace (3 * K) with (3 * (0 + Z.of_nat (Z.to_nat K))) by lia.
    apply (for_up_inv (fun m mem' => blocks_done mem Out 1 (3 * m) (out_32_24 mem In) mem')).
    + apply blocks_done_0.
    + intros m mem' Hm H. apply Resample32To24_block; auto; lia.
Qed.

Lemma fractional_in_place_witness :
  let mem := tabulate 24 (fun i => i * i) in
  blocks_done mem 0 1 8 (out_48_32 mem 8) (WebRtcSpl_Resample48khzTo32khz mem 8 0 4).
Proof.
  apply (fractional_in_place (tabulate 24 (fun i => i * i)) 8 0 4); [lia|lia|].
  vm_compute. discriminate.
Defined.
End SplResample.
