(* ===== verification/Codecs.v ===== *)
(** * The waveform codecs

    Models src/orbit/webrtc/modules/audio_coding/codecs/g711/ (g711.h, g711.c,
    g711_interface.c) and pcm16b/pcm16b.c.  The bit searches are the portable
    ones of g711.h; the assembly of the other branches computes the same number.
    The theorems show that a G.711 decoder inverts its encoder up to half a
    quantisation step, that the encoder inverts the decoder, and that 16-bit PCM
    is exact. *)

From S2P Require Import Prelude.

Module Codecs.

(** ** Bits *)

Definition test_bits (mask n : Z) (s : Z * Z) : Z * Z :=
  let (bits, i) := s in
  if Z.land bits mask =? 0 then (bits, i) else (Z.land bits mask, i + n).

Definition top_bit (bits : Z) : Z :=
  if bits =? 0 then -1
  else
    let s := test_bits 0xFFFF0000 16 (bits, 0) in
    let s := test_bits 0xFF00FF00 8 s in
    let s := test_bits 0xF0F0F0F0 4 s in
    let s := test_bits 0xCCCCCCCC 2 s in
    let s := test_bits 0xAAAAAAAA 1 s in
    snd s.

Definition bottom_bit (bits : Z) : Z :=
  if bits =? 0 then -1
  else
    let s := test_bits 0x0000FFFF (-16) (bits, 32) in
    let s := test_bits 0x00FF00FF (-8) s in
    let s := test_bits 0x0F0F0F0F (-4) s in
    let s := test_bits 0x33333333 (-2) s in
    let s := test_bits 0x55555555 (-1) s in
    snd s.

(** ** G.711 *)

Definition ULAW_BIAS : Z := 0x84.

Definition linear_to_ulaw (linear : Z) : Z :=
  let (linear, mask) :=
    if linear <? 0 then (ULAW_BIAS - linear - 1, 0x7F) else (ULAW_BIAS + linear, 0xFF) in
  let seg := top_bit (u32 (Z.lor linear 0xFF)) - 7 in
  if 8 <=? seg then u8 (Z.lxor 0x7F mask)
  else u8 (Z.lxor (Z.lor (Z.shiftl seg 4) (Z.land (Z.shiftr linear (seg + 3)) 0xF)) mask).

Definition ulaw_to_linear (ulaw : Z) : Z :=
  let ulaw := u8 (Z.lnot ulaw) in
  let t := Z.shiftl (Z.shiftl (Z.land ulaw 0x0F) 3 + ULAW_BIAS) (Z.shiftr (Z.land ulaw 0x70) 4) in
  s16 (if negb (Z.land ulaw 0x80 =? 0) then ULAW_BIAS - t else t - ULAW_BIAS).

Definition ALAW_AMI_MASK : Z := 0x55.

Definition linear_to_alaw (linear : Z) : Z :=
  let (linear, mask) :=
    if 0 <=? linear then (linear, Z.lor ALAW_AMI_MASK 0x80) else (- linear - 1, ALAW_AMI_MASK) in
  let seg := top_bit (u32 (Z.lor linear 0xFF)) - 7 in
  if 8 <=? seg then
    if 0 <=? linear then u8 (Z.lxor 0x7F mask) else u8 (Z.lxor 0x00 mask)
  else
    u8 (Z.lxor (Z.lor (Z.shiftl seg 4)
      (Z.land (Z.shiftr linear (if seg =? 0 then 4 else seg + 3)) 0x0F)) mask).

Definition alaw_to_linear (alaw : Z) : Z :=
  let alaw := Z.lxor alaw ALAW_AMI_MASK in
  let i := Z.shiftl (Z.land alaw 0x0F) 4 in
  let seg := Z.shiftr (Z.land alaw 0x70) 4 in
  let i := if seg =? 0 then i + 8 else Z.shiftl (i + 0x108) (seg - 1) in
  s16 (if negb (Z.land alaw 0x80 =? 0) then i else - i).

Definition ulaw_to_alaw_table : list Z := [
   42; 43; 40; 41; 46; 47; 44; 45; 34; 35; 32; 33; 38; 39; 36; 37;
   58; 59; 56; 57; 62; 63; 60; 61; 50; 51; 48; 49; 54; 55; 52; 53;
   10; 11; 8; 9; 14; 15; 12; 13; 2; 3; 0; 1; 6; 7; 4; 26;
   27; 24; 25; 30; 31; 28; 29; 18; 19; 16; 17; 22; 23; 20; 21; 106;
   104; 105; 110; 111; 108; 109; 98; 99; 96; 97; 102; 103; 100; 101; 122; 120;
   126; 127; 124; 125; 114; 115; 112; 113; 118; 119; 116; 117; 75; 73; 79; 77;
   66; 67; 64; 65; 70; 71; 68; 69; 90; 91; 88; 89; 94; 95; 92; 93;
   82; 82; 83; 83; 80; 80; 81; 81; 86; 86; 87; 87; 84; 84; 85; 85;
   170; 171; 168; 169; 174; 175; 172; 173; 162; 163; 160; 161; 166; 167; 164; 165;
   186; 187; 184; 185; 190; 191; 188; 189; 178; 179; 176; 177; 182; 183; 180; 181;
   138; 139; 136; 137; 142; 143; 140; 141; 130; 131; 128; 129; 134; 135; 132; 154;
   155; 152; 153; 158; 159; 156; 157; 146; 147; 144; 145; 150; 151; 148; 149; 234;
   232; 233; 238; 239; 236; 237; 226; 227; 224; 225; 230; 231; 228; 229; 250; 248;
   254; 255; 252; 253; 242; 243; 240; 241; 246; 247; 244; 245; 203; 201; 207; 205;
   194; 195; 192; 193; 198; 199; 196; 197; 218; 219; 216; 217; 222; 223; 220; 221;
   210; 210; 211; 211; 208; 208; 209; 209; 214; 214; 215; 215; 212; 212; 213; 213
].

Definition alaw_to_ulaw_table : list Z := [
   42; 43; 40; 41; 46; 47; 44; 45; 34; 35; 32; 33; 38; 39; 36; 37;
   57; 58; 55; 56; 61; 62; 59; 60; 49; 50; 47; 48; 53; 54; 51; 52;
   10; 11; 8; 9; 14; 15; 12; 13; 2; 3; 0; 1; 6; 7; 4; 5;
   26; 27; 24; 25; 30; 31; 28; 29; 18; 19; 16; 17; 22; 23; 20; 21;
   98; 99; 96; 97; 102; 103; 100; 101; 93; 93; 92; 92; 95; 95; 94; 94;
   116; 118; 112; 114; 124; 126; 120; 122; 106; 107; 104; 105; 110; 111; 108; 109;
   72; 73; 70; 71; 76; 77; 74; 75; 64; 65; 63; 63; 68; 69; 66; 67;
   86; 87; 84; 85; 90; 91; 88; 89; 79; 79; 78; 78; 82; 83; 80; 81;
   170; 171; 168; 169; 174; 175; 172; 173; 162; 163; 160; 161; 166; 167; 164; 165;
   185; 186; 183; 184; 189; 190; 187; 188; 177; 178; 175; 176; 181; 182; 179; 180;
   138; 139; 136; 137; 142; 143; 140; 141; 130; 131; 128; 129; 134; 135; 132; 133;
   154; 155; 152; 153; 158; 159; 156; 157; 146; 147; 144; 145; 150; 151; 148; 149;
   226; 227; 224; 225; 230; 231; 228; 229; 221; 221; 220; 220; 223; 223; 222; 222;
   244; 246; 240; 242; 252; 254; 248; 250; 234; 235; 232; 233; 238; 239; 236; 237;
   200; 201; 198; 199; 204; 205; 202; 203; 192; 193; 191; 191; 196; 197; 194; 195;
   214; 215; 212; 213; 218; 219; 216; 217; 207; 207; 206; 206; 210; 211; 208; 209
].

Definition alaw_to_ulaw (alaw : Z) : Z := rd alaw_to_ulaw_table alaw.
Definition ulaw_to_alaw (ulaw : Z) : Z := rd ulaw_to_alaw_table ulaw.

(** The loops of g711_interface.c over [len] samples. *)
Definition convert (f : Z -> Z) (from : list Z) (len : Z) (to : list Z) : list Z :=
  for_up 0 (Z.to_nat len) (fun n to => wr to n (f (rd from n))) to.

Definition WebRtcG711_EncodeA (speechIn : list Z) (len : Z) (encoded : list Z) : Z * list Z :=
  (len, convert linear_to_alaw speechIn len encoded).
Definition WebRtcG711_EncodeU (speechIn : list Z) (len : Z) (encoded : list Z) : Z * list Z :=
  (len, convert linear_to_ulaw speechIn len encoded).
(** The third result is [*speechType]. *)
Definition WebRtcG711_DecodeA (encoded : list Z) (len : Z) (decoded : list Z)
    : Z * list Z * Z :=
  (len, convert alaw_to_linear encoded len decoded, 1).
Definition WebRtcG711_DecodeU (encoded : list Z) (len : Z) (decoded : list Z)
    : Z * list Z * Z :=
  (len, convert ulaw_to_linear encoded len decoded, 1).

(** ** 16-bit PCM *)

Definition WebRtcPcm16b_Encode (speech : list Z) (len : Z) (encoded : list Z) : Z * list Z :=
  (2 * len,
   for_up 0 (Z.to_nat len) (fun i encoded =>
     let s := u16 (rd speech i) in
     let encoded := wr encoded (2 * i) (u8 (Z.shiftr s 8)) in
     wr encoded (2 * i + 1) (u8 s)) encoded).

Definition WebRtcPcm16b_Decode (encoded : list Z) (len : Z) (speech : list Z) : Z * list Z :=
  (len / 2,
   for_up 0 (Z.to_nat (len / 2)) (fun i speech =>
     wr speech i (s16 (Z.lor (Z.shiftl (rd encoded (2 * i)) 8) (rd encoded (2 * i + 1))))) speech).

(** ** Segments *)

(** The segment of a magnitude: its number of bits above eight. *)
Definition segment (L : Z) : Z := top_bit (u32 (Z.lor L 0xFF)) - 7.

Lemma lor_255 L : 0 <= L -> Z.lor L 0xFF = 256 * (L / 256) + 255.
Proof.
  intros H. assert (E : L = Z.lor (L mod 256) (L / 256 * 2 ^ 8)).
  { rewrite lor_add; change (2 ^ 8) with 256; [dlia|lia|]. apply Z.mod_pos_bound. lia. }
  rewrite E at 1. rewrite <- Z.lor_assoc, (Z.lor_comm (L / 256 * 2 ^ 8)), Z.lor_assoc.
  assert (El : Z.lor (L mod 256) 255 = 255).
  { apply Z.eqb_eq. apply (below_forallb (fun l => Z.lor l 255 =? 255) 256);
      [vm_compute; reflexivity|apply Z.mod_pos_bound; lia]. }
  rewrite El, lor_add; change (2 ^ 8) with 256; lia.
Qed.

Lemma segment_spec L :
  0 <= L < 65536 ->
  0 <= segment L <= 8 /\ L < 2 ^ (segment L + 8) /\ (0 < segment L -> 2 ^ (segment L + 7) <= L).
Proof.
  intros H. unfold segment. rewrite lor_255, u32_id by (int_unfold; dlia).
  pose proof (below_forallb (fun h => let s := top_bit (256 * h + 255) - 7 in
    (0 <=? s) && (s <=? 8) && (h <? 2 ^ s) && ((s =? 0) || (2 ^ s <=? 2 * h))) 256 (L / 256)
    ltac:(vm_compute; reflexivity) ltac:(dlia)) as C.
  cbv zeta beta in C. set (s := top_bit _ - 7) in *.
  assert (Hs : 0 <= s <= 8) by lia. rewrite !Z.pow_add_r by lia.
  change (2 ^ 8) with 256. change (2 ^ 7) with 128. split; [lia|]. split; [dlia|]. intros. dlia.
Qed.

(** The four bits under the leading one, in the step of the segment. *)
Lemma in_segment L k :
  0 <= k -> 2 ^ (k + 4) <= L < 2 ^ (k + 5) ->
  exists q, 0 <= q < 16 /\ Z.land (Z.shiftr L k) 0xF = q /\
    2 ^ k * (q + 16) <= L < 2 ^ k * (q + 17).
Proof.
  intros Hk0 HL. exists (L / 2 ^ k - 16). rewrite shiftr_div by lia.
  rewrite !Z.pow_add_r in HL by lia. change (2 ^ 4) with 16 in HL. change (2 ^ 5) with 32 in HL.
  pose proof (Z.pow_pos_nonneg 2 k ltac:(lia) ltac:(lia)) as Hp.
  pose proof (Z.div_mod L (2 ^ k) ltac:(lia)). pose proof (Z.mod_pos_bound L (2 ^ k) Hp).
  assert (16 <= L / 2 ^ k < 32) by nia.
  split; [lia|]. split; [|nia]. change 15 with (2 ^ 4 - 1). rewrite land_ones_mod by lia.
  change (2 ^ 4) with 16. dlia.
Qed.

(** ** G.711: what the decoders make of a code *)

Lemma ulaw_decoded s q :
  0 <= s < 8 -> 0 <= q < 16 ->
  let c := Z.lor (Z.shiftl s 4) q in
  ulaw_to_linear (u8 (Z.lxor c 0xFF)) = 2 ^ s * (8 * q + 132) - 132 /\
  ulaw_to_linear (u8 (Z.lxor c 0x7F)) = 132 - 2 ^ s * (8 * q + 132).
Proof.
  intros Hs Hq.
  pose proof (below_forallb (fun n => let c := Z.lor (Z.shiftl (n / 16) 4) (n mod 16) in
    let v := 2 ^ (n / 16) * (8 * (n mod 16) + 132) - 132 in
    (ulaw_to_linear (u8 (Z.lxor c 0xFF)) =? v) && (ulaw_to_linear (u8 (Z.lxor c 0x7F)) =? - v))
    128 (16 * s + q) ltac:(vm_compute; reflexivity) ltac:(lia)) as C.
  cbv zeta beta in C. replace ((16 * s + q) / 16) with s in C by dlia.
  replace ((16 * s + q) mod 16) with q in C by dlia. cbv zeta. lia.
Qed.

Lemma alaw_decoded s q :
  0 <= s < 8 -> 0 <= q < 16 ->
  let c := Z.lor (Z.shiftl s 4) q in
  let v := if s =? 0 then 16 * q + 8 else 2 ^ (s - 1) * (16 * q + 264) in
  alaw_to_linear (u8 (Z.lxor c 0xD5)) = v /\ alaw_to_linear (u8 (Z.lxor c 0x55)) = - v.
Proof.
  intros Hs Hq.
  pose proof (below_forallb (fun n => let c := Z.lor (Z.shiftl (n / 16) 4) (n mod 16) in
    let v := if n / 16 =? 0 then 16 * (n mod 16) + 8
             else 2 ^ (n / 16 - 1) * (16 * (n mod 16) + 264) in
    (alaw_to_linear (u8 (Z.lxor c 0xD5)) =? v) && (alaw_to_linear (u8 (Z.lxor c 0x55)) =? - v))
    128 (16 * s + q) ltac:(vm_compute; reflexivity) ltac:(lia)) as C.
  cbv zeta beta in C. replace ((16 * s + q) / 16) with s in C by dlia.
  replace ((16 * s + q) mod 16) with q in C by dlia. cbv zeta. lia.
Qed.

(** What a sample becomes: the middle of the step that its magnitude [L] lies
    in. *)
Lemma ulaw_step L :
  132 <= L < 32768 ->
  exists s q, 0 <= s < 8 /\ 0 <= q < 16 /\ segment L = s /\
    Z.land (Z.shiftr L (s + 3)) 0xF = q /\
    2 ^ s * (8 * (q + 16)) <= L < 2 ^ s * (8 * (q + 17)) /\ 2 ^ s * 128 <= L.
Proof.
  intros HL. destruct (segment_spec L ltac:(lia)) as (Hs & Hu & Hl).
  set (s := segment L) in *.
  assert (Hlow : 2 ^ (s + 7) <= L).
  { destruct (Z.eq_dec s 0) as [E|]; [rewrite E; change (2 ^ (0 + 7)) with 128; lia|apply Hl; lia]. }
  assert (s < 8).
  { destruct (Z.ltb_spec s 8); [assumption|]. replace s with 8 in Hlow by lia.
    change (2 ^ (8 + 7)) with 32768 in Hlow. lia. }
  destruct (in_segment L (s + 3)) as (q & Hq & Eq & HqL); [lia| |].
  { replace (s + 3 + 4) with (s + 7) by lia. replace (s + 3 + 5) with (s + 8) by lia. auto. }
  rewrite Z.pow_add_r in HqL by lia. change (2 ^ 3) with 8 in HqL.
  rewrite Z.pow_add_r in Hlow by lia. change (2 ^ 7) with 128 in Hlow.
  exists s, q. repeat split; auto; lia.
Qed.

Lemma ulaw_error x :
  in_s16 x ->
  let e := ulaw_to_linear (linear_to_ulaw x) in
  if (-32637 <? x) && (x <? 32636)
  then 32 * Z.abs (x - e) <= Z.abs x + 132 /\ 0 <= x * e
  else e = if x <? 0 then -32124 else 32124.
Proof.
  intros Hx. cbv zeta. unfold linear_to_ulaw, ULAW_BIAS.
  set (L := if x <? 0 then 132 - x - 1 else 132 + x).
  assert (EL : (if x <? 0 then (0x84 - x - 1, 0x7F) else (0x84 + x, 0xFF)) =
    (L, if x <? 0 then 0x7F else 0xFF)) by (subst L; destruct (x <? 0); reflexivity).
  rewrite EL. fold (segment L).
  assert (HL : 131 <= L < 65536 /\ (x <? 0 = false -> L = 132 + x) /\ (x <? 0 = true -> L = 131 - x /\ 132 <= L)).
  { subst L. int_unfold. destruct (Z.ltb_spec x 0); repeat split; try lia; discriminate. }
  clearbody L. clear EL. destruct HL as (HL & Hp & Hn).
  assert (H132 : 132 <= L) by (destruct (Z.ltb_spec x 0); [apply Hn; reflexivity|rewrite Hp by reflexivity; lia]).
  destruct ((-32637 <? x) && (x <? 32636)) eqn:E.
  - assert (HL' : L < 32768).
    { destruct (Z.ltb_spec x 0); [destruct Hn as [-> _]; [reflexivity|lia]|rewrite Hp by reflexivity; lia]. }
    destruct (ulaw_step L ltac:(lia)) as (s & q & Hs & Hq & -> & -> & Hst & Hlow).
    replace (8 <=? s) with false by lia.
    destruct (ulaw_decoded s q Hs Hq) as [D1 D2]. cbv zeta in D1, D2.
    destruct (Z.ltb_spec x 0); [rewrite D2|rewrite D1].
    + destruct Hn as [-> _]; [reflexivity|]. split; nia.
    + rewrite Hp in * by reflexivity. split; nia.
  - assert (HL' : 32768 <= L).
    { destruct (Z.ltb_spec x 0); [destruct Hn as [-> _]; [reflexivity|lia]|rewrite Hp by reflexivity; lia]. }
    destruct (segment_spec L ltac:(lia)) as (Hs & Hu & _).
    assert (E8 : segment L = 8).
    { destruct (Z.eq_dec (segment L) 8); [assumption|].
      pose proof (Z.pow_le_mono_r 2 (segment L + 8) 15 ltac:(lia) ltac:(lia)) as P.
      change (2 ^ 15) with 32768 in P. lia. }
    rewrite E8. destruct (x <? 0); reflexivity.
Qed.

Lemma alaw_segment L : 0 <= L < 32768 -> 0 <= segment L < 8.
Proof.
  intros HL. destruct (segment_spec L ltac:(lia)) as (Hs & Hu & Hl).
  destruct (Z.ltb_spec (segment L) 8); [lia|].
  replace (segment L) with 8 in Hl by lia. change (2 ^ (8 + 7)) with 32768 in Hl. lia.
Qed.

Lemma alaw_step L :
  0 <= L < 32768 ->
  let s := segment L in
  exists q, 0 <= q < 16 /\
    Z.land (Z.shiftr L (if s =? 0 then 4 else s + 3)) 0x0F = q /\
    (if s =? 0 then 16 * q <= L < 16 * (q + 1) else
       2 ^ (s - 1) * (16 * (q + 16)) <= L < 2 ^ (s - 1) * (16 * (q + 17)) /\
       2 ^ (s - 1) * 256 <= L).
Proof.
  intros HL s. destruct (segment_spec L ltac:(lia)) as (Hs & Hu & Hl). fold s in Hs, Hu, Hl.
  destruct (Z.eqb_spec s 0) as [E|].
  - rewrite E in Hu. change (2 ^ (0 + 8)) with 256 in Hu. exists (L / 16).
    change 0x0F with (2 ^ 4 - 1). rewrite land_ones_mod, shiftr_div by lia. change (2 ^ 4) with 16.
    split; [dlia|]. split; [dlia|dlia].
  - destruct (in_segment L (s + 3)) as (q & Hq & Eq & HqL); [lia| |].
    { replace (s + 3 + 4) with (s + 7) by lia. replace (s + 3 + 5) with (s + 8) by lia.
      split; [apply Hl; lia|lia]. }
    specialize (Hl ltac:(lia)).
    replace (s + 3) with (s - 1 + 4) in HqL by lia. replace (s + 7) with (s - 1 + 8) in Hl by lia.
    rewrite Z.pow_add_r in HqL, Hl by lia.
    change (2 ^ 4) with 16 in HqL. change (2 ^ 8) with 256 in Hl.
    exists q. repeat split; auto; lia.
Qed.

Lemma alaw_error x :
  in_s16 x ->
  let e := alaw_to_linear (linear_to_alaw x) in
  32 * Z.abs (x - e) <= Z.max 256 (Z.abs x) /\ 0 <= x * e.
Proof.
  intros Hx. cbv zeta. unfold linear_to_alaw, ALAW_AMI_MASK.
  change (Z.lor 0x55 0x80) with 0xD5.
  set (L := if 0 <=? x then x else - x - 1).
  assert (EL : (if 0 <=? x then (x, 0xD5) else (- x - 1, 0x55)) =
    (L, if 0 <=? x then 0xD5 else 0x55)) by (subst L; destruct (0 <=? x); reflexivity).
  rewrite EL. fold (segment L).
  assert (HL : 0 <= L < 32768 /\ (0 <=? x = true -> L = x) /\ (0 <=? x = false -> L = - x - 1)).
  { subst L. int_unfold. destruct (Z.leb_spec 0 x); repeat split; try lia; discriminate. }
  clearbody L. clear EL. destruct HL as (HL & Hp & Hn).
  pose proof (alaw_segment L HL) as Hs. set (s := segment L) in *.
  replace (8 <=? s) with false by lia.
  destruct (alaw_step L HL) as (q & Hq & E & Hst). fold s in E, Hst. rewrite E.
  destruct (alaw_decoded s q ltac:(lia) Hq) as [D1 D2]. cbv zeta in D1, D2.
  destruct (Z.leb_spec 0 x); [rewrite D1|rewrite D2].
  - rewrite Hp in * by reflexivity. destruct (s =? 0); split; nia.
  - rewrite Hn in * by reflexivity. destruct (s =? 0); split; nia.
Qed.

(** ** The theorems *)

Lemma rd_convert f from n to i :
  0 <= i < n -> n <= zlen to -> rd (convert f from n to) i = f (rd from i).
Proof.
  intros Hi Hn. unfold convert. rewrite (rd_for_wr (fun k => f (rd from k))) by lia.
  rewrite Z2Nat.id by lia. destruct (Z.leb_spec 0 i), (Z.ltb_spec i (0 + n)); try lia; reflexivity.
Qed.

Lemma zlen_convert f from n to : zlen (convert f from n to) = zlen to.
Proof. unfold convert. apply (zlen_for_wr (fun k _ => f (rd from k)) (fun k => k)). Qed.

(** G.711.  Decoding what was encoded gives every sample of a block back with
    its sign and within a 32nd of its magnitude (of a magnitude of at least 256
    for A-law; for mu-law up to 132 more, and samples beyond 32635 are cut to
    32124).  Encoding a decoded code gives the code, but for the negative zero of
    mu-law.  And the transcoding tables keep the sign and the magnitude to within
    a 32nd of it plus 8. *)
Theorem g711_roundtrip v n encoded decoded :
  (forall i, 0 <= i < n -> in_s16 (rd v i)) -> n <= zlen encoded -> n <= zlen decoded ->
  (let (_, e) := WebRtcG711_EncodeA v n encoded in
   let '(k, d, _) := WebRtcG711_DecodeA e n decoded in
   k = n /\ forall i, 0 <= i < n ->
     32 * Z.abs (rd v i - rd d i) <= Z.max 256 (Z.abs (rd v i)) /\ 0 <= rd v i * rd d i) /\
  (let (_, e) := WebRtcG711_EncodeU v n encoded in
   let '(k, d, _) := WebRtcG711_DecodeU e n decoded in
   k = n /\ forall i, 0 <= i < n ->
     if (-32637 <? rd v i) && (rd v i <? 32636)
     then 32 * Z.abs (rd v i - rd d i) <= Z.abs (rd v i) + 132 /\ 0 <= rd v i * rd d i
     else rd d i = if rd v i <? 0 then -32124 else 32124) /\
  (forall c, in_u8 c ->
     linear_to_alaw (alaw_to_linear c) = c /\
     linear_to_ulaw (ulaw_to_linear c) = (if c =? 127 then 255 else c) /\
     (Z.land (ulaw_to_alaw c) 0x80 = Z.land c 0x80 /\
      32 * Z.abs (ulaw_to_linear c - alaw_to_linear (ulaw_to_alaw c)) <= Z.abs (ulaw_to_linear c) + 256) /\
     (Z.land (alaw_to_ulaw c) 0x80 = Z.land c 0x80 /\
      32 * Z.abs (alaw_to_linear c - ulaw_to_linear (alaw_to_ulaw c)) <= Z.abs (alaw_to_linear c) + 256)).
Proof.
  intros Hv He Hd. split; [|split].
  - cbn. split; [reflexivity|]. intros i Hi. rewrite !rd_convert by lia. apply alaw_error. auto.
  - cbn. split; [reflexivity|]. intros i Hi. rewrite !rd_convert by lia. apply ulaw_error. auto.
  - intros c Hc.
    pose proof (below_forallb (fun c => (linear_to_alaw (alaw_to_linear c) =? c) &&
      (linear_to_ulaw (ulaw_to_linear c) =? (if c =? 127 then 255 else c)) &&
      (Z.land (ulaw_to_alaw c) 0x80 =? Z.land c 0x80) &&
      (32 * Z.abs (ulaw_to_linear c - alaw_to_linear (ulaw_to_alaw c)) <=? Z.abs (ulaw_to_linear c) + 256) &&
      (Z.land (alaw_to_ulaw c) 0x80 =? Z.land c 0x80) &&
      (32 * Z.abs (alaw_to_linear c - ulaw_to_linear (alaw_to_ulaw c)) <=? Z.abs (alaw_to_linear c) + 256))
      256 c ltac:(vm_compute; reflexivity) Hc) as C.
    cbv beta in C. lia.
Qed.

(** 16-bit PCM is exact: a block of samples is decoded to itself, from twice as
    many bytes. *)
Theorem pcm16b_roundtrip v n encoded decoded :
  (forall i, 0 <= i < n -> in_s16 (rd v i)) -> 0 <= n -> 2 * n <= zlen encoded -> n <= zlen decoded ->
  let (len, e) := WebRtcPcm16b_Encode v n encoded in
  let (k, d) := WebRtcPcm16b_Decode e len decoded in
  len = 2 * n /\ k = n /\ forall i, 0 <= i < n -> rd d i = rd v i.
Proof.
  intros Hv Hn He Hd. unfold WebRtcPcm16b_Encode, WebRtcPcm16b_Decode. cbv beta iota zeta.
  set (e := for_up 0 _ _ encoded).
  assert (Hb : forall i, 0 <= i < n ->
    rd e (2 * i) = u8 (Z.shiftr (u16 (rd v i)) 8) /\ rd e (2 * i + 1) = u8 (u16 (rd v i))).
  { subst e. pose proof (for_up_inv (fun k e => zlen e = zlen encoded /\ forall i, 0 <= i < k ->
        rd e (2 * i) = u8 (Z.shiftr (u16 (rd v i)) 8) /\ rd e (2 * i + 1) = u8 (u16 (rd v i)))
      (fun i encoded => wr (wr encoded (2 * i) (u8 (Z.shiftr (u16 (rd v i)) 8))) (2 * i + 1)
        (u8 (u16 (rd v i)))) (Z.to_nat n) 0 encoded) as I.
    rewrite Z2Nat.id in I by lia. destruct I as [_ I].
    - split; [reflexivity|]. intros; lia.
    - intros k a Hk [Hz IH]. split; [now rewrite !zlen_wr|]. intros i Hi.
      destruct (Z.eq_dec i k) as [->|Hne].
      + rewrite rd_wr_ne, !rd_wr_eq by (rewrite ?zlen_wr; lia). split; reflexivity.
      + rewrite !rd_wr_ne by lia. apply IH. lia.
    - exact I. }
  split; [reflexivity|]. replace (2 * n / 2) with n by dlia. split; [reflexivity|].
  intros i Hi. rewrite (rd_for_wr (fun i => s16 (Z.lor (Z.shiftl (rd e (2 * i)) 8) (rd e (2 * i + 1))))) by lia.
  rewrite Z2Nat.id by lia. replace ((0 <=? i) && (i <? 0 + n)) with true by lia.
  destruct (Hb i Hi) as [-> ->]. specialize (Hv i Hi).
  rewrite shiftr_div, shiftl_mul, Z.lor_comm, lor_add by (try lia; change (2 ^ 8) with 256; int_lia).
  change (2 ^ 8) with 256. int_lia.
Qed.

Definition samples : list Z := [0; -1; 1000; -1000; 32635; -32768].

Lemma samples_s16 i : 0 <= i < 6 -> in_s16 (rd samples i).
Proof.
  intros Hi. apply (Forall_rd in_s16); [int_unfold; lia|]. repeat constructor; int_unfold; lia.
Qed.

Example g711_roundtrip_witness :
  let '(k, d, _) := WebRtcG711_DecodeU (snd (WebRtcG711_EncodeU samples 6 (zeros 6))) 6 (zeros 6) in
  d = [0; 0; 988; -988; 32124; -32124] /\ k = 6.
Proof.
  pose proof (g711_roundtrip samples 6 (zeros 6) (zeros 6) samples_s16 ltac:(reflexivity || easy)
    ltac:(reflexivity || easy)) as (_ & U & _).
  split; [reflexivity|]. exact (proj1 U).
Defined.

Example pcm16b_roundtrip_witness :
  let (k, d) := WebRtcPcm16b_Decode (snd (WebRtcPcm16b_Encode samples 6 (zeros 12))) 12 (zeros 6) in
  d = samples /\ k = 6.
Proof.
  pose proof (pcm16b_roundtrip samples 6 (zeros 12) (zeros 6) samples_s16 ltac:(lia)
    ltac:(reflexivity || easy) ltac:(reflexivity || easy)) as (_ & K & _).
  split; [reflexivity|]. exact K.
Defined.
End Codecs.
