(* ===== verification/Cng.v ===== *)
(** * Comfort noise

    Models src/orbit/webrtc/modules/audio_coding/codecs/cng/webrtc_cng.c and
    cng_helpfuns.c: the encoder that describes background noise by its energy
    and reflection coefficients (a SID packet), and the decoder that makes noise
    from such a description.  Both call the signal processing library of the
    Spl files.  [None] is a fault: a division by zero or an access outside an
    array.  [get] is the checked read; where a loop runs over an array of the
    caller the length is tested once, for the last index of the loop; [rd] and
    [wr] are used on arrays whose length the declaration fixes and whose index
    the code bounds.  [malloc] is taken to succeed. *)

From S2P Require Import Prelude SplInl SplMath SplVector SplFilter.
Import SplInl SplMath SplVector SplFilter.

Module Cng.

Definition WEBRTC_CNG_MAX_LPC_ORDER : Z := 12.
Definition WEBRTC_CNG_MAX_OUTSIZE_ORDER : Z := 640.
Definition CNG_ENCODER_NOT_INITIATED : Z := 6120.
Definition CNG_DISALLOWED_LPC_ORDER : Z := 6130.
Definition CNG_DISALLOWED_FRAME_SIZE : Z := 6140.
Definition CNG_DECODER_NOT_INITIATED : Z := 6220.

Record WebRtcCngDecoder := mk_dec {
  dec_seed : Z;
  dec_target_energy : Z;
  dec_used_energy : Z;
  dec_target_reflCoefs : list Z;
  dec_used_reflCoefs : list Z;
  dec_filtstate : list Z;
  dec_filtstateLow : list Z;
  dec_Efiltstate : list Z;
  dec_EfiltstateLow : list Z;
  dec_order : Z;
  dec_target_scale_factor : Z;
  dec_used_scale_factor : Z;
  target_scale_factor : Z;
  d_errorcode : Z;
  d_initflag : Z
}.

Record WebRtcCngEncoder := mk_enc {
  enc_nrOfCoefs : Z;
  enc_sampfreq : Z;
  enc_interval : Z;
  enc_msSinceSID : Z;
  enc_Energy : Z;
  enc_reflCoefs : list Z;
  enc_corrVector : list Z;
  enc_seed : Z;
  e_errorcode : Z;
  e_initflag : Z
}.

Definition WebRtcCng_kDbov : list Z := [
  1081109975; 858756178; 682134279; 541838517; 430397633; 341876992;
  271562548; 215709799; 171344384; 136103682; 108110997; 85875618;
  68213428; 54183852; 43039763; 34187699; 27156255; 21570980;
  17134438; 13610368; 10811100; 8587562; 6821343; 5418385;
  4303976; 3418770; 2715625; 2157098; 1713444; 1361037;
  1081110; 858756; 682134; 541839; 430398; 341877;
  271563; 215710; 171344; 136104; 108111; 85876;
  68213; 54184; 43040; 34188; 27156; 21571;
  17134; 13610; 10811; 8588; 6821; 5418;
  4304; 3419; 2716; 2157; 1713; 1361;
  1081; 859; 682; 542; 430; 342;
  272; 216; 171; 136; 108; 86;
  68; 54; 43; 34; 27; 22;
  17; 14; 11; 9; 7; 5;
  4; 3; 3; 2; 2; 1;
  1; 1; 1; 1
].

Definition WebRtcCng_kCorrWindow : list Z := [
  32702; 32636; 32570; 32505; 32439; 32374;
  32309; 32244; 32179; 32114; 32049; 31985
].

(** [a[i]]; [None] outside the array. *)
Definition get (a : list Z) (i : Z) : option Z :=
  if (0 <=? i) && (i <? zlen a) then Some (rd a i) else None.

(** [WEBRTC_SPL_MUL_16_16_RSFT] with a shift by 15. *)
Definition mul_rsft15 (a b : Z) : Z := Z.shiftr (a * b) 15.

(** The instances as [malloc] leaves them, with the two fields that are set. *)
Definition WebRtcCng_CreateEnc (e : WebRtcCngEncoder) : WebRtcCngEncoder :=
  mk_enc (enc_nrOfCoefs e) (enc_sampfreq e) (enc_interval e) (enc_msSinceSID e) (enc_Energy e)
    (enc_reflCoefs e) (enc_corrVector e) (enc_seed e) 0 0.
Definition WebRtcCng_CreateDec (d : WebRtcCngDecoder) : WebRtcCngDecoder :=
  mk_dec (dec_seed d) (dec_target_energy d) (dec_used_energy d) (dec_target_reflCoefs d)
    (dec_used_reflCoefs d) (dec_filtstate d) (dec_filtstateLow d) (dec_Efiltstate d)
    (dec_EfiltstateLow d) (dec_order d) (dec_target_scale_factor d) (dec_used_scale_factor d)
    (target_scale_factor d) 0 0.

Definition z13 : list Z := zeros (WEBRTC_CNG_MAX_LPC_ORDER + 1).

Definition WebRtcCng_InitEnc (fs interval quality : Z) : WebRtcCngEncoder * Z :=
  if (WEBRTC_CNG_MAX_LPC_ORDER <? quality) || (quality <=? 0) then
    (mk_enc 0 0 0 0 0 z13 z13 0 CNG_DISALLOWED_LPC_ORDER 0, -1)
  else (mk_enc quality fs interval 0 0 z13 z13 7777 0 1, 0).

Definition WebRtcCng_InitDec : WebRtcCngDecoder :=
  mk_dec 7777 0 0 z13 z13 z13 z13 z13 z13 5 0 0 0 0 1.

Definition WebRtcCng_GetErrorCodeEnc (inst : WebRtcCngEncoder) : Z := e_errorcode inst.
Definition WebRtcCng_GetErrorCodeDec (inst : WebRtcCngDecoder) : Z := d_errorcode inst.

Definition set_e_errorcode (e : WebRtcCngEncoder) (code : Z) : WebRtcCngEncoder :=
  mk_enc (enc_nrOfCoefs e) (enc_sampfreq e) (enc_interval e) (enc_msSinceSID e) (enc_Energy e)
    (enc_reflCoefs e) (enc_corrVector e) (enc_seed e) code (e_initflag e).
Definition set_d_errorcode (d : WebRtcCngDecoder) (code : Z) : WebRtcCngDecoder :=
  mk_dec (dec_seed d) (dec_target_energy d) (dec_used_energy d) (dec_target_reflCoefs d)
    (dec_used_reflCoefs d) (dec_filtstate d) (dec_filtstateLow d) (dec_Efiltstate d)
    (dec_EfiltstateLow d) (dec_order d) (dec_target_scale_factor d) (dec_used_scale_factor d)
    (target_scale_factor d) code (d_initflag d).

(** ** The encoder *)

(** [while (outShifts > 0)]. *)
Fixpoint scale_energy (fuel : nat) (outEnergy outShifts factor : Z) : Z * Z :=
  match fuel with
  | O => (outEnergy, factor)
  | S fuel =>
      if 0 <? outShifts then
        if 5 <? outShifts then scale_energy fuel (s32 (Z.shiftl outEnergy (outShifts - 5))) 5 factor
        else scale_energy fuel outEnergy (outShifts - 1) (factor / 2)
      else (outEnergy, factor)
  end.

(** One element of the bandwidth expansion. *)
Definition expand (a b : Z) : Z :=
  let negate := b <? 0 in
  let b := if negate then s32 (- b) else b in
  let blo := s32 (a * Z.land b 0xffff) in
  let bhi := s32 (Z.land (Z.shiftr blo 16) 0xffff + s32 (a * Z.land (Z.shiftr b 16) 0xffff)) in
  let blo := s32 (Z.lor (Z.land blo 0xffff) (s32 (Z.shiftl (Z.land bhi 0xffff) 16))) in
  let b := s32 (Z.lor (u32 (s32 (Z.shiftl (Z.land (Z.shiftr bhi 16) 0x7fff) 17)))
                      (Z.shiftr (u32 blo) 15)) in
  if negate then s32 (- b) else b.

(** The reflection coefficients of a frame; [None] when the filter is not
    stable.  [hanningW] is the window on the stack, whose middle element is not
    set when the frame has an odd length. *)
Definition analyse (order nrOfSamples : Z) (speechBuf hanningW : list Z) : option (list Z) :=
  let half := nrOfSamples / 2 in
  let hanningW := WebRtcSpl_GetHanningWindow hanningW half in
  let hanningW := for_up 0 (Z.to_nat half) (fun i w => wr w (nrOfSamples - i - 1) (rd w i)) hanningW in
  let speechBuf := WebRtcSpl_ElementwiseVectorMult speechBuf hanningW speechBuf nrOfSamples 14 in
  let '(_, corrVector, _) := WebRtcSpl_AutoCorrelation speechBuf nrOfSamples order z13 in
  let corrVector := if rd corrVector 0 =? 0 then wr corrVector 0 32767 else corrVector in
  let corrVector := for_up 0 (Z.to_nat order) (fun i c =>
    wr c i (expand (rd WebRtcCng_kCorrWindow i) (rd c i))) corrVector in
  let '(stab, _, refCs) := WebRtcSpl_LevinsonDurbin corrVector z13 z13 order in
  if stab =? 0 then None else Some refCs.

(** [for (i = 1; i < 93; i++)] with its break. *)
Fixpoint search (n : nat) (i Energy : Z) : Z :=
  match n with
  | O => 94
  | S n => if 0 <? s32 (Energy - rd WebRtcCng_kDbov i) then i else search n (i + 1) Energy
  end.
Definition dbov_index (Energy : Z) : Z := search 92 1 Energy.

Definition quantize (order c : Z) : Z :=
  if order =? WEBRTC_CNG_MAX_LPC_ORDER then u8 (Z.shiftr (c + 128) 8)
  else u8 (127 + Z.shiftr (c + 128) 8).

(** The state after the frame has been analysed. *)
Definition average (inst : WebRtcCngEncoder) (refCs : list Z) (outEnergy : Z) (forceSID : bool)
    : WebRtcCngEncoder :=
  let order := enc_nrOfCoefs inst in
  let coefs :=
    if forceSID then
      for_up 0 (Z.to_nat order) (fun i c => wr c i (rd refCs i)) (enc_reflCoefs inst)
    else
      for_up 0 (Z.to_nat order) (fun i c =>
        wr c i (s16 (s16 (mul_rsft15 (rd c i) 19661) + s16 (mul_rsft15 (rd refCs i) 13107))))
        (enc_reflCoefs inst) in
  let energy :=
    if forceSID then outEnergy
    else s32 (Z.shiftr outEnergy 2 + Z.shiftr (enc_Energy inst) 1 + Z.shiftr (enc_Energy inst) 2) in
  let energy := if energy <? 1 then 1 else energy in
  mk_enc order (enc_sampfreq inst) (enc_interval inst) (enc_msSinceSID inst) energy coefs
    (enc_corrVector inst) (enc_seed inst) (e_errorcode inst) (e_initflag inst).

Definition set_ms (e : WebRtcCngEncoder) (ms : Z) : WebRtcCngEncoder :=
  mk_enc (enc_nrOfCoefs e) (enc_sampfreq e) (enc_interval e) ms (enc_Energy e)
    (enc_reflCoefs e) (enc_corrVector e) (enc_seed e) (e_errorcode e) (e_initflag e).

(** [(1000 * nrOfSamples) / inst->enc_sampfreq], computed as a [size_t]. *)
Definition frame_ms (nrOfSamples sampfreq : Z) : option Z :=
  if sampfreq =? 0 then None else Some (s16 (u64 (1000 * nrOfSamples) / u64 sampfreq)).

(** The instance, the SID packet, [*bytesOut] and the return value.  The
    autocorrelation of fewer samples than the order counts its last loop up to
    a negative [size_t] (its assertion says so where it is compiled in). *)
Definition WebRtcCng_Encode (inst : WebRtcCngEncoder) (speech : list Z) (nrOfSamples : Z)
    (SIDdata : list Z) (bytesOut : Z) (forceSID : bool) (hanningW : list Z)
    : option (WebRtcCngEncoder * list Z * Z * Z) :=
  if negb (e_initflag inst =? 1) then
    Some (set_e_errorcode inst CNG_ENCODER_NOT_INITIATED, SIDdata, bytesOut, -1)
  else if WEBRTC_CNG_MAX_OUTSIZE_ORDER <? nrOfSamples then
    Some (set_e_errorcode inst CNG_DISALLOWED_FRAME_SIZE, SIDdata, bytesOut, -1)
  else if zlen speech <? nrOfSamples then None
  else
    let order := enc_nrOfCoefs inst in
    let speechBuf := slice speech 0 nrOfSamples in
    let (outEnergy, outShifts) := WebRtcSpl_Energy speechBuf nrOfSamples in
    let (outEnergy, factor) :=
      scale_energy (S (Z.to_nat outShifts)) outEnergy outShifts nrOfSamples in
    let outEnergy := WebRtcSpl_DivW32W16 outEnergy (s16 factor) in
    if (1 <? outEnergy) && (nrOfSamples <? order) then None else
    match (if 1 <? outEnergy then analyse order nrOfSamples speechBuf hanningW
           else Some (zeros order)) with
    | None => Some (inst, SIDdata, 0, 0)
    | Some refCs =>
        let inst := average inst refCs outEnergy forceSID in
        match frame_ms nrOfSamples (enc_sampfreq inst) with
        | None => None
        | Some ms =>
            if (enc_interval inst - 1 <? enc_msSinceSID inst) || forceSID then
              if zlen SIDdata <? order + 1 then None else
              let SIDdata := wr SIDdata 0 (u8 (dbov_index (enc_Energy inst))) in
              let SIDdata := for_up 0 (Z.to_nat order) (fun i s =>
                wr s (i + 1) (quantize order (rd (enc_reflCoefs inst) i))) SIDdata in
              Some (set_ms inst (s16 (0 + ms)), SIDdata, order + 1, order + 1)
            else Some (set_ms inst (s16 (enc_msSinceSID inst + ms)), SIDdata, 0, 0)
        end
    end.

(** ** The decoder *)

Definition set_target (d : WebRtcCngDecoder) (energy : Z) (coefs : list Z) (order : Z)
    : WebRtcCngDecoder :=
  mk_dec (dec_seed d) energy (dec_used_energy d) coefs (dec_used_reflCoefs d) (dec_filtstate d)
    (dec_filtstateLow d) (dec_Efiltstate d) (dec_EfiltstateLow d) order
    (dec_target_scale_factor d) (dec_used_scale_factor d) (target_scale_factor d)
    (d_errorcode d) (d_initflag d).

(** A coefficient of the packet, Q7 to Q15. *)
Definition dequantize (order b : Z) : Z :=
  if order =? WEBRTC_CNG_MAX_LPC_ORDER then s16 (Z.shiftl b 8) else s16 (Z.shiftl (b - 127) 8).

(** The instance, the packet, whose energy is capped in place, and the return
    value.  For an empty packet the order is -1 and the code writes element -1
    of the coefficients. *)
Definition WebRtcCng_UpdateSid (inst : WebRtcCngDecoder) (SID : list Z) (length : Z)
    : option (WebRtcCngDecoder * list Z * Z) :=
  if negb (d_initflag inst =? 1) then
    Some (set_d_errorcode inst CNG_DECODER_NOT_INITIATED, SID, -1)
  else
    let length := if WEBRTC_CNG_MAX_LPC_ORDER + 1 <? length then WEBRTC_CNG_MAX_LPC_ORDER + 1
                  else length in
    let order := s16 (s16 length - 1) in
    match get SID 0 with
    | None => None
    | Some energy =>
        let SID := if 93 <? energy then wr SID 0 93 else SID in
        match get WebRtcCng_kDbov (rd SID 0) with
        | None => None
        | Some targetEnergy =>
            let targetEnergy := Z.shiftr targetEnergy 1 in
            let targetEnergy := s32 (targetEnergy + Z.shiftr targetEnergy 2) in
            if (order <? 0) || (zlen SID <? order + 1) then None
            else
              let coefs := for_up 0 (Z.to_nat order) (fun i c =>
                wr c i (dequantize order (rd SID (i + 1)))) (dec_target_reflCoefs inst) in
              let coefs := for_up order (Z.to_nat (WEBRTC_CNG_MAX_LPC_ORDER - order)) (fun i c =>
                wr c i 0) coefs in
              Some (set_target inst targetEnergy coefs order, SID, 0)
        end
    end.

(** Reflection coefficients in Q15 to the polynomial in Q12. *)
Definition WebRtcCng_K2a16 (k : list Z) (useOrder : Z) (a : list Z) : list Z :=
  let a := wr a 0 4096 in
  let any := wr (zeros (WEBRTC_SPL_MAX_LPC_ORDER + 1)) 0 (rd a 0) in
  let a := wr a 1 (s16 (Z.shiftr (rd k 0 + 4) 3)) in
  fst (for_up 1 (Z.to_nat (useOrder - 1)) (fun m '(a, any) =>
    let any := wr any (m + 1) (s16 (Z.shiftr (rd k m + 4) 3)) in
    let any := for_up 0 (Z.to_nat m) (fun i any =>
      wr any (1 + i) (s16 (rd a (1 + i) +
        s16 (Z.shiftr (s32 (s32 (rd a (m - i) * rd k m) + 16384)) 15)))) any in
    (for_up 0 (Z.to_nat (m + 2)) (fun i a => wr a i (rd any i)) a, any)) (a, any)).

Definition mul_q15 (a b : Z) : Z := s16 (mul_rsft15 a b).

(** The energy of the synthesis filter, 1 in Q13 times [1 - K(i)^2]. *)
Definition filter_energy (coefs : list Z) : Z :=
  for_up 0 12 (fun i En =>
    mul_q15 En (s16 (0x7fff - mul_q15 (rd coefs i) (rd coefs i)))) 8192.

(** The scale factor of the excitation. *)
Definition excitation_gain (En used_energy : Z) : Z :=
  let targetEnergy := WebRtcSpl_Sqrt used_energy in
  let En := s16 (Z.shiftl (s16 (WebRtcSpl_Sqrt En)) 6) in
  let En := s16 (Z.shiftr (En * 3) 1) in
  s16 (Z.shiftr (s32 (En * targetEnergy)) 12).

(** [excitation] and the seed. *)
Definition excite (nrOfSamples seed : Z) : list Z * Z :=
  for_up 0 (Z.to_nat nrOfSamples) (fun i '(e, seed) =>
    let '(r, seed) := WebRtcSpl_RandN seed in (wr e i (Z.shiftr r 1), seed))
    (zeros WEBRTC_CNG_MAX_OUTSIZE_ORDER, seed).

(** The used energy, coefficients and scale factor move towards the target. *)
Definition interpolate (inst : WebRtcCngDecoder) (new_period : bool) : Z * list Z * Z :=
  let Beta := if new_period then 19661 else 26214 in
  let BetaC := if new_period then 13107 else 6553 in
  let used := if new_period then dec_target_scale_factor inst else dec_used_scale_factor inst in
  let tmp1 := s16 (Z.shiftl used 2) in
  let tmp2 := s16 (Z.shiftl (dec_target_scale_factor inst) 2) in
  let tmp3 := s16 (mul_q15 tmp1 Beta + mul_q15 tmp2 BetaC) in
  (s32 (Z.shiftr (dec_used_energy inst) 1 + Z.shiftr (dec_target_energy inst) 1),
   for_up 0 (Z.to_nat WEBRTC_CNG_MAX_LPC_ORDER) (fun i c =>
     wr c i (s16 (mul_q15 (rd c i) Beta + mul_q15 (rd (dec_target_reflCoefs inst) i) BetaC)))
     (dec_used_reflCoefs inst),
   Z.shiftr tmp3 2).

(** The instance, [outData] and the return value.  The arrays on the stack are
    written before they are read.  The scale factor of [interpolate] is
    computed and overwritten. *)
Definition WebRtcCng_Generate (inst : WebRtcCngDecoder) (outData : list Z) (nrOfSamples : Z)
    (new_period : bool) : option (WebRtcCngDecoder * list Z * Z) :=
  if WEBRTC_CNG_MAX_OUTSIZE_ORDER <? nrOfSamples then
    Some (set_d_errorcode inst CNG_DISALLOWED_FRAME_SIZE, outData, -1)
  else if zlen outData <? nrOfSamples then None
  else
    let '(used_energy, coefs, _) := interpolate inst new_period in
    let lpPoly := WebRtcCng_K2a16 coefs WEBRTC_CNG_MAX_LPC_ORDER z13 in
    let scale := excitation_gain (filter_energy coefs) used_energy in
    let (excitation, seed) := excite nrOfSamples (dec_seed inst) in
    let excitation := WebRtcSpl_ScaleVector excitation excitation scale nrOfSamples 13 in
    let '(outData, _, state, state_low, _) :=
      WebRtcSpl_FilterAR lpPoly (WEBRTC_CNG_MAX_LPC_ORDER + 1) excitation nrOfSamples
        (dec_filtstate inst) WEBRTC_CNG_MAX_LPC_ORDER (dec_filtstateLow inst) outData
        (zeros WEBRTC_CNG_MAX_OUTSIZE_ORDER) in
    Some (mk_dec seed (dec_target_energy inst) used_energy (dec_target_reflCoefs inst) coefs
       state state_low (dec_Efiltstate inst) (dec_EfiltstateLow inst) (dec_order inst)
       (dec_target_scale_factor inst) scale (target_scale_factor inst)
       (d_errorcode inst) (d_initflag inst), outData, 0).

(** ** The state of the decoder *)

Definition energy_cap : Z := 675693733.

(** An array of [n] 16-bit numbers, and what keeps it one. *)
Definition words (n : Z) (a : list Z) : Prop := Forall in_s16 a /\ zlen a = n.

(** What the fields of a decoder hold: every one is in its C type and the
    arrays have their thirteen elements; the energies are at most what the
    first entry of the table gives, the order is what the coefficients
    have room for, and the instance is initialised. *)
Record dec_ok (d : WebRtcCngDecoder) : Prop := {
  ok_seed : in_u32 (dec_seed d);
  ok_target_energy : 0 <= dec_target_energy d <= energy_cap;
  ok_used_energy : 0 <= dec_used_energy d <= energy_cap;
  ok_target : words 13 (dec_target_reflCoefs d);
  ok_used : words 13 (dec_used_reflCoefs d);
  ok_state : words 13 (dec_filtstate d);
  ok_state_low : words 13 (dec_filtstateLow d);
  ok_Estate : words 13 (dec_Efiltstate d);
  ok_Estate_low : words 13 (dec_EfiltstateLow d);
  ok_order : 0 <= dec_order d <= 12;
  ok_scale : dec_target_scale_factor d = 0 /\ in_s16 (dec_used_scale_factor d) /\
             in_s16 (target_scale_factor d);
  ok_derror : d_errorcode d = 0 \/ d_errorcode d = CNG_DISALLOWED_FRAME_SIZE;
  ok_dinit : d_initflag d = 1
}.

Lemma words_wr n a i v : words n a -> in_s16 v -> words n (wr a i v).
Proof. intros [Ha Hn] Hv. split; [now apply Forall_wr|now rewrite zlen_wr]. Qed.

Lemma words_rd n a i : words n a -> in_s16 (rd a i).
Proof. intros [Ha _]. apply Forall_rd; [int_lia|exact Ha]. Qed.

Lemma words_for_wr n (f g : Z -> list Z -> Z) i m a :
  words n a -> (forall k b, words n b -> in_s16 (f k b)) ->
  words n (for_up i m (fun k b => wr b (g k b) (f k b)) a).
Proof. intros Ha Hf. apply for_up_pres; [exact Ha|]. intros k b _ Hb. apply words_wr; auto. Qed.

Lemma Forall_slice (P : Z -> Prop) a i n : Forall P a -> Forall P (slice a i n).
Proof.
  intros H. unfold slice. apply Forall_firstn. rewrite Forall_forall in *. intros x Hx. apply H.
  rewrite <- (firstn_skipn (Z.to_nat i) a). apply in_or_app. now right.
Qed.

Lemma Forall_blit (P : Z -> Prop) src : forall a i, Forall P src -> Forall P a -> Forall P (blit a i src).
Proof.
  induction src as [|x src IH]; intros a i Hs Ha; cbn [blit]; [exact Ha|].
  inversion Hs; subst. apply IH; [assumption|]. now apply Forall_wr.
Qed.

Lemma words_CopyFromEnd n v len k out :
  Forall in_s16 v -> words n out -> words n (WebRtcSpl_CopyFromEndW16 v len k out).
Proof.
  intros Hv [Ho Hn]. unfold WebRtcSpl_CopyFromEndW16. split; [|now rewrite zlen_blit].
  apply Forall_blit; [now apply Forall_slice|exact Ho].
Qed.

(** The filter keeps its arrays arrays of 16-bit numbers. *)
Lemma words_FilterAR a al x xl st sl st_low out low n m ml :
  words n st -> words n st_low -> words m out -> words ml low ->
  let '(out', low', st', st_low', r) := WebRtcSpl_FilterAR a al x xl st sl st_low out low in
  words m out' /\ words n st' /\ words n st_low'.
Proof.
  intros Hst Hsl Ho Hl. unfold WebRtcSpl_FilterAR.
  match goal with |- context [for_up 0 (Z.to_nat xl) ?f (out, low)] => set (F := for_up 0 (Z.to_nat xl) f (out, low)) end.
  assert (HF : words m (fst F) /\ words ml (snd F)).
  { subst F. apply (for_up_pres (fun p => words m (fst p) /\ words ml (snd p))); [now split|].
    intros k [f l] _ [Hf Hlow]. destruct (ar_sums _ _ _ _ _ _ _ _) as [o oLOW]. cbn [fst snd].
    split; apply words_wr; auto; apply s16_range. }
  destruct F as [f l]. destruct HF as [Hf Hlow]. cbn [fst snd] in Hf, Hlow.
  destruct (sl <=? xl).
  - split; [exact Hf|]. split; apply words_CopyFromEnd; auto; [apply Hf|apply Hlow].
  - match goal with |- context [for_up 0 (Z.to_nat (sl - xl)) ?g (st, st_low)] =>
      set (G := for_up 0 (Z.to_nat (sl - xl)) g (st, st_low)) end.
    assert (HG : words n (fst G) /\ words n (snd G)).
    { subst G. apply (for_up_pres (fun p => words n (fst p) /\ words n (snd p))); [now split|].
      intros k [s t] _ [Hs Ht]. cbn [fst snd] in *. split; apply words_wr; auto; eapply words_rd; eauto. }
    destruct G as [s t]. destruct HG as [Hs Ht]. split; [exact Hf|]. split; [|exact Ht].
    apply for_up_pres; [exact Hs|]. intros k b _ Hb.
    repeat (apply words_wr; [|eapply words_rd; eauto]). exact Hb.
Qed.

Lemma excite_seed n seed : in_u32 seed -> in_u32 (snd (excite n seed)).
Proof.
  intros H. unfold excite. apply (for_up_pres (fun p => in_u32 (snd p))); [exact H|].
  intros k [e s] _ Hs. cbn [snd] in *. unfold WebRtcSpl_RandN. cbn [snd]. rewrite IncreaseSeed_eq by exact Hs.
  int_lia.
Qed.

Lemma dbov_cap i : 0 <= i <= 93 -> 1 <= rd WebRtcCng_kDbov i <= 1081109975.
Proof.
  intros H. assert (E : forallb (fun x => (1 <=? x) && (x <=? 1081109975)) WebRtcCng_kDbov = true)
    by reflexivity.
  rewrite forallb_forall in E. specialize (E (rd WebRtcCng_kDbov i)).
  assert (Hz : zlen WebRtcCng_kDbov = 94) by reflexivity.
  specialize (E (rd_in_bounds WebRtcCng_kDbov i ltac:(lia))). bool_lia.
Qed.

Lemma words_zeros n : 0 <= n -> words n (zeros n).
Proof.
  intros H. split; [|now apply zlen_zeros]. unfold zeros. apply Forall_forall. intros x Hx.
  apply repeat_spec in Hx. subst. int_lia.
Qed.

Lemma words_z13 : words 13 z13.
Proof. now apply words_zeros. Qed.

Lemma InitDec_ok : dec_ok WebRtcCng_InitDec.
Proof. split; try apply words_z13; cbn; unfold energy_cap; auto; int_lia. Qed.

(** What [UpdateSid] leaves: the energy and the coefficients of the packet. *)
Definition sid_energy (b : Z) : Z :=
  let e := rd WebRtcCng_kDbov (Z.min 93 b) / 2 in e + e / 4.

Lemma get_in a i : 0 <= i < zlen a -> get a i = Some (rd a i).
Proof. intros H. unfold get. now replace ((0 <=? i) && (i <? zlen a)) with true by lia. Qed.

Lemma UpdateSid_eq d SID length :
  d_initflag d = 1 -> Forall in_u8 SID -> 0 < length -> Z.min 13 length <= zlen SID ->
  words 13 (dec_target_reflCoefs d) ->
  let order := Z.min 12 (length - 1) in
  exists coefs SID', WebRtcCng_UpdateSid d SID length
    = Some (set_target d (sid_energy (rd SID 0)) coefs order, SID', 0) /\ words 13 coefs /\
    forall i, 0 <= i < 12 ->
      rd coefs i = if i <? order then dequantize order (rd SID (i + 1)) else 0.
Proof.
  intros Hi HS Hpos Hlen Hd order. unfold WebRtcCng_UpdateSid, WEBRTC_CNG_MAX_LPC_ORDER. rewrite Hi. cbn [negb Z.eqb].
  change (negb (1 =? 1)) with false. cbn match. cbv zeta.
  set (len := if _ <? length then _ else length).
  assert (Hl : len = order + 1) by (unfold len, order; ifs_lia).
  assert (Ho : 0 <= order <= 12) by (unfold order; lia).
  assert (Hs : s16 (s16 len - 1) = order) by (rewrite Hl; int_lia). rewrite Hs.
  assert (H0 : in_u8 (rd SID 0)) by (apply Forall_rd; [int_lia|exact HS]).
  rewrite get_in by lia. cbn match.
  set (S' := if 93 <? rd SID 0 then _ else SID).
  assert (HS0 : rd S' 0 = Z.min 93 (rd SID 0)).
  { unfold S'. destruct (Z.ltb_spec 93 (rd SID 0)); [rewrite rd_wr_eq by lia|]; lia. }
  assert (Hz : zlen S' = zlen SID) by (unfold S'; case_if; [apply zlen_wr|reflexivity]).
  rewrite get_in by (rewrite HS0; change (zlen WebRtcCng_kDbov) with 94; int_lia). cbn match.
  rewrite Hz. replace ((order <? 0) || (zlen SID <? order + 1)) with false
    by (symmetry; apply orb_false_iff; unfold order; lia).
  assert (HSi : forall i, 0 <= i -> rd S' (i + 1) = rd SID (i + 1)).
  { intros i Hi0. unfold S'. destruct (93 <? rd SID 0); [apply rd_wr_ne; lia|reflexivity]. }
  assert (He : s32 (Z.shiftr (rd WebRtcCng_kDbov (rd S' 0)) 1 +
                Z.shiftr (Z.shiftr (rd WebRtcCng_kDbov (rd S' 0)) 1) 2) = sid_energy (rd SID 0)).
  { rewrite HS0, !shiftr_div by lia. unfold sid_energy. cbv zeta.
    assert (Hb : 0 <= Z.min 93 (rd SID 0) <= 93) by (destruct H0; lia). pose proof (dbov_cap _ Hb) as Hc.
    revert Hc. generalize (rd WebRtcCng_kDbov (Z.min 93 (rd SID 0))). clear. intros x Hx.
    change (2 ^ 1) with 2. change (2 ^ 2) with 4. int_lia. }
  rewrite He. do 2 eexists. split; [reflexivity|]. split.
  - apply (words_for_wr 13 (fun _ _ => 0) (fun i _ => i)); [|intros; int_lia].
    apply (words_for_wr 13 (fun i _ => dequantize order (rd S' (i + 1))) (fun i _ => i)); [exact Hd|].
    intros. unfold dequantize. case_if; apply s16_range.
  - intros i Hi12. destruct Hd as [_ Hd].
    rewrite (rd_for_wr (fun _ => 0)) by (rewrite ?(zlen_for_wr (fun i _ => dequantize order (rd S' (i + 1))) (fun i => i)); lia).
    rewrite (rd_for_wr (fun i => dequantize order (rd S' (i + 1)))) by lia. rewrite HSi by lia.
    rewrite !Z2Nat.id by lia. clear -Hi12 Ho. ifs_lia.
Qed.

(** A packet is refused by a fault exactly when it is empty, or shorter than
    the length it is given with. *)
Lemma UpdateSid_fault d SID length :
  d_initflag d = 1 -> Forall in_u8 SID -> 0 <= length -> words 13 (dec_target_reflCoefs d) ->
  WebRtcCng_UpdateSid d SID length = None <-> length = 0 \/ zlen SID < Z.min 13 length.
Proof.
  intros Hi HS Hl Hd. split.
  - intros E. destruct (Z.eq_dec length 0); [now left|]. right.
    destruct (Z.lt_ge_cases (zlen SID) (Z.min 13 length)) as [|Hc]; [assumption|].
    destruct (UpdateSid_eq d SID length Hi HS ltac:(lia) Hc Hd) as (c & S' & Eq & _). congruence.
  - intros H. unfold WebRtcCng_UpdateSid, WEBRTC_CNG_MAX_LPC_ORDER. rewrite Hi.
    change (negb (1 =? 1)) with false. cbn match. cbv zeta.
    replace (if 12 + 1 <? length then 12 + 1 else length) with (Z.min 13 length) by ifs_lia.
    destruct (get SID 0) as [b|]; [|reflexivity].
    set (S' := if 93 <? b then _ else SID).
    assert (Hz : zlen S' = zlen SID) by (unfold S'; case_if; [apply zlen_wr|reflexivity]).
    destruct (get WebRtcCng_kDbov _); [|reflexivity]. rewrite Hz.
    replace (_ || _) with true; [reflexivity|]. symmetry. apply orb_true_iff. int_lia.
Qed.

Lemma sid_energy_bound b : 0 <= b -> 0 <= sid_energy b <= energy_cap.
Proof.
  intros H. unfold sid_energy, energy_cap. pose proof (dbov_cap (Z.min 93 b) ltac:(lia)). dlia.
Qed.

(** ** Every state a decoder can reach *)

Inductive decoder : WebRtcCngDecoder -> Prop :=
| dec_start : decoder WebRtcCng_InitDec
| dec_sid d SID length d' SID' r :
    decoder d -> Forall in_u8 SID -> 0 <= length ->
    WebRtcCng_UpdateSid d SID length = Some (d', SID', r) -> decoder d'
| dec_generate d out n new_period d' out' r :
    decoder d -> Forall in_s16 out -> 0 <= n ->
    WebRtcCng_Generate d out n new_period = Some (d', out', r) -> decoder d'.

(** The three answers of [Generate]. *)
Lemma Generate_ok d out n new_period m :
  dec_ok d -> words m out ->
  if 640 <? n then
    WebRtcCng_Generate d out n new_period =
      Some (set_d_errorcode d CNG_DISALLOWED_FRAME_SIZE, out, -1)
  else if m <? n then WebRtcCng_Generate d out n new_period = None
  else exists d' out', WebRtcCng_Generate d out n new_period = Some (d', out', 0) /\
    dec_ok d' /\ words m out' /\
    dec_used_energy d' = dec_used_energy d / 2 + dec_target_energy d / 2.
Proof.
  intros [? ? ? Ht Hu Hs Hl ? ? ? (? & ? & ?) ? ?] Ho. unfold WebRtcCng_Generate, WEBRTC_CNG_MAX_OUTSIZE_ORDER.
  destruct (640 <? n); [reflexivity|]. rewrite (proj2 Ho). destruct (m <? n); [reflexivity|].
  unfold interpolate. destruct (excite n (dec_seed d)) as [e seed] eqn:Ee.
  pose proof (excite_seed n (dec_seed d) ltac:(assumption)) as Hseed. rewrite Ee in Hseed.
  set (poly := WebRtcCng_K2a16 _ _ _). set (sc := WebRtcSpl_ScaleVector _ _ _ _ _).
  pose proof (words_FilterAR poly (WEBRTC_CNG_MAX_LPC_ORDER + 1) sc n (dec_filtstate d)
    WEBRTC_CNG_MAX_LPC_ORDER (dec_filtstateLow d) out (zeros 640) 13 m 640
    Hs Hl Ho (words_zeros 640 ltac:(lia))) as HF.
  destruct (WebRtcSpl_FilterAR _ _ _ _ _ _ _ _ _) as [[[[out' low'] st'] sl'] r'].
  destruct HF as (Ho' & Hs' & Hl').
  assert (He : s32 (Z.shiftr (dec_used_energy d) 1 + Z.shiftr (dec_target_energy d) 1) =
               dec_used_energy d / 2 + dec_target_energy d / 2).
  { rewrite !shiftr_div by lia. change (2 ^ 1) with 2. unfold energy_cap in *. int_lia. }
  rewrite He. do 2 eexists. split; [reflexivity|]. split; [|now split].
  split; cbn [dec_seed dec_target_energy dec_used_energy dec_order dec_target_reflCoefs
    dec_used_reflCoefs dec_filtstate dec_filtstateLow dec_Efiltstate dec_EfiltstateLow
    dec_target_scale_factor dec_used_scale_factor target_scale_factor d_errorcode d_initflag]; auto.
  - unfold energy_cap in *. dlia.
  - apply (words_for_wr 13 (fun i c => s16 (mul_q15 (rd c i) (if new_period then 19661 else 26214) +
      mul_q15 (rd (dec_target_reflCoefs d) i) (if new_period then 13107 else 6553))) (fun i _ => i) 0 12);
    [exact Hu|]. intros; apply s16_range.
  - split; [assumption|]. split; [apply s16_range|assumption].
Qed.

Lemma set_d_errorcode_ok d :
  dec_ok d -> dec_ok (set_d_errorcode d CNG_DISALLOWED_FRAME_SIZE).
Proof. intros [? ? ? ? ? ? ? ? ? ? ? ? ?]. split; cbn; auto. Qed.

Lemma UpdateSid_ok d SID length d' SID' r :
  dec_ok d -> Forall in_u8 SID -> 0 <= length ->
  WebRtcCng_UpdateSid d SID length = Some (d', SID', r) -> dec_ok d' /\ r = 0.
Proof.
  intros Hd HS Hlen E. pose proof (UpdateSid_fault d SID length (ok_dinit _ Hd) HS Hlen (ok_target _ Hd)) as Hf.
  assert (Hn : ~ (length = 0 \/ zlen SID < Z.min 13 length)) by (rewrite <- Hf; congruence).
  destruct (UpdateSid_eq d SID length (ok_dinit _ Hd) HS ltac:(lia) ltac:(lia) (ok_target _ Hd))
    as (coefs & S2 & Eq & Hw & _).
  rewrite Eq in E. injection E as <- <- <-. split; [|reflexivity]. destruct Hd.
  split; cbn; auto; [|lia]. apply sid_energy_bound.
  assert (in_u8 (rd SID 0)) as [? _] by (apply Forall_rd; [int_lia|exact HS]). assumption.
Qed.

Lemma decoder_ok d : decoder d -> dec_ok d.
Proof.
  induction 1 as [|d SID length d' SID' r _ Hd HS Hl E|d out n p d' out' r _ Hd Ho Hn E].
  - exact InitDec_ok.
  - exact (proj1 (UpdateSid_ok d SID length d' SID' r Hd HS Hl E)).
  - pose proof (Generate_ok d out n p (zlen out) Hd (conj Ho eq_refl)) as H. rewrite E in H.
    destruct (640 <? n); [injection H as -> -> ->; now apply set_d_errorcode_ok|].
    destruct (zlen out <? n); [discriminate H|].
    destruct H as (d2 & out2 & Eq & Hd2 & _). now injection Eq as -> -> ->.
Qed.

(** ** The state of the encoder *)

(** What the fields of an encoder hold: every one is in its C type, the energy
    is not negative, the order fits the arrays, and the instance is
    initialised. *)
Record enc_ok (e : WebRtcCngEncoder) : Prop := {
  ok_coefs : 1 <= enc_nrOfCoefs e <= 12;
  ok_fs : in_s32 (enc_sampfreq e) /\ enc_sampfreq e <> 0;
  ok_interval : in_s16 (enc_interval e);
  ok_ms : in_s16 (enc_msSinceSID e);
  ok_energy : 0 <= enc_Energy e <= 2147483647;
  ok_refl : words 13 (enc_reflCoefs e);
  ok_corr : enc_corrVector e = z13;
  ok_eseed : enc_seed e = 7777;
  ok_eerror : e_errorcode e = 0 \/ e_errorcode e = CNG_DISALLOWED_FRAME_SIZE;
  ok_init : e_initflag e = 1
}.

Lemma words_lev_loop m n R_hi R_low : forall i st,
  words m (lev_K st) ->
  match lev_loop n R_hi R_low i st with inl st' => words m (lev_K st') | inr K => words m K end.
Proof.
  induction n as [|n IH]; intros i st H; cbn [lev_loop]; [exact H|].
  unfold lev_step. cbv zeta. destruct (32750 <? _).
  - apply words_wr; [exact H|apply hi_part_s16].
  - destruct (update_alpha _ _ _ _) as [[a b] c]. apply IH. cbn [lev_K].
    apply words_wr; [exact H|apply hi_part_s16].
Qed.

Lemma words_LevinsonDurbin m R A K order :
  words m K -> let '(_, _, K') := WebRtcSpl_LevinsonDurbin R A K order in words m K'.
Proof.
  intros H. unfold WebRtcSpl_LevinsonDurbin. cbv zeta.
  set (R_hi := for_up 0 _ _ _). set (R_low := for_up 0 _ _ _).
  pose proof (words_lev_loop m (Z.to_nat (order - 1)) R_hi R_low 2 (lev_start R_hi R_low K)) as Hl.
  destruct (lev_loop _ _ _ _ _); apply Hl; unfold lev_start;
    destruct (update_alpha _ _ _ _) as [[a b] c]; cbn [lev_K]; apply words_wr; auto; apply hi_part_s16.
Qed.

Lemma analyse_words order n buf w refCs : analyse order n buf w = Some refCs -> words 13 refCs.
Proof.
  unfold analyse. cbv zeta. destruct (WebRtcSpl_AutoCorrelation _ _ _ _) as [[r c] sc].
  set (R := for_up 0 (Z.to_nat order) _ _).
  pose proof (words_LevinsonDurbin 13 R z13 z13 order words_z13) as H.
  destruct (WebRtcSpl_LevinsonDurbin R z13 z13 order) as [[stab A] K].
  destruct (stab =? 0); [discriminate|]. now injection 1 as <-.
Qed.

Lemma average_ok inst refCs outEnergy force :
  enc_ok inst -> in_s32 outEnergy -> (forall i, in_s16 (rd refCs i)) ->
  enc_ok (average inst refCs outEnergy force) /\ 1 <= enc_Energy (average inst refCs outEnergy force).
Proof.
  intros [? ? ? ? ? Hr ? ? ? ?] He Hc. split; [split|]; unfold average; cbn; auto.
  - destruct force; case_if; rewrite ?shiftr_div in * by lia; int_lia.
  - destruct force.
    + now apply (words_for_wr 13 (fun i _ => rd refCs i) (fun i _ => i)).
    + apply (words_for_wr 13 (fun i c => s16 (s16 (mul_rsft15 (rd c i) 19661) +
        s16 (mul_rsft15 (rd refCs i) 13107))) (fun i _ => i)); [exact Hr|]. intros; apply s16_range.
  - destruct force; case_if; lia.
Qed.

(** ** Quantisation *)

Lemma dequantize_quantize order c : in_s16 c ->
  dequantize order (quantize order c) = if c <? 32640 then 256 * ((c + 128) / 256) else -32768.
Proof.
  intros H. unfold dequantize, quantize. destruct (order =? _);
    rewrite shiftr_div, shiftl_mul by lia; change (2 ^ 8) with 256;
    destruct (Z.ltb_spec c 32640); int_lia.
Qed.

Lemma search_spec E : 1 <= E <= 2147483647 -> forall n i,
  1 <= i -> i + Z.of_nat n = 93 -> (forall j, 1 <= j < i -> E <= rd WebRtcCng_kDbov j) ->
  let r := search n i E in
  (r = 94 \/ (1 <= r <= 92 /\ rd WebRtcCng_kDbov r < E)) /\
  forall j, 1 <= j < Z.min r 93 -> E <= rd WebRtcCng_kDbov j.
Proof.
  intros HE n. induction n as [|n IH]; intros i Hi Hn Hj; cbn [search].
  - split; [auto|]. intros j Hj'. apply Hj. lia.
  - rewrite Nat2Z.inj_succ in Hn. pose proof (dbov_cap i ltac:(lia)) as Hc.
    rewrite s32_id by int_lia. destruct (Z.ltb_spec 0 (E - rd WebRtcCng_kDbov i)).
    + split; [right; lia|]. intros j Hj'. apply Hj. lia.
    + apply IH; [lia|lia|]. intros j Hj'. destruct (Z.eq_dec j i) as [->|]; [lia|]. apply Hj. lia.
Qed.

Lemma dbov_index_spec E : 1 <= E <= 2147483647 ->
  let r := dbov_index E in
  (r = 94 \/ (1 <= r <= 92 /\ rd WebRtcCng_kDbov r < E)) /\
  forall j, 1 <= j < Z.min r 93 -> E <= rd WebRtcCng_kDbov j.
Proof. intros H. apply search_spec; [exact H|lia|reflexivity|lia]. Qed.

(** The packet [Encode] writes. *)
Definition sid_packet (inst : WebRtcCngEncoder) (SIDdata : list Z) : list Z :=
  for_up 0 (Z.to_nat (enc_nrOfCoefs inst))
    (fun i s => wr s (i + 1) (quantize (enc_nrOfCoefs inst) (rd (enc_reflCoefs inst) i)))
    (wr SIDdata 0 (u8 (dbov_index (enc_Energy inst)))).

Lemma set_ms_ok e ms : enc_ok e -> in_s16 ms -> enc_ok (set_ms e ms).
Proof. intros [? ? ? ? ? ? ? ? ? ?] H. now split. Qed.

Lemma DivW32W16_s32 a b : in_s32 (WebRtcSpl_DivW32W16 a b).
Proof. unfold WebRtcSpl_DivW32W16. case_if; [apply s32_range|int_lia]. Qed.

(** A frame that is analysed: either the filter is unstable and nothing
    changes, or the averages move and a packet is written when it is due, or
    the frame is shorter than it says or than the order. *)
Lemma Encode_cases inst speech n SID b force w :
  enc_ok inst -> 0 <= n <= 640 ->
  (WebRtcCng_Encode inst speech n SID b force w = None /\ (zlen speech < n \/ n < enc_nrOfCoefs inst)) \/
  WebRtcCng_Encode inst speech n SID b force w = Some (inst, SID, 0, 0) \/
  exists e, enc_ok e /\ 1 <= enc_Energy e /\ enc_nrOfCoefs e = enc_nrOfCoefs inst /\
    e_errorcode e = e_errorcode inst /\
    WebRtcCng_Encode inst speech n SID b force w =
      if (enc_interval inst - 1 <? enc_msSinceSID inst) || force
      then if zlen SID <? enc_nrOfCoefs inst + 1 then None
           else Some (e, sid_packet e SID, enc_nrOfCoefs e + 1, enc_nrOfCoefs e + 1)
      else Some (e, SID, 0, 0).
Proof.
  intros He Hn. pose proof (ok_init _ He) as Hi. pose proof (ok_fs _ He) as Hf.
  unfold WebRtcCng_Encode. rewrite Hi. change (negb (1 =? 1)) with false. cbn match. cbv zeta.
  replace (WEBRTC_CNG_MAX_OUTSIZE_ORDER <? n) with false by (unfold WEBRTC_CNG_MAX_OUTSIZE_ORDER; lia).
  destruct (Z.ltb_spec (zlen speech) n); [left; auto|].
  destruct (WebRtcSpl_Energy _ _) as [en sh]. destruct (scale_energy _ _ _ _) as [en2 fac].
  pose proof (DivW32W16_s32 en2 (s16 fac)) as Hen.
  set (E := WebRtcSpl_DivW32W16 en2 (s16 fac)) in *. clearbody E.
  destruct ((1 <? E) && (n <? enc_nrOfCoefs inst)) eqn:Eshort; [left; split; [reflexivity|bool_lia]|right].
  match goal with |- context [match ?o with Some _ => _ | None => _ end] => destruct o as [refCs|] eqn:Eo end;
    [|now left].
  assert (Hr : forall i, in_s16 (rd refCs i)).
  { intros i. revert Eo. case_if; intros Eo.
    - apply words_rd with 13. eapply analyse_words; eassumption.
    - injection Eo as <-. apply Forall_rd; [int_lia|]. apply words_zeros. pose proof (ok_coefs _ He). lia. }
  destruct (average_ok inst refCs E force He Hen Hr) as [Ha Hpos].
  unfold frame_ms. change (enc_sampfreq (average inst refCs E force)) with (enc_sampfreq inst).
  replace (enc_sampfreq inst =? 0) with false by lia. right.
  set (ms := s16 (_ / _)). set (a := average inst refCs E force) in *.
  change (enc_interval a) with (enc_interval inst). change (enc_msSinceSID a) with (enc_msSinceSID inst).
  exists (set_ms a (if (enc_interval inst - 1 <? enc_msSinceSID inst) || force then s16 (0 + ms)
                    else s16 (enc_msSinceSID inst + ms))).
  split; [apply set_ms_ok; [exact Ha|case_if; apply s16_range]|]. split; [exact Hpos|].
  split; [reflexivity|]. split; [reflexivity|]. destruct (_ || force); [|reflexivity].
  change (enc_nrOfCoefs a) with (enc_nrOfCoefs inst). now destruct (_ <? _).
Qed.

Lemma rd_sid_packet e SID i :
  1 <= enc_nrOfCoefs e -> enc_nrOfCoefs e + 1 <= zlen SID -> 0 <= i <= enc_nrOfCoefs e ->
  rd (sid_packet e SID) i =
    if i =? 0 then u8 (dbov_index (enc_Energy e))
    else quantize (enc_nrOfCoefs e) (rd (enc_reflCoefs e) (i - 1)).
Proof.
  intros Ho Hz Hi. unfold sid_packet. set (q := fun i => quantize (enc_nrOfCoefs e) (rd (enc_reflCoefs e) i)).
  set (a := wr SID 0 _).
  assert (H : forall m, (Z.of_nat m <= enc_nrOfCoefs e) -> forall j, 0 <= j <= enc_nrOfCoefs e ->
    rd (for_up 0 m (fun i s => wr s (i + 1) (q i)) a) j =
      if (1 <=? j) && (j <=? Z.of_nat m) then q (j - 1) else rd a j).
  { intros m Hm j Hj.
    pose proof (for_up_inv (fun k s => zlen s = zlen SID /\
      rd s j = if (1 <=? j) && (j <=? k) then q (j - 1) else rd a j)
      (fun i s => wr s (i + 1) (q i)) m 0 a) as H. cbv beta in H.
    rewrite Z.add_0_l in H. apply H.
    - split; [apply zlen_wr|ifs_lia].
    - clear H. intros k s Hk [Hs Hr]. rewrite zlen_wr. split; [exact Hs|].
      destruct (Z.eq_dec j (k + 1)) as [->|Hne].
      + rewrite rd_wr_eq by lia. rewrite Z.add_simpl_r. ifs_lia.
      + rewrite rd_wr_ne, Hr by lia. ifs_lia. }
  rewrite H, Z2Nat.id by lia. subst a.
  destruct (Z.eqb_spec i 0) as [->|].
  - cbn [andb Z.leb Z.compare]. now rewrite rd_wr_eq by lia.
  - replace ((1 <=? i) && (i <=? enc_nrOfCoefs e)) with true; [reflexivity|].
    symmetry. apply andb_true_iff. lia.
Qed.

Lemma zlen_sid_packet e SID : zlen (sid_packet e SID) = zlen SID.
Proof.
  unfold sid_packet.
  rewrite (zlen_for_wr (fun i _ => quantize (enc_nrOfCoefs e) (rd (enc_reflCoefs e) i)) (fun i => i + 1)).
  apply zlen_wr.
Qed.

Lemma sid_packet_bytes e SID : Forall in_u8 SID -> Forall in_u8 (sid_packet e SID).
Proof.
  intros H. unfold sid_packet. apply for_up_pres; [apply Forall_wr; [apply u8_range|exact H]|].
  intros k s _ Hs. apply Forall_wr; [|exact Hs]. unfold quantize. case_if; apply u8_range.
Qed.

(** ** The properties *)

(** A comfort noise packet gives the decoder what the encoder described.
    When [Encode] has written a packet and the decoder is updated with it, the
    decoder has the order of the encoder; a coefficient is the encoder's
    rounded to eight bits, except that one of at least 32640 arrives as
    -32768; the coefficients beyond the order are 0; and the target energy is
    five eighths of a table entry that is below the encoder's energy while
    every earlier entry but the first is not. *)
Theorem cng_sid_roundtrip inst speech n SID0 b force w inst' SID b' r d :
  enc_ok inst -> 0 <= n <= 640 -> Forall in_u8 SID0 -> enc_nrOfCoefs inst + 1 <= zlen SID0 ->
  WebRtcCng_Encode inst speech n SID0 b force w = Some (inst', SID, b', r) -> 0 < r ->
  d_initflag d = 1 -> dec_ok d ->
  let order := enc_nrOfCoefs inst in
  exists d' SID', WebRtcCng_UpdateSid d SID b' = Some (d', SID', 0) /\
    dec_order d' = order /\
    (forall i, 0 <= i < order ->
       let c := rd (enc_reflCoefs inst') i in
       rd (dec_target_reflCoefs d') i = if c <? 32640 then 256 * ((c + 128) / 256) else -32768) /\
    (forall i, order <= i < 12 -> rd (dec_target_reflCoefs d') i = 0) /\
    exists k, 1 <= k <= 93 /\ dec_target_energy d' = sid_energy k /\
      (rd WebRtcCng_kDbov k < enc_Energy inst' \/ k = 93) /\
      forall j, 1 <= j < k -> enc_Energy inst' <= rd WebRtcCng_kDbov j.
Proof.
  intros He Hn HS Hz E Hr Hd Hdok order.
  destruct (Encode_cases inst speech n SID0 b force w He Hn)
    as [[Eq _]|[Eq|(e & Hok & Hpos & Ho & _ & Eq)]];
    rewrite Eq in E; [discriminate E|injection E as <- <- <- <-; lia|].
  replace (zlen SID0 <? enc_nrOfCoefs inst + 1) with false in E by lia.
  destruct (_ || force); injection E as <- <- <- <-; [|lia]. clear Eq.
  pose proof (ok_coefs _ Hok) as Hco. pose proof (ok_energy _ Hok) as Hen.
  assert (Hb : enc_nrOfCoefs e + 1 = order + 1) by (unfold order; lia).
  destruct (UpdateSid_eq d (sid_packet e SID0) (enc_nrOfCoefs e + 1) Hd (sid_packet_bytes e SID0 HS)
    ltac:(lia) ltac:(rewrite zlen_sid_packet; lia) (ok_target _ Hdok)) as (coefs & S' & Eu & _ & Hc).
  replace (Z.min 12 (enc_nrOfCoefs e + 1 - 1)) with order in * by (unfold order; lia).
  do 2 eexists. split; [exact Eu|]. split; [reflexivity|]. cbn [dec_target_reflCoefs set_target dec_target_energy].
  split; [|split].
  - intros i Hi. set (c := rd (enc_reflCoefs e) i). rewrite Hc by (unfold order in *; lia). replace (i <? order) with true by lia.
    rewrite rd_sid_packet by (unfold order in *; lia). replace (i + 1 =? 0) with false by lia.
    rewrite Z.add_simpl_r. fold c. replace (enc_nrOfCoefs e) with order by (unfold order; lia).
    apply dequantize_quantize. apply words_rd with 13. apply Hok.
  - intros i Hi. rewrite Hc by (unfold order in *; lia). now replace (i <? order) with false by lia.
  - rewrite rd_sid_packet by lia. cbn [Z.eqb].
    destruct (dbov_index_spec (enc_Energy e) ltac:(int_lia)) as [Hi Hj].
    set (k := dbov_index (enc_Energy e)) in *. exists (Z.min 93 k).
    assert (1 <= k <= 94) by lia. rewrite u8_id by int_lia. split; [lia|].
    split; [unfold sid_energy; now replace (Z.min 93 (Z.min 93 k)) with (Z.min 93 k) by lia|].
    split; [|intros j Hj'; apply Hj; lia].
    destruct Hi as [->|[Hk Hlt]]; [now right|left]. now replace (Z.min 93 k) with k by lia.
Qed.

Lemma cng_refused inst speech n SID b force w :
  e_initflag inst = 1 -> 640 < n ->
  WebRtcCng_Encode inst speech n SID b force w =
    Some (set_e_errorcode inst CNG_DISALLOWED_FRAME_SIZE, SID, b, -1).
Proof.
  intros Hi Hb. unfold WebRtcCng_Encode. rewrite Hi. cbn [negb Z.eqb].
  unfold WEBRTC_CNG_MAX_OUTSIZE_ORDER. now replace (640 <? n) with true by lia.
Qed.

(** What [Encode] does in each case: an instance that is not initialised and
    a frame of more than 640 samples are refused with -1 and their error
    codes, nothing else changed; every other frame gives a packet of one byte
    more than the order when one is due, or none, then without touching the
    packet buffer, and without a fault when the frame has as many samples as it
    says and as the order, and the packet buffer room for the packet. *)
Theorem cng_encode_contract inst speech n SID b force w :
  0 <= n ->
  (e_initflag inst <> 1 ->
     WebRtcCng_Encode inst speech n SID b force w =
       Some (set_e_errorcode inst CNG_ENCODER_NOT_INITIATED, SID, b, -1)) /\
  (e_initflag inst = 1 -> 640 < n ->
     WebRtcCng_Encode inst speech n SID b force w =
       Some (set_e_errorcode inst CNG_DISALLOWED_FRAME_SIZE, SID, b, -1)) /\
  (enc_ok inst -> n <= 640 -> enc_nrOfCoefs inst <= n <= zlen speech ->
   enc_nrOfCoefs inst + 1 <= zlen SID ->
     exists inst' SID' r,
       WebRtcCng_Encode inst speech n SID b force w = Some (inst', SID', r, r) /\
       enc_ok inst' /\ e_errorcode inst' = e_errorcode inst /\ zlen SID' = zlen SID /\
       (r = 0 /\ SID' = SID \/
        r = enc_nrOfCoefs inst + 1 /\
        (force = true \/ enc_interval inst <= enc_msSinceSID inst))).
Proof.
  intros Hn. split; [|split].
  - intros Hi. unfold WebRtcCng_Encode. now replace (e_initflag inst =? 1) with false by lia.
  - apply cng_refused.
  - intros He Hm Hs Hz. destruct (Encode_cases inst speech n SID b force w He (conj Hn Hm))
      as [[_ ?]|[Eq|(e & Hok & _ & Ho & Hc & Eq)]]; [lia|rewrite Eq..].
    + do 3 eexists. split; [reflexivity|]. auto 6.
    + replace (zlen SID <? enc_nrOfCoefs inst + 1) with false by lia. destruct (_ || force) eqn:Ef.
      * do 3 eexists. split; [reflexivity|]. rewrite zlen_sid_packet, Ho.
        do 3 (split; [auto|]). right. split; [reflexivity|].
        apply orb_true_iff in Ef. destruct Ef; [right; lia|now left].
      * do 3 eexists. split; [reflexivity|]. auto 6.
Qed.

(** Every state an encoder can reach. *)
Inductive encoder : WebRtcCngEncoder -> Prop :=
| enc_start fs interval quality e :
    in_s32 fs -> fs <> 0 -> in_s16 interval -> in_s16 quality ->
    WebRtcCng_InitEnc fs interval quality = (e, 0) -> encoder e
| enc_frame e speech n SID b force w e' SID' b' r :
    encoder e -> Forall in_s16 speech -> 0 <= n -> Forall in_u8 SID ->
    WebRtcCng_Encode e speech n SID b force w = Some (e', SID', b', r) -> encoder e'.

Lemma encoder_ok e : encoder e -> enc_ok e.
Proof.
  induction 1 as [fs interval quality e ? ? ? ? E|e speech n SID b force w e' SID' b' r _ He _ Hn _ E].
  - unfold WebRtcCng_InitEnc in E. destruct (_ || _) eqn:Eq; [discriminate E|]. injection E as <-.
    unfold WEBRTC_CNG_MAX_LPC_ORDER in Eq. split; cbn; try apply words_z13; auto; try int_lia.
  - destruct (Z.le_gt_cases n 640) as [Hm|Hm].
    + destruct (Encode_cases e speech n SID b force w He (conj Hn Hm))
        as [[Eq _]|[Eq|(f & Hf & _ & _ & _ & Eq)]];
        rewrite Eq in E; [discriminate E|injection E as <- <- <- <-; exact He|].
      destruct (_ || force); [destruct (_ <? _); [discriminate E|]|]; injection E as <- <- <- <-; exact Hf.
    + rewrite (cng_refused e speech n SID b force w (ok_init _ He)) in E by lia. injection E as <- <- <- <-.
      destruct He. split; cbn; auto.
Qed.


(** ** Witnesses: a frame of noise at 8 kHz, order 5 *)

Definition demo_enc : WebRtcCngEncoder := fst (WebRtcCng_InitEnc 8000 100 5).
Definition demo_noise : list Z := tabulate 160 (fun i => (i * 37 mod 101 - 50) * 20).

Lemma demo_enc_reached : encoder demo_enc.
Proof. apply (enc_start 8000 100 5); [int_lia|discriminate|int_lia|int_lia|reflexivity]. Qed.

Lemma cng_sid_roundtrip_witness :
  exists inst' SID,
    WebRtcCng_Encode demo_enc demo_noise 160 (zeros 13) 0 true (zeros 160) = Some (inst', SID, 6, 6) /\
    exists d' SID', WebRtcCng_UpdateSid WebRtcCng_InitDec SID 6 = Some (d', SID', 0) /\
      dec_order d' = 5 /\ rd (dec_target_reflCoefs d') 0 = 12800 /\ rd (enc_reflCoefs inst') 0 = 12862.
Proof.
  destruct (WebRtcCng_Encode demo_enc demo_noise 160 (zeros 13) 0 true (zeros 160))
    as [[[[inst' SID] b'] r]|] eqn:E; [|vm_compute in E; discriminate E].
  assert (Ei : rd (enc_reflCoefs inst') 0 = 12862 /\ b' = 6 /\ r = 6)
    by (vm_compute in E; injection E as <- <- <- <-; auto).
  destruct Ei as (Ei & -> & ->).
  destruct (cng_sid_roundtrip demo_enc demo_noise 160 (zeros 13) 0 true (zeros 160) inst' SID 6 6
    WebRtcCng_InitDec (encoder_ok _ demo_enc_reached) ltac:(lia)
    ltac:(apply Forall_forall; intros x Hx; apply repeat_spec in Hx; subst; int_lia)
    ltac:(vm_compute; discriminate) E ltac:(lia) eq_refl InitDec_ok)
    as (d' & SID' & Eu & Ho & Hc & _).
  exists inst', SID. split; [reflexivity|]. exists d', SID'. split; [exact Eu|]. split; [exact Ho|].
  split; [|exact Ei]. specialize (Hc 0 (conj (Z.le_refl 0) eq_refl)). cbv zeta in Hc.
  rewrite Ei in Hc. exact Hc.
Defined.

Lemma cng_encode_contract_witness :
  0 <= 160 /\
  exists inst' SID' r,
    WebRtcCng_Encode demo_enc demo_noise 160 (zeros 13) 0 false (zeros 160) = Some (inst', SID', r, r) /\
    enc_ok inst'.
Proof.
  split; [lia|].
  destruct (cng_encode_contract demo_enc demo_noise 160 (zeros 13) 0 false (zeros 160) ltac:(lia))
    as (_ & _ & H).
  destruct (H (encoder_ok _ demo_enc_reached) ltac:(lia) ltac:(vm_compute; split; discriminate)
    ltac:(vm_compute; discriminate)) as (i & S & r & E & Hok & _).
  exists i, S, r. split; [exact E|exact Hok].
Defined.

(** The decoder after a packet of energy byte 200, which is capped to 93. *)
Definition demo_dec : WebRtcCngDecoder :=
  match WebRtcCng_UpdateSid WebRtcCng_InitDec [200; 130; 120] 3 with
  | Some (d, _, _) => d
  | None => WebRtcCng_InitDec
  end.

Lemma demo_bytes : Forall in_u8 [200; 130; 120].
Proof. repeat constructor; int_lia. Qed.

Lemma demo_dec_reached : decoder demo_dec.
Proof.
  eapply (dec_sid WebRtcCng_InitDec [200; 130; 120] 3); [constructor|apply demo_bytes|lia|].
  vm_compute. reflexivity.
Qed.


(** A frame of fewer samples than the order passes the size check. *)
Example cng_short_frame_faults :
  WebRtcCng_Encode demo_enc [1000; -1000; 1000; -1000] 4 (zeros 13) 0 true (zeros 640) = None.
Proof. vm_compute. reflexivity. Qed.

Example cng_generate_run :
  match WebRtcCng_UpdateSid WebRtcCng_InitDec [40; 130; 120; 127] 4 with
  | Some (d, _, _) =>
      match WebRtcCng_Generate d (zeros 30) 30 true with
      | Some (_, out, r) => Some (firstn 5 out, r)
      | None => None
      end
  | None => None
  end = Some ([-151; 64; 131; -326; -144], 0).
Proof. vm_compute. reflexivity. Qed.
End Cng.
