(* ===== verification/Vad.v ===== *)
(** * The voice activity detector

    Models vad_core.c, vad_gmm.c, vad_sp.c, vad_filterbank.c, webrtc_vad.c and
    vad_core.h of src/orbit/webrtc/common_audio/vad/: the filter bank that
    measures the energy of six frequency bands, the Gaussian mixture model of
    noise and speech, the tracking of the feature minimum, the decision with
    its hangover, and the interface with its checks. *)

From S2P Require Import Prelude SplInl SplMath SplVector SplResample.
Import SplInl SplMath SplVector SplResample.

Module Vad.

(** ** vad_core.h *)

Definition kNumChannels : Z := 6.
Definition kNumGaussians : Z := 2.
Definition kTableSize : Z := kNumChannels * kNumGaussians.
Definition kMinEnergy : Z := 10.

Record VadInstT := mk_vad {
  vad : Z;
  downsampling_filter_states : list Z;
  state_48_to_8 : WebRtcSpl_State48khzTo8khz;
  noise_means : list Z;
  speech_means : list Z;
  noise_stds : list Z;
  speech_stds : list Z;
  frame_counter : Z;
  over_hang : Z;
  num_of_speech : Z;
  index_vector : list Z;
  low_value_vector : list Z;
  mean_value : list Z;
  upper_state : list Z;
  lower_state : list Z;
  hp_filter_state : list Z;
  over_hang_max_1 : list Z;
  over_hang_max_2 : list Z;
  individual : list Z;
  total : list Z;
  init_flag : Z
}.

(** Assignments to the fields of [*self]. *)
Definition set_vad (self : VadInstT) (v : Z) : VadInstT :=
  mk_vad v (downsampling_filter_states self) (state_48_to_8 self) (noise_means self)
    (speech_means self) (noise_stds self) (speech_stds self) (frame_counter self)
    (over_hang self) (num_of_speech self) (index_vector self) (low_value_vector self)
    (mean_value self) (upper_state self) (lower_state self) (hp_filter_state self)
    (over_hang_max_1 self) (over_hang_max_2 self) (individual self) (total self)
    (init_flag self).

Definition set_downsampling (self : VadInstT) (s : list Z) : VadInstT :=
  mk_vad (vad self) s (state_48_to_8 self) (noise_means self) (speech_means self)
    (noise_stds self) (speech_stds self) (frame_counter self) (over_hang self)
    (num_of_speech self) (index_vector self) (low_value_vector self) (mean_value self)
    (upper_state self) (lower_state self) (hp_filter_state self) (over_hang_max_1 self)
    (over_hang_max_2 self) (individual self) (total self) (init_flag self).

Definition set_48_to_8 (self : VadInstT) (s : WebRtcSpl_State48khzTo8khz) : VadInstT :=
  mk_vad (vad self) (downsampling_filter_states self) s (noise_means self) (speech_means self)
    (noise_stds self) (speech_stds self) (frame_counter self) (over_hang self)
    (num_of_speech self) (index_vector self) (low_value_vector self) (mean_value self)
    (upper_state self) (lower_state self) (hp_filter_state self) (over_hang_max_1 self)
    (over_hang_max_2 self) (individual self) (total self) (init_flag self).

Definition set_models (self : VadInstT) (nm : list Z) (sm : list Z) (ns : list Z) (ss : list Z) : VadInstT :=
  mk_vad (vad self) (downsampling_filter_states self) (state_48_to_8 self) nm sm ns ss
    (frame_counter self) (over_hang self) (num_of_speech self) (index_vector self)
    (low_value_vector self) (mean_value self) (upper_state self) (lower_state self)
    (hp_filter_state self) (over_hang_max_1 self) (over_hang_max_2 self) (individual self)
    (total self) (init_flag self).

Definition set_frame_counter (self : VadInstT) (n : Z) : VadInstT :=
  mk_vad (vad self) (downsampling_filter_states self) (state_48_to_8 self) (noise_means self)
    (speech_means self) (noise_stds self) (speech_stds self) n (over_hang self)
    (num_of_speech self) (index_vector self) (low_value_vector self) (mean_value self)
    (upper_state self) (lower_state self) (hp_filter_state self) (over_hang_max_1 self)
    (over_hang_max_2 self) (individual self) (total self) (init_flag self).

Definition set_hang (self : VadInstT) (oh : Z) (ns : Z) : VadInstT :=
  mk_vad (vad self) (downsampling_filter_states self) (state_48_to_8 self) (noise_means self)
    (speech_means self) (noise_stds self) (speech_stds self) (frame_counter self) oh ns
    (index_vector self) (low_value_vector self) (mean_value self) (upper_state self)
    (lower_state self) (hp_filter_state self) (over_hang_max_1 self) (over_hang_max_2 self)
    (individual self) (total self) (init_flag self).

Definition set_minimum (self : VadInstT) (age : list Z) (low : list Z) (mean : list Z) : VadInstT :=
  mk_vad (vad self) (downsampling_filter_states self) (state_48_to_8 self) (noise_means self)
    (speech_means self) (noise_stds self) (speech_stds self) (frame_counter self)
    (over_hang self) (num_of_speech self) age low mean (upper_state self) (lower_state self)
    (hp_filter_state self) (over_hang_max_1 self) (over_hang_max_2 self) (individual self)
    (total self) (init_flag self).

Definition set_filters (self : VadInstT) (up : list Z) (lo : list Z) (hp : list Z) : VadInstT :=
  mk_vad (vad self) (downsampling_filter_states self) (state_48_to_8 self) (noise_means self)
    (speech_means self) (noise_stds self) (speech_stds self) (frame_counter self)
    (over_hang self) (num_of_speech self) (index_vector self) (low_value_vector self)
    (mean_value self) up lo hp (over_hang_max_1 self) (over_hang_max_2 self) (individual self)
    (total self) (init_flag self).

Definition set_mode (self : VadInstT) (m1 : list Z) (m2 : list Z) (ind : list Z) (tot : list Z) : VadInstT :=
  mk_vad (vad self) (downsampling_filter_states self) (state_48_to_8 self) (noise_means self)
    (speech_means self) (noise_stds self) (speech_stds self) (frame_counter self)
    (over_hang self) (num_of_speech self) (index_vector self) (low_value_vector self)
    (mean_value self) (upper_state self) (lower_state self) (hp_filter_state self) m1 m2 ind tot
    (init_flag self).

(** ** vad_gmm.c *)

Definition kCompVar : Z := 22005.
Definition kLog2Exp : Z := 5909.

(** The probability and [*delta]. *)
Definition WebRtcVad_GaussianProbability (input mean std : Z) : Z * Z :=
  let tmp32 := s32 (131072 + Z.shiftr std 1) in
  let inv_std := s16 (WebRtcSpl_DivW32W16 tmp32 std) in
  let tmp16 := Z.shiftr inv_std 2 in
  let inv_std2 := s16 (Z.shiftr (tmp16 * tmp16) 2) in
  let tmp16 := s16 (Z.shiftl input 3) in
  let tmp16 := s16 (tmp16 - mean) in
  let delta := s16 (Z.shiftr (inv_std2 * tmp16) 10) in
  let tmp32 := Z.shiftr (delta * tmp16) 9 in
  let exp_value :=
    if tmp32 <? kCompVar then
      let tmp16 := s16 (Z.shiftr (s32 (kLog2Exp * tmp32)) 12) in
      let tmp16 := s16 (- tmp16) in
      let exp_value := Z.lor 0x0400 (Z.land tmp16 0x03FF) in
      let tmp16 := s16 (Z.lxor tmp16 0xFFFF) in
      let tmp16 := Z.shiftr tmp16 10 in
      let tmp16 := s16 (tmp16 + 1) in
      Z.shiftr exp_value tmp16
    else 0 in
  (inv_std * exp_value, delta).

(** ** vad_sp.c *)

Definition kAllPassCoefsQ13 : list Z := [5243; 1392].
Definition kSmoothingDown : Z := 6553.
Definition kSmoothingUp : Z := 32439.

(** [signal_out] and [filter_state], whose two numbers are at [fp]. *)
Definition WebRtcVad_Downsampling (signal_in signal_out filter_state : list Z) (fp in_length : Z)
    : list Z * list Z :=
  let half_length := in_length / 2 in
  let '(signal_out, tmp32_1, tmp32_2) :=
    for_up 0 (Z.to_nat half_length) (fun n '(signal_out, tmp32_1, tmp32_2) =>
      let x := rd signal_in (2 * n) in
      let tmp16_1 := s16 (Z.shiftr tmp32_1 1 + Z.shiftr (rd kAllPassCoefsQ13 0 * x) 14) in
      let tmp32_1 := s32 (x - Z.shiftr (rd kAllPassCoefsQ13 0 * tmp16_1) 12) in
      let x := rd signal_in (2 * n + 1) in
      let tmp16_2 := s16 (Z.shiftr tmp32_2 1 + Z.shiftr (rd kAllPassCoefsQ13 1 * x) 14) in
      let tmp32_2 := s32 (x - Z.shiftr (rd kAllPassCoefsQ13 1 * tmp16_2) 12) in
      (wr signal_out n (s16 (tmp16_1 + tmp16_2)), tmp32_1, tmp32_2))
      (signal_out, rd filter_state fp, rd filter_state (fp + 1)) in
  (signal_out, wr (wr filter_state fp tmp32_1) (fp + 1) tmp32_2).

(** The ageing of the sixteen values from [offset] on: [age] and
    [smallest_values].  A value of age 100 is removed by moving the later ones
    down, reading one place past the sixteen. *)
Definition age_values (offset : Z) (s : list Z * list Z) : list Z * list Z :=
  for_up 0 16 (fun i '(age, smallest_values) =>
    if negb (rd age (offset + i) =? 100) then
      (wr age (offset + i) (s16 (rd age (offset + i) + 1)), smallest_values)
    else
      let '(age, smallest_values) :=
        for_up i (Z.to_nat (16 - i)) (fun j '(age, smallest_values) =>
          let smallest_values := wr smallest_values (offset + j) (rd smallest_values (offset + j + 1)) in
          (wr age (offset + j) (rd age (offset + j + 1)), smallest_values))
          (age, smallest_values) in
      (wr age (offset + 15) 101, wr smallest_values (offset + 15) 10000)) s.

(** The nested comparisons that locate [feature_value] among the sixteen. *)
Definition find_position (v : Z -> Z) (feature_value : Z) : Z :=
  let lt := fun i => feature_value <? v i in
  if lt 7 then
    if lt 3 then
      if lt 1 then if lt 0 then 0 else 1
      else if lt 2 then 2
      else 3
    else if lt 5 then if lt 4 then 4 else 5
    else if lt 6 then 6
    else 7
  else if lt 15 then
    if lt 11 then
      if lt 9 then if lt 8 then 8 else 9
      else if lt 10 then 10
      else 11
    else if lt 13 then if lt 12 then 12 else 13
    else if lt 14 then 14
    else 15
  else -1.

(** The insertion at [position], the larger values moving up. *)
Definition insert_value (offset position feature_value : Z) (s : list Z * list Z)
    : list Z * list Z :=
  if -1 <? position then
    let '(age, smallest_values) :=
      for_down 15 (Z.to_nat (15 - position)) (fun i '(age, smallest_values) =>
        let smallest_values := wr smallest_values (offset + i) (rd smallest_values (offset + i - 1)) in
        (wr age (offset + i) (rd age (offset + i - 1)), smallest_values)) s in
    (wr age (offset + position) 1, wr smallest_values (offset + position) feature_value)
  else s.

(** The smoothed median. *)
Definition smooth_median (frame_counter current_median mean : Z) : Z :=
  let alpha :=
    if 0 <? frame_counter then (if current_median <? mean then kSmoothingDown else kSmoothingUp)
    else 0 in
  let tmp32 := s32 ((alpha + 1) * mean) in
  let tmp32 := s32 (tmp32 + (32767 - alpha) * current_median) in
  let tmp32 := s32 (tmp32 + 16384) in
  s16 (Z.shiftr tmp32 15).

Definition WebRtcVad_FindMinimum (self : VadInstT) (feature_value channel : Z) : VadInstT * Z :=
  let offset := Z.shiftl channel 4 in
  let s := age_values offset (index_vector self, low_value_vector self) in
  let position := find_position (fun i => rd (snd s) (offset + i)) feature_value in
  let '(age, smallest_values) := insert_value offset position feature_value s in
  let current_median :=
    if 2 <? frame_counter self then rd smallest_values (offset + 2)
    else if 0 <? frame_counter self then rd smallest_values offset
    else 1600 in
  let m := smooth_median (frame_counter self) current_median (rd (mean_value self) channel) in
  (set_minimum self age smallest_values (wr (mean_value self) channel m), m).

(** ** vad_filterbank.c *)

Definition kLogConst : Z := 24660.
Definition kLogEnergyIntPart : Z := 14336.
Definition kHpZeroCoefs : list Z := [6631; -13262; 6631].
Definition kHpPoleCoefs : list Z := [16384; -7756; 5620].
Definition kAllPassCoefsQ15 : list Z := [20972; 5571].
Definition kOffsetVector : list Z := [368; 368; 272; 176; 176; 176].

(** [filter_state] and [data_out]. *)
Definition HighPassFilter (data_in : list Z) (data_length : Z) (filter_state data_out : list Z)
    : list Z * list Z :=
  for_up 0 (Z.to_nat data_length) (fun i '(filter_state, data_out) =>
    let tmp32 := s32 (rd kHpZeroCoefs 0 * rd data_in i) in
    let tmp32 := s32 (tmp32 + rd kHpZeroCoefs 1 * rd filter_state 0) in
    let tmp32 := s32 (tmp32 + rd kHpZeroCoefs 2 * rd filter_state 1) in
    let filter_state := wr filter_state 1 (rd filter_state 0) in
    let filter_state := wr filter_state 0 (rd data_in i) in
    let tmp32 := s32 (tmp32 - rd kHpPoleCoefs 1 * rd filter_state 2) in
    let tmp32 := s32 (tmp32 - rd kHpPoleCoefs 2 * rd filter_state 3) in
    let filter_state := wr filter_state 3 (rd filter_state 2) in
    let filter_state := wr filter_state 2 (s16 (Z.shiftr tmp32 14)) in
    (filter_state, wr data_out i (rd filter_state 2))) (filter_state, data_out).

(** Every other sample of [data_in] from [ip] on; [*filter_state] and
    [data_out]. *)
Definition AllPassFilter (data_in : list Z) (ip data_length filter_coefficient filter_state : Z)
    (data_out : list Z) : Z * list Z :=
  let '(state32, data_out) :=
    for_up 0 (Z.to_nat data_length) (fun i '(state32, data_out) =>
      let x := rd data_in (ip + 2 * i) in
      let tmp32 := s32 (state32 + filter_coefficient * x) in
      let tmp16 := s16 (Z.shiftr tmp32 16) in
      let state32 := s32 (s32 (Z.shiftl x 14) - filter_coefficient * tmp16) in
      (s32 (Z.shiftl state32 1), wr data_out i tmp16)) (s32 (Z.shiftl filter_state 16), data_out) in
  (s16 (Z.shiftr state32 16), data_out).

(** [*upper_state], [*lower_state], [hp_data_out] and [lp_data_out]. *)
Definition SplitFilter (data_in : list Z) (data_length upper_state lower_state : Z)
    (hp_data_out lp_data_out : list Z) : Z * Z * list Z * list Z :=
  let half_length := data_length / 2 in
  let '(upper_state, hp) :=
    AllPassFilter data_in 0 half_length (rd kAllPassCoefsQ15 0) upper_state hp_data_out in
  let '(lower_state, lp) :=
    AllPassFilter data_in 1 half_length (rd kAllPassCoefsQ15 1) lower_state lp_data_out in
  let '(hp, lp) := for_up 0 (Z.to_nat half_length) (fun i '(hp, lp) =>
    let tmp_out := rd hp i in
    let hp := wr hp i (s16 (rd hp i - rd lp i)) in
    (hp, wr lp i (s16 (rd lp i + tmp_out)))) (hp, lp) in
  (upper_state, lower_state, hp, lp).

(** [*total_energy] and [*log_energy]. *)
Definition LogOfEnergy (data_in : list Z) (data_length offset total_energy : Z) : Z * Z :=
  let '(en, tot_rshifts) := WebRtcSpl_Energy data_in data_length in
  let energy := u32 en in
  if negb (energy =? 0) then
    let normalizing_rshifts := 17 - WebRtcSpl_NormU32 energy in
    let tot_rshifts := tot_rshifts + normalizing_rshifts in
    let energy :=
      if normalizing_rshifts <? 0 then u32 (Z.shiftl energy (- normalizing_rshifts))
      else Z.shiftr energy normalizing_rshifts in
    let log2_energy := s16 (kLogEnergyIntPart + s16 (Z.shiftr (Z.land energy 0x00003FFF) 4)) in
    let log_energy := s16 (Z.shiftr (s32 (kLogConst * log2_energy)) 19 +
                           Z.shiftr (s32 (tot_rshifts * kLogConst)) 9) in
    let log_energy := if log_energy <? 0 then 0 else log_energy in
    let log_energy := s16 (log_energy + offset) in
    let total_energy :=
      if total_energy <=? kMinEnergy then
        if 0 <=? tot_rshifts then s16 (total_energy + (kMinEnergy + 1))
        else s16 (total_energy + s16 (Z.shiftr energy (- tot_rshifts)))
      else total_energy in
    (total_energy, log_energy)
  else (total_energy, offset).

(** One split, of the band [frequency_band]: the state, and the two halves. *)
Definition split_band (self : VadInstT) (frequency_band : Z) (in_ptr : list Z) (length : Z)
    (hp lp : list Z) : VadInstT * list Z * list Z :=
  let '(u, l, hp, lp) := SplitFilter in_ptr length (rd (upper_state self) frequency_band)
                           (rd (lower_state self) frequency_band) hp lp in
  (set_filters self (wr (upper_state self) frequency_band u)
     (wr (lower_state self) frequency_band l) (hp_filter_state self), hp, lp).

(** The total energy, and the features. *)
Definition WebRtcVad_CalculateFeatures (self : VadInstT) (data_in : list Z) (data_length : Z)
    (features : list Z) : VadInstT * Z * list Z :=
  let half_data_length := data_length / 2 in
  let '(self, hp_120, lp_120) := split_band self 0 data_in data_length (zeros 120) (zeros 120) in
  let '(self, hp_60, lp_60) := split_band self 1 hp_120 half_data_length (zeros 60) (zeros 60) in
  let length := half_data_length / 2 in
  let '(total_energy, f5) := LogOfEnergy hp_60 length (rd kOffsetVector 5) 0 in
  let '(total_energy, f4) := LogOfEnergy lp_60 length (rd kOffsetVector 4) total_energy in
  let '(self, hp_60, lp_60) := split_band self 2 lp_120 half_data_length hp_60 lp_60 in
  let '(total_energy, f3) := LogOfEnergy hp_60 length (rd kOffsetVector 3) total_energy in
  let '(self, hp_120, lp_120) := split_band self 3 lp_60 length hp_120 lp_120 in
  let length := length / 2 in
  let '(total_energy, f2) := LogOfEnergy hp_120 length (rd kOffsetVector 2) total_energy in
  let '(self, hp_60, lp_60) := split_band self 4 lp_120 length hp_60 lp_60 in
  let length := length / 2 in
  let '(total_energy, f1) := LogOfEnergy hp_60 length (rd kOffsetVector 1) total_energy in
  let '(hp_state, hp_120) := HighPassFilter lp_60 length (hp_filter_state self) hp_120 in
  let self := set_filters self (upper_state self) (lower_state self) hp_state in
  let '(total_energy, f0) := LogOfEnergy hp_120 length (rd kOffsetVector 0) total_energy in
  (self, total_energy,
   wr (wr (wr (wr (wr (wr features 5 f5) 4 f4) 3 f3) 2 f2) 1 f1) 0 f0).

(** ** vad_core.c *)

Definition kSpectrumWeight : list Z := [6; 8; 10; 12; 14; 16].
Definition kNoiseUpdateConst : Z := 655.
Definition kSpeechUpdateConst : Z := 6554.
Definition kBackEta : Z := 154.
Definition kMinimumDifference : list Z := [544; 544; 576; 576; 576; 576].
Definition kMaximumSpeech : list Z := [11392; 11392; 11520; 11520; 11520; 11520].
Definition kMinimumMean : list Z := [640; 768].
Definition kMaximumNoise : list Z := [9216; 9088; 8960; 8832; 8704; 8576].
Definition kNoiseDataWeights : list Z := [34; 62; 72; 66; 53; 25; 94; 66; 56; 62; 75; 103].
Definition kSpeechDataWeights : list Z := [48; 82; 45; 87; 50; 47; 80; 46; 83; 41; 78; 81].
Definition kNoiseDataMeans : list Z :=
  [6738; 4892; 7065; 6715; 6771; 3369; 7646; 3863; 7820; 7266; 5020; 4362].
Definition kSpeechDataMeans : list Z :=
  [8306; 10085; 10078; 11823; 11843; 6309; 9473; 9571; 10879; 7581; 8180; 7483].
Definition kNoiseDataStds : list Z := [378; 1064; 493; 582; 688; 593; 474; 697; 475; 688; 421; 455].
Definition kSpeechDataStds : list Z := [555; 505; 567; 524; 585; 1231; 509; 828; 492; 1540; 1079; 850].
Definition kMaxSpeechFrames : Z := 6.
Definition kMinStd : Z := 384.
Definition kDefaultMode : Z := 0.
Definition kInitCheck : Z := 42.
Definition kOverHangMax1Q : list Z := [8; 4; 3].
Definition kOverHangMax2Q : list Z := [14; 7; 5].
Definition kLocalThresholdQ : list Z := [24; 21; 24].
Definition kGlobalThresholdQ : list Z := [57; 48; 57].
Definition kOverHangMax1LBR : list Z := [8; 4; 3].
Definition kOverHangMax2LBR : list Z := [14; 7; 5].
Definition kLocalThresholdLBR : list Z := [37; 32; 37].
Definition kGlobalThresholdLBR : list Z := [100; 80; 100].
Definition kOverHangMax1AGG : list Z := [6; 3; 2].
Definition kOverHangMax2AGG : list Z := [9; 5; 3].
Definition kLocalThresholdAGG : list Z := [82; 78; 82].
Definition kGlobalThresholdAGG : list Z := [285; 260; 285].
Definition kOverHangMax1VAG : list Z := [6; 3; 2].
Definition kOverHangMax2VAG : list Z := [9; 5; 3].
Definition kLocalThresholdVAG : list Z := [94; 94; 94].
Definition kGlobalThresholdVAG : list Z := [1100; 1050; 1100].

(** [data] and [weights] are the pointers to [channel] in the arrays. *)
Definition WeightedAverage (data : list Z) (channel offset : Z) (weights : list Z) : list Z * Z :=
  for_up 0 (Z.to_nat kNumGaussians) (fun k '(data, weighted_average) =>
    let p := channel + k * kNumChannels in
    let data := wr data p (s16 (rd data p + offset)) in
    (data, s32 (weighted_average + rd data p * rd weights p))) (data, 0).

(** The index of the thresholds for the frame length, then [overhead1],
    [overhead2], [individualTest] and [totalTest]. *)
Definition thresholds (self : VadInstT) (frame_length : Z) : Z * Z * Z * Z :=
  let i := if frame_length =? 80 then 0 else if frame_length =? 160 then 1 else 2 in
  (rd (over_hang_max_1 self) i, rd (over_hang_max_2 self) i, rd (individual self) i,
   rd (total self) i).

(** What the test of the channels gathers. *)
Record lrt := mk_lrt {
  vadflag : Z;
  sum_log_likelihood_ratios : Z;
  deltaN : list Z;
  deltaS : list Z;
  ngprvec : list Z;
  sgprvec : list Z
}.

Definition channel_test (self : VadInstT) (features : list Z) (individualTest channel : Z)
    (l : lrt) : lrt :=
  let x := rd features channel in
  let noise := fun g =>
    let '(p, d) := WebRtcVad_GaussianProbability x (rd (noise_means self) g) (rd (noise_stds self) g) in
    (s32 (rd kNoiseDataWeights g * p), d) in
  let speech := fun g =>
    let '(p, d) := WebRtcVad_GaussianProbability x (rd (speech_means self) g) (rd (speech_stds self) g) in
    (s32 (rd kSpeechDataWeights g * p), d) in
  let g0 := channel in
  let g1 := channel + kNumChannels in
  let '(noise0, dn0) := noise g0 in
  let '(speech0, ds0) := speech g0 in
  let '(noise1, dn1) := noise g1 in
  let '(speech1, ds1) := speech g1 in
  let h0_test := s32 (noise0 + noise1) in
  let h1_test := s32 (speech0 + speech1) in
  let shifts_h0 := if h0_test =? 0 then 31 else s16 (WebRtcSpl_NormW32 h0_test) in
  let shifts_h1 := if h1_test =? 0 then 31 else s16 (WebRtcSpl_NormW32 h1_test) in
  let log_likelihood_ratio := s16 (shifts_h0 - shifts_h1) in
  let h0 := s16 (Z.shiftr h0_test 12) in
  let h1 := s16 (Z.shiftr h1_test 12) in
  let masked := fun p => s32 (Z.shiftl (u32 (Z.land p 0xFFFFF000)) 2) in
  let ngprvec :=
    if 0 <? h0 then
      let v := s16 (WebRtcSpl_DivW32W16 (masked noise0) h0) in
      wr (wr (ngprvec l) channel v) (channel + kNumChannels) (s16 (16384 - v))
    else wr (ngprvec l) channel 16384 in
  let sgprvec :=
    if 0 <? h1 then
      let v := s16 (WebRtcSpl_DivW32W16 (masked speech0) h1) in
      wr (wr (sgprvec l) channel v) (channel + kNumChannels) (s16 (16384 - v))
    else sgprvec l in
  mk_lrt (if individualTest <? Z.shiftl log_likelihood_ratio 2 then 1 else vadflag l)
    (s32 (sum_log_likelihood_ratios l + log_likelihood_ratio * rd kSpectrumWeight channel))
    (wr (wr (deltaN l) g0 dn0) g1 dn1) (wr (wr (deltaS l) g0 ds0) g1 ds1) ngprvec sgprvec.

(** The noise mean of a Gaussian, from its value [nmk]. *)
Definition new_noise_mean (vadflag : Z) (l : lrt) (channel k feature_minimum tmp1_s16 nmk : Z) : Z :=
  let gaussian := channel + k * kNumChannels in
  let nmk2 :=
    if vadflag =? 0 then
      let delt := s16 (Z.shiftr (rd (ngprvec l) gaussian * rd (deltaN l) gaussian) 11) in
      s16 (nmk + s16 (Z.shiftr (delt * kNoiseUpdateConst) 22))
    else nmk in
  let ndelt := s16 (Z.shiftl feature_minimum 4 - tmp1_s16) in
  let nmk3 := s16 (nmk2 + s16 (Z.shiftr (ndelt * kBackEta) 9)) in
  let tmp_s16 := s16 (Z.shiftl (k + 5) 7) in
  let nmk3 := if nmk3 <? tmp_s16 then tmp_s16 else nmk3 in
  let tmp_s16 := s16 (Z.shiftl (72 + k - channel) 7) in
  if tmp_s16 <? nmk3 then tmp_s16 else nmk3.

Definition new_speech_mean (l : lrt) (k gaussian maxspe smk : Z) : Z :=
  let delt := s16 (Z.shiftr (rd (sgprvec l) gaussian * rd (deltaS l) gaussian) 11) in
  let tmp_s16 := s16 (Z.shiftr (delt * kSpeechUpdateConst) 21) in
  let smk2 := s16 (smk + Z.shiftr (tmp_s16 + 1) 1) in
  let maxmu := s16 (maxspe + 640) in
  let smk2 := if smk2 <? rd kMinimumMean k then rd kMinimumMean k else smk2 in
  if maxmu <? smk2 then maxmu else smk2.

Definition new_speech_std (l : lrt) (gaussian feature smk ssk : Z) : Z :=
  let tmp_s16 := s16 (Z.shiftr (smk + 4) 3) in
  let tmp_s16 := s16 (feature - tmp_s16) in
  let tmp1_s32 := Z.shiftr (rd (deltaS l) gaussian * tmp_s16) 3 in
  let tmp2_s32 := s32 (tmp1_s32 - 4096) in
  let tmp_s16 := Z.shiftr (rd (sgprvec l) gaussian) 2 in
  let tmp1_s32 := s32 (tmp_s16 * tmp2_s32) in
  let tmp2_s32 := Z.shiftr tmp1_s32 4 in
  let tmp_s16 :=
    if 0 <? tmp2_s32 then s16 (WebRtcSpl_DivW32W16 tmp2_s32 (s16 (ssk * 10)))
    else s16 (- s16 (WebRtcSpl_DivW32W16 (s32 (- tmp2_s32)) (s16 (ssk * 10)))) in
  let tmp_s16 := s16 (tmp_s16 + 128) in
  let ssk := s16 (ssk + Z.shiftr tmp_s16 8) in
  if ssk <? kMinStd then kMinStd else ssk.

Definition new_noise_std (l : lrt) (gaussian feature nmk nsk : Z) : Z :=
  let tmp_s16 := s16 (feature - Z.shiftr nmk 3) in
  let tmp1_s32 := Z.shiftr (rd (deltaN l) gaussian * tmp_s16) 3 in
  let tmp1_s32 := s32 (tmp1_s32 - 4096) in
  let tmp_s16 := s16 (Z.shiftr (rd (ngprvec l) gaussian + 2) 2) in
  let tmp2_s32 := s32 (tmp_s16 * tmp1_s32) in
  let tmp1_s32 := Z.shiftr tmp2_s32 14 in
  let tmp_s16 :=
    if 0 <? tmp1_s32 then s16 (WebRtcSpl_DivW32W16 tmp1_s32 nsk)
    else s16 (- s16 (WebRtcSpl_DivW32W16 (s32 (- tmp1_s32)) nsk)) in
  let tmp_s16 := s16 (tmp_s16 + 32) in
  let nsk := s16 (nsk + Z.shiftr tmp_s16 6) in
  if nsk <? kMinStd then kMinStd else nsk.

(** The update of one Gaussian of a channel. *)
Definition update_gaussian (features : list Z) (vadflag : Z) (l : lrt)
    (channel maxspe feature_minimum tmp1_s16 k : Z) (self : VadInstT) : VadInstT :=
  let gaussian := channel + k * kNumChannels in
  let nmk := rd (noise_means self) gaussian in
  let smk := rd (speech_means self) gaussian in
  let nsk := rd (noise_stds self) gaussian in
  let ssk := rd (speech_stds self) gaussian in
  let x := rd features channel in
  let nm := wr (noise_means self) gaussian
              (new_noise_mean vadflag l channel k feature_minimum tmp1_s16 nmk) in
  if negb (vadflag =? 0) then
    set_models self nm (wr (speech_means self) gaussian (new_speech_mean l k gaussian maxspe smk))
      (noise_stds self) (wr (speech_stds self) gaussian (new_speech_std l gaussian x smk ssk))
  else
    set_models self nm (speech_means self)
      (wr (noise_stds self) gaussian (new_noise_std l gaussian x nmk nsk)) (speech_stds self).

(** [means[channel + k * kNumChannels] -= v] for both Gaussians. *)
Definition lower_means (means : list Z) (channel v : Z) : list Z :=
  for_up 0 (Z.to_nat kNumGaussians) (fun k means =>
    let p := channel + k * kNumChannels in wr means p (s16 (rd means p - v))) means.

(** The models kept apart and within their limits; the result is [maxspe]. *)
Definition separate_models (channel : Z) (self : VadInstT) : VadInstT * Z :=
  let '(nm, noise_global_mean) := WeightedAverage (noise_means self) channel 0 kNoiseDataWeights in
  let '(sm, speech_global_mean) := WeightedAverage (speech_means self) channel 0 kSpeechDataWeights in
  let diff := s16 (s16 (Z.shiftr speech_global_mean 9) - s16 (Z.shiftr noise_global_mean 9)) in
  let '(nm, noise_global_mean, sm, speech_global_mean) :=
    if diff <? rd kMinimumDifference channel then
      let tmp_s16 := s16 (rd kMinimumDifference channel - diff) in
      let tmp1_s16 := s16 (Z.shiftr (13 * tmp_s16) 2) in
      let tmp2_s16 := s16 (Z.shiftr (3 * tmp_s16) 2) in
      let '(sm, speech_global_mean) := WeightedAverage sm channel tmp1_s16 kSpeechDataWeights in
      let '(nm, noise_global_mean) := WeightedAverage nm channel (s16 (- tmp2_s16)) kNoiseDataWeights in
      (nm, noise_global_mean, sm, speech_global_mean)
    else (nm, noise_global_mean, sm, speech_global_mean) in
  let maxspe := rd kMaximumSpeech channel in
  let tmp2_s16 := s16 (Z.shiftr speech_global_mean 7) in
  let sm := if maxspe <? tmp2_s16 then lower_means sm channel (s16 (tmp2_s16 - maxspe)) else sm in
  let tmp2_s16 := s16 (Z.shiftr noise_global_mean 7) in
  let nm :=
    if rd kMaximumNoise channel <? tmp2_s16
    then lower_means nm channel (s16 (tmp2_s16 - rd kMaximumNoise channel)) else nm in
  (set_models self nm sm (noise_stds self) (speech_stds self), maxspe).

Definition update_channel (features : list Z) (vadflag : Z) (l : lrt) (channel : Z)
    (s : VadInstT * Z) : VadInstT * Z :=
  let '(self, maxspe) := s in
  let '(self, feature_minimum) := WebRtcVad_FindMinimum self (rd features channel) channel in
  let '(nm, noise_global_mean) := WeightedAverage (noise_means self) channel 0 kNoiseDataWeights in
  let self := set_models self nm (speech_means self) (noise_stds self) (speech_stds self) in
  let tmp1_s16 := s16 (Z.shiftr noise_global_mean 6) in
  let self := for_up 0 (Z.to_nat kNumGaussians)
    (update_gaussian features vadflag l channel maxspe feature_minimum tmp1_s16) self in
  separate_models channel self.

(** The hangover after the decision [vadflag]. *)
Definition smooth_decision (self : VadInstT) (vadflag overhead1 overhead2 : Z) : VadInstT * Z :=
  if vadflag =? 0 then
    if 0 <? over_hang self then
      (set_hang self (s16 (over_hang self - 1)) 0, s16 (2 + over_hang self))
    else (set_hang self (over_hang self) 0, vadflag)
  else
    let n := s16 (num_of_speech self + 1) in
    if kMaxSpeechFrames <? n then (set_hang self overhead2 kMaxSpeechFrames, vadflag)
    else (set_hang self overhead1 n, vadflag).

(** The frame's decision before the hangover, and the updated models. *)
Definition classify (self : VadInstT) (features : list Z) (total_power individualTest totalTest : Z)
    : VadInstT * Z :=
  if kMinEnergy <? total_power then
    let z := zeros kTableSize in
    let l := for_up 0 (Z.to_nat kNumChannels) (channel_test self features individualTest)
               (mk_lrt 0 0 z z z z) in
    let flag := Z.lor (vadflag l) (b2z (totalTest <=? sum_log_likelihood_ratios l)) in
    let '(self, _) := for_up 0 (Z.to_nat kNumChannels) (update_channel features flag l) (self, 12800) in
    (set_frame_counter self (s32 (frame_counter self + 1)), flag)
  else (self, 0).

Definition GmmProbability (self : VadInstT) (features : list Z) (total_power frame_length : Z)
    : VadInstT * Z :=
  let '(overhead1, overhead2, individualTest, totalTest) := thresholds self frame_length in
  let '(self, flag) := classify self features total_power individualTest totalTest in
  smooth_decision self flag overhead1 overhead2.

Definition WebRtcVad_set_mode_core (self : VadInstT) (mode : Z) : VadInstT * Z :=
  if mode =? 0 then
    (set_mode self kOverHangMax1Q kOverHangMax2Q kLocalThresholdQ kGlobalThresholdQ, 0)
  else if mode =? 1 then
    (set_mode self kOverHangMax1LBR kOverHangMax2LBR kLocalThresholdLBR kGlobalThresholdLBR, 0)
  else if mode =? 2 then
    (set_mode self kOverHangMax1AGG kOverHangMax2AGG kLocalThresholdAGG kGlobalThresholdAGG, 0)
  else if mode =? 3 then
    (set_mode self kOverHangMax1VAG kOverHangMax2VAG kLocalThresholdVAG kGlobalThresholdVAG, 0)
  else (self, -1).

(** Initialises the object [self] points to. *)
Definition WebRtcVad_InitCore (self : option VadInstT) : option VadInstT * Z :=
  match self with
  | None => (None, -1)
  | Some self =>
      let '(self, r) := WebRtcVad_set_mode_core
        (mk_vad 1 (zeros 4) WebRtcSpl_ResetResample48khzTo8khz
           kNoiseDataMeans kSpeechDataMeans kNoiseDataStds kSpeechDataStds 0 0 0
           (zeros (16 * kNumChannels)) (repeat 10000 (Z.to_nat (16 * kNumChannels)))
           (repeat 1600 (Z.to_nat kNumChannels)) (zeros 5) (zeros 5) (zeros 4)
           (over_hang_max_1 self) (over_hang_max_2 self) (individual self) (total self)
           (init_flag self)) kDefaultMode in
      if negb (r =? 0) then (Some self, -1)
      else
        (Some (mk_vad (vad self) (downsampling_filter_states self) (state_48_to_8 self)
           (noise_means self) (speech_means self) (noise_stds self) (speech_stds self)
           (frame_counter self) (over_hang self) (num_of_speech self) (index_vector self)
           (low_value_vector self) (mean_value self) (upper_state self) (lower_state self)
           (hp_filter_state self) (over_hang_max_1 self) (over_hang_max_2 self)
           (individual self) (total self) kInitCheck), 0)
  end.

Definition WebRtcVad_CalcVad8khz (inst : VadInstT) (speech_frame : list Z) (frame_length : Z)
    : VadInstT * Z :=
  let '(inst, total_power, feature_vector) :=
    WebRtcVad_CalculateFeatures inst speech_frame frame_length (zeros kNumChannels) in
  let '(inst, v) := GmmProbability inst feature_vector total_power frame_length in
  (set_vad inst v, v).

(** [speech_frame] is read from its start at every turn. *)
Definition WebRtcVad_CalcVad48khz (inst : VadInstT) (speech_frame : list Z) (frame_length : Z)
    : VadInstT * Z :=
  let num_10ms_frames := frame_length / 480 in
  let '(inst, speech_nb, _) :=
    for_up 0 (Z.to_nat num_10ms_frames) (fun i '(inst, speech_nb, tmp_mem) =>
      let '(speech_nb, s, tmp_mem) := WebRtcSpl_Resample48khzTo8khz speech_frame 0 speech_nb (i * 80)
                                        (state_48_to_8 inst) tmp_mem in
      (set_48_to_8 inst s, speech_nb, tmp_mem)) (inst, zeros 240, zeros (480 + 256)) in
  WebRtcVad_CalcVad8khz inst speech_nb (frame_length / 6).

Definition WebRtcVad_CalcVad32khz (inst : VadInstT) (speech_frame : list Z) (frame_length : Z)
    : VadInstT * Z :=
  let '(speechWB, st) :=
    WebRtcVad_Downsampling speech_frame (zeros 480) (downsampling_filter_states inst) 2 frame_length in
  let len := frame_length / 2 in
  let '(speechNB, st) := WebRtcVad_Downsampling speechWB (zeros 240) st 0 len in
  let len := len / 2 in
  WebRtcVad_CalcVad8khz (set_downsampling inst st) speechNB len.

Definition WebRtcVad_CalcVad16khz (inst : VadInstT) (speech_frame : list Z) (frame_length : Z)
    : VadInstT * Z :=
  let '(speechNB, st) :=
    WebRtcVad_Downsampling speech_frame (zeros 240) (downsampling_filter_states inst) 0 frame_length in
  let len := frame_length / 2 in
  WebRtcVad_CalcVad8khz (set_downsampling inst st) speechNB len.

(** ** webrtc_vad.c *)

Definition kValidRates : list Z := [8000; 16000; 32000; 48000].
Definition kMaxFrameLengthMs : Z := 30.

(** The fields of the fresh object are those of the memory it is given; only
    [init_flag] is set. *)
Definition WebRtcVad_Create (memory : VadInstT) : VadInstT :=
  mk_vad (vad memory) (downsampling_filter_states memory) (state_48_to_8 memory)
    (noise_means memory) (speech_means memory) (noise_stds memory) (speech_stds memory)
    (frame_counter memory) (over_hang memory) (num_of_speech memory) (index_vector memory)
    (low_value_vector memory) (mean_value memory) (upper_state memory) (lower_state memory)
    (hp_filter_state memory) (over_hang_max_1 memory) (over_hang_max_2 memory)
    (individual memory) (total memory) 0.

Definition WebRtcVad_Init (handle : option VadInstT) : option VadInstT * Z :=
  WebRtcVad_InitCore handle.

Definition WebRtcVad_set_mode (handle : option VadInstT) (mode : Z) : option VadInstT * Z :=
  match handle with
  | None => (None, -1)
  | Some self =>
      if negb (init_flag self =? kInitCheck) then (Some self, -1)
      else let '(self, r) := WebRtcVad_set_mode_core self mode in (Some self, r)
  end.

(** [for (valid_length_ms = 10; ...; valid_length_ms += 10)]. *)
Fixpoint length_ok (n : nat) (rate ms frame_length : Z) : bool :=
  match n with
  | O => false
  | S n =>
      if ms <=? kMaxFrameLengthMs then
        if frame_length =? u64 (Z.quot rate 1000 * ms) then true
        else length_ok n rate (ms + 10) frame_length
      else false
  end.

Fixpoint rate_ok (rates : list Z) (rate frame_length : Z) : bool :=
  match rates with
  | [] => false
  | r :: rates => if r =? rate then length_ok 3 r 10 frame_length else rate_ok rates rate frame_length
  end.

Definition WebRtcVad_ValidRateAndFrameLength (rate frame_length : Z) : Z :=
  if rate_ok kValidRates rate frame_length then 0 else -1.

Definition WebRtcVad_Process (handle : option VadInstT) (fs : Z) (audio_frame : option (list Z))
    (frame_length : Z) : option VadInstT * Z :=
  match handle, audio_frame with
  | None, _ => (None, -1)
  | Some self, frame =>
      if negb (init_flag self =? kInitCheck) then (Some self, -1)
      else
        match frame with
        | None => (Some self, -1)
        | Some frame =>
            if negb (WebRtcVad_ValidRateAndFrameLength fs frame_length =? 0) then (Some self, -1)
            else
              let '(self, vad) :=
                if fs =? 48000 then WebRtcVad_CalcVad48khz self frame frame_length
                else if fs =? 32000 then WebRtcVad_CalcVad32khz self frame frame_length
                else if fs =? 16000 then WebRtcVad_CalcVad16khz self frame frame_length
                else if fs =? 8000 then WebRtcVad_CalcVad8khz self frame frame_length
                else (self, -1) in
              (Some self, if 0 <? vad then 1 else vad)
        end
  end.
End Vad.
