(* ===== verification/VadFacts.v ===== *)
(** * The voice activity detector: properties

    The interface's contract in every reachable state, the hangover, the
    tracking of the feature minimum, and what a decision at 48 kHz depends on. *)

From S2P Require Import Prelude SplInl SplMath SplVector SplResample Vad.
Import SplInl SplMath SplVector SplResample Vad.

Module VadFacts.

(** ** The invariant *)

(** A standard deviation of the models: never below the smallest initial one,
    so that it can be divided by. *)
Definition std_ok (x : Z) : Prop := 378 <= x <= 32767.

Record wf_vad (self : VadInstT) : Prop := {
  wv_hang : 0 <= over_hang self <= 14;
  wv_speech : 0 <= num_of_speech self <= 6;
  wv_noise_stds : zlen (noise_stds self) = 12 /\ Forall std_ok (noise_stds self);
  wv_speech_stds : zlen (speech_stds self) = 12 /\ Forall std_ok (speech_stds self);
  wv_max_1 : zlen (over_hang_max_1 self) = 3 /\ Forall (fun x => 0 < x <= 14) (over_hang_max_1 self);
  wv_max_2 : zlen (over_hang_max_2 self) = 3 /\ Forall (fun x => 0 < x <= 14) (over_hang_max_2 self);
  wv_init : init_flag self = kInitCheck
}.

(** The fields the invariant is about, but for the models and the hangover. *)
Definition same_mode (self self' : VadInstT) : Prop :=
  over_hang_max_1 self' = over_hang_max_1 self /\ over_hang_max_2 self' = over_hang_max_2 self /\
  individual self' = individual self /\ total self' = total self /\
  init_flag self' = init_flag self.

(** What the features and the classification leave of the state. *)
Definition same_hang (self self' : VadInstT) : Prop :=
  same_mode self self' /\ over_hang self' = over_hang self /\ num_of_speech self' = num_of_speech self.

Definition same_stds (self self' : VadInstT) : Prop :=
  noise_stds self' = noise_stds self /\ speech_stds self' = speech_stds self.

Definition stds_ok (self : VadInstT) : Prop :=
  (zlen (noise_stds self) = 12 /\ Forall std_ok (noise_stds self)) /\
  (zlen (speech_stds self) = 12 /\ Forall std_ok (speech_stds self)).

Lemma same_hang_refl self : same_hang self self.
Proof. repeat split. Qed.

Lemma same_hang_trans a b c : same_hang a b -> same_hang b c -> same_hang a c.
Proof. unfold same_hang, same_mode. intuition congruence. Qed.

Lemma same_stds_trans a b c : same_stds a b -> same_stds b c -> same_stds a c.
Proof. unfold same_stds. intuition congruence. Qed.

(** ** The features *)

Lemma split_band_same self b p len hp lp self' hp' lp' :
  split_band self b p len hp lp = (self', hp', lp') -> same_hang self self' /\ same_stds self self'.
Proof.
  unfold split_band. destruct (SplitFilter _ _ _ _ _ _) as [[[u l] h] q].
  intros [= <- <- <-]. repeat split.
Qed.

Lemma CalculateFeatures_same self data len f self' t f' :
  WebRtcVad_CalculateFeatures self data len f = (self', t, f') ->
  same_hang self self' /\ same_stds self self'.
Proof.
  unfold WebRtcVad_CalculateFeatures.
  repeat match goal with
  | |- context [split_band ?s ?b ?p ?n ?h ?l] =>
      let E := fresh "E" in destruct (split_band s b p n h l) as [[? ?] ?] eqn:E;
      apply split_band_same in E
  | |- context [LogOfEnergy ?a ?b ?c ?d] => destruct (LogOfEnergy a b c d)
  | |- context [HighPassFilter ?a ?b ?c ?d] => destruct (HighPassFilter a b c d)
  end.
  intros [= <- _ _]. unfold same_hang, same_mode, same_stds in *. cbn. intuition congruence.
Qed.

(** ** The models *)

Lemma FindMinimum_same self x c :
  same_hang self (fst (WebRtcVad_FindMinimum self x c)) /\
  same_stds self (fst (WebRtcVad_FindMinimum self x c)).
Proof.
  unfold WebRtcVad_FindMinimum. destruct (insert_value _ _ _ _). repeat split.
Qed.

Lemma new_speech_std_ok l g x smk ssk : std_ok (new_speech_std l g x smk ssk).
Proof.
  unfold new_speech_std, std_ok, kMinStd. cbv zeta.
  match goal with |- context [s16 (ssk + ?e)] => pose proof (s16_range (ssk + e)) as H;
    revert H; generalize (s16 (ssk + e)) end.
  intros y H. unfold in_s16 in H. destruct (Z.ltb_spec y 384); lia.
Qed.

Lemma new_noise_std_ok l g x nmk nsk : std_ok (new_noise_std l g x nmk nsk).
Proof.
  unfold new_noise_std, std_ok, kMinStd. cbv zeta.
  match goal with |- context [s16 (nsk + ?e)] => pose proof (s16_range (nsk + e)) as H;
    revert H; generalize (s16 (nsk + e)) end.
  intros y H. unfold in_s16 in H. destruct (Z.ltb_spec y 384); lia.
Qed.

Lemma update_gaussian_ok features v l c maxspe fm t k self :
  stds_ok self ->
  same_hang self (update_gaussian features v l c maxspe fm t k self) /\
  stds_ok (update_gaussian features v l c maxspe fm t k self).
Proof.
  intros [[Hn Fn] [Hs Fs]]. unfold update_gaussian. cbv zeta.
  case_if; (split; [repeat split|]); unfold stds_ok; cbn [noise_stds speech_stds set_models];
    rewrite ?zlen_wr; repeat split; auto; apply Forall_wr;
    auto using new_speech_std_ok, new_noise_std_ok.
Qed.

Lemma separate_models_same c self :
  same_hang self (fst (separate_models c self)) /\ same_stds self (fst (separate_models c self)).
Proof.
  unfold separate_models. destruct (WeightedAverage (noise_means self) _ _ _) as [nm ng].
  destruct (WeightedAverage (speech_means self) _ _ _) as [sm sg].
  match goal with |- context [if ?b then _ else _] => destruct b end;
    repeat match goal with
    | |- context [WeightedAverage ?a ?b ?c ?d] => destruct (WeightedAverage a b c d)
    end; repeat split.
Qed.

Lemma stds_ok_same self self' : same_stds self self' -> stds_ok self -> stds_ok self'.
Proof. intros [E1 E2]. unfold stds_ok. now rewrite E1, E2. Qed.

Lemma update_channel_ok features v l c s :
  stds_ok (fst s) ->
  same_hang (fst s) (fst (update_channel features v l c s)) /\
  stds_ok (fst (update_channel features v l c s)).
Proof.
  destruct s as [self maxspe]. cbn [fst]. intros Hs. unfold update_channel.
  pose proof (FindMinimum_same self (rd features c) c) as [H1 E1].
  destruct (WebRtcVad_FindMinimum self (rd features c) c) as [self1 fm]. cbn [fst] in *.
  destruct (WeightedAverage _ _ _ _) as [nm ng].
  set (self2 := set_models self1 _ _ _ _).
  assert (H2 : same_hang self self2 /\ stds_ok self2).
  { split; [exact H1|]. apply (stds_ok_same self self2); [exact E1|exact Hs]. }
  set (self3 := for_up 0 _ _ _).
  assert (H3 : same_hang self self3 /\ stds_ok self3).
  { unfold self3. apply (for_up_pres (fun x => same_hang self x /\ stds_ok x)); [exact H2|].
    intros k t _ [Ha Hb]. destruct (update_gaussian_ok features v l c maxspe fm (s16 (Z.shiftr ng 6)) k t Hb).
    split; [now apply (same_hang_trans _ t)|assumption]. }
  destruct (separate_models_same c self3) as [H4 E4]. destruct H3 as [H3 S3]. split.
  - now apply (same_hang_trans _ self3).
  - now apply (stds_ok_same self3).
Qed.

Lemma channel_test_flag self features ind c l :
  vadflag l = 0 \/ vadflag l = 1 ->
  vadflag (channel_test self features ind c l) = 0 \/ vadflag (channel_test self features ind c l) = 1.
Proof.
  intros H. unfold channel_test. cbv zeta.
  repeat match goal with
  | |- context [WebRtcVad_GaussianProbability ?a ?b ?c] => destruct (WebRtcVad_GaussianProbability a b c)
  end. cbn [vadflag].
  match goal with |- (if ?b then 1 else _) = _ \/ _ => destruct b end; auto.
Qed.

Lemma classify_ok self features power ind tot :
  stds_ok self ->
  let '(self', flag) := classify self features power ind tot in
  same_hang self self' /\ stds_ok self' /\ (flag = 0 \/ flag = 1) /\
  (power <= 10 -> self' = self /\ flag = 0).
Proof.
  intros Hs. unfold classify, kMinEnergy. destruct (Z.ltb_spec 10 power).
  - set (l := for_up 0 _ _ (mk_lrt _ _ _ _ _ _)). cbv zeta.
    assert (Hl : vadflag l = 0 \/ vadflag l = 1).
    { apply (for_up_pres (fun l => vadflag l = 0 \/ vadflag l = 1)); [now left|].
      intros k t _ Ht. now apply channel_test_flag. }
    match goal with |- context [for_up 0 ?n ?f (self, 12800)] =>
      pose proof (for_up_pres (fun s => same_hang self (fst s) /\ stds_ok (fst s)) f n 0 (self, 12800)) as Hf
    end.
    destruct (for_up 0 _ _ (self, 12800)) as [self' m]. cbn [fst] in Hf. destruct Hf as [H1 H2].
    + split; [apply same_hang_refl|exact Hs].
    + intros k t _ [Ha Hb]. match goal with |- context [update_channel ?a ?b ?c k t] =>
        destruct (update_channel_ok a b c k t Hb) end.
      split; [now apply (same_hang_trans _ (fst t))|assumption].
    + split; [exact H1|]. split; [exact H2|]. split; [|lia].
      destruct Hl as [-> | ->]; unfold b2z; case_if; auto.
  - split; [apply same_hang_refl|]. auto.
Qed.

(** ** The decision *)

Lemma overheads_ok self len o1 o2 ind tot :
  wf_vad self -> thresholds self len = (o1, o2, ind, tot) -> 0 < o1 <= 14 /\ 0 < o2 <= 14.
Proof.
  intros H. unfold thresholds. cbv zeta. intros [= <- <- <- <-].
  destruct (wv_max_1 self H) as [L1 F1], (wv_max_2 self H) as [L2 F2].
  rewrite Forall_forall in F1, F2.
  split; [apply F1|apply F2]; apply rd_in_bounds; repeat case_if; lia.
Qed.

Lemma GmmProbability_ok self features power len :
  wf_vad self ->
  let '(self', v) := GmmProbability self features power len in
  wf_vad self' /\ 0 <= v <= 16 /\ same_mode self self'.
Proof.
  intros H. unfold GmmProbability. destruct (thresholds self len) as [[[o1 o2] ind] tot] eqn:Et.
  destruct (overheads_ok _ _ _ _ _ _ H Et) as [H1 H2].
  pose proof (classify_ok self features power ind tot (conj (wv_noise_stds self H) (wv_speech_stds self H))) as Hc.
  destruct (classify self features power ind tot) as [self' flag] eqn:Ec.
  destruct Hc as ((Hm & Eo & En) & (Hn & Hs) & Hflag & _). destruct H as [Ho Hp _ _ M1 M2 Hi].
  destruct Hm as (E1 & E2 & E3 & E4 & E5). rewrite <- E1 in M1. rewrite <- E2 in M2. rewrite <- E5 in Hi.
  unfold smooth_decision, kMaxSpeechFrames. destruct (Z.eqb_spec flag 0).
  - rewrite Eo. destruct (Z.ltb_spec 0 (over_hang self)).
    + rewrite !s16_id by (int_unfold; lia).
      split; [constructor; cbn; try rewrite Eo; auto; lia|]. split; [lia|]. unfold same_mode; cbn; auto.
    + split; [constructor; cbn; try rewrite Eo; auto; lia|]. split; [lia|]. unfold same_mode; cbn; auto.
  - rewrite En. rewrite s16_id by (int_unfold; lia). destruct (Z.ltb_spec 6 (num_of_speech self + 1)).
    + split; [constructor; cbn; auto; lia|]. split; [lia|]. unfold same_mode; cbn; auto.
    + split; [constructor; cbn; auto; lia|]. split; [lia|]. unfold same_mode; cbn; auto.
Qed.

(** ** A frame *)

Lemma CalcVad8khz_ok inst frame len :
  wf_vad inst ->
  let '(inst', v) := WebRtcVad_CalcVad8khz inst frame len in
  wf_vad inst' /\ 0 <= v <= 16 /\ same_mode inst inst' /\ vad inst' = v.
Proof.
  intros H. unfold WebRtcVad_CalcVad8khz.
  destruct (WebRtcVad_CalculateFeatures _ _ _ _) as [[i1 p] f] eqn:E.
  apply CalculateFeatures_same in E as [(Hm & Eo & En) [S1 S2]].
  assert (H1 : wf_vad i1).
  { destruct Hm as (E1 & E2 & E3 & E4 & E5). destruct H.
    constructor; rewrite ?Eo, ?En, ?S1, ?S2, ?E1, ?E2, ?E5; assumption. }
  pose proof (GmmProbability_ok i1 f p len H1) as Hg.
  destruct (GmmProbability i1 f p len) as [i2 v]. destruct Hg as (H2 & Hv & Hm2).
  split; [destruct H2; constructor; assumption|]. split; [exact Hv|].
  split; [|reflexivity]. unfold same_mode in *. cbn. intuition congruence.
Qed.

Lemma CalcVad_ok inst frame len r :
  wf_vad inst ->
  (r = WebRtcVad_CalcVad8khz inst frame len \/ r = WebRtcVad_CalcVad16khz inst frame len \/
   r = WebRtcVad_CalcVad32khz inst frame len \/ r = WebRtcVad_CalcVad48khz inst frame len) ->
  wf_vad (fst r) /\ 0 <= snd r <= 16 /\ same_mode inst (fst r).
Proof.
  intros H Hr.
  assert (G : forall i p n, wf_vad i -> same_mode inst i ->
    let r := WebRtcVad_CalcVad8khz i p n in
    wf_vad (fst r) /\ 0 <= snd r <= 16 /\ same_mode inst (fst r)).
  { intros i p n Hi Hm. pose proof (CalcVad8khz_ok i p n Hi) as Hc.
    destruct (WebRtcVad_CalcVad8khz i p n) as [i' v]. cbn [fst snd] in *.
    unfold same_mode in *. intuition congruence. }
  assert (D : forall s, wf_vad (set_downsampling inst s) /\ same_mode inst (set_downsampling inst s)).
  { intros s. destruct H. split; [constructor; assumption|repeat split]. }
  destruct Hr as [-> | [-> | [-> | ->]]].
  - apply G; [exact H|repeat split].
  - unfold WebRtcVad_CalcVad16khz. destruct (WebRtcVad_Downsampling _ _ _ _ _) as [nb st]. apply G; apply D.
  - unfold WebRtcVad_CalcVad32khz. destruct (WebRtcVad_Downsampling frame _ _ _ _) as [wb st].
    destruct (WebRtcVad_Downsampling wb _ _ _ _) as [nb st']. apply G; apply D.
  - unfold WebRtcVad_CalcVad48khz.
    match goal with |- context [for_up 0 ?n ?f ?s] =>
      pose proof (for_up_pres (fun t => wf_vad (fst (fst t)) /\ same_mode inst (fst (fst t))) f n 0 s) as Hf
    end.
    destruct (for_up 0 _ _ _) as [[i nb] tm]. cbn [fst] in Hf.
    destruct Hf as [H1 H2]; [split; [exact H|repeat split]| |now apply G].
    intros k [[i' nb'] tm'] _ [Ha Hb]. destruct (WebRtcSpl_Resample48khzTo8khz _ _ _ _ _ _) as [[nb2 s] tm2].
    cbn [fst] in *. destruct Ha. split; [constructor; assumption|exact Hb].
Qed.

(** ** The interface *)

(** The frame sizes accepted: 10, 20 or 30 ms. *)
Definition valid_frame (rate len : Z) : bool :=
  ((rate =? 8000) || (rate =? 16000) || (rate =? 32000) || (rate =? 48000)) &&
  ((len =? rate / 100) || (len =? rate / 50) || (len =? 3 * rate / 100)).

Lemma ValidRate_eq rate len :
  WebRtcVad_ValidRateAndFrameLength rate len = if valid_frame rate len then 0 else -1.
Proof.
  unfold WebRtcVad_ValidRateAndFrameLength, kValidRates. cbn [rate_ok].
  assert (L : forall r, length_ok 3 r 10 len =
    (len =? u64 (Z.quot r 1000 * 10)) || (len =? u64 (Z.quot r 1000 * 20)) || (len =? u64 (Z.quot r 1000 * 30))).
  { intros r. cbn [length_ok]. change (10 <=? kMaxFrameLengthMs) with true.
    change (10 + 10 <=? kMaxFrameLengthMs) with true. change (10 + 10 + 10 <=? kMaxFrameLengthMs) with true.
    change (10 + 10 + 10) with 30. change (10 + 10) with 20. cbv iota.
    repeat case_if; reflexivity. }
  unfold valid_frame.
  destruct (Z.eqb_spec 8000 rate) as [<-|H1]; [now rewrite L|].
  destruct (Z.eqb_spec 16000 rate) as [<-|H2]; [now rewrite L|].
  destruct (Z.eqb_spec 32000 rate) as [<-|H3]; [now rewrite L|].
  destruct (Z.eqb_spec 48000 rate) as [<-|H4]; [now rewrite L|].
  replace (rate =? 8000) with false by lia. replace (rate =? 16000) with false by lia.
  replace (rate =? 32000) with false by lia. replace (rate =? 48000) with false by lia. reflexivity.
Qed.

(** A handle obtained from the interface: created, then used in any way. *)
Inductive reachable : VadInstT -> Prop :=
| reach_create m : reachable (WebRtcVad_Create m)
| reach_init self self' r :
    reachable self -> WebRtcVad_Init (Some self) = (Some self', r) -> reachable self'
| reach_mode self mode self' r :
    reachable self -> WebRtcVad_set_mode (Some self) mode = (Some self', r) -> reachable self'
| reach_process self fs frame len self' r :
    reachable self -> WebRtcVad_Process (Some self) fs frame len = (Some self', r) -> reachable self'.

Lemma set_mode_core_ok self mode :
  wf_vad self -> wf_vad (fst (WebRtcVad_set_mode_core self mode)).
Proof.
  intros []. unfold WebRtcVad_set_mode_core.
  repeat case_if; cbn [fst]; constructor; cbn; auto;
    (split; [reflexivity|repeat constructor; lia]).
Qed.

Lemma Init_ok self :
  exists self', WebRtcVad_Init (Some self) = (Some self', 0) /\ wf_vad self'.
Proof.
  eexists. split; [reflexivity|].
  constructor; cbn; try lia; try reflexivity; (split; [reflexivity|]);
    repeat constructor; unfold std_ok; lia.
Qed.

Lemma Process_ok self fs frame len :
  wf_vad self ->
  exists self' r, WebRtcVad_Process (Some self) fs (Some frame) len = (Some self', r) /\
    wf_vad self' /\
    if valid_frame fs len then (r = 0 \/ r = 1) /\ same_mode self self'
    else r = -1 /\ self' = self.
Proof.
  intros H. unfold WebRtcVad_Process. rewrite (wv_init self H). cbn [Z.eqb negb kInitCheck Pos.eqb].
  rewrite ValidRate_eq. destruct (valid_frame fs len) eqn:Ev; cbn [Z.eqb negb].
  - set (R := if fs =? 48000 then _ else _).
    assert (HR : wf_vad (fst R) /\ 0 <= snd R <= 16 /\ same_mode self (fst R)).
    { unfold R. repeat (case_if; [apply (CalcVad_ok self frame len); auto|]).
      unfold valid_frame in Ev. apply andb_prop in Ev as [Ev _]. lia. }
    destruct R as [self' v]. cbn [fst snd] in HR. destruct HR as (H1 & H2 & H3).
    exists self'. eexists. split; [reflexivity|]. split; [exact H1|]. split; [|exact H3].
    destruct (Z.ltb_spec 0 v); [now right|left; lia].
  - exists self, (-1). auto.
Qed.

Lemma reachable_ok self : reachable self -> init_flag self = 0 \/ wf_vad self.
Proof.
  induction 1 as [m|self self' r _ IH E|self mode self' r _ IH E|self fs frame len self' r _ IH E].
  - now left.
  - destruct (Init_ok self) as (s & Es & Hs). rewrite Es in E. injection E as <- _. now right.
  - unfold WebRtcVad_set_mode in E. destruct IH as [IH|IH].
    + rewrite IH in E. injection E as <- _. now left.
    + rewrite (wv_init self IH) in E. cbn [Z.eqb negb kInitCheck Pos.eqb] in E.
      pose proof (set_mode_core_ok self mode IH) as Hm.
      destruct (WebRtcVad_set_mode_core self mode) as [s r']. injection E as <- _. now right.
  - destruct IH as [IH|IH].
    + unfold WebRtcVad_Process in E. rewrite IH in E. injection E as <- _. now left.
    + destruct frame as [frame|].
      * destruct (Process_ok self fs frame len IH) as (s & r' & Es & Hs & _).
        rewrite Es in E. injection E as <- _. now right.
      * unfold WebRtcVad_Process in E. rewrite (wv_init self IH) in E. injection E as <- _. now right.
Qed.

(** In every state reachable through the interface the detector keeps its
    word: before [WebRtcVad_Init] every frame is refused and nothing changes;
    afterwards the standard deviations of the models can be divided by, the
    hangover and the speech count are within their limits, and [Process]
    answers 0 or 1 on a frame of 10, 20 or 30 ms at 8, 16, 32 or 48 kHz,
    keeping the mode, and refuses every other frame without changing the
    state. *)
Theorem vad_contract self fs frame len :
  reachable self ->
  exists self' r, WebRtcVad_Process (Some self) fs (Some frame) len = (Some self', r) /\
    if init_flag self =? kInitCheck then
      wf_vad self /\ wf_vad self' /\
      if valid_frame fs len then (r = 0 \/ r = 1) /\ same_mode self self'
      else r = -1 /\ self' = self
    else r = -1 /\ self' = self.
Proof.
  intros Hr. destruct (reachable_ok self Hr) as [H|H].
  - unfold WebRtcVad_Process. rewrite H. exists self, (-1). split; [reflexivity|].
    change (0 =? kInitCheck) with false. cbv iota. auto.
  - rewrite (wv_init self H). cbn [Z.eqb kInitCheck Pos.eqb].
    destruct (Process_ok self fs frame len H) as (self' & r & E & H1 & H2).
    exists self', r. auto.
Qed.

Lemma fresh_reachable m : reachable (WebRtcVad_Create m).
Proof. apply reach_create. Qed.

(** ** The hangover *)

(** Frames of one length given to the decision one after the other: the
    features and the power of each. *)
Fixpoint decide_all (self : VadInstT) (len : Z) (frames : list (list Z * Z)) : VadInstT * list Z :=
  match frames with
  | [] => (self, [])
  | (features, power) :: frames =>
      let '(self, v) := GmmProbability self features power len in
      let '(self, vs) := decide_all self len frames in
      (self, v :: vs)
  end.

Definition quiet (frame : list Z * Z) : Prop := snd frame <= 10.

Lemma quiet_frame self f p len :
  wf_vad self -> p <= 10 ->
  let h := over_hang self in
  let '(self', v) := GmmProbability self f p len in
  wf_vad self' /\ over_hang self' = Z.max 0 (h - 1) /\ (0 <? v) = (0 <? h).
Proof.
  intros H Hp. pose proof (GmmProbability_ok self f p len H) as Hok. unfold GmmProbability in *.
  destruct (thresholds self len) as [[[o1 o2] ind] tot].
  pose proof (classify_ok self f p ind tot (conj (wv_noise_stds self H) (wv_speech_stds self H))) as Hc.
  destruct (classify self f p ind tot) as [self' flag]. destruct Hc as (_ & _ & _ & Hq).
  destruct (Hq Hp) as [-> ->]. pose proof (wv_hang self H). unfold smooth_decision in *.
  cbn [Z.eqb] in *. destruct (Z.ltb_spec 0 (over_hang self)); destruct Hok as [Hw _].
  - split; [exact Hw|]. cbn [over_hang set_hang]. rewrite !s16_id by (int_unfold; lia). lia.
  - split; [exact Hw|]. cbn [over_hang set_hang]. lia.
Qed.

Lemma quiet_frames len frames : forall self,
  wf_vad self -> Forall quiet frames ->
  map (fun v => 0 <? v) (snd (decide_all self len frames)) =
    map (fun i => Z.of_nat i <? over_hang self) (seq 0 (length frames)).
Proof.
  induction frames as [|[f p] frames IH]; intros self H HF; [reflexivity|].
  inversion HF as [|? ? Hq HF']; subst. cbn [decide_all length seq map].
  pose proof (quiet_frame self f p len H Hq) as Hf. cbv zeta in Hf.
  destruct (GmmProbability self f p len) as [self1 v]. destruct Hf as (H1 & Ho & Hv).
  specialize (IH self1 H1 HF'). destruct (decide_all self1 len frames) as [self2 vs].
  cbn [snd map] in *. rewrite IH, Hv. f_equal. rewrite <- seq_shift, map_map.
  apply map_ext. intros i. rewrite Ho, Nat2Z.inj_succ. pose proof (wv_hang self H). unfold Z.succ.
  pose proof (Nat2Z.is_nonneg i) as Hi. revert Hi. generalize (Z.of_nat i). intros k Hk. lia.
Qed.

(** After a frame that the model takes for speech, the hangover is the
    second limit of the mode when speech has lasted more than six frames and
    the first one otherwise; and then exactly that many frames without power
    are still answered as speech, and all later ones as silence. *)
Theorem hangover self f p len frames :
  wf_vad self -> Forall quiet frames ->
  let '(o1, o2, ind, tot) := thresholds self len in
  snd (classify self f p ind tot) = 1 ->
  let '(self', v) := GmmProbability self f p len in
  let h := if 6 <? num_of_speech self + 1 then o2 else o1 in
  v = 1 /\ over_hang self' = h /\ num_of_speech self' = Z.min 6 (num_of_speech self + 1) /\
  map (fun v => 0 <? v) (snd (decide_all self' len frames)) =
    map (fun i => Z.of_nat i <? h) (seq 0 (length frames)).
Proof.
  intros H HF. destruct (thresholds self len) as [[[o1 o2] ind] tot] eqn:Et. intros Hc.
  pose proof (GmmProbability_ok self f p len H) as Hok.
  pose proof (classify_ok self f p ind tot (conj (wv_noise_stds self H) (wv_speech_stds self H))) as Hs.
  pose proof (wv_speech self H) as Hn.
  unfold GmmProbability in *. rewrite Et in *. destruct (classify self f p ind tot) as [self1 flag].
  destruct Hs as ((_ & _ & En) & _). cbn [snd] in Hc. subst flag.
  unfold smooth_decision, kMaxSpeechFrames in *. cbn [Z.eqb] in *. rewrite En in *.
  rewrite s16_id in * by (int_unfold; lia).
  destruct (Z.ltb_spec 6 (num_of_speech self + 1)); destruct Hok as [Hw _];
    rewrite (quiet_frames len frames _ Hw HF); cbn [over_hang num_of_speech set_hang];
    (split; [reflexivity|]); (split; [reflexivity|]); (split; [lia|reflexivity]).
Qed.

(** ** Decisions at 48 kHz *)

Lemma DownBy2ShortToInt_ext in1 in2 ip len mem op st :
  (forall i, 0 <= i < 2 * Z.shiftr len 1 -> rd in1 (ip + i) = rd in2 (ip + i)) ->
  WebRtcSpl_DownBy2ShortToInt in1 ip len mem op st = WebRtcSpl_DownBy2ShortToInt in2 ip len mem op st.
Proof.
  intros H. unfold WebRtcSpl_DownBy2ShortToInt, allpass_loop. cbv zeta.
  set (n := Z.shiftr len 1) in *.
  assert (E : forall o, 0 <= o <= 1 -> forall k (t : list Z * list Z), 0 <= k < 0 + Z.of_nat (Z.to_nat n) ->
    rd in1 (ip + o + 2 * k) = rd in2 (ip + o + 2 * k)).
  { intros o Ho k _ Hk. rewrite <- Z.add_assoc. apply H. lia. }
  rewrite (for_up_ext _ (fun i '(mem, state) =>
    (wr mem (op + i) (Z.shiftr (rd (allpass 1 0 (to_q15 (rd in2 (ip + 2 * i))) state) (0 + 3)) 1),
     allpass 1 0 (to_q15 (rd in2 (ip + 2 * i))) state)) (Z.to_nat n) 0 (mem, st)).
  - apply for_up_ext. intros k [m s] Hk. now rewrite (E 1 ltac:(lia) k (m, s) Hk).
  - intros k [m s] Hk. pose proof (E 0 ltac:(lia) k (m, s) Hk) as Ek. rewrite Z.add_0_r in Ek.
    now rewrite Ek.
Qed.

Lemma Resample48khzTo8khz_ext in1 in2 out op st mem :
  (forall i, 0 <= i < 480 -> rd in1 i = rd in2 i) ->
  WebRtcSpl_Resample48khzTo8khz in1 0 out op st mem = WebRtcSpl_Resample48khzTo8khz in2 0 out op st mem.
Proof.
  intros H. unfold WebRtcSpl_Resample48khzTo8khz. rewrite (DownBy2ShortToInt_ext in1 in2); [reflexivity|].
  intros i Hi. apply H. exact Hi.
Qed.

(** At 48 kHz the answer and the new state depend on the first 10 ms of the
    frame only: two frames of 20 or 30 ms that agree on their first 480
    samples are not told apart, because the frame pointer is not advanced from
    one 10 ms block to the next. *)
Theorem process_48khz_first_block handle frame1 frame2 len :
  (forall i, 0 <= i < 480 -> rd frame1 i = rd frame2 i) ->
  WebRtcVad_Process handle 48000 (Some frame1) len = WebRtcVad_Process handle 48000 (Some frame2) len.
Proof.
  intros H. unfold WebRtcVad_Process. destruct handle as [self|]; [|reflexivity].
  case_if; [reflexivity|]. case_if; [reflexivity|]. cbn [Z.eqb Pos.eqb].
  unfold WebRtcVad_CalcVad48khz. rewrite (for_up_ext _ (fun i '(inst, speech_nb, tmp_mem) =>
      let '(speech_nb, s, tmp_mem) := WebRtcSpl_Resample48khzTo8khz frame2 0 speech_nb (i * 80)
                                        (state_48_to_8 inst) tmp_mem in
      (set_48_to_8 inst s, speech_nb, tmp_mem))); [reflexivity|].
  intros k [[i nb] tm] _. now rewrite (Resample48khzTo8khz_ext frame1 frame2).
Qed.

(** ** The sixteen smallest values of a channel *)

Definition sorted16 (v : Z -> Z) : Prop := forall i j, 0 <= i <= j -> j <= 15 -> v i <= v j.

Definition window (a : list Z) (offset i : Z) : Z := rd a (offset + i).

(** [a] and [b] differ in the sixteen places from [offset] only. *)
Definition same_outside (offset : Z) (a b : list Z) : Prop :=
  zlen b = zlen a /\ forall p, p < offset \/ offset + 16 <= p -> rd b p = rd a p.

(** The window [w] without some of its values, filled up with 10000. *)
Definition survivors (v w : Z -> Z) : Prop :=
  forall k, 0 <= k <= 15 -> w k = 10000 \/ exists j, k <= j <= 15 /\ w k = v j.

Lemma shift_down_spec offset i : forall n (s : list Z * list Z),
  0 <= offset -> 0 <= i -> offset + i + Z.of_nat n <= zlen (snd s) ->
  let s' := for_up i n (fun j '(age, low) =>
    let low := wr low (offset + j) (rd low (offset + j + 1)) in
    (wr age (offset + j) (rd age (offset + j + 1)), low)) s in
  zlen (snd s') = zlen (snd s) /\
  forall p, rd (snd s') p =
    if (offset + i <=? p) && (p <? offset + (i + Z.of_nat n)) then rd (snd s) (p + 1) else rd (snd s) p.
Proof.
  intros n s Ho Hi Hn s'. unfold s'.
  apply (for_up_inv (fun k t => zlen (snd t) = zlen (snd s) /\
    forall p, rd (snd t) p =
      if (offset + i <=? p) && (p <? offset + k) then rd (snd s) (p + 1) else rd (snd s) p)).
  - split; [reflexivity|]. intros p. ifs_lia.
  - intros k [age low] Hk [Hz H]. cbn [snd] in *. rewrite zlen_wr. split; [exact Hz|].
    intros p. rewrite rd_wr by lia. destruct (Z.eqb_spec p (offset + k)) as [->|].
    + replace ((offset + i <=? offset + k) && (offset + k <? offset + (k + 1))) with true by lia.
      rewrite H. replace (offset + k + 1 <? offset + k) with false by lia. now rewrite andb_false_r.
    + rewrite H. replace (p <? offset + (k + 1)) with (p <? offset + k) by lia. reflexivity.
Qed.

(** The window after the removal of its value at [i]. *)
Definition removed (v : Z -> Z) (i k : Z) : Z :=
  if k <? i then v k else if k <? 15 then v (k + 1) else 10000.

Lemma removed_sorted v i : 0 <= i <= 15 -> sorted16 v -> v 15 <= 10000 -> sorted16 (removed v i).
Proof.
  intros Hi Hs Hv a b Hab Hb. unfold removed.
  pose proof (Hs a b ltac:(lia) ltac:(lia)). pose proof (Hs a 15 ltac:(lia) ltac:(lia)).
  repeat case_if; try lia; try (apply Hs; lia).
  - etransitivity; [apply (Hs (a + 1) 15); lia|exact Hv].
Qed.

Lemma sorted16_ext v w : (forall k, 0 <= k <= 15 -> w k = v k) -> sorted16 v -> sorted16 w.
Proof. intros H Hs i j Hi Hj. rewrite !H by lia. now apply Hs. Qed.

Lemma survivors_refl v : survivors v v.
Proof. intros k Hk. right. exists k. split; [lia|reflexivity]. Qed.

Lemma survivors_trans u v w : survivors u v -> survivors v w -> survivors u w.
Proof.
  intros H1 H2 k Hk. destruct (H2 k Hk) as [|(j & Hj & E)]; [now left|].
  destruct (H1 j ltac:(lia)) as [E1|(j' & Hj' & E1)]; [left; congruence|].
  right. exists j'. split; [lia|congruence].
Qed.

(** The state of a window kept through the ageing. *)
Definition aged (offset : Z) (low low' : list Z) : Prop :=
  same_outside offset low low' /\ sorted16 (window low' offset) /\
  window low' offset 15 <= 10000 /\ survivors (window low offset) (window low' offset).

Lemma age_values_spec offset age low :
  0 <= offset -> offset + 16 <= zlen low -> sorted16 (window low offset) ->
  window low offset 15 <= 10000 ->
  aged offset low (snd (age_values offset (age, low))).
Proof.
  intros Ho Hl Hs Hv. unfold age_values.
  refine (for_up_inv (fun _ t => aged offset low (snd t)) _ 16 0 (age, low) _ _).
  - split; [split; [reflexivity|auto]|]. split; [exact Hs|]. split; [exact Hv|apply survivors_refl].
  - intros i [a l] Hi ((Hz & Hout) & Hs' & Hv' & Hsv). cbn [snd] in *.
    case_if; [split; [split; assumption|auto]|].
    pose proof (shift_down_spec offset i (Z.to_nat (16 - i)) (a, l) Ho ltac:(lia) ltac:(cbn [snd]; lia)) as Hd.
    cbv zeta in Hd. destruct (for_up i _ _ (a, l)) as [a' l']. cbn [snd] in *.
    destruct Hd as [Hz' Hr]. replace (i + Z.of_nat (Z.to_nat (16 - i))) with 16 in Hr by lia.
    assert (E : forall k, 0 <= k <= 15 ->
      window (wr l' (offset + 15) 10000) offset k = removed (window l offset) i k).
    { intros k Hk. unfold window, removed. rewrite rd_wr by lia.
      destruct (Z.eqb_spec (offset + k) (offset + 15)).
      - now replace (k <? i) with false by lia; replace (k <? 15) with false by lia.
      - rewrite Hr. replace (offset + i <=? offset + k) with (negb (k <? i)) by lia.
        replace (offset + k <? offset + 16) with true by lia. replace (k <? 15) with true by lia.
        destruct (k <? i); cbn [negb andb]; [reflexivity|]. f_equal. lia. }
    split; [split|split; [|split]].
    + now rewrite zlen_wr, Hz'.
    + intros p Hp. rewrite rd_wr_ne by lia. rewrite Hr.
      destruct ((offset + i <=? p) && (p <? offset + 16)) eqn:?; [bool_lia|now apply Hout].
    + apply (sorted16_ext _ _ E). apply removed_sorted; auto. lia.
    + rewrite E by lia. unfold removed. ifs_lia.
    + apply (survivors_trans _ _ _ Hsv). intros k Hk. rewrite E by exact Hk. unfold removed.
      destruct (Z.ltb_spec k i); [right; exists k; split; [lia|reflexivity]|].
      destruct (Z.ltb_spec k 15); [right; exists (k + 1); split; [lia|reflexivity]|now left].
Qed.

Lemma find_position_spec v f :
  v 7 <= v 15 ->
  let p := find_position v f in
  if f <? v 15 then 0 <= p <= 15 /\ f < v p /\ (p = 0 \/ v (p - 1) <= f) else p = -1.
Proof.
  intros H. cbv zeta. unfold find_position. cbv zeta.
  destruct (Z.ltb_spec f (v 7)), (Z.ltb_spec f (v 15)); try lia;
  repeat match goal with |- context [f <? v ?k] => destruct (Z.ltb_spec f (v k)) end;
  (split; [lia|]; split; [assumption|]; first [left; reflexivity|right; assumption]).
Qed.

(** The window with [f] inserted before its place [p], the last value lost. *)
Definition inserted (w : Z -> Z) (p f k : Z) : Z :=
  if k <? p then w k else if k =? p then f else w (k - 1).

Lemma inserted_sorted w p f :
  0 <= p <= 15 -> sorted16 w -> f < w p -> (p = 0 \/ w (p - 1) <= f) -> sorted16 (inserted w p f).
Proof.
  intros Hp Hs Hf Hb a b Hab Hbb. unfold inserted.
  destruct (Z.ltb_spec a p), (Z.ltb_spec b p); try lia.
  - apply Hs; lia.
  - pose proof (Hs a (p - 1) ltac:(lia) ltac:(lia)).
    destruct (Z.eqb_spec b p); [lia|]. apply Hs; lia.
  - destruct (Z.eqb_spec a p), (Z.eqb_spec b p); try lia.
    + pose proof (Hs p (b - 1) ltac:(lia) ltac:(lia)). lia.
    + apply Hs; lia.
Qed.

Lemma shift_up_spec offset n (s : list Z * list Z) :
  0 <= offset -> 0 <= 15 - Z.of_nat n -> offset + 16 <= zlen (snd s) ->
  let s' := for_down 15 n (fun i '(age, low) =>
    let low := wr low (offset + i) (rd low (offset + i - 1)) in
    (wr age (offset + i) (rd age (offset + i - 1)), low)) s in
  zlen (snd s') = zlen (snd s) /\
  forall p, rd (snd s') p =
    if (offset + (15 - Z.of_nat n) <? p) && (p <=? offset + 15) then rd (snd s) (p - 1) else rd (snd s) p.
Proof.
  intros Ho Hn Hz s'. unfold s'.
  apply (for_down_inv (fun k t => zlen (snd t) = zlen (snd s) /\
    forall p, rd (snd t) p =
      if (offset + k <? p) && (p <=? offset + 15) then rd (snd s) (p - 1) else rd (snd s) p)).
  - split; [reflexivity|]. intros p. ifs_lia.
  - intros k [age low] Hk [Hz' H]. cbn [snd] in *. rewrite zlen_wr. split; [exact Hz'|].
    intros p. rewrite rd_wr by lia. destruct (Z.eqb_spec p (offset + k)) as [->|].
    + replace ((offset + (k - 1) <? offset + k) && (offset + k <=? offset + 15)) with true by lia.
      rewrite H. now replace (offset + k <? offset + k - 1) with false by lia.
    + rewrite H. replace (offset + (k - 1) <? p) with (offset + k <? p) by lia. reflexivity.
Qed.

Lemma insert_value_spec offset p f (s : list Z * list Z) :
  0 <= offset -> offset + 16 <= zlen (snd s) -> 0 <= p <= 15 ->
  let low' := snd (insert_value offset p f s) in
  same_outside offset (snd s) low' /\
  forall k, 0 <= k <= 15 -> window low' offset k = inserted (window (snd s) offset) p f k.
Proof.
  intros Ho Hl Hp. unfold insert_value. replace (-1 <? p) with true by lia.
  pose proof (shift_up_spec offset (Z.to_nat (15 - p)) s Ho ltac:(lia) Hl) as H. cbv zeta in H.
  destruct (for_down _ _ _ s) as [a low]. cbn [snd] in *. destruct H as [Hz H].
  replace (15 - Z.of_nat (Z.to_nat (15 - p))) with p in H by lia.
  split; [split|].
  - now rewrite zlen_wr.
  - intros q Hq. rewrite rd_wr_ne by lia. rewrite H.
    destruct ((offset + p <? q) && (q <=? offset + 15)) eqn:?; [bool_lia|reflexivity].
  - intros k Hk. unfold window, inserted. rewrite rd_wr by lia.
    destruct (Z.eqb_spec (offset + k) (offset + p)).
    + replace (k <? p) with false by lia. now replace (k =? p) with true by lia.
    + rewrite H. replace (k =? p) with false by lia. replace (offset + k <=? offset + 15) with true by lia.
      rewrite andb_true_r. replace (offset + p <? offset + k) with (negb (k <? p)) by lia.
      destruct (k <? p); cbn [negb]; [reflexivity|]. f_equal. lia.
Qed.

Lemma smooth_median_between n med mean :
  in_s16 med -> in_s16 mean ->
  let m := smooth_median n (if 0 <? n then med else 1600) mean in
  let med := if 0 <? n then med else 1600 in
  Z.min mean med <= m <= Z.max mean med.
Proof.
  intros Hm Ha. cbv zeta. set (x := if 0 <? n then med else 1600).
  assert (Hx : in_s16 x) by (unfold x; case_if; [exact Hm|int_unfold; lia]).
  unfold smooth_median. set (al := if 0 <? n then _ else 0).
  assert (Hal : 0 <= al <= 32767) by (unfold al, kSmoothingDown, kSmoothingUp; repeat case_if; lia).
  clearbody al x. int_unfold. cbv zeta.
  assert (H1 : -1073741824 <= (al + 1) * mean <= 1073741824) by nia.
  assert (H2 : -1073741824 <= (al + 1) * mean + (32767 - al) * x <= 1073741824) by nia.
  fold (s32 ((al + 1) * mean)). rewrite (s32_id ((al + 1) * mean)) by (int_unfold; lia).
  fold (s32 ((al + 1) * mean + (32767 - al) * x)).
  rewrite (s32_id ((al + 1) * mean + _)) by (int_unfold; lia).
  fold (s32 ((al + 1) * mean + (32767 - al) * x + 16384)). rewrite s32_id by (int_unfold; lia).
  rewrite shiftr_div by lia. change (2 ^ 15) with 32768.
  set (t := (al + 1) * mean + (32767 - al) * x) in *.
  assert (H3 : 32768 * Z.min mean x <= t <= 32768 * Z.max mean x) by (unfold t; nia).
  clearbody t. fold (s16 ((t + 16384) / 32768)).
  assert (Z.min mean x <= (t + 16384) / 32768 <= Z.max mean x) by dlia.
  rewrite s16_id by (int_unfold; lia). lia.
Qed.

Lemma same_outside_trans o a b c : same_outside o a b -> same_outside o b c -> same_outside o a c.
Proof. intros [Z1 H1] [Z2 H2]. split; [congruence|]. intros p Hp. now rewrite H2, H1. Qed.

Lemma survivor_s16 v w k :
  (forall j, in_s16 (v j)) -> survivors v w -> 0 <= k <= 15 -> in_s16 (w k).
Proof.
  intros Hv Hs Hk. destruct (Hs k Hk) as [->|(j & _ & ->)]; [int_unfold; lia|apply Hv].
Qed.

(** The window after the insertion of [f] where it belongs, if it does. *)
Definition updated (w w' : Z -> Z) (f : Z) : Prop :=
  if f <? w 15 then
    exists p, 0 <= p <= 15 /\ f < w p /\ (p = 0 \/ w (p - 1) <= f) /\
      forall k, 0 <= k <= 15 -> w' k = inserted w p f k
  else forall k, 0 <= k <= 15 -> w' k = w k.

Lemma insert_step offset f s :
  0 <= offset -> offset + 16 <= zlen (snd s) -> sorted16 (window (snd s) offset) ->
  window (snd s) offset 15 <= 10000 ->
  let p := find_position (fun i => rd (snd s) (offset + i)) f in
  let low' := snd (insert_value offset p f s) in
  same_outside offset (snd s) low' /\ updated (window (snd s) offset) (window low' offset) f /\
  sorted16 (window low' offset) /\ window low' offset 15 <= 10000.
Proof.
  intros Ho Hl Hs Hv p. fold (window (snd s) offset) in p.
  pose proof (find_position_spec (window (snd s) offset) f (Hs 7 15 ltac:(lia) ltac:(lia))) as Hp.
  cbv zeta in Hp. fold p in Hp. unfold updated. destruct (Z.ltb_spec f (window (snd s) offset 15)).
  - destruct Hp as (Hp & Hf & Hb). destruct (insert_value_spec offset p f s Ho Hl Hp) as [H1 H2].
    cbv zeta. split; [exact H1|]. split; [exists p; auto|]. split.
    + apply (sorted16_ext _ _ H2). now apply inserted_sorted.
    + rewrite H2 by lia. unfold inserted. pose proof (Hs 14 15 ltac:(lia) ltac:(lia)). change (15 - 1) with 14.
      repeat case_if; lia.
  - cbv zeta. rewrite Hp. cbn [insert_value Z.ltb Z.compare]. split; [split; auto|]. auto.
Qed.

(** [FindMinimum] of a channel keeps the channel's sixteen values sorted:
    values that have become too old go, 10000 taking their places at the end,
    and the new value is inserted where it belongs if it is smaller than the
    last one; no other channel's values change.  The result, which is also
    remembered, lies between the remembered mean and the median used. *)
Theorem FindMinimum_spec self f c :
  let offset := 16 * c in
  let low := low_value_vector self in
  0 <= c < 6 -> zlen low = 96 -> Forall in_s16 low -> in_s16 f -> in_s16 (rd (mean_value self) c) ->
  sorted16 (window low offset) -> window low offset 15 <= 10000 ->
  exists self' m w, WebRtcVad_FindMinimum self f c = (self', m) /\
    let low' := low_value_vector self' in
    sorted16 w /\ survivors (window low offset) w /\ updated w (window low' offset) f /\
    sorted16 (window low' offset) /\ window low' offset 15 <= 10000 /\ same_outside offset low low' /\
    mean_value self' = wr (mean_value self) c m /\
    let median := if 2 <? frame_counter self then window low' offset 2
                  else if 0 <? frame_counter self then window low' offset 0 else 1600 in
    Z.min (rd (mean_value self) c) median <= m <= Z.max (rd (mean_value self) c) median.
Proof.
  intros offset low Hc Hl Hr Hf Hm Hs Hv. unfold WebRtcVad_FindMinimum. rewrite shiftl_mul by lia.
  change (2 ^ 4) with 16. rewrite (Z.mul_comm c). fold offset. fold low. assert (0 <= offset <= 80) by (unfold offset; lia).
  pose proof (age_values_spec offset (index_vector self) low ltac:(lia) ltac:(lia) Hs Hv) as (Ho1 & Hs1 & Hv1 & Hsv).
  set (s := age_values offset (index_vector self, low)) in *.
  destruct (insert_step offset f s) as (Ho2 & Hu & Hs2 & Hv2); try assumption; [lia|destruct Ho1; lia|].
  destruct (insert_value offset _ f s) as [age low']. cbn [snd] in *.
  assert (Hw : forall k, 0 <= k <= 15 -> in_s16 (window low' offset k)).
  { assert (Hw1 : forall k, 0 <= k <= 15 -> in_s16 (window (snd s) offset k)).
    { intros k Hk. apply (survivor_s16 _ _ k (fun j => Forall_rd in_s16 low (offset + j) ltac:(int_unfold; lia) Hr) Hsv Hk). }
    intros k Hk. unfold updated in Hu. destruct (f <? window (snd s) offset 15); [|rewrite Hu by exact Hk; auto].
    destruct Hu as (p & Hp & _ & _ & E). rewrite E by exact Hk. unfold inserted.
    destruct (Z.ltb_spec k p); [auto|]. destruct (Z.eqb_spec k p); [exact Hf|apply Hw1; lia]. }
  eexists. eexists. exists (window (snd s) offset). split; [reflexivity|]. cbn [low_value_vector mean_value set_minimum].
  split; [exact Hs1|]. split; [exact Hsv|]. split; [exact Hu|]. split; [exact Hs2|]. split; [exact Hv2|].
  split; [exact (same_outside_trans _ _ _ _ Ho1 Ho2)|]. split; [reflexivity|]. cbv zeta.
  unfold window in *. replace (offset + 0) with offset by lia.
  destruct (Z.ltb_spec 2 (frame_counter self)).
  - pose proof (smooth_median_between (frame_counter self) _ _ (Hw 2 ltac:(lia)) Hm) as E. cbv zeta in E.
    replace (0 <? frame_counter self) with true in E by lia. exact E.
  - pose proof (smooth_median_between (frame_counter self) _ _ (Hw 0 ltac:(lia)) Hm) as E. cbv zeta in E.
    replace (offset + 0) with offset in E by lia. exact E.
Qed.

(** ** Concrete runs *)

Definition blank : VadInstT :=
  mk_vad 0 [] (mk_48_8 [] [] [] []) [] [] [] [] 0 0 0 [] [] [] [] [] [] [] [] [] [] 0.

(** The detector after [WebRtcVad_Init]. *)
Definition ready : VadInstT :=
  match WebRtcVad_Init (Some (WebRtcVad_Create blank)) with (Some s, _) => s | _ => blank end.

Lemma ready_reachable : reachable ready.
Proof. apply (reach_init (WebRtcVad_Create blank) ready 0); [apply reach_create|reflexivity]. Qed.

Lemma ready_wf : wf_vad ready.
Proof. destruct (reachable_ok ready ready_reachable) as [H|H]; [discriminate H|exact H]. Qed.

Lemma vad_contract_witness :
  exists self' r, WebRtcVad_Process (Some ready) 8000 (Some (zeros 80)) 80 = (Some self', r) /\
    wf_vad ready /\ wf_vad self' /\ (r = 0 \/ r = 1) /\ same_mode ready self'.
Proof. exact (vad_contract ready 8000 (zeros 80) 80 ready_reachable). Defined.

(** Features of a loud frame that the initial models take for speech. *)
Definition loud : list Z := [1000; 1100; 1200; 1100; 1000; 900].

Lemma hangover_witness :
  let '(self', v) := GmmProbability ready loud 100 80 in
  v = 1 /\ over_hang self' = 8 /\ num_of_speech self' = 1 /\
  map (fun v => 0 <? v) (snd (decide_all self' 80 (repeat (zeros 6, 0) 10))) =
    [true; true; true; true; true; true; true; true; false; false].
Proof.
  refine (hangover ready loud 100 80 (repeat (zeros 6, 0) 10) ready_wf _ _).
  - repeat constructor; unfold quiet; cbn; lia.
  - vm_compute. reflexivity.
Defined.

Lemma FindMinimum_witness :
  exists self' m w, WebRtcVad_FindMinimum ready 500 2 = (self', m) /\
    let low := low_value_vector ready in let low' := low_value_vector self' in
    sorted16 w /\ survivors (window low 32) w /\ updated w (window low' 32) 500 /\
    sorted16 (window low' 32) /\ window low' 32 15 <= 10000 /\ same_outside 32 low low' /\
    mean_value self' = wr (mean_value ready) 2 m /\ Z.min 1600 1600 <= m <= Z.max 1600 1600.
Proof.
  apply (FindMinimum_spec ready 500 2).
  - lia.
  - reflexivity.
  - apply Forall_forall. intros x Hx. apply repeat_spec in Hx. subst x. int_unfold; lia.
  - int_unfold; lia.
  - change (rd (mean_value ready) 2) with 1600. int_unfold; lia.
  - intros i j Hi Hj. unfold window. change (low_value_vector ready) with (repeat 10000 96).
    assert (E : forall k, 0 <= k < 96 -> rd (repeat 10000 96) k = 10000).
    { intros k Hk. unfold rd. case_if; [lia|]. apply (repeat_spec 96 10000).
      apply nth_In. rewrite repeat_length. lia. }
    rewrite !E by lia. lia.
  - vm_compute. discriminate.
Defined.

Lemma process_48khz_first_block_witness :
  WebRtcVad_Process (Some ready) 48000 (Some (zeros 960)) 960 =
    WebRtcVad_Process (Some ready) 48000 (Some (zeros 480 ++ repeat 7 480)) 960.
Proof.
  apply (process_48khz_first_block (Some ready) (zeros 960) (zeros 480 ++ repeat 7 480) 960).
  intros i Hi. rewrite rd_app_l by exact (proj2 Hi). unfold rd. case_if; [lia|].
  unfold zeros. rewrite !nth_repeat. reflexivity.
Defined.

End VadFacts.
