(* ===== verification/OrderedMap.v ===== *)
(** * Ordered maps

    [std::map] with integer keys: the list of its entries by rising key, the
    order of its iterators.  Lookups, stores and the first entry, with the laws
    the components use. *)

From Stdlib Require Import Sorted.
From S2P Require Import Prelude.

Module OrderedMap.
Section Map.
Context {V : Type}.

Definition map_t : Type := list (Z * V).

Definition sorted (m : map_t) : Prop := StronglySorted Z.lt (map fst m).

Fixpoint find (k : Z) (m : map_t) : option V :=
  match m with
  | [] => None
  | (i, v) :: m => if k =? i then Some v else find k m
  end.

(** [m[k] = v]. *)
Fixpoint store (k : Z) (v : V) (m : map_t) : map_t :=
  match m with
  | [] => [(k, v)]
  | (i, w) :: m' =>
      if k <? i then (k, v) :: m
      else if k =? i then (i, v) :: m'
      else (i, w) :: store k v m'
  end.

(** [m.begin()] and the map without it. *)
Definition first (m : map_t) : option (Z * V) := match m with [] => None | e :: _ => Some e end.

Fixpoint erase (k : Z) (m : map_t) : map_t :=
  match m with
  | [] => []
  | (i, w) :: m' => if k =? i then m' else (i, w) :: erase k m'
  end.

Lemma store_keys k v m j : In j (map fst (store k v m)) <-> j = k \/ In j (map fst m).
Proof.
  induction m as [|[i w] m IH]; cbn [store].
  - cbn. intuition congruence.
  - destruct (k <? i); [cbn; intuition congruence|]. destruct (Z.eqb_spec k i); cbn [map fst In].
    + intuition congruence.
    + rewrite IH. intuition congruence.
Qed.

Lemma store_sorted k v m : sorted m -> sorted (store k v m).
Proof.
  unfold sorted. induction m as [|[i w] m IH]; cbn [store map fst]; intros S.
  - repeat constructor.
  - inversion S as [|? ? Sm Si]; subst.
    destruct (Z.ltb_spec k i); [|destruct (Z.eqb_spec k i)]; cbn [map fst].
    + constructor; [exact S|]. constructor; [assumption|].
      revert Si. apply Forall_impl. intros; lia.
    + now constructor.
    + constructor; [now apply IH|]. rewrite Forall_forall in *. intros j Hj.
      apply store_keys in Hj as [->|Hj]; [lia|now apply Si].
Qed.

Lemma find_none k m : find k m = None <-> ~ In k (map fst m).
Proof.
  induction m as [|[i w] m IH]; cbn; [tauto|].
  destruct (Z.eqb_spec k i) as [->|].
  - split; [discriminate|tauto].
  - rewrite IH. intuition.
Qed.

Lemma find_some k m : (exists v, find k m = Some v) <-> In k (map fst m).
Proof.
  destruct (find k m) as [v|] eqn:E.
  - split; eauto. intros _. destruct (in_dec Z.eq_dec k (map fst m)) as [H|H]; [assumption|].
    apply find_none in H. congruence.
  - apply find_none in E. split; [intros [v H]; discriminate|tauto].
Qed.

Lemma find_in k v m : sorted m -> (find k m = Some v <-> In (k, v) m).
Proof.
  unfold sorted. induction m as [|[i w] m IH]; cbn [map fst find In]; intros S.
  - split; [discriminate|tauto].
  - inversion S as [|? ? Sm Si]; subst. destruct (Z.eqb_spec k i) as [->|].
    + split; [intros [= ->]; auto|]. intros [[= ->]|H]; [reflexivity|].
      apply (in_map fst) in H. rewrite Forall_forall in Si. specialize (Si _ H). cbn in Si. lia.
    + rewrite IH by assumption. intuition congruence.
Qed.

Lemma find_store k v m j : sorted m -> find j (store k v m) = if j =? k then Some v else find j m.
Proof.
  unfold sorted. induction m as [|[i w] m IH]; cbn [store map fst find]; intros S; [reflexivity|].
  inversion S as [|? ? Sm Si]; subst.
  destruct (Z.ltb_spec k i); [reflexivity|]. destruct (Z.eqb_spec k i) as [->|].
  - cbn [find]. destruct (j =? i); reflexivity.
  - cbn [find]. rewrite IH by assumption. destruct (Z.eqb_spec j i), (Z.eqb_spec j k); congruence.
Qed.

Lemma first_least m k v : sorted m -> first m = Some (k, v) ->
  find k m = Some v /\ forall j, In j (map fst m) -> k <= j.
Proof.
  destruct m as [|[i w] m]; cbn; [discriminate|]. intros S [= -> ->]. rewrite Z.eqb_refl.
  split; [reflexivity|]. inversion S as [|? ? _ Si]; subst. rewrite Forall_forall in Si.
  intros j [<-|Hj]; [lia|]. specialize (Si j Hj). lia.
Qed.

Lemma first_store k v m : sorted m ->
  first (store k v m) = match first m with
    | Some (i, w) => if k <=? i then Some (k, v) else Some (i, w)
    | None => Some (k, v)
    end.
Proof.
  destruct m as [|[i w] m]; cbn [store first]; intros S; [reflexivity|].
  destruct (Z.ltb_spec k i), (Z.eqb_spec k i), (Z.leb_spec k i); cbn [first]; try lia;
    try reflexivity. now subst.
Qed.

Lemma tail_sorted e m : sorted (e :: m) -> sorted m.
Proof. unfold sorted. cbn. now inversion 1. Qed.

Lemma erase_first k v m : erase k ((k, v) :: m) = m.
Proof. cbn. now rewrite Z.eqb_refl. Qed.
End Map.
#[global] Arguments map_t : clear implicits.
End OrderedMap.

#[export] Hint Resolve OrderedMap.store_sorted OrderedMap.tail_sorted : omap.
