(* ===== verification/Wire.v ===== *)
(** * Packets as byte arrays

    The access layer under the RTP and RTCP models: a packet is the list of
    its bytes, and a C expression that dereferences a pointer into it is a
    read or a write at an offset, which fails with [Oob] outside the buffer.
    A loop over the packet that uses up its fuel fails with [NoFuel]; the
    theorems show that this does not happen with the fuel the models give. *)

From S2P Require Import Prelude.

Inductive res (A : Type) : Type :=
| Ok (a : A)
| Oob
| NoFuel.
Arguments Ok {A} a.
Arguments Oob {A}.
Arguments NoFuel {A}.

Definition bind {A B} (m : res A) (k : A -> res B) : res B :=
  match m with
  | Ok a => k a
  | Oob => Oob
  | NoFuel => NoFuel
  end.

Declare Scope res_scope.
Delimit Scope res_scope with res.
Notation "'let!' x ':=' m 'in' k" := (bind m (fun x => k))
  (at level 200, x pattern, m at level 100, k at level 200) : res_scope.
#[global] Open Scope res_scope.

Module Wire.

Definition byte (p : list Z) (i : Z) : res Z :=
  if (0 <=? i) && (i <? zlen p) then Ok (rd p i) else Oob.

Definition set8 (p : list Z) (i v : Z) : res (list Z) :=
  if (0 <=? i) && (i <? zlen p) then Ok (wr p i (u8 v)) else Oob.

(** [ntohs] and [ntohl] of the field at [i], and the store of [htons(v)] and
    [htonl(v)]. *)
Definition be16 (p : list Z) (i : Z) : res Z :=
  let! a := byte p i in
  let! b := byte p (i + 1) in
  Ok (a * 256 + b).

Definition be32 (p : list Z) (i : Z) : res Z :=
  let! a := be16 p i in
  let! b := be16 p (i + 2) in
  Ok (a * 65536 + b).

Definition set16 (p : list Z) (i v : Z) : res (list Z) :=
  let! p := set8 p i (Z.shiftr v 8) in
  set8 p (i + 1) v.

Definition set32 (p : list Z) (i v : Z) : res (list Z) :=
  let! p := set16 p i (Z.shiftr v 16) in
  set16 p (i + 2) v.

(** The two-bit, five-bit and eight-bit fields of an RTCP header at [o]. *)
Definition version (p : list Z) (o : Z) : res Z :=
  let! b := byte p o in Ok (Z.shiftr b 6).
Definition rc (p : list Z) (o : Z) : res Z :=
  let! b := byte p o in Ok (Z.land b 31).
Definition type_ (p : list Z) (o : Z) : res Z := byte p (o + 1).
Definition length_ (p : list Z) (o : Z) : res Z := be16 p (o + 2).

Definition set_version (p : list Z) (o v : Z) : res (list Z) :=
  let! b := byte p o in set8 p o (Z.lor (Z.land b 63) (Z.shiftl v 6)).
Definition set_rc (p : list Z) (o v : Z) : res (list Z) :=
  let! b := byte p o in set8 p o (Z.lor (Z.land b 224) v).
Definition set_type (p : list Z) (o v : Z) : res (list Z) := set8 p (o + 1) v.
Definition set_length (p : list Z) (o v : Z) : res (list Z) := set16 p (o + 2) v.

(** ** Laws *)

Definition bytes (p : list Z) : Prop := Forall in_u8 p.

Lemma bytes_slice p i n : bytes p -> bytes (slice p i n).
Proof. intros. now apply Forall_firstn, Forall_skipn. Qed.

Lemma bytes_rd p i : bytes p -> in_u8 (rd p i).
Proof. intros. apply Forall_rd; [int_unfold; lia|assumption]. Qed.

Lemma bytes_wr p i v : bytes p -> bytes (wr p i (u8 v)).
Proof. intros. apply Forall_wr; [apply u8_range|assumption]. Qed.

Definition byteb (x : Z) : bool := (0 <=? x) && (x <? 256).

Lemma bytes_forallb p : forallb byteb p = true -> bytes p.
Proof.
  intros H. apply Forall_forall. intros x Hx. rewrite forallb_forall in H. specialize (H x Hx).
  unfold byteb in H. int_unfold. lia.
Qed.

(** The values of the fields, when they are inside. *)
Definition b16 (p : list Z) (i : Z) : Z := rd p i * 256 + rd p (i + 1).
Definition b32 (p : list Z) (i : Z) : Z := b16 p i * 65536 + b16 p (i + 2).

Lemma byte_ok p i : 0 <= i < zlen p -> byte p i = Ok (rd p i).
Proof. intros. unfold byte. now replace ((0 <=? i) && (i <? zlen p)) with true by lia. Qed.

Lemma be16_ok p i : 0 <= i -> i + 2 <= zlen p -> be16 p i = Ok (b16 p i).
Proof. intros. unfold be16. now rewrite !byte_ok by lia. Qed.

Lemma be32_ok p i : 0 <= i -> i + 4 <= zlen p -> be32 p i = Ok (b32 p i).
Proof. intros. unfold be32. now rewrite !be16_ok by lia. Qed.

Lemma set8_ok p i v : 0 <= i < zlen p -> set8 p i v = Ok (wr p i (u8 v)).
Proof. intros. unfold set8. now replace ((0 <=? i) && (i <? zlen p)) with true by lia. Qed.

Definition w16 (p : list Z) (i v : Z) : list Z :=
  wr (wr p i (u8 (Z.shiftr v 8))) (i + 1) (u8 v).
Definition w32 (p : list Z) (i v : Z) : list Z :=
  w16 (w16 p i (Z.shiftr v 16)) (i + 2) v.

Lemma zlen_w16 p i v : zlen (w16 p i v) = zlen p.
Proof. unfold w16. now autorewrite with zlen. Qed.
Lemma zlen_w32 p i v : zlen (w32 p i v) = zlen p.
Proof. unfold w32. now rewrite !zlen_w16. Qed.
#[export] Hint Rewrite zlen_w16 zlen_w32 : zlen.

Lemma set16_ok p i v : 0 <= i -> i + 2 <= zlen p -> set16 p i v = Ok (w16 p i v).
Proof.
  intros. unfold set16. rewrite set8_ok by lia. cbn [bind].
  rewrite set8_ok by (autorewrite with zlen; lia). reflexivity.
Qed.

Lemma set32_ok p i v : 0 <= i -> i + 4 <= zlen p -> set32 p i v = Ok (w32 p i v).
Proof.
  intros. unfold set32. rewrite set16_ok by lia. cbn [bind].
  rewrite set16_ok by (autorewrite with zlen; lia). reflexivity.
Qed.

Lemma bytes_w16 p i v : bytes p -> bytes (w16 p i v).
Proof. intros. now apply bytes_wr, bytes_wr. Qed.
Lemma bytes_w32 p i v : bytes p -> bytes (w32 p i v).
Proof. intros. now apply bytes_w16, bytes_w16. Qed.

(** Reading back what was written, and elsewhere. *)
Lemma b16_w16_mod p i v : 0 <= i -> i + 2 <= zlen p -> b16 (w16 p i v) i = u16 v.
Proof.
  intros Hi Hl. unfold b16, w16.
  rewrite rd_wr_ne, rd_wr_eq, rd_wr_eq by (autorewrite with zlen; lia).
  rewrite shiftr_div by lia. change (2 ^ 8) with 256. int_lia.
Qed.

Lemma b16_w16_eq p i v : 0 <= i -> i + 2 <= zlen p -> in_u16 v -> b16 (w16 p i v) i = v.
Proof. intros. rewrite b16_w16_mod by lia. now apply u16_id. Qed.

Lemma rd_w16_ne p i v j : 0 <= i -> j < i \/ i + 2 <= j -> rd (w16 p i v) j = rd p j.
Proof. intros. unfold w16. rewrite !rd_wr_ne by lia. reflexivity. Qed.

Lemma b16_w16_ne p i v j : 0 <= i -> j + 2 <= i \/ i + 2 <= j -> b16 (w16 p i v) j = b16 p j.
Proof. intros. unfold b16. rewrite !rd_w16_ne by lia. reflexivity. Qed.

Lemma rd_w32_ne p i v j : 0 <= i -> j < i \/ i + 4 <= j -> rd (w32 p i v) j = rd p j.
Proof. intros. unfold w32. rewrite !rd_w16_ne by lia. reflexivity. Qed.

Lemma b32_w32_eq p i v : 0 <= i -> i + 4 <= zlen p -> in_u32 v -> b32 (w32 p i v) i = v.
Proof.
  intros Hi Hl Hv. unfold b32, w32.
  rewrite b16_w16_ne by lia. rewrite !b16_w16_mod by (autorewrite with zlen; lia).
  rewrite shiftr_div by lia. change (2 ^ 16) with 65536. int_lia.
Qed.

Lemma b16_w32_ne p i v j : 0 <= i -> j + 2 <= i \/ i + 4 <= j -> b16 (w32 p i v) j = b16 p j.
Proof. intros. unfold b16. rewrite !rd_w32_ne by lia. reflexivity. Qed.

Lemma b32_w32_ne p i v j : 0 <= i -> j + 4 <= i \/ i + 4 <= j -> b32 (w32 p i v) j = b32 p j.
Proof. intros. unfold b32. rewrite !b16_w32_ne by lia. reflexivity. Qed.

Lemma b16_range p i : bytes p -> in_u16 (b16 p i).
Proof.
  intros H. pose proof (bytes_rd p i H). pose proof (bytes_rd p (i + 1) H).
  unfold b16. int_unfold. lia.
Qed.

Lemma b32_range p i : bytes p -> in_u32 (b32 p i).
Proof.
  intros H. pose proof (b16_range p i H). pose proof (b16_range p (i + 2) H).
  unfold b32. int_unfold. lia.
Qed.

(** ** A block inside a packet *)

Lemma rd_mid pre b post i : 0 <= i < zlen b -> rd (pre ++ b ++ post) (zlen pre + i) = rd b i.
Proof.
  intros. pose proof (zlen_nonneg pre). rewrite rd_app_r by lia.
  replace (zlen pre + i - zlen pre) with i by lia. apply rd_app_l. lia.
Qed.

Lemma byte_mid pre b post i :
  0 <= i < zlen b -> byte (pre ++ b ++ post) (zlen pre + i) = Ok (rd b i).
Proof.
  intros. pose proof (zlen_nonneg pre). pose proof (zlen_nonneg post).
  rewrite byte_ok by (autorewrite with zlen; lia). now rewrite rd_mid.
Qed.

Lemma b16_mid pre b post i :
  0 <= i -> i + 2 <= zlen b -> b16 (pre ++ b ++ post) (zlen pre + i) = b16 b i.
Proof. intros. unfold b16. rewrite <- !Z.add_assoc, !rd_mid by lia. reflexivity. Qed.

Lemma b32_mid pre b post i :
  0 <= i -> i + 4 <= zlen b -> b32 (pre ++ b ++ post) (zlen pre + i) = b32 b i.
Proof. intros. unfold b32. rewrite <- !Z.add_assoc, !b16_mid by lia. reflexivity. Qed.

Lemma be16_mid pre b post i :
  0 <= i -> i + 2 <= zlen b -> be16 (pre ++ b ++ post) (zlen pre + i) = Ok (b16 b i).
Proof.
  intros. pose proof (zlen_nonneg pre). pose proof (zlen_nonneg post).
  rewrite be16_ok by (autorewrite with zlen; lia). now rewrite b16_mid.
Qed.

Lemma be32_mid pre b post i :
  0 <= i -> i + 4 <= zlen b -> be32 (pre ++ b ++ post) (zlen pre + i) = Ok (b32 b i).
Proof.
  intros. pose proof (zlen_nonneg pre). pose proof (zlen_nonneg post).
  rewrite be32_ok by (autorewrite with zlen; lia). now rewrite b32_mid.
Qed.

Lemma upd_app_mid {A} (pre b post : list A) i v :
  (i < length b)%nat -> upd (pre ++ b ++ post) (length pre + i) v = pre ++ upd b i v ++ post.
Proof.
  induction pre as [|x pre IH]; cbn; intros Hi.
  - revert i Hi; induction b as [|y b IHb]; intros [|i] Hi; cbn in *; try lia; auto.
    rewrite IHb by lia. reflexivity.
  - now rewrite IH.
Qed.

Lemma wr_mid pre b post i v :
  0 <= i < zlen b -> wr (pre ++ b ++ post) (zlen pre + i) v = pre ++ wr b i v ++ post.
Proof.
  unfold wr, zlen; intros.
  destruct (Z.ltb_spec (Z.of_nat (length pre) + i) 0); [lia|].
  destruct (Z.ltb_spec i 0); [lia|].
  replace (Z.to_nat (Z.of_nat (length pre) + i)) with (length pre + Z.to_nat i)%nat by lia.
  apply upd_app_mid. lia.
Qed.

Lemma set8_mid pre b post i v :
  0 <= i < zlen b -> set8 (pre ++ b ++ post) (zlen pre + i) v = Ok (pre ++ wr b i (u8 v) ++ post).
Proof.
  intros. pose proof (zlen_nonneg pre). pose proof (zlen_nonneg post).
  rewrite set8_ok by (autorewrite with zlen; lia). now rewrite wr_mid.
Qed.

Lemma set32_mid pre b post i v :
  0 <= i -> i + 4 <= zlen b ->
  set32 (pre ++ b ++ post) (zlen pre + i) v = Ok (pre ++ w32 b i v ++ post).
Proof.
  intros. pose proof (zlen_nonneg pre). pose proof (zlen_nonneg post).
  rewrite set32_ok by (autorewrite with zlen; lia). f_equal. unfold w32, w16.
  repeat (rewrite <- ?Z.add_assoc, wr_mid by (autorewrite with zlen; lia)). reflexivity.
Qed.

(** A store at the end of a prefix. *)
Lemma set8_at a x b v : set8 (a ++ x :: b) (zlen a) v = Ok (a ++ u8 v :: b).
Proof.
  rewrite <- (Z.add_0_r (zlen a)). change (x :: b) with ([x] ++ b).
  rewrite (set8_mid a [x] b 0 v) by (rewrite zlen_cons, (@zlen_nil Z); lia). reflexivity.
Qed.
End Wire.
