(* ===== verification/Floats.v ===== *)
(** * Floating point

    The [double] and the [float] of the source as the binary64 and the binary32
    of the Standard Library's SpecFloat, with the conversions to and from
    integers.  All operations round to the nearest, ties to even. *)

From Stdlib Require Import SpecFloat.
From S2P Require Import Prelude.

Module Floats.

(** ** binary64 *)

Definition f64_add := SFadd 53 1024.
Definition f64_sub := SFsub 53 1024.
Definition f64_mul := SFmul 53 1024.
Definition f64_div := SFdiv 53 1024.
Definition f64_opp := SFopp.
Definition f64_of_Z (z : Z) : spec_float := binary_normalize 53 1024 z 0 false.
Definition f64_zero : spec_float := S754_zero false.
(** 1./16., 0.5 and 1e-3. *)
Definition f64_sixteenth : spec_float := S754_finite false 4503599627370496 (-56).
Definition f64_half : spec_float := S754_finite false 4503599627370496 (-53).
Definition f64_milli : spec_float := S754_finite false 4611686018427388 (-62).
(** [a < b]; false when one of them is not a number. *)
Definition f64_ltb (a b : spec_float) : bool :=
  match SFcompare a b with Some Lt => true | _ => false end.
Definition f64_leb (a b : spec_float) : bool :=
  match SFcompare a b with Some Lt | Some Eq => true | _ => false end.
Definition f64_eqb (a b : spec_float) : bool :=
  match SFcompare a b with Some Eq => true | _ => false end.
Definition f64_abs := SFabs.
Definition f64_sqrt := SFsqrt 53 1024.
(** The literal [n / d] of the source: the double next to it, as [n] and [d]
    are doubles. *)
Definition f64_lit (n d : Z) : spec_float := f64_div (f64_of_Z n) (f64_of_Z d).
(** std::min and std::max. *)
Definition f64_min (a b : spec_float) : spec_float := if f64_ltb b a then b else a.
Definition f64_max (a b : spec_float) : spec_float := if f64_ltb a b then b else a.

(** ** binary32 *)

Definition f32_add := SFadd 24 128.
Definition f32_mul := SFmul 24 128.
Definition f32_div := SFdiv 24 128.
Definition f32_lit (n d : Z) : spec_float :=
  SFdiv 24 128 (binary_normalize 24 128 n 0 false) (binary_normalize 24 128 d 0 false).
Definition f32_of_Z (z : Z) : spec_float := binary_normalize 24 128 z 0 false.
Definition f32_half : spec_float := S754_finite false 8388608 (-24).

Definition f32_sub := SFsub 24 128.
Definition f32_ltb (a b : spec_float) : bool := f64_ltb a b.
Definition f32_leb (a b : spec_float) : bool := f64_leb a b.
Definition f32_eqb (a b : spec_float) : bool := f64_eqb a b.
Definition f32_max (a b : spec_float) : spec_float := if f32_ltb a b then b else a.

(** ** Between the two *)

(** Exact from binary32 to binary64, rounded from binary64 to binary32. *)
Definition convert (prec emax : Z) (x : spec_float) : spec_float :=
  match x with
  | S754_finite s m e => binary_normalize prec emax (if s then Z.neg m else Z.pos m) e s
  | _ => x
  end.
Definition f64_of_f32 (x : spec_float) : spec_float := convert 53 1024 x.
Definition f32_of_f64 (x : spec_float) : spec_float := convert 24 128 x.

(** ** Conversion to integers *)

(** Truncation toward zero; the conversion of an infinity or a NaN is undefined
    and gives 0 here. *)
Definition f64_trunc (x : spec_float) : Z :=
  match x with
  | S754_finite s m e =>
      let v := if 0 <=? e then Z.shiftl (Z.pos m) e else Z.shiftr (Z.pos m) (- e) in
      if s then - v else v
  | _ => 0
  end.

(** The conversion to [int64_t]: outside its range it is undefined and gives
    the least number here, as the machines do. *)
Definition to_s64 (x : spec_float) : Z :=
  match x with
  | S754_infinity _ | S754_nan => -9223372036854775808
  | _ => let v := f64_trunc x in if s64 v =? v then v else -9223372036854775808
  end.

(** To [uint32_t] and to [int], as the machines do it with the conversion to 64
    and to 32 bits; undefined outside the range. *)
Definition to_u32 (x : spec_float) : Z := u32 (to_s64 x).
Definition to_s32 (x : spec_float) : Z :=
  match x with
  | S754_infinity _ | S754_nan => -2147483648
  | _ => let v := f64_trunc x in if s32 v =? v then v else -2147483648
  end.

(** [ceil]; a number that is not small has no fraction. *)
Definition f64_ceil (x : spec_float) : spec_float :=
  match x with
  | S754_finite s m e =>
      if 0 <=? e then x
      else
        let v := - ((if s then Z.pos m else Z.neg m) / 2 ^ (- e)) in
        if v =? 0 then S754_zero s else f64_of_Z v
  | _ => x
  end.

Example converted :
  (map (fun x => f64_trunc (f64_ceil x)) [f64_lit 7 2; f64_lit (-7) 2; f64_lit 1 1000; f64_lit 4 1],
   f32_of_f64 (f64_lit 1 10), f64_of_f32 (f32_lit 1 2), f64_sqrt (f64_of_Z 49), to_u32 (f64_lit 7 2), to_s32 (f64_lit (-7) 2)) =
  ([4; -3; 1; 4], f32_lit 1 10, f64_half, f64_of_Z 7, 3, -3).
Proof. vm_compute. reflexivity. Qed.

Example constants :
  (f64_div (f64_of_Z 1) (f64_of_Z 2), f64_div (f64_of_Z 1) (f64_of_Z 1000), f64_div (f64_of_Z 1) (f64_of_Z 16),
   f32_div (f32_of_Z 1) (f32_of_Z 2)) = (f64_half, f64_milli, f64_sixteenth, f32_half).
Proof. vm_compute. reflexivity. Qed.

Example truncated : map to_s64 [f64_div (f64_of_Z 7) (f64_of_Z 2); f64_div (f64_of_Z (-7)) (f64_of_Z 2);
  f64_div (f64_of_Z 7) f64_zero; f64_of_Z (2 ^ 63)] = [3; -3; -9223372036854775808; -9223372036854775808].
Proof. vm_compute. reflexivity. Qed.

(** A number in the range is not changed. *)
Lemma to_s64_range x : in_s64 (to_s64 x).
Proof.
  unfold to_s64. assert (R : forall v, in_s64 (if s64 v =? v then v else -9223372036854775808)).
  { intros v. destruct (Z.eqb_spec (s64 v) v) as [E|]; [rewrite <- E; apply s64_range|unfold in_s64; lia]. }
  destruct x; try apply R; unfold in_s64; lia.
Qed.
End Floats.
