(* ===== verification/RtpHeaders.v ===== *)
(** * RTP and RTCP headers

    Models the classes of src/orbit/rtp/rtp_headers.h as accessors of the bytes
    they are cast onto.  A bit field is laid out from the low end of its byte,
    a getter that reads past the packet gives [Oob].  The theorems show that
    the setters and getters are those of a record of independent fields, each
    cut to its width. *)

From S2P Require Import Prelude Wire.
Import Wire.

Module RtpHeaders.

(** The bit field of [n] bits at bit [lo] of byte [i]. *)
Definition get_bits (p : list Z) (i lo n : Z) : res Z :=
  let! b := byte p i in Ok (Z.land (Z.shiftr b lo) (Z.ones n)).
Definition set_bits (p : list Z) (i lo n v : Z) : res (list Z) :=
  let! b := byte p i in
  set8 p i (Z.lor (Z.land b (Z.lnot (Z.shiftl (Z.ones n) lo)))
                  (Z.shiftl (Z.land v (Z.ones n)) lo)).

(** ** RtpHeader *)

Definition MIN_SIZE : Z := 12.

Definition hasPadding (p : list Z) : res Z := get_bits p 0 5 1.
Definition getVersion (p : list Z) : res Z := get_bits p 0 6 2.
Definition setVersion (p : list Z) (aVersion : Z) : res (list Z) := set_bits p 0 6 2 aVersion.
Definition getMarker (p : list Z) : res Z := get_bits p 1 7 1.
Definition setMarker (p : list Z) (aMarker : Z) : res (list Z) := set_bits p 1 7 1 aMarker.
Definition getExtension (p : list Z) : res Z := get_bits p 0 4 1.
Definition setExtension (p : list Z) (ext : Z) : res (list Z) := set_bits p 0 4 1 ext.
Definition getPayloadType (p : list Z) : res Z := get_bits p 1 0 7.
Definition setPayloadType (p : list Z) (aType : Z) : res (list Z) := set_bits p 1 0 7 aType.
Definition getSeqNumber (p : list Z) : res Z := be16 p 2.
Definition setSeqNumber (p : list Z) (aSeqNumber : Z) : res (list Z) := set16 p 2 aSeqNumber.
Definition getTimestamp (p : list Z) : res Z := be32 p 4.
Definition setTimestamp (p : list Z) (aTimestamp : Z) : res (list Z) := set32 p 4 aTimestamp.
Definition getSSRC (p : list Z) : res Z := be32 p 8.
Definition setSSRC (p : list Z) (aSSRC : Z) : res (list Z) := set32 p 8 aSSRC.
Definition getExtId (p : list Z) : res Z := be16 p 12.
Definition setExtId (p : list Z) (extensionId : Z) : res (list Z) := set16 p 12 extensionId.
Definition getExtLength (p : list Z) : res Z := be16 p 14.
Definition setExtLength (p : list Z) (extensionLength : Z) : res (list Z) :=
  set16 p 14 extensionLength.

Definition getHeaderLength (p : list Z) : res Z :=
  let! cc := get_bits p 0 0 4 in
  let! extension := getExtension p in
  let! extensionlength := be16 p 14 in
  Ok (MIN_SIZE + cc * 4 + extension * (4 + extensionlength * 4)).

(** The constructor fills the 16 bytes of the class. *)
Definition RtpHeader : list Z := [128; 0; 0; 0; 0; 0; 0; 0; 0; 0; 0; 0; 0; 0; 0; 0].

(** *** RtpRtxHeader *)
Definition getOsn (p : list Z) : res Z := be16 p 16.
Definition setOs (p : list Z) (theOsn : Z) : res (list Z) := set16 p 16 theOsn.

(** ** RtcpHeader *)

Definition RTCP_Sender_PT : Z := 200.
Definition RTCP_Receiver_PT : Z := 201.
Definition RTCP_BYE : Z := 203.
Definition RTCP_APP : Z := 204.
Definition RTCP_RTP_Feedback_PT : Z := 205.
Definition RTCP_PS_Feedback_PT : Z := 206.

Definition getPacketType (p : list Z) : res Z := byte p 1.
Definition setPacketType (p : list Z) (pt : Z) : res (list Z) := set8 p 1 pt.

Definition isFeedback (p : list Z) : res bool :=
  let! packettype := getPacketType p in
  Ok ((packettype =? RTCP_Receiver_PT) || (packettype =? RTCP_PS_Feedback_PT) ||
      (packettype =? RTCP_RTP_Feedback_PT)).

Definition isRtcp (p : list Z) : res bool :=
  let! packettype := getPacketType p in
  let! f := isFeedback p in
  Ok ((packettype =? RTCP_Sender_PT) || (packettype =? RTCP_APP) || (packettype =? RTCP_BYE) || f).

Definition getBlockCount (p : list Z) : res Z := get_bits p 0 0 5.
Definition setBlockCount (p : list Z) (count : Z) : res (list Z) := set_bits p 0 0 5 count.
Definition getLength (p : list Z) : res Z := be16 p 2.
Definition setLength (p : list Z) (theLength : Z) : res (list Z) := set16 p 2 theLength.
Definition getSSRC_rtcp (p : list Z) : res Z := be32 p 4.
Definition setSSRC_rtcp (p : list Z) (aSsrc : Z) : res (list Z) := set32 p 4 aSsrc.
Definition getSourceSSRC (p : list Z) : res Z := be32 p 8.
Definition setSourceSSRC (p : list Z) (sourceSsrc : Z) : res (list Z) := set32 p 8 sourceSsrc.
Definition getFractionLost (p : list Z) : res Z := byte p 12.
Definition setFractionLost (p : list Z) (fractionLost : Z) : res (list Z) := set8 p 12 fractionLost.

(** Three bytes, most significant first: [ntohl(x) >> 8] of the 24-bit field
    and the store of [htonl(v) >> 8]. *)
Definition be24 (p : list Z) (i : Z) : res Z :=
  let! a := byte p i in
  let! b := be16 p (i + 1) in
  Ok (a * 65536 + b).
Definition set24 (p : list Z) (i v : Z) : res (list Z) :=
  let! p := set8 p i (Z.shiftr v 16) in
  set16 p (i + 1) v.

Definition getLostPackets (p : list Z) : res Z := be24 p 13.
Definition setLostPackets (p : list Z) (lost : Z) : res (list Z) := set24 p 13 lost.
Definition getHighestSeqnum (p : list Z) : res Z := be32 p 16.
Definition setHighestSeqnum (p : list Z) (highest : Z) : res (list Z) := set32 p 16 highest.
Definition getJitter (p : list Z) : res Z := be32 p 20.
Definition setJitter (p : list Z) (jitter : Z) : res (list Z) := set32 p 20 jitter.
Definition getLastSr (p : list Z) : res Z := be32 p 24.
Definition setLastSr (p : list Z) (lastsr : Z) : res (list Z) := set32 p 24 lastsr.
Definition getDelaySinceLastSr (p : list Z) : res Z := be32 p 28.
Definition setDelaySinceLastSr (p : list Z) (delaylastsr : Z) : res (list Z) :=
  set32 p 28 delaylastsr.

(** *** The sender report *)
Definition getPacketsSent (p : list Z) : res Z := be32 p 20.
Definition setPacketsSent (p : list Z) (packetssent : Z) : res (list Z) := set32 p 20 packetssent.
Definition getOctetsSent (p : list Z) : res Z := be32 p 24.
Definition getNtpTimestamp (p : list Z) : res Z :=
  let! a := be32 p 8 in
  let! b := be32 p 12 in
  Ok (u64 (Z.shiftl a 32 + b)).

(** *** The generic NACK, the REMB and the PLI *)
Definition getNackPid (p : list Z) : res Z := be16 p 12.
Definition setNackPid (p : list Z) (pid : Z) : res (list Z) := set16 p 12 pid.
Definition getNackBlp (p : list Z) : res Z := be16 p 14.
Definition setNackBlp (p : list Z) (blp : Z) : res (list Z) := set16 p 14 blp.

(** The loop of [setREMBBitRate]: its condition allows 64 rounds. *)
Fixpoint remb_exp (n : nat) (exp max bitRate : Z) : Z :=
  match n with
  | O => exp
  | S n => if max <=? bitRate then remb_exp n (exp + 1) (u64 (Z.shiftl max 1)) bitRate else exp
  end.

(** A shift of a 64-bit number by 64 is undefined in C++. *)
Definition setREMBBitRate (p : list Z) (bitRate : Z) : res (list Z) :=
  let exp := remb_exp 64 0 0x3FFFF bitRate in
  if 64 <=? exp then Oob
  else
    let mantissa := Z.shiftr bitRate exp in
    let exp := Z.land exp 0x3F in
    let mantissa := Z.land mantissa 0x3FFFF in
    let line := u32 (mantissa + Z.shiftl exp 18) in
    set24 p 17 line.

Definition getBrExp (p : list Z) : res Z :=
  let! l := be24 p 17 in Ok (Z.shiftr (Z.shiftl l 8) 26).
Definition getBrMantis (p : list Z) : res Z :=
  let! l := be24 p 17 in Ok (Z.land (Z.shiftr (Z.shiftl l 8) 8) 0x3ffff).
Definition getREMBNumSSRC (p : list Z) : res Z := byte p 16.
Definition setREMBNumSSRC (p : list Z) (num : Z) : res (list Z) := set8 p 16 num.
Definition getREMBFeedSSRC (p : list Z) : res Z := be32 p 20.
Definition setREMBFeedSSRC (p : list Z) (ssrc : Z) : res (list Z) := set32 p 20 ssrc.
Definition getFCI (p : list Z) : res Z := be32 p 12.
Definition setFCI (p : list Z) (fci : Z) : res (list Z) := set32 p 12 fci.

(** ** RedHeader *)
Definition getTS (p : list Z) : res Z :=
  let! l := be24 p 1 in Ok (Z.shiftr (Z.land (Z.shiftl l 8) 0xfffc0000) 18).
Definition getLength_red (p : list Z) : res Z :=
  let! l := be24 p 1 in Ok (Z.land (Z.shiftl l 8) 0x3ff00).

(** ** The fields as a record *)

Record rtp_fields := mk_rtp {
  f_version : Z; f_padding : Z; f_extension : Z; f_cc : Z; f_marker : Z; f_payloadtype : Z;
  f_seqnum : Z; f_timestamp : Z; f_ssrc : Z; f_extid : Z; f_extlength : Z
}.

Definition bits (b lo n : Z) : Z := Z.land (Z.shiftr b lo) (Z.ones n).

Definition fields (p : list Z) : rtp_fields :=
  mk_rtp (bits (rd p 0) 6 2) (bits (rd p 0) 5 1) (bits (rd p 0) 4 1) (bits (rd p 0) 0 4)
         (bits (rd p 1) 7 1) (bits (rd p 1) 0 7) (b16 p 2) (b32 p 4) (b32 p 8) (b16 p 12) (b16 p 14).

(** Storing one bit field leaves the bits of the others. *)
Definition put_bits (b lo n v : Z) : Z :=
  Z.lor (Z.land b (Z.lnot (Z.shiftl (Z.ones n) lo))) (Z.shiftl (Z.land v (Z.ones n)) lo).

Lemma bits_put b lo n v : 0 <= lo -> 0 <= n -> bits (put_bits b lo n v) lo n = v mod 2 ^ n.
Proof.
  intros. unfold bits, put_bits. apply Z.bits_inj'. intros k Hk.
  rewrite Z.land_spec, Z.shiftr_spec, Z.lor_spec, Z.land_spec, Z.lnot_spec, !Z.shiftl_spec,
    Z.land_spec by lia.
  replace (k + lo - lo) with k by lia.
  destruct (Z.ltb_spec k n).
  - rewrite Z.mod_pow2_bits_low, Z.ones_spec_low by lia. cbn.
    now rewrite andb_false_r, !andb_true_r.
  - rewrite Z.mod_pow2_bits_high, Z.ones_spec_high by lia. now rewrite andb_false_r.
Qed.

Lemma bits_put_ne b lo n v lo' n' :
  0 <= lo -> 0 <= n -> 0 <= lo' -> 0 <= n' -> lo' + n' <= lo \/ lo + n <= lo' ->
  bits (put_bits b lo n v) lo' n' = bits b lo' n'.
Proof.
  intros. unfold bits, put_bits. apply Z.bits_inj'. intros k Hk.
  rewrite !Z.land_spec, !Z.shiftr_spec, Z.lor_spec, Z.land_spec, Z.lnot_spec by lia.
  destruct (Z.ltb_spec k n'); [|rewrite Z.ones_spec_high by lia; now rewrite !andb_false_r].
  rewrite !Z.shiftl_spec by lia. rewrite Z.land_spec.
  destruct (Z.ltb_spec (k + lo' - lo) 0).
  - rewrite !(Z.testbit_neg_r _ (k + lo' - lo)) by lia. cbn. now rewrite andb_true_r, orb_false_r.
  - rewrite (Z.ones_spec_high n) by lia. cbn. rewrite !andb_false_r, !andb_true_r. now rewrite orb_false_r.
Qed.

Lemma put_bits_u8 b lo n v :
  in_u8 b -> 0 <= lo -> 0 <= n -> lo + n <= 8 -> u8 (put_bits b lo n v) = put_bits b lo n v.
Proof.
  intros Hb Hl Hn Hs. apply u8_id. unfold in_u8. change 256 with (2 ^ 8). unfold put_bits.
  apply lor_lt_pow2; [lia| |].
  - assert (Hz : 0 <= Z.land b (Z.lnot (Z.shiftl (Z.ones n) lo)))
      by (apply Z.land_nonneg; left; int_unfold; lia).
    split; [exact Hz|]. apply Z.le_lt_trans with b; [|int_unfold; lia].
    assert (Hd : Z.land b (Z.shiftl (Z.ones n) lo) + Z.land b (Z.lnot (Z.shiftl (Z.ones n) lo)) = b).
    { rewrite Z.add_nocarry_lxor, Z.lxor_lor, <- Z.land_lor_distr_r, Z.lor_lnot_diag.
      - apply Z.land_m1_r.
      - rewrite (Z.land_comm b (Z.lnot _)), Z.land_assoc, <- (Z.land_assoc b), Z.land_lnot_diag,
          Z.land_0_r. reflexivity.
      - rewrite (Z.land_comm b (Z.lnot _)), Z.land_assoc, <- (Z.land_assoc b), Z.land_lnot_diag,
          Z.land_0_r. reflexivity. }
    assert (0 <= Z.land b (Z.shiftl (Z.ones n) lo))
      by (apply Z.land_nonneg; left; int_unfold; lia). lia.
  - rewrite Z.land_ones, Z.shiftl_mul_pow2 by lia.
    pose proof (Z.mod_pos_bound v (2 ^ n) (Z.pow_pos_nonneg 2 n ltac:(lia) ltac:(lia))).
    split; [nia|]. apply Z.lt_le_trans with (2 ^ n * 2 ^ lo); [nia|].
    rewrite <- Z.pow_add_r by lia. apply Z.pow_le_mono_r; lia.
Qed.

Lemma get_bits_ok p i lo n : 0 <= i < zlen p -> get_bits p i lo n = Ok (bits (rd p i) lo n).
Proof. intros. unfold get_bits. now rewrite byte_ok. Qed.

Lemma set_bits_ok p i lo n v :
  bytes p -> 0 <= i < zlen p -> 0 <= lo -> 0 <= n -> lo + n <= 8 ->
  set_bits p i lo n v = Ok (wr p i (put_bits (rd p i) lo n v)).
Proof.
  intros Hb Hi H1 H2 H3. unfold set_bits. rewrite byte_ok by lia. cbn [bind].
  rewrite set8_ok by lia. fold (put_bits (rd p i) lo n v).
  rewrite put_bits_u8; auto using bytes_rd.
Qed.

Lemma bytes_put p i lo n v :
  bytes p -> 0 <= lo -> 0 <= n -> lo + n <= 8 -> bytes (wr p i (put_bits (rd p i) lo n v)).
Proof.
  intros Hb H1 H2 H3. rewrite <- (put_bits_u8 (rd p i) lo n v); auto using bytes_rd, bytes_wr.
Qed.

Lemma b16_wr_ne p i v j : 0 <= i -> j + 2 <= i \/ i < j -> b16 (wr p i v) j = b16 p j.
Proof. intros. unfold b16. now rewrite !rd_wr_ne by lia. Qed.

Lemma b32_wr_ne p i v j : 0 <= i -> j + 4 <= i \/ i < j -> b32 (wr p i v) j = b32 p j.
Proof. intros. unfold b32. now rewrite !b16_wr_ne by lia. Qed.

Lemma b32_w16_ne p i v j : 0 <= i -> j + 4 <= i \/ i + 2 <= j -> b32 (w16 p i v) j = b32 p j.
Proof. intros. unfold b32. now rewrite !b16_w16_ne by lia. Qed.

Lemma b32_w32_mod p i v : 0 <= i -> i + 4 <= zlen p -> b32 (w32 p i v) i = u32 v.
Proof.
  intros Hi Hl. unfold b32, w32. rewrite b16_w16_ne by lia.
  rewrite !b16_w16_mod by (autorewrite with zlen; lia). rewrite shiftr_div by lia.
  change (2 ^ 16) with 65536. int_lia.
Qed.

(** What lies past a position is not touched by a store before it. *)
Lemma skipn_upd {A} (a : list A) i v n : (i < n)%nat -> skipn n (upd a i v) = skipn n a.
Proof.
  revert i n; induction a as [|x a IH]; intros [|i] [|n] H; cbn; try lia; try reflexivity.
  apply IH. lia.
Qed.

Lemma skipn_wr p i v n : 0 <= i < Z.of_nat n -> skipn n (wr p i v) = skipn n p.
Proof.
  intros. unfold wr. replace (i <? 0) with false by lia. apply skipn_upd. lia.
Qed.

(** [r] is a new version of [p]: the fields become [f], what follows the
    16 bytes of the class is kept. *)
Definition stored (r : res (list Z)) (p : list Z) (f : rtp_fields) : Prop :=
  exists p', r = Ok p' /\ fields p' = f /\ bytes p' /\ zlen p' = zlen p /\ skipn 16 p' = skipn 16 p.

Lemma stored_bits p i lo n v f :
  bytes p -> 16 <= zlen p -> 0 <= i < 16 -> 0 <= lo -> 0 <= n -> lo + n <= 8 ->
  fields (wr p i (put_bits (rd p i) lo n v)) = f -> stored (set_bits p i lo n v) p f.
Proof.
  intros. eexists. rewrite set_bits_ok by (auto; lia).
  split; [reflexivity|]. split; [assumption|]. split; [now apply bytes_put|].
  split; [now autorewrite with zlen|]. apply skipn_wr. cbn. lia.
Qed.

Lemma stored_w16 p i v f :
  bytes p -> 16 <= zlen p -> 0 <= i <= 14 -> fields (w16 p i v) = f -> stored (set16 p i v) p f.
Proof.
  intros. eexists. rewrite set16_ok by lia. split; [reflexivity|]. split; [assumption|].
  split; [now apply bytes_w16|]. split; [now autorewrite with zlen|].
  unfold w16. rewrite !skipn_wr by (cbn; lia). reflexivity.
Qed.

Lemma stored_w32 p i v f :
  bytes p -> 16 <= zlen p -> 0 <= i <= 12 -> fields (w32 p i v) = f -> stored (set32 p i v) p f.
Proof.
  intros. eexists. rewrite set32_ok by lia. split; [reflexivity|]. split; [assumption|].
  split; [now apply bytes_w32|]. split; [now autorewrite with zlen|].
  unfold w32, w16. rewrite !skipn_wr by (cbn; lia). reflexivity.
Qed.

Ltac field_lia :=
  unfold fields; f_equal;
  first [ reflexivity
        | rewrite rd_wr_eq, bits_put by lia; reflexivity
        | rewrite rd_wr_eq, bits_put_ne by lia; reflexivity
        | rewrite rd_wr_ne by lia; reflexivity
        | rewrite b16_wr_ne by lia; reflexivity
        | rewrite b32_wr_ne by lia; reflexivity
        | rewrite rd_w16_ne by lia; reflexivity
        | rewrite rd_w32_ne by lia; reflexivity
        | rewrite b16_w16_mod by lia; reflexivity
        | rewrite b16_w16_ne by lia; reflexivity
        | rewrite b32_w16_ne by lia; reflexivity
        | rewrite b32_w32_mod by lia; reflexivity
        | rewrite b32_w32_ne by lia; reflexivity
        | rewrite b16_w32_ne by lia; reflexivity ].

(** The header is a record of independent fields: every getter
    reads its field, every setter stores the value cut to the width of its
    field and changes no other field nor the bytes after the header, and the
    length of the header counts the words of the two lists that may follow. *)
Theorem rtp_header_fields p v :
  bytes p -> 16 <= zlen p ->
  let f := fields p in
  (getVersion p = Ok (f_version f) /\ hasPadding p = Ok (f_padding f) /\
   getExtension p = Ok (f_extension f) /\ getMarker p = Ok (f_marker f) /\
   getPayloadType p = Ok (f_payloadtype f) /\ getSeqNumber p = Ok (f_seqnum f) /\
   getTimestamp p = Ok (f_timestamp f) /\ getSSRC p = Ok (f_ssrc f) /\
   getExtId p = Ok (f_extid f) /\ getExtLength p = Ok (f_extlength f) /\
   getHeaderLength p =
     Ok (12 + 4 * f_cc f + (if f_extension f =? 0 then 0 else 4 + 4 * f_extlength f))) /\
  let '(mk_rtp ver pad ext cc mk pt sq ts ss xi xl) := f in
  stored (setVersion p v) p (mk_rtp (v mod 4) pad ext cc mk pt sq ts ss xi xl) /\
  stored (setExtension p v) p (mk_rtp ver pad (v mod 2) cc mk pt sq ts ss xi xl) /\
  stored (setMarker p v) p (mk_rtp ver pad ext cc (v mod 2) pt sq ts ss xi xl) /\
  stored (setPayloadType p v) p (mk_rtp ver pad ext cc mk (v mod 128) sq ts ss xi xl) /\
  stored (setSeqNumber p v) p (mk_rtp ver pad ext cc mk pt (u16 v) ts ss xi xl) /\
  stored (setTimestamp p v) p (mk_rtp ver pad ext cc mk pt sq (u32 v) ss xi xl) /\
  stored (setSSRC p v) p (mk_rtp ver pad ext cc mk pt sq ts (u32 v) xi xl) /\
  stored (setExtId p v) p (mk_rtp ver pad ext cc mk pt sq ts ss (u16 v) xl) /\
  stored (setExtLength p v) p (mk_rtp ver pad ext cc mk pt sq ts ss xi (u16 v)).
Proof.
  intros Hb Hl f. split.
  - unfold getVersion, hasPadding, getExtension, getMarker, getPayloadType, getSeqNumber,
      getTimestamp, getSSRC, getExtId, getExtLength, getHeaderLength, getExtension.
    rewrite !get_bits_ok, !be16_ok, !be32_ok by lia. repeat (split; [reflexivity|]).
    cbn [bind]. f_equal. subst f. unfold fields, MIN_SIZE; cbn [f_cc f_extension f_extlength].
    assert (He : bits (rd p 0) 4 1 = 0 \/ bits (rd p 0) 4 1 = 1).
    { unfold bits. rewrite Z.land_ones by lia. pose proof (Z.mod_pos_bound (Z.shiftr (rd p 0) 4) 2).
      change (2 ^ 1) with 2. lia. }
    destruct (Z.eqb_spec (bits (rd p 0) 4 1) 0); lia.
  - subst f. unfold fields. cbv beta iota. repeat apply conj;
      first [apply stored_bits | apply stored_w16 | apply stored_w32]; auto; try lia; field_lia.
Qed.

Example rtp_header_fields_witness :
  let p := [144; 100; 1; 2; 0; 0; 0; 9; 0; 0; 0; 7; 190; 222; 0; 1; 55] in
  (bytes p /\ 16 <= zlen p) /\
  stored (setSeqNumber p 65537) p (mk_rtp 2 0 1 0 0 100 1 9 7 48862 1) /\ getHeaderLength p = Ok 20.
Proof.
  split; [split; [apply bytes_forallb; reflexivity|vm_compute; discriminate]|].
  pose proof (rtp_header_fields [144; 100; 1; 2; 0; 0; 0; 9; 0; 0; 0; 7; 190; 222; 0; 1; 55] 65537
    ltac:(apply bytes_forallb; reflexivity) ltac:(vm_compute; discriminate)) as [G S].
  split; [exact (proj1 (proj2 (proj2 (proj2 (proj2 S)))))|].
  exact (proj2 (proj2 (proj2 (proj2 (proj2 (proj2 (proj2 (proj2 (proj2 (proj2 G)))))))))).
Defined.
End RtpHeaders.
