(* ===== verification/BitBuffer.v ===== *)
(** * Bit buffers

    Models src/orbit/webrtc/base/bitbuffer.cc and bitbuffer.h: reading and
    writing numbers of any width up to 32 bits, and exponential Golomb codes,
    in an array of bytes, most significant bit first.  An operation takes the
    buffer and gives its result, [None] where the code returns false, and the
    buffer afterwards; [Oob] is an access outside the array.  The theorems
    refine the buffer to the list of its bits: what was written is read back,
    and nothing is accessed outside. *)

From S2P Require Import Prelude Wire.
Import Wire.

Module BitBuffer.

(** [bytes_] (and [writable_bytes_]) is the array, from the pointer on. *)
Record BitBuffer := mk_bits {
  bytes_ : list Z;
  byte_count_ : Z;
  byte_offset_ : Z;
  bit_offset_ : Z
}.

Definition new_BitBuffer (bytes : list Z) (byte_count : Z) : BitBuffer :=
  mk_bits bytes byte_count 0 0.

(** ** The helpers *)

Definition LowestBits (byte bit_count : Z) : Z := Z.land byte (Z.shiftl 1 bit_count - 1).

Definition HighestBits (byte bit_count : Z) : Z :=
  let shift := 8 - bit_count in
  let mask := u8 (Z.shiftl 0xFF shift) in
  Z.shiftr (Z.land byte mask) shift.

Definition HighestByte (val : Z) : Z := u8 (Z.shiftr val 56).

Definition WritePartialByte (source source_bit_count target target_bit_offset : Z) : Z :=
  let mask := Z.shiftr (u8 (Z.shiftl 0xFF (8 - source_bit_count))) target_bit_offset in
  u8 (Z.lor (Z.land target (Z.lnot mask)) (Z.shiftr source target_bit_offset)).

(** [while (val != 0)]: [val] has at most 64 bits. *)
Fixpoint count_bits (fuel : nat) (val : Z) : Z :=
  match fuel with
  | O => 0
  | S fuel => if val =? 0 then 0 else 1 + count_bits fuel (Z.shiftr val 1)
  end.
Definition CountBits (val : Z) : Z := count_bits 64 val.

(** ** Operations that may fail

    [None] is the code's [false]. *)
Definition op (A : Type) : Type := BitBuffer -> res (option A * BitBuffer).

Definition ret {A} (a : A) : op A := fun b => Ok (Some a, b).
Definition fail {A} : op A := fun b => Ok (None, b).
Definition andThen {A B} (m : op A) (k : A -> op B) : op B := fun b =>
  match m b with
  | Ok (Some a, b) => k a b
  | Ok (None, b) => Ok (None, b)
  | Oob => Oob
  | NoFuel => NoFuel
  end.

Declare Scope op_scope.
Delimit Scope op_scope with op.
Notation "'let?' x ':=' m 'in' k" := (andThen m (fun x => k))
  (at level 200, x pattern, m at level 100, k at level 200) : op_scope.
#[local] Open Scope op_scope.

(** ** Reading *)

Definition RemainingBitCount (b : BitBuffer) : Z :=
  u64 ((byte_count_ b - byte_offset_ b) * 8 - bit_offset_ b).

(** [while (bit_count >= 8)]: the bits, the pointer and the count after it. *)
Fixpoint read_bytes (fuel : nat) (bytes : list Z) (ptr bits bit_count : Z) : res (Z * Z * Z) :=
  if 8 <=? bit_count then
    match fuel with
    | O => NoFuel
    | S fuel =>
        let! x := byte bytes ptr in
        read_bytes fuel bytes (ptr + 1) (u32 (Z.lor (Z.shiftl bits 8) x)) (bit_count - 8)
    end
  else Ok (bits, ptr, bit_count).

Definition PeekBits (bit_count : Z) : op Z := fun b =>
  if (RemainingBitCount b <? bit_count) || (32 <? bit_count) then Ok (None, b)
  else
    let remaining_bits_in_current_byte := 8 - bit_offset_ b in
    let! first := byte (bytes_ b) (byte_offset_ b) in
    let bits := LowestBits first remaining_bits_in_current_byte in
    if bit_count <? remaining_bits_in_current_byte then
      Ok (Some (HighestBits bits (bit_offset_ b + bit_count)), b)
    else
      let! (bits, ptr, bit_count) :=
        read_bytes 4 (bytes_ b) (byte_offset_ b + 1) bits
          (bit_count - remaining_bits_in_current_byte) in
      if 0 <? bit_count then
        let! last := byte (bytes_ b) ptr in
        Ok (Some (Z.lor (u32 (Z.shiftl bits bit_count)) (HighestBits last bit_count)), b)
      else Ok (Some bits, b).

Definition ConsumeBits (bit_count : Z) : op unit := fun b =>
  if RemainingBitCount b <? bit_count then Ok (None, b)
  else
    let n := bit_offset_ b + bit_count in
    Ok (Some tt, mk_bits (bytes_ b) (byte_count_ b) (byte_offset_ b + n / 8) (n mod 8)).

Definition ConsumeBytes (byte_count : Z) : op unit := ConsumeBits (byte_count * 8).

Definition ReadBits (bit_count : Z) : op Z :=
  let? val := PeekBits bit_count in
  let? _ := ConsumeBits bit_count in
  ret val.

Definition ReadUInt8 : op Z := ReadBits 8.
Definition ReadUInt16 : op Z := ReadBits 16.
Definition ReadUInt32 : op Z := ReadBits 32.

Definition GetCurrentOffset (b : BitBuffer) : Z * Z := (byte_offset_ b, bit_offset_ b).

Definition Seek (byte_offset bit_offset : Z) : op unit := fun b =>
  if (byte_count_ b <? byte_offset) || (7 <? bit_offset) ||
     ((byte_offset =? byte_count_ b) && (0 <? bit_offset))
  then Ok (None, b)
  else Ok (Some tt, mk_bits (bytes_ b) (byte_count_ b) byte_offset bit_offset).

(** [while (PeekBits(&peeked_bit, 1) && peeked_bit == 0)]: the number of zeros;
    a round takes a bit, so one more than the bits that remain is enough. *)
Fixpoint skip_zeros (fuel : nat) (zero_bit_count : Z) (b : BitBuffer) : res (Z * BitBuffer) :=
  match PeekBits 1 b with
  | Ok (Some peeked_bit, b) =>
      if peeked_bit =? 0 then
        match fuel with
        | O => NoFuel
        | S fuel =>
            let! (_, b) := ConsumeBits 1 b in
            skip_zeros fuel (zero_bit_count + 1) b
        end
      else Ok (zero_bit_count, b)
  | Ok (None, b) => Ok (zero_bit_count, b)
  | Oob => Oob
  | NoFuel => NoFuel
  end.

(** The position is restored when the read fails. *)
Definition ReadExponentialGolomb : op Z := fun b =>
  let! (zero_bit_count, b') := skip_zeros (S (Z.to_nat (RemainingBitCount b))) 0 b in
  let value_bit_count := zero_bit_count + 1 in
  let restore := fun b' : BitBuffer =>
    let! (_, b') := Seek (byte_offset_ b) (bit_offset_ b) b' in Ok (None, b') in
  if 32 <? value_bit_count then restore b'
  else
    let! (val, b') := ReadBits value_bit_count b' in
    match val with
    | None => restore b'
    | Some val => Ok (Some (u32 (val - 1)), b')
    end.

Definition ReadSignedExponentialGolomb : op Z :=
  let? unsigned_val := ReadExponentialGolomb in
  ret (if Z.land unsigned_val 1 =? 0 then - s32 (unsigned_val / 2)
       else s32 (u32 (unsigned_val + 1) / 2)).

(** ** Writing *)

(** [while (bit_count >= 8)]. *)
Fixpoint write_bytes (fuel : nat) (bytes : list Z) (ptr val bit_count : Z)
    : res (list Z * Z * Z * Z) :=
  if 8 <=? bit_count then
    match fuel with
    | O => NoFuel
    | S fuel =>
        let! bytes := set8 bytes ptr (HighestByte val) in
        write_bytes fuel bytes (ptr + 1) (u64 (Z.shiftl val 8)) (bit_count - 8)
    end
  else Ok (bytes, ptr, val, bit_count).

Definition with_bytes (b : BitBuffer) (bytes : list Z) : BitBuffer :=
  mk_bits bytes (byte_count_ b) (byte_offset_ b) (bit_offset_ b).

(** A count of 0 shifts by 64, which is undefined; no caller does that. *)
Definition WriteBits (val bit_count : Z) : op unit := fun b =>
  if RemainingBitCount b <? bit_count then Ok (None, b)
  else
    let total_bits := bit_count in
    let val := u64 (Z.shiftl val (64 - bit_count)) in
    let ptr := byte_offset_ b in
    let remaining_bits_in_current_byte := 8 - bit_offset_ b in
    let bits_in_first_byte := Z.min bit_count remaining_bits_in_current_byte in
    let! old := byte (bytes_ b) ptr in
    let! bytes := set8 (bytes_ b) ptr
      (WritePartialByte (HighestByte val) bits_in_first_byte old (bit_offset_ b)) in
    if bit_count <=? remaining_bits_in_current_byte then ConsumeBits total_bits (with_bytes b bytes)
    else
      let val := u64 (Z.shiftl val bits_in_first_byte) in
      let! (bytes, ptr, val, bit_count) :=
        write_bytes 8 bytes (ptr + 1) val (bit_count - bits_in_first_byte) in
      let! bytes :=
        if 0 <? bit_count then
          let! old := byte bytes ptr in
          set8 bytes ptr (WritePartialByte (HighestByte val) bit_count old 0)
        else Ok bytes in
      ConsumeBits total_bits (with_bytes b bytes).

Definition WriteUInt8 (val : Z) : op unit := WriteBits val 8.
Definition WriteUInt16 (val : Z) : op unit := WriteBits val 16.
Definition WriteUInt32 (val : Z) : op unit := WriteBits val 32.

Definition WriteExponentialGolomb (val : Z) : op unit :=
  if val =? 0xFFFFFFFF then fail
  else
    let val_to_encode := val + 1 in
    WriteBits val_to_encode (CountBits val_to_encode * 2 - 1).

(** ** Lists of bits *)

(** The bit [j] of an array, and [n] bits from there on. *)
Definition bit (p : list Z) (j : Z) : bool := Z.testbit (rd p (j / 8)) (7 - j mod 8).
Fixpoint bits_from (p : list Z) (j : Z) (n : nat) : list bool :=
  match n with O => [] | S n => bit p j :: bits_from p (j + 1) n end.

(** The number some bits denote, and the low [n] bits of a number. *)
Definition num (l : list bool) : Z := fold_left (fun a b => 2 * a + Z.b2z b) l 0.
Fixpoint to_bits (n : nat) (v : Z) : list bool :=
  match n with O => [] | S m => Z.testbit v (Z.of_nat m) :: to_bits m v end.

Lemma num_from l : forall a,
  fold_left (fun a b => 2 * a + Z.b2z b) l a = a * 2 ^ zlen l + num l.
Proof.
  unfold num. induction l as [|b l IH]; intros a; cbn [fold_left].
  - rewrite zlen_nil. lia.
  - rewrite IH, (IH (2 * 0 + Z.b2z b)), zlen_cons, Z.pow_add_r by (pose proof (zlen_nonneg l); lia). lia.
Qed.

Lemma num_app a b : num (a ++ b) = num a * 2 ^ zlen b + num b.
Proof. unfold num at 1. rewrite fold_left_app. apply num_from. Qed.

Lemma num_cons b l : num (b :: l) = Z.b2z b * 2 ^ zlen l + num l.
Proof. exact (num_app [b] l). Qed.

Lemma num_range l : 0 <= num l < 2 ^ zlen l.
Proof.
  induction l as [|b l IH]; [cbn; lia|].
  rewrite num_cons, zlen_cons, Z.pow_add_r by (pose proof (zlen_nonneg l); lia).
  destruct b; cbn [Z.b2z]; lia.
Qed.

Lemma length_to_bits n v : length (to_bits n v) = n.
Proof. induction n; cbn [to_bits length]; auto. Qed.
Lemma zlen_to_bits n v : zlen (to_bits n v) = Z.of_nat n.
Proof. unfold zlen. now rewrite length_to_bits. Qed.
Lemma length_bits_from p n : forall j, length (bits_from p j n) = n.
Proof. induction n; intros j; cbn [bits_from length]; auto. Qed.
Lemma zlen_bits_from p n j : zlen (bits_from p j n) = Z.of_nat n.
Proof. unfold zlen. now rewrite length_bits_from. Qed.
#[export] Hint Rewrite zlen_to_bits zlen_bits_from : zlen.

Lemma num_to_bits n v : num (to_bits n v) = v mod 2 ^ Z.of_nat n.
Proof.
  induction n as [|n IH]; [now rewrite Z.mod_1_r|].
  cbn [to_bits]. rewrite num_cons, IH, zlen_to_bits, Nat2Z.inj_succ, Z.testbit_spec' by lia.
  rewrite (Z.pow_succ_r 2) by lia. rewrite (Z.mul_comm 2), Z.rem_mul_r by lia. lia.
Qed.

Lemma bits_from_app p n m : forall j,
  bits_from p j (n + m) = bits_from p j n ++ bits_from p (j + Z.of_nat n) m.
Proof.
  induction n as [|n IH]; intros j; cbn [bits_from Nat.add app].
  - now rewrite Z.add_0_r.
  - rewrite IH. do 3 f_equal. lia.
Qed.

Lemma bits_from_ext p q n : forall j,
  (forall k, j <= k < j + Z.of_nat n -> bit p k = bit q k) -> bits_from p j n = bits_from q j n.
Proof.
  induction n as [|n IH]; intros j H; cbn [bits_from]; [reflexivity|].
  rewrite H by lia. f_equal. apply IH. intros k Hk. apply H. lia.
Qed.

(** Bits inside one byte. *)
Lemma bits_in_byte p k n : forall o,
  0 <= o -> o + Z.of_nat n <= 8 ->
  bits_from p (8 * k + o) n = to_bits n (Z.shiftr (rd p k) (8 - o - Z.of_nat n)).
Proof.
  induction n as [|n IH]; intros o Ho Hn; [reflexivity|].
  cbn [bits_from to_bits]. rewrite Nat2Z.inj_succ in *. f_equal.
  - unfold bit. rewrite Z.shiftr_spec by lia. f_equal; [f_equal; dlia|dlia].
  - replace (8 * k + o + 1) with (8 * k + (o + 1)) by lia. rewrite IH by lia.
    do 2 f_equal. lia.
Qed.

Lemma bits_byte p k : bits_from p (8 * k) 8 = to_bits 8 (rd p k).
Proof.
  rewrite <- (Z.add_0_r (8 * k)), bits_in_byte by lia. now rewrite Z.shiftr_0_r.
Qed.

(** ** Well-formed buffers *)

Record wf (b : BitBuffer) : Prop := {
  wf_bytes : bytes (bytes_ b);
  wf_count : 0 <= byte_count_ b <= zlen (bytes_ b);
  wf_max : byte_count_ b < 4294967296;
  wf_off : 0 <= byte_offset_ b <= byte_count_ b;
  wf_bit : 0 <= bit_offset_ b < 8;
  wf_end : byte_offset_ b = byte_count_ b -> bit_offset_ b = 0
}.

(** The position and the number of bits that remain, the bits before and after
    the position. *)
Definition pos (b : BitBuffer) : Z := 8 * byte_offset_ b + bit_offset_ b.
Definition left (b : BitBuffer) : Z := 8 * byte_count_ b - pos b.
Definition rest (b : BitBuffer) : list bool :=
  bits_from (bytes_ b) (pos b) (Z.to_nat (left b)).
Definition done (b : BitBuffer) : list bool := bits_from (bytes_ b) 0 (Z.to_nat (pos b)).

Lemma left_nonneg b : wf b -> 0 <= left b.
Proof.
  intros [_ _ _ Ho Hb He]. unfold left, pos. destruct (Z.eq_dec (byte_offset_ b) (byte_count_ b)) as [E|];
    [rewrite (He E)|]; lia.
Qed.

Lemma zlen_rest b : wf b -> zlen (rest b) = left b.
Proof. intros H. unfold rest. rewrite zlen_bits_from. pose proof (left_nonneg b H). lia. Qed.

Lemma Remaining_left b : wf b -> RemainingBitCount b = left b.
Proof.
  intros H. pose proof (left_nonneg b H). destruct H. unfold RemainingBitCount, left, pos in *. int_lia.
Qed.

(** ** The bits of a byte *)

Lemma LowestBits_mod x k : 0 <= k -> LowestBits x k = x mod 2 ^ k.
Proof. intros H. unfold LowestBits. now rewrite Z.shiftl_1_l, land_ones_mod. Qed.

Lemma HighestBits_div x k : in_u8 x -> 0 <= k <= 8 -> HighestBits x k = x / 2 ^ (8 - k).
Proof.
  intros Hx Hk. unfold HighestBits. rewrite <- shiftr_div by lia. apply Z.bits_inj'. intros n Hn.
  rewrite !Z.shiftr_spec, Z.land_spec by lia.
  assert (Hm : forallb (fun k => forallb (fun n =>
      Bool.eqb (Z.testbit (u8 (Z.shiftl 255 (8 - Z.of_nat k))) (Z.of_nat n + (8 - Z.of_nat k)))
               (Z.of_nat n <? Z.of_nat k)) (seq 0 9)) (seq 0 9) = true) by (vm_compute; reflexivity).
  destruct (Z.ltb_spec n k).
  - rewrite forallb_forall in Hm. specialize (Hm (Z.to_nat k) ltac:(apply in_seq; lia)). cbv beta in Hm.
    rewrite forallb_forall in Hm. specialize (Hm (Z.to_nat n) ltac:(apply in_seq; lia)). cbv beta in Hm.
    rewrite !Z2Nat.id in Hm by lia. apply eqb_prop in Hm. rewrite Hm.
    replace (n <? k) with true by lia. apply andb_true_r.
  - assert (Hz : Z.testbit x (n + (8 - k)) = false).
    { rewrite <- (Z.mod_small x (2 ^ 8)) by (int_unfold; cbn; lia). apply Z.mod_pow2_bits_high. lia. }
    now rewrite Hz.
Qed.

Lemma num_bits_in_byte p k o n :
  in_u8 (rd p k) -> 0 <= o -> 0 <= n -> o + n <= 8 ->
  num (bits_from p (8 * k + o) (Z.to_nat n)) = (rd p k / 2 ^ (8 - o - n)) mod 2 ^ n.
Proof.
  intros Hx Ho Hn Hon. rewrite bits_in_byte by lia. rewrite num_to_bits, Z2Nat.id by lia.
  now rewrite shiftr_div by lia.
Qed.

(** ** Reading *)

Lemma read_bytes_spec p fuel : forall ptr j n c,
  bytes p -> 0 <= c -> c / 8 <= Z.of_nat fuel -> 0 <= ptr -> ptr + c / 8 <= zlen p ->
  0 <= n -> n + c <= 32 -> j + n = 8 * ptr ->
  read_bytes fuel p ptr (num (bits_from p j (Z.to_nat n))) c =
    Ok (num (bits_from p j (Z.to_nat (n + 8 * (c / 8)))), ptr + c / 8, c mod 8).
Proof.
  induction fuel as [|fuel IH]; intros ptr j n c Hp Hc Hf Hptr Hz Hn Hnc Hj; cbn [read_bytes];
    destruct (Z.leb_spec 8 c) as [H8|H8].
  - exfalso. dlia.
  - replace (c / 8) with 0 by dlia. rewrite Z.mul_0_r, !Z.add_0_r. now rewrite Z.mod_small by lia.
  - rewrite byte_ok by dlia. cbn [bind].
    assert (Hb : in_u8 (rd p ptr)) by now apply bytes_rd.
    assert (E : u32 (Z.lor (Z.shiftl (num (bits_from p j (Z.to_nat n))) 8) (rd p ptr)) =
                num (bits_from p j (Z.to_nat (n + 8)))).
    { replace (Z.to_nat (n + 8)) with (Z.to_nat n + 8)%nat by lia. rewrite bits_from_app, num_app.
      replace (j + Z.of_nat (Z.to_nat n)) with (8 * ptr) by lia. rewrite bits_byte, num_to_bits, zlen_to_bits.
      change (2 ^ Z.of_nat 8) with 256. rewrite (Z.mod_small (rd p ptr)) by int_lia.
      pose proof (num_range (bits_from p j (Z.to_nat n))) as Hr. rewrite zlen_bits_from, Z2Nat.id in Hr by lia.
      rewrite shiftl_mul, Z.lor_comm by lia. change (2 ^ 8) with 256 at 1.
      rewrite (lor_add (rd p ptr) _ 8) by (try int_lia; cbn; int_lia). change (2 ^ 8) with 256.
      assert (2 ^ n <= 2 ^ 24) by (apply Z.pow_le_mono_r; lia). change (2 ^ 24) with 16777216 in *.
      rewrite u32_id by int_lia. lia. }
    rewrite E, IH by (try assumption; try lia; dlia).
    replace ((c - 8) / 8) with (c / 8 - 1) by dlia. replace ((c - 8) mod 8) with (c mod 8) by dlia.
    replace (n + 8 + 8 * (c / 8 - 1)) with (n + 8 * (c / 8)) by lia.
    now replace (ptr + 1 + (c / 8 - 1)) with (ptr + c / 8) by lia.
  - replace (c / 8) with 0 by dlia. rewrite Z.mul_0_r, !Z.add_0_r. now rewrite Z.mod_small by lia.
Qed.

Lemma PeekBits_spec b n :
  wf b -> 1 <= n <= 32 ->
  PeekBits n b =
    Ok (if left b <? n then None else Some (num (bits_from (bytes_ b) (pos b) (Z.to_nat n))), b).
Proof.
  intros W Hn. pose proof (left_nonneg b W). unfold PeekBits. rewrite Remaining_left by exact W.
  replace (32 <? n) with false by lia. rewrite orb_false_r.
  destruct (Z.ltb_spec (left b) n) as [Hl|Hl]; [reflexivity|].
  destruct W as [Hp Hc Hm Ho Hb He]. unfold left, pos in *.
  set (o := bit_offset_ b) in *. set (k := byte_offset_ b) in *. set (p := bytes_ b) in *.
  rewrite byte_ok by lia. cbn [bind]. assert (Hk : in_u8 (rd p k)) by now apply bytes_rd.
  rewrite LowestBits_mod by lia.
  destruct (Z.ltb_spec n (8 - o)) as [Hs|Hs].
  - rewrite HighestBits_div by (try lia; pose proof (Z.mod_pos_bound (rd p k) (2 ^ (8 - o)) ltac:(lia));
      pose proof (Z.mod_le (rd p k) (2 ^ (8 - o)) ltac:(int_lia) ltac:(lia)); int_lia).
    rewrite num_bits_in_byte by (try assumption; lia). do 3 f_equal.
    replace (8 - (o + n)) with (8 - o - n) by lia. rewrite <- !shiftr_div by lia.
    rewrite <- !Z.land_ones by lia. apply Z.bits_inj'. intros q Hq.
    rewrite Z.shiftr_spec, !Z.land_spec, Z.shiftr_spec by lia.
    rewrite !Z.testbit_ones by lia. f_equal. lia.
  - assert (E : rd p k mod 2 ^ (8 - o) = num (bits_from p (8 * k + o) (Z.to_nat (8 - o)))).
    { rewrite num_bits_in_byte by (try assumption; lia). replace (8 - o - (8 - o)) with 0 by lia.
      now rewrite Z.pow_0_r, Z.div_1_r. }
    rewrite E, read_bytes_spec by (try assumption; try lia; dlia). cbn [bind].
    set (c := n - (8 - o)) in *. destruct (Z.ltb_spec 0 (c mod 8)) as [Hr|Hr].
    + rewrite byte_ok by dlia. cbn [bind]. do 3 f_equal.
      rewrite HighestBits_div by (try (now apply bytes_rd); dlia).
      replace (Z.to_nat n) with (Z.to_nat (8 - o + 8 * (c / 8)) + Z.to_nat (c mod 8))%nat by dlia.
      rewrite bits_from_app, num_app, zlen_bits_from, !Z2Nat.id by dlia.
      replace (8 * k + o + (8 - o + 8 * (c / 8))) with (8 * (k + 1 + c / 8) + 0) by lia.
      rewrite (num_bits_in_byte p (k + 1 + c / 8) 0 (c mod 8)) by (try (now apply bytes_rd); dlia).
      rewrite Z.sub_0_r.
      set (x := rd p (k + 1 + c / 8)). assert (Hx : in_u8 x) by now apply bytes_rd.
      set (r := c mod 8) in *. set (N := num _).
      assert (HN : 0 <= N < 2 ^ (8 - o + 8 * (c / 8))).
      { subst N. pose proof (num_range (bits_from p (8 * k + o) (Z.to_nat (8 - o + 8 * (c / 8))))) as HN.
        rewrite zlen_bits_from, Z2Nat.id in HN by dlia. exact HN. }
      assert (Hq : 0 <= x / 2 ^ (8 - r) < 2 ^ r).
      { assert (Hr8 : 0 <= r < 8) by (apply Z.mod_pos_bound; lia).
        assert (0 < 2 ^ (8 - r)) by (apply Z.pow_pos_nonneg; lia).
        split; [apply Z.div_pos; [apply Hx|assumption]|]. apply Z.div_lt_upper_bound; [assumption|].
        rewrite <- Z.pow_add_r by lia. replace (8 - r + r) with 8 by lia. apply Hx. }
      rewrite (Z.mod_small (x / _)) by exact Hq. rewrite Z.shiftl_mul_pow2 by dlia.
      assert (Hu : in_u32 (N * 2 ^ r)).
      { split; [nia|]. assert (N * 2 ^ r < 2 ^ (8 - o + 8 * (c / 8)) * 2 ^ r) by nia.
        rewrite <- Z.pow_add_r in H0 by dlia.
        assert (2 ^ (8 - o + 8 * (c / 8) + r) <= 2 ^ 32) by (apply Z.pow_le_mono_r; dlia). lia. }
      rewrite u32_id by exact Hu. rewrite Z.lor_comm, lor_add by (try exact Hq; dlia). lia.
    + do 3 f_equal. do 2 f_equal. dlia.
Qed.

(** The buffer [n] bits further on. *)
Definition advance (b : BitBuffer) (n : Z) : BitBuffer :=
  mk_bits (bytes_ b) (byte_count_ b) (byte_offset_ b + (bit_offset_ b + n) / 8)
    ((bit_offset_ b + n) mod 8).

Lemma pos_advance b n : pos (advance b n) = pos b + n.
Proof. unfold pos, advance. cbn [byte_offset_ bit_offset_]. dlia. Qed.

Lemma left_advance b n : left (advance b n) = left b - n.
Proof. unfold left. rewrite pos_advance. cbn [byte_count_ advance]. lia. Qed.

Lemma wf_advance b n : wf b -> 0 <= n <= left b -> wf (advance b n).
Proof.
  intros [Hp Hc Hm Ho Hb He] Hn. unfold left, pos in Hn.
  split; cbn [bytes_ byte_count_ byte_offset_ bit_offset_ advance]; auto; dlia.
Qed.

Lemma rest_advance b n :
  0 <= n <= left b -> rest b = bits_from (bytes_ b) (pos b) (Z.to_nat n) ++ rest (advance b n).
Proof.
  intros H. unfold rest. rewrite left_advance, pos_advance. cbn [bytes_ advance].
  replace (Z.to_nat (left b)) with (Z.to_nat n + Z.to_nat (left b - n))%nat by lia.
  rewrite bits_from_app. now rewrite Z2Nat.id by lia.
Qed.

Lemma ConsumeBits_spec b n :
  wf b -> 0 <= n ->
  ConsumeBits n b = Ok (if left b <? n then (None, b) else (Some tt, advance b n)).
Proof.
  intros W Hn. unfold ConsumeBits. rewrite Remaining_left by exact W. now destruct (left b <? n).
Qed.

Lemma ReadBits_spec b n :
  wf b -> 1 <= n <= 32 ->
  ReadBits n b =
    Ok (if left b <? n then (None, b)
        else (Some (num (bits_from (bytes_ b) (pos b) (Z.to_nat n))), advance b n)).
Proof.
  intros W Hn. unfold ReadBits, andThen. rewrite PeekBits_spec by assumption.
  destruct (left b <? n) eqn:E; [reflexivity|]. rewrite ConsumeBits_spec, E by (assumption || lia).
  reflexivity.
Qed.

(** *** Operations as parsers of lists of bits

    [reads m l a]: where the bits that remain start with [l], the operation
    takes them and gives [a].  [safe m]: in any buffer the operation ends,
    within the array, and leaves a buffer on the same array, no earlier. *)
Definition reads {A} (m : op A) (l : list bool) (a : A) : Prop :=
  forall b t, wf b -> rest b = l ++ t ->
    exists b', m b = Ok (Some a, b') /\ wf b' /\ rest b' = t /\ bytes_ b' = bytes_ b /\
      byte_count_ b' = byte_count_ b.

Definition onward (b b' : BitBuffer) : Prop :=
  wf b' /\ bytes_ b' = bytes_ b /\ byte_count_ b' = byte_count_ b /\ left b' <= left b.

Definition safe {A} (m : op A) : Prop :=
  forall b, wf b -> exists o b', m b = Ok (o, b') /\ onward b b'.

Lemma reads_ret {A} (a : A) : reads (ret a) [] a.
Proof. intros b t W E. exists b. cbn in E. auto 6. Qed.

Lemma reads_bind {A B} (m : op A) (k : A -> op B) l1 l2 a c :
  reads m l1 a -> reads (k a) l2 c -> reads (andThen m k) (l1 ++ l2) c.
Proof.
  intros Hm Hk b t W E. rewrite <- app_assoc in E.
  destruct (Hm b _ W E) as (b1 & E1 & W1 & R1 & P1 & C1).
  destruct (Hk b1 t W1 R1) as (b2 & E2 & W2 & R2 & P2 & C2).
  exists b2. unfold andThen. rewrite E1. do 3 (split; [assumption|]). split; congruence.
Qed.

Lemma onward_refl b : wf b -> onward b b.
Proof. intros W. split; [exact W|]. split; [reflexivity|]. split; [reflexivity|lia]. Qed.

Lemma onward_trans a b c : onward a b -> onward b c -> onward a c.
Proof. intros (_ & P1 & C1 & L1) (W & P2 & C2 & L2). split; [exact W|]. split; [congruence|]. split; [congruence|lia]. Qed.

Lemma safe_ret {A} (a : A) : safe (ret a).
Proof. intros b W. exists (Some a), b. split; [reflexivity|]. now apply onward_refl. Qed.

Lemma safe_fail {A} : safe (@fail A).
Proof. intros b W. exists None, b. split; [reflexivity|]. now apply onward_refl. Qed.

Lemma safe_bind {A B} (m : op A) (k : A -> op B) :
  safe m -> (forall a, safe (k a)) -> safe (andThen m k).
Proof.
  intros Hm Hk b W. destruct (Hm b W) as (o & b1 & E & O1). unfold andThen. rewrite E.
  destruct o as [a|]; [|exists None, b1; auto].
  destruct (Hk a b1 (proj1 O1)) as (o & b2 & E2 & O2). exists o, b2. split; [exact E2|].
  exact (onward_trans _ _ _ O1 O2).
Qed.

Lemma onward_advance b n : wf b -> 0 <= n <= left b -> onward b (advance b n).
Proof.
  intros W Hn. split; [now apply wf_advance|]. do 2 (split; [reflexivity|]). rewrite left_advance. lia.
Qed.

Lemma safe_ReadBits n : 1 <= n <= 32 -> safe (ReadBits n).
Proof.
  intros Hn b W. rewrite ReadBits_spec by assumption.
  destruct (Z.ltb_spec (left b) n); do 2 eexists; (split; [reflexivity|]);
    [now apply onward_refl|apply onward_advance; [exact W|lia]].
Qed.

Lemma safe_ConsumeBits n : 0 <= n -> safe (ConsumeBits n).
Proof.
  intros Hn b W. rewrite ConsumeBits_spec by assumption.
  destruct (Z.ltb_spec (left b) n); do 2 eexists; (split; [reflexivity|]);
    [now apply onward_refl|apply onward_advance; [exact W|lia]].
Qed.

(** [ensures m P]: safe, and a result satisfies [P]. *)
Definition ensures {A} (m : op A) (P : A -> Prop) : Prop :=
  forall b, wf b -> exists o b', m b = Ok (o, b') /\ onward b b' /\
    match o with Some a => P a | None => True end.

Lemma ensures_ret {A} (a : A) (P : A -> Prop) : P a -> ensures (ret a) P.
Proof. intros H b W. exists (Some a), b. split; [reflexivity|]. split; [now apply onward_refl|exact H]. Qed.

Lemma ensures_fail {A} (P : A -> Prop) : ensures fail P.
Proof. intros b W. exists None, b. split; [reflexivity|]. split; [now apply onward_refl|exact I]. Qed.

Lemma ensures_bind {A B} (m : op A) (k : A -> op B) (P : A -> Prop) (Q : B -> Prop) :
  ensures m P -> (forall a, P a -> ensures (k a) Q) -> ensures (andThen m k) Q.
Proof.
  intros Hm Hk b W. destruct (Hm b W) as (o & b1 & E & O1 & HP). unfold andThen. rewrite E.
  destruct o as [a|]; [|exists None, b1; auto].
  destruct (Hk a HP b1 (proj1 O1)) as (o & b2 & E2 & O2 & HQ). exists o, b2. split; [exact E2|].
  split; [exact (onward_trans _ _ _ O1 O2)|exact HQ].
Qed.

Lemma ensures_ReadBits n : 1 <= n <= 32 -> ensures (ReadBits n) (fun v => 0 <= v < 2 ^ n).
Proof.
  intros Hn b W. rewrite ReadBits_spec by assumption.
  destruct (Z.ltb_spec (left b) n); do 2 eexists; (split; [reflexivity|]);
    [split; [now apply onward_refl|exact I]|]. split; [apply onward_advance; [exact W|lia]|].
  pose proof (num_range (bits_from (bytes_ b) (pos b) (Z.to_nat n))) as R. rewrite zlen_bits_from, Z2Nat.id in R by lia.
  exact R.
Qed.

Lemma ensures_safe {A} (m : op A) : safe m -> ensures m (fun _ => True).
Proof.
  intros H b W. destruct (H b W) as (o & b' & E & O). exists o, b'. split; [exact E|]. split; [exact O|]. now destruct o.
Qed.

Lemma ensures_if {A} (c : bool) (m n : op A) P : ensures m P -> ensures n P -> ensures (if c then m else n) P.
Proof. now destruct c. Qed.

Lemma app_eq_length {A} (a : list A) : forall c b d,
  a ++ b = c ++ d -> length a = length c -> c = a /\ d = b.
Proof.
  induction a as [|x a IH]; intros [|y c] b d E L; cbn in *; try lia; [auto|].
  injection E as -> E. destruct (IH c b d E ltac:(lia)) as [-> ->]. auto.
Qed.

(** A prefix of the bits that remain. *)
Lemma rest_prefix b l t :
  wf b -> rest b = l ++ t ->
  zlen l <= left b /\ bits_from (bytes_ b) (pos b) (length l) = l /\ rest (advance b (zlen l)) = t.
Proof.
  intros W E. assert (Hz : zlen l <= left b).
  { rewrite <- (zlen_rest b W), E, zlen_app. pose proof (zlen_nonneg t). lia. }
  pose proof (rest_advance b (zlen l) ltac:(pose proof (zlen_nonneg l); lia)) as R.
  rewrite E in R. unfold zlen in R. rewrite Nat2Z.id in R.
  apply app_eq_length in R; [|now rewrite length_bits_from]. destruct R as [R1 R2]. auto.
Qed.

Lemma reads_bits l n : zlen l = n -> 1 <= n <= 32 -> reads (ReadBits n) l (num l).
Proof.
  intros Hl Hn b t W E. destruct (rest_prefix b l t W E) as (Hz & Hb & Hr).
  exists (advance b n). rewrite ReadBits_spec by assumption.
  replace (left b <? n) with false by lia. rewrite <- Hl.
  unfold zlen at 1. rewrite Nat2Z.id, Hb. split; [reflexivity|].
  split; [apply wf_advance; [exact W|lia]|]. auto.
Qed.

Lemma reads_ConsumeBits l n : zlen l = n -> reads (ConsumeBits n) l tt.
Proof.
  intros Hl b t W E. destruct (rest_prefix b l t W E) as (Hz & Hb & Hr).
  pose proof (zlen_nonneg l).
  exists (advance b n). rewrite ConsumeBits_spec by (assumption || lia).
  replace (left b <? n) with false by lia. rewrite <- Hl. split; [reflexivity|].
  split; [apply wf_advance; [exact W|lia]|]. auto.
Qed.

(** A field of [n] bits. *)
Lemma reads_field v n : 1 <= n <= 32 -> reads (ReadBits n) (to_bits (Z.to_nat n) v) (v mod 2 ^ n).
Proof.
  intros Hn. rewrite <- (Z2Nat.id n) at 3 by lia. rewrite <- num_to_bits.
  apply reads_bits; [|exact Hn]. rewrite zlen_to_bits. lia.
Qed.

Lemma reads_value v n : 1 <= n <= 32 -> 0 <= v < 2 ^ n -> reads (ReadBits n) (to_bits (Z.to_nat n) v) v.
Proof. intros Hn Hv. rewrite <- (Z.mod_small v (2 ^ n)) at 2 by exact Hv. now apply reads_field. Qed.
Lemma reads_flag f : reads (ReadBits 1) [f] (if f then 1 else 0).
Proof. replace (if f then 1 else 0) with (num [f]) by now destruct f. now apply reads_bits. Qed.
Lemma reads_then {A B} (m : op A) (g : A -> B) l a : reads m l a -> reads (let? x := m in ret (g x)) l (g a).
Proof. intros H. rewrite <- (app_nil_r l). apply (reads_bind _ _ _ _ a); [exact H|apply reads_ret]. Qed.

(** A stage that is there or not. *)
Lemma reads_if {A} (c : bool) (m : op A) l (a x : A) :
  (c = true -> reads m l a) -> reads (if c then m else ret x) (if c then l else []) (if c then a else x).
Proof. destruct c; intros H; [now apply H|apply reads_ret]. Qed.

(** *** Exponential Golomb codes *)

Lemma advance_0 b : wf b -> advance b 0 = b.
Proof.
  intros [_ _ _ _ Hb _]. unfold advance. destruct b as [p c o i]. cbn [bytes_ byte_count_ byte_offset_ bit_offset_] in *.
  f_equal; dlia.
Qed.

Lemma advance_advance b m n : advance (advance b m) n = advance b (m + n).
Proof. unfold advance. cbn [bytes_ byte_count_ byte_offset_ bit_offset_]. f_equal; dlia. Qed.

Lemma rest_nil b : wf b -> left b = 0 -> rest b = [].
Proof. intros W E. apply length_zero_iff_nil. pose proof (zlen_rest b W) as H. unfold zlen in H. lia. Qed.

Lemma rest_cons b : wf b -> 1 <= left b -> rest b = bit (bytes_ b) (pos b) :: rest (advance b 1).
Proof. intros W E. now rewrite (rest_advance b 1) by lia. Qed.

Lemma skip_zeros_spec fuel : forall n b,
  wf b -> left b <= Z.of_nat fuel ->
  exists z, skip_zeros fuel n b = Ok (n + z, advance b z) /\ 0 <= z <= left b /\
    rest b = repeat false (Z.to_nat z) ++ rest (advance b z) /\
    (rest (advance b z) = [] \/ exists t, rest (advance b z) = true :: t).
Proof.
  induction fuel as [|fuel IH]; intros n b W Hf; pose proof (left_nonneg b W); cbn [skip_zeros];
    rewrite PeekBits_spec by (assumption || lia); destruct (Z.ltb_spec (left b) 1) as [H1|H1].
  - exists 0. rewrite advance_0, Z.add_0_r by exact W. repeat split; try lia. left. apply rest_nil; [exact W|lia].
  - exfalso. lia.
  - exists 0. rewrite advance_0, Z.add_0_r by exact W. repeat split; try lia. left. apply rest_nil; [exact W|lia].
  - pose proof (rest_cons b W H1) as R. change (Z.to_nat 1) with 1%nat. cbn [bits_from].
    destruct (bit (bytes_ b) (pos b)).
    + exists 0. rewrite advance_0, Z.add_0_r by exact W. repeat split; try lia. right. eauto.
    + cbn [num fold_left Z.b2z Z.mul Z.add Z.eqb]. rewrite ConsumeBits_spec by (assumption || lia).
      replace (left b <? 1) with false by lia. cbn [bind].
      destruct (IH (n + 1) (advance b 1)) as (z & E & Hz & Rz & T);
        [apply wf_advance; [exact W|lia]|rewrite left_advance; lia|].
      rewrite left_advance in Hz. rewrite advance_advance in *. exists (1 + z). rewrite E.
      replace (n + (1 + z)) with (n + 1 + z) by lia.
      split; [reflexivity|]. split; [lia|]. split; [|exact T].
      rewrite R, Rz. now replace (Z.to_nat (1 + z)) with (S (Z.to_nat z)) by lia.
Qed.

Lemma Seek_back b z : wf b -> Seek (byte_offset_ b) (bit_offset_ b) (advance b z) = Ok (Some tt, b).
Proof.
  intros [_ _ _ Ho Hb He]. unfold Seek. cbn [byte_count_ advance bytes_].
  replace (byte_count_ b <? byte_offset_ b) with false by lia.
  replace (7 <? bit_offset_ b) with false by lia. cbn [orb].
  destruct (Z.eqb_spec (byte_offset_ b) (byte_count_ b)) as [E|E].
  - rewrite (He E). cbn. destruct b; cbn in *. now rewrite (He E).
  - now destruct b.
Qed.

(** The whole of the read: the zeros [z] are skipped and [z + 1] bits are read. *)
Lemma ReadExponentialGolomb_spec b :
  wf b -> exists z, 0 <= z <= left b /\
    rest b = repeat false (Z.to_nat z) ++ rest (advance b z) /\
    (rest (advance b z) = [] \/ exists t, rest (advance b z) = true :: t) /\
    ReadExponentialGolomb b =
      Ok (if (32 <? z + 1) || (left b - z <? z + 1) then (None, b)
          else (Some (u32 (num (bits_from (bytes_ b) (pos b + z) (Z.to_nat (z + 1))) - 1)),
                advance b (2 * z + 1))).
Proof.
  intros W. pose proof (left_nonneg b W).
  destruct (skip_zeros_spec (S (Z.to_nat (left b))) 0 b W ltac:(lia)) as (z & E & Hz & R & T).
  exists z. split; [exact Hz|]. split; [exact R|]. split; [exact T|].
  unfold ReadExponentialGolomb. rewrite Remaining_left, E by exact W. cbn [bind Z.add].
  destruct (Z.ltb_spec 32 (z + 1)) as [H32|H32]; [now rewrite Seek_back|]. cbn [orb].
  rewrite ReadBits_spec by (try (apply wf_advance; [exact W|lia]); lia).
  rewrite left_advance, pos_advance, advance_advance.
  destruct (Z.ltb_spec (left b - z) (z + 1)) as [Hl|Hl]; cbn [bind]; [now rewrite Seek_back|].
  do 3 f_equal. lia.
Qed.

Lemma safe_ReadExponentialGolomb : safe ReadExponentialGolomb.
Proof.
  intros b W. destruct (ReadExponentialGolomb_spec b W) as (z & Hz & _ & _ & E). rewrite E.
  destruct (orb _ _) eqn:H; do 2 eexists; (split; [reflexivity|]); [now apply onward_refl|].
  apply onward_advance; [exact W|]. apply orb_false_iff in H. lia.
Qed.

Lemma safe_ReadSignedExponentialGolomb : safe ReadSignedExponentialGolomb.
Proof. apply safe_bind; [exact safe_ReadExponentialGolomb|]. intros a. apply safe_ret. Qed.

(** ** Writing *)

(** The low [m] bits of [v] at the top of 64 bits. *)
Definition top (v m : Z) : Z := u64 (Z.shiftl v (64 - m)).

Lemma u64_testbit x q : 0 <= q < 64 -> Z.testbit (u64 x) q = Z.testbit x q.
Proof. intros H. change (u64 x) with (x mod 2 ^ 64). now rewrite Z.mod_pow2_bits_low by lia. Qed.

Lemma top_testbit v m q : 0 <= q < 64 -> Z.testbit (top v m) q = Z.testbit v (q - (64 - m)).
Proof. intros H. unfold top. rewrite u64_testbit, Z.shiftl_spec by lia. reflexivity. Qed.

Lemma u64_ext x y :
  (forall q, 0 <= q < 64 -> Z.testbit x q = Z.testbit y q) -> u64 x = u64 y.
Proof.
  intros H. change (x mod 2 ^ 64 = y mod 2 ^ 64). apply Z.bits_inj'. intros q Hq.
  destruct (Z.ltb_spec q 64); [rewrite !Z.mod_pow2_bits_low by lia; auto|].
  now rewrite !Z.mod_pow2_bits_high by lia.
Qed.

Lemma top_shiftl v m k : 0 <= k <= m -> m <= 64 -> u64 (Z.shiftl (top v m) k) = top v (m - k).
Proof.
  intros Hk Hm. apply u64_ext. intros q Hq. rewrite !Z.shiftl_spec by lia.
  destruct (Z.ltb_spec (q - k) 0).
  - rewrite !Z.testbit_neg_r by lia. reflexivity.
  - rewrite top_testbit by lia. f_equal. lia.
Qed.

Lemma u8_testbit x q : 0 <= q < 8 -> Z.testbit (u8 x) q = Z.testbit x q.
Proof. intros H. change (u8 x) with (x mod 2 ^ 8). now rewrite Z.mod_pow2_bits_low by lia. Qed.

Lemma HighestByte_top v m q : 0 <= q < 8 -> Z.testbit (HighestByte (top v m)) q = Z.testbit v (q + m - 8).
Proof.
  intros H. unfold HighestByte. rewrite u8_testbit, Z.shiftr_spec, top_testbit by lia. f_equal. lia.
Qed.

(** The mask has the [c] bits from offset [o] on. *)
Lemma partial_mask o c q :
  0 <= o < 8 -> 0 <= c <= 8 - o -> 0 <= q < 8 ->
  Z.testbit (Z.shiftr (u8 (Z.shiftl 0xFF (8 - c))) o) q = (8 - o - c <=? q) && (q <? 8 - o).
Proof.
  intros Ho Hc Hq.
  assert (B : forallb (fun o => forallb (fun c => forallb (fun q =>
      Bool.eqb (Z.testbit (Z.shiftr (u8 (Z.shiftl 255 (8 - c))) o) q)
        ((8 - o - c <=? q) && (q <? 8 - o)))
      (map Z.of_nat (seq 0 8))) (map Z.of_nat (seq 0 (S (Z.to_nat (8 - o))))))
      (map Z.of_nat (seq 0 8)) = true) by (vm_compute; reflexivity).
  assert (I : forall n k, 0 <= k < Z.of_nat n -> In k (map Z.of_nat (seq 0 n))).
  { intros n k Hk. apply in_map_iff. exists (Z.to_nat k). rewrite in_seq. lia. }
  rewrite forallb_forall in B. specialize (B o (I 8%nat o ltac:(lia))). cbv beta in B.
  rewrite forallb_forall in B. specialize (B c (I (S (Z.to_nat (8 - o))) c ltac:(lia))). cbv beta in B.
  rewrite forallb_forall in B. specialize (B q (I 8%nat q ltac:(lia))). cbv beta in B.
  now apply eqb_prop in B.
Qed.

Lemma WritePartialByte_testbit s c t o q :
  0 <= o < 8 -> 0 <= c <= 8 - o -> 0 <= q < 8 ->
  (q < 8 - o - c -> Z.testbit s (q + o) = false) -> in_u8 s ->
  Z.testbit (WritePartialByte s c t o) q =
    if (8 - o - c <=? q) && (q <? 8 - o) then Z.testbit s (q + o) else Z.testbit t q.
Proof.
  intros Ho Hc Hq Hs Hu. unfold WritePartialByte.
  rewrite u8_testbit, Z.lor_spec, Z.land_spec, Z.lnot_spec, partial_mask, Z.shiftr_spec by lia.
  destruct (Z.leb_spec (8 - o - c) q) as [H1|H1]; cbn [andb negb].
  - destruct (Z.ltb_spec q (8 - o)) as [H2|H2]; cbn [andb negb].
    + now rewrite andb_false_r.
    + rewrite andb_true_r. replace (Z.testbit s (q + o)) with false; [apply orb_false_r|].
      symmetry. rewrite <- (Z.mod_small s (2 ^ 8)) by exact Hu. apply Z.mod_pow2_bits_high. lia.
  - rewrite Hs by lia. now rewrite andb_true_r, orb_false_r.
Qed.

Lemma WritePartialByte_u8 s c t o : in_u8 (WritePartialByte s c t o).
Proof. apply u8_range. Qed.

(** [wrote p p' a n f]: [p'] is [p] with the [n] bits from [a] on those of [f]. *)
Definition wrote (p p' : list Z) (a n : Z) (f : Z -> bool) : Prop :=
  zlen p' = zlen p /\ bytes p' /\
  forall j, 0 <= j -> bit p' j = if (a <=? j) && (j <? a + n) then f j else bit p j.

Lemma wrote_trans p p1 p2 a m n f :
  wrote p p1 a m f -> wrote p1 p2 (a + m) n f -> 0 <= m -> 0 <= n -> wrote p p2 a (m + n) f.
Proof.
  intros (Z1 & B1 & H1) (Z2 & B2 & H2) Hm Hn. split; [lia|]. split; [exact B2|]. intros j Hj.
  rewrite H2, H1 by lia. repeat case_if; try reflexivity; exfalso; bool_lia.
Qed.

Lemma wrote_0 p a f : bytes p -> wrote p p a 0 f.
Proof. intros B. split; [reflexivity|]. split; [exact B|]. intros j Hj. now replace ((a <=? j) && (j <? a + 0)) with false by lia. Qed.

Lemma wrote_byte p k x o c f :
  bytes p -> 0 <= k < zlen p -> in_u8 x -> 0 <= o -> 0 <= c -> o + c <= 8 ->
  (forall q, 0 <= q < 8 -> Z.testbit x q =
     if (8 - o - c <=? q) && (q <? 8 - o) then f (8 * k + 7 - q) else Z.testbit (rd p k) q) ->
  wrote p (wr p k x) (8 * k + o) c f.
Proof.
  intros B Hk Hx Ho Hc Hoc H. split; [now autorewrite with zlen|].
  split; [rewrite <- (u8_id x) by exact Hx; now apply bytes_wr|]. intros j Hj. unfold bit.
  destruct (Z.eq_dec (j / 8) k) as [E|E].
  - rewrite E, rd_wr_eq, H by dlia. replace (8 * k + 7 - (7 - j mod 8)) with j by dlia.
    repeat case_if; try reflexivity; exfalso; Z.div_mod_to_equations; bool_lia.
  - rewrite rd_wr_ne by lia. repeat case_if; try reflexivity; exfalso; Z.div_mod_to_equations; bool_lia.
Qed.

Lemma write_bytes_spec v fuel : forall p ptr m e,
  bytes p -> 0 <= m <= 64 -> m / 8 <= Z.of_nat fuel -> 0 <= ptr -> ptr + m / 8 <= zlen p ->
  e = 8 * ptr + m ->
  exists p', write_bytes fuel p ptr (top v m) m = Ok (p', ptr + m / 8, top v (m mod 8), m mod 8) /\
    wrote p p' (8 * ptr) (8 * (m / 8)) (fun j => Z.testbit v (e - 1 - j)).
Proof.
  induction fuel as [|fuel IH]; intros p ptr m e Hp Hm Hf Hptr Hz He; cbn [write_bytes];
    destruct (Z.leb_spec 8 m) as [H8|H8].
  - exfalso. dlia.
  - exists p. replace (m / 8) with 0 by dlia. rewrite Z.add_0_r, Z.mod_small by lia.
    split; [reflexivity|now apply wrote_0].
  - rewrite set8_ok by dlia. cbn [bind]. rewrite top_shiftl by lia.
    assert (Hu : in_u8 (HighestByte (top v m))) by apply u8_range. rewrite u8_id by exact Hu.
    assert (W : wrote p (wr p ptr (HighestByte (top v m))) (8 * ptr + 0) 8 (fun j => Z.testbit v (e - 1 - j))).
    { apply wrote_byte; try assumption; try lia; [dlia|]. intros q Hq. rewrite HighestByte_top by lia.
      replace ((8 - 0 - 8 <=? q) && (q <? 8 - 0)) with true by lia. f_equal. lia. }
    destruct (IH (wr p ptr (HighestByte (top v m))) (ptr + 1) (m - 8) e) as (p' & E & W');
      try (autorewrite with zlen); try lia; try dlia; [apply W|].
    exists p'. rewrite E. replace ((m - 8) / 8) with (m / 8 - 1) in * by dlia.
    replace ((m - 8) mod 8) with (m mod 8) by dlia.
    replace (ptr + 1 + (m / 8 - 1)) with (ptr + m / 8) by lia. split; [reflexivity|].
    replace (8 * (m / 8)) with (8 + 8 * (m / 8 - 1)) by lia. rewrite Z.add_0_r in W.
    apply (wrote_trans _ _ _ _ _ _ _ W); [|lia|dlia].
    now replace (8 * ptr + 8) with (8 * (ptr + 1)) by lia.
  - exists p. replace (m / 8) with 0 by dlia. rewrite Z.add_0_r, Z.mod_small by lia.
    split; [reflexivity|now apply wrote_0].
Qed.

(** A partial byte of a number. *)
Lemma wrote_partial v p k o m c e :
  bytes p -> 0 <= k < zlen p -> 0 <= o < 8 -> 0 <= m <= 64 -> c = Z.min m (8 - o) ->
  e = 8 * k + o + m ->
  wrote p (wr p k (u8 (WritePartialByte (HighestByte (top v m)) c (rd p k) o))) (8 * k + o) c
    (fun j => Z.testbit v (e - 1 - j)).
Proof.
  intros Hp Hk Ho Hm Hc He. rewrite u8_id by apply WritePartialByte_u8.
  apply wrote_byte; try assumption; try lia; [apply WritePartialByte_u8|]. intros q Hq.
  rewrite WritePartialByte_testbit; try lia; [|intros Hs; rewrite HighestByte_top by lia; apply Z.testbit_neg_r; lia|apply u8_range].
  destruct (andb _ _) eqn:A; [|reflexivity]. rewrite HighestByte_top by lia. f_equal. lia.
Qed.

Lemma wf_with_bytes b p : wf b -> bytes p -> zlen p = zlen (bytes_ b) -> wf (with_bytes b p).
Proof.
  intros [Hp Hc Hm Ho Hb He] B Z. split; cbn [bytes_ byte_count_ byte_offset_ bit_offset_ with_bytes]; auto; lia.
Qed.

Lemma WriteBits_spec v n b :
  wf b -> 1 <= n <= 64 ->
  if left b <? n then WriteBits v n b = Ok (None, b)
  else exists p', WriteBits v n b = Ok (Some tt, advance (with_bytes b p') n) /\
    wrote (bytes_ b) p' (pos b) n (fun j => Z.testbit v (pos b + n - 1 - j)).
Proof.
  intros W Hn. unfold WriteBits. rewrite Remaining_left by exact W.
  destruct (Z.ltb_spec (left b) n) as [Hl|Hl]; [reflexivity|].
  assert (Done : forall p', wrote (bytes_ b) p' (pos b) n (fun j => Z.testbit v (pos b + n - 1 - j)) ->
    exists p'', ConsumeBits n (with_bytes b p') = Ok (Some tt, advance (with_bytes b p'') n) /\
      wrote (bytes_ b) p'' (pos b) n (fun j => Z.testbit v (pos b + n - 1 - j))).
  { intros p' Wp. exists p'. split; [|exact Wp].
    assert (W' : wf (with_bytes b p')) by (apply wf_with_bytes; [exact W|apply Wp|apply Wp]).
    rewrite ConsumeBits_spec by (assumption || lia).
    change (left (with_bytes b p')) with (left b). now replace (left b <? n) with false by lia. }
  destruct W as [Hp Hc Hm Ho Hb He]. unfold left in Hl.
  set (o := bit_offset_ b) in *. set (k := byte_offset_ b) in *. set (p := bytes_ b) in *.
  assert (Hpos : pos b = 8 * k + o) by reflexivity.
  rewrite byte_ok by lia. cbn [bind]. rewrite set8_ok by lia. cbn [bind]. fold (top v n).
  set (c := Z.min n (8 - o)).
  pose proof (wrote_partial v p k o n c (pos b + n) Hp ltac:(lia) Hb ltac:(lia) eq_refl ltac:(lia)) as W1.
  set (p1 := wr p k _) in *. rewrite <- Hpos in W1.
  destruct (Z.leb_spec n (8 - o)) as [Hs|Hs].
  { apply Done. now replace c with n in W1 by lia. }
  rewrite top_shiftl by lia.
  destruct (write_bytes_spec v 8 p1 (k + 1) (n - c) (pos b + n)) as (p2 & E & W2);
    try lia; [apply W1|dlia|destruct W1 as (-> & _); dlia|].
  rewrite E. cbn [bind]. replace (8 * (k + 1)) with (pos b + c) in W2 by lia.
  pose proof (wrote_trans _ _ _ _ _ _ _ W1 W2 ltac:(lia) ltac:(dlia)) as W12.
  destruct (Z.ltb_spec 0 ((n - c) mod 8)) as [Hr|Hr]; cbn [bind].
  - rewrite byte_ok by (destruct W12 as (-> & _); dlia). cbn [bind].
    rewrite set8_ok by (destruct W12 as (-> & _); dlia). cbn [bind]. apply Done.
    set (p3 := wr p2 _ _). replace n with (c + 8 * ((n - c) / 8) + (n - c) mod 8) at 1 by dlia.
    apply (wrote_trans _ _ _ _ _ _ _ W12); [|dlia|dlia].
    replace (pos b + (c + 8 * ((n - c) / 8))) with (8 * (k + 1 + (n - c) / 8) + 0) by lia.
    subst p3. apply wrote_partial; try lia; try dlia; [apply W12|destruct W12 as (-> & _); dlia].
  - apply Done. now replace n with (c + 8 * ((n - c) / 8)) at 1 by dlia.
Qed.

(** *** Operations as printers of lists of bits

    [writes m l]: with room for [l] the operation appends it to the bits before
    the position and changes no bit after them. *)
Definition writes (m : op unit) (l : list bool) : Prop :=
  forall b, wf b -> zlen l <= left b ->
    exists b', m b = Ok (Some tt, b') /\ wf b' /\ byte_count_ b' = byte_count_ b /\
      zlen (bytes_ b') = zlen (bytes_ b) /\ pos b' = pos b + zlen l /\
      done b' = done b ++ l /\
      (forall j, pos b' <= j -> bit (bytes_ b') j = bit (bytes_ b) j).

Lemma bits_from_to_bits p v n : forall j,
  (forall i, 0 <= i < Z.of_nat n -> bit p (j + i) = Z.testbit v (Z.of_nat n - 1 - i)) ->
  bits_from p j n = to_bits n v.
Proof.
  induction n as [|n IH]; intros j H; cbn [bits_from to_bits]; [reflexivity|]. f_equal.
  - rewrite <- (Z.add_0_r j), H by lia. f_equal. lia.
  - apply IH. intros i Hi. rewrite <- Z.add_assoc, H by lia. f_equal. lia.
Qed.

Lemma pos_nonneg b : wf b -> 0 <= pos b.
Proof. intros [_ _ _ Ho Hb _]. unfold pos. lia. Qed.

Lemma writes_bits v n : 1 <= n <= 64 -> writes (WriteBits v n) (to_bits (Z.to_nat n) v).
Proof.
  intros Hn b W Hl. rewrite zlen_to_bits, Z2Nat.id in Hl by lia.
  pose proof (WriteBits_spec v n b W Hn) as S. replace (left b <? n) with false in S by lia.
  destruct S as (p' & E & Z & B & H). exists (advance (with_bytes b p') n).
  assert (W' : wf (with_bytes b p')) by now apply wf_with_bytes.
  pose proof (pos_nonneg b W). rewrite pos_advance. change (pos (with_bytes b p')) with (pos b).
  split; [exact E|]. split; [apply wf_advance; [exact W'|change (left (with_bytes b p')) with (left b); lia]|].
  cbn [byte_count_ bytes_ with_bytes advance]. rewrite zlen_to_bits, Z2Nat.id by lia.
  do 3 (split; [auto|]). split.
  - unfold done. rewrite pos_advance. change (pos (with_bytes b p')) with (pos b).
    cbn [bytes_ advance with_bytes]. rewrite Z2Nat.inj_add, bits_from_app by lia. f_equal.
    + apply bits_from_ext. intros j Hj. rewrite H by lia. case_if; [exfalso; bool_lia|reflexivity].
    + apply bits_from_to_bits. intros i Hi. rewrite H by lia.
      rewrite Z.add_0_l, !Z2Nat.id in * by lia.
      replace ((pos b <=? pos b + i) && (pos b + i <? pos b + n)) with true by lia. f_equal. lia.
  - intros j Hj. rewrite H by lia. case_if; [exfalso; bool_lia|reflexivity].
Qed.

Lemma writes_bind m k l1 l2 : writes m l1 -> writes k l2 -> writes (let? _ := m in k) (l1 ++ l2).
Proof.
  intros Hm Hk b W Hl. rewrite zlen_app in Hl. pose proof (zlen_nonneg l2).
  destruct (Hm b W ltac:(lia)) as (b1 & E1 & W1 & C1 & Z1 & P1 & D1 & A1).
  destruct (Hk b1 W1 ltac:(unfold left in *; lia)) as (b2 & E2 & W2 & C2 & Z2 & P2 & D2 & A2).
  exists b2. unfold andThen. rewrite E1. split; [exact E2|]. split; [exact W2|].
  do 2 (split; [congruence|]). split; [rewrite zlen_app; lia|].
  split; [rewrite D2, D1; symmetry; apply app_assoc|].
  intros j Hj. pose proof (zlen_nonneg l2). rewrite A2, A1 by lia. reflexivity.
Qed.

Lemma writes_ret : writes (ret tt) [].
Proof.
  intros b W _. exists b. rewrite app_nil_r, zlen_nil, Z.add_0_r. auto 8.
Qed.

(** The buffer at the start of what was written reads it. *)
Lemma rest_after_done b b' l :
  wf b -> wf b' -> byte_count_ b' = byte_count_ b -> pos b' = pos b + zlen l ->
  done b' = done b ++ l ->
  rest (mk_bits (bytes_ b') (byte_count_ b) (byte_offset_ b) (bit_offset_ b)) = l ++ rest b'.
Proof.
  intros W W' C P D. pose proof (pos_nonneg b W). pose proof (left_nonneg b' W').
  pose proof (zlen_nonneg l) as Hl. unfold done in D. rewrite P, Z2Nat.inj_add, bits_from_app in D by lia.
  apply app_eq_length in D; [|now rewrite !length_bits_from]. destruct D as [_ D].
  rewrite Z.add_0_l, Z2Nat.id in D by lia.
  unfold rest, left, pos at 1 2. cbn [bytes_ byte_count_ byte_offset_ bit_offset_].
  fold (pos b). unfold left in H0. rewrite C in H0. rewrite C.
  replace (Z.to_nat (8 * byte_count_ b - pos b))
    with (Z.to_nat (zlen l) + Z.to_nat (8 * byte_count_ b - pos b'))%nat by lia.
  rewrite bits_from_app, <- D, Z2Nat.id by lia. do 2 f_equal. lia.
Qed.

(** *** Exponential Golomb codes *)

(** The code of [v]: as many zeros as [v + 1] has bits after its first, and [v + 1]. *)
Definition golomb (v : Z) : list bool :=
  let k := Z.to_nat (Z.log2 (v + 1)) in repeat false k ++ to_bits (S k) (v + 1).

Lemma count_bits_log2 fuel : forall w,
  0 <= w < 2 ^ Z.of_nat fuel -> count_bits fuel w = if w =? 0 then 0 else Z.log2 w + 1.
Proof.
  induction fuel as [|fuel IH]; intros w Hw; cbn [count_bits].
  - change (2 ^ Z.of_nat 0) with 1 in Hw. now replace w with 0 by lia.
  - destruct (Z.eqb_spec w 0) as [->|Hne]; [reflexivity|]. rewrite shiftr_div by lia. change (2 ^ 1) with 2.
    rewrite Nat2Z.inj_succ, Z.pow_succ_r in Hw by lia. rewrite IH by dlia.
    destruct (Z.eqb_spec (w / 2) 0) as [E|E].
    + replace w with 1 by dlia. reflexivity.
    + destruct (Z.eq_dec (w mod 2) 0).
      * replace w with (2 * (w / 2)) at 2 by dlia. rewrite Z.log2_double by dlia. lia.
      * replace w with (2 * (w / 2) + 1) at 2 by dlia. rewrite Z.log2_succ_double by dlia. lia.
Qed.

Lemma CountBits_log2 w : 0 < w < 2 ^ 64 -> CountBits w = Z.log2 w + 1.
Proof.
  intros H. unfold CountBits. rewrite count_bits_log2 by (change (Z.of_nat 64) with 64; lia).
  now replace (w =? 0) with false by lia.
Qed.

Lemma to_bits_zeros m n v : 0 <= v < 2 ^ Z.of_nat n -> to_bits (m + n) v = repeat false m ++ to_bits n v.
Proof.
  intros H. induction m as [|m IH]; [reflexivity|]. cbn [Nat.add to_bits repeat app]. rewrite IH. f_equal.
  rewrite <- (Z.mod_small v (2 ^ Z.of_nat n)) by exact H. apply Z.mod_pow2_bits_high. lia.
Qed.

Lemma log2_u32 v : 0 <= v < 4294967295 -> 0 <= Z.log2 (v + 1) <= 31.
Proof.
  intros H. split; [apply Z.log2_nonneg|]. apply Z.lt_succ_r. apply Z.log2_lt_pow2; [lia|].
  change (2 ^ Z.succ 31) with 4294967296. lia.
Qed.

Lemma golomb_to_bits v :
  0 <= v < 4294967295 -> golomb v = to_bits (Z.to_nat (CountBits (v + 1) * 2 - 1)) (v + 1).
Proof.
  intros H. pose proof (log2_u32 v H). rewrite CountBits_log2 by lia. unfold golomb.
  replace (Z.to_nat ((Z.log2 (v + 1) + 1) * 2 - 1))
    with (Z.to_nat (Z.log2 (v + 1)) + S (Z.to_nat (Z.log2 (v + 1))))%nat by lia.
  rewrite to_bits_zeros; [reflexivity|]. rewrite Nat2Z.inj_succ, Z2Nat.id by lia.
  pose proof (Z.log2_spec (v + 1) ltac:(lia)). lia.
Qed.

Lemma zlen_golomb v : 0 <= v -> zlen (golomb v) = 2 * Z.log2 (v + 1) + 1.
Proof.
  intros H. unfold golomb. rewrite zlen_app, zlen_to_bits. unfold zlen. rewrite repeat_length.
  pose proof (Z.log2_nonneg (v + 1)). lia.
Qed.

Lemma writes_golomb v : 0 <= v < 4294967295 -> writes (WriteExponentialGolomb v) (golomb v).
Proof.
  intros H. unfold WriteExponentialGolomb. replace (v =? _) with false by lia.
  rewrite golomb_to_bits by exact H. apply writes_bits.
  pose proof (log2_u32 v H). rewrite CountBits_log2 by lia. lia.
Qed.

Lemma zeros_unique a : forall b x y,
  repeat false a ++ x = repeat false b ++ true :: y ->
  x = [] \/ (exists t, x = true :: t) -> a = b /\ x = true :: y.
Proof.
  induction a as [|a IH]; intros [|b] x y E Hx; cbn in E; try discriminate.
  - auto.
  - subst x. destruct Hx as [|[t]]; discriminate.
  - injection E as E. destruct (IH b x y E Hx) as [-> ->]. auto.
Qed.

Lemma reads_golomb v : 0 <= v < 4294967295 -> reads ReadExponentialGolomb (golomb v) v.
Proof.
  intros H b t W E. pose proof (log2_u32 v H) as Hk. set (k := Z.log2 (v + 1)) in *.
  pose proof (Z.log2_spec (v + 1) ltac:(lia)) as Hv. fold k in Hv.
  destruct (ReadExponentialGolomb_spec b W) as (z & Hz & R & T & Rd).
  assert (Gz : zlen (golomb v) <= left b).
  { rewrite <- (zlen_rest b W), E, zlen_app. pose proof (zlen_nonneg t). lia. }
  rewrite zlen_golomb in Gz by lia. fold k in Gz.
  assert (B : to_bits (S (Z.to_nat k)) (v + 1) = true :: to_bits (Z.to_nat k) (v + 1)).
  { cbn [to_bits]. f_equal. rewrite Z2Nat.id by lia. apply Z.bit_log2. lia. }
  assert (Hzk : z = k /\ rest (advance b z) = to_bits (S (Z.to_nat k)) (v + 1) ++ t).
  { pose proof E as E'. unfold golomb in E'. fold k in E'. rewrite B in *. rewrite <- app_assoc in E'.
    rewrite R in E'. cbn [app] in *. apply zeros_unique in E'; [|exact T]. destruct E' as [N ->].
    split; [lia|reflexivity]. }
  destruct Hzk as [-> Hr]. replace ((32 <? k + 1) || (left b - k <? k + 1)) with false in Rd by lia.
  assert (Wk : wf (advance b k)) by (apply wf_advance; [exact W|lia]).
  destruct (rest_prefix (advance b k) _ t Wk Hr) as (_ & Hn & Ht).
  rewrite length_to_bits in Hn. cbn [bytes_ advance] in Hn. rewrite pos_advance in Hn.
  replace (Z.to_nat (k + 1)) with (S (Z.to_nat k)) in Rd by lia. rewrite Hn, num_to_bits in Rd.
  rewrite zlen_to_bits, advance_advance in Ht. rewrite Nat2Z.inj_succ, Z2Nat.id in Rd, Ht by lia.
  rewrite Z.mod_small, u32_id in Rd by int_lia. replace (v + 1 - 1) with v in Rd by lia.
  exists (advance b (2 * k + 1)). split; [exact Rd|]. split; [apply wf_advance; [exact W|lia]|].
  split; [|auto]. rewrite <- Ht. f_equal. f_equal. lia.
Qed.

(** What an operation writes, another reads back from where it was written. *)
Lemma write_then_read {A} m (r : op A) l a b :
  writes m l -> reads r l a -> wf b -> zlen l <= left b ->
  exists b' b2, m b = Ok (Some tt, b') /\
    (let! (_, start) := Seek (byte_offset_ b) (bit_offset_ b) b' in r start) = Ok (Some a, b2) /\
    bytes_ b2 = bytes_ b' /\ pos b2 = pos b' /\
    (forall j, 0 <= j -> j < pos b \/ pos b' <= j -> bit (bytes_ b') j = bit (bytes_ b) j).
Proof.
  intros Hm Hr W Hl. destruct (Hm b W Hl) as (b' & E & W' & C & Zl & P & D & Aft).
  pose proof (rest_after_done b b' l W W' C P D) as R. set (start := mk_bits _ _ _ _) in R.
  pose proof (pos_nonneg b W) as Hp. pose proof (zlen_nonneg l).
  assert (Hs : Seek (byte_offset_ b) (bit_offset_ b) b' = Ok (Some tt, start)).
  { destruct W as [_ _ _ Ho Hb He]. unfold Seek. rewrite C. replace (byte_count_ b <? byte_offset_ b) with false by lia.
    replace (7 <? bit_offset_ b) with false by lia. cbn [orb].
    destruct (Z.eqb_spec (byte_offset_ b) (byte_count_ b)) as [Q|Q]; [|reflexivity].
    subst start. now rewrite (He Q). }
  assert (Ws : wf start).
  { destruct W as [B1 B2 B3 B4 B5 B6], W' as [B1' B2' _ _ _ _].
    split; cbn [bytes_ byte_count_ byte_offset_ bit_offset_ start]; auto; lia. }
  destruct (Hr start _ Ws R) as (b2 & E2 & W2 & R2 & P2 & C2).
  exists b', b2. rewrite Hs. cbn [bind]. do 2 (split; [assumption|]). split; [exact P2|].
  split.
  - pose proof (zlen_rest b2 W2) as L2. rewrite R2, (zlen_rest b' W') in L2.
    unfold left in L2. rewrite C2 in L2. change (byte_count_ start) with (byte_count_ b) in L2. lia.
  - intros j Hj [Hb|Ha]; [|now apply Aft]. unfold done in D. rewrite P, Z2Nat.inj_add, bits_from_app in D by lia.
    apply app_eq_length in D; [|now rewrite !length_bits_from]. destruct D as [D _].
    assert (G : forall n i, bits_from (bytes_ b) i n = bits_from (bytes_ b') i n ->
      forall q, i <= q < i + Z.of_nat n -> bit (bytes_ b') q = bit (bytes_ b) q).
    { induction n as [|n IH]; intros i Hn q Hq; [lia|]. cbn [bits_from] in Hn. injection Hn as H0 H1.
      destruct (Z.eq_dec q i) as [->|]; [auto|]. apply (IH (i + 1)); [exact H1|lia]. }
    apply (G _ 0 D). lia.
Qed.

(** Bits are written where the position is and nowhere else, and read back:
    for a width of 1 to 32 bits and a buffer with that much room, [WriteBits]
    succeeds, every bit of the array outside the width is as before, and
    [ReadBits] from the old position gives the number modulo 2^width. *)
Theorem WriteBits_ReadBits v n b :
  wf b -> 1 <= n <= 32 -> n <= left b ->
  exists b' b2, WriteBits v n b = Ok (Some tt, b') /\
    (let! (_, start) := Seek (byte_offset_ b) (bit_offset_ b) b' in ReadBits n start) =
      Ok (Some (v mod 2 ^ n), b2) /\
    bytes_ b2 = bytes_ b' /\ pos b2 = pos b' /\
    (forall j, 0 <= j -> j < pos b \/ pos b' <= j -> bit (bytes_ b') j = bit (bytes_ b) j).
Proof.
  intros W Hn Hl. apply (write_then_read _ _ (to_bits (Z.to_nat n) v));
    [apply writes_bits; lia|now apply reads_field|exact W|rewrite zlen_to_bits; lia].
Qed.

Example wf_example : wf (mk_bits [0xA5; 0x3C; 0xFF] 3 0 3).
Proof.
  split; cbn [bytes_ byte_count_ byte_offset_ bit_offset_]; try lia;
    [apply bytes_forallb; reflexivity|now vm_compute].
Qed.

Lemma WriteBits_ReadBits_witness :
  exists b' b2, WriteBits 0x2F5 10 (mk_bits [0xA5; 0x3C; 0xFF] 3 0 3) = Ok (Some tt, b') /\
    (let! (_, start) := Seek 0 3 b' in ReadBits 10 start) = Ok (Some 0x2F5, b2) /\
    bytes_ b2 = bytes_ b' /\ pos b2 = pos b' /\
    (forall j, 0 <= j -> j < 3 \/ pos b' <= j ->
       bit (bytes_ b') j = bit [0xA5; 0x3C; 0xFF] j).
Proof.
  exact (WriteBits_ReadBits 0x2F5 10 _ wf_example ltac:(lia) ltac:(vm_compute; discriminate)).
Defined.

(** Exponential Golomb codes round trip: for every value below 2^32 - 1 and a
    buffer with room for the code, [WriteExponentialGolomb] succeeds and
    [ReadExponentialGolomb] from the old position gives the value and stops
    where the writer stopped; the largest 32-bit value is refused and the
    buffer unchanged. *)
Theorem golomb_roundtrip v b :
  wf b -> 0 <= v < 4294967295 -> 2 * Z.log2 (v + 1) + 1 <= left b ->
  WriteExponentialGolomb 4294967295 b = Ok (None, b) /\
  exists b' b2, WriteExponentialGolomb v b = Ok (Some tt, b') /\
    (let! (_, start) := Seek (byte_offset_ b) (bit_offset_ b) b' in ReadExponentialGolomb start) =
      Ok (Some v, b2) /\
    bytes_ b2 = bytes_ b' /\ pos b2 = pos b' /\
    (forall j, 0 <= j -> j < pos b \/ pos b' <= j -> bit (bytes_ b') j = bit (bytes_ b) j).
Proof.
  intros W Hv Hl. split; [reflexivity|]. apply (write_then_read _ _ (golomb v));
    [now apply writes_golomb|now apply reads_golomb|exact W|rewrite zlen_golomb by lia; exact Hl].
Qed.

Lemma golomb_roundtrip_witness :
  WriteExponentialGolomb 4294967295 (mk_bits [0xA5; 0x3C; 0xFF] 3 0 3) =
    Ok (None, mk_bits [0xA5; 0x3C; 0xFF] 3 0 3) /\
  exists b' b2, WriteExponentialGolomb 41 (mk_bits [0xA5; 0x3C; 0xFF] 3 0 3) = Ok (Some tt, b') /\
    (let! (_, start) := Seek 0 3 b' in ReadExponentialGolomb start) = Ok (Some 41, b2) /\
    bytes_ b2 = bytes_ b' /\ pos b2 = pos b' /\
    (forall j, 0 <= j -> j < 3 \/ pos b' <= j -> bit (bytes_ b') j = bit [0xA5; 0x3C; 0xFF] j).
Proof.
  exact (golomb_roundtrip 41 _ wf_example ltac:(lia) ltac:(vm_compute; discriminate)).
Defined.
End BitBuffer.
