(* ===== verification/VideoHeaders.v ===== *)
(** * The headers of the video payload formats

    Models the part of src/orbit/webrtc/modules/include/module_common_types.h
    that the video payload formats share: the codec headers of VP8, VP9 and
    H.264, the VP9 group of frames, the fragmentation header and the parsed
    payload of rtp_format.h.  The arrays of the structs are lists, read and
    written through checked accesses, so that an access outside an array is
    [Oob].  The codec headers of the union [RTPVideoTypeHeader] are kept side
    by side: each format writes its own member and nothing reads another. *)

From S2P Require Import Prelude Wire.
Import Wire.

Module VideoHeaders.

(** ** Constants *)

Definition kNoPictureId : Z := -1.
Definition kMaxOneBytePictureId : Z := 0x7F.
Definition kMaxTwoBytePictureId : Z := 0x7FFF.
Definition kNoTl0PicIdx : Z := -1.
Definition kNoTemporalIdx : Z := 0xFF.
Definition kNoSpatialIdx : Z := 0xFF.
Definition kNoGofIdx : Z := 0xFF.
Definition kMaxVp9RefPics : Z := 3.
Definition kMaxVp9FramesInGof : Z := 0xFF.
Definition kMaxVp9NumberOfSpatialLayers : Z := 8.
Definition kNoKeyIdx : Z := -1.

Inductive FrameType := kEmptyFrame | kAudioFrameSpeech | kAudioFrameCN | kVideoFrameKey | kVideoFrameDelta.
Inductive RtpVideoCodecTypes := kRtpVideoNone | kRtpVideoGeneric | kRtpVideoVp8 | kRtpVideoVp9 | kRtpVideoH264.
Inductive ProtectionType := kUnprotectedPacket | kProtectedPacket.
Inductive StorageType := kDontRetransmit | kAllowRetransmission.

(** The bits of the retransmission settings. *)
Definition kRetransmitBaseLayer : Z := 0x2.
Definition kRetransmitHigherLayers : Z := 0x4.

(** ** Checked arrays *)

Definition get {A} (l : list A) (i : Z) : res A :=
  if i <? 0 then Oob else match nth_error l (Z.to_nat i) with Some a => Ok a | None => Oob end.
Definition put {A} (l : list A) (i : Z) (v : A) : res (list A) :=
  if (0 <=? i) && (i <? zlen l) then Ok (upd l (Z.to_nat i) v) else Oob.

(** [memcpy(&dst[d], &src[s], n)]. *)
Definition memcpy (dst : list Z) (d : Z) (src : list Z) (s n : Z) : res (list Z) :=
  if (0 <=? n) && (0 <=? s) && (s + n <=? zlen src) && (0 <=? d) && (d + n <=? zlen dst)
  then Ok (blit dst d (slice src s n)) else Oob.

(** ** VP8 *)

Record RTPVideoHeaderVP8 := mk_vp8 {
  nonReference : bool;
  pictureId : Z;
  tl0PicIdx : Z;
  temporalIdx : Z;
  layerSync : bool;
  keyIdx : Z;
  partitionId : Z;
  beginningOfPartition : bool
}.

Definition InitRTPVideoHeaderVP8 : RTPVideoHeaderVP8 :=
  mk_vp8 false kNoPictureId kNoTl0PicIdx kNoTemporalIdx false kNoKeyIdx 0 false.

(** ** VP9

    [pid_diff] of a group of frames is the array of [kMaxVp9RefPics] for each
    frame, one row after the other. *)
Inductive TemporalStructureMode := kTemporalStructureMode1 | kTemporalStructureMode2 | kTemporalStructureMode3.

Record GofInfoVP9 := mk_gof {
  num_frames_in_gof : Z;
  gof_temporal_idx : list Z;
  gof_temporal_up_switch : list bool;
  gof_num_ref_pics : list Z;
  gof_pid_diff : list Z
}.

(** One frame of a group: its layer, the up-switch and the differences. *)
Definition set_frame (g : GofInfoVP9) (i t : Z) (u : bool) (r : Z) : res GofInfoVP9 :=
  let! ts := put (gof_temporal_idx g) i t in
  let! us := put (gof_temporal_up_switch g) i u in
  let! rs := put (gof_num_ref_pics g) i r in
  Ok (mk_gof (num_frames_in_gof g) ts us rs (gof_pid_diff g)).
Definition set_pid_diff (g : GofInfoVP9) (i r d : Z) : res GofInfoVP9 :=
  let! ds := put (gof_pid_diff g) (kMaxVp9RefPics * i + r) d in
  Ok (mk_gof (num_frames_in_gof g) (gof_temporal_idx g) (gof_temporal_up_switch g)
        (gof_num_ref_pics g) ds).
Definition set_num_frames (g : GofInfoVP9) (n : Z) : GofInfoVP9 :=
  mk_gof n (gof_temporal_idx g) (gof_temporal_up_switch g) (gof_num_ref_pics g) (gof_pid_diff g).

Definition SetGofInfoVP9 (g : GofInfoVP9) (tm : TemporalStructureMode) : res GofInfoVP9 :=
  match tm with
  | kTemporalStructureMode1 =>
      let! g := set_frame (set_num_frames g 1) 0 0 false 1 in set_pid_diff g 0 0 1
  | kTemporalStructureMode2 =>
      let! g := set_frame (set_num_frames g 2) 0 0 false 1 in
      let! g := set_pid_diff g 0 0 2 in
      let! g := set_frame g 1 1 true 1 in set_pid_diff g 1 0 1
  | kTemporalStructureMode3 =>
      let! g := set_frame (set_num_frames g 4) 0 0 false 1 in
      let! g := set_pid_diff g 0 0 4 in
      let! g := set_frame g 1 2 true 1 in
      let! g := set_pid_diff g 1 0 1 in
      let! g := set_frame g 2 1 true 1 in
      let! g := set_pid_diff g 2 0 2 in
      let! g := set_frame g 3 2 false 2 in
      let! g := set_pid_diff g 3 0 1 in set_pid_diff g 3 1 2
  end.

(** [for (r = 0; r < num_ref_pics[i]; ++r)], then [for (i = 0; i < num_frames_in_gof; ++i)]. *)
Fixpoint copy_pid_diffs (n : nat) (dst src : GofInfoVP9) (i r : Z) : res GofInfoVP9 :=
  match n with
  | O => Ok dst
  | S n =>
      let! d := get (gof_pid_diff src) (kMaxVp9RefPics * i + r) in
      let! dst := set_pid_diff dst i r d in
      copy_pid_diffs n dst src i (r + 1)
  end.
Fixpoint copy_frames (n : nat) (dst src : GofInfoVP9) (i : Z) : res GofInfoVP9 :=
  match n with
  | O => Ok dst
  | S n =>
      let! t := get (gof_temporal_idx src) i in
      let! u := get (gof_temporal_up_switch src) i in
      let! r := get (gof_num_ref_pics src) i in
      let! dst := set_frame dst i t u r in
      let! dst := copy_pid_diffs (Z.to_nat r) dst src i 0 in
      copy_frames n dst src (i + 1)
  end.
Definition CopyGofInfoVP9 (dst src : GofInfoVP9) : res GofInfoVP9 :=
  copy_frames (Z.to_nat (num_frames_in_gof src)) (set_num_frames dst (num_frames_in_gof src)) src 0.

Record RTPVideoHeaderVP9 := mk_vp9 {
  inter_pic_predicted : bool;
  flexible_mode : bool;
  beginning_of_frame : bool;
  end_of_frame : bool;
  ss_data_available : bool;
  picture_id : Z;
  max_picture_id : Z;
  tl0_pic_idx : Z;
  temporal_idx : Z;
  spatial_idx : Z;
  temporal_up_switch : bool;
  inter_layer_predicted : bool;
  gof_idx : Z;
  num_ref_pics : Z;
  pid_diff : list Z;
  ref_picture_id : list Z;
  num_spatial_layers : Z;
  spatial_layer_resolution_present : bool;
  width9 : list Z;
  height9 : list Z;
  gof : GofInfoVP9
}.

(** The arrays, the resolution flag and the group of frames are left alone. *)
Definition InitRTPVideoHeaderVP9 (h : RTPVideoHeaderVP9) : RTPVideoHeaderVP9 :=
  mk_vp9 false false false false false kNoPictureId kMaxTwoBytePictureId kNoTl0PicIdx
    kNoTemporalIdx kNoSpatialIdx false false kNoGofIdx 0 (pid_diff h) (ref_picture_id h)
    1 (spatial_layer_resolution_present h) (width9 h) (height9 h) (gof h).

(** The assignments of the parser, a group of members at a time. *)
Definition set_flags (h : RTPVideoHeaderVP9) (p f b e v : bool) : RTPVideoHeaderVP9 :=
  mk_vp9 p f b e v (picture_id h) (max_picture_id h) (tl0_pic_idx h) (temporal_idx h)
    (spatial_idx h) (temporal_up_switch h) (inter_layer_predicted h) (gof_idx h) (num_ref_pics h)
    (pid_diff h) (ref_picture_id h) (num_spatial_layers h) (spatial_layer_resolution_present h)
    (width9 h) (height9 h) (gof h).
Definition set_picture_id (h : RTPVideoHeaderVP9) (pid max : Z) : RTPVideoHeaderVP9 :=
  mk_vp9 (inter_pic_predicted h) (flexible_mode h) (beginning_of_frame h) (end_of_frame h)
    (ss_data_available h) pid max (tl0_pic_idx h) (temporal_idx h) (spatial_idx h)
    (temporal_up_switch h) (inter_layer_predicted h) (gof_idx h) (num_ref_pics h)
    (pid_diff h) (ref_picture_id h) (num_spatial_layers h) (spatial_layer_resolution_present h)
    (width9 h) (height9 h) (gof h).
Definition set_tl0_pic_idx (h : RTPVideoHeaderVP9) (i : Z) : RTPVideoHeaderVP9 :=
  mk_vp9 (inter_pic_predicted h) (flexible_mode h) (beginning_of_frame h) (end_of_frame h)
    (ss_data_available h) (picture_id h) (max_picture_id h) i (temporal_idx h) (spatial_idx h)
    (temporal_up_switch h) (inter_layer_predicted h) (gof_idx h) (num_ref_pics h)
    (pid_diff h) (ref_picture_id h) (num_spatial_layers h) (spatial_layer_resolution_present h)
    (width9 h) (height9 h) (gof h).
Definition set_layers (h : RTPVideoHeaderVP9) (t : Z) (u : bool) (s : Z) (d : bool) : RTPVideoHeaderVP9 :=
  mk_vp9 (inter_pic_predicted h) (flexible_mode h) (beginning_of_frame h) (end_of_frame h)
    (ss_data_available h) (picture_id h) (max_picture_id h) (tl0_pic_idx h) t s u d (gof_idx h)
    (num_ref_pics h) (pid_diff h) (ref_picture_id h) (num_spatial_layers h)
    (spatial_layer_resolution_present h) (width9 h) (height9 h) (gof h).
Definition set_refs (h : RTPVideoHeaderVP9) (n : Z) (diffs ids : list Z) : RTPVideoHeaderVP9 :=
  mk_vp9 (inter_pic_predicted h) (flexible_mode h) (beginning_of_frame h) (end_of_frame h)
    (ss_data_available h) (picture_id h) (max_picture_id h) (tl0_pic_idx h) (temporal_idx h)
    (spatial_idx h) (temporal_up_switch h) (inter_layer_predicted h) (gof_idx h) n diffs ids
    (num_spatial_layers h) (spatial_layer_resolution_present h) (width9 h) (height9 h) (gof h).
Definition set_ss (h : RTPVideoHeaderVP9) (n : Z) (y : bool) (ws hs : list Z) (g : GofInfoVP9)
    : RTPVideoHeaderVP9 :=
  mk_vp9 (inter_pic_predicted h) (flexible_mode h) (beginning_of_frame h) (end_of_frame h)
    (ss_data_available h) (picture_id h) (max_picture_id h) (tl0_pic_idx h) (temporal_idx h)
    (spatial_idx h) (temporal_up_switch h) (inter_layer_predicted h) (gof_idx h) (num_ref_pics h)
    (pid_diff h) (ref_picture_id h) n y ws hs g.

(** ** H.264 *)

Inductive H264PacketizationTypes := kH264SingleNalu | kH264StapA | kH264FuA.

Record RTPVideoHeaderH264 := mk_h264 {
  nalu_type : Z;
  packetization_type : H264PacketizationTypes
}.

(** ** The parsed payload

    [payload] is the distance from the start of the data given to the parser. *)
Record ParsedPayload := mk_payload {
  payload : Z;
  payload_length : Z;
  frame_type : FrameType;
  width : Z;
  height : Z;
  isFirstPacket : bool;
  simulcastIdx : Z;
  codec : RtpVideoCodecTypes;
  VP8 : RTPVideoHeaderVP8;
  VP9 : RTPVideoHeaderVP9;
  H264 : RTPVideoHeaderH264
}.

Definition set_payload (p : ParsedPayload) (start length : Z) : ParsedPayload :=
  mk_payload start length (frame_type p) (width p) (height p) (isFirstPacket p) (simulcastIdx p)
    (codec p) (VP8 p) (VP9 p) (H264 p).
Definition set_frame_type (p : ParsedPayload) (t : FrameType) : ParsedPayload :=
  mk_payload (payload p) (payload_length p) t (width p) (height p) (isFirstPacket p)
    (simulcastIdx p) (codec p) (VP8 p) (VP9 p) (H264 p).
Definition set_size (p : ParsedPayload) (w h : Z) : ParsedPayload :=
  mk_payload (payload p) (payload_length p) (frame_type p) w h (isFirstPacket p)
    (simulcastIdx p) (codec p) (VP8 p) (VP9 p) (H264 p).
Definition set_first (p : ParsedPayload) (first : bool) : ParsedPayload :=
  mk_payload (payload p) (payload_length p) (frame_type p) (width p) (height p) first
    (simulcastIdx p) (codec p) (VP8 p) (VP9 p) (H264 p).
Definition set_simulcast (p : ParsedPayload) (i : Z) : ParsedPayload :=
  mk_payload (payload p) (payload_length p) (frame_type p) (width p) (height p) (isFirstPacket p)
    i (codec p) (VP8 p) (VP9 p) (H264 p).
Definition set_codec (p : ParsedPayload) (c : RtpVideoCodecTypes) : ParsedPayload :=
  mk_payload (payload p) (payload_length p) (frame_type p) (width p) (height p) (isFirstPacket p)
    (simulcastIdx p) c (VP8 p) (VP9 p) (H264 p).
Definition set_VP8 (p : ParsedPayload) (h : RTPVideoHeaderVP8) : ParsedPayload :=
  mk_payload (payload p) (payload_length p) (frame_type p) (width p) (height p) (isFirstPacket p)
    (simulcastIdx p) (codec p) h (VP9 p) (H264 p).
Definition set_VP9 (p : ParsedPayload) (h : RTPVideoHeaderVP9) : ParsedPayload :=
  mk_payload (payload p) (payload_length p) (frame_type p) (width p) (height p) (isFirstPacket p)
    (simulcastIdx p) (codec p) (VP8 p) h (H264 p).
Definition set_H264 (p : ParsedPayload) (h : RTPVideoHeaderH264) : ParsedPayload :=
  mk_payload (payload p) (payload_length p) (frame_type p) (width p) (height p) (isFirstPacket p)
    (simulcastIdx p) (codec p) (VP8 p) (VP9 p) h.

(** ** The fragmentation header

    The two arrays that the packetizers read, each of the vector's size. *)
Record RTPFragmentationHeader := mk_frag {
  fragmentationVectorSize : Z;
  fragmentationOffset : list Z;
  fragmentationLength : list Z
}.
Definition new_RTPFragmentationHeader : RTPFragmentationHeader := mk_frag 0 [] [].

(** The arrays of a header are allocated when its vector has a size; an empty
    source leaves none. *)
Definition CopyFrom (dst src : RTPFragmentationHeader) : RTPFragmentationHeader :=
  if fragmentationVectorSize src =? 0 then mk_frag 0 [] [] else src.

Definition VerifyAndAllocateFragmentationHeader (h : RTPFragmentationHeader) (size : Z)
    : RTPFragmentationHeader :=
  let size16 := u16 size in
  if fragmentationVectorSize h <? size16 then
    let more := repeat 0 (Z.to_nat (size16 - fragmentationVectorSize h)) in
    mk_frag size16 (fragmentationOffset h ++ more) (fragmentationLength h ++ more)
  else h.

(** ** Lemmas *)

Lemma get_ok {A} (l : list A) i d : 0 <= i < zlen l -> get l i = Ok (nth (Z.to_nat i) l d).
Proof.
  intros H. unfold get, zlen in *. replace (i <? 0) with false by lia.
  now rewrite (nth_error_nth' l d) by lia.
Qed.

Lemma put_ok {A} (l : list A) i v : 0 <= i < zlen l -> put l i v = Ok (upd l (Z.to_nat i) v).
Proof. intros H. unfold put. now replace ((0 <=? i) && (i <? zlen l)) with true by lia. Qed.

Lemma zlen_upd {A} (l : list A) i v : zlen (upd l i v) = zlen l.
Proof. unfold zlen. now rewrite length_upd. Qed.
#[export] Hint Rewrite @zlen_upd : zlen.

(** A test of one bit. *)
Lemma land_pow2_bit x k : 0 <= k -> negb (Z.land x (2 ^ k) =? 0) = Z.testbit x k.
Proof.
  intros Hk. destruct (Z.testbit x k) eqn:Q.
  - apply negb_true_iff, Z.eqb_neq. intros C.
    assert (D : Z.testbit (Z.land x (2 ^ k)) k = true) by (rewrite Z.land_spec, Q, Z.pow2_bits_true; auto).
    rewrite C, Z.bits_0 in D. discriminate.
  - apply negb_false_iff, Z.eqb_eq. apply Z.bits_inj'. intros q Hq. rewrite Z.land_spec, Z.pow2_bits_eqb, Z.bits_0 by lia.
    destruct (Z.eqb_spec k q) as [<-|]; [now rewrite Q|apply andb_false_r].
Qed.

Lemma testbit_div x k : 0 <= k -> Z.testbit x k = Z.odd (x / 2 ^ k).
Proof. intros Hk. now rewrite Z.testbit_odd, shiftr_div. Qed.

(** The arrays of the structs have their declared sizes. *)
Record gof_wf (g : GofInfoVP9) : Prop := {
  gw_t : zlen (gof_temporal_idx g) = kMaxVp9FramesInGof;
  gw_u : zlen (gof_temporal_up_switch g) = kMaxVp9FramesInGof;
  gw_r : zlen (gof_num_ref_pics g) = kMaxVp9FramesInGof;
  gw_d : zlen (gof_pid_diff g) = kMaxVp9FramesInGof * kMaxVp9RefPics
}.
Record vp9_wf (h : RTPVideoHeaderVP9) : Prop := {
  vw_diff : zlen (pid_diff h) = kMaxVp9RefPics;
  vw_ref : zlen (ref_picture_id h) = kMaxVp9RefPics;
  vw_width : zlen (width9 h) = kMaxVp9NumberOfSpatialLayers;
  vw_height : zlen (height9 h) = kMaxVp9NumberOfSpatialLayers;
  vw_gof : gof_wf (gof h)
}.

Lemma set_frame_ok g i t u r :
  gof_wf g -> 0 <= i < kMaxVp9FramesInGof ->
  exists g', set_frame g i t u r = Ok g' /\ gof_wf g' /\ num_frames_in_gof g' = num_frames_in_gof g /\
    gof_temporal_idx g' = upd (gof_temporal_idx g) (Z.to_nat i) t /\
    gof_temporal_up_switch g' = upd (gof_temporal_up_switch g) (Z.to_nat i) u /\
    gof_num_ref_pics g' = upd (gof_num_ref_pics g) (Z.to_nat i) r /\
    gof_pid_diff g' = gof_pid_diff g.
Proof.
  intros [Ht Hu Hr Hd] Hi. unfold set_frame. rewrite !put_ok by lia. cbn [bind]. eexists. split; [reflexivity|].
  split; [|auto 7]. split; cbn; autorewrite with zlen; assumption.
Qed.

Lemma set_pid_diff_ok g i r d :
  gof_wf g -> 0 <= i < kMaxVp9FramesInGof -> 0 <= r < kMaxVp9RefPics ->
  exists g', set_pid_diff g i r d = Ok g' /\ gof_wf g' /\ num_frames_in_gof g' = num_frames_in_gof g /\
    gof_temporal_idx g' = gof_temporal_idx g /\
    gof_temporal_up_switch g' = gof_temporal_up_switch g /\
    gof_num_ref_pics g' = gof_num_ref_pics g /\
    gof_pid_diff g' = upd (gof_pid_diff g) (Z.to_nat (kMaxVp9RefPics * i + r)) d.
Proof.
  intros [Ht Hu Hr Hd] Hi Hr3. unfold set_pid_diff.
  rewrite put_ok by (rewrite Hd; unfold kMaxVp9RefPics, kMaxVp9FramesInGof in *; lia). cbn [bind].
  eexists. split; [reflexivity|]. split; [|auto 7]. split; cbn; autorewrite with zlen; assumption.
Qed.

Lemma blit_at src : forall a b,
  zlen src <= zlen b -> blit (a ++ b) (zlen a) src = a ++ src ++ skipn (length src) b.
Proof.
  induction src as [|x src IH]; intros a b H; [reflexivity|].
  destruct b as [|y b]; [rewrite zlen_cons in H; pose proof (zlen_nonneg src); change (zlen (@nil Z)) with 0 in H; lia|]. rewrite !zlen_cons in H.
  cbn [blit length skipn app]. rewrite <- (Z.add_0_r (zlen a)) at 1. rewrite (wr_mid a [y] b) by (unfold zlen; cbn; lia).
  change (wr [y] 0 x) with [x]. cbn [app]. replace (a ++ x :: b) with ((a ++ [x]) ++ b) by now rewrite <- app_assoc.
  replace (zlen a + 1) with (zlen (a ++ [x])) by (rewrite zlen_app; reflexivity).
  rewrite IH by lia. rewrite <- app_assoc. reflexivity.
Qed.

Lemma memcpy_at a b src s n :
  0 <= n -> 0 <= s -> s + n <= zlen src -> n <= zlen b ->
  memcpy (a ++ b) (zlen a) src s n = Ok (a ++ slice src s n ++ skipn (Z.to_nat n) b).
Proof.
  intros Hn Hs Hr Hb. unfold memcpy. pose proof (zlen_nonneg a). rewrite zlen_app.
  replace ((0 <=? n) && (0 <=? s) && (s + n <=? zlen src) && (0 <=? zlen a) && (zlen a + n <=? zlen a + zlen b))
    with true by lia.
  rewrite blit_at by (rewrite zlen_slice; lia).
  replace (length (slice src s n)) with (Z.to_nat n); [reflexivity|].
  pose proof (zlen_slice src s n Hs Hn Hr). unfold zlen in *. lia.
Qed.
End VideoHeaders.
