(* ===== verification/Vp8Aggregator.v ===== *)
(** * The aggregation of small VP8 partitions

    Models src/orbit/webrtc/modules/rtp_rtcp/source/vp8_partition_aggregator.cc
    and its header: a branch and bound search for the way to put consecutive
    partitions into packets with the smallest cost, the spread of the packet
    sizes plus a penalty per packet; and the number of fragments for a large
    partition.  The theorems: the search finds the least cost of all the ways
    that fit, and a large partition is cut into fragments none of which is
    empty or too large. *)

From S2P Require Import Prelude Wire VideoHeaders.
Import Wire VideoHeaders.

Module Vp8Aggregator.

Definition INT_MAX : Z := 2147483647.

(** ** The tree

    A node knows its parent and which child of it it is; [size_vector_] holds
    the [num_partitions_] sizes after those of the node.  The children are made
    when the search visits the node, once. *)
Inductive Children := kLeftChild | kRightChild.

Inductive PartitionTreeNode := mk_node {
  parent_ : option (Children * PartitionTreeNode);
  this_size_ : Z;
  size_vector_ : list Z;
  max_parent_size_ : Z;
  min_parent_size_ : Z;
  packet_start_ : bool
}.

Definition new_PartitionTreeNode (parent : option (Children * PartitionTreeNode))
    (size_vector : list Z) (this_size : Z) : PartitionTreeNode :=
  mk_node parent this_size size_vector 0 INT_MAX false.

Definition set_parent_sizes (n : PartitionTreeNode) (max_size min_size : Z) : PartitionTreeNode :=
  mk_node (parent_ n) (this_size_ n) (size_vector_ n) max_size min_size (packet_start_ n).
Definition set_packet_start (n : PartitionTreeNode) (value : bool) : PartitionTreeNode :=
  mk_node (parent_ n) (this_size_ n) (size_vector_ n) (max_parent_size_ n) (min_parent_size_ n) value.

Definition CreateRootNode (size_vector : list Z) : res PartitionTreeNode :=
  match size_vector with
  | [] => Oob
  | s :: rest => Ok (set_packet_start (new_PartitionTreeNode None rest s) true)
  end.

Definition this_size_int (n : PartitionTreeNode) : Z := s32 (this_size_ n).

Fixpoint NumPackets (n : PartitionTreeNode) : Z :=
  match n with
  | mk_node None _ _ _ _ _ => 1
  | mk_node (Some (kLeftChild, p)) _ _ _ _ _ => NumPackets p
  | mk_node (Some (kRightChild, p)) _ _ _ _ _ => 1 + NumPackets p
  end.

Definition Cost (n : PartitionTreeNode) (penalty : Z) : Z :=
  let cost :=
    match size_vector_ n with
    | [] => Z.max (max_parent_size_ n) (this_size_int n) - Z.min (min_parent_size_ n) (this_size_int n)
    | _ => Z.max (max_parent_size_ n) (this_size_int n) - min_parent_size_ n
    end in
  s32 (u64 (cost + u64 (NumPackets n * penalty))).

Definition left_child (n : PartitionTreeNode) (s : Z) (rest : list Z) : PartitionTreeNode :=
  set_packet_start
    (set_parent_sizes (new_PartitionTreeNode (Some (kLeftChild, n)) rest (u64 (this_size_ n + s)))
       (max_parent_size_ n) (min_parent_size_ n))
    false.
Definition right_child (n : PartitionTreeNode) (s : Z) (rest : list Z) : PartitionTreeNode :=
  set_packet_start
    (set_parent_sizes (new_PartitionTreeNode (Some (kRightChild, n)) rest s)
       (Z.max (max_parent_size_ n) (this_size_int n)) (Z.min (min_parent_size_ n) (this_size_int n)))
    true.

(** The two children, where they are made. *)
Definition CreateChildren (n : PartitionTreeNode) (max_size : Z)
    : option PartitionTreeNode * option PartitionTreeNode :=
  match size_vector_ n with
  | [] => (None, None)
  | s :: rest =>
      (if u64 (this_size_ n + s) <=? max_size then Some (left_child n s rest) else None,
       if 0 <? this_size_ n then Some (right_child n s rest) else None)
  end.

(** A child has one size less before it. *)
Fixpoint get_optimal (fuel : nat) (n : PartitionTreeNode) (max_size penalty : Z) : res PartitionTreeNode :=
  match CreateChildren n max_size with
  | (None, None) => Ok n
  | (left_, right_) =>
      match fuel with
      | O => NoFuel
      | S fuel =>
          match left_, right_ with
          | None, Some right_ => get_optimal fuel right_ max_size penalty
          | Some left_, None => get_optimal fuel left_ max_size penalty
          | Some left_, Some right_ =>
              let (first, second) :=
                if Cost left_ penalty <=? Cost right_ penalty then (left_, right_) else (right_, left_) in
              let! first := get_optimal fuel first max_size penalty in
              if Cost second penalty <=? Cost first penalty then
                let! second := get_optimal fuel second max_size penalty in
                if Cost second penalty <? Cost first penalty then Ok second else Ok first
              else Ok first
          | None, None => Ok n
          end
      end
  end.
Definition GetOptimalNode (n : PartitionTreeNode) (max_size penalty : Z) : res PartitionTreeNode :=
  get_optimal (length (size_vector_ n)) n max_size penalty.

(** ** The aggregator *)

Record Vp8PartitionAggregator := mk_aggregator {
  root_ : PartitionTreeNode;
  num_partitions_ : Z;
  sizes_ : list Z;
  largest_partition_size_ : Z
}.

(** The sizes of the partitions [first .. last]; then the largest. *)
Fixpoint copy_sizes (n : nat) (lengths : list Z) (i : Z) : res (list Z) :=
  match n with
  | O => Ok []
  | S n =>
      let! s := get lengths i in
      let! r := copy_sizes n lengths (i + 1) in
      Ok (s :: r)
  end.

Definition new_Vp8PartitionAggregator (fragmentation : RTPFragmentationHeader)
    (first_partition_idx last_partition_idx : Z) : res Vp8PartitionAggregator :=
  let num_partitions := last_partition_idx - first_partition_idx + 1 in
  let! size_vector :=
    copy_sizes (Z.to_nat num_partitions) (fragmentationLength fragmentation) first_partition_idx in
  let! root := CreateRootNode size_vector in
  Ok (mk_aggregator root num_partitions size_vector (fold_left Z.max size_vector 0)).

Definition SetPriorMinMax (a : Vp8PartitionAggregator) (min_size max_size : Z) : Vp8PartitionAggregator :=
  mk_aggregator (set_parent_sizes (root_ a) max_size min_size) (num_partitions_ a) (sizes_ a)
    (largest_partition_size_ a).

(** [for (i = num_partitions_; i > 0; --i)]: the node's packet, and on to its parent. *)
Fixpoint fill_config (i : nat) (temp_node : option PartitionTreeNode) (packet_index : Z)
    (config_vector : list Z) : res (list Z) :=
  match i with
  | O => Ok config_vector
  | S i =>
      match temp_node with
      | None => Oob
      | Some n =>
          let! config_vector := put config_vector (Z.of_nat i) (packet_index - 1) in
          let packet_index := if packet_start_ n then packet_index - 1 else packet_index in
          fill_config i (option_map snd (parent_ n)) packet_index config_vector
      end
  end.

Definition FindOptimalConfiguration (a : Vp8PartitionAggregator) (max_size penalty : Z) : res (list Z) :=
  let! opt := GetOptimalNode (root_ a) max_size penalty in
  fill_config (Z.to_nat (num_partitions_ a)) (Some opt) (NumPackets opt)
    (repeat 0 (Z.to_nat (num_partitions_ a))).

(** [while (j < config.size() && config[i] == config[j])]: the size of the
    packet [c] and what is after it. *)
Fixpoint packet_run (c : Z) (config sizes : list Z) (this_size : Z) : res (Z * list Z * list Z) :=
  match config with
  | d :: config' =>
      if c =? d then
        match sizes with
        | s :: sizes => packet_run c config' sizes (u64 (this_size + s))
        | [] => Oob
        end
      else Ok (this_size, config, sizes)
  | [] => Ok (this_size, config, sizes)
  end.

(** [while (i < config.size())]: a round takes an element at least. *)
Fixpoint min_max_loop (fuel : nat) (config sizes : list Z) (min_size max_size : Z) : res (Z * Z) :=
  match config with
  | [] => Ok (min_size, max_size)
  | c :: _ =>
      match fuel with
      | O => NoFuel
      | S fuel =>
          let! (this_size, config, sizes) := packet_run c config sizes 0 in
          min_max_loop fuel config sizes
            (if this_size <? u64 min_size then s32 this_size else min_size)
            (if u64 max_size <? this_size then s32 this_size else max_size)
      end
  end.

Definition CalcMinMax (a : Vp8PartitionAggregator) (config : list Z) (min_size max_size : Z) : res (Z * Z) :=
  min_max_loop (length config) config (sizes_ a)
    (if min_size <? 0 then INT_MAX else min_size) (if max_size <? 0 then 0 else max_size).

(** [for (n = min_number; n <= max_number; ++n)]: the best number and its cost;
    [SIZE_MAX] is the cost before the first. *)
Definition SIZE_MAX : Z := 18446744073709551615.

Definition fragments_step (large_partition_size max_payload_size penalty min_size max_size n : Z)
    (s : Z * Z) : Z * Z :=
  let (num_fragments, best_cost) := s in
  let fragment_size := (large_partition_size + n - 1) / n in
  let cost :=
    if fragment_size <? min_size then min_size - fragment_size + n * penalty
    else if max_size <? fragment_size then fragment_size - max_size + n * penalty
    else n * penalty in
  if (fragment_size <=? max_payload_size) && (cost <? best_cost) then (n, cost)
  else (num_fragments, best_cost).

(** A division by zero is [Oob] as well.  The result is a [size_t]: where no
    number fits, -1 becomes the largest one. *)
Definition CalcNumberOfFragments (large_partition_size max_payload_size penalty min_size max_size : Z)
    : res Z :=
  if max_payload_size =? 0 then Oob
  else
    let min_number_of_fragments := (large_partition_size + max_payload_size - 1) / max_payload_size in
    if (min_size <? 0) || (max_size <? 0) then Ok min_number_of_fragments
    else if min_size =? 0 then Oob
    else
      let max_number_of_fragments := (large_partition_size + min_size - 1) / min_size in
      Ok (u64 (fst (for_up min_number_of_fragments
             (Z.to_nat (max_number_of_fragments - min_number_of_fragments + 1))
             (fragments_step large_partition_size max_payload_size penalty min_size max_size)
             (-1, SIZE_MAX)))).

(** ** Ways to form packets

    A way is a list of decisions, for each partition after the first whether it
    starts a packet.  [sums] are the sizes of the packets, [fits] says that no
    packet is too large and that each packet but the last is not empty. *)
Fixpoint sums (cur : Z) (sizes : list Z) (ds : list bool) : list Z :=
  match sizes, ds with
  | s :: sizes, d :: ds => if d then cur :: sums s sizes ds else sums (cur + s) sizes ds
  | _, _ => [cur]
  end.
Fixpoint fits (max_size cur : Z) (sizes : list Z) (ds : list bool) : Prop :=
  match sizes, ds with
  | s :: sizes, d :: ds =>
      if d then 0 < cur /\ fits max_size s sizes ds
      else cur + s <= max_size /\ fits max_size (cur + s) sizes ds
  | [], [] => True
  | _, _ => False
  end.

(** The largest and the smallest, and the cost: the spread and the penalties. *)
Definition max_of (m : Z) (l : list Z) : Z := fold_left Z.max l m.
Definition min_of (m : Z) (l : list Z) : Z := fold_left Z.min l m.
Definition score (max_size0 min_size0 penalty : Z) (packets : list Z) : Z :=
  max_of max_size0 packets - min_of min_size0 packets + penalty * zlen packets.

(** The packet number of each partition. *)
Fixpoint numbers (k : Z) (ds : list bool) : list Z :=
  match ds with
  | [] => [k]
  | d :: ds => k :: numbers (if d then k + 1 else k) ds
  end.

(** The node that the decisions lead to. *)
Fixpoint descend (n : PartitionTreeNode) (ds : list bool) : PartitionTreeNode :=
  match size_vector_ n, ds with
  | s :: rest, d :: ds => descend (if d then right_child n s rest else left_child n s rest) ds
  | _, _ => n
  end.

(** What the search relies on: sizes that fit and costs within an [int]. *)
Record node_ok (max_size penalty : Z) (n : PartitionTreeNode) : Prop := {
  ok_this : 0 <= this_size_ n <= max_size;
  ok_sizes : Forall (fun s => 0 <= s <= max_size) (size_vector_ n);
  ok_max : 0 <= max_parent_size_ n;
  ok_min : 0 <= min_parent_size_ n <= INT_MAX;
  ok_penalty : 0 <= penalty;
  ok_packets : 1 <= NumPackets n;
  ok_bound : Z.max (max_parent_size_ n) max_size + penalty * (NumPackets n + zlen (size_vector_ n)) <= INT_MAX
}.

Lemma NumPackets_left n s rest : NumPackets (left_child n s rest) = NumPackets n.
Proof. reflexivity. Qed.
Lemma NumPackets_right n s rest : NumPackets (right_child n s rest) = 1 + NumPackets n.
Proof. reflexivity. Qed.

Lemma this_int max_size penalty n : node_ok max_size penalty n -> this_size_int n = this_size_ n.
Proof.
  intros [H1 _ _ _ Hp Hn Hb]. unfold INT_MAX in Hb. apply s32_id.
  pose proof (zlen_nonneg (size_vector_ n)). assert (0 <= penalty * (NumPackets n + zlen (size_vector_ n))) by nia.
  unfold in_s32. lia.
Qed.

Lemma u64_small x : 0 <= x <= 2147483647 -> u64 x = x.
Proof. intros H. apply u64_id. unfold in_u64. lia. Qed.

Lemma left_child_ok max_size penalty n s rest :
  node_ok max_size penalty n -> size_vector_ n = s :: rest -> this_size_ n + s <= max_size ->
  this_size_ (left_child n s rest) = this_size_ n + s /\ node_ok max_size penalty (left_child n s rest).
Proof.
  intros [H1 H2 H3 H4 Hp Hn Hb] E Hs. rewrite E in *. inversion H2 as [|? ? Hs0 Hr]; subst.
  rewrite zlen_cons in Hb. pose proof (zlen_nonneg rest). unfold INT_MAX in Hb.
  assert (0 <= penalty * (NumPackets n + (1 + zlen rest))) by nia.
  assert (E1 : this_size_ (left_child n s rest) = this_size_ n + s) by (cbn; apply u64_small; lia).
  split; [exact E1|]. split; try rewrite E1; cbn [size_vector_ left_child set_packet_start set_parent_sizes
    new_PartitionTreeNode max_parent_size_ min_parent_size_]; try rewrite NumPackets_left; auto; unfold INT_MAX; try lia; nia.
Qed.

Lemma right_child_ok max_size penalty n s rest :
  node_ok max_size penalty n -> size_vector_ n = s :: rest ->
  max_parent_size_ (right_child n s rest) = Z.max (max_parent_size_ n) (this_size_ n) /\
  min_parent_size_ (right_child n s rest) = Z.min (min_parent_size_ n) (this_size_ n) /\
  node_ok max_size penalty (right_child n s rest).
Proof.
  intros K E. pose proof (this_int _ _ _ K) as T. destruct K as [H1 H2 H3 H4 Hp Hn Hb]. rewrite E in *.
  inversion H2 as [|? ? Hs0 Hr]; subst. rewrite zlen_cons in Hb. pose proof (zlen_nonneg rest).
  assert (E1 : max_parent_size_ (right_child n s rest) = Z.max (max_parent_size_ n) (this_size_ n))
    by (cbn; now rewrite T).
  assert (E2 : min_parent_size_ (right_child n s rest) = Z.min (min_parent_size_ n) (this_size_ n))
    by (cbn; now rewrite T).
  split; [exact E1|]. split; [exact E2|].
  split; try rewrite E1; try rewrite E2; try rewrite NumPackets_right;
    cbn [size_vector_ this_size_ right_child set_packet_start set_parent_sizes new_PartitionTreeNode]; auto; unfold INT_MAX in *; try lia; nia.
Qed.

(** ** Costs *)

Lemma s32_u64 x : s32 (u64 x) = s32 x.
Proof. int_lia. Qed.

Lemma Cost_eq max_size penalty n :
  node_ok max_size penalty n ->
  Cost n penalty =
    Z.max (max_parent_size_ n) (this_size_ n) -
    match size_vector_ n with [] => Z.min (min_parent_size_ n) (this_size_ n) | _ => min_parent_size_ n end +
    penalty * NumPackets n.
Proof.
  intros K. unfold Cost. rewrite (this_int _ _ _ K). destruct K as [H1 H2 H3 H4 Hp Hn Hb].
  pose proof (zlen_nonneg (size_vector_ n)). unfold INT_MAX in *.
  assert (0 <= NumPackets n * penalty <= penalty * (NumPackets n + zlen (size_vector_ n))) by nia.
  rewrite (u64_small (NumPackets n * penalty)) by lia. rewrite s32_u64.
  destruct (size_vector_ n); rewrite s32_id by (unfold in_s32; lia); lia.
Qed.

Lemma max_of_ge l : forall m x, x = m \/ In x l -> x <= max_of m l.
Proof.
  induction l as [|y l IH]; intros m x H; cbn in *; [destruct H as [->|[]]; lia|].
  destruct H as [->|[->|H]]; [| |apply IH; auto].
  - specialize (IH (Z.max m y) _ (or_introl eq_refl)). unfold max_of in IH. lia.
  - specialize (IH (Z.max m x) _ (or_introl eq_refl)). unfold max_of in IH. lia.
Qed.

Lemma max_of_bound B l : forall m, Forall (fun x => x <= B) l -> m <= B -> max_of m l <= B.
Proof.
  unfold max_of. induction l as [|x l IH]; intros m H Hm; cbn; [exact Hm|].
  inversion H; subst. apply IH; [assumption|lia].
Qed.

Lemma min_of_le l : forall m x, x = m \/ In x l -> min_of m l <= x.
Proof.
  induction l as [|y l IH]; intros m x H; cbn in *; [destruct H as [->|[]]; lia|].
  destruct H as [->|[->|H]]; [| |apply IH; auto].
  - specialize (IH (Z.min m y) _ (or_introl eq_refl)). unfold min_of in IH. lia.
  - specialize (IH (Z.min m x) _ (or_introl eq_refl)). unfold min_of in IH. lia.
Qed.

Lemma sums_ge sizes : forall cur ds m,
  Forall (fun s => 0 <= s) sizes -> cur <= max_of m (sums cur sizes ds).
Proof.
  induction sizes as [|s sizes IH]; intros cur ds m H; cbn [sums].
  - apply max_of_ge. right. now left.
  - inversion H; subst. destruct ds as [|[] ds]; [apply max_of_ge; right; now left|apply max_of_ge; right; now left|].
    specialize (IH (cur + s) ds m ltac:(assumption)). lia.
Qed.

Lemma zlen_sums sizes : forall cur ds, 1 <= zlen (sums cur sizes ds).
Proof.
  induction sizes as [|s sizes IH]; intros cur [|[] ds]; cbn [sums]; rewrite ?zlen_cons, ?zlen_nil; try lia.
  - specialize (IH s ds). lia.
  - apply IH.
Qed.

(** Where the decisions lead, and what it costs. *)
Lemma descend_ok max_size penalty ds : forall n,
  node_ok max_size penalty n -> fits max_size (this_size_ n) (size_vector_ n) ds ->
  node_ok max_size penalty (descend n ds) /\ size_vector_ (descend n ds) = [] /\
  Cost (descend n ds) penalty =
    score (max_parent_size_ n) (min_parent_size_ n) penalty (sums (this_size_ n) (size_vector_ n) ds) +
    penalty * (NumPackets n - 1).
Proof.
  induction ds as [|d ds IH]; intros n K F; destruct (size_vector_ n) as [|s rest] eqn:E; cbn [fits] in F;
    try contradiction.
  - cbn [descend]. rewrite E. split; [exact K|]. split; [exact E|].
    rewrite (Cost_eq _ _ _ K), E. unfold score, max_of, min_of. cbn [sums fold_left].
    rewrite zlen_cons, zlen_nil. lia.
  - cbn [descend]. rewrite E. destruct d; destruct F as [F1 F2].
    + destruct (right_child_ok _ _ _ _ _ K E) as (Emax & Emin & K').
      destruct (IH (right_child n s rest) K' F2) as (K2 & E2 & C2).
      split; [exact K2|]. split; [exact E2|]. rewrite C2, Emax, Emin, NumPackets_right. cbn [sums].
      unfold score, max_of, min_of. rewrite zlen_cons. cbn [fold_left this_size_ size_vector_ right_child
        set_packet_start set_parent_sizes new_PartitionTreeNode]. lia.
    + destruct (left_child_ok _ _ _ _ _ K E F1) as (Et & K').
      rewrite <- Et in F2. destruct (IH (left_child n s rest) K' F2) as (K2 & E2 & C2).
      split; [exact K2|]. split; [exact E2|]. rewrite C2, Et, NumPackets_left. reflexivity.
Qed.

Lemma Cost_lower max_size penalty n ds :
  node_ok max_size penalty n -> fits max_size (this_size_ n) (size_vector_ n) ds ->
  Cost n penalty <= Cost (descend n ds) penalty.
Proof.
  intros K F. destruct (descend_ok _ _ _ _ K F) as (_ & _ & C). rewrite C, (Cost_eq _ _ _ K). unfold score.
  set (l := sums _ _ _).
  assert (Hs : Forall (fun s => 0 <= s) (size_vector_ n)).
  { eapply Forall_impl; [|exact (ok_sizes _ _ _ K)]. cbn. lia. }
  pose proof (sums_ge (size_vector_ n) (this_size_ n) ds (max_parent_size_ n) Hs) as G1. fold l in G1.
  pose proof (max_of_ge l (max_parent_size_ n) _ (or_introl eq_refl)) as G2.
  pose proof (min_of_le l (min_parent_size_ n) _ (or_introl eq_refl)) as G3.
  assert (G4 : 1 <= zlen l) by apply zlen_sums. pose proof (ok_penalty _ _ _ K).
  destruct (size_vector_ n) as [|s rest] eqn:E; [|nia].
  assert (El : l = [this_size_ n]) by (subst l; now destruct ds). rewrite El in *. unfold max_of, min_of in *. cbn [fold_left] in *. nia.
Qed.

(** Every partition can be put somewhere. *)
Lemma CreateChildren_some max_size penalty n s rest :
  node_ok max_size penalty n -> size_vector_ n = s :: rest ->
  CreateChildren n max_size =
    (if this_size_ n + s <=? max_size then Some (left_child n s rest) else None,
     if 0 <? this_size_ n then Some (right_child n s rest) else None) /\
  (this_size_ n + s <= max_size \/ 0 < this_size_ n).
Proof.
  intros K E. unfold CreateChildren. rewrite E. destruct K as [H1 H2 H3 H4 Hp Hn Hb]. rewrite E in *.
  inversion H2; subst. pose proof (zlen_nonneg (s :: rest)). unfold INT_MAX in *.
  assert (0 <= penalty * (NumPackets n + zlen (s :: rest))) by nia.
  rewrite u64_id by (unfold in_u64; lia). split; [reflexivity|lia].
Qed.

(** Both searches below, the result is the better of the two. *)
Lemma search_both P (a b : PartitionTreeNode) (first second : res PartitionTreeNode) penalty :
  (forall x, first = Ok x -> P x /\ Cost a penalty <= Cost x penalty) ->
  (forall y, second = Ok y -> P y /\ Cost b penalty <= Cost y penalty) ->
  (exists x, first = Ok x) -> (exists y, second = Ok y) ->
  exists z, P z /\
    (let! first := first in
     if Cost b penalty <=? Cost first penalty then
       let! second := second in
       if Cost second penalty <? Cost first penalty then Ok second else Ok first
     else Ok first) = Ok z /\
    (forall x, first = Ok x -> Cost z penalty <= Cost x penalty) /\
    (forall y, second = Ok y -> Cost z penalty <= Cost y penalty).
Proof.
  intros H1 H2 [x E1] [y E2]. destruct (H1 x E1) as [P1 _]. destruct (H2 y E2) as [P2 L2].
  rewrite E1, E2. cbn [bind]. destruct (Z.leb_spec (Cost b penalty) (Cost x penalty)); cbn [bind];
    [destruct (Z.ltb_spec (Cost y penalty) (Cost x penalty));
      [exists y; split; [exact P2|]|exists x; split; [exact P1|]]|exists x; split; [exact P1|]];
    (split; [reflexivity|]); split; intros ? [= <-]; lia.
Qed.

(** The search from a node. *)
Lemma get_optimal_spec max_size penalty fuel : forall n,
  node_ok max_size penalty n -> length (size_vector_ n) = fuel ->
  exists ds, get_optimal fuel n max_size penalty = Ok (descend n ds) /\
    fits max_size (this_size_ n) (size_vector_ n) ds /\
    forall ds', fits max_size (this_size_ n) (size_vector_ n) ds' ->
      Cost (descend n ds) penalty <= Cost (descend n ds') penalty.
Proof.
  induction fuel as [|fuel IH]; intros n K L; destruct (size_vector_ n) as [|s rest] eqn:E; try discriminate.
  { exists []. cbn [get_optimal]. unfold CreateChildren. cbn [descend]. rewrite E. split; [reflexivity|]. split; [exact I|].
    intros [|d ds'] F; [cbn [descend]; rewrite E; lia|destruct F]. }
  injection L as L. destruct (CreateChildren_some _ _ _ _ _ K E) as [Ec Some_child].
  cbn [get_optimal]. rewrite Ec.
  assert (Left : this_size_ n + s <= max_size -> exists ds,
    get_optimal fuel (left_child n s rest) max_size penalty = Ok (descend n (false :: ds)) /\
    fits max_size (this_size_ n) (s :: rest) (false :: ds) /\
    Cost (left_child n s rest) penalty <= Cost (descend n (false :: ds)) penalty /\
    forall ds', fits max_size (this_size_ n) (s :: rest) (false :: ds') ->
      Cost (descend n (false :: ds)) penalty <= Cost (descend n (false :: ds')) penalty).
  { intros Hs. destruct (left_child_ok _ _ _ _ _ K E Hs) as [Et Kl].
    destruct (IH _ Kl L) as (ds & G & F & B). exists ds. cbn [descend fits]. rewrite E.
    rewrite Et in *. cbn [size_vector_ left_child set_packet_start set_parent_sizes new_PartitionTreeNode] in F, B.
    split; [exact G|]. split; [auto|]. split; [|intros ds' [_ F']; now apply B].
    apply (Cost_lower max_size); [exact Kl|]. now rewrite Et. }
  assert (Right : 0 < this_size_ n -> exists ds,
    get_optimal fuel (right_child n s rest) max_size penalty = Ok (descend n (true :: ds)) /\
    fits max_size (this_size_ n) (s :: rest) (true :: ds) /\
    Cost (right_child n s rest) penalty <= Cost (descend n (true :: ds)) penalty /\
    forall ds', fits max_size (this_size_ n) (s :: rest) (true :: ds') ->
      Cost (descend n (true :: ds)) penalty <= Cost (descend n (true :: ds')) penalty).
  { intros Hs. destruct (right_child_ok _ _ _ _ _ K E) as (_ & _ & Kr).
    destruct (IH _ Kr L) as (ds & G & F & B). exists ds. cbn [descend fits]. rewrite E.
    split; [exact G|]. split; [auto|]. split; [|intros ds' [_ F']; now apply B].
    now apply (Cost_lower max_size). }
  destruct (Z.leb_spec (this_size_ n + s) max_size) as [Hl|Hl];
    destruct (Z.ltb_spec 0 (this_size_ n)) as [Hr|Hr]; [| | |lia].
  - destruct (Left Hl) as (dl & Gl & Fl & Ll & Bl). destruct (Right Hr) as (dr & Gr & Fr & Lr & Br).
    set (Q := fun x => x = descend n (false :: dl) \/ x = descend n (true :: dr)).
    assert (Ql : forall x, get_optimal fuel (left_child n s rest) max_size penalty = Ok x ->
      Q x /\ Cost (left_child n s rest) penalty <= Cost x penalty).
    { intros x Hx. rewrite Gl in Hx. injection Hx as <-. split; [now left|exact Ll]. }
    assert (Qr : forall x, get_optimal fuel (right_child n s rest) max_size penalty = Ok x ->
      Q x /\ Cost (right_child n s rest) penalty <= Cost x penalty).
    { intros x Hx. rewrite Gr in Hx. injection Hx as <-. split; [now right|exact Lr]. }
    assert (Z : exists z, Q z /\
      (let (first, second) :=
         if Cost (left_child n s rest) penalty <=? Cost (right_child n s rest) penalty
         then (left_child n s rest, right_child n s rest)
         else (right_child n s rest, left_child n s rest) in
       let! first := get_optimal fuel first max_size penalty in
       if Cost second penalty <=? Cost first penalty then
         let! second := get_optimal fuel second max_size penalty in
         if Cost second penalty <? Cost first penalty then Ok second else Ok first
       else Ok first) = Ok z /\
      Cost z penalty <= Cost (descend n (false :: dl)) penalty /\
      Cost z penalty <= Cost (descend n (true :: dr)) penalty).
    { destruct (Cost (left_child n s rest) penalty <=? Cost (right_child n s rest) penalty).
      - destruct (search_both Q _ _ _ _ penalty Ql Qr (ex_intro _ _ Gl) (ex_intro _ _ Gr)) as (z & Qz & Ez & Z1 & Z2).
        exists z. auto 6.
      - destruct (search_both Q _ _ _ _ penalty Qr Ql (ex_intro _ _ Gr) (ex_intro _ _ Gl)) as (z & Qz & Ez & Z1 & Z2).
        exists z. auto 6. }
    destruct Z as (z & Qz & Ez & Z1 & Z2). rewrite Ez.
    assert (Best : forall ds', fits max_size (this_size_ n) (s :: rest) ds' ->
      Cost z penalty <= Cost (descend n ds') penalty).
    { intros [|[] ds'] F'; [destruct F'|specialize (Br _ F'); lia|specialize (Bl _ F'); lia]. }
    destruct Qz as [->| ->]; [exists (false :: dl)|exists (true :: dr)]; auto.
  - destruct (Left Hl) as (dl & Gl & Fl & _ & Bl). exists (false :: dl). split; [exact Gl|]. split; [exact Fl|].
    intros [|[] ds'] F'; [destruct F'|destruct F'; lia|now apply Bl].
  - destruct (Right Hr) as (dr & Gr & Fr & _ & Br). exists (true :: dr). split; [exact Gr|]. split; [exact Fr|].
    intros [|[] ds'] F'; [destruct F'|now apply Br|destruct F'; lia].
Qed.

(** ** The configuration *)

Definition starts (ds : list bool) : Z := zlen (filter (fun d => d) ds).

Lemma descend_snoc ds : forall n d,
  (length ds < length (size_vector_ n))%nat ->
  exists s rest, size_vector_ (descend n ds) = s :: rest /\
    S (length rest + length ds) = length (size_vector_ n) /\
    descend n (ds ++ [d]) =
      (if d then right_child (descend n ds) s rest else left_child (descend n ds) s rest).
Proof.
  induction ds as [|x ds IH]; intros n d H; destruct (size_vector_ n) as [|s rest] eqn:E; cbn in H; try lia.
  - exists s, rest. cbn [descend app]. rewrite E. split; [exact E|]. cbn [length]. split; [lia|].
    destruct d; cbn [descend]; [destruct (right_child n s rest)|destruct (left_child n s rest)]; cbn; now destruct size_vector_0.
  - cbn [descend app]. rewrite E.
    set (c := if x then right_child n s rest else left_child n s rest).
    assert (Ec : size_vector_ c = rest) by (subst c; now destruct x).
    destruct (IH c d) as (s' & rest' & E' & L' & D'); [rewrite Ec; lia|].
    exists s', rest'. rewrite Ec in L'. cbn [length]. split; [exact E'|]. split; [lia|exact D'].
Qed.

Lemma numbers_snoc ds d : forall k,
  numbers k (ds ++ [d]) = numbers k ds ++ [k + starts (ds ++ [d])].
Proof.
  unfold starts. induction ds as [|x ds IH]; intros k; cbn [app numbers filter].
  - destruct d; cbn [numbers]; rewrite ?zlen_cons, ?zlen_nil; repeat f_equal; lia.
  - rewrite IH. cbn [app]. do 3 f_equal. destruct x; rewrite ?zlen_cons; lia.
Qed.

Lemma starts_snoc ds d : starts (ds ++ [d]) = starts ds + if d then 1 else 0.
Proof. unfold starts. rewrite filter_app, zlen_app. now destruct d. Qed.

Lemma upd_mid {A} (a : list A) x b v : upd (a ++ x :: b) (length a) v = a ++ v :: b.
Proof. induction a as [|y a IH]; cbn; [reflexivity|]. now rewrite IH. Qed.

(** A root is the start of its packet and has no parent. *)
Definition is_root (n : PartitionTreeNode) : Prop := parent_ n = None /\ packet_start_ n = true.

Lemma NumPackets_descend n ds :
  (length ds <= length (size_vector_ n))%nat -> NumPackets (descend n ds) = NumPackets n + starts ds.
Proof.
  induction ds as [|d ds IH] using rev_ind; intros H.
  - destruct n as [q t sv mx mn st]. destruct sv; cbn [descend size_vector_]; unfold starts; cbn [filter]; rewrite zlen_nil; lia.
  - rewrite length_app in H. cbn in H.
    destruct (descend_snoc ds n d ltac:(lia)) as (s & rest & _ & _ & ->). rewrite starts_snoc.
    destruct d; rewrite ?NumPackets_right, ?NumPackets_left, IH by lia; lia.
Qed.

Lemma fill_config_spec n ds : forall a b,
  is_root n -> (length ds <= length (size_vector_ n))%nat -> length a = S (length ds) ->
  fill_config (length a) (Some (descend n ds)) (1 + starts ds) (a ++ b) = Ok (numbers 0 ds ++ b).
Proof.
  induction ds as [|d ds IH] using rev_ind; intros a b [Rp Rs] H L.
  - destruct a as [|x [|]]; try discriminate. cbn [fill_config app length]. rewrite put_ok by (rewrite zlen_cons; pose proof (zlen_nonneg b); lia).
    reflexivity.
  - rewrite length_app, Nat.add_1_r in *. destruct (descend_snoc ds n d ltac:(lia)) as (s & rest & _ & _ & E).
    destruct (@exists_last _ a) as (a' & x & ->); [now destruct a|]. rewrite length_app, Nat.add_1_r in *.
    injection L as L. rewrite <- app_assoc. cbn [app fill_config].
    rewrite put_ok by (rewrite zlen_app, zlen_cons; pose proof (zlen_nonneg b); unfold zlen; lia).
    cbn [bind]. rewrite Nat2Z.id, upd_mid.
    assert (Hs : (if packet_start_ (descend n (ds ++ [d])) then 1 + starts (ds ++ [d]) - 1
                  else 1 + starts (ds ++ [d])) = 1 + starts ds).
    { rewrite starts_snoc, E. destruct d; cbn [packet_start_ right_child left_child set_packet_start]; lia. }
    rewrite Hs. assert (Hp : option_map snd (parent_ (descend n (ds ++ [d]))) = Some (descend n ds)).
    { rewrite E. now destruct d. }
    rewrite Hp, (IH a') by (try split; auto; lia). rewrite numbers_snoc, <- app_assoc. cbn [app].
    do 3 f_equal. lia.
Qed.

Lemma fits_length max_size sizes : forall cur ds, fits max_size cur sizes ds -> length ds = length sizes.
Proof.
  induction sizes as [|s sizes IH]; intros cur [|d ds] F; cbn in F; try contradiction; [reflexivity|].
  cbn. f_equal. destruct d; destruct F as [_ F]; eauto.
Qed.

Lemma FindOptimalConfiguration_spec a max_size penalty :
  node_ok max_size penalty (root_ a) -> is_root (root_ a) -> NumPackets (root_ a) = 1 ->
  num_partitions_ a = 1 + zlen (size_vector_ (root_ a)) ->
  exists ds, FindOptimalConfiguration a max_size penalty = Ok (numbers 0 ds) /\
    fits max_size (this_size_ (root_ a)) (size_vector_ (root_ a)) ds /\
    forall ds', fits max_size (this_size_ (root_ a)) (size_vector_ (root_ a)) ds' ->
      score (max_parent_size_ (root_ a)) (min_parent_size_ (root_ a)) penalty
        (sums (this_size_ (root_ a)) (size_vector_ (root_ a)) ds) <=
      score (max_parent_size_ (root_ a)) (min_parent_size_ (root_ a)) penalty
        (sums (this_size_ (root_ a)) (size_vector_ (root_ a)) ds').
Proof.
  intros K R N1 Hn. destruct (get_optimal_spec max_size penalty _ (root_ a) K eq_refl) as (ds & G & F & B).
  exists ds. unfold FindOptimalConfiguration, GetOptimalNode. rewrite G. cbn [bind].
  pose proof (fits_length _ _ _ _ F) as L.
  rewrite NumPackets_descend, N1 by lia. rewrite Hn. unfold zlen.
  set (z := repeat 0 _). assert (Lz : length z = S (length ds)) by (subst z; rewrite repeat_length; lia).
  replace (Z.to_nat (1 + Z.of_nat (length (size_vector_ (root_ a))))) with (length z) by lia.
  split.
  - rewrite <- (app_nil_r z) at 2. rewrite fill_config_spec by (auto; lia). now rewrite app_nil_r.
  - split; [exact F|]. intros ds' F'. specialize (B ds' F').
    destruct (descend_ok _ _ _ _ K F) as (_ & _ & C). destruct (descend_ok _ _ _ _ K F') as (_ & _ & C').
    rewrite C, C' in B. lia.
Qed.

(** ** The smallest and the largest packet *)

(** One packet: either the decisions end it, or it is the last. *)
Lemma packet_run_spec k : forall sizes ds cur t,
  length ds = length sizes -> 0 <= t -> Forall (fun s => 0 <= s) (cur :: sizes) ->
  Forall (fun s => s <= INT_MAX) (sums (t + cur) sizes ds) ->
  exists p, packet_run k (numbers k ds) (cur :: sizes) t = Ok p /\
    (p = (fst (fst p), [], []) /\ sums (t + cur) sizes ds = [fst (fst p)] \/
     exists s' sizes' ds', p = (fst (fst p), numbers (k + 1) ds', s' :: sizes') /\
       sums (t + cur) sizes ds = fst (fst p) :: sums s' sizes' ds' /\
       length ds' = length sizes' /\ (length ds' < length ds)%nat /\
       Forall (fun s => 0 <= s) (s' :: sizes')).
Proof.
  induction sizes as [|s sizes IH]; intros [|d ds] cur t L Ht Hs Hm; try discriminate.
  - cbn [sums numbers packet_run] in *. rewrite Z.eqb_refl. inversion Hm; inversion Hs; subst.
    rewrite u64_small by (unfold INT_MAX in *; lia). eexists. split; [reflexivity|]. left. auto.
  - cbn [sums numbers packet_run] in *. rewrite Z.eqb_refl. inversion Hs as [|? ? Hc Hr]; subst.
    destruct d.
    + inversion Hm; subst. rewrite u64_small by (unfold INT_MAX in *; lia).
      assert (E : packet_run k (numbers (k + 1) ds) (s :: sizes) (t + cur) =
        Ok (t + cur, numbers (k + 1) ds, s :: sizes)).
      { destruct ds; cbn [numbers packet_run]; now replace (k =? k + 1) with false by lia. }
      rewrite E. eexists. split; [reflexivity|]. right. exists s, sizes, ds. cbn [fst].
      injection L as L. cbn [length]. auto with arith.
    + assert (Hb : t + cur <= INT_MAX).
      { inversion Hr; subst. assert (Hs' : Forall (fun s => 0 <= s) sizes) by assumption.
        pose proof (sums_ge sizes (t + cur + s) ds 0 Hs') as G.
        pose proof (max_of_bound INT_MAX _ 0 Hm ltac:(unfold INT_MAX; lia)). lia. }
      rewrite u64_small by (unfold INT_MAX in *; lia). injection L as L.
      destruct (IH ds s (t + cur) L ltac:(lia) Hr Hm) as (p & E & D).
      exists p. split; [exact E|]. destruct D as [D|(s' & sizes' & ds' & D1 & D2 & D3 & D4 & D5)];
        [now left|right]. exists s', sizes', ds'. cbn [length].
      do 3 (split; [assumption|]). split; [lia|assumption].
Qed.

Lemma min_max_loop_spec fuel : forall k sizes ds cur mn mx,
  length ds = length sizes -> (length ds < fuel)%nat -> Forall (fun s => 0 <= s) (cur :: sizes) ->
  Forall (fun s => 0 <= s <= INT_MAX) (sums cur sizes ds) -> 0 <= mn <= INT_MAX -> 0 <= mx <= INT_MAX ->
  min_max_loop fuel (numbers k ds) (cur :: sizes) mn mx =
    Ok (min_of mn (sums cur sizes ds), max_of mx (sums cur sizes ds)).
Proof.
  induction fuel as [|fuel IH]; intros k sizes ds cur mn mx L Hf Hs Hm Hmn Hmx; [lia|].
  assert (Hm' : Forall (fun s => s <= INT_MAX) (sums cur sizes ds)) by (eapply Forall_impl; [|exact Hm]; cbn; lia).
  destruct (packet_run_spec k sizes ds cur 0 L ltac:(lia) Hs Hm') as (p & E & D). rewrite Z.add_0_l in D.
  destruct (numbers k ds) as [|c0 cfg] eqn:En; [now destruct ds|]. assert (c0 = k) as -> by (destruct ds; now injection En).
  cbn [min_max_loop]. rewrite E. cbn [bind].
  assert (Step : forall x, 0 <= x <= INT_MAX ->
    (if x <? u64 mn then s32 x else mn) = Z.min mn x /\ (if u64 mx <? x then s32 x else mx) = Z.max mx x).
  { intros x Hx. unfold INT_MAX in *. rewrite !u64_small, s32_id by (unfold in_s32; lia).
    split; case_if; lia. }
  destruct D as [(-> & D)|(s' & sizes' & ds' & -> & D2 & D3 & D4 & D5)]; cbn [fst] in *.
  - set (x := fst (fst p)) in *. rewrite D in *. inversion Hm; subst.
    destruct (Step x ltac:(assumption)) as [-> ->]. destruct fuel; reflexivity.
  - set (x := fst (fst p)) in *. rewrite D2 in *. inversion Hm; subst.
    destruct (Step x ltac:(assumption)) as [-> ->]. rewrite IH by (try assumption; lia). reflexivity.
Qed.

Lemma fits_sums max_size sizes : forall cur ds,
  fits max_size cur sizes ds -> 0 <= cur <= max_size -> Forall (fun s => 0 <= s <= max_size) sizes ->
  Forall (fun s => 0 <= s <= max_size) (sums cur sizes ds).
Proof.
  induction sizes as [|s sizes IH]; intros cur [|d ds] F Hc Hs; cbn in F; try contradiction; cbn [sums]; [auto|].
  inversion Hs; subst. destruct d; destruct F as [F1 F2]; [constructor; [assumption|]|]; apply IH; auto; lia.
Qed.

Lemma CalcMinMax_spec a max_size cur sizes ds mn mx :
  sizes_ a = cur :: sizes -> fits max_size cur sizes ds -> 0 <= max_size <= INT_MAX ->
  Forall (fun s => 0 <= s <= max_size) (cur :: sizes) -> mn <= INT_MAX -> mx <= INT_MAX ->
  CalcMinMax a (numbers 0 ds) mn mx =
    Ok (min_of (if mn <? 0 then INT_MAX else mn) (sums cur sizes ds),
        max_of (if mx <? 0 then 0 else mx) (sums cur sizes ds)).
Proof.
  intros E F Hm Hs Hmn Hmx. unfold CalcMinMax. rewrite E. inversion Hs; subst.
  pose proof (fits_length _ _ _ _ F) as L. apply min_max_loop_spec; auto.
  - assert (forall k, length (numbers k ds) = S (length ds)); [|rewrite H; lia].
    clear. induction ds as [|d ds IH]; intros k; cbn; [reflexivity|now rewrite IH].
  - eapply Forall_impl; [|exact Hs]. cbn. lia.
  - eapply Forall_impl; [|now apply (fits_sums max_size)]. cbn. lia.
  - unfold INT_MAX in *. case_if; lia.
  - unfold INT_MAX in *. case_if; lia.
Qed.

(** ** The aggregator of some partitions *)

Lemma copy_sizes_ok n : forall lengths i,
  0 <= i -> i + Z.of_nat n <= zlen lengths -> copy_sizes n lengths i = Ok (slice lengths i (Z.of_nat n)).
Proof.
  induction n as [|n IH]; intros lengths i Hi Hn; [reflexivity|].
  cbn [copy_sizes]. rewrite (get_ok lengths i 0) by lia. cbn [bind]. rewrite IH by lia. cbn [bind].
  f_equal. replace (Z.of_nat (S n)) with (1 + Z.of_nat n) by lia. rewrite slice_add by lia.
  unfold slice at 2. replace (Z.to_nat 1) with 1%nat by lia.
  destruct (skipn (Z.to_nat i) lengths) as [|x r] eqn:E.
  - exfalso. pose proof (length_skipn (Z.to_nat i) lengths) as L. rewrite E in L. cbn in L. unfold zlen in Hn. lia.
  - cbn [firstn app]. f_equal.
    replace (Z.to_nat i) with (Z.to_nat i + 0)%nat by lia. rewrite <- nth_skipn, E. reflexivity.
Qed.

(** The prior sizes as the packetizer gives them: both [-1] at first. *)
Definition with_prior (a : Vp8PartitionAggregator) (min_size max_size : Z) : Vp8PartitionAggregator :=
  if (0 <=? min_size) && (0 <=? max_size) then SetPriorMinMax a min_size max_size else a.
Definition prior_ok (max_size mn mx : Z) : Prop := mn = -1 /\ mx = -1 \/ 0 <= mn <= mx /\ mx <= max_size.
Definition from_min (mn : Z) : Z := if mn <? 0 then INT_MAX else mn.
Definition from_max (mx : Z) : Z := if mx <? 0 then 0 else mx.

Lemma aggregate_spec frag first last mn mx max_size penalty s rest :
  0 <= first -> last < zlen (fragmentationLength frag) ->
  slice (fragmentationLength frag) first (last - first + 1) = s :: rest ->
  Forall (fun x => 0 <= x <= max_size) (s :: rest) -> 0 <= penalty -> prior_ok max_size mn mx ->
  max_size + penalty * (1 + zlen rest) <= INT_MAX ->
  exists a ds, new_Vp8PartitionAggregator frag first last = Ok a /\
    FindOptimalConfiguration (with_prior a mn mx) max_size penalty = Ok (numbers 0 ds) /\
    fits max_size s rest ds /\
    (forall ds', fits max_size s rest ds' ->
       score (from_max mx) (from_min mn) penalty (sums s rest ds) <=
       score (from_max mx) (from_min mn) penalty (sums s rest ds')) /\
    CalcMinMax (with_prior a mn mx) (numbers 0 ds) mn mx =
      Ok (min_of (from_min mn) (sums s rest ds), max_of (from_max mx) (sums s rest ds)).
Proof.
  intros Hf Hl Hs Hr Hp Hq Hb.
  assert (Hn : last - first + 1 = 1 + zlen rest).
  { pose proof (f_equal zlen Hs) as L. rewrite zlen_cons in L. pose proof (zlen_nonneg rest).
    assert (0 < last - first + 1).
    { destruct (Z.ltb_spec 0 (last - first + 1)); [assumption|]. exfalso. unfold slice in Hs.
      replace (Z.to_nat (last - first + 1)) with 0%nat in Hs by lia. discriminate. }
    rewrite zlen_slice in L by lia. exact L. }
  unfold new_Vp8PartitionAggregator. pose proof (zlen_nonneg rest) as Hz.
  rewrite copy_sizes_ok, Z2Nat.id, Hs by lia. cbn [bind CreateRootNode].
  set (a := mk_aggregator _ _ _ _). exists a.
  set (a' := with_prior a mn mx).
  assert (R : max_parent_size_ (root_ a') = from_max mx /\ min_parent_size_ (root_ a') = from_min mn /\
    this_size_ (root_ a') = s /\ size_vector_ (root_ a') = rest /\ is_root (root_ a') /\
    NumPackets (root_ a') = 1 /\ num_partitions_ a' = 1 + zlen rest /\ sizes_ a' = s :: rest).
  { subst a'. unfold with_prior, from_min, from_max. destruct Hq as [[-> ->]|Hq]; [now repeat split|].
    replace ((0 <=? mn) && (0 <=? mx)) with true by lia.
    replace (mx <? 0) with false by lia. replace (mn <? 0) with false by lia. now repeat split. }
  destruct R as (Rmax & Rmin & Rt & Rv & Rr & Rn & Ra & Rz).
  assert (Bm : 0 <= from_max mx <= max_size /\ 0 <= from_min mn <= INT_MAX).
  { pose proof (Forall_inv Hr) as H1. cbn in H1. unfold from_max, from_min. assert (0 <= penalty * (1 + zlen rest)) by nia.
    unfold INT_MAX in *. destruct Hq as [[-> ->]|Hq]; [cbn; lia|].
    replace (mx <? 0) with false by lia. replace (mn <? 0) with false by lia. lia. }
  assert (K : node_ok max_size penalty (root_ a')).
  { pose proof (Forall_inv Hr) as H1. cbn in H1. pose proof (Forall_inv_tail Hr) as H2.
    split; rewrite ?Rmax, ?Rmin, ?Rt, ?Rv, ?Rn; auto; lia. }
  destruct (FindOptimalConfiguration_spec a' max_size penalty K Rr Rn) as (ds & F & Fi & B); [now rewrite Rv|].
  rewrite Rt, Rv, Rmax, Rmin in *. exists ds. split; [reflexivity|]. split; [exact F|]. split; [exact Fi|].
  split; [exact B|]. assert (0 <= penalty * (1 + zlen rest)) by nia.
  apply (CalcMinMax_spec a' max_size s rest); auto; [pose proof (Forall_inv Hr) as H1; cbn in H1; lia| |]; destruct Hq as [[-> ->]|Hq]; unfold INT_MAX in *; lia.
Qed.

(** ** Fragments of a large partition *)

Definition frag_size (L n : Z) : Z := (L + n - 1) / n.
Definition frag_cost (L penalty mn mx n : Z) : Z :=
  (if frag_size L n <? mn then mn - frag_size L n
   else if mx <? frag_size L n then frag_size L n - mx else 0) + n * penalty.
Definition min_n (L M : Z) : Z := (L + M - 1) / M.

Lemma frag_size_le L M n :
  0 < L -> 0 < M -> min_n L M <= n -> 1 <= n /\ frag_size L n <= M /\ 1 <= frag_size L n <= L.
Proof.
  unfold min_n, frag_size. intros HL HM H. assert (1 <= (L + M - 1) / M) by (apply Z.div_le_lower_bound; lia).
  assert (HnM : L <= n * M).
  { assert (L <= (L + M - 1) / M * M); [|nia]. pose proof (Z.div_mod (L + M - 1) M ltac:(lia)).
    pose proof (Z.mod_pos_bound (L + M - 1) M ltac:(lia)). nia. }
  split; [lia|]. split; [|split].
  - apply Z.lt_succ_r. apply Z.div_lt_upper_bound; nia.
  - apply Z.div_le_lower_bound; lia.
  - apply Z.lt_succ_r. apply Z.div_lt_upper_bound; nia.
Qed.

Section Fragments.
Variables (L M penalty mn mx : Z).
Hypothesis (HL : 0 < L <= INT_MAX) (HM : 0 < M <= INT_MAX) (Hpen : 1 <= penalty <= INT_MAX).
Hypothesis (Hmin : 0 < mn <= mx) (Hmx : mx <= M).
#[local] Notation frag_cost := (frag_cost L penalty mn mx).
#[local] Notation min_n := (min_n L M).

Lemma frag_cost_bound n : min_n <= n <= L -> 0 <= frag_cost n < SIZE_MAX.
Proof.
  intros H. destruct (frag_size_le L M n ltac:(lia) ltac:(lia) ltac:(lia)) as (H1 & H2 & H3). unfold Vp8Aggregator.frag_cost, SIZE_MAX, INT_MAX in *.
  assert (n * penalty <= 2147483647 * 2147483647) by nia. assert (0 <= n * penalty) by nia.
  repeat case_if; lia.
Qed.

Lemma step_eq n num best :
  min_n <= n <= L ->
  fragments_step L M penalty mn mx n (num, best) = if frag_cost n <? best then (n, frag_cost n) else (num, best).
Proof.
  intros H. destruct (frag_size_le L M n ltac:(lia) ltac:(lia) ltac:(lia)) as (H1 & H2 & _). unfold fragments_step. fold (frag_size L n).
  replace (frag_size L n <=? M) with true by lia. cbn [andb]. unfold Vp8Aggregator.frag_cost. repeat case_if; try reflexivity; bool_lia.
Qed.

(** The loop ends with the first of the cheapest numbers. *)
Lemma fragments_loop k :
  min_n + Z.of_nat k <= L ->
  let s := for_up min_n (S k) (fragments_step L M penalty mn mx) (-1, SIZE_MAX) in
  snd s = frag_cost (fst s) /\ min_n <= fst s <= min_n + Z.of_nat k /\
  (forall n, min_n <= n < fst s -> frag_cost (fst s) < frag_cost n) /\
  (forall n, min_n <= n <= min_n + Z.of_nat k -> frag_cost (fst s) <= frag_cost n).
Proof.
  induction k as [|k IH]; intros Hk; cbv zeta.
  - cbn [for_up]. rewrite step_eq by (unfold INT_MAX in *; lia). pose proof (frag_cost_bound min_n ltac:(lia)).
    replace (frag_cost min_n <? SIZE_MAX) with true by lia. cbn [fst snd].
    split; [reflexivity|]. split; [lia|]. split; [intros; lia|]. intros n Hn. replace n with min_n by lia. lia.
  - rewrite for_up_snoc. destruct (for_up min_n (S k) _ _) as [num best] eqn:E. cbv zeta in IH.
    destruct (IH ltac:(lia)) as (B & R & F & Mn). cbn [fst snd] in *.
    rewrite step_eq by lia. destruct (Z.ltb_spec (frag_cost (min_n + Z.of_nat (S k))) best) as [C|C]; cbn [fst snd].
    + split; [reflexivity|]. split; [lia|]. split.
      * intros n Hn. specialize (Mn n ltac:(lia)). lia.
      * intros n Hn. destruct (Z.eq_dec n (min_n + Z.of_nat (S k))) as [->|]; [lia|]. specialize (Mn n ltac:(lia)). lia.
    + split; [exact B|]. split; [lia|]. split; [exact F|].
      intros n Hn. destruct (Z.eq_dec n (min_n + Z.of_nat (S k))) as [->|]; [lia|]. apply Mn. lia.
Qed.
End Fragments.

(** Every one of [n] fragments of the size [frag_size] gets some bytes. *)
Lemma first_frag_nonempty L M n :
  0 < L -> 0 < M -> min_n L M <= n -> (n = min_n L M \/ frag_size L n < frag_size L (n - 1)) ->
  (n - 1) * frag_size L n < L.
Proof.
  intros HL HM Hn [E|E].
  - assert (Hf : frag_size L n <= M).
    { unfold frag_size, min_n in *. assert (1 <= (L + M - 1) / M) by (apply Z.div_le_lower_bound; lia).
      assert (L <= n * M); [|apply Z.lt_succ_r; apply Z.div_lt_upper_bound; nia].
      pose proof (Z.div_mod (L + M - 1) M ltac:(lia)). pose proof (Z.mod_pos_bound (L + M - 1) M ltac:(lia)). nia. }
    assert (Hm : (n - 1) * M < L).
    { subst n. unfold min_n. pose proof (Z.div_mod (L + M - 1) M ltac:(lia)).
      pose proof (Z.mod_pos_bound (L + M - 1) M ltac:(lia)). nia. }
    assert (1 <= n) by (subst n; unfold min_n; apply Z.div_le_lower_bound; lia). nia.
  - destruct (Z.eq_dec n 1) as [->|].
    + lia.
    + assert (1 <= min_n L M) by (unfold min_n; apply Z.div_le_lower_bound; lia).
      destruct (Z.ltb_spec ((n - 1) * frag_size L n) L); [assumption|]. exfalso.
      assert (frag_size L (n - 1) <= frag_size L n); [|lia]. unfold frag_size at 1.
      apply Z.lt_succ_r. apply Z.div_lt_upper_bound; nia.
Qed.

Definition sizes_ok (M mn mx : Z) : Prop := mn = -1 \/ 0 < mn <= mx /\ mx <= M.

Lemma CalcNumberOfFragments_spec L M penalty mn mx :
  0 < L <= INT_MAX -> 0 < M <= INT_MAX -> 1 <= penalty <= INT_MAX -> sizes_ok M mn mx ->
  exists n, CalcNumberOfFragments L M penalty mn mx = Ok n /\
    1 <= n /\ 1 <= frag_size L n <= M /\ (n - 1) * frag_size L n < L <= n * frag_size L n /\
    (mn = -1 -> n = min_n L M) /\
    (0 < mn -> forall k, min_n L M <= k <= (L + mn - 1) / mn ->
       frag_cost L penalty mn mx n <= frag_cost L penalty mn mx k).
Proof.
  intros HL HM Hp Hs. unfold CalcNumberOfFragments. replace (M =? 0) with false by lia. fold (min_n L M).
  assert (Cover : forall n, 1 <= n -> L <= n * frag_size L n).
  { intros n Hn. unfold frag_size. pose proof (Z.div_mod (L + n - 1) n ltac:(lia)).
    pose proof (Z.mod_pos_bound (L + n - 1) n ltac:(lia)). nia. }
  destruct Hs as [->|[Hm Hx]].
  - change (-1 <? 0) with true. cbn [orb]. exists (min_n L M). split; [reflexivity|].
    destruct (frag_size_le L M (min_n L M) ltac:(lia) ltac:(lia) ltac:(lia)) as (H1 & H2 & H3).
    do 2 (split; [lia|]). split; [|split; [auto|lia]].
    split; [apply (first_frag_nonempty L M); auto; lia|apply Cover; lia].
  - replace ((mn <? 0) || (mx <? 0)) with false by lia. replace (mn =? 0) with false by lia.
    assert (Hmax : min_n L M <= (L + mn - 1) / mn <= L).
    { split.
      - unfold min_n. apply Z.lt_succ_r. apply Z.div_lt_upper_bound; [lia|].
        pose proof (Z.div_mod (L + mn - 1) mn ltac:(lia)). pose proof (Z.mod_pos_bound (L + mn - 1) mn ltac:(lia)). nia.
      - apply Z.lt_succ_r. apply Z.div_lt_upper_bound; nia. }
    set (k := (L + mn - 1) / mn - min_n L M). replace (Z.to_nat (k + 1)) with (S (Z.to_nat k)) by lia.
    destruct (fragments_loop L M penalty mn mx HL HM Hp Hm Hx (Z.to_nat k) ltac:(lia)) as (_ & R & F & Mn).
    set (n := fst _) in *. exists n.
    assert (1 <= min_n L M) by (unfold min_n; apply Z.div_le_lower_bound; lia).
    split; [f_equal; apply u64_id; unfold in_u64, INT_MAX in *; lia|].
    destruct (frag_size_le L M n ltac:(lia) ltac:(lia) ltac:(lia)) as (H1 & H2 & H3).
    do 2 (split; [lia|]). split; [split; [|apply Cover; lia]|split; [lia|intros _ q Hq; apply Mn; lia]].
    apply (first_frag_nonempty L M); try lia. destruct (Z.eq_dec n (min_n L M)) as [E|E]; [now left|right].
    destruct (frag_size_le L M (n - 1) ltac:(lia) ltac:(lia) ltac:(lia)) as (H1' & _ & _).
    assert (frag_size L n <= frag_size L (n - 1)).
    { unfold frag_size at 1. apply Z.lt_succ_r. apply Z.div_lt_upper_bound; [lia|]. specialize (Cover (n - 1) ltac:(lia)).
      assert (1 <= frag_size L (n - 1)) by (unfold frag_size; apply Z.div_le_lower_bound; lia). nia. }
    destruct (Z.eq_dec (frag_size L n) (frag_size L (n - 1))) as [Q|Q]; [|lia]. exfalso.
    specialize (F (n - 1) ltac:(lia)). unfold frag_cost in F. rewrite <- Q in F. nia.
Qed.

(** ** Properties *)

(** C25. The aggregation is optimal: for any consecutive partitions that each fit a
    packet, and sizes of earlier packets or none, the search ends and finds a
    way to form packets, numbered from 0 in order, in which every packet fits
    the maximal size, and no other way that fits has a smaller cost, the spread
    between the largest and the smallest packet plus the penalty of every
    packet; the smallest and largest sizes handed on are those of these packets
    and the earlier ones. *)
Theorem aggregate_optimal frag first last mn mx max_size penalty s rest :
  0 <= first -> last < zlen (fragmentationLength frag) ->
  slice (fragmentationLength frag) first (last - first + 1) = s :: rest ->
  Forall (fun x => 0 <= x <= max_size) (s :: rest) -> 0 <= penalty -> prior_ok max_size mn mx ->
  max_size + penalty * (1 + zlen rest) <= INT_MAX ->
  exists a ds, new_Vp8PartitionAggregator frag first last = Ok a /\
    FindOptimalConfiguration (with_prior a mn mx) max_size penalty = Ok (numbers 0 ds) /\
    Forall (fun p => 0 <= p <= max_size) (sums s rest ds) /\ fits max_size s rest ds /\
    (forall ds', fits max_size s rest ds' ->
       score (from_max mx) (from_min mn) penalty (sums s rest ds) <=
       score (from_max mx) (from_min mn) penalty (sums s rest ds')) /\
    CalcMinMax (with_prior a mn mx) (numbers 0 ds) mn mx =
      Ok (min_of (from_min mn) (sums s rest ds), max_of (from_max mx) (sums s rest ds)).
Proof.
  intros Hf Hl Hs Hr Hp Hq Hb.
  destruct (aggregate_spec frag first last mn mx max_size penalty s rest Hf Hl Hs Hr Hp Hq Hb)
    as (a & ds & E & F & Fi & B & C).
  exists a, ds. split; [exact E|]. split; [exact F|]. split; [|auto].
  exact (fits_sums _ _ _ _ Fi (Forall_inv Hr) (Forall_inv_tail Hr)).
Qed.

Lemma aggregate_optimal_witness :
  exists a ds, new_Vp8PartitionAggregator (mk_frag 5 [0; 600; 1100; 1300; 1350] [600; 500; 200; 50; 700]) 1 4 = Ok a /\
    FindOptimalConfiguration (with_prior a 600 600) 900 7 = Ok (numbers 0 ds) /\
    Forall (fun p => 0 <= p <= 900) (sums 500 [200; 50; 700] ds) /\ fits 900 500 [200; 50; 700] ds /\
    (forall ds', fits 900 500 [200; 50; 700] ds' ->
       score (from_max 600) (from_min 600) 7 (sums 500 [200; 50; 700] ds) <=
       score (from_max 600) (from_min 600) 7 (sums 500 [200; 50; 700] ds')) /\
    CalcMinMax (with_prior a 600 600) (numbers 0 ds) 600 600 =
      Ok (min_of (from_min 600) (sums 500 [200; 50; 700] ds), max_of (from_max 600) (sums 500 [200; 50; 700] ds)).
Proof.
  apply (aggregate_optimal (mk_frag 5 [0; 600; 1100; 1300; 1350] [600; 500; 200; 50; 700]) 1 4 600 600 900 7 500 [200; 50; 700]);
    try (vm_compute; congruence); try lia.
  - repeat constructor; lia.
  - right. lia.
Defined.

(** A large partition is cut well: whatever the sizes of the aggregates, the
    number of fragments found is positive, fragments of the rounded-up size fit
    the maximal payload and cover the partition, and each of them gets at least
    a byte; without aggregates the number is the least that fits, and with
    aggregates no number in the range searched has a smaller cost. *)
Theorem fragments_fit_and_fill L M penalty mn mx :
  0 < L <= INT_MAX -> 0 < M <= INT_MAX -> 1 <= penalty <= INT_MAX -> sizes_ok M mn mx ->
  exists n, CalcNumberOfFragments L M penalty mn mx = Ok n /\
    1 <= n /\ 1 <= frag_size L n <= M /\ (n - 1) * frag_size L n < L <= n * frag_size L n /\
    (mn = -1 -> n = min_n L M) /\
    (0 < mn -> forall k, min_n L M <= k <= (L + mn - 1) / mn ->
       frag_cost L penalty mn mx n <= frag_cost L penalty mn mx k).
Proof. apply CalcNumberOfFragments_spec. Qed.

Lemma fragments_fit_and_fill_witness :
  exists n, CalcNumberOfFragments 3000 1100 7 500 900 = Ok n /\
    1 <= n /\ 1 <= frag_size 3000 n <= 1100 /\ (n - 1) * frag_size 3000 n < 3000 <= n * frag_size 3000 n /\
    (500 = -1 -> n = min_n 3000 1100) /\
    (0 < 500 -> forall k, min_n 3000 1100 <= k <= (3000 + 500 - 1) / 500 ->
       frag_cost 3000 7 500 900 n <= frag_cost 3000 7 500 900 k).
Proof.
  apply (fragments_fit_and_fill 3000 1100 7 500 900); unfold INT_MAX, sizes_ok; lia.
Defined.
End Vp8Aggregator.
