(* ===== verification/RtpVp8.v ===== *)
(** * The RTP payload format of VP8

    Models src/orbit/webrtc/modules/rtp_rtcp/source/rtp_format_vp8.cc and its
    header.  [RtpPacketizerVp8] cuts a frame into packets, with or without
    regard to its partitions, and writes the payload descriptor before each;
    [Parse] reads the descriptor.  The theorems: the packets cover the frame in
    order, each holds at least a byte and fits; parsing a packet gives back the
    header and the bytes of the frame; parsing never reads outside the payload. *)

From S2P Require Import Prelude Wire VideoHeaders Vp8Aggregator.
Import Wire VideoHeaders Vp8Aggregator.

Module RtpVp8.

(** ** The packetizer *)

Inductive VP8PacketizerMode := kStrict | kAggregate | kEqualSize.
Inductive AggregationMode := kAggrNone | kAggrPartitions | kAggrFragments.

Definition kXBit : Z := 0x80.
Definition kNBit : Z := 0x20.
Definition kSBit : Z := 0x10.
Definition kPartIdField : Z := 0x0F.
Definition kKeyIdxField : Z := 0x1F.
Definition kIBit : Z := 0x80.
Definition kLBit : Z := 0x40.
Definition kTBit : Z := 0x20.
Definition kKBit : Z := 0x10.
Definition kYBit : Z := 0x20.

Definition aggr_modes_ (m : VP8PacketizerMode) : AggregationMode :=
  match m with kStrict => kAggrNone | kAggregate => kAggrPartitions | kEqualSize => kAggrFragments end.
Definition balance_modes_ (m : VP8PacketizerMode) : bool := true.
Definition separate_first_modes_ (m : VP8PacketizerMode) : bool :=
  match m with kStrict => true | _ => false end.

(** [vp8_fixed_payload_descriptor_bytes_] is 1 in both constructors. *)
Definition vp8_fixed_payload_descriptor_bytes_ : Z := 1.

Record InfoStruct := mk_info {
  payload_start_pos : Z;
  size : Z;
  first_fragment : bool;
  first_partition_ix : Z
}.

Record RtpPacketizerVp8 := mk_packetizer {
  payload_data_ : list Z;
  payload_size_ : Z;
  part_info_ : RTPFragmentationHeader;
  aggr_mode_ : AggregationMode;
  balance_ : bool;
  separate_first_ : bool;
  hdr_info_ : RTPVideoHeaderVP8;
  num_partitions : Z;
  max_payload_len_ : Z;
  packets_ : list InfoStruct;
  packets_calculated_ : bool
}.

(** The constructor without a mode uses [kEqualSize]. *)
Definition new_RtpPacketizerVp8 (hdr_info : RTPVideoHeaderVP8) (max_payload_len : Z)
    (mode : VP8PacketizerMode) : RtpPacketizerVp8 :=
  mk_packetizer [] 0 new_RTPFragmentationHeader (aggr_modes_ mode) (balance_modes_ mode)
    (separate_first_modes_ mode) hdr_info 0 max_payload_len [] false.
Definition new_RtpPacketizerVp8_equal (hdr_info : RTPVideoHeaderVP8) (max_payload_len : Z)
    : RtpPacketizerVp8 := new_RtpPacketizerVp8 hdr_info max_payload_len kEqualSize.

Definition SetPayloadData (p : RtpPacketizerVp8) (payload_data : list Z) (payload_size : Z)
    (fragmentation : option RTPFragmentationHeader) : res RtpPacketizerVp8 :=
  let! part_info :=
    match fragmentation with
    | Some f => Ok (CopyFrom (part_info_ p) f)
    | None =>
        let h := VerifyAndAllocateFragmentationHeader (part_info_ p) 1 in
        let! lengths := put (fragmentationLength h) 0 payload_size in
        let! offsets := put (fragmentationOffset h) 0 0 in
        Ok (mk_frag (fragmentationVectorSize h) offsets lengths)
    end in
  Ok (mk_packetizer payload_data payload_size part_info (aggr_mode_ p) (balance_ p)
        (separate_first_ p) (hdr_info_ p) (fragmentationVectorSize part_info) (max_payload_len_ p)
        (packets_ p) (packets_calculated_ p)).

(** *** The fields of the descriptor *)

Section Header.
Variable hdr : RTPVideoHeaderVP8.

Definition TIDFieldPresent : bool := negb (temporalIdx hdr =? kNoTemporalIdx).
Definition KeyIdxFieldPresent : bool := negb (keyIdx hdr =? kNoKeyIdx).
Definition TL0PicIdxFieldPresent : bool := negb (tl0PicIdx hdr =? kNoTl0PicIdx).
Definition PictureIdLength : Z :=
  if pictureId hdr =? kNoPictureId then 0 else if pictureId hdr <=? 0x7F then 1 else 2.
Definition PictureIdPresent : bool := 0 <? PictureIdLength.
Definition XFieldPresent : bool :=
  TIDFieldPresent || TL0PicIdxFieldPresent || PictureIdPresent || KeyIdxFieldPresent.

Definition PayloadDescriptorExtraLength : Z :=
  let length_bytes := PictureIdLength in
  let length_bytes := if TL0PicIdxFieldPresent then length_bytes + 1 else length_bytes in
  let length_bytes :=
    if TIDFieldPresent || KeyIdxFieldPresent then length_bytes + 1 else length_bytes in
  if 0 <? length_bytes then length_bytes + 1 else length_bytes.

(** *** Writing it

    A writer gives the buffer and the number of bytes written or -1; [x_field]
    is the index of the X field in the buffer, [at_] the place in the buffer. *)
Definition set_bit (buffer : list Z) (i bit : Z) : res (list Z) :=
  let! v := byte buffer i in set8 buffer i (Z.lor v bit).

Definition WritePictureID (buffer : list Z) (at_ buffer_length : Z) : res (list Z * Z) :=
  let pic_id := u16 (pictureId hdr) in
  let picture_id_len := PictureIdLength in
  if buffer_length <? picture_id_len then Ok (buffer, -1)
  else
    let! buffer :=
      if picture_id_len =? 2 then
        let! buffer := set8 buffer at_ (Z.lor 0x80 (Z.land (Z.shiftr pic_id 8) 0x7F)) in
        set8 buffer (at_ + 1) (Z.land pic_id 0xFF)
      else if picture_id_len =? 1 then set8 buffer at_ (Z.land pic_id 0x7F)
      else Ok buffer in
    Ok (buffer, picture_id_len).

Definition WritePictureIDFields (x_field : Z) (buffer : list Z) (buffer_length extension_length : Z)
    : res (list Z * Z * Z) :=
  let! buffer := set_bit buffer x_field kIBit in
  let! (buffer, pic_id_length) :=
    WritePictureID buffer (vp8_fixed_payload_descriptor_bytes_ + extension_length)
      (u64 (buffer_length - vp8_fixed_payload_descriptor_bytes_ - extension_length)) in
  if pic_id_length <? 0 then Ok (buffer, -1, extension_length)
  else Ok (buffer, 0, extension_length + pic_id_length).

Definition WriteTl0PicIdxFields (x_field : Z) (buffer : list Z) (buffer_length extension_length : Z)
    : res (list Z * Z * Z) :=
  if buffer_length <? vp8_fixed_payload_descriptor_bytes_ + extension_length + 1
  then Ok (buffer, -1, extension_length)
  else
    let! buffer := set_bit buffer x_field kLBit in
    let! buffer := set8 buffer (vp8_fixed_payload_descriptor_bytes_ + extension_length) (tl0PicIdx hdr) in
    Ok (buffer, 0, extension_length + 1).

Definition WriteTIDAndKeyIdxFields (x_field : Z) (buffer : list Z) (buffer_length extension_length : Z)
    : res (list Z * Z * Z) :=
  if buffer_length <? vp8_fixed_payload_descriptor_bytes_ + extension_length + 1
  then Ok (buffer, -1, extension_length)
  else
    let data_field := vp8_fixed_payload_descriptor_bytes_ + extension_length in
    let! buffer := set8 buffer data_field 0 in
    let! buffer :=
      if TIDFieldPresent then
        let! buffer := set_bit buffer x_field kTBit in
        let! buffer := set_bit buffer data_field (Z.shiftl (temporalIdx hdr) 6) in
        set_bit buffer data_field (if layerSync hdr then kYBit else 0)
      else Ok buffer in
    let! buffer :=
      if KeyIdxFieldPresent then
        let! buffer := set_bit buffer x_field kKBit in
        set_bit buffer data_field (Z.land (keyIdx hdr) kKeyIdxField)
      else Ok buffer in
    Ok (buffer, 0, extension_length + 1).

(** A step of [WriteExtensionFields]: the field where it is present, unless an
    earlier one failed. *)
Definition write_field (present : bool) (write : list Z -> Z -> res (list Z * Z * Z))
    (s : res (list Z * Z * Z)) : res (list Z * Z * Z) :=
  let! (buffer, ret, extension_length) := s in
  if (ret <? 0) || negb present then Ok (buffer, ret, extension_length)
  else write buffer extension_length.

Definition WriteExtensionFields (buffer : list Z) (buffer_length : Z) : res (list Z * Z) :=
  if XFieldPresent then
    let x_field := vp8_fixed_payload_descriptor_bytes_ in
    let! buffer := set8 buffer x_field 0 in
    let! (buffer, ret, extension_length) :=
      write_field (TIDFieldPresent || KeyIdxFieldPresent)
        (fun b => WriteTIDAndKeyIdxFields x_field b buffer_length)
        (write_field TL0PicIdxFieldPresent (fun b => WriteTl0PicIdxFields x_field b buffer_length)
           (write_field PictureIdPresent (fun b => WritePictureIDFields x_field b buffer_length)
              (Ok (buffer, 0, 1)))) in
    if ret <? 0 then Ok (buffer, -1) else Ok (buffer, extension_length)
  else Ok (buffer, 0).
End Header.

Definition WriteHeaderAndPayload (p : RtpPacketizerVp8) (packet_info : InfoStruct) (buffer : list Z)
    (buffer_length : Z) : res (list Z * Z) :=
  let hdr := hdr_info_ p in
  let! buffer := set8 buffer 0 0 in
  let! buffer := if XFieldPresent hdr then set_bit buffer 0 kXBit else Ok buffer in
  let! buffer := if nonReference hdr then set_bit buffer 0 kNBit else Ok buffer in
  let! buffer := if first_fragment packet_info then set_bit buffer 0 kSBit else Ok buffer in
  let! buffer := set_bit buffer 0 (Z.land (first_partition_ix packet_info) kPartIdField) in
  let! (buffer, extension_length) := WriteExtensionFields hdr buffer buffer_length in
  if extension_length <? 0 then Ok (buffer, -1)
  else
    let! buffer :=
      memcpy buffer (vp8_fixed_payload_descriptor_bytes_ + extension_length)
        (payload_data_ p) (payload_start_pos packet_info) (size packet_info) in
    Ok (buffer, size packet_info + vp8_fixed_payload_descriptor_bytes_ + extension_length).

(** *** Sizes *)

(** The quotient of [double]s plus one half, rounded down: with [n] the number of
    fragments it is (2r + n) / 2n, exactly as long as [r] is below 2^50, for the
    rounding of the quotient then stays on its side of the half. *)
Definition CalcNextSize (balance : bool) (max_payload_len remaining_bytes : Z) (split_payload : bool) : Z :=
  if (max_payload_len =? 0) || (remaining_bytes =? 0) then 0
  else if negb split_payload then
    if remaining_bytes <=? max_payload_len then remaining_bytes else 0
  else if balance then
    let num_frags := remaining_bytes / max_payload_len + 1 in
    (2 * remaining_bytes + num_frags) / (2 * num_frags)
  else if remaining_bytes <=? max_payload_len then remaining_bytes else max_payload_len.

(** The variables of the inner loop. *)
Record Filling := mk_filling {
  packet_bytes : Z;
  rem_payload_len : Z;
  remaining_in_partition : Z;
  part_ix : Z;
  split_payload : bool
}.

Definition aggregates (p : RtpPacketizerVp8) (start_on_new_fragment : bool) : bool :=
  match aggr_mode_ p with
  | kAggrFragments => true
  | kAggrPartitions => start_on_new_fragment
  | kAggrNone => false
  end.

(** [while (size_t next_size = CalcNextSize(...))]: a round takes a byte of the
    room at least. *)
Fixpoint fill_packet (fuel : nat) (p : RtpPacketizerVp8) (beginning start_on_new_fragment : bool)
    (f : Filling) : res Filling :=
  let next_size :=
    CalcNextSize (balance_ p) (rem_payload_len f) (remaining_in_partition f) (split_payload f) in
  if next_size =? 0 then Ok f
  else
    match fuel with
    | O => NoFuel
    | S fuel =>
        let packet_bytes := packet_bytes f + next_size in
        let rem_payload_len := u64 (rem_payload_len f - next_size) in
        let remaining := u64 (remaining_in_partition f - next_size) in
        if (remaining =? 0) && negb (beginning && separate_first_ p) then
          if (part_ix f + 1 <? num_partitions p) && aggregates p start_on_new_fragment then
            let! length := get (fragmentationLength (part_info_ p)) (part_ix f + 1) in
            fill_packet fuel p beginning start_on_new_fragment
              (mk_filling packet_bytes rem_payload_len length (part_ix f + 1)
                 match aggr_mode_ p with kAggrFragments => true | _ => false end)
          else
            fill_packet fuel p beginning start_on_new_fragment
              (mk_filling packet_bytes rem_payload_len remaining (part_ix f) (split_payload f))
        else if balance_ p && (0 <? remaining) then
          Ok (mk_filling packet_bytes rem_payload_len remaining (part_ix f) (split_payload f))
        else
          fill_packet fuel p beginning start_on_new_fragment
            (mk_filling packet_bytes rem_payload_len remaining (part_ix f) (split_payload f))
    end.

Definition overhead (p : RtpPacketizerVp8) : Z :=
  vp8_fixed_payload_descriptor_bytes_ + PayloadDescriptorExtraLength (hdr_info_ p).

(** [while (total_bytes_processed < payload_size_)]: a round takes a byte of the
    payload or leaves a partition behind. *)
Fixpoint generate_loop (fuel : nat) (p : RtpPacketizerVp8) (total part : Z)
    (start_on_new_fragment beginning : bool) (packets : list InfoStruct) : res (list InfoStruct) :=
  if total <? payload_size_ p then
    match fuel with
    | O => NoFuel
    | S fuel =>
        let! offset := get (fragmentationOffset (part_info_ p)) part in
        let! length := get (fragmentationLength (part_info_ p)) part in
        let room := u64 (max_payload_len_ p - overhead p) in
        let! f :=
          fill_packet (Z.to_nat room) p beginning start_on_new_fragment
            (mk_filling 0 room (u64 (offset - total + length)) part true) in
        let next := if remaining_in_partition f =? 0 then part_ix f + 1 else part_ix f in
        generate_loop fuel p (total + packet_bytes f) next (remaining_in_partition f =? 0) false
          (packets ++ [mk_info total (packet_bytes f) start_on_new_fragment part])
    end
  else Ok packets.

Definition set_packets (p : RtpPacketizerVp8) (packets : list InfoStruct) (calculated : bool)
    : RtpPacketizerVp8 :=
  mk_packetizer (payload_data_ p) (payload_size_ p) (part_info_ p) (aggr_mode_ p) (balance_ p)
    (separate_first_ p) (hdr_info_ p) (num_partitions p) (max_payload_len_ p) packets calculated.

(** The packetizer and 0, or -1. *)
Definition GeneratePackets (p : RtpPacketizerVp8) : res (RtpPacketizerVp8 * Z) :=
  if max_payload_len_ p <? overhead p + 1 then Ok (p, -1)
  else
    let! packets :=
      generate_loop (Z.to_nat (payload_size_ p + num_partitions p)) p 0 0 true true (packets_ p) in
    Ok (set_packets p packets true, 0).

(** *** Whole partitions *)

(** The last of the partitions from [last_in_set] on that are small. *)
Fixpoint last_small (fuel : nat) (p : RtpPacketizerVp8) (max_payload_len last_in_set : Z) : res Z :=
  if last_in_set + 1 <? num_partitions p then
    let! length := get (fragmentationLength (part_info_ p)) (last_in_set + 1) in
    if length <? max_payload_len then
      match fuel with
      | O => NoFuel
      | S fuel => last_small fuel p max_payload_len (last_in_set + 1)
      end
    else Ok last_in_set
  else Ok last_in_set.

(** [for (i = first_in_set, j = 0; i <= last_in_set; ++i, ++j)]. *)
Fixpoint transfer (config : list Z) (partition_vec : list Z) (i base : Z) : res (list Z) :=
  match config with
  | [] => Ok partition_vec
  | c :: config =>
      let! partition_vec := put partition_vec i (base + c) in
      transfer config partition_vec (i + 1) base
  end.

(** [while (first_in_set < num_partitions_)]. *)
Fixpoint aggregate_loop (fuel : nat) (p : RtpPacketizerVp8) (max_payload_len first_in_set : Z)
    (num_aggregate_packets min_size max_size : Z) (partition_vec : list Z) : res (list Z * Z * Z) :=
  if first_in_set <? num_partitions p then
    match fuel with
    | O => NoFuel
    | S fuel =>
        let! length := get (fragmentationLength (part_info_ p)) first_in_set in
        if length <? max_payload_len then
          let! last_in_set :=
            last_small (Z.to_nat (num_partitions p)) p max_payload_len first_in_set in
          let! aggregator := new_Vp8PartitionAggregator (part_info_ p) first_in_set last_in_set in
          let aggregator := with_prior aggregator min_size max_size in
          let! config := FindOptimalConfiguration aggregator max_payload_len (overhead p) in
          let! (min_size, max_size) := CalcMinMax aggregator config min_size max_size in
          let! partition_vec :=
            transfer (firstn (Z.to_nat (last_in_set - first_in_set + 1)) config) partition_vec
              first_in_set num_aggregate_packets in
          aggregate_loop fuel p max_payload_len (last_in_set + 1)
            (num_aggregate_packets + last config 0 + 1) min_size max_size partition_vec
        else
          aggregate_loop fuel p max_payload_len (first_in_set + 1) num_aggregate_packets min_size
            max_size partition_vec
    end
  else Ok (partition_vec, min_size, max_size).

(** The decision for each partition, the smallest and the largest packet. *)
Definition AggregateSmallPartitions (p : RtpPacketizerVp8) : res (list Z * Z * Z) :=
  aggregate_loop (Z.to_nat (num_partitions p)) p (max_payload_len_ p - overhead p) 0 0 (-1) (-1)
    (repeat (-1) (Z.to_nat (num_partitions p))).

(** [for (n = 0; n < num_fragments; ++n)]: the packets, the bytes that remain,
    the position, and the sizes. *)
Fixpoint split_partition (n : nat) (packet_bytes remaining total part : Z) (first : bool)
    (min_size max_size : Z) (packets : list InfoStruct) : list InfoStruct * Z * Z * Z :=
  match n with
  | O => (packets, total, min_size, max_size)
  | S n =>
      let this_packet_bytes := if packet_bytes <? remaining then packet_bytes else remaining in
      split_partition n packet_bytes (remaining - this_packet_bytes) (total + this_packet_bytes) part false
        (if s32 this_packet_bytes <? min_size then s32 this_packet_bytes else min_size)
        (if max_size <? s32 this_packet_bytes then s32 this_packet_bytes else max_size)
        (packets ++ [mk_info total this_packet_bytes first part])
  end.

(** The partitions with the same decision: their bytes and the first after them. *)
Fixpoint collect (fuel : nat) (p : RtpPacketizerVp8) (decision : list Z) (index part bytes : Z)
    : res (Z * Z) :=
  if part <? zlen decision then
    let! d := get decision part in
    if d =? index then
      match fuel with
      | O => NoFuel
      | S fuel =>
          let! length := get (fragmentationLength (part_info_ p)) part in
          collect fuel p decision index (part + 1) (bytes + length)
      end
    else Ok (bytes, part)
  else Ok (bytes, part).

(** [while (part_ix < num_partitions_)]: a round leaves a partition behind. *)
Fixpoint balanced_loop (fuel : nat) (p : RtpPacketizerVp8) (decision : list Z) (max_payload_len : Z)
    (part total min_size max_size : Z) (packets : list InfoStruct) : res (list InfoStruct) :=
  if part <? num_partitions p then
    match fuel with
    | O => NoFuel
    | S fuel =>
        let! d := get decision part in
        if d =? -1 then
          let! remaining_partition := get (fragmentationLength (part_info_ p)) part in
          let! num_fragments :=
            CalcNumberOfFragments remaining_partition max_payload_len (overhead p) min_size max_size in
          if num_fragments =? 0 then Oob
          else
            let packet_bytes := (remaining_partition + num_fragments - 1) / num_fragments in
            let '(packets, total, min_size, max_size) :=
              split_partition (Z.to_nat num_fragments) packet_bytes remaining_partition total part true
                min_size max_size packets in
            balanced_loop fuel p decision max_payload_len (part + 1) total min_size max_size packets
        else
          let! (this_packet_bytes, next) :=
            collect (length decision) p decision d part 0 in
          balanced_loop fuel p decision max_payload_len next (total + this_packet_bytes) min_size
            max_size (packets ++ [mk_info total this_packet_bytes true part])
    end
  else Ok packets.

Definition GeneratePacketsBalancedAggregates (p : RtpPacketizerVp8) : res (RtpPacketizerVp8 * Z) :=
  if max_payload_len_ p <? overhead p + 1 then Ok (p, -1)
  else
    let max_payload_len := max_payload_len_ p - overhead p in
    let! (partition_decision, min_size, max_size) := AggregateSmallPartitions p in
    let! packets :=
      balanced_loop (Z.to_nat (num_partitions p)) p partition_decision max_payload_len 0 0 min_size
        max_size (packets_ p) in
    Ok (set_packets p packets true, 0).

(** *** The next packet

    The packetizer, the buffer, and [None] for false or the bytes to send and
    whether the packet is the last. *)
Definition NextPacket (p : RtpPacketizerVp8) (buffer : list Z)
    : res (RtpPacketizerVp8 * list Z * option (Z * bool)) :=
  let! (p, ret) :=
    if packets_calculated_ p then Ok (p, 0)
    else
      match aggr_mode_ p with
      | kAggrPartitions => if balance_ p then GeneratePacketsBalancedAggregates p else GeneratePackets p
      | _ => GeneratePackets p
      end in
  if ret <? 0 then Ok (p, buffer, None)
  else
    match packets_ p with
    | [] => Ok (p, buffer, None)
    | packet_info :: rest =>
        let p := set_packets p rest (packets_calculated_ p) in
        let! (buffer, bytes) := WriteHeaderAndPayload p packet_info buffer (max_payload_len_ p) in
        if bytes <? 0 then Ok (p, buffer, None)
        else Ok (p, buffer, Some (bytes, match rest with [] => true | _ => false end))
    end.

Definition GetProtectionType (p : RtpPacketizerVp8) : ProtectionType :=
  if (temporalIdx (hdr_info_ p) =? 0) || (temporalIdx (hdr_info_ p) =? kNoTemporalIdx)
  then kProtectedPacket else kUnprotectedPacket.

Definition GetStorageType (p : RtpPacketizerVp8) (retransmission_settings : Z) : StorageType :=
  let t := temporalIdx (hdr_info_ p) in
  if (t =? 0) && (Z.land retransmission_settings kRetransmitBaseLayer =? 0) then kDontRetransmit
  else if negb (t =? kNoTemporalIdx) && (0 <? t) &&
          (Z.land retransmission_settings kRetransmitHigherLayers =? 0) then kDontRetransmit
  else kAllowRetransmission.

(** ** The depacketizer

    The readers take the header and the position: the index of the next byte,
    the bytes that remain and the bytes parsed; [None] is their -1. *)
Definition Cursor : Type := Z * Z * Z.

Definition ParseVP8PictureID (vp8 : RTPVideoHeaderVP8) (mem : list Z) (c : Cursor)
    : res (option (RTPVideoHeaderVP8 * Cursor)) :=
  let '(data, data_length, parsed_bytes) := c in
  let with_id := fun id =>
    mk_vp8 (nonReference vp8) id (tl0PicIdx vp8) (temporalIdx vp8) (layerSync vp8) (keyIdx vp8)
      (partitionId vp8) (beginningOfPartition vp8) in
  if data_length =? 0 then Ok None
  else
    let! b := byte mem data in
    let id := Z.land b 0x7F in
    if negb (Z.land b 0x80 =? 0) then
      if data_length - 1 =? 0 then Ok None
      else
        let! b2 := byte mem (data + 1) in
        Ok (Some (with_id (s16 (Z.shiftl id 8 + b2)), (data + 2, data_length - 2, parsed_bytes + 2)))
    else Ok (Some (with_id id, (data + 1, data_length - 1, parsed_bytes + 1))).

Definition ParseVP8Tl0PicIdx (vp8 : RTPVideoHeaderVP8) (mem : list Z) (c : Cursor)
    : res (option (RTPVideoHeaderVP8 * Cursor)) :=
  let '(data, data_length, parsed_bytes) := c in
  if data_length =? 0 then Ok None
  else
    let! b := byte mem data in
    Ok (Some (mk_vp8 (nonReference vp8) (pictureId vp8) b (temporalIdx vp8) (layerSync vp8)
                (keyIdx vp8) (partitionId vp8) (beginningOfPartition vp8),
              (data + 1, data_length - 1, parsed_bytes + 1))).

Definition ParseVP8TIDAndKeyIdx (vp8 : RTPVideoHeaderVP8) (mem : list Z) (has_tid has_key_idx : bool)
    (c : Cursor) : res (option (RTPVideoHeaderVP8 * Cursor)) :=
  let '(data, data_length, parsed_bytes) := c in
  if data_length =? 0 then Ok None
  else
    let! b := byte mem data in
    Ok (Some (mk_vp8 (nonReference vp8) (pictureId vp8) (tl0PicIdx vp8)
                (if has_tid then Z.land (Z.shiftr b 6) 0x03 else temporalIdx vp8)
                (if has_tid then negb (Z.land b 0x20 =? 0) else layerSync vp8)
                (if has_key_idx then Z.land b 0x1F else keyIdx vp8)
                (partitionId vp8) (beginningOfPartition vp8),
              (data + 1, data_length - 1, parsed_bytes + 1))).

(** A step of [ParseVP8Extension]: the field where it is present. *)
Definition parse_field (present : bool)
    (parse : RTPVideoHeaderVP8 -> Cursor -> res (option (RTPVideoHeaderVP8 * Cursor)))
    (s : res (option (RTPVideoHeaderVP8 * Cursor))) : res (option (RTPVideoHeaderVP8 * Cursor)) :=
  let! r := s in
  match r with
  | Some (vp8, c) => if present then parse vp8 c else Ok (Some (vp8, c))
  | None => Ok None
  end.

(** The header and the bytes parsed. *)
Definition ParseVP8Extension (vp8 : RTPVideoHeaderVP8) (mem : list Z) (data data_length : Z)
    : res (option (RTPVideoHeaderVP8 * Z)) :=
  let! b := byte mem data in
  let has_picture_id := negb (Z.land b 0x80 =? 0) in
  let has_tl0_pic_idx := negb (Z.land b 0x40 =? 0) in
  let has_tid := negb (Z.land b 0x20 =? 0) in
  let has_key_idx := negb (Z.land b 0x10 =? 0) in
  let! r :=
    parse_field (has_tid || has_key_idx)
      (fun vp8 => ParseVP8TIDAndKeyIdx vp8 mem has_tid has_key_idx)
      (parse_field has_tl0_pic_idx (fun vp8 => ParseVP8Tl0PicIdx vp8 mem)
         (parse_field has_picture_id (fun vp8 => ParseVP8PictureID vp8 mem)
            (Ok (Some (vp8, (data + 1, data_length - 1, 1)))))) in
  match r with
  | Some (vp8, (_, _, parsed_bytes)) => Ok (Some (vp8, parsed_bytes))
  | None => Ok None
  end.

Definition ParseVP8FrameSize (parsed_payload : ParsedPayload) (mem : list Z) (data data_length : Z)
    : res (option ParsedPayload) :=
  match frame_type parsed_payload with
  | kVideoFrameKey =>
      if data_length <? 10 then Ok None
      else
        let! d6 := byte mem (data + 6) in
        let! d7 := byte mem (data + 7) in
        let! d8 := byte mem (data + 8) in
        let! d9 := byte mem (data + 9) in
        Ok (Some (set_size parsed_payload (Z.land (Z.shiftl d7 8 + d6) 0x3FFF)
                    (Z.land (Z.shiftl d9 8 + d8) 0x3FFF)))
  | _ => Ok (Some parsed_payload)
  end.

(** [None] is false; what was assigned before a failure is not kept, for no
    caller looks at it. *)
Definition Parse (parsed_payload : ParsedPayload) (mem : list Z) (payload_data_length : Z)
    : res (option ParsedPayload) :=
  if payload_data_length =? 0 then Ok None
  else
    let! b := byte mem 0 in
    let extension := negb (Z.land b 0x80 =? 0) in
    let beginning_of_partition := negb (Z.land b 0x10 =? 0) in
    let partition_id := Z.land b 0x0F in
    let p := set_size parsed_payload 0 0 in
    let p := set_first p (beginning_of_partition && (partition_id =? 0)) in
    let p := set_codec (set_simulcast p 0) kRtpVideoVp8 in
    let vp8 :=
      mk_vp8 (negb (Z.land b 0x20 =? 0)) kNoPictureId kNoTl0PicIdx kNoTemporalIdx false kNoKeyIdx
        partition_id beginning_of_partition in
    if 8 <? partition_id then Ok None
    else if payload_data_length <=? 1 then Ok None
    else
      let payload_data_length := payload_data_length - 1 in
      let! ext :=
        if extension then ParseVP8Extension vp8 mem 1 payload_data_length
        else Ok (Some (vp8, 0)) in
      match ext with
      | None => Ok None
      | Some (vp8, parsed_bytes) =>
          let payload_data := 1 + parsed_bytes in
          let payload_data_length := u64 (payload_data_length - parsed_bytes) in
          if extension && (payload_data_length =? 0) then Ok None
          else
            let! type_ :=
              if beginning_of_partition && (partition_id =? 0) then
                let! b := byte mem payload_data in
                Ok (if negb (Z.land b 0x01 =? 0) then kVideoFrameDelta else kVideoFrameKey)
              else Ok kVideoFrameDelta in
            let p := set_frame_type (set_VP8 p vp8) type_ in
            let! r := ParseVP8FrameSize p mem payload_data payload_data_length in
            match r with
            | None => Ok None
            | Some p => Ok (Some (set_payload p payload_data payload_data_length))
            end
      end.

(** ** Parsing stays inside the payload *)

(** The readers keep to [len] bytes of [mem]: the position is inside, and moves on. *)
Definition cursor_ok (len : Z) (c : Cursor) : Prop :=
  let '(data, data_length, parsed_bytes) := c in
  2 <= data /\ 0 <= data_length /\ data + data_length = len /\ data = 1 + parsed_bytes.

#[local] Ltac cursor_lia := cbv beta iota delta [cursor_ok]; lia.

Definition field_safe (len : Z) (parse : RTPVideoHeaderVP8 -> Cursor -> res (option (RTPVideoHeaderVP8 * Cursor))) :=
  forall vp8 c, cursor_ok len c ->
    exists r, parse vp8 c = Ok r /\ match r with Some (_, c') => cursor_ok len c' | None => True end.

Lemma ParseVP8PictureID_safe mem len :
  len <= zlen mem -> field_safe len (fun vp8 => ParseVP8PictureID vp8 mem).
Proof.
  intros Hm vp8 [[d l] n] (H1 & H2 & H3 & H4). unfold ParseVP8PictureID.
  destruct (Z.eqb_spec l 0); [now eexists|]. rewrite byte_ok by lia. cbn [bind].
  destruct (negb _); [|eexists; split; [reflexivity|]; cursor_lia].
  destruct (Z.eqb_spec (l - 1) 0); [now eexists|]. rewrite byte_ok by lia. cbn [bind].
  eexists. split; [reflexivity|]. cursor_lia.
Qed.

Lemma ParseVP8Tl0PicIdx_safe mem len :
  len <= zlen mem -> field_safe len (fun vp8 => ParseVP8Tl0PicIdx vp8 mem).
Proof.
  intros Hm vp8 [[d l] n] (H1 & H2 & H3 & H4). unfold ParseVP8Tl0PicIdx.
  destruct (Z.eqb_spec l 0); [now eexists|]. rewrite byte_ok by lia. cbn [bind].
  eexists. split; [reflexivity|]. cursor_lia.
Qed.

Lemma ParseVP8TIDAndKeyIdx_safe mem len t k :
  len <= zlen mem -> field_safe len (fun vp8 => ParseVP8TIDAndKeyIdx vp8 mem t k).
Proof.
  intros Hm vp8 [[d l] n] (H1 & H2 & H3 & H4). unfold ParseVP8TIDAndKeyIdx.
  destruct (Z.eqb_spec l 0); [now eexists|]. rewrite byte_ok by lia. cbn [bind].
  eexists. split; [reflexivity|]. cursor_lia.
Qed.

Lemma parse_field_safe len present parse s :
  field_safe len parse ->
  (exists r, s = Ok r /\ match r with Some (_, c) => cursor_ok len c | None => True end) ->
  exists r, parse_field present parse s = Ok r /\
    match r with Some (_, c) => cursor_ok len c | None => True end.
Proof.
  intros H ([[vp8 c]|] & -> & Hc); cbn [parse_field bind]; [|now eexists].
  destruct present; [now apply H|]. now eexists.
Qed.

Lemma ParseVP8Extension_safe vp8 mem len :
  len <= zlen mem -> 2 <= len ->
  exists r, ParseVP8Extension vp8 mem 1 (len - 1) = Ok r /\
    match r with Some (_, n) => 1 <= n <= len - 1 | None => True end.
Proof.
  intros Hm Hl. unfold ParseVP8Extension. rewrite byte_ok by lia. cbn [bind].
  match goal with |- context [bind ?m _] => assert (S : exists r, m = Ok r /\
      match r with Some (_, c) => cursor_ok len c | None => True end) end.
  { repeat (apply parse_field_safe; [auto using ParseVP8TIDAndKeyIdx_safe, ParseVP8Tl0PicIdx_safe,
      ParseVP8PictureID_safe|]). eexists. split; [reflexivity|]. cursor_lia. }
  destruct S as ([[v [[d l] n]]|] & -> & H); cbn [bind]; eexists; (split; [reflexivity|]); [|exact I].
  cbv beta iota delta [cursor_ok] in H |- *. lia.
Qed.

Lemma ParseVP8FrameSize_safe p mem d l :
  0 <= d -> d + l <= zlen mem ->
  exists r, ParseVP8FrameSize p mem d l = Ok r.
Proof.
  intros Hd Hl. unfold ParseVP8FrameSize. destruct (frame_type p); try (now eexists).
  destruct (Z.ltb_spec l 10); [now eexists|]. rewrite !byte_ok by lia. cbn [bind]. now eexists.
Qed.

Lemma Vp8_Parse_total parsed_payload mem len :
  0 <= len <= zlen mem -> len < 2 ^ 31 ->
  exists r, Parse parsed_payload mem len = Ok r /\
    match r with
    | Some q => 1 <= payload q /\ 1 <= payload_length q /\ payload q + payload_length q = len
    | None => True
    end.
Proof.
  intros Hl Hb. unfold Parse. destruct (Z.eqb_spec len 0); [now eexists|]. rewrite byte_ok by lia. cbn [bind].
  destruct (8 <? _); [now eexists|]. destruct (Z.leb_spec len 1); [now eexists|].
  set (b := rd mem 0). set (vp8 := mk_vp8 _ _ _ _ _ _ _ _).
  assert (E : exists r, (if negb (Z.land b 0x80 =? 0) then ParseVP8Extension vp8 mem 1 (len - 1)
                         else Ok (Some (vp8, 0))) = Ok r /\
    match r with Some (_, n) => 0 <= n <= len - 1 /\ (negb (Z.land b 0x80 =? 0) = false -> n = 0) | None => True end).
  { destruct (negb (Z.land b 0x80 =? 0)); [|eexists; split; [reflexivity|]; cbn; lia].
    destruct (ParseVP8Extension_safe vp8 mem len ltac:(lia) ltac:(lia)) as (r & E & Hr). exists r. split; [exact E|].
    destruct r as [[v n']|]; [|exact I]. split; [lia|discriminate]. }
  destruct E as (r & -> & Hr). cbn [bind]. destruct r as [[v k]|]; [|now eexists].
  rewrite u64_id by (unfold in_u64; lia).
  destruct (negb (Z.land b 128 =? 0)) eqn:X; cbn [andb];
    [destruct (Z.eqb_spec (len - 1 - k) 0); [now eexists|]|]; (destruct Hr as [Hr1 Hr2]);
    try specialize (Hr2 eq_refl);
    (assert (T : exists ty, (if negb (Z.land b 16 =? 0) && (Z.land b 15 =? 0)
       then let! b0 := byte mem (1 + k) in
            Ok (if negb (Z.land b0 1 =? 0) then kVideoFrameDelta else kVideoFrameKey)
       else Ok kVideoFrameDelta) = Ok ty)
      by (destruct (andb _ _); [rewrite byte_ok by lia; cbn [bind]|]; now eexists));
    destruct T as [ty ->]; cbn [bind];
    match goal with |- context [ParseVP8FrameSize ?p mem _ _] =>
      destruct (ParseVP8FrameSize_safe p mem (1 + k) (len - 1 - k) ltac:(lia) ltac:(lia)) as [r ->] end;
    cbn [bind]; destruct r; eexists; (split; [reflexivity|]); cbn [payload payload_length set_payload]; try exact I; lia.
Qed.

(** The VP8 depacketizer reads only the payload it is given: for any bytes
    and any length within them, and whatever the parsed payload held, it ends
    without an access outside, and where it succeeds the media payload is a
    non-empty suffix of the payload after at least the descriptor's first byte. *)
Theorem Vp8_Parse_safe parsed_payload mem len :
  0 <= len <= zlen mem -> len < 2 ^ 31 ->
  exists r, Parse parsed_payload mem len = Ok r /\
    match r with
    | Some q => 1 <= payload q /\ 1 <= payload_length q /\ payload q + payload_length q = len
    | None => True
    end.
Proof. exact (Vp8_Parse_total parsed_payload mem len). Qed.

(** ** Writing and reading the descriptor *)

(** The bytes of each optional field and its bits of the X field. *)
Definition pic_bytes (h : RTPVideoHeaderVP8) : list Z :=
  if PictureIdLength h =? 0 then []
  else if PictureIdLength h =? 1 then [pictureId h]
  else [128 + pictureId h / 256; pictureId h mod 256].
Definition tl0_bytes (h : RTPVideoHeaderVP8) : list Z :=
  if TL0PicIdxFieldPresent h then [tl0PicIdx h] else [].
Definition tid_part (h : RTPVideoHeaderVP8) : Z :=
  if TIDFieldPresent h then temporalIdx h * 64 + (if layerSync h then 32 else 0) else 0.
Definition key_part (h : RTPVideoHeaderVP8) : Z := if KeyIdxFieldPresent h then keyIdx h else 0.
Definition tk_bytes (h : RTPVideoHeaderVP8) : list Z :=
  if TIDFieldPresent h || KeyIdxFieldPresent h then [tid_part h + key_part h] else [].
Definition x_byte (h : RTPVideoHeaderVP8) : Z :=
  (if PictureIdPresent h then 128 else 0) + (if TL0PicIdxFieldPresent h then 64 else 0) +
  (if TIDFieldPresent h then 32 else 0) + (if KeyIdxFieldPresent h then 16 else 0).
Definition extension (h : RTPVideoHeaderVP8) : list Z :=
  if XFieldPresent h then x_byte h :: pic_bytes h ++ tl0_bytes h ++ tk_bytes h else [].
Definition first_byte (h : RTPVideoHeaderVP8) (i : InfoStruct) : Z :=
  (if XFieldPresent h then 128 else 0) + (if nonReference h then 32 else 0) +
  (if first_fragment i then 16 else 0) + first_partition_ix i mod 16.
Definition descriptor (h : RTPVideoHeaderVP8) (i : InfoStruct) : list Z := first_byte h i :: extension h.

(** The ranges of the header's members. *)
Record vp8_ok (h : RTPVideoHeaderVP8) : Prop := {
  vo_pic : pictureId h = kNoPictureId \/ 0 <= pictureId h <= kMaxTwoBytePictureId;
  vo_tl0 : tl0PicIdx h = kNoTl0PicIdx \/ 0 <= tl0PicIdx h <= 255;
  vo_tid : temporalIdx h = kNoTemporalIdx \/ 0 <= temporalIdx h <= 3;
  vo_sync : temporalIdx h = kNoTemporalIdx -> layerSync h = false;
  vo_key : keyIdx h = kNoKeyIdx \/ 0 <= keyIdx h <= 31
}.

Lemma zlen_tk h : zlen (tk_bytes h) = b2z (TIDFieldPresent h || KeyIdxFieldPresent h).
Proof. unfold tk_bytes. now destruct (_ || _). Qed.
Lemma zlen_tl0 h : zlen (tl0_bytes h) = b2z (TL0PicIdxFieldPresent h).
Proof. unfold tl0_bytes. now destruct (TL0PicIdxFieldPresent h). Qed.
Lemma zlen_pic h : zlen (pic_bytes h) = PictureIdLength h.
Proof.
  unfold pic_bytes, PictureIdLength.
  destruct (pictureId h =? kNoPictureId); [reflexivity|]. now destruct (pictureId h <=? 127).
Qed.
#[local] Hint Rewrite zlen_tk zlen_tl0 zlen_pic : zlen.

Lemma PictureIdLength_range h : 0 <= PictureIdLength h <= 2.
Proof. unfold PictureIdLength. repeat case_if; lia. Qed.

Lemma zlen_extension h : zlen (extension h) = PayloadDescriptorExtraLength h.
Proof.
  unfold extension, XFieldPresent, PayloadDescriptorExtraLength, PictureIdPresent.
  pose proof (PictureIdLength_range h).
  destruct (TIDFieldPresent h) eqn:T, (TL0PicIdxFieldPresent h) eqn:L, (KeyIdxFieldPresent h) eqn:K;
    cbn [orb]; try destruct (Z.ltb_spec 0 (PictureIdLength h)); cbn [orb];
    autorewrite with zlen; rewrite ?T, ?L, ?K; cbn [b2z orb]; repeat case_if; lia.
Qed.

Lemma zlen_descriptor h i : zlen (descriptor h i) = 1 + PayloadDescriptorExtraLength h.
Proof. unfold descriptor. now rewrite zlen_cons, zlen_extension. Qed.

(** Stores at a known place of a buffer in pieces. *)
Lemma set_bit_at a x b v : set_bit (a ++ x :: b) (zlen a) v = Ok (a ++ u8 (Z.lor x v) :: b).
Proof.
  unfold set_bit. rewrite byte_ok by (autorewrite with zlen; pose proof (zlen_nonneg a); pose proof (zlen_nonneg b); lia).
  cbn [bind]. rewrite rd_app_r, Z.sub_diag, rd_0 by lia. apply set8_at.
Qed.

(** The low bits of [x] are free: the next field goes there. *)
Lemma or_bits x y k : 0 <= k <= 8 -> 0 <= y < 2 ^ k -> x mod 2 ^ k = 0 -> 0 <= x < 256 ->
  u8 (Z.lor x y) = x + y.
Proof.
  intros Hk Hy Hx Hb. assert (E : x = x / 2 ^ k * 2 ^ k) by (pose proof (Z.div_mod x (2 ^ k) ltac:(lia)); lia).
  assert (L : Z.lor x y = x + y) by (rewrite E at 1; rewrite Z.lor_comm, lor_add by lia; lia).
  rewrite L. apply u8_id. unfold in_u8. split; [lia|].
  assert (Q : Z.lor x y < 2 ^ 8).
  { apply lor_lt_pow2; [lia|exact Hb|]. assert (2 ^ k <= 2 ^ 8) by (apply Z.pow_le_mono_r; lia). lia. }
  rewrite L in Q. exact Q.
Qed.

(** A step of the writer: the field's bits join the X field and its bytes go
    after those of the fields before. *)
Definition field_writes (present : bool) (write : list Z -> Z -> res (list Z * Z * Z)) (k bits : Z)
    (out : list Z) (n : Z) : Prop :=
  forall b0 x pre room,
    0 <= x < 256 -> x mod 2 ^ k = 0 -> zlen out <= zlen room -> 2 + zlen pre + zlen out <= n ->
    write_field present write (Ok (b0 :: x :: pre ++ room, 0, 1 + zlen pre)) =
      Ok (b0 :: x + bits :: pre ++ out ++ skipn (length out) room, 0, 1 + zlen pre + zlen out).

Lemma split_room {A} n (room : list A) :
  Z.of_nat n <= zlen room -> exists a, length a = n /\ room = a ++ skipn n room.
Proof.
  intros H. exists (firstn n room). split; [|now rewrite firstn_skipn].
  rewrite length_firstn. unfold zlen in H. lia.
Qed.

Lemma absent_field write k n : field_writes false write k 0 [] n.
Proof.
  intros b0 x pre room _ _ _ _. cbn [write_field bind negb]. rewrite orb_true_r. cbn [app length skipn].
  rewrite (@zlen_nil Z), !Z.add_0_r. reflexivity.
Qed.

(** Stores in the buffer [b0 :: x :: pre ++ room], at the X field and after [pre]. *)
Lemma set_x b0 x t v : set_bit (b0 :: x :: t) 1 v = Ok (b0 :: u8 (Z.lor x v) :: t).
Proof. exact (set_bit_at [b0] x t v). Qed.
Lemma set8_room b0 x pre y t v :
  set8 (b0 :: x :: pre ++ y :: t) (2 + zlen pre) v = Ok (b0 :: x :: pre ++ u8 v :: t).
Proof.
  replace (2 + zlen pre) with (zlen (b0 :: x :: pre)) by (rewrite !zlen_cons; lia).
  exact (set8_at (b0 :: x :: pre) y t v).
Qed.
Lemma set_bit_room b0 x pre y t v :
  set_bit (b0 :: x :: pre ++ y :: t) (2 + zlen pre) v = Ok (b0 :: x :: pre ++ u8 (Z.lor y v) :: t).
Proof.
  replace (2 + zlen pre) with (zlen (b0 :: x :: pre)) by (rewrite !zlen_cons; lia).
  exact (set_bit_at (b0 :: x :: pre) y t v).
Qed.
Lemma at_room (pre : list Z) : vp8_fixed_payload_descriptor_bytes_ + (1 + zlen pre) = 2 + zlen pre.
Proof. unfold vp8_fixed_payload_descriptor_bytes_. lia. Qed.

Section Fields.
Variables (h : RTPVideoHeaderVP8) (n : Z).
Hypothesis (Hh : vp8_ok h) (Hn : n < 2 ^ 31).

Lemma write_tl0 :
  field_writes (TL0PicIdxFieldPresent h) (fun b => WriteTl0PicIdxFields h 1 b n) 7
    (if TL0PicIdxFieldPresent h then 64 else 0) (tl0_bytes h) n.
Proof.
  unfold tl0_bytes. destruct (TL0PicIdxFieldPresent h) eqn:P; [|apply absent_field].
  intros b0 x pre room Hx Hk Hr Hl. rewrite zlen_cons, (@zlen_nil Z) in *. cbn [write_field bind negb orb Z.ltb Z.compare].
  unfold WriteTl0PicIdxFields, kLBit. rewrite at_room. replace (n <? 2 + zlen pre + 1) with false by lia.
  rewrite set_x, (or_bits x 64 7) by (try assumption; lia). cbn [bind].
  destruct room as [|y t]; [rewrite (@zlen_nil Z) in Hr; lia|]. rewrite set8_room. cbn [bind].
  rewrite u8_id; [cbn [app length skipn]; do 3 f_equal; lia|].
  unfold TL0PicIdxFieldPresent in P. destruct Hh as [_ [T|T] _ _ _]; [rewrite T in P; discriminate|].
  unfold in_u8. lia.
Qed.

Lemma write_pic :
  field_writes (PictureIdPresent h) (fun b => WritePictureIDFields h 1 b n) 8
    (if PictureIdPresent h then 128 else 0) (pic_bytes h) n.
Proof.
  unfold PictureIdPresent, pic_bytes. pose proof (PictureIdLength_range h) as R.
  destruct (Z.ltb_spec 0 (PictureIdLength h)) as [P|P];
    [|replace (PictureIdLength h) with 0 by lia; apply absent_field].
  replace (PictureIdLength h =? 0) with false by lia.
  assert (V : 0 <= pictureId h <= 32767 /\ (PictureIdLength h = 1 -> pictureId h <= 127)).
  { unfold PictureIdLength in *. destruct Hh as [[V|V] _ _ _ _]; [rewrite V in P; discriminate P|].
    unfold kMaxTwoBytePictureId in V. split; [exact V|]. repeat case_if; lia. }
  intros b0 x pre room Hx Hk Hr Hl. cbn [write_field bind negb orb Z.ltb Z.compare].
  unfold WritePictureIDFields, kIBit. rewrite set_x, (or_bits x 128 8) by (try assumption; lia). cbn [bind].
  unfold WritePictureID. rewrite at_room.
  set (out := if _ =? 1 then _ else _) in *. assert (Lo : zlen out = PictureIdLength h).
  { subst out. destruct (Z.eqb_spec (PictureIdLength h) 1) as [->|]; [reflexivity|]. now replace (PictureIdLength h) with 2 by lia. }
  rewrite Lo in *. pose proof (zlen_nonneg pre).
  rewrite u64_id by (unfold in_u64, vp8_fixed_payload_descriptor_bytes_; lia).
  replace (n - vp8_fixed_payload_descriptor_bytes_ - (1 + zlen pre) <? PictureIdLength h) with false
    by (unfold vp8_fixed_payload_descriptor_bytes_; lia).
  rewrite (u16_id (pictureId h)) by (unfold in_u16; lia).
  destruct (Z.eqb_spec (PictureIdLength h) 1) as [E|E]; subst out.
  - replace (PictureIdLength h =? 2) with false by lia. cbn [bind].
    destruct room as [|y t]; [rewrite (@zlen_nil Z) in Hr; lia|]. rewrite set8_room. cbn [bind].
    replace (PictureIdLength h <? 0) with false by lia. rewrite (land_ones_mod _ 7), Z.mod_small by lia.
    rewrite u8_id by (unfold in_u8; lia). reflexivity.
  - replace (PictureIdLength h =? 2) with true by lia.
    destruct room as [|y [|y2 t]]; rewrite ?zlen_cons, ?(@zlen_nil Z) in Hr; try lia.
    rewrite set8_room. cbn [bind]. replace (2 + zlen pre + 1) with (2 + zlen (pre ++ [u8 (Z.lor 128 (Z.land (Z.shiftr (pictureId h) 8) 127))]))
      by (rewrite zlen_app, zlen_cons, (@zlen_nil Z); lia).
    set (hi := u8 _). replace (pre ++ hi :: y2 :: t) with ((pre ++ [hi]) ++ y2 :: t) by now rewrite <- app_assoc.
    rewrite set8_room. cbn [bind]. replace (PictureIdLength h <? 0) with false by lia.
    assert (Hhi : hi = 128 + pictureId h / 256).
    { subst hi. rewrite (land_ones_mod _ 7), shiftr_div by lia. change (2 ^ 7) with 128. change (2 ^ 8) with 256.
      rewrite Z.mod_small by dlia. rewrite (or_bits 128 _ 7); try lia; change (2 ^ 7) with 128; dlia. }
    rewrite Hhi, (land_ones_mod _ 8), u8_id by (try int_lia; lia). rewrite <- app_assoc. reflexivity.
Qed.

Lemma write_tk :
  field_writes (TIDFieldPresent h || KeyIdxFieldPresent h) (fun b => WriteTIDAndKeyIdxFields h 1 b n) 6
    ((if TIDFieldPresent h then 32 else 0) + (if KeyIdxFieldPresent h then 16 else 0)) (tk_bytes h) n.
Proof.
  unfold tk_bytes, tid_part, key_part.
  destruct (TIDFieldPresent h || KeyIdxFieldPresent h) eqn:P;
    [|apply orb_false_iff in P; destruct P as [-> ->]; apply absent_field].
  intros b0 x pre room Hx Hk Hr Hl. rewrite zlen_cons, (@zlen_nil Z) in *. cbn [write_field bind negb orb Z.ltb Z.compare].
  unfold WriteTIDAndKeyIdxFields. rewrite at_room. replace (n <? 2 + zlen pre + 1) with false by lia.
  destruct room as [|y t]; [rewrite (@zlen_nil Z) in Hr; lia|]. rewrite set8_room. cbn [bind].
  change (u8 0) with 0. change (2 ^ 6) with 64 in Hk.
  assert (T : TIDFieldPresent h = true -> 0 <= temporalIdx h <= 3).
  { unfold TIDFieldPresent. intros Q. destruct Hh as [_ _ [V|V] _ _]; [rewrite V in Q; discriminate|exact V]. }
  assert (K : KeyIdxFieldPresent h = true -> 0 <= keyIdx h <= 31).
  { unfold KeyIdxFieldPresent. intros Q. destruct Hh as [_ _ _ _ [V|V]]; [rewrite V in Q; discriminate|exact V]. }
  set (tp := temporalIdx h * 64 + (if layerSync h then 32 else 0)).
  assert (Step1 : (if TIDFieldPresent h then
      let! buffer := set_bit (b0 :: x :: pre ++ 0 :: t) 1 kTBit in
      let! buffer := set_bit buffer (2 + zlen pre) (Z.shiftl (temporalIdx h) 6) in
      set_bit buffer (2 + zlen pre) (if layerSync h then kYBit else 0)
    else Ok (b0 :: x :: pre ++ 0 :: t)) =
    Ok (b0 :: x + (if TIDFieldPresent h then 32 else 0) :: pre ++ (if TIDFieldPresent h then tp else 0) :: t)).
  { destruct (TIDFieldPresent h); [|now rewrite Z.add_0_r]. specialize (T eq_refl).
    unfold kTBit, kYBit. rewrite set_x, (or_bits x 32 6) by (try assumption; lia). cbn [bind].
    rewrite set_bit_room. cbn [bind]. rewrite set_bit_room. rewrite Z.lor_0_l, shiftl_mul by lia.
    change (2 ^ 6) with 64. rewrite (u8_id (temporalIdx h * 64)) by (unfold in_u8; lia).
    rewrite (or_bits _ (if layerSync h then 32 else 0) 6) by (try (destruct (layerSync h)); try lia; change (2 ^ 6) with 64; dlia).
    reflexivity. }
  rewrite Step1. cbn [bind]. set (x1 := x + _). set (d1 := if TIDFieldPresent h then tp else 0).
  assert (X1 : 0 <= x1 < 256 /\ x1 mod 32 = 0) by (subst x1; destruct (TIDFieldPresent h); dlia).
  assert (D1 : 0 <= d1 < 256 /\ d1 mod 32 = 0).
  { subst d1 tp. destruct (TIDFieldPresent h); [specialize (T eq_refl)|]; destruct (layerSync h); dlia. }
  assert (Step2 : (if KeyIdxFieldPresent h then
      let! buffer := set_bit (b0 :: x1 :: pre ++ d1 :: t) 1 kKBit in
      set_bit buffer (2 + zlen pre) (Z.land (keyIdx h) kKeyIdxField)
    else Ok (b0 :: x1 :: pre ++ d1 :: t)) =
    Ok (b0 :: x1 + (if KeyIdxFieldPresent h then 16 else 0) ::
        pre ++ d1 + (if KeyIdxFieldPresent h then keyIdx h else 0) :: t)).
  { destruct (KeyIdxFieldPresent h); [|now rewrite !Z.add_0_r]. specialize (K eq_refl). unfold kKBit, kKeyIdxField.
    rewrite set_x, (or_bits x1 16 5) by (try lia; change (2 ^ 5) with 32; lia). cbn [bind].
    rewrite set_bit_room. rewrite (land_ones_mod _ 5), Z.mod_small by (change (2 ^ 5) with 32; lia).
    rewrite (or_bits d1 (keyIdx h) 5) by (try lia; change (2 ^ 5) with 32; lia). reflexivity. }
  rewrite Step2. cbn [bind app length skipn]. subst x1. rewrite Z.add_assoc. reflexivity.
Qed.

(** The whole extension. *)
Lemma WriteExtensionFields_spec b0 room :
  PayloadDescriptorExtraLength h <= zlen room -> 1 + PayloadDescriptorExtraLength h <= n ->
  WriteExtensionFields h (b0 :: room) n =
    Ok (b0 :: extension h ++ skipn (length (extension h)) room, PayloadDescriptorExtraLength h).
Proof.
  intros Hr Hl. unfold WriteExtensionFields. rewrite <- zlen_extension in *. unfold extension in *.
  destruct (XFieldPresent h) eqn:X; [|reflexivity]. rewrite !zlen_cons, !zlen_app in *.
  pose proof (zlen_nonneg (pic_bytes h)). pose proof (zlen_nonneg (tl0_bytes h)). pose proof (zlen_nonneg (tk_bytes h)).
  destruct room as [|y room]; [rewrite (@zlen_nil Z) in Hr; lia|]. rewrite zlen_cons in Hr.
  change vp8_fixed_payload_descriptor_bytes_ with 1 at 1.
  rewrite (set8_at [b0] y room 0 : set8 (b0 :: y :: room) 1 0 = _). cbn [bind app]. change (u8 0) with 0.
  change vp8_fixed_payload_descriptor_bytes_ with 1.
  pose proof (write_pic b0 0 [] room ltac:(lia) eq_refl ltac:(lia) ltac:(rewrite (@zlen_nil Z); lia)) as W1.
  cbn [app] in W1. rewrite (@zlen_nil Z), Z.add_0_r in W1. rewrite W1.
  set (x1 := 0 + _). assert (X1 : 0 <= x1 < 256 /\ x1 mod 128 = 0) by (subst x1; destruct (PictureIdPresent h); dlia).
  set (r1 := skipn _ room). assert (R1 : zlen r1 = zlen room - zlen (pic_bytes h)).
  { subst r1. rewrite <- (Nat2Z.id (length _)), zlen_skipn; unfold zlen in *; lia. }
  rewrite (write_tl0 b0 x1 (pic_bytes h) r1) by (try lia; change (2 ^ 7) with 128; lia).
  set (x2 := x1 + _). assert (X2 : 0 <= x2 < 256 /\ x2 mod 64 = 0) by (subst x2; destruct (TL0PicIdxFieldPresent h); dlia).
  set (r2 := skipn _ r1). assert (R2 : zlen r2 = zlen r1 - zlen (tl0_bytes h)).
  { subst r2. rewrite <- (Nat2Z.id (length _)), zlen_skipn; unfold zlen in *; lia. }
  rewrite app_assoc, <- Z.add_assoc, <- zlen_app.
  rewrite (write_tk b0 x2 (pic_bytes h ++ tl0_bytes h) r2) by (rewrite ?zlen_app; try lia; change (2 ^ 6) with 64; lia).
  cbn [bind Z.ltb Z.compare]. rewrite zlen_app. do 2 f_equal; [|lia]. unfold x_byte. subst x1 x2.
  assert (Ex : 0 + (if PictureIdPresent h then 128 else 0) + (if TL0PicIdxFieldPresent h then 64 else 0) +
    ((if TIDFieldPresent h then 32 else 0) + (if KeyIdxFieldPresent h then 16 else 0)) =
    (if PictureIdPresent h then 128 else 0) + (if TL0PicIdxFieldPresent h then 64 else 0) +
    (if TIDFieldPresent h then 32 else 0) + (if KeyIdxFieldPresent h then 16 else 0)) by lia.
  rewrite Ex. cbn [app length skipn]. rewrite <- !app_assoc. do 5 f_equal. subst r2 r1.
  rewrite !skipn_skipn, !length_app. f_equal. lia.
Qed.
End Fields.

(** The packet: the descriptor and the bytes of the payload. *)
Definition packet_of (p : RtpPacketizerVp8) (i : InfoStruct) : list Z :=
  descriptor (hdr_info_ p) i ++ slice (payload_data_ p) (payload_start_pos i) (size i).

(** What a packet of the queue satisfies. *)
Record info_ok (p : RtpPacketizerVp8) (i : InfoStruct) : Prop := {
  io_start : 0 <= payload_start_pos i;
  io_size : 1 <= size i;
  io_end : payload_start_pos i + size i <= zlen (payload_data_ p);
  io_room : overhead p + size i <= max_payload_len_ p;
  io_part : 0 <= first_partition_ix i
}.

Lemma first_byte_written h i b room :
  0 <= first_partition_ix i ->
  (let! buffer := set8 (b :: room) 0 0 in
   let! buffer := if XFieldPresent h then set_bit buffer 0 kXBit else Ok buffer in
   let! buffer := if nonReference h then set_bit buffer 0 kNBit else Ok buffer in
   let! buffer := if first_fragment i then set_bit buffer 0 kSBit else Ok buffer in
   set_bit buffer 0 (Z.land (first_partition_ix i) kPartIdField)) = Ok (first_byte h i :: room).
Proof.
  intros Hp.
  assert (S : forall (c : bool) x v t, (if c then set_bit (x :: t) 0 v else Ok (x :: t)) =
    Ok ((if c then u8 (Z.lor x v) else x) :: t)).
  { intros [] x v t; [exact (set_bit_at [] x t v)|reflexivity]. }
  rewrite (set8_at [] b room 0 : set8 (b :: room) 0 0 = _). cbn [bind app]. change (u8 0) with 0.
  rewrite S. cbn [bind]. rewrite S. cbn [bind]. rewrite S. cbn [bind].
  match goal with |- set_bit (?x :: _) 0 ?v = _ => rewrite (set_bit_at [] x room v : set_bit (x :: room) 0 v = _) end.
  cbn [app]. unfold first_byte, kXBit, kNBit, kSBit, kPartIdField. rewrite (land_ones_mod _ 4) by lia.
  change (2 ^ 4) with 16. pose proof (Z.mod_pos_bound (first_partition_ix i) 16 ltac:(lia)).
  do 2 f_equal.
  destruct (XFieldPresent h), (nonReference h), (first_fragment i);
    match goal with |- u8 (Z.lor ?x _) = _ =>
      let x' := eval vm_compute in x in change x with x'; rewrite (or_bits x' _ 4) by (reflexivity || lia) end; lia.
Qed.

Lemma overhead_pos p : 1 <= overhead p /\ overhead p = zlen (extension (hdr_info_ p)) + 1.
Proof.
  unfold overhead, vp8_fixed_payload_descriptor_bytes_. rewrite <- zlen_extension.
  pose proof (zlen_nonneg (extension (hdr_info_ p))). lia.
Qed.

Lemma WriteHeaderAndPayload_spec p i buffer :
  vp8_ok (hdr_info_ p) -> info_ok p i -> max_payload_len_ p < 2 ^ 31 ->
  overhead p + size i <= zlen buffer ->
  WriteHeaderAndPayload p i buffer (max_payload_len_ p) =
    Ok (packet_of p i ++ skipn (Z.to_nat (overhead p + size i)) buffer, overhead p + size i).
Proof.
  intros Hh [I1 I2 I3 I4 I5] Hn Hb. destruct (overhead_pos p) as [O1 O2]. unfold WriteHeaderAndPayload.
  destruct buffer as [|b room]; [change (zlen (@nil Z)) with 0 in Hb; lia|]. rewrite zlen_cons in Hb.
  pose proof (first_byte_written (hdr_info_ p) i b room I5) as F.
  set (h := hdr_info_ p) in *.
  destruct (set8 (b :: room) 0 0) as [b1| |]; cbn [bind] in *; try discriminate.
  destruct (if XFieldPresent h then _ else _) as [b2| |]; cbn [bind] in *; try discriminate.
  destruct (if nonReference h then _ else _) as [b3| |]; cbn [bind] in *; try discriminate.
  destruct (if first_fragment i then _ else _) as [b4| |]; cbn [bind] in *; try discriminate.
  rewrite F. cbn [bind]. rewrite zlen_extension in O2.
  rewrite (WriteExtensionFields_spec h (max_payload_len_ p) Hh Hn) by (fold h in O2; lia). cbn [bind].
  pose proof (zlen_nonneg (extension h)) as Z0. rewrite zlen_extension in Z0.
  replace (PayloadDescriptorExtraLength h <? 0) with false by lia.
  set (r1 := skipn _ room). assert (R1 : zlen r1 = zlen room - PayloadDescriptorExtraLength h).
  { subst r1. pose proof (zlen_extension h). unfold zlen in *. rewrite length_skipn. lia. }
  replace (first_byte h i :: extension h ++ r1) with (descriptor h i ++ r1) by reflexivity.
  replace (vp8_fixed_payload_descriptor_bytes_ + PayloadDescriptorExtraLength h) with (zlen (descriptor h i))
    by (now rewrite zlen_descriptor).
  rewrite memcpy_at by lia. cbn [bind]. unfold packet_of. fold h. rewrite <- app_assoc. f_equal. f_equal.
  - do 2 f_equal. subst r1. rewrite skipn_skipn.
    replace (Z.to_nat (overhead p + size i)) with (S (Z.to_nat (size i) + length (extension h))); [reflexivity|].
    pose proof (zlen_extension h). unfold zlen in *. lia.
  - unfold vp8_fixed_payload_descriptor_bytes_. lia.
Qed.

(** *** Reading it back *)

(** A byte of a packet in pieces. *)
Lemma byte_at a x b : byte (a ++ x :: b) (zlen a) = Ok x.
Proof.
  rewrite byte_ok by (autorewrite with zlen; pose proof (zlen_nonneg a); pose proof (zlen_nonneg b); lia).
  now rewrite rd_app_r, Z.sub_diag, rd_0 by lia.
Qed.
Lemma byte_after a x y b : byte (a ++ x :: y :: b) (zlen a + 1) = Ok y.
Proof.
  replace (a ++ x :: y :: b) with ((a ++ [x]) ++ y :: b) by now rewrite <- app_assoc.
  replace (zlen a + 1) with (zlen (a ++ [x])) by (rewrite zlen_app; reflexivity). apply byte_at.
Qed.

Section Reading.
Variable h : RTPVideoHeaderVP8.
Hypothesis Hh : vp8_ok h.

Lemma read_pic vp8 pre post l n :
  pictureId vp8 = kNoPictureId -> zlen (pic_bytes h) < l ->
  parse_field (PictureIdPresent h) (fun v => ParseVP8PictureID v (pre ++ pic_bytes h ++ post))
    (Ok (Some (vp8, (zlen pre, l, n)))) =
  Ok (Some (mk_vp8 (nonReference vp8) (pictureId h) (tl0PicIdx vp8) (temporalIdx vp8) (layerSync vp8)
              (keyIdx vp8) (partitionId vp8) (beginningOfPartition vp8),
            (zlen pre + zlen (pic_bytes h), l - zlen (pic_bytes h), n + zlen (pic_bytes h)))).
Proof.
  intros Hv Hl. unfold PictureIdPresent, pic_bytes in *. pose proof (PictureIdLength_range h) as R.
  assert (V : (PictureIdLength h = 0 -> pictureId h = kNoPictureId) /\
              (PictureIdLength h = 1 -> 0 <= pictureId h <= 127) /\
              (PictureIdLength h = 2 -> 0 <= pictureId h <= 32767)).
  { unfold PictureIdLength. destruct Hh as [V _ _ _ _]. unfold kMaxTwoBytePictureId, kNoPictureId in *.
    repeat case_if; repeat split; intros; try lia. }
  destruct V as (V0 & V1 & V2). destruct (Z.ltb_spec 0 (PictureIdLength h)) as [P|P].
  2:{ replace (PictureIdLength h) with 0 by lia. cbn [Z.eqb parse_field bind]. rewrite V0 by lia.
      change (zlen (@nil Z)) with 0. rewrite !Z.add_0_r, Z.sub_0_r. rewrite <- Hv. now destruct vp8. }
  replace (PictureIdLength h =? 0) with false in * by lia. cbn [parse_field bind].
  unfold ParseVP8PictureID. replace (l =? 0) with false by (destruct (PictureIdLength h =? 1); rewrite !zlen_cons in Hl; change (zlen (@nil Z)) with 0 in Hl; lia).
  destruct (Z.eqb_spec (PictureIdLength h) 1) as [E|E].
  - cbn [app]. rewrite byte_at. cbn [bind]. specialize (V1 E).
    change 128 with (2 ^ 7). rewrite land_pow2_bit, testbit_div, (Z.div_small (pictureId h)) by (change (2 ^ 7) with 128; lia).
    change (2 ^ 7) with 128. cbn [Z.odd]. rewrite (land_ones_mod _ 7), Z.mod_small by lia. reflexivity.
  - cbn [app]. rewrite byte_at. cbn [bind]. specialize (V2 ltac:(lia)).
    assert (Q : 0 <= pictureId h / 256 < 128) by dlia.
    assert (M : negb (Z.land (128 + pictureId h / 256) 128 =? 0) = true).
    { change 128 with (2 ^ 7) at 2. rewrite land_pow2_bit, testbit_div by lia. change (2 ^ 7) with 128.
      now replace ((128 + pictureId h / 256) / 128) with 1 by dlia. }
    rewrite M. rewrite !zlen_cons in Hl. change (zlen (@nil Z)) with 0 in Hl. replace (l - 1 =? 0) with false by lia.
    rewrite byte_after. cbn [bind]. rewrite (land_ones_mod _ 7) by lia. change (2 ^ 7) with 128.
    replace ((128 + pictureId h / 256) mod 128) with (pictureId h / 256) by dlia. rewrite shiftl_mul by lia.
    change (2 ^ 8) with 256. rewrite s16_id by (unfold in_s16; dlia).
    replace (pictureId h / 256 * 256 + pictureId h mod 256) with (pictureId h) by dlia. reflexivity.
Qed.

Lemma read_tl0 vp8 pre post l n :
  tl0PicIdx vp8 = kNoTl0PicIdx -> zlen (tl0_bytes h) < l ->
  parse_field (TL0PicIdxFieldPresent h) (fun v => ParseVP8Tl0PicIdx v (pre ++ tl0_bytes h ++ post))
    (Ok (Some (vp8, (zlen pre, l, n)))) =
  Ok (Some (mk_vp8 (nonReference vp8) (pictureId vp8) (tl0PicIdx h) (temporalIdx vp8) (layerSync vp8)
              (keyIdx vp8) (partitionId vp8) (beginningOfPartition vp8),
            (zlen pre + zlen (tl0_bytes h), l - zlen (tl0_bytes h), n + zlen (tl0_bytes h)))).
Proof.
  intros Hv Hl. unfold tl0_bytes in *. destruct (TL0PicIdxFieldPresent h) eqn:P; cbn [parse_field bind].
  - unfold ParseVP8Tl0PicIdx. rewrite zlen_cons in Hl. change (zlen (@nil Z)) with 0 in Hl.
    replace (l =? 0) with false by lia. cbn [app]. rewrite byte_at. reflexivity.
  - change (zlen (@nil Z)) with 0. rewrite !Z.add_0_r, Z.sub_0_r.
    unfold TL0PicIdxFieldPresent in P. apply negb_false_iff, Z.eqb_eq in P. rewrite P, <- Hv. now destruct vp8.
Qed.

Lemma read_tk vp8 pre post l n :
  temporalIdx vp8 = kNoTemporalIdx -> layerSync vp8 = false -> keyIdx vp8 = kNoKeyIdx -> zlen (tk_bytes h) < l ->
  parse_field (TIDFieldPresent h || KeyIdxFieldPresent h)
    (fun v => ParseVP8TIDAndKeyIdx v (pre ++ tk_bytes h ++ post) (TIDFieldPresent h) (KeyIdxFieldPresent h))
    (Ok (Some (vp8, (zlen pre, l, n)))) =
  Ok (Some (mk_vp8 (nonReference vp8) (pictureId vp8) (tl0PicIdx vp8) (temporalIdx h) (layerSync h)
              (keyIdx h) (partitionId vp8) (beginningOfPartition vp8),
            (zlen pre + zlen (tk_bytes h), l - zlen (tk_bytes h), n + zlen (tk_bytes h)))).
Proof.
  intros Hv Hs Hk Hl. unfold tk_bytes, tid_part, key_part in *.
  assert (T : TIDFieldPresent h = true /\ 0 <= temporalIdx h <= 3 \/
    TIDFieldPresent h = false /\ temporalIdx h = kNoTemporalIdx /\ layerSync h = false).
  { unfold TIDFieldPresent. destruct Hh as [_ _ [V|V] S _]; [right|left].
    - rewrite V, Z.eqb_refl. auto. - unfold kNoTemporalIdx. split; [|exact V]. now replace (temporalIdx h =? 255) with false by lia. }
  assert (K : KeyIdxFieldPresent h = true /\ 0 <= keyIdx h <= 31 \/
    KeyIdxFieldPresent h = false /\ keyIdx h = kNoKeyIdx).
  { unfold KeyIdxFieldPresent. destruct Hh as [_ _ _ _ [V|V]]; [right|left].
    - rewrite V. auto. - unfold kNoKeyIdx. split; [|exact V]. now replace (keyIdx h =? -1) with false by lia. }
  destruct (TIDFieldPresent h || KeyIdxFieldPresent h) eqn:P; cbn [parse_field bind].
  - rewrite zlen_cons in Hl. change (zlen (@nil Z)) with 0 in Hl. unfold ParseVP8TIDAndKeyIdx.
    replace (l =? 0) with false by lia. cbn [app]. rewrite byte_at. cbn [bind].
    set (kp := if KeyIdxFieldPresent h then keyIdx h else 0) in *.
    assert (Hkp : 0 <= kp < 32) by (subst kp; destruct K as [[-> K]|[-> K]]; lia).
    destruct T as [[-> T]|(-> & T & S)].
    + set (b := _ + _). set (y := if layerSync h then 32 else 0) in *. assert (Hy : y = 0 \/ y = 32) by (subst y; destruct (layerSync h); auto).
      assert (E1 : Z.land (Z.shiftr b 6) 3 = temporalIdx h).
      { rewrite (land_ones_mod _ 2), shiftr_div by lia. change (2 ^ 2) with 4. change (2 ^ 6) with 64. subst b. dlia. }
      assert (E2 : negb (Z.land b 32 =? 0) = layerSync h).
      { change 32 with (2 ^ 5). rewrite land_pow2_bit, testbit_div by lia. change (2 ^ 5) with 32.
        replace (b / 32) with (2 * temporalIdx h + b2z (layerSync h)) by (subst b y kp; destruct (layerSync h); cbn [b2z]; dlia).
        rewrite Z.add_comm, Z.odd_add_mul_2. now destruct (layerSync h). }
      assert (E3 : (if KeyIdxFieldPresent h then Z.land b 31 else keyIdx vp8) = keyIdx h).
      { subst kp b. destruct K as [[-> K]|[-> K]]; [|congruence]. rewrite (land_ones_mod _ 5) by lia. change (2 ^ 5) with 32. subst y. destruct (layerSync h); dlia. }
      rewrite E1, E2, E3. reflexivity.
    + set (b := _ + _). assert (E3 : (if KeyIdxFieldPresent h then Z.land b 31 else keyIdx vp8) = keyIdx h).
      { subst kp b. destruct K as [[-> K]|[-> K]]; [|congruence]. rewrite (land_ones_mod _ 5) by lia. change (2 ^ 5) with 32. dlia. }
      rewrite E3, Hv, Hs, T, S. reflexivity.
  - change (zlen (@nil Z)) with 0. rewrite !Z.add_0_r, Z.sub_0_r. apply orb_false_iff in P. destruct P as [P1 P2].
    destruct T as [[T _]|(_ & T & S)]; [congruence|]. destruct K as [[K _]|(_ & K)]; [congruence|].
    rewrite T, S, K, <- Hv, <- Hs at 1. rewrite <- Hk. destruct vp8; cbn in *. now subst.
Qed.
End Reading.

Lemma ParseVP8Extension_spec h f tail vp8 l :
  vp8_ok h -> XFieldPresent h = true ->
  pictureId vp8 = kNoPictureId -> tl0PicIdx vp8 = kNoTl0PicIdx -> temporalIdx vp8 = kNoTemporalIdx ->
  layerSync vp8 = false -> keyIdx vp8 = kNoKeyIdx -> zlen (extension h) < l ->
  ParseVP8Extension vp8 (f :: extension h ++ tail) 1 l =
    Ok (Some (mk_vp8 (nonReference vp8) (pictureId h) (tl0PicIdx h) (temporalIdx h) (layerSync h) (keyIdx h)
                (partitionId vp8) (beginningOfPartition vp8), zlen (extension h))).
Proof.
  intros Hh X V1 V2 V3 V4 V5 Hl. unfold extension in *. rewrite X in *. rewrite zlen_cons, !zlen_app in *.
  cbn [app]. unfold ParseVP8Extension.
  rewrite (byte_at [f] (x_byte h) ((pic_bytes h ++ tl0_bytes h ++ tk_bytes h) ++ tail) : byte (f :: x_byte h :: _) 1 = _).
  cbn [bind].
  assert (F : negb (Z.land (x_byte h) 128 =? 0) = PictureIdPresent h /\
    negb (Z.land (x_byte h) 64 =? 0) = TL0PicIdxFieldPresent h /\
    negb (Z.land (x_byte h) 32 =? 0) = TIDFieldPresent h /\
    negb (Z.land (x_byte h) 16 =? 0) = KeyIdxFieldPresent h).
  { unfold x_byte. destruct (PictureIdPresent h), (TL0PicIdxFieldPresent h), (TIDFieldPresent h), (KeyIdxFieldPresent h);
      vm_compute; auto. }
  destruct F as (-> & -> & -> & ->).
  pose proof (zlen_nonneg (pic_bytes h)). pose proof (zlen_nonneg (tl0_bytes h)). pose proof (zlen_nonneg (tk_bytes h)).
  set (mem := f :: _). set (a1 := [f; x_byte h]).
  assert (M1 : mem = a1 ++ pic_bytes h ++ (tl0_bytes h ++ tk_bytes h ++ tail))
    by (subst mem a1; cbn [app]; now rewrite <- !app_assoc).
  assert (M2 : mem = (a1 ++ pic_bytes h) ++ tl0_bytes h ++ (tk_bytes h ++ tail)) by (rewrite M1; now rewrite <- !app_assoc).
  assert (M3 : mem = (a1 ++ pic_bytes h ++ tl0_bytes h) ++ tk_bytes h ++ tail) by (rewrite M1; now rewrite <- !app_assoc).
  pose proof (read_pic h Hh vp8 a1 (tl0_bytes h ++ tk_bytes h ++ tail) (l - 1) 1 V1 ltac:(lia)) as R1. rewrite <- M1 in R1.
  change (zlen a1) with (1 + 1) in R1. rewrite R1.
  set (v1 := mk_vp8 _ _ _ _ _ _ _ _).
  pose proof (read_tl0 h v1 (a1 ++ pic_bytes h) (tk_bytes h ++ tail) (l - 1 - zlen (pic_bytes h)) (1 + zlen (pic_bytes h))
    V2 ltac:(lia)) as R2. rewrite <- M2, zlen_app in R2. change (zlen a1) with (1 + 1) in R2. rewrite R2.
  set (v2 := mk_vp8 _ _ _ _ _ _ _ _).
  pose proof (read_tk h Hh v2 (a1 ++ pic_bytes h ++ tl0_bytes h) tail (l - 1 - zlen (pic_bytes h) - zlen (tl0_bytes h))
    (1 + zlen (pic_bytes h) + zlen (tl0_bytes h)) V3 V4 V5 ltac:(lia)) as R3.
  rewrite <- M3, !zlen_app in R3. change (zlen a1) with (1 + 1) in R3. rewrite !Z.add_assoc in *. rewrite R3. reflexivity.
Qed.

(** The header as the receiver sees it. *)
Definition received (h : RTPVideoHeaderVP8) (i : InfoStruct) : RTPVideoHeaderVP8 :=
  mk_vp8 (nonReference h) (pictureId h) (tl0PicIdx h) (temporalIdx h) (layerSync h) (keyIdx h)
    (first_partition_ix i mod 16) (first_fragment i).
Definition starts_key (p : RtpPacketizerVp8) (i : InfoStruct) : bool :=
  first_fragment i && (first_partition_ix i mod 16 =? 0) && Z.even (rd (payload_data_ p) (payload_start_pos i)).

Lemma rd_slice_app d s n b j : 0 <= s -> 0 <= j < n -> s + n <= zlen d -> rd (slice d s n ++ b) j = rd d (s + j).
Proof.
  intros Hs Hj Hd. rewrite rd_app_l by (rewrite zlen_slice; lia). apply rd_slice; lia.
Qed.

(** The first byte of a packet, field by field. *)
Lemma first_byte_fields h i :
  0 <= first_partition_ix i ->
  negb (Z.land (first_byte h i) 128 =? 0) = XFieldPresent h /\
  negb (Z.land (first_byte h i) 32 =? 0) = nonReference h /\
  negb (Z.land (first_byte h i) 16 =? 0) = first_fragment i /\
  Z.land (first_byte h i) 15 = first_partition_ix i mod 16.
Proof.
  intros Hp. unfold first_byte. pose proof (Z.mod_pos_bound (first_partition_ix i) 16 ltac:(lia)) as M.
  set (m := first_partition_ix i mod 16) in *. clearbody m. rewrite (land_ones_mod _ 4) by lia.
  change 128 with (2 ^ 7) at 2. change (Z.land ?x 32) with (Z.land x (2 ^ 5)). change (Z.land ?x 16) with (Z.land x (2 ^ 4)).
  rewrite !land_pow2_bit, !testbit_div by lia. change (2 ^ 7) with 128. change (2 ^ 5) with 32. change (2 ^ 4) with 16.
  set (x := _ + m). assert (E : x / 16 = 8 * b2z (XFieldPresent h) + 2 * b2z (nonReference h) + b2z (first_fragment i) /\
    x / 32 = 4 * b2z (XFieldPresent h) + b2z (nonReference h) /\ x / 128 = b2z (XFieldPresent h) /\ x mod 16 = m).
  { subst x. destruct (XFieldPresent h), (nonReference h), (first_fragment i); cbn [b2z]; dlia. }
  destruct E as (-> & -> & -> & ->). now destruct (XFieldPresent h), (nonReference h), (first_fragment i).
Qed.

(** Parsing a packet that was written, whatever follows it in the buffer. *)
Lemma Parse_packet pp p i room :
  vp8_ok (hdr_info_ p) -> info_ok p i -> max_payload_len_ p < 2 ^ 31 ->
  first_partition_ix i mod 16 <= 8 -> (starts_key p i = true -> 10 <= size i) ->
  exists q, Parse pp (packet_of p i ++ room) (overhead p + size i) = Ok (Some q) /\
    payload q = overhead p /\ payload_length q = size i /\ VP8 q = received (hdr_info_ p) i /\
    codec q = kRtpVideoVp8 /\ isFirstPacket q = first_fragment i && (first_partition_ix i mod 16 =? 0) /\
    frame_type q = (if starts_key p i then kVideoFrameKey else kVideoFrameDelta).
Proof.
  intros Hh [I1 I2 I3 I4 I5] Hn H8 H10. destruct (overhead_pos p) as [O1 O2]. unfold packet_of, descriptor.
  set (h := hdr_info_ p) in *. set (data := slice _ _ _). set (n := size i) in *.
  assert (Hd : zlen data = n) by (apply zlen_slice; lia). pose proof (zlen_nonneg room).
  pose proof (zlen_nonneg (extension h)) as E0. pose proof (first_byte_fields h i I5) as (F1 & F2 & F3 & F4).
  unfold Parse. replace (overhead p + n =? 0) with false by lia. cbn [app].
  rewrite (byte_at [] (first_byte h i) _ : byte (first_byte h i :: _) 0 = _). cbn [bind].
  rewrite F1, F2, F3, F4. replace (8 <? first_partition_ix i mod 16) with false by lia.
  replace (overhead p + n <=? 1) with false by lia.
  set (vp8 := mk_vp8 _ _ _ _ _ _ _ _). rewrite <- app_assoc.
  assert (X : (if XFieldPresent h then
      ParseVP8Extension vp8 (first_byte h i :: extension h ++ data ++ room) 1 (overhead p + n - 1)
    else Ok (Some (vp8, 0))) = Ok (Some (received h i, zlen (extension h)))).
  { destruct (XFieldPresent h) eqn:X.
    - rewrite ParseVP8Extension_spec by (auto; lia). reflexivity.
    - unfold extension. rewrite X. change (zlen (@nil Z)) with 0. unfold XFieldPresent in X.
      repeat (apply orb_false_iff in X; destruct X as [X ?]). unfold TIDFieldPresent, TL0PicIdxFieldPresent,
        KeyIdxFieldPresent, PictureIdPresent, PictureIdLength in *.
      do 2 f_equal. unfold vp8, received. f_equal.
      assert (E1 : pictureId h = kNoPictureId) by (destruct (Z.eqb_spec (pictureId h) kNoPictureId); [assumption|destruct (pictureId h <=? 127); discriminate]).
      assert (E2 : tl0PicIdx h = kNoTl0PicIdx) by lia. assert (E3 : temporalIdx h = kNoTemporalIdx) by lia.
      assert (E4 : keyIdx h = kNoKeyIdx) by lia. rewrite E1, E2, E3, E4, (vo_sync h Hh E3). reflexivity. }
  rewrite X. cbn [bind]. rewrite u64_id by (unfold in_u64; lia).
  replace (XFieldPresent h && (overhead p + n - 1 - zlen (extension h) =? 0)) with false
    by (destruct (XFieldPresent h); cbn [andb]; lia).
  set (mem := first_byte h i :: _). assert (Hm : mem = (first_byte h i :: extension h) ++ data ++ room) by reflexivity.
  assert (Hl : 1 + zlen (extension h) = zlen (first_byte h i :: extension h)) by now rewrite zlen_cons.
  assert (By : forall j, 0 <= j < n -> byte mem (1 + zlen (extension h) + j) = Ok (rd data j)).
  { intros j Hj. rewrite Hm, Hl, byte_mid by lia. reflexivity. }
  assert (B0 : byte mem (1 + zlen (extension h)) = Ok (rd (payload_data_ p) (payload_start_pos i))).
  { rewrite <- (Z.add_0_r (1 + _)), By by lia. unfold data. rewrite rd_slice by lia. f_equal. f_equal. lia. }
  assert (T : (if first_fragment i && (first_partition_ix i mod 16 =? 0)
     then let! b := byte mem (1 + zlen (extension h)) in
          Ok (if negb (Z.land b 1 =? 0) then kVideoFrameDelta else kVideoFrameKey)
     else Ok kVideoFrameDelta) = Ok (if starts_key p i then kVideoFrameKey else kVideoFrameDelta)).
  { unfold starts_key. destruct (first_fragment i && _); [|reflexivity]. rewrite B0. cbn [bind andb].
    change 1 with (2 ^ 0) at 1. rewrite land_pow2_bit, Z.bit0_odd, <- Z.negb_even by lia.
    now destruct (Z.even _). }
  rewrite T. cbn [bind].
  match goal with |- context [ParseVP8FrameSize ?p _ _ _] => set (q := p) end.
  assert (Fs : exists w hh, ParseVP8FrameSize q mem (1 + zlen (extension h)) (overhead p + n - 1 - zlen (extension h)) =
    Ok (Some (set_size q w hh))).
  { unfold ParseVP8FrameSize. change (frame_type q) with (if starts_key p i then kVideoFrameKey else kVideoFrameDelta).
    destruct (starts_key p i).
    - specialize (H10 eq_refl). replace (_ <? 10) with false by lia. rewrite !By by lia. cbn [bind]. eauto.
    - exists (width q), (height q). reflexivity. }
  destruct Fs as (w & hh & ->). cbn [bind]. eexists. split; [reflexivity|].
  cbn [payload payload_length VP8 codec isFirstPacket frame_type set_payload set_size]. repeat split; lia.
Qed.

(** C24. A VP8 packet round trips: for every header within its ranges and every
    queued packet that fits, [NextPacket] takes it from the queue and fills a
    buffer that is large enough with at most the maximal payload length, and
    [Parse] of these bytes succeeds whatever the parsed payload held before: the
    header comes back with the partition and the fragment bit of the packet, and
    the media payload is the packet's part of the frame; a packet that starts a
    key frame must hold the ten bytes of the frame header. *)
Theorem Vp8_packet_roundtrip p i rest buffer pp :
  vp8_ok (hdr_info_ p) -> info_ok p i -> max_payload_len_ p < 2 ^ 31 ->
  packets_calculated_ p = true -> packets_ p = i :: rest -> max_payload_len_ p <= zlen buffer ->
  first_partition_ix i mod 16 <= 8 -> (starts_key p i = true -> 10 <= size i) ->
  exists buffer' n q,
    NextPacket p buffer =
      Ok (set_packets p rest true, buffer', Some (n, match rest with [] => true | _ => false end)) /\
    n <= max_payload_len_ p /\ zlen buffer' = zlen buffer /\
    Parse pp buffer' n = Ok (Some q) /\
    slice buffer' (payload q) (payload_length q) = slice (payload_data_ p) (payload_start_pos i) (size i) /\
    VP8 q = received (hdr_info_ p) i /\ codec q = kRtpVideoVp8 /\
    isFirstPacket q = first_fragment i && (first_partition_ix i mod 16 =? 0) /\
    frame_type q = (if starts_key p i then kVideoFrameKey else kVideoFrameDelta).
Proof.
  intros Hh Hi Hn Hc Hp Hb H8 H10. pose proof Hi as [I1 I2 I3 I4 I5]. destruct (overhead_pos p) as [O1 O2].
  set (p' := set_packets p rest true).
  assert (Hi' : info_ok p' i) by (split; assumption).
  pose proof (WriteHeaderAndPayload_spec p' i buffer Hh Hi' Hn ltac:(change (overhead p') with (overhead p); lia)) as W.
  change (max_payload_len_ p') with (max_payload_len_ p) in W. change (overhead p') with (overhead p) in W.
  change (packet_of p' i) with (packet_of p i) in W. set (room := skipn _ buffer) in W.
  destruct (Parse_packet pp p i room Hh Hi Hn H8 H10) as (q & E & Q1 & Q2 & Q3 & Q4 & Q5 & Q6).
  exists (packet_of p i ++ room), (overhead p + size i), q.
  assert (Lp : zlen (packet_of p i) = overhead p + size i).
  { unfold packet_of. rewrite zlen_app, zlen_descriptor, zlen_slice by lia. rewrite zlen_extension in O2. lia. }
  split.
  - unfold NextPacket. rewrite Hc. cbn [bind]. rewrite Hp, Hc. fold p'.
    change (max_payload_len_ p') with (max_payload_len_ p). rewrite W. cbn [bind].
    replace (overhead p + size i <? 0) with false by lia. reflexivity.
  - split; [lia|]. split; [rewrite zlen_app, Lp; subst room; rewrite zlen_skipn by lia; lia|].
    split; [exact E|]. split; [|auto]. rewrite Q1, Q2. unfold packet_of. rewrite <- app_assoc.
    unfold slice at 1. rewrite skipn_app, firstn_app.
    assert (L1 : length (descriptor (hdr_info_ p) i) = Z.to_nat (overhead p)).
    { pose proof (zlen_descriptor (hdr_info_ p) i). rewrite zlen_extension in O2. unfold zlen in *. lia. }
    rewrite L1, Nat.sub_diag. rewrite skipn_all2 by lia. cbn [skipn app firstn length]. rewrite firstn_nil, Nat.sub_0_r. cbn [app].
    assert (L2 : length (slice (payload_data_ p) (payload_start_pos i) (size i)) = Z.to_nat (size i)).
    { pose proof (zlen_slice (payload_data_ p) (payload_start_pos i) (size i) I1 ltac:(lia) I3). unfold zlen in *. lia. }
    rewrite firstn_app, L2, Nat.sub_diag. cbn [firstn]. rewrite app_nil_r. apply firstn_all2. lia.
Qed.

Definition example_header : RTPVideoHeaderVP8 := mk_vp8 true 300 17 2 true 5 0 false.
Definition example_packetizer : RtpPacketizerVp8 :=
  mk_packetizer [0x9d; 2; 3; 4; 5; 6; 7; 8; 9; 10; 11; 12] 12 (mk_frag 2 [0; 7] [7; 5]) kAggrNone true true
    example_header 2 20 [mk_info 0 7 true 0; mk_info 7 5 true 1] true.

Lemma Vp8_packet_roundtrip_witness :
  exists buffer' n q,
    NextPacket example_packetizer (repeat 0 20) =
      Ok (set_packets example_packetizer [mk_info 7 5 true 1] true, buffer', Some (n, false)) /\
    n <= 20 /\ zlen buffer' = 20 /\
    Parse (mk_payload 0 0 kEmptyFrame 1 1 false 0 kRtpVideoNone InitRTPVideoHeaderVP8
             (mk_vp9 false false false false false 0 0 0 0 0 false false 0 0 [] [] 0 false [] [] (mk_gof 0 [] [] [] []))
             (mk_h264 0 kH264FuA)) buffer' n = Ok (Some q) /\
    slice buffer' (payload q) (payload_length q) = [0x9d; 2; 3; 4; 5; 6; 7] /\
    VP8 q = mk_vp8 true 300 17 2 true 5 0 true /\ codec q = kRtpVideoVp8 /\
    isFirstPacket q = true /\ frame_type q = kVideoFrameDelta.
Proof.
  apply (Vp8_packet_roundtrip example_packetizer (mk_info 0 7 true 0) [mk_info 7 5 true 1] (repeat 0 20));
    try reflexivity; try (vm_compute; congruence).
  - split; cbn; unfold kNoPictureId, kMaxTwoBytePictureId, kNoTl0PicIdx, kNoTemporalIdx, kNoKeyIdx; intuition lia.
  - split; vm_compute; intuition congruence.
Defined.

Lemma Vp8_Parse_safe_witness :
  exists r, Parse (mk_payload 0 0 kEmptyFrame 1 1 false 0 kRtpVideoNone InitRTPVideoHeaderVP8
             (mk_vp9 false false false false false 0 0 0 0 0 false false 0 0 [] [] 0 false [] [] (mk_gof 0 [] [] [] []))
             (mk_h264 0 kH264FuA)) [0x90; 0x80; 0x81] 3 = Ok r /\
    match r with
    | Some q => 1 <= payload q /\ 1 <= payload_length q /\ payload q + payload_length q = 3
    | None => True
    end.
Proof. apply (Vp8_Parse_safe _ [0x90; 0x80; 0x81] 3); vm_compute; intuition congruence. Defined.
End RtpVp8.
