(* ===== verification/RtpVp8Facts.v ===== *)
(** * The packets of a VP8 frame

    The theorems about [RtpVp8]'s three ways to cut a frame into packets: the
    packets cover the frame in order, none is empty or too large, each names the
    partition its first byte is in. *)

From S2P Require Import Prelude Wire VideoHeaders Vp8Aggregator RtpVp8.
Import Wire VideoHeaders Vp8Aggregator RtpVp8.

Module RtpVp8Facts.

(** ** Partitions *)

(** The length of a partition and where it starts. *)
Definition len (p : RtpPacketizerVp8) (k : Z) : Z := rd (fragmentationLength (part_info_ p)) k.
Definition sumz (l : list Z) : Z := fold_right Z.add 0 l.
Definition start_of (p : RtpPacketizerVp8) (k : Z) : Z :=
  sumz (firstn (Z.to_nat k) (fragmentationLength (part_info_ p))).

(** A frame as the encoder gives it: partitions with some bytes, one after the
    other. *)
Record frame_ok (p : RtpPacketizerVp8) : Prop := {
  fo_num : num_partitions p = zlen (fragmentationLength (part_info_ p));
  fo_len : Forall (fun l => 0 < l) (fragmentationLength (part_info_ p));
  fo_offset : forall k, 0 <= k < num_partitions p ->
    get (fragmentationOffset (part_info_ p)) k = Ok (start_of p k);
  fo_size : payload_size_ p = sumz (fragmentationLength (part_info_ p));
  fo_bound : payload_size_ p < 2 ^ 31;
  fo_room : overhead p + 1 <= max_payload_len_ p < 2 ^ 31
}.

Definition room (p : RtpPacketizerVp8) : Z := max_payload_len_ p - overhead p.

(** Packets that follow each other from [lo] to [hi]. *)
Fixpoint covers (lo hi : Z) (l : list InfoStruct) : Prop :=
  match l with
  | [] => lo = hi
  | i :: l => payload_start_pos i = lo /\ covers (lo + size i) hi l
  end.

Record placed (p : RtpPacketizerVp8) (i : InfoStruct) : Prop := {
  pl_size : 1 <= size i <= room p;
  pl_part : 0 <= first_partition_ix i < num_partitions p;
  pl_pos : start_of p (first_partition_ix i) <= payload_start_pos i < start_of p (first_partition_ix i + 1);
  pl_first : first_fragment i = true -> payload_start_pos i = start_of p (first_partition_ix i)
}.

Lemma covers_app a b : forall lo mid hi, covers lo mid a -> covers mid hi b -> covers lo hi (a ++ b).
Proof.
  induction a as [|i a IH]; cbn; intros lo mid hi Ha Hb; [now subst|].
  destruct Ha as [H1 H2]. split; [exact H1|]. now apply (IH _ mid).
Qed.

Lemma sumz_app a b : sumz (a ++ b) = sumz a + sumz b.
Proof. unfold sumz. induction a as [|x a IH]; cbn [app fold_right]; [reflexivity|]. lia. Qed.

Lemma sumz_nonneg l : Forall (fun x => 0 < x) l -> 0 <= sumz l.
Proof.
  unfold sumz. induction l as [|x l IH]; intros H; cbn [fold_right]; [lia|]. inversion H; subst.
  specialize (IH ltac:(assumption)). lia.
Qed.

Lemma firstn_S_rd l k : 0 <= k < zlen l -> firstn (Z.to_nat (k + 1)) l = firstn (Z.to_nat k) l ++ [rd l k].
Proof.
  intros H. replace (Z.to_nat (k + 1)) with (S (Z.to_nat k)) by lia.
  unfold rd. replace (k <? 0) with false by lia.
  assert (L : (Z.to_nat k < length l)%nat) by (unfold zlen in H; lia). revert L. generalize (Z.to_nat k). clear.
  induction l as [|x l IH]; intros n L; cbn in L; [lia|]. destruct n; [reflexivity|].
  change (x :: firstn (S n) l = x :: (firstn n l ++ [nth n l 0])). f_equal. apply IH. lia.
Qed.

Section Frame.
Variable p : RtpPacketizerVp8.
Hypothesis F : frame_ok p.

Lemma start_S k : 0 <= k < num_partitions p -> start_of p (k + 1) = start_of p k + len p k.
Proof.
  intros H. unfold start_of, len. rewrite firstn_S_rd, sumz_app by (rewrite <- (fo_num p F); lia). cbn. lia.
Qed.

Lemma start_0 : start_of p 0 = 0.
Proof. reflexivity. Qed.

Lemma start_all : start_of p (num_partitions p) = payload_size_ p.
Proof.
  unfold start_of. rewrite (fo_size p F), (fo_num p F). f_equal. apply firstn_all2. unfold zlen. lia.
Qed.

Lemma len_pos k : 0 <= k < num_partitions p -> 0 < len p k.
Proof.
  intros H. pose proof (fo_len p F) as L. rewrite Forall_forall in L. apply L. apply rd_in_bounds.
  rewrite <- (fo_num p F). exact H.
Qed.

Lemma start_mono_nat n : forall k, 0 <= k -> k + Z.of_nat n <= num_partitions p ->
  start_of p k + Z.of_nat n <= start_of p (k + Z.of_nat n).
Proof.
  induction n as [|n IH]; intros k Hk Hn; [cbn [Z.of_nat]; rewrite !Z.add_0_r; lia|].
  specialize (IH k Hk ltac:(lia)). replace (k + Z.of_nat (S n)) with (k + Z.of_nat n + 1) by lia.
  rewrite start_S by lia. pose proof (len_pos (k + Z.of_nat n) ltac:(lia)). lia.
Qed.
Lemma start_mono k l : 0 <= k <= l -> l <= num_partitions p -> start_of p k + (l - k) <= start_of p l.
Proof.
  intros H1 H2. pose proof (start_mono_nat (Z.to_nat (l - k)) k ltac:(lia) ltac:(lia)) as M.
  rewrite Z2Nat.id in M by lia. now replace (k + (l - k)) with l in M by lia.
Qed.

Lemma get_len k : 0 <= k < num_partitions p -> get (fragmentationLength (part_info_ p)) k = Ok (len p k).
Proof.
  intros H. rewrite (get_ok _ _ 0) by (rewrite <- (fo_num p F); lia). f_equal. unfold len, rd.
  now replace (k <? 0) with false by lia.
Qed.

(** ** Packets without regard to, or within, partitions *)

Lemma CalcNextSize_spec m r :
  0 <= m -> 0 <= r ->
  let n := CalcNextSize true m r true in
  0 <= n <= m /\ n <= r /\ (0 < m -> 0 < r -> 1 <= n).
Proof.
  intros Hm Hr. unfold CalcNextSize. destruct (Z.eqb_spec m 0), (Z.eqb_spec r 0); cbn [orb negb]; try lia.
  cbv zeta. set (k := r / m + 1). assert (Hk : 1 <= k /\ (k - 1) * m <= r < k * m) by (subst k; dlia || (pose proof (Z.div_mod r m ltac:(lia)); pose proof (Z.mod_pos_bound r m ltac:(lia)); pose proof (Z.div_pos r m ltac:(lia) ltac:(lia)); nia)).
  assert (H1 : 1 <= (2 * r + k) / (2 * k)) by (apply Z.div_le_lower_bound; nia).
  assert (H2 : (2 * r + k) / (2 * k) <= m) by (apply Z.lt_succ_r; apply Z.div_lt_upper_bound; nia).
  assert (H3 : (2 * r + k) / (2 * k) <= r) by (apply Z.lt_succ_r; apply Z.div_lt_upper_bound; nia).
  lia.
Qed.

Hypothesis Balanced : balance_ p = true.
Hypothesis Mode : aggr_mode_ p <> kAggrPartitions.

(** A packet that starts at [total] being filled. *)
Record filling (total : Z) (f : Filling) : Prop := {
  fi_rem : 0 <= rem_payload_len f;
  fi_bytes : 0 <= packet_bytes f;
  fi_room : packet_bytes f + rem_payload_len f = room p;
  fi_part : 0 <= part_ix f < num_partitions p;
  fi_split : split_payload f = true;
  fi_left : remaining_in_partition f = start_of p (part_ix f + 1) - (total + packet_bytes f);
  fi_range : 0 <= remaining_in_partition f <= len p (part_ix f)
}.

Lemma fill_packet_spec total b s fuel : forall f,
  filling total f -> rem_payload_len f <= Z.of_nat fuel ->
  exists f', fill_packet fuel p b s f = Ok f' /\ filling total f' /\
    packet_bytes f <= packet_bytes f' /\
    (0 < rem_payload_len f -> 0 < remaining_in_partition f -> packet_bytes f < packet_bytes f') /\
    (aggr_mode_ p = kAggrNone -> part_ix f' = part_ix f).
Proof.
  induction fuel as [|fuel IH]; intros f I Hf; pose proof I as [I1 I2 I3 I4 I5 I6 I7];
    pose proof (CalcNextSize_spec (rem_payload_len f) (remaining_in_partition f) I1 ltac:(lia)) as C;
    cbn [fill_packet]; rewrite Balanced, I5; cbv zeta in C; set (n := CalcNextSize _ _ _ _) in *;
    destruct C as (C1 & C2 & C3).
  - replace (n =? 0) with true by lia. exists f. repeat split; auto; lia.
  - destruct (Z.eqb_spec n 0) as [E|E]; [exists f; repeat split; auto; lia|].
    assert (Hl : len p (part_ix f) < 2 ^ 31).
    { pose proof (start_S (part_ix f) I4). pose proof (start_mono 0 (part_ix f) ltac:(lia) ltac:(lia)). rewrite start_0 in *.
      pose proof (start_mono (part_ix f + 1) (num_partitions p) ltac:(lia) ltac:(lia)). rewrite start_all in *.
      pose proof (fo_bound p F). lia. }
    assert (Hroom : room p < 2 ^ 31) by (unfold room; pose proof (fo_room p F); pose proof (overhead_pos p); lia).
    rewrite !u64_id by (unfold in_u64; lia).
    assert (Next : forall r q, r = remaining_in_partition f - n -> q = part_ix f ->
      filling total (mk_filling (packet_bytes f + n) (rem_payload_len f - n) r q true)).
    { intros r q -> ->. split; cbn [packet_bytes rem_payload_len remaining_in_partition part_ix split_payload]; auto; lia. }
    assert (Again : forall r q, filling total (mk_filling (packet_bytes f + n) (rem_payload_len f - n) r q true) ->
      (aggr_mode_ p = kAggrNone -> q = part_ix f) ->
      exists f', fill_packet fuel p b s (mk_filling (packet_bytes f + n) (rem_payload_len f - n) r q true) = Ok f' /\
        filling total f' /\ packet_bytes f <= packet_bytes f' /\
        (0 < rem_payload_len f -> 0 < remaining_in_partition f -> packet_bytes f < packet_bytes f') /\
        (aggr_mode_ p = kAggrNone -> part_ix f' = part_ix f)).
    { intros r q I' Hq. destruct (IH _ I' ltac:(cbn [rem_payload_len]; lia)) as (f' & E' & G & B & _ & Q).
      exists f'. cbn [packet_bytes part_ix] in *. split; [exact E'|]. split; [exact G|]. split; [lia|].
      split; [lia|]. intros A. rewrite Q, Hq by exact A. reflexivity. }
    destruct ((remaining_in_partition f - n =? 0) && negb (b && separate_first_ p)) eqn:Done.
    + apply andb_true_iff in Done. destruct Done as [Done _].
      destruct ((part_ix f + 1 <? num_partitions p) && aggregates p s) eqn:Agg; [|apply Again; auto].
      apply andb_true_iff in Agg. destruct Agg as [Hnext Agg]. rewrite get_len by lia. cbn [bind].
      assert (Fr : aggr_mode_ p = kAggrFragments) by (unfold aggregates in Agg; destruct (aggr_mode_ p); congruence).
      replace (match aggr_mode_ p with kAggrFragments => true | _ => false end) with true by now rewrite Fr.
      apply Again; [|intros; congruence].
      pose proof (len_pos (part_ix f + 1) ltac:(lia)). pose proof (start_S (part_ix f + 1) ltac:(lia)).
      split; cbn [packet_bytes rem_payload_len remaining_in_partition part_ix split_payload]; auto; lia.
    + cbn [andb]. destruct (Z.ltb_spec 0 (remaining_in_partition f - n)); [|apply Again; auto].
      eexists. split; [reflexivity|]. cbn [packet_bytes part_ix]. split; [now apply Next|]. repeat split; auto; lia.
Qed.

(** The position between two packets. *)
Definition between (total part : Z) (s : bool) : Prop :=
  total = payload_size_ p \/
  0 <= part < num_partitions p /\ start_of p part <= total < start_of p (part + 1) /\
  (s = true -> total = start_of p part) /\
  (aggr_mode_ p = kAggrNone -> total = start_of p part -> s = true).

(** A packet of one partition only, marked where it starts one. *)
Definition strict (i : InfoStruct) : Prop :=
  aggr_mode_ p = kAggrNone ->
  payload_start_pos i + size i <= start_of p (first_partition_ix i + 1) /\
  (payload_start_pos i = start_of p (first_partition_ix i) -> first_fragment i = true).

Lemma generate_loop_spec fuel : forall total part s b packets,
  between total part s -> 0 <= total <= payload_size_ p -> payload_size_ p - total <= Z.of_nat fuel ->
  exists infos, generate_loop fuel p total part s b packets = Ok (packets ++ infos) /\
    covers total (payload_size_ p) infos /\ Forall (placed p) infos /\ Forall strict infos.
Proof.
  pose proof (fo_room p F) as Hroom. pose proof (overhead_pos p) as [O1 _]. pose proof (fo_bound p F) as Hb.
  induction fuel as [|fuel IH]; intros total part s b packets B Ht Hf; cbn [generate_loop];
    destruct (Z.ltb_spec total (payload_size_ p)) as [Hlt|Hge]; try lia.
  - exists []. rewrite app_nil_r. cbn. repeat split; auto; lia.
  - destruct B as [->|(B1 & B2 & B3 & B4)]; [lia|].
    rewrite (fo_offset p F) by exact B1. cbn [bind]. rewrite get_len by exact B1. cbn [bind].
    pose proof (start_S part B1) as St. pose proof (start_mono (part + 1) (num_partitions p) ltac:(lia) ltac:(lia)) as Sp.
    rewrite start_all in Sp. rewrite !u64_id by (unfold in_u64; lia). fold (room p).
    set (f0 := mk_filling _ _ _ _ _).
    assert (I0 : filling total f0).
    { split; cbn [packet_bytes rem_payload_len remaining_in_partition part_ix split_payload f0]; auto; unfold room; try lia. }
    destruct (fill_packet_spec total b s (Z.to_nat (room p)) f0 I0) as (f & E & I & G1 & G2 & G3);
      [cbn [rem_payload_len f0]; unfold room; lia|].
    rewrite E. cbn [bind]. destruct I as [I1 I2 I3 I4 I5 I6 I7].
    specialize (G2 ltac:(cbn [rem_payload_len f0]; unfold room; lia) ltac:(cbn [remaining_in_partition f0]; lia)).
    cbn [packet_bytes part_ix f0] in G1, G2, G3.
    pose proof (start_S (part_ix f) I4) as Sf. pose proof (start_mono (part_ix f + 1) (num_partitions p) ltac:(lia) ltac:(lia)) as Sm.
    rewrite start_all in Sm.
    set (next := if remaining_in_partition f =? 0 then part_ix f + 1 else part_ix f).
    assert (B' : between (total + packet_bytes f) next (remaining_in_partition f =? 0)).
    { unfold between, next. destruct (Z.eqb_spec (remaining_in_partition f) 0) as [R|R].
      - destruct (Z.eq_dec (part_ix f + 1) (num_partitions p)) as [Q|Q].
        + left. rewrite <- start_all, <- Q. lia.
        + right. pose proof (start_S (part_ix f + 1) ltac:(lia)). pose proof (len_pos (part_ix f + 1) ltac:(lia)).
          repeat split; auto; lia.
      - right. repeat split; try lia; try discriminate. intros A Q. exfalso. rewrite (G3 A) in *. lia. }
    destruct (IH (total + packet_bytes f) next (remaining_in_partition f =? 0) false
      (packets ++ [mk_info total (packet_bytes f) s part]) B' ltac:(lia) ltac:(lia)) as (infos & E2 & Cv & Pl & Sr).
    exists (mk_info total (packet_bytes f) s part :: infos). rewrite E2, <- app_assoc.
    split; [reflexivity|]. split; [cbn; auto|]. split; constructor; auto.
    + split; cbn [size first_partition_ix payload_start_pos first_fragment]; auto; lia.
    + intros A. cbn [size first_partition_ix payload_start_pos first_fragment]. rewrite (G3 A) in *. split; [lia|auto].
  - exists []. rewrite app_nil_r. cbn. repeat split; auto; lia.
Qed.
End Frame.

(** The packets of a VP8 frame cover it: without aggregation of whole
    partitions, for every frame of non-empty partitions and every maximal
    payload length with room for a byte, [GeneratePackets] ends and queues
    packets that follow each other from the first byte of the frame to the
    last; each holds at least a byte, fits next to the descriptor, names the
    partition of its first byte, and is marked as the start of a partition only
    where it is one.  In the strict mode no packet crosses a partition and every
    start of a partition is marked. *)
Theorem GeneratePackets_covers p :
  frame_ok p -> balance_ p = true -> aggr_mode_ p <> kAggrPartitions ->
  exists infos,
    GeneratePackets p = Ok (set_packets p (packets_ p ++ infos) true, 0) /\
    covers 0 (payload_size_ p) infos /\ Forall (placed p) infos /\
    (aggr_mode_ p = kAggrNone -> Forall (fun i =>
       payload_start_pos i + size i <= start_of p (first_partition_ix i + 1) /\
       (payload_start_pos i = start_of p (first_partition_ix i) -> first_fragment i = true)) infos).
Proof.
  intros F B M. unfold GeneratePackets. pose proof (fo_room p F). replace (max_payload_len_ p <? overhead p + 1) with false by lia.
  assert (Hn : 0 <= num_partitions p) by (rewrite (fo_num p F); apply zlen_nonneg).
  assert (Hs : 0 <= payload_size_ p) by (rewrite (fo_size p F); apply sumz_nonneg; apply F).
  destruct (generate_loop_spec p F B M (Z.to_nat (payload_size_ p + num_partitions p)) 0 0 true true (packets_ p))
    as (infos & E & C & P & S).
  - destruct (Z.eq_dec (num_partitions p) 0) as [Z0|Z0].
    + left. rewrite <- (start_all p F), Z0. reflexivity.
    + right. pose proof (start_S p F 0 ltac:(lia)) as S0. pose proof (len_pos p F 0 ltac:(lia)). rewrite start_0 in *.
      repeat split; auto; lia.
  - lia.
  - lia.
  - exists infos. rewrite E. cbn [bind]. repeat split; auto. intros A. eapply Forall_impl; [|exact S]. intros i Hi. exact (Hi A).
Qed.

(** ** Whole partitions *)

(** The rest of a list from an index on. *)
Definition from {A} (l : list A) (q : Z) (t : list A) : Prop := 0 <= q /\ skipn (Z.to_nat q) l = t /\ q <= zlen l.

Lemma from_cons {A} (l : list A) q x t : from l q (x :: t) -> get l q = Ok x /\ q < zlen l /\ from l (q + 1) t.
Proof.
  intros (H1 & H2 & H3). assert (L : q < zlen l).
  { destruct (Z.eq_dec q (zlen l)) as [->|]; [|lia]. rewrite skipn_all2 in H2 by (unfold zlen; lia). discriminate. }
  split; [|split; [exact L|]].
  - unfold get. replace (q <? 0) with false by lia.
    rewrite <- (firstn_skipn (Z.to_nat q) l), H2, nth_error_app2 by (rewrite length_firstn; lia).
    rewrite length_firstn. unfold zlen in L. now replace (Z.to_nat q - _)%nat with 0%nat by lia.
  - split; [lia|]. split; [|lia]. replace (Z.to_nat (q + 1)) with (1 + Z.to_nat q)%nat by lia.
    now rewrite <- skipn_skipn, H2.
Qed.

Lemma from_nil {A} (l : list A) q : from l q [] -> q = zlen l.
Proof.
  intros (H1 & H2 & H3). pose proof (length_skipn (Z.to_nat q) l) as L. rewrite H2 in L. cbn in L. unfold zlen in *. lia.
Qed.

Lemma from_app {A} (l : list A) q a t : from l q (a ++ t) -> from l (q + zlen a) t.
Proof.
  revert q. induction a as [|x a IH]; intros q H; [rewrite zlen_nil, Z.add_0_r; exact H|].
  rewrite zlen_cons. replace (q + (1 + zlen a)) with (q + 1 + zlen a) by lia. apply IH. now apply (from_cons l q x).
Qed.

(** A decision for each partition: -1 for a large one; for a run of small ones
    the numbers of a way to form packets that fits. *)
Definition head_large (ds : list Z) : Prop := match ds with [] => True | d :: _ => d = -1 end.
Inductive decided (M : Z) : list Z -> list Z -> Prop :=
| decided_nil : decided M [] []
| decided_large l ls ds : M <= l -> decided M ls ds -> decided M (l :: ls) (-1 :: ds)
| decided_small s rest bs base ls ds :
    fits M s rest bs -> Forall (fun x => x < M) (s :: rest) -> 0 <= base -> head_large ds ->
    decided M ls ds -> decided M ((s :: rest) ++ ls) (map (Z.add base) (numbers 0 bs) ++ ds).

Lemma decided_head M ls ds :
  decided M ls ds -> match ls with [] => True | l :: _ => M <= l end -> head_large ds.
Proof.
  intros D H. destruct D; cbn in *; auto. inversion H1; subst. lia.
Qed.

Lemma numbers_nonneg bs : forall k, 0 <= k -> Forall (fun x => 0 <= x) (numbers k bs).
Proof. induction bs as [|b bs IH]; intros k H; cbn; constructor; auto. apply IH. destruct b; lia. Qed.

Lemma zlen_numbers bs : forall k, zlen (numbers k bs) = 1 + zlen bs.
Proof. induction bs as [|b bs IH]; intros k; cbn [numbers]; rewrite !zlen_cons; [reflexivity|]. rewrite IH. lia. Qed.

Lemma sums_pos sizes : forall cur ds, 0 < cur -> Forall (fun x => 0 < x) sizes -> Forall (fun x => 0 < x) (sums cur sizes ds).
Proof.
  induction sizes as [|s sizes IH]; intros cur ds Hc Hs; cbn [sums]; [auto|]. inversion Hs; subst.
  destruct ds as [|[] ds]; auto. apply IH; auto; lia.
Qed.

Lemma min_of_pos l : forall m, 0 < m -> Forall (fun x => 0 < x) l -> 0 < min_of m l.
Proof. unfold min_of. induction l as [|x l IH]; intros m Hm H; cbn; [exact Hm|]. inversion H; subst. apply IH; auto; lia. Qed.

(** The sizes kept for the next set, or none yet. *)
Definition prior (M mn mx : Z) : Prop := mn = -1 /\ mx = -1 \/ 0 < mn <= mx /\ mx <= M.

Section Aggregates.
Variable p : RtpPacketizerVp8.
Hypothesis F : frame_ok p.
Hypothesis Cost_fits : room p + overhead p * num_partitions p <= INT_MAX.

#[local] Notation lengths := (fragmentationLength (part_info_ p)).
#[local] Notation M := (room p).

Lemma room_pos : 1 <= M /\ M < 2 ^ 31 /\ 1 <= overhead p.
Proof. pose proof (fo_room p F). pose proof (overhead_pos p). unfold room. lia. Qed.

Lemma last_small_spec fuel : forall q l ls,
  from lengths q (l :: ls) -> zlen ls <= Z.of_nat fuel ->
  exists small ls', ls = small ++ ls' /\ last_small fuel p M q = Ok (q + zlen small) /\
    Forall (fun x => x < M) small /\ match ls' with [] => True | x :: _ => M <= x end.
Proof.
  induction fuel as [|fuel IH]; intros q l ls H Hf; destruct (from_cons _ _ _ _ H) as (G & L & H');
    pose proof (zlen_nonneg ls); cbn [last_small]; rewrite (fo_num p F).
  - destruct ls as [|x ls]; [|rewrite zlen_cons in Hf; pose proof (zlen_nonneg ls); lia].
    exists [], []. rewrite zlen_nil, Z.add_0_r. apply from_nil in H'. replace (q + 1 <? zlen lengths) with false by lia. auto.
  - destruct ls as [|x ls].
    { exists [], []. rewrite zlen_nil, Z.add_0_r. apply from_nil in H'. replace (q + 1 <? zlen lengths) with false by lia. auto. }
    destruct (from_cons _ _ _ _ H') as (G' & L' & _). replace (q + 1 <? zlen lengths) with true by lia.
    rewrite G'. cbn [bind]. rewrite zlen_cons in Hf. destruct (Z.ltb_spec x M) as [Hx|Hx].
    + destruct (IH (q + 1) x ls H' ltac:(lia)) as (small & ls' & -> & E & S & T).
      exists (x :: small), ls'. rewrite zlen_cons, E. split; [reflexivity|]. split; [f_equal; lia|]. split; [now constructor|exact T].
    + exists [], (x :: ls). rewrite zlen_nil, Z.add_0_r. auto.
Qed.

Lemma transfer_spec config : forall pre n base,
  (length config <= n)%nat ->
  transfer config (pre ++ repeat (-1) n) (zlen pre) base =
    Ok ((pre ++ map (Z.add base) config) ++ repeat (-1) (n - length config)).
Proof.
  induction config as [|c config IH]; intros pre n base H; cbn [transfer map length].
  - now rewrite app_nil_r, Nat.sub_0_r.
  - cbn in H. destruct n as [|n]; [lia|]. cbn [repeat].
    rewrite put_ok by (rewrite zlen_app, zlen_cons; pose proof (zlen_nonneg pre); pose proof (zlen_nonneg (repeat (-1) n)); lia).
    cbn [bind]. unfold zlen at 1. rewrite Nat2Z.id, upd_mid.
    replace (pre ++ base + c :: repeat (-1) n) with ((pre ++ [base + c]) ++ repeat (-1) n) by now rewrite <- app_assoc.
    replace (zlen pre + 1) with (zlen (pre ++ [base + c])) by (rewrite zlen_app; reflexivity).
    rewrite IH by lia. rewrite <- !app_assoc. reflexivity.
Qed.

Lemma aggregate_loop_spec fuel : forall q ls base mn mx pre,
  from lengths q ls -> zlen ls <= Z.of_nat fuel -> zlen pre = q -> 0 <= base -> prior M mn mx ->
  exists ds mn' mx', aggregate_loop fuel p M q base mn mx (pre ++ repeat (-1) (length ls)) =
      Ok (pre ++ ds, mn', mx') /\
    decided M ls ds /\ prior M mn' mx'.
Proof.
  destruct room_pos as (M1 & M2 & O1).
  induction fuel as [|fuel IH]; intros q ls base mn mx pre H Hf Hq Hb Hp; destruct ls as [|l ls];
    cbn [aggregate_loop]; rewrite (fo_num p F).
  - apply from_nil in H. replace (q <? zlen lengths) with false by lia. exists [], mn, mx. auto using decided_nil.
  - rewrite zlen_cons in Hf. pose proof (zlen_nonneg ls). lia.
  - apply from_nil in H. replace (q <? zlen lengths) with false by lia. exists [], mn, mx. auto using decided_nil.
  - destruct (from_cons _ _ _ _ H) as (G & L & H'). replace (q <? zlen lengths) with true by lia.
    rewrite G. cbn [bind]. rewrite zlen_cons in Hf. destruct (Z.ltb_spec l M) as [Hl|Hl].
    2:{ cbn [length repeat]. replace (pre ++ -1 :: repeat (-1) (length ls)) with ((pre ++ [-1]) ++ repeat (-1) (length ls))
          by now rewrite <- app_assoc.
        destruct (IH (q + 1) ls base mn mx (pre ++ [-1]) H' ltac:(lia)) as (ds & mn' & mx' & E & D & P);
          [rewrite zlen_app; change (zlen [-1]) with 1; lia|assumption|assumption|].
        exists (-1 :: ds), mn', mx'. rewrite E, <- app_assoc. split; [reflexivity|]. split; [now constructor|exact P]. }
    rewrite <- (fo_num p F). destruct (last_small_spec (Z.to_nat (num_partitions p)) q l ls H) as (small & ls' & -> & E1 & S & T).
    { destruct H as (Q1 & _ & Q2). destruct H' as (_ & Sk & _). rewrite (fo_num p F). rewrite <- Sk.
      rewrite zlen_skipn by lia. lia. }
    rewrite E1. cbn [bind].
    change (l :: small ++ ls') with ((l :: small) ++ ls') in *. pose proof (from_app _ _ _ _ H) as H2.
    rewrite zlen_cons in H2. rewrite zlen_app in Hf. pose proof (zlen_nonneg small) as Zs. pose proof (zlen_nonneg ls') as Zl.
    assert (Hall : Forall (fun x => x < M) (l :: small)) by now constructor.
    assert (Hpos : Forall (fun x => 0 < x) (l :: small)).
    { pose proof (fo_len p F) as Q. rewrite <- (firstn_skipn (Z.to_nat q) lengths) in Q. apply Forall_app in Q. destruct Q as [_ Q].
      destruct H as (_ & Sk & _). rewrite Sk in Q. apply Forall_app in Q. apply Q. }
    assert (Hsl : slice lengths q (q + zlen small - q + 1) = l :: small).
    { unfold slice. destruct H as (_ & -> & _). replace (Z.to_nat (q + zlen small - q + 1)) with (length (l :: small)) by (unfold zlen; cbn [length]; lia).
      rewrite firstn_app, Nat.sub_diag. cbn [firstn]. rewrite app_nil_r. apply firstn_all. }
    destruct H2 as (H21 & H22 & H23). assert (Q0 : 0 <= q) by apply H. assert (Hnum : num_partitions p = zlen lengths) by apply (fo_num p F).
    destruct (aggregate_spec (part_info_ p) q (q + zlen small) mn mx M (overhead p) l small) as (a & bs & A1 & A2 & A3 & _ & A5);
      try assumption; try lia.
    { rewrite Forall_forall in *. intros x Hx. specialize (Hall x Hx). specialize (Hpos x Hx). lia. }
    { destruct Hp as [Hp|Hp]; [left; lia|right; lia]. }
    { unfold INT_MAX in *. nia. }
    rewrite A1. cbn [bind]. rewrite A2. cbn [bind]. rewrite A5. cbn [bind].
    pose proof (fits_length _ _ _ _ A3) as Lb.
    assert (Ln : length (numbers 0 bs) = length (l :: small)).
    { pose proof (zlen_numbers bs 0) as Q. unfold zlen in Q. cbn [length]. lia. }
    rewrite firstn_all2 by (rewrite Ln; unfold zlen; cbn [length]; lia). rewrite <- Hq.
    rewrite transfer_spec by (rewrite Ln, length_app; lia). cbn [bind]. rewrite Ln, length_app.
    replace (length (l :: small) + length ls' - length (l :: small))%nat with (length ls') by lia.
    pose proof (Forall_inv Hpos) as Pl. pose proof (Forall_inv_tail Hpos) as Ps. cbn beta in Pl.
    pose proof (sums_pos small l bs Pl Ps) as Pp.
    set (mn1 := min_of (from_min mn) (sums l small bs)). set (mx1 := max_of (from_max mx) (sums l small bs)).
    assert (P1 : prior M mn1 mx1).
    { right. pose proof (zlen_sums small l bs) as Zn. destruct (sums l small bs) as [|x r] eqn:Es; [rewrite zlen_nil in Zn; lia|].
      assert (Bx : Forall (fun y => 0 <= y <= M) (x :: r)).
      { rewrite <- Es. apply (fits_sums M); [exact A3|inversion Hall; subst; lia|].
        rewrite Forall_forall in *. intros y Hy. specialize (Hall y (or_intror Hy)). specialize (Ps y Hy). lia. }
      assert (mn1 <= x) by (apply min_of_le; right; now left). assert (x <= mx1) by (apply max_of_ge; right; now left).
      assert (0 < mn1) by (apply min_of_pos; [unfold from_min, INT_MAX; destruct Hp as [[-> _]|Hp]; [cbn; lia|]; case_if; lia|exact Pp]).
      assert (mx1 <= M).
      { apply max_of_bound; [eapply Forall_impl; [|exact Bx]; cbn; lia|]. unfold from_max. destruct Hp as [[_ ->]|Hp]; [cbn; lia|]. case_if; lia. }
      lia. }
    assert (Hlast : 0 <= last (numbers 0 bs) 0).
    { pose proof (numbers_nonneg bs 0 ltac:(lia)) as N. destruct (@exists_last _ (numbers 0 bs)) as (u & v & Ev); [intros Q; rewrite Q in Ln; discriminate|].
      rewrite Ev, last_last in *. apply Forall_app in N. destruct N as [_ N]. now inversion N. }
    destruct (IH (zlen pre + zlen small + 1) ls' (base + last (numbers 0 bs) 0 + 1) mn1 mx1
      (pre ++ map (Z.add base) (numbers 0 bs))) as (ds & mn' & mx' & E & D & P).
    + rewrite Hq. replace (q + zlen small + 1) with (q + (1 + zlen small)) by lia. repeat split; auto; lia.
    + lia.
    + rewrite zlen_app, zlen_map, zlen_numbers. unfold zlen in *. cbn [length] in *. lia.
    + lia.
    + exact P1.
    + exists (map (Z.add base) (numbers 0 bs) ++ ds), mn', mx'. rewrite E, <- app_assoc. split; [reflexivity|].
      split; [|exact P]. apply decided_small; auto. exact (decided_head _ _ _ D T).
Qed.

(** *** The packets *)

Lemma start_from q l ls : from lengths q (l :: ls) ->
  0 <= q < num_partitions p /\ start_of p (q + 1) = start_of p q + l /\ 0 < l.
Proof.
  intros H. destruct (from_cons _ _ _ _ H) as (G & L & _). assert (Q : 0 <= q < num_partitions p) by (rewrite (fo_num p F); split; [apply H|exact L]).
  rewrite (start_S p F q Q). pose proof (len_pos p F q Q) as P. rewrite (get_len p F q Q) in G. injection G as <-. auto.
Qed.

Lemma split_partition_spec part l fs n : forall R total first mn mx packets,
  0 <= part < num_partitions p -> start_of p (part + 1) = start_of p part + l ->
  1 <= fs <= M -> (Z.of_nat n - 1) * fs < R <= Z.of_nat n * fs -> 0 < R ->
  start_of p part <= total -> total + R = start_of p part + l ->
  (first = true -> total = start_of p part) -> sizes_ok M mn mx ->
  exists infos mn' mx',
    split_partition n fs R total part first mn mx packets = (packets ++ infos, total + R, mn', mx') /\
    covers total (total + R) infos /\ Forall (placed p) infos /\ sizes_ok M mn' mx'.
Proof.
  destruct room_pos as (M1 & M2 & O1).
  induction n as [|n IH]; intros R total first mn mx packets Hq Hl Hfs Hn HR Ht Hend Hfirst Hs; [lia|].
  cbn [split_partition]. set (t := if fs <? R then fs else R).
  assert (Ht1 : 1 <= t <= R /\ t <= M /\ (R - t = 0 \/ 0 < R - t /\ t = fs)) by (subst t; destruct (Z.ltb_spec fs R); lia).
  rewrite s32_id by (unfold in_s32; lia).
  set (mn1 := if t <? mn then t else mn). set (mx1 := if mx <? t then t else mx).
  assert (Hs1 : sizes_ok M mn1 mx1).
  { subst mn1 mx1. destruct Hs as [->|Hs]; [left; now replace (t <? -1) with false by lia|right]. repeat case_if; lia. }
  assert (Pl : placed p (mk_info total t first part)).
  { split; cbn [size first_partition_ix payload_start_pos first_fragment]; auto; lia. }
  destruct Ht1 as (T1 & T2 & [T3|[T3 T4]]).
  - assert (N0 : n = O) by (destruct n; [reflexivity|exfalso; subst t; destruct (Z.ltb_spec fs R); nia]). subst n.
    exists [mk_info total t first part], mn1, mx1. cbn [split_partition]. replace (total + t) with (total + R) by lia.
    split; [reflexivity|]. split; [cbn; split; [reflexivity|lia]|]. split; [auto|exact Hs1].
  - destruct (IH (R - t) (total + t) false mn1 mx1 (packets ++ [mk_info total t first part])) as (infos & mn' & mx' & E & C & P & S);
      try assumption; try lia; try nia; try discriminate.
    exists (mk_info total t first part :: infos), mn', mx'. rewrite E, <- app_assoc.
    replace (total + t + (R - t)) with (total + R) in * by lia. split; [reflexivity|]. split; [cbn; auto|]. auto.
Qed.

(** One packet of whole partitions: up to the next start or the end of the set. *)
Lemma collect_spec decision base k ds ls : head_large ds -> 0 <= base -> 0 <= k ->
  forall sizes cur bs q bytes fuel,
  length bs = length sizes -> from decision q (map (Z.add base) (numbers k bs) ++ ds) ->
  from lengths q ((cur :: sizes) ++ ls) -> (length (numbers k bs) <= fuel)%nat ->
  exists t q', collect fuel p decision (base + k) q bytes = Ok (t, q') /\ q < q' /\
    start_of p q' = start_of p q + (t - bytes) /\
    ((sums (bytes + cur) sizes bs = [t] /\ from decision q' ds /\ from lengths q' ls) \/
     exists s' sizes' bs', sums (bytes + cur) sizes bs = t :: sums s' sizes' bs' /\
       length bs' = length sizes' /\ (length bs' < length bs)%nat /\
       (forall m, fits m (bytes + cur) sizes bs -> fits m s' sizes' bs') /\
       (forall P : Z -> Prop, Forall P sizes -> Forall P (s' :: sizes')) /\
       from decision q' (map (Z.add base) (numbers (k + 1) bs') ++ ds) /\
       from lengths q' ((s' :: sizes') ++ ls)).
Proof.
  intros Hd Hb Hk. induction sizes as [|s sizes IH]; intros cur bs q bytes fuel L D H Hf;
    destruct bs as [|b bs]; try discriminate; destruct fuel as [|fuel]; cbn [numbers length] in Hf; try lia;
    cbn [numbers map app] in D; destruct (from_cons _ _ _ _ D) as (Gd & Ld & D');
    destruct (from_cons _ _ _ _ H) as (Gl & _ & H'); destruct (start_from _ _ _ H) as (_ & St & _);
    cbn [collect]; replace (q <? zlen decision) with true by lia; rewrite Gd; cbn [bind]; rewrite Z.eqb_refl, Gl;
    cbn [bind].
  - assert (Stop : collect fuel p decision (base + k) (q + 1) (bytes + cur) = Ok (bytes + cur, q + 1)).
    { destruct fuel; cbn [collect]; (destruct (Z.ltb_spec (q + 1) (zlen decision)); [|reflexivity]);
        (destruct ds as [|d ds]; [apply from_nil in D'; lia|]); destruct (from_cons _ _ _ _ D') as (-> & _ & _);
        cbn [bind]; cbn in Hd; subst d; now replace (-1 =? base + k) with false by lia. }
    rewrite Stop. exists (bytes + cur), (q + 1). split; [reflexivity|]. split; [lia|]. split; [lia|]. left. auto.
  - injection L as L. destruct b.
    + assert (Stop : collect fuel p decision (base + k) (q + 1) (bytes + cur) = Ok (bytes + cur, q + 1)).
      { assert (Hn : exists r, numbers (k + 1) bs = (k + 1) :: r) by (destruct bs; cbn; eauto). destruct Hn as [r Hn].
        rewrite Hn in D'. cbn [map app] in D'. destruct (from_cons _ _ _ _ D') as (G2 & L2 & _).
        destruct fuel; cbn [collect]; replace (q + 1 <? zlen decision) with true by lia; rewrite G2; cbn [bind];
          now replace (base + (k + 1) =? base + k) with false by lia. }
      rewrite Stop. exists (bytes + cur), (q + 1). split; [reflexivity|]. split; [lia|]. split; [lia|]. right.
      exists s, sizes, bs. cbn [sums length fits]. do 3 (split; [auto with arith|]).
      split; [intros m Hm; apply Hm|]. auto.
    + destruct (IH s bs (q + 1) (bytes + cur) fuel L D' H' ltac:(lia)) as (t & q' & E & Hq & Hst & R).
      exists t, q'. split; [exact E|]. split; [lia|]. split; [lia|]. cbn [sums length].
      destruct R as [R|(s' & sizes' & bs' & R1 & R2 & R3 & R4 & R5 & R6)]; [left; exact R|right].
      exists s', sizes', bs'. split; [exact R1|]. split; [exact R2|]. split; [lia|]. cbn [fits].
      split; [intros m Hm; apply R4; apply Hm|]. split; [|exact R6].
      intros P HP. apply R5. now apply Forall_inv_tail in HP.
Qed.

(** The packets from a position on. *)
Definition covered_from (fuel : nat) (decision : list Z) (q mn mx : Z) : Prop :=
  forall packets, exists infos,
    balanced_loop fuel p decision M q (start_of p q) mn mx packets = Ok (packets ++ infos) /\
    covers (start_of p q) (payload_size_ p) infos /\ Forall (placed p) infos.

Lemma set_covered decision base ds ls mn mx : head_large ds -> 0 <= base ->
  num_partitions p = zlen decision ->
  (forall fuel q, from decision q ds -> from lengths q ls -> (length ds <= fuel)%nat -> covered_from fuel decision q mn mx) ->
  forall n bs k q cur sizes fuel, (length bs < n)%nat -> 0 <= k ->
    fits M cur sizes bs -> Forall (fun x => 0 < x <= M) (cur :: sizes) ->
    from decision q (map (Z.add base) (numbers k bs) ++ ds) -> from lengths q ((cur :: sizes) ++ ls) ->
    (length (map (Z.add base) (numbers k bs) ++ ds) <= fuel)%nat -> covered_from fuel decision q mn mx.
Proof.
  intros Hd Hb Hnum Rest. induction n as [|n IH]; intros bs k q cur sizes fuel Hn Hk Fi Hs D H Hf packets; [lia|].
  pose proof (fits_length _ _ _ _ Fi) as L.
  assert (Hnb : exists r, numbers k bs = k :: r) by (destruct bs; cbn; eauto). destruct Hnb as [r Hnb].
  rewrite Hnb in Hf. cbn [map app length] in Hf. destruct fuel as [|fuel]; [lia|].
  pose proof D as D0. rewrite Hnb in D0. cbn [map app] in D0. destruct (from_cons _ _ _ _ D0) as (Gd & Ld & _).
  cbn [balanced_loop]. replace (q <? num_partitions p) with true by lia. rewrite Gd. cbn [bind].
  replace (base + k =? -1) with false by lia.
  assert (Hfu : (length (numbers k bs) <= length decision)%nat).
  { destruct D as (_ & Sk & _). pose proof (length_skipn (Z.to_nat q) decision) as Q. rewrite Sk, length_app, length_map in Q. lia. }
  destruct (collect_spec decision base k ds ls Hd Hb Hk sizes cur bs q 0 (length decision) L D H Hfu) as (t & q' & E & Hq & Hst & R).
  rewrite E. cbn [bind]. rewrite Z.add_0_l, Z.sub_0_r in *. destruct (start_from _ _ _ H) as (Q1 & Q2 & Q3).
  assert (Hle : q + 1 <= q' <= num_partitions p).
  { split; [lia|]. rewrite (fo_num p F). destruct R as [(_ & _ & R)|(s' & sz & bs' & _ & _ & _ & _ & _ & _ & R)]; apply R. }
  assert (Sm : Forall (fun x => 0 <= x <= M) (sums cur sizes bs)).
  { apply (fits_sums M); [exact Fi| |].
    - pose proof (Forall_inv Hs) as Hc. cbn in Hc. lia.
    - eapply Forall_impl; [|exact (Forall_inv_tail Hs)]. cbn. lia. }
  assert (St : start_of p (q + 1) + (q' - (q + 1)) <= start_of p q') by (apply (start_mono p F); lia).
  assert (Ht : 1 <= t <= M).
  { destruct R as [(R & _)|(s' & sz & bs' & R & _)]; rewrite R in Sm; inversion Sm; subst; lia. }
  assert (Pl : placed p (mk_info (start_of p q) t true q)).
  { split; cbn [size first_partition_ix payload_start_pos first_fragment]; auto; lia. }
  assert (C : covered_from fuel decision q' mn mx).
  { destruct R as [(_ & R1 & R2)|(s' & sizes' & bs' & R1 & R2 & R3 & R4 & R5 & R6 & R7)].
    - apply Rest; auto. rewrite length_app, length_map in Hf. lia.
    - apply (IH bs' (k + 1) q' s' sizes' fuel); auto; try lia.
      + apply R5. exact (Forall_inv_tail Hs).
      + rewrite length_app, length_map. rewrite length_app, length_map in Hf.
        pose proof (zlen_numbers bs k) as Z1. pose proof (zlen_numbers bs' (k + 1)) as Z2. rewrite Hnb in Z1. unfold zlen in *.
        cbn [length] in Z1. lia. }
  destruct (C (packets ++ [mk_info (start_of p q) t true q])) as (infos & E2 & Cv & P).
  exists (mk_info (start_of p q) t true q :: infos). rewrite <- Hst, E2, <- app_assoc. split; [reflexivity|].
  split; [cbn; rewrite <- Hst; auto|auto].
Qed.
Lemma decided_covered decision ls ds : decided M ls ds -> num_partitions p = zlen decision ->
  forall fuel q mn mx, from decision q ds -> from lengths q ls -> (length ds <= fuel)%nat -> sizes_ok M mn mx ->
  covered_from fuel decision q mn mx.
Proof.
  destruct room_pos as (M1 & M2 & O1). intros D Hnum.
  induction D as [|l ls ds Hl D IH|s rest bs base ls ds Fi Hs Hb Hd D IH]; intros fuel q mn mx Dq Lq Hf S packets.
  - apply from_nil in Dq. exists []. rewrite app_nil_r. cbn [covers]. rewrite Dq, <- Hnum, (start_all p F).
    destruct fuel; cbn [balanced_loop]; replace (num_partitions p <? num_partitions p) with false by lia; auto.
  - cbn [length] in Hf. destruct fuel as [|fuel]; [lia|]. destruct (from_cons _ _ _ _ Dq) as (Gd & Ld & Dq').
    destruct (from_cons _ _ _ _ Lq) as (Gl & Ll & Lq'). destruct (start_from _ _ _ Lq) as (Q & St & Hpos).
    assert (Bl : l < 2 ^ 31).
    { pose proof (start_mono p F 0 q ltac:(lia) ltac:(lia)) as S1. rewrite start_0 in S1.
      pose proof (start_mono p F (q + 1) (num_partitions p) ltac:(lia) ltac:(lia)) as S2. rewrite (start_all p F) in S2.
      pose proof (fo_bound p F). lia. }
    cbn [balanced_loop]. replace (q <? num_partitions p) with true by lia. rewrite Gd. cbn [bind].
    change (-1 =? -1) with true. rewrite Gl. cbn [bind].
    destruct (CalcNumberOfFragments_spec l M (overhead p) mn mx) as (n & En & N1 & N2 & N3 & _); unfold INT_MAX; try assumption; try lia.
    { pose proof (fo_room p F). lia. }
    rewrite En. cbn [bind]. replace (n =? 0) with false by lia. fold (frag_size l n).
    destruct (split_partition_spec q l (frag_size l n) (Z.to_nat n) l (start_of p q) true mn mx packets)
      as (infos & mn' & mx' & Es & Cv & Pl & S'); try assumption; try lia; rewrite ?Z2Nat.id by lia; try lia.
    rewrite Es. rewrite <- St.
    destruct (IH fuel (q + 1) mn' mx' Dq' Lq' ltac:(lia) S' (packets ++ infos)) as (infos2 & E2 & Cv2 & Pl2).
    exists (infos ++ infos2). rewrite E2, <- app_assoc. split; [reflexivity|].
    split; [apply (covers_app _ _ _ (start_of p (q + 1))); [now rewrite St|exact Cv2]|now apply Forall_app].
  - assert (Hall : Forall (fun x => 0 < x <= M) (s :: rest)).
    { pose proof (fo_len p F) as Q. rewrite <- (firstn_skipn (Z.to_nat q) lengths) in Q. apply Forall_app in Q. destruct Q as [_ Q].
      destruct Lq as (_ & Sk & _). rewrite Sk in Q. apply Forall_app in Q. destruct Q as [Q _].
      rewrite Forall_forall in *. intros x Hx. specialize (Hs x Hx). specialize (Q x Hx). lia. }
    apply (set_covered decision base ds ls mn mx Hd Hb Hnum) with (n := (1 + length bs)%nat) (bs := bs) (k := 0) (cur := s) (sizes := rest);
      auto; lia.
Qed.
End Aggregates.

(** C35. The packets cover the frame also where whole partitions are aggregated: for
    every frame of non-empty partitions, with costs that fit an [int],
    [GeneratePacketsBalancedAggregates] ends, none of its divisions is by zero
    and no access is outside an array, and it queues packets that follow each
    other from the first byte of the frame to the last; each holds at least a
    byte, fits next to the descriptor, and names the partition of its first
    byte, which it starts where it says so. *)
Theorem BalancedAggregates_covers p :
  frame_ok p -> room p + overhead p * num_partitions p <= INT_MAX ->
  exists infos,
    GeneratePacketsBalancedAggregates p = Ok (set_packets p (packets_ p ++ infos) true, 0) /\
    covers 0 (payload_size_ p) infos /\ Forall (placed p) infos.
Proof.
  intros F C. destruct (room_pos p F) as (M1 & M2 & O1). unfold GeneratePacketsBalancedAggregates, AggregateSmallPartitions.
  pose proof (fo_room p F) as R. replace (max_payload_len_ p <? overhead p + 1) with false by lia. fold (room p).
  set (ls := fragmentationLength (part_info_ p)).
  assert (Hn : Z.to_nat (num_partitions p) = length ls) by (rewrite (fo_num p F); unfold zlen, ls; lia).
  assert (L0 : from ls 0 ls) by (repeat split; try lia; apply zlen_nonneg).
  destruct (aggregate_loop_spec p F C (Z.to_nat (num_partitions p)) 0 ls 0 (-1) (-1) [] L0) as (ds & mn & mx & E & D & P);
    try lia; [unfold zlen; lia|reflexivity|left; lia|].
  rewrite Hn in *. cbn [app] in E. rewrite E. cbn [bind].
  assert (Ld : length ds = length ls).
  { clear - D. induction D; cbn [length]; [reflexivity|lia|]. rewrite !length_app, length_map.
    pose proof (zlen_numbers bs 0) as Q. pose proof (fits_length _ _ _ _ H). unfold zlen in Q. cbn [length]. lia. }
  assert (S : sizes_ok (room p) mn mx) by (destruct P as [[P _]|P]; [now left|right; lia]).
  assert (D0 : from ds 0 ds) by (repeat split; try lia; apply zlen_nonneg).
  destruct (decided_covered p F ds ls ds D ltac:(rewrite (fo_num p F); unfold zlen, ls in *; lia) (length ls) 0 mn mx D0 L0
    ltac:(lia) S (packets_ p)) as (infos & E2 & Cv & Pl).
  rewrite start_0 in *. rewrite E2. cbn [bind]. exists infos. auto.
Qed.
(** ** Examples *)

(** Three partitions of 3, 1 and 5 bytes, with room for 4 bytes a packet. *)
Definition example_frame (mode : VP8PacketizerMode) : RtpPacketizerVp8 :=
  mk_packetizer [1; 2; 3; 4; 5; 6; 7; 8; 9] 9 (mk_frag 3 [0; 3; 4] [3; 1; 5]) (aggr_modes_ mode)
    (balance_modes_ mode) (separate_first_modes_ mode) InitRTPVideoHeaderVP8 3 5 [] false.

Lemma example_frame_set mode :
  SetPayloadData (new_RtpPacketizerVp8 InitRTPVideoHeaderVP8 5 mode) [1; 2; 3; 4; 5; 6; 7; 8; 9] 9
    (Some (mk_frag 3 [0; 3; 4] [3; 1; 5])) = Ok (example_frame mode).
Proof. reflexivity. Qed.

Lemma example_frame_ok mode : frame_ok (example_frame mode).
Proof.
  split; try reflexivity; try (split; reflexivity || (vm_compute; discriminate)).
  - repeat constructor; lia.
  - change (num_partitions (example_frame mode)) with 3. intros k Hk.
    assert (Hc : k = 0 \/ k = 1 \/ k = 2) by lia. destruct Hc as [->|[->| ->]]; reflexivity.
Qed.

Lemma GeneratePackets_covers_witness :
  exists infos,
    GeneratePackets (example_frame kStrict) = Ok (set_packets (example_frame kStrict) ([] ++ infos) true, 0) /\
    covers 0 9 infos /\ Forall (placed (example_frame kStrict)) infos /\
    (kAggrNone = kAggrNone -> Forall (fun i =>
       payload_start_pos i + size i <= start_of (example_frame kStrict) (first_partition_ix i + 1) /\
       (payload_start_pos i = start_of (example_frame kStrict) (first_partition_ix i) -> first_fragment i = true)) infos).
Proof. apply (GeneratePackets_covers (example_frame kStrict)); [apply example_frame_ok|reflexivity|discriminate]. Defined.

Lemma BalancedAggregates_covers_witness :
  exists infos,
    GeneratePacketsBalancedAggregates (example_frame kAggregate) =
      Ok (set_packets (example_frame kAggregate) ([] ++ infos) true, 0) /\
    covers 0 9 infos /\ Forall (placed (example_frame kAggregate)) infos.
Proof. apply (BalancedAggregates_covers (example_frame kAggregate)); [apply example_frame_ok|vm_compute; discriminate]. Defined.

(** The mark of a start can be lost: where a partition ends with the last byte of
    a packet's room, the loop has already gone on to the next one, and the
    packet that starts it is not marked. *)
Example partition_start_unmarked :
  GeneratePackets (example_frame kEqualSize) =
    Ok (set_packets (example_frame kEqualSize)
          [mk_info 0 4 true 0; mk_info 4 3 false 2; mk_info 7 2 false 2] true, 0) /\
  start_of (example_frame kEqualSize) 2 = 4.
Proof. split; reflexivity. Qed.
End RtpVp8Facts.
