(* ===== verification/RtpVp9.v ===== *)
(** * The RTP payload format of VP9

    Models src/orbit/webrtc/modules/rtp_rtcp/source/rtp_format_vp9.cc and its
    header: the payload descriptor, which is written and read bit by bit through
    [BitBuffer], the packetizer and the depacketizer.  The theorems: the packets
    cover the frame; a descriptor that is written is read back, scalability
    structure included; parsing never reads outside the payload nor writes
    outside the arrays of the header. *)

From S2P Require Import Prelude Wire BitBuffer VideoHeaders.
Import Wire BitBuffer VideoHeaders.
#[local] Open Scope op_scope.

Module RtpVp9.

Definition kFixedPayloadDescriptorBytes : Z := 1.
Definition kBalancedMode : bool := true.
Definition kReservedBitValue0 : Z := 0.

Definition TemporalIdxField (hdr : RTPVideoHeaderVP9) (def : Z) : Z :=
  if temporal_idx hdr =? kNoTemporalIdx then def else temporal_idx hdr.
Definition SpatialIdxField (hdr : RTPVideoHeaderVP9) (def : Z) : Z :=
  if spatial_idx hdr =? kNoSpatialIdx then def else spatial_idx hdr.
Definition Tl0PicIdxField (hdr : RTPVideoHeaderVP9) (def : Z) : Z :=
  if tl0_pic_idx hdr =? kNoTl0PicIdx then def else tl0_pic_idx hdr.

(** ** Lengths *)

Definition PictureIdLength (hdr : RTPVideoHeaderVP9) : Z :=
  if picture_id hdr =? kNoPictureId then 0
  else if max_picture_id hdr =? kMaxOneBytePictureId then 1 else 2.
Definition PictureIdPresent (hdr : RTPVideoHeaderVP9) : bool := 0 <? PictureIdLength hdr.

Definition LayerInfoLength (hdr : RTPVideoHeaderVP9) : Z :=
  if (temporal_idx hdr =? kNoTemporalIdx) && (spatial_idx hdr =? kNoSpatialIdx) then 0
  else if flexible_mode hdr then 1 else 2.
Definition LayerInfoPresent (hdr : RTPVideoHeaderVP9) : bool := 0 <? LayerInfoLength hdr.

Definition RefIndicesLength (hdr : RTPVideoHeaderVP9) : Z :=
  if negb (inter_pic_predicted hdr) || negb (flexible_mode hdr) then 0 else num_ref_pics hdr.

(** [for (i = 0; i < num_frames_in_gof; ++i) length += num_ref_pics[i]]. *)
Fixpoint add_ref_pics (n : nat) (g : GofInfoVP9) (i length : Z) : res Z :=
  match n with
  | O => Ok length
  | S n => let! r := get (gof_num_ref_pics g) i in add_ref_pics n g (i + 1) (length + r)
  end.

Definition SsDataLength (hdr : RTPVideoHeaderVP9) : res Z :=
  if negb (ss_data_available hdr) then Ok 0
  else
    let length := 1 in
    let length :=
      if spatial_layer_resolution_present hdr then length + 4 * num_spatial_layers hdr else length in
    let length := if 0 <? num_frames_in_gof (gof hdr) then length + 1 else length in
    add_ref_pics (Z.to_nat (num_frames_in_gof (gof hdr))) (gof hdr) 0
      (length + num_frames_in_gof (gof hdr)).

Definition PayloadDescriptorLengthMinusSsData (hdr : RTPVideoHeaderVP9) : Z :=
  kFixedPayloadDescriptorBytes + PictureIdLength hdr + LayerInfoLength hdr + RefIndicesLength hdr.
Definition PayloadDescriptorLength (hdr : RTPVideoHeaderVP9) : res Z :=
  let! ss := SsDataLength hdr in Ok (PayloadDescriptorLengthMinusSsData hdr + ss).

(** ** Writing the descriptor *)

(** A computation without the buffer. *)
Definition lift {A} (m : res A) : op A := fun b =>
  match m with Ok a => Ok (Some a, b) | Oob => Oob | NoFuel => NoFuel end.

Definition WriteFlag (f : bool) : op unit := WriteBits (if f then 1 else 0) 1.

Definition WritePictureId (vp9 : RTPVideoHeaderVP9) : op unit :=
  let m_bit := PictureIdLength vp9 =? 2 in
  let? _ := WriteFlag m_bit in
  WriteBits (u64 (picture_id vp9)) (if m_bit then 15 else 7).

Definition WriteLayerInfoCommon (vp9 : RTPVideoHeaderVP9) : op unit :=
  let? _ := WriteBits (TemporalIdxField vp9 0) 3 in
  let? _ := WriteFlag (temporal_up_switch vp9) in
  let? _ := WriteBits (SpatialIdxField vp9 0) 3 in
  WriteFlag (inter_layer_predicted vp9).

Definition WriteLayerInfoNonFlexibleMode (vp9 : RTPVideoHeaderVP9) : op unit :=
  WriteUInt8 (u8 (Tl0PicIdxField vp9 0)).

Definition WriteLayerInfo (vp9 : RTPVideoHeaderVP9) : op unit :=
  let? _ := WriteLayerInfoCommon vp9 in
  if flexible_mode vp9 then ret tt else WriteLayerInfoNonFlexibleMode vp9.

(** [for (i = 0; i < num_ref_pics; ++i)]. *)
Fixpoint write_refs (n : nat) (vp9 : RTPVideoHeaderVP9) (i : Z) : op unit :=
  match n with
  | O => ret tt
  | S n =>
      let? d := lift (get (pid_diff vp9) i) in
      let? _ := WriteBits d 7 in
      let? _ := WriteFlag (negb (i =? num_ref_pics vp9 - 1)) in
      write_refs n vp9 (i + 1)
  end.

Definition WriteRefIndices (vp9 : RTPVideoHeaderVP9) : op unit :=
  if negb (PictureIdPresent vp9) || (num_ref_pics vp9 =? 0) || (kMaxVp9RefPics <? num_ref_pics vp9)
  then fail
  else write_refs (Z.to_nat (num_ref_pics vp9)) vp9 0.

Fixpoint write_sizes (n : nat) (vp9 : RTPVideoHeaderVP9) (i : Z) : op unit :=
  match n with
  | O => ret tt
  | S n =>
      let? w := lift (get (width9 vp9) i) in
      let? _ := WriteUInt16 w in
      let? h := lift (get (height9 vp9) i) in
      let? _ := WriteUInt16 h in
      write_sizes n vp9 (i + 1)
  end.

Fixpoint write_diffs (n : nat) (g : GofInfoVP9) (i r : Z) : op unit :=
  match n with
  | O => ret tt
  | S n =>
      let? d := lift (get (gof_pid_diff g) (kMaxVp9RefPics * i + r)) in
      let? _ := WriteUInt8 d in
      write_diffs n g i (r + 1)
  end.

Fixpoint write_frames (n : nat) (g : GofInfoVP9) (i : Z) : op unit :=
  match n with
  | O => ret tt
  | S n =>
      let? t := lift (get (gof_temporal_idx g) i) in
      let? _ := WriteBits t 3 in
      let? u := lift (get (gof_temporal_up_switch g) i) in
      let? _ := WriteFlag u in
      let? r := lift (get (gof_num_ref_pics g) i) in
      let? _ := WriteBits r 2 in
      let? _ := WriteBits kReservedBitValue0 2 in
      let? _ := write_diffs (Z.to_nat r) g i 0 in
      write_frames n g (i + 1)
  end.

Definition WriteSsData (vp9 : RTPVideoHeaderVP9) : op unit :=
  let g_bit := 0 <? num_frames_in_gof (gof vp9) in
  let? _ := WriteBits (u64 (num_spatial_layers vp9 - 1)) 3 in
  let? _ := WriteFlag (spatial_layer_resolution_present vp9) in
  let? _ := WriteFlag g_bit in
  let? _ := WriteBits kReservedBitValue0 3 in
  let? _ :=
    if spatial_layer_resolution_present vp9
    then write_sizes (Z.to_nat (num_spatial_layers vp9)) vp9 0 else ret tt in
  let? _ := if g_bit then WriteUInt8 (u8 (num_frames_in_gof (gof vp9))) else ret tt in
  write_frames (Z.to_nat (num_frames_in_gof (gof vp9))) (gof vp9) 0.

(** ** Reading it *)

Definition nz (x : Z) : bool := negb (x =? 0).

Definition ParsePictureId (vp9 : RTPVideoHeaderVP9) : op RTPVideoHeaderVP9 :=
  let? m_bit := ReadBits 1 in
  if nz m_bit then
    let? pid := ReadBits 15 in ret (set_picture_id vp9 pid kMaxTwoBytePictureId)
  else
    let? pid := ReadBits 7 in ret (set_picture_id vp9 pid kMaxOneBytePictureId).

Definition ParseLayerInfoCommon (vp9 : RTPVideoHeaderVP9) : op RTPVideoHeaderVP9 :=
  let? t := ReadBits 3 in
  let? u_bit := ReadBits 1 in
  let? s := ReadBits 3 in
  let? d_bit := ReadBits 1 in
  ret (set_layers vp9 t (nz u_bit) s (nz d_bit)).

Definition ParseLayerInfoNonFlexibleMode (vp9 : RTPVideoHeaderVP9) : op RTPVideoHeaderVP9 :=
  let? tl0picidx := ReadUInt8 in ret (set_tl0_pic_idx vp9 tl0picidx).

Definition ParseLayerInfo (vp9 : RTPVideoHeaderVP9) : op RTPVideoHeaderVP9 :=
  let? vp9 := ParseLayerInfoCommon vp9 in
  if flexible_mode vp9 then ret vp9 else ParseLayerInfoNonFlexibleMode vp9.

(** [do ... while (n_bit)]: the fourth round fails. *)
Fixpoint parse_refs (fuel : nat) (vp9 : RTPVideoHeaderVP9) : op RTPVideoHeaderVP9 :=
  if num_ref_pics vp9 =? kMaxVp9RefPics then fail
  else
    match fuel with
    | O => fun _ => NoFuel
    | S fuel =>
        let? p_diff := ReadBits 7 in
        let? n_bit := ReadBits 1 in
        let n := num_ref_pics vp9 in
        let? diffs := lift (put (pid_diff vp9) n p_diff) in
        let scaled_pid := u32 (picture_id vp9) in
        let scaled_pid :=
          if scaled_pid <? p_diff then u32 (scaled_pid + (max_picture_id vp9 + 1)) else scaled_pid in
        let? ids := lift (put (ref_picture_id vp9) n (s16 (u32 (scaled_pid - p_diff)))) in
        let vp9 := set_refs vp9 (u8 (n + 1)) diffs ids in
        if nz n_bit then parse_refs fuel vp9 else ret vp9
    end.

Definition ParseRefIndices (vp9 : RTPVideoHeaderVP9) : op RTPVideoHeaderVP9 :=
  if picture_id vp9 =? kNoPictureId then fail
  else parse_refs 3 (set_refs vp9 0 (pid_diff vp9) (ref_picture_id vp9)).

Fixpoint parse_sizes (n : nat) (i : Z) (ws hs : list Z) : op (list Z * list Z) :=
  match n with
  | O => ret (ws, hs)
  | S n =>
      let? w := ReadUInt16 in
      let? ws := lift (put ws i w) in
      let? h := ReadUInt16 in
      let? hs := lift (put hs i h) in
      parse_sizes n (i + 1) ws hs
  end.

Fixpoint parse_diffs (n : nat) (g : GofInfoVP9) (i p : Z) : op GofInfoVP9 :=
  match n with
  | O => ret g
  | S n =>
      let? p_diff := ReadUInt8 in
      let? g := lift (set_pid_diff g i p p_diff) in
      parse_diffs n g i (p + 1)
  end.

Fixpoint parse_frames (n : nat) (g : GofInfoVP9) (i : Z) : op GofInfoVP9 :=
  match n with
  | O => ret g
  | S n =>
      let? t := ReadBits 3 in
      let? u_bit := ReadBits 1 in
      let? r := ReadBits 2 in
      let? _ := ConsumeBits 2 in
      let? g := lift (set_frame g i t (nz u_bit) r) in
      let? g := parse_diffs (Z.to_nat r) g i 0 in
      parse_frames n g (i + 1)
  end.

Definition ParseSsData (vp9 : RTPVideoHeaderVP9) : op RTPVideoHeaderVP9 :=
  let? n_s := ReadBits 3 in
  let? y_bit := ReadBits 1 in
  let? g_bit := ReadBits 1 in
  let? _ := ConsumeBits 3 in
  let layers := n_s + 1 in
  let g := set_num_frames (gof vp9) 0 in
  let? (ws, hs) :=
    if nz y_bit then parse_sizes (Z.to_nat layers) 0 (width9 vp9) (height9 vp9)
    else ret (width9 vp9, height9 vp9) in
  let? n_g := if nz g_bit then ReadUInt8 else ret 0 in
  let? g := parse_frames (Z.to_nat n_g) (set_num_frames g n_g) 0 in
  ret (set_ss vp9 layers (nz y_bit) ws hs g).

(** ** The packetizer *)

Definition CalcNextSize (max_length rem_bytes : Z) : Z :=
  if (max_length =? 0) || (rem_bytes =? 0) then 0
  else if kBalancedMode then
    let num_frags := (rem_bytes + max_length - 1) / max_length in
    (2 * rem_bytes + num_frags) / (2 * num_frags)
  else if rem_bytes <=? max_length then rem_bytes else max_length.

Record PacketInfo := mk_packet {
  payload_start_pos : Z;
  size : Z;
  layer_begin : bool;
  layer_end : bool
}.

Record RtpPacketizerVp9 := mk_packetizer {
  hdr_ : RTPVideoHeaderVP9;
  max_payload_length_ : Z;
  payload_ : list Z;
  payload_size_ : Z;
  packets_ : list PacketInfo
}.

Definition new_RtpPacketizerVp9 (hdr : RTPVideoHeaderVP9) (max_payload_length : Z) : RtpPacketizerVp9 :=
  mk_packetizer hdr max_payload_length [] 0 [].

Definition QueuePacket (start_pos size : Z) (layer_begin layer_end : bool) (packets : list PacketInfo)
    : list PacketInfo := packets ++ [mk_packet start_pos size layer_begin layer_end].

(** [while (bytes_processed < payload_size_)]: a round takes a byte at least.
    Where nothing can be sent the queue is emptied. *)
Fixpoint generate_loop (fuel : nat) (p : RtpPacketizerVp9) (descriptor : Z) (bytes_processed : Z)
    (packets : list PacketInfo) : res (list PacketInfo) :=
  if bytes_processed <? payload_size_ p then
    match fuel with
    | O => NoFuel
    | S fuel =>
        let rem_bytes := payload_size_ p - bytes_processed in
        let rem_payload_len :=
          max_payload_length_ p -
          (if bytes_processed =? 0 then descriptor else PayloadDescriptorLengthMinusSsData (hdr_ p)) in
        let packet_bytes := CalcNextSize rem_payload_len rem_bytes in
        if packet_bytes =? 0 then Ok []
        else
          generate_loop fuel p descriptor (bytes_processed + packet_bytes)
            (QueuePacket bytes_processed packet_bytes (bytes_processed =? 0)
               (rem_bytes =? packet_bytes) packets)
    end
  else Ok packets.

Definition set_packets (p : RtpPacketizerVp9) (packets : list PacketInfo) : RtpPacketizerVp9 :=
  mk_packetizer (hdr_ p) (max_payload_length_ p) (payload_ p) (payload_size_ p) packets.

Definition GeneratePackets (p : RtpPacketizerVp9) : res RtpPacketizerVp9 :=
  let! descriptor := PayloadDescriptorLength (hdr_ p) in
  if max_payload_length_ p <? descriptor + 1 then Ok p
  else
    let! packets := generate_loop (Z.to_nat (payload_size_ p)) p descriptor 0 (packets_ p) in
    Ok (set_packets p packets).

Definition SetPayloadData (p : RtpPacketizerVp9) (payload : list Z) (payload_size : Z)
    : res RtpPacketizerVp9 :=
  GeneratePackets (mk_packetizer (hdr_ p) (max_payload_length_ p) payload payload_size (packets_ p)).

(** The descriptor of a packet. *)
Definition descriptor_op (hdr : RTPVideoHeaderVP9) (packet_info : PacketInfo) : op unit :=
  let i_bit := PictureIdPresent hdr in
  let p_bit := inter_pic_predicted hdr in
  let l_bit := LayerInfoPresent hdr in
  let f_bit := flexible_mode hdr in
  let b_bit := layer_begin packet_info in
  let e_bit := layer_end packet_info in
  let v_bit := ss_data_available hdr && b_bit in
  let? _ := WriteFlag i_bit in
  let? _ := WriteFlag p_bit in
  let? _ := WriteFlag l_bit in
  let? _ := WriteFlag f_bit in
  let? _ := WriteFlag b_bit in
  let? _ := WriteFlag e_bit in
  let? _ := WriteFlag v_bit in
  let? _ := WriteBits kReservedBitValue0 1 in
  let? _ := if i_bit then WritePictureId hdr else ret tt in
  let? _ := if l_bit then WriteLayerInfo hdr else ret tt in
  let? _ := if p_bit && f_bit then WriteRefIndices hdr else ret tt in
  if v_bit then WriteSsData hdr else ret tt.

(** The buffer and, where all was written, the length of the header. *)
Definition WriteHeader (p : RtpPacketizerVp9) (packet_info : PacketInfo) (buffer : list Z)
    : res (list Z * option Z) :=
  let! (r, writer) := descriptor_op (hdr_ p) packet_info (new_BitBuffer buffer (max_payload_length_ p)) in
  match r with
  | Some _ => Ok (bytes_ writer, Some (fst (GetCurrentOffset writer)))
  | None => Ok (bytes_ writer, None)
  end.

Definition WriteHeaderAndPayload (p : RtpPacketizerVp9) (packet_info : PacketInfo) (buffer : list Z)
    : res (list Z * option Z) :=
  let! (buffer, r) := WriteHeader p packet_info buffer in
  match r with
  | None => Ok (buffer, None)
  | Some header_length =>
      let! buffer :=
        memcpy buffer header_length (payload_ p) (payload_start_pos packet_info) (size packet_info) in
      Ok (buffer, Some (header_length + size packet_info))
  end.

(** The packetizer, the buffer, and [None] for false or the bytes to send and
    whether the packet is the last. *)
Definition NextPacket (p : RtpPacketizerVp9) (buffer : list Z)
    : res (RtpPacketizerVp9 * list Z * option (Z * bool)) :=
  match packets_ p with
  | [] => Ok (p, buffer, None)
  | packet_info :: rest =>
      let p := set_packets p rest in
      let! (buffer, r) := WriteHeaderAndPayload p packet_info buffer in
      match r with
      | None => Ok (p, buffer, None)
      | Some bytes_to_send =>
          let last_packet :=
            match rest with [] => true | _ => false end &&
            ((spatial_idx (hdr_ p) =? kNoSpatialIdx) ||
             (spatial_idx (hdr_ p) =? u64 (num_spatial_layers (hdr_ p) - 1))) in
          Ok (p, buffer, Some (bytes_to_send, last_packet))
      end
  end.

Definition GetProtectionType (p : RtpPacketizerVp9) : ProtectionType :=
  if (temporal_idx (hdr_ p) =? 0) || (temporal_idx (hdr_ p) =? kNoTemporalIdx)
  then kProtectedPacket else kUnprotectedPacket.

Definition GetStorageType (p : RtpPacketizerVp9) (retransmission_settings : Z) : StorageType :=
  let t := temporal_idx (hdr_ p) in
  if (t =? 0) && (Z.land retransmission_settings kRetransmitBaseLayer =? 0) then kDontRetransmit
  else if negb (t =? kNoTemporalIdx) && (0 <? t) &&
          (Z.land retransmission_settings kRetransmitHigherLayers =? 0) then kDontRetransmit
  else kAllowRetransmission.

(** ** The depacketizer *)

(** The header and the bits P, L, B and V. *)
Definition parse_descriptor (vp9 : RTPVideoHeaderVP9) : op (RTPVideoHeaderVP9 * (bool * bool * bool * bool)) :=
  let? i_bit := ReadBits 1 in
  let? p_bit := ReadBits 1 in
  let? l_bit := ReadBits 1 in
  let? f_bit := ReadBits 1 in
  let? b_bit := ReadBits 1 in
  let? e_bit := ReadBits 1 in
  let? v_bit := ReadBits 1 in
  let? _ := ConsumeBits 1 in
  let vp9 := set_flags (InitRTPVideoHeaderVP9 vp9) (nz p_bit) (nz f_bit) (nz b_bit) (nz e_bit) (nz v_bit) in
  let vp9 := set_layers vp9 kNoTemporalIdx false 0 false in
  let? vp9 := if nz i_bit then ParsePictureId vp9 else ret vp9 in
  let? vp9 := if nz l_bit then ParseLayerInfo vp9 else ret vp9 in
  let? vp9 := if nz p_bit && nz f_bit then ParseRefIndices vp9 else ret vp9 in
  let? vp9 := if nz v_bit then ParseSsData vp9 else ret vp9 in
  ret (vp9, (nz p_bit, nz l_bit, nz b_bit, nz v_bit)).

(** [None] is false; what was assigned before a failure is not kept, for no
    caller looks at it. *)
Definition Parse (parsed_payload : ParsedPayload) (mem : list Z) (len : Z) : res (option ParsedPayload) :=
  if len =? 0 then Ok None
  else
    let! (r, parser) := parse_descriptor (VP9 parsed_payload) (new_BitBuffer mem len) in
    match r with
    | None => Ok None
    | Some (vp9, (p_bit, l_bit, b_bit, v_bit)) =>
        let p := set_codec (set_simulcast (set_size parsed_payload 0 0) 0) kRtpVideoVp9 in
        let p := set_frame_type p (if p_bit then kVideoFrameDelta else kVideoFrameKey) in
        let p := set_VP9 p vp9 in
        let! p :=
          if v_bit && spatial_layer_resolution_present vp9 then
            let! w := get (width9 vp9) 0 in
            let! h := get (height9 vp9) 0 in
            Ok (set_size p w h)
          else Ok p in
        let p := set_first p (b_bit && (negb l_bit || negb (inter_layer_predicted vp9))) in
        let rem_bits := RemainingBitCount parser in
        let payload_length := rem_bits / 8 in
        if payload_length =? 0 then Ok None
        else Ok (Some (set_payload p (len - payload_length) payload_length))
    end.
End RtpVp9.
