(* ===== verification/RtpVp9Facts.v ===== *)
(** * The packets and the descriptor of VP9

    The theorems about [RtpVp9]: the packets cover the frame, parsing stays
    inside the payload and the header's arrays, and a packet that is written is
    read back. *)

From S2P Require Import Prelude Wire BitBuffer VideoHeaders RtpVp9.
Import Wire BitBuffer VideoHeaders RtpVp9.
#[local] Open Scope op_scope.

Module RtpVp9Facts.

(** ** Parsing is safe *)

Lemma ensures_lift {A} (m : res A) a (P : A -> Prop) : m = Ok a -> P a -> ensures (lift m) P.
Proof. intros -> H. now apply ensures_ret. Qed.

#[local] Ltac read_bits n := apply (ensures_bind _ _ (fun v => 0 <= v < 2 ^ n)); [apply ensures_ReadBits; lia|].
#[local] Ltac skip_bits :=
  apply (ensures_bind _ _ (fun _ => True)); [apply ensures_safe, safe_ConsumeBits; lia|].

Lemma ParsePictureId_safe h : vp9_wf h ->
  ensures (ParsePictureId h) (fun h' => vp9_wf h' /\ num_ref_pics h' = num_ref_pics h).
Proof.
  intros [W1 W2 W3 W4 W5]. unfold ParsePictureId. read_bits 1. intros m _.
  apply ensures_if; [read_bits 15|read_bits 7]; intros v _; apply ensures_ret; (split; [split; assumption|reflexivity]).
Qed.

Lemma ParseLayerInfo_safe h : vp9_wf h -> ensures (ParseLayerInfo h) vp9_wf.
Proof.
  intros [W1 W2 W3 W4 W5]. unfold ParseLayerInfo. apply (ensures_bind _ _ vp9_wf).
  - unfold ParseLayerInfoCommon. read_bits 3. intros t _. read_bits 1. intros u _. read_bits 3. intros s _. read_bits 1. intros d _.
    apply ensures_ret. now split.
  - intros h' [W1' W2' W3' W4' W5']. apply ensures_if; [apply ensures_ret; now split|].
    unfold ParseLayerInfoNonFlexibleMode, ReadUInt8. read_bits 8. intros v _. apply ensures_ret. now split.
Qed.

Lemma parse_refs_safe fuel : forall h,
  vp9_wf h -> 0 <= num_ref_pics h <= 3 -> 3 - num_ref_pics h <= Z.of_nat fuel ->
  ensures (parse_refs fuel h) vp9_wf.
Proof.
  induction fuel as [|fuel IH]; intros h W Hn Hf; cbn [parse_refs]; unfold kMaxVp9RefPics;
    (destruct (Z.eqb_spec (num_ref_pics h) 3); [apply ensures_fail|]); [lia|].
  read_bits 7. intros d _. read_bits 1. intros nb _. destruct W as [W1 W2 W3 W4 W5]. unfold kMaxVp9RefPics in *.
  apply (ensures_bind _ _ (fun l => zlen l = 3)).
  { eapply ensures_lift; [apply put_ok; lia|]. now autorewrite with zlen. }
  intros ds Hds. apply (ensures_bind _ _ (fun l => zlen l = 3)).
  { eapply ensures_lift; [apply put_ok; lia|]. now autorewrite with zlen. }
  intros ids Hids. rewrite u8_id by (unfold in_u8; lia).
  apply ensures_if; [|apply ensures_ret; now split].
  apply IH; [now split|cbn [num_ref_pics set_refs]; lia|cbn [num_ref_pics set_refs]; lia].
Qed.

Lemma ParseRefIndices_safe h : vp9_wf h -> ensures (ParseRefIndices h) vp9_wf.
Proof.
  intros [W1 W2 W3 W4 W5]. unfold ParseRefIndices. apply ensures_if; [apply ensures_fail|].
  apply parse_refs_safe; [now split|cbn; lia|cbn; lia].
Qed.

Lemma parse_sizes_safe n : forall i ws hs,
  0 <= i -> i + Z.of_nat n <= 8 -> zlen ws = 8 -> zlen hs = 8 ->
  ensures (parse_sizes n i ws hs) (fun r => zlen (fst r) = 8 /\ zlen (snd r) = 8).
Proof.
  induction n as [|n IH]; intros i ws hs Hi Hn Hw Hh; cbn [parse_sizes]; [now apply ensures_ret|].
  unfold ReadUInt16. read_bits 16. intros w _. apply (ensures_bind _ _ (fun l => zlen l = 8)).
  { eapply ensures_lift; [apply put_ok; lia|]. now autorewrite with zlen. }
  intros ws' Hw'. read_bits 16. intros h _. apply (ensures_bind _ _ (fun l => zlen l = 8)).
  { eapply ensures_lift; [apply put_ok; lia|]. now autorewrite with zlen. }
  intros hs' Hh'. apply IH; auto; lia.
Qed.

Lemma parse_diffs_safe n : forall g i r,
  gof_wf g -> 0 <= i < 255 -> 0 <= r -> r + Z.of_nat n <= 3 ->
  ensures (parse_diffs n g i r) (fun g' => gof_wf g' /\ num_frames_in_gof g' = num_frames_in_gof g).
Proof.
  induction n as [|n IH]; intros g i r G Hi Hr Hn; cbn [parse_diffs]; [now apply ensures_ret|].
  unfold ReadUInt8. read_bits 8. intros d _.
  destruct (set_pid_diff_ok g i r d G ltac:(exact Hi) ltac:(unfold kMaxVp9RefPics; lia)) as (g' & E & G' & N & _).
  apply (ensures_bind _ _ (fun x => x = g')); [now apply (ensures_lift _ g')|]. intros x ->. rewrite <- N. apply IH; auto; lia.
Qed.

Lemma parse_frames_safe n : forall g i,
  gof_wf g -> 0 <= i -> i + Z.of_nat n <= 255 ->
  ensures (parse_frames n g i) gof_wf.
Proof.
  induction n as [|n IH]; intros g i G Hi Hn; cbn [parse_frames]; [now apply ensures_ret|].
  read_bits 3. intros t _. read_bits 1. intros u _. read_bits 2. intros r Hr. skip_bits. intros _ _.
  destruct (set_frame_ok g i t (nz u) r G ltac:(unfold kMaxVp9FramesInGof; lia)) as (g1 & E & G1 & _).
  apply (ensures_bind _ _ (fun x => x = g1)); [now apply (ensures_lift _ g1)|]. intros x ->.
  apply (ensures_bind _ _ (fun g' => gof_wf g' /\ num_frames_in_gof g' = num_frames_in_gof g1)).
  { change (2 ^ 2) with 4 in Hr. apply parse_diffs_safe; auto; lia. }
  intros g2 [G2 _]. apply IH; auto; lia.
Qed.

Lemma ParseSsData_safe h : vp9_wf h -> ensures (ParseSsData h) vp9_wf.
Proof.
  intros [W1 W2 W3 W4 W5]. unfold kMaxVp9NumberOfSpatialLayers in *. unfold ParseSsData.
  read_bits 3. intros ns Hns. read_bits 1. intros y _. read_bits 1. intros gb _. skip_bits. intros _ _.
  apply (ensures_bind _ _ (fun r => zlen (fst r) = 8 /\ zlen (snd r) = 8)).
  { change (2 ^ 3) with 8 in Hns. apply ensures_if; [apply parse_sizes_safe; auto; lia|now apply ensures_ret]. }
  intros [ws hs] [Hw Hh]. cbn [fst snd] in *.
  apply (ensures_bind _ _ (fun n => 0 <= n <= 255)).
  { apply ensures_if; [|apply ensures_ret; lia]. unfold ReadUInt8. intros b Wb.
    destruct (ensures_ReadBits 8 ltac:(lia) b Wb) as (o & b' & E & O & P). exists o, b'. split; [exact E|]. split; [exact O|].
    destruct o; [change (2 ^ 8) with 256 in P; lia|exact I]. }
  intros ng Hng. apply (ensures_bind _ _ gof_wf).
  { apply parse_frames_safe; [destruct W5; now split|lia|lia]. }
  intros g' G'. apply ensures_ret. now split.
Qed.

Lemma parse_descriptor_safe h : vp9_wf h -> ensures (parse_descriptor h) (fun r => vp9_wf (fst r)).
Proof.
  intros [W1 W2 W3 W4 W5]. unfold parse_descriptor.
  read_bits 1. intros i _. read_bits 1. intros p _. read_bits 1. intros l _. read_bits 1. intros f _.
  read_bits 1. intros bb _. read_bits 1. intros e _. read_bits 1. intros v _. skip_bits. intros _ _.
  apply (ensures_bind _ _ vp9_wf).
  { apply ensures_if; [|apply ensures_ret; now split]. intros b W.
    destruct (ParsePictureId_safe (set_layers (set_flags (InitRTPVideoHeaderVP9 h) (nz p) (nz f) (nz bb) (nz e) (nz v)) kNoTemporalIdx false 0 false)
      ltac:(now split) b W) as (o & b' & E & O & P). exists o, b'. split; [exact E|]. split; [exact O|]. destruct o; [apply P|exact I]. }
  intros h1 H1. apply (ensures_bind _ _ vp9_wf); [apply ensures_if; [now apply ParseLayerInfo_safe|now apply ensures_ret]|].
  intros h2 H2. apply (ensures_bind _ _ vp9_wf); [apply ensures_if; [now apply ParseRefIndices_safe|now apply ensures_ret]|].
  intros h3 H3. apply (ensures_bind _ _ vp9_wf); [apply ensures_if; [now apply ParseSsData_safe|now apply ensures_ret]|].
  intros h4 H4. now apply ensures_ret.
Qed.

Lemma wf_new mem len : bytes mem -> 0 <= len <= zlen mem -> len < 2 ^ 31 -> wf (new_BitBuffer mem len).
Proof. intros B L H. split; cbn [bytes_ byte_count_ byte_offset_ bit_offset_ new_BitBuffer]; auto; lia. Qed.

Lemma Vp9_Parse_total pp mem len :
  bytes mem -> 0 <= len <= zlen mem -> len < 2 ^ 31 -> vp9_wf (VP9 pp) ->
  exists r, Parse pp mem len = Ok r /\
    match r with
    | Some q => 0 <= payload q /\ 1 <= payload_length q /\ payload q + payload_length q = len /\ vp9_wf (VP9 q)
    | None => True
    end.
Proof.
  intros B L H W. unfold Parse. destruct (Z.eqb_spec len 0); [now eexists|].
  pose proof (wf_new mem len B L H) as Wb.
  destruct (parse_descriptor_safe (VP9 pp) W _ Wb) as (o & b' & E & (W' & _ & C & Lf) & P). rewrite E. cbn [bind].
  destruct o as [[h [[[pb lb] bb] vb]]|]; [|now eexists]. cbn [fst] in P.
  assert (S : forall p, exists p', (if vb && spatial_layer_resolution_present h then
      let! w := get (width9 h) 0 in let! hh := get (height9 h) 0 in Ok (set_size p w hh) else Ok p) = Ok p' /\ VP9 p' = VP9 p).
  { intros p. destruct P as [_ _ P3 P4 _]. unfold kMaxVp9NumberOfSpatialLayers in *. destruct (vb && _); [|now eexists].
    rewrite !(get_ok _ 0 0) by lia. cbn [bind]. now eexists. }
  match goal with |- context [if vb && _ then _ else Ok ?p] => destruct (S p) as (p' & -> & V) end. cbn [bind].
  rewrite Remaining_left by exact W'. pose proof (left_nonneg b' W') as Ln.
  assert (L8 : left (new_BitBuffer mem len) = 8 * len) by (unfold left, pos; cbn [byte_count_ byte_offset_ bit_offset_ new_BitBuffer]; lia).
  rewrite L8 in Lf. destruct (Z.eqb_spec (left b' / 8) 0); [now eexists|]. eexists. split; [reflexivity|].
  cbn [payload payload_length set_payload VP9 set_first]. rewrite V. cbn [VP9 set_VP9]. repeat split; try apply P; dlia.
Qed.

(** The media payload is the rest of the [len] bytes, and there is some. *)
Definition ends_packet (len : Z) (q : ParsedPayload) : Prop :=
  0 <= payload q /\ 1 <= payload_length q /\ payload q + payload_length q = len.

(** The VP9 depacketizer is safe: for any bytes and any length within them, and
    a parsed payload whose arrays have their declared sizes, [Parse] ends, reads
    nothing outside the payload and writes nothing outside the arrays of the
    header, for any number of layers, frames and references that the bytes
    announce; where it succeeds the media payload is a non-empty suffix, and the
    arrays keep their sizes. *)
Theorem Vp9_Parse_safe pp mem len :
  bytes mem -> 0 <= len <= zlen mem -> len < 2 ^ 31 -> vp9_wf (VP9 pp) ->
  exists r, Parse pp mem len = Ok r /\
    match r with
    | Some q => ends_packet len q /\ vp9_wf (VP9 q)
    | None => True
    end.
Proof.
  intros B L L2 W. destruct (Vp9_Parse_total pp mem len B L L2 W) as ([q|] & -> & R); eexists; split; eauto.
  unfold ends_packet. tauto.
Qed.

(** ** The bits of a descriptor *)

Lemma nz_flag (f : bool) : nz (if f then 1 else 0) = f.
Proof. now destruct f. Qed.

Lemma writes_flag f : writes (WriteFlag f) [f].
Proof. replace [f] with (to_bits (Z.to_nat 1) (if f then 1 else 0)) by now destruct f. apply writes_bits. lia. Qed.


Lemma writes_lift {A} (m : res A) a (k : A -> op unit) l :
  m = Ok a -> writes (k a) l -> writes (let? x := lift m in k x) l.
Proof. intros -> H. exact H. Qed.
Lemma reads_lift {A B} (m : res A) a (k : A -> op B) l c :
  m = Ok a -> reads (k a) l c -> reads (let? x := lift m in k x) l c.
Proof. intros -> H. exact H. Qed.
Lemma writes_if (c : bool) m l : (c = true -> writes m l) -> writes (if c then m else ret tt) (if c then l else []).
Proof. destruct c; intros H; [now apply H|apply writes_ret]. Qed.

(** The members of the header in their ranges. *)
Record refs_ok (h : RTPVideoHeaderVP9) : Prop := {
  ro_pic : picture_id h <> kNoPictureId;
  ro_num : 1 <= num_ref_pics h <= 3;
  ro_len : zlen (pid_diff h) = 3;
  ro_diff : Forall (fun d => 0 <= d < 128) (pid_diff h)
}.
Record ss_ok (h : RTPVideoHeaderVP9) : Prop := {
  so_layers : 1 <= num_spatial_layers h <= 8;
  so_width : zlen (width9 h) = 8 /\ Forall in_u16 (width9 h);
  so_height : zlen (height9 h) = 8 /\ Forall in_u16 (height9 h);
  so_gof : gof_wf (gof h);
  so_frames : 0 <= num_frames_in_gof (gof h) <= 255;
  so_t : Forall (fun t => 0 <= t < 8) (gof_temporal_idx (gof h));
  so_r : Forall (fun r => 0 <= r < 4) (gof_num_ref_pics (gof h));
  so_d : Forall in_u8 (gof_pid_diff (gof h))
}.
Record vp9_ok (h : RTPVideoHeaderVP9) : Prop := {
  ho_pic : picture_id h = kNoPictureId \/
    0 <= picture_id h <= max_picture_id h /\
    (max_picture_id h = kMaxOneBytePictureId \/ max_picture_id h = kMaxTwoBytePictureId);
  ho_t : temporal_idx h = kNoTemporalIdx \/ 0 <= temporal_idx h < 8;
  ho_s : spatial_idx h = kNoSpatialIdx \/ 0 <= spatial_idx h < 8;
  ho_tl0 : tl0_pic_idx h = kNoTl0PicIdx \/ in_u8 (tl0_pic_idx h);
  ho_refs : inter_pic_predicted h && flexible_mode h = true -> refs_ok h;
  ho_ss : ss_data_available h = true -> ss_ok h
}.

(** *** Picture identifier and layers *)

Definition pic_bits (h : RTPVideoHeaderVP9) : list bool :=
  [PictureIdLength h =? 2] ++ to_bits (Z.to_nat (if PictureIdLength h =? 2 then 15 else 7)) (picture_id h).

Lemma pic_range h : vp9_ok h -> PictureIdPresent h = true ->
  PictureIdLength h = 2 /\ max_picture_id h = kMaxTwoBytePictureId /\ 0 <= picture_id h < 2 ^ 15 \/
  PictureIdLength h = 1 /\ max_picture_id h = kMaxOneBytePictureId /\ 0 <= picture_id h < 2 ^ 7.
Proof.
  intros [P _ _ _ _ _] Q. unfold PictureIdPresent, PictureIdLength, kNoPictureId, kMaxOneBytePictureId, kMaxTwoBytePictureId in *.
  destruct (Z.eqb_spec (picture_id h) (-1)); [discriminate|]. destruct P as [P|[P [M|M]]]; [lia| |]; rewrite M in *; cbn; [right|left]; lia.
Qed.

Lemma writes_pic h : vp9_ok h -> PictureIdPresent h = true -> writes (WritePictureId h) (pic_bits h).
Proof.
  intros H P. unfold WritePictureId, pic_bits. apply writes_bind; [apply writes_flag|].
  destruct (pic_range h H P) as [(-> & _ & R)|(-> & _ & R)];
    (rewrite u64_id by (unfold in_u64; lia)); apply writes_bits; cbn; lia.
Qed.

Lemma reads_pic h v : vp9_ok h -> PictureIdPresent h = true ->
  reads (ParsePictureId v) (pic_bits h) (set_picture_id v (picture_id h) (max_picture_id h)).
Proof.
  intros H P. unfold ParsePictureId, pic_bits. eapply reads_bind; [apply reads_flag|]. rewrite nz_flag.
  destruct (pic_range h H P) as [(-> & -> & R)|(-> & -> & R)]; cbn [Z.eqb Z.compare Pos.eqb];
    apply (reads_then _ (fun pid => set_picture_id v pid _)); apply reads_value; lia.
Qed.

Definition layer_bits (h : RTPVideoHeaderVP9) : list bool :=
  (to_bits 3 (TemporalIdxField h 0) ++ [temporal_up_switch h] ++ to_bits 3 (SpatialIdxField h 0) ++
   [inter_layer_predicted h]) ++ (if flexible_mode h then [] else to_bits 8 (Tl0PicIdxField h 0)).

Lemma layer_ranges h : vp9_ok h ->
  0 <= TemporalIdxField h 0 < 8 /\ 0 <= SpatialIdxField h 0 < 8 /\ in_u8 (Tl0PicIdxField h 0).
Proof.
  intros [_ T S L _ _]. unfold TemporalIdxField, SpatialIdxField, Tl0PicIdxField, kNoTemporalIdx, kNoSpatialIdx, kNoTl0PicIdx, in_u8 in *.
  repeat split; case_if; lia.
Qed.

Lemma writes_layer h : vp9_ok h -> writes (WriteLayerInfo h) (layer_bits h).
Proof.
  intros H. destruct (layer_ranges h H) as (T & S & L). unfold WriteLayerInfo, layer_bits. apply writes_bind.
  - unfold WriteLayerInfoCommon. repeat apply writes_bind; try apply writes_flag; (apply (writes_bits _ 3); lia).
  - destruct (flexible_mode h); [apply writes_ret|]. unfold WriteLayerInfoNonFlexibleMode, WriteUInt8. rewrite u8_id by exact L.
    apply (writes_bits _ 8). lia.
Qed.

(** What the parser makes of the layers. *)
Definition with_layers (v h : RTPVideoHeaderVP9) : RTPVideoHeaderVP9 :=
  let v := set_layers v (TemporalIdxField h 0) (temporal_up_switch h) (SpatialIdxField h 0) (inter_layer_predicted h) in
  if flexible_mode h then v else set_tl0_pic_idx v (Tl0PicIdxField h 0).

Lemma reads_layer h v : vp9_ok h -> flexible_mode v = flexible_mode h ->
  reads (ParseLayerInfo v) (layer_bits h) (with_layers v h).
Proof.
  intros H Fl. destruct (layer_ranges h H) as (T & S & L). unfold ParseLayerInfo, layer_bits, with_layers.
  apply (reads_bind _ _ _ _ (set_layers v (TemporalIdxField h 0) (temporal_up_switch h) (SpatialIdxField h 0) (inter_layer_predicted h))).
  - unfold ParseLayerInfoCommon. eapply reads_bind; [apply (reads_value _ 3); lia|].
    eapply reads_bind; [apply reads_flag|]. eapply reads_bind; [apply (reads_value _ 3); lia|].
    rewrite nz_flag. rewrite <- (nz_flag (inter_layer_predicted h)) at 2.
    apply (reads_then _ (fun d => set_layers v _ _ _ (nz d))), reads_flag.
  - cbn [flexible_mode set_layers]. rewrite Fl. destruct (flexible_mode h); [apply reads_ret|].
    unfold ParseLayerInfoNonFlexibleMode, ReadUInt8. apply (reads_then _ (fun t => set_tl0_pic_idx _ t)), (reads_value _ 8); [lia|exact L].
Qed.
(** *** References *)

Fixpoint ref_bits (n : nat) (h : RTPVideoHeaderVP9) (i : Z) : list bool :=
  match n with
  | O => []
  | S n => to_bits 7 (rd (pid_diff h) i) ++ [negb (i =? num_ref_pics h - 1)] ++ ref_bits n h (i + 1)
  end.

Lemma get_rd l i : 0 <= i < zlen l -> get l i = Ok (rd l i).
Proof. intros H. rewrite (get_ok l i 0) by exact H. unfold rd. now replace (i <? 0) with false by lia. Qed.

Lemma upd_wr l i v : 0 <= i -> upd l (Z.to_nat i) v = wr l i v.
Proof. intros H. unfold wr. now replace (i <? 0) with false by lia. Qed.

Lemma Forall_nth_at (P : Z -> Prop) l i : Forall P l -> 0 <= i < zlen l -> P (rd l i).
Proof. intros H Hi. rewrite Forall_forall in H. apply H. now apply rd_in_bounds. Qed.

Lemma writes_refs h n : refs_ok h -> forall i, 0 <= i -> i + Z.of_nat n <= num_ref_pics h ->
  writes (write_refs n h i) (ref_bits n h i).
Proof.
  intros [_ R L D]. induction n as [|n IH]; intros i Hi Hn; cbn [write_refs ref_bits]; [apply writes_ret|].
  apply (writes_lift _ (rd (pid_diff h) i)); [apply get_rd; lia|].
  apply writes_bind; [apply (writes_bits _ 7); lia|]. apply writes_bind; [apply writes_flag|]. apply IH; lia.
Qed.

(** The picture [d] before, within the cycle of identifiers. *)
Definition ref_of (h : RTPVideoHeaderVP9) (d : Z) : Z := (picture_id h - d) mod (max_picture_id h + 1).

Definition copied (h v : RTPVideoHeaderVP9) (i : Z) : Prop :=
  zlen (pid_diff v) = 3 /\ zlen (ref_picture_id v) = 3 /\
  forall j, 0 <= j < i -> rd (pid_diff v) j = rd (pid_diff h) j /\
    rd (ref_picture_id v) j = ref_of h (rd (pid_diff h) j).

Section Refs.
Variable h : RTPVideoHeaderVP9.
Hypothesis (Hr : refs_ok h) (Hh : vp9_ok h).

(** One round of the loop, at the reference [i]. *)
Definition next_ref (v : RTPVideoHeaderVP9) (i : Z) : RTPVideoHeaderVP9 :=
  let d := rd (pid_diff h) i in
  set_refs v (i + 1) (wr (pid_diff v) i d) (wr (ref_picture_id v) i (ref_of h d)).

Lemma copied_next v i : 0 <= i < 3 -> copied h v i -> copied h (next_ref v i) (i + 1).
Proof.
  intros Hi (C1 & C2 & C3). unfold copied, next_ref. cbn [pid_diff ref_picture_id set_refs].
  autorewrite with zlen. split; [exact C1|]. split; [exact C2|]. intros j Hj. rewrite !rd_wr by lia.
  destruct (Z.eqb_spec j i) as [->|]; [auto|apply C3; lia].
Qed.

Lemma reads_ref_round fuel v i l r :
  0 <= i < num_ref_pics h -> num_ref_pics v = i -> picture_id v = picture_id h ->
  max_picture_id v = max_picture_id h -> copied h v i ->
  reads (if negb (i =? num_ref_pics h - 1) then parse_refs fuel (next_ref v i) else ret (next_ref v i)) l r ->
  reads (parse_refs (S fuel) v) (to_bits 7 (rd (pid_diff h) i) ++ [negb (i =? num_ref_pics h - 1)] ++ l) r.
Proof.
  intros Hi Nv Pv Mv (C1 & C2 & C3) H. destruct Hr as [Hp R L D].
  assert (Pr : 0 <= picture_id h <= max_picture_id h /\ 127 <= max_picture_id h < 32768).
  { destruct Hh as [[P|[P M]] _ _ _ _ _]; [congruence|]. unfold kMaxOneBytePictureId, kMaxTwoBytePictureId in M. lia. }
  assert (Hd : 0 <= rd (pid_diff h) i < 128) by (apply (Forall_nth_at (fun d => 0 <= d < 128)); [exact D|lia]).
  cbn [parse_refs]. unfold kMaxVp9RefPics. rewrite Nv. replace (i =? 3) with false by lia.
  eapply reads_bind; [apply (reads_value _ 7); lia|]. eapply reads_bind; [apply reads_flag|].
  eapply reads_lift; [apply put_ok; lia|]. eapply reads_lift; [apply put_ok; lia|].
  rewrite nz_flag, !upd_wr, u8_id by (unfold in_u8; lia). rewrite Pv, Mv.
  replace (s16 _) with (ref_of h (rd (pid_diff h) i)); [exact H|].
  unfold ref_of. set (d := rd (pid_diff h) i) in *. rewrite (u32_id (picture_id h)) by (unfold in_u32; lia).
  destruct (Z.ltb_spec (picture_id h) d).
  - rewrite (u32_id (_ + _)), u32_id, s16_id by (unfold in_u32, in_s16; lia).
    replace (picture_id h - d) with (picture_id h + (max_picture_id h + 1) - d + (-1) * (max_picture_id h + 1)) by lia.
    rewrite Z.mod_add, Z.mod_small by lia. reflexivity.
  - rewrite u32_id, s16_id, Z.mod_small by (unfold in_u32, in_s16; lia). reflexivity.
Qed.

Lemma reads_refs n : forall fuel v i,
  0 <= i -> i + Z.of_nat (S n) = num_ref_pics h -> (S n <= fuel)%nat ->
  num_ref_pics v = i -> picture_id v = picture_id h -> max_picture_id v = max_picture_id h -> copied h v i ->
  exists ds ids, reads (parse_refs fuel v) (ref_bits (S n) h i) (set_refs v (num_ref_pics h) ds ids) /\
    copied h (set_refs v (num_ref_pics h) ds ids) (num_ref_pics h).
Proof.
  induction n as [|n IH]; intros fuel v i Hi Hn Hf Nv Pv Mv C; (destruct fuel as [|fuel]; [lia|]);
    pose proof (ro_num h Hr) as R; pose proof (copied_next v i ltac:(lia) C) as C'.
  - exists (pid_diff (next_ref v i)), (ref_picture_id (next_ref v i)). assert (E : i + 1 = num_ref_pics h) by lia.
    rewrite <- E in *. split; [|exact C']. cbn [ref_bits].
    apply reads_ref_round; auto; try lia. rewrite <- E. replace (i =? i + 1 - 1) with true by lia. apply reads_ret.
  - destruct (IH fuel (next_ref v i) (i + 1) ltac:(lia) ltac:(lia) ltac:(lia) eq_refl Pv Mv C') as (ds & ids & Rd & Cd).
    exists ds, ids. split; [|exact Cd]. change (ref_bits (S (S n)) h i) with
      (to_bits 7 (rd (pid_diff h) i) ++ [negb (i =? num_ref_pics h - 1)] ++ ref_bits (S n) h (i + 1)).
    apply reads_ref_round; auto; try lia. replace (i =? num_ref_pics h - 1) with false by lia. exact Rd.
Qed.

Lemma writes_ref_indices : PictureIdPresent h = true ->
  writes (WriteRefIndices h) (ref_bits (Z.to_nat (num_ref_pics h)) h 0).
Proof.
  intros P. unfold WriteRefIndices, kMaxVp9RefPics. destruct Hr as [_ R _ _].
  rewrite P. replace (num_ref_pics h =? 0) with false by lia. replace (3 <? num_ref_pics h) with false by lia. cbn [negb orb].
  apply writes_refs; auto; lia.
Qed.

Lemma reads_ref_indices v : picture_id v = picture_id h -> max_picture_id v = max_picture_id h -> vp9_wf v ->
  exists ds ids, reads (ParseRefIndices v) (ref_bits (Z.to_nat (num_ref_pics h)) h 0) (set_refs v (num_ref_pics h) ds ids) /\
    copied h (set_refs v (num_ref_pics h) ds ids) (num_ref_pics h).
Proof.
  intros Pv Mv [W1 W2 _ _ _]. pose proof (ro_num h Hr) as R. unfold ParseRefIndices. rewrite Pv.
  replace (picture_id h =? kNoPictureId) with false by (symmetry; apply Z.eqb_neq, Hr).
  replace (Z.to_nat (num_ref_pics h)) with (S (Z.to_nat (num_ref_pics h - 1))) by lia.
  destruct (reads_refs (Z.to_nat (num_ref_pics h - 1)) 3 (set_refs v 0 (pid_diff v) (ref_picture_id v)) 0)
    as (ds & ids & Rd & C); auto; try lia.
  - unfold copied. cbn [pid_diff ref_picture_id set_refs]. split; [exact W1|]. split; [exact W2|]. intros j Hj. lia.
  - exists ds, ids. auto.
Qed.
End Refs.
(** *** Scalability structure *)

Fixpoint size_bits (n : nat) (h : RTPVideoHeaderVP9) (i : Z) : list bool :=
  match n with
  | O => []
  | S n => to_bits 16 (rd (width9 h) i) ++ to_bits 16 (rd (height9 h) i) ++ size_bits n h (i + 1)
  end.

Lemma writes_sizes h n : ss_ok h -> forall i, 0 <= i -> i + Z.of_nat n <= 8 ->
  writes (write_sizes n h i) (size_bits n h i).
Proof.
  intros [_ [W _] [H _] _ _ _ _ _]. induction n as [|n IH]; intros i Hi Hn; cbn [write_sizes size_bits]; [apply writes_ret|].
  apply (writes_lift _ (rd (width9 h) i)); [apply get_rd; lia|]. apply writes_bind; [apply (writes_bits _ 16); lia|].
  apply (writes_lift _ (rd (height9 h) i)); [apply get_rd; lia|]. apply writes_bind; [apply (writes_bits _ 16); lia|].
  apply IH; lia.
Qed.

(** The first [i] places agree. *)
Definition agree (a b : list Z) (i : Z) : Prop := forall j, 0 <= j < i -> rd a j = rd b j.

Lemma agree_next a b i v : 0 <= i < zlen a -> v = rd b i -> agree a b i -> agree (wr a i v) b (i + 1).
Proof. intros Hi -> H j Hj. rewrite rd_wr by lia. destruct (Z.eqb_spec j i) as [->|]; [reflexivity|apply H; lia]. Qed.

Lemma reads_sizes h n : ss_ok h -> forall i ws hs,
  0 <= i -> i + Z.of_nat n <= 8 -> zlen ws = 8 -> zlen hs = 8 ->
  agree ws (width9 h) i -> agree hs (height9 h) i ->
  exists ws' hs', reads (parse_sizes n i ws hs) (size_bits n h i) (ws', hs') /\
    zlen ws' = 8 /\ zlen hs' = 8 /\ agree ws' (width9 h) (i + Z.of_nat n) /\ agree hs' (height9 h) (i + Z.of_nat n).
Proof.
  intros [_ [W Wu] [H Hu] _ _ _ _ _]. induction n as [|n IH]; intros i ws hs Hi Hn Lw Lh Aw Ah; cbn [parse_sizes size_bits].
  - exists ws, hs. rewrite Z.add_0_r. split; [apply reads_ret|auto].
  - destruct (IH (i + 1) (wr ws i (rd (width9 h) i)) (wr hs i (rd (height9 h) i))) as (ws' & hs' & R & P);
      autorewrite with zlen; try lia; [apply agree_next; auto; lia|apply agree_next; auto; lia|].
    exists ws', hs'. replace (i + 1 + Z.of_nat n) with (i + Z.of_nat (S n)) in P by lia. split; [|exact P].
    unfold ReadUInt16. eapply reads_bind; [apply (reads_value _ 16); [lia|apply (Forall_nth_at in_u16); [exact Wu|lia]]|].
    eapply reads_lift; [apply put_ok; lia|]. eapply reads_bind; [apply (reads_value _ 16); [lia|apply (Forall_nth_at in_u16); [exact Hu|lia]]|].
    eapply reads_lift; [apply put_ok; lia|]. rewrite !upd_wr by lia. exact R.
Qed.

Fixpoint diff_bits (n : nat) (g : GofInfoVP9) (i r : Z) : list bool :=
  match n with
  | O => []
  | S n => to_bits 8 (rd (gof_pid_diff g) (kMaxVp9RefPics * i + r)) ++ diff_bits n g i (r + 1)
  end.

Definition up_switch (g : GofInfoVP9) (i : Z) : bool := nth (Z.to_nat i) (gof_temporal_up_switch g) false.

Fixpoint frame_bits (n : nat) (g : GofInfoVP9) (i : Z) : list bool :=
  match n with
  | O => []
  | S n =>
      to_bits 3 (rd (gof_temporal_idx g) i) ++ [up_switch g i] ++
      to_bits 2 (rd (gof_num_ref_pics g) i) ++ to_bits 2 0 ++
      diff_bits (Z.to_nat (rd (gof_num_ref_pics g) i)) g i 0 ++ frame_bits n g (i + 1)
  end.

(** A group of frames in its ranges. *)
Record gof_ok (g : GofInfoVP9) : Prop := {
  go_wf : gof_wf g;
  go_t : Forall (fun t => 0 <= t < 8) (gof_temporal_idx g);
  go_r : Forall (fun r => 0 <= r < 4) (gof_num_ref_pics g);
  go_d : Forall in_u8 (gof_pid_diff g)
}.

Section Frames.
Variable g : GofInfoVP9.
Hypothesis G : gof_ok g.

Lemma diff_get i r : 0 <= i < 255 -> 0 <= r < 3 ->
  get (gof_pid_diff g) (kMaxVp9RefPics * i + r) = Ok (rd (gof_pid_diff g) (kMaxVp9RefPics * i + r)).
Proof. intros Hi Hr. apply get_rd. destruct G as [[_ _ _ D] _ _ _]. rewrite D. unfold kMaxVp9RefPics, kMaxVp9FramesInGof. lia. Qed.

Lemma writes_diffs i n : 0 <= i < 255 -> forall r, 0 <= r -> r + Z.of_nat n <= 3 ->
  writes (write_diffs n g i r) (diff_bits n g i r).
Proof.
  intros Hi. induction n as [|n IH]; intros r Hr Hn; cbn [write_diffs diff_bits]; [apply writes_ret|].
  eapply writes_lift; [apply diff_get; lia|]. apply writes_bind; [apply (writes_bits _ 8); lia|]. apply IH; lia.
Qed.

Lemma frame_get i : 0 <= i < 255 ->
  get (gof_temporal_idx g) i = Ok (rd (gof_temporal_idx g) i) /\
  get (gof_temporal_up_switch g) i = Ok (up_switch g i) /\
  get (gof_num_ref_pics g) i = Ok (rd (gof_num_ref_pics g) i) /\
  0 <= rd (gof_temporal_idx g) i < 8 /\ 0 <= rd (gof_num_ref_pics g) i < 4.
Proof.
  intros Hi. destruct G as [[T U R D] Ht Hr Hd]. unfold kMaxVp9FramesInGof in *.
  split; [apply get_rd; lia|]. split; [apply get_ok; lia|]. split; [apply get_rd; lia|].
  split; [apply (Forall_nth_at (fun t => 0 <= t < 8)); [exact Ht|lia]|apply (Forall_nth_at (fun r => 0 <= r < 4)); [exact Hr|lia]].
Qed.

Lemma writes_frames n : forall i, 0 <= i -> i + Z.of_nat n <= 255 -> writes (write_frames n g i) (frame_bits n g i).
Proof.
  induction n as [|n IH]; intros i Hi Hn; cbn [write_frames frame_bits]; [apply writes_ret|].
  destruct (frame_get i ltac:(lia)) as (E1 & E2 & E3 & T & R).
  eapply writes_lift; [exact E1|]. apply writes_bind; [apply (writes_bits _ 3); lia|].
  eapply writes_lift; [exact E2|]. apply writes_bind; [apply writes_flag|].
  eapply writes_lift; [exact E3|]. apply writes_bind; [apply (writes_bits _ 2); lia|].
  apply writes_bind; [apply (writes_bits _ 2); lia|]. apply writes_bind; [apply writes_diffs; lia|]. apply IH; lia.
Qed.

(** The differences read so far. *)
Lemma reads_diffs i n : 0 <= i < 255 -> forall r v,
  0 <= r -> r + Z.of_nat n <= 3 -> gof_wf v ->
  exists v', reads (parse_diffs n v i r) (diff_bits n g i r) v' /\ gof_wf v' /\
    num_frames_in_gof v' = num_frames_in_gof v /\ gof_temporal_idx v' = gof_temporal_idx v /\
    gof_temporal_up_switch v' = gof_temporal_up_switch v /\ gof_num_ref_pics v' = gof_num_ref_pics v /\
    (forall j, 3 * i + r <= j < 3 * i + r + Z.of_nat n -> rd (gof_pid_diff v') j = rd (gof_pid_diff g) j) /\
    (forall j, 0 <= j -> j < 3 * i + r \/ 3 * i + r + Z.of_nat n <= j -> rd (gof_pid_diff v') j = rd (gof_pid_diff v) j).
Proof.
  intros Hi. induction n as [|n IH]; intros r v Hr Hn V; cbn [parse_diffs diff_bits].
  - exists v. split; [apply reads_ret|]. do 5 (split; [auto|]). split; [intros j Hj; lia|reflexivity].
  - assert (Hd : in_u8 (rd (gof_pid_diff g) (3 * i + r))).
    { destruct G as [[_ _ _ D] _ _ Hd]. apply (Forall_nth_at in_u8); [exact Hd|]. rewrite D. unfold kMaxVp9RefPics, kMaxVp9FramesInGof. lia. }
    destruct (set_pid_diff_ok v i r (rd (gof_pid_diff g) (3 * i + r)) V Hi ltac:(unfold kMaxVp9RefPics; lia))
      as (v1 & E & V1 & N1 & T1 & U1 & R1 & D1).
    destruct (IH (r + 1) v1 ltac:(lia) ltac:(lia) V1) as (v' & Rd & V' & N' & T' & U' & R' & Din & Dout).
    exists v'. split.
    { unfold ReadUInt8. eapply reads_bind; [apply (reads_value _ 8); [lia|exact Hd]|]. eapply reads_lift; [exact E|exact Rd]. }
    split; [exact V'|]. do 4 (split; [congruence|]).
    destruct V as [_ _ _ VD]. change (zlen (gof_pid_diff v) = 765) in VD. change kMaxVp9RefPics with 3 in D1.
    rewrite upd_wr in D1 by lia. split; intros j Hj.
    + destruct (Z.eq_dec j (3 * i + r)) as [->|Hne]; [|apply Din; lia].
      rewrite Dout, D1, rd_wr_eq by lia. reflexivity.
    + intros Ho. rewrite Dout, D1, rd_wr_ne by lia. reflexivity.
Qed.

(** The first [i] frames agree. *)
Definition same_frames (v : GofInfoVP9) (i : Z) : Prop :=
  gof_wf v /\
  forall j, 0 <= j < i ->
    rd (gof_temporal_idx v) j = rd (gof_temporal_idx g) j /\ up_switch v j = up_switch g j /\
    rd (gof_num_ref_pics v) j = rd (gof_num_ref_pics g) j /\
    forall q, 0 <= q < rd (gof_num_ref_pics g) j ->
      rd (gof_pid_diff v) (kMaxVp9RefPics * j + q) = rd (gof_pid_diff g) (kMaxVp9RefPics * j + q).

Lemma nth_upd {A} (l : list A) (i j : nat) v d : (i < length l)%nat -> nth j (upd l i v) d = if Nat.eqb j i then v else nth j l d.
Proof.
  intros H. destruct (Nat.eqb_spec j i) as [->|N]; [now apply nth_upd_eq|now apply nth_upd_ne].
Qed.

Lemma reads_frames n : forall i v,
  0 <= i -> i + Z.of_nat n <= 255 -> same_frames v i ->
  exists v', reads (parse_frames n v i) (frame_bits n g i) v' /\ same_frames v' (i + Z.of_nat n) /\
    num_frames_in_gof v' = num_frames_in_gof v.
Proof.
  induction n as [|n IH]; intros i v Hi Hn [V S]; cbn [parse_frames frame_bits].
  - exists v. rewrite Z.add_0_r. split; [apply reads_ret|]. split; [split; assumption|reflexivity].
  - destruct (frame_get i ltac:(lia)) as (_ & _ & _ & T & R).
    set (t := rd (gof_temporal_idx g) i) in *. set (u := up_switch g i). set (r := rd (gof_num_ref_pics g) i) in *.
    destruct (set_frame_ok v i t u r V ltac:(unfold kMaxVp9FramesInGof; lia)) as (v1 & E1 & V1 & N1 & T1 & U1 & R1 & D1).
    destruct (reads_diffs i (Z.to_nat r) ltac:(lia) 0 v1 ltac:(lia) ltac:(lia) V1) as (v2 & Rd2 & V2 & N2 & T2 & U2 & R2 & Din & Dout).
    destruct (IH (i + 1) v2 ltac:(lia) ltac:(lia)) as (v' & Rd & S' & N').
    { split; [exact V2|]. destruct V as [VT VU VR VD]. change kMaxVp9RefPics with 3 in *. unfold kMaxVp9FramesInGof in *. intros j Hj.
      unfold up_switch. rewrite T2, U2, R2, T1, U1, R1, !upd_wr by lia. rewrite !rd_wr by lia.
      rewrite nth_upd by (unfold zlen in VU; lia).
      destruct (Z.eqb_spec j i) as [->|Hne].
      - rewrite Nat.eqb_refl. do 3 (split; [reflexivity|]). fold r. intros q Hq. apply Din. lia.
      - rewrite (proj2 (Nat.eqb_neq (Z.to_nat j) (Z.to_nat i))) by lia. destruct (S j ltac:(lia)) as (S1 & S2 & S3 & S4).
        do 3 (split; [assumption|]). intros q Hq.
        assert (Hr3 : 0 <= rd (gof_num_ref_pics g) j < 4) by (destruct (frame_get j ltac:(lia)); tauto).
        rewrite Dout, D1 by lia. now apply S4. }
    exists v'. replace (i + 1 + Z.of_nat n) with (i + Z.of_nat (Datatypes.S n)) in S' by lia. split; [|split; [exact S'|congruence]].
    eapply reads_bind; [apply (reads_value _ 3); lia|]. eapply reads_bind; [apply reads_flag|].
    eapply reads_bind; [apply (reads_value _ 2); lia|]. eapply reads_bind; [now apply (reads_ConsumeBits (to_bits 2 0))|].
    rewrite nz_flag. eapply reads_lift; [exact E1|]. eapply reads_bind; [exact Rd2|exact Rd].
Qed.
End Frames.
Lemma ss_gof_ok h : ss_ok h -> gof_ok (gof h).
Proof. intros []. now split. Qed.

Definition ss_bits (h : RTPVideoHeaderVP9) : list bool :=
  let n := num_frames_in_gof (gof h) in
  to_bits 3 (num_spatial_layers h - 1) ++ [spatial_layer_resolution_present h] ++ [0 <? n] ++ to_bits 3 0 ++
  (if spatial_layer_resolution_present h then size_bits (Z.to_nat (num_spatial_layers h)) h 0 else []) ++
  (if 0 <? n then to_bits 8 n else []) ++ frame_bits (Z.to_nat n) (gof h) 0.

Lemma writes_ss h : ss_ok h -> writes (WriteSsData h) (ss_bits h).
Proof.
  intros H. pose proof (ss_gof_ok h H) as G. pose proof (so_layers h H) as L. pose proof (so_frames h H) as F.
  unfold WriteSsData, ss_bits. rewrite u64_id by (unfold in_u64; lia).
  apply writes_bind; [apply (writes_bits _ 3); lia|]. apply writes_bind; [apply writes_flag|].
  apply writes_bind; [apply writes_flag|]. apply writes_bind; [apply (writes_bits _ 3); lia|].
  apply writes_bind; [apply writes_if; intros _; apply writes_sizes; [exact H|lia|lia]|].
  apply writes_bind; [|apply writes_frames; [exact G|lia|lia]].
  apply writes_if. intros _. unfold WriteUInt8. rewrite u8_id by (unfold in_u8; lia). apply (writes_bits _ 8). lia.
Qed.

(** What the parser makes of the scalability structure. *)
Definition same_ss (h v : RTPVideoHeaderVP9) : Prop :=
  num_spatial_layers v = num_spatial_layers h /\
  spatial_layer_resolution_present v = spatial_layer_resolution_present h /\
  (spatial_layer_resolution_present h = true ->
     agree (width9 v) (width9 h) (num_spatial_layers h) /\ agree (height9 v) (height9 h) (num_spatial_layers h)) /\
  num_frames_in_gof (gof v) = num_frames_in_gof (gof h) /\
  same_frames (gof h) (gof v) (num_frames_in_gof (gof h)).

Lemma reads_ss h v : ss_ok h -> vp9_wf v ->
  exists ws hs g, reads (ParseSsData v) (ss_bits h)
      (set_ss v (num_spatial_layers h) (spatial_layer_resolution_present h) ws hs g) /\
    same_ss h (set_ss v (num_spatial_layers h) (spatial_layer_resolution_present h) ws hs g).
Proof.
  intros H [_ _ W1 W2 [G1 G2 G3 G4]]. unfold kMaxVp9NumberOfSpatialLayers in *.
  pose proof (ss_gof_ok h H) as G. pose proof (so_layers h H) as L. pose proof (so_frames h H) as F.
  set (n := num_frames_in_gof (gof h)) in *. set (y := spatial_layer_resolution_present h).
  assert (Sz : exists ws hs,
    reads (if y then parse_sizes (Z.to_nat (num_spatial_layers h)) 0 (width9 v) (height9 v) else ret (width9 v, height9 v))
      (if y then size_bits (Z.to_nat (num_spatial_layers h)) h 0 else []) (ws, hs) /\
    (y = true -> agree ws (width9 h) (num_spatial_layers h) /\ agree hs (height9 h) (num_spatial_layers h))).
  { destruct y; [|exists (width9 v), (height9 v); split; [apply reads_ret|discriminate]].
    destruct (reads_sizes h (Z.to_nat (num_spatial_layers h)) H 0 (width9 v) (height9 v)) as (ws & hs & R & _ & _ & A1 & A2);
      try lia; try (intros j Hj; lia). rewrite Z.add_0_l, Z2Nat.id in A1, A2 by lia. exists ws, hs. auto. }
  destruct Sz as (ws & hs & Rs & As).
  destruct (reads_frames (gof h) G (Z.to_nat n) 0 (set_num_frames (set_num_frames (gof v) 0) n)) as (g & Rf & Sf & Nf);
    try lia; [split; [now split|intros j Hj; lia]|].
  rewrite Z.add_0_l, Z2Nat.id in Sf by lia. exists ws, hs, g. split.
  - unfold ParseSsData, ss_bits. fold n y.
    eapply reads_bind; [apply (reads_value _ 3); lia|]. eapply reads_bind; [apply reads_flag|].
    eapply reads_bind; [apply reads_flag|]. eapply reads_bind; [now apply (reads_ConsumeBits (to_bits 3 0))|].
    rewrite !nz_flag. replace (num_spatial_layers h - 1 + 1) with (num_spatial_layers h) by lia.
    eapply reads_bind; [exact Rs|]. eapply (reads_bind _ _ _ _ n).
    + destruct (Z.ltb_spec 0 n); [apply (reads_value _ 8); lia|]. replace n with 0 by lia. apply reads_ret.
    + rewrite <- (app_nil_r (frame_bits _ _ _)). eapply reads_bind; [exact Rf|apply reads_ret].
  - repeat split; try apply Sf; try apply As; auto.
Qed.

(** *** The whole descriptor *)

Definition desc_bits (h : RTPVideoHeaderVP9) (i : PacketInfo) : list bool :=
  let v := ss_data_available h && layer_begin i in
  let r := inter_pic_predicted h && flexible_mode h in
  [PictureIdPresent h] ++ [inter_pic_predicted h] ++ [LayerInfoPresent h] ++ [flexible_mode h] ++
  [layer_begin i] ++ [layer_end i] ++ [v] ++ to_bits 1 0 ++
  (if PictureIdPresent h then pic_bits h else []) ++ (if LayerInfoPresent h then layer_bits h else []) ++
  (if r then ref_bits (Z.to_nat (num_ref_pics h)) h 0 else []) ++ (if v then ss_bits h else []).

Lemma present_pic h : picture_id h <> kNoPictureId -> PictureIdPresent h = true.
Proof.
  intros H. unfold PictureIdPresent, PictureIdLength. destruct (Z.eqb_spec (picture_id h) kNoPictureId); [easy|]. now case_if.
Qed.

Lemma writes_descriptor h i : vp9_ok h -> writes (descriptor_op h i) (desc_bits h i).
Proof.
  intros H. unfold descriptor_op, desc_bits. do 7 (apply writes_bind; [apply writes_flag|]).
  apply writes_bind; [apply (writes_bits _ 1); lia|]. apply writes_bind; [apply writes_if; now apply writes_pic|].
  apply writes_bind; [apply writes_if; intros _; now apply writes_layer|].
  apply writes_bind; apply writes_if; intros C.
  - pose proof (ho_refs h H C) as R. apply writes_ref_indices; [exact R|]. apply present_pic, R.
  - apply andb_true_iff in C. apply writes_ss, H, C.
Qed.

(** The header that the parser makes of a packet's descriptor. *)
Record parsed_as (h : RTPVideoHeaderVP9) (i : PacketInfo) (v : RTPVideoHeaderVP9) : Prop := {
  pa_flags : inter_pic_predicted v = inter_pic_predicted h /\ flexible_mode v = flexible_mode h /\
    beginning_of_frame v = layer_begin i /\ end_of_frame v = layer_end i /\
    ss_data_available v = ss_data_available h && layer_begin i;
  pa_pic : picture_id v = picture_id h /\ (PictureIdPresent h = true -> max_picture_id v = max_picture_id h);
  pa_layers : LayerInfoPresent h = true ->
    temporal_idx v = TemporalIdxField h 0 /\ spatial_idx v = SpatialIdxField h 0 /\
    temporal_up_switch v = temporal_up_switch h /\ inter_layer_predicted v = inter_layer_predicted h /\
    (flexible_mode h = false -> tl0_pic_idx v = Tl0PicIdxField h 0);
  pa_refs : inter_pic_predicted h && flexible_mode h = true ->
    num_ref_pics v = num_ref_pics h /\ copied h v (num_ref_pics h);
  pa_ss : ss_data_available h && layer_begin i = true -> same_ss h v
}.


(** The header before the fields that are optional. *)
Definition stage0 (v h : RTPVideoHeaderVP9) (i : PacketInfo) : RTPVideoHeaderVP9 :=
  set_layers (set_flags (InitRTPVideoHeaderVP9 v) (inter_pic_predicted h) (flexible_mode h)
    (layer_begin i) (layer_end i) (ss_data_available h && layer_begin i)) kNoTemporalIdx false 0 false.
Definition stage2 (v h : RTPVideoHeaderVP9) (i : PacketInfo) : RTPVideoHeaderVP9 :=
  let v := stage0 v h i in
  let v := if PictureIdPresent h then set_picture_id v (picture_id h) (max_picture_id h) else v in
  if LayerInfoPresent h then with_layers v h else v.

Lemma stage2_wf v h i : vp9_wf v -> vp9_wf (stage2 v h i).
Proof.
  intros [W1 W2 W3 W4 W5]. unfold stage2, with_layers.
  destruct (PictureIdPresent h), (LayerInfoPresent h), (flexible_mode h); now split.
Qed.

Lemma stage2_parsed v h i :
  PictureIdPresent h = true \/ picture_id h = kNoPictureId ->
  (LayerInfoPresent h = true ->
    temporal_idx (stage2 v h i) = TemporalIdxField h 0 /\ spatial_idx (stage2 v h i) = SpatialIdxField h 0 /\
    temporal_up_switch (stage2 v h i) = temporal_up_switch h /\
    inter_layer_predicted (stage2 v h i) = inter_layer_predicted h /\
    (flexible_mode h = false -> tl0_pic_idx (stage2 v h i) = Tl0PicIdxField h 0)) /\
  picture_id (stage2 v h i) = picture_id h /\
  (PictureIdPresent h = true -> max_picture_id (stage2 v h i) = max_picture_id h) /\
  inter_pic_predicted (stage2 v h i) = inter_pic_predicted h /\ flexible_mode (stage2 v h i) = flexible_mode h /\
  beginning_of_frame (stage2 v h i) = layer_begin i /\ end_of_frame (stage2 v h i) = layer_end i /\
  ss_data_available (stage2 v h i) = ss_data_available h && layer_begin i.
Proof.
  intros P. unfold stage2, with_layers.
  destruct (PictureIdPresent h) eqn:E, (LayerInfoPresent h), (flexible_mode h) eqn:Fl; cbn;
    (destruct P as [P|P]; [|rewrite ?P in *]); repeat split; try easy; auto; discriminate.
Qed.

Lemma reads_descriptor h i v : vp9_ok h -> vp9_wf v ->
  exists v', reads (parse_descriptor v) (desc_bits h i)
      (v', (inter_pic_predicted h, LayerInfoPresent h, layer_begin i, ss_data_available h && layer_begin i)) /\
    parsed_as h i v'.
Proof.
  intros H W. pose proof (stage2_wf v h i W) as W2.
  destruct (stage2_parsed v h i) as (PL & PP & PM & P1 & P2 & P3 & P4 & P5).
  { destruct (Z.eq_dec (picture_id h) kNoPictureId); [now right|left; now apply present_pic]. }
  set (r := inter_pic_predicted h && flexible_mode h). set (b := ss_data_available h && layer_begin i) in *.
  assert (Refs : exists ds ids,
    (r = true -> reads (ParseRefIndices (stage2 v h i)) (ref_bits (Z.to_nat (num_ref_pics h)) h 0)
       (set_refs (stage2 v h i) (num_ref_pics h) ds ids) /\ copied h (set_refs (stage2 v h i) (num_ref_pics h) ds ids) (num_ref_pics h))).
  { destruct r eqn:E; [|exists [], []; discriminate]. pose proof (ho_refs h H E) as R.
    destruct (reads_ref_indices h R H (stage2 v h i) PP (PM (present_pic h (ro_pic h R))) W2) as (ds & ids & Rr).
    exists ds, ids. auto. }
  destruct Refs as (ds & ids & Rr).
  set (v3 := if r then set_refs (stage2 v h i) (num_ref_pics h) ds ids else stage2 v h i).
  assert (W3 : vp9_wf v3).
  { unfold v3. destruct r; [|exact W2]. destruct (Rr eq_refl) as [_ (C1 & C2 & _)]. destruct W2. now split. }
  assert (Ss : exists ws hs g,
    (b = true -> reads (ParseSsData v3) (ss_bits h)
      (set_ss v3 (num_spatial_layers h) (spatial_layer_resolution_present h) ws hs g) /\
     same_ss h (set_ss v3 (num_spatial_layers h) (spatial_layer_resolution_present h) ws hs g))).
  { destruct b eqn:E; [|exists [], [], (gof h); discriminate]. apply andb_true_iff in E. destruct E as [E _].
    destruct (reads_ss h v3 (ho_ss h H E) W3) as (ws & hs & g & Rs). exists ws, hs, g. auto. }
  destruct Ss as (ws & hs & g & Rs).
  exists (if b then set_ss v3 (num_spatial_layers h) (spatial_layer_resolution_present h) ws hs g else v3). split.
  - unfold parse_descriptor, desc_bits. fold r b. do 7 (eapply reads_bind; [apply reads_flag|]).
    eapply reads_bind; [now apply (reads_ConsumeBits (to_bits 1 0))|]. rewrite !nz_flag. fold (stage0 v h i) r.
    eapply reads_bind; [apply reads_if; now apply reads_pic|].
    eapply reads_bind.
    { apply reads_if. intros _. apply reads_layer; [exact H|]. now destruct (PictureIdPresent h). }
    fold (stage2 v h i). eapply reads_bind; [apply reads_if; intros C; now apply Rr|]. fold v3.
    rewrite <- (app_nil_r (if b then _ else _)). eapply reads_bind; [apply reads_if; intros C; now apply Rs|apply reads_ret].
  - destruct b eqn:Eb, r eqn:Er; split; fold r b; rewrite ?Eb, ?Er; unfold v3; cbn; auto 6; try discriminate;
      intros _; try (apply Rs; auto); (split; [reflexivity|apply (Rr eq_refl)]).
Qed.

(** *** Lengths *)

Lemma zlen_bit (b : bool) : zlen [b] = 1.
Proof. reflexivity. Qed.
Lemma zlen_ref_bits h n : forall i, zlen (ref_bits n h i) = 8 * Z.of_nat n.
Proof. induction n as [|n IH]; intros i; cbn [ref_bits]; [reflexivity|]. rewrite !zlen_app, IH, zlen_to_bits. change (zlen [_]) with 1. lia. Qed.
Lemma zlen_size_bits h n : forall i, zlen (size_bits n h i) = 32 * Z.of_nat n.
Proof. induction n as [|n IH]; intros i; cbn [size_bits]; [reflexivity|]. rewrite !zlen_app, IH, !zlen_to_bits. lia. Qed.
Lemma zlen_diff_bits g i n : forall r, zlen (diff_bits n g i r) = 8 * Z.of_nat n.
Proof. induction n as [|n IH]; intros r; cbn [diff_bits]; [reflexivity|]. rewrite !zlen_app, IH, zlen_to_bits. lia. Qed.

Lemma zlen_frame_bits g n : gof_ok g -> forall i len, 0 <= i -> i + Z.of_nat n <= 255 ->
  exists m, add_ref_pics n g i len = Ok m /\ 8 * (m + Z.of_nat n) = 8 * len + zlen (frame_bits n g i).
Proof.
  intros G. induction n as [|n IH]; intros i len Hi Hn; cbn [add_ref_pics frame_bits].
  - exists len. split; [reflexivity|]. rewrite (@zlen_nil bool). lia.
  - destruct (frame_get g G i ltac:(lia)) as (_ & _ & E & _ & R). rewrite E. cbn [bind].
    destruct (IH (i + 1) (len + rd (gof_num_ref_pics g) i) ltac:(lia) ltac:(lia)) as (m & Em & Lm).
    exists m. split; [exact Em|]. rewrite !zlen_app, !zlen_to_bits, zlen_diff_bits. change (zlen [_]) with 1. lia.
Qed.

Lemma add_ref_pics_mono k g : Forall (fun r => 0 <= r < 4) (gof_num_ref_pics g) -> gof_wf g ->
  forall i len m, 0 <= i -> i + Z.of_nat k <= 255 -> add_ref_pics k g i len = Ok m -> len <= m.
Proof.
  intros R [_ _ W _]. unfold kMaxVp9FramesInGof in W.
  induction k as [|k IH]; intros i len m Hi Hk; cbn [add_ref_pics]; [intros [= ->]; lia|].
  rewrite get_rd by lia. cbn [bind]. intros Q.
  pose proof (Forall_nth_at (fun r => 0 <= r < 4) _ i R ltac:(lia)) as B. cbn in B. apply IH in Q; lia.
Qed.

Lemma ss_length h : vp9_ok h ->
  exists n, SsDataLength h = Ok n /\ 0 <= n /\ zlen (if ss_data_available h then ss_bits h else []) = 8 * n.
Proof.
  intros H. unfold SsDataLength. destruct (ss_data_available h) eqn:S; [|exists 0; repeat split; lia].
  pose proof (ho_ss h H S) as O. pose proof (so_frames h O) as F. pose proof (so_layers h O) as L. cbn [negb].
  unfold ss_bits. set (n := num_frames_in_gof (gof h)) in *.
  match goal with |- context [add_ref_pics _ _ _ ?l] => destruct (zlen_frame_bits (gof h) (Z.to_nat n) (ss_gof_ok h O) 0 l) as (m & E & Lm) end;
    try lia.
  exists m. split; [exact E|].
  pose proof (add_ref_pics_mono (Z.to_nat n) (gof h) (so_r h O) (so_gof h O) 0 _ m ltac:(lia) ltac:(lia) E) as Mo.
  rewrite !zlen_app, !zlen_to_bits. rewrite !zlen_bit.
  destruct (spatial_layer_resolution_present h), (Z.ltb_spec 0 n); rewrite ?zlen_size_bits, ?zlen_to_bits, ?(@zlen_nil bool); lia.
Qed.

Definition header_length (h : RTPVideoHeaderVP9) (i : PacketInfo) : res Z :=
  if layer_begin i then PayloadDescriptorLength h else Ok (PayloadDescriptorLengthMinusSsData h).

Lemma desc_length h i : vp9_ok h ->
  exists n, header_length h i = Ok n /\ zlen (desc_bits h i) = 8 * n /\ 1 <= n.
Proof.
  intros H. destruct (ss_length h H) as (s & Es & Hs & Ls).
  assert (C : zlen (desc_bits h i) =
    8 * (PayloadDescriptorLengthMinusSsData h + if layer_begin i then s else 0) /\ 1 <= PayloadDescriptorLengthMinusSsData h).
  { unfold desc_bits, PayloadDescriptorLengthMinusSsData, kFixedPayloadDescriptorBytes.
    rewrite !zlen_app, zlen_to_bits, !zlen_bit.
    assert (P : zlen (if PictureIdPresent h then pic_bits h else []) = 8 * PictureIdLength h /\ 0 <= PictureIdLength h).
    { unfold pic_bits, PictureIdPresent. assert (Q : PictureIdLength h = 0 \/ PictureIdLength h = 1 \/ PictureIdLength h = 2).
      { unfold PictureIdLength. repeat case_if; lia. }
      destruct Q as [->|[->| ->]]; (split; [reflexivity|lia]). }
    assert (L : zlen (if LayerInfoPresent h then layer_bits h else []) = 8 * LayerInfoLength h /\ 0 <= LayerInfoLength h).
    { unfold layer_bits, LayerInfoPresent, LayerInfoLength. destruct (andb _ _); [split; [reflexivity|lia]|].
      destruct (flexible_mode h); cbn [Z.ltb Z.compare]; rewrite !zlen_app, ?zlen_to_bits, ?zlen_bit, ?(@zlen_nil bool); lia. }
    assert (R : zlen (if inter_pic_predicted h && flexible_mode h then ref_bits (Z.to_nat (num_ref_pics h)) h 0 else []) =
      8 * RefIndicesLength h /\ 0 <= RefIndicesLength h).
    { unfold RefIndicesLength. rewrite <- negb_andb. destruct (inter_pic_predicted h && flexible_mode h) eqn:E; cbn [negb]; [|rewrite (@zlen_nil bool); lia].
      pose proof (ro_num h (ho_refs h H E)). rewrite zlen_ref_bits. lia. }
    destruct P as [-> P], L as [-> L], R as [-> R].
    destruct (layer_begin i); [rewrite andb_true_r, Ls|rewrite andb_false_r, (@zlen_nil bool)]; lia. }
  destruct C as [C C1]. unfold header_length, PayloadDescriptorLength. rewrite Es. cbn [bind].
  destruct (layer_begin i); eexists; (split; [reflexivity|]); lia.
Qed.

(** ** A packet round trips *)

Lemma bits_from_prefix a x y n : 8 * Z.of_nat n <= 8 * zlen a -> bits_from (a ++ x) 0 (8 * n) = bits_from (a ++ y) 0 (8 * n).
Proof.
  intros H. apply bits_from_ext. intros k Hk. unfold bit. rewrite !rd_app_l by dlia. reflexivity.
Qed.

Lemma WriteHeader_spec p i buffer n :
  vp9_ok (hdr_ p) -> header_length (hdr_ p) i = Ok n -> n <= max_payload_length_ p -> max_payload_length_ p <= zlen buffer ->
  max_payload_length_ p < 2 ^ 31 -> bytes buffer ->
  exists hb tl, WriteHeader p i buffer = Ok (hb ++ tl, Some n) /\ zlen hb = n /\ zlen (hb ++ tl) = zlen buffer /\
    bytes (hb ++ tl) /\ bits_from (hb ++ tl) 0 (8 * Z.to_nat n) = desc_bits (hdr_ p) i.
Proof.
  intros H En Hn Hb Hm B. destruct (desc_length (hdr_ p) i H) as (n' & En' & L & N1). rewrite En in En'. injection En' as <-.
  assert (W : wf (new_BitBuffer buffer (max_payload_length_ p))) by (apply wf_new; [exact B|lia|exact Hm]).
  destruct (writes_descriptor (hdr_ p) i H _ W) as (b' & E & W' & C & Z & P & D & _).
  { rewrite L. unfold left, pos. cbn [byte_count_ byte_offset_ bit_offset_ new_BitBuffer]. lia. }
  assert (Po : pos b' = 8 * n) by (rewrite P, L; unfold pos; cbn [byte_offset_ bit_offset_ new_BitBuffer]; lia).
  assert (Off : byte_offset_ b' = n) by (destruct W'; unfold pos in Po; lia).
  exists (firstn (Z.to_nat n) (bytes_ b')), (skipn (Z.to_nat n) (bytes_ b')). rewrite firstn_skipn.
  unfold WriteHeader. rewrite E. cbn [bind]. change (fst (GetCurrentOffset b')) with (byte_offset_ b'). rewrite Off.
  split; [reflexivity|]. cbn [bytes_ new_BitBuffer] in Z. split; [apply zlen_firstn; lia|]. split; [exact Z|]. split; [apply W'|].
  unfold done in D. rewrite Po in D. cbn [pos byte_offset_ bit_offset_ new_BitBuffer] in D.
  replace (8 * Z.to_nat n)%nat with (Z.to_nat (8 * n)) by lia. exact D.
Qed.

Lemma new_rest mem len n : 0 <= n <= len -> rest (new_BitBuffer mem len) =
  bits_from mem 0 (8 * Z.to_nat n) ++ bits_from mem (8 * n) (8 * Z.to_nat (len - n)).
Proof.
  intros H. unfold rest, left, pos. cbn [byte_count_ byte_offset_ bit_offset_ bytes_ new_BitBuffer].
  replace (Z.to_nat (8 * len - (8 * 0 + 0))) with (8 * Z.to_nat n + 8 * Z.to_nat (len - n))%nat by lia.
  rewrite bits_from_app. f_equal. f_equal. lia.
Qed.

(** Where the bytes start with the descriptor, the media payload is the rest. *)
Lemma Parse_descriptor pp mem len h i n :
  bytes mem -> len <= zlen mem -> len < 2 ^ 31 -> vp9_wf (VP9 pp) -> vp9_ok h ->
  header_length h i = Ok n -> n < len -> bits_from mem 0 (8 * Z.to_nat n) = desc_bits h i ->
  exists q, Parse pp mem len = Ok (Some q) /\ payload q = n /\ payload_length q = len - n /\
    parsed_as h i (VP9 q) /\ codec q = kRtpVideoVp9 /\
    frame_type q = (if inter_pic_predicted h then kVideoFrameDelta else kVideoFrameKey) /\
    isFirstPacket q = layer_begin i && (negb (LayerInfoPresent h) || negb (inter_layer_predicted h)).
Proof.
  intros B L M W H En Hn Bits. destruct (desc_length h i H) as (n' & En' & Ld & N1). rewrite En in En'. injection En' as <-.
  assert (Wb : wf (new_BitBuffer mem len)) by (apply wf_new; [exact B|lia|exact M]).
  destruct (reads_descriptor h i (VP9 pp) H W) as (v & R & Pa).
  destruct (R _ (bits_from mem (8 * n) (8 * Z.to_nat (len - n))) Wb) as (b' & E & W' & Rs & _ & C).
  { now rewrite (new_rest mem len n), Bits by lia. }
  destruct (parse_descriptor_safe (VP9 pp) W _ Wb) as (o & b2 & E2 & _ & Wv). rewrite E in E2. injection E2 as <- <-. cbn [fst] in Wv.
  assert (Lf : left b' = 8 * (len - n)) by (rewrite <- (zlen_rest b' W'), Rs, zlen_bits_from; lia).
  unfold Parse. replace (len =? 0) with false by lia. rewrite E. cbn [bind].
  assert (Fi : layer_begin i && (negb (LayerInfoPresent h) || negb (inter_layer_predicted v)) =
    layer_begin i && (negb (LayerInfoPresent h) || negb (inter_layer_predicted h))).
  { destruct (LayerInfoPresent h) eqn:Q; [|reflexivity]. destruct (pa_layers h i v Pa Q) as (_ & _ & _ & -> & _). reflexivity. }
  destruct Wv as [_ _ V3 V4 _]. unfold kMaxVp9NumberOfSpatialLayers in *.
  destruct (andb _ (spatial_layer_resolution_present v)); [rewrite !(get_ok _ 0 0) by lia|]; cbn [bind];
    rewrite Remaining_left, Lf by exact W'; replace (8 * (len - n) / 8) with (len - n) by dlia;
    (replace (len - n =? 0) with false by lia); eexists; (split; [reflexivity|]);
    cbn [payload payload_length set_payload set_first VP9 set_VP9 codec set_codec frame_type set_frame_type isFirstPacket set_size];
    (split; [lia|]); (split; [reflexivity|]); (split; [exact Pa|]); auto.
Qed.

(** C23. A VP9 packet round trips: for every header within its ranges and every
    queued packet whose descriptor and bytes fit, [NextPacket] takes it from the
    queue and fills a buffer that is large enough with at most the maximal
    payload length; [Parse] of these bytes succeeds whatever the parsed payload
    held before, the media payload is the packet's part of the frame, and the
    header comes back: flags, picture identifier, layers, the reference
    pictures with the identifiers they name modulo the cycle, and in the first
    packet the whole scalability structure. *)
Theorem Vp9_packet_roundtrip p i rest buffer pp n :
  vp9_ok (hdr_ p) -> packets_ p = i :: rest -> header_length (hdr_ p) i = Ok n ->
  1 <= size i -> n + size i <= max_payload_length_ p -> max_payload_length_ p < 2 ^ 31 ->
  0 <= payload_start_pos i -> payload_start_pos i + size i <= zlen (payload_ p) -> bytes (payload_ p) ->
  max_payload_length_ p <= zlen buffer -> bytes buffer -> vp9_wf (VP9 pp) ->
  exists buffer' last q,
    NextPacket p buffer = Ok (set_packets p rest, buffer', Some (n + size i, last)) /\
    zlen buffer' = zlen buffer /\
    Parse pp buffer' (n + size i) = Ok (Some q) /\
    slice buffer' (payload q) (payload_length q) = slice (payload_ p) (payload_start_pos i) (size i) /\
    parsed_as (hdr_ p) i (VP9 q) /\ codec q = kRtpVideoVp9 /\
    frame_type q = (if inter_pic_predicted (hdr_ p) then kVideoFrameDelta else kVideoFrameKey) /\
    isFirstPacket q =
      layer_begin i && (negb (LayerInfoPresent (hdr_ p)) || negb (inter_layer_predicted (hdr_ p))).
Proof.
  intros H Hp En Hs Hn Hm S0 S1 Bp Hb B W.
  destruct (WriteHeader_spec (set_packets p rest) i buffer n H En) as (hb & tl & E & Lh & Lz & Bb & Bits); try assumption;
    try (cbn [max_payload_length_ set_packets]; lia).
  assert (Lt : size i <= zlen tl) by (rewrite zlen_app in Lz; lia).
  set (body := slice (payload_ p) (payload_start_pos i) (size i)).
  assert (Lb : zlen body = size i) by (apply zlen_slice; lia).
  set (buffer' := hb ++ body ++ skipn (Z.to_nat (size i)) tl).
  assert (Lz' : zlen buffer' = zlen buffer).
  { unfold buffer'. rewrite <- Lz, !zlen_app, zlen_skipn by lia. lia. }
  assert (Bb' : bytes buffer').
  { unfold buffer'. apply Forall_app in Bb. destruct Bb as [B1 B2]. apply Forall_app. split; [exact B1|]. apply Forall_app.
    split; [apply bytes_slice, Bp|apply Forall_skipn, B2]. }
  destruct (desc_length (hdr_ p) i H) as (n' & En' & _ & N1). rewrite En in En'. injection En' as <-.
  destruct (Parse_descriptor pp buffer' (n + size i) (hdr_ p) i n) as (q & Ep & Q1 & Q2 & Q3); try assumption; try lia.
  { change (hdr_ (set_packets p rest)) with (hdr_ p) in Bits. rewrite <- Bits. apply bits_from_prefix. lia. }
  do 2 eexists. exists q. split.
  - unfold NextPacket. rewrite Hp. unfold WriteHeaderAndPayload. rewrite E. cbn [bind].
    change (payload_ (set_packets p rest)) with (payload_ p). rewrite <- Lh, memcpy_at by lia. cbn [bind]. rewrite Lh. reflexivity.
  - split; [exact Lz'|]. split; [exact Ep|]. split; [|exact Q3]. rewrite Q1, Q2. replace (n + size i - n) with (size i) by lia.
    transitivity (slice buffer' (zlen hb) (zlen body)); [now rewrite Lh, Lb|apply slice_mid].
Qed.

(** ** The packets cover the frame *)

Lemma CalcNextSize9_spec max rem : 1 <= max -> 1 <= rem ->
  1 <= CalcNextSize max rem <= max /\ CalcNextSize max rem <= rem.
Proof.
  intros Hm Hr. unfold CalcNextSize. replace ((max =? 0) || (rem =? 0)) with false by lia.
  change kBalancedMode with true. cbv iota. set (n := (rem + max - 1) / max).
  assert (N1 : 1 <= n) by (apply Z.div_le_lower_bound; lia).
  assert (N2 : n <= rem) by (apply Z.lt_succ_r, Z.div_lt_upper_bound; nia).
  assert (N3 : rem <= n * max).
  { pose proof (Z.div_mod (rem + max - 1) max ltac:(lia)) as D. pose proof (Z.mod_pos_bound (rem + max - 1) max ltac:(lia)).
    fold n in D. nia. }
  split; [split|].
  - apply Z.div_le_lower_bound; lia.
  - apply Z.lt_succ_r, Z.div_lt_upper_bound; nia.
  - apply Z.lt_succ_r, Z.div_lt_upper_bound; nia.
Qed.

(** The packets follow each other from the byte [total] to [finish]. *)
Fixpoint tiles (total finish : Z) (infos : list PacketInfo) : Prop :=
  match infos with
  | [] => total = finish
  | i :: infos => payload_start_pos i = total /\ 1 <= size i /\ tiles (total + size i) finish infos
  end.

(** Its marks are right and it fits next to its descriptor. *)
Definition sound (p : RtpPacketizerVp9) (i : PacketInfo) : Prop :=
  layer_begin i = (payload_start_pos i =? 0) /\
  layer_end i = (payload_start_pos i + size i =? payload_size_ p) /\
  exists n, header_length (hdr_ p) i = Ok n /\ n + size i <= max_payload_length_ p.

Lemma generate9_spec p d : PayloadDescriptorLength (hdr_ p) = Ok d ->
  PayloadDescriptorLengthMinusSsData (hdr_ p) <= d -> d + 1 <= max_payload_length_ p ->
  forall fuel total packets, 0 <= total <= payload_size_ p -> payload_size_ p - total <= Z.of_nat fuel ->
  exists infos, generate_loop fuel p d total packets = Ok (packets ++ infos) /\
    tiles total (payload_size_ p) infos /\ Forall (sound p) infos.
Proof.
  intros Ed Hd Hm. induction fuel as [|fuel IH]; intros total packets Ht Hf; cbn [generate_loop];
    (destruct (Z.ltb_spec total (payload_size_ p)) as [Hlt|Hge];
      [|exists []; rewrite app_nil_r; split; [reflexivity|]; split; [cbn; lia|constructor]]); [lia|].
  set (h := if total =? 0 then d else _). set (n := CalcNextSize _ _).
  assert (Hn : 1 <= n <= max_payload_length_ p - h /\ n <= payload_size_ p - total).
  { apply CalcNextSize9_spec; [unfold h; case_if|]; lia. }
  replace (n =? 0) with false by lia. unfold QueuePacket.
  destruct (IH (total + n) (packets ++ [mk_packet total n (total =? 0) (payload_size_ p - total =? n)])) as (infos & E & T & S); try lia.
  eexists. rewrite E, <- app_assoc. split; [reflexivity|]. split; [cbn; repeat split; [lia|exact T]|].
  constructor; [|exact S]. split; [reflexivity|]. cbn [layer_end payload_start_pos size layer_begin]. split; [lia|].
  exists h. unfold header_length, h. cbn [layer_begin]. destruct (total =? 0); split; auto; unfold h in Hn; lia.
Qed.

(** The packets of a VP9 frame cover it: for every header within its ranges
    and every frame, where the maximal payload length has no room for a byte
    next to the first descriptor, nothing is queued; otherwise
    [GeneratePackets] ends and queues packets that follow each other from the
    first byte of the frame to the last, each with a byte at least and no more
    than fits next to its descriptor, which carries the scalability structure in
    the first packet only; the first is marked as the beginning and the last as
    the end, and no other. *)
Theorem Vp9_GeneratePackets_covers p :
  vp9_ok (hdr_ p) -> 0 <= payload_size_ p ->
  exists d, PayloadDescriptorLength (hdr_ p) = Ok d /\
    if max_payload_length_ p <? d + 1 then GeneratePackets p = Ok p
    else exists infos, GeneratePackets p = Ok (set_packets p (packets_ p ++ infos)) /\
      tiles 0 (payload_size_ p) infos /\ Forall (sound p) infos.
Proof.
  intros H Hs. destruct (ss_length (hdr_ p) H) as (s & Es & Hs0 & _).
  assert (Ed : PayloadDescriptorLength (hdr_ p) = Ok (PayloadDescriptorLengthMinusSsData (hdr_ p) + s)).
  { unfold PayloadDescriptorLength. now rewrite Es. }
  eexists. split; [exact Ed|]. unfold GeneratePackets. rewrite Ed. cbn [bind].
  destruct (Z.ltb_spec (max_payload_length_ p) (PayloadDescriptorLengthMinusSsData (hdr_ p) + s + 1)); [reflexivity|].
  destruct (generate9_spec p _ Ed ltac:(lia) ltac:(lia) (Z.to_nat (payload_size_ p)) 0 (packets_ p)) as (infos & E & T & S);
    try lia. exists infos. rewrite E. cbn [bind]. auto.
Qed.

(** ** Examples *)

Definition example_gof : GofInfoVP9 :=
  mk_gof 2 (0 :: 1 :: repeat 0 253) (true :: true :: repeat false 253) (1 :: 2 :: repeat 0 253)
    (4 :: 0 :: 0 :: 1 :: 2 :: repeat 0 760).
Definition example_header : RTPVideoHeaderVP9 :=
  mk_vp9 true true false false true 300 kMaxTwoBytePictureId 7 2 1 true false kNoGofIdx 2 [1; 5; 0] [0; 0; 0]
    2 true [320; 640; 0; 0; 0; 0; 0; 0] [180; 360; 0; 0; 0; 0; 0; 0] example_gof.
Definition example_packetizer : RtpPacketizerVp9 :=
  mk_packetizer example_header 40 [1; 2; 3; 4; 5; 6; 7; 8; 9; 10] 10 [].

Lemma example_header_ok : vp9_ok example_header.
Proof.
  split; cbn; try (unfold in_u8, kMaxTwoBytePictureId; intuition lia); intros _;
    (split; cbn; try (split; [reflexivity|]); try (repeat constructor; unfold in_u8, in_u16; lia); try reflexivity; try lia; try discriminate).
Qed.

Definition example_payload : ParsedPayload :=
  mk_payload 0 0 kEmptyFrame 1 1 false 0 kRtpVideoNone InitRTPVideoHeaderVP8 example_header (mk_h264 0 kH264FuA).

Lemma example_wf : vp9_wf (VP9 example_payload).
Proof. split; try reflexivity. split; reflexivity. Qed.

Lemma Vp9_GeneratePackets_covers_witness :
  exists d, PayloadDescriptorLength example_header = Ok d /\
    if 40 <? d + 1 then GeneratePackets example_packetizer = Ok example_packetizer
    else exists infos, GeneratePackets example_packetizer = Ok (set_packets example_packetizer infos) /\
      tiles 0 10 infos /\ Forall (sound example_packetizer) infos.
Proof. apply (Vp9_GeneratePackets_covers example_packetizer); [apply example_header_ok|vm_compute; discriminate]. Defined.

Lemma Vp9_packet_roundtrip_witness :
  let p := set_packets example_packetizer [mk_packet 0 5 true false; mk_packet 5 5 false true] in
  exists buffer' last q,
    NextPacket p (repeat 0 40) = Ok (set_packets p [mk_packet 5 5 false true], buffer', Some (26, last)) /\
    zlen buffer' = 40 /\
    Parse example_payload buffer' 26 = Ok (Some q) /\
    slice buffer' (payload q) (payload_length q) = [1; 2; 3; 4; 5] /\
    parsed_as example_header (mk_packet 0 5 true false) (VP9 q) /\ codec q = kRtpVideoVp9 /\
    frame_type q = kVideoFrameDelta /\ isFirstPacket q = true.
Proof.
  intros p.
  apply (Vp9_packet_roundtrip p (mk_packet 0 5 true false) [mk_packet 5 5 false true] (repeat 0 40) example_payload 21);
    try reflexivity; try (vm_compute; congruence).
  - exact example_header_ok.
  - now apply bytes_forallb.
  - now apply bytes_forallb.
  - exact example_wf.
Defined.

Lemma Vp9_Parse_safe_witness :
  exists r, Parse example_payload [0x8a; 0x81; 0x2c; 0x18; 0x01; 7] 6 = Ok r /\
    match r with
    | Some q => ends_packet 6 q /\ vp9_wf (VP9 q)
    | None => True
    end.
Proof.
  apply (Vp9_Parse_safe example_payload [0x8a; 0x81; 0x2c; 0x18; 0x01; 7] 6);
    [now apply bytes_forallb|split; vm_compute; discriminate|reflexivity|exact example_wf].
Defined.
End RtpVp9Facts.
