(* ===== verification/H264Sps.v ===== *)
(** * The resolution in an H.264 sequence parameter set

    Models src/orbit/webrtc/modules/rtp_rtcp/source/h264_sps_parser.cc: the bytes
    of the parameter set are freed of the emulation bytes and read as a sequence
    of fixed fields and exponential Golomb codes up to the crop offsets.  The
    theorems: removing the emulation bytes inverts their insertion; parsing any
    bytes ends and reads nothing outside them; a parameter set of any profile is
    read back, and the two sizes are the ones of the standard except where a
    picture of fields with chroma arrays is cropped at its top or bottom. *)

From S2P Require Import Prelude Wire BitBuffer.
Import Wire BitBuffer.
#[local] Open Scope op_scope.

Module H264Sps.

(** ** The parser *)

(** [for (size_t i = 0; i < byte_length_;)]: the buffer of the RBSP. *)
Definition emulation_at (sps : list Z) (i : Z) : res bool :=
  if 3 <=? zlen sps - i then
    let! a := byte sps i in
    if a =? 0 then
      let! b := byte sps (i + 1) in
      if b =? 0 then
        let! c := byte sps (i + 2) in Ok (c =? 3)
      else Ok false
    else Ok false
  else Ok false.

Fixpoint rbsp_loop (fuel : nat) (sps : list Z) (i : Z) (rbsp_buffer : list Z) : res (list Z) :=
  if i <? zlen sps then
    match fuel with
    | O => NoFuel
    | S fuel =>
        let! emulation := emulation_at sps i in
        if emulation then rbsp_loop fuel sps (i + 3) (rbsp_buffer ++ slice sps i 2)
        else rbsp_loop fuel sps (i + 1) (rbsp_buffer ++ slice sps i 1)
    end
  else Ok rbsp_buffer.

Definition has_chroma_format (profile_idc : Z) : bool :=
  existsb (Z.eqb profile_idc) [100; 110; 122; 244; 44; 83; 86; 118; 128; 138; 139; 134].

(** [chroma_format_idc] and [separate_colour_plane_flag]. *)
Definition parse_chroma : op (Z * Z) :=
  let? chroma_format_idc := ReadExponentialGolomb in
  let? separate_colour_plane_flag := if chroma_format_idc =? 3 then ReadBits 1 else ret 0 in
  let? _ := ReadExponentialGolomb in
  let? _ := ReadExponentialGolomb in
  let? _ := ConsumeBits 1 in
  let? seq_scaling_matrix_present_flag := ReadBits 1 in
  if seq_scaling_matrix_present_flag =? 0 then ret (chroma_format_idc, separate_colour_plane_flag)
  else
    let? seq_scaling_list_present_flags := ReadBits (if chroma_format_idc =? 3 then 12 else 8) in
    if 0 <? seq_scaling_list_present_flags then fail
    else ret (chroma_format_idc, separate_colour_plane_flag).

(** [for (i = 0; i < num_ref_frames; ++i)]: a code takes a bit at least. *)
Fixpoint skip_codes (fuel : nat) (n : Z) : op unit :=
  if 0 <? n then
    match fuel with
    | O => fun _ => NoFuel
    | S fuel => let? _ := ReadExponentialGolomb in skip_codes fuel (n - 1)
    end
  else ret tt.

Definition parse_pic_order_cnt : op unit :=
  let? pic_order_cnt_type := ReadExponentialGolomb in
  if pic_order_cnt_type =? 0 then
    let? _ := ReadExponentialGolomb in ret tt
  else if pic_order_cnt_type =? 1 then
    let? _ := ConsumeBits 1 in
    let? _ := ReadExponentialGolomb in
    let? _ := ReadExponentialGolomb in
    let? num_ref_frames := ReadExponentialGolomb in
    fun b => skip_codes (S (Z.to_nat (RemainingBitCount b))) num_ref_frames b
  else ret tt.

(** The crop offsets, zero when the flag is. *)
Definition parse_crop : op (Z * Z * Z * Z) :=
  let? frame_cropping_flag := ReadBits 1 in
  if frame_cropping_flag =? 0 then ret (0, 0, 0, 0)
  else
    let? crop_left := ReadExponentialGolomb in
    let? crop_right := ReadExponentialGolomb in
    let? crop_top := ReadExponentialGolomb in
    let? crop_bottom := ReadExponentialGolomb in
    ret (crop_left, crop_right, crop_top, crop_bottom).

(** The members [width_] and [height_] from the fields; [int] and [uint32_t]
    wrap, and the members have 16 bits. *)
Definition resolution (chroma_format_idc separate_colour_plane_flag width_in_mbs_minus1
    height_in_map_units_minus1 frame_mbs_only_flag : Z) (crop : Z * Z * Z * Z) : Z * Z :=
  let '(l, r, t, b) := crop in
  let width := s32 (u32 (16 * u32 (width_in_mbs_minus1 + 1))) in
  let height :=
    s32 (u32 (u32 (16 * u32 (2 - frame_mbs_only_flag)) * u32 (height_in_map_units_minus1 + 1))) in
  let '(l, r, t, b) :=
    if negb (separate_colour_plane_flag =? 0) || (chroma_format_idc =? 0) then
      (l, r, u32 (t * u32 (2 - frame_mbs_only_flag)), u32 (b * u32 (2 - frame_mbs_only_flag)))
    else
      let '(l, r) :=
        if (chroma_format_idc =? 1) || (chroma_format_idc =? 2) then (u32 (l * 2), u32 (r * 2))
        else (l, r) in
      if chroma_format_idc =? 1 then (l, r, u32 (t * 2), u32 (b * 2)) else (l, r, t, b) in
  let width := s32 (u32 (u32 width - u32 (l + r))) in
  let height := s32 (u32 (u32 height - u32 (t + b))) in
  (u16 width, u16 height).

(** Everything after the RBSP was extracted. *)
Definition parse_fields : op (Z * Z) :=
  let? profile_idc := ReadUInt8 in
  let? _ := ConsumeBytes 1 in
  let? _ := ConsumeBytes 1 in
  let? _ := ReadExponentialGolomb in
  let? (chroma_format_idc, separate_colour_plane_flag) :=
    if has_chroma_format profile_idc then parse_chroma else ret (1, 0) in
  let? _ := ReadExponentialGolomb in
  let? _ := parse_pic_order_cnt in
  let? _ := ReadExponentialGolomb in
  let? _ := ConsumeBits 1 in
  let? pic_width_in_mbs_minus1 := ReadExponentialGolomb in
  let? pic_height_in_map_units_minus1 := ReadExponentialGolomb in
  let? frame_mbs_only_flag := ReadBits 1 in
  let? _ := if frame_mbs_only_flag =? 0 then ConsumeBits 1 else ret tt in
  let? _ := ConsumeBits 1 in
  let? crop := parse_crop in
  ret (resolution chroma_format_idc separate_colour_plane_flag pic_width_in_mbs_minus1
         pic_height_in_map_units_minus1 frame_mbs_only_flag crop).

(** The parser on the bytes [sps_] of length [byte_length_]: the width and the
    height, or [None] for false. *)
Definition Parse (sps : list Z) : res (option (Z * Z)) :=
  let! rbsp_buffer := rbsp_loop (length sps) sps 0 [] in
  let! (r, _) := parse_fields (new_BitBuffer rbsp_buffer (zlen rbsp_buffer)) in
  Ok r.

(** ** Emulation bytes *)

(** The same as a function on lists. *)
Fixpoint unescape (l : list Z) : list Z :=
  match l with
  | a :: (b :: c :: l) as t =>
      if (a =? 0) && (b =? 0) && (c =? 3) then 0 :: 0 :: unescape l else a :: unescape t
  | _ => l
  end.

(** The insertion of the standard: after two zeros a byte of at most 3 follows an
    emulation byte. [z] is the number of zeros just before. *)
Fixpoint escape_from (z : nat) (l : list Z) : list Z :=
  match l with
  | [] => []
  | x :: l =>
      let z' := if x =? 0 then S z else 0%nat in
      match z with
      | S (S _) => if x <=? 3 then 3 :: x :: escape_from (if x =? 0 then 1 else 0) l
                   else x :: escape_from 0 l
      | _ => x :: escape_from z' l
      end
  end.
Definition escape (l : list Z) : list Z := escape_from 0 l.

Lemma unescape_cons3 a b c l : unescape (a :: b :: c :: l) =
  if (a =? 0) && (b =? 0) && (c =? 3) then 0 :: 0 :: unescape l else a :: unescape (b :: c :: l).
Proof. reflexivity. Qed.
Lemma unescape_cons_other a t : a <> 0 -> unescape (a :: t) = a :: unescape t.
Proof. intros H. destruct t as [|b [|c t]]; try reflexivity. cbn. now replace (a =? 0) with false by lia. Qed.
Lemma unescape_cons_zero b t : b <> 0 -> unescape (0 :: b :: t) = 0 :: unescape (b :: t).
Proof. intros H. destruct t as [|c t]; [reflexivity|]. cbn [unescape]. now replace (b =? 0) with false by lia. Qed.
Lemma unescape_cons_zeros c t : c <> 3 -> unescape (0 :: 0 :: c :: t) = 0 :: unescape (0 :: c :: t).
Proof. intros H. cbn [unescape]. now replace (c =? 3) with false by lia. Qed.

Lemma unescape_escape_from l : forall z, (z <= 2)%nat ->
  unescape (repeat 0 z ++ escape_from z l) = repeat 0 z ++ l.
Proof.
  induction l as [|x l IH]; intros z Hz; destruct z as [|[|[|z]]]; try lia; try reflexivity;
    cbn [escape_from repeat app]; destruct (Z.eqb_spec x 0) as [->|Hx].
  - exact (IH 1%nat ltac:(lia)).
  - rewrite unescape_cons_other by exact Hx. f_equal. exact (IH 0%nat ltac:(lia)).
  - exact (IH 2%nat ltac:(lia)).
  - rewrite unescape_cons_zero, unescape_cons_other by exact Hx. do 2 f_equal. exact (IH 0%nat ltac:(lia)).
  - change (0 :: 0 :: unescape (0 :: escape_from 1 l) = 0 :: 0 :: 0 :: l). do 2 f_equal. exact (IH 1%nat ltac:(lia)).
  - destruct (Z.leb_spec x 3).
    + change (0 :: 0 :: unescape (x :: escape_from 0 l) = 0 :: 0 :: x :: l).
      rewrite unescape_cons_other by exact Hx. do 3 f_equal. exact (IH 0%nat ltac:(lia)).
    + rewrite unescape_cons_zeros, unescape_cons_zero, unescape_cons_other by lia. do 3 f_equal. exact (IH 0%nat ltac:(lia)).
Qed.

Lemma unescape_escape l : unescape (escape l) = l.
Proof. exact (unescape_escape_from l 0 ltac:(lia)). Qed.

(** The bytes from an index on. *)
Lemma suffix_cons sps i a t : 0 <= i -> skipn (Z.to_nat i) sps = a :: t ->
  i < zlen sps /\ byte sps i = Ok a /\ slice sps i 1 = [a] /\ skipn (Z.to_nat (i + 1)) sps = t.
Proof.
  intros Hi E. assert (L : i < zlen sps).
  { destruct (Z.lt_ge_cases i (zlen sps)); [assumption|]. rewrite skipn_all2 in E by (unfold zlen in *; lia). discriminate. }
  split; [exact L|]. split; [|split].
  - rewrite byte_ok by lia. rewrite <- (Z.add_0_r i) at 1. rewrite <- rd_skipn by lia. now rewrite E.
  - unfold slice. now rewrite E.
  - rewrite Z2Nat.inj_add by lia. rewrite Nat.add_comm, <- skipn_skipn, E. reflexivity.
Qed.

Lemma emulation_at_spec sps i l : 0 <= i -> skipn (Z.to_nat i) sps = l ->
  emulation_at sps i = Ok match l with a :: b :: c :: _ => (a =? 0) && (b =? 0) && (c =? 3) | _ => false end.
Proof.
  intros Hi E. unfold emulation_at.
  assert (Lz : zlen l = Z.max 0 (zlen sps - i)) by (rewrite <- E; unfold zlen; rewrite length_skipn; lia).
  destruct l as [|a [|b [|c l]]]; rewrite ?zlen_cons in Lz; pose proof (@zlen_nil Z);
    try (replace (3 <=? zlen sps - i) with false by lia; reflexivity).
  pose proof (zlen_nonneg l). replace (3 <=? zlen sps - i) with true by lia.
  destruct (suffix_cons sps i a _ Hi E) as (_ & -> & _ & E1).
  destruct (suffix_cons sps (i + 1) b _ ltac:(lia) E1) as (_ & -> & _ & E2). rewrite <- Z.add_assoc in E2.
  destruct (suffix_cons sps (i + 2) c _ ltac:(lia) E2) as (_ & -> & _ & _). cbn [bind].
  destruct (a =? 0), (b =? 0); reflexivity.
Qed.

Lemma rbsp_loop_spec sps fuel : forall i buf, 0 <= i -> zlen sps - i <= Z.of_nat fuel ->
  rbsp_loop fuel sps i buf = Ok (buf ++ unescape (skipn (Z.to_nat i) sps)).
Proof.
  induction fuel as [|fuel IH]; intros i buf Hi Hf; cbn [rbsp_loop]; destruct (Z.ltb_spec i (zlen sps)) as [L|L]; try lia;
    try (rewrite skipn_all2 by (unfold zlen in *; lia); now rewrite app_nil_r).
  destruct (skipn (Z.to_nat i) sps) as [|a t] eqn:E.
  { apply (f_equal (@length Z)) in E. rewrite length_skipn in E. cbn in E. unfold zlen in L. lia. }
  rewrite (emulation_at_spec sps i _ Hi E). cbn [bind].
  destruct (suffix_cons sps i a t Hi E) as (_ & _ & S1 & E1).
  assert (Step : rbsp_loop fuel sps (i + 1) (buf ++ slice sps i 1) = Ok (buf ++ a :: unescape t)).
  { rewrite S1, IH, E1, <- app_assoc by lia. reflexivity. }
  destruct t as [|b [|c l]]; [exact Step|exact Step|]. rewrite unescape_cons3. destruct (_ && _ && _) eqn:Q; [|exact Step].
  destruct (suffix_cons sps (i + 1) b _ ltac:(lia) E1) as (_ & _ & _ & E2). rewrite <- Z.add_assoc in E2.
  destruct (suffix_cons sps (i + 2) c _ ltac:(lia) E2) as (_ & _ & _ & E3). rewrite <- Z.add_assoc in E3.
  unfold slice. rewrite E. change (firstn (Z.to_nat 2) (a :: b :: c :: l)) with [a; b].
  rewrite IH by lia. change (2 + 1) with 3 in E3. rewrite E3, <- app_assoc. cbn [app].
  rewrite !andb_true_iff, !Z.eqb_eq in Q. destruct Q as [[-> ->] _]. reflexivity.
Qed.

Lemma Parse_unescape sps : Parse sps =
  let! (r, _) := parse_fields (new_BitBuffer (unescape sps) (zlen (unescape sps))) in Ok r.
Proof. unfold Parse. rewrite rbsp_loop_spec by (unfold zlen; lia). reflexivity. Qed.

Lemma Forall_unescape (P : Z -> Prop) : forall n l, (length l <= n)%nat -> P 0 -> Forall P l ->
  Forall P (unescape l) /\ (length (unescape l) <= length l)%nat.
Proof.
  induction n as [|n IH]; intros l L P0 H; (destruct l as [|a t]; [cbn; auto|]); cbn [length] in L; [lia|].
  pose proof (Forall_inv H) as Ha. apply Forall_inv_tail in H. destruct (IH t ltac:(lia) P0 H) as [H1 H2].
  destruct t as [|b [|c l]]; [cbn; auto|cbn; auto|]. rewrite unescape_cons3.
  destruct (_ && _ && _); cbn [length] in *.
  - do 2 apply Forall_inv_tail in H. destruct (IH l ltac:(lia) P0 H) as [H3 H4]. split; [auto|lia].
  - split; [auto|lia].
Qed.

(** ** Parsing is safe *)

Lemma skip_codes_safe fuel : forall n b, wf b -> left b < Z.of_nat fuel ->
  exists o b', skip_codes fuel n b = Ok (o, b') /\ onward b b'.
Proof.
  induction fuel as [|fuel IH]; intros n b W L; pose proof (left_nonneg b W); cbn [skip_codes];
    (destruct (0 <? n); [|exists (Some tt), b; split; [reflexivity|now apply onward_refl]]); [lia|].
  destruct (ReadExponentialGolomb_spec b W) as (z & Hz & _ & _ & E). unfold andThen. rewrite E.
  destruct (orb _ _) eqn:Q; [exists None, b; split; [reflexivity|now apply onward_refl]|].
  apply orb_false_iff in Q.
  destruct (IH (n - 1) (advance b (2 * z + 1))) as (o & b' & E' & O'); [apply wf_advance; [exact W|lia]|rewrite left_advance; lia|].
  exists o, b'. split; [exact E'|]. apply (onward_trans _ (advance b (2 * z + 1))); [apply onward_advance; [exact W|lia]|exact O'].
Qed.

Lemma safe_if {A} (c : bool) (m n : op A) : safe m -> safe n -> safe (if c then m else n).
Proof. now destruct c. Qed.

#[local] Hint Resolve safe_ret safe_fail safe_bind safe_if safe_ReadExponentialGolomb : safe.
#[local] Hint Extern 1 (safe (ReadBits _)) => apply safe_ReadBits; lia : safe.
#[local] Hint Extern 1 (safe (ConsumeBits _)) => apply safe_ConsumeBits; lia : safe.
#[local] Ltac safety :=
  repeat lazymatch goal with
  | |- safe (andThen _ _) => apply safe_bind; [|intros ?]
  | |- safe (if _ then _ else _) => apply safe_if
  | p : _ * _ |- _ => destruct p
  | |- _ => solve [auto with safe]
  end.

Lemma safe_parse_chroma : safe parse_chroma.
Proof.
  unfold parse_chroma. assert (forall c, safe (ReadBits (if c =? 3 then 12 else 8))) by (intros c; apply safe_ReadBits; case_if; lia).
  safety.
Qed.

Lemma safe_parse_pic_order_cnt : safe parse_pic_order_cnt.
Proof.
  unfold parse_pic_order_cnt. assert (forall n, safe (fun b => skip_codes (S (Z.to_nat (RemainingBitCount b))) n b)).
  { intros n b W. rewrite Remaining_left by exact W. apply skip_codes_safe; [exact W|]. pose proof (left_nonneg b W). lia. }
  safety.
Qed.

Lemma safe_parse_crop : safe parse_crop.
Proof. unfold parse_crop. safety. Qed.

#[local] Hint Resolve safe_parse_chroma safe_parse_pic_order_cnt safe_parse_crop : safe.

Lemma resolution_u16 c s w h f crop :
  in_u16 (fst (resolution c s w h f crop)) /\ in_u16 (snd (resolution c s w h f crop)).
Proof. destruct crop as [[[l r] t] b]. unfold resolution. repeat case_if; split; apply u16_range. Qed.

Lemma ensures_safe_bind {A B} (m : op A) (k : A -> op B) P : safe m -> (forall a, ensures (k a) P) -> ensures (andThen m k) P.
Proof. intros H K. apply (ensures_bind _ _ (fun _ => True)); [now apply ensures_safe|auto]. Qed.

Lemma ensures_parse_fields : ensures parse_fields (fun r => in_u16 (fst r) /\ in_u16 (snd r)).
Proof.
  unfold parse_fields, ReadUInt8, ConsumeBytes.
  repeat (apply ensures_safe_bind; [solve [safety]|intros ?; try (match goal with p : Z * Z |- _ => destruct p end)]).
  apply ensures_ret, resolution_u16.
Qed.

(** ** A parameter set and its bits *)

Inductive pic_order_cnt :=
  | poc_lsb (log2_max_lsb_minus4 : Z)
  | poc_cycle (always_zero : bool) (for_non_ref_pic for_top_to_bottom : Z) (for_ref_frame : list Z)
  | poc_none (type : Z).

Record chroma_info := mk_chroma {
  format_idc : Z;
  separate_planes : bool;
  luma_depth : Z;
  chroma_depth : Z;
  transform_bypass : bool;
  scaling_matrix : bool
}.

(** The fields up to the crop offsets; the numbers of the signed codes are
    those of their unsigned codes. *)
Record parameter_set := mk_sps {
  profile : Z;
  constraint_flags : Z;
  level : Z;
  set_id : Z;
  chroma : chroma_info;
  max_frame_num : Z;
  poc : pic_order_cnt;
  max_ref_frames : Z;
  gaps_allowed : bool;
  width_mbs_minus1 : Z;
  height_units_minus1 : Z;
  frame_mbs_only : bool;
  adaptive_field : bool;
  direct_8x8 : bool;
  crop : option (Z * Z * Z * Z)
}.

Definition code (v : Z) : Prop := 0 <= v < 4294967295.
Definition flag (b : bool) : Z := if b then 1 else 0.

Definition codes (l : list Z) : list bool := concat (map golomb l).

Definition chroma_bits (c : chroma_info) : list bool :=
  golomb (format_idc c) ++ (if format_idc c =? 3 then [separate_planes c] else []) ++
  golomb (luma_depth c) ++ golomb (chroma_depth c) ++ [transform_bypass c] ++ [scaling_matrix c] ++
  (if scaling_matrix c then to_bits (Z.to_nat (if format_idc c =? 3 then 12 else 8)) 0 else []).

Definition poc_bits (p : pic_order_cnt) : list bool :=
  match p with
  | poc_lsb v => golomb 0 ++ golomb v
  | poc_cycle z a b l => golomb 1 ++ [z] ++ golomb a ++ golomb b ++ golomb (zlen l) ++ codes l
  | poc_none t => golomb t
  end.

Definition crop_bits (c : option (Z * Z * Z * Z)) : list bool :=
  match c with
  | None => [false]
  | Some (l, r, t, b) => [true] ++ golomb l ++ golomb r ++ golomb t ++ golomb b
  end.

Definition sps_bits (s : parameter_set) : list bool :=
  to_bits 8 (profile s) ++ to_bits 8 (constraint_flags s) ++ to_bits 8 (level s) ++ golomb (set_id s) ++
  (if has_chroma_format (profile s) then chroma_bits (chroma s) else []) ++ golomb (max_frame_num s) ++
  poc_bits (poc s) ++ golomb (max_ref_frames s) ++ [gaps_allowed s] ++ golomb (width_mbs_minus1 s) ++
  golomb (height_units_minus1 s) ++ [frame_mbs_only s] ++ (if frame_mbs_only s then [] else [adaptive_field s]) ++
  [direct_8x8 s] ++ crop_bits (crop s).

Record chroma_ok (c : chroma_info) : Prop := {
  co_format : code (format_idc c); co_luma : code (luma_depth c); co_chroma : code (chroma_depth c)
}.
Definition poc_ok (p : pic_order_cnt) : Prop :=
  match p with
  | poc_lsb v => code v
  | poc_cycle _ a b l => code a /\ code b /\ code (zlen l) /\ Forall code l
  | poc_none t => code t /\ 2 <= t
  end.
Definition crop_ok (c : option (Z * Z * Z * Z)) : Prop :=
  match c with Some (l, r, t, b) => code l /\ code r /\ code t /\ code b | None => True end.
Record sps_ok (s : parameter_set) : Prop := {
  sp_profile : in_u8 (profile s); sp_id : code (set_id s); sp_chroma : chroma_ok (chroma s);
  sp_frame_num : code (max_frame_num s); sp_poc : poc_ok (poc s); sp_refs : code (max_ref_frames s);
  sp_width : code (width_mbs_minus1 s); sp_height : code (height_units_minus1 s); sp_crop : crop_ok (crop s)
}.

(** What the parser takes of it. *)
Definition chroma_of (s : parameter_set) : Z * Z :=
  if has_chroma_format (profile s)
  then (format_idc (chroma s), if format_idc (chroma s) =? 3 then flag (separate_planes (chroma s)) else 0)
  else (1, 0).
Definition crop_of (s : parameter_set) : Z * Z * Z * Z := match crop s with Some c => c | None => (0, 0, 0, 0) end.

(** ** Reading it back *)

Lemma reads_bit f : reads (ReadBits 1) [f] (flag f).
Proof. apply reads_flag. Qed.
Lemma reads_skip l n : zlen l = n -> reads (ConsumeBits n) l tt.
Proof. apply reads_ConsumeBits. Qed.

#[local] Ltac next := eapply reads_bind;
  [first [apply reads_bit | apply reads_golomb; assumption | apply reads_skip; reflexivity]|].

Lemma reads_end {A} (m : op A) l a : reads m (l ++ []) a -> reads m l a.
Proof. now rewrite app_nil_r. Qed.

Lemma flag_zero f : (flag f =? 0) = negb f.
Proof. now destruct f. Qed.

Lemma reads_chroma c : chroma_ok c ->
  reads parse_chroma (chroma_bits c) (format_idc c, if format_idc c =? 3 then flag (separate_planes c) else 0).
Proof.
  intros [H1 H2 H3]. unfold parse_chroma, chroma_bits. next.
  eapply reads_bind; [apply reads_if; intros _; apply reads_bit|]. do 4 next. rewrite flag_zero.
  destruct (scaling_matrix c); [|apply reads_ret]. apply reads_end.
  eapply reads_bind; [apply reads_value; [|split; [lia|]]; destruct (format_idc c =? 3); (reflexivity || lia)|]. apply reads_ret.
Qed.

Lemma zlen_codes l : Forall code l -> zlen l <= zlen (codes l).
Proof.
  induction 1 as [|v l Hv _ IH]; [reflexivity|]. unfold codes in *. cbn [map concat]. rewrite zlen_cons, zlen_app, zlen_golomb by apply Hv.
  pose proof (Z.log2_nonneg (v + 1)). lia.
Qed.

Lemma reads_skip_codes l : Forall code l -> forall fuel, zlen l <= Z.of_nat fuel ->
  reads (skip_codes fuel (zlen l)) (codes l) tt.
Proof.
  induction 1 as [|v l Hv _ IH]; intros fuel Hf; [destruct fuel; apply reads_ret|].
  rewrite zlen_cons in *. pose proof (zlen_nonneg l). destruct fuel as [|fuel]; [lia|]. cbn [skip_codes].
  replace (0 <? 1 + zlen l) with true by lia. unfold codes. cbn [map concat]. next.
  replace (1 + zlen l - 1) with (zlen l) by lia. apply IH. lia.
Qed.

Lemma reads_poc p : poc_ok p -> reads parse_pic_order_cnt (poc_bits p) tt.
Proof.
  unfold parse_pic_order_cnt. destruct p as [v|z a b l|t]; cbn [poc_ok poc_bits].
  - intros H. eapply reads_bind; [apply reads_golomb; lia|]. apply reads_end. next. apply reads_ret.
  - intros (Ha & Hb & Hn & Hl). eapply reads_bind; [apply reads_golomb; lia|]. do 4 next.
    intros bb t W E. apply (reads_skip_codes l Hl); [|exact W|exact E]. rewrite Remaining_left by exact W.
    pose proof (zlen_codes l Hl) as L. rewrite <- (zlen_rest bb W), E, zlen_app. pose proof (zlen_nonneg t). lia.
  - intros [Ht H2]. apply reads_end. next. replace (t =? 0) with false by lia. replace (t =? 1) with false by lia. apply reads_ret.
Qed.

Lemma reads_crop s : crop_ok (crop s) -> reads parse_crop (crop_bits (crop s)) (crop_of s).
Proof.
  unfold parse_crop, crop_of. destruct (crop s) as [[[[l r] t] b]|]; cbn [crop_ok crop_bits]; intros H.
  - destruct H as (H1 & H2 & H3 & H4). eapply reads_bind; [apply (reads_bit true)|]. change (flag true =? 0) with false. cbv iota.
    do 3 next. apply reads_end. next. apply reads_ret.
  - apply reads_end. eapply reads_bind; [apply (reads_bit false)|]. apply reads_ret.
Qed.

Definition fields_of (s : parameter_set) : Z * Z :=
  resolution (fst (chroma_of s)) (snd (chroma_of s)) (width_mbs_minus1 s) (height_units_minus1 s)
    (flag (frame_mbs_only s)) (crop_of s).

Lemma reads_fields s : sps_ok s -> reads parse_fields (sps_bits s) (fields_of s).
Proof.
  intros [P I Ch N Po R W H Cr]. unfold parse_fields, sps_bits, ReadUInt8, ConsumeBytes.
  eapply reads_bind; [apply (reads_value _ 8); [lia|exact P]|]. do 3 next.
  eapply (reads_bind _ _ _ _ (chroma_of s)).
  { unfold chroma_of. apply (reads_if _ _ _ _ (1, 0)). intros _. now apply reads_chroma. }
  unfold fields_of. destruct (chroma_of s) as [c sp]. cbn [fst snd]. next.
  eapply reads_bind; [now apply reads_poc|]. do 5 next.
  eapply (reads_bind _ _ _ _ tt).
  { rewrite flag_zero. destruct (frame_mbs_only s); [apply reads_ret|now apply reads_skip]. }
  next. apply reads_end. eapply reads_bind; [now apply reads_crop|]. apply reads_ret.
Qed.

(** ** The sizes *)

(** Section 7.4.2.1.1 of the standard, tables 6-1 and 7-19 to 7-22. *)
Definition ChromaArrayType (s : parameter_set) : Z :=
  if snd (chroma_of s) =? 0 then fst (chroma_of s) else 0.
Definition CropUnitX (s : parameter_set) : Z :=
  if (ChromaArrayType s =? 1) || (ChromaArrayType s =? 2) then 2 else 1.
Definition CropUnitY (s : parameter_set) : Z :=
  (if ChromaArrayType s =? 1 then 2 else 1) * (2 - flag (frame_mbs_only s)).
Definition picture_width (s : parameter_set) : Z :=
  let '(l, r, _, _) := crop_of s in 16 * (width_mbs_minus1 s + 1) - CropUnitX s * (l + r).
Definition picture_height (s : parameter_set) : Z :=
  let '(_, _, t, b) := crop_of s in
  (2 - flag (frame_mbs_only s)) * (16 * (height_units_minus1 s + 1)) - CropUnitY s * (t + b).

Lemma u16_u32 x y z : u16 (s32 (u32 (u32 (s32 (u32 x)) - u32 (y + z)))) = u16 (x - y - z).
Proof.
  unfold u16, s32, u32.
  assert (E : forall a, exists q, a mod 4294967296 = a + q * 65536).
  { intros a. exists (- (a / 4294967296) * 65536). dlia. }
  assert (Z1 : forall a q, (a + q * 65536) mod 65536 = a mod 65536) by (intros; apply Z.mod_add; lia).
  repeat match goal with |- context [(?a mod 4294967296)%Z] =>
    lazymatch a with context [(_ mod 4294967296)%Z] => fail | _ => let q := fresh "q" in let H := fresh in
      destruct (E a) as [q H]; rewrite H; clear H end end.
  match goal with |- ?l mod 65536 = ?r mod 65536 => replace l with (r + ((l - r) / 65536) * 65536); [apply Z1|] end.
  dlia.
Qed.
Lemma u32_congr x k : exists q, u32 (x * k) = x * k + q * 65536.
Proof. exists (- (x * k / 4294967296) * 65536). unfold u32. dlia. Qed.

Lemma u16_crop x y z k : u16 (s32 (u32 (u32 (s32 (u32 x)) - u32 (u32 (y * k) + u32 (z * k))))) = u16 (x - k * (y + z)).
Proof.
  rewrite u16_u32. destruct (u32_congr y k) as [q1 ->], (u32_congr z k) as [q2 ->]. unfold u16.
  replace (x - (y * k + q1 * 65536) - (z * k + q2 * 65536)) with (x - k * (y + z) + (- q1 - q2) * 65536) by lia.
  apply Z.mod_add. lia.
Qed.
Lemma u16_crop1 x y z : u16 (s32 (u32 (u32 (s32 (u32 x)) - u32 (y + z)))) = u16 (x - 1 * (y + z)).
Proof. rewrite u16_u32. f_equal. lia. Qed.

Lemma resolution_standard s : sps_ok s ->
  frame_mbs_only s = true \/ ChromaArrayType s = 0 \/ (let '(_, _, t, b) := crop_of s in t = 0 /\ b = 0) ->
  fields_of s = (u16 (picture_width s), u16 (picture_height s)).
Proof.
  intros [_ _ _ _ _ _ Hw Hh _] F. unfold fields_of, resolution, picture_width, picture_height, CropUnitX, CropUnitY, ChromaArrayType in *.
  destruct (chroma_of s) as [c sp], (crop_of s) as [[[l r] t] b]. cbn [fst snd] in *. unfold code in *.
  rewrite (u32_id (width_mbs_minus1 s + 1)) by (unfold in_u32; lia). rewrite (u32_id (height_units_minus1 s + 1)) by (unfold in_u32; lia).
  set (f := flag (frame_mbs_only s)).
  assert (Hf : f = 0 /\ frame_mbs_only s = false \/ f = 1 /\ frame_mbs_only s = true) by (unfold f; destruct (frame_mbs_only s); auto).
  assert (H2 : u32 (2 - f) = 2 - f) by (apply u32_id; unfold in_u32; lia). rewrite H2.
  rewrite (u32_id (16 * (2 - f))) by (unfold in_u32; lia).
  replace (16 * (2 - f) * (height_units_minus1 s + 1)) with ((2 - f) * (16 * (height_units_minus1 s + 1))) by lia.
  set (w := 16 * _). set (h := (2 - f) * _). clearbody w h. clear Hw Hh H2.
  destruct (Z.eqb_spec sp 0) as [->|Hsp]; cbn [negb orb].
  - destruct (Z.eqb_spec c 0) as [->|H0].
    { cbn [orb Z.eqb]. rewrite u16_crop1, u16_crop. do 2 f_equal. lia. }
    destruct (Z.eqb_spec c 1) as [->|H1]; [|destruct (Z.eqb_spec c 2) as [->|H3]]; cbn [orb].
    + rewrite !u16_crop. f_equal. f_equal. destruct Hf as [[-> E]|[-> _]]; [|lia]. destruct F as [F|[F|[-> ->]]]; [congruence|lia|lia].
    + rewrite u16_crop, u16_crop1. f_equal. f_equal. destruct Hf as [[-> E]|[-> _]]; [|lia]. destruct F as [F|[F|[-> ->]]]; [congruence|lia|lia].
    + rewrite !u16_crop1. f_equal. f_equal. destruct Hf as [[-> E]|[-> _]]; [|lia]. destruct F as [F|[F|[-> ->]]]; [congruence|lia|lia].
  - cbn [Z.eqb orb]. rewrite u16_crop1, u16_crop. do 2 f_equal. lia.
Qed.

Lemma new_wf p : bytes p -> zlen p < 2 ^ 31 -> wf (new_BitBuffer p (zlen p)).
Proof.
  intros B L. pose proof (zlen_nonneg p). split; cbn [bytes_ byte_count_ byte_offset_ bit_offset_ new_BitBuffer]; auto; lia.
Qed.

Lemma Parse_total sps : bytes sps -> zlen sps < 2 ^ 31 ->
  exists r, Parse sps = Ok r /\ match r with Some (w, h) => in_u16 w /\ in_u16 h | None => True end.
Proof.
  intros B L. rewrite Parse_unescape.
  destruct (Forall_unescape in_u8 (length sps) sps ltac:(lia) ltac:(split; lia) B) as [B' L'].
  destruct (ensures_parse_fields (new_BitBuffer (unescape sps) (zlen (unescape sps)))) as (o & b & E & _ & P).
  { apply new_wf; [exact B'|]. unfold zlen in *. lia. }
  rewrite E. cbn [bind]. exists o. split; [reflexivity|]. now destruct o as [[w h]|].
Qed.

(** The parser of sequence parameter sets is total and safe: for any bytes it
    ends, whatever the number of reference frames they announce, reads nothing
    outside them nor outside the buffer without emulation bytes, and gives
    either false or a width and a height of 16 bits. *)
Theorem Sps_Parse_safe sps : bytes sps -> zlen sps < 2 ^ 31 ->
  exists r, Parse sps = Ok r /\ match r with Some (w, h) => in_u16 w /\ in_u16 h | None => True end.
Proof. exact (Parse_total sps). Qed.

(** A sequence parameter set is read back: for every set of fields within their
    ranges, of any profile, chroma format and picture order count, whose bits
    start the bytes [p], and with the emulation bytes of the standard inserted,
    [Parse] gives the width and the height of the standard, provided they fit
    16 bits and the picture is one of frames, or has no chroma arrays, or is
    not cropped at its top and bottom. *)
Theorem Sps_roundtrip s p t :
  sps_ok s -> bytes p -> zlen p < 2 ^ 31 -> bits_from p 0 (8 * length p) = sps_bits s ++ t ->
  frame_mbs_only s = true \/ ChromaArrayType s = 0 \/ (let '(_, _, top, bottom) := crop_of s in top = 0 /\ bottom = 0) ->
  in_u16 (picture_width s) -> in_u16 (picture_height s) ->
  Parse (escape p) = Ok (Some (picture_width s, picture_height s)).
Proof.
  intros S B L Bits F W H. rewrite Parse_unescape, unescape_escape.
  destruct (reads_fields s S (new_BitBuffer p (zlen p)) t (new_wf p B L)) as (b & E & _).
  { unfold rest, left, pos. cbn [bytes_ byte_count_ byte_offset_ bit_offset_ new_BitBuffer].
    replace (Z.to_nat (8 * zlen p - (8 * 0 + 0))) with (8 * length p)%nat by (unfold zlen; lia). exact Bits. }
  rewrite E. cbn [bind]. now rewrite resolution_standard, !u16_id by assumption.
Qed.

(** ** Examples *)

Definition example_sps : parameter_set :=
  mk_sps 100 0 40 0 (mk_chroma 1 false 0 0 false false) 0 (poc_cycle true 3 1 [2; 0]) 4 false 119 67 true false true
    (Some (0, 0, 0, 4)).
(** Its bytes, with more fields after it. *)
Definition example_rbsp : list Z := [100; 0; 40; 172; 169; 19; 114; 128; 240; 4; 79; 203; 0; 0; 1].

Lemma Sps_roundtrip_witness :
  Parse [100; 0; 40; 172; 169; 19; 114; 128; 240; 4; 79; 203; 0; 0; 3; 1] = Ok (Some (1920, 1080)).
Proof.
  apply (Sps_roundtrip example_sps example_rbsp (true :: repeat false 23 ++ [true]));
    [|now apply bytes_forallb|reflexivity|vm_compute; reflexivity|now left|split; reflexivity || discriminate|split; reflexivity || discriminate].
  split; cbn; unfold code; repeat split; cbn; try lia. repeat (constructor; [lia|]). constructor.
Defined.

Lemma Sps_Parse_safe_witness :
  exists r, Parse [66; 0; 0; 3; 30; 0xE2; 0x90] = Ok r /\
    match r with Some (w, h) => in_u16 w /\ in_u16 h | None => True end.
Proof. apply Sps_Parse_safe; [now apply bytes_forallb|reflexivity]. Defined.

(** A picture of fields: 1920 by 1080 with 34 map units of 16 lines of a field
    and two units of four lines cropped, which the parser takes for two lines. *)
Definition interlaced_sps : parameter_set :=
  mk_sps 77 0 40 0 (mk_chroma 1 false 0 0 false false) 0 (poc_lsb 2) 4 false 119 33 false true true
    (Some (0, 0, 0, 2)).

Example interlaced_height : picture_height interlaced_sps = 1080 /\ fields_of interlaced_sps = (1920, 1084).
Proof. split; reflexivity. Qed.
End H264Sps.
