(* ===== verification/RtpH264.v ===== *)
(** * The RTP payload format of H.264

    Models src/orbit/webrtc/modules/rtp_rtcp/source/rtp_format_h264.cc and its
    header: a frame of NAL units is packetized as single NAL units, as
    aggregations (STAP-A) or as fragments (FU-A), and packets are parsed.  The
    parser writes the NAL header of a first fragment into the packet, so it
    gives the packet back too.  Assertions are taken as compiled out; a division
    by zero and the front of an empty queue are [Oob], like an access outside an
    array. *)

From S2P Require Import Prelude Wire BitBuffer VideoHeaders H264Sps.
Import Wire VideoHeaders.

Module RtpH264.

Definition kSlice : Z := 1.
Definition kIdr : Z := 5.
Definition kSei : Z := 6.
Definition kSps : Z := 7.
Definition kPps : Z := 8.
Definition kStapA : Z := 24.
Definition kFuA : Z := 28.

Definition kNalHeaderSize : Z := 1.
Definition kFuAHeaderSize : Z := 2.
Definition kLengthFieldSize : Z := 2.
Definition kStapAHeaderSize : Z := kNalHeaderSize + kLengthFieldSize.

Definition kFBit : Z := 0x80.
Definition kNriMask : Z := 0x60.
Definition kTypeMask : Z := 0x1F.

Definition kSBit : Z := 0x80.
Definition kEBit : Z := 0x40.
Definition kRBit : Z := 0x20.

(** ** The depacketizer *)

(** [while (length_remaining > 0)]: a round takes two bytes at least. *)
Fixpoint verify_loop (fuel : nat) (mem : list Z) (nalu_ptr length_remaining : Z) : res bool :=
  if 0 <? length_remaining then
    match fuel with
    | O => NoFuel
    | S fuel =>
        if length_remaining <? 2 then Ok false
        else
          let! nalu_size := be16 mem nalu_ptr in
          let nalu_ptr := nalu_ptr + 2 in
          let length_remaining := length_remaining - 2 in
          if length_remaining <? nalu_size then Ok false
          else verify_loop fuel mem (nalu_ptr + nalu_size) (length_remaining - nalu_size)
    end
  else Ok true.
Definition VerifyStapANaluLengths (mem : list Z) (nalu_ptr length_remaining : Z) : res bool :=
  verify_loop (Z.to_nat length_remaining) mem nalu_ptr length_remaining.

(** [length] bytes from a pointer on. *)
Definition span (mem : list Z) (start length : Z) : res (list Z) :=
  if (0 <=? start) && (0 <=? length) && (start + length <=? zlen mem) then Ok (slice mem start length) else Oob.

Definition is_key_type (nal_type : Z) : bool :=
  (nal_type =? kSps) || (nal_type =? kPps) || (nal_type =? kIdr).

(** The type, the packetization and the part that a parameter set would have;
    [None] where an aggregation is truncated. *)
Definition locate_nalu (mem : list Z) (payload_data_length : Z)
    : res (option (Z * H264PacketizationTypes * Z * Z)) :=
  let nalu_start := kNalHeaderSize in
  let nalu_length := payload_data_length - kNalHeaderSize in
  let! b := byte mem 0 in
  let nal_type := Z.land b kTypeMask in
  if nal_type =? kStapA then
    if payload_data_length <=? kStapAHeaderSize then Ok None
    else
      let! ok := VerifyStapANaluLengths mem nalu_start nalu_length in
      if negb ok then Ok None
      else
        let! b := byte mem kStapAHeaderSize in
        Ok (Some (Z.land b kTypeMask, kH264StapA, nalu_start + kStapAHeaderSize, nalu_length - kStapAHeaderSize))
  else Ok (Some (nal_type, kH264SingleNalu, nalu_start, nalu_length)).

Definition ParseSingleNalu (parsed_payload : ParsedPayload) (mem : list Z) (payload_data_length : Z)
    : res (option ParsedPayload) :=
  let p := set_first (set_codec (set_size parsed_payload 0 0) kRtpVideoH264) true in
  let! located := locate_nalu mem payload_data_length in
  match located with
  | None => Ok None
  | Some (nal_type, packetization, nalu_start, nalu_length) =>
      let p := set_H264 p (mk_h264 nal_type packetization) in
      let! p :=
        if nal_type =? kSps then
          let! sps := span mem nalu_start nalu_length in
          let! parsed := H264Sps.Parse sps in
          Ok match parsed with Some (w, h) => set_size p w h | None => p end
        else Ok p in
      Ok (Some (set_frame_type p (if is_key_type nal_type then kVideoFrameKey else kVideoFrameDelta)))
  end.

(** The packet afterwards, and the payload and the offset. *)
Definition ParseFuaNalu (parsed_payload : ParsedPayload) (mem : list Z) (payload_data_length : Z)
    : res (list Z * option (ParsedPayload * Z)) :=
  if payload_data_length <? kFuAHeaderSize then Ok (mem, None)
  else
    let! b0 := byte mem 0 in
    let! b1 := byte mem 1 in
    let fnri := Z.land b0 (Z.lor kFBit kNriMask) in
    let original_nal_type := Z.land b1 kTypeMask in
    let first_fragment := 0 <? Z.land b1 kSBit in
    let original_nal_header := Z.lor fnri original_nal_type in
    let offset := if first_fragment then kNalHeaderSize else kFuAHeaderSize in
    let! mem := if first_fragment then set8 mem offset original_nal_header else Ok mem in
    let p := set_frame_type parsed_payload
      (if original_nal_type =? kIdr then kVideoFrameKey else kVideoFrameDelta) in
    let p := set_first (set_codec (set_size p 0 0) kRtpVideoH264) first_fragment in
    Ok (mem, Some (set_H264 p (mk_h264 original_nal_type kH264FuA), offset)).

(** The packet afterwards, and [None] for false; what was assigned before a
    failure is not kept, for no caller looks at it. *)
Definition Parse (parsed_payload : ParsedPayload) (mem : list Z) (payload_data_length : Z)
    : res (list Z * option ParsedPayload) :=
  if payload_data_length =? 0 then Ok (mem, None)
  else
    let! b := byte mem 0 in
    let nal_type := Z.land b kTypeMask in
    if nal_type =? kFuA then
      let! (mem, r) := ParseFuaNalu parsed_payload mem payload_data_length in
      Ok (mem, match r with
               | Some (p, offset) => Some (set_payload p offset (payload_data_length - offset))
               | None => None
               end)
    else
      let! r := ParseSingleNalu parsed_payload mem payload_data_length in
      Ok (mem, match r with
               | Some p => Some (set_payload p 0 payload_data_length)
               | None => None
               end).

(** ** The packetizer *)

Record Packet := mk_packet {
  offset : Z;
  size : Z;
  first_fragment : bool;
  last_fragment : bool;
  aggregated : bool;
  header : Z
}.

Record RtpPacketizerH264 := mk_packetizer {
  payload_data_ : list Z;
  payload_size_ : Z;
  max_payload_len_ : Z;
  fragmentation_ : RTPFragmentationHeader;
  packets_ : list Packet
}.

Definition new_RtpPacketizerH264 (max_payload_len : Z) : RtpPacketizerH264 :=
  mk_packetizer [] 0 max_payload_len new_RTPFragmentationHeader [].

Definition set_packets (p : RtpPacketizerH264) (packets : list Packet) : RtpPacketizerH264 :=
  mk_packetizer (payload_data_ p) (payload_size_ p) (max_payload_len_ p) (fragmentation_ p) packets.
Definition push (p : RtpPacketizerH264) (packet : Packet) : RtpPacketizerH264 :=
  set_packets p (packets_ p ++ [packet]).

Definition div (a b : Z) : res Z := if b =? 0 then Oob else Ok (a / b).

(** [while (fragment_length > 0)] of [PacketizeFuA]. *)
Fixpoint fua_loop (fuel : nat) (p : RtpPacketizerH264) (fragment_offset fragment_length offset avg_size : Z)
    : res RtpPacketizerH264 :=
  if 0 <? fragment_length then
    match fuel with
    | O => NoFuel
    | S fuel =>
        let packet_length := if fragment_length <? avg_size then fragment_length else avg_size in
        let! header := byte (payload_data_ p) fragment_offset in
        fua_loop fuel
          (push p (mk_packet offset packet_length (offset - kNalHeaderSize =? fragment_offset)
                     (fragment_length =? packet_length) false header))
          fragment_offset (fragment_length - packet_length) (offset + packet_length) avg_size
    end
  else Ok p.

Definition PacketizeFuA (p : RtpPacketizerH264) (fragment_offset fragment_length : Z) : res RtpPacketizerH264 :=
  let fragment_length := u64 (fragment_length - kNalHeaderSize) in
  let offset := fragment_offset + kNalHeaderSize in
  let bytes_available := u64 (max_payload_len_ p - kFuAHeaderSize) in
  let! fragments := div (u64 (fragment_length + u64 (bytes_available - 1))) bytes_available in
  let! avg_size := div (u64 (u64 (fragment_length + fragments) - 1)) fragments in
  fua_loop (Z.to_nat fragment_length) p fragment_offset fragment_length offset avg_size.

(** [packets_.back().last_fragment = true]. *)
Fixpoint mark_last (packets : list Packet) : res (list Packet) :=
  match packets with
  | [] => Oob
  | [q] => Ok [mk_packet (offset q) (size q) (first_fragment q) true (aggregated q) (header q)]
  | q :: packets => let! packets := mark_last packets in Ok (q :: packets)
  end.

(** [while (payload_size_left >= fragment_length + fragment_headers_length)] of
    [PacketizeStapA]: the packetizer and the index of the next fragment. *)
Fixpoint stapa_loop (fuel : nat) (p : RtpPacketizerH264) (fragment_index fragment_offset fragment_length
    payload_size_left aggregated_fragments fragment_headers_length : Z) : res (RtpPacketizerH264 * Z) :=
  if u64 (fragment_length + fragment_headers_length) <=? payload_size_left then
    match fuel with
    | O => NoFuel
    | S fuel =>
        let! header := byte (payload_data_ p) fragment_offset in
        let p := push p (mk_packet fragment_offset fragment_length (aggregated_fragments =? 0) false true header) in
        let payload_size_left := u64 (u64 (payload_size_left - fragment_length) - fragment_headers_length) in
        let fragment_index := fragment_index + 1 in
        if fragment_index =? fragmentationVectorSize (fragmentation_ p) then Ok (p, fragment_index)
        else
          let! fragment_offset := get (fragmentationOffset (fragmentation_ p)) fragment_index in
          let! fragment_length := get (fragmentationLength (fragmentation_ p)) fragment_index in
          let fragment_headers_length :=
            if aggregated_fragments =? 0 then kLengthFieldSize + (kNalHeaderSize + kLengthFieldSize)
            else kLengthFieldSize in
          stapa_loop fuel p fragment_index fragment_offset fragment_length payload_size_left
            (aggregated_fragments + 1) fragment_headers_length
    end
  else Ok (p, fragment_index).

Definition PacketizeStapA (p : RtpPacketizerH264) (fragment_index fragment_offset fragment_length : Z)
    : res (RtpPacketizerH264 * Z) :=
  let! (p, fragment_index) :=
    stapa_loop (Z.to_nat (fragmentationVectorSize (fragmentation_ p) - fragment_index)) p fragment_index
      fragment_offset fragment_length (max_payload_len_ p) 0 0 in
  let! packets := mark_last (packets_ p) in
  Ok (set_packets p packets, fragment_index).

(** [for (i = 0; i < fragmentationVectorSize;)]. *)
Fixpoint generate_loop (fuel : nat) (p : RtpPacketizerH264) (i : Z) : res RtpPacketizerH264 :=
  if i <? fragmentationVectorSize (fragmentation_ p) then
    match fuel with
    | O => NoFuel
    | S fuel =>
        let! fragment_offset := get (fragmentationOffset (fragmentation_ p)) i in
        let! fragment_length := get (fragmentationLength (fragmentation_ p)) i in
        if max_payload_len_ p <? fragment_length then
          let! p := PacketizeFuA p fragment_offset fragment_length in
          generate_loop fuel p (i + 1)
        else
          let! (p, i) := PacketizeStapA p i fragment_offset fragment_length in
          generate_loop fuel p i
    end
  else Ok p.

Definition GeneratePackets (p : RtpPacketizerH264) : res RtpPacketizerH264 :=
  generate_loop (Z.to_nat (fragmentationVectorSize (fragmentation_ p))) p 0.

Definition SetPayloadData (p : RtpPacketizerH264) (payload_data : list Z) (payload_size : Z)
    (fragmentation : RTPFragmentationHeader) : res RtpPacketizerH264 :=
  GeneratePackets (mk_packetizer payload_data payload_size (max_payload_len_ p)
    (CopyFrom (fragmentation_ p) fragmentation) (packets_ p)).

(** [while (packet.aggregated)]: the queue, the buffer and the bytes to send. *)
Fixpoint aggregate_loop (payload_data : list Z) (packets : list Packet) (buffer : list Z) (index bytes_to_send : Z)
    : res (list Packet * list Z * Z) :=
  match packets with
  | [] => Oob
  | packet :: packets' =>
      if aggregated packet then
        let! buffer := set16 buffer index (u16 (size packet)) in
        let index := index + kLengthFieldSize in
        let! buffer := memcpy buffer index payload_data (offset packet) (size packet) in
        let bytes_to_send := bytes_to_send + kLengthFieldSize + size packet in
        if last_fragment packet then Ok (packets', buffer, bytes_to_send)
        else aggregate_loop payload_data packets' buffer (index + size packet) bytes_to_send
      else Ok (packets, buffer, bytes_to_send)
  end.

Definition NextAggregatePacket (p : RtpPacketizerH264) (packet : Packet) (buffer : list Z)
    : res (RtpPacketizerH264 * list Z * Z) :=
  let! buffer := set8 buffer 0 (Z.lor (Z.land (header packet) (Z.lor kFBit kNriMask)) kStapA) in
  let! (packets, buffer, bytes_to_send) :=
    aggregate_loop (payload_data_ p) (packets_ p) buffer kNalHeaderSize kNalHeaderSize in
  Ok (set_packets p packets, buffer, bytes_to_send).

Definition NextFragmentPacket (p : RtpPacketizerH264) (packet : Packet) (rest : list Packet) (buffer : list Z)
    : res (RtpPacketizerH264 * list Z * Z) :=
  let fu_indicator := Z.lor (Z.land (header packet) (Z.lor kFBit kNriMask)) kFuA in
  let type := Z.land (header packet) kTypeMask in
  let fu_header :=
    Z.lor (Z.lor (if first_fragment packet then kSBit else 0) (if last_fragment packet then kEBit else 0)) type in
  let! buffer := set8 buffer 0 fu_indicator in
  let! buffer := set8 buffer 1 fu_header in
  let! buffer := memcpy buffer kFuAHeaderSize (payload_data_ p) (offset packet) (size packet) in
  Ok (set_packets p rest, buffer, size packet + kFuAHeaderSize).

(** The packetizer, the buffer, and [None] for false or the bytes to send and
    whether the packet is the last. *)
Definition NextPacket (p : RtpPacketizerH264) (buffer : list Z)
    : res (RtpPacketizerH264 * list Z * option (Z * bool)) :=
  match packets_ p with
  | [] => Ok (p, buffer, None)
  | packet :: rest =>
      let! (p, buffer, bytes_to_send) :=
        if first_fragment packet && last_fragment packet then
          let! buffer := memcpy buffer 0 (payload_data_ p) (offset packet) (size packet) in
          Ok (set_packets p rest, buffer, size packet)
        else if aggregated packet then NextAggregatePacket p packet buffer
        else NextFragmentPacket p packet rest buffer in
      Ok (p, buffer, Some (bytes_to_send, match packets_ p with [] => true | _ => false end))
  end.

Definition GetProtectionType : ProtectionType := kProtectedPacket.
Definition GetStorageType (retransmission_settings : Z) : StorageType := kAllowRetransmission.
End RtpH264.
