(* ===== verification/RtpH264Facts.v ===== *)
(** * The packets of H.264

    The theorems about [RtpH264]: parsing is safe, and a frame of NAL units that
    is packetized, sent packet by packet, parsed and reassembled is the frame. *)

From S2P Require Import Prelude Wire BitBuffer VideoHeaders H264Sps RtpH264.
Import Wire VideoHeaders RtpH264.

Module RtpH264Facts.

(** ** Parsing is safe *)

Lemma verify_loop_total mem : bytes mem -> forall fuel ptr rem,
  0 <= ptr -> ptr + rem <= zlen mem -> rem <= Z.of_nat fuel -> exists r, verify_loop fuel mem ptr rem = Ok r.
Proof.
  intros B. induction fuel as [|fuel IH]; intros ptr rem Hp Hr Hf; cbn [verify_loop];
    (destruct (Z.ltb_spec 0 rem); [|now eexists]); [lia|].
  destruct (Z.ltb_spec rem 2); [now eexists|]. rewrite be16_ok by lia. cbn [bind].
  pose proof (b16_range mem ptr B) as R; unfold in_u16 in R. destruct (Z.ltb_spec (rem - 2) (b16 mem ptr)); [now eexists|]. apply IH; lia.
Qed.

Lemma span_ok mem start n : 0 <= start -> 0 <= n -> start + n <= zlen mem -> span mem start n = Ok (slice mem start n).
Proof. intros. unfold span. now replace ((0 <=? start) && (0 <=? n) && (start + n <=? zlen mem)) with true by lia. Qed.

Lemma locate_nalu_total mem len : bytes mem -> 1 <= len <= zlen mem ->
  exists r, locate_nalu mem len = Ok r /\
    match r with Some (_, _, start, n) => 0 <= start /\ 0 <= n /\ start + n <= len | None => True end.
Proof.
  intros B L. unfold locate_nalu. rewrite byte_ok by lia. cbn [bind]. unfold kStapAHeaderSize, kNalHeaderSize, kLengthFieldSize.
  destruct (_ =? kStapA); [|eexists; split; [reflexivity|cbv beta iota; lia]].
  destruct (Z.leb_spec len (1 + 2)); [now eexists|]. unfold VerifyStapANaluLengths.
  destruct (verify_loop_total mem B (Z.to_nat (len - 1)) 1 (len - 1)) as (r & E); try lia. rewrite E. cbn [bind].
  destruct r; [|now eexists]. cbn [negb]. rewrite byte_ok by lia. cbn [bind]. eexists. split; [reflexivity|]. cbv beta iota. lia.
Qed.

(** Once located, a NAL unit is parsed: the sizes of a parameter set apart, the
    result is known. *)
Lemma ParseSingleNalu_located pp mem len t k start n :
  bytes mem -> locate_nalu mem len = Ok (Some (t, k, start, n)) -> 0 <= start -> 0 <= n -> start + n <= zlen mem -> n < 2 ^ 31 ->
  exists q, ParseSingleNalu pp mem len = Ok (Some q) /\ H264 q = mk_h264 t k /\ codec q = kRtpVideoH264 /\
    isFirstPacket q = true /\ frame_type q = (if is_key_type t then kVideoFrameKey else kVideoFrameDelta).
Proof.
  intros B E Hs Hn Hl Hm. unfold ParseSingleNalu. rewrite E. cbn [bind].
  destruct (t =? kSps); [|eexists; split; [reflexivity|auto]].
  rewrite span_ok by lia. cbn [bind].
  destruct (H264Sps.Parse_total (slice mem start n)) as (r & Er & _); [now apply bytes_slice|rewrite zlen_slice; lia|].
  rewrite Er. cbn [bind]. destruct r as [[w h]|]; (eexists; split; [reflexivity|auto]).
Qed.

(** The header that a first fragment gets. *)
Definition restored (mem : list Z) : list Z :=
  wr mem 1 (Z.lor (Z.land (rd mem 0) 0xE0) (Z.land (rd mem 1) 0x1F)).

(** A property of all bytes, by evaluation. *)
Lemma byte_cases (P : Z -> bool) : forallb P (map Z.of_nat (seq 0 256)) = true -> forall x, in_u8 x -> P x = true.
Proof.
  intros H x Hx. rewrite forallb_forall in H. apply H, in_map_iff. exists (Z.to_nat x). rewrite in_seq. unfold in_u8 in Hx. lia.
Qed.

Lemma header_parts a b : in_u8 a -> in_u8 b -> in_u8 (Z.lor (Z.land a 0xE0) (Z.land b 0x1F)).
Proof.
  intros Ha Hb.
  assert (H1 : (Z.land a 0xE0 mod 32 =? 0) && (0 <=? Z.land a 0xE0) && (Z.land a 0xE0 <? 256) = true)
    by (apply (byte_cases (fun a => (Z.land a 0xE0 mod 32 =? 0) && (0 <=? Z.land a 0xE0) && (Z.land a 0xE0 <? 256))); [now vm_compute|exact Ha]).
  assert (H2 : Z.land b 0x1F = b mod 32) by exact (land_ones_mod b 5 ltac:(lia)).
  rewrite H2, Z.lor_comm. replace (Z.land a 0xE0) with (Z.land a 0xE0 / 32 * 2 ^ 5) by (change (2 ^ 5) with 32; dlia).
  rewrite lor_add by (try lia; change (2 ^ 5) with 32; apply Z.mod_pos_bound; lia). unfold in_u8. change (2 ^ 5) with 32. dlia.
Qed.

Lemma H264_Parse_total pp mem len :
  bytes mem -> 0 <= len <= zlen mem -> len < 2 ^ 31 ->
  exists mem' r, Parse pp mem len = Ok (mem', r) /\ bytes mem' /\
    (mem' = mem \/
     2 <= len /\ Z.land (rd mem 0) 0x1F = kFuA /\ 128 <= rd mem 1 /\ mem' = restored mem) /\
    match r with
    | Some q => 0 <= payload q <= 2 /\ payload q + payload_length q = len /\ codec q = kRtpVideoH264
    | None => True
    end.
Proof.
  intros B L M. unfold Parse. destruct (Z.eqb_spec len 0); [exists mem, None; auto|].
  rewrite byte_ok by lia. cbn [bind]. change kTypeMask with 0x1F. destruct (Z.eqb_spec (Z.land (rd mem 0) 0x1F) kFuA) as [Hf|Hf].
  - unfold ParseFuaNalu, kFuAHeaderSize, kNalHeaderSize. destruct (Z.ltb_spec len 2); [exists mem, None; auto|].
    rewrite !byte_ok by lia. cbn [bind]. change kSBit with 128. change (Z.lor kFBit kNriMask) with 0xE0. change kTypeMask with 0x1F.
    pose proof (bytes_rd mem 0 B) as B0. pose proof (bytes_rd mem 1 B) as B1.
    assert (S : Bool.eqb (0 <? Z.land (rd mem 1) 128) (128 <=? rd mem 1) = true)
      by (apply (byte_cases (fun b => Bool.eqb (0 <? Z.land b 128) (128 <=? b))); [now vm_compute|exact B1]).
    apply eqb_prop in S. rewrite S. destruct (Z.leb_spec 128 (rd mem 1)).
    + rewrite set8_ok by lia. cbn [bind].
      rewrite u8_id by now apply header_parts. do 2 eexists. split; [reflexivity|].
      split; [rewrite <- (u8_id (Z.lor _ _)) by (now apply header_parts); now apply bytes_wr|].
      split; [right; auto|cbn [payload payload_length set_payload codec set_H264 set_first set_codec]; repeat split; lia].
    + cbn [bind]. do 2 eexists. split; [reflexivity|]. split; [exact B|]. split; [now left|].
      cbn [payload payload_length set_payload codec set_H264 set_first set_codec]. repeat split; lia.
  - destruct (locate_nalu_total mem len B ltac:(lia)) as (o & E & P). destruct o as [[[[t k] start] n']|].
    + destruct (ParseSingleNalu_located pp mem len t k start n' B E) as (q & Eq & _ & C & _); try lia.
      rewrite Eq. cbn [bind]. do 2 eexists. split; [reflexivity|]. split; [exact B|]. split; [now left|]. cbn [payload payload_length set_payload codec]. repeat split; auto; lia.
    + unfold ParseSingleNalu. rewrite E. cbn [bind]. exists mem, None. auto.
Qed.

(** The H.264 depacketizer is safe: for any bytes and any length within them,
    [Parse] ends, whether the bytes are a single NAL unit, an aggregation, a
    fragment or garbage, and reads nothing outside them; it changes no byte but
    the second of a first fragment, which becomes the header of the fragmented
    NAL unit; where it succeeds the media payload is a suffix that leaves out at
    most two bytes, and the payload is marked as H.264. *)
Theorem H264_Parse_safe pp mem len :
  bytes mem -> 0 <= len <= zlen mem -> len < 2 ^ 31 ->
  exists mem' r, Parse pp mem len = Ok (mem', r) /\ bytes mem' /\
    (mem' = mem \/
     2 <= len /\ Z.land (rd mem 0) 0x1F = kFuA /\ 128 <= rd mem 1 /\ mem' = restored mem) /\
    match r with
    | Some q => 0 <= payload q <= 2 /\ payload q + payload_length q = len /\ codec q = kRtpVideoH264
    | None => True
    end.
Proof. exact (H264_Parse_total pp mem len). Qed.

(** ** Sending and receiving *)

(** What the receiver keeps of a packet: the parsed payload and its bytes. *)
Definition received : Type := ParsedPayload * list Z.

(** [NextPacket] until it returns false, each packet parsed where it lies. *)
Fixpoint exchange (fuel : nat) (pp : ParsedPayload) (p : RtpPacketizerH264) (buffer : list Z)
    : res (RtpPacketizerH264 * list Z * list received) :=
  match fuel with
  | O => NoFuel
  | S fuel =>
      let! (p, buffer, r) := NextPacket p buffer in
      match r with
      | None => Ok (p, buffer, [])
      | Some (bytes_to_send, _) =>
          let! (buffer, q) := Parse pp buffer bytes_to_send in
          match q with
          | None => Oob
          | Some q =>
              let! (p', buffer', l) := exchange fuel pp p buffer in
              Ok (p', buffer', (q, slice buffer (payload q) (payload_length q)) :: l)
          end
      end
  end.

(** The NAL units of an aggregation, after its header. *)
Fixpoint units (fuel : nat) (l : list Z) : list (list Z) :=
  match fuel, l with
  | S fuel, _ :: _ => slice l 2 (b16 l 0) :: units fuel (skipn (Z.to_nat (2 + b16 l 0)) l)
  | _, _ => []
  end.

(** The bytes appended to the last NAL unit. *)
Fixpoint extend_last (l : list (list Z)) (bytes : list Z) : list (list Z) :=
  match l with
  | [] => []
  | [x] => [x ++ bytes]
  | x :: l => x :: extend_last l bytes
  end.

(** The NAL units received: a single one as it is, an aggregation split, and
    fragments joined. *)
Definition receive (nals : list (list Z)) (r : received) : list (list Z) :=
  match packetization_type (H264 (fst r)) with
  | kH264SingleNalu => nals ++ [snd r]
  | kH264StapA => nals ++ units (length (snd r)) (skipn 1 (snd r))
  | kH264FuA => if isFirstPacket (fst r) then nals ++ [snd r] else extend_last nals (snd r)
  end.
Definition reassemble (l : list received) : list (list Z) := fold_left receive l [].

Lemma extend_last_app l x b : extend_last (l ++ [x]) b = l ++ [x ++ b].
Proof.
  induction l as [|y l IH]; [reflexivity|]. cbn [app extend_last]. rewrite IH.
  destruct (l ++ [x]) eqn:E; [now destruct l|reflexivity].
Qed.

Section Sending.
Variables (pp : ParsedPayload) (p : RtpPacketizerH264).

Definition room (buffer : list Z) : Prop := bytes buffer /\ max_payload_len_ p <= zlen buffer.
Definition fits (r : received) : Prop := payload (fst r) + payload_length (fst r) <= max_payload_len_ p.

(** The packets [ps] at the front of the queue are sent and received, which takes
    the NAL units from [a] to [a'] with [P a a']. *)
Definition drives (ps : list Packet) (P : list (list Z) -> list (list Z) -> Prop) : Prop :=
  forall rest buffer, room buffer ->
  exists m ls buffer', (m <= length ps)%nat /\ room buffer' /\ Forall fits ls /\
    (forall k, exchange (m + k) pp (set_packets p (ps ++ rest)) buffer =
       let! (p', b, l) := exchange k pp (set_packets p rest) buffer' in Ok (p', b, ls ++ l)) /\
    forall a, P a (fold_left receive ls a).

(** They deliver these NAL units. *)
Definition delivers (ps : list Packet) (nals : list (list Z)) : Prop := drives ps (fun a a' => a' = a ++ nals).

Lemma drives_nil (P : list (list Z) -> list (list Z) -> Prop) : (forall a, P a a) -> drives [] P.
Proof.
  intros H rest buffer R. exists 0%nat, [], buffer. split; [reflexivity|]. split; [exact R|]. split; [constructor|].
  split; [intros k; cbn; destruct (exchange k pp _ buffer) as [[[? ?] ?]| |]; reflexivity|]. intros a. apply H.
Qed.

Lemma drives_app ps qs P Q (S : list (list Z) -> list (list Z) -> Prop) :
  drives ps P -> drives qs Q -> (forall a b c, P a b -> Q b c -> S a c) -> drives (ps ++ qs) S.
Proof.
  intros HP HQ HS rest buffer R. destruct (HP (qs ++ rest) buffer R) as (m & ls & b1 & M & R1 & F1 & E1 & A1).
  destruct (HQ rest b1 R1) as (n & ls' & b2 & N & R2 & F2 & E2 & A2).
  exists (m + n)%nat, (ls ++ ls'), b2. split; [rewrite length_app; lia|]. split; [exact R2|]. split; [now apply Forall_app|]. split.
  - intros k. rewrite <- Nat.add_assoc, <- app_assoc, E1, E2.
    destruct (exchange k pp _ b2) as [[[? ?] ?]| |]; cbn [bind]; now rewrite ?app_assoc.
  - intros a. rewrite fold_left_app. eauto.
Qed.

Lemma delivers_app ps qs a b : delivers ps a -> delivers qs b -> delivers (ps ++ qs) (a ++ b).
Proof. intros P Q. apply (drives_app _ _ _ _ _ P Q). intros ? ? ? -> ->. now rewrite app_assoc. Qed.

(** One packet that is sent and parsed. *)
Lemma exchange_one ps rest buffer b1 b2 n last q k :
  NextPacket (set_packets p ps) buffer = Ok (set_packets p rest, b1, Some (n, last)) ->
  Parse pp b1 n = Ok (b2, Some q) ->
  exchange (S k) pp (set_packets p ps) buffer =
    let! (p', b, l) := exchange k pp (set_packets p rest) b2 in
    Ok (p', b, [(q, slice b2 (payload q) (payload_length q))] ++ l).
Proof. intros E1 E2. cbn [exchange]. rewrite E1. cbn [bind]. rewrite E2. reflexivity. Qed.

(** Where one packet carries what [ps] holds. *)
Lemma drives_one ps (P : list (list Z) -> list (list Z) -> Prop) :
  ps <> [] ->
  (forall rest buffer, room buffer -> exists b1 b2 n last q,
    NextPacket (set_packets p (ps ++ rest)) buffer = Ok (set_packets p rest, b1, Some (n, last)) /\
    Parse pp b1 n = Ok (b2, Some q) /\ room b2 /\ payload q + payload_length q <= max_payload_len_ p /\
    forall a, P a (receive a (q, slice b2 (payload q) (payload_length q)))) ->
  drives ps P.
Proof.
  intros N H rest buffer R. destruct (H rest buffer R) as (b1 & b2 & n & last & q & E1 & E2 & R2 & F & A).
  exists 1%nat, [(q, slice b2 (payload q) (payload_length q))], b2. split; [destruct ps; [easy|cbn; lia]|]. split; [exact R2|].
  split; [repeat constructor; exact F|]. split; [intros k; exact (exchange_one _ _ _ _ _ _ _ _ k E1 E2)|]. intros a. apply A.
Qed.

(** *** Single NAL units *)

(** The unit of [n] bytes from [o] on, neither empty nor of an aggregate type. *)
Definition nal_ok (o n : Z) : Prop :=
  0 <= o /\ 1 <= n /\ o + n <= zlen (payload_data_ p) /\ 1 <= Z.land (rd (payload_data_ p) o) 0x1F <= 23.
Definition nal (o n : Z) : list Z := slice (payload_data_ p) o n.

Hypothesis (Hb : bytes (payload_data_ p)) (Hm : 3 <= max_payload_len_ p <= 65535).

Lemma room_app body tl : bytes body -> bytes tl -> max_payload_len_ p <= zlen body + zlen tl -> room (body ++ tl).
Proof. intros B T L. split; [now apply Forall_app|]. now rewrite zlen_app. Qed.

Lemma bytes_nal o n : bytes (nal o n).
Proof. now apply bytes_slice. Qed.
Lemma zlen_nal o n : nal_ok o n -> zlen (nal o n) = n.
Proof. intros (H1 & H2 & H3 & _). apply zlen_slice; lia. Qed.
Lemma rd_nal o n : nal_ok o n -> rd (nal o n) 0 = rd (payload_data_ p) o.
Proof. intros (H1 & H2 & H3 & _). unfold nal. rewrite rd_slice by lia. f_equal. lia. Qed.

Lemma slice_prefix (body tl : list Z) : slice (body ++ tl) 0 (zlen body) = body.
Proof. exact (slice_mid [] body tl). Qed.

Lemma Parse_single mem o n : nal_ok o n -> n < 65536 -> bytes mem -> (exists tl, mem = nal o n ++ tl) ->
  exists q, Parse pp mem n = Ok (mem, Some q) /\ payload q = 0 /\ payload_length q = n /\
    H264 q = mk_h264 (Z.land (rd mem 0) 0x1F) kH264SingleNalu.
Proof.
  intros H Hn B [tl ->]. pose proof (zlen_nal o n H) as L. pose proof (rd_nal o n H) as R. pose proof (zlen_nonneg tl).
  destruct H as (H1 & H2 & H3 & H4). rewrite (rd_app_l _ tl 0) by lia. rewrite <- R in H4.
  set (mem := nal o n ++ tl) in *. assert (Lm : zlen mem = n + zlen tl) by (unfold mem; rewrite zlen_app; lia).
  assert (R0 : rd mem 0 = rd (nal o n) 0) by (apply rd_app_l; lia).
  assert (E : locate_nalu mem n = Ok (Some (Z.land (rd mem 0) 0x1F, kH264SingleNalu, 1, n - 1))).
  { unfold locate_nalu. rewrite byte_ok by lia. cbn [bind]. change kTypeMask with 0x1F. unfold kStapA, kNalHeaderSize.
    now replace (Z.land (rd mem 0) 31 =? 24) with false by (rewrite R0; lia). }
  destruct (ParseSingleNalu_located pp mem n _ _ _ _ B E) as (q & Eq & Hq & _); try lia.
  unfold Parse. replace (n =? 0) with false by lia. rewrite byte_ok by lia. cbn [bind]. change kTypeMask with 0x1F. unfold kFuA.
  replace (Z.land (rd mem 0) 31 =? 28) with false by (rewrite R0; lia). rewrite Eq. cbn [bind].
  eexists. split; [reflexivity|]. cbn [payload payload_length set_payload H264]. rewrite Hq, R0. auto.
Qed.

Lemma delivers_single o n h : nal_ok o n -> n <= max_payload_len_ p ->
  delivers [mk_packet o n true true true h] [nal o n].
Proof.
  intros H Hn. apply drives_one; [discriminate|]. intros rest buffer [B L].
  pose proof (zlen_nal o n H) as Ln. pose proof H as (H1 & H2 & H3 & _).
  set (mem := nal o n ++ skipn (Z.to_nat n) buffer).
  assert (Bm : bytes mem) by (apply Forall_app; split; [apply bytes_nal|now apply Forall_skipn]).
  destruct (Parse_single mem o n H ltac:(lia) Bm (ex_intro _ _ eq_refl)) as (q & E & Q1 & Q2 & Q3).
  exists mem, mem, n, (match rest with [] => true | _ => false end), q. split; [|split; [exact E|]].
  - unfold NextPacket. cbn [packets_ set_packets app first_fragment last_fragment andb offset size payload_data_].
    pose proof (memcpy_at [] buffer (payload_data_ p) o n ltac:(lia) ltac:(lia) ltac:(lia) ltac:(lia)) as Mc.
    cbn [app] in Mc. change (zlen (@nil Z)) with 0 in Mc. rewrite Mc. reflexivity.
  - split; [apply room_app; [apply bytes_nal|now apply Forall_skipn|rewrite zlen_skipn by lia; lia]|]. split; [lia|].
    intros acc. unfold receive. cbn [fst snd]. rewrite Q3, Q1, Q2. cbn [packetization_type]. do 2 f_equal.
    unfold mem. rewrite <- Ln at 3. apply slice_prefix.
Qed.
Lemma slice_one (l : list Z) i : 0 <= i < zlen l -> slice l i 1 = [rd l i].
Proof.
  intros H. rewrite <- (Z.add_0_r i) at 2. rewrite <- rd_skipn by lia. unfold slice.
  pose proof (zlen_skipn l i ltac:(lia)) as L. destruct (skipn (Z.to_nat i) l); [change (zlen (@nil Z)) with 0 in L; lia|reflexivity].
Qed.

(** *** Fragments *)

(** A packet of a fragment: its two header bytes and its part of the payload. *)
Definition fu_indicator (h : Z) : Z := Z.lor (Z.land h 0xE0) kFuA.
Definition fu_header (h : Z) (first last : bool) : Z :=
  Z.lor (Z.lor (if first then kSBit else 0) (if last then kEBit else 0)) (Z.land h 0x1F).

Lemma fu_bytes h first last : in_u8 h ->
  in_u8 (fu_indicator h) /\ in_u8 (fu_header h first last) /\ Z.land (fu_indicator h) 0x1F = kFuA /\
  (0 <? Z.land (fu_header h first last) kSBit) = first /\
  Z.lor (Z.land (fu_indicator h) 0xE0) (Z.land (fu_header h first last) 0x1F) = h.
Proof.
  intros H.
  assert (E : forallb (fun c => let '(f, l) := c in
      (fu_indicator h <? 256) && (0 <=? fu_indicator h) && (fu_header h f l <? 256) && (0 <=? fu_header h f l) &&
      (Z.land (fu_indicator h) 31 =? kFuA) && Bool.eqb (0 <? Z.land (fu_header h f l) kSBit) f &&
      (Z.lor (Z.land (fu_indicator h) 224) (Z.land (fu_header h f l) 31) =? h))
    [(true, true); (true, false); (false, true); (false, false)] = true).
  { revert h H. apply byte_cases. now vm_compute. }
  rewrite forallb_forall in E. specialize (E (first, last)). cbv beta iota in E.
  rewrite !andb_true_iff, Z.eqb_eq, Z.eqb_eq in E. destruct E as ((((((E1 & E2) & E3) & E4) & E5) & E6) & E7).
  { destruct first, last; cbn; auto. }
  apply eqb_prop in E6. unfold in_u8. repeat split; auto; lia.
Qed.

Section Fragment.
Variable q : Packet.
Hypothesis (Hq : aggregated q = false) (Hfl : first_fragment q && last_fragment q = false).
Hypothesis (Ho : 0 <= offset q) (Hs : 1 <= size q <= max_payload_len_ p - 2) (He : offset q + size q <= zlen (payload_data_ p)).
Hypothesis (Hh : in_u8 (header q)).

Definition fu_packet (buffer : list Z) : list Z :=
  [fu_indicator (header q); fu_header (header q) (first_fragment q) (last_fragment q)] ++
  (nal (offset q) (size q) ++ skipn (Z.to_nat (size q)) (skipn 2 buffer)).

Lemma fu_next rest buffer : room buffer ->
  exists last, NextPacket (set_packets p ([q] ++ rest)) buffer =
    Ok (set_packets p rest, fu_packet buffer, Some (size q + 2, last)).
Proof.
  intros [B L]. eexists. unfold NextPacket. cbn [packets_ set_packets app]. rewrite Hfl, Hq. unfold NextFragmentPacket.
  destruct buffer as [|x [|y tl]]; rewrite ?zlen_cons in L; [change (zlen (@nil Z)) with 0 in L; lia|change (zlen (@nil Z)) with 0 in L; lia|].
  change (Z.lor kFBit kNriMask) with 0xE0. change kTypeMask with 0x1F. fold (fu_indicator (header q)).
  fold (fu_header (header q) (first_fragment q) (last_fragment q)).
  destruct (fu_bytes (header q) (first_fragment q) (last_fragment q) Hh) as (U1 & U2 & _).
  pose proof (set8_at [] x (y :: tl) (fu_indicator (header q))) as S1. cbn [app] in S1. change (zlen (@nil Z)) with 0 in S1.
  rewrite S1. cbn [bind]. rewrite u8_id by exact U1.
  pose proof (set8_at [fu_indicator (header q)] y tl (fu_header (header q) (first_fragment q) (last_fragment q))) as S2.
  cbn [app] in S2. change (zlen [_]) with 1 in S2. rewrite S2. cbn [bind]. rewrite u8_id by exact U2.
  pose proof (memcpy_at [fu_indicator (header q); fu_header (header q) (first_fragment q) (last_fragment q)] tl
    (payload_data_ p) (offset q) (size q) ltac:(lia) ltac:(lia) ltac:(lia) ltac:(lia)) as M.
  cbn [app] in M. change (zlen [_; _]) with 2 in M. change (payload_data_ (set_packets p (q :: rest))) with (payload_data_ p).
  unfold kFuAHeaderSize. rewrite M. cbn [bind]. reflexivity.
Qed.

Lemma fu_room buffer h : room buffer -> in_u8 h ->
  room ([fu_indicator (header q); h] ++ (nal (offset q) (size q) ++ skipn (Z.to_nat (size q)) (skipn 2 buffer))).
Proof.
  intros [B L] Hh'. destruct (fu_bytes (header q) true true Hh) as (U1 & _).
  apply room_app; [constructor; [exact U1|now constructor]| |].
  - apply Forall_app. split; [apply bytes_nal|]. now do 2 apply Forall_skipn.
  - rewrite zlen_app. unfold nal. rewrite zlen_slice by lia. rewrite zlen_skipn; change 2%nat with (Z.to_nat 2).
    + rewrite zlen_skipn by lia. change (zlen [_; _]) with 2. lia.
    + rewrite zlen_skipn by lia. lia.
Qed.

Lemma fu_parse buffer : room buffer ->
  exists b2 r, Parse pp (fu_packet buffer) (size q + 2) = Ok (b2, Some r) /\ room b2 /\
    payload r + payload_length r = size q + 2 /\ packetization_type (H264 r) = kH264FuA /\
    isFirstPacket r = first_fragment q /\
    slice b2 (payload r) (payload_length r) =
      (if first_fragment q then [header q] else []) ++ nal (offset q) (size q).
Proof.
  intros R. destruct (fu_bytes (header q) (first_fragment q) (last_fragment q) Hh) as (U1 & U2 & T & S & Rs).
  unfold fu_packet. set (tl := skipn _ (skipn 2 buffer)). set (i := fu_indicator (header q)) in *.
  set (g := fu_header _ _ _) in *. set (body := nal (offset q) (size q)).
  assert (Lb : zlen body = size q) by (apply zlen_slice; lia).
  pose proof (zlen_nonneg tl). set (mem := [i; g] ++ body ++ tl).
  assert (Lm : zlen mem = 2 + (size q + zlen tl)) by (unfold mem; rewrite !zlen_app, Lb; reflexivity).
  assert (R0 : rd mem 0 = i) by reflexivity. assert (R1 : rd mem 1 = g) by reflexivity.
  unfold Parse. replace (size q + 2 =? 0) with false by lia. rewrite byte_ok by lia. cbn [bind]. rewrite R0.
  change kTypeMask with 0x1F. rewrite T, Z.eqb_refl. unfold ParseFuaNalu, kFuAHeaderSize, kNalHeaderSize.
  replace (size q + 2 <? 2) with false by lia. rewrite !byte_ok by lia. cbn [bind]. rewrite R0, R1.
  change (Z.lor kFBit kNriMask) with 0xE0. change kTypeMask with 0x1F. rewrite S.
  destruct (first_fragment q).
  - pose proof (set8_at [i] g (body ++ tl) (Z.lor (Z.land i 224) (Z.land g 31))) as S8. change (zlen [i]) with 1 in S8.
    change ([i] ++ g :: body ++ tl) with mem in S8. rewrite S8. cbn [bind]. rewrite Rs, u8_id by exact Hh.
    do 2 eexists. split; [reflexivity|]. split; [exact (fu_room buffer (header q) R Hh)|].
    cbn [payload payload_length set_payload H264 set_H264 packetization_type isFirstPacket set_first].
    split; [lia|]. split; [reflexivity|]. split; [reflexivity|].
    transitivity (slice ([i] ++ (header q :: body) ++ tl) (zlen [i]) (zlen (header q :: body))); [|apply slice_mid].
    replace (zlen (header q :: body)) with (size q + 2 - 1) by (rewrite zlen_cons; lia). reflexivity.
  - cbn [bind]. do 2 eexists. split; [reflexivity|]. split; [exact (fu_room buffer g R U2)|].
    cbn [payload payload_length set_payload H264 set_H264 packetization_type isFirstPacket set_first].
    split; [lia|]. split; [reflexivity|]. split; [reflexivity|].
    transitivity (slice ([i; g] ++ body ++ tl) (zlen [i; g]) (zlen body)); [|apply slice_mid].
    replace (zlen body) with (size q + 2 - 2) by lia. reflexivity.
Qed.

Lemma drives_fragment (P : list (list Z) -> list (list Z) -> Prop) :
  (forall a, P a (if first_fragment q then a ++ [header q :: nal (offset q) (size q)]
                  else extend_last a (nal (offset q) (size q)))) ->
  drives [q] P.
Proof.
  intros HP. apply drives_one; [discriminate|]. intros rest buffer R. destruct (fu_next rest buffer R) as (last & E1).
  destruct (fu_parse buffer R) as (b2 & r & E2 & R2 & Q1 & Q2 & Q3 & Q4).
  do 5 eexists. split; [exact E1|]. split; [exact E2|]. split; [exact R2|]. split; [lia|].
  intros a. unfold receive. cbn [fst snd]. rewrite Q2, Q3, Q4. specialize (HP a). now destruct (first_fragment q).
Qed.
End Fragment.

(** The fragments of the unit from [o] to [fin], from the byte [pos] on. *)
Fixpoint fu_run (o fin pos : Z) (ps : list Packet) : Prop :=
  match ps with
  | [] => pos = fin
  | q :: ps =>
      offset q = pos /\ 1 <= size q <= max_payload_len_ p - 2 /\ first_fragment q = (pos - 1 =? o) /\
      last_fragment q = (pos + size q =? fin) /\ aggregated q = false /\
      header q = rd (payload_data_ p) o /\ fu_run o fin (pos + size q) ps
  end.

Lemma fu_run_le o fin ps : forall pos, fu_run o fin pos ps -> pos <= fin.
Proof. induction ps as [|q ps IH]; intros pos; cbn [fu_run]; [lia|]. intros (_ & H & _ & _ & _ & _ & R). apply IH in R. lia. Qed.

Lemma nal_split pos n fin : 0 <= pos -> 0 <= n -> pos + n <= fin -> nal pos (fin - pos) = nal pos n ++ nal (pos + n) (fin - (pos + n)).
Proof. intros. unfold nal. rewrite <- slice_add by lia. f_equal. lia. Qed.

(** After the first, fragments extend the last NAL unit. *)
Lemma drives_fragments o fin ps : fin <= zlen (payload_data_ p) -> forall pos, 0 <= o -> o + 1 < pos -> fu_run o fin pos ps ->
  drives ps (fun a a' => forall acc x, a = acc ++ [x] -> a' = acc ++ [x ++ nal pos (fin - pos)]).
Proof.
  intros Hf. induction ps as [|q ps IH]; intros pos H0 Ho; cbn [fu_run].
  - intros ->. apply drives_nil. intros a acc x ->. replace (fin - fin) with 0 by lia. unfold nal, slice. cbn [Z.to_nat firstn].
    now rewrite app_nil_r.
  - intros (Q1 & Q2 & Q3 & Q4 & Q5 & Q6 & R). pose proof (fu_run_le _ _ _ _ R). replace (pos - 1 =? o) with false in Q3 by lia.
    change (q :: ps) with ([q] ++ ps).
    apply (drives_app [q] ps (fun a b => b = extend_last a (nal pos (size q)))
      (fun a a' => forall acc x, a = acc ++ [x] -> a' = acc ++ [x ++ nal (pos + size q) (fin - (pos + size q))])).
    + apply drives_fragment; rewrite ?Q1, ?Q3, ?Q6; auto; try lia. now apply bytes_rd.
    + apply IH; [exact H0|lia|exact R].
    + intros a b c -> K acc x ->. rewrite extend_last_app in K. rewrite (K acc (x ++ nal pos (size q)) eq_refl).
      rewrite (nal_split pos (size q) fin) by lia. now rewrite app_assoc.
Qed.

Lemma delivers_fu o n ps : 0 <= o -> max_payload_len_ p < n -> o + n <= zlen (payload_data_ p) -> fu_run o (o + n) (o + 1) ps ->
  delivers ps [nal o n].
Proof.
  intros H0 Hn He R. destruct ps as [|q ps]; cbn [fu_run] in R; [lia|]. destruct R as (Q1 & Q2 & Q3 & Q4 & Q5 & Q6 & R).
  replace (o + 1 - 1 =? o) with true in Q3 by lia. replace (o + 1 + size q =? o + n) with false in Q4 by lia.
  pose proof (fu_run_le _ _ _ _ R).
  apply (drives_app [q] ps (fun a b => b = a ++ [header q :: nal (o + 1) (size q)])
    (fun a a' => forall acc x, a = acc ++ [x] -> a' = acc ++ [x ++ nal (o + 1 + size q) (o + n - (o + 1 + size q))])).
  - apply drives_fragment; rewrite ?Q1, ?Q3, ?Q4, ?Q6; auto; try lia. now apply bytes_rd.
  - apply (drives_fragments o); [exact He|exact H0|lia|exact R].
  - intros a b c -> K. rewrite (K a _ eq_refl). do 2 f_equal. cbn [app].
    rewrite <- (nal_split (o + 1) (size q) (o + n)) by lia. rewrite Q6. unfold nal.
    replace n with (1 + (o + n - (o + 1))) at 2 by lia. rewrite slice_add by lia. f_equal.
    rewrite slice_one by lia. reflexivity.
Qed.
(** *** Aggregations *)

Fixpoint stap_of (us : list (Z * Z)) (first : bool) : list Packet :=
  match us with
  | [] => []
  | (o, n) :: us =>
      mk_packet o n first (match us with [] => true | _ => false end) true (rd (payload_data_ p) o) :: stap_of us false
  end.

Fixpoint stap_bytes (us : list (Z * Z)) : list Z :=
  match us with
  | [] => []
  | (o, n) :: us => ([n / 256; n mod 256] ++ nal o n) ++ stap_bytes us
  end.

Definition units_ok (us : list (Z * Z)) : Prop := Forall (fun u => nal_ok (fst u) (snd u) /\ snd u < 65536) us.

Lemma set16_at a x y b n : 0 <= n < 65536 -> set16 (a ++ x :: y :: b) (zlen a) n = Ok ((a ++ [n / 256; n mod 256]) ++ b).
Proof.
  intros Hn. unfold set16. rewrite set8_at. cbn [bind]. rewrite shiftr_div by lia. change (2 ^ 8) with 256.
  replace (zlen a + 1) with (zlen (a ++ [n / 256])) by (rewrite zlen_app; reflexivity).
  rewrite (u8_id (n / 256)) by (unfold in_u8; dlia).
  replace (a ++ n / 256 :: y :: b) with ((a ++ [n / 256]) ++ y :: b) by now rewrite <- app_assoc.
  rewrite set8_at. rewrite <- !app_assoc. reflexivity.
Qed.

Lemma stap_bytes_cons o n us : units_ok ((o, n) :: us) ->
  nal_ok o n /\ 0 <= n < 65536 /\ units_ok us /\ zlen (stap_bytes ((o, n) :: us)) = 2 + n + zlen (stap_bytes us).
Proof.
  intros H. pose proof (Forall_inv H) as [H1 H2]. apply Forall_inv_tail in H. cbn [fst snd] in *.
  cbn [stap_bytes]. rewrite !zlen_app, (zlen_nal o n H1). change (zlen [_; _]) with 2. destruct H1. repeat split; auto; lia.
Qed.

Lemma bytes_stap us : units_ok us -> bytes (stap_bytes us).
Proof.
  induction us as [|[o n] us IH]; [constructor|]. intros H. destruct (stap_bytes_cons o n us H) as (_ & Hn & Hu & _).
  cbn [stap_bytes]. apply Forall_app. split; [|now apply IH]. apply Forall_app. split; [|apply bytes_nal].
  repeat constructor; unfold in_u8; dlia.
Qed.

Lemma aggregate4_spec us : units_ok us -> us <> [] -> forall a b first rest count, zlen (stap_bytes us) <= zlen b ->
  aggregate_loop (payload_data_ p) (stap_of us first ++ rest) (a ++ b) (zlen a) count =
    Ok (rest, a ++ stap_bytes us ++ skipn (length (stap_bytes us)) b, count + zlen (stap_bytes us)).
Proof.
  induction us as [|[o n] us IH]; intros U N a b first rest count L; [easy|].
  destruct (stap_bytes_cons o n us U) as (H & Hn & U' & Ls). rewrite Ls in L. pose proof (zlen_nonneg (stap_bytes us)) as Zs.
  pose proof H as (H1 & H2 & H3 & _). cbn [stap_of app aggregate_loop aggregated size offset last_fragment].
  destruct b as [|x [|y b]]; rewrite ?zlen_cons in L; change (zlen (@nil Z)) with 0 in L; try lia.
  rewrite (u16_id n) by (unfold in_u16; lia). rewrite set16_at by exact Hn. cbn [bind].
  set (a1 := a ++ [n / 256; n mod 256]). unfold kLengthFieldSize.
  replace (zlen a + 2) with (zlen a1) by (unfold a1; rewrite zlen_app; reflexivity).
  rewrite memcpy_at by lia. cbn [bind]. fold (nal o n).
  assert (Ln : length (nal o n) = Z.to_nat n) by (pose proof (zlen_nal o n H); unfold zlen in *; lia).
  assert (Fin : forall t, a1 ++ nal o n ++ t = a ++ ([n / 256; n mod 256] ++ nal o n) ++ t) by (intros t; unfold a1; now rewrite <- !app_assoc).
  assert (Sk : forall k, skipn (length (([n / 256; n mod 256] ++ nal o n) ++ k)) (x :: y :: b) = skipn (length k) (skipn (Z.to_nat n) b)).
  { intros k. rewrite !length_app, Ln. cbn [length Nat.add skipn]. rewrite skipn_skipn. f_equal. lia. }
  destruct us as [|u us].
  - rewrite Fin. cbn [stap_bytes]. rewrite Sk. cbn [length skipn]. rewrite app_nil_r.
    do 2 f_equal. rewrite zlen_app, (zlen_nal o n H). change (zlen [_; _]) with 2. lia.
  - replace (zlen a1 + n) with (zlen (a1 ++ nal o n)) by (rewrite zlen_app, (zlen_nal o n H); reflexivity).
    rewrite app_assoc, IH; [|exact U'|discriminate|rewrite zlen_skipn by lia; lia].
    cbn [stap_bytes] in *. destruct u as [o' n']. rewrite Sk, <- app_assoc, Fin. rewrite <- (app_assoc (_ ++ nal o n)). do 2 f_equal.
    rewrite Ls. lia.
Qed.

Lemma b16_pair n t : 0 <= n < 65536 -> b16 (([n / 256; n mod 256]) ++ t) 0 = n.
Proof. intros H. unfold b16. change (n / 256 * 256 + n mod 256 = n). dlia. Qed.

Lemma verify_stap us : units_ok us -> forall fuel a t, zlen (stap_bytes us) <= Z.of_nat fuel ->
  verify_loop fuel (a ++ stap_bytes us ++ t) (zlen a) (zlen (stap_bytes us)) = Ok true.
Proof.
  induction us as [|[o n] us IH]; intros U fuel a t Hf; [now destruct fuel|].
  destruct (stap_bytes_cons o n us U) as (H & Hn & U' & Ls). rewrite Ls in *. pose proof (zlen_nonneg (stap_bytes us)).
  destruct fuel as [|fuel]; [lia|]. cbn [verify_loop]. replace (0 <? _) with true by lia. replace (_ <? 2) with false by lia.
  assert (E : be16 (a ++ stap_bytes ((o, n) :: us) ++ t) (zlen a) = Ok n).
  { cbn [stap_bytes]. rewrite <- (Z.add_0_r (zlen a)), be16_mid by (rewrite ?zlen_app, ?(zlen_nal o n H); change (zlen [_; _]) with 2; lia).
    rewrite <- app_assoc, b16_pair by exact Hn. reflexivity. }
  rewrite E. cbn [bind]. replace (_ <? n) with false by lia. cbn [stap_bytes].
  specialize (IH U' fuel (a ++ [n / 256; n mod 256] ++ nal o n) t ltac:(lia)). rewrite !zlen_app, (zlen_nal o n H) in IH.
  change (zlen [_; _]) with 2 in IH. rewrite <- !app_assoc in *. rewrite <- IH. f_equal; lia.
Qed.

Lemma units_stap us : units_ok us -> forall fuel, (length us <= fuel)%nat ->
  units fuel (stap_bytes us) = map (fun u => nal (fst u) (snd u)) us.
Proof.
  induction us as [|[o n] us IH]; intros U fuel Hf; [now destruct fuel|].
  destruct (stap_bytes_cons o n us U) as (H & Hn & U' & Ls). destruct fuel as [|fuel]; [cbn in Hf; lia|].
  cbn [stap_bytes map fst snd]. cbn [units app]. cbn [app] in *.
  change (n / 256 :: n mod 256 :: nal o n ++ stap_bytes us) with ([n / 256; n mod 256] ++ (nal o n ++ stap_bytes us)).
  rewrite b16_pair by exact Hn. pose proof (zlen_nal o n H) as Ln. f_equal.
  - pose proof (slice_mid [n / 256; n mod 256] (nal o n) (stap_bytes us)) as Sm. now rewrite Ln in Sm.
  - replace (Z.to_nat (2 + n)) with (length ([n / 256; n mod 256] ++ nal o n)) by (rewrite length_app; cbn [length]; unfold zlen in Ln; lia).
    rewrite app_assoc, skipn_app, skipn_all, Nat.sub_diag. cbn [skipn app]. apply IH; [exact U'|cbn in Hf; lia].
Qed.

Lemma length_units us : units_ok us -> (length us <= length (stap_bytes us))%nat.
Proof.
  induction us as [|[o n] us IH]; intros U; [cbn; lia|]. destruct (stap_bytes_cons o n us U) as (_ & Hn & U' & Ls).
  specialize (IH U'). unfold zlen in Ls. cbn [length]. lia.
Qed.

Lemma stap_indicator h : in_u8 h ->
  in_u8 (Z.lor (Z.land h 0xE0) kStapA) /\ Z.land (Z.lor (Z.land h 0xE0) kStapA) 0x1F = kStapA.
Proof.
  intros H. set (P := fun h => (0 <=? Z.lor (Z.land h 0xE0) kStapA) && (Z.lor (Z.land h 0xE0) kStapA <? 256) &&
    (Z.land (Z.lor (Z.land h 0xE0) kStapA) 0x1F =? kStapA)).
  assert (E : P h = true) by (revert h H; apply byte_cases; now vm_compute). unfold P in E.
  rewrite !andb_true_iff, Z.eqb_eq in E. unfold in_u8. split; [lia|apply E].
Qed.

(** An aggregation is accepted and is kept whole. *)
Lemma Parse_stap i us t : units_ok us -> us <> [] -> Z.land i 0x1F = kStapA -> bytes (i :: stap_bytes us ++ t) ->
  zlen (stap_bytes us) < 2 ^ 30 ->
  exists q, Parse pp (i :: stap_bytes us ++ t) (1 + zlen (stap_bytes us)) = Ok (i :: stap_bytes us ++ t, Some q) /\
    payload q = 0 /\ payload_length q = 1 + zlen (stap_bytes us) /\ packetization_type (H264 q) = kH264StapA.
Proof.
  intros U N T B M. set (mem := i :: stap_bytes us ++ t) in *.
  assert (Hz : 3 <= zlen (stap_bytes us)).
  { destruct us as [|[o n] us]; [easy|]. destruct (stap_bytes_cons o n us U) as (H & _ & _ & Ls). pose proof (zlen_nonneg (stap_bytes us)).
    destruct H as (_ & H2 & _). lia. }
  assert (Lm : zlen mem = 1 + (zlen (stap_bytes us) + zlen t)) by (unfold mem; now rewrite zlen_cons, zlen_app).
  pose proof (zlen_nonneg t). assert (R0 : rd mem 0 = i) by reflexivity.
  assert (E : locate_nalu mem (1 + zlen (stap_bytes us)) =
    Ok (Some (Z.land (rd mem 3) kTypeMask, kH264StapA, 4, 1 + zlen (stap_bytes us) - 1 - 3))).
  { unfold locate_nalu, kStapAHeaderSize, kNalHeaderSize, kLengthFieldSize. rewrite byte_ok by lia. cbn [bind]. rewrite R0.
    change kTypeMask with 0x1F. rewrite T, Z.eqb_refl. replace (_ <=? 1 + 2) with false by lia. unfold VerifyStapANaluLengths.
    replace (1 + zlen (stap_bytes us) - 1) with (zlen (stap_bytes us)) by lia.
    rewrite (verify_stap us U _ [i] t) by lia. cbn [bind negb]. rewrite byte_ok by lia. reflexivity. }
  destruct (ParseSingleNalu_located pp mem _ _ _ _ _ B E) as (q & Eq & Hq & _); try lia.
  unfold Parse. replace (1 + zlen (stap_bytes us) =? 0) with false by lia. rewrite byte_ok by lia. cbn [bind]. rewrite R0.
  change kTypeMask with 0x1F. rewrite T. change (kStapA =? kFuA) with false. cbv iota. rewrite Eq. cbn [bind].
  eexists. split; [reflexivity|]. cbn [payload payload_length set_payload H264]. rewrite Hq. auto.
Qed.

Lemma delivers_stap us : units_ok us -> (2 <= length us)%nat -> 1 + zlen (stap_bytes us) <= max_payload_len_ p ->
  delivers (stap_of us true) (map (fun u => nal (fst u) (snd u)) us).
Proof.
  intros U N L. assert (Ne : us <> []) by (destruct us; [cbn in N; lia|discriminate]).
  apply drives_one; [destruct us as [|[o n] us]; [easy|discriminate]|]. intros rest buffer [B Lb].
  destruct buffer as [|x tl]; [change (zlen (@nil Z)) with 0 in Lb; lia|]. rewrite zlen_cons in Lb.
  destruct us as [|[o n] us]; [easy|]. set (h := rd (payload_data_ p) o).
  destruct (stap_indicator h (bytes_rd _ _ Hb)) as [I1 I2]. set (i := Z.lor (Z.land h 0xE0) kStapA) in *.
  set (tail := skipn (length (stap_bytes ((o, n) :: us))) tl).
  assert (Bm : bytes (i :: stap_bytes ((o, n) :: us) ++ tail)).
  { constructor; [exact I1|]. apply Forall_app. split; [now apply bytes_stap|]. apply Forall_skipn. now apply Forall_inv_tail in B. }
  destruct (Parse_stap i ((o, n) :: us) tail U ltac:(discriminate) I2 Bm ltac:(lia)) as (q & E & Q1 & Q2 & Q3).
  exists (i :: stap_bytes ((o, n) :: us) ++ tail), (i :: stap_bytes ((o, n) :: us) ++ tail), (1 + zlen (stap_bytes ((o, n) :: us))),
    (match rest with [] => true | _ => false end), q.
  split; [|split; [exact E|]].
  - unfold NextPacket. destruct us as [|u us]; [cbn in N; lia|].
    change (packets_ (set_packets p (stap_of ((o, n) :: u :: us) true ++ rest))) with
      (mk_packet o n true false true h :: (stap_of (u :: us) false ++ rest)).
    cbn [first_fragment last_fragment andb aggregated]. unfold NextAggregatePacket. cbn [header].
    change (Z.lor kFBit kNriMask) with 0xE0. fold i.
    pose proof (set8_at [] x tl i) as S8. cbn [app] in S8. change (zlen (@nil Z)) with 0 in S8. rewrite S8. cbn [bind].
    rewrite u8_id by exact I1.
    pose proof (aggregate4_spec ((o, n) :: u :: us) U ltac:(discriminate) [i] tl true rest 1 ltac:(lia)) as A.
    cbn [app] in A. change (zlen [i]) with 1 in A.
    change (payload_data_ (set_packets p (stap_of ((o, n) :: u :: us) true ++ rest))) with (payload_data_ p).
    change (packets_ (set_packets p (stap_of ((o, n) :: u :: us) true ++ rest))) with (stap_of ((o, n) :: u :: us) true ++ rest).
    unfold kNalHeaderSize. rewrite A. reflexivity.
  - split.
    { split; [exact Bm|]. rewrite zlen_cons, zlen_app. unfold tail.
      replace (length (stap_bytes ((o, n) :: us))) with (Z.to_nat (zlen (stap_bytes ((o, n) :: us)))) by (unfold zlen; lia).
      rewrite zlen_skipn by (pose proof (zlen_nonneg (stap_bytes ((o, n) :: us))); lia). lia. }
    split; [lia|]. intros a. unfold receive. cbn [fst snd]. rewrite Q3, Q1, Q2.
    assert (Sl : slice (i :: stap_bytes ((o, n) :: us) ++ tail) 0 (1 + zlen (stap_bytes ((o, n) :: us))) = i :: stap_bytes ((o, n) :: us)).
    { rewrite <- (zlen_cons i). apply (slice_prefix (i :: stap_bytes ((o, n) :: us))). }
    rewrite Sl. cbn [skipn]. rewrite units_stap; [reflexivity|exact U|]. pose proof (length_units _ U). cbn [length] in *. lia.
Qed.
(** *** The packetizer *)

Lemma fua_loop_spec o : 0 <= o < zlen (payload_data_ p) -> forall avg fuel pk len pos,
  1 <= avg <= max_payload_len_ p - 2 -> 0 <= len <= Z.of_nat fuel ->
  exists ps, fua_loop fuel (set_packets p pk) o len pos avg = Ok (set_packets p (pk ++ ps)) /\ fu_run o (pos + len) pos ps.
Proof.
  intros Ho avg fuel. induction fuel as [|fuel IH]; intros pk len pos Ha Hl; cbn [fua_loop];
    (destruct (Z.ltb_spec 0 len); [|exists []; rewrite app_nil_r; split; [reflexivity|cbn; lia]]); [lia|].
  change (payload_data_ (set_packets p pk)) with (payload_data_ p). rewrite byte_ok by exact Ho. cbn [bind].
  set (n := if len <? avg then len else avg).
  assert (Hn : 1 <= n <= avg /\ n <= len) by (unfold n; destruct (Z.ltb_spec len avg); lia).
  unfold push. change (set_packets (set_packets p pk) (packets_ (set_packets p pk) ++ ?x)) with (set_packets p (pk ++ x)).
  match goal with |- context [pk ++ [?q]] => destruct (IH (pk ++ [q]) (len - n) (pos + n) Ha ltac:(lia)) as (ps & E & R); set (q0 := q) in * end.
  exists (q0 :: ps). rewrite <- app_assoc in E. split; [exact E|].
  replace (pos + n + (len - n)) with (pos + len) in R by lia. cbn [fu_run]. unfold q0.
  cbn [offset size first_fragment last_fragment aggregated header]. unfold kNalHeaderSize. repeat split; auto; lia.
Qed.

Lemma PacketizeFuA_spec pk o n : nal_ok o n -> max_payload_len_ p < n -> n < 2 ^ 31 ->
  exists ps, PacketizeFuA (set_packets p pk) o n = Ok (set_packets p (pk ++ ps)) /\ delivers ps [nal o n].
Proof.
  intros H Hn M. pose proof H as (H1 & H2 & H3 & _). unfold PacketizeFuA, kNalHeaderSize, kFuAHeaderSize.
  change (max_payload_len_ (set_packets p pk)) with (max_payload_len_ p).
  set (b := max_payload_len_ p - 2). assert (Hbb : 1 <= b <= 65533) by (unfold b; lia).
  rewrite (u64_id (n - 1)), (u64_id b), (u64_id (b - 1)), (u64_id (n - 1 + (b - 1))) by (unfold in_u64; lia).
  unfold div at 1. replace (b =? 0) with false by lia. cbn [bind]. set (f := (n - 1 + (b - 1)) / b).
  assert (F1 : 1 <= f) by (apply Z.div_le_lower_bound; lia).
  assert (F2 : f <= n - 1 + (b - 1)) by (apply Z.div_le_upper_bound; nia).
  assert (F3 : n - 1 <= f * b).
  { pose proof (Z.div_mod (n - 1 + (b - 1)) b ltac:(lia)) as D. pose proof (Z.mod_pos_bound (n - 1 + (b - 1)) b ltac:(lia)).
    fold f in D. nia. }
  rewrite (u64_id (n - 1 + f)), (u64_id (n - 1 + f - 1)) by (unfold in_u64; lia).
  unfold div. replace (f =? 0) with false by lia. cbn [bind]. set (avg := (n - 1 + f - 1) / f).
  assert (A : 1 <= avg <= b).
  { split; [apply Z.div_le_lower_bound; lia|]. apply Z.lt_succ_r, Z.div_lt_upper_bound; nia. }
  destruct (fua_loop_spec o ltac:(lia) avg (Z.to_nat (n - 1)) pk (n - 1) (o + 1) A ltac:(lia)) as (ps & E & R).
  exists ps. split; [exact E|]. apply delivers_fu; try lia. now replace (o + n) with (o + 1 + (n - 1)) by lia.
Qed.

(** What a unit costs besides its bytes, as the number [agg] in its packet. *)
Definition overhead (agg : Z) : Z := if agg =? 0 then 0 else if agg =? 1 then 5 else 2.
Fixpoint cost (agg : Z) (us : list (Z * Z)) : Z :=
  match us with [] => 0 | (_, n) :: us => n + overhead agg + cost (agg + 1) us end.

(** The packets before the last is marked. *)
Definition open_of (us : list (Z * Z)) (first : bool) : list Packet :=
  match us with
  | [] => []
  | (o, n) :: us =>
      mk_packet o n first false true (rd (payload_data_ p) o) ::
      map (fun u => mk_packet (fst u) (snd u) false false true (rd (payload_data_ p) (fst u))) us
  end.

Lemma open_of_cons o n us first :
  open_of ((o, n) :: us) first = mk_packet o n first false true (rd (payload_data_ p) o) :: open_of us false.
Proof. destruct us as [|[o' n'] us]; reflexivity. Qed.

Lemma mark_last_app a b : b <> [] -> mark_last (a ++ b) = let! b := mark_last b in Ok (a ++ b).
Proof.
  intros N. induction a as [|q a IH]; cbn [app]; [now destruct (mark_last b)|].
  cbn [mark_last]. rewrite IH. destruct (a ++ b) eqn:E; [apply app_eq_nil in E; now destruct E|].
  now destruct (mark_last b).
Qed.

Lemma mark_open us : forall first, us <> [] -> mark_last (open_of us first) = Ok (stap_of us first).
Proof.
  induction us as [|[o n] us IH]; intros first N; [easy|]. rewrite open_of_cons. destruct us as [|[o' n'] us]; [reflexivity|].
  specialize (IH false ltac:(discriminate)). rewrite open_of_cons in *. cbn [mark_last]. cbn [mark_last] in IH. rewrite IH. reflexivity.
Qed.

Section Frame.
Variable frs : list (Z * Z).
Hypothesis (Hf : fragmentation_ p = mk_frag (zlen frs) (map fst frs) (map snd frs)).
Hypothesis (Hu : Forall (fun u => nal_ok (fst u) (snd u)) frs) (Hz : zlen (payload_data_ p) < 2 ^ 31).

Lemma get_mid {A} (f : Z * Z -> A) done u us : frs = done ++ u :: us -> get (map f frs) (zlen done) = Ok (f u).
Proof.
  intros ->. pose proof (zlen_nonneg done). unfold get. replace (zlen done <? 0) with false by lia.
  rewrite map_app, nth_error_app2 by (rewrite length_map; unfold zlen; lia). rewrite length_map.
  unfold zlen. now rewrite Nat2Z.id, Nat.sub_diag.
Qed.

Lemma frs_nal_ok done u us : frs = done ++ u :: us -> nal_ok (fst u) (snd u) /\ snd u < 2 ^ 31.
Proof.
  intros E. pose proof Hu as H. rewrite E in H. apply Forall_app in H. destruct H as [_ H]. apply Forall_inv in H.
  split; [exact H|]. destruct H as (H1 & H2 & H3 & _). lia.
Qed.

Lemma stapa_loop_spec us : forall done o n fuel pk left agg,
  frs = done ++ (o, n) :: us -> 0 <= left <= 65535 -> 0 <= agg -> (length us < fuel)%nat ->
  exists taken rest, (o, n) :: us = taken ++ rest /\ cost agg taken <= left /\ (n + overhead agg <= left -> taken <> []) /\
    stapa_loop fuel (set_packets p pk) (zlen done) o n left agg (overhead agg) =
      Ok (set_packets p (pk ++ open_of taken (agg =? 0)), zlen done + zlen taken).
Proof.
  induction us as [|[o' n'] us IH]; intros done o n fuel pk left agg E Hl Ha Hfu; (destruct fuel as [|fuel]; [lia|]); cbn [stapa_loop];
    destruct (frs_nal_ok done (o, n) _ E) as [(N1 & N2 & N3 & _) N5]; cbn [fst snd] in *;
    (assert (Ov : 0 <= overhead agg <= 5) by (unfold overhead; repeat case_if; lia));
    (rewrite (u64_id (n + overhead agg)) by (unfold in_u64; lia));
    (destruct (Z.leb_spec (n + overhead agg) left); [|
      eexists [], _; split; [reflexivity|]; split; [cbn; lia|]; split; [lia|];
      cbn [open_of]; rewrite app_nil_r; change (zlen (@nil (Z * Z))) with 0; now rewrite Z.add_0_r]);
    change (payload_data_ (set_packets p pk)) with (payload_data_ p);
    (rewrite byte_ok by lia); cbn [bind]; unfold push;
    change (set_packets (set_packets p pk) (packets_ (set_packets p pk) ++ ?x)) with (set_packets p (pk ++ x));
    change (fragmentation_ (set_packets p ?x)) with (fragmentation_ p); rewrite Hf; cbn [fragmentationVectorSize].
  - replace (zlen done + 1 =? zlen frs) with true by (rewrite E, zlen_app; change (zlen [(o, n)]) with 1; lia).
    exists [(o, n)], []. split; [reflexivity|]. split; [cbn; lia|]. split; [discriminate|]. reflexivity.
  - pose proof (zlen_nonneg us). replace (zlen done + 1 =? zlen frs) with false by (rewrite E, zlen_app, !zlen_cons; lia).
    assert (E' : frs = (done ++ [(o, n)]) ++ (o', n') :: us) by (rewrite <- app_assoc; exact E).
    replace (zlen done + 1) with (zlen (done ++ [(o, n)])) by (rewrite zlen_app; reflexivity).
    cbn [fragmentationOffset fragmentationLength]. rewrite (get_mid fst _ _ _ E'), (get_mid snd _ _ _ E'). cbn [bind fst snd].
    rewrite (u64_id (left - n)), (u64_id (left - n - overhead agg)) by (unfold in_u64; lia).
    replace (if agg =? 0 then kLengthFieldSize + (kNalHeaderSize + kLengthFieldSize) else kLengthFieldSize) with (overhead (agg + 1))
      by (unfold overhead, kLengthFieldSize, kNalHeaderSize; repeat case_if; lia).
    match goal with |- context [pk ++ [?q]] => destruct (IH (done ++ [(o, n)]) o' n' fuel (pk ++ [q]) (left - n - overhead agg) (agg + 1))
      as (taken & rest & T1 & T2 & _ & T4) end; [exact E'|lia|lia|cbn in Hfu; lia|].
    exists ((o, n) :: taken), rest. split; [cbn; now rewrite T1|]. split; [cbn [cost]; lia|]. split; [discriminate|].
    replace (zlen done + zlen ((o, n) :: taken)) with (zlen (done ++ [(o, n)]) + zlen taken)
      by (rewrite zlen_app, !zlen_cons; change (zlen (@nil (Z * Z))) with 0; lia).
    rewrite T4, open_of_cons, <- app_assoc. now replace (agg + 1 =? 0) with false by lia.
Qed.

Lemma units_of_cost us : forall agg, Forall (fun u => nal_ok (fst u) (snd u)) us -> 0 <= agg -> cost agg us <= 65535 -> units_ok us /\ 0 <= cost agg us.
Proof.
  induction us as [|[o n] us IH]; intros agg H Ha C; [split; [constructor|cbn; lia]|]. cbn [cost] in *.
  pose proof (Forall_inv H) as Hn. apply Forall_inv_tail in H. assert (0 <= overhead agg) by (unfold overhead; repeat case_if; lia).
  cbn [fst snd] in Hn. pose proof Hn as (_ & N2 & _).
  assert (C' : cost (agg + 1) us <= 65535 /\ 0 <= cost (agg + 1) us -> n < 65536) by lia.
  destruct (Z.le_gt_cases (cost (agg + 1) us) 65535) as [L|G].
  - destruct (IH (agg + 1) H ltac:(lia) L) as [U P]. split; [constructor; [cbn; split; [exact Hn|lia]|exact U]|lia].
  - exfalso. lia.
Qed.

Lemma cost_many us : units_ok us -> forall agg, 2 <= agg -> cost agg us = zlen (stap_bytes us).
Proof.
  induction us as [|[o n] us IH]; intros U agg Ha; [reflexivity|]. destruct (stap_bytes_cons o n us U) as (_ & _ & U' & ->).
  cbn [cost]. rewrite (IH U') by lia. unfold overhead. replace (agg =? 0) with false by lia. replace (agg =? 1) with false by lia. lia.
Qed.

Lemma cost_two u v us : units_ok (u :: v :: us) -> cost 0 (u :: v :: us) = 1 + zlen (stap_bytes (u :: v :: us)).
Proof.
  destruct u as [o n], v as [o' n']. intros U. destruct (stap_bytes_cons _ _ _ U) as (_ & _ & U' & ->).
  destruct (stap_bytes_cons _ _ _ U') as (_ & _ & U2 & ->). cbn [cost]. change (overhead 0) with 0. change (overhead (0 + 1)) with 5.
  rewrite (cost_many us U2) by lia. lia.
Qed.

Lemma PacketizeStapA_spec done o n us pk : frs = done ++ (o, n) :: us -> n <= max_payload_len_ p ->
  exists taken rest ps, (o, n) :: us = taken ++ rest /\ taken <> [] /\
    PacketizeStapA (set_packets p pk) (zlen done) o n = Ok (set_packets p (pk ++ ps), zlen done + zlen taken) /\
    delivers ps (map (fun u => nal (fst u) (snd u)) taken).
Proof.
  intros E Hn. unfold PacketizeStapA. change (fragmentation_ (set_packets p pk)) with (fragmentation_ p). rewrite Hf. cbn [fragmentationVectorSize].
  destruct (stapa_loop_spec us done o n (Z.to_nat (zlen frs - zlen done)) pk (max_payload_len_ p) 0 E) as (taken & rest & T1 & T2 & T3 & T4);
    try lia; [rewrite E, zlen_app, zlen_cons; unfold zlen; lia|].
  change (overhead 0) with 0 in T3, T4. rewrite Z.add_0_r in T3. specialize (T3 Hn).
  change (max_payload_len_ (set_packets p pk)) with (max_payload_len_ p). rewrite T4. cbn [bind]. change (0 =? 0) with true.
  change (packets_ (set_packets p (pk ++ open_of taken true))) with (pk ++ open_of taken true).
  rewrite mark_last_app by (destruct taken as [|[? ?] ?]; [easy|discriminate]). rewrite mark_open by exact T3. cbn [bind].
  exists taken, rest, (stap_of taken true). split; [exact T1|]. split; [exact T3|]. split; [reflexivity|].
  assert (Ht : Forall (fun u => nal_ok (fst u) (snd u)) taken).
  { pose proof Hu as H. rewrite E, T1 in H. apply Forall_app in H. destruct H as [_ H]. now apply Forall_app in H. }
  destruct (units_of_cost taken 0 Ht ltac:(lia) ltac:(lia)) as [U _].
  destruct taken as [|[o1 n1] [|v taken]]; [easy| |].
  - pose proof (Forall_inv Ht) as Hok. cbn [cost] in T2. change (overhead 0) with 0 in T2. apply delivers_single; [exact Hok|lia].
  - apply delivers_stap; [exact U|cbn; lia|]. rewrite <- (cost_two _ _ _ U). exact T2.
Qed.

Lemma generate4_spec fuel : forall done us pk, frs = done ++ us -> (length us <= fuel)%nat ->
  exists ps, generate_loop fuel (set_packets p pk) (zlen done) = Ok (set_packets p (pk ++ ps)) /\
    delivers ps (map (fun u => nal (fst u) (snd u)) us).
Proof.
  induction fuel as [|fuel IH]; intros done us pk E L; cbn [generate_loop];
    change (fragmentation_ (set_packets p pk)) with (fragmentation_ p); rewrite Hf; cbn [fragmentationVectorSize];
    (destruct us as [|[o n] us];
      [replace (zlen done <? zlen frs) with false by (rewrite E, app_nil_r; lia);
       exists []; rewrite app_nil_r; split; [reflexivity|apply drives_nil; intros a; cbn; now rewrite app_nil_r]|]).
  { cbn in L. lia. }
  pose proof (zlen_nonneg us). replace (zlen done <? zlen frs) with true by (rewrite E, zlen_app, zlen_cons; lia).
  cbn [fragmentationOffset fragmentationLength]. rewrite (get_mid fst _ _ _ E), (get_mid snd _ _ _ E). cbn [bind fst snd].
  change (max_payload_len_ (set_packets p pk)) with (max_payload_len_ p).
  destruct (Z.ltb_spec (max_payload_len_ p) n) as [B|B].
  - destruct (frs_nal_ok done (o, n) _ E) as [N1 N2]. destruct (PacketizeFuA_spec pk o n N1 B N2) as (ps & E1 & D1). rewrite E1. cbn [bind].
    destruct (IH (done ++ [(o, n)]) us (pk ++ ps)) as (ps' & E2 & D2); [now rewrite <- app_assoc|cbn in L; lia|].
    rewrite zlen_app in E2. change (zlen [_]) with 1 in E2. exists (ps ++ ps'). rewrite E2, app_assoc. split; [reflexivity|].
    exact (delivers_app _ _ _ _ D1 D2).
  - destruct (PacketizeStapA_spec done o n us pk E B) as (taken & rest & ps & T1 & T2 & E1 & D1). rewrite E1. cbn [bind].
    destruct (IH (done ++ taken) rest (pk ++ ps)) as (ps' & E2 & D2); [now rewrite E, T1, app_assoc| |].
    { apply (f_equal (@length _)) in T1. rewrite length_app in T1. destruct taken; [easy|]. cbn [length] in *. lia. }
    rewrite zlen_app in E2. exists (ps ++ ps'). rewrite E2, app_assoc. split; [reflexivity|]. rewrite T1, map_app.
    exact (delivers_app _ _ _ _ D1 D2).
Qed.
End Frame.
End Sending.

(** C15. An H.264 frame round trips: for every frame of NAL units that are not
    empty and whose types are those of single NAL units, and every maximal
    payload length from 3 to 65535, [SetPayloadData] queues packets such that
    [NextPacket], called until it returns false with any buffer that is large
    enough, sends packets of at most that length, [Parse] accepts every one of
    them where it lies, and the NAL units that the receiver gets (single units
    as they are, aggregations split at their length fields, fragments joined)
    are the units of the frame, in order and unchanged. *)
Theorem H264_frame_roundtrip pp payload frs max buffer :
  bytes payload -> zlen payload < 2 ^ 31 -> 3 <= max <= 65535 ->
  Forall (fun u => 0 <= fst u /\ 1 <= snd u /\ fst u + snd u <= zlen payload /\
                   1 <= Z.land (rd payload (fst u)) 0x1F <= 23) frs ->
  bytes buffer -> max <= zlen buffer ->
  exists p,
    SetPayloadData (new_RtpPacketizerH264 max) payload (zlen payload)
      (mk_frag (zlen frs) (map fst frs) (map snd frs)) = Ok p /\
    exists buffer' l,
      exchange (S (length (packets_ p))) pp p buffer = Ok (set_packets p [], buffer', l) /\
      reassemble l = map (fun u => slice payload (fst u) (snd u)) frs /\
      Forall (fun r => VideoHeaders.payload (fst r) + payload_length (fst r) <= max) l.
Proof.
  intros B Hz Hm U Bb L.
  set (p0 := mk_packetizer payload (zlen payload) max (mk_frag (zlen frs) (map fst frs) (map snd frs)) []).
  destruct (generate4_spec pp p0 B Hm frs eq_refl U Hz (Z.to_nat (zlen frs)) [] frs [] eq_refl ltac:(unfold zlen; lia)) as (ps & E & D).
  exists (set_packets p0 ps). split.
  - unfold SetPayloadData. replace (CopyFrom _ _) with (mk_frag (zlen frs) (map fst frs) (map snd frs)).
    + exact E.
    + unfold CopyFrom. cbn [fragmentationVectorSize]. destruct (Z.eqb_spec (zlen frs) 0); [|reflexivity].
      destruct frs; [reflexivity|]. rewrite zlen_cons in *. pose proof (zlen_nonneg frs). lia.
  - destruct (D [] buffer (conj Bb L)) as (m & ls & b' & M & _ & F & Ex & A). rewrite app_nil_r in Ex.
    exists b', ls. change (packets_ (set_packets p0 ps)) with ps.
    replace (S (length ps)) with (m + S (length ps - m))%nat by lia. rewrite Ex. cbn [exchange].
    split; [cbn; now rewrite app_nil_r|]. split; [unfold reassemble; now rewrite A|exact F].
Qed.

(** ** Examples *)

Definition example_payload : ParsedPayload :=
  mk_payload 0 0 kEmptyFrame 1 1 false 0 kRtpVideoNone InitRTPVideoHeaderVP8
    (mk_vp9 false false false false false 0 0 0 0 0 false false 0 0 [] [] 0 false [] [] (mk_gof 0 [] [] [] []))
    (mk_h264 0 kH264FuA).

(** Two small units that are aggregated, a long one that is fragmented and a
    single one. *)
Definition example_frame : list Z := [0x67; 66; 0; 0x68; 9; 0x65; 1; 2; 3; 4; 5; 6; 7; 8; 9; 10; 11; 12; 0x41; 7; 8; 9; 10; 11; 12; 13].
Definition example_units : list (Z * Z) := [(0, 3); (3, 2); (5, 13); (18, 8)].

Lemma H264_frame_roundtrip_witness :
  exists p,
    SetPayloadData (new_RtpPacketizerH264 10) example_frame 26 (mk_frag 4 [0; 3; 5; 18] [3; 2; 13; 8]) = Ok p /\
    exists buffer' l,
      exchange (S (length (packets_ p))) example_payload p (repeat 0 10) = Ok (set_packets p [], buffer', l) /\
      reassemble l = [[0x67; 66; 0]; [0x68; 9]; [0x65; 1; 2; 3; 4; 5; 6; 7; 8; 9; 10; 11; 12]; [0x41; 7; 8; 9; 10; 11; 12; 13]] /\
      Forall (fun r => VideoHeaders.payload (fst r) + payload_length (fst r) <= 10) l.
Proof.
  apply (H264_frame_roundtrip example_payload example_frame example_units 10 (repeat 0 10));
    [now apply bytes_forallb|reflexivity|lia| |now apply bytes_forallb|vm_compute; discriminate].
  repeat constructor; vm_compute; discriminate.
Defined.

(** A first fragment: its second byte is not what it was after the parser saw it. *)
Example first_fragment_rewritten :
  exists q, Parse example_payload [0x7c; 0x85; 1; 2] 4 = Ok ([0x7c; 0x65; 1; 2], Some q) /\
    payload q = 1 /\ isFirstPacket q = true /\
    Parse example_payload [0x7c; 0x65; 1; 2] 4 =
      Ok ([0x7c; 0x65; 1; 2], Some (set_payload (set_first q false) 2 2)).
Proof. eexists. split; [reflexivity|]. repeat split. Qed.

Lemma H264_Parse_safe_witness :
  exists mem' r, Parse example_payload [0x7c; 0x85; 1; 2] 4 = Ok (mem', r) /\ bytes mem' /\
    (mem' = [0x7c; 0x85; 1; 2] \/
     2 <= 4 /\ Z.land (rd [0x7c; 0x85; 1; 2] 0) 0x1F = kFuA /\ 128 <= rd [0x7c; 0x85; 1; 2] 1 /\ mem' = restored [0x7c; 0x85; 1; 2]) /\
    match r with
    | Some q => 0 <= payload q <= 2 /\ payload q + payload_length q = 4 /\ codec q = kRtpVideoH264
    | None => True
    end.
Proof. apply (H264_Parse_safe example_payload); [now apply bytes_forallb|split; vm_compute; discriminate|reflexivity]. Defined.
End RtpH264Facts.
