(* ===== verification/RtpGeneric.v ===== *)
(** * The generic video payload format

    Models src/orbit/webrtc/modules/rtp_rtcp/source/rtp_format_video_generic.cc:
    a frame is cut into parts of one length behind a header of one byte.  The
    theorem: what is sent is received, and the parts make up the frame. *)

From S2P Require Import Prelude Wire VideoHeaders.
Import Wire VideoHeaders.

Module RtpGeneric.

Definition kGenericHeaderLength : Z := 1.
Definition kKeyFrameBit : Z := 0x01.
Definition kFirstPacketBit : Z := 0x02.

(** [payload_data_] is the frame and the distance of the pointer from its start. *)
Record RtpPacketizerGeneric := mk_packetizer {
  frame_ : list Z;
  payload_data_ : Z;
  payload_size_ : Z;
  max_payload_len_ : Z;
  frame_type_ : FrameType;
  payload_length_ : Z;
  generic_header_ : Z
}.

(** [payload_length_] and [generic_header_] have no value before a frame is set. *)
Definition new_RtpPacketizerGeneric (frame_type : FrameType) (max_payload_len : Z) : RtpPacketizerGeneric :=
  mk_packetizer [] 0 0 (u64 (max_payload_len - kGenericHeaderLength)) frame_type 0 0.

(** [Oob] is a division by zero. *)
Definition div (a b : Z) : res Z := if b =? 0 then Oob else Ok (a / b).

Definition SetPayloadData (p : RtpPacketizerGeneric) (payload_data : list Z) (payload_size : Z)
    : res RtpPacketizerGeneric :=
  let max := max_payload_len_ p in
  let! num_packets := div (u64 (u64 (payload_size + max) - 1)) max in
  let! payload_length := div (u64 (u64 (payload_size + num_packets) - 1)) num_packets in
  Ok (mk_packetizer payload_data 0 payload_size max (frame_type_ p) payload_length kFirstPacketBit).

(** The packetizer, the buffer, the bytes to send and whether the packet is the
    last; the code always returns true. *)
Definition NextPacket (p : RtpPacketizerGeneric) (buffer : list Z)
    : res (RtpPacketizerGeneric * list Z * (Z * bool)) :=
  let payload_length := if payload_size_ p <? payload_length_ p then payload_size_ p else payload_length_ p in
  let payload_size := payload_size_ p - payload_length in
  let header :=
    match frame_type_ p with
    | kVideoFrameKey => Z.lor (generic_header_ p) kKeyFrameBit
    | _ => generic_header_ p
    end in
  let! buffer := set8 buffer 0 header in
  let! buffer := memcpy buffer 1 (frame_ p) (payload_data_ p) payload_length in
  Ok (mk_packetizer (frame_ p) (payload_data_ p + payload_length) payload_size (max_payload_len_ p)
        (frame_type_ p) payload_length (Z.land header (Z.lnot kFirstPacketBit)),
      buffer, (payload_length + kGenericHeaderLength, payload_size <=? 0)).

Definition GetProtectionType : ProtectionType := kProtectedPacket.
Definition GetStorageType (retransmission_settings : Z) : StorageType := kAllowRetransmission.

Definition Parse (parsed_payload : ParsedPayload) (mem : list Z) (payload_data_length : Z)
    : res (option ParsedPayload) :=
  if payload_data_length =? 0 then Ok None
  else
    let! generic_header := byte mem 0 in
    let p := set_frame_type parsed_payload
      (if negb (Z.land generic_header kKeyFrameBit =? 0) then kVideoFrameKey else kVideoFrameDelta) in
    let p := set_first p (negb (Z.land generic_header kFirstPacketBit =? 0)) in
    let p := set_size (set_codec p kRtpVideoGeneric) 0 0 in
    Ok (Some (set_payload p 1 (payload_data_length - 1))).

(** ** What is sent is received *)

(** [NextPacket] until it says that the packet is the last, each packet parsed:
    the parsed payloads with their bytes. *)
Fixpoint exchange (fuel : nat) (pp : ParsedPayload) (p : RtpPacketizerGeneric) (buffer : list Z)
    : res (list (ParsedPayload * list Z)) :=
  match fuel with
  | O => NoFuel
  | S fuel =>
      let! (p, buffer, (bytes_to_send, last)) := NextPacket p buffer in
      let! q := Parse pp buffer bytes_to_send in
      match q with
      | None => Oob
      | Some q =>
          let r := (q, slice buffer (payload q) (payload_length q)) in
          if last then Ok [r] else let! l := exchange fuel pp p buffer in Ok (r :: l)
      end
  end.

(** The packets of a frame of a type: the first is marked, all have the type and
    fit. *)
Definition marked (type : FrameType) (max : Z) (first : bool) (r : ParsedPayload * list Z) : Prop :=
  isFirstPacket (fst r) = first /\ codec (fst r) = kRtpVideoGeneric /\
  frame_type (fst r) = (match type with kVideoFrameKey => kVideoFrameKey | _ => kVideoFrameDelta end) /\
  1 <= zlen (snd r) /\ payload_length (fst r) = zlen (snd r) /\ zlen (snd r) + 1 <= max.

(** Between two packets: the bytes left, and what the header is. *)
Record sending (p : RtpPacketizerGeneric) : Prop := {
  se_at : 0 <= payload_data_ p;
  se_left : 1 <= payload_size_ p;
  se_end : payload_data_ p + payload_size_ p = zlen (frame_ p);
  se_len : 1 <= payload_length_ p <= max_payload_len_ p;
  se_header : generic_header_ p = kFirstPacketBit \/
    generic_header_ p = (match frame_type_ p with kVideoFrameKey => kKeyFrameBit | _ => 0 end)
}.

Definition is_first (p : RtpPacketizerGeneric) : bool := generic_header_ p =? kFirstPacketBit.

Lemma next_spec pp p buffer : sending p -> max_payload_len_ p + 1 <= zlen buffer ->
  exists p' b n q,
    NextPacket p buffer = Ok (p', b, (n + 1, payload_size_ p' <=? 0)) /\ zlen b = zlen buffer /\
    1 <= n /\ payload_size_ p' = payload_size_ p - n /\ 0 <= payload_size_ p' /\
    Parse pp b (n + 1) = Ok (Some q) /\
    slice b (payload q) (payload_length q) = slice (frame_ p) (payload_data_ p) n /\
    marked (frame_type_ p) (max_payload_len_ p + 1) (is_first p) (q, slice (frame_ p) (payload_data_ p) n) /\
    frame_ p' = frame_ p /\ payload_data_ p' = payload_data_ p + n /\ max_payload_len_ p' = max_payload_len_ p /\
    frame_type_ p' = frame_type_ p /\ is_first p' = false /\
    (1 <= payload_size_ p' -> sending p').
Proof.
  intros [A L E M H] B. set (n := if payload_size_ p <? payload_length_ p then payload_size_ p else payload_length_ p).
  assert (Hn : 1 <= n <= max_payload_len_ p /\ n <= payload_size_ p) by (unfold n; destruct (Z.ltb_spec (payload_size_ p) (payload_length_ p)); lia).
  destruct buffer as [|x tl]; [change (zlen (@nil Z)) with 0 in B; lia|]. rewrite zlen_cons in B.
  set (h := match frame_type_ p with kVideoFrameKey => Z.lor (generic_header_ p) kKeyFrameBit | _ => generic_header_ p end).
  assert (Hh : u8 h = h /\ (negb (Z.land h kKeyFrameBit =? 0) = match frame_type_ p with kVideoFrameKey => true | _ => false end) /\
    (negb (Z.land h kFirstPacketBit =? 0) = is_first p) /\
    Z.land h (Z.lnot kFirstPacketBit) = (match frame_type_ p with kVideoFrameKey => kKeyFrameBit | _ => 0 end)).
  { unfold h, is_first. destruct H as [-> | ->]; destruct (frame_type_ p); repeat split; reflexivity. }
  destruct Hh as (U & K & F & Cl). set (body := slice (frame_ p) (payload_data_ p) n).
  assert (Lb : zlen body = n) by (apply zlen_slice; lia).
  assert (E1 : set8 (x :: tl) 0 h = Ok (h :: tl)).
  { pose proof (set8_at [] x tl h) as S8. cbn [app] in S8. change (zlen (@nil Z)) with 0 in S8. now rewrite S8, U. }
  pose proof (memcpy_at [h] tl (frame_ p) (payload_data_ p) n ltac:(lia) ltac:(lia) ltac:(lia) ltac:(lia)) as E2.
  cbn [app] in E2. change (zlen [h]) with 1 in E2. fold body in E2. set (b := h :: body ++ skipn (Z.to_nat n) tl) in *.
  assert (Zb : zlen b = 1 + zlen tl) by (unfold b; rewrite zlen_cons, zlen_app, zlen_skipn by lia; lia).
  exists (mk_packetizer (frame_ p) (payload_data_ p + n) (payload_size_ p - n) (max_payload_len_ p) (frame_type_ p) n
    (Z.land h (Z.lnot kFirstPacketBit))), b, n.
  eexists. split; [unfold NextPacket; fold n h; rewrite E1; cbn [bind]; rewrite E2; reflexivity|].
  cbn [frame_ payload_data_ payload_size_ max_payload_len_ frame_type_ payload_length_ generic_header_].
  split; [rewrite Zb, zlen_cons; lia|]. split; [lia|]. split; [reflexivity|]. split; [lia|]. split.
  { unfold Parse. replace (n + 1 =? 0) with false by lia. rewrite byte_ok by lia. change (rd b 0) with h. cbn [bind].
    rewrite K, F. reflexivity. }
  cbn [payload payload_length set_payload]. replace (n + 1 - 1) with n by lia. split.
  { pose proof (slice_mid [h] body (skipn (Z.to_nat n) tl)) as S. now rewrite Lb in S. }
  split.
  { unfold marked. cbn [fst snd isFirstPacket set_payload set_size set_codec set_first codec frame_type set_frame_type payload_length].
    fold body. rewrite Lb. repeat split; try lia. now destruct (frame_type_ p). }
  do 4 (split; [reflexivity|]). split; [unfold is_first; cbn [generic_header_]; rewrite Cl; now destruct (frame_type_ p)|].
  intros S. split; cbn [frame_ payload_data_ payload_size_ max_payload_len_ frame_type_ payload_length_ generic_header_]; try lia; now right.
Qed.

Lemma exchange_spec pp fuel : forall p buffer,
  sending p -> max_payload_len_ p + 1 <= zlen buffer -> payload_size_ p <= Z.of_nat fuel ->
  exists r l, exchange fuel pp p buffer = Ok (r :: l) /\
    concat (map snd (r :: l)) = slice (frame_ p) (payload_data_ p) (payload_size_ p) /\
    marked (frame_type_ p) (max_payload_len_ p + 1) (is_first p) r /\
    Forall (marked (frame_type_ p) (max_payload_len_ p + 1) false) l.
Proof.
  induction fuel as [|fuel IH]; intros p buffer S B Hf; [pose proof (se_left p S); lia|].
  destruct (next_spec pp p buffer S B) as (p' & b & n & q & E & Lb & Hn & Sz & Sn & Eq & Sl & Mk & F1 & F2 & F3 & F4 & F5 & S').
  cbn [exchange]. rewrite E. cbn [bind]. rewrite Eq. cbn [bind]. rewrite Sl.
  destruct (Z.leb_spec (payload_size_ p') 0) as [L|L].
  - exists (q, slice (frame_ p) (payload_data_ p) n), []. split; [reflexivity|]. split; [|split; [exact Mk|constructor]].
    cbn [map snd concat]. rewrite app_nil_r. f_equal. lia.
  - destruct (IH p' b (S' ltac:(lia)) ltac:(lia) ltac:(lia)) as (r & l & E' & C & M1 & M2).
    rewrite E'. cbn [bind]. exists (q, slice (frame_ p) (payload_data_ p) n), (r :: l). split; [reflexivity|]. split.
    + cbn [map concat snd] in *. rewrite C, F1, F2, Sz, <- slice_add by (try apply S; lia). f_equal. lia.
    + rewrite F3, F4, F5 in *. split; [exact Mk|]. now constructor.
Qed.

(** A frame in the generic format round trips: for every frame of at least a
    byte and every maximal payload length of at least two, [SetPayloadData]
    succeeds, and [NextPacket], called until it says that the packet is the
    last, sends packets of at most that length which [Parse] accepts; their
    payloads make up the frame, each has the frame's type, and the first is
    marked and no other.  An empty frame divides by zero. *)
Theorem generic_frame_roundtrip pp type frame max buffer :
  1 <= zlen frame < 2 ^ 63 -> 2 <= max < 2 ^ 63 -> max <= zlen buffer ->
  SetPayloadData (new_RtpPacketizerGeneric type max) [] 0 = Oob /\
  exists p r l,
    SetPayloadData (new_RtpPacketizerGeneric type max) frame (zlen frame) = Ok p /\
    exchange (length frame) pp p buffer = Ok (r :: l) /\
    concat (map snd (r :: l)) = frame /\ marked type max true r /\ Forall (marked type max false) l.
Proof.
  intros F M B. unfold SetPayloadData, new_RtpPacketizerGeneric, kGenericHeaderLength.
  cbn [max_payload_len_ frame_type_]. rewrite (u64_id (max - 1)) by (unfold in_u64; lia). set (m := max - 1).
  assert (Hm : 1 <= m < 2 ^ 63) by (unfold m; lia). split.
  { unfold div at 1. replace (m =? 0) with false by lia. cbn [bind].
    rewrite (u64_id (0 + m)), (u64_id (0 + m - 1)) by (unfold in_u64; lia).
    replace ((0 + m - 1) / m) with 0 by (symmetry; apply Z.div_small; lia). reflexivity. }
  rewrite (u64_id (zlen frame + m)), (u64_id (zlen frame + m - 1)) by (unfold in_u64; lia).
  unfold div at 1. replace (m =? 0) with false by lia. cbn [bind]. set (k := (zlen frame + m - 1) / m).
  assert (K1 : 1 <= k) by (apply Z.div_le_lower_bound; lia).
  assert (K2 : k <= zlen frame) by (apply Z.lt_succ_r, Z.div_lt_upper_bound; nia).
  assert (K3 : zlen frame <= k * m).
  { pose proof (Z.div_mod (zlen frame + m - 1) m ltac:(lia)) as D. pose proof (Z.mod_pos_bound (zlen frame + m - 1) m ltac:(lia)).
    fold k in D. nia. }
  rewrite (u64_id (zlen frame + k)), (u64_id (zlen frame + k - 1)) by (unfold in_u64; lia).
  unfold div. replace (k =? 0) with false by lia. cbn [bind]. set (n := (zlen frame + k - 1) / k).
  assert (N : 1 <= n <= m).
  { split; [apply Z.div_le_lower_bound; lia|]. apply Z.lt_succ_r, Z.div_lt_upper_bound; nia. }
  set (p := mk_packetizer _ _ _ _ _ _ _).
  assert (S : sending p) by (split; cbn; auto; lia).
  destruct (exchange_spec pp (length frame) p buffer S) as (r & l & E & C & M1 & M2);
    [cbn; unfold m; lia|cbn; unfold zlen; lia|].
  exists p, r, l. split; [reflexivity|]. split; [exact E|]. split; [rewrite C; apply slice_all|].
  replace max with (max_payload_len_ p + 1) by (cbn; unfold m; lia). split; [exact M1|exact M2].
Qed.

Lemma generic_frame_roundtrip_witness :
  let pp := mk_payload 0 0 kEmptyFrame 1 1 false 0 kRtpVideoNone InitRTPVideoHeaderVP8
    (mk_vp9 false false false false false 0 0 0 0 0 false false 0 0 [] [] 0 false [] [] (mk_gof 0 [] [] [] []))
    (mk_h264 0 kH264FuA) in
  SetPayloadData (new_RtpPacketizerGeneric kVideoFrameKey 4) [] 0 = Oob /\
  exists p r l,
    SetPayloadData (new_RtpPacketizerGeneric kVideoFrameKey 4) [1; 2; 3; 4; 5; 6; 7] 7 = Ok p /\
    exchange 7 pp p [0; 0; 0; 0] = Ok (r :: l) /\
    concat (map snd (r :: l)) = [1; 2; 3; 4; 5; 6; 7] /\ marked kVideoFrameKey 4 true r /\
    Forall (marked kVideoFrameKey 4 false) l.
Proof.
  intros pp. apply (generic_frame_roundtrip pp kVideoFrameKey [1; 2; 3; 4; 5; 6; 7] 4 [0; 0; 0; 0]);
    vm_compute; intuition congruence.
Defined.
End RtpGeneric.
