(* ===== verification/Depacketize.v ===== *)
(** * Choosing a payload format

    Models the factories of src/orbit/webrtc/modules/rtp_rtcp/source/rtp_format.cc
    with the virtual calls that go through them, and how orbit parses the
    payload of an RTP packet: src/orbit/webrtc/webrtc_format_util.cc and
    src/orbit/rtp/rtp_format_util.cc.  The theorems: a packet of a known payload
    type is examined without an access outside it, and the packets that start a
    VP8 key frame, and no others, are recognised. *)

From S2P Require Import Prelude Wire RtpHeaders BitBuffer VideoHeaders RtpVp8 RtpVp9 RtpVp9Facts RtpH264 RtpH264Facts RtpGeneric.
Import Wire RtpHeaders VideoHeaders.

Module Depacketize.

(** ** The factories *)

Inductive RtpPacketizer :=
  | PacketizerH264 (p : RtpH264.RtpPacketizerH264)
  | PacketizerVp8 (p : RtpVp8.RtpPacketizerVp8)
  | PacketizerVp9 (p : RtpVp9.RtpPacketizerVp9)
  | PacketizerGeneric (p : RtpGeneric.RtpPacketizerGeneric).

(** [rtp_type_header] is a union: the member that is read is given. *)
Definition Create (type : RtpVideoCodecTypes) (max_payload_len : Z) (vp8 : RTPVideoHeaderVP8)
    (vp9 : RTPVideoHeaderVP9) (frame_type : FrameType) : option RtpPacketizer :=
  match type with
  | kRtpVideoH264 => Some (PacketizerH264 (RtpH264.new_RtpPacketizerH264 max_payload_len))
  | kRtpVideoVp8 => Some (PacketizerVp8 (RtpVp8.new_RtpPacketizerVp8_equal vp8 max_payload_len))
  | kRtpVideoVp9 => Some (PacketizerVp9 (RtpVp9.new_RtpPacketizerVp9 vp9 max_payload_len))
  | kRtpVideoGeneric => Some (PacketizerGeneric (RtpGeneric.new_RtpPacketizerGeneric frame_type max_payload_len))
  | kRtpVideoNone => None
  end.

(** H.264 reads the fragmentation; VP8 may do without; the others ignore it. *)
Definition SetPayloadData (p : RtpPacketizer) (payload_data : list Z) (payload_size : Z)
    (fragmentation : option RTPFragmentationHeader) : res RtpPacketizer :=
  match p with
  | PacketizerH264 p =>
      match fragmentation with
      | None => Oob
      | Some f => let! p := RtpH264.SetPayloadData p payload_data payload_size f in Ok (PacketizerH264 p)
      end
  | PacketizerVp8 p =>
      let! p := RtpVp8.SetPayloadData p payload_data payload_size fragmentation in Ok (PacketizerVp8 p)
  | PacketizerVp9 p =>
      let! p := RtpVp9.SetPayloadData p payload_data payload_size in Ok (PacketizerVp9 p)
  | PacketizerGeneric p =>
      let! p := RtpGeneric.SetPayloadData p payload_data payload_size in Ok (PacketizerGeneric p)
  end.

Definition NextPacket (p : RtpPacketizer) (buffer : list Z) : res (RtpPacketizer * list Z * option (Z * bool)) :=
  match p with
  | PacketizerH264 p => let! (p, b, r) := RtpH264.NextPacket p buffer in Ok (PacketizerH264 p, b, r)
  | PacketizerVp8 p => let! (p, b, r) := RtpVp8.NextPacket p buffer in Ok (PacketizerVp8 p, b, r)
  | PacketizerVp9 p => let! (p, b, r) := RtpVp9.NextPacket p buffer in Ok (PacketizerVp9 p, b, r)
  | PacketizerGeneric p => let! (p, b, r) := RtpGeneric.NextPacket p buffer in Ok (PacketizerGeneric p, b, Some r)
  end.

(** The depacketizers have no state.  The payload afterwards, and [None] for
    false. *)
Definition Parse (type : RtpVideoCodecTypes) (parsed_payload : ParsedPayload) (mem : list Z) (len : Z)
    : res (list Z * option ParsedPayload) :=
  match type with
  | kRtpVideoH264 => RtpH264.Parse parsed_payload mem len
  | kRtpVideoVp8 => let! r := RtpVp8.Parse parsed_payload mem len in Ok (mem, r)
  | kRtpVideoVp9 => let! r := RtpVp9.Parse parsed_payload mem len in Ok (mem, r)
  | kRtpVideoGeneric => let! r := RtpGeneric.Parse parsed_payload mem len in Ok (mem, r)
  | kRtpVideoNone => Oob
  end.

(** ** The payload of an RTP packet *)

Definition VP8_90000_PT : Z := 100.
Definition VP9_90000_PT : Z := 101.
Definition H264_90000_PT : Z := 107.

(** For any other payload type the function ends without a value, which is
    undefined: [Oob]. *)
Definition RtpDepacketizer_Parse (payload_type : Z) (parsed_payload : ParsedPayload) (payload_data : list Z)
    (payload_data_length : Z) : res (list Z * option ParsedPayload) :=
  if payload_type =? VP8_90000_PT then
    let! r := RtpVp8.Parse parsed_payload payload_data payload_data_length in Ok (payload_data, r)
  else if payload_type =? VP9_90000_PT then
    let! r := RtpVp9.Parse parsed_payload payload_data payload_data_length in Ok (payload_data, r)
  else if payload_type =? H264_90000_PT then
    RtpH264.Parse parsed_payload payload_data payload_data_length
  else Oob.

(** A [ParsedPayload] on the stack: arrays of their sizes, and no value that the
    parsers depend on. *)
Definition local_payload : ParsedPayload :=
  mk_payload 0 0 kEmptyFrame 0 0 false 0 kRtpVideoNone (mk_vp8 false 0 0 0 false 0 0 false)
    (mk_vp9 false false false false false 0 0 0 0 0 false false 0 0 (repeat 0 3) (repeat 0 3) 0 false
       (repeat 0 8) (repeat 0 8)
       (mk_gof 0 (repeat 0 255) (repeat false 255) (repeat 0 255) (repeat 0 765)))
    (mk_h264 0 kH264SingleNalu).

Definition is_key (r : option ParsedPayload) : bool :=
  match r with
  | Some q => match frame_type q with kVideoFrameKey => true | _ => false end
  | None => false
  end.

(** The packet afterwards, for H.264 writes into a first fragment, and the result
    of [RtpDepacketizer_Parse(type, &payload, buf + 12, length - 12)]. *)
Definition parse_packet (buf : list Z) (length : Z) : res (list Z * option ParsedPayload) :=
  let! video_payload := getPayloadType buf in
  let! (payload, r) := RtpDepacketizer_Parse video_payload local_payload (skipn 12 buf) (u64 (length - 12)) in
  Ok (firstn 12 buf ++ payload, r).

Definition IsValidVideoPacket (buf : list Z) (length : Z) : res (list Z * bool) :=
  let! (buf, r) := parse_packet buf length in
  Ok (buf, match r with Some _ => true | None => false end).

Definition IsKeyFramePacket (buf : list Z) (length : Z) : res (list Z * bool) :=
  let! (buf, r) := parse_packet buf length in
  Ok (buf, is_key r).

(** ** Packets are examined safely *)

Definition known_type (t : Z) : Prop := t = VP8_90000_PT \/ t = VP9_90000_PT \/ t = H264_90000_PT.

(** The seven bits of the payload type. *)
Definition payload_type_of (buf : list Z) : Z := bits (rd buf 1) 0 7.

Lemma getPayloadType_ok buf : 2 <= zlen buf -> getPayloadType buf = Ok (payload_type_of buf).
Proof. intros L. unfold getPayloadType. now rewrite get_bits_ok by lia. Qed.

(** [same_but i a b]: [b] is [a] but for the byte [i]. *)
Definition same_but (i : Z) (a b : list Z) : Prop :=
  bytes b /\ zlen b = zlen a /\ forall j, j <> i -> rd b j = rd a j.

Lemma same_but_refl i a : bytes a -> same_but i a a.
Proof. intros B. split; [exact B|auto]. Qed.

Lemma RtpDepacketizer_Parse_ok t pp mem len :
  known_type t -> vp9_wf (VP9 pp) -> bytes mem -> 0 <= len <= zlen mem -> len < 2 ^ 31 ->
  exists mem' r, RtpDepacketizer_Parse t pp mem len = Ok (mem', r) /\ same_but 1 mem mem' /\
    (t <> H264_90000_PT -> mem' = mem).
Proof.
  intros T W B L M. unfold RtpDepacketizer_Parse. destruct T as [->|[->| ->]]; cbn [Z.eqb Pos.eqb VP8_90000_PT VP9_90000_PT H264_90000_PT].
  - destruct (RtpVp8.Vp8_Parse_total pp mem len L M) as (r & -> & _). cbn [bind]. exists mem, r. split; [reflexivity|].
    split; [now apply same_but_refl|reflexivity].
  - destruct (RtpVp9Facts.Vp9_Parse_total pp mem len B L M W) as (r & -> & _). cbn [bind]. exists mem, r. split; [reflexivity|].
    split; [now apply same_but_refl|reflexivity].
  - destruct (RtpH264Facts.H264_Parse_total pp mem len B L M) as (mem' & r & -> & B' & C & _). exists mem', r. split; [reflexivity|].
    split; [|now intros []]. destruct C as [->|(L2 & _ & _ & ->)]; [now apply same_but_refl|].
    unfold RtpH264Facts.restored in *. split; [exact B'|]. split; [now rewrite zlen_wr|]. intros j Hj. apply rd_wr_ne; lia.
Qed.

Lemma local_payload_wf : vp9_wf (VP9 local_payload).
Proof. split; try reflexivity. split; reflexivity. Qed.

Lemma parse_packet_ok buf len :
  bytes buf -> 12 <= len <= zlen buf -> len < 2 ^ 31 -> known_type (payload_type_of buf) ->
  exists buf' r, parse_packet buf len = Ok (buf', r) /\ same_but 13 buf buf' /\
    (payload_type_of buf <> H264_90000_PT -> buf' = buf).
Proof.
  intros B L M T. unfold parse_packet. rewrite getPayloadType_ok, u64_id by (unfold in_u64; lia). cbn [bind].
  pose proof (zlen_skipn buf 12 ltac:(lia)) as Ls. change (Z.to_nat 12) with 12%nat in Ls.
  destruct (RtpDepacketizer_Parse_ok (payload_type_of buf) local_payload (skipn 12 buf) (len - 12) T local_payload_wf
    (Forall_skipn _ _ _ B) ltac:(lia) ltac:(lia)) as (mem' & r & E & (B' & L' & S) & K).
  rewrite E. cbn [bind]. exists (firstn 12 buf ++ mem'), r. split; [reflexivity|].
  pose proof (zlen_firstn buf 12 ltac:(lia)) as Lf. change (Z.to_nat 12) with 12%nat in Lf.
  split; [|intros N; rewrite (K N); apply firstn_skipn]. split; [apply Forall_app; split; [now apply Forall_firstn|exact B']|].
  split; [rewrite zlen_app; lia|]. intros j Hj. rewrite <- (firstn_skipn 12 buf) at 2.
  destruct (Z.lt_ge_cases j 12) as [C|C]; [now rewrite !rd_app_l by lia|]. rewrite !rd_app_r by lia. apply S. lia.
Qed.

(** C34. A packet is examined safely: for a packet of VP8, VP9 or H.264 with any
    bytes after its fixed header, [IsKeyFramePacket] and [IsValidVideoPacket] end
    without an access outside the packet, a packet of a key frame is a valid
    one, and the packet stays as it was except for the second byte of an H.264
    payload. *)
Theorem key_frame_test_safe buf len :
  bytes buf -> 12 <= len <= zlen buf -> len < 2 ^ 31 -> known_type (payload_type_of buf) ->
  exists buf' valid key,
    IsValidVideoPacket buf len = Ok (buf', valid) /\ IsKeyFramePacket buf len = Ok (buf', key) /\
    (key = true -> valid = true) /\ same_but 13 buf buf' /\
    (payload_type_of buf <> H264_90000_PT -> buf' = buf).
Proof.
  intros B L M T. destruct (parse_packet_ok buf len B L M T) as (buf' & r & E & S & K).
  unfold IsValidVideoPacket, IsKeyFramePacket. rewrite E. cbn [bind].
  do 3 eexists. do 2 (split; [reflexivity|]). split; [now destruct r|]. auto.
Qed.

(** ** Key frames of VP8 *)

Lemma vp8_key_packet hd p i :
  zlen hd = 12 -> payload_type_of hd = VP8_90000_PT ->
  RtpVp8.vp8_ok (RtpVp8.hdr_info_ p) -> RtpVp8.info_ok p i -> RtpVp8.max_payload_len_ p < 2 ^ 31 ->
  RtpVp8.first_partition_ix i mod 16 <= 8 -> (RtpVp8.starts_key p i = true -> 10 <= RtpVp8.size i) ->
  parse_packet (hd ++ RtpVp8.packet_of p i) (12 + RtpVp8.overhead p + RtpVp8.size i) =
    Ok (hd ++ RtpVp8.packet_of p i,
        match RtpVp8.Parse local_payload (RtpVp8.packet_of p i) (RtpVp8.overhead p + RtpVp8.size i) with Ok r => r | _ => None end) /\
  match RtpVp8.Parse local_payload (RtpVp8.packet_of p i) (RtpVp8.overhead p + RtpVp8.size i) with
  | Ok (Some q) => is_key (Some q) = RtpVp8.starts_key p i
  | _ => False
  end.
Proof.
  intros Lh T V I M H8 H10. pose proof (RtpVp8.overhead_pos p) as [O _]. pose proof (RtpVp8.io_size p i I). pose proof (RtpVp8.io_room p i I).
  destruct (RtpVp8.Parse_packet local_payload p i [] V I M H8 H10) as (q & E & _ & _ & _ & _ & _ & F). rewrite app_nil_r in E.
  rewrite E. split; [|unfold is_key; rewrite F; now destruct (RtpVp8.starts_key p i)].
  assert (Lp : zlen (hd ++ RtpVp8.packet_of p i) >= 12) by (rewrite zlen_app; pose proof (zlen_nonneg (RtpVp8.packet_of p i)); lia).
  unfold parse_packet. rewrite getPayloadType_ok by lia. cbn [bind].
  assert (T' : payload_type_of (hd ++ RtpVp8.packet_of p i) = VP8_90000_PT) by (unfold payload_type_of; rewrite rd_app_l by lia; exact T).
  rewrite T', u64_id by (unfold in_u64; lia).
  assert (Sk : skipn 12 (hd ++ RtpVp8.packet_of p i) = RtpVp8.packet_of p i /\ firstn 12 (hd ++ RtpVp8.packet_of p i) = hd).
  { replace 12%nat with (length hd) by (unfold zlen in Lh; lia). rewrite skipn_app, firstn_app, skipn_all, firstn_all, Nat.sub_diag.
    cbn [skipn firstn app]. now rewrite app_nil_r. }
  destruct Sk as [-> ->]. unfold RtpDepacketizer_Parse. change (VP8_90000_PT =? VP8_90000_PT) with true. cbv iota.
  replace (12 + RtpVp8.overhead p + RtpVp8.size i - 12) with (RtpVp8.overhead p + RtpVp8.size i) by lia. rewrite E. reflexivity.
Qed.

(** C33. A VP8 key frame is recognised by the packet that starts it: for every
    packet that the VP8 packetizer queues, sent behind an RTP header of twelve
    bytes with the payload type of VP8, [IsValidVideoPacket] holds, and
    [IsKeyFramePacket] holds exactly when the packet starts the first partition
    of a frame whose first byte marks it as a key frame. *)
Theorem vp8_key_frame_recognised hd p i :
  zlen hd = 12 -> payload_type_of hd = VP8_90000_PT ->
  RtpVp8.vp8_ok (RtpVp8.hdr_info_ p) -> RtpVp8.info_ok p i -> RtpVp8.max_payload_len_ p < 2 ^ 31 ->
  RtpVp8.first_partition_ix i mod 16 <= 8 -> (RtpVp8.starts_key p i = true -> 10 <= RtpVp8.size i) ->
  let packet := hd ++ RtpVp8.packet_of p i in
  let len := 12 + RtpVp8.overhead p + RtpVp8.size i in
  IsValidVideoPacket packet len = Ok (packet, true) /\
  IsKeyFramePacket packet len = Ok (packet, RtpVp8.starts_key p i).
Proof.
  intros Lh T V I M H8 H10 packet len. destruct (vp8_key_packet hd p i Lh T V I M H8 H10) as [E K].
  unfold IsValidVideoPacket, IsKeyFramePacket. fold packet len in E. rewrite E. cbn [bind].
  destruct (RtpVp8.Parse _ _ _) as [[q|]| |]; try easy. now rewrite K.
Qed.

(** ** Examples *)

Definition example_hd : list Z := [0x80; 100; 0; 7; 0; 0; 0; 9; 0; 0; 0; 1].

Lemma vp8_key_frame_recognised_witness :
  let p := RtpVp8.mk_packetizer [0x10; 2; 3; 0x9d; 1; 0x2a; 7; 8; 9; 10; 11; 12] 12 (mk_frag 1 [0] [12]) RtpVp8.kAggrNone true true
    (mk_vp8 true 300 17 2 true 5 0 false) 1 20 [] false in
  let i := RtpVp8.mk_info 0 12 true 0 in
  let packet := example_hd ++ RtpVp8.packet_of p i in
  IsValidVideoPacket packet 30 = Ok (packet, true) /\ IsKeyFramePacket packet 30 = Ok (packet, true).
Proof.
  intros p i. apply (vp8_key_frame_recognised example_hd p i); try reflexivity; try (vm_compute; congruence).
  - split; cbn; unfold kNoPictureId, kMaxTwoBytePictureId, kNoTl0PicIdx, kNoTemporalIdx, kNoKeyIdx; intuition lia.
  - split; vm_compute; intuition congruence.
Defined.

Lemma key_frame_test_safe_witness :
  exists buf' valid key,
    IsValidVideoPacket (0x80 :: 107 :: skipn 2 example_hd ++ [0x7c; 0x85; 1]) 15 = Ok (buf', valid) /\
    IsKeyFramePacket (0x80 :: 107 :: skipn 2 example_hd ++ [0x7c; 0x85; 1]) 15 = Ok (buf', key) /\
    (key = true -> valid = true) /\ same_but 13 (0x80 :: 107 :: skipn 2 example_hd ++ [0x7c; 0x85; 1]) buf' /\
    (107 <> H264_90000_PT -> buf' = 0x80 :: 107 :: skipn 2 example_hd ++ [0x7c; 0x85; 1]).
Proof.
  apply (key_frame_test_safe (0x80 :: 107 :: skipn 2 example_hd ++ [0x7c; 0x85; 1]) 15);
    [now apply bytes_forallb|split; vm_compute; discriminate|reflexivity|right; right; reflexivity].
Defined.

(** The payload is taken to start at the byte 12: with a contributing source in
    the header the same key frame is not recognised. *)
Example contributing_source_hides_key_frame :
  let payload := [0x10; 0x10; 2; 3; 0x9d; 1; 0x2a; 7; 8; 9; 10; 11; 12] in
  IsKeyFramePacket (example_hd ++ payload) 25 = Ok (example_hd ++ payload, true) /\
  let with_source := 0x81 :: skipn 1 example_hd ++ [0; 0; 0; 1] in
  getHeaderLength with_source = Ok 16 /\
  IsKeyFramePacket (with_source ++ payload) 29 = Ok (with_source ++ payload, false).
Proof. repeat split; reflexivity. Qed.
End Depacketize.
