(* ===== verification/JanusRtcp.v ===== *)
(** * RTCP packets: the Janus helpers

    Models src/orbit/rtp/janus_rtcp_processor.cc (with the structs of
    janus_rtcp_defines.h): the walk over a compound packet and the functions
    built on it, the packet builders, and the reception statistics of
    [rtcp_context].  Field offsets are those of the structs; NULL is [None];
    a read or write outside the buffer is [Oob].  Logging is not modelled, nor
    is what is read only as an argument of a log line.  glib's list sort is a
    parameter. *)

From Stdlib Require Import SpecFloat.
From S2P Require Import Prelude Wire Floats.
Import Wire Floats.

Module JanusRtcp.

Definition LAST_SEQS_MAX_LEN : Z := 160.
Definition MAX_TIMES_OF_RESEND : Z := 10.
Definition SEQ_MISSING_WAIT : Z := 12000.
Definition SEQ_NACKED_WAIT : Z := 155000.

Definition RTCP_FIR : Z := 192.
Definition RTCP_SR : Z := 200.
Definition RTCP_RR : Z := 201.
Definition RTCP_SDES : Z := 202.
Definition RTCP_BYE : Z := 203.
Definition RTCP_APP : Z := 204.
Definition RTCP_RTPFB : Z := 205.
Definition RTCP_PSFB : Z := 206.

(** struct rtcp_context; [pt] is never used.  The jitter is a binary64. *)
Record rtcp_context := mk_ctx {
  enabled : Z;
  last_seq_nr : Z;
  seq_cycle : Z;
  base_seq : Z;
  transit : Z;
  jitter : spec_float;
  tb : Z;
  lsr : Z;
  lsr_ts : Z;
  last_sent : Z;
  received : Z;
  received_prior : Z;
  expected : Z;
  expected_prior : Z;
  lost : Z
}.

(** ** The walk over a compound packet *)

Section Walk.
Context {St R : Type}.
(** What is done with the packet at an offset: it may change the bytes and
    the state, and may end the walk with a result. *)
Variable body : list Z -> Z -> St -> res (list Z * St * option R).

Fixpoint walk (fuel : nat) (p : list Z) (rtcp total : Z) (s : St)
    : res (list Z * St * option R) :=
  match fuel with
  | O => NoFuel
  | S fuel =>
      let! (p, s, r) := body p rtcp s in
      match r with
      | Some _ => Ok (p, s, r)
      | None =>
          let! length := length_ p rtcp in
          if length =? 0 then Ok (p, s, None)
          else
            let total := total - (length * 4 + 4) in
            if total <=? 0 then Ok (p, s, None)
            else walk fuel p (rtcp + (length + 1) * 4) total s
      end
  end.
End Walk.

(** Each further packet takes eight bytes or more from the total. *)
Definition walk_fuel (len : Z) : nat := S (Z.to_nat len).

(** ** Reading *)

Definition janus_rtcp_get_fbnack_media_ssrc (packet : option (list Z)) (len : Z) : res Z :=
  match packet with
  | None => Ok (u32 (-1))
  | Some p =>
      if len <=? 0 then Ok (u32 (-1))
      else
        let! v := version p 0 in
        if negb (v =? 2) then Ok (u32 (-2))
        else
          let! (_, _, r) := walk (fun p rtcp (s : unit) =>
            let! t := type_ p rtcp in
            if t =? RTCP_RTPFB then
              let! fmt := rc p rtcp in
              if fmt =? 1 then let! media := be32 p (rtcp + 8) in Ok (p, s, Some media)
              else Ok (p, s, None)
            else Ok (p, s, None)) (walk_fuel len) p 0 len tt in
          Ok (match r with Some media => media | None => 0 end)
  end.

(** A walk that looks for a kind of packet. *)
Definition has_kind (kind : list Z -> Z -> res bool) (p : list Z) (len : Z) : res bool :=
  let! v := version p 0 in
  if negb (v =? 2) then Ok false
  else
    let! (_, got, _) := walk (R := unit) (fun p rtcp got =>
      let! k := kind p rtcp in
      Ok (p, if k then true else got, None)) (walk_fuel len) p 0 len false in
    Ok got.

Definition janus_rtcp_has_fir (packet : list Z) (len : Z) : res bool :=
  has_kind (fun p rtcp => let! t := type_ p rtcp in Ok (t =? RTCP_FIR)) packet len.

Definition janus_rtcp_has_pli (packet : list Z) (len : Z) : res bool :=
  has_kind (fun p rtcp =>
    let! t := type_ p rtcp in
    if t =? RTCP_PSFB then let! fmt := rc p rtcp in Ok (fmt =? 1) else Ok false) packet len.

(** [remb->id] at [o] spells REMB; the tests stop at the first mismatch. *)
Definition is_remb (p : list Z) (o : Z) : res bool :=
  let! c0 := byte p o in
  if negb (c0 =? 82) then Ok false else
  let! c1 := byte p (o + 1) in
  if negb (c1 =? 69) then Ok false else
  let! c2 := byte p (o + 2) in
  if negb (c2 =? 77) then Ok false else
  let! c3 := byte p (o + 3) in
  Ok (c3 =? 66).

(** The bit rate of a REMB whose [remb] starts at [o]: the mantissa is shifted
    as a 32-bit number. *)
Definition remb_bitrate (p : list Z) (o : Z) : res Z :=
  let! d1 := byte p (o + 5) in
  let! d2 := byte p (o + 6) in
  let! d3 := byte p (o + 7) in
  let brExp := Z.land (Z.shiftr d1 2) 0x3F in
  let brMantissa := Z.shiftl (Z.land d1 3) 16 in
  let brMantissa := u32 (brMantissa + Z.shiftl d2 8) in
  let brMantissa := u32 (brMantissa + d3) in
  Ok (u32 (Z.shiftl brMantissa brExp)).

Definition janus_rtcp_get_remb (packet : option (list Z)) (len : Z) : res Z :=
  match packet with
  | None => Ok 0
  | Some p =>
      if len =? 0 then Ok 0
      else
        let! v := version p 0 in
        if negb (v =? 2) then Ok 0
        else
          let! (_, _, r) := walk (fun p rtcp (s : unit) =>
            let! t := type_ p rtcp in
            if t =? RTCP_PSFB then
              let! fmt := rc p rtcp in
              if fmt =? 15 then
                let! b := is_remb p (rtcp + 12) in
                if b then let! rate := remb_bitrate p (rtcp + 12) in Ok (p, s, Some rate)
                else Ok (p, s, None)
              else Ok (p, s, None)
            else Ok (p, s, None)) (walk_fuel len) p 0 len tt in
          Ok (match r with Some rate => rate | None => 0 end)
  end.

(** The sequence numbers of one NACK block: the pid and those its mask sets. *)
Definition nack_seqs (pid blp : Z) : list Z :=
  pid :: for_up 0 16 (fun j l =>
    if negb (Z.shiftr (Z.land blp (Z.shiftl 1 j)) j =? 0) then l ++ [pid + j + 1] else l) [].

(** The [n] blocks from [o] on, appended to the list. *)
Fixpoint read_nacks (n : nat) (p : list Z) (o : Z) (l : list Z) : res (list Z) :=
  match n with
  | O => Ok l
  | S n =>
      let! pid := be16 p o in
      let! blp := be16 p (o + 2) in
      read_nacks n p (o + 4) (l ++ nack_seqs pid blp)
  end.

Definition janus_rtcp_get_nacks (packet : option (list Z)) (len : Z) : res (list Z) :=
  match packet with
  | None => Ok []
  | Some p =>
      if len =? 0 then Ok []
      else
        let! v := version p 0 in
        if negb (v =? 2) then Ok []
        else
          let! (_, l, _) := walk (R := unit) (fun p rtcp l =>
            let! t := type_ p rtcp in
            if t =? RTCP_RTPFB then
              let! fmt := rc p rtcp in
              if fmt =? 1 then
                let! length := length_ p rtcp in
                let nacks := length - 2 in
                if 0 <? nacks then
                  let! l := read_nacks (Z.to_nat nacks) p (rtcp + 12) l in Ok (p, l, None)
                else Ok (p, l, None)
              else Ok (p, l, None)
            else Ok (p, l, None)) (walk_fuel len) p 0 len [] in
          Ok l
  end.

(** ** Changing *)

Definition janus_rtcp_incoming_sr (now : Z) (ctx : option rtcp_context) (msw lsw : Z)
    : option rtcp_context :=
  match ctx with
  | None => None
  | Some c =>
      let ntp := Z.lor (u64 (Z.shiftl msw 32)) lsw in
      Some (mk_ctx (enabled c) (last_seq_nr c) (seq_cycle c) (base_seq c) (transit c)
              (jitter c) (tb c) (u32 (Z.shiftr ntp 16)) now (last_sent c)
              (received c) (received_prior c) (expected c) (expected_prior c) (lost c))
  end.

(** [if (c) field = htonl(v);] *)
Definition set32_if (c : bool) (p : list Z) (o v : Z) : res (list Z) :=
  if c then set32 p o v else Ok p.

Section FixSsrc.
Variables (now : Z) (fixssrc : bool) (newssrcl newssrcr : Z).
Let fix_l : bool := fixssrc && negb (newssrcl =? 0).
Let fix_r : bool := fixssrc && negb (newssrcr =? 0).

Definition fix_rtpfb (p : list Z) (rtcp : Z) : res (list Z) :=
  let! fmt := rc p rtcp in
  let! p :=
    (if fmt =? 1 then
       let! p := set32_if fix_r p (rtcp + 8) newssrcr in
       let! length := length_ p rtcp in
       let! _ := read_nacks (Z.to_nat (length - 2)) p (rtcp + 12) [] in
       Ok p
     else if fmt =? 3 then set32_if fix_r p (rtcp + 12) newssrcr
     else Ok p) in
  set32_if fix_l p (rtcp + 4) newssrcl.

Definition fix_psfb (p : list Z) (rtcp : Z) : res (list Z) :=
  let! fmt := rc p rtcp in
  let! p :=
    (if fmt =? 1 then set32_if fix_r p (rtcp + 8) newssrcr
     else if fmt =? 4 then
       let! p := set32_if fix_r p (rtcp + 8) newssrcr in
       set32_if fix_r p (rtcp + 12) newssrcr
     else if fmt =? 5 then set32_if fix_r p (rtcp + 12) newssrcr
     else if fmt =? 15 then
       let! b := is_remb p (rtcp + 12) in
       if b then
         let! p := set32_if fix_r p (rtcp + 20) newssrcr in
         let! _ := byte p (rtcp + 16) in
         let! _ := remb_bitrate p (rtcp + 12) in
         Ok p
       else Ok p
     else Ok p) in
  set32_if fix_l p (rtcp + 4) newssrcl.

Definition fix_body (p : list Z) (rtcp : Z) (ctx : option rtcp_context)
    : res (list Z * option rtcp_context * option unit) :=
  let! t := type_ p rtcp in
  if t =? RTCP_SR then
    let! ctx :=
      match ctx with
      | None => Ok None
      | Some _ =>
          let! msw := be32 p (rtcp + 8) in
          let! lsw := be32 p (rtcp + 12) in
          Ok (janus_rtcp_incoming_sr now ctx msw lsw)
      end in
    let! p := set32_if fix_l p (rtcp + 4) newssrcl in
    let! n := rc p rtcp in
    let! p := set32_if (fix_r && (0 <? n)) p (rtcp + 28) newssrcr in
    Ok (p, ctx, None)
  else if t =? RTCP_RR then
    let! p := set32_if fix_l p (rtcp + 4) newssrcl in
    let! n := rc p rtcp in
    let! p := set32_if (fix_r && (0 <? n)) p (rtcp + 8) newssrcr in
    Ok (p, ctx, None)
  else if t =? RTCP_SDES then
    let! p := set32_if fix_l p (rtcp + 8) newssrcl in Ok (p, ctx, None)
  else if t =? RTCP_BYE then
    let! p := set32_if fix_l p (rtcp + 4) newssrcl in Ok (p, ctx, None)
  else if t =? RTCP_APP then
    let! p := set32_if fix_l p (rtcp + 4) newssrcl in Ok (p, ctx, None)
  else if t =? RTCP_FIR then
    let! length := length_ p rtcp in
    let! p := set32_if (fix_r && (20 <=? length)) p (rtcp + 8) newssrcr in
    let! p := set32_if fix_r p (rtcp + 12) newssrcr in
    Ok (p, ctx, None)
  else if t =? RTCP_RTPFB then let! p := fix_rtpfb p rtcp in Ok (p, ctx, None)
  else if t =? RTCP_PSFB then let! p := fix_psfb p rtcp in Ok (p, ctx, None)
  else Ok (p, ctx, None).

(** The return value, the packet and the context. *)
Definition janus_rtcp_fix_ssrc (ctx : option rtcp_context) (packet : option (list Z))
    (len : Z) : res (Z * option (list Z) * option rtcp_context) :=
  match packet with
  | None => Ok (-1, None, ctx)
  | Some p =>
      if len <=? 0 then Ok (-1, packet, ctx)
      else
        let! v := version p 0 in
        if negb (v =? 2) then Ok (-2, packet, ctx)
        else
          let! (p, ctx, _) := walk fix_body (walk_fuel len) p 0 len ctx in
          Ok (0, Some p, ctx)
  end.
End FixSsrc.

Definition janus_rtcp_parse (now : Z) (ctx : option rtcp_context) (packet : option (list Z))
    (len : Z) : res (Z * option (list Z) * option rtcp_context) :=
  janus_rtcp_fix_ssrc now false 0 0 ctx packet len.

(** [*(nacks+i) = *(nacks+nacks_len+i)] for [i] below [n]. *)
Fixpoint move_down (n : nat) (p : list Z) (dst src : Z) : res (list Z) :=
  match n with
  | O => Ok p
  | S n =>
      let! b := byte p src in
      let! p := set8 p dst b in
      move_down n p (dst + 1) (src + 1)
  end.

(** The walk stops at the first NACK, whose offset and length it returns; the
    length stays 0 when its length field is 0. *)
Definition janus_rtcp_remove_nacks (packet : option (list Z)) (len : Z)
    : res (Z * option (list Z)) :=
  match packet with
  | None => Ok (len, None)
  | Some p =>
      if len =? 0 then Ok (len, packet)
      else
        let! v := version p 0 in
        if negb (v =? 2) then Ok (len, packet)
        else
          let! (p, _, r) := walk (fun p rtcp (s : unit) =>
            let! t := type_ p rtcp in
            if t =? RTCP_RTPFB then
              let! fmt := rc p rtcp in
              if fmt =? 1 then
                let! length := length_ p rtcp in
                Ok (p, s, Some (rtcp, if length =? 0 then 0 else length * 4 + 4))
              else Ok (p, s, None)
            else Ok (p, s, None)) (walk_fuel len) p 0 len tt in
          match r with
          | None => Ok (len, Some p)
          | Some (nacks, nacks_len) =>
              let total := len - (nacks + nacks_len) in
              if total <? 0 then Ok (len, Some p)
              else if total =? 0 then Ok (len - nacks_len, Some p)
              else
                let! p := move_down (Z.to_nat total) p nacks (nacks + nacks_len) in
                Ok (len - nacks_len, Some p)
          end
  end.

(** The search for the exponent: [b] and [newbrexp] after the loop. *)
Fixpoint find_brexp (n : nat) (b bitrate : Z) : Z * Z :=
  match n with
  | O => (b, 0)
  | S n =>
      if bitrate <=? u64 (Z.shiftl 0x3FFFF b) then (b, b)
      else find_brexp n (b + 1) bitrate
  end.

(** The three bytes of a bit rate, written at [o + 5]; a shift by 64 is
    undefined and gives 0 here. *)
Definition put_bitrate (p : list Z) (o bitrate : Z) : res (list Z) :=
  let (b, newbrexp) := find_brexp 64 0 bitrate in
  let newbrmantissa := u32 (Z.shiftr bitrate b) in
  let! p := set8 p (o + 5) (Z.shiftl newbrexp 2 + Z.land (Z.shiftr newbrmantissa 16) 3) in
  let! p := set8 p (o + 6) (Z.shiftr newbrmantissa 8) in
  set8 p (o + 7) newbrmantissa.

Definition janus_rtcp_cap_remb (packet : option (list Z)) (len bitrate : Z)
    : res (Z * option (list Z)) :=
  match packet with
  | None => Ok (-1, None)
  | Some p =>
      if len =? 0 then Ok (-1, packet)
      else
        let! v := version p 0 in
        if negb (v =? 2) then Ok (-2, packet)
        else if bitrate =? 0 then Ok (0, packet)
        else
          let! (p, _, _) := walk (R := unit) (fun p rtcp (s : unit) =>
            let! t := type_ p rtcp in
            if t =? RTCP_PSFB then
              let! fmt := rc p rtcp in
              if fmt =? 15 then
                let! b := is_remb p (rtcp + 12) in
                if b then
                  let! origbitrate := remb_bitrate p (rtcp + 12) in
                  if bitrate <? origbitrate then
                    let! p := put_bitrate p (rtcp + 12) bitrate in Ok (p, s, None)
                  else Ok (p, s, None)
                else Ok (p, s, None)
              else Ok (p, s, None)
            else Ok (p, s, None)) (walk_fuel len) p 0 len tt in
          Ok (0, Some p)
  end.

(** ** Building *)

(** [memset(packet, 0, n)]. *)
Definition memset0 (p : list Z) (n : Z) : res (list Z) :=
  if n <=? zlen p then Ok (blit p 0 (zeros n)) else Oob.

(** [version], [type], [rc] and [length] of a new packet, in the source's order. *)
Definition put_header (p : list Z) (type rc_ length : Z) : res (list Z) :=
  let! p := set_version p 0 2 in
  let! p := set_type p 0 type in
  let! p := set_rc p 0 rc_ in
  set_length p 0 length.

Fixpoint put_bytes (p : list Z) (o : Z) (l : list Z) : res (list Z) :=
  match l with
  | [] => Ok p
  | b :: l => let! p := set8 p o b in put_bytes p (o + 1) l
  end.

(** [cname] is the string the caller passes, [cnamelen] its length argument. *)
Definition janus_rtcp_sdes (packet : option (list Z)) (len : Z) (cname : option (list Z))
    (cnamelen : Z) : res (Z * option (list Z)) :=
  match packet, cname with
  | Some p, Some name =>
      if (len <=? 0) || (cnamelen <=? 0) then Ok (-1, packet)
      else
        let! p := memset0 p len in
        let! p := set_version p 0 2 in
        let! p := set_type p 0 RTCP_SDES in
        let! p := set_rc p 0 1 in
        let plen := 12 + (cnamelen + 2) in
        let plen := if negb (Z.rem (cnamelen + 2) 4 =? 0) then plen + 4 else plen in
        if len <? plen then Ok (-1, Some p)
        else
          let! p := set_length p 0 (Z.quot plen 4 - 1) in
          let! p := set8 p 12 1 in
          let! p := set8 p 13 cnamelen in
          if zlen name <? cnamelen then Oob
          else
            let! p := put_bytes p 14 (slice name 0 cnamelen) in
            Ok (plen, Some p)
  | _, _ => Ok (-1, packet)
  end.

Definition janus_rtcp_remb (packet : option (list Z)) (len bitrate : Z)
    : res (Z * option (list Z)) :=
  match packet with
  | None => Ok (-1, None)
  | Some p =>
      if negb (len =? 24) then Ok (-1, packet)
      else
        let! p := put_header p RTCP_PSFB 15 (Z.quot len 4 - 1) in
        let! p := put_bytes p 12 [82; 69; 77; 66] in
        let! p := set8 p 16 1 in
        let! p := put_bitrate p 12 bitrate in
        Ok (24, Some p)
  end.

(** The caller's counter is incremented and restarts at 0 outside 0..255. *)
Definition next_fir_seq (seqnr : Z) : Z :=
  let seqnr := s32 (seqnr + 1) in
  if (seqnr <? 0) || (256 <=? seqnr) then 0 else seqnr.

(** The two FIR builders differ in the packet type.  The sequence number goes
    to the first byte of the word after the FCI's SSRC. *)
Definition fir_packet (type : Z) (packet : option (list Z)) (len : Z) (seqnr : option Z)
    : res (Z * option (list Z) * option Z) :=
  match packet, seqnr with
  | Some p, Some seqnr0 =>
      if negb (len =? 20) then Ok (-1, packet, seqnr)
      else
        let seqnr := next_fir_seq seqnr0 in
        let! p := put_header p type 4 (Z.quot len 4 - 1) in
        let! p := set32 p 16 (Z.shiftl seqnr 24) in
        Ok (20, Some p, Some seqnr)
  | _, _ => Ok (-1, packet, seqnr)
  end.

Definition janus_rtcp_fir (packet : option (list Z)) (len : Z) (seqnr : option Z)
    : res (Z * option (list Z) * option Z) := fir_packet RTCP_PSFB packet len seqnr.

Definition janus_rtcp_fir_legacy (packet : option (list Z)) (len : Z) (seqnr : option Z)
    : res (Z * option (list Z) * option Z) := fir_packet RTCP_FIR packet len seqnr.

Definition janus_rtcp_pli (packet : option (list Z)) (len : Z) : res (Z * option (list Z)) :=
  match packet with
  | None => Ok (-1, None)
  | Some p =>
      if negb (len =? 12) then Ok (-1, packet)
      else let! p := put_header p RTCP_PSFB 1 (Z.quot len 4 - 1) in Ok (12, Some p)
  end.

Definition janus_rtcp_bye (packet : option (list Z)) (len : Z) : res (Z * option (list Z)) :=
  match packet with
  | None => Ok (-1, None)
  | Some p =>
      if negb (len =? 12) then Ok (-1, packet)
      else let! p := put_header p RTCP_BYE 1 (Z.quot len 4 - 1) in Ok (12, Some p)
  end.

Definition sort_asc (p1 p2 : Z) : Z :=
  let a := s32 p1 in
  let b := s32 p2 in
  if b <? a then 1 else if a =? b then 0 else -1.

(** The loop over the sorted list after its first entry: the current block is
    at [nack], its sequence number is [pid]; [None] is the short buffer. *)
Fixpoint put_nacks (p : list Z) (len nack pid words : Z) (nacks : list Z)
    : res (list Z * option Z) :=
  match nacks with
  | [] => Ok (p, Some words)
  | d :: nacks =>
      let npid := u16 d in
      if npid - pid <? 1 then put_nacks p len nack pid words nacks
      else if 16 <? npid - pid then
        let words := words + 1 in
        if len <? words * 4 + 4 then Ok (p, None)
        else
          let nack := words * 4 in
          let! p := set16 p nack npid in
          put_nacks p len nack npid words nacks
      else
        let! blp := be16 p (nack + 2) in
        let blp := Z.lor blp (Z.shiftl 1 (npid - pid - 1)) in
        let! p := set16 p (nack + 2) blp in
        put_nacks p len nack pid words nacks
  end.

Section Nacks.
(** [g_slist_sort] of glib. *)
Variable g_slist_sort : (Z -> Z -> Z) -> list Z -> list Z.

Definition janus_rtcp_nacks (packet : option (list Z)) (len : Z) (nacks : list Z)
    : res (Z * option (list Z)) :=
  match packet with
  | None => Ok (-1, None)
  | Some p =>
      if (len <? 16) || match nacks with [] => true | _ => false end then Ok (-1, packet)
      else
        match g_slist_sort sort_asc nacks with
        | [] => Oob
        | d :: nacks =>
            let! p := memset0 p len in
            let! p := set_version p 0 2 in
            let! p := set_type p 0 RTCP_RTPFB in
            let! p := set_rc p 0 1 in
            let pid := u16 d in
            let! p := set16 p 12 pid in
            let! (p, r) := put_nacks p len 12 pid 3 nacks in
            match r with
            | None => Ok (-1, Some p)
            | Some words =>
                let! p := set_length p 0 words in
                Ok (words * 4 + 4, Some p)
            end
        end
  end.
End Nacks.

(** ** Reception statistics *)

(** [now] is the monotonic time in microseconds. *)
Definition janus_rtcp_process_incoming_rtp (now : Z) (ctx : option rtcp_context)
    (packet : option (list Z)) (len max_nack_queue : Z) : res (Z * option rtcp_context) :=
  match ctx, packet with
  | Some c, Some p =>
      if len <? 1 then Ok (-1, ctx)
      else
        let! seq_number := be16 p 2 in
        let base :=
          if (base_seq c =? 0) && (seq_cycle c =? 0) then seq_number else base_seq c in
        let cycle :=
          if max_nack_queue + seq_number <? last_seq_nr c then u16 (seq_cycle c + 1)
          else seq_cycle c in
        let received_ := u32 (received c + 1) in
        let rtp_expected := if 0 <? cycle then u32 (Z.shiftl cycle 16) else 0 in
        let rtp_expected := u32 (rtp_expected + 1 + seq_number - base) in
        let lost_ :=
          if 0 <? u32 (rtp_expected - received_) then s32 (rtp_expected - received_) else 0 in
        let arrival := u64 (Z.quot (s64 (now * tb c)) 1000000) in
        let! timestamp := be32 p 4 in
        let transit_ := u64 (arrival - timestamp) in
        let d := u64 (Z.abs (s64 (transit_ - transit c))) in
        let jitter_ :=
          if transit c =? 0 then f64_zero
          else f64_add (jitter c) (f64_mul f64_sixteenth (f64_sub (f64_of_Z d) (jitter c))) in
        Ok (0, Some (mk_ctx 1 seq_number cycle base transit_ jitter_ (tb c) (lsr c) (lsr_ts c)
                       (last_sent c) received_ (received_prior c) rtp_expected
                       (expected_prior c) lost_))
  | _, _ => Ok (-1, ctx)
  end.

Definition janus_rtcp_context_get_lost (ctx : option rtcp_context) : Z :=
  match ctx with
  | None => 0
  | Some c => if 0x7FFFFF <? lost c then 0x7FFFFF else u32 (lost c)
  end.

(** [lost_interval << 8] is an [int] divided as an unsigned number. *)
Definition lost_fraction (c : rtcp_context) : Z :=
  let expected_interval := u32 (expected c - expected_prior c) in
  let received_interval := u32 (received c - received_prior c) in
  let lost_interval := s32 (expected_interval - received_interval) in
  let fraction :=
    if (expected_interval =? 0) || (lost_interval <=? 0) then 0
    else u32 (s32 (Z.shiftl lost_interval 8)) / expected_interval in
  u32 (Z.shiftl fraction 24).

Definition janus_rtcp_context_get_lost_fraction (ctx : option rtcp_context) : Z :=
  match ctx with
  | None => 0
  | Some c => lost_fraction c
  end.

Definition janus_rtcp_context_get_lost_promille (ctx : option rtcp_context) : Z :=
  match ctx with
  | None => 0
  | Some c => Z.shiftr (u32 (Z.shiftr (lost_fraction c) 24 * 1000)) 8
  end.

(** struct report_block, each field before its [htonl]. *)
Record report_block := mk_rb {
  rb_ssrc : Z;
  rb_flcnpl : Z;
  rb_ehsnr : Z;
  rb_jitter : Z;
  rb_lsr : Z;
  rb_delay : Z
}.

(** [now] and [now'] are the two readings of the clock. *)
Definition janus_rtcp_report_block (now now' : Z) (ctx : option rtcp_context)
    (rb : option report_block) : Z * option rtcp_context * option report_block :=
  match ctx, rb with
  | Some c, Some b =>
      let jitter_ := u32 (f64_trunc (jitter c)) in
      let ehsnr := u32 (u32 (Z.shiftl (seq_cycle c) 16) + last_seq_nr c) in
      let lost_ := janus_rtcp_context_get_lost ctx in
      let fraction := janus_rtcp_context_get_lost_fraction ctx in
      let delay := u32 (Z.quot (s64 (Z.shiftl (s64 (now - lsr_ts c)) 16)) 1000000) in
      (0,
       Some (mk_ctx (enabled c) (last_seq_nr c) (seq_cycle c) (base_seq c) (transit c)
               (jitter c) (tb c) (lsr c) (lsr_ts c) now' (received c) (received c)
               (expected c) (expected c) (lost c)),
       Some (mk_rb (rb_ssrc b) (Z.lor lost_ fraction) ehsnr jitter_ (lsr c) delay))
  | _, _ => (-1, ctx, rb)
  end.

Definition janus_seq_in_range (seqn start len : Z) : bool :=
  let n := seqn in
  let nh := Z.shiftl 1 16 + n in
  let s := start in
  let e := s + len in
  ((s <=? n) && (n <? e)) || ((s <=? nh) && (nh <? e)).
End JanusRtcp.
