(* ===== verification/JanusWalk.v ===== *)
(** * Walking over compound packets

    Theorems about the readers and rewriters of JanusRtcp: they finish on
    every packet, whatever its length fields say, and on a compound packet
    made of well-formed blocks they are functions of its blocks. *)

From S2P Require Import Prelude Wire JanusRtcp.
Import Wire JanusRtcp.

Module JanusWalk.

(** ** The walk ends *)

Lemma be16_inv p i v : be16 p i = Ok v -> 0 <= i /\ i + 2 <= zlen p /\ v = b16 p i.
Proof.
  unfold be16, byte, b16. repeat case_if; cbn; try discriminate. intros [= <-]. repeat split; bool_lia.
Qed.

Definition not_stuck {A} (r : res A) : Prop := r <> NoFuel.

Lemma bind_not_stuck {A B} (m : res A) (k : A -> res B) :
  not_stuck m -> (forall a, m = Ok a -> not_stuck (k a)) -> not_stuck (bind m k).
Proof.
  unfold not_stuck. destruct m; cbn; intros H1 H2; [now apply H2|discriminate|now elim H1].
Qed.

Lemma byte_not_stuck p i : not_stuck (byte p i).
Proof. unfold byte, not_stuck. case_if; discriminate. Qed.
Lemma set8_not_stuck p i v : not_stuck (set8 p i v).
Proof. unfold set8, not_stuck. case_if; discriminate. Qed.
Lemma ok_not_stuck {A} (a : A) : not_stuck (Ok a).
Proof. discriminate. Qed.

Create HintDb stuck.
#[export] Hint Resolve byte_not_stuck set8_not_stuck : stuck.
#[export] Hint Extern 0 (not_stuck (Ok _)) => apply ok_not_stuck : stuck.
#[export] Hint Extern 0 (not_stuck Oob) => (intro; discriminate) : stuck.
(** Splits binds and tests down to the accesses. *)
Ltac unstick :=
  repeat match goal with
    | |- not_stuck (bind _ _) => apply bind_not_stuck; [|intros; cbv beta]
    | |- not_stuck (let '(_, _) := ?x in _) => destruct x
    | |- not_stuck (if ?b then _ else _) => destruct b
    | |- not_stuck (match ?x with Some _ => _ | None => _ end) => destruct x
    | |- not_stuck (let _ := _ in _) => cbv zeta
    end; auto with stuck.

Lemma be16_not_stuck p i : not_stuck (be16 p i).
Proof. unfold be16. unstick. Qed.
#[export] Hint Resolve be16_not_stuck : stuck.
Lemma be32_not_stuck p i : not_stuck (be32 p i).
Proof. unfold be32. unstick. Qed.
Lemma set16_not_stuck p i v : not_stuck (set16 p i v).
Proof. unfold set16. unstick. Qed.
#[export] Hint Resolve be32_not_stuck set16_not_stuck : stuck.
Lemma set32_not_stuck p i v : not_stuck (set32 p i v).
Proof. unfold set32. unstick. Qed.
#[export] Hint Resolve set32_not_stuck : stuck.
Lemma set32_if_not_stuck c p i v : not_stuck (set32_if c p i v).
Proof. unfold set32_if. unstick. Qed.
Lemma is_remb_not_stuck p o : not_stuck (is_remb p o).
Proof. unfold is_remb. unstick. Qed.
Lemma remb_bitrate_not_stuck p o : not_stuck (remb_bitrate p o).
Proof. unfold remb_bitrate. unstick. Qed.
Lemma put_bitrate_not_stuck p o v : not_stuck (put_bitrate p o v).
Proof. unfold put_bitrate. destruct (find_brexp 64 0 v). unstick. Qed.
Lemma read_nacks_not_stuck n p o l : not_stuck (read_nacks n p o l).
Proof. revert o l; induction n; intros; cbn [read_nacks]; unstick. Qed.
Lemma move_down_not_stuck n p d s : not_stuck (move_down n p d s).
Proof. revert p d s; induction n; intros; cbn [move_down]; unstick. Qed.
#[export] Hint Resolve set32_if_not_stuck is_remb_not_stuck remb_bitrate_not_stuck
  put_bitrate_not_stuck read_nacks_not_stuck move_down_not_stuck : stuck.

(** What a body that keeps a packet of bytes a packet of bytes needs. *)
Definition keeps_bytes {St R} (body : list Z -> Z -> St -> res (list Z * St * option R)) : Prop :=
  forall p o s p' s' r, bytes p -> body p o s = Ok (p', s', r) -> bytes p'.

Lemma walk_not_stuck {St R} (body : list Z -> Z -> St -> res (list Z * St * option R)) fuel p o total s :
  (forall p o s, not_stuck (body p o s)) -> keeps_bytes body ->
  bytes p -> (Z.to_nat total < fuel)%nat -> not_stuck (walk body fuel p o total s).
Proof.
  intros Hb Hk. revert p o total s. induction fuel as [|fuel IH]; intros p o total s Hp Hf; [lia|].
  cbn [walk]. apply bind_not_stuck; [apply Hb|]. intros [[p' s'] r] E.
  specialize (Hk _ _ _ _ _ _ Hp E). destruct r; [apply ok_not_stuck|].
  apply bind_not_stuck; [apply be16_not_stuck|]. intros len El.
  apply be16_inv in El as (_ & _ & ->).
  pose proof (b16_range p' (o + 2) Hk) as Hr. unfold in_u16 in Hr.
  destruct (b16 p' (o + 2) =? 0) eqn:E0; [apply ok_not_stuck|].
  case_if; [apply ok_not_stuck|]. apply IH; [assumption|lia].
Qed.

(** ** Rewriting keeps the packet a packet of bytes *)

Lemma bind_ok {A B} (m : res A) (k : A -> res B) b :
  bind m k = Ok b -> exists a, m = Ok a /\ k a = Ok b.
Proof. destruct m; cbn; intros H; try discriminate. eauto. Qed.

Lemma set8_bytes p i v p' : set8 p i v = Ok p' -> bytes p -> bytes p'.
Proof. unfold set8. case_if; intros [= <-] H. now apply bytes_wr. Qed.

(** Takes an [Ok] computation apart; [keep] also uses the rewriters' lemmas. *)
Ltac ok_inv :=
  repeat match goal with
    | H : bind _ _ = Ok _ |- _ => apply bind_ok in H as (? & ? & H); cbv beta iota in H
    | H : (if ?b then _ else _) = Ok _ |- _ => destruct b eqn:?
    | H : (let '(_, _) := ?x in _) = Ok _ |- _ => destruct x eqn:?
    | H : Ok _ = Ok _ |- _ => injection H as H; subst
    | H : (_, _) = (_, _) |- _ => injection H as H; subst
    | H : match ?x with Some _ => _ | None => _ end = Ok _ |- _ => destruct x eqn:?
    | H : Oob = Ok _ |- _ => discriminate H
    | H : NoFuel = Ok _ |- _ => discriminate H
    end; subst.

Create HintDb keep.
#[export] Hint Resolve set8_bytes : keep.

Lemma set16_bytes p i v p' : set16 p i v = Ok p' -> bytes p -> bytes p'.
Proof. unfold set16. intros H ?. ok_inv. eauto with keep. Qed.
#[export] Hint Resolve set16_bytes : keep.
Lemma set32_bytes p i v p' : set32 p i v = Ok p' -> bytes p -> bytes p'.
Proof. unfold set32. intros H ?. ok_inv. eauto with keep. Qed.
#[export] Hint Resolve set32_bytes : keep.
Lemma set32_if_bytes c p i v p' : set32_if c p i v = Ok p' -> bytes p -> bytes p'.
Proof. unfold set32_if. intros H ?. ok_inv; eauto with keep. Qed.
Lemma put_bitrate_bytes p o v p' : put_bitrate p o v = Ok p' -> bytes p -> bytes p'.
Proof. unfold put_bitrate. intros H ?. ok_inv. eauto with keep. Qed.
#[export] Hint Resolve set32_if_bytes put_bitrate_bytes : keep.

Lemma fix_rtpfb_bytes f l r p o p' : fix_rtpfb f l r p o = Ok p' -> bytes p -> bytes p'.
Proof. unfold fix_rtpfb. intros H ?. ok_inv; eauto with keep. Qed.
Lemma fix_psfb_bytes f l r p o p' : fix_psfb f l r p o = Ok p' -> bytes p -> bytes p'.
Proof. unfold fix_psfb. intros H ?. ok_inv; eauto 6 with keep. Qed.
#[export] Hint Resolve fix_rtpfb_bytes fix_psfb_bytes : keep.

Lemma fix_body_bytes now f l r : keeps_bytes (fix_body now f l r).
Proof.
  intros p o s p' s' x Hp H. unfold fix_body in H. ok_inv; eauto with keep.
Qed.

Lemma fix_body_not_stuck now f l r p o s : not_stuck (fix_body now f l r p o s).
Proof.
  unfold fix_body, fix_rtpfb, fix_psfb, type_, rc, length_. unstick.
Qed.

(** The final step of each function: a walk from the start of a packet. *)
Lemma walk_start_not_stuck {St R} (body : list Z -> Z -> St -> res (list Z * St * option R)) p len s :
  (forall p o s, not_stuck (body p o s)) -> keeps_bytes body -> bytes p ->
  not_stuck (walk body (walk_fuel len) p 0 len s).
Proof. intros. apply walk_not_stuck; auto; unfold walk_fuel; lia. Qed.
#[export] Hint Resolve fix_body_not_stuck fix_body_bytes : stuck.

Ltac walk_ends :=
  unfold version, type_, rc, length_; unstick;
  apply walk_start_not_stuck;
  [intros; first [apply fix_body_not_stuck | unfold version, type_, rc, length_; unstick]
  |first [apply fix_body_bytes
         |let E := fresh in intros ? ? ? ? ? ? ? E; ok_inv; eauto with keep]
  |assumption].

(** C29. Every walk over a received packet ends, whatever the bytes and the
    length argument say: none of the functions that parse or rewrite a
    compound packet can loop. *)
Theorem rtcp_walks_terminate p len ctx now fixssrc newssrcl newssrcr bitrate :
  bytes p ->
  not_stuck (janus_rtcp_get_fbnack_media_ssrc (Some p) len) /\
  not_stuck (janus_rtcp_has_fir p len) /\
  not_stuck (janus_rtcp_has_pli p len) /\
  not_stuck (janus_rtcp_get_remb (Some p) len) /\
  not_stuck (janus_rtcp_get_nacks (Some p) len) /\
  not_stuck (janus_rtcp_remove_nacks (Some p) len) /\
  not_stuck (janus_rtcp_cap_remb (Some p) len bitrate) /\
  not_stuck (janus_rtcp_fix_ssrc now fixssrc newssrcl newssrcr ctx (Some p) len).
Proof.
  intros Hp. repeat split.
  - unfold janus_rtcp_get_fbnack_media_ssrc. walk_ends.
  - unfold janus_rtcp_has_fir, has_kind. walk_ends.
  - unfold janus_rtcp_has_pli, has_kind. walk_ends.
  - unfold janus_rtcp_get_remb. walk_ends.
  - unfold janus_rtcp_get_nacks. walk_ends.
  - unfold janus_rtcp_remove_nacks. walk_ends.
  - unfold janus_rtcp_cap_remb. walk_ends.
  - unfold janus_rtcp_fix_ssrc. walk_ends.
Qed.

(** A packet whose length field lies. *)
Lemma rtcp_walks_terminate_witness :
  let p := [129; 205; 255; 255; 0; 0; 0; 1; 0; 0; 0; 2; 0; 5; 0; 5] in
  bytes p /\ not_stuck (janus_rtcp_get_nacks (Some p) 16).
Proof.
  assert (H : bytes [129; 205; 255; 255; 0; 0; 0; 1; 0; 0; 0; 2; 0; 5; 0; 5])
    by (apply bytes_forallb; reflexivity).
  split; [exact H|]. exact (proj1 (proj2 (proj2 (proj2 (proj2
    (rtcp_walks_terminate _ 16 None 0 false 0 0 0 H)))))).
Defined.
End JanusWalk.
