(* ===== verification/JanusCompound.v ===== *)
(** * Compound packets as lists of blocks

    The abstract view of an RTCP compound packet is the list of its blocks; on
    a packet made of well-formed blocks the functions of JanusRtcp that walk
    are maps, folds and searches over that list, and never leave the buffer. *)

From S2P Require Import Prelude Wire JanusRtcp JanusWalk.
Import Wire JanusRtcp JanusWalk.

Module JanusCompound.

Definition b_type (b : list Z) : Z := rd b 1.
Definition b_rc (b : list Z) : Z := Z.land (rd b 0) 31.
Definition b_length (b : list Z) : Z := b16 b 2.

(** The length field, in words, that a block's handlers rely on. *)
Definition min_length (b : list Z) : Z :=
  if b_type b =? RTCP_SR then (if 0 <? b_rc b then 12 else 6)
  else if b_type b =? RTCP_RR then (if 0 <? b_rc b then 7 else 1)
  else if b_type b =? RTCP_SDES then 2
  else if b_type b =? RTCP_FIR then 3
  else if b_type b =? RTCP_RTPFB then 3
  else if b_type b =? RTCP_PSFB then
    (if b_rc b =? 1 then 2 else if b_rc b =? 15 then 5 else 3)
  else 1.

Record wf_block (b : list Z) : Prop := {
  wfb_bytes : bytes b;
  wfb_size : zlen b = 4 * (b_length b + 1);
  wfb_min : min_length b <= b_length b
}.

(** A compound packet: well-formed blocks, the first of version 2. *)
Definition compound (bs : list (list Z)) : Prop :=
  Forall wf_block bs /\ exists b bs', bs = b :: bs' /\ Z.shiftr (rd b 0) 6 = 2.

(** The same as a test. *)
Definition wf_blockb (b : list Z) : bool :=
  forallb byteb b && (zlen b =? 4 * (b_length b + 1)) && (min_length b <=? b_length b).

Definition compoundb (bs : list (list Z)) : bool :=
  forallb wf_blockb bs && match bs with b :: _ => Z.shiftr (rd b 0) 6 =? 2 | [] => false end.

Lemma compoundb_spec bs : compoundb bs = true -> compound bs.
Proof.
  unfold compoundb. intros H. apply andb_prop in H as [HF Hv]. split.
  - apply Forall_forall. intros b Hb. rewrite forallb_forall in HF. specialize (HF b Hb).
    unfold wf_blockb in HF. apply andb_prop in HF as [HF Hm]. apply andb_prop in HF as [HF Hz].
    constructor; [now apply bytes_forallb|lia|lia].
  - destruct bs as [|b bs]; [discriminate|]. exists b, bs. split; [reflexivity|lia].
Qed.

(** A sender report with one report block, a NACK of 5, 6 and 8, a FIR, a PLI
    and a REMB of 1000000 bits per second. *)
Definition sample : list (list Z) :=
  [ [129; 200; 0; 12; 0; 0; 0; 1] ++ repeat 7 44;
    [129; 205; 0; 3; 0; 0; 0; 1; 0; 0; 0; 2; 0; 5; 0; 5];
    [128; 192; 0; 3; 0; 0; 0; 1; 0; 0; 0; 2; 0; 0; 0; 0];
    [129; 206; 0; 2; 0; 0; 0; 1; 0; 0; 0; 2];
    [143; 206; 0; 5; 0; 0; 0; 1; 0; 0; 0; 0; 82; 69; 77; 66; 1; 11; 208; 144; 0; 0; 0; 2] ].

Lemma sample_compound : compound sample.
Proof. apply compoundb_spec. reflexivity. Qed.

(** What a handler does with the block at an offset. *)
Section Fold.
Context {St R : Type}.
Variable h : Z -> list Z -> St -> list Z * St * option R.

Fixpoint fold_blocks (o : Z) (bs : list (list Z)) (s : St)
    : list (list Z) * St * option R :=
  match bs with
  | [] => ([], s, None)
  | b :: bs =>
      let '(b', s, r) := h o b s in
      match r with
      | Some _ => (b' :: bs, s, r)
      | None => let '(bs, s, r) := fold_blocks (o + zlen b) bs s in (b' :: bs, s, r)
      end
  end.

Variable body : list Z -> Z -> St -> res (list Z * St * option R).

(** The body at a block is the handler on that block. *)
Hypothesis Hbody : forall pre b post s, wf_block b ->
  body (pre ++ b ++ post) (zlen pre) s =
    let '(b', s', r) := h (zlen pre) b s in Ok (pre ++ b' ++ post, s', r).
(** The handler keeps the size and the length field. *)
Hypothesis Hkeep : forall o b s, wf_block b ->
  zlen (fst (fst (h o b s))) = zlen b /\ b_length (fst (fst (h o b s))) = b_length b.

Lemma min_length_pos b : 1 <= min_length b.
Proof. unfold min_length. repeat case_if; lia. Qed.

Lemma wf_length b : wf_block b -> 1 <= b_length b.
Proof. intros H. pose proof (min_length_pos b). pose proof (wfb_min b H). lia. Qed.

Lemma wf_zlen b : wf_block b -> 8 <= zlen b.
Proof. intros H. rewrite (wfb_size b H). pose proof (wf_length b H). lia. Qed.

Lemma walk_blocks bs : bs <> [] -> Forall wf_block bs -> forall fuel pre s,
  (Z.to_nat (zlen (concat bs)) < fuel)%nat ->
  walk body fuel (pre ++ concat bs) (zlen pre) (zlen (concat bs)) s =
    let '(bs', s', r) := fold_blocks (zlen pre) bs s in Ok (pre ++ concat bs', s', r).
Proof.
  induction bs as [|b bs IH]; [congruence|]. intros _ HF fuel pre s Hf.
  inversion HF as [|? ? Hb HF']; subst. cbn [concat fold_blocks] in *.
  destruct fuel as [|fuel]; [lia|]. cbn [walk]. rewrite Hbody by assumption.
  destruct (Hkeep (zlen pre) b s Hb) as [Hz Hl].
  destruct (h (zlen pre) b s) as [[b' s'] r] eqn:E. cbn [fst] in Hz, Hl. cbn [bind].
  destruct r; [reflexivity|].
  pose proof (wf_zlen b Hb) as Hb8. pose proof (wf_length b Hb) as Hb1.
  rewrite zlen_app in *. unfold length_. rewrite be16_mid by lia. cbn [bind].
  change (b16 b' 2) with (b_length b'). rewrite Hl.
  replace (b_length b =? 0) with false by lia.
  pose proof (wfb_size b Hb) as Hsz.
  replace (zlen b + zlen (concat bs) - (b_length b * 4 + 4)) with (zlen (concat bs)) by lia.
  destruct bs as [|b2 bs].
  - cbn [concat fold_blocks]. change (zlen []) with 0. cbn. now rewrite ?app_nil_r.
  - assert (0 < zlen (concat (b2 :: bs))).
    { inversion HF'; subst. cbn [concat]. rewrite zlen_app. pose proof (wf_zlen b2).
      pose proof (zlen_nonneg (concat bs)). intuition lia. }
    replace (zlen (concat (b2 :: bs)) <=? 0) with false by lia.
    replace (zlen pre + (b_length b + 1) * 4) with (zlen (pre ++ b')) by (rewrite zlen_app; lia).
    rewrite app_assoc. rewrite IH by (try congruence; auto; lia).
    replace (zlen (pre ++ b')) with (zlen pre + zlen b) by (rewrite zlen_app; lia).
    destruct (fold_blocks _ (b2 :: bs) s') as [[bs' s''] r']. cbn [concat].
    now rewrite <- app_assoc.
Qed.

Lemma walk_compound bs s :
  compound bs ->
  walk body (walk_fuel (zlen (concat bs))) (concat bs) 0 (zlen (concat bs)) s =
    let '(bs', s', r) := fold_blocks 0 bs s in Ok (concat bs', s', r).
Proof.
  intros [HF (b & bs' & -> & _)].
  apply (walk_blocks (b :: bs') ltac:(discriminate) HF _ [] s). unfold walk_fuel. lia.
Qed.
End Fold.

Lemma compound_version bs : compound bs -> version (concat bs) 0 = Ok 2.
Proof.
  intros [HF (b & bs' & -> & Hv)]. inversion HF; subst. pose proof (wf_zlen b ltac:(assumption)).
  unfold version. cbn [concat]. pose proof (byte_mid [] b (concat bs') 0) as E.
  cbn [app] in E. change (zlen [] + 0) with 0 in E. rewrite E by lia. cbn [bind]. now rewrite Hv.
Qed.

Lemma compound_len bs : compound bs -> 0 < zlen (concat bs).
Proof.
  intros [HF (b & bs' & -> & Hv)]. inversion HF; subst. cbn [concat]. rewrite zlen_app.
  pose proof (wf_zlen b). pose proof (zlen_nonneg (concat bs')). intuition lia.
Qed.

(** The fields of a block inside a packet. *)
Lemma type_mid pre b post : wf_block b -> type_ (pre ++ b ++ post) (zlen pre) = Ok (b_type b).
Proof. intros H. pose proof (wf_zlen b H). unfold type_. now rewrite byte_mid by lia. Qed.

Lemma rc_mid pre b post : wf_block b -> rc (pre ++ b ++ post) (zlen pre) = Ok (b_rc b).
Proof.
  intros H. pose proof (wf_zlen b H). unfold rc. rewrite <- (Z.add_0_r (zlen pre)).
  now rewrite byte_mid by lia.
Qed.

Lemma length_mid pre b post : wf_block b -> length_ (pre ++ b ++ post) (zlen pre) = Ok (b_length b).
Proof. intros H. pose proof (wf_zlen b H). unfold length_. now rewrite be16_mid by lia. Qed.

(** ** Readers *)

Fixpoint first_some_at {B} (f : Z -> list Z -> option B) (o : Z) (l : list (list Z)) : option B :=
  match l with
  | [] => None
  | x :: l => match f o x with Some y => Some y | None => first_some_at f (o + zlen x) l end
  end.

Lemma fold_search {St R} (f : Z -> list Z -> option R) o bs (s : St) :
  fold_blocks (fun o b s => (b, s, f o b)) o bs s = (bs, s, first_some_at f o bs).
Proof.
  revert o; induction bs as [|b bs IH]; intros o; [reflexivity|].
  cbn [fold_blocks first_some_at]. destruct (f o b); [reflexivity|]. now rewrite IH.
Qed.

Lemma fold_collect {St R} (g : list Z -> St -> St) o bs (s : St) :
  fold_blocks (fun _ b s => (b, g b s, @None R)) o bs s =
    (bs, fold_left (fun s b => g b s) bs s, None).
Proof.
  revert o s; induction bs as [|b bs IH]; intros o s; [reflexivity|].
  cbn [fold_blocks fold_left]. now rewrite IH.
Qed.

Lemma fold_map {St R} (m : list Z -> list Z) o bs (s : St) :
  fold_blocks (fun _ b s => (m b, s, @None R)) o bs s = (map m bs, s, None).
Proof.
  revert o; induction bs as [|b bs IH]; intros o; [reflexivity|].
  cbn [fold_blocks map]. now rewrite IH.
Qed.

(** The kinds of block the functions look for. *)
Definition is_fir (b : list Z) : bool := b_type b =? RTCP_FIR.
Definition is_pli (b : list Z) : bool := (b_type b =? RTCP_PSFB) && (b_rc b =? 1).
Definition is_nack (b : list Z) : bool := (b_type b =? RTCP_RTPFB) && (b_rc b =? 1).
Definition is_remb_block (b : list Z) : bool :=
  (b_type b =? RTCP_PSFB) && (b_rc b =? 15) &&
  ((rd b 12 =? 82) && (rd b 13 =? 69) && (rd b 14 =? 77) && (rd b 15 =? 66)).

(** The bit rate a REMB block carries, as the code computes it (in 32 bits). *)
Definition rate_mantissa (b : list Z) : Z := rd b 17 mod 4 * 65536 + rd b 18 * 256 + rd b 19.
Definition rate_exp (b : list Z) : Z := rd b 17 / 4.
Definition b_rate (b : list Z) : Z := u32 (Z.shiftl (rate_mantissa b) (rate_exp b)).

(** The sequence numbers a NACK block asks for. *)
Fixpoint block_seqs (n : nat) (b : list Z) (i : Z) : list Z :=
  match n with
  | O => []
  | S n => nack_seqs (b16 b i) (b16 b (i + 2)) ++ block_seqs n b (i + 4)
  end.
Definition b_nacks (b : list Z) : list Z :=
  if is_nack b then block_seqs (Z.to_nat (b_length b - 2)) b 12 else [].

Definition when {A} (c : bool) (a : A) : option A := if c then Some a else None.

(** A block of bytes is a block of bytes. *)
Lemma wf_rd b i : wf_block b -> in_u8 (rd b i).
Proof. intros H. apply bytes_rd, H. Qed.

Ltac min_len H := pose proof (wfb_min _ H); unfold min_length in *;
  repeat match goal with E : (_ =? _) = _ |- _ => rewrite E in * end;
  cbn [Z.eqb RTCP_SR RTCP_RR RTCP_SDES RTCP_FIR RTCP_RTPFB RTCP_PSFB] in *.

Lemma nack_min b : wf_block b -> b_type b = RTCP_RTPFB -> 3 <= b_length b.
Proof. intros H E. pose proof (wfb_min b H) as Hm. unfold min_length in Hm. now rewrite E in Hm. Qed.

Lemma psfb_min b :
  wf_block b -> b_type b = RTCP_PSFB ->
  (if b_rc b =? 1 then 2 else if b_rc b =? 15 then 5 else 3) <= b_length b.
Proof. intros H E. pose proof (wfb_min b H) as Hm. unfold min_length in Hm. now rewrite E in Hm. Qed.

Lemma remb_min b : wf_block b -> b_type b = RTCP_PSFB -> b_rc b = 15 -> 24 <= zlen b.
Proof.
  intros H E E2. pose proof (psfb_min b H E) as Hm. rewrite E2 in Hm. cbn in Hm.
  rewrite (wfb_size b H). lia.
Qed.

Lemma is_remb_mid pre b post :
  24 <= zlen b ->
  is_remb (pre ++ b ++ post) (zlen pre + 12) =
    Ok ((rd b 12 =? 82) && (rd b 13 =? 69) && (rd b 14 =? 77) && (rd b 15 =? 66)).
Proof.
  intros H. unfold is_remb. rewrite <- !Z.add_assoc, !byte_mid by lia.
  cbn [bind Z.add Pos.add Pos.succ].
  destruct (rd b 12 =? 82), (rd b 13 =? 69), (rd b 14 =? 77), (rd b 15 =? 66); reflexivity.
Qed.

Lemma remb_bitrate_mid pre b post :
  24 <= zlen b -> bytes b ->
  remb_bitrate (pre ++ b ++ post) (zlen pre + 12) = Ok (b_rate b).
Proof.
  intros H Hb. unfold remb_bitrate. rewrite <- !Z.add_assoc, !byte_mid by lia. cbn [bind].
  do 2 f_equal. unfold b_rate, rate_mantissa, rate_exp.
  cbn [Z.add Pos.add Pos.succ Pos.add_carry].
  pose proof (bytes_rd b 17 Hb). pose proof (bytes_rd b 18 Hb). pose proof (bytes_rd b 19 Hb).
  f_equal. f_equal; [|change 0x3F with (2 ^ 6 - 1); rewrite land_ones_mod, shiftr_div by lia;
             change (2 ^ 6) with 64; change (2 ^ 2) with 4; int_lia].
  change 3 with (2 ^ 2 - 1). rewrite land_ones_mod, !shiftl_mul by lia.
  change (2 ^ 2) with 4. change (2 ^ 16) with 65536. change (2 ^ 8) with 256.
  rewrite !u32_id by int_lia. reflexivity.
Qed.

Lemma read_nacks_mid n pre b post i l :
  0 <= i -> i + 4 * Z.of_nat n <= zlen b ->
  read_nacks n (pre ++ b ++ post) (zlen pre + i) l = Ok (l ++ block_seqs n b i).
Proof.
  revert i l; induction n as [|n IH]; intros i l Hi Hn; cbn [read_nacks block_seqs].
  - now rewrite app_nil_r.
  - rewrite <- !Z.add_assoc, !be16_mid by lia. cbn [bind].
    rewrite IH by lia. now rewrite <- app_assoc.
Qed.

Lemma read_nacks_block pre b post l :
  wf_block b -> b_type b = RTCP_RTPFB ->
  read_nacks (Z.to_nat (b_length b - 2)) (pre ++ b ++ post) (zlen pre + 12) l =
    Ok (l ++ block_seqs (Z.to_nat (b_length b - 2)) b 12).
Proof.
  intros H E. pose proof (nack_min b H E). pose proof (wfb_size b H).
  apply read_nacks_mid; lia.
Qed.

(** A walk that only reads. *)
Lemma walk_search {R} body (f : Z -> list Z -> option R) bs :
  (forall pre b post, wf_block b ->
     body (pre ++ b ++ post) (zlen pre) tt = Ok (pre ++ b ++ post, tt, f (zlen pre) b)) ->
  compound bs ->
  walk body (walk_fuel (zlen (concat bs))) (concat bs) 0 (zlen (concat bs)) tt =
    Ok (concat bs, tt, first_some_at f 0 bs).
Proof.
  intros Hb Hc. rewrite (walk_compound (fun o b s => (b, s, f o b))); [|..|exact Hc].
  - now rewrite fold_search.
  - intros pre b post [] H. now apply Hb.
  - intros; cbn; auto.
Qed.

Lemma walk_collect {St R} body (g : list Z -> St -> St) bs s :
  (forall pre b post s, wf_block b ->
     body (pre ++ b ++ post) (zlen pre) s = Ok (pre ++ b ++ post, g b s, @None R)) ->
  compound bs ->
  walk body (walk_fuel (zlen (concat bs))) (concat bs) 0 (zlen (concat bs)) s =
    Ok (concat bs, fold_left (fun s b => g b s) bs s, None).
Proof.
  intros Hb Hc. rewrite (walk_compound (fun _ b s => (b, g b s, None))); [|..|exact Hc].
  - now rewrite fold_collect.
  - intros pre b post s' H. now apply Hb.
  - intros; cbn; auto.
Qed.

Lemma first_some_find {B} (c : list Z -> bool) (f : list Z -> B) o l d :
  match first_some_at (fun _ x => when (c x) (f x)) o l with Some y => y | None => d end =
  match find c l with Some x => f x | None => d end.
Proof.
  revert o; induction l as [|x l IH]; intros o; cbn; [reflexivity|].
  unfold when at 1. now destruct (c x).
Qed.

Lemma fold_left_exists {A} (c : A -> bool) l acc :
  fold_left (fun s b => if c b then true else s) l acc = acc || existsb c l.
Proof.
  revert acc; induction l as [|x l IH]; intros acc; cbn; [now rewrite orb_false_r|].
  rewrite IH. destruct (c x), acc; reflexivity.
Qed.

Lemma fold_left_flat_map {A B} (f : A -> list B) l acc :
  fold_left (fun s b => s ++ f b) l acc = acc ++ flat_map f l.
Proof.
  revert acc; induction l as [|x l IH]; intros acc; cbn; [now rewrite app_nil_r|].
  now rewrite IH, <- app_assoc.
Qed.

(** Goes from the function's guards to its walk. *)
Ltac enter_walk Hc :=
  rewrite compound_version by exact Hc; let Hl := fresh "Hlen" in pose proof (compound_len _ Hc) as Hl;
  cbn [bind]; change (2 =? 2) with true; cbn [negb];
  repeat match goal with
    | |- context [?x <=? 0] => replace (x <=? 0) with false by lia
    | |- context [?x =? 0] => replace (x =? 0) with false by lia
    end.

Lemma has_kind_compound kind k bs :
  (forall pre b post, wf_block b -> kind (pre ++ b ++ post) (zlen pre) = Ok (k b)) ->
  compound bs -> has_kind kind (concat bs) (zlen (concat bs)) = Ok (existsb k bs).
Proof.
  intros Hk Hc. unfold has_kind. enter_walk Hc.
  rewrite (walk_collect _ (fun b got => if k b then true else got)); [|..|exact Hc].
  - cbn [bind]. now rewrite fold_left_exists.
  - intros pre b post s H. now rewrite Hk by exact H.
Qed.

Lemma has_fir_compound bs : compound bs ->
  janus_rtcp_has_fir (concat bs) (zlen (concat bs)) = Ok (existsb is_fir bs).
Proof.
  intros Hc. apply has_kind_compound; [|exact Hc]. intros pre b post H.
  now rewrite type_mid by exact H.
Qed.

Lemma has_pli_compound bs : compound bs ->
  janus_rtcp_has_pli (concat bs) (zlen (concat bs)) = Ok (existsb is_pli bs).
Proof.
  intros Hc. apply has_kind_compound; [|exact Hc]. intros pre b post H.
  rewrite type_mid by exact H. cbn [bind]. unfold is_pli.
  destruct (b_type b =? RTCP_PSFB); [|reflexivity]. now rewrite rc_mid by exact H.
Qed.

Lemma get_media_compound bs : compound bs ->
  janus_rtcp_get_fbnack_media_ssrc (Some (concat bs)) (zlen (concat bs)) =
    Ok (match find is_nack bs with Some b => b32 b 8 | None => 0 end).
Proof.
  intros Hc. unfold janus_rtcp_get_fbnack_media_ssrc. enter_walk Hc.
  rewrite (walk_search _ (fun _ b => when (is_nack b) (b32 b 8))); [|..|exact Hc].
  - cbn [bind]. f_equal. apply first_some_find.
  - intros pre b post H. rewrite type_mid by exact H. cbn [bind]. unfold is_nack, when.
    destruct (Z.eqb_spec (b_type b) RTCP_RTPFB) as [E|]; [|reflexivity]. cbn [andb].
    rewrite rc_mid by exact H. cbn [bind]. destruct (b_rc b =? 1); [|reflexivity].
    pose proof (nack_min b H E). rewrite be32_mid by (rewrite ?(wfb_size b H); lia). reflexivity.
Qed.

Lemma get_remb_compound bs : compound bs ->
  janus_rtcp_get_remb (Some (concat bs)) (zlen (concat bs)) =
    Ok (match find is_remb_block bs with Some b => b_rate b | None => 0 end).
Proof.
  intros Hc. unfold janus_rtcp_get_remb. enter_walk Hc.
  rewrite (walk_search _ (fun _ b => when (is_remb_block b) (b_rate b))); [|..|exact Hc].
  - cbn [bind]. f_equal. apply first_some_find.
  - intros pre b post H. rewrite type_mid by exact H. cbn [bind]. unfold is_remb_block, when.
    destruct (Z.eqb_spec (b_type b) RTCP_PSFB) as [E|]; [|reflexivity]. cbn [andb].
    rewrite rc_mid by exact H. cbn [bind].
    destruct (Z.eqb_spec (b_rc b) 15) as [E2|]; [|reflexivity]. cbn [andb].
    pose proof (remb_min b H E E2). rewrite is_remb_mid by assumption. cbn [bind].
    case_if; [|reflexivity]. now rewrite remb_bitrate_mid by (try apply H; assumption).
Qed.

Lemma get_nacks_compound bs : compound bs ->
  janus_rtcp_get_nacks (Some (concat bs)) (zlen (concat bs)) = Ok (flat_map b_nacks bs).
Proof.
  intros Hc. unfold janus_rtcp_get_nacks. enter_walk Hc.
  rewrite (walk_collect _ (fun b l => l ++ b_nacks b)); [|..|exact Hc].
  - cbn [bind]. now rewrite fold_left_flat_map.
  - intros pre b post s H. rewrite type_mid by exact H. cbn [bind]. unfold b_nacks, is_nack.
    destruct (Z.eqb_spec (b_type b) RTCP_RTPFB) as [E|]; cbn [andb]; [|now rewrite app_nil_r].
    rewrite rc_mid by exact H. cbn [bind].
    destruct (b_rc b =? 1); [|now rewrite app_nil_r].
    rewrite length_mid by exact H. cbn [bind]. pose proof (nack_min b H E).
    replace (0 <? b_length b - 2) with true by lia.
    now rewrite read_nacks_block by assumption.
Qed.

(** On a well-formed compound packet the readers never leave the buffer,
    and they answer about its blocks: whether one is a FIR or a PLI, the media
    source of the first NACK, the rate of the first REMB, and all the
    sequence numbers the NACKs ask for, in order. *)
Theorem compound_readers bs :
  compound bs ->
  let p := concat bs in let len := zlen p in
  janus_rtcp_has_fir p len = Ok (existsb is_fir bs) /\
  janus_rtcp_has_pli p len = Ok (existsb is_pli bs) /\
  janus_rtcp_get_fbnack_media_ssrc (Some p) len =
    Ok (match find is_nack bs with Some b => b32 b 8 | None => 0 end) /\
  janus_rtcp_get_remb (Some p) len =
    Ok (match find is_remb_block bs with Some b => b_rate b | None => 0 end) /\
  janus_rtcp_get_nacks (Some p) len = Ok (flat_map b_nacks bs).
Proof.
  intros Hc. split; [now apply has_fir_compound|]. split; [now apply has_pli_compound|].
  split; [now apply get_media_compound|]. split; [now apply get_remb_compound|].
  now apply get_nacks_compound.
Qed.

(** ** Rewriters *)

(** Drops the first element that satisfies the test. *)
Fixpoint remove_first {A} (c : A -> bool) (l : list A) : list A :=
  match l with
  | [] => []
  | x :: l => if c x then l else x :: remove_first c l
  end.

Lemma move_down_spec n p dst src :
  0 <= dst <= src -> src + Z.of_nat n <= zlen p -> bytes p ->
  exists p', move_down n p dst src = Ok p' /\ zlen p' = zlen p /\
    forall j, 0 <= j < dst + Z.of_nat n ->
      rd p' j = if j <? dst then rd p j else rd p (j - dst + src).
Proof.
  revert p dst src; induction n as [|n IH]; intros p dst src Hd Hs Hb; cbn [move_down].
  - exists p. split; [reflexivity|]. split; [reflexivity|]. intros j Hj.
    replace (j <? dst) with true by lia. reflexivity.
  - rewrite byte_ok by lia. cbn [bind]. rewrite set8_ok by lia. cbn [bind].
    rewrite u8_id by now apply bytes_rd.
    destruct (IH (wr p dst (rd p src)) (dst + 1) (src + 1)) as (p' & E & Hz & Hr);
      [lia|rewrite zlen_wr; lia|apply Forall_wr; [now apply bytes_rd|assumption]|].
    exists p'. split; [exact E|]. rewrite zlen_wr in Hz. split; [exact Hz|].
    intros j Hj. rewrite Hr by lia.
    destruct (Z.ltb_spec j dst) as [Hlt|Hge].
    + replace (j <? dst + 1) with true by lia. rewrite rd_wr_ne by lia. reflexivity.
    + destruct (Z.eq_dec j dst) as [->|Hne].
      * replace (dst <? dst + 1) with true by lia. rewrite rd_wr_eq by lia. f_equal. lia.
      * replace (j <? dst + 1) with false by lia. rewrite rd_wr_ne by lia. f_equal. lia.
Qed.

(** Where the first NACK block is. *)
Lemma find_split {A} (c : A -> bool) l :
  match find c l with
  | None => existsb c l = false /\ remove_first c l = l
  | Some x => exists l1 l2, l = l1 ++ x :: l2 /\ existsb c l1 = false /\ c x = true /\
                remove_first c l = l1 ++ l2
  end.
Proof.
  induction l as [|y l IH]; cbn; [auto|]. destruct (c y) eqn:E.
  - exists [], l. auto.
  - destruct (find c l) as [x|].
    + destruct IH as (l1 & l2 & -> & H1 & H2 & ->). exists (y :: l1), l2.
      cbn. rewrite E. auto.
    + destruct IH as [H1 ->]. auto.
Qed.

Lemma first_some_at_none {B} (f : Z -> list Z -> option B) (c : list Z -> bool) o l1 :
  (forall o x, c x = false -> f o x = None) -> existsb c l1 = false ->
  first_some_at f o l1 = None.
Proof.
  intros Hf. revert o; induction l1 as [|x l IH]; intros o H; cbn; [reflexivity|].
  cbn in H. apply orb_false_iff in H as [H1 H2]. rewrite Hf by assumption. now apply IH.
Qed.

Lemma first_some_at_app {B} (f : Z -> list Z -> option B) (c : list Z -> bool) o l1 x l2 :
  (forall o x, c x = false -> f o x = None) -> existsb c l1 = false ->
  first_some_at f o (l1 ++ x :: l2) =
    match f (o + zlen (concat l1)) x with
    | Some y => Some y
    | None => first_some_at f (o + zlen (concat l1) + zlen x) l2
    end.
Proof.
  intros Hf. revert o; induction l1 as [|y l IH]; intros o H; cbn [concat app first_some_at].
  - change (zlen []) with 0. now rewrite Z.add_0_r.
  - cbn in H. apply orb_false_iff in H as [H1 H2]. rewrite Hf by assumption.
    rewrite IH by assumption. rewrite zlen_app. now rewrite !Z.add_assoc.
Qed.

(** The NACK the walk of [janus_rtcp_remove_nacks] stops at. *)
Definition nack_at (o : Z) (b : list Z) : option (Z * Z) := when (is_nack b) (o, zlen b).

Lemma remove_nacks_walk bs : compound bs ->
  janus_rtcp_remove_nacks (Some (concat bs)) (zlen (concat bs)) =
  match first_some_at nack_at 0 bs with
  | None => Ok (zlen (concat bs), Some (concat bs))
  | Some (nacks, nacks_len) =>
      let total := zlen (concat bs) - (nacks + nacks_len) in
      if total <? 0 then Ok (zlen (concat bs), Some (concat bs))
      else if total =? 0 then Ok (zlen (concat bs) - nacks_len, Some (concat bs))
      else
        let! p := move_down (Z.to_nat total) (concat bs) nacks (nacks + nacks_len) in
        Ok (zlen (concat bs) - nacks_len, Some p)
  end.
Proof.
  intros Hc. unfold janus_rtcp_remove_nacks. rewrite compound_version by exact Hc.
  pose proof (compound_len _ Hc) as Hl. replace (zlen (concat bs) =? 0) with false by lia.
  cbn [bind]. change (2 =? 2) with true. cbn [negb].
  rewrite (walk_search _ nack_at); [|..|exact Hc].
  - reflexivity.
  - intros pre b post H. rewrite type_mid by exact H. cbn [bind]. unfold nack_at, is_nack, when.
    destruct (Z.eqb_spec (b_type b) RTCP_RTPFB) as [E|]; [|reflexivity]. cbn [andb].
    rewrite rc_mid by exact H. cbn [bind]. destruct (b_rc b =? 1); [|reflexivity].
    rewrite length_mid by exact H. cbn [bind]. pose proof (nack_min b H E).
    replace (b_length b =? 0) with false by lia. rewrite (wfb_size b H). do 4 f_equal. lia.
Qed.

Lemma slice_app_l {A} (a b : list A) : slice (a ++ b) 0 (zlen a) = a.
Proof.
  unfold slice, zlen. rewrite Nat2Z.id. cbn [Z.to_nat skipn].
  rewrite firstn_app, Nat.sub_diag, firstn_all. apply app_nil_r.
Qed.

(** C28. On a well-formed compound packet [janus_rtcp_remove_nacks] cuts out the
    first NACK block: the returned length is what remains, and that much of
    the buffer is the other blocks in their order. *)
Theorem remove_nacks_compound bs :
  compound bs ->
  exists p' n,
    janus_rtcp_remove_nacks (Some (concat bs)) (zlen (concat bs)) = Ok (n, Some p') /\
    zlen p' = zlen (concat bs) /\ n = zlen (concat (remove_first is_nack bs)) /\
    slice p' 0 n = concat (remove_first is_nack bs).
Proof.
  intros Hc. assert (HF : Forall wf_block bs) by apply Hc.
  assert (Hp : bytes (concat bs)).
  { clear Hc. induction HF as [|b bs Hb _ IH]; [constructor|]. cbn. apply Forall_app. split; [apply Hb|exact IH]. }
  rewrite remove_nacks_walk by exact Hc. pose proof (find_split is_nack bs) as Hs.
  assert (Hno : forall o x, is_nack x = false -> nack_at o x = None)
    by (intros o x E; unfold nack_at, when; now rewrite E).
  destruct (find is_nack bs) as [x|].
  - destruct Hs as (l1 & l2 & -> & H1 & Hx & ->).
    rewrite (first_some_at_app nack_at is_nack) by assumption.
    unfold nack_at at 1, when at 1. rewrite Hx, Z.add_0_l.
    rewrite !concat_app in *. cbn [concat] in *. rewrite !zlen_app in *.
    set (A := concat l1) in *. set (B := concat l2) in *.
    pose proof (zlen_nonneg A). pose proof (zlen_nonneg B). pose proof (zlen_nonneg x).
    replace (zlen A + (zlen x + zlen B) - (zlen A + zlen x)) with (zlen B) by lia.
    replace (zlen A + (zlen x + zlen B) - zlen x) with (zlen A + zlen B) by lia.
    cbv zeta. replace (zlen B <? 0) with false by lia.
    destruct (zlen B =? 0) eqn:EB.
    + assert (B = []) as -> by (destruct B; [reflexivity|unfold zlen in EB; cbn in EB; lia]).
      eexists _, _. split; [reflexivity|]. rewrite !app_nil_r, !zlen_app.
      change (zlen []) with 0. rewrite !Z.add_0_r.
      split; [reflexivity|]. split; [lia|]. apply slice_app_l.
    + destruct (move_down_spec (Z.to_nat (zlen B)) (A ++ x ++ B) (zlen A) (zlen A + zlen x))
        as (p' & E & Hz & Hr); [lia|rewrite !zlen_app; lia|exact Hp|].
      rewrite E. cbn [bind]. eexists _, _. split; [reflexivity|]. rewrite !zlen_app in Hz.
      split; [exact Hz|]. split; [reflexivity|].
      apply rd_ext; [rewrite zlen_slice, zlen_app by lia; lia|]. intros j Hj.
      rewrite zlen_slice in Hj by lia. rewrite rd_slice, Z.add_0_l, Hr by lia.
      destruct (Z.ltb_spec j (zlen A)).
      * now rewrite !rd_app_l by lia.
      * rewrite !rd_app_r by lia. f_equal. lia.
  - destruct Hs as [H1 ->]. rewrite (first_some_at_none nack_at is_nack) by assumption.
    eexists _, _. split; [reflexivity|]. split; [reflexivity|]. split; [reflexivity|]. apply slice_all.
Qed.

(** ** The functions on the sample *)

Lemma compound_readers_witness :
  let p := concat sample in let len := zlen p in
  janus_rtcp_has_fir p len = Ok (existsb is_fir sample) /\
  janus_rtcp_has_pli p len = Ok (existsb is_pli sample) /\
  janus_rtcp_get_fbnack_media_ssrc (Some p) len =
    Ok (match find is_nack sample with Some b => b32 b 8 | None => 0 end) /\
  janus_rtcp_get_remb (Some p) len =
    Ok (match find is_remb_block sample with Some b => b_rate b | None => 0 end) /\
  janus_rtcp_get_nacks (Some p) len = Ok (flat_map b_nacks sample).
Proof. exact (compound_readers sample sample_compound). Defined.

(** What the readers find there. *)
Example sample_contents :
  existsb is_fir sample = true /\ existsb is_pli sample = true /\
  match find is_remb_block sample with Some b => b_rate b | None => 0 end = 1000000 /\
  flat_map b_nacks sample = [5; 6; 8].
Proof. repeat split; reflexivity. Qed.

Lemma remove_nacks_compound_witness :
  exists p' n,
    janus_rtcp_remove_nacks (Some (concat sample)) (zlen (concat sample)) = Ok (n, Some p') /\
    zlen p' = zlen (concat sample) /\ n = zlen (concat (remove_first is_nack sample)) /\
    slice p' 0 n = concat (remove_first is_nack sample).
Proof. exact (remove_nacks_compound sample sample_compound). Defined.
End JanusCompound.
