(* ===== verification/JanusRewrite.v ===== *)
(** * Rewriting compound packets

    [janus_rtcp_cap_remb] and [janus_rtcp_fix_ssrc] on well-formed compound
    packets: which bytes of which blocks they change, and what a reader finds
    afterwards. *)

From S2P Require Import Prelude Wire JanusRtcp JanusWalk JanusCompound.
Import Wire JanusRtcp JanusWalk JanusCompound.

Module JanusRewrite.

(** ** The exponent search *)

Definition max_rate : Z := 0x3FFFF * 2 ^ 46.

Lemma brexp_test bitrate b :
  0 <= b <= 46 -> (bitrate <=? u64 (Z.shiftl 0x3FFFF b)) = (bitrate <=? 0x3FFFF * 2 ^ b).
Proof.
  intros Hb. rewrite shiftl_mul by lia.
  pose proof (Z.pow_le_mono_r 2 b 46 ltac:(lia) ltac:(lia)).
  pose proof (Z.pow_pos_nonneg 2 b ltac:(lia) ltac:(lia)).
  change (2 ^ 46) with 70368744177664 in *. rewrite u64_id by (int_unfold; lia). reflexivity.
Qed.

Lemma find_brexp_spec n b bitrate :
  0 <= b -> bitrate <= 0x3FFFF * 2 ^ 46 -> b + Z.of_nat n = 64 -> b <= 46 ->
  exists e, find_brexp n b bitrate = (e, e) /\ b <= e <= 46 /\
    bitrate <= 0x3FFFF * 2 ^ e /\ (b < e -> 0x3FFFF * 2 ^ (e - 1) < bitrate).
Proof.
  revert b; induction n as [|n IH]; intros b Hb Hr Hn Hk; [lia|].
  cbn [find_brexp]. rewrite brexp_test by lia.
  destruct (Z.leb_spec bitrate (0x3FFFF * 2 ^ b)).
  - exists b. split; [reflexivity|]. split; [lia|]. split; [lia|]. lia.
  - destruct (Z.eq_dec b 46) as [->|]; [lia|].
    destruct (IH (b + 1)) as (e & -> & He & Hle & Hgt); [lia|lia|lia|lia|].
    exists e. split; [reflexivity|]. split; [lia|]. split; [exact Hle|]. intros _.
    destruct (Z.eq_dec e (b + 1)) as [->|]; [|apply Hgt; lia].
    now replace (b + 1 - 1) with b by lia.
Qed.

(** The three bytes in a REMB block. *)
Definition put_rate (b : list Z) (bitrate : Z) : list Z :=
  let e := fst (find_brexp 64 0 bitrate) in
  let m := Z.shiftr bitrate e in
  wr (wr (wr b 17 (u8 (e * 4 + m / 65536))) 18 (u8 (m / 256))) 19 (u8 m).

Lemma put_bitrate_mid pre b post bitrate :
  24 <= zlen b -> 0 <= bitrate <= max_rate ->
  put_bitrate (pre ++ b ++ post) (zlen pre + 12) bitrate = Ok (pre ++ put_rate b bitrate ++ post).
Proof.
  intros Hl Hr. unfold put_bitrate, put_rate.
  destruct (find_brexp_spec 64 0 bitrate) as (e & -> & He & Hle & _); [lia|apply Hr|reflexivity|lia|].
  cbn [fst]. rewrite <- !Z.add_assoc. cbn [Z.add Pos.add Pos.succ Pos.add_carry].
  assert (Hm : 0 <= Z.shiftr bitrate e <= 0x3FFFF).
  { rewrite shiftr_div by lia. pose proof (Z.pow_pos_nonneg 2 e ltac:(lia) ltac:(lia)).
    split; [apply Z.div_pos; lia|apply Z.div_le_upper_bound; lia]. }
  set (m := Z.shiftr bitrate e) in *. clearbody m.
  rewrite u32_id by (int_unfold; lia).
  replace (Z.shiftl e 2 + Z.land (Z.shiftr m 16) 3) with (e * 4 + m / 65536).
  2:{ change 3 with (2 ^ 2 - 1). rewrite land_ones_mod, shiftl_mul, shiftr_div by lia.
      change (2 ^ 2) with 4. change (2 ^ 16) with 65536. f_equal. symmetry. apply Z.mod_small. dlia. }
  rewrite set8_mid by lia. cbn [bind]. rewrite set8_mid by (autorewrite with zlen; lia). cbn [bind].
  rewrite set8_mid by (autorewrite with zlen; lia). rewrite shiftr_div by lia. reflexivity.
Qed.

(** What the block says afterwards. *)
Lemma put_rate_spec b bitrate :
  24 <= zlen b -> 0 <= bitrate <= max_rate ->
  let b' := put_rate b bitrate in
  rate_mantissa b' = bitrate / 2 ^ rate_exp b' /\ 0 <= rate_exp b' <= 46 /\
  bitrate <= 0x3FFFF * 2 ^ rate_exp b' /\
  (0 < rate_exp b' -> 0x3FFFF * 2 ^ (rate_exp b' - 1) < bitrate) /\
  zlen b' = zlen b /\ (forall i, i < 17 \/ 20 <= i -> rd b' i = rd b i) /\
  (bytes b -> bytes b').
Proof.
  intros Hl Hr. cbv zeta. unfold put_rate.
  destruct (find_brexp_spec 64 0 bitrate) as (e & -> & He & Hle & Hgt); [lia|apply Hr|reflexivity|lia|].
  cbn [fst].
  assert (Hm : 0 <= Z.shiftr bitrate e <= 0x3FFFF).
  { rewrite shiftr_div by lia. pose proof (Z.pow_pos_nonneg 2 e ltac:(lia) ltac:(lia)).
    split; [apply Z.div_pos; lia|apply Z.div_le_upper_bound; lia]. }
  rewrite shiftr_div in * by lia. remember (bitrate / 2 ^ e) as m eqn:Em.
  set (b' := wr _ 19 _).
  assert (H17 : rd b' 17 = e * 4 + m / 65536).
  { unfold b'. rewrite !rd_wr_ne, rd_wr_eq by (autorewrite with zlen; lia). apply u8_id. int_lia. }
  assert (H18 : rd b' 18 = (m / 256) mod 256).
  { unfold b'. rewrite rd_wr_ne, rd_wr_eq by (autorewrite with zlen; lia). reflexivity. }
  assert (H19 : rd b' 19 = m mod 256).
  { unfold b'. rewrite rd_wr_eq by (autorewrite with zlen; lia). reflexivity. }
  assert (Hexp : rate_exp b' = e) by (unfold rate_exp; rewrite H17; dlia).
  assert (Hman : rate_mantissa b' = m) by (unfold rate_mantissa; rewrite H17, H18, H19; dlia).
  rewrite Hexp, Hman. split; [exact Em|]. split; [lia|]. split; [exact Hle|].
  split; [exact Hgt|]. split; [unfold b'; now autorewrite with zlen|].
  split; [|unfold b'; intros; repeat apply bytes_wr; assumption].
  intros i Hi. unfold b'. rewrite !rd_wr_ne by lia. reflexivity.
Qed.

(** ** Capping the bit rate *)

Definition capped (bitrate : Z) (b : list Z) : list Z :=
  if is_remb_block b && (bitrate <? b_rate b) then put_rate b bitrate else b.

Lemma is_remb_block_min b : wf_block b -> is_remb_block b = true -> 24 <= zlen b.
Proof.
  intros H E. unfold is_remb_block in E. apply andb_true_iff in E as [E _].
  apply andb_true_iff in E as [E1 E2]. apply (remb_min b H); lia.
Qed.

Lemma put_rate_head b bitrate i :
  24 <= zlen b -> 0 <= bitrate <= max_rate -> i < 17 -> rd (put_rate b bitrate) i = rd b i.
Proof. intros. apply (proj1 (proj2 (proj2 (proj2 (proj2 (proj2 (put_rate_spec b bitrate ltac:(lia) ltac:(lia)))))))). lia. Qed.

Lemma b_rate_lt b : b_rate b < 4294967296.
Proof. unfold b_rate. pose proof (u32_range (Z.shiftl (rate_mantissa b) (rate_exp b))). int_unfold. lia. Qed.

Lemma capped_keeps bitrate b :
  wf_block b -> 0 < bitrate ->
  zlen (capped bitrate b) = zlen b /\ b_length (capped bitrate b) = b_length b.
Proof.
  intros H Hb. unfold capped. case_if; [|auto]. apply andb_true_iff in Heqb0 as [E Hlt].
  pose proof (is_remb_block_min b H E) as Hl. pose proof (b_rate_lt b).
  assert (Hr : 0 <= bitrate <= max_rate) by (unfold max_rate; lia).
  split; [apply (put_rate_spec b bitrate Hl Hr)|].
  unfold b_length, b16. rewrite !put_rate_head by lia. reflexivity.
Qed.

Lemma cap_walk bs bitrate :
  compound bs -> 0 < bitrate ->
  janus_rtcp_cap_remb (Some (concat bs)) (zlen (concat bs)) bitrate =
    Ok (0, Some (concat (map (capped bitrate) bs))).
Proof.
  intros Hc Hb. unfold janus_rtcp_cap_remb. enter_walk Hc.
  rewrite (walk_compound (fun _ b s => (capped bitrate b, s, None))); [|..|exact Hc].
  - now rewrite fold_map.
  - intros pre b post s H. rewrite type_mid by exact H. cbn [bind]. unfold capped, is_remb_block.
    destruct (Z.eqb_spec (b_type b) RTCP_PSFB) as [E|]; [|reflexivity]. cbn [andb].
    rewrite rc_mid by exact H. cbn [bind].
    destruct (Z.eqb_spec (b_rc b) 15) as [E2|]; [|reflexivity]. cbn [andb].
    pose proof (remb_min b H E E2) as Hl. rewrite is_remb_mid by assumption. cbn [bind].
    case_if; [|reflexivity]. cbn [andb].
    rewrite remb_bitrate_mid by (try apply H; assumption). cbn [bind].
    case_if; [|reflexivity]. pose proof (b_rate_lt b).
    rewrite put_bitrate_mid by (unfold max_rate; lia). reflexivity.
  - intros o b s H. now apply capped_keeps.
Qed.

(** What capping does to one block. *)
Definition cap_spec (bitrate : Z) (b b' : list Z) : Prop :=
  if is_remb_block b && (bitrate <? b_rate b) then
    is_remb_block b' = true /\ b_rate b' <= bitrate < b_rate b' + 2 ^ rate_exp b' /\
    (0 < rate_exp b' -> 2 ^ rate_exp b' * 0x3FFFF < 2 * bitrate) /\
    zlen b' = zlen b /\ forall i, i < 17 \/ 20 <= i -> rd b' i = rd b i
  else b' = b.

Lemma capped_spec bitrate b : wf_block b -> 0 < bitrate -> cap_spec bitrate b (capped bitrate b).
Proof.
  intros H Hb. unfold cap_spec, capped. case_if; [|reflexivity].
  apply andb_true_iff in Heqb0 as [E Hlt].
  pose proof (is_remb_block_min b H E) as Hl. pose proof (b_rate_lt b).
  assert (Hr : 0 <= bitrate <= max_rate) by (unfold max_rate; lia).
  pose proof (put_rate_head b bitrate) as Hh.
  destruct (put_rate_spec b bitrate Hl Hr) as (Hm & He & Hle & Hgt & Hz & Hrd & _).
  set (b' := put_rate b bitrate) in *.
  split; [unfold is_remb_block, b_type, b_rc; rewrite !Hh by lia; exact E|].
  pose proof (Z.pow_pos_nonneg 2 (rate_exp b') ltac:(lia) ltac:(lia)) as Hp.
  pose proof (Z.div_mod bitrate (2 ^ rate_exp b') ltac:(lia)) as Hdm.
  pose proof (Z.mod_pos_bound bitrate (2 ^ rate_exp b') Hp) as Hmb.
  split; [|split; [|split; [exact Hz|exact Hrd]]].
  - assert (0 <= bitrate / 2 ^ rate_exp b') by (apply Z.div_pos; lia).
    unfold b_rate. rewrite Hm, shiftl_mul by lia. rewrite u32_id by (int_unfold; nia). lia.
  - intros Hpos. specialize (Hgt Hpos). replace (rate_exp b') with (rate_exp b' - 1 + 1) by lia.
    rewrite Z.pow_add_r by lia. lia.
Qed.

(** Capping the REMBs of a well-formed compound packet to a non-zero rate
    leaves every block alone but the REMBs above the rate; each of those
    stays a REMB with only its rate bytes changed, and reads a rate that is
    at most the cap and less than 2^-16 of it below. *)
Theorem cap_remb_compound bs bitrate :
  compound bs -> 0 < bitrate ->
  exists bs',
    janus_rtcp_cap_remb (Some (concat bs)) (zlen (concat bs)) bitrate =
      Ok (0, Some (concat bs')) /\
    Forall2 (cap_spec bitrate) bs bs' /\
    Forall (fun b' => is_remb_block b' = true -> b_rate b' <= bitrate) bs'.
Proof.
  intros Hc Hb. exists (map (capped bitrate) bs). split; [now apply cap_walk|].
  destruct Hc as [HF _]. assert (H2 : Forall2 (cap_spec bitrate) bs (map (capped bitrate) bs)).
  { induction HF; cbn; constructor; [now apply capped_spec|assumption]. }
  split; [exact H2|]. apply Forall_map. eapply Forall_impl; [|exact HF].
  intros b H E. pose proof (capped_spec bitrate b H Hb) as Hs. unfold cap_spec in Hs.
  destruct (is_remb_block b && (bitrate <? b_rate b)) eqn:Ec; [apply Hs|].
  rewrite Hs in *. rewrite E in Ec. cbn in Ec. lia.
Qed.

(** ** Replacing the synchronisation sources *)

Inductive side := Lside | Rside.

(** Where the standards put the sources of a block (RFC 3550, 4585, 5104, the
    REMB draft, and RFC 2032 for type 192), each with the side it belongs to:
    the sender, and the source of the first report; of a feedback message the
    media source or, in the formats that leave it 0, the source of the first
    entry. *)
Definition feedback_source (b : list Z) : Z :=
  let n := b_rc b in
  if b_type b =? RTCP_RTPFB then (if (n =? 3) || (n =? 4) then 12 else 8)
  else if is_remb_block b then 20
  else if (4 <=? n) && (n <=? 7) then 12 else 8.

Definition ssrc_fields (b : list Z) : list (Z * side) :=
  let t := b_type b in
  let n := b_rc b in
  if t =? RTCP_SR then (4, Lside) :: (if 0 <? n then [(28, Rside)] else [])
  else if t =? RTCP_RR then (4, Lside) :: (if 0 <? n then [(8, Rside)] else [])
  else if (t =? RTCP_SDES) || (t =? RTCP_BYE) then (if 0 <? n then [(4, Lside)] else [])
  else if (t =? RTCP_APP) || (t =? RTCP_FIR) then [(4, Lside)]
  else if (t =? RTCP_RTPFB) || (t =? RTCP_PSFB) then [(feedback_source b, Rside); (4, Lside)]
  else [].

(** The blocks for which the code does what that table says.  It does not for
    an SDES, whose source it takes to be behind its place; a BYE without a
    source; a FIR of type 192, which it takes for a feedback message; a FIR of
    RFC 5104, whose unused media word it writes as well; and the feedback of
    formats it does not know, whose media source it leaves. *)
Definition understood (b : list Z) : bool :=
  let t := b_type b in
  let n := b_rc b in
  if (t =? RTCP_SDES) || (t =? RTCP_FIR) then false
  else if t =? RTCP_BYE then 0 <? n
  else if t =? RTCP_RTPFB then (n =? 1) || (n =? 3)
  else if t =? RTCP_PSFB then (n =? 1) || (n =? 5) || is_remb_block b
  else true.

(** The words that are replaced in the others. *)
Definition mistaken_fields (b : list Z) : list (Z * side) :=
  let t := b_type b in
  if t =? RTCP_SDES then [(8, Lside)]
  else if t =? RTCP_BYE then [(4, Lside)]
  else if t =? RTCP_FIR then (if 20 <=? b_length b then [(8, Rside)] else []) ++ [(12, Rside)]
  else (if (t =? RTCP_PSFB) && (b_rc b =? 4) then [(8, Rside); (12, Rside)] else []) ++ [(4, Lside)].

(** The words of a block that are replaced, with the source they get. *)
Definition overwritten (b : list Z) : list (Z * side) :=
  let t := b_type b in
  let n := b_rc b in
  if t =? RTCP_SR then (4, Lside) :: (if 0 <? n then [(28, Rside)] else [])
  else if t =? RTCP_RR then (4, Lside) :: (if 0 <? n then [(8, Rside)] else [])
  else if t =? RTCP_SDES then [(8, Lside)]
  else if t =? RTCP_BYE then [(4, Lside)]
  else if t =? RTCP_APP then [(4, Lside)]
  else if t =? RTCP_FIR then
    (if 20 <=? b_length b then [(8, Rside)] else []) ++ [(12, Rside)]
  else if t =? RTCP_RTPFB then
    (if n =? 1 then [(8, Rside)] else if n =? 3 then [(12, Rside)] else []) ++ [(4, Lside)]
  else if t =? RTCP_PSFB then
    (if n =? 1 then [(8, Rside)]
     else if n =? 4 then [(8, Rside); (12, Rside)]
     else if n =? 5 then [(12, Rside)]
     else if is_remb_block b then [(20, Rside)] else []) ++ [(4, Lside)]
  else [].

Lemma overwritten_fields b :
  overwritten b = if understood b then ssrc_fields b else mistaken_fields b.
Proof.
  unfold overwritten, understood, ssrc_fields, mistaken_fields, feedback_source. cbv zeta.
  destruct (Z.eqb_spec (b_type b) RTCP_SR) as [->|]; [reflexivity|].
  destruct (Z.eqb_spec (b_type b) RTCP_RR) as [->|]; [reflexivity|].
  destruct (Z.eqb_spec (b_type b) RTCP_SDES) as [|]; [reflexivity|].
  destruct (Z.eqb_spec (b_type b) RTCP_BYE) as [->|]; [now destruct (0 <? b_rc b)|].
  destruct (Z.eqb_spec (b_type b) RTCP_APP) as [->|]; [reflexivity|].
  destruct (Z.eqb_spec (b_type b) RTCP_FIR) as [|]; [reflexivity|].
  destruct (Z.eqb_spec (b_type b) RTCP_RTPFB) as [->|].
  - destruct (Z.eqb_spec (b_rc b) 1) as [->|]; [reflexivity|]. now destruct (b_rc b =? 3).
  - destruct (Z.eqb_spec (b_type b) RTCP_PSFB) as [E|]; [|reflexivity]. unfold is_remb_block. rewrite E.
    destruct (Z.eqb_spec (b_rc b) 1) as [->|]; [reflexivity|].
    destruct (Z.eqb_spec (b_rc b) 4) as [->|]; [reflexivity|].
    destruct (Z.eqb_spec (b_rc b) 5) as [->|]; [reflexivity|].
    now destruct (_ && _).
Qed.

Section Fix.
Variables (now : Z) (fixssrc : bool) (newssrcl newssrcr : Z).

Definition new_ssrc (s : side) : Z := match s with Lside => newssrcl | Rside => newssrcr end.
Definition fixes (s : side) : bool := fixssrc && negb (new_ssrc s =? 0).

Definition put_field (b : list Z) (f : Z * side) : list Z :=
  if fixes (snd f) then w32 b (fst f) (new_ssrc (snd f)) else b.

Definition fix_block (b : list Z) : list Z := fold_left put_field (overwritten b) b.

(** The context after a block. *)
Definition fix_ctx (b : list Z) (ctx : option rtcp_context) : option rtcp_context :=
  if b_type b =? RTCP_SR then janus_rtcp_incoming_sr now ctx (b32 b 8) (b32 b 12) else ctx.

Lemma zlen_put_field b f : zlen (put_field b f) = zlen b.
Proof. unfold put_field. case_if; now autorewrite with zlen. Qed.

Lemma rd_put_field b f i :
  0 <= fst f -> i < fst f \/ fst f + 4 <= i -> rd (put_field b f) i = rd b i.
Proof. intros. unfold put_field. case_if; [|reflexivity]. apply rd_w32_ne; lia. Qed.

Lemma set32_if_mid pre b post o s :
  0 <= o -> o + 4 <= zlen b ->
  set32_if (fixes s) (pre ++ b ++ post) (zlen pre + o) (new_ssrc s) =
    Ok (pre ++ put_field b (o, s) ++ post).
Proof.
  intros. unfold set32_if, put_field; cbn [fst snd]. case_if; [|reflexivity].
  now rewrite set32_mid by lia.
Qed.

Lemma b_rc_put_field b f : 4 <= fst f -> b_rc (put_field b f) = b_rc b.
Proof. intros. unfold b_rc. now rewrite rd_put_field by lia. Qed.

Lemma b_length_put_field b f : 4 <= fst f -> b_length (put_field b f) = b_length b.
Proof. intros. unfold b_length, b16. now rewrite !rd_put_field by lia. Qed.

(** The header fields of any block of four bytes or more. *)
Lemma rc_mid4 pre b post : 4 <= zlen b -> rc (pre ++ b ++ post) (zlen pre) = Ok (b_rc b).
Proof.
  intros. unfold rc. rewrite <- (Z.add_0_r (zlen pre)). now rewrite byte_mid by lia.
Qed.

Lemma length_mid4 pre b post :
  4 <= zlen b -> length_ (pre ++ b ++ post) (zlen pre) = Ok (b_length b).
Proof. intros. unfold length_. now rewrite be16_mid by lia. Qed.

Lemma set32_l pre b post o :
  0 <= o -> o + 4 <= zlen b ->
  set32_if (fixssrc && negb (newssrcl =? 0)) (pre ++ b ++ post) (zlen pre + o) newssrcl =
    Ok (pre ++ put_field b (o, Lside) ++ post).
Proof. exact (fun H1 H2 => set32_if_mid pre b post o Lside H1 H2). Qed.

Lemma set32_r pre b post o :
  0 <= o -> o + 4 <= zlen b ->
  set32_if (fixssrc && negb (newssrcr =? 0)) (pre ++ b ++ post) (zlen pre + o) newssrcr =
    Ok (pre ++ put_field b (o, Rside) ++ post).
Proof. exact (fun H1 H2 => set32_if_mid pre b post o Rside H1 H2). Qed.

Lemma set32_if_and c1 c2 p o v :
  set32_if (c1 && c2) p o v = if c2 then set32_if c1 p o v else Ok p.
Proof. unfold set32_if. destruct c1, c2; reflexivity. Qed.

(** One replacement after the other inside a block. *)
Ltac fix_steps :=
  repeat (cbn [bind];
    first [rewrite set32_l by (rewrite ?zlen_put_field; lia)
          |rewrite set32_r by (rewrite ?zlen_put_field; lia)]); cbn [bind].

Lemma fix_rtpfb_block pre b post :
  wf_block b -> b_type b = RTCP_RTPFB ->
  fix_rtpfb fixssrc newssrcl newssrcr (pre ++ b ++ post) (zlen pre) =
    Ok (pre ++ fix_block b ++ post).
Proof.
  intros H E. pose proof (nack_min b H E). pose proof (wfb_size b H).
  unfold fix_rtpfb, fix_block, overwritten. rewrite E. cbn [Z.eqb RTCP_RTPFB RTCP_SR RTCP_RR
    RTCP_SDES RTCP_BYE RTCP_APP RTCP_FIR Pos.eqb]. rewrite rc_mid by exact H. cbn [bind].
  destruct (b_rc b =? 1); [|destruct (b_rc b =? 3)]; cbn [app fold_left]; fix_steps;
    try reflexivity.
  rewrite length_mid4 by (rewrite zlen_put_field; lia). cbn [bind].
  rewrite b_length_put_field by (cbn; lia).
  rewrite read_nacks_mid by (rewrite ?zlen_put_field; lia). fix_steps. reflexivity.
Qed.

Lemma fix_psfb_block pre b post :
  wf_block b -> b_type b = RTCP_PSFB ->
  fix_psfb fixssrc newssrcl newssrcr (pre ++ b ++ post) (zlen pre) =
    Ok (pre ++ fix_block b ++ post).
Proof.
  intros H E. pose proof (psfb_min b H E) as Hm. pose proof (wfb_size b H).
  unfold fix_psfb, fix_block, overwritten. rewrite E. cbn [Z.eqb RTCP_RTPFB RTCP_SR RTCP_RR
    RTCP_SDES RTCP_BYE RTCP_APP RTCP_FIR RTCP_PSFB Pos.eqb]. rewrite rc_mid by exact H. cbn [bind].
  destruct (Z.eqb_spec (b_rc b) 1); [cbn [app fold_left]; fix_steps; reflexivity|].
  destruct (Z.eqb_spec (b_rc b) 4) as [E4|]; [rewrite E4 in Hm; cbn in Hm; cbn [app fold_left]; fix_steps; reflexivity|].
  destruct (Z.eqb_spec (b_rc b) 5) as [E5|]; [rewrite E5 in Hm; cbn in Hm; cbn [app fold_left]; fix_steps; reflexivity|].
  unfold is_remb_block. rewrite E.
  destruct (Z.eqb_spec (b_rc b) 15) as [E15|].
  - rewrite is_remb_mid by lia. cbn [bind]. cbn [Z.eqb RTCP_PSFB Pos.eqb andb].
    case_if; cbn [app fold_left]; fix_steps; [|reflexivity].
    rewrite byte_mid by (rewrite zlen_put_field; lia). cbn [bind].
    unfold remb_bitrate. rewrite <- !Z.add_assoc, !byte_mid by (rewrite zlen_put_field; lia).
    fix_steps. reflexivity.
  - cbn [bind]. rewrite andb_false_r. cbn [andb app fold_left].
    destruct (b_rc b =? 15) eqn:?; [lia|]. fix_steps. reflexivity.
Qed.

(** Settles the tests on a type known to be one of the constants. *)
Ltac known_type E :=
  unfold fix_ctx, fix_block, overwritten; rewrite ?E;
  cbn [Z.eqb Pos.eqb RTCP_SR RTCP_RR RTCP_SDES RTCP_BYE RTCP_APP RTCP_FIR RTCP_RTPFB RTCP_PSFB].

Lemma min_at b k : wf_block b -> k <= min_length b -> 4 * (k + 1) <= zlen b.
Proof. intros H Hk. pose proof (wfb_min b H). rewrite (wfb_size b H). lia. Qed.

Lemma fix_body_block pre b post ctx :
  wf_block b ->
  fix_body now fixssrc newssrcl newssrcr (pre ++ b ++ post) (zlen pre) ctx =
    Ok (pre ++ fix_block b ++ post, fix_ctx b ctx, None).
Proof.
  intros H. unfold fix_body. rewrite type_mid by exact H. cbn [bind].
  destruct (Z.eqb_spec (b_type b) RTCP_SR) as [E|N1].
  { pose proof (min_at b (if 0 <? b_rc b then 12 else 6) H) as Hm.
    unfold min_length in Hm. rewrite E in Hm. specialize (Hm (Z.le_refl _)).
    assert (Hc : (match ctx with
              | None => Ok None
              | Some _ => let! msw := be32 (pre ++ b ++ post) (zlen pre + 8) in
                  let! lsw := be32 (pre ++ b ++ post) (zlen pre + 12) in
                  Ok (janus_rtcp_incoming_sr now ctx msw lsw)
              end) = Ok (fix_ctx b ctx)).
    { unfold fix_ctx. rewrite E. destruct ctx; [|reflexivity].
      rewrite !be32_mid by (destruct (0 <? b_rc b); lia). reflexivity. }
    rewrite Hc. known_type E. destruct (0 <? b_rc b) eqn:En; fix_steps;
      rewrite rc_mid4 by (rewrite zlen_put_field; lia); cbn [bind];
      rewrite b_rc_put_field, En, set32_if_and by (cbn; lia); fix_steps; reflexivity. }
  destruct (Z.eqb_spec (b_type b) RTCP_RR) as [E|N2].
  { pose proof (min_at b (if 0 <? b_rc b then 7 else 1) H) as Hm.
    unfold min_length in Hm. rewrite E in Hm. specialize (Hm (Z.le_refl _)).
    known_type E. destruct (0 <? b_rc b) eqn:En; fix_steps;
      rewrite rc_mid4 by (rewrite zlen_put_field; lia); cbn [bind];
      rewrite b_rc_put_field, En, set32_if_and by (cbn; lia); fix_steps; reflexivity. }
  destruct (Z.eqb_spec (b_type b) RTCP_SDES) as [E|N3].
  { pose proof (min_at b 2 H) as Hm. unfold min_length in Hm. rewrite E in Hm.
    specialize (Hm (Z.le_refl _)). known_type E. cbn [fold_left]. fix_steps. reflexivity. }
  pose proof (wf_zlen b H) as H8.
  destruct (Z.eqb_spec (b_type b) RTCP_BYE) as [E|N4].
  { known_type E. cbn [fold_left]. fix_steps. reflexivity. }
  destruct (Z.eqb_spec (b_type b) RTCP_APP) as [E|N5].
  { known_type E. cbn [fold_left]. fix_steps. reflexivity. }
  destruct (Z.eqb_spec (b_type b) RTCP_FIR) as [E|N6].
  { pose proof (min_at b 3 H) as Hm. unfold min_length in Hm. rewrite E in Hm.
    specialize (Hm (Z.le_refl _)). known_type E.
    rewrite length_mid4 by lia. cbn [bind]. rewrite set32_if_and.
    destruct (20 <=? b_length b); cbn [app fold_left]; fix_steps; reflexivity. }
  destruct (Z.eqb_spec (b_type b) RTCP_RTPFB) as [E|N7].
  { rewrite fix_rtpfb_block by assumption. unfold fix_ctx. rewrite E. reflexivity. }
  destruct (Z.eqb_spec (b_type b) RTCP_PSFB) as [E|N8].
  { rewrite fix_psfb_block by assumption. unfold fix_ctx. rewrite E. reflexivity. }
  unfold fix_ctx, fix_block, overwritten.
  repeat match goal with N : b_type b <> ?k |- _ =>
    replace (b_type b =? k) with false by lia; clear N end.
  reflexivity.
Qed.

(** The offsets of a block's fields: distinct words behind the header. *)
Definition good_fields (n : Z) (fs : list (Z * side)) : Prop :=
  NoDup (map fst fs) /\ forall o s, In (o, s) fs -> 4 <= o /\ o mod 4 = 0 /\ o + 4 <= n.

Lemma put_fields_spec fs b :
  in_u32 newssrcl -> in_u32 newssrcr -> good_fields (zlen b) fs ->
  let b' := fold_left put_field fs b in
  zlen b' = zlen b /\
  (forall o s, In (o, s) fs -> b32 b' o = if fixes s then new_ssrc s else b32 b o) /\
  (forall i, (forall o s, In (o, s) fs -> i < o \/ o + 4 <= i) -> rd b' i = rd b i).
Proof.
  intros Hl Hr. revert b; induction fs as [|[o s] fs IH]; intros b [Hnd Hg]; cbn [fold_left].
  - repeat split; intros; auto. contradiction.
  - cbn [map fst] in Hnd. inversion Hnd as [|? ? Hni Hnd']; subst.
    pose proof (Hg o s (or_introl eq_refl)) as (H4 & Hmod & Hfit).
    destruct (IH (put_field b (o, s))) as (Hz & Hf & Ho).
    { split; [exact Hnd'|]. intros o' s' Hin. rewrite zlen_put_field. apply (Hg o' s'). now right. }
    rewrite zlen_put_field in Hz. split; [exact Hz|]. split.
    + intros o' s' [[= <- <-]|Hin].
      * assert (Hsame : b32 (fold_left put_field fs (put_field b (o, s))) o =
                        b32 (put_field b (o, s)) o).
        { unfold b32, b16. rewrite !Ho; [reflexivity|..];
            intros o' s' Hin; destruct (Hg o' s' (or_intror Hin)) as (_ & Hm' & _);
            assert (o' <> o) by (intros ->; apply Hni; apply (in_map fst) in Hin; exact Hin); dlia. }
        rewrite Hsame. unfold put_field; cbn [fst snd]. case_if; [|reflexivity].
        apply b32_w32_eq; [lia|lia|]. destruct s; assumption.
      * rewrite (Hf o' s' Hin). destruct (Hg o' s' (or_intror Hin)) as (H4' & Hm' & _).
        assert (o' <> o) by (intros ->; apply Hni; apply (in_map fst) in Hin; exact Hin).
        destruct (fixes s'); [reflexivity|]. unfold put_field; cbn [fst snd].
        case_if; [|reflexivity]. apply b32_w32_ne; [lia|]. dlia.
    + intros i Hi. rewrite Ho by (intros o' s' Hin; apply (Hi o' s'); now right).
      apply rd_put_field; cbn [fst]; [lia|]. apply (Hi o s). now left.
Qed.

(** Checks the concrete fields of a branch. *)
Ltac fields_ok :=
  cbn [Z.eqb Pos.eqb app] in *;
  split; [cbn [map fst]; repeat constructor; cbn; intuition discriminate
         |cbn [In app]; intros o s Hin; intuition;
          repeat match goal with H : (_, _) = (_, _) |- _ => injection H as <- <- end;
          first [lia | reflexivity]].

Lemma fields_good b : wf_block b -> good_fields (zlen b) (overwritten b).
Proof.
  intros H. pose proof (min_at b (min_length b) H (Z.le_refl _)) as Hm.
  pose proof (wf_zlen b H) as H8. pose proof (wfb_size b H).
  unfold overwritten, min_length in *.
  destruct (b_type b =? RTCP_SR); [destruct (0 <? b_rc b); fields_ok|].
  destruct (b_type b =? RTCP_RR); [destruct (0 <? b_rc b); fields_ok|].
  destruct (b_type b =? RTCP_SDES); [fields_ok|].
  destruct (b_type b =? RTCP_BYE); [fields_ok|].
  destruct (b_type b =? RTCP_APP); [fields_ok|].
  destruct (b_type b =? RTCP_FIR); [destruct (20 <=? b_length b); fields_ok|].
  destruct (b_type b =? RTCP_RTPFB).
  { destruct (b_rc b =? 1); [fields_ok|]. destruct (b_rc b =? 3); fields_ok. }
  destruct (Z.eqb_spec (b_type b) RTCP_PSFB); [|split; [constructor|contradiction]].
  destruct (b_rc b =? 1); [fields_ok|].
  destruct (Z.eqb_spec (b_rc b) 4) as [E4|]; [rewrite E4 in *; fields_ok|].
  destruct (Z.eqb_spec (b_rc b) 5) as [E5|]; [rewrite E5 in *; fields_ok|].
  destruct (is_remb_block b) eqn:E; [|fields_ok].
  pose proof (is_remb_block_min b H E). fields_ok.
Qed.

(** [b'] is [b] with the new sources in the words [fs]. *)
Definition replaced (fs : list (Z * side)) (b b' : list Z) : Prop :=
  zlen b' = zlen b /\
  (forall o s, In (o, s) fs -> b32 b' o = if fixes s then new_ssrc s else b32 b o) /\
  (forall i, (forall o s, In (o, s) fs -> i < o \/ o + 4 <= i) -> rd b' i = rd b i).

(** What the rewriting does to one block. *)
Definition fix_spec (b b' : list Z) : Prop :=
  if understood b then replaced (ssrc_fields b) b b' else replaced (mistaken_fields b) b b'.

Lemma fix_block_spec b :
  in_u32 newssrcl -> in_u32 newssrcr -> wf_block b -> replaced (overwritten b) b (fix_block b).
Proof. intros Hl Hr H. apply put_fields_spec; auto using fields_good. Qed.

Lemma fix_block_fields b :
  in_u32 newssrcl -> in_u32 newssrcr -> wf_block b -> fix_spec b (fix_block b).
Proof.
  intros Hl Hr H. pose proof (fix_block_spec b Hl Hr H) as S. rewrite overwritten_fields in S.
  unfold fix_spec. now destruct (understood b).
Qed.

Lemma fix_head b i : in_u32 newssrcl -> in_u32 newssrcr -> wf_block b -> i < 4 ->
  rd (fix_block b) i = rd b i.
Proof.
  intros Hl Hr H Hi. apply fix_block_spec; auto. intros o s Hin.
  destruct (fields_good b H) as [_ Hg]. specialize (Hg o s Hin). lia.
Qed.

Lemma bytes_fold fs b : bytes b -> bytes (fold_left put_field fs b).
Proof.
  revert b; induction fs as [|f fs IH]; intros b Hb; cbn; [assumption|]. apply IH.
  unfold put_field. case_if; [now apply bytes_w32|assumption].
Qed.

Lemma fix_block_wf b :
  in_u32 newssrcl -> in_u32 newssrcr -> wf_block b -> wf_block (fix_block b).
Proof.
  intros Hl Hr H. destruct (fix_block_spec b Hl Hr H) as (Hz & _ & _).
  pose proof (fun i => fix_head b i Hl Hr H) as Hh.
  assert (Ht : b_type (fix_block b) = b_type b) by (unfold b_type; apply Hh; lia).
  assert (Hn : b_rc (fix_block b) = b_rc b) by (unfold b_rc; rewrite Hh by lia; reflexivity).
  assert (Hlen : b_length (fix_block b) = b_length b)
    by (unfold b_length, b16; rewrite !Hh by lia; reflexivity).
  split.
  - apply bytes_fold, H.
  - rewrite Hz, Hlen. apply H.
  - unfold min_length. rewrite Ht, Hn, Hlen. apply (wfb_min b H).
Qed.

Lemma fold_map_ctx bs ctx o :
  fold_blocks (fun _ b c => (fix_block b, fix_ctx b c, @None unit)) o bs ctx =
    (map fix_block bs, fold_left (fun c b => fix_ctx b c) bs ctx, None).
Proof.
  revert o ctx; induction bs as [|b bs IH]; intros o ctx; [reflexivity|].
  cbn [fold_blocks map fold_left]. now rewrite IH.
Qed.

End Fix.

(** ** On the sample packet *)

Lemma cap_remb_compound_witness :
  exists bs',
    janus_rtcp_cap_remb (Some (concat sample)) (zlen (concat sample)) 300000 =
      Ok (0, Some (concat bs')) /\
    Forall2 (cap_spec 300000) sample bs' /\
    Forall (fun b' => is_remb_block b' = true -> b_rate b' <= 300000) bs'.
Proof. exact (cap_remb_compound sample 300000 sample_compound eq_refl). Defined.


(** An SDES keeps its source, at offset 4, and loses the start of its items. *)
Example sdes_source_is_missed :
  let sdes := [129; 202; 0; 3; 0; 0; 0; 1; 1; 3; 97; 98; 99; 0; 0; 0] in
  compound [sdes] /\ ssrc_fields sdes = [(4, Lside)] /\
  match janus_rtcp_fix_ssrc 9 true 55543 55555 None (Some sdes) 16 with
  | Ok (_, Some p, _) => b32 p 4 = 1 /\ b32 p 8 = 55543
  | _ => False
  end.
Proof. split; [apply compoundb_spec; reflexivity|]. split; [reflexivity|]. vm_compute. auto. Qed.
End JanusRewrite.
