(* ===== verification/JanusBuild.v ===== *)
(** * Building RTCP packets

    The builders of JanusRtcp against its readers: what a NACK, a REMB or a FIR
    packet says when it is read back, and how large it is. *)

From Stdlib Require Import Permutation Sorted.
From S2P Require Import Prelude Wire JanusRtcp JanusWalk JanusCompound JanusRewrite.
Import Wire JanusRtcp JanusWalk JanusCompound JanusRewrite.

Module JanusBuild.

(** ** The sequence numbers of a block *)

Lemma mask_test blp j :
  0 <= j -> negb (Z.shiftr (Z.land blp (Z.shiftl 1 j)) j =? 0) = Z.testbit blp j.
Proof.
  intros Hj. rewrite Z.shiftr_land, Z.shiftr_shiftl_l, Z.sub_diag, Z.shiftl_0_r by lia.
  change 1 with (2 ^ 1 - 1) at 1. rewrite land_ones_mod by lia. change (2 ^ 1) with 2.
  rewrite <- Z.bit0_mod, Z.shiftr_spec, Z.add_0_l by lia. now destruct (Z.testbit blp j).
Qed.

Definition bits16 : list Z := map Z.of_nat (seq 0 16).

Lemma nack_seqs_eq pid blp :
  nack_seqs pid blp = pid :: map (fun j => pid + j + 1) (filter (Z.testbit blp) bits16).
Proof.
  unfold nack_seqs. f_equal.
  assert (H : forall n i l, 0 <= i ->
    for_up i n (fun j l => if negb (Z.shiftr (Z.land blp (Z.shiftl 1 j)) j =? 0)
                           then l ++ [pid + j + 1] else l) l =
    l ++ map (fun j => pid + j + 1) (filter (Z.testbit blp) (map Z.of_nat (seq (Z.to_nat i) n)))).
  { induction n as [|n IH]; intros i l Hi; cbn [for_up seq map filter]; [now rewrite app_nil_r|].
    rewrite mask_test by lia. rewrite Z2Nat.id by lia. rewrite IH by lia.
    replace (Z.to_nat (i + 1)) with (S (Z.to_nat i)) by lia.
    destruct (Z.testbit blp i); cbn [map]; [now rewrite <- app_assoc|reflexivity]. }
  apply (H 16%nat 0 []). lia.
Qed.

Lemma in_bits16 j : In j bits16 <-> 0 <= j <= 15.
Proof.
  unfold bits16. rewrite in_map_iff. split.
  - intros (n & <- & Hn). apply in_seq in Hn. lia.
  - intros H. exists (Z.to_nat j). rewrite in_seq. lia.
Qed.

Lemma in_nack_seqs pid blp s :
  In s (nack_seqs pid blp) <->
  s = pid \/ (1 <= s - pid <= 16 /\ Z.testbit blp (s - pid - 1) = true).
Proof.
  rewrite nack_seqs_eq. cbn [In]. rewrite in_map_iff. split.
  - intros [->|(j & <- & Hj)]; [now left|right]. apply filter_In in Hj as [Hj Ht].
    apply in_bits16 in Hj. split; [lia|]. now replace (pid + j + 1 - pid - 1) with j by lia.
  - intros [->|[Hr Ht]]; [now left|right]. exists (s - pid - 1). split; [lia|].
    apply filter_In. split; [apply in_bits16; lia|assumption].
Qed.

Lemma StronglySorted_map_lt (f : Z -> Z) l :
  (forall a b, a < b -> f a < f b) -> StronglySorted Z.lt l -> StronglySorted Z.lt (map f l).
Proof.
  intros Hf. induction 1 as [|a l Hs IH HF]; cbn; constructor; [assumption|].
  apply Forall_map. eapply Forall_impl; [|exact HF]. intros; now apply Hf.
Qed.

Lemma StronglySorted_filter (c : Z -> bool) l :
  StronglySorted Z.lt l -> StronglySorted Z.lt (filter c l).
Proof.
  induction 1 as [|a l Hs IH HF]; cbn; [constructor|]. destruct (c a); [|assumption].
  constructor; [assumption|]. apply incl_Forall with (l1 := l); [|assumption].
  intros x Hx. now apply filter_In in Hx.
Qed.

Lemma nack_seqs_sorted pid blp : StronglySorted Z.lt (nack_seqs pid blp).
Proof.
  rewrite nack_seqs_eq. constructor.
  - apply StronglySorted_map_lt; [lia|]. apply StronglySorted_filter.
    unfold bits16. repeat constructor; lia.
  - apply Forall_map, Forall_forall. intros j Hj. apply filter_In in Hj as [Hj _].
    apply in_bits16 in Hj. lia.
Qed.

Lemma StronglySorted_app l1 l2 :
  StronglySorted Z.lt l1 -> StronglySorted Z.lt l2 ->
  (forall a b, In a l1 -> In b l2 -> a < b) -> StronglySorted Z.lt (l1 ++ l2).
Proof.
  induction 1 as [|a l Hs IH HF]; cbn; intros H2 H; [assumption|].
  constructor; [apply IH; auto|]. apply Forall_app. split; [assumption|].
  apply Forall_forall. intros b Hb. apply H; auto.
Qed.

(** ** Packing sorted numbers into blocks *)

(** The blocks for the sorted numbers [l], after the block under construction. *)
Fixpoint pack (pid blp : Z) (l : list Z) : list (Z * Z) :=
  match l with
  | [] => [(pid, blp)]
  | d :: l =>
      if d - pid <? 1 then pack pid blp l
      else if 16 <? d - pid then (pid, blp) :: pack d 0 l
      else pack pid (Z.lor blp (Z.shiftl 1 (d - pid - 1))) l
  end.

Definition unpack (bl : list (Z * Z)) : list Z := flat_map (fun '(pid, blp) => nack_seqs pid blp) bl.

Lemma testbit_lor_bit blp k j :
  0 <= k -> 0 <= j -> Z.testbit (Z.lor blp (Z.shiftl 1 k)) j = Z.testbit blp j || (j =? k).
Proof.
  intros. rewrite Z.lor_spec, shiftl_mul, Z.mul_1_l, Z.pow2_bits_eqb by lia.
  now rewrite (Z.eqb_sym k j).
Qed.

Lemma pack_spec l : forall pid blp,
  Sorted.StronglySorted Z.le (pid :: l) ->
  StronglySorted Z.lt (unpack (pack pid blp l)) /\
  (forall s, In s (unpack (pack pid blp l)) <-> In s (nack_seqs pid blp) \/ In s l) /\
  (forall s, In s (unpack (pack pid blp l)) -> pid <= s).
Proof.
  induction l as [|d l IH]; intros pid blp Hs; cbn [pack].
  - unfold unpack. cbn [flat_map]. rewrite app_nil_r. split; [apply nack_seqs_sorted|].
    split; [cbn [In]; tauto|]. intros s H. apply in_nack_seqs in H. lia.
  - inversion Hs as [|? ? Hs' HF]; subst. inversion HF as [|? ? Hd HF']; subst.
    assert (Hpl : StronglySorted Z.le (pid :: l)).
    { inversion Hs'; subst. constructor; assumption. }
    destruct (Z.ltb_spec (d - pid) 1).
    + assert (d = pid) by lia. subst d. destruct (IH pid blp Hpl) as (H1 & H2 & H3).
      split; [exact H1|]. split; [|exact H3]. intros s. rewrite H2. cbn [In].
      split; [tauto|]. intros [|[->|]]; auto. left. apply in_nack_seqs. now left.
    + destruct (Z.ltb_spec 16 (d - pid)).
      * destruct (IH d 0 Hs') as (H1 & H2 & H3). unfold unpack in *. cbn [flat_map].
        split; [|split].
        -- apply StronglySorted_app; [apply nack_seqs_sorted|exact H1|].
           intros a b Ha Hb. apply in_nack_seqs in Ha. specialize (H3 b Hb). lia.
        -- intros s. rewrite in_app_iff, H2. cbn [In]. rewrite (in_nack_seqs d 0), Z.bits_0.
           split; [intros [|[[->|[_ ?]]|]]; auto; discriminate|].
           intros [|[->|]]; auto.
        -- intros s Hin. apply in_app_iff in Hin as [Hin|Hin].
           ++ apply in_nack_seqs in Hin. lia.
           ++ specialize (H3 s Hin). lia.
      * destruct (IH pid (Z.lor blp (Z.shiftl 1 (d - pid - 1))) Hpl) as (H1 & H2 & H3).
        split; [exact H1|]. split; [|exact H3]. intros s. rewrite H2. cbn [In].
        rewrite !in_nack_seqs. split.
        -- intros [[->|[Hr Ht]]|]; auto. rewrite testbit_lor_bit in Ht by lia.
           apply orb_true_iff in Ht as [Ht|Ht]; [auto|]. right. left. lia.
        -- intros [[->|[Hr Ht]]|[<-|]]; auto.
           ++ left. right. split; [exact Hr|]. rewrite testbit_lor_bit, Ht by lia. reflexivity.
           ++ left. right. split; [lia|]. rewrite testbit_lor_bit, Z.eqb_refl by lia. apply orb_true_r.
Qed.

Lemma pack_length pid blp l : (1 <= length (pack pid blp l) <= S (length l))%nat.
Proof.
  revert pid blp; induction l as [|d l IH]; intros pid blp; cbn [pack length]; [lia|].
  case_if; [specialize (IH pid blp); lia|]. case_if; cbn [length].
  - specialize (IH d 0). lia.
  - specialize (IH pid (Z.lor blp (Z.shiftl 1 (d - pid - 1)))). lia.
Qed.

(** ** The bytes of the blocks *)

Fixpoint blocks_at (p : list Z) (o : Z) (bl : list (Z * Z)) : Prop :=
  match bl with
  | [] => True
  | (pid, blp) :: bl => b16 p o = pid /\ b16 p (o + 2) = blp /\ blocks_at p (o + 4) bl
  end.

Lemma blocks_at_seqs p o bl :
  blocks_at p o bl -> block_seqs (length bl) p o = unpack bl.
Proof.
  revert o; induction bl as [|[pid blp] bl IH]; intros o; cbn [blocks_at block_seqs length].
  - reflexivity.
  - intros (H1 & H2 & H3). unfold unpack. cbn [flat_map]. now rewrite H1, H2, IH.
Qed.

Lemma blocks_at_ext p q o bl :
  (forall i, o <= i < o + 4 * zlen bl -> rd p i = rd q i) -> blocks_at p o bl -> blocks_at q o bl.
Proof.
  revert o; induction bl as [|[pid blp] bl IH]; intros o H; cbn [blocks_at]; [auto|].
  rewrite zlen_cons in H. pose proof (zlen_nonneg bl).
  intros (H1 & H2 & H3). unfold b16 in *. rewrite <- !H by lia.
  split; [assumption|]. split; [assumption|]. apply IH; [intros; apply H; lia|assumption].
Qed.

(** The state of the loop: the current block is written, the rest of the
    buffer is still clear. *)
Record nack_state (p : list Z) (len words pid blp : Z) : Prop := {
  ns_words : 3 <= words;
  ns_len : words * 4 + 4 <= len <= zlen p;
  ns_pid : b16 p (words * 4) = pid;
  ns_blp : b16 p (words * 4 + 2) = blp;
  ns_clear : forall i, words * 4 + 4 <= i < len -> rd p i = 0
}.

Lemma put_nacks_spec l : forall p len words pid blp,
  nack_state p len words pid blp -> StronglySorted Z.le (pid :: l) ->
  Forall in_u16 (pid :: l) -> in_u16 blp ->
  let bl := pack pid blp l in
  let last := words + zlen bl - 1 in
  exists p', zlen p' = zlen p /\ (bytes p -> bytes p') /\
    (forall i, i < words * 4 -> rd p' i = rd p i) /\
    if last * 4 + 4 <=? len then
      put_nacks p len (words * 4) pid words l = Ok (p', Some last) /\ blocks_at p' (words * 4) bl
    else put_nacks p len (words * 4) pid words l = Ok (p', None).
Proof.
  induction l as [|d l IH]; intros p len words pid blp Hn Hs Hu Hb; cbn [pack put_nacks].
  - exists p. destruct Hn. change (zlen [(pid, blp)]) with 1.
    replace (words + 1 - 1) with words by lia. replace (words * 4 + 4 <=? len) with true by lia.
    repeat (split; [auto|]). cbn [blocks_at]. auto.
  - inversion Hs as [|? ? Hs' HF]; subst. inversion HF as [|? ? Hd HF']; subst.
    inversion Hu as [|? ? Hpid Hu']; subst. inversion Hu' as [|? ? Hdu Hu'']; subst.
    rewrite (u16_id d) by exact Hdu.
    assert (Hpl : StronglySorted Z.le (pid :: l)) by (inversion Hs'; subst; constructor; assumption).
    assert (Hpu : Forall in_u16 (pid :: l)) by (constructor; assumption).
    destruct (Z.ltb_spec (d - pid) 1) as [|Hne]; [exact (IH _ _ _ _ _ Hn Hpl Hpu Hb)|].
    destruct (Z.ltb_spec 16 (d - pid)) as [Hfar|Hnear].
    + assert (H0 : in_u16 0) by (int_unfold; lia).
      pose proof (pack_length d 0 l) as Hlen. rewrite zlen_cons.
      assert (Hz : 1 <= zlen (pack d 0 l)) by (unfold zlen; lia).
      destruct (Z.ltb_spec len ((words + 1) * 4 + 4)) as [Hshort|Hroom].
      { exists p. repeat (split; [auto|]). now replace (_ <=? len) with false by lia. }
      assert (Hn' : nack_state (w16 p ((words + 1) * 4) d) len (words + 1) d 0).
      { destruct Hn. split; rewrite ?zlen_w16; try lia.
        - rewrite b16_w16_eq; auto; lia.
        - rewrite b16_w16_ne by lia. unfold b16. rewrite !ns_clear0 by lia. reflexivity.
        - intros i Hi. rewrite rd_w16_ne by lia. apply ns_clear0. lia. }
      destruct (IH _ _ _ _ _ Hn' Hs' Hu' H0) as (p' & Hz' & Hbp & Hrd & Hres).
      rewrite zlen_w16 in Hz'. destruct Hn. rewrite set16_ok by lia. cbn [bind].
      exists p'. split; [exact Hz'|]. split; [intros; now apply Hbp, bytes_w16|].
      split. { intros i Hi. rewrite Hrd by lia. apply rd_w16_ne; lia. }
      replace (words + (1 + zlen (pack d 0 l)) - 1) with (words + 1 + zlen (pack d 0 l) - 1) by lia.
      destruct (_ <=? len); [|exact Hres]. destruct Hres as [E Hbl]. split; [exact E|].
      cbn [blocks_at]. replace (words * 4 + 4) with ((words + 1) * 4) by lia.
      unfold b16 in *. rewrite !Hrd, !rd_w16_ne by lia. auto.
    + assert (Hb' : in_u16 (Z.lor blp (Z.shiftl 1 (d - pid - 1)))) 
        by (change in_u16 with (fun x => 0 <= x < 2 ^ 16) in *; apply lor_lt_pow2; [lia|assumption|];
            rewrite shiftl_mul, Z.mul_1_l by lia; split; [apply Z.pow_nonneg; lia|];
            apply Z.pow_lt_mono_r; lia).
      set (blp' := Z.lor blp _) in *.
      assert (Hn' : nack_state (w16 p (words * 4 + 2) blp') len words pid blp').
      { destruct Hn. split; rewrite ?zlen_w16; try lia.
        - rewrite b16_w16_ne by lia. assumption.
        - rewrite b16_w16_eq; auto; lia.
        - intros i Hi. rewrite rd_w16_ne by lia. apply ns_clear0. lia. }
      destruct (IH _ _ _ _ _ Hn' Hpl Hpu Hb') as (p' & Hz' & Hbp & Hrd & Hres).
      rewrite zlen_w16 in Hz'. destruct Hn. rewrite be16_ok by lia. cbn [bind].
      rewrite ns_blp0. fold blp'. rewrite set16_ok by lia. cbn [bind].
      exists p'. split; [exact Hz'|]. split; [intros; now apply Hbp, bytes_w16|].
      split; [|exact Hres]. intros i Hi. rewrite Hrd by lia. apply rd_w16_ne; lia.
Qed.

(** ** Clearing and the header *)

Lemma memset0_ok p n : 0 <= n <= zlen p -> memset0 p n = Ok (blit p 0 (zeros n)).
Proof. intros. unfold memset0. now replace (n <=? zlen p) with true by lia. Qed.

Lemma rd_memset0 p n i :
  0 <= n <= zlen p -> rd (blit p 0 (zeros n)) i = if (0 <=? i) && (i <? n) then 0 else rd p i.
Proof.
  intros. rewrite rd_blit by (rewrite ?zlen_zeros; lia). rewrite zlen_zeros, Z.add_0_l by lia.
  destruct (_ && _); [|reflexivity]. unfold zeros, rd.
  destruct (_ <? 0); [reflexivity|]. apply nth_repeat.
Qed.

Lemma bytes_memset0 p n : bytes p -> bytes (blit p 0 (zeros n)).
Proof.
  intros H. unfold zeros. generalize 0 at 1 as o. revert p H.
  induction (Z.to_nat n) as [|k IH]; intros p H o; cbn [repeat blit]; [assumption|].
  apply IH. apply Forall_wr; [int_unfold; lia|assumption].
Qed.

(** The first byte of the header after the version and the count are set. *)
Definition head_check (b n : Z) : bool :=
  let b2 := u8 (Z.lor (Z.land (u8 (Z.lor (Z.land b 63) (Z.shiftl 2 6))) 224) n) in
  (Z.shiftr b2 6 =? 2) && (Z.land b2 31 =? n).

Lemma head_byte b n :
  in_u8 b -> 0 <= n < 32 ->
  let b2 := u8 (Z.lor (Z.land (u8 (Z.lor (Z.land b 63) (Z.shiftl 2 6))) 224) n) in
  Z.shiftr b2 6 = 2 /\ Z.land b2 31 = n.
Proof.
  intros Hb Hn. cbv zeta.
  pose proof (below_forallb
    (fun b => forallb (head_check b) (map Z.of_nat (seq 0 (Z.to_nat 32)))) 256 b
    ltac:(vm_compute; reflexivity) Hb) as H. cbv beta in H.
  apply (below_forallb (head_check b) 32 n H) in Hn. unfold head_check in Hn. cbv zeta in Hn.
  apply andb_true_iff in Hn as [H1 H2]. lia.
Qed.

(** The version, type and count setters on a packet of bytes. *)
Definition put_head (p : list Z) (type n : Z) : res (list Z) :=
  let! p := set_version p 0 2 in
  let! p := set_type p 0 type in
  set_rc p 0 n.

Lemma put_head_spec p type n :
  4 <= zlen p -> bytes p -> in_u8 type -> 0 <= n < 32 ->
  exists p', put_head p type n = Ok p' /\ zlen p' = zlen p /\ bytes p' /\
    Z.shiftr (rd p' 0) 6 = 2 /\ b_rc p' = n /\ b_type p' = type /\
    (forall i, 2 <= i -> rd p' i = rd p i).
Proof.
  intros Hl Hb Ht Hn. unfold put_head, set_version, set_type, set_rc.
  rewrite byte_ok by lia. cbn [bind]. rewrite set8_ok by lia. cbn [bind].
  change (0 + 1) with 1. rewrite set8_ok by (autorewrite with zlen; lia). cbn [bind].
  rewrite byte_ok by (autorewrite with zlen; lia). cbn [bind].
  rewrite rd_wr_ne, rd_wr_eq by lia. rewrite set8_ok by (autorewrite with zlen; lia).
  destruct (head_byte (rd p 0) n (bytes_rd p 0 Hb) Hn) as [H1 H2].
  eexists. split; [reflexivity|]. split; [now autorewrite with zlen|].
  split; [repeat apply bytes_wr; assumption|].
  split; [rewrite rd_wr_eq by (autorewrite with zlen; lia); exact H1|].
  split; [unfold b_rc; rewrite rd_wr_eq by (autorewrite with zlen; lia); exact H2|].
  split.
  - unfold b_type. rewrite rd_wr_ne, rd_wr_eq by (autorewrite with zlen; lia). now apply u8_id.
  - intros i Hi. rewrite !rd_wr_ne by lia. reflexivity.
Qed.

Lemma put_header_spec p type n length :
  4 <= zlen p -> bytes p -> in_u8 type -> 0 <= n < 32 -> in_u16 length ->
  exists p', put_header p type n length = Ok p' /\ zlen p' = zlen p /\ bytes p' /\
    Z.shiftr (rd p' 0) 6 = 2 /\ b_rc p' = n /\ b_type p' = type /\ b_length p' = length /\
    (forall i, 4 <= i -> rd p' i = rd p i).
Proof.
  intros Hl Hb Ht Hn Hlen.
  destruct (put_head_spec p type n Hl Hb Ht Hn) as (p' & E & Hz & Hb' & H1 & H2 & H3 & H4).
  exists (w16 p' 2 length).
  assert (E' : put_header p type n length = bind (put_head p type n) (fun p => set_length p 0 length)).
  { unfold put_header, put_head. destruct (set_version p 0 2) as [q| |]; cbn [bind]; try reflexivity.
    destruct (set_type q 0 type) as [q'| |]; reflexivity. }
  rewrite E', E. cbn [bind]. unfold set_length. change (0 + 2) with 2. rewrite set16_ok by lia.
  split; [reflexivity|]. rewrite zlen_w16. split; [exact Hz|]. split; [now apply bytes_w16|].
  unfold b_rc, b_type, b_length in *. rewrite !rd_w16_ne by lia.
  repeat (split; [assumption|]). split; [apply b16_w16_eq; auto; lia|].
  intros i Hi. rewrite rd_w16_ne by lia. apply H4. lia.
Qed.

Lemma head_fold {A} q t n (k : list Z -> res A) :
  (let! p := set_version q 0 2 in let! p := set_type p 0 t in let! p := set_rc p 0 n in k p) =
  (let! p := put_head q t n in k p).
Proof.
  unfold put_head. destruct (set_version q 0 2) as [p| |]; cbn [bind]; try reflexivity.
  destruct (set_type p 0 t) as [p'| |]; reflexivity.
Qed.

Lemma compound_one b :
  wf_block b -> Z.shiftr (rd b 0) 6 = 2 -> compound [b].
Proof.
  intros H Hv. split; [now constructor|]. exists b, []. auto.
Qed.

(** ** NACK packets *)

(** A sort with the documented behaviour, for the concrete runs. *)
Fixpoint insert_by (cmp : Z -> Z -> Z) (a : Z) (l : list Z) : list Z :=
  match l with
  | [] => [a]
  | b :: l => if cmp a b <=? 0 then a :: b :: l else b :: insert_by cmp a l
  end.

Definition isort (cmp : Z -> Z -> Z) (l : list Z) : list Z := fold_right (insert_by cmp) [] l.

Lemma insert_by_perm cmp a l : Permutation (a :: l) (insert_by cmp a l).
Proof.
  induction l as [|b l IH]; cbn; [reflexivity|]. case_if; [reflexivity|].
  rewrite perm_swap. now constructor.
Qed.

Lemma isort_perm cmp l : Permutation l (isort cmp l).
Proof. induction l as [|a l IH]; cbn; [reflexivity|]. rewrite <- insert_by_perm. now constructor. Qed.

Lemma isort_sorted cmp l :
  (forall a b, cmp a b <= 0 \/ cmp b a <= 0) ->
  (forall a b c, cmp a b <= 0 -> cmp b c <= 0 -> cmp a c <= 0) ->
  StronglySorted (fun a b => cmp a b <= 0) (isort cmp l).
Proof.
  intros Ht Htr. induction l as [|a l IH]; [constructor|].
  change (isort cmp (a :: l)) with (insert_by cmp a (isort cmp l)).
  revert IH. generalize (isort cmp l). clear l. induction l as [|b l IHl]; intros HS; cbn; [repeat constructor|].
  inversion HS as [|? ? HS' HF]; subst. destruct (Z.leb_spec (cmp a b) 0) as [Hab|Hab].
  - constructor; [assumption|]. constructor; [exact Hab|]. eapply Forall_impl; [|exact HF].
    intros c Hc. now apply Htr with b.
  - constructor; [now apply IHl|]. rewrite <- insert_by_perm. constructor; [|exact HF].
    destruct (Ht a b); [lia|assumption].
Qed.

Section Nacks.
Variable g_slist_sort : (Z -> Z -> Z) -> list Z -> list Z.
(** glib documents a permutation, sorted for the comparison function. *)
Hypothesis sort_perm : forall cmp l, Permutation l (g_slist_sort cmp l).
Hypothesis sort_sorted : forall cmp l,
  (forall a b, cmp a b <= 0 \/ cmp b a <= 0) ->
  (forall a b c, cmp a b <= 0 -> cmp b c <= 0 -> cmp a c <= 0) ->
  StronglySorted (fun a b => cmp a b <= 0) (g_slist_sort cmp l).

Lemma sort_asc_le a b : sort_asc a b <= 0 <-> s32 a <= s32 b.
Proof. unfold sort_asc. repeat case_if; lia. Qed.

Lemma sort_asc_sorted l :
  Forall in_u16 l -> StronglySorted Z.le (g_slist_sort sort_asc l).
Proof.
  intros HF. assert (HF' : Forall in_u16 (g_slist_sort sort_asc l))
    by (rewrite <- sort_perm; exact HF).
  pose proof (sort_sorted sort_asc l) as Hs.
  assert (H : StronglySorted (fun a b => sort_asc a b <= 0) (g_slist_sort sort_asc l)).
  { apply Hs; intros; rewrite ?sort_asc_le in *; lia. }
  clear Hs. induction H as [|a l' H IH Ha]; [constructor|].
  inversion HF' as [|? ? Hu HF'']; subst. constructor; [now apply IH|].
  rewrite Forall_forall in *. intros b Hb. specialize (Ha b Hb). specialize (HF'' b Hb).
  rewrite sort_asc_le, !s32_id in Ha by (int_unfold; lia). exact Ha.
Qed.

(** The blocks a NACK for [l] needs. *)
Definition nack_blocks (l : list Z) : list (Z * Z) :=
  match g_slist_sort sort_asc l with
  | [] => []
  | d :: l => pack d 0 l
  end.

(** The header and the blocks, read back. *)
Lemma get_nacks_of_blocks p words bl :
  bytes p -> 3 <= words < 16384 -> words * 4 + 4 <= zlen p ->
  zlen bl = words - 2 -> blocks_at p 12 bl ->
  Z.shiftr (rd p 0) 6 = 2 -> b_rc p = 1 -> b_type p = RTCP_RTPFB -> b_length p = words ->
  janus_rtcp_get_nacks (Some (slice p 0 (words * 4 + 4))) (words * 4 + 4) = Ok (unpack bl).
Proof.
  intros Hb Hw Hz Hbl Hat Hv Hrc Ht Hl. set (b := slice p 0 (words * 4 + 4)).
  assert (Hzb : zlen b = words * 4 + 4) by (apply zlen_slice; lia).
  assert (Hrd : forall i, 0 <= i < words * 4 + 4 -> rd b i = rd p i)
    by (intros; unfold b; rewrite rd_slice by lia; f_equal; lia).
  assert (Hbt : b_type b = RTCP_RTPFB) by (unfold b_type in *; rewrite Hrd by lia; exact Ht).
  assert (Hbrc : b_rc b = 1) by (unfold b_rc in *; rewrite Hrd by lia; exact Hrc).
  assert (Hbl' : b_length b = words) by (unfold b_length, b16 in *; rewrite !Hrd by lia; exact Hl).
  assert (Hwf : wf_block b).
  { split; [apply bytes_slice, Hb|lia|]. unfold min_length. rewrite Hbt. cbn. lia. }
  assert (Hc : compound [b]) by (apply compound_one; [exact Hwf|rewrite Hrd by lia; exact Hv]).
  pose proof (get_nacks_compound [b] Hc) as E. cbn [concat flat_map] in E.
  rewrite !app_nil_r, Hzb in E. rewrite E. f_equal. unfold b_nacks, is_nack.
  rewrite Hbt, Hbrc, Hbl'. cbn [Z.eqb RTCP_RTPFB Pos.eqb andb].
  replace (Z.to_nat (words - 2)) with (length bl) by (unfold zlen in Hbl; lia).
  apply blocks_at_seqs. eapply blocks_at_ext; [|exact Hat].
  intros i Hi. symmetry. apply Hrd. lia.
Qed.

Lemma nacks_spec p len l :
  l <> [] -> Forall in_u16 l -> bytes p -> 16 <= len <= zlen p -> len < 65536 ->
  let n := zlen (nack_blocks l) in
  1 <= n <= zlen l /\
  exists p', zlen p' = zlen p /\
    if 12 + 4 * n <=? len then
      janus_rtcp_nacks g_slist_sort (Some p) len l = Ok (12 + 4 * n, Some p') /\
      exists l', janus_rtcp_get_nacks (Some (slice p' 0 (12 + 4 * n))) (12 + 4 * n) = Ok l' /\
        StronglySorted Z.lt l' /\ (forall s, In s l' <-> In s l)
    else janus_rtcp_nacks g_slist_sort (Some p) len l = Ok (-1, Some p').
Proof.
  intros Hne Hu Hb Hlen Hmax. cbv zeta.
  assert (HuS : Forall in_u16 (g_slist_sort sort_asc l)) by (rewrite <- sort_perm; exact Hu).
  pose proof (sort_asc_sorted l Hu) as Hsort. pose proof (sort_perm sort_asc l) as Hperm.
  unfold nack_blocks, janus_rtcp_nacks.
  replace (len <? 16) with false by lia.
  destruct l as [|x l0]; [congruence|]. cbn [orb].
  destruct (g_slist_sort sort_asc (x :: l0)) as [|d ds] eqn:Es.
  { apply Permutation_sym, Permutation_nil in Hperm. discriminate. }
  pose proof (pack_length d 0 ds) as Hpl. apply Permutation_length in Hperm as Hcnt.
  assert (Hn : 1 <= zlen (pack d 0 ds) <= zlen (x :: l0)) by (unfold zlen; cbn [length] in *; lia).
  split; [exact Hn|]. inversion HuS as [|? ? Hd HuS']; subst.
  rewrite memset0_ok by lia. cbn [bind]. rewrite head_fold.
  destruct (put_head_spec (blit p 0 (zeros len)) RTCP_RTPFB 1) as
    (p1 & E1 & Hz1 & Hb1 & Hv1 & Hrc1 & Ht1 & Hrd1);
    [autorewrite with zlen; lia|now apply bytes_memset0|vm_compute; split; congruence|lia|].
  rewrite E1. cbn [bind]. rewrite (u16_id d) by exact Hd. rewrite zlen_blit in Hz1.
  rewrite set16_ok by lia. cbn [bind]. set (p2 := w16 p1 12 d).
  assert (Hst : nack_state p2 len 3 d 0).
  { unfold p2. split; rewrite ?zlen_w16; try lia.
    - apply b16_w16_eq; auto; lia.
    - change (3 * 4 + 2) with 14. rewrite b16_w16_ne by lia.
      unfold b16. rewrite !Hrd1, !rd_memset0 by lia. ifs_lia.
    - intros i Hi. rewrite rd_w16_ne, Hrd1, rd_memset0 by lia. ifs_lia. }
  destruct (put_nacks_spec ds p2 len 3 d 0 Hst Hsort HuS ltac:(int_unfold; lia))
    as (p3 & Hz3 & Hb3 & Hrd3 & Hres). cbv zeta in Hres.
  assert (Hz2 : zlen p2 = zlen p) by (unfold p2; rewrite zlen_w16; exact Hz1).
  assert (Hb2 : bytes p2) by now apply bytes_w16.
  replace ((3 + zlen (pack d 0 ds) - 1) * 4 + 4) with (12 + 4 * zlen (pack d 0 ds)) in Hres by lia.
  change (3 * 4) with 12 in Hres.
  destruct (12 + 4 * zlen (pack d 0 ds) <=? len) eqn:Efit; [|rewrite Hres; exists p3; split; [lia|reflexivity]].
  destruct Hres as [E Hat]. rewrite E. cbn [bind]. unfold set_length. change (0 + 2) with 2.
  set (words := 3 + zlen (pack d 0 ds) - 1) in *. rewrite set16_ok by lia. cbn [bind].
  exists (w16 p3 2 words). rewrite zlen_w16. split; [lia|]. replace (12 + 4 * zlen (pack d 0 ds)) with (words * 4 + 4) by lia.
  split; [reflexivity|].
  destruct (pack_spec ds d 0 Hsort) as (Hp1 & Hp2 & _).
  exists (unpack (pack d 0 ds)). split; [|split; [exact Hp1|]].
  - assert (Hh : forall i, i < 12 -> rd p3 i = rd p1 i).
    { intros i Hi. rewrite Hrd3 by lia. unfold p2. apply rd_w16_ne; lia. }
    apply get_nacks_of_blocks; rewrite ?zlen_w16; try lia.
    + now apply bytes_w16, Hb3.
    + eapply blocks_at_ext; [|exact Hat]. intros i Hi. rewrite rd_w16_ne by lia. reflexivity.
    + rewrite rd_w16_ne, Hh by lia. exact Hv1.
    + unfold b_rc in *. rewrite rd_w16_ne, Hh by lia. exact Hrc1.
    + unfold b_type in *. rewrite rd_w16_ne, Hh by lia. exact Ht1.
    + unfold b_length. apply b16_w16_eq; [lia|lia|int_unfold; lia].
  - intros s. rewrite Hp2, in_nack_seqs, Z.bits_0.
    assert (Hin : In s (d :: ds) <-> In s (x :: l0))
      by (split; apply Permutation_in; [apply Permutation_sym|]; exact Hperm).
    rewrite <- Hin. cbn [In]. split.
    + intros [[->|[_ E0]]|]; auto; discriminate.
    + intros [->|]; auto.
Qed.

(** C16. A NACK built for a non-empty list of sequence numbers, in any order and
    with repetitions, fits in the buffer or is refused with -1; when it
    fits, the packet is as long as the returned value says, and reading it
    back gives exactly the requested numbers, each once, in order. *)
Theorem nacks_roundtrip p len l :
  l <> [] -> Forall in_u16 l -> bytes p -> 16 <= len <= zlen p -> len < 65536 ->
  let n := zlen (nack_blocks l) in
  1 <= n <= zlen l /\
  exists p',
    if 12 + 4 * n <=? len then
      janus_rtcp_nacks g_slist_sort (Some p) len l = Ok (12 + 4 * n, Some p') /\
      exists l', janus_rtcp_get_nacks (Some (slice p' 0 (12 + 4 * n))) (12 + 4 * n) = Ok l' /\
        StronglySorted Z.lt l' /\ (forall s, In s l' <-> In s l)
    else janus_rtcp_nacks g_slist_sort (Some p) len l = Ok (-1, Some p').
Proof.
  intros Hne Hu Hb Hlen Hmax n. destruct (nacks_spec p len l Hne Hu Hb Hlen Hmax) as [Hn (p' & _ & H)].
  split; [exact Hn|]. exists p'. exact H.
Qed.
End Nacks.

(** ** REMB, FIR, PLI and BYE packets *)

(** A packet whose header was put and whose front is cut out is one block. *)
Lemma one_block p type n words :
  bytes p -> 0 <= words -> words * 4 + 4 <= zlen p ->
  Z.shiftr (rd p 0) 6 = 2 -> b_rc p = n -> b_type p = type -> b_length p = words ->
  let b := slice p 0 (words * 4 + 4) in
  min_length b <= words ->
  compound [b] /\ zlen (concat [b]) = words * 4 + 4 /\ concat [b] = b /\
  b_rc b = n /\ b_type b = type /\
  (forall i, 0 <= i < words * 4 + 4 -> rd b i = rd p i).
Proof.
  intros Hb Hw Hz Hv Hrc Ht Hl b Hmin.
  assert (Hzb : zlen b = words * 4 + 4) by (apply zlen_slice; lia).
  assert (Hrd : forall i, 0 <= i < words * 4 + 4 -> rd b i = rd p i)
    by (intros; unfold b; rewrite rd_slice by lia; f_equal; lia).
  assert (Hl' : b_length b = words) by (unfold b_length, b16 in *; rewrite !Hrd by lia; exact Hl).
  cbn [concat]. rewrite app_nil_r. split; [|split; [exact Hzb|split; [reflexivity|]]].
  - apply compound_one; [|rewrite Hrd by lia; exact Hv].
    split; [apply bytes_slice, Hb|lia|lia].
  - unfold b_rc, b_type in *. rewrite !Hrd by lia. auto.
Qed.

Lemma put_bytes4 p o a b c d :
  0 <= o -> o + 4 <= zlen p ->
  put_bytes p o [a; b; c; d] =
    Ok (wr (wr (wr (wr p o (u8 a)) (o + 1) (u8 b)) (o + 1 + 1) (u8 c)) (o + 1 + 1 + 1) (u8 d)).
Proof.
  intros. cbn [put_bytes]. repeat (rewrite set8_ok by (autorewrite with zlen; lia); cbn [bind]).
  reflexivity.
Qed.

(** [put_bitrate] at the place of a REMB block in a larger buffer. *)
Lemma put_bitrate_at p bitrate :
  24 <= zlen p -> 0 <= bitrate <= max_rate ->
  put_bitrate p 12 bitrate = Ok (put_rate p bitrate).
Proof.
  intros. pose proof (put_bitrate_mid [] p [] bitrate ltac:(lia) ltac:(lia)) as E.
  cbn [app] in E. rewrite !app_nil_r in E. exact E.
Qed.

Lemma nacks_roundtrip_witness :
  let l := [17; 3; 40; 4] in let p := zeros 64 in
  let n := zlen (nack_blocks isort l) in
  1 <= n <= zlen l /\
  exists p',
    if 12 + 4 * n <=? 64 then
      janus_rtcp_nacks isort (Some p) 64 l = Ok (12 + 4 * n, Some p') /\
      exists l', janus_rtcp_get_nacks (Some (slice p' 0 (12 + 4 * n))) (12 + 4 * n) = Ok l' /\
        StronglySorted Z.lt l' /\ (forall s, In s l' <-> In s l)
    else janus_rtcp_nacks isort (Some p) 64 l = Ok (-1, Some p').
Proof.
  apply (nacks_roundtrip isort isort_perm isort_sorted (zeros 64) 64 [17; 3; 40; 4]).
  - discriminate.
  - repeat constructor; int_unfold; lia.
  - apply bytes_forallb. reflexivity.
  - vm_compute. split; discriminate.
  - reflexivity.
Defined.

(** What the REMB builder makes: a single well-formed block with the rate in
    its exponent and mantissa. *)
Lemma remb_built p bitrate :
  bytes p -> 24 <= zlen p -> 0 <= bitrate <= max_rate ->
  exists p', let b := slice p' 0 24 in
    janus_rtcp_remb (Some p) 24 bitrate = Ok (24, Some p') /\ zlen p' = zlen p /\ bytes p' /\
    compound [b] /\ zlen (concat [b]) = 24 /\ concat [b] = b /\ is_remb_block b = true /\
    rate_mantissa b = bitrate / 2 ^ rate_exp b /\ 0 <= rate_exp b <= 46 /\
    bitrate <= 0x3FFFF * 2 ^ rate_exp b /\
    (0 < rate_exp b -> 0x3FFFF * 2 ^ (rate_exp b - 1) < bitrate).
Proof.
  intros Hb Hz Hr'. unfold janus_rtcp_remb. change (negb (24 =? 24)) with false. cbv iota.
  change (Z.quot 24 4 - 1) with 5.
  destruct (put_header_spec p RTCP_PSFB 15 5) as
    (p1 & E1 & Hz1 & Hb1 & Hv1 & Hrc1 & Ht1 & Hl1 & _);
    [lia|exact Hb|vm_compute; split; congruence|lia|vm_compute; split; congruence|].
  rewrite E1. cbn [bind]. rewrite put_bytes4 by lia. cbn [bind].
  rewrite set8_ok by (autorewrite with zlen; lia). cbn [bind].
  set (p2 := wr _ 16 _).
  assert (Hz2 : zlen p2 = zlen p) by (unfold p2; autorewrite with zlen; lia).
  assert (Hb2 : bytes p2) by (unfold p2; repeat apply bytes_wr; assumption).
  rewrite put_bitrate_at by lia. cbn [bind].
  destruct (put_rate_spec p2 bitrate ltac:(lia) Hr') as (Hm & He & Hle & Hgt & Hz3 & Hrd & Hb3).
  set (p3 := put_rate p2 bitrate) in *.
  assert (Hlow : forall i, i < 12 -> rd p3 i = rd p1 i).
  { intros i Hi. rewrite Hrd by lia. unfold p2. rewrite !rd_wr_ne by lia. reflexivity. }
  assert (Hid : rd p3 12 = 82 /\ rd p3 13 = 69 /\ rd p3 14 = 77 /\ rd p3 15 = 66).
  { rewrite !Hrd by lia. unfold p2. change (12 + 1 + 1 + 1) with 15. change (12 + 1 + 1) with 14.
    change (12 + 1) with 13.
    repeat split; repeat (rewrite rd_wr by (autorewrite with zlen; lia)); reflexivity. }
  destruct (one_block p3 RTCP_PSFB 15 5) as (Hc & Hlen & Econc & Hrc & Ht & Hrd3);
    [auto|lia|lia|rewrite Hlow by lia; exact Hv1|unfold b_rc in *; rewrite Hlow by lia; exact Hrc1
    |unfold b_type in *; rewrite Hlow by lia; exact Ht1
    |unfold b_length, b16 in *; rewrite !Hlow by lia; exact Hl1| |].
  { assert (Hs : forall i, 0 <= i < 12 -> rd (slice p3 0 (5 * 4 + 4)) i = rd p1 i)
      by (intros; rewrite rd_slice by lia; apply Hlow; lia).
    unfold min_length, b_type, b_rc in *. rewrite !Hs, Hrc1, Ht1 by lia. cbn. lia. }
  change (5 * 4 + 4) with 24 in *. exists p3. set (b := slice p3 0 24) in *.
  assert (Hm' : rate_mantissa b = rate_mantissa p3) by (unfold rate_mantissa; now rewrite !Hrd3 by lia).
  assert (He' : rate_exp b = rate_exp p3) by (unfold rate_exp; now rewrite !Hrd3 by lia).
  rewrite Hm', He'. split; [reflexivity|]. split; [lia|]. split; [auto|]. split; [exact Hc|].
  split; [exact Hlen|]. split; [exact Econc|]. split; [|auto].
  unfold is_remb_block. rewrite Hrc, Ht, !Hrd3 by lia. destruct Hid as (-> & -> & -> & ->). reflexivity.
Qed.

(** How close a rate is to what its exponent and mantissa say. *)
Lemma rate_close bitrate e :
  0 <= bitrate < 4294967296 -> 0 <= e -> bitrate <= 0x3FFFF * 2 ^ e ->
  (0 < e -> 0x3FFFF * 2 ^ (e - 1) < bitrate) ->
  let r := u32 (Z.shiftl (bitrate / 2 ^ e) e) in
  r <= bitrate /\ (bitrate - r) * 0x3FFFF <= 2 * bitrate /\ (bitrate <= 0x3FFFF -> r = bitrate).
Proof.
  intros Hr He Hle Hgt. cbv zeta.
  pose proof (Z.pow_pos_nonneg 2 e ltac:(lia) ltac:(lia)) as Hp.
  pose proof (Z.div_mod bitrate (2 ^ e) ltac:(lia)) as Hdm.
  pose proof (Z.mod_pos_bound bitrate (2 ^ e) Hp) as Hmb.
  assert (Hq : 0 <= bitrate / 2 ^ e) by (apply Z.div_pos; lia).
  rewrite shiftl_mul by lia. rewrite u32_id by (int_unfold; nia).
  split; [lia|]. destruct (Z.eq_dec e 0) as [E0|Hne].
  - subst e. change (2 ^ 0) with 1 in *. lia.
  - specialize (Hgt ltac:(lia)).
    assert (H2 : 2 ^ e = 2 * 2 ^ (e - 1)).
    { replace e with (e - 1 + 1) at 1 by lia. rewrite Z.pow_add_r by lia. lia. }
    split; [lia|]. intros Hs. pose proof (Z.pow_pos_nonneg 2 (e - 1) ltac:(lia) ltac:(lia)). lia.
Qed.

(** A REMB built for any representable rate reads back as a REMB whose rate
    is below it by less than one part in 2^17 (exactly the rate up to 2^18 -
    1), as long as the rate fits in 32 bits. *)
Theorem remb_roundtrip p bitrate :
  bytes p -> 24 <= zlen p -> 0 <= bitrate < 4294967296 ->
  exists p' r,
    janus_rtcp_remb (Some p) 24 bitrate = Ok (24, Some p') /\
    janus_rtcp_get_remb (Some (slice p' 0 24)) 24 = Ok r /\
    r <= bitrate /\ (bitrate - r) * 0x3FFFF <= 2 * bitrate /\
    (bitrate <= 0x3FFFF -> r = bitrate).
Proof.
  intros Hb Hz Hr.
  destruct (remb_built p bitrate Hb Hz) as
    (p3 & E & _ & _ & Hc & Hlen & Econc & Hk & Hm & He & Hle & Hgt); [unfold max_rate; lia|].
  exists p3, (b_rate (slice p3 0 24)). split; [exact E|]. split.
  - pose proof (get_remb_compound [slice p3 0 24] Hc) as G. rewrite Hlen, Econc in G.
    rewrite G. cbn [find]. now rewrite Hk.
  - unfold b_rate. rewrite Hm. apply rate_close; auto. lia.
Qed.

(** A 32-bit rate is the most the 32-bit shift of the reader can return: the
    packet for 2^32 reads back as 0. *)
Lemma remb_above_32_bits :
  (let! (_, q) := janus_rtcp_remb (Some (zeros 24)) 24 4294967296 in
   janus_rtcp_get_remb q 24) = Ok 0.
Proof. vm_compute. reflexivity. Qed.

Lemma next_fir_seq_eq n : 0 <= n < 256 -> next_fir_seq n = (n + 1) mod 256.
Proof.
  intros. unfold next_fir_seq. rewrite s32_id by (int_unfold; lia).
  replace (n + 1 <? 0) with false by lia. cbn [orb].
  destruct (Z.leb_spec 256 (n + 1)).
  - now replace n with 255 by lia.
  - now rewrite Z.mod_small by lia.
Qed.

Lemma next_fir_seq_range n : 0 <= next_fir_seq n < 256.
Proof.
  unfold next_fir_seq. destruct (Z.ltb_spec (s32 (n + 1)) 0); cbn [orb]; [lia|].
  destruct (Z.leb_spec 256 (s32 (n + 1))); lia.
Qed.

(** The FIR builders on a buffer of twenty bytes or more. *)
Lemma fir_packet_spec type p n :
  bytes p -> 20 <= zlen p -> in_u8 type ->
  exists p', fir_packet type (Some p) 20 (Some n) = Ok (20, Some p', Some (next_fir_seq n)) /\
    zlen p' = zlen p /\ bytes p' /\ Z.shiftr (rd p' 0) 6 = 2 /\ b_rc p' = 4 /\
    b_type p' = type /\ b_length p' = 4 /\ rd p' 16 = next_fir_seq n.
Proof.
  intros Hb Hz Ht. unfold fir_packet. change (negb (20 =? 20)) with false. cbv iota.
  change (Z.quot 20 4 - 1) with 4.
  destruct (put_header_spec p type 4 4) as
    (p1 & -> & Hz1 & Hb1 & Hv1 & Hrc1 & Ht1 & Hl1 & _);
    [lia|exact Hb|exact Ht|lia|vm_compute; split; congruence|].
  cbn [bind]. rewrite set32_ok by lia. cbn [bind].
  eexists. split; [reflexivity|]. rewrite zlen_w32. split; [exact Hz1|].
  split; [now apply bytes_w32|]. unfold b_rc, b_type, b_length in *.
  rewrite !rd_w32_ne, b16_w32_ne by lia. repeat (split; [assumption|]).
  pose proof (next_fir_seq_range n) as Hn.
  pose proof (b32_w32_eq p1 16 (Z.shiftl (next_fir_seq n) 24) ltac:(lia) ltac:(lia)) as E.
  rewrite shiftl_mul in * by lia. change (2 ^ 24) with 16777216 in *.
  specialize (E ltac:(int_unfold; lia)). unfold b32, b16 in E.
  pose proof (bytes_w32 p1 16 (next_fir_seq n * 16777216) Hb1) as Hbw.
  pose proof (bytes_rd _ 16 Hbw). pose proof (bytes_rd _ (16 + 1) Hbw).
  pose proof (bytes_rd _ (16 + 2) Hbw). pose proof (bytes_rd _ (16 + 2 + 1) Hbw).
  unfold in_u8 in *. lia.
Qed.

Lemma remb_roundtrip_witness :
  exists p' r,
    janus_rtcp_remb (Some (zeros 32)) 24 1000000 = Ok (24, Some p') /\
    janus_rtcp_get_remb (Some (slice p' 0 24)) 24 = Ok r /\
    r <= 1000000 /\ (1000000 - r) * 0x3FFFF <= 2 * 1000000 /\
    (1000000 <= 0x3FFFF -> r = 1000000).
Proof.
  apply (remb_roundtrip (zeros 32) 1000000);
    [apply bytes_forallb; reflexivity|vm_compute; discriminate|lia].
Defined.

(** Asking a packet of one feedback block whether it is a PLI or a FIR. *)
Lemma one_feedback q type n words :
  bytes q -> 2 <= words -> words * 4 + 4 <= zlen q ->
  Z.shiftr (rd q 0) 6 = 2 -> b_rc q = n -> b_type q = type -> b_length q = words ->
  type = RTCP_PSFB /\ n = 1 \/ 3 <= words /\ (type = RTCP_FIR \/ type = RTCP_PSFB /\ n = 4) ->
  forall l, l = words * 4 + 4 ->
  janus_rtcp_has_pli (slice q 0 l) l = Ok ((type =? RTCP_PSFB) && (n =? 1)) /\
  janus_rtcp_has_fir (slice q 0 l) l = Ok (type =? RTCP_FIR).
Proof.
  intros Hb Hw Hz Hv Hrc Ht Hl Hk l El. subst l.
  destruct (one_block q type n words) as (Hc & Hlen & Econc & Hrc' & Ht' & _); auto; try lia.
  { unfold min_length, b_type, b_rc in *. rewrite !rd_slice by lia.
    change (0 + 0) with 0. change (0 + 1) with 1. rewrite Hrc, Ht.
    destruct Hk as [[-> ->]|[H3 [->|[-> ->]]]]; cbn; lia. }
  pose proof (has_pli_compound _ Hc) as E1. pose proof (has_fir_compound _ Hc) as E2.
  rewrite Hlen, Econc in E1, E2. rewrite E1, E2. cbn [existsb].
  unfold is_pli, is_fir. now rewrite Hrc', Ht', !orb_false_r.
Qed.

(** What the other feedback builders produce is what the readers look for:
    a PLI is seen by [janus_rtcp_has_pli], a legacy FIR by
    [janus_rtcp_has_fir]; the FIR's sequence number is the successor of the
    caller's modulo 256, in the first byte of its FCI's second word; and a
    buffer of another size is refused with -1, the counter untouched. *)
Theorem feedback_builders p n :
  bytes p -> 20 <= zlen p -> 0 <= n < 256 ->
  let seq := (n + 1) mod 256 in
  (exists q, janus_rtcp_pli (Some p) 12 = Ok (12, Some q) /\
     janus_rtcp_has_pli (slice q 0 12) 12 = Ok true /\
     janus_rtcp_has_fir (slice q 0 12) 12 = Ok false) /\
  (exists q, janus_rtcp_fir_legacy (Some p) 20 (Some n) = Ok (20, Some q, Some seq) /\
     janus_rtcp_has_fir (slice q 0 20) 20 = Ok true /\ rd q 16 = seq) /\
  (exists q, janus_rtcp_fir (Some p) 20 (Some n) = Ok (20, Some q, Some seq) /\
     janus_rtcp_has_pli (slice q 0 20) 20 = Ok false /\ rd q 16 = seq) /\
  (exists q, janus_rtcp_bye (Some p) 12 = Ok (12, Some q) /\ rd q 1 = RTCP_BYE) /\
  (forall len, len <> 20 -> janus_rtcp_fir (Some p) len (Some n) = Ok (-1, Some p, Some n)) /\
  (forall len, len <> 12 -> janus_rtcp_pli (Some p) len = Ok (-1, Some p)).
Proof.
  intros Hb Hz Hn seq. assert (Hseq : next_fir_seq n = seq) by now apply next_fir_seq_eq.
  split; [|split; [|split; [|split; [|split]]]].
  - unfold janus_rtcp_pli. change (negb (12 =? 12)) with false. cbv iota.
    change (Z.quot 12 4 - 1) with 2.
    destruct (put_header_spec p RTCP_PSFB 1 2) as
      (q & -> & Hzq & Hbq & Hv & Hrc & Ht & Hl & _);
      [lia|exact Hb|vm_compute; split; congruence|lia|vm_compute; split; congruence|].
    exists q. split; [reflexivity|].
    destruct (one_feedback q RTCP_PSFB 1 2) with (l := 12) as [-> ->]; auto; lia.
  - destruct (fir_packet_spec RTCP_FIR p n Hb Hz ltac:(vm_compute; split; congruence))
      as (q & E & Hzq & Hbq & Hv & Hrc & Ht & Hl & H16). rewrite Hseq in *.
    exists q. split; [exact E|]. split; [|exact H16].
    destruct (one_feedback q RTCP_FIR 4 4) with (l := 20) as [_ ->]; auto; lia.
  - destruct (fir_packet_spec RTCP_PSFB p n Hb Hz ltac:(vm_compute; split; congruence))
      as (q & E & Hzq & Hbq & Hv & Hrc & Ht & Hl & H16). rewrite Hseq in *.
    exists q. split; [exact E|]. split; [|exact H16].
    destruct (one_feedback q RTCP_PSFB 4 4) with (l := 20) as [-> _]; auto; lia.
  - unfold janus_rtcp_bye. change (negb (12 =? 12)) with false. cbv iota.
    change (Z.quot 12 4 - 1) with 2.
    destruct (put_header_spec p RTCP_BYE 1 2) as
      (q & -> & Hzq & Hbq & Hv & Hrc & Ht & Hl & _);
      [lia|exact Hb|vm_compute; split; congruence|lia|vm_compute; split; congruence|].
    exists q. split; [reflexivity|]. exact Ht.
  - intros len Hne. unfold janus_rtcp_fir, fir_packet. now replace (len =? 20) with false by lia.
  - intros len Hne. unfold janus_rtcp_pli. now replace (len =? 12) with false by lia.
Qed.

Lemma feedback_builders_witness :
  bytes (zeros 20) /\ exists q, janus_rtcp_fir (Some (zeros 20)) 20 (Some 255) = Ok (20, Some q, Some 0) /\
    janus_rtcp_has_pli (slice q 0 20) 20 = Ok false /\ rd q 16 = 0.
Proof.
  assert (H : bytes (zeros 20)) by (apply bytes_forallb; reflexivity). split; [exact H|].
  exact (proj1 (proj2 (proj2 (feedback_builders (zeros 20) 255 H
    ltac:(vm_compute; discriminate) ltac:(lia))))).
Defined.
End JanusBuild.
