(* ===== verification/JanusStats.v ===== *)
(** * Reception statistics and sequence windows

    What [janus_rtcp_process_incoming_rtp] and [janus_rtcp_report_block] compute
    from a stream of packets, and the window test on sequence numbers. *)

From Stdlib Require Import SpecFloat.
From S2P Require Import Prelude Wire Floats JanusRtcp.
Import Wire Floats JanusRtcp.

Module JanusStats.

(** ** The window test *)

Lemma seq_in_range_eq seqn start len :
  in_u16 seqn -> in_u16 start -> in_u16 len ->
  janus_seq_in_range seqn start len = ((seqn - start) mod 65536 <? len).
Proof.
  intros Hs Ht Hl. unfold janus_seq_in_range. cbv zeta. rewrite shiftl_mul by lia.
  change (1 * 2 ^ 16) with 65536. unfold in_u16 in *.
  destruct (Z.leb_spec start seqn).
  - rewrite Z.mod_small by lia.
    destruct (Z.ltb_spec seqn (start + len)); cbn [andb orb].
    + symmetry. lia.
    + replace (65536 + seqn <? start + len) with false by lia. rewrite andb_false_r. symmetry. lia.
  - cbn [andb orb]. replace ((seqn - start) mod 65536) with (seqn - start + 65536)
      by (symmetry; rewrite <- (Z.mod_add _ 1) by lia; apply Z.mod_small; lia).
    replace (start <=? 65536 + seqn) with true by lia. cbn [andb]. lia.
Qed.

(** [janus_seq_in_range] holds exactly when the sequence number is among the
    [len] numbers from [start] on, counting modulo 2^16. *)
Theorem seq_in_range_spec seqn start len :
  in_u16 seqn -> in_u16 start -> in_u16 len ->
  janus_seq_in_range seqn start len = ((seqn - start) mod 65536 <? len).
Proof. exact (seq_in_range_eq seqn start len). Qed.

Lemma seq_in_range_witness :
  janus_seq_in_range 5 65530 160 = ((5 - 65530) mod 65536 <? 160).
Proof. apply (seq_in_range_spec 5 65530 160); int_unfold; lia. Defined.

(** ** A stream of packets *)

(** Feeds the packets, each with the clock reading at its arrival, to the
    statistics. *)
Fixpoint receive (max_nack_queue : Z) (ctx : option rtcp_context) (l : list (Z * list Z))
    : res (option rtcp_context) :=
  match l with
  | [] => Ok ctx
  | (now, p) :: l =>
      let! (_, ctx) := janus_rtcp_process_incoming_rtp now ctx (Some p) (zlen p) max_nack_queue in
      receive max_nack_queue ctx l
  end.

(** A packet that carries the extended sequence number [e]. *)
Definition carries (p : list Z) (e : Z) : Prop := 8 <= zlen p /\ b16 p 2 = e mod 65536.

(** Extended numbers that follow [e]: increasing, with jumps small enough for
    the wrap test to see them. *)
Fixpoint follows (max_nack_queue e : Z) (es : list Z) : Prop :=
  match es with
  | [] => True
  | e' :: es => e < e' < e + 65536 - max_nack_queue /\ follows max_nack_queue e' es
  end.

Lemma b16_packet p e : carries p e -> be16 p 2 = Ok (e mod 65536).
Proof. intros [Hz E]. rewrite be16_ok by lia. now rewrite E. Qed.

(** The sequence fields after one packet. *)
Definition seq_step (max_nack_queue : Z) (c c' : rtcp_context) (s : Z) : Prop :=
  let base := if (base_seq c =? 0) && (seq_cycle c =? 0) then s else base_seq c in
  let cycle := if max_nack_queue + s <? last_seq_nr c then u16 (seq_cycle c + 1) else seq_cycle c in
  let expected_ := u32 ((if 0 <? cycle then u32 (Z.shiftl cycle 16) else 0) + 1 + s - base) in
  let received_ := u32 (received c + 1) in
  base_seq c' = base /\ seq_cycle c' = cycle /\ last_seq_nr c' = s /\ received c' = received_ /\
  expected c' = expected_ /\
  lost c' = (if 0 <? u32 (expected_ - received_) then s32 (expected_ - received_) else 0) /\
  expected_prior c' = expected_prior c /\ received_prior c' = received_prior c.

Lemma process_step now M c p e :
  carries p e ->
  exists c', janus_rtcp_process_incoming_rtp now (Some c) (Some p) (zlen p) M = Ok (0, Some c') /\
    seq_step M c c' (e mod 65536).
Proof.
  intros Hp. unfold janus_rtcp_process_incoming_rtp. destruct (Hp) as [Hz _].
  replace (zlen p <? 1) with false by lia. rewrite (b16_packet p e Hp). cbn [bind].
  rewrite be32_ok by lia. cbn [bind]. eexists. split; [reflexivity|].
  unfold seq_step. cbn. repeat split.
Qed.

(** The statistics stand for extended numbers from [e0] to [e], [n] of them
    received. *)
Record tracks (c : rtcp_context) (e0 e n : Z) : Prop := {
  tr_base : base_seq c = e0;
  tr_cycle : seq_cycle c = e / 65536;
  tr_last : last_seq_nr c = e mod 65536;
  tr_received : received c = n;
  tr_expected : expected c = e - e0 + 1;
  tr_lost : lost c = e - e0 + 1 - n
}.

Lemma wrap_detect M e e' :
  0 <= M -> 0 <= e -> e < e' < e + 65536 - M ->
  (M + e' mod 65536 <? e mod 65536) = (e / 65536 <? e' / 65536) /\
  (e' / 65536 = e / 65536 \/ e' / 65536 = e / 65536 + 1).
Proof.
  intros HM He Hj.
  assert (Hq : e' / 65536 = e / 65536 \/ e' / 65536 = e / 65536 + 1) by dlia.
  split; [|exact Hq]. pose proof (Z.div_mod e 65536). pose proof (Z.div_mod e' 65536).
  destruct Hq as [Hq|Hq]; rewrite Hq in *.
  - rewrite Z.ltb_irrefl. apply Z.ltb_ge. lia.
  - replace (e / 65536 <? e / 65536 + 1) with true by lia. apply Z.ltb_lt. lia.
Qed.

Lemma expected_eq e e0 :
  0 < e0 < 65536 -> e0 <= e < 2147483648 ->
  u32 ((if 0 <? e / 65536 then u32 (Z.shiftl (e / 65536) 16) else 0) + 1 + e mod 65536 - e0) =
    e - e0 + 1.
Proof.
  intros H0 He. pose proof (Z.div_mod e 65536 ltac:(lia)).
  rewrite shiftl_mul by lia. change (2 ^ 16) with 65536.
  destruct (Z.ltb_spec 0 (e / 65536)).
  - rewrite (u32_id (e / 65536 * 65536)) by int_lia. rewrite u32_id by int_lia. lia.
  - rewrite u32_id by int_lia. assert (e / 65536 = 0) by dlia. lia.
Qed.

Lemma tracks_step M c c' e0 e e' n :
  0 <= M -> tracks c e0 e n -> 0 < e0 < 65536 -> e0 <= e -> e < e' < e + 65536 - M ->
  e' < 2147483648 -> 0 < n <= e - e0 + 1 ->
  seq_step M c c' (e' mod 65536) -> tracks c' e0 e' (n + 1).
Proof.
  intros HM [Hb Hc Hl Hr _ _] H0 He Hj Hmax Hn (Sb & Sc & Sl & Sr & Se & Sx & _).
  destruct (wrap_detect M e e' HM ltac:(lia) Hj) as [Hw Hq].
  rewrite Hb in *. replace (e0 =? 0) with false in * by lia. cbn [andb] in *.
  rewrite Hl, Hw, Hc in *. rewrite Hr in *.
  assert (Hcy : (if e / 65536 <? e' / 65536 then u16 (e / 65536 + 1) else e / 65536) = e' / 65536).
  { destruct (Z.ltb_spec (e / 65536) (e' / 65536)); [|lia].
    rewrite u16_id by int_lia. lia. }
  rewrite Hcy in *. rewrite expected_eq in * by lia.
  rewrite (u32_id (n + 1)) in * by (int_unfold; lia).
  split; auto. rewrite Sx. rewrite u32_id by (int_unfold; lia).
  destruct (Z.ltb_spec 0 (e' - e0 + 1 - (n + 1))); [|lia]. apply s32_id. int_unfold; lia.
Qed.

Definition fresh (c : rtcp_context) : Prop :=
  base_seq c = 0 /\ seq_cycle c = 0 /\ last_seq_nr c = 0 /\ received c = 0.

Lemma tracks_first M c c' e0 :
  0 <= M -> fresh c -> 0 < e0 < 65536 -> seq_step M c c' (e0 mod 65536) -> tracks c' e0 e0 1.
Proof.
  intros HM (Fb & Fc & Fl & Fr) H0 (Sb & Sc & Sl & Sr & Se & Sx & _).
  rewrite Fb, Fc, Fl, Fr in *. rewrite Z.mod_small in * by lia. cbn [Z.eqb andb] in *.
  replace (M + e0 <? 0) with false in * by lia. cbn [Z.ltb Z.compare] in *.
  change (u32 (0 + 1)) with 1 in *.
  replace (u32 (0 + 1 + e0 - e0)) with 1 in * by (replace (0 + 1 + e0 - e0) with 1 by lia; reflexivity).
  split; rewrite ?Z.mod_small, ?Z.div_small by lia; auto; [lia|].
  rewrite Sx. replace (e0 - e0 + 1 - 1) with 0 by lia. reflexivity.
Qed.

Definition same_priors (c c' : rtcp_context) : Prop :=
  expected_prior c' = expected_prior c /\ received_prior c' = received_prior c.

Lemma last_shift (e' e : Z) es : last (e' :: es) e = last es e'.
Proof.
  destruct es as [|z es]; [reflexivity|]. cbn [last]. revert z.
  induction es as [|y es IH]; intros z; [reflexivity|]. cbn [last] in *. apply IH.
Qed.

Lemma follows_last M e es : 0 <= M -> follows M e es -> e + zlen es <= last es e.
Proof.
  intros HM. revert e; induction es as [|e' es IH]; intros e Hf; cbn [follows] in Hf.
  - change (zlen []) with 0. cbn. lia.
  - destruct Hf as [Hj Hf]. specialize (IH e' Hf). rewrite zlen_cons, last_shift. lia.
Qed.

Lemma receive_rest M es : forall ps c e0 e n,
  0 <= M -> tracks c e0 e n -> 0 < e0 < 65536 -> e0 <= e -> 0 < n <= e - e0 + 1 ->
  follows M e es -> Forall2 (fun '(_, p) e => carries p e) ps es -> last es e < 2147483648 ->
  exists c', receive M (Some c) ps = Ok (Some c') /\
    tracks c' e0 (last es e) (n + zlen es) /\ same_priors c c'.
Proof.
  induction es as [|e' es IH]; intros ps c e0 e n HM Ht H0 He Hn Hf HF Hlast;
    inversion HF as [|[now p] ? ps' ? Hp HF']; subst; cbn [receive].
  - exists c. change (zlen []) with 0. rewrite Z.add_0_r. unfold same_priors. auto.
  - cbn [follows] in Hf. destruct Hf as [Hj Hf]. rewrite last_shift in *.
    pose proof (follows_last M e' es HM Hf). pose proof (zlen_nonneg es).
    destruct (process_step now M c p e' Hp) as (c1 & -> & Hs). cbn [bind].
    assert (Ht' : tracks c1 e0 e' (n + 1)) by (apply (tracks_step M c c1 e0 e e' n); auto; lia).
    destruct (IH ps' c1 e0 e' (n + 1) HM Ht' H0) as (c' & E & Hc & Hpr); auto; try lia.
    exists c'. split; [exact E|]. rewrite zlen_cons. replace (n + (1 + zlen es)) with (n + 1 + zlen es) by lia.
    split; [exact Hc|]. unfold same_priors in *. destruct Hs as (_ & _ & _ & _ & _ & _ & E1 & E2). rewrite E1, E2 in Hpr.
    exact Hpr.
Qed.

(** For a stream whose first sequence number is not 0 and whose later
    packets come in order, with losses but no jump that reaches the wrap
    window, the statistics are exact however often the 16-bit numbers wrap:
    the cycle count and last number give the true extended number, and
    expected, received and lost count the packets since the first. *)
Theorem stream_statistics M c now0 p0 ps e0 es :
  0 <= M -> fresh c -> 0 < e0 < 65536 -> carries p0 e0 -> follows M e0 es ->
  Forall2 (fun '(_, p) e => carries p e) ps es -> last es e0 < 2147483648 ->
  exists c', receive M (Some c) ((now0, p0) :: ps) = Ok (Some c') /\
    tracks c' e0 (last es e0) (1 + zlen es) /\ same_priors c c'.
Proof.
  intros HM Hfr H0 Hp Hf HF Hlast. cbn [receive].
  destruct (process_step now0 M c p0 e0 Hp) as (c1 & -> & Hs). cbn [bind].
  pose proof (tracks_first M c c1 e0 HM Hfr H0 Hs) as Ht.
  destruct (receive_rest M es ps c1 e0 e0 1 HM Ht H0) as (c' & E & Hc & Hpr); auto; try lia.
  exists c'. split; [exact E|]. split; [exact Hc|].
  unfold same_priors in *. destruct Hs as (_ & _ & _ & _ & _ & _ & E1 & E2). rewrite E1, E2 in Hpr. exact Hpr.
Qed.

(** ** The report *)

Lemma lost_fraction_spec c E R :
  u32 (expected c - expected_prior c) = E -> u32 (received c - received_prior c) = R ->
  0 < R <= E -> E < 8388608 ->
  lost_fraction c = 256 * (E - R) / E * 16777216 /\ 0 <= 256 * (E - R) / E <= 255.
Proof.
  intros HE HR Hr He.
  assert (Hb : 0 <= 256 * (E - R) / E <= 255).
  { split; [apply Z.div_pos; lia|]. apply Z.lt_succ_r, Z.div_lt_upper_bound; lia. }
  split; [|exact Hb]. unfold lost_fraction. rewrite HE, HR. cbv zeta.
  rewrite (s32_id (E - R)) by (int_unfold; lia). replace (E =? 0) with false by lia. cbn [orb].
  rewrite !shiftl_mul by lia. change (2 ^ 8) with 256. change (2 ^ 24) with 16777216.
  destruct (Z.leb_spec (E - R) 0).
  - replace (E - R) with 0 in * by lia. reflexivity.
  - rewrite (s32_id ((E - R) * 256)), (u32_id ((E - R) * 256)) by (int_unfold; lia).
    replace ((E - R) * 256) with (256 * (E - R)) by lia. apply u32_id. int_unfold; lia.
Qed.

Lemma lor_high_low lost_ f : 0 <= lost_ < 16777216 -> 0 <= f -> Z.lor lost_ (f * 16777216) = lost_ + f * 16777216.
Proof.
  intros Hl Hf. change 16777216 with (2 ^ 24) in *. apply lor_add; lia.
Qed.

(** A context before any packet, and packets carrying a sequence number. *)
Definition empty_ctx : rtcp_context :=
  mk_ctx 1 0 0 0 0 (S754_zero false) 0 0 0 0 0 0 0 0 0.

Definition packet (s : Z) : list Z := [128; 96; s / 256; s mod 256; 0; 0; 0; 0; 0; 0; 0; 1].

(** Three packets around the wrap of the number, one of them lost. *)
Lemma stream_statistics_witness :
  exists c', receive 100 (Some empty_ctx) [(5, packet 65534); (6, packet 65535); (7, packet 1)] =
      Ok (Some c') /\
    tracks c' 65534 65537 3 /\ same_priors empty_ctx c'.
Proof.
  apply (stream_statistics 100 empty_ctx 5 (packet 65534) [(6, packet 65535); (7, packet 1)]
    65534 [65535; 65537]).
  - lia.
  - repeat split.
  - lia.
  - split; vm_compute; congruence.
  - cbn. lia.
  - repeat constructor; vm_compute; congruence.
  - reflexivity.
Defined.

(** A report made of tracked statistics says what they say: the extended
    highest number, the cumulative loss (capped at 2^23 - 1) in the low 24
    bits of its loss word and, in the high 8, the fraction lost since the
    previous report, rounded down to 256ths and never 256; and the next
    report starts from here. *)
Theorem report_block_spec now now' c b e0 e n E R :
  tracks c e0 e n -> 0 < e0 < 65536 -> e0 <= e < 2147483648 -> 0 < n <= e - e0 + 1 ->
  u32 (expected c - expected_prior c) = E -> u32 (received c - received_prior c) = R ->
  0 < R <= E -> E < 8388608 ->
  exists c' b',
    janus_rtcp_report_block now now' (Some c) (Some b) = (0, Some c', Some b') /\
    tracks c' e0 e n /\ expected_prior c' = expected c /\ received_prior c' = received c /\
    last_sent c' = now' /\
    rb_ehsnr b' = e /\ rb_ssrc b' = rb_ssrc b /\
    rb_flcnpl b' = Z.min (e - e0 + 1 - n) 8388607 + 256 * (E - R) / E * 16777216 /\
    0 <= 256 * (E - R) / E <= 255.
Proof.
  intros Ht H0 He Hn HE HR Hr HE8.
  destruct (lost_fraction_spec c E R HE HR Hr HE8) as [Hf Hfb].
  eexists _, _. split; [reflexivity|]. cbn [expected_prior received_prior last_sent rb_ehsnr rb_ssrc rb_flcnpl].
  destruct Ht as [Tb Tc Tl Tr Te Tx]. split; [split; assumption|].
  repeat (split; [reflexivity|]). split; [|split; [reflexivity|split; [|exact Hfb]]].
  - rewrite Tc, Tl, shiftl_mul by lia. change (2 ^ 16) with 65536.
    pose proof (Z.div_mod e 65536 ltac:(lia)).
    rewrite (u32_id (e / 65536 * 65536)) by int_lia. rewrite u32_id by int_lia. lia.
  - cbn [janus_rtcp_context_get_lost_fraction]. rewrite Hf.
    assert (Hl : janus_rtcp_context_get_lost (Some c) = Z.min (e - e0 + 1 - n) 8388607).
    { cbn [janus_rtcp_context_get_lost]. rewrite Tx.
      destruct (Z.ltb_spec 8388607 (e - e0 + 1 - n)); [lia|]. rewrite u32_id by (int_unfold; lia). lia. }
    rewrite Hl. apply lor_high_low; lia.
Qed.

(** ** Where the statistics go wrong *)

Definition packet_with (s : Z) : list Z := [128; 0; s / 256; s mod 256; 0; 0; 0; 1; 0; 0; 0; 0].

Definition ctx0 : rtcp_context :=
  mk_ctx 0 0 0 0 0 f64_zero 90000 0 0 0 0 0 0 0 0.

Definition rb0 : report_block := mk_rb 0 0 0 0 0 0.

(** The loss word of the report after a stream. *)
Definition loss_word_after (ss : list Z) : res (option Z) :=
  let! ctx := receive 300 (Some ctx0) (map (fun s => (0, packet_with s)) ss) in
  let '(_, _, rb) := janus_rtcp_report_block 0 0 ctx (Some rb0) in
  Ok (option_map rb_flcnpl rb).

(** More packets than expected make the unsigned difference huge instead of
    negative: a duplicated packet, or a stream that starts at number 0 (whose
    base is then taken again from the second packet), reports -1 lost, and the
    loss word of the report is all ones. *)
Lemma surplus_reports_all_lost :
  loss_word_after [10; 10] = Ok (Some 4294967295) /\
  loss_word_after [0; 1] = Ok (Some 4294967295) /\
  loss_word_after [10; 11] = Ok (Some 0).
Proof. repeat split; vm_compute; reflexivity. Qed.

(** The report after these three packets. *)
Definition tracked_ctx : rtcp_context :=
  mk_ctx 1 1 1 65534 0 (S754_zero false) 0 0 0 0 3 0 4 0 1.

Lemma report_block_spec_witness :
  exists c' b',
    janus_rtcp_report_block 9 10 (Some tracked_ctx) (Some (mk_rb 77 0 0 0 0 0)) =
      (0, Some c', Some b') /\
    tracks c' 65534 65537 3 /\ expected_prior c' = 4 /\ received_prior c' = 3 /\
    last_sent c' = 10 /\ rb_ehsnr b' = 65537 /\ rb_ssrc b' = 77 /\
    rb_flcnpl b' = Z.min (65537 - 65534 + 1 - 3) 8388607 + 256 * (4 - 3) / 4 * 16777216 /\
    0 <= 256 * (4 - 3) / 4 <= 255.
Proof.
  apply (report_block_spec 9 10 tracked_ctx (mk_rb 77 0 0 0 0 0) 65534 65537 3 4 3);
    try reflexivity; try lia. constructor; reflexivity.
Defined.
End JanusStats.
