(* ===== verification/Nack.v ===== *)
(** * The NACK processor

    Models src/orbit/rtp/nack_processor.cc: the list of sequence numbers the
    receiver keeps to ask for missing packets, the packets the sender keeps to
    answer such requests, and the messages both send.  The circular doubly
    linked list of [seq_info_t] is here the list of its nodes from the head;
    SeqRing proves that its C operations are the list operations used.
    Packets handed to the transport are returned, in order. *)

From S2P Require Import Prelude Wire RtpHeaders JanusRtcp.
Import Wire RtpHeaders JanusRtcp.

Module Nack.

Definition KEY_FRAME_INTERVAL : Z := 3000.
Definition MAX_RETRANSMIT_QUEUE_SIZE : Z := 300.
Definition RETRANSMIT_PACKETS_LIMIT : Z := 100.

Inductive seq_state := SEQ_MISSING | SEQ_NACKED | SEQ_GIVEUP | SEQ_RECVED.

Definition state_eqb (a b : seq_state) : bool :=
  match a, b with
  | SEQ_MISSING, SEQ_MISSING | SEQ_NACKED, SEQ_NACKED
  | SEQ_GIVEUP, SEQ_GIVEUP | SEQ_RECVED, SEQ_RECVED => true
  | _, _ => false
  end.

Record seq_info := mk_seq { ts : Z; seq : Z; state : seq_state; times : Z }.

Inductive packetType :=
  VIDEO_PACKET | AUDIO_PACKET | VIDEO_RTX_PACKET | OTHER_PACKET | RETRANSMIT_PACKET | REMB_PACKET.

(** What is given to [TransportDelegate::RelayPacket]. *)
Record dataPacket := mk_data { p_type : packetType; p_data : list Z }.

(** [memcpy] into the 1500 bytes of a [dataPacket]. *)
Definition data_packet (t : packetType) (buf : list Z) (len : Z) : res dataPacket :=
  if (0 <=? len) && (len <=? 1500) && (len <=? zlen buf) then Ok (mk_data t (slice buf 0 len))
  else Oob.

Record RtpRetransmitPacket := mk_rp {
  seqn : Z;
  buf : list Z;
  rp_ts : Z;
  retries : Z
}.

(** ** The sender's side: packets kept for retransmission *)

Fixpoint pop_while (n : nat) (list_size : Z) (l : list RtpRetransmitPacket)
    : list RtpRetransmitPacket :=
  match n with
  | O => l
  | S n => if MAX_RETRANSMIT_QUEUE_SIZE <? list_size then pop_while n (list_size - 1) (tl l) else l
  end.

Definition PushPacket (now_ms : Z) (retransmit_list : list RtpRetransmitPacket) (b : list Z)
    : res (list RtpRetransmitPacket) :=
  let! s := getSeqNumber b in
  let l := retransmit_list ++ [mk_rp s b now_ms 0] in
  Ok (pop_while (length l) (zlen l) l).

Definition GetRetransmitListSize (retransmit_list : list RtpRetransmitPacket) : Z :=
  zlen retransmit_list.

Definition GetRtcpNackPackets (b : list Z) (buflen : Z) : res Z :=
  let! nacks := janus_rtcp_get_nacks (Some b) buflen in Ok (zlen nacks).

(** The search for [s] from the newest packet: the list after the packet found
    was dealt with, whether this was its first request, and the packet sent.
    [now] is the clock read before the search, [now'] after it. *)
Fixpoint retransmit (now now' s : Z) (rl : list RtpRetransmitPacket)
    : res (list RtpRetransmitPacket * Z * list dataPacket) :=
  match rl with
  | [] => Ok ([], 0, [])
  | rp :: rl =>
      if s =? seqn rp then
        if retries rp <? 5 then
          if (retries rp =? 0) || (30 <? now - rp_ts rp) then
            let! pkt := data_packet RETRANSMIT_PACKET (buf rp) (zlen (buf rp)) in
            Ok (mk_rp (seqn rp) (buf rp) now' (retries rp + 1) :: rl,
                if retries rp =? 0 then 1 else 0, [pkt])
          else Ok (rp :: rl, 0, [])
        else Ok (rp :: rl, 0, [])
      else
        let! (rl, lost, sent) := retransmit now now' s rl in Ok (rp :: rl, lost, sent)
  end.

(** The requests one after the other, on the list from its newest packet. *)
Fixpoint retransmit_all (now now' : Z) (nacks : list Z) (rl : list RtpRetransmitPacket)
    : res (list RtpRetransmitPacket * Z * list dataPacket) :=
  match nacks with
  | [] => Ok (rl, 0, [])
  | s :: nacks =>
      let! (rl, lost, sent) := retransmit now now' s rl in
      let! (rl, lost', sent') := retransmit_all now now' nacks rl in
      Ok (rl, lost + lost', sent ++ sent')
  end.

Definition ProcessRtcpNackPackets (now now' : Z) (retransmit_list : list RtpRetransmitPacket)
    (b : list Z) (buflen : Z) : res (list RtpRetransmitPacket * Z * list dataPacket) :=
  let! nacks := janus_rtcp_get_nacks (Some b) buflen in
  let! (rl, lost, sent) := retransmit_all now now' nacks (rev retransmit_list) in
  Ok (rev rl, lost, sent).

(** ** The receiver's side *)

Section Receiver.
(** [g_slist_sort] of glib. *)
Variable g_slist_sort : (Z -> Z -> Z) -> list Z -> list Z.

Definition RtcpNackCreate (nacks : list Z) (nackbuf : list Z) : res (list Z * Z) :=
  match nacks with
  | [] => Ok (nackbuf, 0)
  | _ =>
      let! (n, b) := janus_rtcp_nacks g_slist_sort (Some nackbuf) 120 (rev nacks) in
      Ok (match b with Some b => b | None => nackbuf end, n)
  end.

(** The new numbers after [cur_seqn] up to [new_seqn]. *)
Fixpoint fill (fuel : nat) (now cur_seqn new_seqn : Z) : res (list seq_info) :=
  if cur_seqn =? new_seqn then Ok []
  else
    match fuel with
    | O => NoFuel
    | S fuel =>
        let cur_seqn := u16 (cur_seqn + 1) in
        let node := mk_seq now cur_seqn
          (if cur_seqn =? new_seqn then SEQ_RECVED else SEQ_MISSING) 0 in
        let! l := fill fuel now cur_seqn new_seqn in Ok (node :: l)
    end.

(** One node of the backward walk: the node afterwards, and whether its
    number is asked for. *)
Definition visit (now new_seqn : Z) (s : seq_info) : seq_info * bool :=
  if seq s =? new_seqn then (mk_seq (ts s) (seq s) SEQ_RECVED (times s), false)
  else if state_eqb (state s) SEQ_MISSING && (SEQ_MISSING_WAIT <? now - ts s) then
    (mk_seq now (seq s) SEQ_NACKED (u16 (times s + 1)), true)
  else if state_eqb (state s) SEQ_NACKED && (SEQ_NACKED_WAIT <? now - ts s) &&
          (times s <=? MAX_TIMES_OF_RESEND) then
    let t := u16 (times s + 1) in
    (mk_seq now (seq s) (if MAX_TIMES_OF_RESEND <? t then SEQ_GIVEUP else SEQ_NACKED) t, true)
  else (s, false).

(** The walk over nodes given from the tail: the nodes from the head
    afterwards, and the numbers asked for, in the order of the walk. *)
Fixpoint visit_back (now new_seqn : Z) (rl : list seq_info) (acc : list seq_info)
    : list seq_info * list Z :=
  match rl with
  | [] => (acc, [])
  | s :: rl =>
      let (s', ask) := visit now new_seqn s in
      let (l, nacks) := visit_back now new_seqn rl (s' :: acc) in
      (l, if ask then seq s :: nacks else nacks)
  end.

Fixpoint pop_heads (n : nat) (last_seqs_len : Z) (l : list seq_info) : list seq_info :=
  match n with
  | O => l
  | S n => if LAST_SEQS_MAX_LEN <? last_seqs_len then pop_heads n (last_seqs_len - 1) (tl l) else l
  end.

Record receiver := mk_recv {
  last_seqs : list seq_info;
  fir_seq : Z;
  get_fir : bool;
  last_fir_request : Z
}.

(** [SendFirPacket]: the FIR and the PLI that follow each other. *)
Definition SendFirPacket (fir_seq : Z) : res (Z * list dataPacket) :=
  let! b := memset0 (zeros 20) 20 in
  let! (len, b1, s) := janus_rtcp_fir (Some b) 20 (Some fir_seq) in
  match b1, s with
  | Some b1, Some s =>
      let! p1 := data_packet VIDEO_PACKET b1 len in
      let! b2 := memset0 b1 12 in
      let! (len2, b2) := janus_rtcp_pli (Some b2) 12 in
      match b2 with
      | Some b2 => let! p2 := data_packet VIDEO_PACKET b2 len2 in Ok (s, [p1; p2])
      | None => Oob
      end
  | _, _ => Oob
  end.

(** [now] is the monotonic time in microseconds, [now_ms] the time in
    milliseconds; [locked] says that the lock was free, [fir_flag] is
    [FLAGS_enable_nack_request_fir].  The result is the size of the message,
    the message buffer, the new state and the packets sent. *)
Definition KeepTrackRtpSequenceNumber (now now_ms : Z) (fir_flag locked : bool) (st : receiver)
    (new_seqn : Z) (nackbuf : list Z) : res (Z * list Z * receiver * list dataPacket) :=
  if negb locked then Ok (0, nackbuf, st, [])
  else
    let old := last_seqs st in
    let cur_seqn :=
      match rev old with
      | tail :: _ => seq tail
      | [] => u16 (new_seqn - 1)
      end in
    let '(old, cur_seqn) :=
      if negb (janus_seq_in_range new_seqn cur_seqn LAST_SEQS_MAX_LEN) &&
         negb (janus_seq_in_range cur_seqn new_seqn 1000) then ([], u16 (new_seqn - 1))
      else (old, cur_seqn) in
    let! added :=
      if janus_seq_in_range new_seqn cur_seqn LAST_SEQS_MAX_LEN then
        fill (Z.to_nat LAST_SEQS_MAX_LEN) now cur_seqn new_seqn
      else Ok [] in
    let (old, nacks) := visit_back now new_seqn (rev old) [] in
    let l := old ++ added in
    let l := pop_heads (length l) (zlen l) l in
    if (RETRANSMIT_PACKETS_LIMIT <? zlen nacks) &&
       (KEY_FRAME_INTERVAL <=? now_ms - last_fir_request st) then
      if fir_flag then
        let! (s, pkts) := SendFirPacket (fir_seq st) in
        Ok (0, nackbuf, mk_recv [] s false now_ms, pkts)
      else Ok (0, nackbuf, mk_recv [] (fir_seq st) (get_fir st) (last_fir_request st), [])
    else
      let! (b, n) := RtcpNackCreate nacks nackbuf in
      Ok (n, b, mk_recv l (fir_seq st) (get_fir st) (last_fir_request st), []).

(** [SendRTCP] of the RTCP processor is the list of the buffers it is given. *)
Definition SendNackByCondition (now now_ms : Z) (fir_flag locked : bool) (st : receiver)
    (seqnumber : Z) (nackbuf : list Z) : res (Z * receiver * list dataPacket * list (list Z)) :=
  let! (n, b, st, pkts) :=
    KeepTrackRtpSequenceNumber now now_ms fir_flag locked st seqnumber nackbuf in
  Ok (n, st, pkts, if 0 <? n then [slice b 0 n] else []).

Definition SendRtcpNackList (nack_list : list Z) (t : packetType) (nackbuf : list Z)
    : res dataPacket :=
  let! (b, n) := RtcpNackCreate nack_list nackbuf in
  data_packet t b n.
End Receiver.
End Nack.
