(* ===== verification/NackFacts.v ===== *)
(** * What the NACK processor promises

    The receiver's list of sequence numbers stays a run of at most 160
    consecutive numbers with bounded request counts; the message it builds
    always fits and asks for exactly the numbers that are due; the sender's
    queue is bounded and no packet is retransmitted more than five times. *)

From Stdlib Require Import Permutation Sorted.
From S2P Require Import Prelude Wire RtpHeaders JanusRtcp JanusWalk JanusCompound JanusRewrite.
From S2P Require Import JanusBuild JanusStats Nack.
Import Wire RtpHeaders JanusRtcp JanusWalk JanusCompound JanusBuild JanusStats Nack.

Module NackFacts.

(** ** The invariant of the receiver's list *)

(** Consecutive numbers, modulo 2^16, after [s]. *)
Fixpoint run_from (s : Z) (l : list seq_info) : Prop :=
  match l with
  | [] => True
  | x :: l => seq x = u16 (s + 1) /\ run_from (seq x) l
  end.

Definition consecutive (l : list seq_info) : Prop :=
  match l with
  | [] => True
  | x :: l => in_u16 (seq x) /\ run_from (seq x) l
  end.

(** How often a number was asked for, by its state. *)
Definition node_ok (s : seq_info) : Prop :=
  match state s with
  | SEQ_MISSING => times s = 0
  | SEQ_NACKED => 1 <= times s <= 10
  | SEQ_GIVEUP => times s = 11
  | SEQ_RECVED => 0 <= times s <= 11
  end.

Record wf_receiver (st : receiver) : Prop := {
  wfr_run : consecutive (last_seqs st);
  wfr_len : zlen (last_seqs st) <= 160;
  wfr_nodes : Forall node_ok (last_seqs st)
}.

Lemma run_from_nth l s i d :
  in_u16 s -> run_from s l -> (i < length l)%nat ->
  seq (nth i l d) = u16 (s + 1 + Z.of_nat i).
Proof.
  revert s i; induction l as [|x l IH]; intros s i Hs Hr Hi; cbn [length] in Hi; [lia|].
  cbn [run_from] in Hr. destruct Hr as [Hx Hr]. destruct i as [|i]; cbn [nth].
  - rewrite Hx. f_equal. lia.
  - rewrite (IH (seq x)) by (auto; try lia; rewrite Hx; apply u16_range).
    rewrite Hx. int_lia.
Qed.

(** The number a run that starts after [s] ends with. *)
Fixpoint end_of (s : Z) (l : list seq_info) : Z :=
  match l with
  | [] => s
  | x :: l => end_of (seq x) l
  end.

Lemma run_from_app l1 s l2 :
  run_from s (l1 ++ l2) <-> run_from s l1 /\ run_from (end_of s l1) l2.
Proof.
  revert s; induction l1 as [|x l1 IH]; intros s; cbn [app run_from end_of]; [tauto|].
  rewrite IH. tauto.
Qed.

Lemma end_of_rev s l : end_of s l = match rev l with x :: _ => seq x | [] => s end.
Proof.
  destruct l as [|x l] using rev_ind; [reflexivity|]. rewrite rev_unit. clear.
  revert s; induction l as [|y l IH]; intros s; [reflexivity|]. apply IH.
Qed.

Lemma end_of_map (f : seq_info -> seq_info) s l :
  (forall x, seq (f x) = seq x) -> end_of s (map f l) = end_of s l.
Proof.
  intros Hf. revert s; induction l as [|x l IH]; intros s; cbn [map end_of]; [reflexivity|].
  now rewrite IH, Hf.
Qed.

(** ** Filling *)

Lemma fill_spec fuel now cur new :
  in_u16 cur -> in_u16 new -> (new - cur) mod 65536 <= Z.of_nat fuel ->
  exists l, fill fuel now cur new = Ok l /\ run_from cur l /\ zlen l = (new - cur) mod 65536 /\
    Forall node_ok l /\
    (forall x, In x l -> ts x = now /\ times x = 0 /\
       state x = if seq x =? new then SEQ_RECVED else SEQ_MISSING).
Proof.
  revert cur; induction fuel as [|fuel IH]; intros cur Hc Hn Hf; cbn [fill].
  - replace (cur =? new) with true by int_lia. exists []. cbn.
    repeat split; auto; try contradiction. change (zlen []) with 0. int_lia.
  - destruct (Z.eqb_spec cur new) as [->|Hne].
    + exists []. cbn. repeat split; auto; try contradiction. now rewrite Z.sub_diag.
    + assert (Hstep : (new - u16 (cur + 1)) mod 65536 = (new - cur) mod 65536 - 1) by int_lia.
      destruct (IH (u16 (cur + 1))) as (l & -> & Hr & Hl & Hok & Hx);
        [apply u16_range|exact Hn|lia|].
      cbn [bind]. eexists. split; [reflexivity|]. cbn [run_from seq]. split; [auto|].
      rewrite zlen_cons. split; [lia|]. split.
      * constructor; [|exact Hok]. unfold node_ok; cbn. case_if; lia.
      * intros x [<-|Hin]; [cbn; auto|]. apply Hx, Hin.
Qed.

(** ** Visiting *)

(** The numbers whose (next) request is due. *)
Definition due (now : Z) (s : seq_info) : bool :=
  (state_eqb (state s) SEQ_MISSING && (12000 <? now - ts s)) ||
  (state_eqb (state s) SEQ_NACKED && (155000 <? now - ts s)).

Lemma visit_seq now new s : seq (fst (visit now new s)) = seq s.
Proof. unfold visit. repeat case_if; reflexivity. Qed.

Lemma visit_node_ok now new s : node_ok s -> node_ok (fst (visit now new s)).
Proof.
  unfold visit, node_ok. intros H. destruct (seq s =? new).
  { cbn. destruct (state s); lia. }
  destruct (state s) eqn:E; cbn [state_eqb andb].
  - case_if; cbn [fst state times]; [rewrite H; cbv; intuition discriminate|now rewrite E].
  - rewrite (u16_id (times s + 1)) by (int_unfold; lia). unfold MAX_TIMES_OF_RESEND.
    destruct (_ <? now - ts s); cbn [andb fst]; [|now rewrite E].
    replace (times s <=? 10) with true by lia. destruct (Z.ltb_spec 10 (times s + 1)); cbn; lia.
  - cbn [fst]. now rewrite E.
  - cbn [fst]. now rewrite E.
Qed.

Lemma visit_asks now new s :
  node_ok s -> snd (visit now new s) = negb (seq s =? new) && due now s.
Proof.
  intros H. unfold visit, due, SEQ_MISSING_WAIT, SEQ_NACKED_WAIT, MAX_TIMES_OF_RESEND.
  destruct (seq s =? new); [reflexivity|]. cbn [negb andb]. unfold node_ok in H.
  destruct (state s); cbn [state_eqb andb orb]; try reflexivity.
  - destruct (12000 <? now - ts s); reflexivity.
  - replace (times s <=? 10) with true by lia. rewrite andb_true_r.
    destruct (155000 <? now - ts s); reflexivity.
Qed.

(** What a request does to a number: it is counted, and stamped now. *)
Lemma visit_counts now new s :
  node_ok s -> snd (visit now new s) = true ->
  times (fst (visit now new s)) = times s + 1 /\ ts (fst (visit now new s)) = now.
Proof.
  intros H. unfold visit. unfold node_ok in H.
  destruct (seq s =? new); [discriminate|].
  destruct (state s); cbn [state_eqb andb]; repeat case_if; cbn; try discriminate; intros _;
    rewrite ?u16_id by (int_unfold; lia); auto.
Qed.

Lemma visit_back_spec now new rl acc :
  visit_back now new rl acc =
    (map (fun s => fst (visit now new s)) (rev rl) ++ acc,
     map seq (filter (fun s => snd (visit now new s)) rl)).
Proof.
  revert acc; induction rl as [|s rl IH]; intros acc; [reflexivity|].
  cbn [visit_back]. destruct (visit now new s) as [s' ask] eqn:E. rewrite IH.
  cbn [rev filter]. rewrite E. cbn [snd]. f_equal.
  - rewrite map_app, <- app_assoc. cbn. now rewrite E.
  - now destruct ask.
Qed.

Lemma run_from_map (f : seq_info -> seq_info) s l :
  (forall x, seq (f x) = seq x) -> run_from s (map f l) <-> run_from s l.
Proof.
  intros Hf. revert s; induction l as [|x l IH]; intros s; cbn [map run_from]; [tauto|].
  rewrite Hf, IH. tauto.
Qed.

Lemma consecutive_map (f : seq_info -> seq_info) l :
  (forall x, seq (f x) = seq x) -> consecutive (map f l) <-> consecutive l.
Proof.
  intros Hf. destruct l as [|x l]; cbn [map consecutive]; [tauto|].
  rewrite Hf, run_from_map by exact Hf. tauto.
Qed.

(** ** Trimming *)

Lemma pop_heads_spec n l :
  (length l <= n)%nat ->
  pop_heads n (zlen l) l = skipn (length l - 160) l.
Proof.
  revert l; induction n as [|n IH]; intros l Hn; cbn [pop_heads].
  - now destruct l; [|cbn in Hn; lia].
  - unfold LAST_SEQS_MAX_LEN, zlen. destruct (Z.ltb_spec 160 (Z.of_nat (length l))).
    + destruct l as [|x l]; [cbn in *; lia|]. cbn [tl length] in *.
      replace (Z.of_nat (S (length l)) - 1) with (zlen l) by (unfold zlen; lia).
      rewrite IH by lia. now replace (S (length l) - 160)%nat with (S (length l - 160)) by lia.
    + now replace (length l - 160)%nat with 0%nat by lia.
Qed.

Lemma consecutive_tl l : consecutive l -> consecutive (tl l).
Proof.
  destruct l as [|x [|y l]]; cbn; auto. intros (Hx & Hy & Hr). split; [|exact Hr].
  rewrite Hy. apply u16_range.
Qed.

Lemma consecutive_skipn n l : consecutive l -> consecutive (skipn n l).
Proof.
  revert l; induction n as [|n IH]; intros [|x l] H; try exact H.
  cbn [skipn]. apply IH. exact (consecutive_tl _ H).
Qed.

(** ** The message fits *)

(** A bound on the blocks for numbers in two intervals. *)
Lemma pack_bound hi1 lo2 hi2 l : forall pid blp,
  hi1 < lo2 -> lo2 <= hi2 -> StronglySorted Z.le (pid :: l) ->
  (forall x, In x (pid :: l) -> x <= hi1 \/ lo2 <= x <= hi2) ->
  zlen (pack pid blp l) <=
    if pid <=? hi1 then (hi1 - pid) / 17 + 1 + ((hi2 - lo2) / 17 + 1) else (hi2 - pid) / 17 + 1.
Proof.
  induction l as [|d l IH]; intros pid blp H12 H22 Hs Hin; cbn [pack].
  - change (zlen [(pid, blp)]) with 1. pose proof (Hin pid (or_introl eq_refl)).
    assert (0 <= (hi2 - lo2) / 17) by (apply Z.div_pos; lia).
    destruct (Z.leb_spec pid hi1); [assert (0 <= (hi1 - pid) / 17) by (apply Z.div_pos; lia)
                                   |assert (0 <= (hi2 - pid) / 17) by (apply Z.div_pos; lia)]; lia.
  - inversion Hs as [|? ? Hs' HF]; subst. inversion HF as [|? ? Hd HF']; subst.
    assert (Hpl : StronglySorted Z.le (pid :: l)) by (inversion Hs'; subst; constructor; assumption).
    assert (Hin1 : forall x, In x (pid :: l) -> x <= hi1 \/ lo2 <= x <= hi2)
      by (intros x [<-|Hx]; apply Hin; cbn; auto).
    assert (Hin2 : forall x, In x (d :: l) -> x <= hi1 \/ lo2 <= x <= hi2)
      by (intros x Hx; apply Hin; now right).
    destruct (d - pid <? 1); [now apply IH|].
    destruct (Z.ltb_spec 16 (d - pid)) as [Hfar|]; [|now apply IH].
    rewrite zlen_cons. specialize (IH d 0 H12 H22 Hs' Hin2).
    pose proof (Hin pid (or_introl eq_refl)) as Hp. pose proof (Hin2 d (or_introl eq_refl)) as Hdr.
    assert (Hdiv : forall h, d <= h -> (h - d) / 17 + 1 <= (h - pid) / 17) by (intros; dlia).
    assert (Hdiv2 : lo2 <= d -> (hi2 - d) / 17 <= (hi2 - lo2) / 17)
      by (intros; apply Z.div_le_mono; lia).
    destruct (Z.leb_spec d hi1), (Z.leb_spec pid hi1); try lia.
    + specialize (Hdiv hi1). lia.
    + assert (0 <= (hi1 - pid) / 17) by (apply Z.div_pos; lia). lia.
    + specialize (Hdiv hi2). lia.
Qed.

Lemma in_window l x :
  consecutive l -> zlen l <= 160 -> In x l ->
  exists a i, in_u16 a /\ 0 <= i < 160 /\ seq x = (a + i) mod 65536 /\
    match l with y :: _ => a = seq y | [] => False end.
Proof.
  intros Hc Hl Hin. destruct l as [|y l]; [contradiction|]. cbn [consecutive] in Hc.
  destruct Hc as [Hy Hr]. exists (seq y). destruct Hin as [<-|Hin].
  - exists 0. split; [exact Hy|]. split; [lia|]. split; [|reflexivity].
    rewrite Z.add_0_r. symmetry. apply Z.mod_small, Hy.
  - apply (In_nth _ _ x) in Hin as (i & Hi & Hx). exists (1 + Z.of_nat i).
    rewrite zlen_cons in Hl. split; [exact Hy|]. split; [unfold zlen in Hl; lia|].
    split; [|reflexivity]. rewrite <- Hx at 1. rewrite (run_from_nth l (seq y)) by assumption.
    unfold u16. f_equal. lia.
Qed.

Section Receiver.
Variable g_slist_sort : (Z -> Z -> Z) -> list Z -> list Z.
Hypothesis sort_perm : forall cmp l, Permutation l (g_slist_sort cmp l).
Hypothesis sort_sorted : forall cmp l,
  (forall a b, cmp a b <= 0 \/ cmp b a <= 0) ->
  (forall a b c, cmp a b <= 0 -> cmp b c <= 0 -> cmp a c <= 0) ->
  StronglySorted (fun a b => cmp a b <= 0) (g_slist_sort cmp l).

(** Numbers of one run of 160 need at most eleven blocks. *)
Lemma window_blocks l nums :
  consecutive l -> zlen l <= 160 -> Forall in_u16 nums -> nums <> [] ->
  (forall n, In n nums -> exists x, In x l /\ seq x = n) ->
  zlen (nack_blocks g_slist_sort nums) <= 11.
Proof.
  intros Hc Hl Hu Hne Hin. unfold nack_blocks.
  pose proof (sort_asc_sorted g_slist_sort sort_perm sort_sorted nums Hu) as Hs.
  pose proof (sort_perm sort_asc nums) as Hp.
  destruct (g_slist_sort sort_asc nums) as [|d ds]; [vm_compute; discriminate|].
  assert (Hw : forall n, In n (d :: ds) ->
    exists y t a i, l = y :: t /\ a = seq y /\ in_u16 a /\ 0 <= i < 160 /\ n = (a + i) mod 65536).
  { intros n Hn. apply (Permutation_in _ (Permutation_sym Hp)) in Hn.
    destruct (Hin n Hn) as (x & Hx & <-). destruct (in_window l x Hc Hl Hx) as (a & i & Ha & Hi & E & Hh).
    destruct l as [|y t]; [contradiction|]. exists y, t, a, i. auto. }
  destruct (Hw d (or_introl eq_refl)) as (y & t & a & i0 & -> & -> & Ha & _).
  assert (Hw' : forall n, In n (d :: ds) -> exists i, 0 <= i < 160 /\ n = (seq y + i) mod 65536).
  { intros n Hn. destruct (Hw n Hn) as (y' & t' & a & i & [= <- <-] & -> & _ & Hi & E). eauto. }
  clear Hw. unfold in_u16 in Ha.
  destruct (Z.ltb_spec (seq y + 159) 65536) as [Hno|Hwrap].
  - pose proof (pack_bound (seq y + 159) (seq y + 160) (seq y + 160) ds d 0 ltac:(lia) ltac:(lia) Hs) as Hb.
    assert (Hr : forall n, In n (d :: ds) -> seq y <= n <= seq y + 159).
    { intros n Hn. destruct (Hw' n Hn) as (i & Hi & ->). rewrite Z.mod_small; lia. }
    specialize (Hb ltac:(intros n Hn; specialize (Hr n Hn); lia)).
    pose proof (Hr d (or_introl eq_refl)). replace (d <=? seq y + 159) with true in Hb by lia.
    rewrite Z.sub_diag in Hb. change (0 / 17) with 0 in Hb.
    assert ((seq y + 159 - d) / 17 <= 9) by dlia. lia.
  - pose proof (pack_bound (seq y + 159 - 65536) (seq y) 65535 ds d 0 ltac:(lia) ltac:(lia) Hs) as Hb.
    assert (Hr : forall n, In n (d :: ds) -> 0 <= n <= seq y + 159 - 65536 \/ seq y <= n <= 65535).
    { intros n Hn. destruct (Hw' n Hn) as (i & Hi & ->). dlia. }
    specialize (Hb ltac:(intros n Hn; specialize (Hr n Hn); lia)).
    specialize (Hr d (or_introl eq_refl)).
    destruct (Z.leb_spec d (seq y + 159 - 65536)); dlia.
Qed.

Lemma NackCreate_spec l nums nackbuf :
  consecutive l -> zlen l <= 160 -> Forall in_u16 nums -> nums <> [] ->
  (forall n, In n nums -> exists x, In x l /\ seq x = n) ->
  bytes nackbuf -> zlen nackbuf = 120 ->
  exists b n l', RtcpNackCreate g_slist_sort nums nackbuf = Ok (b, n) /\ zlen b = 120 /\
    16 <= n <= 56 /\ janus_rtcp_get_nacks (Some (slice b 0 n)) n = Ok l' /\
    StronglySorted Z.lt l' /\ (forall s, In s l' <-> In s nums).
Proof.
  intros Hc Hl Hu Hne Hin Hb Hz.
  assert (Hrne : rev nums <> []) by (intros E; apply Hne; rewrite <- (rev_involutive nums), E; reflexivity).
  assert (Hru : Forall in_u16 (rev nums)) by now apply Forall_rev.
  destruct (nacks_spec g_slist_sort sort_perm sort_sorted nackbuf 120 (rev nums) Hrne Hru Hb
    ltac:(lia) ltac:(lia)) as [Hn (p' & Hzp & H)].
  pose proof (window_blocks l (rev nums) Hc Hl Hru Hrne) as Hw.
  specialize (Hw ltac:(intros n Hi; apply Hin; rewrite <- in_rev in Hi; exact Hi)).
  set (n := zlen (nack_blocks g_slist_sort (rev nums))) in *.
  replace (12 + 4 * n <=? 120) with true in H by lia. destruct H as (E & l' & E' & Hs & Hset).
  exists p', (12 + 4 * n), l'. unfold RtcpNackCreate.
  destruct nums as [|x nums]; [congruence|]. rewrite E. cbn [bind].
  split; [reflexivity|]. split; [lia|]. split; [lia|]. split; [exact E'|]. split; [exact Hs|].
  intros s. rewrite Hset. symmetry. apply in_rev.
Qed.

(** ** One packet *)

(** The receiver starts over when the number is far from the last one. *)
Definition jumped (st : receiver) (new : Z) : bool :=
  match rev (last_seqs st) with
  | [] => false
  | x :: _ => (160 <=? (new - seq x) mod 65536) && (1000 <=? (seq x - new) mod 65536)
  end.

Definition kept (st : receiver) (new : Z) : list seq_info :=
  if jumped st new then [] else last_seqs st.

(** The numbers asked for, newest first. *)
Definition asked (now : Z) (st : receiver) (new : Z) : list Z :=
  map seq (filter (fun x => negb (seq x =? new) && due now x) (rev (kept st new))).

(** The last number before the packet, and the nodes the packet adds. *)
Definition last_seqn (l : list seq_info) (new : Z) : Z := end_of (u16 (new - 1)) l.

Definition tracked (now : Z) (l added : list seq_info) (new : Z) : list seq_info :=
  let l := map (fun s => fst (visit now new s)) l ++ added in skipn (length l - 160) l.

Definition cleared (now now_ms : Z) (st : receiver) (new : Z) : bool :=
  (100 <? zlen (asked now st new)) && (3000 <=? now_ms - last_fir_request st).

Lemma last_seqn_u16 l new : consecutive l -> in_u16 (last_seqn l new).
Proof.
  intros Hc. unfold last_seqn. destruct l as [|x l]; [apply u16_range|].
  cbn [end_of consecutive] in *. destruct Hc as [Hx Hr]. clear -Hx Hr. revert x Hx Hr.
  induction l as [|y l IH]; intros x Hx Hr; cbn [end_of run_from] in *; [exact Hx|].
  destruct Hr as [Hy Hr]. apply IH; [rewrite Hy; apply u16_range|exact Hr].
Qed.

Lemma SendFirPacket_ok n : exists s pkts, SendFirPacket n = Ok (s, pkts) /\ s = next_fir_seq n.
Proof.
  unfold SendFirPacket. rewrite memset0_ok by (vm_compute; intuition discriminate). cbn [bind].
  assert (Hb : bytes (blit (zeros 20) 0 (zeros 20)))
    by (apply bytes_memset0; repeat constructor; vm_compute; intuition discriminate).
  assert (Hz : zlen (blit (zeros 20) 0 (zeros 20)) = 20) by reflexivity.
  set (p := blit (zeros 20) 0 (zeros 20)) in *. clearbody p. unfold janus_rtcp_fir.
  destruct (fir_packet_spec RTCP_PSFB p n Hb ltac:(lia) ltac:(vm_compute; split; congruence))
    as (q & -> & Hzq & Hbq & _). cbn [bind].
  unfold data_packet at 1. replace (_ && _ && (20 <=? zlen q)) with true by lia. cbn [bind].
  rewrite memset0_ok by lia. cbn [bind]. unfold janus_rtcp_pli.
  change (negb (12 =? 12)) with false. cbv iota. change (Z.quot 12 4 - 1) with 2.
  destruct (put_header_spec (blit q 0 (zeros 12)) RTCP_PSFB 1 2) as (r & -> & Hzr & _);
    [rewrite zlen_blit; lia|now apply bytes_memset0|vm_compute; split; congruence|lia
    |vm_compute; split; congruence|]. cbn [bind].
  rewrite zlen_blit in Hzr.
  unfold data_packet. replace (_ && _ && (12 <=? zlen r)) with true by lia. cbn [bind]. eauto.
Qed.

Definition added_ok (now : Z) (l : list seq_info) (new : Z) (added : list seq_info) : Prop :=
  run_from (last_seqn l new) added /\ Forall node_ok added /\
  (forall x, In x added -> ts x = now /\ times x = 0 /\
     state x = if seq x =? new then SEQ_RECVED else SEQ_MISSING) /\
  let d := (new - last_seqn l new) mod 65536 in zlen added = if d <? 160 then d else 0.

Lemma fill_kept now st new :
  consecutive (kept st new) -> in_u16 new ->
  exists added,
    (if janus_seq_in_range new (last_seqn (kept st new) new) LAST_SEQS_MAX_LEN then
       fill (Z.to_nat LAST_SEQS_MAX_LEN) now (last_seqn (kept st new) new) new
     else Ok []) = Ok added /\ added_ok now (kept st new) new added.
Proof.
  intros Hc Hn. set (l := kept st new) in *. pose proof (last_seqn_u16 l new Hc) as Hl.
  rewrite seq_in_range_eq by (auto; vm_compute; split; congruence).
  change LAST_SEQS_MAX_LEN with 160. unfold added_ok.
  destruct (Z.ltb_spec ((new - last_seqn l new) mod 65536) 160) as [Hd|Hd].
  - destruct (fill_spec (Z.to_nat 160) now (last_seqn l new) new Hl Hn ltac:(lia))
      as (added & E & Hr & Hz & Hok & Hx). exists added. auto 6.
  - exists []. cbn. repeat split; auto; try contradiction.
Qed.

Lemma asked_eq now st new :
  Forall node_ok (kept st new) ->
  map seq (filter (fun s => snd (visit now new s)) (rev (kept st new))) = asked now st new.
Proof.
  intros HF. unfold asked. f_equal. apply filter_ext_in. intros x Hx. apply visit_asks.
  rewrite Forall_forall in HF. apply HF. now apply in_rev.
Qed.

Lemma kept_wf st new :
  wf_receiver st ->
  consecutive (kept st new) /\ zlen (kept st new) <= 160 /\ Forall node_ok (kept st new).
Proof.
  intros [H1 H2 H3]. unfold kept. destruct (jumped st new); [|auto].
  repeat split; [vm_compute; discriminate|constructor].
Qed.

(** The start of the handler, up to the new list. *)
Lemma jump_eq st new :
  wf_receiver st -> in_u16 new ->
  let cur := match rev (last_seqs st) with x :: _ => seq x | [] => u16 (new - 1) end in
  (if negb (janus_seq_in_range new cur LAST_SEQS_MAX_LEN) &&
      negb (janus_seq_in_range cur new 1000) then ([], u16 (new - 1)) else (last_seqs st, cur)) =
  (kept st new, last_seqn (kept st new) new).
Proof.
  intros Hwf Hn. cbv zeta. pose proof (last_seqn_u16 (last_seqs st) new (wfr_run st Hwf)) as Hl.
  unfold last_seqn in *. rewrite end_of_rev in Hl. unfold kept, jumped.
  destruct (rev (last_seqs st)) as [|x r] eqn:E.
  - rewrite !seq_in_range_eq by (auto; vm_compute; split; congruence).
    change LAST_SEQS_MAX_LEN with 160. replace ((new - u16 (new - 1)) mod 65536 <? 160) with true by int_lia.
    cbn [negb andb]. now rewrite end_of_rev, E.
  - rewrite !seq_in_range_eq by (auto; vm_compute; split; congruence).
    change LAST_SEQS_MAX_LEN with 160. rewrite <- !Z.leb_antisym.
    destruct (_ && _); [reflexivity|]. now rewrite end_of_rev, E.
Qed.

Lemma in_asked now st new n :
  In n (asked now st new) <->
  exists x, In x (kept st new) /\ seq x = n /\ seq x <> new /\ due now x = true.
Proof.
  unfold asked. rewrite in_map_iff. split.
  - intros (x & <- & Hx). apply filter_In in Hx as [Hx Ht]. rewrite <- in_rev in Hx.
    apply andb_true_iff in Ht as [Ht1 Ht2]. exists x. split; [exact Hx|]. split; [reflexivity|].
    split; [lia|exact Ht2].
  - intros (x & Hx & <- & Hne & Hd). exists x. split; [reflexivity|]. apply filter_In.
    split; [now apply -> in_rev|]. rewrite Hd. replace (seq x =? new) with false by lia. reflexivity.
Qed.

(** What a packet leads to. *)
Inductive outcome (now now_ms : Z) (fir_flag : bool) (st : receiver) (new : Z) (added : list seq_info)
  : Z -> list Z -> receiver -> list dataPacket -> Prop :=
| Cleared b s pkts :
    cleared now now_ms st new = true ->
    (if fir_flag then s = mk_recv [] (next_fir_seq (fir_seq st)) false now_ms
     else s = mk_recv [] (fir_seq st) (get_fir st) (last_fir_request st) /\ pkts = []) ->
    outcome now now_ms fir_flag st new added 0 b s pkts
| Quiet b :
    cleared now now_ms st new = false -> asked now st new = [] ->
    outcome now now_ms fir_flag st new added 0 b
      (mk_recv (tracked now (kept st new) added new) (fir_seq st) (get_fir st) (last_fir_request st)) []
| Asks n b l' :
    cleared now now_ms st new = false -> asked now st new <> [] -> 16 <= n <= 56 ->
    janus_rtcp_get_nacks (Some (slice b 0 n)) n = Ok l' -> StronglySorted Z.lt l' ->
    (forall s, In s l' <-> In s (asked now st new)) ->
    outcome now now_ms fir_flag st new added n b
      (mk_recv (tracked now (kept st new) added new) (fir_seq st) (get_fir st) (last_fir_request st)) [].

Lemma KeepTrack_outcome now now_ms fir_flag st new nackbuf :
  wf_receiver st -> in_u16 new -> bytes nackbuf -> zlen nackbuf = 120 ->
  exists added n b st' pkts,
    KeepTrackRtpSequenceNumber g_slist_sort now now_ms fir_flag true st new nackbuf =
      Ok (n, b, st', pkts) /\ zlen b = 120 /\
    added_ok now (kept st new) new added /\ outcome now now_ms fir_flag st new added n b st' pkts.
Proof.
  intros Hwf Hn Hb Hz. destruct (kept_wf st new Hwf) as (Hc & Hl & Hok).
  unfold KeepTrackRtpSequenceNumber. cbn [negb]. cbv zeta.
  pose proof (jump_eq st new Hwf Hn) as Hj. cbv zeta in Hj. rewrite Hj. clear Hj.
  destruct (fill_kept now st new Hc Hn) as (added & -> & Hadd). cbn [bind].
  rewrite visit_back_spec, rev_involutive, app_nil_r, asked_eq by exact Hok.
  rewrite pop_heads_spec by lia. change (skipn _ _) with (tracked now (kept st new) added new).
  change (RETRANSMIT_PACKETS_LIMIT <? zlen (asked now st new)) with (100 <? zlen (asked now st new)).
  change (KEY_FRAME_INTERVAL <=? now_ms - last_fir_request st) with (3000 <=? now_ms - last_fir_request st).
  fold (cleared now now_ms st new). exists added.
  destruct (cleared now now_ms st new) eqn:Ecl.
  - destruct fir_flag.
    + destruct (SendFirPacket_ok (fir_seq st)) as (s & pkts & -> & ->). cbn [bind].
      eexists _, _, _, _. split; [reflexivity|]. split; [exact Hz|]. split; [exact Hadd|].
      now apply Cleared.
    + eexists _, _, _, _. split; [reflexivity|]. split; [exact Hz|]. split; [exact Hadd|].
      now apply Cleared.
  - destruct (asked now st new) as [|a nums] eqn:Ea.
    + cbn [RtcpNackCreate bind]. eexists _, _, _, _. split; [reflexivity|].
      split; [exact Hz|]. split; [exact Hadd|]. now apply Quiet.
    + rewrite <- Ea.
      assert (Hin : forall n, In n (asked now st new) -> exists x, In x (kept st new) /\ seq x = n).
      { intros n Hi. apply in_asked in Hi as (x & Hx & He & _). eauto. }
      assert (Hu : Forall in_u16 (asked now st new)).
      { apply Forall_forall. intros n Hi. destruct (Hin n Hi) as (x & Hx & <-).
        destruct (in_window _ x Hc Hl Hx) as (y & i & _ & _ & -> & _). apply (u16_range (y + i)). }
      destruct (NackCreate_spec (kept st new) (asked now st new) nackbuf Hc Hl Hu
        ltac:(congruence) Hin Hb Hz) as (b & n & l' & -> & Hzb & Hr & Hg & Hs & Hset).
      cbn [bind]. eexists _, _, _, _. split; [reflexivity|]. split; [exact Hzb|].
      split; [exact Hadd|]. eapply Asks; eauto. congruence.
Qed.

Lemma consecutive_app l added now new :
  consecutive l -> run_from (last_seqn l new) added ->
  consecutive (map (fun s => fst (visit now new s)) l ++ added).
Proof.
  intros Hc Hr. unfold last_seqn in Hr.
  set (f := fun s => fst (visit now new s)).
  assert (Hf : forall x, seq (f x) = seq x) by (intros; apply visit_seq).
  destruct l as [|x l]; cbn [map app consecutive end_of] in *.
  - destruct added as [|y added]; cbn in *; [exact I|]. destruct Hr as [-> Hr].
    split; [apply u16_range|exact Hr].
  - destruct Hc as [Hx Hl]. rewrite Hf. split; [exact Hx|]. apply run_from_app.
    rewrite run_from_map, end_of_map by exact Hf. auto.
Qed.

Lemma tracked_wf now l added new :
  consecutive l -> Forall node_ok l -> added_ok now l new added ->
  consecutive (tracked now l added new) /\ zlen (tracked now l added new) <= 160 /\
  Forall node_ok (tracked now l added new).
Proof.
  intros Hc Hok (Hr & Ha & _). unfold tracked. cbv zeta. split; [|split].
  - apply consecutive_skipn. now apply consecutive_app.
  - unfold zlen. rewrite length_skipn. lia.
  - apply Forall_skipn, Forall_app. split; [|exact Ha]. apply Forall_map.
    eapply Forall_impl; [|exact Hok]. intros x Hx. now apply visit_node_ok.
Qed.

Lemma outcome_wf now now_ms fir_flag st new added n b st' pkts :
  wf_receiver st -> added_ok now (kept st new) new added ->
  outcome now now_ms fir_flag st new added n b st' pkts -> wf_receiver st' /\ 0 <= n <= 56.
Proof.
  intros Hwf Ha Ho. destruct (kept_wf st new Hwf) as (Hc & _ & Hok).
  destruct (tracked_wf now (kept st new) added new Hc Hok Ha) as (H1 & H2 & H3).
  destruct Ho as [b s pkts _ Hs| |]; (split; [|lia]); try (split; assumption).
  assert (E : last_seqs s = []) by (destruct fir_flag; [subst|destruct Hs; subst]; reflexivity).
  split; rewrite E; [exact I|vm_compute; discriminate|constructor].
Qed.

(** The states the handler can bring the receiver to, from its constructor. *)
Inductive reachable : receiver -> Prop :=
| reach_init : reachable (mk_recv [] 0 true 0)
| reach_packet now now_ms fir_flag locked st new nackbuf n b st' pkts :
    reachable st -> in_u16 new -> bytes nackbuf -> zlen nackbuf = 120 ->
    KeepTrackRtpSequenceNumber g_slist_sort now now_ms fir_flag locked st new nackbuf =
      Ok (n, b, st', pkts) ->
    reachable st'.

Lemma reachable_wf st : reachable st -> wf_receiver st.
Proof.
  induction 1 as [|now now_ms flag locked st new nackbuf n b st' pkts _ Hwf Hn Hb Hz E].
  - split; [exact I|vm_compute; discriminate|constructor].
  - destruct locked; [|cbn in E; injection E as <- <- <- <-; exact Hwf].
    destruct (KeepTrack_outcome now now_ms flag st new nackbuf Hwf Hn Hb Hz)
      as (added & n1 & b1 & st1 & pkts1 & E1 & _ & Ha & Ho).
    rewrite E1 in E. injection E as <- <- <- <-.
    exact (proj1 (outcome_wf _ _ _ _ _ _ _ _ _ _ Hwf Ha Ho)).
Qed.

(** C12. In every reachable state the receiver's list is a run of at most 160
    consecutive sequence numbers, each asked for at most eleven times; and
    from every reachable state, every packet is handled without leaving a
    buffer or looping, with a message of 0 to 56 bytes (never the error
    value of the NACK builder). *)
Theorem receiver_safe st now now_ms fir_flag locked new nackbuf :
  reachable st -> in_u16 new -> bytes nackbuf -> zlen nackbuf = 120 ->
  wf_receiver st /\ Forall (fun x => 0 <= times x <= 11) (last_seqs st) /\
  exists n b st' pkts,
    KeepTrackRtpSequenceNumber g_slist_sort now now_ms fir_flag locked st new nackbuf =
      Ok (n, b, st', pkts) /\ 0 <= n <= 56 /\ wf_receiver st'.
Proof.
  intros Hr Hn Hb Hz. pose proof (reachable_wf st Hr) as Hwf. split; [exact Hwf|]. split.
  { eapply Forall_impl; [|apply Hwf]. intros x Hx. unfold node_ok in Hx.
    destruct (state x); lia. }
  destruct locked.
  - destruct (KeepTrack_outcome now now_ms fir_flag st new nackbuf Hwf Hn Hb Hz)
      as (added & n & b & st' & pkts & E & _ & Ha & Ho).
    destruct (outcome_wf _ _ _ _ _ _ _ _ _ _ Hwf Ha Ho) as [H1 H2].
    exists n, b, st', pkts. auto.
  - exists 0, nackbuf, st, []. split; [reflexivity|]. split; [lia|exact Hwf].
Qed.

(** C14. The NACK message asks for exactly the numbers that are due: those of
    the list, other than the one just received, that are missing for more
    than 12 ms, or were asked for and are still missing after 155 ms.  When
    none is due there is no message, and when there is one it reads back as
    those numbers in increasing order. *)
Theorem receiver_message st now now_ms fir_flag new nackbuf n b st' pkts :
  wf_receiver st -> in_u16 new -> bytes nackbuf -> zlen nackbuf = 120 ->
  KeepTrackRtpSequenceNumber g_slist_sort now now_ms fir_flag true st new nackbuf =
    Ok (n, b, st', pkts) ->
  cleared now now_ms st new = false ->
  let wanted := fun s =>
    exists x, In x (kept st new) /\ seq x = s /\ seq x <> new /\ due now x = true in
  (n = 0 <-> forall s, ~ wanted s) /\
  (0 < n -> exists l, janus_rtcp_get_nacks (Some (slice b 0 n)) n = Ok l /\
     StronglySorted Z.lt l /\ forall s, In s l <-> wanted s).
Proof.
  intros Hwf Hn Hb Hz E Hcl wanted.
  destruct (KeepTrack_outcome now now_ms fir_flag st new nackbuf Hwf Hn Hb Hz)
    as (added & n1 & b1 & st1 & pkts1 & E1 & _ & Ha & Ho).
  rewrite E1 in E. injection E as <- <- <- <-.
  assert (Hw : forall s, wanted s <-> In s (asked now st new)) by (intros; symmetry; apply in_asked).
  destruct Ho as [b0 s0 pk Hc _|b0 _ Hno|n0 b0 l' _ Hne Hr Hg Hs Hset]; [congruence| |].
  - split; [|lia]. split; [|reflexivity]. intros _ s. rewrite Hw, Hno. cbn. tauto.
  - split; [split; [lia|]|].
    + intros Hno. exfalso. destruct (asked now st new) as [|y r]; [congruence|].
      apply (Hno y), Hw. now left.
    + intros _. exists l'. split; [exact Hg|]. split; [exact Hs|]. intros s. now rewrite Hset, Hw.
Qed.

(** What the list says after a packet is handled and the list is not
    thrown away: every node is an old one, updated, or a new one; a packet
    ahead of the last number (by less than 160, or after a jump) is recorded
    as received at the end of the list, with the skipped numbers before it
    as missing since now; a late packet that is still in the list is marked
    received; and a node's request count grows by one exactly when its
    number is asked for. *)
Theorem receiver_tracks st now now_ms fir_flag new nackbuf n b st' pkts :
  wf_receiver st -> in_u16 new -> bytes nackbuf -> zlen nackbuf = 120 ->
  KeepTrackRtpSequenceNumber g_slist_sort now now_ms fir_flag true st new nackbuf =
    Ok (n, b, st', pkts) ->
  cleared now now_ms st new = false ->
  exists added,
    last_seqs st' = tracked now (kept st new) added new /\
    run_from (last_seqn (kept st new) new) added /\
    zlen added = (let d := (new - last_seqn (kept st new) new) mod 65536 in
                  if d <? 160 then d else 0) /\
    (forall x, In x added -> ts x = now /\ times x = 0 /\
       state x = if seq x =? new then SEQ_RECVED else SEQ_MISSING) /\
    (forall x, In x (kept st new) ->
       let x' := fst (visit now new x) in
       seq x' = seq x /\ (seq x = new -> state x' = SEQ_RECVED) /\
       times x' = times x + (if negb (seq x =? new) && due now x then 1 else 0)).
Proof.
  intros Hwf Hn Hb Hz E Hcl. destruct (kept_wf st new Hwf) as (_ & _ & Hok).
  destruct (KeepTrack_outcome now now_ms fir_flag st new nackbuf Hwf Hn Hb Hz)
    as (added & n1 & b1 & st1 & pkts1 & E1 & _ & (Hr & _ & Hx & Hzl) & Ho).
  rewrite E1 in E. injection E as <- <- <- <-. exists added.
  split; [destruct Ho; [congruence|reflexivity|reflexivity]|].
  split; [exact Hr|]. split; [exact Hzl|]. split; [exact Hx|]. intros x Hin x'.
  rewrite Forall_forall in Hok. specialize (Hok x Hin). split; [apply visit_seq|]. split.
  - intros Hs. unfold x', visit. rewrite Hs, Z.eqb_refl. reflexivity.
  - rewrite <- visit_asks by exact Hok. destruct (snd (visit now new x)) eqn:Ea.
    + destruct (visit_counts now new x Hok Ea) as [Ht _]. exact Ht.
    + unfold x', visit in *. destruct (seq x =? new); [cbn; lia|].
      destruct (_ && _); [discriminate|]. destruct (_ && _ && _); [discriminate|]. cbn; lia.
Qed.
End Receiver.

(** ** Retransmission *)

Definition rp_ok (rp : RtpRetransmitPacket) : Prop :=
  0 <= retries rp <= 5 /\ zlen (buf rp) <= 1500 /\ bytes (buf rp) /\ b16 (buf rp) 2 = seqn rp.

Definition wf_queue (l : list RtpRetransmitPacket) : Prop := zlen l <= 300 /\ Forall rp_ok l.

Lemma pop_while_spec n l :
  (length l <= n)%nat -> pop_while n (zlen l) l = skipn (length l - 300) l.
Proof.
  revert l; induction n as [|n IH]; intros l Hn; cbn [pop_while].
  - now destruct l; [|cbn in Hn; lia].
  - unfold MAX_RETRANSMIT_QUEUE_SIZE, zlen. destruct (Z.ltb_spec 300 (Z.of_nat (length l))).
    + destruct l as [|x l]; [cbn in *; lia|]. cbn [tl length] in *.
      replace (Z.of_nat (S (length l)) - 1) with (zlen l) by (unfold zlen; lia).
      rewrite IH by lia. now replace (S (length l) - 300)%nat with (S (length l - 300)) by lia.
    + now replace (length l - 300)%nat with 0%nat by lia.
Qed.

(** Pushing a packet appends it, unsent, under the sequence number in its
    header and keeps the newest 300. *)
Theorem PushPacket_spec now_ms l b :
  wf_queue l -> bytes b -> 12 <= zlen b <= 1500 ->
  exists l', PushPacket now_ms l b = Ok l' /\ wf_queue l' /\
    l' = skipn (length l - 299) l ++ [mk_rp (b16 b 2) b now_ms 0].
Proof.
  intros [Hl HF] Hb Hz. unfold PushPacket, getSeqNumber. rewrite be16_ok by lia. cbn [bind].
  rewrite pop_while_spec by lia. set (rp := mk_rp (b16 b 2) b now_ms 0).
  eexists. split; [reflexivity|].
  assert (E : skipn (length (l ++ [rp]) - 300) (l ++ [rp]) = skipn (length l - 299) l ++ [rp]).
  { rewrite length_app. cbn [length]. replace (length l + 1 - 300)%nat with (length l - 299)%nat by lia.
    rewrite skipn_app. unfold zlen in Hl. now replace (length l - 299 - length l)%nat with 0%nat by lia. }
  rewrite E. split; [|reflexivity]. split.
  - unfold zlen in *. rewrite length_app, length_skipn. cbn [length]. lia.
  - apply Forall_app. split; [now apply Forall_skipn|]. constructor; [|constructor].
    unfold rp_ok, rp; cbn. repeat split; auto; lia.
Qed.

(** The retransmissions counted in a list. *)
Definition total_retries (l : list RtpRetransmitPacket) : Z :=
  fold_right (fun rp t => retries rp + t) 0 l.

Lemma retransmit_spec now now' s rl :
  Forall rp_ok rl ->
  exists rl' lost sent, retransmit now now' s rl = Ok (rl', lost, sent) /\
    Forall rp_ok rl' /\ length rl' = length rl /\ map seqn rl' = map seqn rl /\
    map buf rl' = map buf rl /\
    total_retries rl' = total_retries rl + zlen sent /\
    0 <= lost <= zlen sent /\ zlen sent <= 1 /\
    (forall pkt, In pkt sent -> p_type pkt = RETRANSMIT_PACKET /\ b16 (p_data pkt) 2 = s /\
       exists a, In a rl /\ buf a = p_data pkt /\ retries a < 5).
Proof.
  intros HF; induction HF as [|rp rl Hrp HF IH]; cbn [retransmit].
  - exists [], 0, []. change (zlen []) with 0. repeat split; auto; try lia; contradiction.
  - assert (Hkeep : exists rl' lost sent,
      Ok (rp :: rl, 0, @nil dataPacket) = Ok (rl', lost, sent) /\
      Forall rp_ok rl' /\ length rl' = length (rp :: rl) /\ map seqn rl' = map seqn (rp :: rl) /\
      map buf rl' = map buf (rp :: rl) /\
      total_retries rl' = total_retries (rp :: rl) + zlen sent /\
      0 <= lost <= zlen sent /\ zlen sent <= 1 /\
      (forall pkt, In pkt sent -> p_type pkt = RETRANSMIT_PACKET /\ b16 (p_data pkt) 2 = s /\
         exists a, In a (rp :: rl) /\ buf a = p_data pkt /\ retries a < 5)).
    { exists (rp :: rl), 0, []. change (zlen []) with 0.
      repeat split; auto; try lia; contradiction. }
    destruct (Z.eqb_spec s (seqn rp)) as [->|Hne].
    + destruct (Z.ltb_spec (retries rp) 5); [|exact Hkeep].
      destruct (_ || _); [|exact Hkeep]. clear Hkeep.
      destruct Hrp as (Hr & Hz & Hb & Hs). unfold data_packet. pose proof (zlen_nonneg (buf rp)).
      replace ((0 <=? zlen (buf rp)) && (zlen (buf rp) <=? 1500) && (zlen (buf rp) <=? zlen (buf rp)))
        with true by lia. cbn [bind]. rewrite slice_all.
      eexists _, _, _. split; [reflexivity|]. cbn [map length seqn buf].
      split; [constructor; [unfold rp_ok; cbn; repeat split; auto; lia|assumption]|].
      repeat (split; [reflexivity|]). split; [cbn; lia|].
      change (zlen [_]) with 1. split; [case_if; lia|]. split; [lia|].
      intros pkt [<-|[]]. cbn. repeat split; auto. exists rp. auto.
    + destruct IH as (rl' & lost & sent & -> & H1 & H2 & H3 & H4 & H5 & H6 & H7 & H8). cbn [bind].
      exists (rp :: rl'), lost, sent. cbn [map length]. split; [reflexivity|].
      split; [now constructor|]. split; [lia|]. split; [congruence|]. split; [congruence|].
      split; [cbn [total_retries fold_right]; fold (total_retries rl'); fold (total_retries rl); lia|].
      split; [exact H6|]. split; [exact H7|].
      intros pkt Hp. destruct (H8 pkt Hp) as (Hx & Hy & a & Ha & Hz). split; [exact Hx|].
      split; [exact Hy|]. exists a. split; [now right|exact Hz].
Qed.

Lemma retransmit_all_spec now now' nacks : forall rl,
  Forall rp_ok rl ->
  exists rl' lost sent, retransmit_all now now' nacks rl = Ok (rl', lost, sent) /\
    Forall rp_ok rl' /\ length rl' = length rl /\ map seqn rl' = map seqn rl /\
    map buf rl' = map buf rl /\ total_retries rl' = total_retries rl + zlen sent /\
    0 <= lost <= zlen sent /\ zlen sent <= zlen nacks /\
    (forall pkt, In pkt sent -> p_type pkt = RETRANSMIT_PACKET /\
       In (b16 (p_data pkt) 2) nacks /\ In (p_data pkt) (map buf rl)).
Proof.
  induction nacks as [|s nacks IH]; intros rl HF; cbn [retransmit_all].
  - exists rl, 0, []. change (zlen []) with 0. repeat split; auto; try lia; contradiction.
  - destruct (retransmit_spec now now' s rl HF) as
      (rl1 & lost1 & sent1 & -> & A1 & A2 & A3 & A4 & A5 & A6 & A7 & A8). cbn [bind].
    destruct (IH rl1 A1) as (rl2 & lost2 & sent2 & -> & B1 & B2 & B3 & B4 & B5 & B6 & B7 & B8).
    cbn [bind]. exists rl2, (lost1 + lost2), (sent1 ++ sent2). split; [reflexivity|].
    rewrite zlen_app, zlen_cons. split; [exact B1|]. split; [lia|]. split; [congruence|].
    split; [congruence|]. split; [lia|]. split; [lia|]. split; [lia|].
    intros pkt Hp. apply in_app_iff in Hp as [Hp|Hp].
    + destruct (A8 pkt Hp) as (Hx & <- & a & Ha & Hb & _). split; [exact Hx|].
      split; [now left|]. rewrite <- Hb. now apply in_map.
    + destruct (B8 pkt Hp) as (Hx & Hy & Hz). split; [exact Hx|]. split; [now right|]. now rewrite <- A4.
Qed.

Lemma total_retries_rev l : total_retries (rev l) = total_retries l.
Proof.
  assert (H : forall a b, total_retries (a ++ b) = total_retries a + total_retries b).
  { induction a as [|x a IH]; intros b; cbn; [reflexivity|]. fold (total_retries (a ++ b)).
    rewrite IH. fold (total_retries a). lia. }
  induction l as [|x l IH]; [reflexivity|]. cbn [rev]. rewrite H, IH. cbn. fold (total_retries l). lia.
Qed.

(** Answering the NACKs of a well-formed compound packet keeps the queue,
    its packets and their order; every packet sent is a stored packet whose
    number was asked for, at most one per requested number; every sending is
    counted in a packet's retries, which stay at most 5; and the result counts
    at most the packets sent. *)
Theorem ProcessRtcpNackPackets_spec now now' l bs :
  wf_queue l -> compound bs ->
  exists l' lost sent,
    ProcessRtcpNackPackets now now' l (concat bs) (zlen (concat bs)) = Ok (l', lost, sent) /\
    wf_queue l' /\ map seqn l' = map seqn l /\ map buf l' = map buf l /\
    total_retries l' = total_retries l + zlen sent /\
    0 <= lost <= zlen sent /\ zlen sent <= zlen (flat_map b_nacks bs) /\
    (forall pkt, In pkt sent -> p_type pkt = RETRANSMIT_PACKET /\
       In (b16 (p_data pkt) 2) (flat_map b_nacks bs) /\ In (p_data pkt) (map buf l)).
Proof.
  intros [Hl HF] Hc. unfold ProcessRtcpNackPackets. rewrite get_nacks_compound by exact Hc.
  cbn [bind]. destruct (retransmit_all_spec now now' (flat_map b_nacks bs) (rev l)) as
    (rl & lost & sent & -> & H1 & H2 & H3 & H4 & H5 & H6 & H7 & H8); [now apply Forall_rev|].
  cbn [bind]. exists (rev rl), lost, sent. split; [reflexivity|].
  split. { split; [unfold zlen in *; rewrite !length_rev in *; lia|now apply Forall_rev]. }
  rewrite !map_rev in *. rewrite H3, H4, !rev_involutive.
  rewrite total_retries_rev in H5. rewrite total_retries_rev, H5.
  do 3 (split; [reflexivity|]). split; [exact H6|]. split; [exact H7|].
  intros pkt Hp. destruct (H8 pkt Hp) as (Hx & Hy & Hz).
  split; [exact Hx|]. split; [exact Hy|]. now apply in_rev.
Qed.

(** ** Concrete runs *)

(** The packet after 10, 11 and 12, of which 11 is missing. *)
Definition gap : receiver :=
  mk_recv [mk_seq 0 10 SEQ_RECVED 0; mk_seq 0 11 SEQ_MISSING 0; mk_seq 0 12 SEQ_RECVED 0] 0 true 0.

Lemma gap_wf : wf_receiver gap.
Proof.
  split.
  - repeat split; vm_compute; congruence.
  - vm_compute. discriminate.
  - repeat constructor; vm_compute; congruence.
Qed.

Lemma nackbuf_bytes : bytes (zeros 120).
Proof. apply bytes_forallb. reflexivity. Qed.

Definition gap_message : list Z :=
  [129; 205; 0; 3; 0; 0; 0; 0; 0; 0; 0; 0; 0; 11; 0; 0] ++ zeros 104.

Definition gap_after : receiver :=
  mk_recv [mk_seq 0 10 SEQ_RECVED 0; mk_seq 20000 11 SEQ_NACKED 1; mk_seq 0 12 SEQ_RECVED 0;
           mk_seq 20000 13 SEQ_RECVED 0] 0 true 0.

Example gap_run :
  KeepTrackRtpSequenceNumber isort 20000 20 false true gap 13 (zeros 120) =
    Ok (16, gap_message, gap_after, []).
Proof. vm_compute. reflexivity. Qed.

Lemma receiver_safe_witness :
  exists n b st' pkts,
    KeepTrackRtpSequenceNumber isort 20000 20 false true (mk_recv [] 0 true 0) 13 (zeros 120) =
      Ok (n, b, st', pkts) /\ 0 <= n <= 56 /\ wf_receiver st'.
Proof.
  apply (receiver_safe isort isort_perm isort_sorted (mk_recv [] 0 true 0) 20000 20 false true 13
    (zeros 120)); [apply reach_init|int_unfold; lia|apply nackbuf_bytes|reflexivity].
Defined.

Lemma receiver_message_witness :
  exists l, janus_rtcp_get_nacks (Some (slice gap_message 0 16)) 16 = Ok l /\
    StronglySorted Z.lt l /\ forall s, In s l <->
      exists x, In x (kept gap 13) /\ seq x = s /\ seq x <> 13 /\ due 20000 x = true.
Proof.
  apply (receiver_message isort isort_perm isort_sorted gap 20000 20 false 13 (zeros 120) 16
    gap_message gap_after [] gap_wf); [int_unfold; lia|apply nackbuf_bytes|reflexivity| | |lia].
  - vm_compute. reflexivity.
  - vm_compute. reflexivity.
Defined.

Lemma receiver_tracks_witness :
  exists added, last_seqs gap_after = tracked 20000 (kept gap 13) added 13 /\
    run_from (last_seqn (kept gap 13) 13) added /\ zlen added = 1.
Proof.
  destruct (receiver_tracks isort isort_perm isort_sorted gap 20000 20 false 13 (zeros 120) 16
    gap_message gap_after [] gap_wf) as (added & H1 & H2 & H3 & _);
    [int_unfold; lia|apply nackbuf_bytes|reflexivity|vm_compute; reflexivity|vm_compute; reflexivity|].
  exists added. split; [exact H1|]. split; [exact H2|]. rewrite H3. reflexivity.
Defined.

Definition kept_packet : RtpRetransmitPacket :=
  mk_rp 6 [128; 96; 0; 6; 0; 0; 0; 0; 0; 0; 0; 1; 42] 100 0.

Lemma kept_packet_wf : wf_queue [kept_packet].
Proof.
  split; [vm_compute; discriminate|]. constructor; [|constructor].
  split; [vm_compute; split; discriminate|]. split; [vm_compute; discriminate|].
  split; [apply bytes_forallb; reflexivity|reflexivity].
Qed.

Lemma PushPacket_witness :
  exists l', PushPacket 7 [kept_packet] (buf kept_packet) = Ok l' /\ wf_queue l' /\
    l' = [kept_packet; mk_rp 6 (buf kept_packet) 7 0].
Proof.
  apply (PushPacket_spec 7 [kept_packet] (buf kept_packet) kept_packet_wf);
    [apply bytes_forallb; reflexivity|vm_compute; split; discriminate].
Defined.

(** The sample compound packet asks for 5, 6 and 8. *)
Lemma ProcessRtcpNackPackets_witness :
  exists l' lost sent,
    ProcessRtcpNackPackets 150 151 [kept_packet] (concat sample) (zlen (concat sample)) =
      Ok (l', lost, sent) /\
    wf_queue l' /\ map seqn l' = [6] /\ map buf l' = [buf kept_packet] /\
    total_retries l' = 0 + zlen sent /\
    0 <= lost <= zlen sent /\ zlen sent <= zlen (flat_map b_nacks sample) /\
    (forall pkt, In pkt sent -> p_type pkt = RETRANSMIT_PACKET /\
       In (b16 (p_data pkt) 2) (flat_map b_nacks sample) /\ In (p_data pkt) [buf kept_packet]).
Proof. exact (ProcessRtcpNackPackets_spec 150 151 [kept_packet] sample kept_packet_wf sample_compound). Defined.

Example answered :
  match ProcessRtcpNackPackets 150 151 [kept_packet] (concat sample) (zlen (concat sample)) with
  | Ok (l, lost, sent) => (map retries l, lost, sent) = ([1], 1, [mk_data RETRANSMIT_PACKET (buf kept_packet)])
  | _ => False
  end.
Proof. vm_compute. reflexivity. Qed.

(** [SendRtcpNackList] copies as many bytes as the builder returned, also when
    it returned -1: a list that needs more than 27 blocks overruns. *)
Lemma SendRtcpNackList_overrun :
  let nums := map (fun i => 17 * Z.of_nat i) (List.seq 0 28) in
  SendRtcpNackList isort nums OTHER_PACKET (zeros 120) = Oob.
Proof. vm_compute. reflexivity. Qed.
End NackFacts.
