(* ===== verification/Remb.v ===== *)
(** * The REMB processor

    Models src/orbit/rtp/remb_processor.cc: the counting of NACKs in a window
    of two seconds and the halving of the bitrate cap when a link is slow.  The
    REMB packet is built with the builder of JanusRtcp; the code that would send
    it is commented out, so it is only returned here as [built]. *)

From S2P Require Import Prelude Wire JanusRtcp JanusWalk JanusCompound JanusRewrite JanusBuild Nack.
Import Wire JanusRtcp JanusRewrite JanusBuild Nack.

Module Remb.

Definition USEC_PER_SEC : Z := 1000000.
Definition SLOW_LINK_NACKS_PER_SEC : Z := 8.

(** [nack_period_ts_], [last_slowlink_time_] and [nack_recent_cnt_] are 32-bit
    and the constructor leaves them as they are. *)
Record RembProcessor := mk_remb {
  bitrate_ : Z;
  nack_period_ts_ : Z;
  last_slowlink_time_ : Z;
  nack_recent_cnt_ : Z
}.

Definition new_RembProcessor (ts last cnt : Z) : RembProcessor := mk_remb 0 ts last cnt.

Definition SetBitrate (p : RembProcessor) (bitrate : Z) : RembProcessor :=
  mk_remb bitrate (nack_period_ts_ p) (last_slowlink_time_ p) (nack_recent_cnt_ p).

(** [rtcpbuf] is the buffer on the stack. *)
Definition SendRembPacket (rtcpbuf : list Z) (bitrate : Z) : res dataPacket :=
  let! (_, b) := janus_rtcp_remb (Some rtcpbuf) 24 bitrate in
  match b with
  | Some b => data_packet REMB_PACKET b 24
  | None => Oob
  end.

Definition VideoCallSlowLink (rtcpbuf : list Z) (p : RembProcessor) (uplink video : Z)
    : res (RembProcessor * list dataPacket) :=
  if negb (uplink =? 0) && (video =? 0) then Ok (p, [])
  else if (uplink =? 0) && negb (video =? 0) then
    let bitrate := if 0 <? bitrate_ p then bitrate_ p else 512 * 1024 in
    let bitrate := bitrate / 2 in
    let bitrate := if bitrate <? 64 * 1024 then 64 * 1024 else bitrate in
    let! packet := SendRembPacket rtcpbuf bitrate in
    Ok (SetBitrate p bitrate, [packet])
  else Ok (p, []).

(** [now] is a 64-bit time in microseconds; [now - t] is computed in 64 bits,
    the store into a field keeps 32. *)
Definition SlowLinkUpdate (rtcpbuf : list Z) (p : RembProcessor) (nacks video uplink now : Z)
    : res (RembProcessor * list dataPacket) :=
  let p :=
    if 2 * USEC_PER_SEC <? u64 (now - nack_period_ts_ p)
    then mk_remb (bitrate_ p) (u32 now) (last_slowlink_time_ p) 0 else p in
  let cnt := u32 (nack_recent_cnt_ p + nacks) in
  let p := mk_remb (bitrate_ p) (nack_period_ts_ p) (last_slowlink_time_ p) cnt in
  if (SLOW_LINK_NACKS_PER_SEC <=? cnt) && (1 * USEC_PER_SEC <? u64 (now - last_slowlink_time_ p))
  then
    let! (p, built) := VideoCallSlowLink rtcpbuf p uplink video in
    Ok (mk_remb (bitrate_ p) (u32 now) (u32 now) 0, built)
  else Ok (p, []).

(** ** Properties *)

(** Half of a bitrate, with its default and its floor. *)
Definition halved (bitrate : Z) : Z :=
  Z.max 65536 ((if 0 <? bitrate then bitrate else 524288) / 2).

Definition downlink (uplink video : Z) : bool := (uplink =? 0) && negb (video =? 0).

Lemma SendRembPacket_ok rtcpbuf bitrate :
  bytes rtcpbuf -> zlen rtcpbuf = 24 -> 0 <= bitrate <= max_rate ->
  exists packet, SendRembPacket rtcpbuf bitrate = Ok packet.
Proof.
  intros Hb Hz Hr. unfold SendRembPacket.
  destruct (remb_built rtcpbuf bitrate Hb ltac:(lia) Hr) as (p' & -> & Hz' & _). cbn [bind].
  unfold data_packet. rewrite Hz', Hz. eexists. reflexivity.
Qed.

Lemma VideoCallSlowLink_ok rtcpbuf p uplink video :
  bytes rtcpbuf -> zlen rtcpbuf = 24 -> 0 <= bitrate_ p <= max_rate ->
  exists built,
    VideoCallSlowLink rtcpbuf p uplink video =
      Ok (if downlink uplink video then SetBitrate p (halved (bitrate_ p)) else p, built) /\
    zlen built = b2z (downlink uplink video).
Proof.
  intros Hb Hz Hr. unfold VideoCallSlowLink, downlink.
  destruct (uplink =? 0), (video =? 0); cbn [negb andb];
    try (eexists; split; reflexivity).
  change (512 * 1024) with 524288. change (64 * 1024) with 65536.
  set (h := (if 0 <? bitrate_ p then bitrate_ p else 524288) / 2).
  assert (Hh : 0 <= h <= max_rate).
  { subst h. unfold max_rate in *. destruct (Z.ltb_spec 0 (bitrate_ p)); dlia. }
  replace (if h <? 65536 then 65536 else h) with (halved (bitrate_ p))
    by (unfold halved; fold h; destruct (Z.ltb_spec h 65536); lia).
  destruct (SendRembPacket_ok rtcpbuf (halved (bitrate_ p)) Hb Hz) as (packet & ->).
  { unfold halved. fold h. unfold max_rate in *. lia. }
  cbn [bind]. eexists. split; reflexivity.
Qed.

(** An update of the slow link.  As long as the 64-bit time fits in the 32 bits
    of the fields (the first 71 minutes), NACKs are counted in a window of two
    seconds, and when there are eight and the last reaction is more than a second
    ago the bitrate cap of a video downlink is halved, but not below 64 kbit/s,
    and the count starts again.  From two seconds after that on, every call finds
    its window expired: the NACKs of earlier calls are never counted, and the
    reactions are no longer a second apart. *)
Theorem slow_link_spec rtcpbuf p nacks video uplink now :
  bytes rtcpbuf -> zlen rtcpbuf = 24 -> 0 <= bitrate_ p <= max_rate ->
  in_u32 (nack_period_ts_ p) -> in_u32 (last_slowlink_time_ p) -> in_u32 (nack_recent_cnt_ p) ->
  0 <= nacks -> nack_recent_cnt_ p + nacks < 4294967296 -> in_u64 now ->
  let early := now <? 4294967296 in
  let expired := if early then 2000000 <? now - nack_period_ts_ p else true in
  let count := (if expired then 0 else nack_recent_cnt_ p) + nacks in
  let due := if early then 1000000 <? now - last_slowlink_time_ p else true in
  (if early then nack_period_ts_ p <= now /\ last_slowlink_time_ p <= now
   else 4294967296 + 2000000 <= now) ->
  exists built,
    SlowLinkUpdate rtcpbuf p nacks video uplink now =
      Ok (if (8 <=? count) && due then
            mk_remb (if downlink uplink video then halved (bitrate_ p) else bitrate_ p)
              (u32 now) (u32 now) 0
          else
            mk_remb (bitrate_ p) (if expired then u32 now else nack_period_ts_ p)
              (last_slowlink_time_ p) count, built) /\
    zlen built = b2z ((8 <=? count) && due && downlink uplink video).
Proof.
  intros Hb Hz Hr Hts Hl Hc Hn Hs Hnow early expired count due Hcase.
  assert (Hd : forall ts lim, in_u32 ts -> 0 <= lim <= 2000000 ->
      (if early then ts <= now else 4294967296 + 2000000 <= now) ->
      (lim <? u64 (now - ts)) = if early then lim <? now - ts else true).
  { subst early. intros ts lim Ht Hlim H. destruct (Z.ltb_spec now 4294967296).
    - now rewrite u64_id by (int_unfold; lia).
    - rewrite u64_id by (int_unfold; lia). int_unfold. lia. }
  assert (E1 : (2 * USEC_PER_SEC <? u64 (now - nack_period_ts_ p)) = expired).
  { apply (Hd _ 2000000); [assumption|lia|]. destruct early; tauto. }
  assert (E2 : (1 * USEC_PER_SEC <? u64 (now - last_slowlink_time_ p)) = due).
  { apply (Hd _ 1000000); [assumption|lia|]. destruct early; tauto. }
  unfold SlowLinkUpdate. rewrite E1. set (p1 := if expired then _ else _).
  assert (Ep : bitrate_ p1 = bitrate_ p /\ last_slowlink_time_ p1 = last_slowlink_time_ p /\
    u32 (nack_recent_cnt_ p1 + nacks) = count /\
    nack_period_ts_ p1 = if expired then u32 now else nack_period_ts_ p).
  { subst p1 count. destruct expired; cbn; repeat split; apply u32_id; int_unfold; lia. }
  destruct Ep as (Eb & El & Ec & Et).
  cbn [bitrate_ nack_period_ts_ last_slowlink_time_]. rewrite Ec, El, E2, Eb, Et.
  change SLOW_LINK_NACKS_PER_SEC with 8.
  destruct ((8 <=? count) && due); cbn [andb]; [|eexists; split; reflexivity].
  destruct (VideoCallSlowLink_ok rtcpbuf (mk_remb (bitrate_ p)
      (if expired then u32 now else nack_period_ts_ p) (last_slowlink_time_ p) count) uplink video)
    as (built & -> & Hlen); [assumption..|].
  cbn [bind]. exists built. split; [|exact Hlen]. destruct (downlink uplink video); reflexivity.
Qed.

(** Seven NACKs, twice, within a second: eight are reached while the clock fits
    in 32 bits, never later. *)
Example slow_link_spec_witness :
  let p := mk_remb 400000 1000000 0 7 in
  (exists built, SlowLinkUpdate (zeros 24) p 7 1 0 2000000 =
     Ok (mk_remb 200000 2000000 2000000 0, built) /\ zlen built = 1) /\
  (exists built, SlowLinkUpdate (zeros 24) p 7 1 0 5000000000 =
     Ok (mk_remb 400000 705032704 0 7, built) /\ zlen built = 0).
Proof.
  split.
  - apply (slow_link_spec (zeros 24) (mk_remb 400000 1000000 0 7) 7 1 0 2000000);
      [apply bytes_forallb; reflexivity|reflexivity|vm_compute; intuition congruence..].
  - apply (slow_link_spec (zeros 24) (mk_remb 400000 1000000 0 7) 7 1 0 5000000000);
      [apply bytes_forallb; reflexivity|reflexivity|vm_compute; intuition congruence..].
Defined.
End Remb.
