(* ===== verification/NtpTime.v ===== *)
(** * Times of the sender's clock

    Models src/orbit/webrtc/system_wrappers/source/clock.cc (the conversion of
    NTP times), rtp_to_ntp.cc, timestamp_extrapolator.cc, and
    modules/rtp_rtcp/source/remote_ntp_time_estimator.cc: from the sender
    reports of a stream to the time, on the receiver's clock, at which a packet
    with a given RTP timestamp was captured.  What the clock answers is an
    argument, in the order of the calls.  The lock of the extrapolator and the
    logging are left out. *)

From Stdlib Require Import SpecFloat.
From S2P Require Import Prelude Floats.
Import Floats.

Module NtpTime.

(** ** clock.cc *)

(** 4.294967296E6, the double next to 2^32 / 1000. *)
Definition kNtpFracPerMs : spec_float := S754_finite false 4611686018427388 (-30).

Definition NtpToMs (ntp_secs ntp_frac : Z) : Z :=
  let ntp_frac_ms := f64_div (f64_of_Z ntp_frac) kNtpFracPerMs in
  s64 (1000 * ntp_secs + to_s64 (f64_add ntp_frac_ms f64_half)).

(** ** rtp_to_ntp.cc *)

Record RtcpMeasurement := mk_measurement {
  ntp_secs : Z;
  ntp_frac : Z;
  rtp_timestamp : Z
}.

Definition CheckForWrapArounds (new_timestamp old_timestamp : Z) : Z :=
  if new_timestamp <? old_timestamp then
    if 0 <? s32 (new_timestamp - old_timestamp) then 1 else 0
  else if 0 <? s32 (old_timestamp - new_timestamp) then -1 else 0.

(** The result when it is true. *)
Definition CompensateForWrapAround (new_timestamp old_timestamp : Z) : option Z :=
  let wraps := CheckForWrapArounds new_timestamp old_timestamp in
  if wraps <? 0 then None else Some (new_timestamp + Z.shiftl wraps 32).

Definition CalculateFrequency (rtcp_ntp_ms1 rtp_timestamp1 rtcp_ntp_ms2 rtp_timestamp2 : Z) : option spec_float :=
  if rtcp_ntp_ms1 <=? rtcp_ntp_ms2 then None
  else Some (f64_div (f64_of_Z (u32 (rtp_timestamp1 - rtp_timestamp2)))
               (f64_of_Z (s64 (rtcp_ntp_ms1 - rtcp_ntp_ms2)))).

(** The answer, the list, and whether the report is new. *)
Definition UpdateRtcpList (secs frac timestamp : Z) (rtcp_list : list RtcpMeasurement)
    : bool * list RtcpMeasurement * bool :=
  if (secs =? 0) && (frac =? 0) then (false, rtcp_list, false)
  else if existsb (fun m => (secs =? ntp_secs m) && (frac =? ntp_frac m)) rtcp_list then (true, rtcp_list, false)
  else
    let l := if zlen rtcp_list =? 2 then removelast rtcp_list else rtcp_list in
    (true, mk_measurement secs frac timestamp :: l, true).

(** [rtcp.front()] and [rtcp.back()] of a list of two. *)
Definition RtpToNtpMs (timestamp : Z) (newest oldest : RtcpMeasurement) : option Z :=
  let rtcp_ntp_ms_new := NtpToMs (ntp_secs newest) (ntp_frac newest) in
  let rtcp_ntp_ms_old := NtpToMs (ntp_secs oldest) (ntp_frac oldest) in
  let rtcp_timestamp_old := rtp_timestamp oldest in
  match CompensateForWrapAround (rtp_timestamp newest) rtcp_timestamp_old with
  | None => None
  | Some rtcp_timestamp_new =>
      match CalculateFrequency rtcp_ntp_ms_new (u32 rtcp_timestamp_new) rtcp_ntp_ms_old rtcp_timestamp_old with
      | None => None
      | Some freq_khz =>
          let offset := f64_sub (f64_of_Z rtcp_timestamp_new) (f64_mul freq_khz (f64_of_Z rtcp_ntp_ms_new)) in
          match CompensateForWrapAround (u32 timestamp) rtcp_timestamp_old with
          | None => None
          | Some rtp_timestamp_unwrapped =>
              let rtp_timestamp_ntp_ms :=
                f64_add (f64_div (f64_sub (f64_of_Z rtp_timestamp_unwrapped) offset) freq_khz) f64_half in
              if f64_ltb rtp_timestamp_ntp_ms f64_zero then None else Some (to_s64 rtp_timestamp_ntp_ms)
          end
      end
  end.

(** ** timestamp_extrapolator.cc *)

Record TimestampExtrapolator := mk_extrapolator {
  _w : spec_float * spec_float;
  _pP : (spec_float * spec_float) * (spec_float * spec_float);
  _startMs : Z;
  _prevMs : Z;
  _firstTimestamp : Z;
  _wrapArounds : Z;
  _prevUnwrappedTimestamp : Z;
  _prevWrapTimestamp : Z;
  _firstAfterReset : bool;
  _packetCount : Z;
  _detectorAccumulatorPos : spec_float;
  _detectorAccumulatorNeg : spec_float
}.

(** The constants the constructor sets. *)
Definition _lambda : spec_float := f64_of_Z 1.
Definition _startUpFilterDelayInPackets : Z := 2.
Definition _alarmThreshold : spec_float := f64_of_Z 60000.
Definition _accDrift : spec_float := f64_of_Z 6600.
Definition _accMaxError : spec_float := f64_of_Z 7000.
Definition _pP11 : spec_float := f64_of_Z 10000000000.

Definition Reset (start_ms : Z) : TimestampExtrapolator :=
  mk_extrapolator (f64_of_Z 90, f64_zero) ((f64_of_Z 1, f64_zero), (f64_zero, _pP11))
    start_ms start_ms 0 0 (-1) (-1) true 0 f64_zero f64_zero.

(** The constructor sets every field and resets them. *)
Definition new_TimestampExtrapolator (start_ms : Z) : TimestampExtrapolator := Reset start_ms.

Definition set_wraps (e : TimestampExtrapolator) (wraps prev : Z) : TimestampExtrapolator :=
  mk_extrapolator (_w e) (_pP e) (_startMs e) (_prevMs e) (_firstTimestamp e) wraps (_prevUnwrappedTimestamp e) prev
    (_firstAfterReset e) (_packetCount e) (_detectorAccumulatorPos e) (_detectorAccumulatorNeg e).
Definition set_prevMs (e : TimestampExtrapolator) (ms : Z) : TimestampExtrapolator :=
  mk_extrapolator (_w e) (_pP e) (_startMs e) ms (_firstTimestamp e) (_wrapArounds e) (_prevUnwrappedTimestamp e)
    (_prevWrapTimestamp e) (_firstAfterReset e) (_packetCount e) (_detectorAccumulatorPos e) (_detectorAccumulatorNeg e).
Definition set_guess (e : TimestampExtrapolator) (w1 : spec_float) (first : Z) : TimestampExtrapolator :=
  mk_extrapolator (fst (_w e), w1) (_pP e) (_startMs e) (_prevMs e) first (_wrapArounds e) (_prevUnwrappedTimestamp e)
    (_prevWrapTimestamp e) false (_packetCount e) (_detectorAccumulatorPos e) (_detectorAccumulatorNeg e).
Definition set_detector (e : TimestampExtrapolator) (pos neg : spec_float) : TimestampExtrapolator :=
  mk_extrapolator (_w e) (_pP e) (_startMs e) (_prevMs e) (_firstTimestamp e) (_wrapArounds e) (_prevUnwrappedTimestamp e)
    (_prevWrapTimestamp e) (_firstAfterReset e) (_packetCount e) pos neg.
Definition set_filter (e : TimestampExtrapolator) (w : spec_float * spec_float)
    (pP : (spec_float * spec_float) * (spec_float * spec_float)) (unwrapped count : Z) : TimestampExtrapolator :=
  mk_extrapolator w pP (_startMs e) (_prevMs e) (_firstTimestamp e) (_wrapArounds e) unwrapped
    (_prevWrapTimestamp e) (_firstAfterReset e) count (_detectorAccumulatorPos e) (_detectorAccumulatorNeg e).

(** The method of the extrapolator; [CheckForWrapArounds] above is the function. *)
Definition CheckForWrapArounds_ (e : TimestampExtrapolator) (ts90khz : Z) : TimestampExtrapolator :=
  if _prevWrapTimestamp e =? -1 then set_wraps e (_wrapArounds e) ts90khz
  else
    let wraps :=
      if ts90khz <? _prevWrapTimestamp e then
        if 0 <? s32 (ts90khz - _prevWrapTimestamp e) then s32 (_wrapArounds e + 1) else _wrapArounds e
      else if 0 <? s32 (_prevWrapTimestamp e - ts90khz) then s32 (_wrapArounds e - 1) else _wrapArounds e in
    set_wraps e wraps ts90khz.

Definition DelayChangeDetection (e : TimestampExtrapolator) (error : spec_float) : bool * TimestampExtrapolator :=
  let error := if f64_ltb f64_zero error then f64_min error _accMaxError else f64_max error (f64_opp _accMaxError) in
  let pos := f64_max (f64_sub (f64_add (_detectorAccumulatorPos e) error) _accDrift) f64_zero in
  let neg := f64_min (f64_add (f64_add (_detectorAccumulatorNeg e) error) _accDrift) f64_zero in
  if f64_ltb _alarmThreshold pos || f64_ltb neg (f64_opp _alarmThreshold)
  then (true, set_detector e f64_zero f64_zero)
  else (false, set_detector e pos neg).

(** The distance of two wraps: 2^32 - 1. *)
Definition wrapped (e : TimestampExtrapolator) : Z := _wrapArounds e * (Z.shiftl 1 32 - 1).

(** The update of the filter after its first guess: [t] is [tMs - _startMs]. *)
Definition UpdateFilter (e : TimestampExtrapolator) (t unwrapped : Z) : TimestampExtrapolator :=
  let tMs := f64_of_Z t in
  let (w0, w1) := _w e in
  let residual :=
    f64_sub (f64_sub (f64_sub (f64_of_Z unwrapped) (f64_of_Z (_firstTimestamp e))) (f64_mul tMs w0)) w1 in
  let (detected, e) := DelayChangeDetection e residual in
  let '((P00, P01), (P10, P11)) := _pP e in
  let P11 := if detected && (_startUpFilterDelayInPackets <=? _packetCount e) then _pP11 else P11 in
  let K0 := f64_add (f64_mul P00 tMs) P01 in
  let K1 := f64_add (f64_mul P10 tMs) P11 in
  let TPT := f64_add (f64_add _lambda (f64_mul tMs K0)) K1 in
  let K0 := f64_div K0 TPT in
  let K1 := f64_div K1 TPT in
  let w0 := f64_add w0 (f64_mul K0 residual) in
  let w1 := f64_add w1 (f64_mul K1 residual) in
  let scale := f64_div (f64_of_Z 1) _lambda in
  let next (P Ki Pa Pb : spec_float) := f64_mul scale (f64_sub P (f64_add (f64_mul (f64_mul Ki tMs) Pa) (f64_mul Ki Pb))) in
  let p00 := next P00 K0 P00 P10 in
  let p01 := next P01 K0 P01 P11 in
  let p10 := next P10 K1 P00 P10 in
  let p11 := next P11 K1 P01 P11 in
  set_filter e (w0, w1) ((p00, p01), (p10, p11)) unwrapped
    (if _packetCount e <? _startUpFilterDelayInPackets then _packetCount e + 1 else _packetCount e).

Definition Update (e : TimestampExtrapolator) (tMs ts90khz : Z) : TimestampExtrapolator :=
  let e :=
    if f64_ltb (f64_of_Z 10000) (f64_of_Z (s64 (tMs - _prevMs e))) then Reset tMs else set_prevMs e tMs in
  let t := s64 (tMs - _startMs e) in
  let e := CheckForWrapArounds_ e ts90khz in
  let unwrapped_ts90khz := s64 (ts90khz + wrapped e) in
  if (0 <=? _prevUnwrappedTimestamp e) && (unwrapped_ts90khz <? _prevUnwrappedTimestamp e) then e
  else
    let e :=
      if _firstAfterReset e then
        set_guess e (f64_mul (f64_opp (fst (_w e))) (f64_of_Z t)) (u32 unwrapped_ts90khz)
      else e in
    UpdateFilter e t unwrapped_ts90khz.

(** The time, and the extrapolator, whose wraps are counted. *)
Definition ExtrapolateLocalTime (e : TimestampExtrapolator) (timestamp90khz : Z) : Z * TimestampExtrapolator :=
  let e := CheckForWrapArounds_ e timestamp90khz in
  let unwrapped_ts90khz := f64_add (f64_of_Z timestamp90khz) (f64_of_Z (s64 (wrapped e))) in
  let localTimeMs :=
    if _packetCount e =? 0 then -1
    else if _packetCount e <? _startUpFilterDelayInPackets then
      s64 (_prevMs e +
           to_s64 (f64_add (f64_div (f64_sub unwrapped_ts90khz (f64_of_Z (_prevUnwrappedTimestamp e))) (f64_of_Z 90)) f64_half))
    else
      let (w0, w1) := _w e in
      if f64_ltb w0 f64_milli then _startMs e
      else
        let timestampDiff := f64_sub unwrapped_ts90khz (f64_of_Z (_firstTimestamp e)) in
        to_s64 (f64_add (f64_add (f64_of_Z (_startMs e)) (f64_div (f64_sub timestampDiff w1) w0)) f64_half) in
  (localTimeMs, e).

(** ** remote_ntp_time_estimator.cc *)

Definition kTimingLogIntervalMs : Z := 10000.

Record RemoteNtpTimeEstimator := mk_estimator {
  ts_extrapolator_ : TimestampExtrapolator;
  rtcp_list_ : list RtcpMeasurement;
  last_timing_log_ms_ : Z
}.

Definition new_RemoteNtpTimeEstimator (now_ms : Z) : RemoteNtpTimeEstimator :=
  mk_estimator (new_TimestampExtrapolator now_ms) [] (-1).

Definition UpdateRtcpTimestamp (now_ms : Z) (s : RemoteNtpTimeEstimator) (rtt secs frac rtcp_timestamp : Z)
    : bool * RemoteNtpTimeEstimator :=
  match UpdateRtcpList secs frac rtcp_timestamp (rtcp_list_ s) with
  | (false, l, _) => (false, mk_estimator (ts_extrapolator_ s) l (last_timing_log_ms_ s))
  | (true, l, false) => (true, mk_estimator (ts_extrapolator_ s) l (last_timing_log_ms_ s))
  | (true, l, true) =>
      let sender_send_time_ms := NtpToMs secs frac in
      let sender_arrival_time_90k := s64 (s64 (sender_send_time_ms + Z.quot rtt 2) * 90) in
      (true, mk_estimator (Update (ts_extrapolator_ s) now_ms (u32 sender_arrival_time_90k)) l (last_timing_log_ms_ s))
  end.

(** The clock is asked for the NTP time and twice for its own. *)
Definition Estimate (ntp_now now now' : Z) (s : RemoteNtpTimeEstimator) (timestamp : Z)
    : Z * RemoteNtpTimeEstimator :=
  match rtcp_list_ s with
  | newest :: oldest :: _ =>
      match RtpToNtpMs timestamp newest (last (oldest :: tl (tl (rtcp_list_ s))) oldest) with
      | None => (-1, s)
      | Some sender_capture_ntp_ms =>
          let (receiver_capture_ms, e) :=
            ExtrapolateLocalTime (ts_extrapolator_ s) (u32 (sender_capture_ntp_ms * 90)) in
          let ntp_offset := s64 (ntp_now - now) in
          let log := if kTimingLogIntervalMs <? s64 (now' - last_timing_log_ms_ s) then now' else last_timing_log_ms_ s in
          (s64 (receiver_capture_ms + ntp_offset), mk_estimator e (rtcp_list_ s) log)
      end
  | _ => (-1, s)
  end.
End NtpTime.
