(* ===== verification/Speaker.v ===== *)
(** * The speaker estimator

    Models src/orbit/modules/speaker_estimator.cc and speaker_estimator.h: who
    is loudest in each frame, counted over a window of frames, decides who is
    the speaker.  The holders in the map are values, for the map is emptied when
    its holders are handed on.  The energies come from the copy
    of [WebRtcSpl_Energy] in src/orbit/audio_processing/audio_energy.cc. *)

From S2P Require Import Prelude OrderedMap.
Import OrderedMap.

Module Speaker.

Definition kEstimateFrameSize : Z := 50.
Definition kSilence : Z := 10000000.

Record EnergyHolder := mk_holder { last_max_time : Z; max_times : Z; total_energy : Z }.

Record SpeakerEstimator := mk_estimator {
  speaker_counter_map_ : map_t EnergyHolder;
  intra_frame_count_ : list (Z * Z);
  last_speaker_info : list (Z * EnergyHolder);
  frame_count_ : Z;
  defined_frame_size_ : Z
}.

Definition new_SpeakerEstimator (frame_size : Z) : SpeakerEstimator :=
  mk_estimator [] [] [] 0 frame_size.

(** The loop of [CurrentSpeaker]: the stream chosen so far, its number of
    frames and its energy, the latter cut to an [int]. *)
Definition choose (it : Z * EnergyHolder) (s : Z * Z * Z) : Z * Z * Z :=
  let '(max_times_stream_id, max_times0, max_total_energy) := s in
  let (stream_id, holder) := it in
  let max_times_stream_id := if max_times_stream_id =? -1 then stream_id else max_times_stream_id in
  let audio_max_times := max_times holder in
  let total := total_energy holder in
  if (max_times0 <? audio_max_times) ||
     ((audio_max_times =? max_times0) && (max_total_energy <? total))
  then (stream_id, audio_max_times, s32 total)
  else (max_times_stream_id, max_times0, max_total_energy).

Definition CurrentSpeaker (e : SpeakerEstimator) : Z :=
  let '(id, _, _) := fold_left (fun s it => choose it s) (last_speaker_info e) (-1, 0, 0) in id.

Definition UpdateAudioEnergy (e : SpeakerEstimator) (stream_id audio_energy : Z)
    : SpeakerEstimator :=
  mk_estimator (speaker_counter_map_ e) (intra_frame_count_ e ++ [(stream_id, audio_energy)])
    (last_speaker_info e) (frame_count_ e) (defined_frame_size_ e).

(** The loudest stream of a frame: the first with the greatest energy above 0. *)
Definition loudest (l : list (Z * Z)) : Z * Z :=
  fold_left (fun '(max_stream_id, max_audio_energy) '(stream_id, audio_energy) =>
    if max_audio_energy <? audio_energy then (stream_id, audio_energy)
    else (max_stream_id, max_audio_energy)) l (-1, 0).

(** The holder of a stream, made when there is none, gets one more frame. *)
Definition add_frame (audio_energy : Z) (h : EnergyHolder) : EnergyHolder :=
  mk_holder (last_max_time h) (s32 (max_times h + 1)) (s64 (total_energy h + audio_energy)).

Definition count_frame (stream_id audio_energy : Z) (m : map_t EnergyHolder) : map_t EnergyHolder :=
  let holder := match find stream_id m with Some h => h | None => mk_holder 0 0 0 end in
  store stream_id (add_frame audio_energy holder) m.

(** [listener]: whether one is set.  The result says what it is told. *)
Definition NextFrame (listener : bool) (e : SpeakerEstimator) : SpeakerEstimator * option Z :=
  match intra_frame_count_ e with
  | [] => (e, None)
  | l =>
      let (max_stream_id, max_audio_energy) := loudest l in
      let m :=
        if kSilence <? max_audio_energy
        then count_frame max_stream_id max_audio_energy (speaker_counter_map_ e)
        else speaker_counter_map_ e in
      let frame_count := s32 (frame_count_ e + 1) in
      if defined_frame_size_ e <=? frame_count then
        let e' := mk_estimator [] [] m 0 (defined_frame_size_ e) in
        let current_speaker := CurrentSpeaker e' in
        (e', if listener && negb (current_speaker =? -1) then Some current_speaker else None)
      else (mk_estimator m [] (last_speaker_info e) frame_count (defined_frame_size_ e), None)
  end.

(** ** A window of frames *)

(** The measurements of one frame, then its end. *)
Definition frame (listener : bool) (e : SpeakerEstimator) (l : list (Z * Z))
    : SpeakerEstimator * option Z :=
  NextFrame listener (fold_left (fun e '(i, a) => UpdateAudioEnergy e i a) l e).

Fixpoint frames (listener : bool) (e : SpeakerEstimator) (ls : list (list (Z * Z)))
    : SpeakerEstimator * list (option Z) :=
  match ls with
  | [] => (e, [])
  | l :: ls =>
      let (e, told) := frame listener e l in
      let (e, r) := frames listener e ls in (e, told :: r)
  end.

(** The frames that a stream wins, and with what energy. *)
Definition wins (id : Z) (ls : list (list (Z * Z))) : list Z :=
  flat_map (fun l => let (i, a) := loudest l in
    if (kSilence <? a) && (i =? id) then [a] else []) ls.
Definition times (id : Z) (ls : list (list (Z * Z))) : Z := zlen (wins id ls).
Definition energy (id : Z) (ls : list (list (Z * Z))) : Z := fold_right Z.add 0 (wins id ls).

(** ** Counting *)

(** The map [m] says for each stream how many of the frames [ls] it won, and
    with how much energy. *)
Record tracks (ls : list (list (Z * Z))) (m : map_t EnergyHolder) : Prop := {
  tr_sorted : sorted m;
  tr_find : forall i, match find i m with
    | Some h => max_times h = times i ls /\ total_energy h = energy i ls /\ 0 < times i ls
    | None => times i ls = 0
    end
}.

Definition measured (l : list (Z * Z)) : Prop := Forall (fun '(i, a) => i <> -1 /\ in_s32 a) l.

Lemma loudest_measured l :
  measured l -> let (i, a) := loudest l in in_s32 a /\ 0 <= a /\ (0 < a -> i <> -1).
Proof.
  unfold loudest. intros H.
  enough (G : forall s, (let (i, a) := s : Z * Z in in_s32 a /\ 0 <= a /\ (0 < a -> i <> -1)) ->
    let (i, a) := fold_left (fun '(max_stream_id, max_audio_energy) '(stream_id, audio_energy) =>
      if max_audio_energy <? audio_energy then (stream_id, audio_energy)
      else (max_stream_id, max_audio_energy)) l s in in_s32 a /\ 0 <= a /\ (0 < a -> i <> -1)).
  { apply (G (-1, 0)). int_unfold. lia. }
  induction H as [|[i a] l [Hi Ha] _ IH]; intros [si sa] Hs; cbn [fold_left]; [exact Hs|].
  apply IH. destruct Hs as (Hs1 & Hs2 & Hs3). destruct (Z.ltb_spec sa a); [|tauto].
  split; [exact Ha|]. split; [lia|auto].
Qed.

(** The frame [l] is won by [i] with energy [a]; [None] when it is silent. *)
Definition winner (l : list (Z * Z)) : option (Z * Z) :=
  let (i, a) := loudest l in if kSilence <? a then Some (i, a) else None.

Lemma wins_snoc id ls l :
  wins id (ls ++ [l]) = wins id ls ++
    match winner l with Some (i, a) => if i =? id then [a] else [] | None => [] end.
Proof.
  unfold wins, winner. rewrite flat_map_app. cbn [flat_map]. rewrite app_nil_r. f_equal.
  destruct (loudest l) as [i a]. now destruct (kSilence <? a), (i =? id).
Qed.

Lemma sum_app l a : fold_right Z.add 0 (l ++ [a]) = fold_right Z.add 0 l + a.
Proof. induction l as [|x l IH]; cbn; lia. Qed.

Lemma times_snoc id ls l :
  times id (ls ++ [l]) = times id ls + match winner l with
    Some (i, _) => b2z (i =? id) | None => 0 end.
Proof.
  unfold times. rewrite wins_snoc, zlen_app.
  destruct (winner l) as [[i a]|]; [destruct (i =? id)|]; reflexivity.
Qed.

Lemma energy_snoc id ls l :
  energy id (ls ++ [l]) = energy id ls + match winner l with
    Some (i, a) => if i =? id then a else 0 | None => 0 end.
Proof.
  unfold energy. rewrite wins_snoc.
  destruct (winner l) as [[i a]|]; [destruct (i =? id)|]; rewrite ?app_nil_r, ?sum_app; lia.
Qed.

(** Bounds that keep the counters from wrapping. *)
Lemma times_bound id ls : 0 <= times id ls <= zlen ls.
Proof.
  induction ls as [|l ls IH] using rev_ind; [unfold times; cbn; lia|].
  rewrite times_snoc. autorewrite with zlen.
  destruct (winner l) as [[i a]|]; [destruct (i =? id)|]; cbn [b2z]; lia.
Qed.

Lemma energy_bound id ls :
  Forall measured ls -> 0 <= energy id ls <= 2147483647 * zlen ls.
Proof.
  induction ls as [|l ls IH] using rev_ind; intros F; [unfold energy; cbn; lia|].
  apply Forall_app in F as [F Fl]. inversion Fl; subst. specialize (IH F).
  rewrite energy_snoc. autorewrite with zlen. unfold winner.
  pose proof (loudest_measured l) as L. destruct (loudest l) as [i a]. specialize (L ltac:(auto)).
  destruct (kSilence <? a); [destruct (i =? id)|]; int_unfold; lia.
Qed.

Lemma no_energy id ls : times id ls = 0 -> energy id ls = 0.
Proof.
  unfold times, energy. destruct (wins id ls) as [|a l]; [reflexivity|].
  rewrite zlen_cons. pose proof (zlen_nonneg l). lia.
Qed.

Lemma winner_measured l id a : measured l -> winner l = Some (id, a) -> 0 < a /\ in_s32 a.
Proof.
  intros F W. unfold winner in W. pose proof (loudest_measured l F) as L.
  destruct (loudest l) as [i' a']. destruct (Z.ltb_spec kSilence a'); [|discriminate].
  injection W as <- <-. unfold kSilence in *. split; [lia|tauto].
Qed.

(** One more frame. *)
Lemma tracks_frame ls m l :
  tracks ls m -> Forall measured (ls ++ [l]) -> zlen ls < 2147483647 ->
  tracks (ls ++ [l]) (match winner l with Some (i, a) => count_frame i a m | None => m end).
Proof.
  intros [S H] F Hn. apply Forall_app in F as [F Fl]. inversion Fl as [|? ? Ml _]; subst.
  destruct (winner l) as [[id a]|] eqn:W.
  - destruct (winner_measured l id a Ml W) as [Ha Ha']. split; [now apply store_sorted|].
    intros i. unfold count_frame. rewrite find_store by assumption.
    rewrite times_snoc, energy_snoc, W. specialize (H i).
    pose proof (times_bound i ls) as Hb. pose proof (energy_bound i ls F) as He.
    destruct (Z.eqb_spec i id) as [->|Hne].
    + rewrite Z.eqb_refl. cbn [b2z add_frame max_times total_energy].
      destruct (find id m) as [h|].
      * destruct H as (-> & -> & ?). rewrite s32_id, s64_id by (int_unfold; lia). lia.
      * rewrite (no_energy id ls H), H. cbn [max_times total_energy].
        rewrite s32_id, s64_id by (int_unfold; lia). lia.
    + replace (id =? i) with false by lia. cbn [b2z]. rewrite !Z.add_0_r. exact H.
  - split; [assumption|]. intros i. rewrite times_snoc, energy_snoc, W, !Z.add_0_r. apply H.
Qed.

(** *** The choice *)

Definition candidate (it : Z * EnergyHolder) : Prop := fst it <> -1 /\ 0 < max_times (snd it).

Lemma choose_best m :
  Forall candidate m -> m <> [] ->
  let '(id, t, en) := fold_left (fun s it => choose it s) m (-1, 0, 0) in
  exists h, In (id, h) m /\ t = max_times h /\ en = s32 (total_energy h) /\
    forall i h', In (i, h') m -> max_times h' <= t /\
      ((forall it, In it m -> in_s32 (total_energy (snd it))) ->
       max_times h' = t -> total_energy h' <= total_energy h).
Proof.
  induction m as [|[i1 h1] m IH] using rev_ind; intros F Hne; [congruence|].
  apply Forall_app in F as [F F1]. inversion F1 as [|? ? [Hid Ht] _]; subst. cbn in Hid, Ht.
  rewrite fold_left_app. cbn [fold_left]. destruct m as [|x m'].
  - cbn [fold_left choose]. replace (0 <? max_times h1) with true by lia. cbn [orb].
    exists h1. cbn. split; [auto|]. split; [reflexivity|]. split; [reflexivity|].
    intros i h' [[= <- <-]|[]]. lia.
  - remember (x :: m') as m0 eqn:Em.
    assert (Hm0 : m0 <> []) by (subst; discriminate). specialize (IH F Hm0).
    destruct (fold_left (fun s it => choose it s) m0 (-1, 0, 0)) as [[id t] en].
    destruct IH as (h & HI & -> & -> & Hbest).
    rewrite Forall_forall in F. pose proof (F _ HI) as [Hidh _]. cbn in Hidh. cbn [choose].
    replace (id =? -1) with false by lia.
    destruct (_ || _) eqn:E.
    + exists h1. split; [apply in_or_app; right; now left|]. split; [reflexivity|].
      split; [reflexivity|]. intros i h' [HI'|[[= <- <-]|[]]]%in_app_or; [|lia].
      destruct (Hbest i h' HI') as [Hle Htot]. split; [lia|]. intros Hall Heq.
      assert (Hs : in_s32 (total_energy h)).
      { apply (Hall (id, h)). apply in_or_app. now left. }
      rewrite s32_id in E by exact Hs.
      specialize (Htot ltac:(intros; apply Hall; apply in_or_app; now left)). lia.
    + exists h. split; [apply in_or_app; now left|]. split; [reflexivity|].
      split; [reflexivity|]. intros i h' [HI'|[[= <- <-]|[]]]%in_app_or.
      * destruct (Hbest i h' HI') as [Hle Htot]. split; [lia|]. intros Hall.
        apply Htot. intros; apply Hall; apply in_or_app; now left.
      * split; [lia|]. intros Hall Heq.
        assert (Hs : in_s32 (total_energy h)).
        { apply (Hall (id, h)). apply in_or_app. now left. }
        rewrite s32_id in E by exact Hs. lia.
Qed.

(** *** The window *)

Lemma push_energies l e :
  fold_left (fun e '(i, a) => UpdateAudioEnergy e i a) l e =
  mk_estimator (speaker_counter_map_ e) (intra_frame_count_ e ++ l) (last_speaker_info e)
    (frame_count_ e) (defined_frame_size_ e).
Proof.
  revert e; induction l as [|[i a] l IH]; intros e; cbn [fold_left].
  - rewrite app_nil_r. now destruct e.
  - rewrite IH. cbn. now rewrite <- app_assoc.
Qed.

(** Between two decisions: [ls] are the frames of the window so far. *)
Record counting (n : Z) (ls : list (list (Z * Z))) (e : SpeakerEstimator) : Prop := {
  co_map : tracks ls (speaker_counter_map_ e);
  co_intra : intra_frame_count_ e = [];
  co_count : frame_count_ e = zlen ls;
  co_size : defined_frame_size_ e = n
}.

(** The stream chosen after the frames [ls], as the counts say: it has won most
    of them and, when the energies are 32-bit numbers, most energy among those
    that have won as many. *)
Definition best_speaker (ls : list (list (Z * Z))) (s : Z) : Prop :=
  0 < times s ls /\
  forall i, times i ls <= times s ls /\
    ((forall j, energy j ls < 2147483648) -> times i ls = times s ls -> energy i ls <= energy s ls).

Lemma current_speaker_best e ls :
  tracks ls (last_speaker_info e) -> times (-1) ls = 0 -> Forall measured ls ->
  (CurrentSpeaker e = -1 /\ forall i, times i ls = 0) \/
  (CurrentSpeaker e <> -1 /\ best_speaker ls (CurrentSpeaker e)).
Proof.
  intros [S H] Hm1 F. unfold CurrentSpeaker.
  assert (HIn : forall i h, In (i, h) (last_speaker_info e) ->
    max_times h = times i ls /\ total_energy h = energy i ls /\ 0 < times i ls).
  { intros i h HI. apply find_in in HI; [|assumption]. specialize (H i). now rewrite HI in H. }
  destruct (last_speaker_info e) as [|x m'] eqn:Em.
  - left. split; [reflexivity|]. exact H.
  - right.
    assert (F' : Forall candidate (x :: m')).
    { apply Forall_forall. intros [i h] HI. destruct (HIn i h HI) as (E1 & _ & E3). split; cbn; [|lia].
      intros ->. lia. }
    pose proof (choose_best (x :: m') F' ltac:(discriminate)) as C.
    destruct (fold_left (fun s it => choose it s) (x :: m') (-1, 0, 0)) as [[id t] en].
    destruct C as (h & HI & -> & _ & Hbest). destruct (HIn id h HI) as (Et & Ee & Hpos).
    split; [rewrite Forall_forall in F'; exact (proj1 (F' _ HI))|]. split; [assumption|].
    intros i. specialize (H i). destruct (find i (x :: m')) as [h'|] eqn:Ei.
    + destruct H as (Et' & Ee' & _). apply find_in in Ei; [|assumption].
      destruct (Hbest i h' Ei) as [Hle Htot].
      split; [lia|]. intros Hs Heq. rewrite <- Ee, <- Ee'. apply Htot; [|lia].
      intros [j hj] HIj. destruct (HIn j hj HIj) as (_ & Ej & _). cbn [snd]. rewrite Ej.
      specialize (Hs j). pose proof (energy_bound j ls F). int_unfold. lia.
    + split; [lia|intros; lia].
Qed.

Lemma times_no_stream ls : Forall measured ls -> times (-1) ls = 0.
Proof.
  intros F. induction ls as [|l ls IH] using rev_ind; [reflexivity|].
  apply Forall_app in F as [F Fl]. inversion Fl; subst. rewrite times_snoc, IH by assumption.
  unfold winner. pose proof (loudest_measured l) as L. destruct (loudest l) as [i a].
  destruct (Z.ltb_spec kSilence a); [|reflexivity]. unfold kSilence in *.
  destruct (L ltac:(assumption)) as (_ & _ & Hi). replace (i =? -1) with false by lia. reflexivity.
Qed.

(** One frame: the counts go on, or the window ends with a decision. *)
Lemma frame_step n ls l e :
  counting n ls e -> Forall measured (ls ++ [l]) -> l <> [] -> zlen ls < n < 2147483648 ->
  if zlen ls + 1 <? n
  then exists e', frame true e l = (e', None) /\ counting n (ls ++ [l]) e'
  else exists e' t, frame true e l = (e', t) /\ counting n [] e' /\
    match t with
    | Some s => best_speaker (ls ++ [l]) s
    | None => forall i, times i (ls ++ [l]) = 0
    end.
Proof.
  intros [Tr Ei Ec En] F Hl Hn. unfold frame. rewrite push_energies, Ei. cbn [app].
  unfold NextFrame. cbn [intra_frame_count_ speaker_counter_map_ frame_count_ defined_frame_size_
    last_speaker_info].
  destruct l as [|x l'] eqn:El; [congruence|]. rewrite <- El in *. clear Hl.
  pose proof (tracks_frame ls _ l Tr F ltac:(lia)) as Tr'.
  pose proof (zlen_nonneg ls) as Hls. rewrite En, Ec, s32_id by (int_unfold; lia).
  unfold winner in Tr'. destruct (loudest l) as [id a].
  set (m := if kSilence <? a then _ else _).
  assert (Hm : tracks (ls ++ [l]) m) by (subst m; destruct (kSilence <? a); exact Tr').
  destruct (Z.ltb_spec (zlen ls + 1) n).
  - replace (n <=? zlen ls + 1) with false by lia. eexists. split; [reflexivity|].
    constructor; cbn; auto. now autorewrite with zlen.
  - replace (n <=? zlen ls + 1) with true by lia. do 2 eexists. split; [reflexivity|]. split.
    + constructor; cbn; auto. split; cbn; [constructor|reflexivity].
    + cbn [andb].
      destruct (current_speaker_best (mk_estimator [] [] m 0 n) (ls ++ [l])) as [[-> H0]|[Hne Hb]];
        [exact Hm|now apply times_no_stream|assumption|exact H0|].
      replace (CurrentSpeaker _ =? -1) with false by lia. exact Hb.
Qed.

(** Over a window of frames that each have measurements, the listener is told
    once, at the last one, and of a stream that was the loudest (above the
    threshold) in most frames; among those with as many frames it is the one with
    most energy, as long as the sums are 32-bit numbers.  When no frame was loud
    enough it is told nothing.  Then the next window begins. *)
Theorem window_speaker n ls e :
  counting n [] e -> zlen ls = n -> 0 < n < 2147483648 -> Forall measured ls ->
  Forall (fun l => l <> []) ls ->
  exists e' t, frames true e ls = (e', repeat None (Z.to_nat (n - 1)) ++ [t]) /\
    counting n [] e' /\
    match t with
    | Some s => best_speaker ls s
    | None => forall i, times i ls = 0
    end.
Proof.
  intros H Hlen Hn F Hne.
  enough (G : forall l2 l1 e, ls = l1 ++ l2 -> l2 <> [] -> counting n l1 e ->
    exists e' t, frames true e l2 = (e', repeat None (Z.to_nat (zlen l2 - 1)) ++ [t]) /\
      counting n [] e' /\
      match t with Some s => best_speaker ls s | None => forall i, times i ls = 0 end).
  { specialize (G ls [] e eq_refl). rewrite Hlen in G. apply G; [|exact H].
    intros E. subst ls. cbn in Hlen. lia. }
  induction l2 as [|l l2 IH]; intros l1 e0 E Hl2 C; [congruence|].
  assert (E' : ls = (l1 ++ [l]) ++ l2) by (rewrite E, <- app_assoc; reflexivity).
  assert (Fl : Forall measured (l1 ++ [l])) by (rewrite E' in F; now apply Forall_app in F as [F _]).
  assert (Hl : l <> []) by (rewrite E in Hne; apply Forall_app in Hne as [_ Hne]; now inversion Hne).
  assert (Hz : zlen l1 + 1 + zlen l2 = n) by (rewrite <- Hlen, E'; autorewrite with zlen; lia).
  pose proof (zlen_nonneg l1). pose proof (zlen_nonneg l2).
  pose proof (frame_step n l1 l e0 C Fl Hl ltac:(lia)) as S. cbn [frames].
  destruct l2 as [|l' l2'] eqn:El2.
  - cbn in Hz. replace (zlen l1 + 1 <? n) with false in S by lia.
    destruct S as (e' & t & -> & C' & Ht). cbn [frames]. exists e', t.
    rewrite app_nil_r in E'. subst ls. auto.
  - rewrite <- El2 in *.
    assert (1 <= zlen l2) by (rewrite El2, zlen_cons; pose proof (zlen_nonneg l2'); lia).
    replace (zlen l1 + 1 <? n) with true in S by lia. destruct S as (e' & -> & C').
    destruct (IH (l1 ++ [l]) e' E') as (e2 & t & -> & C2 & Ht); [now rewrite El2|exact C'|].
    exists e2, t. split; [|auto]. rewrite zlen_cons.
    replace (Z.to_nat (1 + zlen l2 - 1)) with (S (Z.to_nat (zlen l2 - 1))) by lia. reflexivity.
Qed.

(** Three frames: stream 2 is loudest in two of them. *)
Example window_speaker_witness :
  let ls := [[(1, 30000000); (2, 20000000)]; [(1, 5); (2, 12000000)]; [(2, 11000000)]] in
  counting 3 [] (new_SpeakerEstimator 3) /\ Forall measured ls /\
  exists e', frames true (new_SpeakerEstimator 3) ls = (e', [None; None; Some 2]) /\ best_speaker ls 2.
Proof.
  set (ls := [[(1, 30000000); (2, 20000000)]; [(1, 5); (2, 12000000)]; [(2, 11000000)]]).
  assert (C : counting 3 [] (new_SpeakerEstimator 3)).
  { constructor; try reflexivity. split; cbn; [constructor|reflexivity]. }
  assert (F : Forall measured ls) by (repeat constructor; vm_compute; congruence).
  split; [exact C|]. split; [exact F|].
  destruct (window_speaker 3 ls (new_SpeakerEstimator 3) C) as (e' & t & R & _ & B);
    [reflexivity|lia|exact F|repeat constructor; discriminate|].
  exists e'. vm_compute in R. injection R as <- <-. split; [reflexivity|exact B].
Defined.
End Speaker.
