(* ===== verification/FrameQueue.v ===== *)
(** * The video frame queue

    Models src/orbit/modules/video_frame_queue.cc and video_frame_queue.h: the
    packets of a video stream by sequence number, kept from the last key frame
    on until somebody looks, and the listener that is called when the first
    packet belongs to a key frame, which [Depacketize] recognises.  A call of an empty [std::function] throws. *)

From Stdlib Require Import Relations Sorted.
From S2P Require Import Prelude OrderedMap Wire RtpHeaders VideoHeaders Depacketize.
Import OrderedMap Wire RtpHeaders Depacketize.

Module FrameQueue.

Record VideoFrame := mk_frame {
  data_ : list Z;
  is_keyframe_ : bool;
  seq_ : Z;
  ts_ : Z;
  marker_ : Z
}.

Record VideoFrameQueue := mk_queue {
  frames_ : map_t VideoFrame;
  enabled_ : bool;
  has_looker_ : bool;
  prepared_listener_ : bool
}.

Definition new_VideoFrameQueue (listener : bool) : VideoFrameQueue :=
  mk_queue [] false false listener.

Definition set_frames (q : VideoFrameQueue) (m : map_t VideoFrame) : VideoFrameQueue :=
  mk_queue m (enabled_ q) (has_looker_ q) (prepared_listener_ q).

(** What a call did beside its result: how often the listener was called, and
    whether an exception left the call. *)
Record effect := mk_effect { fired : Z; threw : bool }.
Definition quiet : effect := mk_effect 0 false.

Definition FirstIsKeyFrame (q : VideoFrameQueue) : bool :=
  match first (frames_ q) with
  | None => false
  | Some (_, frame) => is_keyframe_ frame
  end.

Definition Contains (q : VideoFrameQueue) (seq : Z) : bool :=
  match find seq (frames_ q) with Some _ => true | None => false end.

Definition FirePreparedEvent (q : VideoFrameQueue) : effect :=
  if prepared_listener_ q then mk_effect 1 false else quiet.

Definition CheckPrepared (q : VideoFrameQueue) : effect :=
  if FirstIsKeyFrame q then FirePreparedEvent q else quiet.

Definition PushPacketWhenHasLooker (q : VideoFrameQueue) (frame : VideoFrame)
    : VideoFrameQueue * effect :=
  let seq := seq_ frame in
  if Contains q seq then (q, quiet)
  else
    let q := set_frames q (store seq frame (frames_ q)) in
    (q, CheckPrepared q).

(** The listener is called here without a test that there is one. *)
Definition PushPacketWhenNoLooker (q : VideoFrameQueue) (frame : VideoFrame)
    : VideoFrameQueue * effect :=
  let seq := seq_ frame in
  if Contains q seq then (q, quiet)
  else if is_keyframe_ frame then
    let q := set_frames q (store seq frame []) in
    (q, if prepared_listener_ q then mk_effect 1 false else mk_effect 0 true)
  else if FirstIsKeyFrame q then (set_frames q (store seq frame (frames_ q)), quiet)
  else (q, quiet).

(** The part of [PushPacket] after the frame is made. *)
Definition push_frame (q : VideoFrameQueue) (frame : VideoFrame) : VideoFrameQueue * effect :=
  if has_looker_ q then PushPacketWhenHasLooker q frame else PushPacketWhenNoLooker q frame.

Definition PopPacket (q : VideoFrameQueue) : option VideoFrame * VideoFrameQueue * effect :=
  if negb (enabled_ q) then (None, q, quiet)
  else
    match first (frames_ q) with
    | None => (None, q, quiet)
    | Some (seq, frame) =>
        let q := set_frames q (erase seq (frames_ q)) in
        (Some frame, q, CheckPrepared q)
    end.

Definition TopPacket (q : VideoFrameQueue) : option VideoFrame :=
  if negb (enabled_ q) then None
  else match first (frames_ q) with None => None | Some (_, frame) => Some frame end.

Definition Enable (q : VideoFrameQueue) : VideoFrameQueue :=
  mk_queue (frames_ q) true (has_looker_ q) (prepared_listener_ q).
Definition Disable (q : VideoFrameQueue) : VideoFrameQueue :=
  if enabled_ q then mk_queue [] false (has_looker_ q) (prepared_listener_ q) else q.
Definition Enabled (q : VideoFrameQueue) : bool := enabled_ q.
Definition SetHasLooker (q : VideoFrameQueue) (has_looker : bool) : VideoFrameQueue :=
  mk_queue (frames_ q) (enabled_ q) has_looker (prepared_listener_ q).
Definition HasLooker (q : VideoFrameQueue) : bool := has_looker_ q.

(** [data] itself may change, for the parser of H.264 writes into it; a frame
    keeps the bytes it copied before. *)
Definition IsKeyFrame (data : list Z) (len : Z) : res bool :=
  let! video_payload := getPayloadType data in
  let! (_, r) := RtpDepacketizer_Parse video_payload local_payload (skipn 12 data) (u64 (len - 12)) in
  Ok (is_key r).

(** The constructor of [VideoFrame]: its buffer has 1500 bytes. *)
Definition new_VideoFrame (data : list Z) : res VideoFrame :=
  if 1500 <? zlen data then Oob
  else
    let! key := IsKeyFrame data (zlen data) in
    let! seq := getSeqNumber data in
    let! ts := getTimestamp data in
    let! marker := getMarker data in
    Ok (mk_frame data key seq ts marker).

Definition PushPacket (q : VideoFrameQueue) (data : option (list Z))
    : res (VideoFrameQueue * effect) :=
  match data with
  | None | Some [] => Ok (q, quiet)
  | Some data =>
      if negb (enabled_ q) then Ok (q, quiet)
      else let! frame := new_VideoFrame data in Ok (push_frame q frame)
  end.

(** ** The invariant *)

(** Frames lie under their numbers, and a disabled queue is empty. *)
Record wf (q : VideoFrameQueue) : Prop := {
  wf_sorted : sorted (frames_ q);
  wf_key : forall k f, find k (frames_ q) = Some f -> seq_ f = k;
  wf_disabled : enabled_ q = false -> frames_ q = []
}.

Inductive step (q : VideoFrameQueue) : VideoFrameQueue -> Prop :=
| st_push data q' e : PushPacket q data = Ok (q', e) -> step q q'
| st_pop : step q (snd (fst (PopPacket q)))
| st_enable : step q (Enable q)
| st_disable : step q (Disable q)
| st_looker b : step q (SetHasLooker q b).

Lemma wf_store q frame :
  wf q -> enabled_ q = true -> wf (set_frames q (store (seq_ frame) frame (frames_ q))).
Proof.
  intros [S K D] E. split; cbn.
  - now apply store_sorted.
  - intros k f. rewrite find_store by assumption. destruct (Z.eqb_spec k (seq_ frame)); [|apply K].
    intros [= <-]. now symmetry.
  - congruence.
Qed.

Lemma wf_single q frame : enabled_ q = true -> wf (set_frames q (store (seq_ frame) frame [])).
Proof.
  intros E. split; cbn.
  - repeat constructor.
  - intros k f. destruct (Z.eqb_spec k (seq_ frame)); [|discriminate]. intros [= <-]. now symmetry.
  - congruence.
Qed.

Lemma wf_push_frame q frame : wf q -> enabled_ q = true -> wf (fst (push_frame q frame)).
Proof.
  intros W E. unfold push_frame, PushPacketWhenHasLooker, PushPacketWhenNoLooker.
  destruct (has_looker_ q), (Contains q (seq_ frame)); try assumption.
  - now apply wf_store.
  - destruct (is_keyframe_ frame); [now apply wf_single|].
    destruct (FirstIsKeyFrame q); [now apply wf_store|assumption].
Qed.

Lemma wf_tail q e m : wf q -> frames_ q = e :: m -> enabled_ q = true -> wf (set_frames q m).
Proof.
  intros [S K D] E En. rewrite E in *. destruct e as [k0 f0]. split; cbn.
  - exact (tail_sorted _ _ S).
  - intros k f H. apply K. apply find_in; [assumption|]. right.
    apply find_in; [exact (tail_sorted _ _ S)|assumption].
  - congruence.
Qed.

Lemma wf_step q q' : wf q -> step q q' -> wf q'.
Proof.
  intros W [data q1 e H| | | |b].
  - unfold PushPacket in H. destruct data as [[|x l]|]; try (injection H as <- <-; assumption).
    destruct (enabled_ q) eqn:E; [|injection H as <- <-; assumption]. cbn [negb] in H.
    destruct (new_VideoFrame (x :: l)) as [frame| |]; try discriminate. cbn [bind] in H.
    pose proof (wf_push_frame q frame W E) as P. injection H as H. now rewrite H in P.
  - unfold PopPacket. destruct (enabled_ q) eqn:E; [|assumption]. cbn [negb].
    destruct (frames_ q) as [|[k f] m] eqn:Em; cbn [first fst snd]; [assumption|].
    rewrite erase_first. now apply (wf_tail q (k, f)).
  - destruct W. split; cbn; auto. discriminate.
  - unfold Disable. destruct (enabled_ q); [|assumption]. split; cbn; auto; [constructor|discriminate].
  - destruct W. now split.
Qed.

(** A packet that is parsed is taken. *)
Lemma PushPacket_total q d :
  bytes d -> 12 <= zlen d <= 1500 -> known_type (payload_type_of d) ->
  exists q' e, PushPacket q (Some d) = Ok (q', e).
Proof.
  intros B L T. unfold PushPacket. destruct d as [|x d]; [now do 2 eexists|]. set (p := x :: d) in *.
  destruct (enabled_ q); cbn [negb]; [|now do 2 eexists]. unfold new_VideoFrame. replace (1500 <? zlen p) with false by lia.
  destruct (parse_packet_ok p (zlen p) B ltac:(lia) ltac:(lia) T) as (p' & r & E & _).
  assert (K : exists k, IsKeyFrame p (zlen p) = Ok k).
  { unfold parse_packet, IsKeyFrame in *. destruct (getPayloadType p) as [t| |]; try discriminate. cbn [bind] in *.
    destruct (RtpDepacketizer_Parse _ _ _ _) as [[m o]| |]; try discriminate. now eexists. }
  destruct K as (k & ->). cbn [bind]. unfold getSeqNumber, getTimestamp, getMarker.
  rewrite be16_ok, be32_ok by lia. cbn [bind]. rewrite get_bits_ok by lia. cbn [bind].
  destruct (push_frame q _) as [q' e]. now do 2 eexists.
Qed.

(** C36. In every state that calls can lead to, a packet of VP8, VP9 or H.264 of at
    most 1500 bytes is taken, the frames lie by rising number, each
    under its own, and a disabled queue is empty.  So a packet that is popped is
    the one on top, has the least number and leaves the others, all with larger
    numbers; and a disabled queue gives nothing. *)
Theorem frame_queue_invariant listener q :
  clos_refl_trans _ step (new_VideoFrameQueue listener) q ->
  (forall d, bytes d -> 12 <= zlen d <= 1500 -> known_type (payload_type_of d) ->
     exists q' e, PushPacket q (Some d) = Ok (q', e)) /\
  wf q /\
  let '(f, q', _) := PopPacket q in
  f = TopPacket q /\
  match f with
  | Some f =>
      find (seq_ f) (frames_ q) = Some f /\
      (forall k, In k (map fst (frames_ q')) <-> In k (map fst (frames_ q)) /\ k <> seq_ f) /\
      (forall k, In k (map fst (frames_ q')) -> seq_ f < k)
  | None => enabled_ q = false \/ frames_ q = []
  end.
Proof.
  intros R.
  assert (W : wf q).
  { apply clos_rt_rtn1 in R. induction R as [|q1 q2 S _ IH]; [|now apply (wf_step q1)].
    split; cbn; [constructor|discriminate|reflexivity]. }
  split; [intros d B L T; now apply PushPacket_total|]. split; [exact W|]. unfold PopPacket, TopPacket. destruct (enabled_ q) eqn:E; cbn [negb]; [|auto].
  destruct (frames_ q) as [|[k f] m] eqn:Em; cbn [first]; [auto|].
  destruct W as [S K _]. rewrite Em in *.
  assert (Ek : seq_ f = k) by (apply K; cbn; now rewrite Z.eqb_refl). subst k.
  split; [reflexivity|]. cbn [set_frames frames_]. rewrite erase_first.
  inversion S as [|? ? _ Sf]; subst. rewrite Forall_forall in Sf.
  split; [cbn; now rewrite Z.eqb_refl|]. split; [|exact Sf].
  intros k. cbn [map fst In]. split.
  - intros H. split; [auto|]. specialize (Sf k H). lia.
  - intros [[<-|H] Hne]; [congruence|exact H].
Qed.

(** ** Without a looker *)

(** The delta frames kept after a key frame with number [K]: all up to the
    first with a smaller number, that one included. *)
Fixpoint accepted (K : Z) (ds : list VideoFrame) : list VideoFrame :=
  match ds with
  | [] => []
  | d :: ds => d :: if seq_ d <? K then [] else accepted K ds
  end.

Fixpoint push_frames (q : VideoFrameQueue) (fs : list VideoFrame) : VideoFrameQueue * list effect :=
  match fs with
  | [] => (q, [])
  | f :: fs =>
      let (q, e) := push_frame q f in
      let (q, es) := push_frames q fs in (q, e :: es)
  end.

(** Once the first frame is no key frame, delta frames change nothing. *)
Lemma push_stalled ds : forall q,
  has_looker_ q = false -> FirstIsKeyFrame q = false ->
  Forall (fun d => is_keyframe_ d = false) ds ->
  push_frames q ds = (q, map (fun _ => quiet) ds).
Proof.
  induction ds as [|d ds IH]; intros q Hl Hk F; [reflexivity|]. inversion F; subst.
  cbn [push_frames map]. unfold push_frame. rewrite Hl. unfold PushPacketWhenNoLooker.
  replace (is_keyframe_ d) with false by congruence. rewrite Hk.
  destruct (Contains q (seq_ d)); now rewrite IH.
Qed.

Lemma contains_in q k : Contains q k = true <-> In k (map fst (frames_ q)).
Proof.
  unfold Contains. rewrite <- find_some. destruct (find k (frames_ q)); split; eauto.
  - discriminate.
  - intros [v H]; discriminate.
Qed.

Lemma push_deltas ds : forall q Kf,
  has_looker_ q = false -> sorted (frames_ q) -> first (frames_ q) = Some (seq_ Kf, Kf) ->
  is_keyframe_ Kf = true -> Forall (fun d => is_keyframe_ d = false) ds ->
  exists q', push_frames q ds = (q', map (fun _ => quiet) ds) /\
    (forall s, In s (map fst (frames_ q')) <->
       In s (map fst (frames_ q)) \/ In s (map seq_ (accepted (seq_ Kf) ds))) /\
    FirstIsKeyFrame q' = forallb (fun d => seq_ Kf <=? seq_ d) ds.
Proof.
  induction ds as [|d ds IH]; intros q Kf Hl S Hf HK F.
  - exists q. cbn. repeat split; auto; [tauto|]. unfold FirstIsKeyFrame. now rewrite Hf.
  - inversion F as [|? ? Hd Fd]; subst. cbn [push_frames map accepted forallb]. unfold push_frame.
    rewrite Hl. unfold PushPacketWhenNoLooker. rewrite Hd.
    replace (FirstIsKeyFrame q) with true by (unfold FirstIsKeyFrame; now rewrite Hf).
    destruct (first_least _ _ _ S Hf) as [HinK Hleast].
    destruct (Contains q (seq_ d)) eqn:Ec.
    + apply contains_in in Ec. pose proof (Hleast _ Ec).
      destruct (IH q Kf Hl S Hf HK Fd) as (q' & -> & Hin & Hfk).
      exists q'. split; [reflexivity|]. replace (seq_ d <? seq_ Kf) with false by lia.
      replace (seq_ Kf <=? seq_ d) with true by lia. split; [|exact Hfk].
      intros s. assert (seq_ d = s -> In s (map fst (frames_ q))) by (intros <-; exact Ec).
      rewrite Hin. cbn [map In]. tauto.
    + set (q1 := set_frames q (store (seq_ d) d (frames_ q))).
      assert (Hne : seq_ d <> seq_ Kf).
      { intros E. enough (Contains q (seq_ d) = true) by congruence.
        apply contains_in, find_some. rewrite E. eauto. }
      assert (Hf1 : first (frames_ q1) =
        if seq_ d <=? seq_ Kf then Some (seq_ d, d) else Some (seq_ Kf, Kf)).
      { cbn [q1 set_frames frames_]. rewrite first_store by assumption. now rewrite Hf. }
      assert (Hk1 : forall s, In s (map fst (frames_ q1)) <-> s = seq_ d \/ In s (map fst (frames_ q)))
        by (intros; apply store_keys).
      destruct (Z.ltb_spec (seq_ d) (seq_ Kf)).
      * replace (seq_ d <=? seq_ Kf) with true in Hf1 by lia.
        rewrite (push_stalled ds q1 Hl) by (auto; unfold FirstIsKeyFrame; now rewrite Hf1).
        exists q1. split; [reflexivity|]. split.
        -- intros s. rewrite Hk1. cbn [map In]. intuition congruence.
        -- unfold FirstIsKeyFrame. rewrite Hf1, Hd. now replace (seq_ Kf <=? seq_ d) with false by lia.
      * replace (seq_ d <=? seq_ Kf) with false in Hf1 by lia.
        destruct (IH q1 Kf Hl (store_sorted _ _ _ S) Hf1 HK Fd) as (q' & -> & Hin & Hfk).
        exists q'. split; [reflexivity|]. replace (seq_ Kf <=? seq_ d) with true by lia.
        split; [|exact Hfk]. intros s. rewrite Hin, Hk1. cbn [map In]. intuition congruence.
Qed.

(** With nobody looking, a key frame replaces what was kept and is announced
    once (the call throws when there is no listener), and the delta frames after
    it are kept, without another call.  But the numbers are compared as integers:
    a delta frame with a smaller number, as after a wrap, is kept in front of the
    key frame, and from then on every delta frame is dropped. *)
Theorem kept_from_key_frame q Kf ds :
  has_looker_ q = false -> Contains q (seq_ Kf) = false -> is_keyframe_ Kf = true ->
  Forall (fun d => is_keyframe_ d = false) ds ->
  exists q', push_frames q (Kf :: ds) =
      (q', (if prepared_listener_ q then mk_effect 1 false else mk_effect 0 true) ::
           map (fun _ => quiet) ds) /\
    (forall s, In s (map fst (frames_ q')) <->
       s = seq_ Kf \/ In s (map seq_ (accepted (seq_ Kf) ds))) /\
    FirstIsKeyFrame q' = forallb (fun d => seq_ Kf <=? seq_ d) ds.
Proof.
  intros Hl Hc HK F. cbn [push_frames]. unfold push_frame at 1. rewrite Hl.
  unfold PushPacketWhenNoLooker. rewrite Hc, HK.
  destruct (push_deltas ds (set_frames q (store (seq_ Kf) Kf [])) Kf Hl) as (q' & -> & Hin & Hfk);
    [repeat constructor|reflexivity|exact HK|exact F|].
  exists q'. split; [reflexivity|]. split; [|exact Hfk].
  intros s. rewrite Hin. cbn. intuition congruence.
Qed.

(** A stream that wraps after its key frame: number 1 is dropped. *)
Definition fr (key : bool) (s : Z) : VideoFrame := mk_frame [] key s 0 0.

Example kept_from_key_frame_witness :
  let q := mk_queue [] true false true in
  exists q', push_frames q [fr true 65534; fr false 65535; fr false 0; fr false 1] =
      (q', [mk_effect 1 false; quiet; quiet; quiet]) /\
    map fst (frames_ q') = [0; 65534; 65535] /\ FirstIsKeyFrame q' = false.
Proof.
  destruct (kept_from_key_frame (mk_queue [] true false true) (fr true 65534)
    [fr false 65535; fr false 0; fr false 1]) as (q' & E & _ & H);
    [reflexivity|reflexivity|reflexivity|repeat constructor|].
  exists q'. split; [exact E|]. split; [|exact H]. vm_compute in E. injection E as <-. reflexivity.
Defined.

(** A key frame and the frame behind it, as VP8 packets. *)
Definition vp8_packet (key : bool) (s : Z) : list Z :=
  [128; 100; 0; s; 0; 0; 0; 9; 0; 0; 0; 1; 0x10; (if key then 0x10 else 0x11); 2; 0; 0x9d; 1; 0x2a; 0x80; 2; 0xe0; 1].
Definition pushed (q : VideoFrameQueue) (data : list Z) : VideoFrameQueue :=
  match PushPacket q (Some data) with Ok (q', _) => q' | _ => q end.

Lemma pushed_reached q data : clos_refl_trans _ step q (pushed q data).
Proof.
  unfold pushed. destruct (PushPacket q (Some data)) as [[q' e]| |] eqn:E; [|apply rt_refl..].
  apply rt_step. eapply st_push, E.
Qed.

Example frame_queue_invariant_witness :
  let q := pushed (pushed (Enable (new_VideoFrameQueue true)) (vp8_packet true 6)) (vp8_packet false 7) in
  clos_refl_trans _ step (new_VideoFrameQueue true) q /\ wf q /\ map fst (frames_ q) = [6; 7] /\
  let '(f, q', _) := PopPacket q in option_map seq_ f = Some 6 /\ map fst (frames_ q') = [7] /\
    forall k, In k (map fst (frames_ q')) -> 6 < k.
Proof.
  set (q := pushed (pushed _ _) _).
  assert (R : clos_refl_trans _ step (new_VideoFrameQueue true) q).
  { eapply rt_trans; [eapply rt_trans; [apply rt_step, st_enable|]|]; apply pushed_reached. }
  destruct (frame_queue_invariant true q R) as (_ & W & P). split; [exact R|]. split; [exact W|].
  split; [vm_compute; reflexivity|].
  assert (F : option_map seq_ (fst (fst (PopPacket q))) = Some 6) by (vm_compute; reflexivity).
  assert (M : map fst (frames_ (snd (fst (PopPacket q)))) = [7]) by (vm_compute; reflexivity).
  destruct (PopPacket q) as [[f q'] e]. cbn [fst snd] in F, M. split; [exact F|]. split; [exact M|].
  destruct P as [_ P]. destruct f as [f|]; [|discriminate]. injection F as <-. exact (proj2 (proj2 P)).
Defined.
End FrameQueue.
