(* ===== verification/Layout.v ===== *)
(** * The layout of the mixed picture

    Models src/orbit/video_mixer/video_mixer_position_manager.cc with
    video_mixer_position.h: the streams of the picture, where each goes and how
    large the picture is.  Calls of the plugins and of the listener are
    returned.  The two flags are arguments. *)

From S2P Require Import Prelude.

Module Layout.

Definition VIDEO_HORIZONTIAL_SPACE : Z := 10.
Definition VIDEO_VERTICAL_SPACE : Z := 10.

(** [x_] and [y_] are not initialised by the class. *)
Record MixerPosition := mk_position { stream_id_ : Z; x_ : Z; y_ : Z; plugin_ : Z }.

Definition UpdatePosition (p : MixerPosition) (x y : Z) : MixerPosition * bool :=
  if negb (x_ p =? x) || negb (y_ p =? y) then (mk_position (stream_id_ p) x y (plugin_ p), true)
  else (p, false).

Record Rect := mk_rect { width : Z; height : Z }.

Definition GetColumn (size : Z) : Z :=
  if (size =? 1) || (size =? 2) then size
  else if (size =? 3) || (size =? 4) then 2
  else if (5 <=? size) && (size <=? 9) then 3
  else 4.

(** A plugin is its identity and its stream; [x] and [y] are what the new
    position happens to hold. *)
Definition AddStream (positions : list MixerPosition) (plugin : option (Z * Z)) (x y : Z)
    : list MixerPosition :=
  match plugin with
  | None => positions
  | Some (plugin, stream_id) =>
      if existsb (fun p => stream_id_ p =? stream_id) positions then positions
      else positions ++ [mk_position stream_id x y plugin]
  end.

Fixpoint RemoveStream (positions : list MixerPosition) (stream_id : Z) : list MixerPosition :=
  match positions with
  | [] => []
  | p :: ps => if stream_id =? stream_id_ p then ps else p :: RemoveStream ps stream_id
  end.

Section Flags.
Variables (FLAGS_video_width FLAGS_video_height : Z).

Definition cell_width : Z := s32 (FLAGS_video_width + VIDEO_HORIZONTIAL_SPACE).
Definition cell_height : Z := s32 (FLAGS_video_height + VIDEO_VERTICAL_SPACE).

(** The place of the [i]-th of [len] streams. *)
Definition place (len i : Z) : Z * Z :=
  let column := GetColumn len in
  let last_row_count := len mod column in
  let max_row := len / column + (if 0 <? last_row_count then 1 else 0) in
  let row := i / column in
  let col_pos := i mod column in
  let x :=
    if (0 <? row) && (row =? max_row - 1) && (0 <? last_row_count) then
      let total_width := s32 (cell_width * column - VIDEO_HORIZONTIAL_SPACE) in
      let last_width := s32 (cell_width * last_row_count - VIDEO_HORIZONTIAL_SPACE) in
      s32 (Z.quot (s32 (total_width - last_width)) 2 + s32 (cell_width * col_pos))
    else s32 (cell_width * col_pos) in
  let y := if row =? 0 then 0 else s32 (cell_height * row) in
  (x, y).

(** What the plugins are told, in order: the loop works on copies of the
    positions, which it then drops. *)
Fixpoint update_from (len i : Z) (positions : list MixerPosition) : list (Z * (Z * Z)) :=
  match positions with
  | [] => []
  | p :: ps =>
      let (x, y) := place len i in
      let (_, changed) := UpdatePosition p x y in
      if changed then (plugin_ p, (x, y)) :: update_from len (i + 1) ps
      else update_from len (i + 1) ps
  end.

(** The calls of the plugins, and whether the listener is called. *)
Definition UpdateVideoPosition (positions : list MixerPosition) (listener : bool)
    : list (Z * (Z * Z)) * bool :=
  let told := update_from (zlen positions) 0 positions in
  (told, negb (zlen told =? 0) && listener).

Definition GetOutVideoSize (positions : list MixerPosition) : Rect :=
  let size := zlen positions in
  let column := GetColumn size in
  let row := size / column + (if 0 <? size mod column then 1 else 0) in
  mk_rect (s32 (cell_width * column - VIDEO_HORIZONTIAL_SPACE))
          (s32 (cell_height * row - VIDEO_VERTICAL_SPACE)).

(** ** Properties *)

Hypothesis Hw : 0 < FLAGS_video_width <= 65536.
Hypothesis Hh : 0 < FLAGS_video_height <= 65536.

Lemma column_range n : 0 <= n -> 1 <= GetColumn n <= 4.
Proof. intros. unfold GetColumn. repeat case_if; lia. Qed.

Lemma cells : cell_width = FLAGS_video_width + 10 /\ cell_height = FLAGS_video_height + 10.
Proof using Hw Hh.
  unfold cell_width, cell_height, VIDEO_HORIZONTIAL_SPACE, VIDEO_VERTICAL_SPACE.
  rewrite !s32_id by (int_unfold; lia). lia.
Qed.

(** The margin that centres a last row that is not full. *)
Definition margin (n i : Z) : Z :=
  let c := GetColumn n in
  if (0 <? i / c) && (i / c =? n / c) then (FLAGS_video_width + 10) * (c - n mod c) / 2 else 0.

Lemma place_eq n i :
  0 <= i < n -> n < 16384 ->
  place n i = (margin n i + (FLAGS_video_width + 10) * (i mod GetColumn n),
               (FLAGS_video_height + 10) * (i / GetColumn n)).
Proof using Hw Hh.
  intros Hi Hn. unfold place, margin, VIDEO_HORIZONTIAL_SPACE. destruct cells as [-> ->].
  pose proof (column_range n ltac:(lia)) as Hc. set (c := GetColumn n) in *.
  pose proof (Z.mod_pos_bound i c ltac:(lia)). pose proof (Z.mod_pos_bound n c ltac:(lia)).
  pose proof (Z.div_mod n c ltac:(lia)). pose proof (Z.div_mod i c ltac:(lia)).
  assert (0 <= i / c) by (apply Z.div_pos; lia).
  assert (i / c <= n / c) by (apply Z.div_le_mono; lia).
  assert (n / c <= n) by (apply Z.div_le_upper_bound; nia).
  set (r := i / c) in *. set (k := i mod c) in *. set (l := n mod c) in *. set (q := n / c) in *.
  assert (Hy : (if r =? 0 then 0 else s32 ((FLAGS_video_height + 10) * r)) =
               (FLAGS_video_height + 10) * r).
  { destruct (Z.eqb_spec r 0) as [->|]; [lia|]. rewrite s32_id by (int_unfold; nia). reflexivity. }
  rewrite Hy. f_equal.
  replace ((0 <? r) && (r =? q + (if 0 <? l then 1 else 0) - 1) && (0 <? l)) with
    ((0 <? r) && (r =? q)).
  2:{ destruct (Z.ltb_spec 0 l).
      - replace (q + 1 - 1) with q by lia. now rewrite andb_true_r.
      - rewrite andb_false_r. replace (r =? q) with false; [now rewrite andb_false_r|].
        symmetry. apply Z.eqb_neq. nia. }
  rewrite (s32_id ((FLAGS_video_width + 10) * k)) by (int_unfold; nia).
  destruct ((0 <? r) && (r =? q)); [|lia].
  rewrite (s32_id ((FLAGS_video_width + 10) * c - 10)), (s32_id ((FLAGS_video_width + 10) * l - 10))
    by (int_unfold; nia).
  replace ((FLAGS_video_width + 10) * c - 10 - ((FLAGS_video_width + 10) * l - 10))
    with ((FLAGS_video_width + 10) * (c - l)) by lia.
  rewrite (s32_id ((FLAGS_video_width + 10) * (c - l))) by (int_unfold; nia).
  rewrite Z.quot_div_nonneg by nia.
  assert (0 <= (FLAGS_video_width + 10) * (c - l) / 2 <= (FLAGS_video_width + 10) * (c - l) / 1).
  { split; [apply Z.div_pos; nia|]. apply Z.div_le_compat_l; nia. }
  rewrite Z.div_1_r in *. rewrite s32_id by (int_unfold; nia). lia.
Qed.

Lemma margin_bounds n i :
  0 <= i < n -> 0 <= margin n i /\
  2 * (margin n i + (FLAGS_video_width + 10) * (i mod GetColumn n) + FLAGS_video_width + 10) <=
  2 * ((FLAGS_video_width + 10) * GetColumn n).
Proof using Hw Hh.
  intros Hi. unfold margin. pose proof (column_range n ltac:(lia)) as Hc. set (c := GetColumn n) in *.
  pose proof (Z.mod_pos_bound i c ltac:(lia)). pose proof (Z.mod_pos_bound n c ltac:(lia)).
  pose proof (Z.div_mod n c ltac:(lia)). pose proof (Z.div_mod i c ltac:(lia)).
  destruct (Z.ltb_spec 0 (i / c)); cbn [andb]; [|nia].
  destruct (Z.eqb_spec (i / c) (n / c)) as [E|]; [|nia].
  assert (i mod c < n mod c) by nia.
  pose proof (Z.div_mod ((FLAGS_video_width + 10) * (c - n mod c)) 2 ltac:(lia)).
  pose proof (Z.mod_pos_bound ((FLAGS_video_width + 10) * (c - n mod c)) 2 ltac:(lia)).
  split; [apply Z.div_pos; nia|nia].
Qed.
End Flags.

(** The layout of [n] streams, with pictures of up to 65536 by 65536: every
    picture lies in the mixed picture, and two of them are at least ten pixels
    apart.  Each update tells every plugin whose position holds other numbers
    than its place; as the new numbers are never stored, an update that has
    something to tell tells it again the next time.  A room without streams has
    a picture of height -10. *)
Theorem layout_fits w h positions listener :
  0 < w <= 65536 -> 0 < h <= 65536 -> zlen positions < 16384 ->
  let n := zlen positions in
  let out := GetOutVideoSize w h positions in
  (forall i, 0 <= i < n ->
     let (x, y) := place w h n i in 0 <= x /\ x + w <= width out /\ 0 <= y /\ y + h <= height out) /\
  (forall i j, 0 <= i < n -> 0 <= j < n -> i <> j ->
     let (x, y) := place w h n i in let (x', y') := place w h n j in
     x + w + 10 <= x' \/ x' + w + 10 <= x \/ y + h + 10 <= y' \/ y' + h + 10 <= y) /\
  (let (told, all) := UpdateVideoPosition w h positions listener in
   told = flat_map (fun '(i, p) =>
            let (x, y) := place w h n i in
            if (x_ p =? x) && (y_ p =? y) then [] else [(plugin_ p, (x, y))])
            (combine (map Z.of_nat (seq 0 (length positions))) positions) /\
   all = negb (zlen told =? 0) && listener) /\
  (n = 0 -> height out = -10).
Proof.
  intros Hw Hh Hn n out. assert (Hn0 : 0 <= n) by apply zlen_nonneg.
  pose proof (column_range n Hn0) as Hc.
  assert (Hout : width out = (w + 10) * GetColumn n - 10 /\
    height out = (h + 10) * (n / GetColumn n + (if 0 <? n mod GetColumn n then 1 else 0)) - 10).
  { subst out. unfold GetOutVideoSize, VIDEO_HORIZONTIAL_SPACE, VIDEO_VERTICAL_SPACE.
    destruct (cells w h Hw Hh) as [-> ->]. fold n. cbn [width height].
    assert (0 <= n / GetColumn n <= n) by (split; [apply Z.div_pos; lia|apply Z.div_le_upper_bound; nia]).
    rewrite !s32_id; [split; reflexivity|destruct (0 <? n mod GetColumn n)|]; int_unfold; nia. }
  destruct Hout as [-> ->]. set (c := GetColumn n) in *.
  pose proof (Z.div_mod n c ltac:(lia)). pose proof (Z.mod_pos_bound n c ltac:(lia)).
  split; [|split; [|split]].
  - intros i Hi. rewrite place_eq by (auto; lia). fold c.
    destruct (margin_bounds w h Hw Hh n i Hi) as [M1 M2]. fold c in M2.
    pose proof (Z.div_mod i c ltac:(lia)). pose proof (Z.mod_pos_bound i c ltac:(lia)).
    assert (0 <= i / c) by (apply Z.div_pos; lia).
    split; [nia|]. split; [lia|]. split; [nia|].
    assert (i / c + 1 <= n / c + (if 0 <? n mod c then 1 else 0))
      by (destruct (Z.ltb_spec 0 (n mod c)); nia). nia.
  - intros i j Hi Hj Hij. rewrite !place_eq by (auto; lia). fold c.
    pose proof (Z.div_mod i c ltac:(lia)). pose proof (Z.div_mod j c ltac:(lia)).
    destruct (Z.eq_dec (i / c) (j / c)) as [E|E].
    + assert (margin w n i = margin w n j) by (unfold margin; fold c; now rewrite E).
      assert (i mod c <> j mod c) by (intros E'; apply Hij; rewrite H1, H2, E, E'; reflexivity).
      destruct (Z.lt_ge_cases (i mod c) (j mod c)); nia.
    + destruct (Z.lt_ge_cases (i / c) (j / c)); nia.
  - unfold UpdateVideoPosition. fold n. split; [|reflexivity].
    assert (G : forall ps k, update_from w h n (Z.of_nat k) ps =
      flat_map (fun '(i, p) => let (x, y) := place w h n i in
        if (x_ p =? x) && (y_ p =? y) then [] else [(plugin_ p, (x, y))])
        (combine (map Z.of_nat (seq k (length ps))) ps)).
    { induction ps as [|p ps IH]; intros k; [reflexivity|].
      cbn [update_from length seq map combine flat_map].
      destruct (place w h n (Z.of_nat k)) as [x y]. unfold UpdatePosition.
      replace (Z.of_nat k + 1) with (Z.of_nat (S k)) by lia.
      destruct (x_ p =? x), (y_ p =? y); cbn [negb orb andb app]; now rewrite IH. }
    exact (G positions 0%nat).
  - intros E. subst c. rewrite E. cbn. lia.
Qed.

(** Five pictures of 180 by 180: three above two, the two centred. *)
Example layout_fits_witness :
  let ps := map (fun i => mk_position i (-1) (-1) i) [1; 2; 3; 4; 5] in
  zlen ps < 16384 /\
  (let (told, all) := UpdateVideoPosition 180 180 ps true in
   told = [(1, (0, 0)); (2, (190, 0)); (3, (380, 0)); (4, (95, 190)); (5, (285, 190))] /\
   all = true) /\
  (95 + 180 <= width (GetOutVideoSize 180 180 ps)).
Proof.
  set (ps := map (fun i => mk_position i (-1) (-1) i) [1; 2; 3; 4; 5]).
  destruct (layout_fits 180 180 ps true) as (F & _ & U & _); [lia|lia|reflexivity|].
  split; [reflexivity|]. split; [split; reflexivity|].
  specialize (F 3 ltac:(vm_compute; intuition congruence)). vm_compute place in F. apply F.
Defined.
End Layout.
