(* ===== verification/SeqRing.v ===== *)
(** * The circular list of sequence numbers, in memory

    Models [janus_seq_append], [janus_seq_pop_head] and [janus_seq_list_free] of
    src/orbit/rtp/janus_rtcp_processor.cc on a heap of [seq_info_t] nodes with
    their [prev] and [next] pointers.  A dereference of NULL or of a freed node
    makes the operation fail ([None]).  The theorems show that on a
    well-linked ring the operations never fail and are, on the list of the
    nodes from the head, the append, the removal of the head and the disposal
    of every node: the operations with which Nack models the list. *)

From Stdlib Require Import ZArith Lia.
From stdpp Require Import base gmap list.

Module SeqRing.

Notation addr := positive.

Record node := mk_node {
  payload : Z * Z * Z * Z;  (* ts, seq, state, times *)
  next : addr;
  prev : addr
}.

Notation heap := (gmap addr node).

Definition set_prev (h : heap) (a v : addr) : option heap :=
  n ← h !! a; Some (<[a := mk_node (payload n) (next n) v]> h).
Definition set_next (h : heap) (a v : addr) : option heap :=
  n ← h !! a; Some (<[a := mk_node (payload n) v (prev n)]> h).

(** The heap and [*head] after the call. *)
Definition janus_seq_append (h : heap) (head : option addr) (new_seq : addr)
    : option (heap * option addr) :=
  match head with
  | None =>
      h ← set_prev h new_seq new_seq;
      h ← set_next h new_seq new_seq;
      Some (h, Some new_seq)
  | Some hd =>
      n ← h !! hd;
      let last_seq := prev n in
      h ← set_prev h new_seq last_seq;
      h ← set_next h new_seq hd;
      h ← set_prev h hd new_seq;
      h ← set_next h last_seq new_seq;
      Some (h, head)
  end.

(** The heap, [*head] and the result. *)
Definition janus_seq_pop_head (h : heap) (head : option addr)
    : option (heap * option addr * option addr) :=
  match head with
  | None => Some (h, None, None)
  | Some pop_seq =>
      n ← h !! pop_seq;
      let new_head := next n in
      if decide (pop_seq = new_head) then Some (h, None, Some pop_seq)
      else
        h ← set_prev h new_head (prev n);
        m ← h !! new_head;
        h ← set_next h (prev m) new_head;
        Some (h, Some new_head, Some pop_seq)
  end.

(** [do ... while (cur != head)], freeing node after node. *)
Fixpoint free_from (fuel : nat) (h : heap) (head cur : addr) : option heap :=
  match fuel with
  | O => None
  | S fuel =>
      n ← h !! cur;
      let h := delete cur h in
      if decide (next n = head) then Some h else free_from fuel h head (next n)
  end.

Definition janus_seq_list_free (fuel : nat) (h : heap) (head : option addr)
    : option (heap * option addr) :=
  match head with
  | None => Some (h, None)
  | Some hd => h ← free_from fuel h hd hd; Some (h, None)
  end.

(** ** Rings *)

(** The nodes [l] are linked one to the next, the first preceded by [p] and
    the last followed by [n]. *)
Fixpoint seg (h : heap) (p : addr) (l : list addr) (n : addr) : Prop :=
  match l with
  | [] => True
  | a :: l =>
      exists x, h !! a = Some x /\ prev x = p /\ next x = default n (head l) /\ seg h a l n
  end.

(** The address of the last node of [l], [a] when there is none. *)
Definition end_addr (l : list addr) (a : addr) : addr := default a (last l).

Definition ring (h : heap) (l : list addr) : Prop :=
  NoDup l /\ match l with [] => True | a :: _ => seg h (end_addr l a) l a end.

(** The values of the nodes. *)
Definition values (h : heap) (l : list addr) : list (Z * Z * Z * Z) :=
  omap (fun a => payload <$> h !! a) l.

Lemma seg_app h l1 : forall p l2 n,
  seg h p (l1 ++ l2) n <-> seg h p l1 (default n (head l2)) /\ seg h (end_addr l1 p) l2 n.
Proof.
  induction l1 as [|a l1 IH]; intros p l2 n; cbn [app seg].
  - unfold end_addr. cbn. tauto.
  - assert (E : end_addr (a :: l1) p = end_addr l1 a).
    { unfold end_addr. destruct l1 as [|b l1] using rev_ind; [reflexivity|].
      rewrite app_comm_cons, !last_snoc. reflexivity. }
    rewrite E. setoid_rewrite IH.
    destruct l1 as [|b l1]; cbn [app head default]; naive_solver.
Qed.

Lemma seg_frame h p l n a x : a ∉ l -> seg (<[a := x]> h) p l n <-> seg h p l n.
Proof.
  revert p; induction l as [|b l IH]; intros p Ha; cbn [seg]; [tauto|].
  apply not_elem_of_cons in Ha as [Hne Ha]. setoid_rewrite IH; [|exact Ha].
  rewrite lookup_insert_ne by congruence. reflexivity.
Qed.

Lemma seg_delete h p l n a : a ∉ l -> seg h p l n -> seg (delete a h) p l n.
Proof.
  revert p; induction l as [|b l IH]; intros p Ha; cbn [seg]; [tauto|].
  apply not_elem_of_cons in Ha as [Hne Ha]. intros (x & Hx & Hp & Hn & Hs).
  exists x. rewrite lookup_delete_ne by congruence. auto.
Qed.

Lemma seg_lookup h p l n a : seg h p l n -> a ∈ l -> is_Some (h !! a).
Proof.
  revert p; induction l as [|b l IH]; intros p Hs Ha; [by apply not_elem_of_nil in Ha|].
  destruct Hs as (x & Hx & _ & _ & Hs). apply elem_of_cons in Ha as [->|Ha]; [eauto|].
  by apply (IH b).
Qed.

Lemma values_app h l1 l2 : values h (l1 ++ l2) = values h l1 ++ values h l2.
Proof. apply omap_app. Qed.

(** Changing links does not change values. *)
Lemma set_next_payload h a v h' b :
  set_next h a v = Some h' -> payload <$> h' !! b = payload <$> h !! b.
Proof.
  unfold set_next. destruct (h !! a) as [x|] eqn:Hx; cbn; [intros [= <-]|discriminate].
  destruct (decide (a = b)) as [->|Hne]; [by rewrite lookup_insert_eq, Hx|by rewrite lookup_insert_ne].
Qed.

Lemma set_prev_payload h a v h' b :
  set_prev h a v = Some h' -> payload <$> h' !! b = payload <$> h !! b.
Proof.
  unfold set_prev. destruct (h !! a) as [x|] eqn:Hx; cbn; [intros [= <-]|discriminate].
  destruct (decide (a = b)) as [->|Hne]; [by rewrite lookup_insert_eq, Hx|by rewrite lookup_insert_ne].
Qed.

Lemma values_ext h h' l :
  (forall b, payload <$> h' !! b = payload <$> h !! b) -> values h' l = values h l.
Proof.
  intros H. unfold values. induction l as [|b l IH]; [reflexivity|].
  change (omap ?f (b :: l)) with (match f b with Some y => y :: omap f l | None => omap f l end).
  cbn beta. by rewrite H, IH.
Qed.

Lemma append_payload h head w h' head' b :
  janus_seq_append h head w = Some (h', head') -> payload <$> h' !! b = payload <$> h !! b.
Proof.
  destruct head as [hd|]; cbn [janus_seq_append]; intros H; simplify_option_eq;
    repeat match goal with
    | H : set_next _ _ _ = Some _ |- _ => apply (set_next_payload _ _ _ _ b) in H
    | H : set_prev _ _ _ = Some _ |- _ => apply (set_prev_payload _ _ _ _ b) in H
    end; congruence.
Qed.

Lemma pop_payload h head h' head' r b :
  janus_seq_pop_head h head = Some (h', head', r) -> payload <$> h' !! b = payload <$> h !! b.
Proof.
  destruct head as [hd|]; cbn [janus_seq_pop_head]; intros H; simplify_option_eq;
    repeat match goal with
    | H : set_next _ _ _ = Some _ |- _ => apply (set_next_payload _ _ _ _ b) in H
    | H : set_prev _ _ _ = Some _ |- _ => apply (set_prev_payload _ _ _ _ b) in H
    end; congruence.
Qed.

Lemma end_addr_snoc l z a : end_addr (l ++ [z]) a = z.
Proof. unfold end_addr. by rewrite last_snoc. Qed.

(** A ring with one node, and one with a first and a last node. *)
Lemma ring_single h a : ring h [a] <-> exists x, h !! a = Some x /\ prev x = a /\ next x = a.
Proof.
  unfold ring. cbn. split.
  - intros [_ (x & Hx & Hp & Hn & _)]. eauto.
  - intros (x & Hx & Hp & Hn). split; [apply NoDup_singleton|]. exists x. auto.
Qed.

Lemma ring_ends h a m z :
  ring h (a :: m ++ [z]) <->
  NoDup (a :: m ++ [z]) /\
  (exists x, h !! a = Some x /\ prev x = z /\ next x = default z (head m)) /\
  seg h a m z /\
  (exists y, h !! z = Some y /\ prev y = end_addr m a /\ next y = a).
Proof.
  unfold ring. rewrite app_comm_cons, end_addr_snoc. cbn [app seg].
  setoid_rewrite seg_app. cbn [seg head default].
  destruct m as [|b m]; cbn [head default app]; naive_solver.
Qed.

Lemma NoDup_ends (a z : addr) m : NoDup (a :: m ++ [z]) -> a <> z /\ a ∉ m /\ z ∉ m.
Proof.
  intros [Ha Hm]%NoDup_cons. apply NoDup_app in Hm as (_ & Hd & _). repeat split.
  - intros ->. apply Ha, elem_of_app. right. by apply list_elem_of_singleton.
  - intros H. apply Ha, elem_of_app. by left.
  - intros H. apply (Hd z H). by apply list_elem_of_singleton.
Qed.

Lemma NoDup_snoc (l : list addr) w : NoDup l -> w ∉ l -> NoDup (l ++ [w]).
Proof.
  intros Hl Hw. apply NoDup_app. split; [exact Hl|]. split; [|apply NoDup_singleton].
  intros x Hx ->%list_elem_of_singleton. by apply Hw.
Qed.

Lemma append_links h l w nw :
  ring h l -> w ∉ l -> h !! w = Some nw ->
  exists h', janus_seq_append h (head l) w = Some (h', head (l ++ [w])) /\
    ring h' (l ++ [w]) /\ (forall b, b ∉ l ++ [w] -> h' !! b = h !! b).
Proof.
  intros Hr Hw Hnw. destruct l as [|a l].
  - cbn [head janus_seq_append]. unfold set_prev, set_next. rewrite Hnw. cbn.
    rewrite lookup_insert_eq. cbn. eexists. split; [reflexivity|]. split.
    + apply ring_single. rewrite lookup_insert_eq. eexists. split; [reflexivity|]. auto.
    + intros b Hb. rewrite !lookup_insert_ne; [reflexivity|..]; set_solver.
  - destruct l as [|z m _] using rev_ind.
    + apply ring_single in Hr as (x & Hx & Hp & Hn).
      assert (Hne : a <> w) by set_solver.
      cbn [head app janus_seq_append]. unfold set_prev, set_next.
      repeat (simplify_map_eq; cbn). eexists. split; [reflexivity|]. split.
      * apply (ring_ends _ _ [] w). split; [apply (NoDup_snoc [_]); [apply NoDup_singleton|exact Hw]|].
        split; [eexists; split; [by simplify_map_eq|]; auto|]. split; [exact I|].
        eexists. split; [by simplify_map_eq|]. auto.
      * intros b Hb. rewrite !lookup_insert_ne; [reflexivity|..]; set_solver.
    + apply ring_ends in Hr as (Hnd & ([vx nx px] & Hx & Hxp & Hxn) & Hm & ([vy ny py] & Hy & Hyp & Hyn)).
      cbn in Hxp, Hxn, Hyp, Hyn. subst px ny py nx.
      destruct (NoDup_ends _ _ _ Hnd) as (Haz & Ham & Hzm).
      assert (Haw : a <> w) by set_solver. assert (Hzw : z <> w) by set_solver.
      assert (Hwm : w ∉ m) by set_solver.
      cbn [head app janus_seq_append]. unfold set_prev, set_next.
      repeat (simplify_map_eq; cbn). eexists. split; [reflexivity|]. split.
      * apply (ring_ends _ a (m ++ [z]) w).
        split; [apply (NoDup_snoc (a :: m ++ [z])); assumption|].
        split; [eexists; split; [by simplify_map_eq|]; cbn; destruct m; auto|].
        split.
        -- apply seg_app. cbn [head default seg]. rewrite !seg_frame by assumption.
           split; [exact Hm|]. eexists. split; [by simplify_map_eq|]. auto.
        -- eexists. split; [by simplify_map_eq|]. rewrite end_addr_snoc. auto.
      * intros b Hb. rewrite !lookup_insert_ne; [reflexivity|..]; set_solver.
Qed.

Lemma pop_links h a l :
  ring h (a :: l) ->
  exists h', janus_seq_pop_head h (Some a) = Some (h', head l, Some a) /\
    ring h' l /\ (forall b, b ∉ l -> h' !! b = h !! b).
Proof.
  intros Hr. destruct l as [|z m _] using rev_ind.
  - apply ring_single in Hr as (x & Hx & Hp & Hn). cbn [janus_seq_pop_head]. rewrite Hx. cbn.
    rewrite decide_True by congruence. eexists. split; [reflexivity|].
    split; [by split; [apply NoDup_nil|]|auto].
  - apply ring_ends in Hr as (Hnd & ([vx nx px] & Hx & Hxp & Hxn) & Hm & ([vy ny py] & Hy & Hyp & Hyn)).
    cbn in Hxp, Hxn, Hyp, Hyn. subst px ny py nx.
    destruct (NoDup_ends _ _ _ Hnd) as (Haz & Ham & Hzm).
    apply NoDup_cons in Hnd as [Hal Hnd].
    cbn [janus_seq_pop_head]. rewrite Hx. cbn. unfold set_prev, set_next.
    destruct m as [|c m]; cbn [head default app] in *.
    + rewrite decide_False by congruence. rewrite Hy. cbn. rewrite lookup_insert_eq. cbn.
      rewrite lookup_insert_eq. cbn.
      eexists. split; [reflexivity|]. split.
      * apply ring_single. rewrite lookup_insert_eq. eexists. split; [reflexivity|]. auto.
      * intros b Hb. rewrite !lookup_insert_ne; [reflexivity|..]; set_solver.
    + rewrite decide_False by set_solver. destruct Hm as ([vc nc pc] & Hc & Hcp & Hcn & Hm).
      cbn in Hcp, Hcn. subst pc nc.
      assert (Hcz : c <> z) by set_solver. assert (Hcm : c ∉ m) by (apply NoDup_cons in Hnd; set_solver).
      assert (Hzm' : z ∉ m) by set_solver.
      repeat (simplify_map_eq; cbn). eexists. split; [reflexivity|]. split.
      * apply ring_ends. split; [exact Hnd|].
        split; [eexists; split; [by simplify_map_eq|]; auto|].
        split; [by rewrite !seg_frame|].
        eexists. split; [by simplify_map_eq|]. split; [|reflexivity]. cbn.
        destruct m as [|d m _] using rev_ind; [reflexivity|].
        unfold end_addr. by rewrite app_comm_cons, !last_snoc.
      * intros b Hb. rewrite !lookup_insert_ne; [reflexivity|..]; set_solver.
Qed.

Lemma free_seg h hd : forall l p fuel a,
  NoDup (a :: l) -> hd ∉ l -> seg h p (a :: l) hd -> (length l < fuel)%nat ->
  exists h', free_from fuel h hd a = Some h' /\
    (forall b, b ∈ a :: l -> h' !! b = None) /\ (forall b, b ∉ a :: l -> h' !! b = h !! b).
Proof.
  intros l. revert h. induction l as [|c l IH]; intros h p fuel a Hnd Hhd Hs Hf;
    destruct fuel as [|fuel]; cbn in Hf; try lia;
    destruct Hs as (x & Hx & _ & Hn & Hs); cbn [head default] in Hn; unfold id in Hn;
    cbn [free_from]; rewrite Hx; cbn; rewrite Hn.
  - rewrite decide_True by reflexivity. eexists. split; [reflexivity|]. split.
    + intros b ->%list_elem_of_singleton. apply lookup_delete_eq.
    + intros b Hb. rewrite lookup_delete_ne; [reflexivity|set_solver].
  - apply NoDup_cons in Hnd as [Ha Hnd]. rewrite decide_False by set_solver.
    destruct (IH (delete a h) a fuel c) as (h' & -> & Hin & Hout);
      [exact Hnd|set_solver|apply seg_delete; assumption|lia|].
    exists h'. split; [reflexivity|]. split.
    + intros b [->|Hb]%elem_of_cons; [|by apply Hin].
      rewrite Hout by exact Ha. apply lookup_delete_eq.
    + intros b Hb. rewrite Hout by set_solver. rewrite lookup_delete_ne; [reflexivity|set_solver].
Qed.

(** On a well-linked ring whose nodes from the head are [l],
    [janus_seq_append] of a node outside it reads and writes only nodes of the
    ring and the new one, and leaves the ring of [l] followed by the new node:
    same head (the new node if there was none), the numbers of [l] followed by
    that of the new node, and every other node of the memory untouched. *)
Theorem append_ring h l w nw :
  ring h l -> w ∉ l -> h !! w = Some nw ->
  exists h', janus_seq_append h (head l) w = Some (h', head (l ++ [w])) /\
    ring h' (l ++ [w]) /\ values h' (l ++ [w]) = values h l ++ [payload nw] /\
    (forall b, b ∉ l ++ [w] -> h' !! b = h !! b).
Proof.
  intros Hr Hw Hnw. destruct (append_links h l w nw Hr Hw Hnw) as (h' & E & Hr' & Hout).
  exists h'. split; [exact E|]. split; [exact Hr'|]. split; [|exact Hout].
  rewrite (values_ext h h') by (intros b; exact (append_payload _ _ _ _ _ b E)).
  rewrite values_app. cbn. by rewrite Hnw.
Qed.

(** On a well-linked ring [janus_seq_pop_head] returns the first node and
    leaves the well-linked ring of the others, with their numbers; every node
    outside the remaining ring, the one popped included, is untouched. *)
Theorem pop_ring h a l :
  ring h (a :: l) ->
  exists h', janus_seq_pop_head h (Some a) = Some (h', head l, Some a) /\
    ring h' l /\ values h' l = values h l /\ (forall b, b ∉ l -> h' !! b = h !! b).
Proof.
  intros Hr. destruct (pop_links h a l Hr) as (h' & E & Hr' & Hout).
  exists h'. split; [exact E|]. split; [exact Hr'|]. split; [|exact Hout].
  apply values_ext. intros b. exact (pop_payload _ _ _ _ _ b E).
Qed.

(** [janus_seq_list_free] of a well-linked ring ends (as many turns as
    there are nodes), frees each node of the ring once and no other, never
    reads a node it has freed, and resets the head. *)
Theorem free_ring h l fuel :
  ring h l -> (length l <= fuel)%nat ->
  exists h', janus_seq_list_free fuel h (head l) = Some (h', None) /\
    (forall b, b ∈ l -> h' !! b = None) /\ (forall b, b ∉ l -> h' !! b = h !! b).
Proof.
  intros [Hnd Hs] Hf. destruct l as [|a l]; cbn [head janus_seq_list_free].
  - exists h. split; [reflexivity|]. split; [set_solver|auto].
  - destruct (free_seg h a l (end_addr (a :: l) a) fuel a) as (h' & -> & H);
      [exact Hnd|by apply NoDup_cons in Hnd as [? _]|exact Hs|exact Hf|].
    exists h'. split; [reflexivity|exact H].
Qed.

(** ** Examples: three nodes in a ring, a fourth outside *)

Definition sample : heap :=
  <[4%positive := mk_node (0, 13, 0, 0)%Z 4 4]>
  (<[1%positive := mk_node (0, 10, 0, 0)%Z 2 3]> (<[2%positive := mk_node (0, 11, 0, 0)%Z 3 1]>
  (<[3%positive := mk_node (0, 12, 0, 0)%Z 1 2]> ∅))).

Lemma sample_ring : ring sample [1%positive; 2%positive; 3%positive].
Proof.
  split; [apply (bool_decide_unpack (NoDup [1%positive; 2%positive; 3%positive])); exact I|].
  repeat (eexists; split; [reflexivity|]; split; [reflexivity|]; split; [reflexivity|]). exact I.
Qed.

Lemma append_ring_witness :
  exists h', janus_seq_append sample (Some 1%positive) 4%positive = Some (h', Some 1%positive) /\
    ring h' [1%positive; 2%positive; 3%positive; 4%positive] /\ values h' [1%positive; 2%positive; 3%positive; 4%positive] = values sample [1%positive; 2%positive; 3%positive] ++ [(0, 13, 0, 0)%Z] /\
    (forall b, b ∉ [1%positive; 2%positive; 3%positive; 4%positive] -> h' !! b = sample !! b).
Proof.
  apply (append_ring sample [1%positive; 2%positive; 3%positive] 4%positive (mk_node (0, 13, 0, 0)%Z 4 4) sample_ring);
    [apply (bool_decide_unpack (4%positive ∉ [1%positive; 2%positive; 3%positive])); exact I|reflexivity].
Defined.

Lemma pop_ring_witness :
  exists h', janus_seq_pop_head sample (Some 1%positive) = Some (h', Some 2%positive, Some 1%positive) /\
    ring h' [2%positive; 3%positive] /\ values h' [2%positive; 3%positive] = values sample [2%positive; 3%positive] /\
    (forall b, b ∉ [2%positive; 3%positive] -> h' !! b = sample !! b).
Proof. exact (pop_ring sample 1%positive [2%positive; 3%positive] sample_ring). Defined.

Lemma free_ring_witness :
  exists h', janus_seq_list_free 3 sample (Some 1%positive) = Some (h', None) /\
    (forall b, b ∈ [1%positive; 2%positive; 3%positive] -> h' !! b = None) /\ (forall b, b ∉ [1%positive; 2%positive; 3%positive] -> h' !! b = sample !! b).
Proof. exact (free_ring sample [1%positive; 2%positive; 3%positive] 3 sample_ring (le_n 3)). Defined.
End SeqRing.
