(* ===== verification/PacketQueue.v ===== *)
(** * The RTP packet queue

    Models src/orbit/rtp/rtp_packet_queue.cc.  The list is [queue_] from its
    front, the newest packet, to its back, the oldest.  A depth in seconds is a
    rational: the code divides a 32-bit difference of timestamps by the
    timebase as doubles, and depths are compared, never added.  Locks and
    logging are not modelled.  The theorems show the queue sorted by serial
    number, without duplicates and not deeper than its bound, and what popping
    gives, the first pop included. *)

From Stdlib Require Import QArith Sorted Permutation.
From S2P Require Import Prelude Wire RtpHeaders.
Import Wire RtpHeaders.
#[local] Open Scope Z_scope.

Module PacketQueue.

Definition DEFAULT_DEPTH : Q := 3 # 1.
Definition DEFAULT_MAX : Q := 5 # 1.

Record rtp_queue := mk_queue {
  queue_ : list (list Z);
  lastSequenceNumberGiven_ : Z;
  timebase_ : Z;
  depthInSeconds_ : Q;
  maxDepthInSeconds_ : Q
}.

Definition set_queue (st : rtp_queue) (q : list (list Z)) : rtp_queue :=
  mk_queue q (lastSequenceNumberGiven_ st) (timebase_ st) (depthInSeconds_ st)
    (maxDepthInSeconds_ st).
Definition set_last (st : rtp_queue) (last : Z) : rtp_queue :=
  mk_queue (queue_ st) last (timebase_ st) (depthInSeconds_ st) (maxDepthInSeconds_ st).

Definition Qgt_bool (a b : Q) : bool := negb (Qle_bool a b).

(** The constructor. *)
Definition RtpPacketQueue (depthInSeconds maxDepthInSeconds : Q) : rtp_queue :=
  if Qle_bool maxDepthInSeconds depthInSeconds then mk_queue [] (-1) 0 DEFAULT_DEPTH DEFAULT_MAX
  else mk_queue [] (-1) 0 depthInSeconds maxDepthInSeconds.

Definition IsEmpty (st : rtp_queue) : bool := match queue_ st with [] => true | _ => false end.
Definition getSize (st : rtp_queue) : Z := s32 (zlen (queue_ st)).
Definition setTimebase (st : rtp_queue) (timebase : Z) : rtp_queue :=
  mk_queue (queue_ st) (lastSequenceNumberGiven_ st) timebase (depthInSeconds_ st)
    (maxDepthInSeconds_ st).

Definition rtpSequenceLessThan (x y : Z) : bool :=
  let x := u16 x in
  let y := u16 y in
  let diff := y - x in
  if 0 <? diff then diff <? 0x8000
  else if diff <? 0 then diff <? -0x8000
  else false.

(** The [data] of a [dataPacket]: 1500 bytes, zero where nothing was copied. *)
Definition buffer (p : list Z) : list Z := p ++ zeros (1500 - zlen p).

Definition getDepthInSeconds (timebase : Z) (q : list (list Z)) : res Q :=
  match q, rev q with
  | newest :: _ :: _, oldest :: _ =>
      if 0 <? timebase then
        let! n := getTimestamp (buffer newest) in
        let! o := getTimestamp (buffer oldest) in
        Ok (u32 (n - o) # Z.to_pos timebase)
      else Ok 0%Q
  | _, _ => Ok 0%Q
  end.

Definition hasData (st : rtp_queue) : res bool :=
  let! d := getDepthInSeconds (timebase_ st) (queue_ st) in
  Ok (Qgt_bool d (depthInSeconds_ st)).

(** The loop over the queue: the packet goes before the first one it is newer
    than, nowhere when its number is met first, else at the end. *)
Fixpoint insert (packet : list Z) (currentSequenceNumber : Z) (q : list (list Z))
    : res (list (list Z)) :=
  match q with
  | [] => Ok [packet]
  | it :: q' =>
      let! sequenceNumber := getSeqNumber (buffer it) in
      if sequenceNumber =? currentSequenceNumber then Ok q
      else if rtpSequenceLessThan sequenceNumber currentSequenceNumber then Ok (packet :: q)
      else let! q' := insert packet currentSequenceNumber q' in Ok (it :: q')
  end.

(** [pop_back] of an empty list is undefined. *)
Fixpoint trim (fuel : nat) (timebase : Z) (maxDepth : Q) (q : list (list Z))
    : res (list (list Z)) :=
  let! d := getDepthInSeconds timebase q in
  if Qgt_bool d maxDepth then
    match fuel, q with
    | O, _ => NoFuel
    | _, [] => Oob
    | S fuel, _ => trim fuel timebase maxDepth (removelast q)
    end
  else Ok q.

Definition pushPacket (st : rtp_queue) (data : list Z) : res rtp_queue :=
  let! currentSequenceNumber := getSeqNumber data in
  let last := lastSequenceNumberGiven_ st in
  if (0 <=? last) &&
     (rtpSequenceLessThan currentSequenceNumber (u16 last - 50) || (currentSequenceNumber =? last))
  then Ok st
  else if 1500 <? zlen data then Oob
  else
    let! q := insert data currentSequenceNumber (queue_ st) in
    let! q := trim (length q) (timebase_ st) (maxDepthInSeconds_ st) q in
    Ok (set_queue st q).

Definition popPacket (st : rtp_queue) (ignore_depth ignore_old_packet : bool)
    : res (option (list Z) * rtp_queue) :=
  match rev (queue_ st) with
  | [] => Ok (None, st)
  | packet :: _ =>
      let! d := getDepthInSeconds (timebase_ st) (queue_ st) in
      if ignore_depth || Qgt_bool d (depthInSeconds_ st) then
        let st := set_queue st (removelast (queue_ st)) in
        let! s := getSeqNumber (buffer packet) in
        if ignore_old_packet && rtpSequenceLessThan s (lastSequenceNumberGiven_ st)
        then Ok (None, st)
        else Ok (Some packet, set_last st s)
      else Ok (None, st)
  end.

Definition getNextPacket (st : rtp_queue) (ignore_depth : bool)
    : res (option (list Z) * rtp_queue) :=
  match rev (queue_ st) with
  | [] => Ok (None, st)
  | packet :: _ =>
      let! d := getDepthInSeconds (timebase_ st) (queue_ st) in
      if ignore_depth || Qgt_bool d (depthInSeconds_ st) then
        let! s := getSeqNumber (buffer packet) in
        Ok (Some packet, set_last st s)
      else Ok (None, st)
  end.

(** ** Serial numbers *)

(** The comparison is the one of RFC 1982: the distance from [x] forward to
    [y] is between 1 and 32767. *)
Lemma less_dist x y : rtpSequenceLessThan x y = (0 <? u16 (y - x)) && (u16 (y - x) <? 32768).
Proof.
  unfold rtpSequenceLessThan. pose proof (u16_range x). pose proof (u16_range y).
  replace (u16 (y - x)) with (u16 (u16 y - u16 x)) by int_lia.
  revert H H0. generalize (u16 x) (u16 y). intros a b Ha Hb. unfold u16, in_u16 in *.
  change 0x8000 with 32768. change (-0x8000) with (-32768).
  destruct (Z.ltb_spec 0 (b - a)); [rewrite Z.mod_small by lia; lia|].
  destruct (Z.ltb_spec (b - a) 0).
  - replace ((b - a) mod 65536) with (b - a + 65536) by dlia. lia.
  - replace (b - a) with 0 by lia. reflexivity.
Qed.

(** The offset of [x] in a window that starts at [base]; inside a window of
    half the numbers the comparison is the one of the offsets. *)
Definition off (base x : Z) : Z := u16 (x - base).
Definition inside (base x : Z) : Prop := in_u16 x /\ off base x < 32768.

Lemma off_range base x : in_u16 (off base x).
Proof. apply u16_range. Qed.

Lemma less_off base x y :
  inside base x -> inside base y -> rtpSequenceLessThan x y = (off base x <? off base y).
Proof.
  intros [Hx Hox] [Hy Hoy]. rewrite less_dist. unfold off in *.
  destruct (Z.ltb_spec (u16 (x - base)) (u16 (y - base))); int_lia.
Qed.

Lemma off_inj base x y : inside base x -> inside base y -> off base x = off base y -> x = y.
Proof. intros [Hx Hox] [Hy Hoy]. unfold off in *. int_lia. Qed.
(** ** The invariant *)

Definition number (p : list Z) : Z := b16 p 2.
Definition packet_ok (p : list Z) : Prop := bytes p /\ 12 <= zlen p <= 1500.

(** From the front to the back the numbers fall, in a window of half of them
    that starts at [base]. *)
Definition newer (base : Z) (a b : list Z) : Prop := off base (number b) < off base (number a).
Definition sorted_in (base : Z) (q : list (list Z)) : Prop :=
  Forall packet_ok q /\ Forall (fun p => inside base (number p)) q /\ StronglySorted (newer base) q.

Lemma number_ok p : packet_ok p -> getSeqNumber p = Ok (number p).
Proof. intros [_ H]. unfold getSeqNumber. now rewrite be16_ok by lia. Qed.

Lemma seq_ok p : packet_ok p -> getSeqNumber (buffer p) = Ok (number p).
Proof.
  intros [_ H]. unfold getSeqNumber, buffer, number.
  rewrite be16_ok by (autorewrite with zlen; pose proof (zlen_nonneg (zeros (1500 - zlen p))); lia).
  unfold b16. now rewrite !rd_app_l by lia.
Qed.

Lemma timestamp_ok p : packet_ok p -> getTimestamp (buffer p) = Ok (b32 p 4).
Proof.
  intros [_ H]. unfold getTimestamp, buffer.
  rewrite be32_ok by (autorewrite with zlen; pose proof (zlen_nonneg (zeros (1500 - zlen p))); lia).
  unfold b32, b16. now rewrite !rd_app_l by lia.
Qed.

(** The depth as a number. *)
Definition depth (timebase : Z) (q : list (list Z)) : Q :=
  match getDepthInSeconds timebase q with Ok d => d | _ => 0%Q end.

Lemma depth_ok timebase q :
  Forall packet_ok q -> getDepthInSeconds timebase q = Ok (depth timebase q).
Proof.
  intros H. unfold depth, getDepthInSeconds. destruct q as [|x [|y q]]; try reflexivity.
  destruct (rev (x :: y :: q)) as [|o l] eqn:E; [reflexivity|].
  destruct (0 <? timebase); [|reflexivity].
  assert (Ho : In o (x :: y :: q)) by (apply in_rev; rewrite E; now left).
  rewrite Forall_forall in H.
  rewrite (timestamp_ok x), (timestamp_ok o) by (apply H; auto with datatypes). reflexivity.
Qed.

Lemma depth_short timebase q : (length q <= 1)%nat -> depth timebase q = 0%Q.
Proof. destruct q as [|x [|y q]]; cbn; intros; try reflexivity; lia. Qed.

(** *** Insertion *)

Lemma insert_dup base q data :
  sorted_in base q -> inside base (number data) -> In (number data) (map number q) ->
  insert data (number data) q = Ok q.
Proof.
  intros (Hok & Hin & Hs) Hd. induction q as [|x q IH]; intros HI; [destruct HI|].
  inversion Hok as [|? ? Hx Hq]; subst. inversion Hin as [|? ? Ix Iq]; subst.
  inversion Hs as [|? ? Sq Sx]; subst. cbn [insert]. rewrite seq_ok by assumption. cbn [bind].
  destruct (Z.eqb_spec (number x) (number data)); [reflexivity|].
  destruct HI as [HI|HI]; [congruence|].
  rewrite (less_off base) by assumption.
  apply in_map_iff in HI. destruct HI as (y & Ey & Hy).
  rewrite Forall_forall in Sx. specialize (Sx y Hy). unfold newer in Sx. rewrite Ey in Sx.
  replace (off base (number x) <? off base (number data)) with false by lia.
  rewrite IH; auto. apply in_map_iff. eauto.
Qed.

Lemma insert_new base q data :
  sorted_in base q -> packet_ok data -> inside base (number data) ->
  ~ In (number data) (map number q) ->
  exists q', insert data (number data) q = Ok q' /\ Permutation (data :: q) q' /\ sorted_in base q'.
Proof.
  intros (Hok & Hin & Hs) Hp Hd. induction q as [|x q IH]; intros HN.
  - exists [data]. repeat split; auto. repeat constructor.
  - inversion Hok as [|? ? Hx Hq]; subst. inversion Hin as [|? ? Ix Iq]; subst.
    inversion Hs as [|? ? Sq Sx]; subst. cbn [insert]. rewrite seq_ok by assumption. cbn [bind].
    cbn in HN. replace (number x =? number data) with false by lia.
    rewrite (less_off base) by assumption.
    destruct (Z.ltb_spec (off base (number x)) (off base (number data))).
    + exists (data :: x :: q). repeat split; auto. constructor; [assumption|].
      constructor; [assumption|]. revert Sx. apply Forall_impl. unfold newer. intros; lia.
    + destruct IH as (q' & -> & P & Hok' & Hin' & Hs'); [auto..|]. exists (x :: q'). cbn [bind].
      split; [reflexivity|]. split; [rewrite perm_swap; now constructor|].
      split; [now constructor|]. split; [now constructor|]. constructor; [assumption|].
      eapply Permutation_Forall; [exact P|]. constructor; [|assumption].
      unfold newer. pose proof (off_inj base (number x) (number data) Ix Hd). lia.
Qed.

(** *** Trimming *)

Lemma Qgt_bool_spec a b : Qgt_bool a b = true <-> (b < a)%Q.
Proof.
  unfold Qgt_bool. rewrite negb_true_iff, <- not_true_iff_false, Qle_bool_iff. split; intros H.
  - now apply Qnot_le_lt.
  - now apply Qlt_not_le.
Qed.

(** What is left is the longest prefix that is not too deep. *)
Lemma trim_ok timebase mx q :
  Forall packet_ok q -> (0 <= mx)%Q ->
  exists k, (k <= length q)%nat /\ trim (length q) timebase mx q = Ok (firstn k q) /\
    (depth timebase (firstn k q) <= mx)%Q /\
    forall j, (k < j <= length q)%nat -> (mx < depth timebase (firstn j q))%Q.
Proof.
  intros Hok Hm. remember (length q) as n eqn:En. revert q En Hok.
  induction n as [|n IH]; intros q En Hok.
  - exists 0%nat. destruct q; [|discriminate]. cbn [trim]. rewrite depth_ok by assumption. cbn [bind].
    rewrite depth_short by (cbn; lia).
    replace (Qgt_bool 0 mx) with false
      by (symmetry; apply not_true_iff_false; rewrite Qgt_bool_spec; now apply Qle_not_lt).
    repeat split; auto. intros; lia.
  - cbn [trim]. rewrite depth_ok by assumption. cbn [bind].
    destruct (Qgt_bool (depth timebase q) mx) eqn:E.
    + destruct q as [|x q0] eqn:Eq; [discriminate|]. rewrite <- Eq in *.
      assert (El : removelast q = firstn n q).
      { rewrite removelast_firstn_len. f_equal. lia. }
      assert (Hf : length (firstn n q) = n) by (rewrite length_firstn; lia).
      destruct (IH (firstn n q)) as (k & Hk & Ht & Hd & Hmax).
      { lia. } { now apply Forall_firstn. }
      replace (match q with | [] => Oob | _ :: _ => trim n timebase mx (removelast q) end)
        with (trim n timebase mx (removelast q)) by (rewrite Eq; reflexivity).
      rewrite El, Ht. exists k. rewrite firstn_firstn in *.
      replace (Nat.min k n) with k in * by lia.
      split; [lia|]. split; [reflexivity|]. split; [assumption|].
      intros j Hj. destruct (Nat.eq_dec j (S n)) as [->|].
      * rewrite En, firstn_all. now apply Qgt_bool_spec.
      * specialize (Hmax j ltac:(lia)). rewrite firstn_firstn in Hmax.
        now replace (Nat.min j n) with j in Hmax by lia.
    + exists (S n). rewrite En, firstn_all. split; [lia|]. split; [reflexivity|]. split.
      * apply Qnot_lt_le. rewrite <- Qgt_bool_spec. congruence.
      * intros; lia.
Qed.

Lemma sorted_firstn base k q : sorted_in base q -> sorted_in base (firstn k q).
Proof.
  intros (H1 & H2 & H3). repeat split; [now apply Forall_firstn..|].
  revert k; induction H3 as [|x q Hs IH Hx]; intros [|k]; cbn; constructor.
  - inversion H1; inversion H2; subst. now apply IH.
  - now apply Forall_firstn.
Qed.

(** ** The theorems *)

(** How far a number is behind the last one that was given out. *)
Definition behind (last s : Z) : Z := u16 (last - s).

(** What [pushPacket] refuses once a packet was given out: that number again,
    and those that are more than 50 behind it, up to half the circle.  Those
    that are 1 to 50 behind are let in, although the comment at the comparison
    and the description of the class (its item 5) say that everything older
    than what was handed out is discarded; see [older_packet_is_pushed]. *)
Definition late (st : rtp_queue) (s : Z) : bool :=
  let last := lastSequenceNumberGiven_ st in
  (0 <=? last) && ((behind last s =? 0) || ((50 <? behind last s) && (behind last s <? 50 + 32768))).

Lemma late_test st s : in_u16 s -> -1 <= lastSequenceNumberGiven_ st <= 65535 ->
  (0 <=? lastSequenceNumberGiven_ st) &&
    (rtpSequenceLessThan s (u16 (lastSequenceNumberGiven_ st) - 50) || (s =? lastSequenceNumberGiven_ st)) = late st s.
Proof.
  intros Hs Hl. unfold late, behind. cbv zeta. set (last := lastSequenceNumberGiven_ st) in *.
  destruct (Z.leb_spec 0 last); [cbn [andb]|reflexivity].
  rewrite u16_id, less_dist by int_lia. apply eq_true_iff_eq. rewrite !orb_true_iff, !andb_true_iff, !Z.ltb_lt, !Z.eqb_eq.
  int_unfold. pose proof (Z.mod_pos_bound (last - s) 65536 ltac:(lia)).
  int_lia.
Qed.

(** C26. Pushing a packet into a queue sorted by serial number: a packet with
    the number given out last, or with one more than 50 (and at most half the
    circle) behind it, changes nothing; a number that is already there is
    dropped; any other, also one up to 50 behind what was given out, is put in
    its place; then the oldest packets are dropped, no more than needed, until
    the queue is not deeper than its bound.  No access leaves a packet. *)
Theorem pushPacket_spec base st data :
  sorted_in base (queue_ st) -> packet_ok data -> inside base (number data) ->
  (0 <= maxDepthInSeconds_ st)%Q -> -1 <= lastSequenceNumberGiven_ st <= 65535 ->
  (late st (number data) = true /\ pushPacket st data = Ok st) \/
  (late st (number data) = false /\
   exists q k, pushPacket st data = Ok (set_queue st (firstn k q)) /\ sorted_in base q /\
     (if in_dec Z.eq_dec (number data) (map number (queue_ st)) then q = queue_ st
      else Permutation (data :: queue_ st) q) /\
     (k <= length q)%nat /\
     (depth (timebase_ st) (firstn k q) <= maxDepthInSeconds_ st)%Q /\
     forall j, (k < j <= length q)%nat ->
       (maxDepthInSeconds_ st < depth (timebase_ st) (firstn j q))%Q).
Proof.
  intros Hs Hp Hd Hm Hl. unfold pushPacket. rewrite number_ok by assumption. cbn [bind].
  rewrite late_test by (apply Hd || assumption). destruct (late st (number data)); [now left|right].
  split; [reflexivity|]. replace (1500 <? zlen data) with false by (destruct Hp; lia).
  assert (Hq : exists q, insert data (number data) (queue_ st) = Ok q /\ sorted_in base q /\
      (if in_dec Z.eq_dec (number data) (map number (queue_ st)) then q = queue_ st
       else Permutation (data :: queue_ st) q)).
  { destruct in_dec as [HI|HI].
    - exists (queue_ st). now rewrite (insert_dup base) by assumption.
    - destruct (insert_new base (queue_ st) data) as (q & H1 & H2 & H3); eauto. }
  destruct Hq as (q & -> & Hsq & Hc). cbn [bind].
  destruct (trim_ok (timebase_ st) (maxDepthInSeconds_ st) q) as (k & Hk & -> & Hdp & Hmax);
    [apply Hsq|assumption|].
  exists q, k. cbn [bind]. auto 8.
Qed.

Lemma sorted_app_last base q p :
  sorted_in base (q ++ [p]) ->
  sorted_in base q /\ packet_ok p /\ inside base (number p) /\
  Forall (fun x => newer base x p) q.
Proof.
  intros (H1 & H2 & H3). apply Forall_app in H1 as [H1 P1]. apply Forall_app in H2 as [H2 P2].
  inversion P1; inversion P2; subst.
  assert (H : StronglySorted (newer base) q /\ Forall (fun x => newer base x p) q).
  { clear - H3. induction q as [|x q IH]; [split; constructor|].
    cbn in H3. inversion H3 as [|? ? Hs Hf]; subst. apply Forall_app in Hf as [Hf Hl].
    destruct (IH Hs). inversion Hl; subst. split; constructor; auto. }
  unfold sorted_in. tauto.
Qed.

(** Popping: nothing from an empty queue, nor from one that is not deep enough
    unless the depth is ignored; otherwise the packet at the back leaves the
    queue, and it is older than every packet that stays.  It is given out
    unless old packets are to be dropped and its number is before the last one
    given.  In a new queue that last number is -1, read as 65535: then the
    packets with numbers from 32768 to 65534 are taken out and dropped. *)
Theorem popPacket_spec base st l p ignore_depth ignore_old :
  queue_ st = l ++ [p] -> sorted_in base (queue_ st) ->
  let ready := ignore_depth || Qgt_bool (depth (timebase_ st) (queue_ st)) (depthInSeconds_ st) in
  let drop := ignore_old && rtpSequenceLessThan (number p) (lastSequenceNumberGiven_ st) in
  popPacket st ignore_depth ignore_old =
    Ok (if ready then
          if drop then (None, set_queue st l)
          else (Some p, set_last (set_queue st l) (number p))
        else (None, st)) /\
  Forall (fun x => rtpSequenceLessThan (number p) (number x) = true) l /\ sorted_in base l /\
  (lastSequenceNumberGiven_ st = -1 -> ignore_old = true ->
   drop = (32768 <=? number p) && (number p <=? 65534)).
Proof.
  intros Eq Hs ready drop. rewrite Eq in Hs.
  destruct (sorted_app_last _ _ _ Hs) as (Hl & Hp & Hi & HF). repeat split; try apply Hl.
  - unfold popPacket. rewrite Eq, rev_app_distr. cbn [rev app].
    rewrite depth_ok by apply Hs. cbn [bind].
    subst ready. rewrite Eq. destruct (_ || _); [|reflexivity].
    rewrite removelast_last, seq_ok by assumption. cbn [bind]. fold drop.
    cbn [lastSequenceNumberGiven_ set_queue]. fold drop. destruct drop; reflexivity.
  - destruct Hl as (_ & Hin & _). clear - HF Hin Hi. induction HF as [|x l Hx _ IH]; constructor.
    + inversion Hin; subst. rewrite (less_off base) by assumption. unfold newer in Hx. lia.
    + inversion Hin; auto.
  - intros E1 E2. subst drop. rewrite E1, E2, less_dist. destruct Hi as [Hi _]. int_lia.
Qed.

(** Popping until the queue is empty. *)
Fixpoint drain (n : nat) (st : rtp_queue) : res (list (list Z) * rtp_queue) :=
  match n with
  | O => Ok ([], st)
  | S n =>
      let! (p, st) := popPacket st true false in
      let! (l, st) := drain n st in
      Ok (match p with Some p => p :: l | None => l end, st)
  end.

(** C27. Every packet that is in the queue comes out: as many pops as it has
    packets, with the depth ignored, empty it and give them by rising serial
    number. *)
Theorem drain_in_order base st :
  sorted_in base (queue_ st) ->
  exists st' l, drain (length (queue_ st)) st = Ok (l, st') /\ queue_ st' = [] /\
    Permutation (queue_ st) l /\
    StronglySorted (fun a b => rtpSequenceLessThan (number a) (number b) = true) l.
Proof.
  remember (queue_ st) as q eqn:E. revert st E.
  induction q as [|p q IH] using rev_ind; intros st E Hs.
  - exists st, []. repeat split; auto; constructor.
  - rewrite length_app, Nat.add_comm. cbn [length Nat.add drain].
    destruct (popPacket_spec base st q p true false) as (H & Ho & Hq & _); [auto|congruence|].
    cbn [orb andb] in H. rewrite H. cbn [bind].
    destruct (IH (set_last (set_queue st q) (number p))) as (st' & l & -> & He & Hp & Hsl);
      [reflexivity|assumption|].
    exists st', (p :: l). repeat split; auto.
    + rewrite Permutation_app_comm. cbn. now constructor.
    + constructor; [assumption|]. now rewrite <- Hp.
Qed.

(** ** Concrete queues *)

Definition packet (s t : Z) : list Z :=
  [128; 100; s / 256; s mod 256; t / 16777216; t / 65536 mod 256; t / 256 mod 256; t mod 256;
   0; 0; 0; 7].

Definition sortedb (base : Z) (q : list (list Z)) : bool :=
  forallb (fun p => forallb byteb p && (12 <=? zlen p) && (zlen p <=? 1500) &&
                    (0 <=? number p) && (number p <? 65536) && (off base (number p) <? 32768)) q &&
  (fix go q := match q with
               | [] => true
               | a :: q => forallb (fun b => off base (number b) <? off base (number a)) q && go q
               end) q.

Lemma sortedb_ok base q : sortedb base q = true -> sorted_in base q.
Proof.
  unfold sortedb, sorted_in, packet_ok, inside. intros [H1 H2]%andb_prop. repeat split.
  - apply Forall_forall. intros p Hp. rewrite forallb_forall in H1. specialize (H1 p Hp).
    repeat (apply andb_prop in H1 as [H1 ?]). split; [now apply bytes_forallb|lia].
  - apply Forall_forall. intros p Hp. rewrite forallb_forall in H1. specialize (H1 p Hp).
    repeat (apply andb_prop in H1 as [H1 ?]). int_unfold. lia.
  - clear H1. induction q as [|a q IH]; constructor; apply andb_prop in H2 as [H2 H3]; auto.
    apply Forall_forall. intros b Hb. rewrite forallb_forall in H2. specialize (H2 b Hb).
    unfold newer. lia.
Qed.

(** Two packets around the wrap of the sequence number, one second at a
    timebase of 1000 apart, and one that comes between. *)
Definition two : rtp_queue := mk_queue [packet 3 9000; packet 65530 8000] 65529 1000 (3 # 1) (5 # 1).

Example pushPacket_spec_witness :
  (sorted_in 65000 (queue_ two) /\ packet_ok (packet 65535 8100) /\
   inside 65000 (number (packet 65535 8100)) /\ (0 <= maxDepthInSeconds_ two)%Q /\
   -1 <= lastSequenceNumberGiven_ two <= 65535) /\
  late two (number (packet 65535 8100)) = false /\
  pushPacket two (packet 65535 8100) =
    Ok (set_queue two [packet 3 9000; packet 65535 8100; packet 65530 8000]).
Proof.
  assert (H : sorted_in 65000 (queue_ two)) by (apply sortedb_ok; reflexivity).
  assert (Hs : sorted_in 65000 [packet 65535 8100]) by (apply sortedb_ok; reflexivity).
  destruct Hs as (Hp & Hi & _). inversion Hp; inversion Hi; subst.
  assert (Hm : (0 <= maxDepthInSeconds_ two)%Q) by (vm_compute; discriminate).
  assert (Hl : -1 <= lastSequenceNumberGiven_ two <= 65535) by (cbn; lia).
  split; [tauto|].
  destruct (pushPacket_spec 65000 two (packet 65535 8100) H) as [[L _]|[L _]];
    [assumption..|vm_compute in L; discriminate|].
  split; [exact L|reflexivity].
Defined.

(** After the packet 12 was popped, the older packet 11 is pushed and handed
    out; only the packet 12 itself is refused. *)
Example older_packet_is_pushed :
  let start := mk_queue [packet 12 0] (-1) 0 (3 # 1) (5 # 1) in
  exists st, popPacket start true false = Ok (Some (packet 12 0), st) /\ lastSequenceNumberGiven_ st = 12 /\
    pushPacket st (packet 12 0) = Ok st /\ pushPacket st (packet 11 0) = Ok (set_queue st [packet 11 0]).
Proof. eexists. split; [vm_compute; reflexivity|]. repeat split; vm_compute; reflexivity. Qed.

(** A new queue whose only packet has number 40000. *)
Definition fresh : rtp_queue := mk_queue [packet 40000 0] (-1) 0 (3 # 1) (5 # 1).

Example popPacket_spec_witness :
  sorted_in 40000 (queue_ fresh) /\ queue_ fresh = [] ++ [packet 40000 0] /\
  popPacket fresh true true = Ok (None, set_queue fresh []).
Proof.
  assert (H : sorted_in 40000 (queue_ fresh)) by (apply sortedb_ok; reflexivity).
  split; [exact H|]. split; [reflexivity|].
  destruct (popPacket_spec 40000 fresh [] (packet 40000 0) true true eq_refl H) as (P & _ & _ & D).
  rewrite D in P by reflexivity. exact P.
Defined.

Example drain_in_order_witness :
  sorted_in 65000 (queue_ two) /\
  exists st', drain 2 two = Ok ([packet 65530 8000; packet 3 9000], st') /\ queue_ st' = [].
Proof.
  assert (H : sorted_in 65000 (queue_ two)) by (apply sortedb_ok; reflexivity). split; [exact H|].
  destruct (drain_in_order 65000 two H) as (st' & l & D & E & _). exists st'. split; [|exact E].
  vm_compute in D. injection D as <- <-. reflexivity.
Defined.
End PacketQueue.
