(* ===== verification/PacketBuffer.v ===== *)
(** * The packet buffers of the players

    Models src/orbit/modules/rtp_packet_buffer.h and rtp_packet_buffer.cc: the
    reordering buffer [RtpPacketBuffer] with its prebuffering size, and
    [VideoAwareFrameBuffer], which keeps the last key frame and what follows
    it until a player is ready.  [std::priority_queue] is the class
    [PriorityQueue]: what the standard promises of it are the class's laws, on
    which the theorems rest, and a list that is searched for its greatest
    element is an instance.  Key frames are recognised by [Depacketize]. *)

From Stdlib Require Import Sorted Permutation.
From S2P Require Import Prelude Wire RtpHeaders VideoHeaders Depacketize PacketQueue.
Import Wire RtpHeaders Depacketize PacketQueue.

Module PacketBuffer.

(** ** Priority queues *)

(** A strict weak order on the elements of [l]: what the standard asks of the
    comparison. *)
Record weak_order {A} (less : A -> A -> bool) (l : list A) : Prop := {
  wo_irrefl : forall a, In a l -> less a a = false;
  wo_trans : forall a b c, In a l -> In b l -> In c l ->
    less a b = true -> less b c = true -> less a c = true;
  wo_equiv : forall a b c, In a l -> In b l -> In c l ->
    less a c = true -> less a b = true \/ less b c = true
}.

Class PriorityQueue (A PQ : Type) (less : A -> A -> bool) := {
  elems : PQ -> list A;
  empty : PQ;
  push : A -> PQ -> PQ;
  top : PQ -> option A;
  pop : PQ -> PQ;
  elems_empty : elems empty = [];
  elems_push : forall a q, Permutation (elems (push a q)) (a :: elems q);
  top_none : forall q, elems q = [] -> top q = None;
  top_some : forall q, elems q <> [] ->
    exists a, top q = Some a /\ Permutation (elems q) (a :: elems (pop q));
  top_max : forall q a, weak_order less (elems q) -> top q = Some a ->
    forall b, In b (elems q) -> less a b = false
}.

(** *** A list with a search for the greatest element *)

Fixpoint greatest {A} (less : A -> A -> bool) (a : A) (l : list A) : A * list A :=
  match l with
  | [] => (a, [])
  | b :: l =>
      if less a b then let (m, r) := greatest less b l in (m, a :: r)
      else let (m, r) := greatest less a l in (m, b :: r)
  end.

Lemma greatest_perm {A} (less : A -> A -> bool) l : forall a m r,
  greatest less a l = (m, r) -> Permutation (a :: l) (m :: r).
Proof.
  induction l as [|b l IH]; cbn; intros a m r.
  - now intros [= <- <-].
  - destruct (less a b).
    + destruct (greatest less b l) as [m' r'] eqn:E. intros [= <- <-].
      rewrite (IH _ _ _ E). apply perm_swap.
    + destruct (greatest less a l) as [m' r'] eqn:E. intros [= <- <-].
      rewrite perm_swap, (IH _ _ _ E). apply perm_swap.
Qed.

Lemma weak_order_sub {A} (less : A -> A -> bool) l l' :
  (forall a, In a l' -> In a l) -> weak_order less l -> weak_order less l'.
Proof. intros H [W1 W2 W3]. split; intros; eauto. Qed.

Lemma greatest_max {A} (less : A -> A -> bool) l : forall a m r,
  weak_order less (a :: l) -> greatest less a l = (m, r) ->
  forall b, In b (a :: l) -> less m b = false.
Proof.
  induction l as [|b l IH]; intros a m r W E x Hx.
  - cbn in E. injection E as <- <-. destruct Hx as [<-|[]]. apply W. now left.
  - cbn in E. destruct (less a b) eqn:Eab.
    + destruct (greatest less b l) as [m' r'] eqn:Eg. injection E as <- <-.
      assert (Wl : weak_order less (b :: l)) by (eapply weak_order_sub; [|exact W]; cbn; tauto).
      assert (Hm : In m' (b :: l)).
      { apply (Permutation_in m' (Permutation_sym (greatest_perm _ _ _ _ _ Eg))). now left. }
      destruct Hx as [<-|Hx]; [|now apply (IH b m' r')].
      destruct (less m' a) eqn:Ema; [|reflexivity].
      assert (less m' b = false) by (apply (IH b m' r'); cbn; auto).
      assert (less m' b = true) by (apply (wo_trans _ _ W m' a b); cbn in *; tauto).
      congruence.
    + destruct (greatest less a l) as [m' r'] eqn:Eg. injection E as <- <-.
      assert (Wl : weak_order less (a :: l)) by (eapply weak_order_sub; [|exact W]; cbn; tauto).
      assert (Hm : In m' (a :: l)).
      { apply (Permutation_in m' (Permutation_sym (greatest_perm _ _ _ _ _ Eg))). now left. }
      destruct Hx as [<-|[<-|Hx]]; [apply (IH a m' r'); cbn; auto| |apply (IH a m' r'); cbn; auto].
      destruct (less m' b) eqn:Emb; [|reflexivity].
      destruct (wo_equiv _ _ W m' a b) as [H|H]; cbn in *; auto; try tauto.
      * rewrite (IH a m' r' Wl Eg a) in H; [discriminate|now left].
      * congruence.
Qed.

#[export, refine] Instance list_queue {A} (less : A -> A -> bool) : PriorityQueue A (list A) less := {
  elems q := q;
  empty := [];
  push a q := a :: q;
  top q := match q with [] => None | a :: q => Some (fst (greatest less a q)) end;
  pop q := match q with [] => [] | a :: q => snd (greatest less a q) end
}.
Proof.
  - reflexivity.
  - reflexivity.
  - intros [|a q]; [reflexivity|discriminate].
  - intros [|a q] H; [congruence|]. eexists. split; [reflexivity|].
    apply (greatest_perm less). now destruct (greatest less a q).
  - intros [|x q] a W; [discriminate|]. intros [= <-].
    apply (greatest_max less q x _ (snd (greatest less x q))); [assumption|].
    now destruct (greatest less x q).
Defined.

(** ** RtpPacketBuffer *)

(** A [dataPacket] of this file: the bytes copied into it, and its times. *)
Record dataPacket := mk_pkt {
  data : list Z;
  remote_ntp_time_ms : Z;
  arrival_time_ms : Z;
  rtp_timestamp : Z
}.

(** The sequence number read from the 1500 bytes, zero past those copied. *)
Definition seqnum (p : dataPacket) : Z := b16 (data p) 2.

(** [dataPacketComparator]: whether [a] comes out after [b]. *)
Definition dataPacketComparator (a b : dataPacket) : bool :=
  let x := seqnum a in
  let y := seqnum b in
  let diff := x - y in
  if 0 <? diff then diff <? 0x8000
  else if diff <? 0 then diff <? -0x8000
  else false.

Section Buffers.
Context {PQ : Type} {Q : PriorityQueue dataPacket PQ dataPacketComparator}.

Record RtpPacketBuffer := mk_buffer { queue_ : PQ; prebuffering_size_ : Z }.

Definition new_RtpPacketBuffer (prebuffering_size : Z) : RtpPacketBuffer :=
  mk_buffer empty prebuffering_size.

(** [queue_.size()]. *)
Definition size (b : RtpPacketBuffer) : Z := zlen (elems (queue_ b)).

(** [memcpy] of [length] bytes into a [dataPacket]. *)
Definition PushPacket (b : RtpPacketBuffer) (bytes : list Z) : res RtpPacketBuffer :=
  if 1500 <? zlen bytes then Oob
  else Ok (mk_buffer (push (mk_pkt bytes (-1) (-1) (u32 (-1))) (queue_ b)) (prebuffering_size_ b)).

Definition PushPacket_packet (b : RtpPacketBuffer) (packet : dataPacket) : res RtpPacketBuffer :=
  if 1500 <? zlen (data packet) then Oob
  else Ok (mk_buffer (push packet (queue_ b)) (prebuffering_size_ b)).

(** The size is compared as an unsigned 64-bit number here, as an [int] in
    [PrebufferingDone]. *)
Definition PopPacket (b : RtpPacketBuffer) : option dataPacket * RtpPacketBuffer :=
  if u64 (prebuffering_size_ b) <? size b then
    (top (queue_ b), mk_buffer (pop (queue_ b)) (prebuffering_size_ b))
  else (None, b).

Definition TopPacket (b : RtpPacketBuffer) : option dataPacket :=
  if u64 (prebuffering_size_ b) <? size b then top (queue_ b) else None.

Definition GetSize (b : RtpPacketBuffer) : Z := s32 (size b).
Definition IsEmpty (b : RtpPacketBuffer) : bool := GetSize b =? 0.
Definition PrebufferingDone (b : RtpPacketBuffer) : bool := prebuffering_size_ b <? GetSize b.
Definition SetPrebufferingSize (b : RtpPacketBuffer) (size : Z) : RtpPacketBuffer :=
  mk_buffer (queue_ b) size.

(** [while (!IsEmpty()) queue_.pop()]: one round for each element. *)
Fixpoint clean (fuel : nat) (b : RtpPacketBuffer) : res RtpPacketBuffer :=
  if IsEmpty b then Ok b
  else match fuel with
       | O => NoFuel
       | S fuel => clean fuel (mk_buffer (pop (queue_ b)) (prebuffering_size_ b))
       end.
Definition CleanBuffer (b : RtpPacketBuffer) : res RtpPacketBuffer :=
  clean (length (elems (queue_ b))) b.

(** ** VideoAwareFrameBuffer *)

Inductive BufferType := NORMAL_BUFFER | STORAGE_BUFFER | PLAY_BUFFER.

Record VideoAwareFrameBuffer := mk_video {
  buffer : RtpPacketBuffer;
  buffer_type_ : BufferType;
  has_key_frame_ : bool;
  key_frame_seq_ : Z
}.

(** The packet afterwards, for the parser of H.264 writes into it, and whether it
    is part of a key frame. *)
Definition IsKeyFramePacketStatic (buf : list Z) (length : Z) : res (list Z * bool) :=
  let! video_payload := getPayloadType buf in
  let! (payload, r) :=
    RtpDepacketizer_Parse video_payload local_payload (skipn 12 buf) (u64 (length - 12)) in
  Ok (firstn 12 buf ++ payload, is_key r).

Definition new_VideoAwareFrameBuffer (prebuffering_size : Z) : VideoAwareFrameBuffer :=
  mk_video (new_RtpPacketBuffer prebuffering_size) NORMAL_BUFFER false 0.

Definition SetBufferType (v : VideoAwareFrameBuffer) (t : BufferType) : VideoAwareFrameBuffer :=
  mk_video (buffer v) t (has_key_frame_ v) (key_frame_seq_ v).
Definition GetBufferType (v : VideoAwareFrameBuffer) : BufferType := buffer_type_ v.

Definition ResetBuffer (v : VideoAwareFrameBuffer) : res VideoAwareFrameBuffer :=
  let! b := CleanBuffer (buffer v) in
  Ok (mk_video b (buffer_type_ v) false (key_frame_seq_ v)).

Definition set_buffer (v : VideoAwareFrameBuffer) (b : RtpPacketBuffer) : VideoAwareFrameBuffer :=
  mk_video b (buffer_type_ v) (has_key_frame_ v) (key_frame_seq_ v).

Definition PushPacket_video (v : VideoAwareFrameBuffer) (bytes : list Z)
    : res VideoAwareFrameBuffer :=
  let! cur_seq := getSeqNumber bytes in
  match buffer_type_ v with
  | NORMAL_BUFFER => let! b := CleanBuffer (buffer v) in Ok (set_buffer v b)
  | STORAGE_BUFFER =>
      let! (bytes, key) := IsKeyFramePacketStatic bytes (zlen bytes) in
      if key then
        let! b := CleanBuffer (buffer v) in
        let! b := PushPacket b bytes in
        Ok (mk_video b (buffer_type_ v) true cur_seq)
      else if has_key_frame_ v then
        if key_frame_seq_ v <? cur_seq then
          let! b := PushPacket (buffer v) bytes in Ok (set_buffer v b)
        else Ok v
      else Ok v
  | PLAY_BUFFER => let! b := PushPacket (buffer v) bytes in Ok (set_buffer v b)
  end.

Definition PopPacket_video (v : VideoAwareFrameBuffer) : option dataPacket * VideoAwareFrameBuffer :=
  match buffer_type_ v with
  | PLAY_BUFFER => let (p, b) := PopPacket (buffer v) in (p, set_buffer v b)
  | _ => (None, v)
  end.
End Buffers.
End PacketBuffer.
