(* ===== verification/PacketBufferFacts.v ===== *)
(** * The packet buffers of the players: properties

    Reordering: packets that arrive at most as late as the prebuffering size
    come out in order, for every priority queue that keeps the promises of
    [PriorityQueue].  Storing: what the video buffer holds between a key frame
    and the start of a player. *)

From Stdlib Require Import Sorted Permutation FinFun.
From S2P Require Import Prelude Wire RtpHeaders VideoHeaders Depacketize PacketQueue PacketBuffer.
Import Wire RtpHeaders PacketQueue PacketBuffer.

Module PacketBufferFacts.

Section Facts.
Context {PQ : Type} {Q : PriorityQueue dataPacket PQ dataPacketComparator}.
Variable base : Z.

Definition pinside (p : dataPacket) : Prop := inside base (seqnum p).
Definition rank (p : dataPacket) : Z := off base (seqnum p).

Lemma comparator_rank a b :
  pinside a -> pinside b -> dataPacketComparator a b = (rank b <? rank a).
Proof.
  intros Ha Hb. unfold rank. rewrite <- (less_off base) by assumption.
  unfold dataPacketComparator, rtpSequenceLessThan.
  destruct Ha as [Ha _], Hb as [Hb _]. now rewrite !u16_id by assumption.
Qed.

Lemma comparator_weak l : Forall pinside l -> weak_order dataPacketComparator l.
Proof.
  intros H. rewrite Forall_forall in H. split.
  - intros a Ha. rewrite comparator_rank by auto. lia.
  - intros a b c Ha Hb Hc. rewrite !comparator_rank by auto. lia.
  - intros a b c Ha Hb Hc. rewrite !comparator_rank by auto. lia.
Qed.

Lemma top_oldest q a b :
  Forall pinside (elems q) -> top q = Some a -> In b (elems q) -> rank a <= rank b.
Proof.
  intros H Ht Hb.
  assert (Ha : In a (elems q)).
  { destruct (elems q) as [|x l] eqn:E; [destruct Hb|].
    destruct (top_some q) as (a' & Ht' & P); [congruence|]. rewrite E in P.
    rewrite Ht in Ht'. injection Ht' as ->. rewrite P. now left. }
  pose proof (top_max q a (comparator_weak _ H) Ht b Hb) as L.
  rewrite Forall_forall in H. rewrite comparator_rank in L by auto. lia.
Qed.

(** ** Reordering *)

Inductive op := Push (bytes : list Z) | Pop.

(** The packets that come out of a sequence of operations. *)
Fixpoint run (ops : list op) (b : RtpPacketBuffer) : res (list dataPacket * RtpPacketBuffer) :=
  match ops with
  | [] => Ok ([], b)
  | Push d :: ops => let! b := PushPacket b d in run ops b
  | Pop :: ops =>
      let (p, b) := PopPacket b in
      let! (out, b) := run ops b in
      Ok (match p with Some p => p :: out | None => out end, b)
  end.

Definition pushed (ops : list op) : list (list Z) :=
  flat_map (fun o => match o with Push d => [d] | Pop => [] end) ops.

Lemma run_app ops ops' b :
  run (ops ++ ops') b =
  let! (out, b) := run ops b in let! (out', b) := run ops' b in Ok (out ++ out', b).
Proof.
  revert b; induction ops as [|[d|] ops IH]; intros b; cbn.
  - destruct (run ops' b) as [[o b']| |]; reflexivity.
  - destruct (PushPacket b d); cbn; [apply IH|reflexivity|reflexivity].
  - destruct (PopPacket b) as [p b1]. rewrite IH. destruct (run ops b1) as [[o b']| |]; cbn; auto.
    destruct (run ops' b') as [[o' b'']| |]; cbn; auto. destruct p; reflexivity.
Qed.

(** Packets that arrive with the ranks [0 .. n - 1], each at most [k] places
    after its rank. *)
Definition displaced (k : Z) (ps : list (list Z)) : Prop :=
  Forall packet_ok ps /\ Forall (fun d => inside base (number d)) ps /\
  Permutation (map (fun d => off base (number d)) ps) (map Z.of_nat (seq 0 (length ps))) /\
  forall i d, nth_error ps i = Some d -> Z.of_nat i <= off base (number d) + k.

Section Reorder.
Variables (k : Z) (ps : list (list Z)).
Hypothesis Hk : 0 <= k < 2147483648.
Hypothesis Hps : displaced k ps.

(** After the first [i] arrivals, [outs] having come out. *)
Record reordered (i : nat) (outs : list dataPacket) (b : RtpPacketBuffer) : Prop := {
  ro_size : prebuffering_size_ b = k;
  ro_perm : Permutation (map data (outs ++ elems (queue_ b))) (firstn i ps);
  ro_outs : map rank outs = map Z.of_nat (seq 0 (length outs))
}.

Lemma ranks_nodup : NoDup (map (fun d => off base (number d)) ps).
Proof.
  destruct Hps as (_ & _ & P & _). rewrite P.
  apply Injective_map_NoDup; [intros a b; lia|apply seq_NoDup].
Qed.

Lemma ro_pinside i outs b : reordered i outs b -> Forall pinside (outs ++ elems (queue_ b)).
Proof.
  intros [_ P _]. destruct Hps as (_ & H & _).
  assert (F : Forall (fun d => inside base (number d)) (map data (outs ++ elems (queue_ b)))).
  { rewrite P. now apply Forall_firstn. }
  now rewrite Forall_map in F.
Qed.

(** No rank is there twice. *)
Lemma ro_nodup i outs b : reordered i outs b -> NoDup (map rank (outs ++ elems (queue_ b))).
Proof.
  intros [_ P _].
  assert (H : NoDup (map (fun d => off base (number d)) (firstn i ps))).
  { rewrite <- firstn_map. pose proof ranks_nodup as N.
    rewrite <- (firstn_skipn i) in N. now apply NoDup_app_remove_r in N. }
  rewrite <- P, map_map in H. exact H.
Qed.

Lemma ro_push i outs b d :
  reordered i outs b -> nth_error ps i = Some d ->
  exists b', PushPacket b d = Ok b' /\ reordered (S i) outs b'.
Proof.
  intros [Es P O] Hd. unfold PushPacket.
  assert (Hok : packet_ok d).
  { destruct Hps as (H & _). rewrite Forall_forall in H. apply H. eapply nth_error_In; eauto. }
  replace (1500 <? zlen d) with false by (destruct Hok; lia).
  eexists. split; [reflexivity|]. constructor; auto. cbn [queue_].
  rewrite elems_push, <- Permutation_middle. cbn [map data]. rewrite P.
  enough (E : firstn (S i) ps = firstn i ps ++ [d]).
  { rewrite E. apply Permutation_cons_append. }
  clear - Hd. revert i Hd; induction ps as [|x l IH]; intros [|i] Hd; cbn in *; try discriminate.
  - now injection Hd as ->.
  - now rewrite <- IH.
Qed.

Lemma rank_present i outs b :
  reordered i outs b -> Z.of_nat (length outs) + k < Z.of_nat i -> (i <= length ps)%nat ->
  exists p, In p (elems (queue_ b)) /\ rank p = Z.of_nat (length outs).
Proof.
  intros H Hi Hn. pose proof (ro_perm _ _ _ H) as P. destruct Hps as (_ & _ & PR & D).
  set (j := length outs) in *.
  assert (Hj : In (Z.of_nat j) (map (fun d => off base (number d)) ps)).
  { rewrite PR. apply in_map, in_seq. lia. }
  apply in_map_iff in Hj. destruct Hj as (d & Ed & Hd).
  apply In_nth_error in Hd. destruct Hd as (m & Hm).
  specialize (D m d Hm). rewrite Ed in D.
  assert (Hin : In d (firstn i ps)).
  { apply nth_error_In with m. rewrite nth_error_firstn.
    replace (m <? i)%nat with true by (symmetry; apply Nat.ltb_lt; lia). exact Hm. }
  rewrite <- P in Hin. apply in_map_iff in Hin. destruct Hin as (p & Ep & Hp).
  exists p. apply in_app_or in Hp. destruct Hp as [Hp|Hp].
  - exfalso. assert (R : In (rank p) (map rank outs)) by now apply in_map.
    rewrite (ro_outs _ _ _ H) in R. apply in_map_iff in R. destruct R as (x & Ex & Hx%in_seq).
    unfold rank, seqnum in Ex. fold (number (data p)) in Ex. rewrite Ep, Ed in Ex.
    subst j. lia.
  - split; [assumption|]. unfold rank, seqnum. fold (number (data p)). now rewrite Ep.
Qed.

Lemma ro_count i outs b :
  reordered i outs b -> (i <= length ps)%nat -> size b = Z.of_nat i - zlen outs.
Proof.
  intros H Hi. pose proof (Permutation_length (ro_perm _ _ _ H)) as L.
  rewrite length_map, length_app, length_firstn in L. unfold size, zlen. lia.
Qed.

Lemma ro_pop i outs b :
  reordered i outs b -> (i <= length ps)%nat ->
  (size b <= k /\ PopPacket b = (None, b)) \/
  (k < size b /\ exists a b', PopPacket b = (Some a, b') /\ reordered i (outs ++ [a]) b' /\
     size b' = size b - 1).
Proof.
  intros H Hi. pose proof (ro_count i outs b H Hi) as C. unfold PopPacket.
  rewrite (ro_size _ _ _ H), u64_id by (int_unfold; lia).
  destruct (Z.ltb_spec k (size b)) as [L|L]; [right|left; auto]. split; [assumption|].
  destruct (rank_present i outs b H) as (p & Hp & Rp); [unfold zlen in C; lia|assumption|].
  destruct (top_some (queue_ b)) as (a & Ht & P); [now destruct (elems (queue_ b))|].
  exists a, (mk_buffer (pop (queue_ b)) k). rewrite Ht. split; [reflexivity|].
  pose proof (ro_pinside i outs b H) as F. apply Forall_app in F as [_ F].
  pose proof (top_oldest (queue_ b) a p F Ht Hp) as Rle.
  assert (Ha : In a (elems (queue_ b))) by (rewrite P; now left).
  assert (Ra : rank a = Z.of_nat (length outs)).
  { pose proof (ro_nodup i outs b H) as N. rewrite map_app, (ro_outs _ _ _ H) in N.
    assert (~ rank a < Z.of_nat (length outs)); [|lia]. intros Hlt.
    apply (NoDup_app_disj _ _ N (rank a)); [|now apply in_map].
    pose proof (off_range base (seqnum a)). unfold rank in *. int_unfold.
    apply in_map_iff. exists (Z.to_nat (off base (seqnum a))). split; [lia|apply in_seq; lia]. }
  assert (Hr : reordered i (outs ++ [a]) (mk_buffer (pop (queue_ b)) k)).
  { constructor; cbn [prebuffering_size_ queue_]; [reflexivity| |].
    - rewrite <- app_assoc, <- (ro_perm _ _ _ H), P. reflexivity.
    - rewrite map_app, (ro_outs _ _ _ H), length_app, seq_app, map_app. cbn. now rewrite Ra. }
  split; [exact Hr|]. rewrite (ro_count _ _ _ Hr Hi), zlen_app, zlen_cons, zlen_nil. lia.
Qed.

Lemma nth_skipn_cons {A} i (l : list A) x r : skipn i l = x :: r -> nth_error l i = Some x.
Proof.
  revert l; induction i as [|i IH]; intros [|y l]; cbn; try discriminate.
  - now intros [= -> _].
  - apply IH.
Qed.

Lemma ro_run ops : forall i outs b rest,
  reordered i outs b -> (i <= length ps)%nat -> skipn i ps = pushed ops ++ rest ->
  exists out b', run ops b = Ok (out, b') /\
    reordered (i + length (pushed ops)) (outs ++ out) b'.
Proof.
  induction ops as [|[d|] ops IH]; intros i outs b rest H Hi E; cbn [run].
  - exists [], b. rewrite app_nil_r, Nat.add_0_r. auto.
  - cbn in E. pose proof (nth_skipn_cons _ _ _ _ E) as Hd.
    assert (Hlt : (i < length ps)%nat) by (apply nth_error_Some; congruence).
    destruct (ro_push i outs b d H Hd) as (b1 & -> & H1). cbn [bind].
    destruct (IH (S i) outs b1 rest H1 Hlt) as (out & b' & R & H').
    { replace (S i) with (1 + i)%nat by lia. rewrite <- skipn_skipn, E. reflexivity. }
    exists out, b'. split; [exact R|].
    replace (i + length (pushed (Push d :: ops)))%nat with (S i + length (pushed ops))%nat
      by (cbn; unfold pushed; lia).
    exact H'.
  - destruct (ro_pop i outs b H Hi) as [[_ ->]|(_ & a & b1 & -> & H1 & _)].
    + destruct (IH i outs b rest H Hi E) as (out & b' & -> & H'). cbn [bind]. eauto.
    + destruct (IH i (outs ++ [a]) b1 rest H1 Hi E) as (out & b' & -> & H'). cbn [bind].
      exists (a :: out), b'. split; [reflexivity|]. now rewrite <- app_assoc in H'.
Qed.

(** Pops alone empty the buffer down to the prebuffering size. *)
Lemma ro_pops n : forall outs b,
  reordered (length ps) outs b ->
  exists out b', run (repeat Pop n) b = Ok (out, b') /\ reordered (length ps) (outs ++ out) b' /\
    size b' = Z.min (size b) (Z.max k (size b - Z.of_nat n)).
Proof.
  induction n as [|n IH]; intros outs b H; cbn [repeat run].
  - exists [], b. rewrite app_nil_r. repeat split; auto; try apply H. lia.
  - destruct (ro_pop (length ps) outs b H (le_n _)) as [[L ->]|(L & a & b1 & -> & H1 & Es)].
    + destruct (IH outs b H) as (out & b' & -> & H' & Hs). cbn [bind].
      exists out, b'. repeat split; auto; try apply H'. lia.
    + destruct (IH (outs ++ [a]) b1 H1) as (out & b' & -> & H' & Hs). cbn [bind].
      exists (a :: out), b'. split; [reflexivity|]. rewrite <- app_assoc in H'.
      split; [exact H'|]. lia.
Qed.
End Reorder.

(** C13. The prebuffering size bounds the reordering that the buffer repairs.  When
    packets with consecutive sequence numbers (which may wrap) arrive each at
    most as many places late as the prebuffering size, then in whatever way
    pushes and pops alternate, the packets come out in order without a gap, none
    is lost or made up, and popping as often as there were packets leaves in the
    buffer just the prebuffering size. *)
Theorem reordering_repaired k ps ops :
  0 <= k < 2147483648 -> displaced k ps -> pushed ops = ps ->
  exists out b, run ops (new_RtpPacketBuffer k) = Ok (out, b) /\
    map rank out = map Z.of_nat (seq 0 (length out)) /\
    Permutation (map data (out ++ elems (queue_ b))) ps /\
    exists out' b', run (repeat Pop (length ps)) b = Ok (out', b') /\
      map rank (out ++ out') = map Z.of_nat (seq 0 (length (out ++ out'))) /\
      zlen (out ++ out') = Z.max (zlen out) (zlen ps - k).
Proof.
  intros Hk Hps Ep.
  assert (H0 : reordered k ps 0 [] (new_RtpPacketBuffer k)).
  { constructor; [reflexivity| |reflexivity]. cbn. now rewrite elems_empty. }
  destruct (ro_run k ps Hk Hps ops 0 [] _ [] H0) as (out & b & R & H);
    [lia|now rewrite app_nil_r, Ep|].
  rewrite Ep in H. cbn in H. exists out, b. split; [exact R|]. split; [apply H|]. split.
  { rewrite <- firstn_all. apply H. }
  destruct (ro_pops k ps Hk Hps (length ps) out b H) as (out' & b' & R' & H' & Es).
  exists out', b'. split; [exact R'|]. split; [apply H'|].
  pose proof (ro_count _ _ _ _ _ H (le_n _)). pose proof (ro_count _ _ _ _ _ H' (le_n _)).
  rewrite zlen_app in *. pose proof (zlen_nonneg out). pose proof (zlen_nonneg out').
  unfold zlen in *. lia.
Qed.

(** ** The video buffer *)

Lemma clean_ok n : forall b,
  length (elems (queue_ b)) = n -> Z.of_nat n < 2147483648 ->
  exists b', clean n b = Ok b' /\ elems (queue_ b') = [] /\
    prebuffering_size_ b' = prebuffering_size_ b.
Proof.
  induction n as [|n IH]; intros b E Hn.
  - exists b. cbn. unfold IsEmpty, GetSize, size, zlen. rewrite E. cbn.
    repeat split. now destruct (elems (queue_ b)).
  - cbn [clean].
    assert (He : IsEmpty b = false).
    { unfold IsEmpty, GetSize, size, zlen. rewrite E, s32_id by (int_unfold; lia).
      apply Z.eqb_neq. lia. }
    rewrite He.
    destruct (top_some (queue_ b)) as (a & _ & P); [intros H; rewrite H in E; discriminate|].
    apply Permutation_length in P. rewrite E in P. cbn [length] in P.
    destruct (IH (mk_buffer (pop (queue_ b)) (prebuffering_size_ b))) as (b' & C & E' & S');
      [cbn [queue_]; lia|lia|].
    exists b'. auto.
Qed.

Section Storage.

(** A packet of a payload type that is parsed. *)
Definition video_ok (d : list Z) : Prop := packet_ok d /\ Depacketize.known_type (Depacketize.payload_type_of d).

(** A packet as the parser leaves it, and whether it is part of a key frame. *)
Definition seen (d : list Z) : list Z :=
  match IsKeyFramePacketStatic d (zlen d) with Ok (d', _) => d' | _ => d end.
Definition is_key (d : list Z) : bool :=
  match IsKeyFramePacketStatic d (zlen d) with Ok (_, b) => b | _ => false end.

(** The last key frame of a list of packets, with the packets after it whose
    number is larger. *)
Fixpoint kept (acc : option (list Z * list (list Z))) (ps : list (list Z))
    : option (list Z * list (list Z)) :=
  match ps with
  | [] => acc
  | d :: ps =>
      kept (if is_key d then Some (seen d, [])
            else match acc with
                 | Some (K, l) => if number K <? number d then Some (K, seen d :: l) else acc
                 | None => None
                 end) ps
  end.

Fixpoint push_all (v : VideoAwareFrameBuffer) (ps : list (list Z)) : res VideoAwareFrameBuffer :=
  match ps with
  | [] => Ok v
  | d :: ps => let! v := PushPacket_video v d in push_all v ps
  end.

Definition plain (d : list Z) : dataPacket := mk_pkt d (-1) (-1) (u32 (-1)).

(** The buffer holds what [kept] says, and knows the number of the key frame. *)
Record holds (acc : option (list Z * list (list Z))) (n : nat) (v : VideoAwareFrameBuffer) : Prop := {
  ho_type : buffer_type_ v = STORAGE_BUFFER;
  ho_size : (length (elems (queue_ (buffer v))) <= n)%nat;
  ho_has : has_key_frame_ v = match acc with Some _ => true | None => false end;
  ho_elems : match acc with
             | Some (K, l) => key_frame_seq_ v = number K /\
                 Permutation (elems (queue_ (buffer v))) (map plain (K :: l))
             | None => elems (queue_ (buffer v)) = []
             end
}.

Lemma is_key_ok d : video_ok d ->
  IsKeyFramePacketStatic d (zlen d) = Ok (seen d, is_key d) /\ packet_ok (seen d) /\ number (seen d) = number d.
Proof.
  intros [[B L] T]. unfold seen, is_key.
  destruct (Depacketize.parse_packet_ok d (zlen d) B ltac:(lia) ltac:(lia) T) as (d' & r & E & (B' & L' & S) & _).
  assert (Ek : IsKeyFramePacketStatic d (zlen d) = Ok (d', Depacketize.is_key r)).
  { unfold Depacketize.parse_packet, IsKeyFramePacketStatic in *. destruct (getPayloadType d) as [t| |]; try discriminate.
    cbn [bind] in *. destruct (Depacketize.RtpDepacketizer_Parse _ _ _ _) as [[p q]| |]; try discriminate. injection E as <- <-. reflexivity. }
  rewrite Ek. split; [reflexivity|]. split; [split; [exact B'|lia]|]. unfold number, b16. now rewrite !S by lia.
Qed.

Lemma push_ok (b : RtpPacketBuffer) d :
  packet_ok d ->
  PushPacket b d = Ok (mk_buffer (PacketBuffer.push (plain d) (queue_ b)) (prebuffering_size_ b)).
Proof. intros [_ H]. unfold PushPacket. now replace (1500 <? zlen d) with false by lia. Qed.

Lemma elems_push_length a (q : PQ) : length (elems (PacketBuffer.push a q)) = S (length (elems q)).
Proof. now rewrite (Permutation_length (elems_push a q)). Qed.

(** One packet. *)
Lemma holds_push acc n v d ps :
  holds acc n v -> video_ok d -> Z.of_nat n < 2147483648 ->
  exists v' acc', PushPacket_video v d = Ok v' /\ holds acc' (S n) v' /\
    prebuffering_size_ (buffer v') = prebuffering_size_ (buffer v) /\
    kept acc (d :: ps) = kept acc' ps.
Proof.
  intros [T Sz Hh He] Hd Hn. destruct (is_key_ok d Hd) as (Ek' & Hs & Ns). pose proof (proj1 Hd) as Hp.
  unfold PushPacket_video. rewrite number_ok by assumption. cbn [bind].
  rewrite T, Ek'. cbn [bind kept]. destruct (is_key d).
  - unfold CleanBuffer.
    destruct (clean_ok _ (buffer v) eq_refl) as (b & -> & E & P); [lia|]. cbn [bind].
    rewrite push_ok by assumption. cbn [bind]. do 2 eexists. split; [reflexivity|].
    split; [|split; [exact P|reflexivity]].
    constructor; cbn; auto.
    + rewrite elems_push_length, E. cbn. lia.
    + split; [now symmetry|]. now rewrite elems_push, E.
  - rewrite Hh. destruct acc as [[K l]|].
    + destruct He as [Ek Pe]. rewrite Ek. destruct (number K <? number d).
      * rewrite push_ok by assumption. cbn [bind]. do 2 eexists. split; [reflexivity|].
        split; [|split; reflexivity]. constructor; cbn; auto.
        -- rewrite elems_push_length. lia.
        -- split; [assumption|]. rewrite elems_push, Pe. apply perm_swap.
      * do 2 eexists. split; [reflexivity|]. split; [|split; reflexivity].
        constructor; auto.
    + do 2 eexists. split; [reflexivity|]. split; [|split; reflexivity]. constructor; auto.
Qed.

Lemma holds_all ps : forall acc n v,
  holds acc n v -> Forall video_ok ps -> Z.of_nat (n + length ps) < 2147483648 ->
  exists v', push_all v ps = Ok v' /\ holds (kept acc ps) (n + length ps) v' /\
    prebuffering_size_ (buffer v') = prebuffering_size_ (buffer v).
Proof.
  induction ps as [|d ps IH]; intros acc n v H F Hn.
  - exists v. cbn. now rewrite Nat.add_0_r.
  - inversion F; subst. cbn [length] in *.
    destruct (holds_push acc n v d ps H) as (v1 & acc' & E & H1 & P1 & Ek); [assumption|lia|].
    cbn [push_all]. rewrite E. cbn [bind]. rewrite Ek.
    destruct (IH acc' (S n) v1) as (v' & E' & H' & P'); [assumption..|lia|].
    exists v'. replace (n + S (length ps))%nat with (S n + length ps)%nat by lia.
    rewrite <- P1. auto.
Qed.
End Storage.
End Facts.

Section Video.
Context {PQ : Type} {Q : PriorityQueue dataPacket PQ dataPacketComparator}.

Lemma kept_above ps : Forall video_ok ps -> forall acc K l,
  match acc with Some (K, l) => Forall (fun d => number K < number d) l | None => True end ->
  kept acc ps = Some (K, l) -> Forall (fun d => number K < number d) l.
Proof.
  induction 1 as [|d ps Hd _ IH]; cbn; intros acc K l H E.
  - now subst acc.
  - apply (IH _ K l) in E; [assumption|]. destruct (is_key d); [constructor|].
    destruct acc as [[K' l']|]; [|exact I]. destruct (is_key_ok d Hd) as (_ & _ & N).
    destruct (Z.ltb_spec (number K') (number d)); [|assumption]. constructor; [now rewrite N|assumption].
Qed.

(** The key frame is the first to come out. *)
Lemma key_first (q : PQ) K l :
  Permutation (elems q) (map plain (K :: l)) -> packet_ok K -> Forall packet_ok l ->
  Forall (fun d => number K < number d) l ->
  Forall (fun d => number d - number K < 32768) l ->
  top q = Some (plain K).
Proof.
  intros P HK Hl Ha Hw. set (base := number K).
  assert (Hr : forall d, packet_ok d -> in_u16 (number d)) by (intros d [H _]; now apply b16_range).
  assert (Hin : Forall (pinside base) (elems q)).
  { rewrite P, Forall_map. constructor.
    - pose proof (Hr K HK). unfold pinside, inside, off, seqnum. cbn [plain data].
      fold (number K). subst base. replace (number K - number K) with 0 by lia. split; [auto|int_lia].
    - rewrite Forall_forall in *. intros d Hd. specialize (Hl d Hd). specialize (Hw d Hd).
      specialize (Ha d Hd). pose proof (Hr d Hl).
      unfold pinside, inside, off, seqnum. cbn [plain data]. fold (number d). subst base.
      split; [auto|]. rewrite u16_id; [lia|int_unfold; lia]. }
  destruct (top_some q) as (a & Ht & Pa).
  { intros E. rewrite E in P. apply Permutation_nil in P. discriminate. }
  assert (HKin : In (plain K) (elems q)) by (rewrite P; now left).
  pose proof (top_oldest base q a (plain K) Hin Ht HKin) as L.
  assert (Hain : In a (map plain (K :: l))) by (rewrite <- P, Pa; now left).
  apply in_map_iff in Hain. destruct Hain as (d & <- & [<-|Hd]); [exact Ht|].
  exfalso. rewrite Forall_forall in *. specialize (Hl d Hd). specialize (Hw d Hd).
  specialize (Ha d Hd). unfold rank, off, seqnum in L. cbn [plain data] in L.
  fold (number d) (number K) in L. subst base. pose proof (Hr d Hl). int_lia.
Qed.

(** C37. While a video buffer stores, it holds the last key frame and the packets
    after it with a larger number, each as the parser left it, nothing when
    there was no key frame, and gives nothing out.  When it is switched to play, the first packet out is the
    key frame, provided the others are less than 32768 after it: then a player
    starts with a key frame.  (The numbers are compared as integers: after a
    wrap the packets that follow the key frame are dropped.) *)
Theorem storage_keeps (v : VideoAwareFrameBuffer) ps :
  buffer_type_ v = STORAGE_BUFFER -> Forall video_ok ps ->
  size (buffer v) < 2147483648 -> zlen ps < 2147483648 ->
  exists v0 v', ResetBuffer v = Ok v0 /\ push_all v0 ps = Ok v' /\
    PopPacket_video v' = (None, v') /\
    match kept None ps with
    | None => has_key_frame_ v' = false /\ elems (queue_ (buffer v')) = []
    | Some (K, l) =>
        has_key_frame_ v' = true /\ Forall (fun d => number K < number d) l /\
        Permutation (elems (queue_ (buffer v'))) (map plain (K :: l)) /\
        (packet_ok K -> Forall packet_ok l ->
         Forall (fun d => number d - number K < 32768) l ->
         0 <= prebuffering_size_ (buffer v) < 2147483648 -> prebuffering_size_ (buffer v) <= zlen l ->
         fst (PopPacket_video (SetBufferType v' PLAY_BUFFER)) = Some (plain K))
    end.
Proof.
  intros T F Hv Hn. unfold ResetBuffer, CleanBuffer.
  destruct (clean_ok _ (buffer v) eq_refl) as (b & -> & E & P); [exact Hv|]. cbn [bind].
  set (v0 := mk_video b (buffer_type_ v) false (key_frame_seq_ v)).
  assert (H0 : holds None 0 v0) by (constructor; cbn; auto; now rewrite E).
  destruct (holds_all ps None 0 v0 H0 F) as (v' & Ev & [Ht _ Hh He] & P');
    [cbn; exact Hn|].
  exists v0, v'. split; [reflexivity|]. split; [exact Ev|]. split.
  { unfold PopPacket_video. now rewrite Ht. }
  destruct (kept None ps) as [[K l]|] eqn:Ek; [|auto].
  destruct He as [_ Pe]. split; [assumption|]. split; [now apply (kept_above ps F None)|].
  split; [assumption|]. intros HK Hl Hw Hpre Hpl. cbn in P'.
  pose proof (key_first _ K l Pe HK Hl (kept_above ps F None K l I Ek) Hw) as Htop.
  unfold PopPacket_video, SetBufferType, PopPacket, size. cbn [buffer_type_ buffer].
  assert (Hlen : zlen (elems (queue_ (buffer v'))) = 1 + zlen l).
  { unfold zlen. rewrite (Permutation_length Pe), length_map. cbn [length]. lia. }
  rewrite P', P, Hlen, u64_id by (int_unfold; lia).
  replace (prebuffering_size_ (buffer v) <? 1 + zlen l) with true by lia. exact Htop.
Qed.
End Video.

(** ** Concrete runs *)

(** Four packets around the wrap, the second of which is one place late, with a
    pop after every push. *)
Definition swapped : list (list Z) := map (fun s => packet s 0) [65535; 65534; 0; 1].

Lemma swapped_displaced : displaced 65534 1 swapped.
Proof.
  assert (H : forall s, In s swapped -> packet_ok s /\ inside 65534 (number s)).
  { apply Forall_forall. repeat constructor; cbn; try (vm_compute; congruence). }
  split; [apply Forall_forall; intros; now apply H|].
  split; [apply Forall_forall; intros; now apply H|]. split.
  - vm_compute. apply perm_swap.
  - intros i d Hd. do 4 (destruct i as [|i]; [injection Hd as <-; vm_compute; congruence|]).
    destruct i; discriminate.
Qed.

Definition alternating : list op := flat_map (fun d => [Push d; Pop]) swapped.

Example reordering_repaired_witness :
  displaced 65534 1 swapped /\
  exists out b, run alternating (new_RtpPacketBuffer (PQ := list dataPacket) 1) = Ok (out, b) /\
    map seqnum out = [65534; 65535; 0] /\ map (rank 65534) out = [0; 1; 2].
Proof.
  split; [exact swapped_displaced|].
  destruct (reordering_repaired 65534 1 swapped alternating) as (out & b & R & E & _);
    [lia|exact swapped_displaced|reflexivity|].
  exists out, b. split; [exact R|]. vm_compute in R. injection R as <- <-. split; [reflexivity|].
  exact E.
Defined.

(** VP8 payloads of the first packet of a key frame and of another frame. *)
Definition key_packet (s : Z) : list Z :=
  [128; 100; s / 256; s mod 256; 0; 0; 0; 0; 0; 0; 0; 0; 0x10; 0x10; 2; 3; 0x9d; 1; 0x2a; 7; 8; 9; 10].
Definition delta_packet (s : Z) : list Z :=
  [128; 100; s / 256; s mod 256; 0; 0; 0; 0; 0; 0; 0; 0; 0x10; 0x11; 2; 3].

Definition frames : list (list Z) :=
  [delta_packet 65530; key_packet 65532; delta_packet 65534; delta_packet 65533; delta_packet 0].

Example storage_keeps_witness :
  let v := SetBufferType (PQ := list dataPacket) (new_VideoAwareFrameBuffer 0) STORAGE_BUFFER in
  Forall video_ok frames /\
  exists v0 v', ResetBuffer v = Ok v0 /\ push_all v0 frames = Ok v' /\
    has_key_frame_ v' = true /\
    Permutation (map seqnum (elems (less := dataPacketComparator) (queue_ (buffer v'))))
      [65532; 65533; 65534] /\
    fst (PopPacket_video (SetBufferType v' PLAY_BUFFER)) = Some (plain (key_packet 65532)).
Proof.
  assert (F : Forall video_ok frames).
  { repeat (constructor; [split; [split; [now apply bytes_forallb|vm_compute; intuition congruence]|now left]|]). constructor. }
  split; [exact F|].
  destruct (storage_keeps
    (SetBufferType (PQ := list dataPacket) (new_VideoAwareFrameBuffer 0) STORAGE_BUFFER) frames)
    as (v0 & v' & R & E & _ & H); [reflexivity|exact F|reflexivity|reflexivity|].
  exists v0, v'. split; [exact R|]. split; [exact E|].
  replace (kept None frames) with
    (Some (key_packet 65532, [delta_packet 65533; delta_packet 65534])) in H by reflexivity.
  destruct H as (Hh & Ha & P & Hf). split; [exact Hh|]. split.
  - apply (Permutation_map seqnum) in P. exact P.
  - apply Hf; cbn; try lia; repeat constructor; vm_compute; congruence.
Defined.
End PacketBufferFacts.
