(* ===== verification/NetworkStatus.v ===== *)
(** * The network status of a stream

    Models src/orbit/network_status.cc and network_status.h: the counts of
    packets in both directions, the losses of each window of three seconds, the
    round trip times and bitrates, the level of the network that is computed
    from them, and the manager of the streams.  The two copies of the code that
    counts what is received, one for video and one for audio, are one function
    on the record [RecvLoss] of their fields.  What is written to the status
    page of the session is returned; the times of the clock are arguments, in
    the order in which a call reads them. *)

From Stdlib Require Import Sorted.
From Stdlib Require String.
From S2P Require Import Prelude OrderedMap JanusRtcp.
Import OrderedMap String.StringSyntax.
#[local] Open Scope string_scope.
#[local] Open Scope list_scope.
#[local] Open Scope Z_scope.

Module NetworkStatus.

Definition UPDATE_INTERVAL : Z := 3000.
Definition ENERGY_LOW : Z := 1000000.

Inductive NETWORK_STATUS :=
  NET_UNKNOWN | NET_GREAT | NET_GOOD | NET_NOT_GOOD | NET_BAD | NET_VERY_BAD | NET_CANT_CONNECT.
Inductive REPORT_SOURCE := SERVER_REPORT | CLIENT_REPORT.

(** The value of the enumeration, by which levels are compared and printed. *)
Definition level (s : NETWORK_STATUS) : Z :=
  match s with
  | NET_UNKNOWN => 0 | NET_GREAT => 1 | NET_GOOD => 2 | NET_NOT_GOOD => 3 | NET_BAD => 4
  | NET_VERY_BAD => 5 | NET_CANT_CONNECT => 6
  end.
Definition status_eqb (a b : NETWORK_STATUS) : bool := level a =? level b.

(** A line of the session's page: appended to a key or put in its place. *)
Inductive report :=
| AppendStreamCustomInfo (key : String.string) (value : Z)
| SetStreamCustomInfo (key : String.string) (value : Z).

(** ** Bitrates *)

Record BitrateStatus := mk_bitrate {
  send_bitrate_ : Z;
  recv_bitrate_ : Z;
  audio_target_bitrate_ : Z;
  video_target_bitrate_ : Z
}.
Definition new_BitrateStatus : BitrateStatus := mk_bitrate 0 0 (-1) (-1).

(** ** Round trip times *)

Record RttStatus := mk_rtt {
  total_rtt_ : Z;
  last_time_of_rtt_update_ : Z;
  number_of_rtt_ : Z;
  avg_rtt_ : Z;
  rtt_ : Z
}.
Definition new_RttStatus (now : Z) : RttStatus := mk_rtt 0 now 0 0 0.

Definition UpdateRTT_status (now : Z) (s : RttStatus) (rtt : Z) : RttStatus :=
  let s :=
    if 0 <? rtt
    then mk_rtt (u64 (total_rtt_ s + rtt)) (last_time_of_rtt_update_ s) (u16 (number_of_rtt_ s + 1))
           (avg_rtt_ s) rtt
    else s in
  if UPDATE_INTERVAL <? now - last_time_of_rtt_update_ s then
    let avg := if 0 <? number_of_rtt_ s then s64 (total_rtt_ s / number_of_rtt_ s) else -1 in
    mk_rtt 0 now 0 avg (rtt_ s)
  else s.

(** ** Packets that are sent *)

Record SendPacketsStatus := mk_sent {
  last_update_time_ : Z;
  current_highest_seqnumber_ : Z;
  last_cumulative_lost_ : Z;
  sent_fraction_lost_ : Z;
  sent_packets_ : Z;
  sent_bytes_ : Z;
  last_ts_ : Z;
  expect_send_packets_ : Z;
  send_lost_ : Z
}.
Definition new_SendPacketsStatus : SendPacketsStatus := mk_sent 0 0 0 0 0 0 0 0 0.

Definition set_send_packets (s : SendPacketsStatus) (increase_number : Z) : SendPacketsStatus :=
  mk_sent (last_update_time_ s) (current_highest_seqnumber_ s) (last_cumulative_lost_ s)
    (sent_fraction_lost_ s) (s32 (sent_packets_ s + increase_number)) (sent_bytes_ s) (last_ts_ s)
    (expect_send_packets_ s) (send_lost_ s).
Definition set_send_bytes (s : SendPacketsStatus) (increase_number : Z) : SendPacketsStatus :=
  mk_sent (last_update_time_ s) (current_highest_seqnumber_ s) (last_cumulative_lost_ s)
    (sent_fraction_lost_ s) (sent_packets_ s) (s32 (sent_bytes_ s + increase_number)) (last_ts_ s)
    (expect_send_packets_ s) (send_lost_ s).
(** The timestamp is added, like the counts. *)
Definition set_last_ts (s : SendPacketsStatus) (last_ts : Z) : SendPacketsStatus :=
  mk_sent (last_update_time_ s) (current_highest_seqnumber_ s) (last_cumulative_lost_ s)
    (sent_fraction_lost_ s) (sent_packets_ s) (sent_bytes_ s) (u32 (last_ts_ s + last_ts))
    (expect_send_packets_ s) (send_lost_ s).

Definition CalculateSendFractionLost (now : Z) (s : SendPacketsStatus)
    (highest_seqnumber cumulative_lost : Z) : SendPacketsStatus :=
  let last := if last_update_time_ s =? 0 then now else last_update_time_ s in
  if now - last <? UPDATE_INTERVAL then
    mk_sent last (current_highest_seqnumber_ s) (last_cumulative_lost_ s) (sent_fraction_lost_ s)
      (sent_packets_ s) (sent_bytes_ s) (last_ts_ s) (expect_send_packets_ s) (send_lost_ s)
  else
    let seq_duration := s32 (highest_seqnumber - current_highest_seqnumber_ s) in
    let lost_count := s32 (cumulative_lost - last_cumulative_lost_ s) in
    let fraction :=
      if (0 <? seq_duration) && (0 <=? lost_count)
      then u32 (Z.quot (s32 (lost_count * 100)) seq_duration) else sent_fraction_lost_ s in
    mk_sent now highest_seqnumber cumulative_lost fraction (sent_packets_ s) (sent_bytes_ s) (last_ts_ s)
      (u32 seq_duration) (u32 lost_count).

(** ** Packets that are received *)

(** The fields that count the losses of one medium. *)
Record RecvLoss := mk_loss {
  expect_recv_packets_ : Z;
  lost_of_recv_ : Z;
  number_of_received_ : Z;
  max_recv_seqn_ : Z;
  min_recv_seqn_ : Z;
  last_time_of_recv_fraction_update_ : Z;
  recv_fraction_lost_of_ : Z;
  recv_seqn_vector_ : list Z;
  lost_of_recv_map_ : map_t Z;
  recv_cumulative_lost_ : Z
}.
Definition new_RecvLoss : RecvLoss := mk_loss 0 0 0 0 0 0 0 [] [] 0.

(** The initialisation of a window by its first packet. *)
Definition open_window (t0 : Z) (s : RecvLoss) (seqnumber : Z) : RecvLoss :=
  let last := if last_time_of_recv_fraction_update_ s =? 0 then t0 else last_time_of_recv_fraction_update_ s in
  let max := if max_recv_seqn_ s =? 0 then seqnumber else max_recv_seqn_ s in
  if min_recv_seqn_ s =? 0
  then mk_loss (expect_recv_packets_ s) (lost_of_recv_ s) (u32 (number_of_received_ s + 1)) max seqnumber last
         (recv_fraction_lost_of_ s) (recv_seqn_vector_ s ++ [seqnumber]) (lost_of_recv_map_ s)
         (recv_cumulative_lost_ s)
  else mk_loss (expect_recv_packets_ s) (lost_of_recv_ s) (number_of_received_ s) max (min_recv_seqn_ s) last
         (recv_fraction_lost_of_ s) (recv_seqn_vector_ s) (lost_of_recv_map_ s) (recv_cumulative_lost_ s).

(** [while (lost_counter > 0)]. *)
Fixpoint record_lost (lost_counter : nat) (seqnumber tm : Z) (m : map_t Z) : map_t Z :=
  match lost_counter with
  | O => m
  | S n => record_lost n seqnumber tm (store (u32 (seqnumber - Z.of_nat lost_counter)) tm m)
  end.

(** The packet is counted. *)
Definition count_received (s : RecvLoss) (seqnumber : Z) : RecvLoss :=
  mk_loss (expect_recv_packets_ s) (lost_of_recv_ s) (u32 (number_of_received_ s + 1)) (max_recv_seqn_ s)
    (min_recv_seqn_ s) (last_time_of_recv_fraction_update_ s) (recv_fraction_lost_of_ s)
    (recv_seqn_vector_ s ++ [seqnumber]) (lost_of_recv_map_ s) (recv_cumulative_lost_ s).

(** The end of a window: the losses and the state of a new one. *)
Definition window_lost (s : RecvLoss) : Z * Z :=
  let expected := u32 (u32 (max_recv_seqn_ s - min_recv_seqn_ s) + 1) in
  (expected, u32 (expected - number_of_received_ s)).
Definition close_window (now : Z) (s : RecvLoss) : RecvLoss :=
  let (expected, seq_lost) := window_lost s in
  mk_loss expected seq_lost 0 0 0 now
    (if 0 <? expected then u32 (seq_lost * 100) / expected else recv_fraction_lost_of_ s)
    [] [] (u32 (recv_cumulative_lost_ s + seq_lost)).

(** A packet is new, one that was missing and comes in time, or is not counted:
    [None] is the early return.  [t1] is the time read on the way. *)
Definition accept (t1 : Z) (s : RecvLoss) (seqnumber : Z) : option RecvLoss :=
  let new_lost := s32 (seqnumber - max_recv_seqn_ s) in
  if 0 <? new_lost then
    Some (mk_loss (expect_recv_packets_ s) (lost_of_recv_ s) (number_of_received_ s) seqnumber
            (min_recv_seqn_ s) (last_time_of_recv_fraction_update_ s) (recv_fraction_lost_of_ s)
            (recv_seqn_vector_ s)
            (if 1 <? new_lost then record_lost (Z.to_nat (new_lost - 1)) seqnumber t1 (lost_of_recv_map_ s)
             else lost_of_recv_map_ s)
            (recv_cumulative_lost_ s))
  else if existsb (Z.eqb seqnumber) (recv_seqn_vector_ s) then None
  else
    match find seqnumber (lost_of_recv_map_ s) with
    | None => None
    | Some t => if t + Z.quot JanusRtcp.SEQ_MISSING_WAIT 1000 <? t1 then None else Some s
    end.

(** [StatisticRecvFractionOfVideo] and [StatisticRecvFractionOfAudio]: the state
    and, at the end of a window, the losses and the time. *)
Definition StatisticRecvFraction (t0 t1 t2 : Z) (s : RecvLoss) (seqnumber : Z) : RecvLoss * option (Z * Z) :=
  let s := open_window t0 s seqnumber in
  match accept t1 s seqnumber with
  | None => (s, None)
  | Some s =>
      let s := count_received s seqnumber in
      if UPDATE_INTERVAL <? t2 - last_time_of_recv_fraction_update_ s
      then (close_window t2 s, Some (snd (window_lost s), t2))
      else (s, None)
  end.

(** ** The status of a stream *)

(** Packets of one kind since the last report: the counts, their values at that
    report, and its time. *)
Record Counter := mk_counter {
  audio_count : Z;
  video_count : Z;
  audio_count_old : Z;
  video_count_old : Z;
  last_count_update : Z
}.
Definition new_Counter : Counter := mk_counter 0 0 0 0 0.

(** One packet more; every three seconds the counts are reported, under the
    names of the kind. *)
Definition count_packet (now : Z) (session : bool) (name_audio name_video name_update : String.string)
    (c : Counter) (is_video : bool) : Counter * list report :=
  let c :=
    if is_video
    then mk_counter (audio_count c) (u32 (video_count c + 1)) (audio_count_old c) (video_count_old c)
           (last_count_update c)
    else mk_counter (u32 (audio_count c + 1)) (video_count c) (audio_count_old c) (video_count_old c)
           (last_count_update c) in
  if UPDATE_INTERVAL <? now - last_count_update c then
    (mk_counter (audio_count c) (video_count c) (audio_count c) (video_count c) now,
     if session then
       [AppendStreamCustomInfo name_audio (u32 (audio_count c - audio_count_old c));
        AppendStreamCustomInfo name_video (u32 (video_count c - video_count_old c));
        SetStreamCustomInfo name_update now]
     else [])
  else (c, []).

Record NetworkStatus := mk_status {
  network_status_ : NETWORK_STATUS;
  map_rtt_status_ : map_t RttStatus;
  bitrate_status_ : BitrateStatus;
  audio_local_ssrc_ : Z;
  send_packets_ : Z;
  recv_packets_ : Z;
  recv_counter : Counter;
  recv_rtcp_counter : Counter;
  send_counter : Counter;
  send_rtcp_counter : Counter;
  cumulate_send_lost_ : Z;
  cumulate_recv_lost_ : Z;
  server_report_audio_jitter_ : Z;
  server_report_video_jitter_ : Z;
  client_report_audio_jitter_ : Z;
  client_report_video_jitters_ : map_t Z;
  send_nack_count_ : Z;
  recv_nack_count_ : Z;
  video_recv : RecvLoss;
  audio_recv : RecvLoss;
  recv_fraction_lost_ : Z;
  send_fraction_lost_ : Z;
  map_send_packets_status_ : map_t SendPacketsStatus;
  map_stream_energy_ : map_t Z
}.

(** The constructor leaves [audio_local_ssrc_] as it is. *)
Definition new_NetworkStatus (audio_ssrc : Z) : NetworkStatus :=
  mk_status NET_GREAT [] new_BitrateStatus audio_ssrc 0 0 new_Counter new_Counter new_Counter new_Counter
    0 0 0 0 0 [] 0 0 new_RecvLoss new_RecvLoss 0 0 [] [].

(** *** The fields, set one group at a time *)

Definition set_rtts (s : NetworkStatus) (m : map_t RttStatus) : NetworkStatus :=
  mk_status (network_status_ s) m (bitrate_status_ s) (audio_local_ssrc_ s) (send_packets_ s)
    (recv_packets_ s) (recv_counter s) (recv_rtcp_counter s) (send_counter s) (send_rtcp_counter s)
    (cumulate_send_lost_ s) (cumulate_recv_lost_ s) (server_report_audio_jitter_ s)
    (server_report_video_jitter_ s) (client_report_audio_jitter_ s) (client_report_video_jitters_ s)
    (send_nack_count_ s) (recv_nack_count_ s) (video_recv s) (audio_recv s) (recv_fraction_lost_ s)
    (send_fraction_lost_ s) (map_send_packets_status_ s) (map_stream_energy_ s).
Definition set_bitrates (s : NetworkStatus) (b : BitrateStatus) : NetworkStatus :=
  mk_status (network_status_ s) (map_rtt_status_ s) b (audio_local_ssrc_ s) (send_packets_ s)
    (recv_packets_ s) (recv_counter s) (recv_rtcp_counter s) (send_counter s) (send_rtcp_counter s)
    (cumulate_send_lost_ s) (cumulate_recv_lost_ s) (server_report_audio_jitter_ s)
    (server_report_video_jitter_ s) (client_report_audio_jitter_ s) (client_report_video_jitters_ s)
    (send_nack_count_ s) (recv_nack_count_ s) (video_recv s) (audio_recv s) (recv_fraction_lost_ s)
    (send_fraction_lost_ s) (map_send_packets_status_ s) (map_stream_energy_ s).
Definition set_audio_ssrc (s : NetworkStatus) (ssrc : Z) : NetworkStatus :=
  mk_status (network_status_ s) (map_rtt_status_ s) (bitrate_status_ s) ssrc (send_packets_ s)
    (recv_packets_ s) (recv_counter s) (recv_rtcp_counter s) (send_counter s) (send_rtcp_counter s)
    (cumulate_send_lost_ s) (cumulate_recv_lost_ s) (server_report_audio_jitter_ s)
    (server_report_video_jitter_ s) (client_report_audio_jitter_ s) (client_report_video_jitters_ s)
    (send_nack_count_ s) (recv_nack_count_ s) (video_recv s) (audio_recv s) (recv_fraction_lost_ s)
    (send_fraction_lost_ s) (map_send_packets_status_ s) (map_stream_energy_ s).
Definition set_counters (s : NetworkStatus) (sent received : Z) (rc rr sc sr : Counter) : NetworkStatus :=
  mk_status (network_status_ s) (map_rtt_status_ s) (bitrate_status_ s) (audio_local_ssrc_ s) sent
    received rc rr sc sr (cumulate_send_lost_ s) (cumulate_recv_lost_ s) (server_report_audio_jitter_ s)
    (server_report_video_jitter_ s) (client_report_audio_jitter_ s) (client_report_video_jitters_ s)
    (send_nack_count_ s) (recv_nack_count_ s) (video_recv s) (audio_recv s) (recv_fraction_lost_ s)
    (send_fraction_lost_ s) (map_send_packets_status_ s) (map_stream_energy_ s).
Definition set_jitters (s : NetworkStatus) (sa sv ca : Z) (cv : map_t Z) : NetworkStatus :=
  mk_status (network_status_ s) (map_rtt_status_ s) (bitrate_status_ s) (audio_local_ssrc_ s)
    (send_packets_ s) (recv_packets_ s) (recv_counter s) (recv_rtcp_counter s) (send_counter s)
    (send_rtcp_counter s) (cumulate_send_lost_ s) (cumulate_recv_lost_ s) sa sv ca cv
    (send_nack_count_ s) (recv_nack_count_ s) (video_recv s) (audio_recv s) (recv_fraction_lost_ s)
    (send_fraction_lost_ s) (map_send_packets_status_ s) (map_stream_energy_ s).
Definition set_nacks (s : NetworkStatus) (sent received : Z) : NetworkStatus :=
  mk_status (network_status_ s) (map_rtt_status_ s) (bitrate_status_ s) (audio_local_ssrc_ s)
    (send_packets_ s) (recv_packets_ s) (recv_counter s) (recv_rtcp_counter s) (send_counter s)
    (send_rtcp_counter s) (cumulate_send_lost_ s) (cumulate_recv_lost_ s) (server_report_audio_jitter_ s)
    (server_report_video_jitter_ s) (client_report_audio_jitter_ s) (client_report_video_jitters_ s)
    sent received (video_recv s) (audio_recv s) (recv_fraction_lost_ s) (send_fraction_lost_ s)
    (map_send_packets_status_ s) (map_stream_energy_ s).
Definition set_recv (s : NetworkStatus) (video audio : RecvLoss) (fraction cumulated : Z) : NetworkStatus :=
  mk_status (network_status_ s) (map_rtt_status_ s) (bitrate_status_ s) (audio_local_ssrc_ s)
    (send_packets_ s) (recv_packets_ s) (recv_counter s) (recv_rtcp_counter s) (send_counter s)
    (send_rtcp_counter s) (cumulate_send_lost_ s) cumulated (server_report_audio_jitter_ s)
    (server_report_video_jitter_ s) (client_report_audio_jitter_ s) (client_report_video_jitters_ s)
    (send_nack_count_ s) (recv_nack_count_ s) video audio fraction (send_fraction_lost_ s)
    (map_send_packets_status_ s) (map_stream_energy_ s).
Definition set_sent (s : NetworkStatus) (m : map_t SendPacketsStatus) (fraction cumulated : Z) : NetworkStatus :=
  mk_status (network_status_ s) (map_rtt_status_ s) (bitrate_status_ s) (audio_local_ssrc_ s)
    (send_packets_ s) (recv_packets_ s) (recv_counter s) (recv_rtcp_counter s) (send_counter s)
    (send_rtcp_counter s) cumulated (cumulate_recv_lost_ s) (server_report_audio_jitter_ s)
    (server_report_video_jitter_ s) (client_report_audio_jitter_ s) (client_report_video_jitters_ s)
    (send_nack_count_ s) (recv_nack_count_ s) (video_recv s) (audio_recv s) (recv_fraction_lost_ s)
    fraction m (map_stream_energy_ s).
Definition set_energy (s : NetworkStatus) (m : map_t Z) : NetworkStatus :=
  mk_status (network_status_ s) (map_rtt_status_ s) (bitrate_status_ s) (audio_local_ssrc_ s)
    (send_packets_ s) (recv_packets_ s) (recv_counter s) (recv_rtcp_counter s) (send_counter s)
    (send_rtcp_counter s) (cumulate_send_lost_ s) (cumulate_recv_lost_ s) (server_report_audio_jitter_ s)
    (server_report_video_jitter_ s) (client_report_audio_jitter_ s) (client_report_video_jitters_ s)
    (send_nack_count_ s) (recv_nack_count_ s) (video_recv s) (audio_recv s) (recv_fraction_lost_ s)
    (send_fraction_lost_ s) (map_send_packets_status_ s) m.

(** *** Packets *)

Definition GetSendFractionLost (s : NetworkStatus) (is_audio : bool) (ssrc : Z) : Z :=
  match find (if is_audio then audio_local_ssrc_ s else ssrc) (map_send_packets_status_ s) with
  | Some p => sent_fraction_lost_ p
  | None => 0
  end.

Definition ReceivingPacket (now : Z) (session : bool) (s : NetworkStatus) (is_video : bool)
    : NetworkStatus * list report :=
  let (c, out) := count_packet now session "recv_packets_audio" "recv_packets_video"
                    "recv_packets_last_update" (recv_counter s) is_video in
  (set_counters s (send_packets_ s) (u32 (recv_packets_ s + 1)) c (recv_rtcp_counter s) (send_counter s)
     (send_rtcp_counter s), out).

Definition ReceivingRTCPPacket (now : Z) (session : bool) (s : NetworkStatus) (is_video : bool)
    : NetworkStatus * list report :=
  let (c, out) := count_packet now session "recv_rtcp_packets_audio" "recv_rtcp_packets_video"
                    "recv_rtcp_packets_last_update" (recv_rtcp_counter s) is_video in
  (set_counters s (send_packets_ s) (recv_packets_ s) (recv_counter s) c (send_counter s)
     (send_rtcp_counter s), out).

Definition sent_of (s : NetworkStatus) (ssrc default : Z) (field : SendPacketsStatus -> Z) : Z :=
  match find ssrc (map_send_packets_status_ s) with Some p => field p | None => default end.
Definition GetSendPackets (s : NetworkStatus) (ssrc : Z) : Z := sent_of s ssrc (-1) sent_packets_.
Definition GetSendBytes (s : NetworkStatus) (ssrc : Z) : Z := sent_of s ssrc (-1) sent_bytes_.
Definition GetLastTs (s : NetworkStatus) (ssrc : Z) : Z := sent_of s ssrc (u32 (-1)) last_ts_.

Definition SendingPacket (now : Z) (session : bool) (s : NetworkStatus) (is_video : bool)
    (ssrc len timestamp : Z) : NetworkStatus * list report :=
  let sent :=
    match find ssrc (map_send_packets_status_ s) with
    | Some p =>
        store ssrc (set_last_ts (set_send_bytes (set_send_packets p 1) len) timestamp)
          (map_send_packets_status_ s)
    | None => map_send_packets_status_ s
    end in
  let s := set_sent s sent (send_fraction_lost_ s) (cumulate_send_lost_ s) in
  let (c, out) := count_packet now session "send_packets_audio" "send_packets_video"
                    "send_packets_last_update" (send_counter s) is_video in
  (set_counters s (u32 (send_packets_ s + 1)) (recv_packets_ s) (recv_counter s) (recv_rtcp_counter s) c
     (send_rtcp_counter s), out).

Definition SendingRTCPPacket (now : Z) (session : bool) (s : NetworkStatus) (is_video : bool)
    : NetworkStatus * list report :=
  let (c, out) := count_packet now session "send_rtcp_packets_audio" "send_rtcp_packets_video"
                    "send_rtcp_packets_last_update" (send_rtcp_counter s) is_video in
  (set_counters s (send_packets_ s) (recv_packets_ s) (recv_counter s) (recv_rtcp_counter s)
     (send_counter s) c, out).

Definition IncreaseNackCount (s : NetworkStatus) (is_send : bool) : NetworkStatus :=
  if is_send then set_nacks s (s32 (send_nack_count_ s + 1)) (recv_nack_count_ s)
  else set_nacks s (send_nack_count_ s) (s32 (recv_nack_count_ s + 1)).

(** *** Bitrates and jitters *)

Definition UpdateTargetBitrate (s : NetworkStatus) (is_video : bool) (target_bitrate : Z) : NetworkStatus :=
  let b := bitrate_status_ s in
  set_bitrates s
    (if is_video
     then mk_bitrate (send_bitrate_ b) (recv_bitrate_ b) (audio_target_bitrate_ b) (s32 target_bitrate)
     else mk_bitrate (send_bitrate_ b) (recv_bitrate_ b) (s32 target_bitrate) (video_target_bitrate_ b)).

Definition GetTargetBitrate (s : NetworkStatus) : Z :=
  let audio := audio_target_bitrate_ (bitrate_status_ s) in
  let video := video_target_bitrate_ (bitrate_status_ s) in
  if (audio =? -1) && (video =? -1) then -1
  else if audio =? -1 then video
  else if video =? -1 then audio
  else s32 (audio + video).

Definition UpdateBitrate (s : NetworkStatus) (is_send : bool) (bitrate : Z) : NetworkStatus :=
  let b := bitrate_status_ s in
  set_bitrates s
    (if is_send
     then mk_bitrate bitrate (recv_bitrate_ b) (audio_target_bitrate_ b) (video_target_bitrate_ b)
     else mk_bitrate (send_bitrate_ b) bitrate (audio_target_bitrate_ b) (video_target_bitrate_ b)).
Definition GetBitrate (s : NetworkStatus) (is_send : bool) : Z :=
  if is_send then send_bitrate_ (bitrate_status_ s) else recv_bitrate_ (bitrate_status_ s).

Definition UpdateJitters (s : NetworkStatus) (report_source : REPORT_SOURCE) (is_video : bool)
    (jitter_value local_ssrc : Z) : NetworkStatus :=
  let sa := server_report_audio_jitter_ s in
  let sv := server_report_video_jitter_ s in
  let ca := client_report_audio_jitter_ s in
  let cv := client_report_video_jitters_ s in
  match report_source, is_video with
  | SERVER_REPORT, true => set_jitters s sa jitter_value ca cv
  | SERVER_REPORT, false => set_jitters s jitter_value sv ca cv
  | CLIENT_REPORT, true =>
      set_jitters s sa sv ca
        (match find local_ssrc cv with Some _ => store local_ssrc jitter_value cv | None => cv end)
  | CLIENT_REPORT, false => set_jitters s sa sv jitter_value cv
  end.

(** *** Losses *)

Definition StatisticRecvFractionLost (t0 t1 t2 : Z) (session : bool) (s : NetworkStatus) (is_video : bool)
    (seqnumber : Z) : NetworkStatus * list report :=
  let (loss, closed) :=
    StatisticRecvFraction t0 t1 t2 (if is_video then video_recv s else audio_recv s) seqnumber in
  let video := if is_video then loss else video_recv s in
  let audio := if is_video then audio_recv s else loss in
  let lost := u32 (lost_of_recv_ video + lost_of_recv_ audio) in
  let recv_count := u32 (expect_recv_packets_ video + expect_recv_packets_ audio) in
  (set_recv s video audio
     (if 0 <? recv_count then u32 (lost * 100) / recv_count else recv_fraction_lost_ s)
     (u32 (recv_cumulative_lost_ video + recv_cumulative_lost_ audio)),
   match closed with
   | Some (seq_lost, now) =>
       if session then
         [AppendStreamCustomInfo
            (if is_video then "packet_lost_count_recv_video" else "packet_lost_count_recv_audio") seq_lost;
          SetStreamCustomInfo
            (if is_video then "packet_lost_last_update_video" else "packet_lost_last_update_audio") now]
       else []
   | None => []
   end).

(** What the sources were to send, lost and have lost in all. *)
Definition sent_totals (m : map_t SendPacketsStatus) : Z * Z * Z :=
  fold_left (fun '(total_send, total_send_lost, cumulated) '(_, p) =>
    (u32 (total_send + expect_send_packets_ p), u32 (total_send_lost + send_lost_ p),
     u32 (cumulated + last_cumulative_lost_ p))) m (0, 0, 0).

Definition UpdateTotalSendFractionLost (s : NetworkStatus) : NetworkStatus :=
  let '(total_send, total_send_lost, cumulated) := sent_totals (map_send_packets_status_ s) in
  set_sent s (map_send_packets_status_ s)
    (if 0 <? total_send then u32 (total_send_lost * 100) / total_send else send_fraction_lost_ s) cumulated.

Definition StatisticSendFractionLost (now : Z) (s : NetworkStatus)
    (highest_seqnumber cumulative_lost ssrc : Z) : NetworkStatus :=
  match find ssrc (map_send_packets_status_ s) with
  | None => s
  | Some p =>
      UpdateTotalSendFractionLost
        (set_sent s
           (store ssrc (CalculateSendFractionLost now p highest_seqnumber cumulative_lost)
              (map_send_packets_status_ s))
           (send_fraction_lost_ s) (cumulate_send_lost_ s))
  end.

Definition GetNetworkFractionLost (s : NetworkStatus) : Z :=
  s32 (if recv_fraction_lost_ s <? send_fraction_lost_ s then send_fraction_lost_ s else recv_fraction_lost_ s).

(** *** Round trip times *)

Definition UpdateRTT (now : Z) (s : NetworkStatus) (rtt ssrc : Z) : NetworkStatus :=
  match find ssrc (map_rtt_status_ s) with
  | Some r => set_rtts s (store ssrc (UpdateRTT_status now r rtt) (map_rtt_status_ s))
  | None => s
  end.

(** The average of a field over the sources where it is positive. *)
Definition average_rtt (field : RttStatus -> Z) (m : map_t RttStatus) : Z :=
  let '(sum, counter) :=
    fold_left (fun '(sum, counter) '(_, r) =>
      if field r <=? 0 then (sum, counter) else (s64 (sum + field r), counter + 1)) m (0, 0) in
  if counter =? 0 then 0 else Z.quot sum counter.
Definition GetLastestRttOfSsrcs (s : NetworkStatus) : Z := average_rtt rtt_ (map_rtt_status_ s).
Definition GetAllSsrcsAverageRtt (s : NetworkStatus) : Z := average_rtt avg_rtt_ (map_rtt_status_ s).

(** [now] is the time at which the records are made. *)
Definition InitWithSsrcs (now : Z -> Z) (s : NetworkStatus) (extended_video_ssrcs : list Z)
    (default_video_ssrc default_audio_ssrc : Z) : NetworkStatus :=
  let (sent, rtts) :=
    fold_left (fun '(sent, rtts) ssrc =>
      (store ssrc new_SendPacketsStatus sent, store ssrc (new_RttStatus (now ssrc)) rtts))
      extended_video_ssrcs (map_send_packets_status_ s, map_rtt_status_ s) in
  let rtt_status := new_RttStatus (now (-1)) in
  let rtts := store default_audio_ssrc rtt_status (store default_video_ssrc rtt_status rtts) in
  let sent := store default_video_ssrc new_SendPacketsStatus
                (store default_audio_ssrc new_SendPacketsStatus sent) in
  set_audio_ssrc (set_rtts (set_sent s sent (send_fraction_lost_ s) (cumulate_send_lost_ s)) rtts)
    default_audio_ssrc.

(** *** The level *)

Definition NetworkStatusLevel (fraction_lost : Z) : NETWORK_STATUS :=
  if fraction_lost <=? 1 then NET_GREAT
  else if fraction_lost <=? 4 then NET_GOOD
  else if fraction_lost <=? 10 then NET_NOT_GOOD
  else if fraction_lost <=? 50 then NET_BAD
  else if fraction_lost <=? 80 then NET_VERY_BAD
  else NET_CANT_CONNECT.

Definition EstimateNetworkStatusByFractionLost (s : NetworkStatus) : NETWORK_STATUS :=
  let send := NetworkStatusLevel (s32 (send_fraction_lost_ s)) in
  let recv := NetworkStatusLevel (s32 (recv_fraction_lost_ s)) in
  let either l := status_eqb send l || status_eqb recv l in
  if either NET_CANT_CONNECT then NET_CANT_CONNECT
  else if either NET_VERY_BAD then NET_VERY_BAD
  else if either NET_BAD then NET_BAD
  else if either NET_NOT_GOOD then NET_NOT_GOOD
  else if either NET_GOOD then NET_GOOD
  else if either NET_GREAT then NET_GREAT
  else NET_GREAT.

Definition worse (a b : NETWORK_STATUS) : NETWORK_STATUS := if level b <? level a then a else b.

Definition EstimateNetworkStatusByBandwidth (s : NetworkStatus) : NETWORK_STATUS :=
  let estimate bitrate very_bad bad not_good :=
    if bitrate =? -1 then NET_UNKNOWN
    else if bitrate <=? very_bad then NET_VERY_BAD
    else if bitrate <=? bad then NET_BAD
    else if bitrate <=? not_good then NET_NOT_GOOD
    else NET_GREAT in
  worse (estimate (audio_target_bitrate_ (bitrate_status_ s)) (10 * 1024) (15 * 1024) (20 * 1024))
        (estimate (video_target_bitrate_ (bitrate_status_ s)) (64 * 1024) (128 * 1024) (256 * 1024)).

Definition EstimateNetworkStatusByRTT (s : NetworkStatus) : NETWORK_STATUS :=
  let avg_rtt := GetAllSsrcsAverageRtt s in
  if avg_rtt =? -1 then NET_UNKNOWN
  else if 400 <=? avg_rtt then NET_VERY_BAD
  else if 300 <=? avg_rtt then NET_BAD
  else if 150 <=? avg_rtt then NET_NOT_GOOD
  else if 80 <=? avg_rtt then NET_GOOD
  else NET_GREAT.

Definition GetNetworkStatus (s : NetworkStatus) : NETWORK_STATUS :=
  worse (EstimateNetworkStatusByFractionLost s) (EstimateNetworkStatusByRTT s).

Record ConnectStatus := mk_connect {
  status : NETWORK_STATUS;
  rtt : Z;
  targetbitrate : Z;
  fractionlost : Z
}.
Definition GetConnectStatus (s : NetworkStatus) : ConnectStatus :=
  mk_connect (GetNetworkStatus s) (s32 (GetAllSsrcsAverageRtt s)) (GetTargetBitrate s) (GetNetworkFractionLost s).

Definition UpdateStatusZ (session : bool) (s : NetworkStatus) : list report :=
  if session then
    [SetStreamCustomInfo "sender_bitrate" (send_bitrate_ (bitrate_status_ s));
     SetStreamCustomInfo "receiver_bitrate" (recv_bitrate_ (bitrate_status_ s));
     SetStreamCustomInfo "sender_packets" (send_packets_ s);
     SetStreamCustomInfo "receiver_packets" (recv_packets_ s);
     SetStreamCustomInfo "sender_lost" (cumulate_send_lost_ s);
     SetStreamCustomInfo "receiver_lost" (cumulate_recv_lost_ s);
     SetStreamCustomInfo "sender_unittime_fraction_lost" (send_fraction_lost_ s);
     SetStreamCustomInfo "receiver_unittime_fraction_lost" (recv_fraction_lost_ s);
     SetStreamCustomInfo "network_status" (level (GetNetworkStatus s));
     AppendStreamCustomInfo "network_state" (level (GetNetworkStatus s))]
  else [].

(** *** Energy *)

Definition UpdateHighEnergyTime (now : Z) (s : NetworkStatus) (stream_id : Z) : NetworkStatus :=
  set_energy s (store (u32 stream_id) now (map_stream_energy_ s)).

(** [map_stream_energy_[stream_id]] makes an entry where there is none. *)
Definition CheckHasAudioPacket (mute_time now : Z) (s : NetworkStatus) (stream_id : Z)
    : NetworkStatus * bool :=
  let last_time := match find (u32 stream_id) (map_stream_energy_ s) with Some t => t | None => 0 end in
  (set_energy s (store (u32 stream_id) last_time (map_stream_energy_ s)),
   negb ((last_time =? 0) || (mute_time <? now - last_time))).

Definition CheckHasVideoPacket (s : NetworkStatus) : bool := 0 <? video_count_old (recv_counter s).

(** ** The manager of the streams

    [std::map] with the keys' [operator<]: the entries by rising key. *)

Record Key := mk_key { session_id : Z; stream_id : Z }.
Definition key_lt (a b : Key) : bool :=
  if session_id a <? session_id b then true
  else if session_id b <? session_id a then false
  else stream_id a <? stream_id b.

Section KeyMap.
Context {V : Type}.
Fixpoint find_key (k : Key) (m : list (Key * V)) : option V :=
  match m with
  | [] => None
  | (i, v) :: m => if key_lt i k then find_key k m else if key_lt k i then None else Some v
  end.
Fixpoint store_key (k : Key) (v : V) (m : list (Key * V)) : list (Key * V) :=
  match m with
  | [] => [(k, v)]
  | (i, w) :: m' =>
      if key_lt i k then (i, w) :: store_key k v m'
      else if key_lt k i then (k, v) :: m
      else (i, v) :: m'
  end.
Fixpoint erase_key (k : Key) (m : list (Key * V)) : list (Key * V) :=
  match m with
  | [] => []
  | (i, w) :: m' => if key_lt i k then (i, w) :: erase_key k m' else if key_lt k i then m else m'
  end.
End KeyMap.

Record NetworkStatusManager := mk_manager {
  map_ : list (Key * NetworkStatus);
  stream_update_map_ : list (Key * Z)
}.

Definition Init (now audio_ssrc : Z) (m : NetworkStatusManager) (k : Key) : NetworkStatusManager :=
  mk_manager (store_key k (new_NetworkStatus audio_ssrc) (map_ m)) (store_key k now (stream_update_map_ m)).

Definition UpdateStreamIncommingTime (now : Z) (m : NetworkStatusManager) (k : Key) : NetworkStatusManager :=
  mk_manager (map_ m) (store_key k now (stream_update_map_ m)).

(** [stream_update_map_[key]] makes an entry where there is none. *)
Definition GetStreamLastTime (m : NetworkStatusManager) (k : Key) : NetworkStatusManager * Z :=
  let time := match find_key k (stream_update_map_ m) with Some t => t | None => 0 end in
  (mk_manager (map_ m) (store_key k time (stream_update_map_ m)), time).

Definition TraverseStreamMap (leave_time now : Z) (m : NetworkStatusManager) (remove_stream : list Key)
    : list Key :=
  fold_left (fun remove '(k, t) =>
    if t =? 0 then remove else if leave_time <? now - t then remove ++ [k] else remove)
    (stream_update_map_ m) remove_stream.

Definition Get (m : NetworkStatusManager) (k : Key) : option NetworkStatus := find_key k (map_ m).

Definition Destroy (m : NetworkStatusManager) (k : Key) : NetworkStatusManager :=
  mk_manager (erase_key k (map_ m)) (erase_key k (stream_update_map_ m)).

Definition UpdateTimeOfStreamHighEnergy (now : Z) (m : NetworkStatusManager) (k : Key) (audio_energy : Z)
    : NetworkStatusManager :=
  match find_key k (map_ m) with
  | Some s =>
      if ENERGY_LOW <? audio_energy
      then mk_manager (store_key k (UpdateHighEnergyTime now s (stream_id k)) (map_ m)) (stream_update_map_ m)
      else m
  | None => m
  end.

(** The answer to a probe of a stream. *)
Record ProbeNetTestResult := mk_probe {
  probe_status : option NETWORK_STATUS;
  has_video : bool;
  has_audio : bool;
  network_speed : Z
}.
Definition SetNetworkStatus (s : NetworkStatus) (r : ProbeNetTestResult) : ProbeNetTestResult :=
  match network_status_ s with
  | NET_UNKNOWN => r
  | l => mk_probe (Some l) (has_video r) (has_audio r) (network_speed r)
  end.

Definition GetProbeNetResponse (mute_time now : Z) (m : NetworkStatusManager) (k : Key) (r : ProbeNetTestResult)
    : NetworkStatusManager * ProbeNetTestResult :=
  match find_key k (map_ m) with
  | Some s =>
      let video := CheckHasVideoPacket s in
      let (s, audio) := CheckHasAudioPacket mute_time now s (stream_id k) in
      let r := SetNetworkStatus s r in
      (mk_manager (store_key k s (map_ m)) (stream_update_map_ m),
       mk_probe (probe_status r) video audio (s32 (GetBitrate s false)))
  | None => (m, r)
  end.

End NetworkStatus.
