(* ===== verification/NetworkStatusFacts.v ===== *)
(** * The network status of a stream: properties

    The losses of a window are those of the packets that arrived, whatever their
    order; the totals over the sources are percentages; the level that
    is reported is that of the numbers reported with it. *)

From Stdlib Require Import Sorted Permutation.
From S2P Require Import Prelude OrderedMap JanusRtcp NetworkStatus.
Import OrderedMap NetworkStatus.

Module NetworkStatusFacts.

(** ** Counting what is missing *)

(** The numbers from [lo] to [hi]. *)
Definition range (lo hi : Z) : list Z := map (fun i => lo + Z.of_nat i) (seq 0 (Z.to_nat (hi - lo + 1))).

Definition got (vec : list Z) (q : Z) : bool := existsb (Z.eqb q) vec.

(** How many of them are not in [vec]. *)
Definition missing (lo hi : Z) (vec : list Z) : Z := zlen (filter (fun q => negb (got vec q)) (range lo hi)).

Lemma got_in vec q : got vec q = true <-> In q vec.
Proof.
  unfold got. rewrite existsb_exists. split.
  - intros (x & H & E). apply Z.eqb_eq in E. now subst.
  - intros H. exists q. split; [assumption|apply Z.eqb_refl].
Qed.

Lemma in_range lo hi q : In q (range lo hi) <-> lo <= q <= hi.
Proof.
  unfold range. rewrite in_map_iff. split.
  - intros (i & <- & H%in_seq). lia.
  - intros H. exists (Z.to_nat (q - lo)). split; [lia|]. apply in_seq. lia.
Qed.

Lemma zlen_range lo hi : lo <= hi + 1 -> zlen (range lo hi) = hi - lo + 1.
Proof. intros H. unfold range, zlen. rewrite length_map, length_seq. lia. Qed.

Lemma NoDup_range lo hi : NoDup (range lo hi).
Proof. apply NoDup_map_NoDup_ForallPairs; [intros i j _ _ H; lia|apply seq_NoDup]. Qed.

Lemma missing_count lo hi vec :
  lo <= hi + 1 -> NoDup vec -> Forall (fun q => lo <= q <= hi) vec ->
  missing lo hi vec = hi - lo + 1 - zlen vec.
Proof.
  intros L N F. unfold missing. rewrite <- (zlen_range lo hi L).
  assert (P : Permutation vec (filter (got vec) (range lo hi))).
  { apply NoDup_Permutation; [assumption|apply NoDup_filter, NoDup_range|]. intros q.
    rewrite filter_In, got_in, in_range. rewrite Forall_forall in F. firstorder. }
  apply Permutation_length in P. pose proof (filter_length (got vec) (range lo hi)). unfold zlen. lia.
Qed.

Lemma NoDup_last (l : list Z) q : NoDup l -> ~ In q l -> NoDup (l ++ [q]).
Proof.
  intros N I. apply (Permutation_NoDup (l := q :: l)); [apply Permutation_cons_append|]. now constructor.
Qed.

(** ** A window *)

Lemma record_lost_spec n : forall sq tm m, sorted m -> 0 <= sq - Z.of_nat n -> sq < 4294967296 ->
  sorted (record_lost n sq tm m) /\
  forall j, find j (record_lost n sq tm m) =
    if (sq - Z.of_nat n <=? j) && (j <? sq) then Some tm else find j m.
Proof.
  induction n as [|n IH]; intros sq tm m Sm L H; cbn [record_lost].
  - split; [assumption|]. intros j. change (Z.of_nat 0) with 0.
    now replace ((sq - 0 <=? j) && (j <? sq)) with false by lia.
  - rewrite (u32_id (sq - Z.of_nat (S n))) by (unfold in_u32; lia).
    destruct (IH sq tm (store (sq - Z.of_nat (S n)) tm m)) as [S2 F2]; [now apply store_sorted|lia|lia|].
    split; [assumption|]. intros j. rewrite F2, find_store by assumption.
    destruct (Z.ltb_spec j sq), (Z.leb_spec (sq - Z.of_nat n) j), (Z.leb_spec (sq - Z.of_nat (S n)) j),
      (Z.eqb_spec j (sq - Z.of_nat (S n))); cbn [andb]; try reflexivity; lia.
Qed.

Definition unopened (s : RecvLoss) : Prop :=
  min_recv_seqn_ s = 0 /\ max_recv_seqn_ s = 0 /\ number_of_received_ s = 0 /\
  recv_seqn_vector_ s = [] /\ lost_of_recv_map_ s = [].

(** Between its smallest and its largest number, every number of a window has
    been received or is recorded as lost. *)
Record opened (s : RecvLoss) : Prop := {
  op_min : 1 <= min_recv_seqn_ s <= max_recv_seqn_ s;
  op_max : max_recv_seqn_ s <= 65535;
  op_first : In (min_recv_seqn_ s) (recv_seqn_vector_ s);
  op_nodup : NoDup (recv_seqn_vector_ s);
  op_in : Forall (fun q => min_recv_seqn_ s <= q <= max_recv_seqn_ s) (recv_seqn_vector_ s);
  op_number : number_of_received_ s = zlen (recv_seqn_vector_ s);
  op_sorted : sorted (lost_of_recv_map_ s);
  op_keys : forall q t, find q (lost_of_recv_map_ s) = Some t -> min_recv_seqn_ s <= q <= max_recv_seqn_ s;
  op_full : forall q, min_recv_seqn_ s <= q <= max_recv_seqn_ s ->
    In q (recv_seqn_vector_ s) \/ exists t, find q (lost_of_recv_map_ s) = Some t
}.

Lemma zlen_vector s : opened s -> 1 <= zlen (recv_seqn_vector_ s) <= max_recv_seqn_ s - min_recv_seqn_ s + 1.
Proof.
  intros O. split.
  - destruct (recv_seqn_vector_ s) eqn:E; [|rewrite zlen_cons; pose proof (zlen_nonneg l); lia].
    pose proof (op_first s O) as F. rewrite E in F. destruct F.
  - pose proof (op_min s O) as M.
    pose proof (missing_count (min_recv_seqn_ s) (max_recv_seqn_ s) (recv_seqn_vector_ s)
      ltac:(lia) (op_nodup s O) (op_in s O)) as C.
    unfold missing in C. pose proof (zlen_nonneg (filter (fun q => negb (got (recv_seqn_vector_ s) q))
      (range (min_recv_seqn_ s) (max_recv_seqn_ s)))). lia.
Qed.

(** The start of a window only sets the time when the window is open, and a
    window is opened by its first packet. *)
Lemma open_window_opened t0 s q : opened s -> exists last,
  open_window t0 s q =
    mk_loss (expect_recv_packets_ s) (lost_of_recv_ s) (number_of_received_ s) (max_recv_seqn_ s)
      (min_recv_seqn_ s) last (recv_fraction_lost_of_ s) (recv_seqn_vector_ s) (lost_of_recv_map_ s)
      (recv_cumulative_lost_ s).
Proof.
  intros O. pose proof (op_min s O). unfold open_window.
  replace (max_recv_seqn_ s =? 0) with false by lia. replace (min_recv_seqn_ s =? 0) with false by lia.
  eexists. reflexivity.
Qed.

Lemma open_window_unopened t0 s q : unopened s -> 1 <= q <= 65535 ->
  opened (open_window t0 s q) /\ recv_seqn_vector_ (open_window t0 s q) = [q].
Proof.
  intros (A & B & C & D & E) Q. unfold open_window. rewrite A, B, C, D, E. cbn. split; [|reflexivity].
  constructor; cbn; try lia.
  - constructor; [intros []|constructor].
  - repeat constructor; lia.
  - repeat constructor.
  - discriminate.
Qed.

(** A packet above the largest records what it leaves out. *)
Lemma accept_new t1 s q : opened s -> max_recv_seqn_ s < q <= 65535 -> exists m,
  accept t1 s q = Some (mk_loss (expect_recv_packets_ s) (lost_of_recv_ s) (number_of_received_ s) q (min_recv_seqn_ s)
    (last_time_of_recv_fraction_update_ s) (recv_fraction_lost_of_ s) (recv_seqn_vector_ s) m (recv_cumulative_lost_ s)) /\
  sorted m /\ forall j, find j m = if (max_recv_seqn_ s <? j) && (j <? q) then Some t1 else find j (lost_of_recv_map_ s).
Proof.
  intros O Q. pose proof (op_min s O). unfold accept. rewrite s32_id by (unfold in_s32; lia).
  replace (0 <? q - max_recv_seqn_ s) with true by lia. eexists. split; [reflexivity|].
  destruct (1 <? q - max_recv_seqn_ s) eqn:More.
  - destruct (record_lost_spec (Z.to_nat (q - max_recv_seqn_ s - 1)) q t1 (lost_of_recv_map_ s) (op_sorted s O)) as [S F];
      [lia|lia|]. split; [assumption|]. intros j. rewrite F.
    now replace (q - Z.of_nat (Z.to_nat (q - max_recv_seqn_ s - 1)) <=? j) with (max_recv_seqn_ s <? j)
      by (rewrite Z2Nat.id by lia; destruct (Z.leb_spec (q - (q - max_recv_seqn_ s - 1)) j); lia).
  - split; [apply O|]. intros j. now replace ((max_recv_seqn_ s <? j) && (j <? q)) with false by lia.
Qed.

(** A packet that is not above it counts when it is missed and in time. *)
Lemma accept_old t1 s q : opened s -> 1 <= q <= max_recv_seqn_ s ->
  accept t1 s q =
    if got (recv_seqn_vector_ s) q then None
    else match find q (lost_of_recv_map_ s) with
         | None => None
         | Some t => if t + 12 <? t1 then None else Some s
         end.
Proof.
  intros O Q. pose proof (op_max s O). unfold accept. rewrite s32_id by (unfold in_s32; lia).
  now replace (0 <? q - max_recv_seqn_ s) with false by lia.
Qed.

(** A packet that is accepted joins the window, whose bounds it may extend. *)
Lemma accept_opened t1 s q s' : opened s -> 1 <= q <= 65535 -> accept t1 s q = Some s' ->
  opened (count_received s' q) /\
  min_recv_seqn_ s' = min_recv_seqn_ s /\ max_recv_seqn_ s' = Z.max (max_recv_seqn_ s) q /\
  recv_seqn_vector_ s' = recv_seqn_vector_ s /\ recv_cumulative_lost_ s' = recv_cumulative_lost_ s /\
  lost_of_recv_ s' = lost_of_recv_ s /\ expect_recv_packets_ s' = expect_recv_packets_ s.
Proof.
  intros O Q. pose proof (zlen_vector s O) as Zl. destruct O as [Om Ox Of On Oi Onum Os Ok Ofull].
  assert (N : u32 (number_of_received_ s + 1) = zlen (recv_seqn_vector_ s) + 1)
    by (rewrite u32_id by (unfold in_u32; lia); lia).
  assert (Zq : zlen (recv_seqn_vector_ s ++ [q]) = zlen (recv_seqn_vector_ s) + 1) by (rewrite zlen_app; reflexivity).
  destruct (Z.ltb_spec (max_recv_seqn_ s) q) as [New|Old].
  - destruct (accept_new t1 s q ltac:(now constructor) ltac:(lia)) as (m & -> & Sm & Fm).
    intros [= <-]. split; [|cbn; repeat split; lia].
    constructor; cbn; rewrite ?N, ?Zq; try lia; try assumption.
    + apply in_or_app. now left.
    + apply NoDup_last; [assumption|]. intros I. rewrite Forall_forall in Oi. specialize (Oi q I). lia.
    + apply Forall_app. split; [|repeat constructor; lia]. revert Oi. apply Forall_impl. intros; lia.
    + intros j t. rewrite Fm. destruct ((max_recv_seqn_ s <? j) && (j <? q)) eqn:B; [lia|].
      intros E%Ok. lia.
    + intros j J. rewrite Fm. destruct ((max_recv_seqn_ s <? j) && (j <? q)) eqn:B; [right; eauto|].
      destruct (Z.eq_dec j q) as [->|]; [left; apply in_or_app; right; now left|].
      destruct (Ofull j) as [I|I]; [lia|left; apply in_or_app; now left|now right].
  - rewrite accept_old by (lia || now constructor).
    destruct (got (recv_seqn_vector_ s) q) eqn:Dup; [discriminate|].
    assert (NI : ~ In q (recv_seqn_vector_ s)) by (intros I%got_in; congruence).
    destruct (find q (lost_of_recv_map_ s)) as [t|] eqn:F; [|discriminate].
    destruct (_ <? t1); [discriminate|]. intros [= <-]. pose proof (Ok q t F) as B.
    split; [|cbn; repeat split; lia]. constructor; cbn; rewrite ?N, ?Zq; try lia; try assumption.
    + apply in_or_app. now left.
    + now apply NoDup_last.
    + apply Forall_app. split; [assumption|repeat constructor; lia].
    + intros j J. destruct (Ofull j J) as [I|I]; [left; apply in_or_app; now left|now right].
Qed.

(** What the end of the window from [lo] to [hi] reports when the numbers of
    [vec] have come. *)
Record closed (lo hi : Z) (vec : list Z) (before : Z) (s : RecvLoss) (lost : Z) : Prop := {
  cl_unopened : unopened s;
  cl_bounds : 1 <= lo <= hi /\ hi <= 65535;
  cl_lost : lost = missing lo hi vec;
  cl_lost_of : lost_of_recv_ s = lost;
  cl_expected : expect_recv_packets_ s = hi - lo + 1;
  cl_fraction : recv_fraction_lost_of_ s = lost * 100 / (hi - lo + 1);
  cl_percent : 0 <= recv_fraction_lost_of_ s <= 99;
  cl_cumulative : recv_cumulative_lost_ s = u32 (before + lost)
}.

Lemma close_window_opened now s : opened s ->
  closed (min_recv_seqn_ s) (max_recv_seqn_ s) (recv_seqn_vector_ s) (recv_cumulative_lost_ s)
    (close_window now s) (snd (window_lost s)).
Proof.
  intros O. pose proof (zlen_vector s O) as L. pose proof (op_min s O). pose proof (op_max s O).
  pose proof (op_number s O) as E. unfold close_window, window_lost. cbn [snd].
  rewrite (u32_id (_ - min_recv_seqn_ s)) by (unfold in_u32; lia).
  rewrite (u32_id (_ + 1)) by (unfold in_u32; lia). rewrite (u32_id (_ - number_of_received_ s)) by (unfold in_u32; lia).
  replace (0 <? max_recv_seqn_ s - min_recv_seqn_ s + 1) with true by lia.
  rewrite (u32_id (_ * 100)) by (unfold in_u32; lia).
  constructor; cbn; try lia.
  - now repeat split.
  - rewrite missing_count by (apply O || lia). lia.
  - rewrite E. split; [apply Z.div_pos; lia|]. apply Z.lt_succ_r, Z.div_lt_upper_bound; lia.
Qed.

(** Packets in any order, with the times their calls read. *)
Record packet := mk_packet { p_t0 : Z; p_t1 : Z; p_t2 : Z; p_seq : Z }.
Definition receive (s : RecvLoss) (p : packet) : RecvLoss * option (Z * Z) :=
  StatisticRecvFraction (p_t0 p) (p_t1 p) (p_t2 p) s (p_seq p).
Definition received (ps : list packet) : RecvLoss := fold_left (fun s p => fst (receive s p)) ps new_RecvLoss.
Definition sequence_number (p : packet) : Prop := 1 <= p_seq p <= 65535.

(** *** What arrives

    The losses said in terms of the packets alone, without the state: the
    packets that arrived since the last report, in their order. *)

(** When a number was missed: a packet with a greater one came. *)
Definition overtaken (ws : list packet) (q : Z) : option Z := option_map p_t1 (List.find (fun x => q <? p_seq x) ws).

(** A packet counts unless it is older than the first of the window, or comes
    more than 12 ms after its number was missed. *)
Definition in_time (ws : list packet) (p : packet) : bool :=
  match ws with
  | [] => true
  | first :: _ =>
      match overtaken ws (p_seq p) with
      | None => true
      | Some t => (p_seq first <? p_seq p) && (p_t1 p <=? t + 12)
      end
  end.

(** A packet with the number has come in time. *)
Fixpoint comes (before ws : list packet) (q : Z) : bool :=
  match ws with
  | [] => false
  | p :: ws => ((p_seq p =? q) && in_time before p) || comes (before ++ [p]) ws q
  end.
Definition came (ws : list packet) (q : Z) : bool := comes [] ws q.

Definition lowest (ws : list packet) : Z := match ws with [] => 0 | first :: _ => p_seq first end.
Definition highest (ws : list packet) : Z := fold_right Z.max 0 (map p_seq ws).

(** The numbers of a window that have not come in time. *)
Definition lost_in (ws : list packet) : Z :=
  zlen (filter (fun q => negb (came ws q)) (range (lowest ws) (highest ws))).

(** A log of the packets since the last report, and the time of that report or,
    before the first, of the first packet. *)
Record log := mk_log { since : Z; arrived : list packet }.

(** A report is due with the first packet that counts, is not the first of its
    window nor the copy of one that counted, and comes later than the interval. *)
Definition observe (l : log) (p : packet) : log * option (Z * Z) :=
  let start := if since l =? 0 then p_t0 p else since l in
  let ws := arrived l ++ [p] in
  match arrived l with
  | [] => (mk_log start ws, None)
  | _ =>
      if in_time (arrived l) p && negb (came (arrived l) (p_seq p)) && (UPDATE_INTERVAL <? p_t2 p - start)
      then (mk_log (p_t2 p) [], Some (lost_in ws, p_t2 p))
      else (mk_log start ws, None)
  end.
Definition observed (ps : list packet) : log := fold_left (fun l p => fst (observe l p)) ps (mk_log 0 []).

(** *** The state holds the log *)

Lemma comes_app ws : forall before p q,
  comes before (ws ++ [p]) q = comes before ws q || ((p_seq p =? q) && in_time (before ++ ws) p).
Proof.
  induction ws as [|x ws IH]; intros before p q; cbn [comes app].
  - now rewrite app_nil_r, orb_false_r.
  - rewrite IH, <- app_assoc, orb_assoc. reflexivity.
Qed.

Lemma came_app ws p q : came (ws ++ [p]) q = came ws q || ((p_seq p =? q) && in_time ws p).
Proof. apply comes_app. Qed.

Lemma overtaken_app ws p q :
  overtaken (ws ++ [p]) q = match overtaken ws q with Some t => Some t | None => if q <? p_seq p then Some (p_t1 p) else None end.
Proof.
  unfold overtaken. induction ws as [|x ws IH]; cbn [List.find app option_map]; [now destruct (q <? p_seq p)|].
  destruct (q <? p_seq x); [reflexivity|exact IH].
Qed.

Lemma highest_app ws p : 0 <= p_seq p -> highest (ws ++ [p]) = Z.max (highest ws) (p_seq p).
Proof. intros H. unfold highest. induction ws as [|x ws IH]; cbn [map app fold_right]; lia. Qed.

Lemma overtaken_highest ws q : 0 <= q -> overtaken ws q = None <-> highest ws <= q.
Proof.
  intros H. unfold overtaken, highest. induction ws as [|x ws IH]; cbn [List.find map fold_right option_map]; [split; auto|].
  destruct (Z.ltb_spec q (p_seq x)); cbn [option_map]; [split; [discriminate|lia]|]. rewrite IH. lia.
Qed.

Lemma lowest_app ws p : ws <> [] -> lowest (ws ++ [p]) = lowest ws.
Proof. now destruct ws. Qed.

(** The state of a window in which the packets [ws] arrived. *)
Record tracks (ws : list packet) (s : RecvLoss) : Prop := {
  tr_opened : opened s;
  tr_min : min_recv_seqn_ s = lowest ws;
  tr_max : max_recv_seqn_ s = highest ws;
  tr_came : forall q, got (recv_seqn_vector_ s) q = came ws q;
  tr_missed : forall q t, find q (lost_of_recv_map_ s) = Some t -> lowest ws < q /\ overtaken ws q = Some t
}.

Lemma window_start t0 s p : unopened s -> sequence_number p -> tracks [p] (open_window t0 s (p_seq p)).
Proof.
  intros U Q. destruct (open_window_unopened t0 s (p_seq p) U Q) as [O V]. destruct U as (A & B & _ & _ & F).
  unfold sequence_number in Q. constructor; [exact O|..].
  - unfold open_window. now rewrite A.
  - unfold open_window, highest. rewrite A, B. cbn. lia.
  - intros q. rewrite V. unfold got, came. cbn. rewrite !orb_false_r, andb_true_r. apply Z.eqb_sym.
  - intros q t. unfold open_window. rewrite A, F. discriminate.
Qed.

(** What a packet of an open window adds. *)
Lemma window_step t1 ws s p : ws <> [] -> tracks ws s -> sequence_number p -> p_t1 p = t1 ->
  match accept t1 s (p_seq p) with
  | None => in_time ws p && negb (came ws (p_seq p)) = false /\ tracks (ws ++ [p]) s
  | Some s' => in_time ws p && negb (came ws (p_seq p)) = true /\ tracks (ws ++ [p]) (count_received s' (p_seq p))
  end.
Proof.
  intros N [O Mn Mx C M] Q <-. unfold sequence_number in Q. set (q := p_seq p) in *.
  assert (IT : in_time ws p = match overtaken ws q with None => true | Some t => (lowest ws <? q) && (p_t1 p <=? t + 12) end)
    by (unfold in_time, lowest; now destruct ws).
  pose proof (overtaken_highest ws q ltac:(lia)) as OH. pose proof (op_min s O) as Om.
  assert (Hi : highest (ws ++ [p]) = Z.max (highest ws) q) by (apply highest_app; unfold q in *; lia).
  destruct (accept (p_t1 p) s q) as [s'|] eqn:A.
  - destruct (accept_opened _ s q s' O Q A) as (O' & Mn' & Mx' & V & _).
    assert (Miss : forall j t, find j (lost_of_recv_map_ s') = Some t -> lowest ws < j /\ overtaken (ws ++ [p]) j = Some t).
    { intros j t. rewrite overtaken_app. destruct (Z.ltb_spec (max_recv_seqn_ s) q) as [New|Old].
      - destruct (accept_new (p_t1 p) s q O ltac:(lia)) as (m & E & _ & F). rewrite E in A. injection A as <-. cbn [lost_of_recv_map_].
        rewrite F. destruct ((max_recv_seqn_ s <? j) && (j <? q)) eqn:B; [|intros [? ->]%M; auto].
        intros [= <-]. rewrite (proj2 (overtaken_highest ws j ltac:(lia))) by lia. fold q. replace (j <? q) with true by lia. split; [lia|reflexivity].
      - rewrite accept_old in A by (lia || assumption). destruct (got _ q); [discriminate|]. destruct (find q _); [|discriminate].
        destruct (_ <? p_t1 p); [discriminate|]. injection A as <-. intros [? ->]%M. auto. }
    assert (Acc : in_time ws p = true /\ came ws q = false).
    { rewrite IT, <- C. destruct (Z.ltb_spec (max_recv_seqn_ s) q) as [New|Old].
      - rewrite (proj2 OH) by lia. split; [reflexivity|]. destruct (got _ q) eqn:G; [|reflexivity].
        apply got_in in G. pose proof (proj1 (Forall_forall _ _) (op_in s O) q G). cbn in *. lia.
      - rewrite accept_old in A by (lia || assumption). destruct (got _ q); [discriminate|]. split; [|reflexivity].
        destruct (find q _) as [t|] eqn:F; [|discriminate]. destruct (Z.ltb_spec (t + 12) (p_t1 p)); [discriminate|].
        destruct (M q t F) as [L ->]. lia. }
    destruct Acc as [I K]. rewrite I, K. split; [reflexivity|]. constructor; [exact O'|..].
    + rewrite lowest_app by assumption. cbn. lia.
    + rewrite Hi. cbn. lia.
    + intros j. cbn. rewrite V, came_app, <- C, I, andb_true_r. unfold got. rewrite existsb_app. cbn. rewrite orb_false_r.
      fold q. now rewrite (Z.eqb_sym q j).
    + rewrite lowest_app by assumption. exact Miss.
  - assert (Old : q <= max_recv_seqn_ s).
    { destruct (Z.ltb_spec (max_recv_seqn_ s) q); [|lia]. destruct (accept_new (p_t1 p) s q O ltac:(lia)) as (m & E & _). congruence. }
    rewrite accept_old in A by (lia || assumption).
    assert (Rej : in_time ws p && negb (came ws q) = false).
    { rewrite <- C. destruct (got _ q) eqn:G; [apply andb_false_r|]. rewrite andb_true_r, IT.
      assert (G' : ~ In q (recv_seqn_vector_ s)) by (rewrite <- got_in; congruence).
      destruct (overtaken ws q) as [t|] eqn:Ov.
      - destruct (Z.ltb_spec (lowest ws) q) as [L|L]; [cbn [andb]|reflexivity].
        destruct (op_full s O q ltac:(lia)) as [|[t' F]]; [contradiction|]. rewrite F in A.
        destruct (M q t' F) as [_ E]. rewrite Ov in E. injection E as <-. destruct (Z.ltb_spec (t + 12) (p_t1 p)); [lia|discriminate].
      - exfalso. pose proof (proj1 OH eq_refl). destruct (op_full s O q ltac:(lia)) as [|[t' F]]; [contradiction|].
        destruct (M q t' F) as [_ E]. congruence. }
    split; [exact Rej|]. constructor; [exact O|..].
    + now rewrite lowest_app.
    + rewrite Hi. lia.
    + intros j. rewrite came_app, <- C. fold q. destruct (Z.eqb_spec q j) as [<-|]; [|now rewrite orb_false_r].
      rewrite <- C in Rej. destruct (got _ q); [reflexivity|]. now rewrite andb_true_r in Rej; rewrite Rej.
    + intros j t F. rewrite lowest_app, overtaken_app by assumption. destruct (M j t F) as [? ->]. auto.
Qed.

(** What a report says of the packets [ws] of its window. *)
Record report_of (ws : list packet) (before : Z) (s : RecvLoss) (lost : Z) : Prop := {
  rp_bounds : 1 <= lowest ws <= highest ws /\ highest ws <= 65535;
  rp_lost : lost = lost_in ws;
  rp_lost_of : lost_of_recv_ s = lost;
  rp_expected : expect_recv_packets_ s = highest ws - lowest ws + 1;
  rp_fraction : recv_fraction_lost_of_ s = lost * 100 / (highest ws - lowest ws + 1);
  rp_percent : 0 <= recv_fraction_lost_of_ s <= 99;
  rp_cumulative : recv_cumulative_lost_ s = u32 (before + lost)
}.

(** The fields that hold the last report. *)
Definition last_report (s : RecvLoss) : Z * Z * Z * Z :=
  (lost_of_recv_ s, expect_recv_packets_ s, recv_fraction_lost_of_ s, recv_cumulative_lost_ s).

Record follows (l : log) (s : RecvLoss) : Prop := {
  fo_since : last_time_of_recv_fraction_update_ s = since l;
  fo_window : arrived l = [] /\ unopened s \/ arrived l <> [] /\ tracks (arrived l) s
}.

Lemma open_window_tracks t0 s q ws : tracks ws s ->
  tracks ws (open_window t0 s q) /\ last_report (open_window t0 s q) = last_report s.
Proof.
  intros T. pose proof (tr_opened ws s T) as O. destruct (open_window_opened t0 s q O) as [last ->].
  split; [|reflexivity]. destruct T. constructor; try assumption. now destruct O; constructor.
Qed.

Lemma open_window_since t0 s q : last_time_of_recv_fraction_update_ (open_window t0 s q) =
  if last_time_of_recv_fraction_update_ s =? 0 then t0 else last_time_of_recv_fraction_update_ s.
Proof. unfold open_window. now destruct (min_recv_seqn_ s =? 0). Qed.

Lemma close_window_report now ws s : tracks ws s ->
  unopened (close_window now s) /\ report_of ws (recv_cumulative_lost_ s) (close_window now s) (snd (window_lost s)).
Proof.
  intros [O Mn Mx C _]. destruct (close_window_opened now s O) as [U B L Lo Ex Fr Pe Cu]. rewrite Mn, Mx in *.
  split; [exact U|]. constructor; try assumption. rewrite L. unfold missing, lost_in. f_equal.
  apply filter_ext. intros q. now rewrite C.
Qed.

Lemma accept_keeps t1 s q s' : accept t1 s q = Some s' ->
  last_report s' = last_report s /\ last_time_of_recv_fraction_update_ s' = last_time_of_recv_fraction_update_ s.
Proof.
  unfold accept. destruct (0 <? _); [now intros [= <-]|]. destruct (existsb _ _); [discriminate|].
  destruct (find _ _); [|discriminate]. destruct (_ <? t1); [discriminate|]. now intros [= <-].
Qed.

(** One packet: the code and the log answer the same. *)
Lemma follows_step l s p : follows l s -> sequence_number p ->
  let '(s', r) := receive s p in
  let '(l', r') := observe l p in
  r = r' /\ follows l' s' /\
  match r with
  | None => last_report s' = last_report s
  | Some (lost, _) => report_of (arrived l ++ [p]) (recv_cumulative_lost_ s) s' lost
  end.
Proof.
  intros [Si W] Q. unfold receive, StatisticRecvFraction, observe.
  pose proof (open_window_since (p_t0 p) s (p_seq p)) as Sw. rewrite Si in Sw.
  set (start := if since l =? 0 then p_t0 p else since l) in *.
  destruct W as [[-> U]|[N T]].
  - pose proof (window_start (p_t0 p) s p U Q) as T.
    assert (A : accept (p_t1 p) (open_window (p_t0 p) s (p_seq p)) (p_seq p) = None).
    { unfold sequence_number in Q. rewrite accept_old; [|apply T|].
      - now rewrite (tr_came _ _ T); unfold came; cbn; rewrite Z.eqb_refl.
      - rewrite (tr_max _ _ T). unfold highest. cbn. lia. }
    rewrite A. split; [reflexivity|]. split.
    + constructor; [exact Sw|]. right. split; [discriminate|exact T].
    + destruct U as (B & _). unfold open_window. now rewrite B.
  - destruct (open_window_tracks (p_t0 p) s (p_seq p) _ T) as [Tw Rw].
    set (w := open_window (p_t0 p) s (p_seq p)) in *. clearbody w.
    pose proof (window_step (p_t1 p) _ w p N Tw Q eq_refl) as St. destruct (arrived l) as [|x ws] eqn:Ea; [congruence|].
    destruct (accept (p_t1 p) w (p_seq p)) as [s1|] eqn:A; destruct St as [-> T']; cbn [andb].
    + destruct (accept_keeps _ _ _ _ A) as [R1 L1].
      change (last_time_of_recv_fraction_update_ (count_received s1 (p_seq p))) with (last_time_of_recv_fraction_update_ s1).
      rewrite L1, Sw. destruct (UPDATE_INTERVAL <? p_t2 p - start).
      * destruct (close_window_report (p_t2 p) _ _ T') as [U R]. split; [|split].
        -- now rewrite <- (rp_lost _ _ _ _ R).
        -- constructor; [reflexivity|left; now split].
        -- replace (recv_cumulative_lost_ s) with (recv_cumulative_lost_ (count_received s1 (p_seq p))); [exact R|].
           unfold last_report in *. cbn. congruence.
      * split; [reflexivity|]. split; [|change (last_report s1 = last_report s); congruence].
        constructor; [cbn; congruence|right; split; [discriminate|exact T']].
    + split; [reflexivity|]. split; [|exact Rw]. constructor; [exact Sw|right; split; [discriminate|exact T']].
Qed.

Lemma received_follows ps : Forall sequence_number ps -> follows (observed ps) (received ps).
Proof.
  unfold received, observed. assert (H : follows (mk_log 0 []) new_RecvLoss)
    by (constructor; [reflexivity|left; repeat split]).
  revert H. generalize new_RecvLoss (mk_log 0 []). induction ps as [|p ps IH]; cbn; intros s l H F; [assumption|].
  inversion F; subst. apply IH; [|assumption]. pose proof (follows_step l s p H ltac:(assumption)) as St.
  destruct (receive s p), (observe l p). apply St.
Qed.


(** Two packets are missing of the ten from 65000 to 65009, one of them comes
    out of order. *)
Definition sample_packets : list packet :=
  map (fun i => mk_packet (1000 + i) (1000 + i) (1000 + i) (65000 + i)) [0; 1; 2; 5; 3; 7; 8].

(** A packet that comes 100 ms after it was missed arrives, and is counted as
    lost. *)
Example late_packet_is_a_loss :
  let ps := [mk_packet 1000 1000 1000 1; mk_packet 1001 1001 1001 3; mk_packet 1101 1101 1101 2] in
  snd (receive (received ps) (mk_packet 5000 5000 5000 4)) = Some (1, 5000).
Proof. vm_compute. reflexivity. Qed.

(** Sequence number 0 is taken for the state before the window: the window is
    opened again by the next packet, and counts one too many. *)
Example zero_underflows :
  snd (fold_left (fun '(s, _) '(t, q) => StatisticRecvFraction t t t s q)
         [(1000, 0); (1001, 1); (1002, 2); (9000, 3)] (new_RecvLoss, None)) = Some (4294967295, 9000).
Proof. vm_compute. reflexivity. Qed.

(** Once a window without losses contains 65535, every packet with another
    number is ignored, at any time: no window ends any more. *)
Lemma stalls_after_wrap s t0 t1 t2 q :
  opened s -> max_recv_seqn_ s = 65535 -> lost_of_recv_map_ s = [] -> 1 <= q < 65535 ->
  snd (StatisticRecvFraction t0 t1 t2 s q) = None /\
  recv_seqn_vector_ (fst (StatisticRecvFraction t0 t1 t2 s q)) = recv_seqn_vector_ s.
Proof.
  intros O M L Q. unfold StatisticRecvFraction. destruct (open_window_opened t0 s q O) as [last ->].
  assert (A : forall w, max_recv_seqn_ w = 65535 -> lost_of_recv_map_ w = [] -> accept t1 w q = None).
  { intros w Mw Lw. unfold accept. rewrite Mw, Lw, s32_id by (unfold in_s32; lia).
    replace (0 <? q - 65535) with false by lia. now destruct (existsb _ _). }
  rewrite A by (cbn; assumption). split; reflexivity.
Qed.

(** ** The level *)

(** How many of the thresholds are passed. *)
Definition passed (test : Z -> bool) (thresholds : list Z) : Z := zlen (filter test thresholds).

Lemma fraction_level f : level (NetworkStatusLevel f) = 1 + passed (fun t => t <? f) [1; 4; 10; 50; 80].
Proof.
  unfold NetworkStatusLevel, passed. cbn [filter].
  destruct (Z.leb_spec f 1), (Z.leb_spec f 4), (Z.leb_spec f 10), (Z.leb_spec f 50), (Z.leb_spec f 80),
    (Z.ltb_spec 1 f), (Z.ltb_spec 4 f), (Z.ltb_spec 10 f), (Z.ltb_spec 50 f), (Z.ltb_spec 80 f);
    solve [reflexivity|lia].
Qed.

Lemma rtt_level s : 0 <= GetAllSsrcsAverageRtt s ->
  level (EstimateNetworkStatusByRTT s) =
  1 + passed (fun t => t <=? GetAllSsrcsAverageRtt s) [80; 150; 300; 400].
Proof.
  unfold EstimateNetworkStatusByRTT, passed. set (r := GetAllSsrcsAverageRtt s). intros R. cbn [filter].
  replace (r =? -1) with false by lia.
  destruct (Z.leb_spec 400 r), (Z.leb_spec 300 r), (Z.leb_spec 150 r), (Z.leb_spec 80 r);
    solve [reflexivity|lia].
Qed.

Lemma level_worse a b : level (worse a b) = Z.max (level a) (level b).
Proof. unfold worse. destruct (Z.ltb_spec (level b) (level a)); lia. Qed.

Lemma fraction_estimate s :
  level (EstimateNetworkStatusByFractionLost s) =
  Z.max (level (NetworkStatusLevel (s32 (send_fraction_lost_ s))))
        (level (NetworkStatusLevel (s32 (recv_fraction_lost_ s)))).
Proof.
  unfold EstimateNetworkStatusByFractionLost.
  pose proof (fraction_level (s32 (send_fraction_lost_ s))) as F1.
  pose proof (fraction_level (s32 (recv_fraction_lost_ s))) as F2.
  assert (G : forall f, NetworkStatusLevel f <> NET_UNKNOWN).
  { intros f E. pose proof (fraction_level f) as F. rewrite E in F. cbn [level] in F.
    unfold passed in F. match type of F with context [zlen ?l] => pose proof (zlen_nonneg l) end. lia. }
  pose proof (G (s32 (send_fraction_lost_ s))). pose proof (G (s32 (recv_fraction_lost_ s))).
  destruct (NetworkStatusLevel (s32 (send_fraction_lost_ s))), (NetworkStatusLevel (s32 (recv_fraction_lost_ s)));
    solve [reflexivity|congruence].
Qed.

Lemma passed_mono thresholds f g :
  f <= g -> passed (fun t => t <? f) thresholds <= passed (fun t => t <? g) thresholds.
Proof.
  intros L. unfold passed. induction thresholds as [|t ts IH]; cbn [filter]; [lia|].
  destruct (Z.ltb_spec t f), (Z.ltb_spec t g); rewrite ?zlen_cons; lia.
Qed.

(** The average over sources with round trip times that fit an [int]. *)
Lemma average_rtt_range field m :
  Forall (fun e => field (snd e) < 2147483648) m -> zlen m < 2147483648 ->
  0 <= average_rtt field m < 2147483648.
Proof.
  intros F L. unfold average_rtt.
  set (f := fun '(sum, counter) '(_, r) => _).
  assert (H : forall (m : map_t RttStatus) a, Forall (fun e => field (snd e) < 2147483648) m ->
    0 <= fst a <= 2147483647 * snd a -> 0 <= snd a -> snd a + zlen m < 2147483648 ->
    let r := fold_left f m a in 0 <= fst r <= 2147483647 * snd r /\ 0 <= snd r).
  { clear. induction m as [|[k e] m IH]; intros [sum c] F A C L; cbn [fold_left fst snd] in *; [lia|].
    rewrite zlen_cons in L. inversion F as [|? ? Fe Fm]; subst. cbn [snd] in Fe. pose proof (zlen_nonneg m).
    apply IH; [assumption|..]; subst f; cbv beta iota; destruct (Z.leb_spec (field e) 0); cbn [fst snd]; try lia.
    all: try (rewrite s64_id by (unfold in_s64; lia)); lia. }
  specialize (H m (0, 0) F). destruct (fold_left f m (0, 0)) as [sum c]. cbn [fst snd] in H.
  destruct (Z.eqb_spec c 0); [lia|]. destruct H as [H1 H2]; [lia|lia|lia|].
  rewrite Z.quot_div_nonneg by lia. split; [apply Z.div_pos; lia|]. apply Z.div_lt_upper_bound; lia.
Qed.

(** The status that is answered fits the numbers answered with it: the
    level is one more than the number of thresholds passed by the fraction of
    packets lost or, when these are more, by the round trip time, the larger
    of the two fractions being the one reported. *)
Theorem connect_status_spec s :
  0 <= send_fraction_lost_ s < 2147483648 -> 0 <= recv_fraction_lost_ s < 2147483648 ->
  Forall (fun e => avg_rtt_ (snd e) < 2147483648) (map_rtt_status_ s) ->
  zlen (map_rtt_status_ s) < 2147483648 ->
  let c := GetConnectStatus s in
  level (status c) =
    1 + Z.max (passed (fun t => t <? fractionlost c) [1; 4; 10; 50; 80])
              (passed (fun t => t <=? rtt c) [80; 150; 300; 400]) /\
  fractionlost c = Z.max (send_fraction_lost_ s) (recv_fraction_lost_ s) /\
  rtt c = GetAllSsrcsAverageRtt s.
Proof.
  intros S R A L. pose proof (average_rtt_range avg_rtt_ _ A L) as B. fold (GetAllSsrcsAverageRtt s) in B.
  assert (G : GetNetworkFractionLost s = Z.max (send_fraction_lost_ s) (recv_fraction_lost_ s)).
  { unfold GetNetworkFractionLost. destruct (Z.ltb_spec (recv_fraction_lost_ s) (send_fraction_lost_ s));
      rewrite s32_id by (unfold in_s32; lia); lia. }
  cbv zeta. unfold GetConnectStatus, GetNetworkStatus. cbn [status rtt fractionlost].
    rewrite level_worse, fraction_estimate, !fraction_level, G, rtt_level by lia.
  rewrite !s32_id by (unfold in_s32; lia). split; [|now split].
  destruct (Z.max_spec (send_fraction_lost_ s) (recv_fraction_lost_ s)) as [[M ->]|[M ->]].
  - pose proof (passed_mono [1; 4; 10; 50; 80] (send_fraction_lost_ s) (recv_fraction_lost_ s) ltac:(lia)). lia.
  - pose proof (passed_mono [1; 4; 10; 50; 80] (recv_fraction_lost_ s) (send_fraction_lost_ s) ltac:(lia)). lia.
Qed.

Definition sample_status : NetworkStatus :=
  set_rtts (set_sent (new_NetworkStatus 7) [] 6 0)
    [(7, mk_rtt 0 0 0 120 0); (9, mk_rtt 0 0 0 500 0); (11, mk_rtt 0 0 0 (-1) 0)].
Lemma connect_status_witness :
  0 <= send_fraction_lost_ sample_status < 2147483648 /\
  (let c := GetConnectStatus sample_status in
   (level (status c), rtt c, fractionlost c) = (4, 310, 6) /\
   level (status c) =
    1 + Z.max (passed (fun t => t <? fractionlost c) [1; 4; 10; 50; 80])
              (passed (fun t => t <=? rtt c) [80; 150; 300; 400])).
Proof.
  split; [cbn; lia|]. split; [reflexivity|].
  apply (connect_status_spec sample_status); cbn; try lia. repeat constructor; cbn; lia.
Defined.

(** ** What is sent *)

Fixpoint sum_of (field : SendPacketsStatus -> Z) (m : map_t SendPacketsStatus) : Z :=
  match m with [] => 0 | e :: m => field (snd e) + sum_of field m end.

Lemma sum_of_nonneg field m : (forall e, In e m -> 0 <= field (snd e)) -> 0 <= sum_of field m.
Proof.
  induction m as [|e m IH]; cbn; intros H; [lia|].
  pose proof (H e ltac:(now left)). specialize (IH ltac:(intros; apply H; now right)). lia.
Qed.

Lemma sent_totals_exact m :
  Forall (fun e => 0 <= expect_send_packets_ (snd e) /\ 0 <= send_lost_ (snd e) /\
                   0 <= last_cumulative_lost_ (snd e)) m ->
  sum_of expect_send_packets_ m < 4294967296 -> sum_of send_lost_ m < 4294967296 ->
  sum_of last_cumulative_lost_ m < 4294967296 ->
  sent_totals m = (sum_of expect_send_packets_ m, sum_of send_lost_ m, sum_of last_cumulative_lost_ m).
Proof.
  intros F. unfold sent_totals. match goal with |- context [fold_left ?g _ _] => set (f := g) end.
  assert (H : forall a b c, 0 <= a -> 0 <= b -> 0 <= c ->
    a + sum_of expect_send_packets_ m < 4294967296 -> b + sum_of send_lost_ m < 4294967296 ->
    c + sum_of last_cumulative_lost_ m < 4294967296 ->
    fold_left f m (a, b, c) =
      (a + sum_of expect_send_packets_ m, b + sum_of send_lost_ m, c + sum_of last_cumulative_lost_ m)).
  2: { intros A B C. now rewrite H. }
  induction F as [|[k e] m (E1 & E2 & E3) F IH]; intros a b c A B C HA HB HC; cbn in *.
  - now rewrite !Z.add_0_r.
  - rewrite Forall_forall in F.
    pose proof (sum_of_nonneg expect_send_packets_ m ltac:(intros; now apply F)).
    pose proof (sum_of_nonneg send_lost_ m ltac:(intros; now apply F)).
    pose proof (sum_of_nonneg last_cumulative_lost_ m ltac:(intros; now apply F)).
    rewrite !u32_id by (unfold in_u32; lia). rewrite IH by lia. f_equal; [f_equal|]; lia.
Qed.

(** The fraction over all the sources is the percentage of what they lost
    together. *)
Lemma total_send_fraction s m :
  map_send_packets_status_ s = m ->
  Forall (fun e => 0 <= send_lost_ (snd e) <= expect_send_packets_ (snd e) /\
                   0 <= last_cumulative_lost_ (snd e)) m ->
  0 < sum_of expect_send_packets_ m < 42949673 -> sum_of last_cumulative_lost_ m < 4294967296 ->
  let s' := UpdateTotalSendFractionLost s in
  send_fraction_lost_ s' = sum_of send_lost_ m * 100 / sum_of expect_send_packets_ m /\
  0 <= send_fraction_lost_ s' <= 100 /\ cumulate_send_lost_ s' = sum_of last_cumulative_lost_ m.
Proof.
  intros <- F B C. set (m := map_send_packets_status_ s) in *.
  assert (Le : sum_of send_lost_ m <= sum_of expect_send_packets_ m)
    by (clear B C; induction F as [|e l (E & _) F IH]; cbn; lia).
  assert (N : 0 <= sum_of send_lost_ m)
    by (apply sum_of_nonneg; rewrite Forall_forall in F; intros e I; apply F in I; lia).
  cbv zeta. unfold UpdateTotalSendFractionLost. fold m. rewrite sent_totals_exact; [|..|lia|lia|lia].
  - replace (0 <? sum_of expect_send_packets_ m) with true by lia. cbn [send_fraction_lost_ set_sent].
    rewrite u32_id by (unfold in_u32; lia). split; [reflexivity|]. split; [|reflexivity].
    split; [apply Z.div_pos; lia|]. apply Z.lt_succ_r, Z.div_lt_upper_bound; lia.
  - revert F. apply Forall_impl. intros e. lia.
Qed.

(** The manager's look for streams that left finds exactly those. *)
Lemma TraverseStreamMap_spec leave_time now m removed k :
  In k (TraverseStreamMap leave_time now m removed) <->
  In k removed \/ exists t, In (k, t) (stream_update_map_ m) /\ t <> 0 /\ leave_time < now - t.
Proof.
  unfold TraverseStreamMap. revert removed. induction (stream_update_map_ m) as [|[i t] l IH]; cbn [fold_left In]; intros removed.
  - split; [now left|]. intros [H|(t & [] & _)]. exact H.
  - rewrite IH. destruct (Z.eqb_spec t 0); [|destruct (Z.ltb_spec leave_time (now - t))].
    + split; [intros [J|(u & J & U)]; eauto|]. intros [J|(u & [[= -> ->]|J] & U)]; [now left|lia|eauto].
    + rewrite in_app_iff. cbn [In]. split.
      * intros [[J|[<-|[]]]|(u & J & U)]; eauto 6.
      * intros [J|(u & [[= -> ->]|J] & U)]; eauto.
    + split; [intros [J|(u & J & U)]; eauto|]. intros [J|(u & [[= -> ->]|J] & U)]; [now left|lia|eauto].
Qed.

End NetworkStatusFacts.
