(* ===== verification/RtcpReports.v ===== *)
(** * Sender and receiver reports of the server

    Models src/orbit/rtp/rtcp_sender.cc and rtcp_receiver.cc: when a sender or a
    receiver report is due, its bytes, the history of the sender reports by
    which round trips are measured, and the other packets that are relayed.
    Packets handed to the transport are returned, in order.  The arrays of the
    histories are lists; the buffers on the stack of SendSrPacketInternal and
    SendRrPacketInternal are not initialised by the code and are arguments.
    The thread of the loop is the sequence of its rounds. *)

From S2P Require Import Prelude Wire RtpHeaders JanusRtcp Nack OrderedMap NetworkStatus NtpTime.
Import Wire JanusRtcp OrderedMap.

Module RtcpReports.

Definition DEFAULT_RTCP_SR_INTERVAL : Z := 500000.
Definition DEFAULT_RTCP_RR_INTERVAL : Z := 1.
Definition G_USEC_PER_SEC : Z := 1000000.
Definition RTCP_NUMBER_OF_SR : Z := 60.

(** What the sender asks of its transport: the sources it sends with, which
    change when a description is answered, and the further sources of video. *)
Record TransportDelegate := mk_delegate {
  AUDIO_SSRC : Z;
  VIDEO_SSRC : Z;
  GetExtendedVideoSsrcs : list Z
}.
Definition new_TransportDelegate : TransportDelegate := mk_delegate 44444 55543 [].

Record SrSendHistory := mk_history {
  last_send_report_ : list Z;
  last_rtcp_time_ : list Z
}.
Definition new_SrSendHistory : SrSendHistory :=
  mk_history (zeros (2 * RTCP_NUMBER_OF_SR)) (zeros (2 * RTCP_NUMBER_OF_SR)).

(** The fields of RtcpSender that change; the contexts of the streams and the
    network status are passed to the methods that use them. *)
Record RtcpSender := mk_sender {
  audio_rtcp_last_rr_ : Z;
  video_rtcp_last_rr_ : Z;
  audio_rtcp_last_sr_ : Z;
  video_rtcp_last_sr_ : Z;
  server_report_video_jitter_ : Z;
  server_report_audio_jitter_ : Z;
  remote_audio_ssrc_ : Z;
  remote_video_ssrc_ : Z;
  sr_send_histories_ : map_t SrSendHistory
}.

Definition new_RtcpSender : RtcpSender := mk_sender 0 0 0 0 0 0 0 0 [].

Definition set_last_rr (s : RtcpSender) (audio video : Z) : RtcpSender :=
  mk_sender audio video (audio_rtcp_last_sr_ s) (video_rtcp_last_sr_ s) (server_report_video_jitter_ s)
    (server_report_audio_jitter_ s) (remote_audio_ssrc_ s) (remote_video_ssrc_ s) (sr_send_histories_ s).
Definition set_last_sr (s : RtcpSender) (audio video : Z) : RtcpSender :=
  mk_sender (audio_rtcp_last_rr_ s) (video_rtcp_last_rr_ s) audio video (server_report_video_jitter_ s)
    (server_report_audio_jitter_ s) (remote_audio_ssrc_ s) (remote_video_ssrc_ s) (sr_send_histories_ s).
Definition set_jitter (s : RtcpSender) (video audio : Z) : RtcpSender :=
  mk_sender (audio_rtcp_last_rr_ s) (video_rtcp_last_rr_ s) (audio_rtcp_last_sr_ s) (video_rtcp_last_sr_ s) video audio
    (remote_audio_ssrc_ s) (remote_video_ssrc_ s) (sr_send_histories_ s).
Definition set_remote (s : RtcpSender) (audio video : Z) : RtcpSender :=
  mk_sender (audio_rtcp_last_rr_ s) (video_rtcp_last_rr_ s) (audio_rtcp_last_sr_ s) (video_rtcp_last_sr_ s)
    (server_report_video_jitter_ s) (server_report_audio_jitter_ s) audio video (sr_send_histories_ s).
Definition set_histories (s : RtcpSender) (m : map_t SrSendHistory) : RtcpSender :=
  mk_sender (audio_rtcp_last_rr_ s) (video_rtcp_last_rr_ s) (audio_rtcp_last_sr_ s) (video_rtcp_last_sr_ s)
    (server_report_video_jitter_ s) (server_report_audio_jitter_ s) (remote_audio_ssrc_ s) (remote_video_ssrc_ s) m.

(** The thread that the source starts here is [SendRrSrPacketLoop]. *)
Definition SetRemoteSdp (s : RtcpSender) (audio_ssrc video_ssrc : Z) : RtcpSender := set_remote s audio_ssrc video_ssrc.

(** The sources are asked of the transport; the argument is not used. *)
Definition InitSrSendHistories (t : TransportDelegate) (s : RtcpSender) (extended_video_ssrcs : list Z) : RtcpSender :=
  let m :=
    fold_left (fun m local_ssrc => store local_ssrc new_SrSendHistory m) (GetExtendedVideoSsrcs t) (sr_send_histories_ s) in
  set_histories s (store (AUDIO_SSRC t) new_SrSendHistory (store (VIDEO_SSRC t) new_SrSendHistory m)).

Definition Init (before : Z) (s : RtcpSender) : RtcpSender := set_last_sr (set_last_rr s before before) before before.

(** ** Relaying *)

Definition RelayRtcpPacket (media_type : Nack.packetType) (buf : list Z) (len : Z) : res (list Nack.dataPacket) :=
  let! p := Nack.data_packet media_type buf len in Ok [p].

Definition SendBYE : res (list Nack.dataPacket) :=
  let! (len, b) := janus_rtcp_bye (Some (zeros 20)) 12 in
  match b with
  | Some b => RelayRtcpPacket Nack.VIDEO_PACKET b len
  | None => Oob
  end.

Definition orbitvideo : list Z := [111; 114; 98; 105; 116; 118; 105; 100; 101; 111].
Definition orbitaudio : list Z := [111; 114; 98; 105; 116; 97; 117; 100; 105; 111].

(** The length the builder returns is not used. *)
Definition SendSDES (media_type : Nack.packetType) : res (list Nack.dataPacket) :=
  let len := 20 in
  let sdes (name : list Z) :=
    let! (_, b) := janus_rtcp_sdes (Some (zeros 20)) len (Some name) 10 in
    match b with Some b => Ok b | None => Oob end in
  let! buf :=
    match media_type with
    | Nack.VIDEO_PACKET => sdes orbitvideo
    | Nack.AUDIO_PACKET => sdes orbitaudio
    | _ => Ok (zeros 20)
    end in
  RelayRtcpPacket Nack.VIDEO_PACKET buf len.

Definition SendRtpFeedback (media_type : Nack.packetType) (rtcp_buf : list Z) (len : Z) : res (list Nack.dataPacket) :=
  RelayRtcpPacket media_type rtcp_buf len.

Definition SendRTCP (rtcp_type : Z) (media_type : Nack.packetType) (rtcp_buf : list Z) (len : Z)
    : res (list Nack.dataPacket) :=
  if rtcp_type =? RTCP_BYE then SendBYE
  else if rtcp_type =? RTCP_SDES then SendSDES media_type
  else if rtcp_type =? RTCP_RTPFB then SendRtpFeedback media_type rtcp_buf len
  else Ok [].

(** ** Sender reports *)

(** [rtcpbuf] is the buffer of 28 bytes. *)
Definition ConstructAndRelaySrPacket (rtcpbuf : list Z) (packet_type : Nack.packetType)
    (send_packets send_bytes last_ts local_ssrc remote_ssrc ntp_sec ntp_frac : Z) : res (list Nack.dataPacket) :=
  let srlen := 28 in
  let! b := set_version rtcpbuf 0 2 in
  let! b := set_type b 0 RTCP_SR in
  let! b := set_rc b 0 0 in
  let! b := set_length b 0 (Z.quot srlen 4 - 1) in
  let! b := set32 b 8 ntp_sec in
  let! b := set32 b 12 ntp_frac in
  let! b := set32 b 16 last_ts in
  let! b := set32 b 20 send_packets in
  let! b := set32 b 24 send_bytes in
  let! (_, b, _) := janus_rtcp_fix_ssrc 0 true local_ssrc remote_ssrc None (Some b) srlen in
  match b with
  | Some b => RelayRtcpPacket packet_type b srlen
  | None => Oob
  end.

(** [a[i + 1] = a[i]] for [i] from [2 * RTCP_NUMBER_OF_SR - 2] down to 0. *)
Definition shift (a : list Z) : list Z :=
  for_down (RTCP_NUMBER_OF_SR * 2 - 2) (Z.to_nat (RTCP_NUMBER_OF_SR * 2 - 1)) (fun i a => wr a (i + 1) (rd a i)) a.

(** The middle 32 bits of an NTP time, by which a report is named. *)
Definition middle (ntp_sec ntp_frac : Z) : Z := u32 (u32 (Z.shiftl ntp_sec 16) + Z.shiftr ntp_frac 16).

Definition UpdateLastSendReportAndRtcpTime (s : RtcpSender) (ntp_sec ntp_frac local_ssrc : Z) : RtcpSender :=
  match find local_ssrc (sr_send_histories_ s) with
  | None => s
  | Some h =>
      let h :=
        mk_history (wr (shift (last_send_report_ h)) 0 (middle ntp_sec ntp_frac))
          (wr (shift (last_rtcp_time_ h)) 0 (NtpTime.NtpToMs ntp_sec ntp_frac)) in
      set_histories s (store local_ssrc h (sr_send_histories_ s))
  end.

(** The search from the newest report. *)
Fixpoint find_report (n : nat) (i : Z) (h : SrSendHistory) (sendReport : Z) : Z :=
  match n with
  | O => 0
  | S n =>
      if rd (last_send_report_ h) i =? sendReport then rd (last_rtcp_time_ h) i
      else find_report n (i + 1) h sendReport
  end.

Definition GetSendTimeOfSendReport (s : RtcpSender) (sendReport ssrc : Z) : Z :=
  match find ssrc (sr_send_histories_ s) with
  | None => 0
  | Some h =>
      if (rd (last_send_report_ h) 0 =? 0) || (sendReport =? 0) then 0
      else find_report (Z.to_nat RTCP_NUMBER_OF_SR) 0 h sendReport
  end.

(** The report of one local source, when it has sent packets.  [ntp] is the
    time read then. *)
Definition SendSr (rtcpbuf : list Z) (ntp : Z * Z) (st : NetworkStatus.NetworkStatus) (s : RtcpSender)
    (packet_type : Nack.packetType) (local_ssrc remote_ssrc : Z) : res (RtcpSender * list Nack.dataPacket) :=
  let send_packets := s32 (NetworkStatus.GetSendPackets st local_ssrc) in
  let send_bytes := s32 (NetworkStatus.GetSendBytes st local_ssrc) in
  let last_ts := NetworkStatus.GetLastTs st local_ssrc in
  if 0 <? send_packets then
    let (ntp_sec, ntp_frac) := ntp in
    let! sent :=
      ConstructAndRelaySrPacket rtcpbuf packet_type (u32 send_packets) (u32 send_bytes) last_ts local_ssrc remote_ssrc
        ntp_sec ntp_frac in
    Ok (UpdateLastSendReportAndRtcpTime s ntp_sec ntp_frac local_ssrc, sent)
  else Ok (s, []).

(** The loop over the local sources; [ntp k] is the time read in round [k]. *)
Fixpoint SendSrs (rtcpbuf : list Z) (ntp : nat -> Z * Z) (k : nat) (st : NetworkStatus.NetworkStatus) (s : RtcpSender)
    (remote_ssrc : Z) (local_ssrcs : list Z) : res (RtcpSender * list Nack.dataPacket) :=
  match local_ssrcs with
  | [] => Ok (s, [])
  | ssrc :: l =>
      let! (s, sent) := SendSr rtcpbuf (ntp k) st s Nack.VIDEO_PACKET ssrc remote_ssrc in
      let! (s, sent') := SendSrs rtcpbuf ntp (S k) st s remote_ssrc l in
      Ok (s, sent ++ sent')
  end.

Inductive ReportPacketType := AUDIO_SR | VIDEO_SR | AUDIO_RR | VIDEO_RR.

Definition SendSrPacketInternal (now : Z) (ntp : nat -> Z * Z) (rtcpbuf : list Z) (t : TransportDelegate)
    (st : NetworkStatus.NetworkStatus) (s : RtcpSender) (type : ReportPacketType) : res (RtcpSender * list Nack.dataPacket) :=
  match type with
  | AUDIO_SR =>
      if DEFAULT_RTCP_SR_INTERVAL <=? u64 (now - audio_rtcp_last_sr_ s) then
        let! (s, sent) := SendSr rtcpbuf (ntp 0%nat) st s Nack.AUDIO_PACKET (AUDIO_SSRC t) (remote_audio_ssrc_ s) in
        Ok (set_last_sr s now (video_rtcp_last_sr_ s), sent)
      else Ok (s, [])
  | VIDEO_SR =>
      if u64 (now - video_rtcp_last_sr_ s) <? DEFAULT_RTCP_SR_INTERVAL then Ok (s, [])
      else
        let! (s, sent) :=
          match GetExtendedVideoSsrcs t with
          | [] => SendSr rtcpbuf (ntp 0%nat) st s Nack.VIDEO_PACKET (VIDEO_SSRC t) (remote_video_ssrc_ s)
          | ext_video_ssrcs => SendSrs rtcpbuf ntp 0 st s (remote_video_ssrc_ s) ext_video_ssrcs
          end in
        Ok (set_last_sr s (audio_rtcp_last_sr_ s) now, sent)
  | _ => Ok (s, [])
  end.

(** ** Receiver reports *)

(** struct report_block at [o] in memory.  The first field is not written by
    janus_rtcp_report_block and keeps what the buffer held. *)
Definition put_report_block (b : list Z) (o : Z) (rb : report_block) : res (list Z) :=
  let! b := set32 b (o + 4) (rb_flcnpl rb) in
  let! b := set32 b (o + 8) (rb_ehsnr rb) in
  let! b := set32 b (o + 12) (rb_jitter rb) in
  let! b := set32 b (o + 16) (rb_lsr rb) in
  set32 b (o + 20) (rb_delay rb).

(** [now] is read by the method, [now1] and [now2] by janus_rtcp_report_block.
    The result: whether a report was sent, the sender, the context of the
    stream, and the packet. *)
Definition SendRrPacketInternal (now now1 now2 : Z) (rtcpbuf : list Z) (ctx : option rtcp_context) (s : RtcpSender)
    (type : ReportPacketType) : res (bool * RtcpSender * option rtcp_context * list Nack.dataPacket) :=
  let go (rtcp_last_rr : Z) (packet_type : Nack.packetType) (audio : bool) :=
    if DEFAULT_RTCP_RR_INTERVAL * G_USEC_PER_SEC <=? u64 (now - rtcp_last_rr) then
      let! (rr_sent, s, ctx, sent) :=
        match ctx with
        | None => Ok (false, s, ctx, [])
        | Some _ =>
            let rrlen := 32 in
            let! b := set_version rtcpbuf 0 2 in
            let! b := set_type b 0 RTCP_RR in
            let! b := set_rc b 0 1 in
            let! b := set_length b 0 (Z.quot rrlen 4 - 1) in
            let! ssrc := be32 b 8 in
            match janus_rtcp_report_block now1 now2 ctx (Some (mk_rb ssrc 0 0 0 0 0)) with
            | (_, ctx, Some rb) =>
                let! b := put_report_block b 8 rb in
                let! sent := RelayRtcpPacket packet_type b rrlen in
                let! jitter := RtpHeaders.getJitter b in
                Ok (true,
                    if audio then set_jitter s (server_report_video_jitter_ s) jitter
                    else set_jitter s jitter (server_report_audio_jitter_ s), ctx, sent)
            | _ => Oob
            end
        end in
      Ok (rr_sent,
          if audio then set_last_rr s now (video_rtcp_last_rr_ s) else set_last_rr s (audio_rtcp_last_rr_ s) now, ctx, sent)
    else Ok (false, s, ctx, []) in
  match type with
  | AUDIO_RR => go (audio_rtcp_last_rr_ s) Nack.AUDIO_PACKET true
  | VIDEO_RR => go (video_rtcp_last_rr_ s) Nack.VIDEO_PACKET false
  | _ => Ok (false, s, ctx, [])
  end.

(** ** The loop of the thread *)

(** What a round reads: the monotonic times, the NTP times, the stacks. *)
Record round_input := mk_round {
  audio_rr_times : Z * Z * Z;
  video_rr_times : Z * Z * Z;
  audio_sr_time : Z;
  audio_sr_ntp : nat -> Z * Z;
  video_sr_time : Z;
  video_sr_ntp : nat -> Z * Z;
  stacks : list Z * list Z
}.

(** The sender, the contexts of the audio and the video stream, the status. *)
Definition reports_state : Type := RtcpSender * option rtcp_context * option rtcp_context * NetworkStatus.NetworkStatus.

Definition SendRrSrPacketRound (t : TransportDelegate) (i : round_input) (st : reports_state)
    : res (reports_state * list Nack.dataPacket) :=
  let '(s, audio, video, status) := st in
  let (sr_stack, rr_stack) := stacks i in
  let '(a0, a1, a2) := audio_rr_times i in
  let! (sent, s, audio, p1) := SendRrPacketInternal a0 a1 a2 rr_stack audio s AUDIO_RR in
  let status :=
    if sent then
      NetworkStatus.UpdateJitters status NetworkStatus.SERVER_REPORT false (server_report_audio_jitter_ s) 0
    else status in
  let '(v0, v1, v2) := video_rr_times i in
  let! (sent, s, video, p2) := SendRrPacketInternal v0 v1 v2 rr_stack video s VIDEO_RR in
  let status :=
    if sent then
      NetworkStatus.UpdateJitters status NetworkStatus.SERVER_REPORT true (server_report_video_jitter_ s) 0
    else status in
  let! (s, p3) := SendSrPacketInternal (audio_sr_time i) (audio_sr_ntp i) sr_stack t status s AUDIO_SR in
  let! (s, p4) := SendSrPacketInternal (video_sr_time i) (video_sr_ntp i) sr_stack t status s VIDEO_SR in
  Ok ((s, audio, video, status), p1 ++ p2 ++ p3 ++ p4).

(** One round for each time the transport was found running, with what it
    answers then. *)
Fixpoint SendRrSrPacketLoop (rounds : list (TransportDelegate * round_input)) (st : reports_state)
    : res (reports_state * list Nack.dataPacket) :=
  match rounds with
  | [] => Ok (st, [])
  | (t, i) :: rounds =>
      let! (st, sent) := SendRrSrPacketRound t i st in
      let! (st, sent') := SendRrSrPacketLoop rounds st in
      Ok (st, sent ++ sent')
  end.

(** ** rtcp_receiver.cc *)

(** The context of a stream: video, and audio for all other types. *)
Definition is_video (packet_type : Nack.packetType) : bool :=
  match packet_type with Nack.VIDEO_PACKET => true | _ => false end.

(** [ctxs] are the contexts of the audio and of the video stream. *)
Definition with_context (packet_type : Nack.packetType) (ctxs : option rtcp_context * option rtcp_context)
    (f : option rtcp_context -> res (option rtcp_context)) : res (option rtcp_context * option rtcp_context) :=
  let (audio, video) := ctxs in
  if is_video packet_type then let! video := f video in Ok (audio, video)
  else let! audio := f audio in Ok (audio, video).

Definition RtcpProcessIncomingRtp (now max_nack_queue : Z) (ctxs : option rtcp_context * option rtcp_context)
    (packet_type : Nack.packetType) (buf : list Z) (len : Z) : res (option rtcp_context * option rtcp_context) :=
  with_context packet_type ctxs (fun ctx =>
    let! (_, ctx) := janus_rtcp_process_incoming_rtp now ctx (Some buf) len max_nack_queue in Ok ctx).

(** The packet is read, not changed. *)
Definition RtcpProcessIncomingRtcp (now : Z) (ctxs : option rtcp_context * option rtcp_context)
    (packet_type : Nack.packetType) (buf : list Z) (len : Z) : res (option rtcp_context * option rtcp_context) :=
  with_context packet_type ctxs (fun ctx =>
    let! (_, _, ctx) := janus_rtcp_parse now ctx (Some buf) len in Ok ctx).

(** ** The history of the reports *)

Lemma shifted n : forall i a, i + 1 < zlen a -> 0 <= i - Z.of_nat n + 1 ->
  let a' := for_down i n (fun i a => wr a (i + 1) (rd a i)) a in
  zlen a' = zlen a /\ forall j, 0 <= j -> rd a' j = if (i - Z.of_nat n + 1 <? j) && (j <=? i + 1) then rd a (j - 1) else rd a j.
Proof.
  induction n as [|n IH]; intros i a L N; cbv zeta; cbn [for_down].
  - split; [reflexivity|]. intros j J. change (Z.of_nat 0) with 0. case_if; [exfalso; bool_lia|reflexivity].
  - destruct (IH (i - 1) (wr a (i + 1) (rd a i))) as [Z1 R1]; [rewrite zlen_wr; lia|lia|].
    split; [now rewrite Z1, zlen_wr|]. intros j J. rewrite R1 by assumption.
    replace (i - Z.of_nat (S n) + 1) with (i - 1 - Z.of_nat n + 1) by lia. replace (i - 1 + 1) with i by lia.
    destruct (Z.ltb_spec (i - 1 - Z.of_nat n + 1) j); cbn [andb].
    + destruct (Z.leb_spec j i); [replace (j <=? i + 1) with true by lia; apply rd_wr_ne; lia|].
      destruct (Z.leb_spec j (i + 1)); [|apply rd_wr_ne; lia].
      replace j with (i + 1) by lia. rewrite rd_wr_eq by lia. f_equal. lia.
    + apply rd_wr_ne; lia.
Qed.

(** Recording: the newest first, the oldest falls out. *)
Lemma pushed m a v : zlen a = m -> 2 <= m ->
  wr (for_down (m - 2) (Z.to_nat (m - 1)) (fun i a => wr a (i + 1) (rd a i)) a) 0 v = v :: removelast a.
Proof.
  intros L M. destruct (shifted (Z.to_nat (m - 1)) (m - 2) a) as [Z1 R]; [lia|lia|].
  set (a' := for_down _ _ _ _) in *. rewrite Z2Nat.id in R by lia.
  assert (RL : zlen (removelast a) = m - 1).
  { unfold zlen in *. rewrite removelast_firstn_len, length_firstn. lia. }
  apply rd_ext; [rewrite zlen_wr, zlen_cons; lia|].
  intros j J. rewrite zlen_wr in J. destruct (Z.eq_dec j 0) as [->|].
  - rewrite rd_wr_eq by lia. reflexivity.
  - rewrite rd_wr_ne, R by lia. replace ((m - 2 - (m - 1) + 1 <? j) && (j <=? m - 2 + 1)) with true by lia. rewrite rd_cons by lia.
    rewrite removelast_firstn_len. replace (Nat.pred (length a)) with (Z.to_nat (m - 1)) by (unfold zlen in L; lia).
    now rewrite rd_firstn by lia.
Qed.

Lemma recorded a v : zlen a = RTCP_NUMBER_OF_SR * 2 -> wr (shift a) 0 v = v :: removelast a.
Proof. intros L. apply (pushed (RTCP_NUMBER_OF_SR * 2)); [assumption|]. unfold RTCP_NUMBER_OF_SR. lia. Qed.

(** The reports of all sources, the last one first. *)
Fixpoint record (sent : list (Z * (Z * Z))) (s : RtcpSender) : RtcpSender :=
  match sent with
  | [] => s
  | (ssrc, (sec, frac)) :: sent => UpdateLastSendReportAndRtcpTime (record sent s) sec frac ssrc
  end.

Definition of_source (ssrc : Z) (sent : list (Z * (Z * Z))) : list (Z * Z) :=
  map snd (filter (fun e => fst e =? ssrc) sent).

(** The list that is left of a history of which the oldest fall out. *)
Definition newest {A} (l : list A) (old : list A) : list A := firstn (length old) (l ++ old).

Lemma newest_cons {A} (x : A) l old : old <> [] -> newest (x :: l) old = x :: removelast (newest l old).
Proof.
  intros N. unfold newest. destruct old as [|y old]; [congruence|].
  change (length (y :: old)) with (S (length old)). rewrite removelast_firstn by (rewrite length_app; cbn; lia). reflexivity.
Qed.

Lemma length_newest {A} (l old : list A) : length (newest l old) = length old.
Proof. unfold newest. rewrite length_firstn, length_app. lia. Qed.

Lemma histories_recorded sent s ssrc h : sorted (sr_send_histories_ s) -> find ssrc (sr_send_histories_ s) = Some h ->
  zlen (last_send_report_ h) = RTCP_NUMBER_OF_SR * 2 -> zlen (last_rtcp_time_ h) = RTCP_NUMBER_OF_SR * 2 ->
  let l := of_source ssrc sent in
  sorted (sr_send_histories_ (record sent s)) /\
  find ssrc (sr_send_histories_ (record sent s)) =
    Some (mk_history (newest (map (fun '(sec, frac) => middle sec frac) l) (last_send_report_ h))
            (newest (map (fun '(sec, frac) => NtpTime.NtpToMs sec frac) l) (last_rtcp_time_ h))).
Proof.
  intros Sm F L1 L2. cbv zeta. induction sent as [|[src [sec frac]] sent [IS IF]].
  - cbn [record of_source filter map]. split; [assumption|]. rewrite F. unfold newest. cbn [app]. rewrite !firstn_all. now destruct h.
  - cbn [record]. set (s1 := record sent s) in *. unfold UpdateLastSendReportAndRtcpTime.
    unfold of_source. cbn [filter fst]. fold (of_source ssrc sent) in *.
    destruct (find src (sr_send_histories_ s1)) as [h1|] eqn:F1.
    + cbn [set_histories sr_send_histories_]. split; [now apply store_sorted|]. rewrite find_store by assumption.
      rewrite (Z.eqb_sym src ssrc). destruct (Z.eqb_spec ssrc src) as [<-|].
      * rewrite IF in F1. injection F1 as <-. cbn [last_send_report_ last_rtcp_time_ map snd].
        rewrite !recorded by (unfold zlen in *; rewrite length_newest; lia).
        fold (of_source ssrc sent).
        rewrite !newest_cons; [reflexivity| |]; intros K; [rewrite K in L2|rewrite K in L1]; cbn in *; discriminate.
      * exact IF.
    + split; [assumption|]. destruct (Z.eqb_spec src ssrc) as [->|]; [congruence|exact IF].
Qed.

Lemma find_report_at n k : forall i h r, rd (last_send_report_ h) (i + Z.of_nat k) = r -> (k < n)%nat ->
  (forall j, i <= j < i + Z.of_nat k -> rd (last_send_report_ h) j <> r) ->
  find_report n i h r = rd (last_rtcp_time_ h) (i + Z.of_nat k).
Proof.
  revert k. induction n as [|n IH]; intros k i h r E L D; [lia|]. cbn [find_report]. destruct k as [|k].
  - cbn in *. rewrite Z.add_0_r in *. rewrite E, Z.eqb_refl. reflexivity.
  - specialize (D i ltac:(lia)) as N. destruct (Z.eqb_spec (rd (last_send_report_ h) i) r); [congruence|].
    replace (i + Z.of_nat (S k)) with (i + 1 + Z.of_nat k) in * by lia. apply IH; [assumption|lia|intros j J; apply D; lia].
Qed.

Lemma rd_newest l old k v : nth_error l k = Some v -> (k < length old)%nat -> rd (newest l old) (Z.of_nat k) = v.
Proof.
  intros E K. unfold rd, newest. replace (Z.of_nat k <? 0) with false by lia. rewrite Nat2Z.id, nth_firstn.
  replace (k <? length old)%nat with true by (symmetry; now apply Nat.ltb_lt). rewrite app_nth1 by (apply nth_error_Some; congruence).
  now apply nth_error_nth.
Qed.

(** The report [k] of a source, counted from the newest, is found by its middle
    32 bits when no newer one has the same, and the newest is not zero. *)
Lemma report_found sent s ssrc h k sec frac : sorted (sr_send_histories_ s) -> find ssrc (sr_send_histories_ s) = Some h ->
  zlen (last_send_report_ h) = RTCP_NUMBER_OF_SR * 2 -> zlen (last_rtcp_time_ h) = RTCP_NUMBER_OF_SR * 2 ->
  let name '(sec, frac) := middle sec frac in
  let l := of_source ssrc sent in
  nth_error l k = Some (sec, frac) -> (k < 60)%nat -> middle sec frac <> 0 -> map name (firstn 1 l) <> [0] ->
  ~ In (middle sec frac) (map name (firstn k l)) ->
  GetSendTimeOfSendReport (record sent s) (middle sec frac) ssrc = NtpTime.NtpToMs sec frac.
Proof.
  cbv zeta. intros Sm F L1 L2 K K60 NZ NF D. unfold GetSendTimeOfSendReport.
  destruct (histories_recorded sent s ssrc h Sm F L1 L2) as [_ ->]. set (l := of_source ssrc sent) in *.
  set (name := fun '(sec, frac) => middle sec frac) in *. set (tm := fun '(sec, frac) => NtpTime.NtpToMs sec frac).
  assert (LO : forall j, (j <= k)%nat -> (j < length (last_send_report_ h))%nat /\ (j < length (last_rtcp_time_ h))%nat)
    by (intros j J; unfold zlen, RTCP_NUMBER_OF_SR in *; lia).
  assert (At : forall j x, (j <= k)%nat -> nth_error l j = Some x ->
    rd (newest (map name l) (last_send_report_ h)) (Z.of_nat j) = name x /\
    rd (newest (map tm l) (last_rtcp_time_ h)) (Z.of_nat j) = tm x).
  { intros j x J E. destruct (LO j J). split; apply rd_newest; try assumption; now apply map_nth_error. }
  destruct l as [|x0 l0] eqn:EL; [destruct k; discriminate|]. rewrite <- EL in *.
  destruct (At O x0) as [A0 _]; [lia|now rewrite EL|]. cbn [last_send_report_]. change 0 with (Z.of_nat 0) at 1. rewrite A0.
  destruct (Z.eqb_spec (name x0) 0) as [E0|_]; [elim NF; rewrite EL; cbn; now rewrite E0|].
  destruct (Z.eqb_spec (middle sec frac) 0); [contradiction|]. cbn [orb].
  destruct (At k (sec, frac)) as [Ak Tk]; [lia|assumption|].
  rewrite (find_report_at (Z.to_nat RTCP_NUMBER_OF_SR) k 0); cbn [last_send_report_ last_rtcp_time_]; rewrite ?Z.add_0_l.
  - exact Tk.
  - exact Ak.
  - unfold RTCP_NUMBER_OF_SR. lia.
  - intros j J Ej. apply D. assert (exists x, nth_error l (Z.to_nat j) = Some x) as [x Ex].
    { destruct (nth_error l (Z.to_nat j)) eqn:N; [eauto|]. apply nth_error_None in N. assert (nth_error l k <> None) by congruence.
      apply nth_error_Some in H. lia. }
    destruct (At (Z.to_nat j) x) as [Aj _]; [lia|assumption|]. rewrite Z2Nat.id in Aj by lia. rewrite Aj in Ej.
    rewrite <- Ej. apply in_map. apply nth_error_In with (n := Z.to_nat j). rewrite nth_error_firstn.
    replace (Z.to_nat j <? k)%nat with true by (symmetry; apply Nat.ltb_lt; lia). exact Ex.
Qed.
(** The buffer of SendSDES is too small for its name: a header without a length
    and sixteen zero bytes are sent. *)
Example sdes_without_name :
  (let! l := SendSDES Nack.VIDEO_PACKET in Ok (map Nack.p_data l)) = Ok [[0x81; 202] ++ zeros 18].
Proof. reflexivity. Qed.
End RtcpReports.
