(* ===== verification/RtpExtensions.v ===== *)
(** * RTP headers with extensions

    Models, in src/orbit/webrtc/modules/rtp_rtcp/source, rtp_header_extension.cc
    with its header (the extensions that are registered and their numbers), the
    parts of rtp_sender.cc that write the header of a packet and change the
    extensions of one that is written, and rtp_utility.cc and
    rtp_header_parser.cc, which read it.  A buffer is a list and a pointer into
    it an offset; locks and logging are left out. *)

From S2P Require Import Prelude Wire OrderedMap.
Import Wire OrderedMap.

Module RtpExtensions.

(** ** rtp_header_extension.h and .cc *)

Inductive RTPExtensionType :=
  kRtpExtensionNone | kRtpExtensionTransmissionTimeOffset | kRtpExtensionAudioLevel |
  kRtpExtensionAbsoluteSendTime | kRtpExtensionVideoRotation | kRtpExtensionTransportSequenceNumber.

Definition type_eq_dec (a b : RTPExtensionType) : {a = b} + {a <> b}.
Proof. decide equality. Defined.
Definition type_eqb (a b : RTPExtensionType) : bool := if type_eq_dec a b then true else false.

Definition kRtpOneByteHeaderExtensionId : Z := 0xBEDE.
Definition kRtpOneByteHeaderLength : Z := 4.
Definition kTransmissionTimeOffsetLength : Z := 4.
Definition kAudioLevelLength : Z := 2.
Definition kAbsoluteSendTimeLength : Z := 4.
Definition kVideoRotationLength : Z := 2.
Definition kTransportSequenceNumberLength : Z := 3.

Record HeaderExtension := mk_extension {
  type : RTPExtensionType;
  length_ : Z;
  active : bool
}.
Definition new_HeaderExtension (t : RTPExtensionType) (active : bool) : HeaderExtension :=
  mk_extension t
    match t with
    | kRtpExtensionTransmissionTimeOffset => kTransmissionTimeOffsetLength
    | kRtpExtensionAudioLevel => kAudioLevelLength
    | kRtpExtensionAbsoluteSendTime => kAbsoluteSendTimeLength
    | kRtpExtensionVideoRotation => kVideoRotationLength
    | kRtpExtensionTransportSequenceNumber => kTransportSequenceNumberLength
    | kRtpExtensionNone => 0
    end active.
Definition set_active (e : HeaderExtension) (active : bool) : HeaderExtension :=
  mk_extension (type e) (length_ e) active.

Definition RtpHeaderExtensionMap : Type := map_t HeaderExtension.

Definition Register (m : RtpHeaderExtensionMap) (t : RTPExtensionType) (id : Z) (active : bool)
    : Z * RtpHeaderExtensionMap :=
  if (id <? 1) || (14 <? id) then (-1, m)
  else
    match find id m with
    | Some e => if type_eqb (type e) t then (0, store id (set_active e active) m) else (-1, m)
    | None => (0, store id (new_HeaderExtension t active) m)
    end.

Fixpoint SetActive (m : RtpHeaderExtensionMap) (t : RTPExtensionType) (active : bool) : bool * RtpHeaderExtensionMap :=
  match m with
  | [] => (false, [])
  | (id, e) :: m =>
      if type_eqb (type e) t then (true, (id, set_active e active) :: m)
      else let (r, m) := SetActive m t active in (r, (id, e) :: m)
  end.

Fixpoint GetId (m : RtpHeaderExtensionMap) (t : RTPExtensionType) : option Z :=
  match m with
  | [] => None
  | (id, e) :: m => if type_eqb (type e) t then Some id else GetId m t
  end.

Definition Deregister (m : RtpHeaderExtensionMap) (t : RTPExtensionType) : RtpHeaderExtensionMap :=
  match GetId m t with
  | None => m
  | Some id => erase id m
  end.

Definition IsRegistered (m : RtpHeaderExtensionMap) (t : RTPExtensionType) : bool :=
  existsb (fun '(_, e) => type_eqb (type e) t) m.

Definition GetType (m : RtpHeaderExtensionMap) (id : Z) : option RTPExtensionType := option_map type (find id m).

Definition Word32Align (size : Z) : Z :=
  let remainder := size mod 4 in
  if negb (remainder =? 0) then size + 4 - remainder else size.

Definition GetTotalLengthInBytes (m : RtpHeaderExtensionMap) : Z :=
  let length := fold_left (fun length '(_, e) => if active e then length + length_ e else length) m 0 in
  let length := if 0 <? length then length + kRtpOneByteHeaderLength else length in
  Word32Align length.

(** The loop from [m.begin()]: the length so far is 16-bit. *)
Fixpoint block_start (m : RtpHeaderExtensionMap) (t : RTPExtensionType) (length : Z) : Z :=
  match m with
  | [] => length
  | (_, e) :: m =>
      if type_eqb (type e) t then if negb (active e) then -1 else length
      else block_start m t (if active e then u16 (length + length_ e) else length)
  end.
Definition GetLengthUntilBlockStartInBytes (m : RtpHeaderExtensionMap) (t : RTPExtensionType) : Z :=
  match GetId m t with
  | None => -1
  | Some _ => block_start m t kRtpOneByteHeaderLength
  end.

Definition Size (m : RtpHeaderExtensionMap) : Z := zlen (filter (fun '(_, e) => active e) m).

Fixpoint First (m : RtpHeaderExtensionMap) : RTPExtensionType :=
  match m with
  | [] => kRtpExtensionNone
  | (_, e) :: m => if active e then type e else First m
  end.

(** The entries behind the one with number [id]. *)
Fixpoint behind (m : RtpHeaderExtensionMap) (id : Z) : RtpHeaderExtensionMap :=
  match m with
  | [] => []
  | (i, _) :: m => if i =? id then m else behind m id
  end.

Definition Next (m : RtpHeaderExtensionMap) (t : RTPExtensionType) : RTPExtensionType :=
  match GetId m t with
  | None => kRtpExtensionNone
  | Some id =>
      match find id m with
      | None => kRtpExtensionNone
      | Some e => if negb (active e) then kRtpExtensionNone else First (behind m id)
      end
  end.

Definition GetCopy (m map : RtpHeaderExtensionMap) : RtpHeaderExtensionMap :=
  fold_left (fun map '(id, e) => snd (Register map (type e) id (active e))) m map.

(** ** Writing: rtp_sender.cc *)

Definition kRtpHeaderLength : Z := 12.
Definition kRtpMarkerBitMask : Z := 0x80.

Inductive VideoRotation := kVideoRotation_0 | kVideoRotation_90 | kVideoRotation_180 | kVideoRotation_270.

Definition ConvertVideoRotationToCVOByte (rotation : VideoRotation) : Z :=
  match rotation with
  | kVideoRotation_0 => 0 | kVideoRotation_90 => 1 | kVideoRotation_180 => 2 | kVideoRotation_270 => 3
  end.

Definition ConvertCVOByteToVideoRotation (rotation : Z) : VideoRotation :=
  if rotation =? 0 then kVideoRotation_0
  else if rotation =? 1 then kVideoRotation_90
  else if rotation =? 2 then kVideoRotation_180
  else if rotation =? 3 then kVideoRotation_270
  else kVideoRotation_0.

Definition kAbsSendTimeFraction : Z := 18.
Definition ConvertMsTo24Bits (time_ms : Z) : Z :=
  Z.land (u32 (u64 (u64 (Z.shiftl (u64 time_ms) kAbsSendTimeFraction) + 500) / 1000)) 0x00FFFFFF.

(** The fields of RTPSender a header is made from. *)
Record RTPSender := mk_sender {
  rtp_header_extension_map_ : RtpHeaderExtensionMap;
  transmission_time_offset_ : Z;
  absolute_send_time_ : Z;
  rotation_ : VideoRotation;
  transport_sequence_number_ : Z;
  start_timestamp_ : Z;
  timestamp_ : Z;
  sequence_number_ : Z;
  ssrc_ : Z;
  csrcs_ : list Z;
  capture_time_ms_ : Z;
  last_timestamp_time_ms_ : Z;
  last_packet_marker_bit_ : bool
}.

Definition set_extensions (s : RTPSender) (m : RtpHeaderExtensionMap) (offset send_time : Z) (rotation : VideoRotation)
    (number : Z) : RTPSender :=
  mk_sender m offset send_time rotation number (start_timestamp_ s) (timestamp_ s) (sequence_number_ s) (ssrc_ s)
    (csrcs_ s) (capture_time_ms_ s) (last_timestamp_time_ms_ s) (last_packet_marker_bit_ s).

Definition SetTransmissionTimeOffset (s : RTPSender) (offset : Z) : Z * RTPSender :=
  if (0x800000 - 1 <? offset) || (offset <? - (0x800000 - 1)) then (-1, s)
  else (0, set_extensions s (rtp_header_extension_map_ s) offset (absolute_send_time_ s) (rotation_ s) (transport_sequence_number_ s)).

Definition SetAbsoluteSendTime (s : RTPSender) (time : Z) : Z * RTPSender :=
  if 0xffffff <? time then (-1, s)
  else (0, set_extensions s (rtp_header_extension_map_ s) (transmission_time_offset_ s) time (rotation_ s) (transport_sequence_number_ s)).

Definition SetVideoRotation (s : RTPSender) (rotation : VideoRotation) : RTPSender :=
  set_extensions s (rtp_header_extension_map_ s) (transmission_time_offset_ s) (absolute_send_time_ s) rotation (transport_sequence_number_ s).

Definition SetTransportSequenceNumber (s : RTPSender) (number : Z) : RTPSender :=
  set_extensions s (rtp_header_extension_map_ s) (transmission_time_offset_ s) (absolute_send_time_ s) (rotation_ s) number.

(** The rotation starts inactive; [cvo_mode_], which no header depends on, is
    left out. *)
Definition RegisterRtpHeaderExtension (s : RTPSender) (t : RTPExtensionType) (id : Z) : Z * RTPSender :=
  let (r, m) := Register (rtp_header_extension_map_ s) t id (negb (type_eqb t kRtpExtensionVideoRotation)) in
  (r, set_extensions s m (transmission_time_offset_ s) (absolute_send_time_ s) (rotation_ s) (transport_sequence_number_ s)).

(** ByteWriter<T, 3>::WriteBigEndian. *)
Definition write24 (p : list Z) (o v : Z) : res (list Z) :=
  let! p := set8 p o (Z.shiftr v 16) in
  let! p := set8 p (o + 1) (Z.shiftr v 8) in
  set8 p (o + 2) v.

(** The first byte of an element: its number and its length less one. *)
Definition element_head (id len : Z) : Z := u8 (Z.shiftl id 4 + len).

Definition BuildTransmissionTimeOffsetExtension (s : RTPSender) (p : list Z) (o : Z) : res (list Z * Z) :=
  match GetId (rtp_header_extension_map_ s) kRtpExtensionTransmissionTimeOffset with
  | None => Ok (p, 0)
  | Some id =>
      let! p := set8 p o (element_head id 2) in
      let! p := write24 p (o + 1) (transmission_time_offset_ s) in
      Ok (p, kTransmissionTimeOffsetLength)
  end.

Definition BuildAudioLevelExtension (s : RTPSender) (p : list Z) (o : Z) : res (list Z * Z) :=
  match GetId (rtp_header_extension_map_ s) kRtpExtensionAudioLevel with
  | None => Ok (p, 0)
  | Some id =>
      let! p := set8 p o (element_head id 0) in
      let! p := set8 p (o + 1) (Z.shiftl 1 7 + 0) in
      Ok (p, kAudioLevelLength)
  end.

Definition BuildAbsoluteSendTimeExtension (s : RTPSender) (p : list Z) (o : Z) : res (list Z * Z) :=
  match GetId (rtp_header_extension_map_ s) kRtpExtensionAbsoluteSendTime with
  | None => Ok (p, 0)
  | Some id =>
      let! p := set8 p o (element_head id 2) in
      let! p := write24 p (o + 1) (absolute_send_time_ s) in
      Ok (p, kAbsoluteSendTimeLength)
  end.

Definition BuildVideoRotationExtension (s : RTPSender) (p : list Z) (o : Z) : res (list Z * Z) :=
  match GetId (rtp_header_extension_map_ s) kRtpExtensionVideoRotation with
  | None => Ok (p, 0)
  | Some id =>
      let! p := set8 p o (element_head id 0) in
      let! p := set8 p (o + 1) (ConvertVideoRotationToCVOByte (rotation_ s)) in
      Ok (p, kVideoRotationLength)
  end.

Definition BuildTransportSequenceNumberExtension (s : RTPSender) (p : list Z) (o sequence_number : Z) : res (list Z * Z) :=
  match GetId (rtp_header_extension_map_ s) kRtpExtensionTransportSequenceNumber with
  | None => Ok (p, 0)
  | Some id =>
      let! p := set8 p o (element_head id 1) in
      let! p := set16 p (o + 1) sequence_number in
      Ok (p, kTransportSequenceNumberLength)
  end.

(** The switch on the type of an element. *)
Definition BuildElement (s : RTPSender) (p : list Z) (o : Z) (t : RTPExtensionType) : res (list Z * Z) :=
  match t with
  | kRtpExtensionTransmissionTimeOffset => BuildTransmissionTimeOffsetExtension s p o
  | kRtpExtensionAudioLevel => BuildAudioLevelExtension s p o
  | kRtpExtensionAbsoluteSendTime => BuildAbsoluteSendTimeExtension s p o
  | kRtpExtensionVideoRotation => BuildVideoRotationExtension s p o
  | kRtpExtensionTransportSequenceNumber => BuildTransportSequenceNumberExtension s p o (transport_sequence_number_ s)
  | kRtpExtensionNone => Ok (p, 0)
  end.

(** The loop over the types: [o] is where the elements start, [total] the
    bytes of those written. *)
Fixpoint BuildElements (fuel : nat) (s : RTPSender) (p : list Z) (o total : Z) (t : RTPExtensionType) : res (list Z * Z) :=
  match t with
  | kRtpExtensionNone => Ok (p, total)
  | _ =>
      match fuel with
      | O => NoFuel
      | S fuel =>
          let! (p, block_length) := BuildElement s p (o + total) t in
          BuildElements fuel s p o (u16 (total + block_length)) (Next (rtp_header_extension_map_ s) t)
      end
  end.

(** [memset(p + o, 0, n)]. *)
Fixpoint clear (n : nat) (p : list Z) (o : Z) : res (list Z) :=
  match n with
  | O => Ok p
  | S n => let! p := set8 p o 0 in clear n p (o + 1)
  end.

(** One round for each registered extension is enough when no type is
    registered under two numbers. *)
Definition elements_fuel (m : RtpHeaderExtensionMap) : nat := S (length m).

Definition BuildRTPHeaderExtension (s : RTPSender) (p : list Z) (o : Z) : res (list Z * Z) :=
  let m := rtp_header_extension_map_ s in
  if Size m <=? 0 then Ok (p, 0)
  else
    let! p := set16 p o kRtpOneByteHeaderExtensionId in
    let! (p, total) := BuildElements (elements_fuel m) s p (o + kRtpOneByteHeaderLength) 0 (First m) in
    if total =? 0 then Ok (p, 0)
    else
      let padding_bytes := Word32Align total - total in
      let! p := clear (Z.to_nat padding_bytes) p (o + kRtpOneByteHeaderLength + total) in
      let total := u16 (total + padding_bytes) in
      let! p := set16 p (o + 2) (total / 4) in
      Ok (p, u16 (kRtpOneByteHeaderLength + total)).

Fixpoint write_csrcs (p : list Z) (o : Z) (csrcs : list Z) : res (list Z) :=
  match csrcs with
  | [] => Ok p
  | c :: csrcs => let! p := set32 p o c in write_csrcs p (o + 4) csrcs
  end.

Definition CreateRtpHeader (s : RTPSender) (header : list Z) (payload_type ssrc : Z) (marker_bit : bool)
    (timestamp sequence_number : Z) (csrcs : list Z) : res (list Z * Z) :=
  let! p := set8 header 0 0x80 in
  let! p := set8 p 1 payload_type in
  let! p := if marker_bit then let! b := byte p 1 in set8 p 1 (Z.lor b kRtpMarkerBitMask) else Ok p in
  let! p := set16 p 2 sequence_number in
  let! p := set32 p 4 timestamp in
  let! p := set32 p 8 ssrc in
  let rtp_header_length := kRtpHeaderLength in
  let! (p, rtp_header_length) :=
    match csrcs with
    | [] => Ok (p, rtp_header_length)
    | _ =>
        let! p := write_csrcs p rtp_header_length csrcs in
        let! b := byte p 0 in
        let! p := set8 p 0 (Z.lor (Z.land b 0xf0) (zlen csrcs)) in
        Ok (p, rtp_header_length + 4 * zlen csrcs)
    end in
  let! (p, len) := BuildRTPHeaderExtension s p rtp_header_length in
  if 0 <? len then
    let! b := byte p 0 in
    let! p := set8 p 0 (Z.lor b 0x10) in
    Ok (p, rtp_header_length + len)
  else Ok (p, rtp_header_length).

(** [now_ms] is the time of the clock. *)
Definition BuildRTPheader (now_ms : Z) (s : RTPSender) (data_buffer : list Z) (payload_type : Z) (marker_bit : bool)
    (capture_timestamp capture_time_ms : Z) (timestamp_provided : bool) : res (list Z * Z * RTPSender) :=
  let timestamp := if timestamp_provided then u32 (start_timestamp_ s + capture_timestamp) else u32 (timestamp_ s + 1) in
  let! (p, n) := CreateRtpHeader s data_buffer payload_type (ssrc_ s) marker_bit timestamp (sequence_number_ s) (csrcs_ s) in
  Ok (p, n,
      mk_sender (rtp_header_extension_map_ s) (transmission_time_offset_ s) (absolute_send_time_ s) (rotation_ s)
        (transport_sequence_number_ s) (start_timestamp_ s) timestamp (u16 (sequence_number_ s + 1)) (ssrc_ s) (csrcs_ s)
        capture_time_ms now_ms marker_bit).

(** ** Reading: rtp_utility.cc and rtp_header_parser.cc *)

Record RTPHeaderExtension := mk_ext {
  hasTransmissionTimeOffset : bool;
  transmissionTimeOffset : Z;
  hasAbsoluteSendTime : bool;
  absoluteSendTime : Z;
  hasTransportSequenceNumber : bool;
  transportSequenceNumber : Z;
  hasAudioLevel : bool;
  voiceActivity : bool;
  audioLevel : Z;
  hasVideoRotation : bool;
  videoRotation : Z
}.
Definition no_extension : RTPHeaderExtension := mk_ext false 0 false 0 false 0 false false 0 false 0.

Record RTPHeader := mk_header {
  markerBit : bool;
  payloadType : Z;
  sequenceNumber : Z;
  timestamp : Z;
  ssrc : Z;
  numCSRCs : Z;
  arrOfCSRCs : list Z;
  paddingLength : Z;
  headerLength : Z;
  payload_type_frequency : Z;
  extension : RTPHeaderExtension
}.
Definition kRtpCsrcSize : Z := 15.
(** What [memset] leaves. *)
Definition zero_header : RTPHeader := mk_header false 0 0 0 0 0 (zeros kRtpCsrcSize) 0 0 0 no_extension.

Definition set_header_end (h : RTPHeader) (length : Z) (e : RTPHeaderExtension) : RTPHeader :=
  mk_header (markerBit h) (payloadType h) (sequenceNumber h) (timestamp h) (ssrc h) (numCSRCs h) (arrOfCSRCs h)
    (paddingLength h) length (payload_type_frequency h) e.

(** ByteReader<int32_t, 3>. *)
Definition s24 (x : Z) : Z := if x <? 0x800000 then x else x - 0x1000000.

Definition read24 (p : list Z) (o : Z) : res Z :=
  let! a := byte p o in
  let! b := be16 p (o + 1) in
  Ok (a * 65536 + b).

(** What an element of a registered type does: nothing when its length is
    wrong, which ends the parsing. *)
Definition ParseElement (p : list Z) (ptr len : Z) (t : RTPExtensionType) (e : RTPHeaderExtension)
    : res (option RTPHeaderExtension) :=
  match t with
  | kRtpExtensionTransmissionTimeOffset =>
      if negb (len =? 2) then Ok None
      else
        let! v := read24 p ptr in
        Ok (Some (mk_ext true (s24 v) (hasAbsoluteSendTime e) (absoluteSendTime e) (hasTransportSequenceNumber e)
          (transportSequenceNumber e) (hasAudioLevel e) (voiceActivity e) (audioLevel e) (hasVideoRotation e) (videoRotation e)))
  | kRtpExtensionAudioLevel =>
      if negb (len =? 0) then Ok None
      else
        let! b := byte p ptr in
        Ok (Some (mk_ext (hasTransmissionTimeOffset e) (transmissionTimeOffset e) (hasAbsoluteSendTime e) (absoluteSendTime e)
          (hasTransportSequenceNumber e) (transportSequenceNumber e) true (negb (Z.land b 0x80 =? 0)) (Z.land b 0x7f)
          (hasVideoRotation e) (videoRotation e)))
  | kRtpExtensionAbsoluteSendTime =>
      if negb (len =? 2) then Ok None
      else
        let! v := read24 p ptr in
        Ok (Some (mk_ext (hasTransmissionTimeOffset e) (transmissionTimeOffset e) true v (hasTransportSequenceNumber e)
          (transportSequenceNumber e) (hasAudioLevel e) (voiceActivity e) (audioLevel e) (hasVideoRotation e) (videoRotation e)))
  | kRtpExtensionVideoRotation =>
      if negb (len =? 0) then Ok None
      else
        let! b := byte p ptr in
        Ok (Some (mk_ext (hasTransmissionTimeOffset e) (transmissionTimeOffset e) (hasAbsoluteSendTime e) (absoluteSendTime e)
          (hasTransportSequenceNumber e) (transportSequenceNumber e) (hasAudioLevel e) (voiceActivity e) (audioLevel e) true b))
  | kRtpExtensionTransportSequenceNumber =>
      if negb (len =? 1) then Ok None
      else
        let! v := be16 p ptr in
        Ok (Some (mk_ext (hasTransmissionTimeOffset e) (transmissionTimeOffset e) (hasAbsoluteSendTime e) (absoluteSendTime e)
          true v (hasAudioLevel e) (voiceActivity e) (audioLevel e) (hasVideoRotation e) (videoRotation e)))
  | kRtpExtensionNone => Ok None
  end.

(** The number of zero bytes is 8-bit; [n] is the distance to the end. *)
Fixpoint ParsePaddingBytes (n : nat) (p : list Z) (ptr num_zero_bytes : Z) : res Z :=
  match n with
  | O => Ok num_zero_bytes
  | S n =>
      let! b := byte p ptr in
      if negb (b =? 0) then Ok num_zero_bytes
      else ParsePaddingBytes n p (ptr + 1) (u8 (num_zero_bytes + 1))
  end.

(** Each round takes at least one byte, so that a round for each byte of the
    block, and one to see its end, are enough. *)
Fixpoint ParseOneByteExtensionHeader (fuel : nat) (m : RtpHeaderExtensionMap) (p : list Z) (stop ptr : Z)
    (e : RTPHeaderExtension) : res RTPHeaderExtension :=
  if stop - ptr <=? 0 then Ok e
  else
    match fuel with
    | O => NoFuel
    | S fuel =>
        let! b := byte p ptr in
        let id := Z.shiftr (Z.land b 0xf0) 4 in
        let len := Z.land b 0x0f in
        let ptr := ptr + 1 in
        if id =? 15 then Ok e
        else
          let! r :=
            match GetType m id with
            | None => Ok (Some e)
            | Some t => ParseElement p ptr len t e
            end in
          match r with
          | None => Ok e
          | Some e =>
              let ptr := ptr + (len + 1) in
              let! num_bytes := ParsePaddingBytes (Z.to_nat (stop - ptr)) p ptr 0 in
              ParseOneByteExtensionHeader fuel m p stop (ptr + num_bytes) e
          end
    end.

(** [arrOfCSRCs[i] = ...] for [i] below [n]. *)
Fixpoint read_csrcs (n : nat) (p : list Z) (ptr i : Z) (a : list Z) : res (list Z) :=
  match n with
  | O => Ok a
  | S n => let! c := be32 p ptr in read_csrcs n p (ptr + 4) (i + 1) (wr a i c)
  end.

(** RtpUtility::RtpHeaderParser::Parse of the [length] bytes at the front of
    the memory [p], with a map of extensions: the answer, and the header as it
    was filled. *)
Definition Parse (p : list Z) (length : Z) (m : RtpHeaderExtensionMap) (h : RTPHeader) : res (bool * RTPHeader) :=
  if length <? 12 then Ok (false, h)
  else
    let! b0 := byte p 0 in
    let V := Z.shiftr b0 6 in
    let P := negb (Z.land b0 0x20 =? 0) in
    let X := negb (Z.land b0 0x10 =? 0) in
    let CC := Z.land b0 0x0f in
    let! b1 := byte p 1 in
    let M := negb (Z.land b1 0x80 =? 0) in
    let PT := Z.land b1 0x7f in
    let! sequence := be16 p 2 in
    let! RTPTimestamp := be32 p 4 in
    let! SSRC := be32 p 8 in
    if negb (V =? 2) then Ok (false, h)
    else
      let CSRCocts := CC * 4 in
      if length <? 12 + CSRCocts then Ok (false, h)
      else
        let! padding := if P then byte p (length - 1) else Ok 0 in
        let! csrcs := read_csrcs (Z.to_nat CC) p 12 0 (arrOfCSRCs h) in
        let ptr := 12 + CSRCocts in
        let e0 := mk_ext false 0 false 0 (hasTransportSequenceNumber (extension h)) (transportSequenceNumber (extension h))
                    false false 0 false 0 in
        let h := mk_header M PT sequence RTPTimestamp SSRC CC csrcs padding ptr (payload_type_frequency h) e0 in
        let finish (h : RTPHeader) := negb (length <? headerLength h + paddingLength h) in
        if X then
          let remain := length - ptr in
          if remain <? 4 then Ok (false, h)
          else
            let h := set_header_end h (ptr + 4) e0 in
            let! definedByProfile := be16 p ptr in
            let! XLen := be16 p (ptr + 2) in
            let XLen := XLen * 4 in
            let ptr := ptr + 4 in
            if remain <? 4 + XLen then Ok (false, h)
            else
              let! e :=
                if definedByProfile =? kRtpOneByteHeaderExtensionId then
                  ParseOneByteExtensionHeader (Z.to_nat XLen) m p (ptr + XLen) ptr e0
                else Ok e0 in
              let h := set_header_end h (ptr + XLen) e in
              Ok (finish h, h)
        else Ok (finish h, h).

(** RtpHeaderParserImpl::Parse; [registered] is the map of the parser. *)
Definition RtpHeaderParserImpl_Parse (registered : RtpHeaderExtensionMap) (p : list Z) (length : Z) : res (bool * RTPHeader) :=
  Parse p length (GetCopy registered []) zero_header.

Definition RTCP (p : list Z) (length : Z) : res bool :=
  if length <? 4 then Ok false
  else
    let! b0 := byte p 0 in
    if negb (Z.shiftr b0 6 =? 2) then Ok false
    else
      let! payloadType := byte p 1 in
      Ok ((payloadType =? 192) || (payloadType =? 195) || ((200 <=? payloadType) && (payloadType <=? 207))).

Definition ParseRtcp (p : list Z) (length : Z) (h : RTPHeader) : res (bool * RTPHeader) :=
  if length <? 8 then Ok (false, h)
  else
    let! b0 := byte p 0 in
    if negb (Z.shiftr b0 6 =? 2) then Ok (false, h)
    else
      let! PT := byte p 1 in
      let! len := be16 p 2 in
      let! SSRC := be32 p 4 in
      Ok (true, mk_header (markerBit h) PT (sequenceNumber h) (timestamp h) SSRC (numCSRCs h) (arrOfCSRCs h) (paddingLength h)
                  (4 + Z.shiftl len 2) (payload_type_frequency h) (extension h)).

(** ** Changing the extensions of a written packet: rtp_sender.cc *)

(** The number of CSRCs is added to the length, not their bytes. *)
Definition FindHeaderExtensionPosition (s : RTPSender) (t : RTPExtensionType) (p : list Z) (rtp_packet_length : Z)
    (h : RTPHeader) : res (option Z) :=
  let extension_block_pos := GetLengthUntilBlockStartInBytes (rtp_header_extension_map_ s) t in
  if extension_block_pos <? 0 then Ok None
  else
    let n := length_ (new_HeaderExtension t true) in
    let block_pos := kRtpHeaderLength + numCSRCs h + extension_block_pos in
    if (rtp_packet_length <? block_pos + n) || (headerLength h <? block_pos + n) then Ok None
    else
      let! b := byte p (kRtpHeaderLength + numCSRCs h) in
      if negb (b =? 0xBE) then Ok None
      else
        let! b := byte p (kRtpHeaderLength + numCSRCs h + 1) in
        if negb (b =? 0xDE) then Ok None else Ok (Some block_pos).

Inductive ExtensionStatus := kNotRegistered | kOk (extension_offset : Z) | kError.

Definition VerifyExtension (s : RTPSender) (t : RTPExtensionType) (p : list Z) (rtp_packet_length : Z) (h : RTPHeader)
    (extension_length_bytes : Z) : res ExtensionStatus :=
  match GetId (rtp_header_extension_map_ s) t with
  | None => Ok kNotRegistered
  | Some id =>
      let! pos := FindHeaderExtensionPosition s t p rtp_packet_length h in
      match pos with
      | None => Ok kError
      | Some block_pos =>
          let! b := byte p (kRtpHeaderLength + numCSRCs h) in
          let! b' := byte p (kRtpHeaderLength + numCSRCs h + 1) in
          if negb ((b =? 0xBE) && (b' =? 0xDE)) then Ok kError
          else
            let! first := byte p block_pos in
            if negb (first =? element_head id (extension_length_bytes - 2)) then Ok kError else Ok (kOk block_pos)
      end
  end.

Definition UpdateTransmissionTimeOffset (s : RTPSender) (p : list Z) (rtp_packet_length : Z) (h : RTPHeader)
    (time_diff_ms : Z) : res (list Z) :=
  let! st := VerifyExtension s kRtpExtensionTransmissionTimeOffset p rtp_packet_length h kTransmissionTimeOffsetLength in
  match st with
  | kOk offset => write24 p (offset + 1) (time_diff_ms * 90)
  | _ => Ok p
  end.

Definition UpdateAudioLevel (s : RTPSender) (p : list Z) (rtp_packet_length : Z) (h : RTPHeader) (is_voiced : bool)
    (dBov : Z) : res (bool * list Z) :=
  let! st := VerifyExtension s kRtpExtensionAudioLevel p rtp_packet_length h kAudioLevelLength in
  match st with
  | kOk offset => let! p := set8 p (offset + 1) ((if is_voiced then 0x80 else 0x00) + Z.land dBov 0x7f) in Ok (true, p)
  | _ => Ok (false, p)
  end.

Definition UpdateVideoRotation (s : RTPSender) (p : list Z) (rtp_packet_length : Z) (h : RTPHeader)
    (rotation : VideoRotation) : res (bool * list Z) :=
  let! st := VerifyExtension s kRtpExtensionVideoRotation p rtp_packet_length h kVideoRotationLength in
  match st with
  | kOk offset => let! p := set8 p (offset + 1) (ConvertVideoRotationToCVOByte rotation) in Ok (true, p)
  | _ => Ok (false, p)
  end.

Definition UpdateAbsoluteSendTime (s : RTPSender) (p : list Z) (rtp_packet_length : Z) (h : RTPHeader) (now_ms : Z)
    : res (list Z) :=
  let! st := VerifyExtension s kRtpExtensionAbsoluteSendTime p rtp_packet_length h kAbsoluteSendTimeLength in
  match st with
  | kOk offset => write24 p (offset + 1) (ConvertMsTo24Bits now_ms)
  | _ => Ok p
  end.

(** [seq] is what the allocator answers. *)
Definition UpdateTransportSequenceNumber (seq : Z) (s : RTPSender) (p : list Z) (rtp_packet_length : Z) (h : RTPHeader)
    : res (Z * list Z) :=
  let! st := VerifyExtension s kRtpExtensionTransportSequenceNumber p rtp_packet_length h kTransportSequenceNumberLength in
  match st with
  | kOk offset => let! (p, _) := BuildTransportSequenceNumberExtension s p offset seq in Ok (seq, p)
  | _ => Ok (0, p)
  end.
End RtpExtensions.
