(* ===== verification/RtpExtensionsFacts.v ===== *)
(** * RTP headers with extensions: what is written is read

    The registered extensions of a well-formed map, the bytes of a header, what
    the parser reads from them, and the memory the parser reads on any bytes. *)

From Stdlib Require Import Sorted.
From S2P Require Import Prelude Wire OrderedMap RtpExtensions.
Import Wire OrderedMap RtpExtensions.

Module RtpExtensionsFacts.

(** ** The registered extensions *)

Lemma type_eqb_spec a b : reflect (a = b) (type_eqb a b).
Proof. unfold type_eqb. destruct (type_eq_dec a b); now constructor. Qed.
Lemma type_eqb_refl a : type_eqb a a = true.
Proof. now destruct (type_eqb_spec a a). Qed.

Definition entry_ok (e : Z * HeaderExtension) : Prop :=
  1 <= fst e <= 14 /\ type (snd e) <> kRtpExtensionNone /\
  length_ (snd e) = length_ (new_HeaderExtension (type (snd e)) true).
Definition types (m : RtpHeaderExtensionMap) : list RTPExtensionType := map (fun e => type (snd e)) m.

(** Numbers from 1 to 14 with their types, each type once. *)
Record registry (m : RtpHeaderExtensionMap) : Prop := {
  registry_sorted : sorted m;
  registry_entries : Forall entry_ok m;
  registry_types : NoDup (types m)
}.

Definition actives (m : RtpHeaderExtensionMap) : RtpHeaderExtensionMap := filter (fun '(_, e) => active e) m.

Lemma store_Forall {V} (P : Z * V -> Prop) k v (m : map_t V) : P (k, v) -> Forall P m -> (forall w, P (k, w) -> P (k, v)) ->
  Forall P (store k v m).
Proof.
  intros Hp H E. induction H as [|[i w] m H F IH]; cbn [store]; [now repeat constructor|].
  destruct (k <? i); [now repeat constructor|]. destruct (Z.eqb_spec k i) as [->|]; constructor; auto.
Qed.

(** Registering keeps the numbers and the types in order; a type gets a second
    number only if it is registered again under another one. *)
Lemma Register_entries m t id a : sorted m -> Forall entry_ok m -> t <> kRtpExtensionNone ->
  sorted (snd (Register m t id a)) /\ Forall entry_ok (snd (Register m t id a)).
Proof.
  intros Sm F T. unfold Register.
  destruct (Z.ltb_spec id 1); [now split|]. destruct (Z.ltb_spec 14 id); [now split|]. cbn [orb].
  destruct (find id m) as [e|] eqn:E.
  - destruct (type_eqb_spec (type e) t) as [<-|]; [|now split]. split; [now apply store_sorted|].
    apply find_in in E; [|assumption]. assert (O := proj1 (Forall_forall _ _) F _ E).
    apply store_Forall; [|assumption|now intros]. unfold entry_ok in *. cbn in *. tauto.
  - split; [now apply store_sorted|]. apply store_Forall; [|assumption|now intros].
    unfold entry_ok; cbn. split; [lia|]. split; [assumption|]. now destruct t.
Qed.

Lemma store_types_new k (v : HeaderExtension) m t : In t (types (store k v m)) -> t = type v \/ In t (types m).
Proof.
  unfold types. induction m as [|[i w] m IH]; cbn [store map In snd]; [intuition|].
  destruct (k <? i); [cbn; intuition|]. destruct (k =? i); cbn; intuition.
Qed.

Lemma Register_registry m t id a : registry m -> t <> kRtpExtensionNone -> find id m <> None \/ ~ In t (types m) ->
  registry (snd (Register m t id a)).
Proof.
  intros [Sm F N] T H. destruct (Register_entries m t id a Sm F T) as [S' F']. constructor; [assumption..|].
  unfold Register in *. destruct ((id <? 1) || (14 <? id)) eqn:B; [assumption|].
  destruct (find id m) as [e|] eqn:E.
  - destruct (type_eqb_spec (type e) t) as [<-|]; [|assumption]. cbn [snd] in *. clear S' F' H F.
    replace (types (store id (set_active e a) m)) with (types m); [assumption|].
    unfold types. clear N. induction m as [|[i w] m IH]; [discriminate|]. cbn [find] in E. cbn [store].
    destruct (Z.eqb_spec id i) as [->|].
    + injection E as ->. rewrite Z.ltb_irrefl. reflexivity.
    + destruct (Z.ltb_spec id i).
      * exfalso. apply tail_sorted in Sm as Sm'. assert (In id (map fst m)) by (apply find_some; eauto).
        unfold sorted in Sm. cbn in Sm. inversion Sm as [|? ? _ L]; subst. rewrite Forall_forall in L.
        specialize (L id H0). lia.
      * cbn [map]. f_equal. apply IH; [now apply tail_sorted in Sm|assumption].
  - destruct H as [H|H]; [now elim H|]. cbn [snd] in *. clear S' F' F Sm.
    assert (T' : type (new_HeaderExtension t a) = t) by now destruct t.
    induction m as [|[i w] m IH]; cbn [store find] in *; [cbn; repeat constructor; intuition|].
    destruct (id =? i); [discriminate|]. unfold types in *. cbn [map snd In] in *.
    destruct (id <? i); cbn [map snd].
    + constructor; [cbn; rewrite ?T'; intuition|assumption].
    + inversion N as [|? ? Nw Nm]; subst. constructor; [|apply IH; intuition].
      intros I. apply store_types_new in I. rewrite T' in I. intuition congruence.
Qed.

(** ** The iteration over the types *)

Lemma GetId_mid (l1 l2 : RtpHeaderExtensionMap) id e : NoDup (types (l1 ++ (id, e) :: l2)) ->
  GetId (l1 ++ (id, e) :: l2) (type e) = Some id.
Proof.
  induction l1 as [|[i w] l1 IH]; cbn [app GetId types map snd]; intros N; [now rewrite type_eqb_refl|].
  inversion N as [|? ? A B]; subst. destruct (type_eqb_spec (type w) (type e)) as [E|]; [|now apply IH].
  elim A. rewrite E. unfold types. rewrite map_app. apply in_or_app. right. now left.
Qed.

Lemma find_app_mid {V} (l1 l2 : map_t V) id e : sorted (l1 ++ (id, e) :: l2) -> find id (l1 ++ (id, e) :: l2) = Some e.
Proof. intros Sm. apply find_in; [assumption|]. apply in_or_app. right. now left. Qed.

Lemma behind_mid (l1 l2 : RtpHeaderExtensionMap) id e : sorted (l1 ++ (id, e) :: l2) -> behind (l1 ++ (id, e) :: l2) id = l2.
Proof.
  unfold sorted. induction l1 as [|[i w] l1 IH]; cbn [app behind map fst]; intros Sm; [now rewrite Z.eqb_refl|].
  inversion Sm as [|? ? A B]; subst. destruct (Z.eqb_spec i id) as [->|]; [|now apply IH].
  exfalso. rewrite map_app, Forall_app in B. destruct B as [_ B]. inversion B; subst. cbn in *. lia.
Qed.

Lemma Next_mid (l1 l2 : RtpHeaderExtensionMap) id e : registry (l1 ++ (id, e) :: l2) -> active e = true ->
  Next (l1 ++ (id, e) :: l2) (type e) = First l2.
Proof.
  intros [Sm _ N] A. unfold Next. rewrite GetId_mid, find_app_mid, A, behind_mid by assumption. reflexivity.
Qed.

(** ** Writing at the end of what is written *)

(** [f] writes [bs] where it is pointed to. *)
Definition fills (f : list Z -> Z -> res (list Z)) (bs : list Z) : Prop :=
  forall pre post, zlen bs <= zlen post -> f (pre ++ post) (zlen pre) = Ok (pre ++ bs ++ skipn (length bs) post).

Lemma fills_set8 v : fills (fun p o => set8 p o v) [u8 v].
Proof.
  intros pre [|x post] L; [exfalso; unfold zlen in L; cbn in L; lia|]. now rewrite set8_at.
Qed.

Lemma fills_seq f g a b : fills f a -> fills g b -> fills (fun p o => let! p := f p o in g p (o + zlen a)) (a ++ b).
Proof.
  intros F G pre post L. rewrite zlen_app in L. pose proof (zlen_nonneg b). rewrite F by lia. cbn [bind].
  rewrite app_assoc. replace (zlen pre + zlen a) with (zlen (pre ++ a)) by (rewrite zlen_app; reflexivity).
  rewrite G by (unfold zlen in *; rewrite length_skipn; lia).
  rewrite <- !app_assoc, skipn_skipn, length_app. do 3 f_equal. now rewrite Nat.add_comm.
Qed.

Lemma fills_ext f g bs : (forall p o, f p o = g p o) -> fills f bs -> fills g bs.
Proof. intros E F pre post L. now rewrite <- E, F. Qed.

Lemma fills_nil : fills (fun p _ => Ok p) [].
Proof. intros pre post _. reflexivity. Qed.

Definition be2 (v : Z) : list Z := [u8 (Z.shiftr v 8); u8 v].
Definition be3 (v : Z) : list Z := [u8 (Z.shiftr v 16); u8 (Z.shiftr v 8); u8 v].
Definition be4 (v : Z) : list Z := be2 (Z.shiftr v 16) ++ be2 v.

Lemma fills_cons v g b : fills g b -> fills (fun p o => let! p := set8 p o v in g p (o + 1)) (u8 v :: b).
Proof. exact (fills_seq _ g [u8 v] b (fills_set8 v)). Qed.
Lemma fills_set16 v : fills (fun p o => set16 p o v) (be2 v).
Proof. exact (fills_cons _ (fun p o => set8 p o v) _ (fills_set8 v)). Qed.
Lemma fills_set32 v : fills (fun p o => set32 p o v) (be4 v).
Proof. exact (fills_seq _ (fun p o => set16 p o v) (be2 (Z.shiftr v 16)) _ (fills_set16 _) (fills_set16 v)). Qed.
Lemma fills_write24 v : fills (fun p o => write24 p o v) (be3 v).
Proof.
  apply (fills_ext (fun p o => let! p := set8 p o (Z.shiftr v 16) in set16 p (o + 1) v)).
  - intros p o. unfold write24, set16. replace (o + 1 + 1) with (o + 2) by lia. reflexivity.
  - exact (fills_cons _ (fun p o => set16 p o v) _ (fills_set16 v)).
Qed.

Lemma fills_clear n : fills (clear n) (repeat 0 n).
Proof.
  induction n as [|n IH]; [exact fills_nil|].
  exact (fills_cons 0 (clear n) _ IH).
Qed.

Lemma fills_csrcs l : fills (fun p o => write_csrcs p o l) (concat (map be4 l)).
Proof.
  induction l as [|c l IH]; [exact fills_nil|]. cbn [map concat].
  exact (fills_seq _ (fun p o => write_csrcs p o l) (be4 c) _ (fills_set32 c) IH).
Qed.

(** ** The elements *)

(** The bytes of the element of an extension. *)
Definition element (s : RTPSender) (e : Z * HeaderExtension) : list Z :=
  let id := fst e in
  match type (snd e) with
  | kRtpExtensionTransmissionTimeOffset => element_head id 2 :: be3 (transmission_time_offset_ s)
  | kRtpExtensionAudioLevel => [element_head id 0; 128]
  | kRtpExtensionAbsoluteSendTime => element_head id 2 :: be3 (absolute_send_time_ s)
  | kRtpExtensionVideoRotation => [element_head id 0; ConvertVideoRotationToCVOByte (rotation_ s)]
  | kRtpExtensionTransportSequenceNumber => element_head id 1 :: be2 (transport_sequence_number_ s)
  | kRtpExtensionNone => []
  end.
Definition elements (s : RTPSender) (m : RtpHeaderExtensionMap) : list Z := concat (map (element s) (actives m)).

Lemma u8_head id len : u8 (element_head id len) = element_head id len.
Proof. apply u8_id, u8_range. Qed.

Lemma zlen_element s e : entry_ok e -> zlen (element s e) = length_ (snd e) /\ 1 <= length_ (snd e) <= 4.
Proof.
  intros (_ & T & ->). unfold element. destruct (type (snd e)); try congruence; (split; [reflexivity|vm_compute; split; congruence]).
Qed.

Lemma element_fills id n g b (k : Z) : fills g b -> forall pre post, zlen (element_head id n :: b) <= zlen post ->
  (let! p := set8 (pre ++ post) (zlen pre) (element_head id n) in let! p := g p (zlen pre + 1) in Ok (p, k)) =
  Ok (pre ++ (element_head id n :: b) ++ skipn (length (element_head id n :: b)) post, k).
Proof.
  intros G pre post L. pose proof (fills_cons (element_head id n) g b G pre post) as F. cbn beta in F. rewrite u8_head in F.
  specialize (F L). destruct (set8 (pre ++ post) (zlen pre) (element_head id n)) as [q| |]; cbn [bind] in *; try discriminate.
  rewrite F. reflexivity.
Qed.

(** What the switch writes for a registered type. *)
Lemma BuildElement_fills s e : GetId (rtp_header_extension_map_ s) (type (snd e)) = Some (fst e) -> entry_ok e ->
  forall pre post, zlen (element s e) <= zlen post ->
  BuildElement s (pre ++ post) (zlen pre) (type (snd e)) =
    Ok (pre ++ element s e ++ skipn (length (element s e)) post, length_ (snd e)).
Proof.
  intros G (R & T & EL) pre post. rewrite EL.
  unfold BuildElement, BuildTransmissionTimeOffsetExtension, BuildAudioLevelExtension, BuildAbsoluteSendTimeExtension,
    BuildVideoRotationExtension, BuildTransportSequenceNumberExtension, element.
  destruct (type (snd e)); rewrite ?G; try congruence; cbn [new_HeaderExtension length_].
  - exact (element_fills _ _ (fun p o => write24 p o _) _ _ (fills_write24 _) pre post).
  - exact (element_fills _ _ (fun p o => set8 p o _) _ _ (fills_set8 (Z.shiftl 1 7 + 0)) pre post).
  - exact (element_fills _ _ (fun p o => write24 p o _) _ _ (fills_write24 _) pre post).
  - replace [element_head (fst e) 0; ConvertVideoRotationToCVOByte (rotation_ s)]
      with [element_head (fst e) 0; u8 (ConvertVideoRotationToCVOByte (rotation_ s))] by now destruct (rotation_ s).
    exact (element_fills _ _ (fun p o => set8 p o _) _ _ (fills_set8 (ConvertVideoRotationToCVOByte (rotation_ s))) pre post).
  - exact (element_fills _ _ (fun p o => set16 p o _) _ _ (fills_set16 _) pre post).
Qed.

Lemma zlen_elements s m : Forall entry_ok m -> zlen (elements s m) <= 4 * zlen (actives m) /\
  zlen (elements s m) = fold_right (fun e n => length_ (snd e) + n) 0 (actives m) /\ zlen (actives m) <= zlen (elements s m).
Proof.
  intros F. unfold elements. assert (F' : Forall entry_ok (actives m)).
  { apply Forall_forall. intros e I. apply filter_In in I as [I _]. rewrite Forall_forall in F. now apply F. }
  induction F' as [|e l H F' IH]; cbn [map concat fold_right]; [now rewrite !(@zlen_nil Z)|].
  rewrite zlen_app, zlen_cons. destruct (zlen_element s e H) as [-> ?]. destruct IH as (? & ? & ?). lia.
Qed.

Lemma registry_short m : registry m -> zlen m <= 14.
Proof.
  intros [Sm F _]. assert (N : NoDup (map fst m)).
  { unfold sorted in Sm. clear F. induction Sm as [|k l S1 IH L]; constructor; [|assumption].
    rewrite Forall_forall in L. intros I. specialize (L k I). lia. }
  assert (I : incl (map fst m) (map Z.of_nat (seq 1 14))).
  { intros k H. apply in_map_iff in H as (e & <- & He). rewrite Forall_forall in F. destruct (F _ He) as [R _].
    apply in_map_iff. exists (Z.to_nat (fst e)). split; [lia|]. apply in_seq. lia. }
  apply NoDup_incl_length in I; [|assumption]. rewrite !length_map, length_seq in I. unfold zlen. lia.
Qed.

Lemma BuildElements_fills s l2 : forall l1 fuel pre post o total,
  rtp_header_extension_map_ s = l1 ++ l2 -> registry (l1 ++ l2) -> (length l2 < fuel)%nat ->
  zlen pre = o + total -> 0 <= total -> total + zlen (elements s l2) < 65536 -> zlen (elements s l2) <= zlen post ->
  BuildElements fuel s (pre ++ post) o total (First l2) =
    Ok (pre ++ elements s l2 ++ skipn (length (elements s l2)) post, total + zlen (elements s l2)).
Proof.
  induction l2 as [|[id e] l2 IH]; intros l1 fuel pre post o total M R Fu P T0 T L.
  - change (elements s []) with (@nil Z). rewrite (@zlen_nil Z), Z.add_0_r. destruct fuel; reflexivity.
  - assert (M' : rtp_header_extension_map_ s = (l1 ++ [(id, e)]) ++ l2) by (rewrite <- app_assoc; exact M).
    assert (R' : registry ((l1 ++ [(id, e)]) ++ l2)) by (rewrite <- app_assoc; exact R).
    cbn [First]. unfold elements in *. cbn [actives filter] in *. fold (actives l2) in *.
    destruct (active e) eqn:A.
    + cbn [map concat] in *. rewrite zlen_app in *. destruct fuel as [|fuel]; [lia|]. cbn [length] in Fu.
      assert (O : entry_ok (id, e)) by (apply (proj1 (Forall_forall _ _) (registry_entries _ R)), in_elt).
      pose proof (zlen_element s _ O) as [Z1 Z2]. pose proof (zlen_nonneg (concat (map (element s) (actives l2)))).
      assert (E : BuildElements (S fuel) s (pre ++ post) o total (type e) =
        let! (p, n) := BuildElement s (pre ++ post) (o + total) (type e) in
        BuildElements fuel s p o (u16 (total + n)) (Next (rtp_header_extension_map_ s) (type e))).
      { destruct O as (_ & O & _). cbn in O. destruct (type e); try reflexivity. congruence. }
      rewrite E, <- P. pose proof (BuildElement_fills s (id, e)) as B. cbn [snd fst] in B.
      rewrite B; [|rewrite M; apply GetId_mid; apply (registry_types _ R)|assumption|lia]. cbn [bind].
      rewrite M, Next_mid by assumption. cbn [snd] in *. rewrite u16_id by (unfold in_u16; lia). rewrite app_assoc.
      rewrite (IH (l1 ++ [(id, e)]) fuel) ; try assumption; try lia.
      * rewrite <- !app_assoc, skipn_skipn, length_app, Z1. f_equal. f_equal; [do 4 f_equal; lia|lia].
      * rewrite zlen_app. lia.
      * unfold zlen in *. rewrite length_skipn. lia.
    + apply (IH (l1 ++ [(id, e)])); try assumption. cbn [length] in Fu. lia.
Qed.

(** The bytes of the extensions, with their header and their padding. *)
Definition pad4 (n : Z) : Z := Word32Align n - n.
Definition extension_bytes (s : RTPSender) (m : RtpHeaderExtensionMap) : list Z :=
  match actives m with
  | [] => []
  | _ =>
      be2 kRtpOneByteHeaderExtensionId ++ be2 (Word32Align (zlen (elements s m)) / 4) ++
      elements s m ++ repeat 0 (Z.to_nat (pad4 (zlen (elements s m))))
  end.

Lemma pad4_range n : 0 <= n -> 0 <= pad4 n < 4 /\ (n + pad4 n) mod 4 = 0 /\ n + pad4 n = Word32Align n.
Proof. intros. unfold pad4, Word32Align. case_if; [|assert (n mod 4 = 0) by lia]; dlia. Qed.

Lemma Size_actives m : Size m = zlen (actives m).
Proof. reflexivity. Qed.

Lemma zlen_extension_bytes s m : Forall entry_ok m -> zlen (extension_bytes s m) = GetTotalLengthInBytes m.
Proof.
  intros F. pose proof (zlen_elements s m F) as (_ & E & G). pose proof (zlen_nonneg (elements s m)).
  assert (L : forall n, fold_left (fun length '(_, e) => if active e then length + length_ e else length) m n =
                n + fold_right (fun e n => length_ (snd e) + n) 0 (actives m)).
  { clear. induction m as [|[i e] m IH]; intros n; cbn [fold_left actives filter]; [cbn; lia|]. rewrite IH. fold (actives m).
    destruct (active e); cbn [fold_right snd]; lia. }
  unfold GetTotalLengthInBytes. rewrite L, <- E, Z.add_0_l. unfold extension_bytes.
  destruct (actives m) as [|a l] eqn:A.
  - unfold elements in *. rewrite A in *. reflexivity.
  - rewrite (@zlen_cons (Z * HeaderExtension)) in G. pose proof (zlen_nonneg l).
    replace (0 <? zlen (elements s m)) with true by lia.
    rewrite !zlen_app. pose proof (pad4_range (zlen (elements s m)) ltac:(lia)) as (P & Q & Q').
    replace (zlen (repeat 0 (Z.to_nat (pad4 (zlen (elements s m)))))) with (pad4 (zlen (elements s m)))
      by (unfold zlen at 2; rewrite repeat_length; lia).
    change (zlen (be2 kRtpOneByteHeaderExtensionId)) with 2. unfold kRtpOneByteHeaderLength.
    change (zlen (be2 (Word32Align (zlen (elements s m)) / 4))) with 2.
    revert Q'. unfold Word32Align. repeat case_if; dlia.
Qed.

Lemma actives_incl m : Forall entry_ok m -> Forall entry_ok (actives m).
Proof. intros F. apply Forall_forall. intros e I. apply filter_In in I as [I _]. now apply (proj1 (Forall_forall _ _) F). Qed.

Lemma zlen_actives m : zlen (actives m) <= zlen m.
Proof. unfold zlen, actives. pose proof (filter_length_le (fun '(_, e) => active e) m). lia. Qed.

Lemma BuildRTPHeaderExtension_fills s pre post : registry (rtp_header_extension_map_ s) ->
  let bs := extension_bytes s (rtp_header_extension_map_ s) in
  zlen bs <= zlen post ->
  BuildRTPHeaderExtension s (pre ++ post) (zlen pre) = Ok (pre ++ bs ++ skipn (length bs) post, zlen bs).
Proof.
  intros R. cbv zeta. intros L. pose proof (registry_entries _ R) as F.
  unfold BuildRTPHeaderExtension. cbv zeta. set (m := rtp_header_extension_map_ s) in *. rewrite Size_actives.
  pose proof (zlen_elements s m F) as (E4 & _ & G). pose proof (zlen_actives m). pose proof (registry_short m R).
  destruct (actives m) as [|a l] eqn:A.
  - unfold extension_bytes. rewrite A. reflexivity.
  - rewrite (@zlen_cons (Z * HeaderExtension)) in *. pose proof (zlen_nonneg l). replace (1 + zlen l <=? 0) with false by lia.
    set (es := elements s m) in *. pose proof (pad4_range (zlen es) ltac:(lia)) as (P & Q & Q').
    assert (B : extension_bytes s m = be2 kRtpOneByteHeaderExtensionId ++ be2 (Word32Align (zlen es) / 4) ++ es ++
                  repeat 0 (Z.to_nat (pad4 (zlen es)))) by (unfold extension_bytes; now rewrite A).
    assert (RL : zlen (repeat 0 (Z.to_nat (pad4 (zlen es)))) = pad4 (zlen es)) by (unfold zlen at 1; rewrite repeat_length; lia).
    assert (L4 : 4 + zlen es + pad4 (zlen es) <= zlen post).
    { rewrite B, !zlen_app, RL in L. change (zlen (be2 kRtpOneByteHeaderExtensionId)) with 2 in L.
      change (zlen (be2 (Word32Align (zlen es) / 4))) with 2 in L. lia. }
    rewrite fills_set16 by (change (zlen (be2 kRtpOneByteHeaderExtensionId)) with 2; lia). cbn [bind].
    change (length (be2 kRtpOneByteHeaderExtensionId)) with 2%nat.
    destruct post as [|x0 [|x1 [|x2 [|x3 post]]]]; rewrite ?zlen_cons, ?(@zlen_nil Z) in L4; try lia. cbn [skipn].
    set (h := be2 kRtpOneByteHeaderExtensionId) in *.
    replace (pre ++ h ++ x2 :: x3 :: post) with ((pre ++ h ++ [x2; x3]) ++ post) by (rewrite <- !app_assoc; reflexivity).
    assert (PL : zlen (pre ++ h ++ [x2; x3]) = zlen pre + 4) by (rewrite !zlen_app; reflexivity).
    rewrite (BuildElements_fills s m [] (elements_fuel m)); fold m; try reflexivity; try assumption; try (unfold elements_fuel, es, kRtpOneByteHeaderLength in *; lia).
    cbn [bind]. fold es. rewrite Z.add_0_l. replace (zlen es =? 0) with false by lia. unfold kRtpOneByteHeaderLength.
    replace (Word32Align (zlen es) - zlen es) with (pad4 (zlen es)) by reflexivity.
    replace (zlen pre + 4 + zlen es) with (zlen ((pre ++ h ++ [x2; x3]) ++ es)) by (rewrite zlen_app; lia).
    rewrite (app_assoc _ es), fills_clear by (rewrite RL; unfold zlen in *; rewrite length_skipn; lia). cbn [bind].
    rewrite (u16_id (zlen es + pad4 (zlen es))), Q' by (unfold in_u16; lia).
    rewrite <- !app_assoc. replace (zlen pre + 2) with (zlen (pre ++ h)) by (rewrite zlen_app; reflexivity).
    rewrite (app_assoc pre h). rewrite fills_set16 by (change (zlen (be2 (Word32Align (zlen es) / 4))) with 2;
      cbn [app]; rewrite !zlen_cons; match goal with |- 2 <= 1 + (1 + zlen ?y) => pose proof (zlen_nonneg y) end; lia).
    cbn [bind]. change (length (be2 (Word32Align (zlen es) / 4))) with 2%nat. cbn [app skipn].
    rewrite u16_id by (unfold in_u16; lia). fold m. rewrite B. f_equal. f_equal.
    + rewrite <- !app_assoc. do 5 f_equal. rewrite skipn_skipn, !length_app. change (length h) with 2%nat.
      change (length (be2 (Word32Align (zlen es) / 4))) with 2%nat. cbn [skipn Nat.add]. f_equal. lia.
    + rewrite !zlen_app, RL. change (zlen h) with 2. change (zlen (be2 (Word32Align (zlen es) / 4))) with 2. lia.
Qed.

(** ** The header *)

Definition header_bytes (s : RTPSender) (payload_type ssrc : Z) (marker_bit : bool) (timestamp sequence_number : Z)
    (csrcs : list Z) : list Z :=
  let ext := extension_bytes s (rtp_header_extension_map_ s) in
  [0x80 + zlen csrcs + (match ext with [] => 0 | _ => 0x10 end);
   (if marker_bit then Z.lor (u8 payload_type) 0x80 else u8 payload_type)] ++
  be2 sequence_number ++ be4 timestamp ++ be4 ssrc ++ concat (map be4 csrcs) ++ ext.

Lemma set8_0 x r v : set8 (x :: r) 0 v = Ok (u8 v :: r).
Proof. exact (set8_at [] x r v). Qed.
Lemma set8_1 x y r v : set8 (x :: y :: r) 1 v = Ok (x :: u8 v :: r).
Proof. exact (set8_at [x] y r v). Qed.
Lemma byte_head pre x post : byte (pre ++ x :: post) (zlen pre) = Ok x.
Proof.
  change (x :: post) with ([x] ++ post). rewrite <- (Z.add_0_r (zlen pre)), byte_mid by (unfold zlen; cbn; lia). reflexivity.
Qed.

Lemma byte_0 x r : byte (x :: r) 0 = Ok x.
Proof. exact (byte_head [] x r). Qed.
Lemma byte_1 x y r : byte (x :: y :: r) 1 = Ok y.
Proof. exact (byte_head [x] y r). Qed.

Lemma zlen_be4s l : zlen (concat (map be4 l)) = 4 * zlen l.
Proof. induction l as [|c l IH]; [reflexivity|]. cbn [map concat]. rewrite zlen_app, IH, zlen_cons. change (zlen (be4 c)) with 4. lia. Qed.

Lemma extension_bytes_head s m : extension_bytes s m = [] \/ exists r, extension_bytes s m = u8 (Z.shiftr kRtpOneByteHeaderExtensionId 8) :: r.
Proof. unfold extension_bytes. destruct (actives m); [now left|right]. eexists. reflexivity. Qed.

Lemma first_byte n : 0 <= n <= 15 -> u8 (Z.lor (Z.land (u8 0x80) 0xf0) n) = 0x80 + n /\ u8 (Z.lor (0x80 + n) 0x10) = 0x80 + n + 0x10.
Proof.
  intros H. assert (In n (map Z.of_nat (seq 0 16))) by (apply in_map_iff; exists (Z.to_nat n); split; [lia|apply in_seq; lia]).
  cbn in H0. repeat (destruct H0 as [<-|H0]; [vm_compute; split; reflexivity|]). destruct H0.
Qed.

(** Writing a header changes the bytes it takes and no other. *)
Lemma CreateRtpHeader_bytes s header payload_type ssrc marker_bit timestamp sequence_number csrcs :
  registry (rtp_header_extension_map_ s) -> zlen csrcs <= 15 ->
  let bs := header_bytes s payload_type ssrc marker_bit timestamp sequence_number csrcs in
  zlen bs <= zlen header ->
  CreateRtpHeader s header payload_type ssrc marker_bit timestamp sequence_number csrcs =
    Ok (bs ++ skipn (length bs) header, zlen bs).
Proof.
  intros R LC. cbv zeta. unfold header_bytes. set (m := rtp_header_extension_map_ s) in *. set (ext := extension_bytes s m).
  set (b1 := if marker_bit then _ else _). rewrite !zlen_app, zlen_be4s.
  change (zlen (be2 sequence_number)) with 2. change (zlen (be4 timestamp)) with 4. change (zlen (be4 ssrc)) with 4.
  match goal with |- context [zlen [?a; ?b]] => change (zlen [a; b]) with 2 end. intros L.
  pose proof (zlen_nonneg csrcs). pose proof (zlen_nonneg ext).
  destruct header as [|x0 [|x1 r]]; rewrite ?zlen_cons, ?(@zlen_nil Z) in L; try lia.
  unfold CreateRtpHeader. rewrite set8_0. cbn [bind]. rewrite set8_1. cbn [bind].
  assert (E1 : (if marker_bit then let! b := byte (u8 0x80 :: u8 payload_type :: r) 1 in
                  set8 (u8 0x80 :: u8 payload_type :: r) 1 (Z.lor b kRtpMarkerBitMask)
                else Ok (u8 0x80 :: u8 payload_type :: r)) = Ok ([u8 0x80; b1] ++ r)).
  { unfold b1. destruct marker_bit; [|reflexivity]. rewrite byte_1. cbn [bind]. rewrite set8_1. cbn [app]. unfold kRtpMarkerBitMask.
    rewrite (u8_id (Z.lor _ _)); [reflexivity|]. pose proof (u8_range payload_type).
    apply (lor_lt_pow2 _ _ 8); unfold in_u8 in *; lia. }
  rewrite E1. cbn [bind]. change 2 with (zlen [u8 0x80; b1]) at 1. rewrite fills_set16 by (change (zlen (be2 sequence_number)) with 2; lia).
  cbn [bind]. rewrite app_assoc. change 4 with (zlen ([u8 0x80; b1] ++ be2 sequence_number)) at 1.
  rewrite fills_set32 by (change (zlen (be4 timestamp)) with 4; unfold zlen in *; rewrite length_skipn; change (length (be2 sequence_number)) with 2%nat; lia).
  cbn [bind]. rewrite app_assoc. change 8 with (zlen (([u8 0x80; b1] ++ be2 sequence_number) ++ be4 timestamp)) at 1.
  rewrite fills_set32 by (change (zlen (be4 ssrc)) with 4; unfold zlen in *; rewrite !length_skipn; change (length (be2 sequence_number)) with 2%nat;
    change (length (be4 timestamp)) with 4%nat; lia).
  cbn [bind]. rewrite !skipn_skipn. change (length (be4 ssrc) + length (be4 timestamp) + length (be2 sequence_number))%nat with 10%nat.
  set (q := ([u8 0x80; b1] ++ be2 sequence_number) ++ be4 timestamp).
  set (f := be2 sequence_number ++ be4 timestamp ++ be4 ssrc).
  replace (q ++ be4 ssrc ++ skipn 10 r) with ((u8 0x80 :: b1 :: f) ++ skipn 10 r) by (unfold q, f; rewrite <- !app_assoc; reflexivity).
  set (cs := concat (map be4 csrcs)). assert (ZC : zlen cs = 4 * zlen csrcs) by apply zlen_be4s.
  assert (CE : concat (map be4 csrcs) = cs) by reflexivity. clearbody cs.
  assert (E2 : (match csrcs with
    | [] => Ok ((u8 0x80 :: b1 :: f) ++ skipn 10 r, kRtpHeaderLength)
    | _ =>
        let! p := write_csrcs ((u8 0x80 :: b1 :: f) ++ skipn 10 r) kRtpHeaderLength csrcs in
        let! b := byte p 0 in
        let! p := set8 p 0 (Z.lor (Z.land b 0xf0) (zlen csrcs)) in
        Ok (p, kRtpHeaderLength + 4 * zlen csrcs)
    end) = Ok ((0x80 + zlen csrcs :: b1 :: f ++ cs) ++ skipn (10 + length cs) r, 12 + 4 * zlen csrcs)).
  { destruct csrcs as [|c l] eqn:C; [rewrite <- CE, app_nil_r; reflexivity|]. rewrite <- C in *. unfold kRtpHeaderLength. clearbody b1.
    change 12 with (zlen (u8 0x80 :: b1 :: f)) at 1. rewrite fills_csrcs by (rewrite CE, ZC; unfold zlen in *; rewrite length_skipn; lia).
    cbn [bind]. rewrite CE. cbn [app]. rewrite byte_0. cbn [bind]. rewrite set8_0.
    rewrite (proj1 (first_byte (zlen csrcs) ltac:(lia))). cbn [bind]. rewrite skipn_skipn, Nat.add_comm, <- app_assoc. reflexivity. }
  rewrite E2. cbn [bind]. replace (12 + 4 * zlen csrcs) with (zlen (0x80 + zlen csrcs :: b1 :: f ++ cs))
    by (rewrite !zlen_cons, zlen_app, ZC; change (zlen f) with 10; lia).
  rewrite BuildRTPHeaderExtension_fills by (fold m; try assumption; fold ext; unfold zlen in *; rewrite length_skipn; lia). fold m ext. cbn [bind].
  assert (ZF : 2 + (2 + (4 + (4 + (4 * zlen csrcs + zlen ext)))) = zlen (0x80 + zlen csrcs :: b1 :: f ++ cs) + zlen ext)
    by (rewrite !zlen_cons, zlen_app, ZC; change (zlen f) with 10; lia).
  rewrite ZF. unfold ext. destruct (extension_bytes_head s m) as [EX|[xs EX]].
  - rewrite EX. cbn [app length skipn]. rewrite (@zlen_nil Z), Z.add_0_r. cbn [Z.ltb Z.compare]. rewrite !app_nil_r, Z.add_0_r.
    unfold f. cbn [app be2 be4 length skipn]. now rewrite <- ?app_assoc.
  - assert (0 < zlen (extension_bytes s m)) by (rewrite EX, zlen_cons; pose proof (zlen_nonneg xs); lia).
    replace (0 <? zlen (extension_bytes s m)) with true by lia. cbn [app]. rewrite byte_0. cbn [bind]. rewrite set8_0.
    rewrite (proj2 (first_byte (zlen csrcs) ltac:(lia))). cbn [bind]. f_equal. f_equal.
    replace (match extension_bytes s m with [] => 0 | _ => 16 end) with 16 by now rewrite EX.
    unfold f. rewrite <- !app_assoc. cbn [app be2 be4]. do 12 f_equal.
    rewrite skipn_skipn. cbn [length]. rewrite length_app. set (n := (length cs + length (extension_bytes s m))%nat).
    match goal with |- context [skipn (S (S ?k)) (x0 :: x1 :: r)] => change (skipn (S (S k)) (x0 :: x1 :: r)) with (skipn (10 + n) r) end.
    do 3 f_equal. unfold n. lia.
Qed.
End RtpExtensionsFacts.
