(* ===== verification/RtpExtensionsParse.v ===== *)
(** * RTP headers with extensions: the parser

    What the parser reads from a header that was written, the extensions that
    are changed in place, and the memory the parser reads on any bytes. *)

From Stdlib Require Import Sorted.
From S2P Require Import Prelude Wire OrderedMap RtpExtensions RtpExtensionsFacts.
Import Wire OrderedMap RtpExtensions RtpExtensionsFacts.

Module RtpExtensionsParse.

(** ** The copy of the map *)

Lemma store_end {V} (m : map_t V) k v : Forall (fun e => fst e < k) m -> store k v m = m ++ [(k, v)].
Proof.
  induction 1 as [|[i w] m H F IH]; [reflexivity|]. cbn [store app] in *. cbn [fst] in H.
  replace (k <? i) with false by lia. replace (k =? i) with false by lia. now rewrite IH.
Qed.

Lemma sorted_app_lt {V} (l1 l2 : map_t V) e : sorted (l1 ++ e :: l2) -> Forall (fun x => fst x < fst e) l1.
Proof.
  unfold sorted. induction l1 as [|x l1 IH]; cbn [app map]; intros Sm; [constructor|].
  inversion Sm as [|? ? A B]; subst. constructor; [|now apply IH].
  rewrite map_app, Forall_app in B. destruct B as [_ B]. now inversion B.
Qed.

Lemma find_below {V} (m : map_t V) k : Forall (fun e => fst e < k) m -> find k m = None.
Proof.
  induction 1 as [|[i w] m H F IH]; [reflexivity|]. cbn [find fst] in *. replace (k =? i) with false by lia. exact IH.
Qed.

Lemma entry_eta e : entry_ok e -> new_HeaderExtension (type (snd e)) (active (snd e)) = snd e.
Proof. intros (_ & _ & L). destruct e as [id [t l a]]. cbn in *. rewrite L. now destruct t. Qed.

Lemma GetCopy_same m : sorted m -> Forall entry_ok m -> GetCopy m [] = m.
Proof.
  unfold GetCopy. intros Sm F. change m with ([] ++ m) in Sm, F. rewrite <- (app_nil_l m) at 2.
  generalize dependent (@nil (Z * HeaderExtension)).
  induction m as [|[id e] m IH]; intros l Sm F; cbn [fold_left]; [now rewrite app_nil_r|].
  assert (O : entry_ok (id, e)) by (apply (proj1 (Forall_forall _ _) F), in_elt).
  assert (R : snd (Register l (type e) id (active e)) = l ++ [(id, e)]).
  { pose proof (sorted_app_lt _ _ _ Sm) as B. unfold Register. destruct O as (O & T). cbn [fst] in *.
    replace ((id <? 1) || (14 <? id)) with false by lia. rewrite (find_below l id B). cbn [snd].
    rewrite (store_end l _ _ B). f_equal. f_equal. f_equal. apply (entry_eta (id, e)). now split. }
  rewrite R. rewrite IH; rewrite <- app_assoc; [reflexivity|exact Sm|exact F].
Qed.

(** ** Reading an element *)

Lemma head_fields id n : 1 <= id <= 14 -> 0 <= n <= 2 ->
  let b := element_head id n in
  Z.shiftr (Z.land b 0xf0) 4 = id /\ Z.land b 0x0f = n /\ b <> 0.
Proof.
  intros H N. assert (I : In id (map Z.of_nat (seq 1 14))) by (apply in_map_iff; exists (Z.to_nat id); split; [lia|apply in_seq; lia]).
  assert (J : In n (map Z.of_nat (seq 0 3))) by (apply in_map_iff; exists (Z.to_nat n); split; [lia|apply in_seq; lia]).
  cbn in I, J. cbv zeta.
  repeat (destruct I as [<-|I]; [repeat (destruct J as [<-|J]; [vm_compute; repeat split; congruence|]); destruct J|]). destruct I.
Qed.

Lemma be16_written pre v post : be16 (pre ++ be2 v ++ post) (zlen pre) = Ok (u16 v).
Proof.
  rewrite <- (Z.add_0_r (zlen pre)), be16_mid by (change (zlen (be2 v)) with 2; lia). f_equal.
  change (b16 (be2 v) 0) with (u8 (Z.shiftr v 8) * 256 + u8 v). rewrite shiftr_div by lia. change (2 ^ 8) with 256. int_lia.
Qed.

Lemma read24_at pre v post : read24 (pre ++ be3 v ++ post) (zlen pre) = Ok (v mod 0x1000000).
Proof.
  unfold read24. change (be3 v ++ post) with (u8 (Z.shiftr v 16) :: be2 v ++ post). rewrite byte_head. cbn [bind].
  change (u8 (Z.shiftr v 16) :: be2 v ++ post) with ([u8 (Z.shiftr v 16)] ++ be2 v ++ post). rewrite app_assoc.
  replace (zlen pre + 1) with (zlen (pre ++ [u8 (Z.shiftr v 16)])) by (rewrite zlen_app; reflexivity).
  rewrite be16_written. cbn [bind]. f_equal. rewrite shiftr_div by lia. change (2 ^ 16) with 65536. int_lia.
Qed.

Lemma be32_written pre v post : in_u32 v -> be32 (pre ++ be4 v ++ post) (zlen pre) = Ok v.
Proof.
  intros H. unfold be32, be4. rewrite <- app_assoc, be16_written. cbn [bind]. rewrite app_assoc.
  replace (zlen pre + 2) with (zlen (pre ++ be2 (Z.shiftr v 16))) by (rewrite zlen_app; reflexivity).
  rewrite be16_written. cbn [bind]. f_equal. rewrite shiftr_div by lia. change (2 ^ 16) with 65536. int_lia.
Qed.

(** What the fields of the sender are, and what an element tells the receiver. *)
Definition values_ok (s : RTPSender) : Prop :=
  - 0x7fffff <= transmission_time_offset_ s <= 0x7fffff /\ 0 <= absolute_send_time_ s <= 0xffffff /\
  in_u16 (transport_sequence_number_ s).

Definition seen (s : RTPSender) (t : RTPExtensionType) (e : RTPHeaderExtension) : RTPHeaderExtension :=
  match t with
  | kRtpExtensionTransmissionTimeOffset =>
      mk_ext true (transmission_time_offset_ s) (hasAbsoluteSendTime e) (absoluteSendTime e) (hasTransportSequenceNumber e)
        (transportSequenceNumber e) (hasAudioLevel e) (voiceActivity e) (audioLevel e) (hasVideoRotation e) (videoRotation e)
  | kRtpExtensionAudioLevel =>
      mk_ext (hasTransmissionTimeOffset e) (transmissionTimeOffset e) (hasAbsoluteSendTime e) (absoluteSendTime e)
        (hasTransportSequenceNumber e) (transportSequenceNumber e) true true 0 (hasVideoRotation e) (videoRotation e)
  | kRtpExtensionAbsoluteSendTime =>
      mk_ext (hasTransmissionTimeOffset e) (transmissionTimeOffset e) true (absolute_send_time_ s)
        (hasTransportSequenceNumber e) (transportSequenceNumber e) (hasAudioLevel e) (voiceActivity e) (audioLevel e)
        (hasVideoRotation e) (videoRotation e)
  | kRtpExtensionVideoRotation =>
      mk_ext (hasTransmissionTimeOffset e) (transmissionTimeOffset e) (hasAbsoluteSendTime e) (absoluteSendTime e)
        (hasTransportSequenceNumber e) (transportSequenceNumber e) (hasAudioLevel e) (voiceActivity e) (audioLevel e) true
        (ConvertVideoRotationToCVOByte (rotation_ s))
  | kRtpExtensionTransportSequenceNumber =>
      mk_ext (hasTransmissionTimeOffset e) (transmissionTimeOffset e) (hasAbsoluteSendTime e) (absoluteSendTime e)
        true (transport_sequence_number_ s) (hasAudioLevel e) (voiceActivity e) (audioLevel e) (hasVideoRotation e) (videoRotation e)
  | kRtpExtensionNone => e
  end.

Lemma s24_mod v : - 0x7fffff <= v <= 0x7fffff -> s24 (v mod 0x1000000) = v.
Proof. intros. unfold s24. case_if; dlia. Qed.

(** An element is its head, which names its number and its length, and its data. *)
Lemma element_read s x e : entry_ok x -> values_ok s ->
  exists n data, element s x = element_head (fst x) n :: data /\ zlen data = n + 1 /\ 0 <= n <= 2 /\
    forall pre post, ParseElement (pre ++ data ++ post) (zlen pre) n (type (snd x)) e = Ok (Some (seen s (type (snd x)) e)).
Proof.
  intros (R & T & _) (V1 & V2 & V3). unfold element. destruct (type (snd x)) eqn:E; [congruence| | | | |].
  - exists 2, (be3 (transmission_time_offset_ s)). repeat split; try lia. intros pre post.
    cbn [ParseElement]. cbn [Z.eqb Pos.eqb negb]. rewrite read24_at. cbn [bind]. now rewrite s24_mod.
  - exists 0, [128]. repeat split; try lia. intros pre post. cbn [ParseElement Z.eqb negb app]. rewrite byte_head. reflexivity.
  - exists 2, (be3 (absolute_send_time_ s)). repeat split; try lia. intros pre post.
    cbn [ParseElement]. cbn [Z.eqb Pos.eqb negb]. rewrite read24_at. cbn [bind]. now rewrite Z.mod_small by lia.
  - exists 0, [ConvertVideoRotationToCVOByte (rotation_ s)]. repeat split; try lia. intros pre post.
    cbn [ParseElement Z.eqb negb app]. rewrite byte_head. reflexivity.
  - exists 1, (be2 (transport_sequence_number_ s)). repeat split; try lia. intros pre post.
    cbn [ParseElement]. cbn [Z.eqb Pos.eqb negb]. rewrite be16_written. cbn [bind]. now rewrite u16_id.
Qed.

Lemma ParsePaddingBytes_zeros n : forall pre post k, 0 <= k -> k + Z.of_nat n < 256 ->
  ParsePaddingBytes n (pre ++ repeat 0 n ++ post) (zlen pre) k = Ok (k + Z.of_nat n).
Proof.
  induction n as [|n IH]; intros pre post k K B; [cbn; now rewrite Z.add_0_r|].
  cbn [ParsePaddingBytes repeat app]. rewrite byte_head. cbn [bind Z.eqb negb].
  change (0 :: repeat 0 n ++ post) with ([0] ++ repeat 0 n ++ post). rewrite app_assoc.
  replace (zlen pre + 1) with (zlen (pre ++ [0])) by (rewrite zlen_app; reflexivity).
  rewrite u8_id by (unfold in_u8; lia). rewrite IH by lia. f_equal. lia.
Qed.

Lemma ParsePaddingBytes_stop n pre x post : x <> 0 -> ParsePaddingBytes n (pre ++ x :: post) (zlen pre) 0 = Ok 0.
Proof. intros H. destruct n; [reflexivity|]. cbn [ParsePaddingBytes]. rewrite byte_head. cbn [bind]. now replace (x =? 0) with false by lia. Qed.

Section Loop.
Variables (s : RTPSender) (reg : RtpHeaderExtensionMap).
Hypothesis Vals : values_ok s.

(** The loop over the elements of the extensions [l]. *)
Lemma parse_elements l : forall fuel pre pad post stop e,
  Forall entry_ok l -> Forall (fun x => GetType reg (fst x) = Some (type (snd x))) l -> (pad < 4)%nat ->
  stop = zlen pre + zlen (concat (map (element s) l)) + Z.of_nat pad -> (l <> [] \/ pad = O) -> (length l <= fuel)%nat ->
  ParseOneByteExtensionHeader fuel reg (pre ++ concat (map (element s) l) ++ repeat 0 pad ++ post) stop (zlen pre) e =
    Ok (fold_left (fun e x => seen s (type (snd x)) e) l e).
Proof.
  induction l as [|x l IH]; intros fuel pre pad post stop e F G P St NE Fu.
  - destruct NE as [NE| ->]; [congruence|]. cbn in St. destruct fuel; cbn [ParseOneByteExtensionHeader];
      replace (stop - zlen pre <=? 0) with true by lia; reflexivity.
  - inversion F as [|? ? Fx Fl]; inversion G as [|? ? Gx Gl]; subst x0 l0 x1 l1. cbn [map concat fold_left] in *.
    destruct (element_read s x e Fx Vals) as (n & data & EB & ZD & N & PE). rewrite EB in *. cbn [length] in Fu.
    destruct fuel as [|fuel]; [lia|]. cbn [ParseOneByteExtensionHeader]. rewrite zlen_app, zlen_cons in St.
    pose proof (zlen_nonneg (concat (map (element s) l))). replace (stop - zlen pre <=? 0) with false by lia.
    cbn [app]. rewrite byte_head. cbn [bind]. destruct Fx as (R & Fx).
    destruct (head_fields (fst x) n R N) as (-> & -> & HD). replace (fst x =? 15) with false by lia. rewrite Gx.
    set (rest := concat (map (element s) l) ++ repeat 0 pad ++ post).
    replace (pre ++ element_head (fst x) n :: (data ++ concat (map (element s) l)) ++ repeat 0 pad ++ post)
      with ((pre ++ [element_head (fst x) n]) ++ data ++ rest) by (unfold rest; rewrite <- !app_assoc; reflexivity).
    replace (zlen pre + 1) with (zlen (pre ++ [element_head (fst x) n])) by (rewrite zlen_app; reflexivity).
    rewrite PE. cbn [bind]. rewrite app_assoc. set (pre' := (pre ++ [element_head (fst x) n]) ++ data).
    assert (ZP : zlen (pre ++ [element_head (fst x) n]) + (n + 1) = zlen pre') by (unfold pre'; rewrite !zlen_app; lia).
    rewrite ZP. assert (ZP' : zlen pre' = zlen pre + 1 + (n + 1)) by (rewrite <- ZP, zlen_app; reflexivity).
    destruct l as [|y l].
    + unfold rest. cbn [map concat app] in *. rewrite (@zlen_nil Z) in St.
      replace (Z.to_nat (stop - zlen pre')) with pad by lia.
      rewrite ParsePaddingBytes_zeros by lia. cbn [bind fold_left].
      destruct fuel; cbn [ParseOneByteExtensionHeader]; replace (stop - (zlen pre' + (0 + Z.of_nat pad)) <=? 0) with true by lia; reflexivity.
    + assert (HR : exists b r, rest = b :: r /\ b <> 0).
      { unfold rest. cbn [map concat]. inversion Fl as [|? ? Fy _]; subst.
        destruct (element_read s y e Fy Vals) as (n' & data' & EB' & _ & N' & _). rewrite EB'. destruct Fy as (R' & _).
        destruct (head_fields (fst y) n' R' N') as (_ & _ & HD'). cbn [app]. eauto. }
      destruct HR as (b & r & ER & B). rewrite ER, ParsePaddingBytes_stop by assumption. cbn [bind]. rewrite <- ER, Z.add_0_r.
      unfold rest. apply IH; try assumption; try lia. left. discriminate.
Qed.
End Loop.

(** The extensions of the map, as the receiver sees them. *)
Definition on (m : RtpHeaderExtensionMap) (t : RTPExtensionType) : bool := existsb (fun '(_, e) => active e && type_eqb (type e) t) m.
Definition sent_extension (s : RTPSender) : RTPHeaderExtension :=
  let on := on (rtp_header_extension_map_ s) in
  let value t v := if on t then v else 0 in
  mk_ext (on kRtpExtensionTransmissionTimeOffset) (value kRtpExtensionTransmissionTimeOffset (transmission_time_offset_ s))
    (on kRtpExtensionAbsoluteSendTime) (value kRtpExtensionAbsoluteSendTime (absolute_send_time_ s))
    (on kRtpExtensionTransportSequenceNumber) (value kRtpExtensionTransportSequenceNumber (transport_sequence_number_ s))
    (on kRtpExtensionAudioLevel) (on kRtpExtensionAudioLevel) 0
    (on kRtpExtensionVideoRotation) (value kRtpExtensionVideoRotation (ConvertVideoRotationToCVOByte (rotation_ s))).

Lemma seen_all s m : Forall entry_ok m ->
  fold_left (fun e x => seen s (type (snd x)) e) (actives m) no_extension =
  let on := on m in
  let value t v := if on t then v else 0 in
  mk_ext (on kRtpExtensionTransmissionTimeOffset) (value kRtpExtensionTransmissionTimeOffset (transmission_time_offset_ s))
    (on kRtpExtensionAbsoluteSendTime) (value kRtpExtensionAbsoluteSendTime (absolute_send_time_ s))
    (on kRtpExtensionTransportSequenceNumber) (value kRtpExtensionTransportSequenceNumber (transport_sequence_number_ s))
    (on kRtpExtensionAudioLevel) (on kRtpExtensionAudioLevel) 0
    (on kRtpExtensionVideoRotation) (value kRtpExtensionVideoRotation (ConvertVideoRotationToCVOByte (rotation_ s))).
Proof.
  intros F. cbv zeta. unfold actives, on. induction m as [|[id e] m IH] using rev_ind; [reflexivity|].
  apply Forall_app in F as [F Fe]. specialize (IH F). inversion Fe as [|? ? (_ & T & _) _]; subst. cbn [snd] in T.
  rewrite filter_app, fold_left_app, !existsb_app, IH. cbn [filter existsb]. destruct (active e).
  - cbn [fold_left snd seen]. destruct (type e); try congruence; cbn [type_eqb type_eq_dec andb];
      repeat match goal with |- context [type_eqb ?a ?b] => change (type_eqb a b) with true || change (type_eqb a b) with false end;
      cbn; rewrite ?orb_false_r, ?orb_true_r; reflexivity.
  - cbn. now rewrite ?orb_false_r.
Qed.

Lemma sent_all s : Forall entry_ok (rtp_header_extension_map_ s) ->
  fold_left (fun e x => seen s (type (snd x)) e) (actives (rtp_header_extension_map_ s)) no_extension = sent_extension s.
Proof. exact (seen_all s (rtp_header_extension_map_ s)). Qed.

(** ** Reading the header *)

Lemma blit_front l : forall pre post, zlen l <= zlen post -> blit (pre ++ post) (zlen pre) l = pre ++ l ++ skipn (length l) post.
Proof.
  induction l as [|c l IH]; intros pre post L; [reflexivity|]. rewrite zlen_cons in L. pose proof (zlen_nonneg l).
  destruct post as [|x post]; [rewrite (@zlen_nil Z) in L; lia|]. rewrite zlen_cons in L. cbn [blit length skipn].
  assert (W : wr (pre ++ x :: post) (zlen pre) c = (pre ++ [c]) ++ post).
  { change (x :: post) with ([x] ++ post). rewrite <- (Z.add_0_r (zlen pre)), wr_mid by (unfold zlen; cbn; lia).
    rewrite <- app_assoc. reflexivity. }
  rewrite W. replace (zlen pre + 1) with (zlen (pre ++ [c])) by (rewrite zlen_app; reflexivity).
  rewrite IH by lia. now rewrite <- app_assoc.
Qed.

Lemma read_csrcs_all l : Forall in_u32 l -> forall pre post i a,
  read_csrcs (length l) (pre ++ concat (map be4 l) ++ post) (zlen pre) i a = Ok (blit a i l).
Proof.
  induction 1 as [|c l H F IH]; intros pre post i a; [reflexivity|]. cbn [length read_csrcs map concat blit].
  rewrite <- app_assoc, be32_written by assumption. cbn [bind]. rewrite app_assoc.
  replace (zlen pre + 4) with (zlen (pre ++ be4 c)) by (rewrite zlen_app; reflexivity). apply IH.
Qed.

Definition csrc_array (l : list Z) : list Z := l ++ zeros (kRtpCsrcSize - zlen l).

Lemma blit_csrcs l : zlen l <= 15 -> blit (zeros kRtpCsrcSize) 0 l = csrc_array l.
Proof.
  intros L. pose proof (blit_front l [] (zeros kRtpCsrcSize)) as B. cbn [app] in B. change (zlen (@nil Z)) with 0 in B.
  rewrite B by exact L. unfold csrc_array, zeros. f_equal. unfold kRtpCsrcSize, zlen in *.
  replace (Z.to_nat 15) with (length l + Z.to_nat (15 - Z.of_nat (length l)))%nat by lia.
  rewrite repeat_app, skipn_app, skipn_all2, repeat_length, Nat.sub_diag by (rewrite repeat_length; lia). reflexivity.
Qed.

Lemma first_fields n (x : bool) : 0 <= n <= 15 ->
  let b := 0x80 + n + (if x then 0x10 else 0) in
  Z.shiftr b 6 = 2 /\ Z.land b 0x20 = 0 /\ negb (Z.land b 0x10 =? 0) = x /\ Z.land b 0x0f = n.
Proof.
  intros H. assert (I : In n (map Z.of_nat (seq 0 16))) by (apply in_map_iff; exists (Z.to_nat n); split; [lia|apply in_seq; lia]).
  cbn in I. cbv zeta. destruct x; repeat (destruct I as [<-|I]; [vm_compute; repeat split; congruence|]); destruct I.
Qed.

Lemma second_fields pt (m : bool) : 0 <= pt < 128 ->
  let b := if m then Z.lor (u8 pt) 0x80 else u8 pt in
  negb (Z.land b 0x80 =? 0) = m /\ Z.land b 0x7f = pt.
Proof.
  intros H. cbv zeta.
  assert (A : ((negb (Z.land (Z.lor (u8 pt) 0x80) 0x80 =? 0) && (Z.land (Z.lor (u8 pt) 0x80) 0x7f =? pt)) &&
               ((Z.land (u8 pt) 0x80 =? 0) && (Z.land (u8 pt) 0x7f =? pt)))%bool = true).
  { apply (below_forallb (fun pt => ((negb (Z.land (Z.lor (u8 pt) 0x80) 0x80 =? 0) && (Z.land (Z.lor (u8 pt) 0x80) 0x7f =? pt)) &&
               ((Z.land (u8 pt) 0x80 =? 0) && (Z.land (u8 pt) 0x7f =? pt)))%bool) 128 pt); [vm_compute; reflexivity|lia]. }
  apply andb_true_iff in A as [A B]. apply andb_true_iff in A as [A1 A2]. apply andb_true_iff in B as [B1 B2].
  apply Z.eqb_eq in A2, B2. destruct m; [now split|]. split; [now rewrite B1|assumption].
Qed.

(** What the receiver has registered: the numbers and types of the sender. *)
Definition agrees (reg m : RtpHeaderExtensionMap) : Prop :=
  sorted reg /\ Forall entry_ok reg /\ Forall (fun x => GetType reg (fst x) = Some (type (snd x))) (actives m).

(** The extension block of a written header. *)
Lemma parse_block s reg pre post stop : let m := rtp_header_extension_map_ s in
  registry m -> values_ok s -> Forall (fun x => GetType reg (fst x) = Some (type (snd x))) (actives m) -> actives m <> [] ->
  let es := elements s m in let pad := pad4 (zlen es) in
  stop = zlen pre + zlen es + pad ->
  ParseOneByteExtensionHeader (Z.to_nat (zlen es + pad)) reg (pre ++ es ++ repeat 0 (Z.to_nat pad) ++ post) stop (zlen pre) no_extension =
    Ok (sent_extension s).
Proof.
  cbv zeta. intros R V A NE St. pose proof (registry_entries _ R) as F. set (m := rtp_header_extension_map_ s) in *.
  pose proof (zlen_elements s m F) as (_ & _ & G). pose proof (zlen_nonneg (actives m)).
  pose proof (pad4_range (zlen (elements s m)) ltac:(lia)) as (P & _).
  unfold elements in *. rewrite (parse_elements s reg V (actives m)); try assumption; try lia.
  - now rewrite sent_all.
  - now apply actives_incl.
  - now left.
  - unfold zlen in G at 1. lia.
Qed.

Lemma agrees_copy reg m : agrees reg m -> GetCopy reg [] = reg.
Proof. intros (A & B & _). now apply GetCopy_same. Qed.

Lemma parse_header s reg payload_type ssrc marker_bit timestamp sequence_number csrcs rest length :
  let m := rtp_header_extension_map_ s in
  registry m -> values_ok s -> agrees reg m ->
  0 <= payload_type < 128 -> in_u32 ssrc -> in_u32 timestamp -> in_u16 sequence_number -> Forall in_u32 csrcs -> zlen csrcs <= 15 ->
  let bs := header_bytes s payload_type ssrc marker_bit timestamp sequence_number csrcs in
  zlen bs <= length ->
  Parse (bs ++ rest) length reg zero_header =
    Ok (true, mk_header marker_bit payload_type sequence_number timestamp ssrc (zlen csrcs) (csrc_array csrcs) 0 (zlen bs) 0 (sent_extension s)).
Proof.
  cbv zeta. intros R V (_ & _ & A) PT SS TS SN FC LC. unfold header_bytes.
  set (m := rtp_header_extension_map_ s) in *. set (ext := extension_bytes s m).
  set (X := match ext with [] => false | _ => true end).
  replace (match ext with [] => 0 | _ => 16 end) with (if X then 16 else 0) by (unfold X; now destruct ext).
  set (b1 := if marker_bit then _ else _). set (b0 := 0x80 + zlen csrcs + (if X then 0x10 else 0)).
  pose proof (zlen_nonneg csrcs). destruct (first_fields (zlen csrcs) X ltac:(lia)) as (F1 & F2 & F3 & F4). fold b0 in F1, F2, F3, F4.
  destruct (second_fields payload_type marker_bit PT) as (G1 & G2). fold b1 in G1, G2. clearbody b0 b1.
  set (cs := concat (map be4 csrcs)). assert (ZC : zlen cs = 4 * zlen csrcs) by apply zlen_be4s.
  set (f := be2 sequence_number ++ be4 timestamp ++ be4 ssrc).
  assert (ZH : zlen ([b0; b1] ++ be2 sequence_number ++ be4 timestamp ++ be4 ssrc ++ cs ++ ext) = 12 + 4 * zlen csrcs + zlen ext).
  { rewrite !zlen_app, ZC. change (zlen [b0; b1]) with 2. change (zlen (be2 sequence_number)) with 2.
    change (zlen (be4 timestamp)) with 4. change (zlen (be4 ssrc)) with 4. lia. }
  rewrite ZH. pose proof (zlen_nonneg ext). intros L.
  replace (([b0; b1] ++ be2 sequence_number ++ be4 timestamp ++ be4 ssrc ++ cs ++ ext) ++ rest)
    with (b0 :: b1 :: f ++ cs ++ ext ++ rest) by (unfold f; cbn [app]; rewrite <- !app_assoc; reflexivity).
  unfold Parse. replace (length <? 12) with false by lia. rewrite byte_0, byte_1. cbn [bind].
  assert (E1 : be16 (b0 :: b1 :: f ++ cs ++ ext ++ rest) 2 = Ok sequence_number).
  { unfold f. rewrite <- !app_assoc. rewrite <- (u16_id sequence_number SN) at 2.
    exact (be16_written [b0; b1] sequence_number (be4 timestamp ++ be4 ssrc ++ cs ++ ext ++ rest)). }
  assert (E2 : be32 (b0 :: b1 :: f ++ cs ++ ext ++ rest) 4 = Ok timestamp).
  { unfold f. rewrite <- !app_assoc.
    exact (be32_written (b0 :: b1 :: be2 sequence_number) timestamp (be4 ssrc ++ cs ++ ext ++ rest) TS). }
  assert (E3 : be32 (b0 :: b1 :: f ++ cs ++ ext ++ rest) 8 = Ok ssrc).
  { unfold f. rewrite <- !app_assoc.
    exact (be32_written (b0 :: b1 :: be2 sequence_number ++ be4 timestamp) ssrc (cs ++ ext ++ rest) SS). }
  rewrite E1, E2, E3. cbn [bind]. rewrite F1, F2, F3, F4. cbn [Z.eqb Pos.eqb negb].
  replace (length <? 12 + zlen csrcs * 4) with false by lia. cbn [bind].
  assert (E4 : read_csrcs (Z.to_nat (zlen csrcs)) (b0 :: b1 :: f ++ cs ++ ext ++ rest) 12 0 (arrOfCSRCs zero_header) = Ok (csrc_array csrcs)).
  { cbn [arrOfCSRCs zero_header]. rewrite <- blit_csrcs by assumption. replace (Z.to_nat (zlen csrcs)) with (List.length csrcs) by (unfold zlen; lia).
    exact (read_csrcs_all csrcs FC (b0 :: b1 :: f) (ext ++ rest) 0 (zeros kRtpCsrcSize)). }
  rewrite E4. cbn [bind]. rewrite G1, G2. cbn [extension zero_header hasTransportSequenceNumber transportSequenceNumber no_extension].
  fold no_extension. unfold ext in *. clear E1 E2 E3 E4. unfold X, extension_bytes in *. destruct (actives m) as [|a0 l0] eqn:AM.
  - cbn [headerLength paddingLength]. rewrite (@zlen_nil Z) in *. replace (length <? _) with false by lia. cbn [negb]. do 3 f_equal.
    + lia.
    + rewrite <- (sent_all s (registry_entries _ R)). fold m. now rewrite AM.
  - set (es := elements s m) in *. set (pad := pad4 (zlen es)) in *.
    pose proof (zlen_elements s m (registry_entries _ R)) as (E4' & _ & G'). rewrite AM, (@zlen_cons (Z * HeaderExtension)) in *.
    pose proof (zlen_nonneg l0). fold es in E4', G'. pose proof (pad4_range (zlen es) ltac:(lia)) as (P & Q & Q'). fold pad in P, Q, Q'.
    pose proof (zlen_actives m) as ZA. pose proof (registry_short m R) as ZS. rewrite AM, (@zlen_cons (Z * HeaderExtension)) in ZA.
    assert (RL : zlen (repeat 0 (Z.to_nat pad)) = pad) by (unfold zlen at 1; rewrite repeat_length; lia).
    set (W := be2 (Word32Align (zlen es) / 4)) in *. set (h := be2 kRtpOneByteHeaderExtensionId) in *.
    assert (ZE : zlen (h ++ W ++ es ++ repeat 0 (Z.to_nat pad)) = 4 + zlen es + pad)
      by (rewrite !zlen_app, RL; change (zlen h) with 2; change (zlen W) with 2; lia).
    rewrite ZE in *. change (match h ++ W ++ es ++ repeat 0 (Z.to_nat pad) with [] => false | _ => true end) with true. cbv iota.
    replace (length - (12 + zlen csrcs * 4) <? 4) with false by lia.
    set (pre := b0 :: b1 :: f ++ cs). assert (ZP : zlen pre = 12 + zlen csrcs * 4)
      by (unfold pre; rewrite !zlen_cons, zlen_app, ZC; change (zlen f) with 10; lia).
    replace (b0 :: b1 :: f ++ cs ++ (h ++ W ++ es ++ repeat 0 (Z.to_nat pad)) ++ rest)
      with (pre ++ h ++ W ++ es ++ repeat 0 (Z.to_nat pad) ++ rest) by (unfold pre; cbn [app]; rewrite <- !app_assoc; reflexivity).
    rewrite <- ZP. unfold h at 1. rewrite be16_written. cbn [bind]. fold h.
    rewrite (app_assoc pre h). replace (zlen pre + 2) with (zlen (pre ++ h)) by (rewrite zlen_app; reflexivity).
    unfold W at 1. rewrite be16_written. cbn [bind]. fold W.
    rewrite <- Q' . rewrite u16_id by (unfold in_u16; dlia).
    replace ((zlen es + pad) / 4 * 4) with (zlen es + pad) by dlia.
    replace (length - zlen pre <? 4 + (zlen es + pad)) with false by lia.
    change (u16 kRtpOneByteHeaderExtensionId =? kRtpOneByteHeaderExtensionId) with true. cbv iota.
    rewrite (app_assoc _ W). replace (zlen pre + 4) with (zlen ((pre ++ h) ++ W)) by (rewrite !zlen_app; change (zlen h) with 2; change (zlen W) with 2; lia).
    rewrite (parse_block s reg _ rest); fold m; try assumption; [|rewrite AM; assumption|rewrite AM; discriminate|fold es pad; lia].
    cbn [bind set_header_end headerLength paddingLength extension markerBit payloadType sequenceNumber RtpExtensions.timestamp
      RtpExtensions.ssrc numCSRCs arrOfCSRCs payload_type_frequency zero_header].
    assert (ZP2 : zlen ((pre ++ h) ++ W) = 16 + 4 * zlen csrcs) by (rewrite !zlen_app, ZP; change (zlen h) with 2; change (zlen W) with 2; lia).
    rewrite ZP2. replace (16 + 4 * zlen csrcs + (zlen es + pad)) with (12 + 4 * zlen csrcs + (4 + zlen es + pad)) by lia.
    rewrite Z.add_0_r. replace (length <? 12 + 4 * zlen csrcs + (4 + zlen es + pad)) with false by lia. reflexivity.
Qed.

(** C6. A header that is written, with its CSRCs and its extensions, is read
    as it was written by a receiver with the same extensions, whatever follows
    it in the packet; only the bytes of the header are changed. *)
Theorem header_is_read s reg header payload_type ssrc marker_bit timestamp sequence_number csrcs :
  let m := rtp_header_extension_map_ s in
  registry m -> values_ok s -> agrees reg m ->
  0 <= payload_type < 128 -> in_u32 ssrc -> in_u32 timestamp -> in_u16 sequence_number -> Forall in_u32 csrcs -> zlen csrcs <= 15 ->
  12 + 4 * zlen csrcs + GetTotalLengthInBytes m <= zlen header ->
  exists n p, CreateRtpHeader s header payload_type ssrc marker_bit timestamp sequence_number csrcs = Ok (p, n) /\
    n = 12 + 4 * zlen csrcs + GetTotalLengthInBytes m /\ zlen p = zlen header /\
    skipn (Z.to_nat n) p = skipn (Z.to_nat n) header /\
    forall rest length, n <= length ->
      RtpHeaderParserImpl_Parse reg (firstn (Z.to_nat n) p ++ rest) length =
        Ok (true, mk_header marker_bit payload_type sequence_number timestamp ssrc (zlen csrcs) (csrc_array csrcs) 0 n 0 (sent_extension s)).
Proof.
  cbv zeta. intros R V A PT SS TS SN FC LC L. set (bs := header_bytes s payload_type ssrc marker_bit timestamp sequence_number csrcs).
  assert (ZB : zlen bs = 12 + 4 * zlen csrcs + GetTotalLengthInBytes (rtp_header_extension_map_ s)).
  { unfold bs, header_bytes. rewrite !zlen_app, zlen_be4s, (zlen_extension_bytes _ _ (registry_entries _ R)).
    change (zlen (be2 sequence_number)) with 2. change (zlen (be4 timestamp)) with 4. change (zlen (be4 ssrc)) with 4.
    match goal with |- context [zlen [?a; ?b]] => change (zlen [a; b]) with 2 end. lia. }
  exists (zlen bs), (bs ++ skipn (List.length bs) header).
  assert (EN : Z.to_nat (zlen bs) = List.length bs) by (unfold zlen; lia). rewrite EN.
  split; [|split; [|split; [|split]]].
  - apply CreateRtpHeader_bytes; [assumption|assumption|fold bs; lia].
  - exact ZB.
  - rewrite zlen_app. unfold zlen in *. rewrite length_skipn. lia.
  - rewrite skipn_app, skipn_all, Nat.sub_diag. reflexivity.
  - intros rest length LN. rewrite firstn_app, firstn_all, Nat.sub_diag. cbn [firstn]. rewrite app_nil_r.
    unfold RtpHeaderParserImpl_Parse. rewrite (agrees_copy _ _ A).
    apply (parse_header s reg payload_type ssrc marker_bit timestamp sequence_number csrcs rest length R V A); assumption.
Qed.

(** The extensions of the example: numbers and types in another order. *)
Definition sample_map : RtpHeaderExtensionMap :=
  [(2, new_HeaderExtension kRtpExtensionTransportSequenceNumber true); (3, new_HeaderExtension kRtpExtensionAbsoluteSendTime true);
   (5, new_HeaderExtension kRtpExtensionVideoRotation false); (9, new_HeaderExtension kRtpExtensionTransmissionTimeOffset true);
   (14, new_HeaderExtension kRtpExtensionAudioLevel true)].
Definition sample_sender : RTPSender :=
  mk_sender sample_map (-1234) 0x123456 kVideoRotation_90 65535 0 0 0 0 [] 0 0 false.

Lemma sample_registry : registry sample_map.
Proof.
  constructor.
  - unfold sorted. cbn. repeat (constructor; [|repeat (constructor; [lia|]); constructor]). constructor.
  - repeat (constructor; [split; [cbn; lia|split; [discriminate|reflexivity]]|]). constructor.
  - cbn. repeat (constructor; [cbn; intuition discriminate|]). constructor.
Qed.

Lemma sample_agrees : agrees sample_map sample_map.
Proof.
  destruct sample_registry as [A B _]. split; [exact A|split; [exact B|]].
  repeat (constructor; [vm_compute; reflexivity|]). constructor.
Qed.

Lemma header_is_read_witness : exists n p,
  CreateRtpHeader sample_sender (zeros 60) 96 0xDEADBEEF true 90000 65535 [1; 2] = Ok (p, n) /\
  n = 12 + 4 * zlen [1; 2] + GetTotalLengthInBytes sample_map /\ zlen p = zlen (zeros 60) /\
  skipn (Z.to_nat n) p = skipn (Z.to_nat n) (zeros 60) /\
  forall rest length, n <= length ->
    RtpHeaderParserImpl_Parse sample_map (firstn (Z.to_nat n) p ++ rest) length =
      Ok (true, mk_header true 96 65535 90000 0xDEADBEEF (zlen [1; 2]) (csrc_array [1; 2]) 0 n 0 (sent_extension sample_sender)).
Proof.
  apply (header_is_read sample_sender sample_map (zeros 60)).
  - exact sample_registry.
  - repeat split; vm_compute; congruence.
  - exact sample_agrees.
  - lia.
  - vm_compute. split; congruence.
  - vm_compute. split; congruence.
  - vm_compute. split; congruence.
  - repeat (constructor; [vm_compute; split; congruence|]). constructor.
  - vm_compute. congruence.
  - vm_compute. congruence.
Defined.

(** ** Any bytes *)

Lemma ParsePaddingBytes_ok p n : forall ptr k, 0 <= ptr -> n = O \/ ptr + Z.of_nat n <= zlen p -> 0 <= k ->
  exists v, ParsePaddingBytes n p ptr k = Ok v /\ 0 <= v.
Proof.
  induction n as [|n IH]; intros ptr k P L K; [now exists k|]. cbn [ParsePaddingBytes]. rewrite byte_ok by lia. cbn [bind].
  destruct (rd p ptr =? 0); cbn [negb]; [|now exists k]. apply IH; try lia. pose proof (u8_range (k + 1)). unfold in_u8 in *. lia.
Qed.

Lemma ParseElement_ok p ptr len t e : 0 <= ptr -> ptr + 3 <= zlen p -> exists r, ParseElement p ptr len t e = Ok r.
Proof.
  intros P L. unfold ParseElement, read24. destruct t; try case_if; rewrite ?byte_ok, ?be16_ok by lia; cbn [bind];
    rewrite ?byte_ok, ?be16_ok by lia; eexists; reflexivity.
Qed.

(** What is read behind the end of a packet: nothing without extensions. *)
Definition overread (reg : RtpHeaderExtensionMap) : Z := match reg with [] => 0 | _ => 3 end.

Lemma parse_loop_ok reg p stop : stop + overread reg <= zlen p ->
  forall fuel ptr e, 0 <= ptr -> stop - ptr <= Z.of_nat fuel -> exists e', ParseOneByteExtensionHeader fuel reg p stop ptr e = Ok e'.
Proof.
  intros L. assert (0 <= overread reg) by (unfold overread; destruct reg; lia).
  induction fuel as [|fuel IH]; intros ptr e P Fu; cbn [ParseOneByteExtensionHeader].
  { replace (stop - ptr <=? 0) with true by lia. eauto. }
  destruct (Z.leb_spec (stop - ptr) 0); [eauto|]. rewrite byte_ok by lia. cbn [bind].
  set (len := Z.land (rd p ptr) 15). assert (0 <= len) by (apply Z.land_nonneg; right; lia).
  destruct (_ =? 15); [eauto|].
  assert (R : exists r, match GetType reg (Z.shiftr (Z.land (rd p ptr) 0xf0) 4) with
                        | None => Ok (Some e)
                        | Some t => ParseElement p (ptr + 1) len t e
                        end = Ok r).
  { destruct reg as [|x reg]; [cbn; eauto|]. unfold overread in L. destruct (GetType _ _); [|eauto]. apply ParseElement_ok; lia. }
  destruct R as [[e'|] ->]; cbn [bind]; [|eauto].
  destruct (ParsePaddingBytes_ok p (Z.to_nat (stop - (ptr + 1 + (len + 1)))) (ptr + 1 + (len + 1)) 0) as (v & -> & V); try lia.
  cbn [bind]. apply IH; lia.
Qed.

Lemma read_csrcs_ok p n : forall ptr i a, 0 <= ptr -> ptr + 4 * Z.of_nat n <= zlen p -> exists a', read_csrcs n p ptr i a = Ok a'.
Proof.
  induction n as [|n IH]; intros ptr i a P L; [now exists a|]. cbn [read_csrcs]. rewrite be32_ok by lia. cbn [bind]. apply IH; lia.
Qed.

Lemma GetCopy_nil reg : overread (GetCopy reg []) <= overread reg.
Proof. destruct reg as [|x reg]; [cbn; lia|]. unfold overread. destruct (GetCopy (x :: reg) []); lia. Qed.

(** C19. Whatever the bytes, the parser comes to an end, and without registered
    extensions it reads nothing outside the packet; with extensions it reads
    at most three bytes behind it.  A header that is accepted lies inside the
    packet with its padding. *)
Theorem Parse_reads p length reg : bytes p -> 0 <= length -> length + overread reg <= zlen p ->
  exists valid h, RtpHeaderParserImpl_Parse reg p length = Ok (valid, h) /\
    (valid = true -> 12 <= headerLength h /\ headerLength h + paddingLength h <= length).
Proof.
  intros B L0 L. pose proof (GetCopy_nil reg). unfold RtpHeaderParserImpl_Parse. set (m := GetCopy reg []) in *.
  assert (0 <= overread m) by (unfold overread; destruct m; lia).
  assert (bad : forall h, exists valid h', Ok (false, h) = Ok (valid, h') /\
    (valid = true -> 12 <= headerLength h' /\ headerLength h' + paddingLength h' <= length)) by (intros h; exists false, h; now split).
  unfold Parse. destruct (Z.ltb_spec length 12); [apply bad|]. rewrite !byte_ok, be16_ok, !be32_ok by lia. cbn [bind]. cbv zeta.
  destruct (negb (Z.shiftr (rd p 0) 6 =? 2)); [apply bad|]. set (CC := Z.land (rd p 0) 15).
  assert (0 <= CC) by (apply Z.land_nonneg; right; lia). destruct (Z.ltb_spec length (12 + CC * 4)); [apply bad|].
  assert (EP : exists v, (if negb (Z.land (rd p 0) 32 =? 0) then Ok (rd p (length - 1)) else Ok 0) = Ok v) by (case_if; eauto).
  destruct EP as (v & ->). cbn [bind]. destruct (read_csrcs_ok p (Z.to_nat CC) 12 0 (arrOfCSRCs zero_header)) as (cs & ->); [lia|lia|].
  cbn [bind]. destruct (negb (Z.land (rd p 0) 16 =? 0)).
  - destruct (Z.ltb_spec (length - (12 + CC * 4)) 4); [apply bad|]. rewrite !be16_ok by lia. cbn [bind].
    set (X := b16 p (12 + CC * 4 + 2) * 4). assert (0 <= X) by (pose proof (b16_range p (12 + CC * 4 + 2) B); unfold in_u16, X in *; lia).
    destruct (Z.ltb_spec (length - (12 + CC * 4)) (4 + X)); [apply bad|].
    set (e0 := mk_ext _ _ _ _ _ _ _ _ _ _ _).
    assert (EE : exists e, (if b16 p (12 + CC * 4) =? kRtpOneByteHeaderExtensionId
                            then ParseOneByteExtensionHeader (Z.to_nat X) m p (12 + CC * 4 + 4 + X) (12 + CC * 4 + 4) e0 else Ok e0) = Ok e).
    { case_if; [|eauto]. apply parse_loop_ok; lia. }
    destruct EE as (e & ->). cbn [bind]. eexists _, _. split; [reflexivity|]. cbn [set_header_end headerLength paddingLength].
    destruct (Z.ltb_spec length (12 + CC * 4 + 4 + X + v)); cbn [negb]; [discriminate|]. lia.
  - eexists _, _. split; [reflexivity|]. cbn [headerLength paddingLength].
    destruct (Z.ltb_spec length (12 + CC * 4 + v)); cbn [negb]; [discriminate|]. lia.
Qed.

Lemma Parse_reads_witness : exists valid h, RtpHeaderParserImpl_Parse sample_map (repeat 0x90 40) 37 = Ok (valid, h) /\
  (valid = true -> 12 <= headerLength h /\ headerLength h + paddingLength h <= 37).
Proof.
  apply Parse_reads; [|lia|vm_compute; congruence]. apply bytes_forallb. vm_compute. reflexivity.
Defined.

(** The bytes behind the packet are read: an element of three bytes that
    starts in the last one. *)
Example element_behind_the_end :
  RtpHeaderParserImpl_Parse sample_map ([0x90; 0; 0; 0; 0; 0; 0; 0; 0; 0; 0; 0; 0xBE; 0xDE; 0; 1] ++ [0; 0; 0; 0x32]) 20 = Oob.
Proof. vm_compute. reflexivity. Qed.
End RtpExtensionsParse.
