(* ===== verification/RtpExtensionsUpdate.v ===== *)
(** * RTP headers with extensions: changes in place

    The methods that change an extension of a packet that is already written:
    without CSRCs they leave the packet the sender would have written with the
    new value.  With CSRCs they look for the extensions at the wrong place. *)

From Stdlib Require Import Sorted.
From S2P Require Import Prelude Wire OrderedMap RtpExtensions RtpExtensionsFacts RtpExtensionsParse.
Import Wire OrderedMap RtpExtensions RtpExtensionsFacts RtpExtensionsParse.

Module RtpExtensionsUpdate.

Lemma actives_mid l1 l2 x : active (snd x) = true -> actives (l1 ++ x :: l2) = actives l1 ++ x :: actives l2.
Proof. intros A. unfold actives. rewrite filter_app. cbn [filter]. destruct x as [id e]. cbn in A. now rewrite A. Qed.

Lemma elements_mid s l1 l2 x : active (snd x) = true ->
  elements s (l1 ++ x :: l2) = elements s l1 ++ element s x ++ elements s l2.
Proof. intros A. unfold elements. rewrite actives_mid, map_app, concat_app by assumption. reflexivity. Qed.

Lemma block_start_mid s l2 x l1 : NoDup (types (l1 ++ x :: l2)) -> Forall entry_ok l1 -> active (snd x) = true ->
  forall n, 0 <= n -> n + zlen (elements s l1) < 65536 -> block_start (l1 ++ x :: l2) (type (snd x)) n = n + zlen (elements s l1).
Proof.
  destruct x as [id e]. cbn [snd]. induction l1 as [|[i w] l1 IH]; intros N F A n P L; cbn [app block_start].
  - rewrite type_eqb_refl, A. cbn [negb]. change (elements s []) with (@nil Z). rewrite (@zlen_nil Z). lia.
  - inversion N as [|? ? NI N']; subst. inversion F as [|? ? Fw F']; subst.
    destruct (type_eqb_spec (type w) (type e)) as [E|_].
    { elim NI. cbn. rewrite E. fold (types (l1 ++ (id, e) :: l2)). unfold types. rewrite map_app. apply in_or_app. right. now left. }
    destruct (zlen_element s _ Fw) as [ZE ZR]. cbn [snd] in ZE, ZR.
    pose proof (zlen_nonneg (elements s l1)).
    assert (EL : elements s ((i, w) :: l1) = if active w then element s (i, w) ++ elements s l1 else elements s l1).
    { unfold elements, actives. cbn [filter]. now destruct (active w). }
    rewrite EL in *. destruct (active w); [rewrite zlen_app in *; rewrite u16_id by (unfold in_u16; lia)|];
      rewrite IH by (assumption || lia); lia.
Qed.

(** What precedes and what follows the elements in a header without CSRCs. *)
Definition before_elements (n payload_type ssrc : Z) (marker_bit : bool) (timestamp sequence_number : Z) : list Z :=
  [0x90; (if marker_bit then Z.lor (u8 payload_type) 0x80 else u8 payload_type)] ++
  be2 sequence_number ++ be4 timestamp ++ be4 ssrc ++ be2 kRtpOneByteHeaderExtensionId ++ be2 (Word32Align n / 4).
Definition behind_elements (n : Z) : list Z := repeat 0 (Z.to_nat (pad4 n)).

(** The header with [el] as the bytes of an element. *)
Definition header_with (el : Z * HeaderExtension -> list Z) (m : RtpHeaderExtensionMap) (payload_type ssrc : Z)
    (marker_bit : bool) (timestamp sequence_number : Z) : list Z :=
  let es := concat (map el (actives m)) in
  before_elements (zlen es) payload_type ssrc marker_bit timestamp sequence_number ++ es ++ behind_elements (zlen es).

Lemma header_split s payload_type ssrc marker_bit timestamp sequence_number :
  let es := elements s (rtp_header_extension_map_ s) in
  actives (rtp_header_extension_map_ s) <> [] ->
  header_bytes s payload_type ssrc marker_bit timestamp sequence_number [] =
    before_elements (zlen es) payload_type ssrc marker_bit timestamp sequence_number ++ es ++ behind_elements (zlen es).
Proof.
  cbv zeta. intros A. unfold header_bytes, extension_bytes. destruct (actives _) as [|a l]; [congruence|].
  unfold before_elements, behind_elements. cbn [map concat app]. rewrite <- !app_assoc. reflexivity.
Qed.

Lemma zlen_before n pt ssrc mk ts sq : zlen (before_elements n pt ssrc mk ts sq) = 16.
Proof. reflexivity. Qed.

Lemma magic_read n pt ssrc mk ts sq r :
  byte (before_elements n pt ssrc mk ts sq ++ r) 12 = Ok 0xBE /\ byte (before_elements n pt ssrc mk ts sq ++ r) (12 + 1) = Ok 0xDE.
Proof.
  set (b1 := if mk then Z.lor (u8 pt) 0x80 else u8 pt). split.
  - exact (byte_head ([0x90; b1] ++ be2 sq ++ be4 ts ++ be4 ssrc) 0xBE (0xDE :: be2 (Word32Align n / 4) ++ r)).
  - exact (byte_head ([0x90; b1] ++ be2 sq ++ be4 ts ++ be4 ssrc ++ [0xBE]) 0xDE (be2 (Word32Align n / 4) ++ r)).
Qed.

(** Writing over bytes of the same number. *)
Lemma fills_over f bs : fills f bs -> forall pre old post, length old = length bs ->
  f (pre ++ old ++ post) (zlen pre) = Ok (pre ++ bs ++ post).
Proof.
  intros F pre old post L. rewrite F by (rewrite zlen_app; pose proof (zlen_nonneg post); unfold zlen in *; lia).
  rewrite skipn_app, <- L, skipn_all, Nat.sub_diag. reflexivity.
Qed.

Section Update.
Variables (s : RTPSender) (payload_type ssrc : Z) (marker_bit : bool) (timestamp sequence_number : Z).
Variables (rest : list Z) (h : RTPHeader) (len : Z) (l1 l2 : RtpHeaderExtensionMap) (x : Z * HeaderExtension).
Let m := rtp_header_extension_map_ s.
Let bytes_of s := header_bytes s payload_type ssrc marker_bit timestamp sequence_number [].
Hypothesis Reg : registry m.
Hypothesis M : m = l1 ++ x :: l2.
Hypothesis A : active (snd x) = true.
Hypothesis Hcsrcs : numCSRCs h = 0.
Hypothesis Hlen : headerLength h = zlen (bytes_of s).
Hypothesis Len : zlen (bytes_of s) <= len.

Lemma x_ok : entry_ok x /\ GetId m (type (snd x)) = Some (fst x).
Proof.
  split; [apply (proj1 (Forall_forall _ _) (registry_entries _ Reg)); rewrite M; apply in_elt|].
  pose proof (GetId_mid l1 l2 (fst x) (snd x)) as G. rewrite <- surjective_pairing, <- M in G. apply G, (registry_types _ Reg).
Qed.

Lemma actives_some : actives m <> [].
Proof. rewrite M, actives_mid by assumption. now destruct (actives l1). Qed.

Lemma element_head_length : exists data, element s x = element_head (fst x) (length_ (snd x) - 2) :: data.
Proof.
  destruct x_ok as [(_ & T & L) _]. unfold element. rewrite L.
  destruct (type (snd x)); try congruence; cbn [new_HeaderExtension length_]; eexists; reflexivity.
Qed.

(** The place that is found. *)
Lemma verify_ok : VerifyExtension s (type (snd x)) (bytes_of s ++ rest) len h (length_ (snd x)) = Ok (kOk (16 + zlen (elements s l1))).
Proof.
  destruct x_ok as [(R & T & L) G]. destruct element_head_length as [data ED].
  pose proof (zlen_element s x (conj R (conj T L))) as [ZX ZR].
  pose proof (registry_entries _ Reg) as F. rewrite M in F. apply Forall_app in F as [F1 F2]. inversion F2 as [|? ? _ F3]; subst x0 l.
  pose proof (zlen_elements s l1 F1) as (Z1 & _ & _). pose proof (zlen_actives l1). pose proof (registry_short m Reg) as RS.
  rewrite M, zlen_app, zlen_cons in RS. pose proof (zlen_nonneg l2).
  assert (HS := header_split s payload_type ssrc marker_bit timestamp sequence_number actives_some). fold m in HS.
  unfold bytes_of in *. pose proof (zlen_nonneg (elements s l1)). pose proof (zlen_nonneg (elements s l2)).
  pose proof (zlen_nonneg (behind_elements (zlen (elements s m)))).
  assert (ZB : zlen (header_bytes s payload_type ssrc marker_bit timestamp sequence_number []) =
               16 + (zlen (elements s l1) + zlen (element s x) + zlen (elements s l2)) + zlen (behind_elements (zlen (elements s m)))).
  { rewrite HS, !zlen_app, zlen_before. rewrite M at 1. rewrite elements_mid, !zlen_app by assumption. lia. }
  unfold VerifyExtension, FindHeaderExtensionPosition. fold m. rewrite G. unfold GetLengthUntilBlockStartInBytes. rewrite G, M.
  rewrite (block_start_mid s) by (unfold kRtpOneByteHeaderLength; first [assumption | lia | rewrite <- M; apply (registry_types _ Reg)]).
  unfold kRtpOneByteHeaderLength, kRtpHeaderLength. rewrite Hcsrcs, Z.add_0_r.
  replace (4 + zlen (elements s l1) <? 0) with false by lia. rewrite <- L, Hlen.
  replace (len <? 12 + (4 + zlen (elements s l1)) + length_ (snd x)) with false by lia.
  replace (zlen _ <? 12 + (4 + zlen (elements s l1)) + length_ (snd x)) with false by lia. cbn [orb].
  rewrite HS, <- !app_assoc. set (B := before_elements _ _ _ _ _ _).
  destruct (magic_read (zlen (elements s m)) payload_type ssrc marker_bit timestamp sequence_number
              (elements s m ++ behind_elements (zlen (elements s m)) ++ rest)) as [E1 E2]. fold B in E1, E2.
  rewrite E1, E2. cbn [bind]. change (negb (0xBE =? 0xBE)) with false. change (negb (0xDE =? 0xDE)) with false. cbv iota. cbn [bind].
  change (negb ((0xBE =? 0xBE) && (0xDE =? 0xDE))) with false. cbv iota. rewrite M at 1. rewrite elements_mid, ED, <- !app_assoc by assumption.
  rewrite app_assoc. replace (12 + (4 + zlen (elements s l1))) with (zlen (B ++ elements s l1)) by (rewrite zlen_app; unfold B; rewrite zlen_before; lia).
  cbn [app]. rewrite byte_head. cbn [bind]. rewrite Z.eqb_refl. cbn [negb]. do 2 f_equal. rewrite zlen_app. unfold B. rewrite zlen_before. lia.
Qed.

(** The elements with the new value: the same but for the data of one. *)
Variables (el : Z * HeaderExtension -> list Z) (data : list Z).
Hypothesis Size : zlen data = length_ (snd x) - 1.
Hypothesis Others : forall y, type (snd y) <> type (snd x) -> el y = element s y.
Hypothesis New : el x = element_head (fst x) (length_ (snd x) - 2) :: data.

Lemma elements_others l : ~ In (type (snd x)) (types l) -> concat (map el (actives l)) = elements s l.
Proof.
  intros N. unfold elements, actives. induction l as [|[i e] l IH]; [reflexivity|]. cbn [types map In snd] in N. cbn [filter].
  destruct (active e); cbn [map concat]; rewrite IH by tauto; [|reflexivity]. rewrite Others by (cbn; intuition congruence). reflexivity.
Qed.

Lemma update_ok f : fills f data ->
  f (bytes_of s ++ rest) (16 + zlen (elements s l1) + 1) =
    Ok (header_with el m payload_type ssrc marker_bit timestamp sequence_number ++ rest).
Proof.
  intros F. destruct element_head_length as [old ED].
  assert (N : NoDup (types l1 ++ type (snd x) :: types l2)).
  { pose proof (registry_types _ Reg) as N. rewrite M in N. unfold types in N. now rewrite map_app in N. }
  apply NoDup_remove_2 in N. rewrite in_app_iff in N.
  assert (E1 := elements_others l1 ltac:(tauto)). assert (E2 := elements_others l2 ltac:(tauto)).
  assert (LE : length data = length old).
  { destruct x_ok as [O _]. pose proof (zlen_element s x O) as [Z1 _]. rewrite ED, zlen_cons in Z1. unfold zlen in *. lia. }
  assert (EM : concat (map el (actives m)) = elements s l1 ++ (element_head (fst x) (length_ (snd x) - 2) :: data) ++ elements s l2).
  { rewrite M, actives_mid, map_app, concat_app, E1 by assumption. cbn [map concat]. rewrite New, E2. reflexivity. }
  assert (EO : elements s m = elements s l1 ++ (element_head (fst x) (length_ (snd x) - 2) :: old) ++ elements s l2).
  { rewrite M, elements_mid, ED by assumption. reflexivity. }
  assert (ZE : zlen (concat (map el (actives m))) = zlen (elements s m)) by (rewrite EM, EO, !zlen_app, !zlen_cons; unfold zlen; lia).
  unfold bytes_of. pose proof (header_split s payload_type ssrc marker_bit timestamp sequence_number) as H1.
  cbv zeta in H1. fold m in H1. unfold header_with. cbv zeta. rewrite H1, ZE by apply actives_some.
  set (B := before_elements _ _ _ _ _ _). set (Q := behind_elements _).
  rewrite EM, EO. set (hd := element_head _ _).
  replace ((B ++ (elements s l1 ++ (hd :: old) ++ elements s l2) ++ Q) ++ rest)
    with ((B ++ elements s l1 ++ [hd]) ++ old ++ elements s l2 ++ Q ++ rest) by (rewrite <- !app_assoc; reflexivity).
  replace (16 + zlen (elements s l1) + 1) with (zlen (B ++ elements s l1 ++ [hd])) by (rewrite !zlen_app; unfold B; rewrite zlen_before; change (zlen [hd]) with 1; lia).
  rewrite (fills_over f data F) by now symmetry. f_equal. rewrite <- !app_assoc. reflexivity.
Qed.
End Update.

(** ** The methods *)

Lemma on_split m t : on m t = true -> exists l1 x l2, m = l1 ++ x :: l2 /\ active (snd x) = true /\ type (snd x) = t.
Proof.
  unfold on. intros H. apply existsb_exists in H as ([id e] & I & H). apply andb_true_iff in H as [A T].
  apply in_split in I as (l1 & l2 & ->). exists l1, (id, e), l2. repeat split; [assumption|].
  cbn. now destruct (type_eqb_spec (type e) t).
Qed.

(** An extension that is not active has no place. *)
Lemma block_start_off m t : on m t = false -> forall n, GetId m t <> None -> block_start m t n = -1.
Proof.
  unfold on. induction m as [|[i e] m IH]; cbn [existsb GetId block_start]; intros O n G; [congruence|].
  apply orb_false_iff in O as [O1 O2]. destruct (type_eqb (type e) t).
  - destruct (active e); [discriminate|reflexivity].
  - now apply IH.
Qed.

Lemma verify_off s t p len h n : on (rtp_header_extension_map_ s) t = false ->
  exists st, VerifyExtension s t p len h n = Ok st /\ (st = kNotRegistered \/ st = kError).
Proof.
  intros O. unfold VerifyExtension, FindHeaderExtensionPosition, GetLengthUntilBlockStartInBytes.
  destruct (GetId (rtp_header_extension_map_ s) t) as [id|] eqn:G; [|eauto].
  rewrite block_start_off by (assumption || congruence). cbn. eauto.
Qed.

Definition set_offset (s : RTPSender) (v : Z) : RTPSender :=
  set_extensions s (rtp_header_extension_map_ s) v (absolute_send_time_ s) (rotation_ s) (transport_sequence_number_ s).
Definition set_send_time (s : RTPSender) (v : Z) : RTPSender :=
  set_extensions s (rtp_header_extension_map_ s) (transmission_time_offset_ s) v (rotation_ s) (transport_sequence_number_ s).

(** What [UpdateAudioLevel] writes; a sender has no field for it. *)
Definition audio_level (is_voiced : bool) (dBov : Z) : Z := (if is_voiced then 0x80 else 0x00) + Z.land dBov 0x7f.
Definition leveled (s : RTPSender) (level : Z) (x : Z * HeaderExtension) : list Z :=
  if type_eqb (type (snd x)) kRtpExtensionAudioLevel then [element_head (fst x) 0; level] else element s x.

Lemma audio_level_range v d : u8 (audio_level v d) = audio_level v d.
Proof.
  apply u8_id. unfold audio_level. change 0x7f with (Z.ones 7). rewrite Z.land_ones by lia.
  destruct v; int_unfold; pose proof (Z.mod_pos_bound d (2 ^ 7)); lia.
Qed.

(** One method: [f] writes the data of the new element. *)
Lemma updated_with s el t f data payload_type ssrc marker_bit timestamp sequence_number rest h len n :
  let bytes_of s := header_bytes s payload_type ssrc marker_bit timestamp sequence_number [] in
  let m := rtp_header_extension_map_ s in
  registry m -> on m t = true ->
  numCSRCs h = 0 -> headerLength h = zlen (bytes_of s) -> zlen (bytes_of s) <= len ->
  zlen data = n - 1 ->
  (forall y, type (snd y) <> t -> el y = element s y) ->
  (forall x, type (snd x) = t -> el x = element_head (fst x) (n - 2) :: data) ->
  n = length_ (new_HeaderExtension t true) -> fills f data ->
  exists o, VerifyExtension s t (bytes_of s ++ rest) len h n = Ok (kOk o) /\
    f (bytes_of s ++ rest) (o + 1) = Ok (header_with el m payload_type ssrc marker_bit timestamp sequence_number ++ rest).
Proof.
  cbv zeta. intros R On HC HL L Size Others New -> F. destruct (on_split _ _ On) as (l1 & x & l2 & M & A & T). subst t.
  assert (LX : length_ (snd x) = length_ (new_HeaderExtension (type (snd x)) true)).
  { assert (O : entry_ok x) by (apply (proj1 (Forall_forall _ _) (registry_entries _ R)); rewrite M; apply in_elt). apply O. }
  exists (16 + zlen (elements s l1)). rewrite <- LX in *. split.
  - apply (verify_ok s payload_type ssrc marker_bit timestamp sequence_number rest h len l1 l2 x); assumption.
  - apply (update_ok s payload_type ssrc marker_bit timestamp sequence_number rest l1 l2 x R M A el data Size Others); auto.
Qed.

Lemma on_actives m t : on m t = true -> actives m <> [].
Proof.
  intros O. destruct (on_split _ _ O) as (l1 & x & l2 & -> & A & _). rewrite actives_mid by assumption. now destruct (actives l1).
Qed.

(** The same where the new value is a field of the sender. *)
Lemma updated s s' t f data payload_type ssrc marker_bit timestamp sequence_number rest h len n :
  let bytes_of s := header_bytes s payload_type ssrc marker_bit timestamp sequence_number [] in
  registry (rtp_header_extension_map_ s) -> on (rtp_header_extension_map_ s) t = true ->
  numCSRCs h = 0 -> headerLength h = zlen (bytes_of s) -> zlen (bytes_of s) <= len ->
  rtp_header_extension_map_ s' = rtp_header_extension_map_ s ->
  (forall y, type (snd y) <> t -> element s' y = element s y) ->
  (forall x, type (snd x) = t -> element s' x = element_head (fst x) (n - 2) :: data) ->
  zlen data = n - 1 -> n = length_ (new_HeaderExtension t true) -> fills f data ->
  exists o, VerifyExtension s t (bytes_of s ++ rest) len h n = Ok (kOk o) /\ f (bytes_of s ++ rest) (o + 1) = Ok (bytes_of s' ++ rest).
Proof.
  cbv zeta. intros R On HC HL L Same Others New Size N F.
  destruct (updated_with s (element s') t f data payload_type ssrc marker_bit timestamp sequence_number rest h len n
    R On HC HL L Size Others New N F) as (o & V & E).
  exists o. split; [exact V|]. rewrite E. do 2 f_equal. unfold header_with. rewrite <- Same. symmetry. apply header_split.
  rewrite Same. eapply on_actives, On.
Qed.

(** The first byte at the place that is found. *)
Lemma verified s t p len h n o : VerifyExtension s t p len h n = Ok (kOk o) ->
  exists id, GetId (rtp_header_extension_map_ s) t = Some id /\ byte p o = Ok (element_head id (n - 2)).
Proof.
  unfold VerifyExtension. destruct (GetId _ t) as [id|]; [|discriminate].
  destruct (FindHeaderExtensionPosition _ _ _ _ _) as [[o'|]| |]; cbn [bind]; try discriminate.
  destruct (byte p (kRtpHeaderLength + _)) as [b| |]; cbn [bind]; try discriminate.
  destruct (byte p (kRtpHeaderLength + _ + 1)) as [b'| |]; cbn [bind]; try discriminate.
  destruct (negb (_ && _)); [discriminate|]. destruct (byte p o') as [x| |] eqn:B; cbn [bind]; try discriminate.
  destruct (Z.eqb_spec x (element_head id (n - 2))) as [->|]; [|discriminate].
  cbn [negb]. intros E. injection E as <-. exists id. now split.
Qed.

(** Writing what is there. *)
Lemma set8_same p i v : byte p i = Ok (u8 v) -> set8 p i v = Ok p.
Proof.
  unfold byte, set8. destruct ((0 <=? i) && (i <? zlen p)) eqn:B; [|discriminate]. intros E. injection E as E.
  rewrite <- E. f_equal. apply rd_ext; [apply zlen_wr|]. intros j Hj. rewrite zlen_wr in Hj.
  destruct (Z.eq_dec i j) as [->|]; [apply rd_wr_eq; lia|apply rd_wr_ne; lia].
Qed.

(** The elements of a sender in which only the value of one type has changed. *)
Ltac same_elements := intros [i e] T; unfold element; cbn [fst snd] in *; try rewrite T; try reflexivity; try (destruct (type e); (reflexivity || congruence)).

(** C20. On a packet without CSRCs each method that changes an extension leaves
    the packet that the sender would have written with the new value, when the
    extension is active, and the packet it was given when it is not.  (The
    sender has no field for the audio level: there the packet is the one with
    the new level in its element.)  With CSRCs the methods look at the wrong
    place ([csrcs_hide_the_extensions]). *)
Theorem extensions_updated s payload_type ssrc marker_bit timestamp sequence_number rest h len diff_ms now_ms rotation number is_voiced dBov :
  let m := rtp_header_extension_map_ s in
  let packet s := header_bytes s payload_type ssrc marker_bit timestamp sequence_number [] ++ rest in
  let updated t s' := if on m t then packet s' else packet s in
  registry m -> numCSRCs h = 0 ->
  headerLength h = zlen (header_bytes s payload_type ssrc marker_bit timestamp sequence_number []) -> headerLength h <= len ->
  UpdateTransmissionTimeOffset s (packet s) len h diff_ms =
    Ok (updated kRtpExtensionTransmissionTimeOffset (set_offset s (diff_ms * 90))) /\
  UpdateAbsoluteSendTime s (packet s) len h now_ms =
    Ok (updated kRtpExtensionAbsoluteSendTime (set_send_time s (ConvertMsTo24Bits now_ms))) /\
  UpdateVideoRotation s (packet s) len h rotation =
    Ok (on m kRtpExtensionVideoRotation, updated kRtpExtensionVideoRotation (SetVideoRotation s rotation)) /\
  UpdateTransportSequenceNumber number s (packet s) len h =
    Ok (if on m kRtpExtensionTransportSequenceNumber then number else 0,
        updated kRtpExtensionTransportSequenceNumber (SetTransportSequenceNumber s number)) /\
  UpdateAudioLevel s (packet s) len h is_voiced dBov =
    Ok (on m kRtpExtensionAudioLevel,
        if on m kRtpExtensionAudioLevel
        then header_with (leveled s (audio_level is_voiced dBov)) m payload_type ssrc marker_bit timestamp sequence_number ++ rest
        else packet s).
Proof.
  cbv zeta. intros R HC HL L. rewrite HL in L. set (m := rtp_header_extension_map_ s) in *.
  pose proof (fun s' t f data n Same Oth New Size Len F On =>
    updated s s' t f data payload_type ssrc marker_bit timestamp sequence_number rest h len n R On HC HL L Same Oth New Size Len F) as U.
  pose proof (fun t n => verify_off s t (header_bytes s payload_type ssrc marker_bit timestamp sequence_number [] ++ rest) len h n) as V.
  cbv zeta in U. fold m in U, V.
  unfold UpdateTransmissionTimeOffset, UpdateAbsoluteSendTime, UpdateVideoRotation, UpdateTransportSequenceNumber, UpdateAudioLevel.
  split; [|split; [|split; [|split]]].
  - destruct (on m kRtpExtensionTransmissionTimeOffset) eqn:O; [|destruct (V _ kTransmissionTimeOffsetLength O) as (st & -> & [-> | ->]); reflexivity].
    destruct (U (set_offset s (diff_ms * 90)) kRtpExtensionTransmissionTimeOffset (fun p o => write24 p o (diff_ms * 90)) (be3 (diff_ms * 90)) kTransmissionTimeOffsetLength)
      as (o & -> & E); try assumption; try reflexivity; [same_elements|same_elements|apply fills_write24].
  - destruct (on m kRtpExtensionAbsoluteSendTime) eqn:O; [|destruct (V _ kAbsoluteSendTimeLength O) as (st & -> & [-> | ->]); reflexivity].
    destruct (U (set_send_time s (ConvertMsTo24Bits now_ms)) kRtpExtensionAbsoluteSendTime (fun p o => write24 p o (ConvertMsTo24Bits now_ms))
      (be3 (ConvertMsTo24Bits now_ms)) kAbsoluteSendTimeLength) as (o & -> & E); try assumption; try reflexivity; [same_elements|same_elements|apply fills_write24].
  - destruct (on m kRtpExtensionVideoRotation) eqn:O; [|destruct (V _ kVideoRotationLength O) as (st & -> & [-> | ->]); reflexivity].
    destruct (U (SetVideoRotation s rotation) kRtpExtensionVideoRotation (fun p o => set8 p o (ConvertVideoRotationToCVOByte rotation))
      [u8 (ConvertVideoRotationToCVOByte rotation)] kVideoRotationLength) as (o & -> & E); try assumption; try reflexivity;
      [same_elements|same_elements; now destruct rotation|apply fills_set8|]. cbn [bind]. rewrite E. reflexivity.
  - destruct (on m kRtpExtensionTransportSequenceNumber) eqn:O; [|destruct (V _ kTransportSequenceNumberLength O) as (st & -> & [-> | ->]); reflexivity].
    destruct (U (SetTransportSequenceNumber s number) kRtpExtensionTransportSequenceNumber (fun p o => set16 p o number) (be2 number) kTransportSequenceNumberLength)
      as (o & Ve & E); try assumption; try reflexivity; [same_elements|same_elements|apply fills_set16|].
    destruct (verified _ _ _ _ _ _ _ Ve) as (id & G & B). rewrite Ve. cbn [bind].
    unfold BuildTransportSequenceNumberExtension. rewrite G, set8_same by (rewrite u8_head; exact B).
    cbn [bind]. rewrite E. reflexivity.
  - destruct (on m kRtpExtensionAudioLevel) eqn:O; [|destruct (V _ kAudioLevelLength O) as (st & -> & [-> | ->]); reflexivity].
    set (v := audio_level is_voiced dBov).
    destruct (updated_with s (leveled s v) kRtpExtensionAudioLevel (fun p o => set8 p o v) [v] payload_type ssrc marker_bit timestamp
      sequence_number rest h len kAudioLevelLength) as (o & -> & E); try assumption; try reflexivity.
    + intros y T. unfold leveled. now destruct (type_eqb_spec (type (snd y)) kRtpExtensionAudioLevel).
    + intros y T. unfold leveled. rewrite T. reflexivity.
    + pose proof (fills_set8 v) as W. unfold v in W at 2. rewrite audio_level_range in W. exact W.
    + cbv beta in E. fold (audio_level is_voiced dBov). fold v. cbn [bind]. rewrite E. reflexivity.
Qed.

(** The header of a packet as the methods are given it. *)
Definition parsed_header (csrcs : list Z) : RTPHeader :=
  mk_header true 96 65535 90000 0xDEADBEEF (zlen csrcs) (csrc_array csrcs) 0
    (zlen (header_bytes sample_sender 96 0xDEADBEEF true 90000 65535 csrcs)) 0 (sent_extension sample_sender).

Lemma extensions_updated_witness :
  let packet s := header_bytes s 96 0xDEADBEEF true 90000 65535 [] ++ [7; 7] in
  UpdateTransmissionTimeOffset sample_sender (packet sample_sender) 34 (parsed_header []) 20 =
    Ok (packet (set_offset sample_sender 1800)) /\
  UpdateAbsoluteSendTime sample_sender (packet sample_sender) 34 (parsed_header []) 1000 =
    Ok (packet (set_send_time sample_sender (ConvertMsTo24Bits 1000))) /\
  UpdateVideoRotation sample_sender (packet sample_sender) 34 (parsed_header []) kVideoRotation_180 =
    Ok (false, packet sample_sender) /\
  UpdateTransportSequenceNumber 5 sample_sender (packet sample_sender) 34 (parsed_header []) =
    Ok (5, packet (SetTransportSequenceNumber sample_sender 5)) /\
  UpdateAudioLevel sample_sender (packet sample_sender) 34 (parsed_header []) true 30 =
    Ok (true, header_with (leveled sample_sender 158) sample_map 96 0xDEADBEEF true 90000 65535 ++ [7; 7]).
Proof.
  exact (extensions_updated sample_sender 96 0xDEADBEEF true 90000 65535 [7; 7] (parsed_header []) 34 20 1000 kVideoRotation_180 5 true 30
    sample_registry eq_refl eq_refl ltac:(vm_compute; congruence)).
Defined.

(** With CSRCs the extensions are looked for among them, so that none is
    changed. *)
Example csrcs_hide_the_extensions :
  let packet := header_bytes sample_sender 96 0xDEADBEEF true 90000 65535 [1; 2] ++ [7; 7] in
  UpdateTransmissionTimeOffset sample_sender packet (zlen packet) (parsed_header [1; 2]) 20 = Ok packet /\
  UpdateTransportSequenceNumber 5 sample_sender packet (zlen packet) (parsed_header [1; 2]) = Ok (0, packet).
Proof. vm_compute. now split. Qed.
End RtpExtensionsUpdate.
