(* ===== verification/RateStatistics.v ===== *)
(** * The rate of what is received

    Models src/orbit/webrtc/modules/remote_bitrate_estimator/rate_statistics.cc:
    counters in a circular buffer, one for each millisecond of a window.  The
    theorem shows that the counter that is kept is the sum of what was counted
    in the window, in whatever order the times come. *)

From Stdlib Require Import SpecFloat.
From S2P Require Import Prelude Wire Floats.
Import Wire Floats.

Module RateStatistics.

Record RateStatistics := mk_rate {
  num_buckets_ : Z;
  buckets_ : list Z;
  accumulated_count_ : Z;
  oldest_time_ : Z;
  oldest_index_ : Z;
  scale_ : spec_float
}.

Definition new_RateStatistics (window_size_ms : Z) (scale : spec_float) : RateStatistics :=
  let n := s32 (u32 (window_size_ms + 1)) in
  mk_rate n (zeros n) 0 0 0 (f32_div scale (f32_of_Z (n - 1))).

Definition set_counters (r : RateStatistics) (buckets : list Z) (accumulated oldest_time oldest_index : Z) : RateStatistics :=
  mk_rate (num_buckets_ r) buckets accumulated oldest_time oldest_index (scale_ r).

Definition Reset (r : RateStatistics) : RateStatistics := set_counters r (zeros (num_buckets_ r)) 0 0 0.

(** The loop of [EraseOld].  A round for each counter is enough, since it ends
    when nothing is left. *)
Fixpoint erase_loop (fuel : nat) (new_oldest_time : Z) (r : RateStatistics) : res RateStatistics :=
  if oldest_time_ r <? new_oldest_time then
    match fuel with
    | O => NoFuel
    | S fuel =>
        let accumulated := u64 (accumulated_count_ r - rd (buckets_ r) (oldest_index_ r)) in
        let index := if num_buckets_ r <=? oldest_index_ r + 1 then 0 else oldest_index_ r + 1 in
        let r := set_counters r (wr (buckets_ r) (oldest_index_ r) 0) accumulated (oldest_time_ r + 1) index in
        if accumulated =? 0 then Ok r else erase_loop fuel new_oldest_time r
    end
  else Ok r.

Definition EraseOld (r : RateStatistics) (now_ms : Z) : res RateStatistics :=
  let new_oldest_time := s64 (now_ms - num_buckets_ r + 1) in
  if new_oldest_time <=? oldest_time_ r then Ok r
  else
    let! r := erase_loop (S (Z.to_nat (num_buckets_ r))) new_oldest_time r in
    Ok (set_counters r (buckets_ r) (accumulated_count_ r) new_oldest_time (oldest_index_ r)).

Definition Update (r : RateStatistics) (count now_ms : Z) : res RateStatistics :=
  if now_ms <? oldest_time_ r then Ok r
  else
    let! r := EraseOld r now_ms in
    let index := oldest_index_ r + s32 (now_ms - oldest_time_ r) in
    let index := if num_buckets_ r <=? index then index - num_buckets_ r else index in
    if (0 <=? index) && (index <? zlen (buckets_ r)) then
      Ok (set_counters r (wr (buckets_ r) index (u64 (rd (buckets_ r) index + count)))
            (u64 (accumulated_count_ r + count)) (oldest_time_ r) (oldest_index_ r))
    else Oob.

Definition rate_of (r : RateStatistics) : Z :=
  to_u32 (f32_add (f32_mul (f32_of_Z (accumulated_count_ r)) (scale_ r)) f32_half).

Definition Rate (r : RateStatistics) (now_ms : Z) : res (Z * RateStatistics) :=
  let! r := EraseOld r now_ms in Ok (rate_of r, r).

(** ** What is kept *)

(** The calls, the last one first. *)
Inductive call := Counted (count now_ms : Z) | Asked (now_ms : Z).

Definition now_of (c : call) : Z := match c with Counted _ t => t | Asked t => t end.
Definition count_of (c : call) : Z := match c with Counted n _ => n | Asked _ => 0 end.

Definition answer (r : RateStatistics) (c : call) : res RateStatistics :=
  match c with
  | Counted n t => Update r n t
  | Asked t => let! (_, r) := Rate r t in Ok r
  end.

Fixpoint calls (l : list call) (r : RateStatistics) : res RateStatistics :=
  match l with
  | [] => Ok r
  | c :: l => let! r := calls l r in answer r c
  end.

(** The latest time, and what was counted at or behind a time. *)
Definition latest (l : list call) : Z := fold_right (fun c t => Z.max (now_of c) t) 0 l.
Definition counted_at (l : list call) (t : Z) : Z := fold_right (fun c n => (if now_of c =? t then count_of c else 0) + n) 0 l.
Definition counted_from (l : list call) (t : Z) : Z := fold_right (fun c n => (if t <=? now_of c then count_of c else 0) + n) 0 l.

Definition call_ok (c : call) : Prop := 0 <= now_of c < 2 ^ 62 /\ 0 <= count_of c.
Definition total (l : list call) : Z := fold_right (fun c n => count_of c + n) 0 l.

Lemma counted_at_range l t : Forall call_ok l -> 0 <= counted_at l t <= total l.
Proof. induction 1 as [|c l [_ H] F IH]; cbn [counted_at total fold_right] in *; [lia|]. fold (counted_at l t) (total l). case_if; lia. Qed.

Lemma counted_later l t : latest l < t -> counted_at l t = 0.
Proof.
  unfold latest. induction l as [|c l IH]; cbn [fold_right counted_at]; [reflexivity|]. fold (counted_at l t). intros H.
  replace (now_of c =? t) with false by lia. rewrite IH by lia. reflexivity.
Qed.

Lemma latest_nonneg l : 0 <= latest l.
Proof. unfold latest. induction l; cbn [fold_right]; lia. Qed.

Lemma latest_bound l b : 0 < b -> Forall (fun c => now_of c < b) l -> latest l < b.
Proof. intros B. unfold latest. induction 1; cbn [fold_right]; lia. Qed.

(** The counts of a stretch of time that ends behind the latest time. *)
Lemma sum_up_add i n f g : sum_up i n (fun t => f t + g t) = sum_up i n f + sum_up i n g.
Proof. revert i. induction n as [|n IH]; intros i; cbn [sum_up]; [reflexivity|]. rewrite IH. lia. Qed.

Lemma sum_up_zero i n f : (forall t, i <= t < i + Z.of_nat n -> f t = 0) -> sum_up i n f = 0.
Proof. revert i. induction n as [|n IH]; intros i H; cbn [sum_up]; [reflexivity|]. rewrite H, IH by (intros; try apply H; lia). reflexivity. Qed.

Lemma sum_up_point i n p v : sum_up i n (fun t => if p =? t then v else 0) = if (i <=? p) && (p <? i + Z.of_nat n) then v else 0.
Proof.
  revert i. induction n as [|n IH]; intros i; cbn [sum_up]; [change (Z.of_nat 0) with 0; case_if; [bool_lia|reflexivity]|].
  rewrite IH, Nat2Z.inj_succ, <- Z.add_1_r. pose proof (Nat2Z.is_nonneg n). destruct (Z.eqb_spec p i) as [->|].
  - replace (i + 1 <=? i) with false by lia. rewrite Z.leb_refl. replace (i <? i + (Z.of_nat n + 1)) with true by lia. cbn [andb]. lia.
  - replace (i + 1 + Z.of_nat n) with (i + (Z.of_nat n + 1)) by lia. replace (i + 1 <=? p) with (i <=? p) by lia. reflexivity.
Qed.

Lemma sum_counted l i n : latest l < i + Z.of_nat n -> sum_up i n (counted_at l) = counted_from l i.
Proof.
  unfold latest. induction l as [|c l IH]; cbn [fold_right]; intros H.
  - now apply sum_up_zero.
  - rewrite (sum_up_ext i n _ (fun t => (if now_of c =? t then count_of c else 0) + counted_at l t)) by reflexivity.
    rewrite sum_up_add, sum_up_point, IH by lia. cbn [counted_from fold_right].
    replace (now_of c <? i + Z.of_nat n) with true by lia. rewrite andb_true_r. reflexivity.
Qed.

(** ** The circular buffer *)

(** Where the counter of the time [k] behind the oldest is. *)
Definition slot (n index k : Z) : Z := if n <=? index + k then index + k - n else index + k.

(** The counters are those of [f] from the oldest time on. *)
Record holds (n : Z) (f : Z -> Z) (r : RateStatistics) : Prop := {
  holds_num : num_buckets_ r = n;
  holds_length : zlen (buckets_ r) = n;
  holds_index : 0 <= oldest_index_ r < n;
  holds_buckets : forall k, 0 <= k < n -> rd (buckets_ r) (slot n (oldest_index_ r) k) = f (oldest_time_ r + k);
  holds_count : accumulated_count_ r = sum_up (oldest_time_ r) (Z.to_nat n) f
}.

Lemma holds_ext n f g r : holds n f r -> (forall k, 0 <= k < n -> f (oldest_time_ r + k) = g (oldest_time_ r + k)) -> holds n g r.
Proof.
  intros [A B C D E] H. constructor; try assumption.
  - intros k K. rewrite D by assumption. now apply H.
  - rewrite E. apply sum_up_ext. intros t T. replace t with (oldest_time_ r + (t - oldest_time_ r)) by lia. apply H. lia.
Qed.

Section Erase.
Variables (n T limit : Z) (f : Z -> Z).
Hypothesis N : 0 < n.
Hypothesis Limit : limit <= 18446744073709551616.
Hypothesis Nonneg : forall t, 0 <= f t.
Hypothesis Below : forall t m, sum_up t m f < limit.
Hypothesis After : forall t, T <= t -> f t = 0.

(** One round. *)
Lemma erased_one r : holds n f r -> T <= oldest_time_ r + n ->
  holds n f (set_counters r (wr (buckets_ r) (oldest_index_ r) 0) (u64 (accumulated_count_ r - rd (buckets_ r) (oldest_index_ r)))
    (oldest_time_ r + 1) (if num_buckets_ r <=? oldest_index_ r + 1 then 0 else oldest_index_ r + 1)).
Proof.
  intros [A B C D E] L. rewrite A. set (i := oldest_index_ r) in *. set (o := oldest_time_ r) in *.
  assert (S0 : rd (buckets_ r) i = f o).
  { specialize (D 0 ltac:(lia)). unfold slot in D. replace (n <=? i + 0) with false in D by lia. now rewrite !Z.add_0_r in D. }
  assert (SU : sum_up o (Z.to_nat n) f - f o = sum_up (o + 1) (Z.to_nat n) f).
  { replace (Z.to_nat n) with (S (Z.to_nat (n - 1))) by lia. rewrite (sum_up_snoc (o + 1)), (After (o + 1 + _)) by lia. cbn [sum_up]. lia. }
  constructor; cbn [set_counters num_buckets_ buckets_ oldest_index_ oldest_time_ accumulated_count_].
  - assumption.
  - now rewrite zlen_wr.
  - case_if; lia.
  - intros k K. destruct (Z.eq_dec k (n - 1)) as [->|NE].
    + assert (Sl : slot n (if n <=? i + 1 then 0 else i + 1) (n - 1) = i).
      { unfold slot. destruct (Z.leb_spec n (i + 1)); [replace (n <=? 0 + (n - 1)) with false by lia; lia|].
        replace (n <=? i + 1 + (n - 1)) with true by lia. lia. }
      rewrite Sl, rd_wr_eq by lia. symmetry. apply After. lia.
    + assert (Sl : slot n (if n <=? i + 1 then 0 else i + 1) k = slot n i (k + 1)).
      { unfold slot. destruct (Z.leb_spec n (i + 1)); [replace (n <=? 0 + k) with false by lia; replace (n <=? i + (k + 1)) with true by lia; lia|].
        replace (i + 1 + k) with (i + (k + 1)) by lia. reflexivity. }
      rewrite Sl, rd_wr_ne, D by (unfold slot; try case_if; lia). f_equal. lia.
  - rewrite S0, E, SU, u64_id; [reflexivity|]. pose proof (Below (o + 1) (Z.to_nat n)).
    pose proof (sum_up_nonneg (o + 1) (Z.to_nat n) f ltac:(intros; apply Nonneg)). unfold in_u64. lia.
Qed.

Lemma sum_up_none i m : sum_up i m f = 0 -> forall t, i <= t < i + Z.of_nat m -> f t = 0.
Proof.
  revert i. induction m as [|m IH]; intros i H t R; [lia|]. cbn [sum_up] in H. pose proof (Nonneg i).
  pose proof (sum_up_nonneg (i + 1) m f ltac:(intros; apply Nonneg)).
  destruct (Z.eq_dec t i) as [->|]; [lia|]. apply (IH (i + 1)); lia.
Qed.

Lemma erase_loop_ok fuel : forall r new, holds n f r -> T <= oldest_time_ r + n -> oldest_time_ r < T ->
  T - oldest_time_ r <= Z.of_nat fuel -> oldest_time_ r <= new ->
  exists r', erase_loop fuel new r = Ok r' /\ scale_ r' = scale_ r /\
    holds n f (set_counters r' (buckets_ r') (accumulated_count_ r') new (oldest_index_ r')).
Proof.
  induction fuel as [|fuel IH]; intros r new H L O F B; [lia|]. cbn [erase_loop].
  destruct (Z.ltb_spec (oldest_time_ r) new) as [Lt|Ge].
  - pose proof (erased_one r H L) as H'. set (r' := set_counters r _ _ _ _) in *. change (u64 (accumulated_count_ r - _)) with (accumulated_count_ r').
    assert (O' : oldest_time_ r' = oldest_time_ r + 1) by reflexivity.
    destruct (Z.eqb_spec (accumulated_count_ r') 0) as [Z0|NZ].
    + exists r'. split; [reflexivity|]. split; [reflexivity|]. destruct H' as [A' B' C' D' E']. rewrite Z0 in E'. symmetry in E'.
      assert (NoMore : forall t, oldest_time_ r' <= t -> f t = 0).
      { intros t Ht. destruct (Z.ltb_spec t (oldest_time_ r' + n)); [|apply After; lia]. apply (sum_up_none _ _ E'). lia. }
      constructor; cbn [set_counters num_buckets_ buckets_ oldest_index_ oldest_time_ accumulated_count_]; try assumption.
      * intros k K. rewrite D', !NoMore by lia. reflexivity.
      * rewrite Z0. symmetry. apply sum_up_zero. intros t Ht. apply NoMore. lia.
    + destruct (IH r' new H') as (r2 & E2 & Sc & H2); try lia.
      * destruct (Z.ltb_spec (oldest_time_ r') T); [assumption|]. elim NZ. rewrite (holds_count _ _ _ H'). apply sum_up_zero. intros t Ht. apply After. lia.
      * exists r2. now rewrite E2, Sc.
  - exists r. split; [reflexivity|]. split; [reflexivity|]. replace new with (oldest_time_ r) by lia. destruct H. now constructor.
Qed.

Lemma EraseOld_ok r now : holds n f r -> T = oldest_time_ r + n -> - 2 ^ 62 <= now < 2 ^ 62 -> n < 2 ^ 31 ->
  exists r', EraseOld r now = Ok r' /\ scale_ r' = scale_ r /\ holds n f r' /\ oldest_time_ r' = Z.max (oldest_time_ r) (now - n + 1).
Proof.
  intros H L R Nb. unfold EraseOld. rewrite (holds_num _ _ _ H). rewrite s64_id by (unfold in_s64; lia).
  destruct (Z.leb_spec (now - n + 1) (oldest_time_ r)); [exists r; repeat split; try assumption; try apply H; lia|].
  destruct (erase_loop_ok (S (Z.to_nat n)) r (now - n + 1) H) as (r' & -> & Sc & H'); try lia.
  eexists. split; [reflexivity|]. split; [exact Sc|]. split; [exact H'|]. cbn. lia.
Qed.
End Erase.

Lemma Update_ok n f r count now : 0 < n < 2 ^ 31 -> holds n f r -> (forall t, 0 <= f t) ->
  (forall t, oldest_time_ r + n <= t -> f t = 0) -> (forall t m, sum_up t m f + count < 18446744073709551616) ->
  0 <= count -> 0 <= oldest_time_ r -> 0 <= now < 2 ^ 62 ->
  exists r', Update r count now = Ok r' /\ scale_ r' = scale_ r /\ oldest_time_ r' = Z.max (oldest_time_ r) (now - n + 1) /\
    holds n (fun t => (if now =? t then count else 0) + f t) r'.
Proof.
  intros N H Nonneg After Below C O R. unfold Update.
  destruct (Z.ltb_spec now (oldest_time_ r)) as [Lt|Ge].
  { exists r. split; [reflexivity|]. split; [reflexivity|]. split; [lia|]. apply (holds_ext n f); [assumption|]. intros k K.
    replace (now =? oldest_time_ r + k) with false by lia. reflexivity. }
  destruct (EraseOld_ok n (oldest_time_ r + n) 18446744073709551616 f ltac:(lia) ltac:(lia) Nonneg
              ltac:(intros t m; specialize (Below t m); lia) After r now H eq_refl ltac:(lia) ltac:(lia)) as (r' & -> & Sc & H' & O').
  cbn [bind]. destruct H' as [A B Ci D E]. rewrite A, B. set (o := oldest_time_ r') in *. set (i := oldest_index_ r') in *.
  rewrite s32_id by (unfold in_s32; lia).
  change (if n <=? i + (now - o) then i + (now - o) - n else i + (now - o)) with (slot n i (now - o)).
  assert (SR : 0 <= slot n i (now - o) < n) by (unfold slot; case_if; lia).
  replace ((0 <=? slot n i (now - o)) && (slot n i (now - o) <? n)) with true by lia.
  assert (SF : forall k, 0 <= k -> sum_up (o + k) 1 f <= sum_up o (Z.to_nat n) f \/ n <= k).
  { intros k K. destruct (Z.leb_spec n k); [now right|left]. replace (Z.to_nat n) with (Z.to_nat k + (1 + Z.to_nat (n - k - 1)))%nat by lia.
    rewrite !sum_up_app. replace (o + Z.of_nat (Z.to_nat k)) with (o + k) by lia.
    pose proof (sum_up_nonneg o (Z.to_nat k) f ltac:(intros; apply Nonneg)).
    pose proof (sum_up_nonneg (o + k + Z.of_nat 1) (Z.to_nat (n - k - 1)) f ltac:(intros; apply Nonneg)). lia. }
  eexists. split; [reflexivity|]. split; [exact Sc|]. split; [cbn; lia|].
  constructor; cbn [set_counters num_buckets_ buckets_ oldest_index_ oldest_time_ accumulated_count_]; fold o i; try assumption.
  - now rewrite zlen_wr.
  - intros k K. destruct (Z.eqb_spec now (o + k)) as [E1|NE].
    + replace k with (now - o) by lia. rewrite rd_wr_eq, D by lia. pose proof (SF (now - o) ltac:(lia)) as [S1|]; [|lia].
      cbn [sum_up] in S1. specialize (Below o (Z.to_nat n)). pose proof (Nonneg (o + (now - o))). rewrite u64_id by (unfold in_u64; lia). lia.
    + rewrite rd_wr_ne, D by (unfold slot in *; repeat case_if; lia). lia.
  - rewrite sum_up_add, sum_up_point, E.
    replace ((o <=? now) && (now <? o + Z.of_nat (Z.to_nat n))) with true by (rewrite Z2Nat.id; lia).
    specialize (Below o (Z.to_nat n)). pose proof (sum_up_nonneg o (Z.to_nat n) f ltac:(intros; apply Nonneg)).
    rewrite u64_id by (unfold in_u64; lia). lia.
Qed.

(** ** The window *)

Lemma sum_counted_total l i m : Forall call_ok l -> 0 <= sum_up i m (counted_at l) <= total l.
Proof.
  intros F. split; [apply sum_up_nonneg; intros; now apply counted_at_range|]. revert i.
  induction F as [|c l [_ H] F IH]; intros i; [change (counted_at []) with (fun _ : Z => 0); rewrite sum_up_zero; cbn; lia|].
  rewrite (sum_up_ext i m _ (fun t => (if now_of c =? t then count_of c else 0) + counted_at l t)) by reflexivity.
  rewrite sum_up_add, sum_up_point. specialize (IH i). change (total (c :: l)) with (count_of c + total l). case_if; lia.
Qed.

Lemma new_holds w scale : 0 <= w < 2 ^ 31 - 1 ->
  let r := new_RateStatistics w scale in
  holds (w + 1) (fun _ => 0) r /\ oldest_time_ r = 0 /\ scale_ r = f32_div scale (f32_of_Z w).
Proof.
  intros W. cbv zeta. unfold new_RateStatistics. rewrite u32_id, s32_id by (unfold in_u32, in_s32; lia).
  replace (w + 1 - 1) with w by lia. split; [|now split].
  constructor; cbn [num_buckets_ buckets_ oldest_index_ oldest_time_ accumulated_count_]; try lia.
  - unfold zeros, zlen. rewrite repeat_length. lia.
  - intros k K. unfold rd, zeros. case_if; [reflexivity|]. apply nth_repeat.
  - symmetry. now apply sum_up_zero.
Qed.

Lemma calls_ok w scale l : 0 <= w < 2 ^ 31 - 1 -> Forall call_ok l -> total l < 18446744073709551616 ->
  exists r, calls l (new_RateStatistics w scale) = Ok r /\ scale_ r = f32_div scale (f32_of_Z w) /\
    holds (w + 1) (counted_at l) r /\ oldest_time_ r = Z.max 0 (latest l - w).
Proof.
  intros W F. destruct (new_holds w scale W) as (H0 & O0 & S0).
  induction F as [|c l [Hc Cc] F IH]; intros T.
  - exists (new_RateStatistics w scale). split; [reflexivity|]. split; [assumption|]. split; [exact H0|]. rewrite O0. cbn. lia.
  - change (total (c :: l)) with (count_of c + total l) in T. destruct IH as (r & E & Sc & H & O); [lia|]. cbn [calls]. rewrite E. cbn [bind].
    change (latest (c :: l)) with (Z.max (now_of c) (latest l)). pose proof (latest_nonneg l).
    assert (After : forall t, oldest_time_ r + (w + 1) <= t -> counted_at l t = 0) by (intros t Ht; apply counted_later; lia).
    pose proof (fun t => proj1 (counted_at_range l t F)) as Nonneg. destruct c as [count now|now]; cbn [answer now_of count_of] in *.
    + destruct (Update_ok (w + 1) (counted_at l) r count now) as (r' & E' & Sc' & O' & H'); try assumption; try lia.
      { intros t m. pose proof (sum_counted_total l t m F). lia. }
      exists r'. split; [assumption|]. split; [congruence|]. split; [exact H'|lia].
    + unfold Rate. destruct (EraseOld_ok (w + 1) (oldest_time_ r + (w + 1)) 18446744073709551616 (counted_at l)
        ltac:(lia) ltac:(lia) Nonneg ltac:(intros t m; pose proof (sum_counted_total l t m F); lia) After r now H eq_refl ltac:(lia) ltac:(lia))
        as (r' & -> & Sc' & H' & O').
      exists r'. split; [reflexivity|]. split; [congruence|]. split; [|lia].
      apply (holds_ext _ (counted_at l)); [assumption|]. intros k K. cbn [counted_at fold_right now_of count_of]. fold (counted_at l (oldest_time_ r' + k)). case_if; lia.
Qed.

(** C22. Whatever the order of the calls and of their times, no call fails, and
    the rate that is answered is computed from the sum of exactly the counts
    with a time in the window that ends at the latest time seen. *)
Theorem rate_is_the_window window_size_ms scale l now_ms :
  0 <= window_size_ms < 2 ^ 31 - 1 -> Forall call_ok l -> total l < 2 ^ 64 -> 0 <= now_ms < 2 ^ 62 ->
  let from := Z.max 0 (Z.max (latest l) now_ms - window_size_ms) in
  exists r r', calls l (new_RateStatistics window_size_ms scale) = Ok r /\
    Rate r now_ms =
      Ok (to_u32 (f32_add (f32_mul (f32_of_Z (counted_from l from)) (f32_div scale (f32_of_Z window_size_ms))) f32_half), r').
Proof.
  intros W F T N. cbv zeta. change (2 ^ 64) with 18446744073709551616 in T.
  destruct (calls_ok window_size_ms scale l W F T) as (r & E & Sc & H & O). pose proof (latest_nonneg l).
  assert (After : forall t, oldest_time_ r + (window_size_ms + 1) <= t -> counted_at l t = 0) by (intros t Ht; apply counted_later; lia).
  destruct (EraseOld_ok (window_size_ms + 1) _ 18446744073709551616 (counted_at l) ltac:(lia) ltac:(lia)
    (fun t => proj1 (counted_at_range l t F)) ltac:(intros t m; pose proof (sum_counted_total l t m F); lia) After r now_ms H eq_refl ltac:(lia) ltac:(lia))
    as (r' & E' & Sc' & H' & O').
  exists r, r'. split; [assumption|]. unfold Rate. rewrite E'. cbn [bind]. unfold rate_of.
  rewrite Sc', Sc, (holds_count _ _ _ H'), sum_counted by lia. do 7 f_equal. lia.
Qed.

Lemma rate_is_the_window_witness :
  exists r r', calls [Counted 900 2600; Counted 1000 1800; Counted 70 1500; Counted 300 1700; Counted 200 1500]
                 (new_RateStatistics 1000 (f32_of_Z 8000)) = Ok r /\
    Rate r 2650 =
      Ok (to_u32 (f32_add (f32_mul (f32_of_Z 2200) (f32_div (f32_of_Z 8000) (f32_of_Z 1000))) f32_half), r').
Proof.
  apply (rate_is_the_window 1000 (f32_of_Z 8000) [Counted 900 2600; Counted 1000 1800; Counted 70 1500; Counted 300 1700; Counted 200 1500] 2650).
  - lia.
  - repeat (constructor; [vm_compute; repeat split; congruence|]). constructor.
  - vm_compute. reflexivity.
  - lia.
Defined.
End RateStatistics.
