(* ===== verification/InterArrival.v ===== *)
(** * Times between groups of packets

    Models src/orbit/webrtc/modules/remote_bitrate_estimator/inter_arrival.cc
    and the comparison of timestamps of modules/include/module_common_types.h:
    packets with close timestamps, or that come in a burst, form a group; the
    deltas between two groups feed the estimation of the bandwidth. *)

From Stdlib Require Import SpecFloat.
From S2P Require Import Prelude Floats.
Import Floats.

Module InterArrival.

Definition IsNewerTimestamp (timestamp prev_timestamp : Z) : bool :=
  if u32 (timestamp - prev_timestamp) =? 0x80000000 then prev_timestamp <? timestamp
  else negb (timestamp =? prev_timestamp) && (u32 (timestamp - prev_timestamp) <? 0x80000000).

Definition LatestTimestamp (timestamp1 timestamp2 : Z) : Z :=
  if IsNewerTimestamp timestamp1 timestamp2 then timestamp1 else timestamp2.

Definition kBurstDeltaThresholdMs : Z := 5.

Record TimestampGroup := mk_group {
  size : Z;
  first_timestamp : Z;
  timestamp : Z;
  complete_time_ms : Z
}.
Definition new_TimestampGroup : TimestampGroup := mk_group 0 0 0 (-1).
Definition IsFirstPacket (g : TimestampGroup) : bool := complete_time_ms g =? -1.

Record InterArrival := mk_arrival {
  kTimestampGroupLengthTicks : Z;
  current_timestamp_group_ : TimestampGroup;
  prev_timestamp_group_ : TimestampGroup;
  timestamp_to_ms_coeff_ : spec_float;
  burst_grouping_ : bool
}.

Definition new_InterArrival (timestamp_group_length_ticks : Z) (timestamp_to_ms_coeff : spec_float)
    (enable_burst_grouping : bool) : InterArrival :=
  mk_arrival timestamp_group_length_ticks new_TimestampGroup new_TimestampGroup timestamp_to_ms_coeff enable_burst_grouping.

Definition set_groups (s : InterArrival) (current prev : TimestampGroup) : InterArrival :=
  mk_arrival (kTimestampGroupLengthTicks s) current prev (timestamp_to_ms_coeff_ s) (burst_grouping_ s).

Definition PacketInOrder (s : InterArrival) (ts : Z) : bool :=
  let g := current_timestamp_group_ s in
  if IsFirstPacket g then true else u32 (ts - first_timestamp g) <? 0x80000000.

Definition BelongsToBurst (s : InterArrival) (arrival_time_ms ts : Z) : bool :=
  if negb (burst_grouping_ s) then false
  else
    let g := current_timestamp_group_ s in
    let arrival_time_delta_ms := s64 (arrival_time_ms - complete_time_ms g) in
    let timestamp_diff := u32 (ts - timestamp g) in
    let ts_delta_ms := to_s64 (f64_add (f64_mul (timestamp_to_ms_coeff_ s) (f64_of_Z timestamp_diff)) f64_half) in
    if ts_delta_ms =? 0 then true
    else
      let propagation_delta_ms := s32 (arrival_time_delta_ms - ts_delta_ms) in
      (propagation_delta_ms <? 0) && (arrival_time_delta_ms <=? kBurstDeltaThresholdMs).

Definition NewTimestampGroup (s : InterArrival) (arrival_time_ms ts : Z) : bool :=
  let g := current_timestamp_group_ s in
  if IsFirstPacket g then false
  else if BelongsToBurst s arrival_time_ms ts then false
  else kTimestampGroupLengthTicks s <? u32 (ts - first_timestamp g).

(** The packet joins the group. *)
Definition join (g : TimestampGroup) (packet_size arrival_time_ms : Z) : TimestampGroup :=
  mk_group (u64 (size g + packet_size)) (first_timestamp g) (timestamp g) arrival_time_ms.

(** The deltas of the timestamps, of the times of arrival and of the sizes when
    they were calculated. *)
Definition ComputeDeltas (s : InterArrival) (ts arrival_time_ms packet_size : Z) : option (Z * Z * Z) * InterArrival :=
  let g := current_timestamp_group_ s in
  let p := prev_timestamp_group_ s in
  if IsFirstPacket g then
    (None, set_groups s (join (mk_group (size g) ts ts (complete_time_ms g)) packet_size arrival_time_ms) p)
  else if negb (PacketInOrder s ts) then (None, s)
  else if NewTimestampGroup s arrival_time_ms ts then
    let next := set_groups s (join (mk_group 0 ts ts (complete_time_ms g)) packet_size arrival_time_ms) g in
    if 0 <=? complete_time_ms p then
      let arrival_time_delta_ms := s64 (complete_time_ms g - complete_time_ms p) in
      if arrival_time_delta_ms <? 0 then (None, s)
      else (Some (u32 (timestamp g - timestamp p), arrival_time_delta_ms, s32 (s32 (size g) - s32 (size p))), next)
    else (None, next)
  else
    (None, set_groups s (join (mk_group (size g) (first_timestamp g) (LatestTimestamp (timestamp g) ts) (complete_time_ms g))
                           packet_size arrival_time_ms) p).

(** ** What the deltas add up to *)

(** Packets: timestamp, time of arrival, size.  The deltas come in order. *)
Fixpoint deltas (l : list (Z * Z * Z)) (s : InterArrival) : list (Z * Z * Z) * InterArrival :=
  match l with
  | [] => ([], s)
  | (ts, arrival, n) :: l =>
      let (d, s) := ComputeDeltas s ts arrival n in
      let (ds, s) := deltas l s in
      (match d with Some d => d :: ds | None => ds end, s)
  end.

Definition total (f : Z * Z * Z -> Z) (l : list (Z * Z * Z)) : Z := fold_right (fun d n => f d + n) 0 l.
Definition ts_delta (d : Z * Z * Z) : Z := fst (fst d).
Definition time_delta (d : Z * Z * Z) : Z := snd (fst d).
Definition size_delta (d : Z * Z * Z) : Z := snd d.

Definition time_ok (t : Z) : Prop := 0 <= t < 2 ^ 62.
(** Two groups were seen. *)
Definition running (s : InterArrival) : Prop :=
  time_ok (complete_time_ms (prev_timestamp_group_ s)) /\ time_ok (complete_time_ms (current_timestamp_group_ s)).

Lemma ComputeDeltas_step s ts arrival n d s' : running s -> time_ok arrival -> ComputeDeltas s ts arrival n = (d, s') ->
  running s' /\
  match d with
  | None => prev_timestamp_group_ s' = prev_timestamp_group_ s
  | Some d =>
      let (p, p') := (prev_timestamp_group_ s, prev_timestamp_group_ s') in
      p' = current_timestamp_group_ s /\ 0 <= time_delta d /\
      time_delta d = complete_time_ms p' - complete_time_ms p /\ ts_delta d = u32 (timestamp p' - timestamp p) /\
      size_delta d = s32 (s32 (size p') - s32 (size p))
  end.
Proof.
  unfold running, time_ok. intros [P C] A. unfold ComputeDeltas, IsFirstPacket.
  replace (complete_time_ms (current_timestamp_group_ s) =? -1) with false by lia.
  destruct (PacketInOrder s ts); cbn [negb]; [|intros E; injection E as <- <-; now split].
  destruct (NewTimestampGroup s arrival ts); [|intros E; injection E as <- <-; cbn; now split].
  replace (0 <=? complete_time_ms (prev_timestamp_group_ s)) with true by lia. rewrite s64_id by (unfold in_s64; lia).
  destruct (Z.ltb_spec (complete_time_ms (current_timestamp_group_ s) - complete_time_ms (prev_timestamp_group_ s)) 0);
    intros E; injection E as <- <-; [now split|].
  cbn. split; [lia|]. repeat split; lia.
Qed.

(** C30. The deltas that are handed out follow each other without a gap: their
    times add up to the time between the first and the last complete group,
    their timestamps to that of the timestamps, modulo 2^32, and no time is
    negative, whatever packets come, in whatever order. *)
Theorem deltas_telescope l s : running s -> Forall (fun '(_, arrival, _) => time_ok arrival) l ->
  let (ds, s') := deltas l s in
  let (p, p') := (prev_timestamp_group_ s, prev_timestamp_group_ s') in
  Forall (fun d => 0 <= time_delta d) ds /\
  total time_delta ds = complete_time_ms p' - complete_time_ms p /\
  u32 (total ts_delta ds) = u32 (timestamp p' - timestamp p) /\
  s32 (total size_delta ds) = s32 (size p' - size p).
Proof.
  intros R F. revert s R. induction F as [|[[ts arrival] n] l A F IH]; intros s R; cbn [deltas].
  - cbn. split; [constructor|]. rewrite !Z.sub_diag. now repeat split.
  - destruct (ComputeDeltas s ts arrival n) as [d s1] eqn:E. destruct (ComputeDeltas_step s ts arrival n d s1 R A E) as [R1 D].
    specialize (IH s1 R1). destruct (deltas l s1) as [ds s2]. destruct IH as (I1 & I2 & I3 & I4).
    destruct d as [d|]; [|rewrite <- D; now repeat split]. destruct D as (_ & D1 & D2 & D3 & D4).
    split; [now constructor|]. cbn [total fold_right]. fold (total time_delta ds) (total ts_delta ds) (total size_delta ds).
    split; [lia|]. clear I1 I2 D1 D2 F A R R1 E. split; int_lia.
Qed.

Definition sample : InterArrival :=
  snd (deltas [(4294967000, 1000, 500); (300, 1010, 600); (1000, 1025, 700)] (new_InterArrival 450 (f64_lit 1 90) true)).

Lemma deltas_telescope_witness :
  let (ds, s') := deltas [(1900, 1040, 900); (1700, 1041, 300); (5000, 1030, 100); (9000, 1100, 100); (900, 1101, 9)] sample in
  let (p, p') := (prev_timestamp_group_ sample, prev_timestamp_group_ s') in
  Forall (fun d => 0 <= time_delta d) ds /\
  total time_delta ds = complete_time_ms p' - complete_time_ms p /\
  u32 (total ts_delta ds) = u32 (timestamp p' - timestamp p) /\
  s32 (total size_delta ds) = s32 (size p' - size p).
Proof.
  apply (deltas_telescope [(1900, 1040, 900); (1700, 1041, 300); (5000, 1030, 100); (9000, 1100, 100); (900, 1101, 9)] sample).
  - vm_compute. repeat split; congruence.
  - repeat (constructor; [vm_compute; repeat split; congruence|]). constructor.
Defined.

(** Two groups across the wrap of the timestamps. *)
Example wrapped_groups :
  fst (deltas [(4294967000, 1000, 500); (300, 1010, 600); (1000, 1025, 700); (1900, 1040, 900)] (new_InterArrival 450 (f64_lit 1 90) true)) =
    [(596, 10, 100); (700, 15, 100)].
Proof. vm_compute. reflexivity. Qed.
End InterArrival.
