(* ===== verification/Overuse.v ===== *)
(** * Detection of over-use

    Models, in src/orbit/webrtc/modules/remote_bitrate_estimator,
    overuse_estimator.cc (the filter that estimates the trend of the delays),
    overuse_detector.cc (the hypothesis on the state of the link), and
    system_wrappers/source/field_trial_default.cc, which tells whether the
    adaptive threshold is tried.  [pow] of the C library and the scan of the two
    constants of the trial are parameters; the string of the trials, a global
    variable, is an argument.  Logging is left out. *)

From Stdlib Require Import SpecFloat.
From S2P Require Import Prelude Floats.
Import Floats.

Module Overuse.

(** ** bwe_defines.h and the options of common_types.h *)

Inductive BandwidthUsage := kBwNormal | kBwUnderusing | kBwOverusing.
Definition usage (b : BandwidthUsage) : Z := match b with kBwNormal => 0 | kBwUnderusing => 1 | kBwOverusing => 2 end.
Definition usage_eqb (a b : BandwidthUsage) : bool := usage a =? usage b.

Record OverUseDetectorOptions := mk_options {
  initial_slope : spec_float;
  initial_offset : spec_float;
  initial_e : (spec_float * spec_float) * (spec_float * spec_float);
  initial_process_noise : spec_float * spec_float;
  initial_avg_noise : spec_float;
  initial_var_noise : spec_float
}.
Definition default_options : OverUseDetectorOptions :=
  mk_options (f64_div (f64_of_Z 8) (f64_of_Z 512)) (f64_of_Z 0)
    ((f64_of_Z 100, f64_of_Z 0), (f64_of_Z 0, f64_lit 1 10)) (f64_lit 1 (10 ^ 13), f64_lit 1 100) (f64_of_Z 0) (f64_of_Z 50).

(** ** field_trial_default.cc *)

(** The bytes up to a separator and those behind it. *)
Fixpoint cut (separator : Z) (l : list Z) : option (list Z * list Z) :=
  match l with
  | [] => None
  | c :: l =>
      if c =? separator then Some ([], l)
      else match cut separator l with Some (a, b) => Some (c :: a, b) | None => None end
  end.

Fixpoint bytes_eqb (a b : list Z) : bool :=
  match a, b with
  | [], [] => true
  | x :: a, y :: b => (x =? y) && bytes_eqb a b
  | _, _ => false
  end.

Definition kPersistentStringSeparator : Z := 47.

(** Each round takes at least four bytes. *)
Fixpoint find_trial (fuel : nat) (name trials : list Z) : list Z :=
  match fuel with
  | O => []
  | S fuel =>
      match cut kPersistentStringSeparator trials with
      | None | Some ([], _) => []
      | Some (field_name, rest) =>
          match cut kPersistentStringSeparator rest with
          | None | Some ([], _) => []
          | Some (field_value, rest) => if bytes_eqb name field_name then field_value else find_trial fuel name rest
          end
      end
  end.

Definition FindFullName (trials_init_string : option (list Z)) (name : list Z) : list Z :=
  match trials_init_string with
  | None => []
  | Some trials => find_trial (S (length trials)) name trials
  end.

(** "WebRTC-AdaptiveBweThreshold" and "Enabled". *)
Definition kAdaptiveThresholdExperiment : list Z :=
  [87; 101; 98; 82; 84; 67; 45; 65; 100; 97; 112; 116; 105; 118; 101; 66; 119; 101; 84; 104; 114; 101; 115; 104; 111; 108; 100].
Definition kEnabledPrefix : list Z := [69; 110; 97; 98; 108; 101; 100].
Definition kEnabledPrefixLength : Z := zlen kEnabledPrefix.
Definition kMinExperimentLength : Z := kEnabledPrefixLength + 3.

Definition kMaxAdaptOffsetMs : spec_float := f64_of_Z 15.
Definition kOverUsingTimeThreshold : spec_float := f64_of_Z 10.

Definition AdaptiveThresholdExperimentIsEnabled (trials : option (list Z)) : bool :=
  let experiment_string := FindFullName trials kAdaptiveThresholdExperiment in
  if zlen experiment_string <? kMinExperimentLength then false
  else bytes_eqb (firstn (Z.to_nat kEnabledPrefixLength) experiment_string) kEnabledPrefix.

Section Library.
(** [sscanf] with two numbers, when it reads both, and [pow]. *)
Variable scan_two : list Z -> option (spec_float * spec_float).
Variable pow : spec_float -> spec_float -> spec_float.

Definition ReadExperimentConstants (trials : option (list Z)) : option (spec_float * spec_float) :=
  scan_two (skipn (Z.to_nat (kEnabledPrefixLength + 1)) (FindFullName trials kAdaptiveThresholdExperiment)).

(** ** overuse_detector.cc *)

Record OveruseDetector := mk_detector {
  in_experiment_ : bool;
  k_up_ : spec_float;
  k_down_ : spec_float;
  overusing_time_threshold_ : spec_float;
  threshold_ : spec_float;
  last_update_ms_ : Z;
  det_prev_offset_ : spec_float;
  time_over_using_ : spec_float;
  overuse_counter_ : Z;
  hypothesis_ : BandwidthUsage
}.

Definition InitializeExperiment (trials : option (list Z)) (d : OveruseDetector) : OveruseDetector :=
  let (up, down) :=
    match ReadExperimentConstants trials with Some k => k | None => (k_up_ d, k_down_ d) end in
  mk_detector (in_experiment_ d) up down kOverUsingTimeThreshold (threshold_ d) (last_update_ms_ d) (det_prev_offset_ d)
    (time_over_using_ d) (overuse_counter_ d) (hypothesis_ d).

Definition new_OveruseDetector (trials : option (list Z)) : OveruseDetector :=
  let in_experiment := AdaptiveThresholdExperimentIsEnabled trials in
  let d := mk_detector in_experiment (f64_lit 1 100) (f64_lit 18 100000) (f64_of_Z 100) (f64_lit 25 2) (-1) (f64_of_Z 0)
             (f64_of_Z (-1)) 0 kBwNormal in
  if in_experiment then InitializeExperiment trials d else d.

Definition State (d : OveruseDetector) : BandwidthUsage := hypothesis_ d.

Definition set_threshold (d : OveruseDetector) (threshold : spec_float) (ms : Z) : OveruseDetector :=
  mk_detector (in_experiment_ d) (k_up_ d) (k_down_ d) (overusing_time_threshold_ d) threshold ms (det_prev_offset_ d)
    (time_over_using_ d) (overuse_counter_ d) (hypothesis_ d).

Definition UpdateThreshold (d : OveruseDetector) (modified_offset : spec_float) (now_ms : Z) : OveruseDetector :=
  if negb (in_experiment_ d) then d
  else
    let last := if last_update_ms_ d =? -1 then now_ms else last_update_ms_ d in
    if f64_ltb (f64_add (threshold_ d) kMaxAdaptOffsetMs) (f64_abs modified_offset) then set_threshold d (threshold_ d) now_ms
    else
      let k := if f64_ltb (f64_abs modified_offset) (threshold_ d) then k_down_ d else k_up_ d in
      let threshold :=
        f64_add (threshold_ d)
          (f64_mul (f64_mul k (f64_sub (f64_abs modified_offset) (threshold_ d))) (f64_of_Z (s64 (now_ms - last)))) in
      set_threshold d (f64_min (f64_max threshold (f64_of_Z 6)) (f64_of_Z 600)) now_ms.

(** The hypothesis, the time and the count that [Detect] finds. *)
Definition set_hypothesis (d : OveruseDetector) (offset time : spec_float) (counter : Z) (h : BandwidthUsage) : OveruseDetector :=
  mk_detector (in_experiment_ d) (k_up_ d) (k_down_ d) (overusing_time_threshold_ d) (threshold_ d) (last_update_ms_ d) offset
    time counter h.

Definition Detect (d : OveruseDetector) (offset ts_delta : spec_float) (num_of_deltas now_ms : Z)
    : BandwidthUsage * OveruseDetector :=
  if num_of_deltas <? 2 then (kBwNormal, d)
  else
    let prev_offset := det_prev_offset_ d in
    let T := f64_mul (f64_of_Z (Z.min num_of_deltas 60)) offset in
    let d :=
      if f64_ltb (threshold_ d) T then
        let time :=
          if f64_eqb (time_over_using_ d) (f64_of_Z (-1)) then f64_div ts_delta (f64_of_Z 2)
          else f64_add (time_over_using_ d) ts_delta in
        let counter := s32 (overuse_counter_ d + 1) in
        if f64_ltb (overusing_time_threshold_ d) time && (1 <? counter) && f64_leb prev_offset offset
        then set_hypothesis d offset (f64_of_Z 0) 0 kBwOverusing
        else set_hypothesis d offset time counter (hypothesis_ d)
      else if f64_ltb T (f64_opp (threshold_ d)) then set_hypothesis d offset (f64_of_Z (-1)) 0 kBwUnderusing
      else set_hypothesis d offset (f64_of_Z (-1)) 0 kBwNormal in
    let d := UpdateThreshold d T now_ms in
    (hypothesis_ d, d).

(** ** overuse_estimator.cc *)

Definition kMinFramePeriodHistoryLength : Z := 60.
Definition kDeltaCounterMax : Z := 1000.

Record OveruseEstimator := mk_estimator {
  num_of_deltas_ : Z;
  slope_ : spec_float;
  offset_ : spec_float;
  prev_offset_ : spec_float;
  E_ : (spec_float * spec_float) * (spec_float * spec_float);
  process_noise_ : spec_float * spec_float;
  avg_noise_ : spec_float;
  var_noise_ : spec_float;
  ts_delta_hist_ : list spec_float
}.

Definition new_OveruseEstimator (o : OverUseDetectorOptions) : OveruseEstimator :=
  mk_estimator 0 (initial_slope o) (initial_offset o) (initial_offset o) (initial_e o) (initial_process_noise o)
    (initial_avg_noise o) (initial_var_noise o) [].

Definition UpdateMinFramePeriod (hist : list spec_float) (ts_delta : spec_float) : spec_float * list spec_float :=
  let hist := if kMinFramePeriodHistoryLength <=? zlen hist then tl hist else hist in
  (fold_left (fun m x => f64_min x m) hist ts_delta, hist ++ [ts_delta]).

(** [avg_noise_] and [var_noise_]; [n] is [num_of_deltas_]. *)
Definition UpdateNoiseEstimate (n : Z) (avg var residual ts_delta : spec_float) (stable_state : bool) : spec_float * spec_float :=
  if negb stable_state then (avg, var)
  else
    let alpha := if 10 * 30 <? n then f64_lit 2 1000 else f64_lit 1 100 in
    let one := f64_of_Z 1 in
    let beta := pow (f64_sub one alpha) (f64_div (f64_mul ts_delta (f64_of_Z 30)) (f64_of_Z 1000)) in
    let avg := f64_add (f64_mul beta avg) (f64_mul (f64_sub one beta) residual) in
    let var := f64_add (f64_mul beta var)
                 (f64_mul (f64_mul (f64_sub one beta) (f64_sub avg residual)) (f64_sub avg residual)) in
    (avg, if f64_ltb var one then one else var).

Definition Update (e : OveruseEstimator) (t_delta : Z) (ts_delta : spec_float) (size_delta : Z)
    (current_hypothesis : BandwidthUsage) : OveruseEstimator :=
  let (min_frame_period, hist) := UpdateMinFramePeriod (ts_delta_hist_ e) ts_delta in
  let t_ts_delta := f64_sub (f64_of_Z t_delta) ts_delta in
  let h0 := f64_of_Z size_delta in
  let h1 := f64_of_Z 1 in
  let num := Z.min (u16 (num_of_deltas_ e + 1)) kDeltaCounterMax in
  let '((E00, E01), (E10, E11)) := E_ e in
  let (noise0, noise1) := process_noise_ e in
  let E00 := f64_add E00 noise0 in
  let E11 := f64_add E11 noise1 in
  let E11 :=
    if (usage_eqb current_hypothesis kBwOverusing && f64_ltb (offset_ e) (prev_offset_ e)) ||
       (usage_eqb current_hypothesis kBwUnderusing && f64_ltb (prev_offset_ e) (offset_ e))
    then f64_add E11 (f64_mul (f64_of_Z 10) noise1) else E11 in
  let Eh0 := f64_add (f64_mul E00 h0) (f64_mul E01 h1) in
  let Eh1 := f64_add (f64_mul E10 h0) (f64_mul E11 h1) in
  let residual := f64_sub (f64_sub t_ts_delta (f64_mul (slope_ e) h0)) (offset_ e) in
  let in_stable_state := usage_eqb current_hypothesis kBwNormal in
  let max_residual := f64_mul (f64_of_Z 3) (f64_sqrt (var_noise_ e)) in
  let (avg, var) :=
    UpdateNoiseEstimate num (avg_noise_ e) (var_noise_ e)
      (if f64_ltb (f64_abs residual) max_residual then residual
       else if f64_ltb residual (f64_of_Z 0) then f64_opp max_residual else max_residual)
      min_frame_period in_stable_state in
  let denom := f64_add (f64_add var (f64_mul h0 Eh0)) (f64_mul h1 Eh1) in
  let K0 := f64_div Eh0 denom in
  let K1 := f64_div Eh1 denom in
  let one := f64_of_Z 1 in
  let IKh00 := f64_sub one (f64_mul K0 h0) in
  let IKh01 := f64_mul (f64_opp K0) h1 in
  let IKh10 := f64_mul (f64_opp K1) h0 in
  let IKh11 := f64_sub one (f64_mul K1 h1) in
  let e00 := E00 in
  let e01 := E01 in
  let E00 := f64_add (f64_mul e00 IKh00) (f64_mul E10 IKh01) in
  let E01 := f64_add (f64_mul e01 IKh00) (f64_mul E11 IKh01) in
  let E10' := f64_add (f64_mul e00 IKh10) (f64_mul E10 IKh11) in
  let E11' := f64_add (f64_mul e01 IKh10) (f64_mul E11 IKh11) in
  mk_estimator num (f64_add (slope_ e) (f64_mul K0 residual)) (f64_add (offset_ e) (f64_mul K1 residual)) (offset_ e)
    ((E00, E01), (E10', E11')) (noise0, noise1) avg var hist.
End Library.

(** ** Over-use lasts *)

(** The arguments of [Detect]: offset, delta, number of deltas, time. *)
Definition sample : Type := spec_float * spec_float * Z * Z.
Definition detect (d : OveruseDetector) (x : sample) : OveruseDetector :=
  let '(offset, ts_delta, num, now) := x in snd (Detect d offset ts_delta num now).

(** The trend is above the threshold. *)
Definition over (d : OveruseDetector) (x : sample) : bool :=
  let '(offset, _, num, _) := x in f64_ltb (threshold_ d) (f64_mul (f64_of_Z (Z.min num 60)) offset).
Definition used (x : sample) : Prop := let '(_, _, num, _) := x in 2 <= num.

Lemma UpdateThreshold_fields d T now :
  hypothesis_ (UpdateThreshold d T now) = hypothesis_ d /\ overuse_counter_ (UpdateThreshold d T now) = overuse_counter_ d /\
  det_prev_offset_ (UpdateThreshold d T now) = det_prev_offset_ d.
Proof. unfold UpdateThreshold. destruct (negb _); [now repeat split|]. destruct (f64_ltb _ _); now repeat split. Qed.

Lemma detected d x : used x -> over d x = true \/ (overuse_counter_ (detect d x) = 0 /\ State (detect d x) <> kBwOverusing).
Proof.
  destruct x as [[[offset ts] num] now]. unfold used, over, detect, Detect, State. intros N. replace (num <? 2) with false by lia.
  set (T := f64_mul _ _). destruct (f64_ltb (threshold_ d) T); [now left|right]. cbn [snd].
  destruct (f64_ltb T _); cbn [snd]; match goal with |- context [UpdateThreshold ?d0 T now] =>
    destruct (UpdateThreshold_fields d0 T now) as (-> & -> & _) end; now split.
Qed.

Lemma new_counter scan trials : overuse_counter_ (new_OveruseDetector scan trials) = 0.
Proof. unfold new_OveruseDetector, InitializeExperiment. destruct (AdaptiveThresholdExperimentIsEnabled _); [|reflexivity]. now destruct (ReadExperimentConstants _ _) as [[? ?]|]. Qed.

Lemma counter_over scan trials l : Forall used l -> let d := fold_left detect l (new_OveruseDetector scan trials) in
  overuse_counter_ d <> 0 -> exists l' y, l = l' ++ [y] /\ over (fold_left detect l' (new_OveruseDetector scan trials)) y = true.
Proof.
  intros U. cbv zeta. destruct l as [|z l0] using rev_ind; [cbn; now rewrite new_counter|]. clear IHl0.
  rewrite fold_left_app. cbn [fold_left]. apply Forall_app in U as [_ U]. inversion U; subst. intros C. exists l0, z. split; [reflexivity|].
  destruct (detected (fold_left detect l0 (new_OveruseDetector scan trials)) z) as [O|[Z0 _]]; [assumption|assumption|contradiction].
Qed.


(** A trend of 5 ms for samples 60 ms apart. *)
Definition sample_trend (num : Z) : sample := (f64_of_Z 5, f64_of_Z 60, num, 1000).


(** The trial is read from the string of the trials. *)
Example experiment_string :
  map AdaptiveThresholdExperimentIsEnabled
    [None; Some (kAdaptiveThresholdExperiment ++ [47] ++ kEnabledPrefix ++ [45; 49; 44; 50; 47]);
     Some ([65; 47; 66; 47] ++ kAdaptiveThresholdExperiment ++ [47] ++ kEnabledPrefix ++ [45; 49; 44; 50; 47]);
     Some (kAdaptiveThresholdExperiment ++ [47] ++ kEnabledPrefix ++ [47])] = [false; true; true; false].
Proof. vm_compute. reflexivity. Qed.
End Overuse.
