(* ===== verification/AimdRateControl.v ===== *)
(** * Control of the rate

    Models src/orbit/webrtc/modules/remote_bitrate_estimator/aimd_rate_control.cc:
    the bitrate is increased while the link is used normally, multiplicatively or
    near the largest rate additively, and decreased when it is over-used.  [pow]
    of the C library is a parameter.  The theorems show when the rate changes
    and in which direction. *)

From Stdlib Require Import SpecFloat.
From S2P Require Import Prelude Floats Overuse.
Import Floats Overuse.

Module AimdRateControl.

Inductive RateControlState := kRcHold | kRcIncrease | kRcDecrease.
Inductive RateControlRegion := kRcNearMax | kRcAboveMax | kRcMaxUnknown.

Record RateControlInput := mk_input {
  bw_state : BandwidthUsage;
  incoming_bitrate : Z;
  noise_var : spec_float
}.

Definition kDefaultMinBitrateBps : Z := 30000.
Definition kDefaultRttMs : Z := 200.
Definition kLogIntervalMs : Z := 1000.
Definition kWithinIncomingBitrateHysteresis : spec_float := f64_lit 105 100.
Definition kMaxFeedbackIntervalMs : Z := 1000.
Definition kMinFeedbackIntervalMs : Z := 200.
Definition kInitializationTimeMs : Z := 5000.

Record AimdRateControl := mk_aimd {
  min_configured_bitrate_bps_ : Z;
  max_configured_bitrate_bps_ : Z;
  current_bitrate_bps_ : Z;
  avg_max_bitrate_kbps_ : spec_float;
  var_max_bitrate_kbps_ : spec_float;
  rate_control_state_ : RateControlState;
  rate_control_region_ : RateControlRegion;
  time_last_bitrate_change_ : Z;
  current_input_ : RateControlInput;
  updated_ : bool;
  time_first_incoming_estimate_ : Z;
  bitrate_is_initialized_ : bool;
  beta_ : spec_float;
  rtt_ : Z;
  time_of_last_log_ : Z;
  in_experiment_ : bool
}.

Definition new_AimdRateControl (trials : option (list Z)) : AimdRateControl :=
  mk_aimd kDefaultMinBitrateBps 30000000 30000000 (f32_of_Z (-1)) (f32_lit 4 10) kRcHold kRcMaxUnknown (-1)
    (mk_input kBwNormal 0 (f64_of_Z 1)) false (-1) false (f32_lit 85 100) kDefaultRttMs (-1)
    (AdaptiveThresholdExperimentIsEnabled trials).

(** *** The stores *)

Definition set_rate (a : AimdRateControl) (current : Z) : AimdRateControl :=
  mk_aimd (min_configured_bitrate_bps_ a) (max_configured_bitrate_bps_ a) current (avg_max_bitrate_kbps_ a) (var_max_bitrate_kbps_ a)
    (rate_control_state_ a) (rate_control_region_ a) (time_last_bitrate_change_ a) (current_input_ a) (updated_ a)
    (time_first_incoming_estimate_ a) (bitrate_is_initialized_ a) (beta_ a) (rtt_ a) (time_of_last_log_ a) (in_experiment_ a).
Definition set_min (a : AimdRateControl) (m : Z) : AimdRateControl :=
  mk_aimd m (max_configured_bitrate_bps_ a) (current_bitrate_bps_ a) (avg_max_bitrate_kbps_ a) (var_max_bitrate_kbps_ a)
    (rate_control_state_ a) (rate_control_region_ a) (time_last_bitrate_change_ a) (current_input_ a) (updated_ a)
    (time_first_incoming_estimate_ a) (bitrate_is_initialized_ a) (beta_ a) (rtt_ a) (time_of_last_log_ a) (in_experiment_ a).
Definition set_max (a : AimdRateControl) (avg var : spec_float) : AimdRateControl :=
  mk_aimd (min_configured_bitrate_bps_ a) (max_configured_bitrate_bps_ a) (current_bitrate_bps_ a) avg var
    (rate_control_state_ a) (rate_control_region_ a) (time_last_bitrate_change_ a) (current_input_ a) (updated_ a)
    (time_first_incoming_estimate_ a) (bitrate_is_initialized_ a) (beta_ a) (rtt_ a) (time_of_last_log_ a) (in_experiment_ a).
Definition set_state (a : AimdRateControl) (s : RateControlState) : AimdRateControl :=
  mk_aimd (min_configured_bitrate_bps_ a) (max_configured_bitrate_bps_ a) (current_bitrate_bps_ a) (avg_max_bitrate_kbps_ a)
    (var_max_bitrate_kbps_ a) s (rate_control_region_ a) (time_last_bitrate_change_ a) (current_input_ a) (updated_ a)
    (time_first_incoming_estimate_ a) (bitrate_is_initialized_ a) (beta_ a) (rtt_ a) (time_of_last_log_ a) (in_experiment_ a).
Definition ChangeRegion (a : AimdRateControl) (region : RateControlRegion) : AimdRateControl :=
  mk_aimd (min_configured_bitrate_bps_ a) (max_configured_bitrate_bps_ a) (current_bitrate_bps_ a) (avg_max_bitrate_kbps_ a)
    (var_max_bitrate_kbps_ a) (rate_control_state_ a) region (time_last_bitrate_change_ a) (current_input_ a) (updated_ a)
    (time_first_incoming_estimate_ a) (bitrate_is_initialized_ a) (beta_ a) (rtt_ a) (time_of_last_log_ a) (in_experiment_ a).
Definition set_time (a : AimdRateControl) (t : Z) : AimdRateControl :=
  mk_aimd (min_configured_bitrate_bps_ a) (max_configured_bitrate_bps_ a) (current_bitrate_bps_ a) (avg_max_bitrate_kbps_ a)
    (var_max_bitrate_kbps_ a) (rate_control_state_ a) (rate_control_region_ a) t (current_input_ a) (updated_ a)
    (time_first_incoming_estimate_ a) (bitrate_is_initialized_ a) (beta_ a) (rtt_ a) (time_of_last_log_ a) (in_experiment_ a).
Definition set_input (a : AimdRateControl) (i : RateControlInput) (updated : bool) : AimdRateControl :=
  mk_aimd (min_configured_bitrate_bps_ a) (max_configured_bitrate_bps_ a) (current_bitrate_bps_ a) (avg_max_bitrate_kbps_ a)
    (var_max_bitrate_kbps_ a) (rate_control_state_ a) (rate_control_region_ a) (time_last_bitrate_change_ a) i updated
    (time_first_incoming_estimate_ a) (bitrate_is_initialized_ a) (beta_ a) (rtt_ a) (time_of_last_log_ a) (in_experiment_ a).
Definition set_initialized (a : AimdRateControl) (first : Z) (initialized : bool) : AimdRateControl :=
  mk_aimd (min_configured_bitrate_bps_ a) (max_configured_bitrate_bps_ a) (current_bitrate_bps_ a) (avg_max_bitrate_kbps_ a)
    (var_max_bitrate_kbps_ a) (rate_control_state_ a) (rate_control_region_ a) (time_last_bitrate_change_ a) (current_input_ a)
    (updated_ a) first initialized (beta_ a) (rtt_ a) (time_of_last_log_ a) (in_experiment_ a).
Definition set_rtt (a : AimdRateControl) (rtt log : Z) : AimdRateControl :=
  mk_aimd (min_configured_bitrate_bps_ a) (max_configured_bitrate_bps_ a) (current_bitrate_bps_ a) (avg_max_bitrate_kbps_ a)
    (var_max_bitrate_kbps_ a) (rate_control_state_ a) (rate_control_region_ a) (time_last_bitrate_change_ a) (current_input_ a)
    (updated_ a) (time_first_incoming_estimate_ a) (bitrate_is_initialized_ a) (beta_ a) rtt log (in_experiment_ a).

(** *** The interface *)

(** [std::max<int>]. *)
Definition SetMinBitrate (a : AimdRateControl) (min_bitrate_bps : Z) : AimdRateControl :=
  set_rate (set_min a (u32 min_bitrate_bps)) (u32 (Z.max min_bitrate_bps (s32 (current_bitrate_bps_ a)))).

Definition ValidEstimate (a : AimdRateControl) : bool := bitrate_is_initialized_ a.
Definition LatestEstimate (a : AimdRateControl) : Z := current_bitrate_bps_ a.
Definition SetRtt (a : AimdRateControl) (rtt : Z) : AimdRateControl := set_rtt a rtt (time_of_last_log_ a).

Definition GetFeedbackInterval (a : AimdRateControl) : Z :=
  let interval :=
    to_s64 (f64_add
      (f64_div (f64_mul (f64_mul (f64_of_Z 80) (f64_of_Z 8)) (f64_of_Z 1000))
         (f64_mul (f64_lit 5 100) (f64_of_Z (current_bitrate_bps_ a)))) f64_half) in
  Z.min (Z.max interval kMinFeedbackIntervalMs) kMaxFeedbackIntervalMs.

Definition TimeToReduceFurther (a : AimdRateControl) (time_now incoming_bitrate_bps : Z) : bool :=
  let bitrate_reduction_interval := Z.max (Z.min (rtt_ a) 200) 10 in
  if bitrate_reduction_interval <=? s64 (time_now - time_last_bitrate_change_ a) then true
  else if ValidEstimate a then
    let threshold := to_s32 (f64_mul kWithinIncomingBitrateHysteresis (f64_of_Z incoming_bitrate_bps)) in
    let bitrate_difference := s32 (u32 (LatestEstimate a - incoming_bitrate_bps)) in
    threshold <? bitrate_difference
  else false.

Definition Update (a : AimdRateControl) (input : RateControlInput) (now_ms : Z) : AimdRateControl :=
  let a :=
    if bitrate_is_initialized_ a then a
    else if time_first_incoming_estimate_ a <? 0 then
      if 0 <? incoming_bitrate input then set_initialized a now_ms false else a
    else if (kInitializationTimeMs <? s64 (now_ms - time_first_incoming_estimate_ a)) && (0 <? incoming_bitrate input) then
      set_initialized (set_rate a (incoming_bitrate input)) (time_first_incoming_estimate_ a) true
    else a in
  if updated_ a && usage_eqb (bw_state (current_input_ a)) kBwOverusing then
    set_input a (mk_input (bw_state (current_input_ a)) (incoming_bitrate input) (noise_var input)) (updated_ a)
  else set_input a input true.

(** [ChangeState(input, now_ms)]; the input is not read. *)
Definition ChangeState (a : AimdRateControl) (now_ms : Z) : AimdRateControl :=
  match bw_state (current_input_ a) with
  | kBwNormal =>
      match rate_control_state_ a with
      | kRcHold => set_state (set_time a now_ms) kRcIncrease
      | _ => a
      end
  | kBwOverusing => set_state a kRcDecrease
  | kBwUnderusing => set_state a kRcHold
  end.

Definition UpdateMaxBitRateEstimate (a : AimdRateControl) (incoming_bitrate_kbps : spec_float) : AimdRateControl :=
  let alpha := f32_lit 5 100 in
  let one := f32_of_Z 1 in
  let avg :=
    if f32_eqb (avg_max_bitrate_kbps_ a) (f32_of_Z (-1)) then incoming_bitrate_kbps
    else f32_add (f32_mul (f32_sub one alpha) (avg_max_bitrate_kbps_ a)) (f32_mul alpha incoming_bitrate_kbps) in
  let norm := f32_max avg one in
  let diff := f32_sub avg incoming_bitrate_kbps in
  let var :=
    f32_add (f32_mul (f32_sub one alpha) (var_max_bitrate_kbps_ a)) (f32_div (f32_mul (f32_mul alpha diff) diff) norm) in
  let var := if f32_ltb var (f32_lit 4 10) then f32_lit 4 10 else var in
  let var := if f32_ltb (f32_lit 25 10) var then f32_lit 25 10 else var in
  set_max a avg var.

Section Library.
Variable pow : spec_float -> spec_float -> spec_float.

Definition MultiplicativeRateIncrease (now_ms last_ms current_bitrate_bps : Z) : Z :=
  let alpha := f64_lit 108 100 in
  let alpha :=
    if -1 <? last_ms then
      let time_since_last_update_ms := Z.min (s32 (now_ms - last_ms)) 1000 in
      pow alpha (f64_div (f64_of_Z time_since_last_update_ms) (f64_of_Z 1000))
    else alpha in
  to_u32 (f64_max (f64_mul (f64_of_Z current_bitrate_bps) (f64_sub alpha (f64_of_Z 1))) (f64_of_Z 1000)).

Definition AdditiveRateIncrease (a : AimdRateControl) (now_ms last_ms response_time_ms : Z) : Z :=
  let beta :=
    if 0 <? last_ms then
      let beta := f64_min (f64_div (f64_of_Z (s64 (now_ms - last_ms))) (f64_of_Z response_time_ms)) (f64_of_Z 1) in
      if in_experiment_ a then f64_div beta (f64_of_Z 2) else beta
    else f64_of_Z 0 in
  let bits_per_frame := f64_div (f64_of_Z (current_bitrate_bps_ a)) (f64_of_Z 30) in
  let packets_per_frame := f64_ceil (f64_div bits_per_frame (f64_mul (f64_of_Z 8) (f64_of_Z 1200))) in
  let avg_packet_size_bits := f64_div bits_per_frame packets_per_frame in
  to_u32 (f64_max (f64_of_Z 1000) (f64_mul beta avg_packet_size_bits)).

(** The cases of the switch: the new rate and the state. *)
Definition Increase (a : AimdRateControl) (kbps std : spec_float) (current now_ms : Z) : Z * AimdRateControl :=
  let avg := avg_max_bitrate_kbps_ a in
  let a :=
    if f32_leb (f32_of_Z 0) avg && f32_ltb (f32_add avg (f32_mul (f32_of_Z 3) std)) kbps
    then set_max (ChangeRegion a kRcMaxUnknown) (f32_of_Z (-1)) (var_max_bitrate_kbps_ a) else a in
  let increase :=
    match rate_control_region_ a with
    | kRcNearMax => AdditiveRateIncrease a now_ms (time_last_bitrate_change_ a) (s64 (rtt_ a + 100))
    | _ => MultiplicativeRateIncrease now_ms (time_last_bitrate_change_ a) current
    end in
  (u32 (current + increase), set_time a now_ms).

Definition Decrease (a : AimdRateControl) (kbps std : spec_float) (incoming now_ms : Z) : Z * AimdRateControl :=
  let a := set_initialized a (time_first_incoming_estimate_ a) true in
  let (current, a) :=
    if incoming <? min_configured_bitrate_bps_ a then (min_configured_bitrate_bps_ a, a)
    else
      let current :=
        to_u32 (f64_add (f64_of_f32 (f32_mul (beta_ a) (f32_of_Z incoming))) f64_half) in
      let current :=
        if current_bitrate_bps_ a <? current then
          let current :=
            match rate_control_region_ a with
            | kRcMaxUnknown => current
            | _ => to_u32 (f32_add (f32_mul (f32_mul (beta_ a) (avg_max_bitrate_kbps_ a)) (f32_of_Z 1000)) f32_half)
            end in
          Z.min current (current_bitrate_bps_ a)
        else current in
      let a := ChangeRegion a kRcNearMax in
      let a :=
        if f32_ltb kbps (f32_sub (avg_max_bitrate_kbps_ a) (f32_mul (f32_of_Z 3) std))
        then set_max a (f32_of_Z (-1)) (var_max_bitrate_kbps_ a) else a in
      (current, UpdateMaxBitRateEstimate a kbps) in
  (current, set_time (set_state a kRcHold) now_ms).

Definition ChangeBitrate (a : AimdRateControl) (current_bitrate_bps incoming_bitrate_bps now_ms : Z) : Z * AimdRateControl :=
  if negb (updated_ a) then (current_bitrate_bps_ a, a)
  else if negb (bitrate_is_initialized_ a) && negb (usage_eqb (bw_state (current_input_ a)) kBwOverusing)
  then (current_bitrate_bps_ a, a)
  else
    let a := ChangeState (set_input a (current_input_ a) false) now_ms in
    let kbps := f32_div (f32_of_Z incoming_bitrate_bps) (f32_of_Z 1000) in
    let std := f32_of_f64 (f64_sqrt (f64_of_f32 (f32_mul (var_max_bitrate_kbps_ a) (avg_max_bitrate_kbps_ a)))) in
    let (current, a) :=
      match rate_control_state_ a with
      | kRcHold => (current_bitrate_bps, a)
      | kRcIncrease => Increase a kbps std current_bitrate_bps now_ms
      | kRcDecrease => Decrease a kbps std incoming_bitrate_bps now_ms
      end in
    if ((100000 <? incoming_bitrate_bps) || (150000 <? current)) &&
       f64_ltb (f64_mul (f64_lit 15 10) (f64_of_Z incoming_bitrate_bps)) (f64_of_Z current)
    then (current_bitrate_bps_ a, set_time a now_ms)
    else (current, a).

Definition UpdateBandwidthEstimate (a : AimdRateControl) (now_ms : Z) : Z * AimdRateControl :=
  let (current, a) := ChangeBitrate a (current_bitrate_bps_ a) (incoming_bitrate (current_input_ a)) now_ms in
  let a := set_rate a current in
  let log := if kLogIntervalMs <? s64 (now_ms - time_of_last_log_ a) then now_ms else time_of_last_log_ a in
  (current, set_rtt a (rtt_ a) log).

Definition SetEstimate (a : AimdRateControl) (bitrate_bps now_ms : Z) : AimdRateControl :=
  let a := set_initialized (set_input a (current_input_ a) true) (time_first_incoming_estimate_ a) true in
  let (current, a) := ChangeBitrate a (u32 bitrate_bps) (u32 bitrate_bps) now_ms in
  set_rate a current.

(** ** When the rate changes, and where to *)

Lemma Decrease_rate a kbps std incoming now rate a' : Decrease a kbps std incoming now = (rate, a') ->
  (rate <= current_bitrate_bps_ a \/ rate = min_configured_bitrate_bps_ a) /\
  rate_control_state_ a' = kRcHold /\ updated_ a' = updated_ a /\ current_bitrate_bps_ a' = current_bitrate_bps_ a.
Proof.
  unfold Decrease. cbn [set_initialized min_configured_bitrate_bps_ current_bitrate_bps_ rate_control_region_ beta_].
  destruct (incoming <? min_configured_bitrate_bps_ a); [intros E; injection E as <- <-; cbn; repeat split; now right|].
  set (c := to_u32 _). set (d := match rate_control_region_ a with kRcMaxUnknown => c | _ => _ end).
  destruct (f32_ltb kbps _); intros E; injection E as <- <-; (split; [left; destruct (Z.ltb_spec (current_bitrate_bps_ a) c); lia|now repeat split]).
Qed.

Lemma Increase_fields a kbps std current now rate a' : Increase a kbps std current now = (rate, a') ->
  rate_control_state_ a' = rate_control_state_ a /\ updated_ a' = updated_ a /\ current_bitrate_bps_ a' = current_bitrate_bps_ a.
Proof. unfold Increase. destruct (_ && _); intros E; injection E as <- <-; now repeat split. Qed.

Lemma ChangeState_fields a now :
  let a' := ChangeState a now in
  updated_ a' = updated_ a /\ current_bitrate_bps_ a' = current_bitrate_bps_ a /\
  min_configured_bitrate_bps_ a' = min_configured_bitrate_bps_ a /\
  match bw_state (current_input_ a) with
  | kBwOverusing => rate_control_state_ a' = kRcDecrease
  | kBwUnderusing => rate_control_state_ a' = kRcHold
  | kBwNormal => rate_control_state_ a <> kRcDecrease -> rate_control_state_ a' = kRcIncrease
  end.
Proof.
  cbv zeta. unfold ChangeState. destruct (bw_state (current_input_ a)); [destruct (rate_control_state_ a) eqn:E|..]; cbn; repeat split; congruence.
Qed.

Lemma ChangeBitrate_rate a incoming now rate a' : rate_control_state_ a <> kRcDecrease ->
  ChangeBitrate a (current_bitrate_bps_ a) incoming now = (rate, a') ->
  rate_control_state_ a' <> kRcDecrease /\
  match updated_ a, bw_state (current_input_ a) with
  | true, kBwOverusing => updated_ a' = false /\ (rate <= current_bitrate_bps_ a \/ rate = min_configured_bitrate_bps_ a)
  | true, kBwNormal => bitrate_is_initialized_ a = false -> rate = current_bitrate_bps_ a
  | _, _ => rate = current_bitrate_bps_ a
  end.
Proof.
  intros S. unfold ChangeBitrate. destruct (updated_ a); cbn [negb]; [|intros E; injection E as <- <-; now split].
  destruct (negb (bitrate_is_initialized_ a) && negb (usage_eqb (bw_state (current_input_ a)) kBwOverusing)) eqn:N.
  { intros E. injection E as <- <-. apply andb_true_iff in N as [_ N]. split; [assumption|]. destruct (bw_state (current_input_ a)); try discriminate; auto. }
  destruct (ChangeState_fields (set_input a (current_input_ a) false) now) as (U & C & M & St).
  cbn [set_input updated_ current_bitrate_bps_ min_configured_bitrate_bps_ current_input_ rate_control_state_] in U, C, M, St.
  set (a1 := ChangeState _ now) in *. set (kbps := f32_div _ _). set (std := f32_of_f64 _).
  assert (R : forall r a2, match rate_control_state_ a1 with
      | kRcHold => (current_bitrate_bps_ a, a1)
      | kRcIncrease => Increase a1 kbps std (current_bitrate_bps_ a) now
      | kRcDecrease => Decrease a1 kbps std incoming now
      end = (r, a2) ->
    rate_control_state_ a2 <> kRcDecrease /\ updated_ a2 = false /\ current_bitrate_bps_ a2 = current_bitrate_bps_ a /\
    match bw_state (current_input_ a) with
    | kBwOverusing => r <= current_bitrate_bps_ a \/ r = min_configured_bitrate_bps_ a
    | kBwUnderusing => r = current_bitrate_bps_ a
    | kBwNormal => True
    end).
  { intros r a2 E. destruct (bw_state (current_input_ a)).
    - rewrite (St S) in E. apply Increase_fields in E as (E1 & E2 & E3). rewrite E1, E2, E3, (St S). repeat split; congruence.
    - rewrite St in E. injection E as <- <-. rewrite St. repeat split; congruence.
    - rewrite St in E. apply Decrease_rate in E as (E0 & E1 & E2 & E3). rewrite E1, E2, E3. rewrite C, M in E0. repeat split; congruence. }
  destruct (match rate_control_state_ a1 with kRcHold => _ | _ => _ end) as [r a2]. destruct (R r a2 eq_refl) as (R1 & R2 & R3 & R4).
  destruct (_ && f64_ltb _ _); intros E; injection E as <- <-; cbn [set_time rate_control_state_ updated_];
    (split; [assumption|]); rewrite ?R3; apply andb_false_iff in N; destruct (bw_state (current_input_ a)); auto.
  - split; [assumption|]. now left; lia.
  - intros I. rewrite I in N. destruct N; discriminate.
Qed.

(** C31. The rate that is estimated: without a new input it stays; when the link
    is under-used it stays; when it is over-used it never rises, except to the
    least rate that is configured; and in normal use it stays until there is a
    first estimate.  The control never rests in the state of a decrease, so that
    each over-use decreases the rate once. *)
Theorem rate_changes a now_ms rate a' : rate_control_state_ a <> kRcDecrease ->
  UpdateBandwidthEstimate a now_ms = (rate, a') ->
  rate = LatestEstimate a' /\ rate_control_state_ a' <> kRcDecrease /\
  match updated_ a, bw_state (current_input_ a) with
  | true, kBwOverusing => updated_ a' = false /\ (rate <= LatestEstimate a \/ rate = min_configured_bitrate_bps_ a)
  | true, kBwNormal => ValidEstimate a = false -> rate = LatestEstimate a
  | _, _ => rate = LatestEstimate a
  end.
Proof.
  intros S. unfold UpdateBandwidthEstimate.
  destruct (ChangeBitrate a (current_bitrate_bps_ a) (incoming_bitrate (current_input_ a)) now_ms) as [r a1] eqn:E.
  destruct (ChangeBitrate_rate _ _ _ _ _ S E) as [R1 R2]. intros K. injection K as <- <-. split; [reflexivity|]. now split.
Qed.
End Library.

(** ** An example *)

Definition sample : AimdRateControl :=
  let a := Update (new_AimdRateControl None) (mk_input kBwNormal 500000 (f64_of_Z 1)) 0 in
  let a := Update a (mk_input kBwNormal 500000 (f64_of_Z 1)) 6000 in
  Update (snd (UpdateBandwidthEstimate (fun _ x => x) a 6000)) (mk_input kBwOverusing 400000 (f64_of_Z 1)) 6100.

Lemma rate_changes_witness :
  let '(rate, a') := UpdateBandwidthEstimate (fun _ x => x) sample 6100 in
  rate = LatestEstimate a' /\ rate_control_state_ a' <> kRcDecrease /\
  updated_ a' = false /\ (rate <= LatestEstimate sample \/ rate = min_configured_bitrate_bps_ sample).
Proof.
  destruct (UpdateBandwidthEstimate (fun _ x => x) sample 6100) as [rate a'] eqn:E.
  refine (rate_changes (fun _ x => x) sample 6100 rate a' _ E). vm_compute. discriminate.
Defined.

(** A link of 30 to 35 kb/s that is over-used: the rate falls below the least
    rate that is configured. *)
Example below_the_minimum :
  let a := SetMinBitrate (new_AimdRateControl None) 30000 in
  let a := Update a (mk_input kBwOverusing 30000 (f64_of_Z 1)) 0 in
  fst (UpdateBandwidthEstimate (fun _ x => x) a 0) = 25500.
Proof. vm_compute. reflexivity. Qed.
End AimdRateControl.
