(* ===== verification/RemoteBitrate.v ===== *)
(** * The estimator of the received bitrate

    The interface of src/orbit/webrtc/modules/remote_bitrate_estimator/include/
    remote_bitrate_estimator.h as a class, and its implementation for single
    streams, remote_bitrate_estimator_single_stream.cc, as an instance: a
    detector for each source, the rate of all that is received, and the control
    of the rate.  What the clock answers is an argument, in the order of the
    calls; what the observer is told is returned.  The lock is left out. *)

From Stdlib Require Import SpecFloat.
From S2P Require Import Prelude Wire Floats OrderedMap RtpExtensions RateStatistics InterArrival Overuse AimdRateControl.
Import Wire Floats OrderedMap RtpExtensions.

Module RemoteBitrate.

(** OnReceiveBitrateChanged: the sources and the bitrate. *)
Definition change : Type := list Z * Z.

Class RemoteBitrateEstimator (E : Type) := {
  IncomingPacket : Z -> Z -> Z -> RTPHeader -> bool -> E -> res (E * list change);
  TimeUntilNextProcess : Z -> E -> Z;
  Process : Z * Z * Z -> E -> res (E * list change);
  RemoveStream : Z -> E -> E;
  (** The sources and the bitrate when there is an estimate. *)
  LatestEstimate : E -> option (list Z * Z);
  SetMinBitrate : Z -> E -> E;
  OnRttUpdate : Z -> Z -> E -> E
}.

Definition kProcessIntervalMs : Z := 500.
Definition kStreamTimeOutMs : Z := 2000.
Definition kBitrateWindowMs : Z := 1000.
Definition kTimestampGroupLengthMs : Z := 5.
Definition kTimestampToMs : spec_float := f64_lit 1 90.

Record Detector := mk_detector {
  last_packet_time_ms : Z;
  inter_arrival : InterArrival.InterArrival;
  estimator : Overuse.OveruseEstimator;
  detector : Overuse.OveruseDetector
}.

Record RemoteBitrateEstimatorSingleStream := mk_single {
  overuse_detectors_ : map_t Detector;
  incoming_bitrate_ : RateStatistics.RateStatistics;
  remote_rate_ : AimdRateControl.AimdRateControl;
  last_process_time_ : Z;
  process_interval_ms_ : Z
}.

Section Single.
Variable scan_two : list Z -> option (spec_float * spec_float).
Variable pow : spec_float -> spec_float -> spec_float.
Variable trials : option (list Z).

Definition new_Detector (last_packet_time_ms : Z) (options : Overuse.OverUseDetectorOptions) (enable_burst_grouping : bool)
    : Detector :=
  mk_detector last_packet_time_ms
    (InterArrival.new_InterArrival (90 * kTimestampGroupLengthMs) kTimestampToMs enable_burst_grouping)
    (Overuse.new_OveruseEstimator options) (Overuse.new_OveruseDetector scan_two trials).

Definition new_RemoteBitrateEstimatorSingleStream : RemoteBitrateEstimatorSingleStream :=
  mk_single [] (RateStatistics.new_RateStatistics kBitrateWindowMs (f32_of_Z 8000)) (AimdRateControl.new_AimdRateControl trials)
    (-1) kProcessIntervalMs.

Definition GetSsrcs (s : RemoteBitrateEstimatorSingleStream) : list Z := map fst (overuse_detectors_ s).

(** The loop over the detectors: those that stay, the sum of the variances and
    the worst state. *)
Fixpoint drop_old (now_ms : Z) (m : map_t Detector) (sum_var_noise : spec_float) (bw_state : Overuse.BandwidthUsage)
    : map_t Detector * spec_float * Overuse.BandwidthUsage :=
  match m with
  | [] => ([], sum_var_noise, bw_state)
  | (ssrc, d) :: m =>
      if (0 <=? last_packet_time_ms d) && (kStreamTimeOutMs <? s64 (now_ms - last_packet_time_ms d))
      then drop_old now_ms m sum_var_noise bw_state
      else
        let state := Overuse.State (detector d) in
        let bw_state := if Overuse.usage bw_state <? Overuse.usage state then state else bw_state in
        let '(m, sum, bw_state) := drop_old now_ms m (f64_add sum_var_noise (Overuse.var_noise_ (estimator d))) bw_state in
        ((ssrc, d) :: m, sum, bw_state)
  end.

Definition UpdateEstimate (s : RemoteBitrateEstimatorSingleStream) (now_ms : Z)
    : res (RemoteBitrateEstimatorSingleStream * list change) :=
  let '(m, sum_var_noise, bw_state) := drop_old now_ms (overuse_detectors_ s) (f64_of_Z 0) Overuse.kBwNormal in
  match m with
  | [] =>
      Ok (mk_single [] (incoming_bitrate_ s) (AimdRateControl.new_AimdRateControl trials) (last_process_time_ s)
            (process_interval_ms_ s), [])
  | _ =>
      let mean_noise_var := f64_div sum_var_noise (f64_of_Z (zlen m)) in
      let! (rate, incoming) := RateStatistics.Rate (incoming_bitrate_ s) now_ms in
      let a := AimdRateControl.Update (remote_rate_ s) (AimdRateControl.mk_input bw_state rate mean_noise_var) now_ms in
      let (target_bitrate, a) := AimdRateControl.UpdateBandwidthEstimate pow a now_ms in
      if AimdRateControl.ValidEstimate a then
        Ok (mk_single m incoming a (last_process_time_ s) (AimdRateControl.GetFeedbackInterval a), [(map fst m, target_bitrate)])
      else Ok (mk_single m incoming a (last_process_time_ s) (process_interval_ms_ s), [])
  end.

(** [now_ms] is the time of the clock, [arrival_time_ms] that of the packet. *)
Definition single_IncomingPacket (now_ms arrival_time_ms payload_size : Z) (header : RTPHeader) (was_paced : bool)
    (s : RemoteBitrateEstimatorSingleStream) : res (RemoteBitrateEstimatorSingleStream * list change) :=
  let ssrc := ssrc header in
  let rtp_timestamp := u32 (timestamp header + transmissionTimeOffset (extension header)) in
  let d :=
    match find ssrc (overuse_detectors_ s) with
    | Some d => d
    | None => new_Detector now_ms Overuse.default_options true
    end in
  let! incoming := RateStatistics.Update (incoming_bitrate_ s) payload_size now_ms in
  let prior_state := Overuse.State (detector d) in
  let (deltas, arrival) := InterArrival.ComputeDeltas (inter_arrival d) rtp_timestamp arrival_time_ms payload_size in
  let d :=
    match deltas with
    | None => mk_detector now_ms arrival (estimator d) (detector d)
    | Some (timestamp_delta, time_delta, size_delta) =>
        let timestamp_delta_ms := f64_mul (f64_of_Z timestamp_delta) kTimestampToMs in
        let e := Overuse.Update pow (estimator d) time_delta timestamp_delta_ms size_delta (Overuse.State (detector d)) in
        let (_, det) :=
          Overuse.Detect (detector d) (Overuse.offset_ e) timestamp_delta_ms (Overuse.num_of_deltas_ e) now_ms in
        mk_detector now_ms arrival e det
    end in
  let s := mk_single (store ssrc d (overuse_detectors_ s)) incoming (remote_rate_ s) (last_process_time_ s) (process_interval_ms_ s) in
  if Overuse.usage_eqb (Overuse.State (detector d)) Overuse.kBwOverusing then
    let! (incoming_bitrate_bps, incoming) := RateStatistics.Rate (incoming_bitrate_ s) now_ms in
    let s := mk_single (overuse_detectors_ s) incoming (remote_rate_ s) (last_process_time_ s) (process_interval_ms_ s) in
    if negb (Overuse.usage_eqb prior_state Overuse.kBwOverusing) ||
       AimdRateControl.TimeToReduceFurther (remote_rate_ s) now_ms incoming_bitrate_bps
    then UpdateEstimate s now_ms
    else Ok (s, [])
  else Ok (s, []).

Definition single_TimeUntilNextProcess (now : Z) (s : RemoteBitrateEstimatorSingleStream) : Z :=
  if last_process_time_ s <? 0 then 0 else s64 (last_process_time_ s + process_interval_ms_ s - now).

(** The clock is asked three times. *)
Definition single_Process (times : Z * Z * Z) (s : RemoteBitrateEstimatorSingleStream)
    : res (RemoteBitrateEstimatorSingleStream * list change) :=
  let '(now, now_ms, last) := times in
  if 0 <? single_TimeUntilNextProcess now s then Ok (s, [])
  else
    let! (s, told) := UpdateEstimate s now_ms in
    Ok (mk_single (overuse_detectors_ s) (incoming_bitrate_ s) (remote_rate_ s) last (process_interval_ms_ s), told).

Definition set_remote_rate (s : RemoteBitrateEstimatorSingleStream) (a : AimdRateControl.AimdRateControl)
    : RemoteBitrateEstimatorSingleStream :=
  mk_single (overuse_detectors_ s) (incoming_bitrate_ s) a (last_process_time_ s) (process_interval_ms_ s).

Definition single_OnRttUpdate (avg_rtt_ms max_rtt_ms : Z) (s : RemoteBitrateEstimatorSingleStream) : RemoteBitrateEstimatorSingleStream :=
  set_remote_rate s (AimdRateControl.SetRtt (remote_rate_ s) avg_rtt_ms).

Definition single_RemoveStream (ssrc : Z) (s : RemoteBitrateEstimatorSingleStream) : RemoteBitrateEstimatorSingleStream :=
  mk_single (erase ssrc (overuse_detectors_ s)) (incoming_bitrate_ s) (remote_rate_ s) (last_process_time_ s) (process_interval_ms_ s).

Definition single_LatestEstimate (s : RemoteBitrateEstimatorSingleStream) : option (list Z * Z) :=
  if negb (AimdRateControl.ValidEstimate (remote_rate_ s)) then None
  else
    let ssrcs := GetSsrcs s in
    Some (ssrcs, match ssrcs with [] => 0 | _ => AimdRateControl.LatestEstimate (remote_rate_ s) end).

Definition single_SetMinBitrate (min_bitrate_bps : Z) (s : RemoteBitrateEstimatorSingleStream) : RemoteBitrateEstimatorSingleStream :=
  set_remote_rate s (AimdRateControl.SetMinBitrate (remote_rate_ s) min_bitrate_bps).

#[export] Instance single_stream : RemoteBitrateEstimator RemoteBitrateEstimatorSingleStream := {
  IncomingPacket := single_IncomingPacket;
  TimeUntilNextProcess := single_TimeUntilNextProcess;
  Process := single_Process;
  RemoveStream := single_RemoveStream;
  LatestEstimate := single_LatestEstimate;
  SetMinBitrate := single_SetMinBitrate;
  OnRttUpdate := single_OnRttUpdate
}.

(** ** No packet makes it fail *)

Inductive event :=
| Packet (now_ms arrival_time_ms payload_size : Z) (header : RTPHeader)
| Tick (times : Z * Z * Z).

Definition respond (s : RemoteBitrateEstimatorSingleStream) (e : event) : res (RemoteBitrateEstimatorSingleStream * list change) :=
  match e with
  | Packet now arrival n h => single_IncomingPacket now arrival n h false s
  | Tick times => single_Process times s
  end.

Fixpoint run (l : list event) (s : RemoteBitrateEstimatorSingleStream) : res (RemoteBitrateEstimatorSingleStream * list change) :=
  match l with
  | [] => Ok (s, [])
  | e :: l =>
      let! (s, told) := respond s e in
      let! (s, told') := run l s in
      Ok (s, told ++ told')
  end.

Definition size_of (e : event) : Z := match e with Packet _ _ n _ => n | Tick _ => 0 end.
Definition event_ok (e : event) : Prop :=
  match e with
  | Packet now _ n _ => 0 <= now < 2 ^ 62 /\ 0 <= n
  | Tick (_, now_ms, _) => 0 <= now_ms < 2 ^ 62
  end.
Definition total_size (l : list event) : Z := fold_right (fun e n => size_of e + n) 0 l.

(** The rate of what was received has seen at most [n] bytes. *)
Definition counted (r : RateStatistics.RateStatistics) (n : Z) : Prop :=
  exists l, Forall RateStatistics.call_ok l /\ RateStatistics.total l <= n /\
    RateStatistics.calls l (RateStatistics.new_RateStatistics kBitrateWindowMs (f32_of_Z 8000)) = Ok r.

Lemma called r n c : counted r n -> RateStatistics.call_ok c -> n + RateStatistics.count_of c < 18446744073709551616 ->
  exists r', RateStatistics.answer r c = Ok r' /\ counted r' (n + RateStatistics.count_of c).
Proof.
  intros (l & F & T & E) C L.
  destruct (RateStatistics.calls_ok kBitrateWindowMs (f32_of_Z 8000) (c :: l)) as (r' & E' & _).
  - unfold kBitrateWindowMs. lia.
  - now constructor.
  - cbn [RateStatistics.total fold_right]. fold (RateStatistics.total l). lia.
  - cbn [RateStatistics.calls] in E'. rewrite E in E'. cbn [bind] in E'. exists r'. split; [assumption|].
    exists (c :: l). split; [now constructor|]. split.
    + cbn [RateStatistics.total fold_right]. fold (RateStatistics.total l). lia.
    + cbn [RateStatistics.calls]. rewrite E. exact E'.
Qed.

Lemma rated r n now : counted r n -> 0 <= now < 2 ^ 62 -> n < 18446744073709551616 ->
  exists rate r', RateStatistics.Rate r now = Ok (rate, r') /\ counted r' n.
Proof.
  intros C N L. destruct (called r n (RateStatistics.Asked now) C) as (r' & E & C').
  - split; cbn; lia.
  - cbn. lia.
  - cbn in E, C'. rewrite Z.add_0_r in C'. destruct (RateStatistics.Rate r now) as [[rate r2]| |]; cbn in E; try discriminate.
    injection E as ->. eauto.
Qed.

(** The state between two events. *)
Record well (s : RemoteBitrateEstimatorSingleStream) (n : Z) : Prop := {
  well_rate : counted (incoming_bitrate_ s) n;
  well_interval : 200 <= process_interval_ms_ s <= 1000
}.
(** What the observer is told: an estimate for at least one source. *)
Definition told_ok (c : change) : Prop := fst c <> [].

Lemma interval_range a : 200 <= AimdRateControl.GetFeedbackInterval a <= 1000.
Proof. unfold AimdRateControl.GetFeedbackInterval, AimdRateControl.kMinFeedbackIntervalMs, AimdRateControl.kMaxFeedbackIntervalMs. lia. Qed.

Lemma UpdateEstimate_well s n now : well s n -> 0 <= now < 2 ^ 62 -> n < 18446744073709551616 ->
  exists s' told, UpdateEstimate s now = Ok (s', told) /\ well s' n /\ Forall told_ok told /\ last_process_time_ s' = last_process_time_ s.
Proof.
  intros [C I] N L. unfold UpdateEstimate. destruct (drop_old _ _ _ _) as [[m sum] st].
  destruct m as [|d m]; [eexists _, _; split; [reflexivity|]; repeat split; try apply I; [exact C|constructor]|].
  destruct (rated _ n now C N L) as (rate & r & -> & C'). cbn [bind].
  destruct (AimdRateControl.UpdateBandwidthEstimate _ _ _) as [target a].
  destruct (AimdRateControl.ValidEstimate a); eexists _, _; (split; [reflexivity|]); repeat split; try apply interval_range; try apply I; try exact C'.
  - constructor; [|constructor]. discriminate.
  - constructor.
Qed.

Lemma IncomingPacket_well s n now arrival size h paced : well s n -> 0 <= now < 2 ^ 62 -> 0 <= size -> n + size < 18446744073709551616 ->
  exists s' told, single_IncomingPacket now arrival size h paced s = Ok (s', told) /\ well s' (n + size) /\ Forall told_ok told.
Proof.
  intros [C I] N Sz L. unfold single_IncomingPacket.
  destruct (called _ n (RateStatistics.Counted size now) C) as (r & E & C1); [split; cbn; lia|exact L|].
  cbn [RateStatistics.answer RateStatistics.count_of] in E, C1. rewrite E. cbn [bind].
  destruct (InterArrival.ComputeDeltas _ _ _ _) as [deltas arr]. set (d := match deltas with Some _ => _ | None => _ end).
  set (s1 := mk_single _ _ _ _ _). assert (W1 : well s1 (n + size)) by (constructor; assumption).
  destruct (Overuse.usage_eqb _ _); [|exists s1, []; now repeat split; try apply W1; constructor].
  destruct (rated _ (n + size) now (well_rate _ _ W1) N ltac:(lia)) as (rate & r' & -> & C2). cbn [bind].
  set (s2 := mk_single _ r' _ _ _). assert (W2 : well s2 (n + size)) by (constructor; assumption).
  destruct (_ || _); [|exists s2, []; now repeat split; try apply W2; constructor].
  destruct (UpdateEstimate_well s2 (n + size) now W2 N ltac:(lia)) as (s3 & told & -> & W3 & T & _). eauto.
Qed.

Lemma Process_well s n times : well s n -> event_ok (Tick times) -> n < 18446744073709551616 ->
  exists s' told, single_Process times s = Ok (s', told) /\ well s' n /\ Forall told_ok told.
Proof.
  destruct times as [[now now_ms] last]. intros W N L. unfold single_Process.
  destruct (0 <? _); [exists s, []; now repeat split; try apply W; constructor|].
  destruct (UpdateEstimate_well s n now_ms W N L) as (s1 & told & -> & W1 & T & _). cbn [bind].
  eexists _, told. split; [reflexivity|]. split; [|exact T]. destruct W1. now constructor.
Qed.

Lemma run_well l : forall s n, well s n -> Forall event_ok l -> n + total_size l < 18446744073709551616 ->
  exists s' told, run l s = Ok (s', told) /\ well s' (n + total_size l) /\ Forall told_ok told.
Proof.
  induction l as [|e l IH]; intros s n W F L; cbn [run].
  - exists s, []. cbn in *. rewrite Z.add_0_r. repeat split; try apply W. constructor.
  - inversion F as [|? ? O F']; subst. cbn [total_size fold_right] in *. fold (total_size l) in *.
    assert (TN : forall l, Forall event_ok l -> 0 <= total_size l).
    { induction 1 as [|x k O' F2 IH2]; cbn [total_size fold_right]; [lia|]. fold (total_size k). destruct x as [? ? ? ?|[[? ?] ?]]; cbn in *; lia. }
    specialize (TN l F').
    assert (R : exists s1 told, respond s e = Ok (s1, told) /\ well s1 (n + size_of e) /\ Forall told_ok told).
    { destruct e as [now arrival size h|times]; cbn [respond size_of] in *.
      - cbn in O. apply IncomingPacket_well; try assumption; lia.
      - rewrite Z.add_0_r. apply Process_well; try assumption; lia. }
    destruct R as (s1 & told & -> & W1 & T1). cbn [bind].
    destruct (IH s1 _ W1 F') as (s2 & told2 & -> & W2 & T2); [lia|]. cbn [bind].
    exists s2, (told ++ told2). split; [reflexivity|]. split; [|now apply Forall_app].
    now replace (n + (size_of e + total_size l)) with (n + size_of e + total_size l) by lia.
Qed.

(** C7. The estimator never fails, whatever packets come and whenever it is
    asked to process, as long as the clock is not negative and fewer than 2^64
    bytes come; it asks to be called again within a second, and tells its
    observer only of estimates for some source. *)
Theorem estimator_never_fails l : Forall event_ok l -> total_size l < 2 ^ 64 ->
  exists s told, run l new_RemoteBitrateEstimatorSingleStream = Ok (s, told) /\
    200 <= process_interval_ms_ s <= 1000 /\ Forall (fun '(ssrcs, _) => ssrcs <> []) told /\
    forall now, last_process_time_ s <= now < 2 ^ 62 -> single_TimeUntilNextProcess now s <= 1000.
Proof.
  intros F L. destruct (run_well l new_RemoteBitrateEstimatorSingleStream 0) as (s & told & E & W & T); [|assumption|lia|].
  { constructor; [|cbn; unfold kProcessIntervalMs; lia]. exists []. split; [constructor|]. split; [cbn; lia|reflexivity]. }
  exists s, told. split; [assumption|]. split; [apply W|]. split.
  - revert T. apply Forall_impl. now intros [ssrcs b].
  - intros now N. unfold single_TimeUntilNextProcess. pose proof (well_interval _ _ W).
    destruct (Z.ltb_spec (last_process_time_ s) 0); [lia|]. rewrite s64_id; [lia|]. unfold in_s64. lia.
Qed.
End Single.

(** ** An example *)

Definition sample_header (ssrc timestamp : Z) : RTPHeader :=
  mk_header false 96 0 timestamp ssrc 0 [] 0 12 0 no_extension.
Definition sample_pow (a x : spec_float) : spec_float := x.
(** Packets that come ever later than they were sent, for seven seconds. *)
Definition sample_events : list event :=
  Tick (0, 1, 2) :: concat (map (fun k => let k := Z.of_nat k in
    [Packet (1000 + 33 * k + k * k) (1000 + 33 * k + k * k) 1000 (sample_header 5 (2970 * k)); Tick (1000 + 35 * k, 1000 + 35 * k, 1000 + 35 * k)])
    (seq 0 80)).

Lemma estimator_never_fails_witness :
  exists s told, run (fun _ => None) sample_pow None sample_events (new_RemoteBitrateEstimatorSingleStream None) = Ok (s, told) /\
    200 <= process_interval_ms_ s <= 1000 /\ Forall (fun '(ssrcs, _) => ssrcs <> []) told /\
    forall now, last_process_time_ s <= now < 2 ^ 62 -> single_TimeUntilNextProcess now s <= 1000.
Proof.
  apply (estimator_never_fails (fun _ => None) sample_pow None sample_events).
  - repeat (constructor; [vm_compute; repeat split; congruence|]). constructor.
  - vm_compute. reflexivity.
Defined.

End RemoteBitrate.
