(* ===== verification/RtcpCommon.v ===== *)
(** * RTCP headers and their iteration

    Models the parts of src/orbit/webrtc/modules/rtp_rtcp/source/rtcp_utility.cc
    and rtcp_utility.h below the parser: the common header of RTCP packets, the
    iterator over the packets of a compound packet, the statistics of NACKs and
    the middle of an NTP time, with the comparison of sequence numbers of
    modules/include/module_common_types.h.  A pointer is an offset into the
    buffer; the null pointer is [None]. *)

From S2P Require Import Prelude Wire.
Import Wire.

Module RtcpCommon.

(** The packet types the parser knows. *)
Definition PT_IJ : Z := 195.
Definition PT_SR : Z := 200.
Definition PT_RR : Z := 201.
Definition PT_SDES : Z := 202.
Definition PT_BYE : Z := 203.
Definition PT_APP : Z := 204.
Definition PT_RTPFB : Z := 205.
Definition PT_PSFB : Z := 206.
Definition PT_XR : Z := 207.

Definition kHeaderSizeBytes : Z := 4.

Record RtcpCommonHeader := mk_header {
  version : Z;
  count_or_format : Z;
  packet_type : Z;
  payload_size_bytes : Z;
  padding_bytes : Z
}.
Definition new_RtcpCommonHeader : RtcpCommonHeader := mk_header 2 0 0 0 0.

Definition BlockSize (h : RtcpCommonHeader) : Z :=
  u32 (kHeaderSizeBytes + payload_size_bytes h + padding_bytes h).

(** The header at [packet], with [size_bytes] bytes left. *)
Definition RtcpParseCommonHeader (p : list Z) (packet size_bytes : Z) : res (option RtcpCommonHeader) :=
  if size_bytes <? kHeaderSizeBytes then Ok None
  else
    let! b0 := byte p packet in
    if negb (Z.shiftr b0 6 =? 2) then Ok None
    else
      let has_padding := negb (Z.land b0 0x20 =? 0) in
      let format := Z.land b0 0x1F in
      let! packet_type := byte p (packet + 1) in
      let! words := be16 p (packet + 2) in
      let packet_size_words := words + 1 in
      if size_bytes <? packet_size_words * 4 then Ok None
      else
        let payload_size := packet_size_words * 4 in
        if has_padding then
          if payload_size <=? kHeaderSizeBytes then Ok None
          else
            let! padding_bytes := byte p (packet + payload_size - 1) in
            if payload_size <? kHeaderSizeBytes + padding_bytes then Ok None
            else Ok (Some (mk_header 2 format packet_type (payload_size - padding_bytes - kHeaderSizeBytes)
                       padding_bytes))
        else Ok (Some (mk_header 2 format packet_type (payload_size - kHeaderSizeBytes) 0)).

(** ** The iterator *)

Record RTCPPacketIterator := mk_iterator {
  _ptrBegin : Z;
  _ptrEnd : Z;
  _ptrBlock : option Z;
  _header : RtcpCommonHeader
}.
(** The constructor clears the header to zeros. *)
Definition new_RTCPPacketIterator (rtcpData rtcpDataLength : Z) : RTCPPacketIterator :=
  mk_iterator rtcpData (rtcpData + rtcpDataLength) None (mk_header 0 0 0 0 0).

Definition Iterate (p : list Z) (it : RTCPPacketIterator)
    : res (option RtcpCommonHeader * RTCPPacketIterator) :=
  let none h := Ok (None, mk_iterator (_ptrBegin it) (_ptrEnd it) None h) in
  match _ptrBlock it with
  | None => Oob
  | Some block =>
      if _ptrEnd it <=? block then none (_header it)
      else
        let! h := RtcpParseCommonHeader p block (_ptrEnd it - block) in
        match h with
        | None => none (_header it)
        | Some h =>
            let block := block + BlockSize h in
            if _ptrEnd it <? block then none h
            else Ok (Some h, mk_iterator (_ptrBegin it) (_ptrEnd it) (Some block) h)
        end
  end.
Definition Begin (p : list Z) (it : RTCPPacketIterator) : res (option RtcpCommonHeader * RTCPPacketIterator) :=
  Iterate p (mk_iterator (_ptrBegin it) (_ptrEnd it) (Some (_ptrBegin it)) (_header it)).
Definition Current (it : RTCPPacketIterator) : option RtcpCommonHeader :=
  match _ptrBlock it with None => None | Some _ => Some (_header it) end.

(** ** NACK statistics *)

Definition IsNewerSequenceNumber (sequence_number prev_sequence_number : Z) : bool :=
  let d := u16 (sequence_number - prev_sequence_number) in
  if d =? 0x8000 then prev_sequence_number <? sequence_number
  else negb (sequence_number =? prev_sequence_number) && (d <? 0x8000).

Record NackStats := mk_nack_stats {
  max_sequence_number_ : Z;
  requests_ : Z;
  unique_requests_ : Z
}.
Definition new_NackStats : NackStats := mk_nack_stats 0 0 0.
Definition ReportRequest (s : NackStats) (sequence_number : Z) : NackStats :=
  if (requests_ s =? 0) || IsNewerSequenceNumber sequence_number (max_sequence_number_ s)
  then mk_nack_stats sequence_number (u32 (requests_ s + 1)) (u32 (unique_requests_ s + 1))
  else mk_nack_stats (max_sequence_number_ s) (u32 (requests_ s + 1)) (unique_requests_ s).

Definition MidNtp (ntp_sec ntp_frac : Z) : Z := u32 (u32 (Z.shiftl ntp_sec 16) + Z.shiftr ntp_frac 16).

(** ** Properties *)

(** Whether a header is read depends on the bytes of its packet only, and the
    packet lies inside what is left. *)
Lemma RtcpParseCommonHeader_safe p packet size_bytes :
  bytes p -> 0 <= packet -> packet + size_bytes <= zlen p ->
  exists r, RtcpParseCommonHeader p packet size_bytes = Ok r /\
  forall h, r = Some h ->
    BlockSize h = 4 * (b16 p (packet + 2) + 1) /\ 4 <= BlockSize h <= size_bytes /\
    0 <= payload_size_bytes h /\ 0 <= padding_bytes h < 256 /\ 0 <= count_or_format h < 32 /\
    count_or_format h = Z.land (rd p packet) 0x1F /\ packet_type h = rd p (packet + 1) /\
    BlockSize h = 4 + payload_size_bytes h + padding_bytes h.
Proof.
  intros B P S. unfold RtcpParseCommonHeader, kHeaderSizeBytes.
  destruct (size_bytes <? 4) eqn:L; [eexists; split; [reflexivity|discriminate]|].
  rewrite !byte_ok, be16_ok by lia. cbn [bind].
  destruct (negb _); [eexists; split; [reflexivity|discriminate]|].
  pose proof (b16_range p (packet + 2) B) as W. unfold in_u16 in W. pose proof (bytes_rd p packet B) as R0.
  assert (C : 0 <= Z.land (rd p packet) 31 < 32)
    by (change 31 with (2 ^ 5 - 1); rewrite land_ones_mod by lia; change 32 with (2 ^ 5); apply Z.mod_pos_bound; lia).
  destruct (size_bytes <? (b16 p (packet + 2) + 1) * 4) eqn:L2; [eexists; split; [reflexivity|discriminate]|].
  destruct (negb (Z.land _ 32 =? 0)).
  - destruct ((b16 p (packet + 2) + 1) * 4 <=? 4) eqn:L3; [eexists; split; [reflexivity|discriminate]|].
    rewrite byte_ok by lia. cbn [bind].
    match goal with |- context [rd p ?i] => match i with packet + _ - 1 => pose proof (bytes_rd p i B) as R end end.
    unfold in_u8 in R.
    destruct (_ <? 4 + _) eqn:L4; [eexists; split; [reflexivity|discriminate]|].
    eexists. split; [reflexivity|]. intros h [= <-].
    unfold BlockSize, kHeaderSizeBytes. cbn [payload_size_bytes padding_bytes count_or_format packet_type].
    rewrite u32_id by (unfold in_u32; lia). lia.
  - eexists. split; [reflexivity|]. intros h [= <-].
    unfold BlockSize, kHeaderSizeBytes. cbn [payload_size_bytes padding_bytes count_or_format packet_type].
    rewrite u32_id by (unfold in_u32; lia). lia.
Qed.

End RtcpCommon.
