(* ===== verification/RtcpWriter.v ===== *)
(** * Writing RTCP packets

    Models the base class of src/orbit/webrtc/modules/rtp_rtcp/source/
    rtcp_packet.cc and rtcp_packet.h and the writer of byte_io.h: the buffer
    into which packets are written one after the other, and its delivery when
    the next packet does not fit.  A [Writer] is the buffer, the position in it,
    and the packets that have been handed to the callback. *)

From S2P Require Import Prelude Wire.
Import Wire.

Module RtcpWriter.

Record Writer := mk_writer {
  buffer : list Z;
  index : Z;
  ready : list (list Z)
}.
Definition new_Writer (buffer : list Z) : Writer := mk_writer buffer 0 [].

(** Bytes written at the position, which moves behind them. *)
Definition put (l : list Z) (w : Writer) : res Writer :=
  if (0 <=? index w) && (index w + zlen l <=? zlen (buffer w))
  then Ok (mk_writer (blit (buffer w) (index w) l) (index w + zlen l) (ready w))
  else Oob.

(** The bytes of a number, the most significant first. *)
Definition bytes16 (v : Z) : list Z := [u8 (Z.shiftr v 8); u8 v].
Definition bytes24 (v : Z) : list Z := [u8 (Z.shiftr v 16); u8 (Z.shiftr v 8); u8 v].
Definition bytes32 (v : Z) : list Z :=
  [u8 (Z.shiftr v 24); u8 (Z.shiftr v 16); u8 (Z.shiftr v 8); u8 v].

Definition AssignUWord8 (value : Z) (w : Writer) : res Writer := put [u8 value] w.
Definition AssignUWord16 (value : Z) (w : Writer) : res Writer := put (bytes16 value) w.
Definition AssignUWord24 (value : Z) (w : Writer) : res Writer := put (bytes24 value) w.
Definition AssignUWord32 (value : Z) (w : Writer) : res Writer := put (bytes32 value) w.

Definition OnBufferFull (w : Writer) : bool * Writer :=
  if index w =? 0 then (false, w)
  else (true, mk_writer (buffer w) 0 (ready w ++ [slice (buffer w) 0 (index w)])).

(** [while ( *index + BlockLength() > max_length)]: a delivery moves the
    position to 0, so the second round is the last. *)
Fixpoint make_room (fuel : nat) (block_length max_length : Z) (w : Writer) : bool * Writer :=
  if max_length <? index w + block_length then
    match fuel with
    | O => (false, w)
    | S fuel =>
        let (ok, w) := OnBufferFull w in
        if ok then make_room fuel block_length max_length w else (false, w)
    end
  else (true, w).
Definition MakeRoom (block_length max_length : Z) (w : Writer) : bool * Writer :=
  make_room 2 block_length max_length w.

(** Length in words of 32 bits minus 1. *)
Definition HeaderLength (length_in_bytes : Z) : Z := (length_in_bytes + 3) / 4 - 1.

Definition CreateHeader (count_or_format packet_type length : Z) (w : Writer) : res Writer :=
  let! w := AssignUWord8 (Z.shiftl 2 6 + count_or_format) w in
  let! w := AssignUWord8 packet_type w in
  AssignUWord16 length w.

(** ** Properties *)

(** A writer that wrote [l]. *)
Definition wrote (l : list Z) (w : Writer) : Writer :=
  mk_writer (blit (buffer w) (index w) l) (index w + zlen l) (ready w).

Definition room (n : Z) (w : Writer) : Prop := 0 <= index w /\ index w + n <= zlen (buffer w).

(** The bytes before the position. *)
Definition written (w : Writer) : list Z := slice (buffer w) 0 (index w).

Lemma put_writes l w : room (zlen l) w -> put l w = Ok (wrote l w).
Proof. intros [A B]. unfold put. now replace ((0 <=? index w) && _) with true by lia. Qed.

Lemma blit_app a i l m : blit a i (l ++ m) = blit (blit a i l) (i + zlen l) m.
Proof.
  revert a i. induction l as [|x l IH]; intros a i; cbn [app blit].
  - now rewrite (@zlen_nil Z), Z.add_0_r.
  - rewrite IH, zlen_cons. f_equal. lia.
Qed.

Lemma wrote_app l m w : wrote m (wrote l w) = wrote (l ++ m) w.
Proof.
  unfold wrote. cbn [buffer index ready]. rewrite blit_app, zlen_app. f_equal. lia.
Qed.

Lemma wrote_nil w : wrote [] w = w.
Proof. unfold wrote. cbn. rewrite Z.add_0_r. now destruct w. Qed.

Lemma room_wrote n l w : room (zlen l + n) w -> 0 <= n -> room n (wrote l w).
Proof. unfold room, wrote. cbn. rewrite zlen_blit. pose proof (zlen_nonneg l). lia. Qed.

Lemma room_le n m w : room n w -> m <= n -> room m w.
Proof. unfold room. lia. Qed.

(** Two writes, one after the other. *)
Lemma put_put {A} l m w (k : Writer -> res A) : room (zlen l + zlen m) w ->
  bind (put l w) (fun w => bind (put m w) k) = bind (put (l ++ m) w) k.
Proof.
  intros R. pose proof (zlen_nonneg m). pose proof (zlen_nonneg l).
  rewrite (put_writes l) by (eapply room_le; [exact R|lia]). cbn [bind].
  rewrite !put_writes by (first [now apply room_wrote | rewrite zlen_app; exact R]). cbn [bind].
  now rewrite wrote_app.
Qed.

Lemma blit_split l : forall a i, 0 <= i -> i + zlen l <= zlen a ->
  blit a i l = slice a 0 i ++ l ++ slice a (i + zlen l) (zlen a - i - zlen l).
Proof.
  induction l as [|x l IH]; intros a i I L; cbn [blit].
  - rewrite (@zlen_nil Z) in *. cbn [app]. rewrite Z.add_0_r, Z.sub_0_r.
    change i with (0 + i) at 2. rewrite <- slice_add by lia.
    replace (i + (zlen a - i)) with (zlen a) by lia. symmetry. apply slice_all.
  - rewrite zlen_cons in *. pose proof (zlen_nonneg l). rewrite IH by (rewrite ?zlen_wr; lia).
    rewrite zlen_wr. replace (i + 1 + zlen l) with (i + (1 + zlen l)) by lia.
    replace (zlen a - (i + 1) - zlen l) with (zlen a - i - (1 + zlen l)) by lia.
    unfold wr. replace (i <? 0) with false by lia. unfold slice. cbn [skipn].
    replace (Z.to_nat (i + 1)) with (S (Z.to_nat i)) by lia.
    assert (E : forall (b : list Z) k v, (k < length b)%nat ->
      firstn (S k) (upd b k v) = firstn k b ++ [v]).
    { intros b k v. revert b. induction k as [|k IHk]; intros [|y b] H0; cbn in *; try lia; [reflexivity|].
      now rewrite <- IHk by lia. }
    assert (K : forall (b : list Z) k j v, (k < j)%nat -> skipn j (upd b k v) = skipn j b).
    { intros b. induction b as [|y b IHb]; intros [|k] [|j] v H0; cbn; try lia; try reflexivity.
      apply IHb. lia. }
    change (Z.to_nat 0) with 0%nat. cbn [skipn]. rewrite E, K by (unfold zlen in *; lia). now rewrite <- app_assoc.
Qed.

Lemma written_wrote l w : room (zlen l) w -> written (wrote l w) = written w ++ l.
Proof.
  intros [A B]. unfold written, wrote. cbn [buffer index].
  rewrite blit_split by lia. rewrite app_assoc. unfold slice at 1. cbn [Z.to_nat skipn].
  assert (Lp : zlen (slice (buffer w) 0 (index w)) = index w)
    by (pose proof (zlen_nonneg l); apply zlen_slice; lia).
  replace (Z.to_nat (index w + zlen l)) with (length (slice (buffer w) 0 (index w) ++ l))
    by (rewrite length_app; unfold zlen in *; lia).
  rewrite firstn_app, Nat.sub_diag, firstn_all. apply app_nil_r.
Qed.

Lemma MakeRoom_fits n max w :
  0 <= n <= max -> 0 <= index w ->
  (index w + n <= max -> MakeRoom n max w = (true, w)) /\
  (max < index w + n -> MakeRoom n max w = (true, mk_writer (buffer w) 0 (ready w ++ [written w]))).
Proof.
  intros N I. unfold MakeRoom. cbn [make_room]. split; intros H.
  - now replace (max <? index w + n) with false by lia.
  - replace (max <? index w + n) with true by lia. unfold OnBufferFull.
    replace (index w =? 0) with false by lia. cbn [index].
    now replace (max <? 0 + n) with false by lia.
Qed.

(** A packet longer than the buffer is refused, after what was written before
    has been delivered. *)
Lemma MakeRoom_too_long n max w :
  max < n -> 0 <= index w -> fst (MakeRoom n max w) = false.
Proof.
  intros N I. unfold MakeRoom. cbn [make_room].
  replace (max <? index w + n) with true by lia. unfold OnBufferFull.
  destruct (Z.eqb_spec (index w) 0); [reflexivity|]. cbn [index].
  replace (max <? 0 + n) with true by lia. reflexivity.
Qed.

Lemma zlen_bytes16 v : zlen (bytes16 v) = 2. Proof. reflexivity. Qed.
Lemma zlen_bytes24 v : zlen (bytes24 v) = 3. Proof. reflexivity. Qed.
Lemma zlen_bytes32 v : zlen (bytes32 v) = 4. Proof. reflexivity. Qed.
#[export] Hint Rewrite zlen_bytes16 zlen_bytes24 zlen_bytes32 : zlen.

End RtcpWriter.
