(* ===== verification/TransportFeedback.v ===== *)
(** * Transport feedback

    Models src/orbit/webrtc/modules/rtp_rtcp/source/rtcp_packet/
    transport_feedback.cc and transport_feedback.h: the feedback message that
    says of a run of packets which were received and when.  The builder packs
    the status of each packet into chunks of two bytes, of one of three kinds,
    as they come; the parser unpacks them.  A deque is a list; the [delete]s of
    the chunks are left out. *)

From S2P Require Import Prelude Wire RtcpCommon RtcpWriter.
Import Wire RtcpCommon RtcpWriter.

Module TransportFeedback.

Definition kHeaderSizeBytes : Z := 20.
Definition kChunkSizeBytes : Z := 2.
Definition kOneBitVectorCapacity : Z := 14.
Definition kTwoBitVectorCapacity : Z := 7.
Definition kRunLengthCapacity : Z := 0x1FFF.
Definition kMaxSizeBytes : Z := 65536 * 4.
Definition kMinSizeBytes : Z := kHeaderSizeBytes + kChunkSizeBytes.
Definition kDeltaScaleFactor : Z := 250.
Definition kBaseScaleFactor : Z := kDeltaScaleFactor * 256.
Definition kFeedbackMessageType : Z := 15.
Definition kPayloadType : Z := 205.

Inductive StatusSymbol := kNotReceived | kReceivedSmallDelta | kReceivedLargeDelta.
Definition symbol_eqb (a b : StatusSymbol) : bool :=
  match a, b with
  | kNotReceived, kNotReceived | kReceivedSmallDelta, kReceivedSmallDelta
  | kReceivedLargeDelta, kReceivedLargeDelta => true
  | _, _ => false
  end.

Definition EncodeSymbol (symbol : StatusSymbol) : Z :=
  match symbol with kNotReceived => 0 | kReceivedSmallDelta => 1 | kReceivedLargeDelta => 2 end.
Definition DecodeSymbol (value : Z) : StatusSymbol :=
  if value =? 1 then kReceivedSmallDelta else if value =? 2 then kReceivedLargeDelta else kNotReceived.

(** ** Chunks *)

Inductive PacketStatusChunk :=
| OneBitVectorChunk (symbols : list StatusSymbol)
| TwoBitVectorChunk (symbols : list StatusSymbol)
| RunLengthChunk (symbol : StatusSymbol) (size : Z).

Definition NumSymbols (c : PacketStatusChunk) : Z :=
  match c with
  | OneBitVectorChunk _ => 14
  | TwoBitVectorChunk _ => 7
  | RunLengthChunk _ size => u16 size
  end.

Definition AppendSymbolsTo (c : PacketStatusChunk) (vec : list StatusSymbol) : list StatusSymbol :=
  match c with
  | OneBitVectorChunk symbols | TwoBitVectorChunk symbols => vec ++ symbols
  | RunLengthChunk symbol size => vec ++ repeat symbol (Z.to_nat size)
  end.

(** The constructors of the vector chunks take the symbols from the front of
    the deque and fill up: the symbols taken, and the rest. *)
Fixpoint take_symbols (capacity : nat) (symbols : list StatusSymbol)
    : list StatusSymbol * list StatusSymbol :=
  match capacity with
  | O => ([], symbols)
  | S n =>
      match symbols with
      | [] => let (taken, rest) := take_symbols n [] in (kNotReceived :: taken, rest)
      | s :: symbols => let (taken, rest) := take_symbols n symbols in (s :: taken, rest)
      end
  end.

(** [buffer |= encoded << shift] for the symbols, the shift falling by [step]. *)
Fixpoint or_symbols (symbols : list StatusSymbol) (shift step acc : Z) : Z :=
  match symbols with
  | [] => acc
  | s :: symbols => or_symbols symbols (shift - step) step (u8 (Z.lor acc (Z.shiftl (EncodeSymbol s) shift)))
  end.

(** The two bytes of a chunk. *)
Definition WriteTo (c : PacketStatusChunk) : list Z :=
  match c with
  | OneBitVectorChunk symbols => [or_symbols (firstn 6 symbols) 5 1 0x80; or_symbols (skipn 6 symbols) 7 1 0]
  | TwoBitVectorChunk symbols => [or_symbols (firstn 3 symbols) 4 2 0xC0; or_symbols (skipn 3 symbols) 6 2 0]
  | RunLengthChunk symbol size =>
      [u8 (Z.lor (u8 (Z.shiftl (EncodeSymbol symbol) 5)) (Z.land (Z.shiftr size 8) 0x1F)); Z.land size 0xFF]
  end.

(** [n] symbols of [bits] bits, the first at [shift]. *)
Fixpoint read_symbols (n : nat) (b shift bits : Z) : list StatusSymbol :=
  match n with
  | O => []
  | S n => DecodeSymbol (Z.land (Z.shiftr b shift) (Z.ones bits)) :: read_symbols n b (shift - bits) bits
  end.

(** The chunk at [o]; [None] for a run longer than what is left. *)
Definition ParseChunk (p : list Z) (o max_size : Z) : res (option PacketStatusChunk) :=
  let! b0 := byte p o in
  let! b1 := byte p (o + 1) in
  if negb (Z.land b0 0x80 =? 0) then
    if negb (Z.land b0 0x40 =? 0)
    then Ok (Some (TwoBitVectorChunk (read_symbols 3 b0 4 2 ++ read_symbols 4 b1 6 2)))
    else Ok (Some (OneBitVectorChunk (read_symbols 6 b0 5 1 ++ read_symbols 8 b1 7 1)))
  else
    let chunk := RunLengthChunk (DecodeSymbol (Z.land (Z.shiftr b0 5) 0x03))
                   (Z.lor (Z.shiftl (Z.land b0 0x1F) 8) b1) in
    Ok (if max_size <? NumSymbols chunk then None else Some chunk).

(** ** The message *)

Record TransportFeedback := mk_feedback {
  packet_sender_ssrc_ : Z;
  media_source_ssrc_ : Z;
  base_seq_ : Z;
  base_time_ : Z;
  feedback_seq_ : Z;
  status_chunks_ : list PacketStatusChunk;
  receive_deltas_ : list Z;
  last_seq_ : Z;
  last_timestamp_ : Z;
  symbol_vec_ : list StatusSymbol;
  first_symbol_cardinality_ : Z;
  vec_needs_two_bit_symbols_ : bool;
  size_bytes_ : Z
}.
Definition new_TransportFeedback : TransportFeedback :=
  mk_feedback 0 0 (-1) (-1) 0 [] [] (-1) (-1) [] 0 false kHeaderSizeBytes.

Definition set_base (f : TransportFeedback) (base_seq base_time last_seq last_timestamp : Z) : TransportFeedback :=
  mk_feedback (packet_sender_ssrc_ f) (media_source_ssrc_ f) base_seq base_time (feedback_seq_ f)
    (status_chunks_ f) (receive_deltas_ f) last_seq last_timestamp (symbol_vec_ f)
    (first_symbol_cardinality_ f) (vec_needs_two_bit_symbols_ f) (size_bytes_ f).
Definition set_last_seq (f : TransportFeedback) (v : Z) : TransportFeedback :=
  set_base f (base_seq_ f) (base_time_ f) v (last_timestamp_ f).
Definition set_ids (f : TransportFeedback) (sender media feedback : Z) : TransportFeedback :=
  mk_feedback sender media (base_seq_ f) (base_time_ f) feedback (status_chunks_ f) (receive_deltas_ f)
    (last_seq_ f) (last_timestamp_ f) (symbol_vec_ f) (first_symbol_cardinality_ f)
    (vec_needs_two_bit_symbols_ f) (size_bytes_ f).
Definition set_symbols (f : TransportFeedback) (chunks : list PacketStatusChunk) (vec : list StatusSymbol)
    (cardinality : Z) (two_bit : bool) (size : Z) : TransportFeedback :=
  mk_feedback (packet_sender_ssrc_ f) (media_source_ssrc_ f) (base_seq_ f) (base_time_ f) (feedback_seq_ f)
    chunks (receive_deltas_ f) (last_seq_ f) (last_timestamp_ f) vec cardinality two_bit size.
Definition set_deltas (f : TransportFeedback) (deltas : list Z) (last_timestamp : Z) : TransportFeedback :=
  mk_feedback (packet_sender_ssrc_ f) (media_source_ssrc_ f) (base_seq_ f) (base_time_ f) (feedback_seq_ f)
    (status_chunks_ f) deltas (last_seq_ f) last_timestamp (symbol_vec_ f) (first_symbol_cardinality_ f)
    (vec_needs_two_bit_symbols_ f) (size_bytes_ f).

Definition WithPacketSenderSsrc (f : TransportFeedback) (ssrc : Z) : TransportFeedback :=
  set_ids f ssrc (media_source_ssrc_ f) (feedback_seq_ f).
Definition WithMediaSourceSsrc (f : TransportFeedback) (ssrc : Z) : TransportFeedback :=
  set_ids f (packet_sender_ssrc_ f) ssrc (feedback_seq_ f).
Definition WithFeedbackSequenceNumber (f : TransportFeedback) (feedback_sequence : Z) : TransportFeedback :=
  set_ids f (packet_sender_ssrc_ f) (media_source_ssrc_ f) feedback_sequence.

Definition WithBase (f : TransportFeedback) (base_sequence ref_timestamp_us : Z) : TransportFeedback :=
  let base_time := Z.quot ref_timestamp_us kBaseScaleFactor in
  set_base f base_sequence base_time base_sequence (base_time * kBaseScaleFactor).

Definition Unwrap (f : TransportFeedback) (sequence_number : Z) : Z :=
  if last_seq_ f =? -1 then sequence_number
  else
    let delta := sequence_number - last_seq_ f in
    let delta :=
      if IsNewerSequenceNumber sequence_number (u16 (last_seq_ f))
      then if delta <? 0 then delta + 65536 else delta
      else if 0 <? delta then delta - 65536 else delta in
    last_seq_ f + delta.

(** ** Packing *)

(** How often the first symbol is repeated at the start. *)
Fixpoint leading (s : StatusSymbol) (vec : list StatusSymbol) : Z :=
  match vec with
  | [] => 0
  | t :: vec => if symbol_eqb t s then 1 + leading s vec else 0
  end.

Definition EmitVectorChunk (f : TransportFeedback) : TransportFeedback :=
  let capacity := if vec_needs_two_bit_symbols_ f then 7%nat else 14%nat in
  let (taken, rest) := take_symbols capacity (symbol_vec_ f) in
  let chunk := if vec_needs_two_bit_symbols_ f then TwoBitVectorChunk taken else OneBitVectorChunk taken in
  let cardinality := match rest with [] => 1 | s :: l => u16 (1 + leading s l) end in
  set_symbols f (status_chunks_ f ++ [chunk]) rest cardinality (vec_needs_two_bit_symbols_ f) (size_bytes_ f).

(** [front()] of an empty deque is undefined. *)
Definition EmitRunLengthChunk (f : TransportFeedback) : res TransportFeedback :=
  match symbol_vec_ f with
  | [] => Oob
  | s :: _ =>
      Ok (set_symbols f (status_chunks_ f ++ [RunLengthChunk s (first_symbol_cardinality_ f)]) []
            (first_symbol_cardinality_ f) (vec_needs_two_bit_symbols_ f) (size_bytes_ f))
  end.

Definition delta_size (symbol : StatusSymbol) : Z :=
  match symbol with kNotReceived => 0 | kReceivedSmallDelta => 1 | kReceivedLargeDelta => 2 end.
Definition is_two_bit (symbol : StatusSymbol) : bool :=
  match symbol with kReceivedLargeDelta => true | _ => false end.

(** The chunk capacity of the pending symbols. *)
Definition capacity (f : TransportFeedback) : Z :=
  if vec_needs_two_bit_symbols_ f then kTwoBitVectorCapacity else kOneBitVectorCapacity.

Fixpoint last_symbol (vec : list StatusSymbol) (d : StatusSymbol) : StatusSymbol :=
  match vec with [] => d | s :: vec => last_symbol vec s end.

Definition EncodeFirst (f : TransportFeedback) (symbol : StatusSymbol) : bool * TransportFeedback :=
  if kMaxSizeBytes <? u32 (size_bytes_ f + delta_size symbol + kChunkSizeBytes) then (false, f)
  else (true, set_symbols f (status_chunks_ f) [symbol] 1 (is_two_bit symbol)
                (u32 (size_bytes_ f + (delta_size symbol + kChunkSizeBytes)))).

(** The symbol is appended to the pending ones, which cannot be a run;
    [capacity] is that of their chunk. *)
Definition EncodeInVector (f : TransportFeedback) (symbol : StatusSymbol) (capacity : Z) : TransportFeedback :=
  let f := set_symbols f (status_chunks_ f) (symbol_vec_ f ++ [symbol]) (first_symbol_cardinality_ f)
             (vec_needs_two_bit_symbols_ f) (size_bytes_ f) in
  let f := if zlen (symbol_vec_ f) =? capacity then EmitVectorChunk f else f in
  set_symbols f (status_chunks_ f) (symbol_vec_ f) (first_symbol_cardinality_ f)
    (vec_needs_two_bit_symbols_ f) (u32 (size_bytes_ f + delta_size symbol)).

(** The pending symbols were all the same, and so is the new one. *)
Definition EncodeInRun (f : TransportFeedback) (symbol : StatusSymbol) : res TransportFeedback :=
  let cardinality := u16 (first_symbol_cardinality_ f + 1) in
  let fits := cardinality <=? capacity f in
  let f := set_symbols f (status_chunks_ f) (if fits then symbol_vec_ f ++ [symbol] else symbol_vec_ f)
             cardinality (vec_needs_two_bit_symbols_ f) (size_bytes_ f) in
  let! f := if negb fits && (cardinality =? kRunLengthCapacity) then EmitRunLengthChunk f else Ok f in
  Ok (set_symbols f (status_chunks_ f) (symbol_vec_ f) (first_symbol_cardinality_ f)
        (vec_needs_two_bit_symbols_ f) (u32 (size_bytes_ f + delta_size symbol))).

Definition NeedTwoBits (f : TransportFeedback) : TransportFeedback :=
  set_symbols f (status_chunks_ f) (symbol_vec_ f) (first_symbol_cardinality_ f) true (size_bytes_ f).

(** A chunk is emitted; the symbols that are left, if any, will take another. *)
Definition EmitPart (f : TransportFeedback) : TransportFeedback :=
  let f := EmitVectorChunk f in
  match symbol_vec_ f with
  | [] => f
  | _ => set_symbols f (status_chunks_ f) (symbol_vec_ f) (first_symbol_cardinality_ f)
           (vec_needs_two_bit_symbols_ f) (u32 (size_bytes_ f + kChunkSizeBytes))
  end.

(** A recursive call ends at once: the first leaves no pending symbols, the
    second fewer than the capacity. *)
Fixpoint Encode (fuel : nat) (f : TransportFeedback) (symbol : StatusSymbol) : res (bool * TransportFeedback) :=
  match fuel with
  | O => NoFuel
  | S fuel =>
      if 0xFFFF <? last_seq_ f - base_seq_ f + 1 then Ok (false, f)
      else
        match symbol_vec_ f with
        | [] => Ok (EncodeFirst f symbol)
        | first :: _ =>
            if kMaxSizeBytes <? u32 (size_bytes_ f + delta_size symbol) then Ok (false, f)
            else
              let rle_candidate := (zlen (symbol_vec_ f) =? first_symbol_cardinality_ f)
                                   || (capacity f <? first_symbol_cardinality_ f) in
              if rle_candidate && symbol_eqb (last_symbol (symbol_vec_ f) first) symbol then
                let! f := EncodeInRun f symbol in Ok (true, f)
              else if rle_candidate && (capacity f <=? first_symbol_cardinality_ f) then
                let! f := EmitRunLengthChunk f in Encode fuel f symbol
              else if is_two_bit symbol && negb (vec_needs_two_bit_symbols_ f) then
                let f := NeedTwoBits f in
                if kTwoBitVectorCapacity <=? zlen (symbol_vec_ f) then
                  if kMaxSizeBytes <? u32 (size_bytes_ f + delta_size symbol + kChunkSizeBytes) then Ok (false, f)
                  else Encode fuel (EmitPart f) symbol
                else Ok (true, EncodeInVector f symbol kTwoBitVectorCapacity)
              else Ok (true, EncodeInVector f symbol (capacity f))
        end
  end.

(** [while (last_seq_ < seq - 1)]: [gap] packets were not received. *)
Fixpoint add_missing (gap : nat) (f : TransportFeedback) : res (bool * TransportFeedback) :=
  match gap with
  | O => Ok (true, f)
  | S gap =>
      let! (ok, f) := Encode 3 f kNotReceived in
      if ok then add_missing gap (set_last_seq f (last_seq_ f + 1)) else Ok (false, f)
  end.

Definition AddSymbol (f : TransportFeedback) (symbol : StatusSymbol) (seq : Z) : res (bool * TransportFeedback) :=
  let! (ok, f) := add_missing (Z.to_nat (seq - 1 - last_seq_ f)) f in
  if ok then
    let! (ok, f) := Encode 3 f symbol in
    Ok (if ok then (true, set_last_seq f seq) else (false, f))
  else Ok (false, f).

Definition WithReceivedPacket (f : TransportFeedback) (sequence_number timestamp : Z)
    : res (bool * TransportFeedback) :=
  let seq := Unwrap f sequence_number in
  if negb (seq =? base_seq_ f) && (seq <=? last_seq_ f) then Ok (false, f)
  else
    let delta_full := timestamp - last_timestamp_ f in
    let delta_full :=
      if delta_full <? 0 then delta_full - Z.quot kDeltaScaleFactor 2
      else delta_full + Z.quot kDeltaScaleFactor 2 in
    let delta_full := Z.quot delta_full kDeltaScaleFactor in
    let delta := s16 delta_full in
    if negb (delta =? delta_full) then Ok (false, f)
    else
      let symbol := if (0 <=? delta) && (delta <=? 0xFF) then kReceivedSmallDelta else kReceivedLargeDelta in
      let! (ok, f) := AddSymbol f symbol seq in
      Ok (if ok
          then (true, set_deltas f (receive_deltas_ f ++ [delta]) (last_timestamp_ f + delta * kDeltaScaleFactor))
          else (false, f)).

Definition EmitRemaining (f : TransportFeedback) : res TransportFeedback :=
  match symbol_vec_ f with
  | [] => Ok f
  | _ => if capacity f <? first_symbol_cardinality_ f then EmitRunLengthChunk f else Ok (EmitVectorChunk f)
  end.

(** ** Reading the message *)

Definition BlockLength (f : TransportFeedback) : Z := size_bytes_ f.
Definition GetBaseSequence (f : TransportFeedback) : Z := u16 (base_seq_ f).
Definition GetBaseTimeUs (f : TransportFeedback) : Z := base_time_ f * kBaseScaleFactor.

(** [erase] from a position past the end is undefined. *)
Definition GetStatusVector (f : TransportFeedback) : res (list StatusSymbol) :=
  let symbols := fold_left (fun vec c => AppendSymbolsTo c vec) (status_chunks_ f) [] in
  let status_count := last_seq_ f - base_seq_ f + 1 in
  if (0 <=? status_count) && (status_count <=? zlen symbols)
  then Ok (firstn (Z.to_nat status_count) symbols) else Oob.
Definition GetReceiveDeltas (f : TransportFeedback) : list Z := receive_deltas_ f.
Definition GetReceiveDeltasUs (f : TransportFeedback) : list Z :=
  map (fun delta => delta * kDeltaScaleFactor) (receive_deltas_ f).

(** ** Serialisation *)

Fixpoint put_all (ls : list (list Z)) (w : Writer) : res Writer :=
  match ls with
  | [] => Ok w
  | l :: ls => let! w := put l w in put_all ls w
  end.

Definition delta_bytes (delta : Z) : list Z :=
  if (0 <=? delta) && (delta <=? 0xFF) then [u8 delta] else bytes16 delta.

(** [while (( *position % 4) != 0)]: at most three bytes. *)
Fixpoint pad (fuel : nat) (w : Writer) : res Writer :=
  if index w mod 4 =? 0 then Ok w
  else match fuel with O => NoFuel | S fuel => let! w := put [0] w in pad fuel w end.

(** The message itself is completed by the writing. *)
Definition Create (f : TransportFeedback) (max_length : Z) (w : Writer) : res (bool * Writer * TransportFeedback) :=
  if base_seq_ f =? -1 then Ok (false, w, f)
  else
    let (ok, w) := MakeRoom (size_bytes_ f) max_length w in
    if negb ok then Ok (false, w, f)
    else
      let! w := CreateHeader kFeedbackMessageType kPayloadType (HeaderLength (BlockLength f)) w in
      let! w := put (bytes32 (packet_sender_ssrc_ f)) w in
      let! w := put (bytes32 (media_source_ssrc_ f)) w in
      let! w := put (bytes16 (base_seq_ f)) w in
      let! w := put (bytes16 (last_seq_ f - base_seq_ f + 1)) w in
      let! w := put (bytes24 (base_time_ f)) w in
      let! w := put [u8 (feedback_seq_ f)] w in
      let! f := EmitRemaining f in
      let! w := put_all (map WriteTo (status_chunks_ f)) w in
      let! w := put_all (map delta_bytes (receive_deltas_ f)) w in
      let! w := pad 3 w in
      Ok (true, w, f).

(** A signed number of three bytes. *)
Definition s24 (v : Z) : Z := (v + 8388608) mod 16777216 - 8388608.

Fixpoint read_chunks (fuel : nat) (p : list Z) (o index end_index num_packets packets_read : Z)
    (chunks : list PacketStatusChunk) : res (option (Z * list PacketStatusChunk)) :=
  if packets_read <? num_packets then
    match fuel with
    | O => NoFuel
    | S fuel =>
        if end_index <? index + 2 then Ok None
        else
          let! c := ParseChunk p (o + index) (num_packets - packets_read) in
          match c with
          | None => Ok None
          | Some c =>
              read_chunks fuel p o (index + 2) end_index num_packets (packets_read + NumSymbols c) (chunks ++ [c])
          end
    end
  else Ok (Some (index, chunks)).

Fixpoint read_deltas (p : list Z) (o index end_index : Z) (symbols : list StatusSymbol) (deltas : list Z)
    : res (option (Z * list Z)) :=
  match symbols with
  | [] => Ok (Some (index, deltas))
  | kReceivedSmallDelta :: symbols =>
      if end_index <? index + 1 then Ok None
      else
        let! b := byte p (o + index) in
        read_deltas p o (index + 1) end_index symbols (deltas ++ [b])
  | kReceivedLargeDelta :: symbols =>
      if end_index <? index + 2 then Ok None
      else
        let! v := be16 p (o + index) in
        read_deltas p o (index + 2) end_index symbols (deltas ++ [s16 v])
  | kNotReceived :: symbols => read_deltas p o index end_index symbols deltas
  end.

(** The message in the [length] bytes at [o]. *)
Definition ParseFrom (p : list Z) (o length : Z) : res (option TransportFeedback) :=
  if length <? kMinSizeBytes then Ok None
  else
    let! header := RtcpParseCommonHeader p o length in
    match header with
    | None => Ok None
    | Some header =>
        if negb (count_or_format header =? kFeedbackMessageType) then Ok None
        else if negb (packet_type header =? kPayloadType) then Ok None
        else
          let! sender := be32 p (o + 4) in
          let! media := be32 p (o + 8) in
          let! base_seq := be16 p (o + 12) in
          let! num_packets := be16 p (o + 14) in
          let! t1 := be16 p (o + 16) in
          let! t0 := byte p (o + 18) in
          let! feedback_seq := byte p (o + 19) in
          let end_index := 4 + payload_size_bytes header in
          if num_packets =? 0 then Ok None
          else
            let! chunks := read_chunks (S (Z.to_nat length)) p o 20 end_index num_packets 0 [] in
            match chunks with
            | None => Ok None
            | Some (index, chunks) =>
                let f := mk_feedback sender media base_seq (s24 (t1 * 256 + t0)) feedback_seq chunks []
                           (base_seq + num_packets - 1) (-1) [] 0 false kHeaderSizeBytes in
                let! symbols := GetStatusVector f in
                let! deltas := read_deltas p o index end_index symbols [] in
                match deltas with
                | None => Ok None
                | Some (_, deltas) => Ok (Some (set_deltas f deltas (last_timestamp_ f)))
                end
            end
    end.

End TransportFeedback.
