(* ===== verification/TransportFeedbackFacts.v ===== *)
(** * Transport feedback: properties

    What the builder is told about a run of packets is what the parser of the
    message reports: the chunks are packed and unpacked, their number and the
    size of the message are accounted exactly, and the limits are never met. *)

From S2P Require Import Prelude Wire RtcpCommon RtcpWriter TransportFeedback.
Import Wire RtcpCommon RtcpWriter TransportFeedback.

Module TransportFeedbackFacts.

Lemma symbol_eqb_spec a b : reflect (a = b) (symbol_eqb a b).
Proof. destruct a, b; constructor; congruence. Qed.

(** ** One chunk *)

(** All lists of [n] symbols of an alphabet. *)
Fixpoint all_lists (alphabet : list StatusSymbol) (n : nat) : list (list StatusSymbol) :=
  match n with
  | O => [[]]
  | S n => flat_map (fun s => map (cons s) (all_lists alphabet n)) alphabet
  end.

Lemma all_lists_in alphabet n l :
  length l = n -> (forall s, In s l -> In s alphabet) -> In l (all_lists alphabet n).
Proof.
  revert l. induction n as [|n IH]; intros [|s l] L A; cbn in *; try discriminate; [now left|].
  apply in_flat_map. exists s. split; [apply A; now left|]. apply in_map. apply IH; [congruence|].
  intros t T. apply A. now right.
Qed.

Definition symbols_eqb (a b : list StatusSymbol) : bool :=
  (length a =? length b)%nat && forallb (fun '(x, y) => symbol_eqb x y) (combine a b).
Lemma symbols_eqb_eq a b : symbols_eqb a b = true -> a = b.
Proof.
  unfold symbols_eqb. revert b. induction a as [|x a IH]; intros [|y b]; cbn; try discriminate; [reflexivity|].
  intros H. apply andb_true_iff in H as [L H]. apply andb_true_iff in H as [E H].
  destruct (symbol_eqb_spec x y); [|discriminate]. subst. f_equal. apply IH. now rewrite L, H.
Qed.

(** A byte of a vector chunk: the symbols are read back, and the bits above
    them are those it started with. *)
Definition byte_ok (n : nat) (shift bits start mask : Z) (l : list StatusSymbol) : bool :=
  let b := or_symbols l shift bits start in
  symbols_eqb (read_symbols n b shift bits) l && (Z.land b mask =? start) && (0 <=? b) && (b <? 256).

Definition two_symbols : list StatusSymbol := [kNotReceived; kReceivedSmallDelta].
Definition three_symbols : list StatusSymbol := [kNotReceived; kReceivedSmallDelta; kReceivedLargeDelta].

Lemma byte_ok_all :
  forallb (byte_ok 6 5 1 0x80 0xC0) (all_lists two_symbols 6) &&
  forallb (byte_ok 8 7 1 0 0) (all_lists two_symbols 8) &&
  forallb (byte_ok 3 4 2 0xC0 0xC0) (all_lists three_symbols 3) &&
  forallb (byte_ok 4 6 2 0 0) (all_lists three_symbols 4) = true.
Proof. vm_compute. reflexivity. Qed.

Lemma byte_ok_read n shift bits start mask alphabet l :
  forallb (byte_ok n shift bits start mask) (all_lists alphabet n) = true ->
  length l = n -> (forall s, In s l -> In s alphabet) ->
  let b := or_symbols l shift bits start in
  read_symbols n b shift bits = l /\ Z.land b mask = start /\ in_u8 b.
Proof.
  intros F L A. rewrite forallb_forall in F. specialize (F l (all_lists_in _ _ _ L A)).
  unfold byte_ok in F. apply andb_true_iff in F as [F B2]. apply andb_true_iff in F as [F B1].
  apply andb_true_iff in F as [R M]. apply symbols_eqb_eq in R.
  apply Z.eqb_eq in M. apply Z.leb_le in B1. apply Z.ltb_lt in B2. unfold in_u8. cbv zeta. auto.
Qed.

Definition small (s : StatusSymbol) : Prop := s <> kReceivedLargeDelta.

Definition wf_chunk (c : PacketStatusChunk) : Prop :=
  match c with
  | OneBitVectorChunk l => length l = 14%nat /\ Forall small l
  | TwoBitVectorChunk l => length l = 7%nat
  | RunLengthChunk _ size => 1 <= size <= 8191
  end.

(** The symbols of a chunk. *)
Definition symbols_of (c : PacketStatusChunk) : list StatusSymbol := AppendSymbolsTo c [].

Lemma zlen_symbols_of c : wf_chunk c -> zlen (symbols_of c) = NumSymbols c.
Proof.
  destruct c; cbn; unfold zlen; [intros [-> _]; reflexivity|intros ->; reflexivity|].
  intros H. rewrite repeat_length, u16_id by (unfold in_u16; lia). lia.
Qed.

Lemma NumSymbols_pos c : wf_chunk c -> 1 <= NumSymbols c.
Proof. destruct c; cbn; try lia. intros H. rewrite u16_id by (unfold in_u16; lia). lia. Qed.

Lemma length_WriteTo c : zlen (WriteTo c) = 2.
Proof. destruct c; reflexivity. Qed.

Lemma land_bits b m mask : Z.land m mask = m -> Z.land b m = Z.land (Z.land b mask) m.
Proof. intros E. rewrite <- Z.land_assoc, (Z.land_comm mask), E. reflexivity. Qed.

Lemma bytes_two a b : in_u8 a -> in_u8 b -> bytes [a; b].
Proof. intros A B. constructor; [assumption|]. constructor; [assumption|constructor]. Qed.

Definition run_ok (s : StatusSymbol) (size : Z) : bool :=
  let b0 := u8 (Z.lor (u8 (Z.shiftl (EncodeSymbol s) 5)) (Z.land (Z.shiftr size 8) 0x1F)) in
  let b1 := Z.land size 0xFF in
  (Z.land b0 0x80 =? 0) && symbol_eqb (DecodeSymbol (Z.land (Z.shiftr b0 5) 0x03)) s &&
  (Z.lor (Z.shiftl (Z.land b0 0x1F) 8) b1 =? size) && true && ((0 <=? b1) && (b1 <? 256)).
Lemma run_ok_all :
  forallb (fun i => forallb (fun s => run_ok s (Z.of_nat i)) three_symbols) (seq 1 (Z.to_nat 8191)) = true.
Proof. vm_compute. reflexivity. Qed.
Lemma run_ok_read s size : 1 <= size <= 8191 -> run_ok s size = true.
Proof.
  intros H. pose proof run_ok_all as A. rewrite forallb_forall in A.
  specialize (A (Z.to_nat size)). rewrite Z2Nat.id, forallb_forall in A by lia.
  apply A; [apply in_seq; lia|]. destruct s; cbn; tauto.
Qed.

(** A chunk is read back; a run must not be longer than what is left. *)
Lemma ParseChunk_WriteTo pre c post max_size :
  wf_chunk c -> match c with RunLengthChunk _ size => size <= max_size | _ => True end ->
  ParseChunk (pre ++ WriteTo c ++ post) (zlen pre) max_size = Ok (Some c) /\ bytes (WriteTo c).
Proof.
  intros W M. unfold ParseChunk. rewrite <- (Z.add_0_r (zlen pre)) at 1.
  rewrite !byte_mid by (rewrite length_WriteTo; lia). cbn [bind].
  pose proof byte_ok_all as B. apply andb_true_iff in B as [B B4]. apply andb_true_iff in B as [B B3].
  apply andb_true_iff in B as [B1 B2].
  destruct c as [l|l|s size]; cbn [WriteTo wf_chunk] in *.
  - destruct W as [L A]. assert (T : forall s, In s l -> In s two_symbols).
    { rewrite Forall_forall in A. intros s I. specialize (A s I). destruct s; cbn; unfold small in A; tauto. }
    destruct (byte_ok_read _ _ _ _ _ _ (firstn 6 l) B1) as (R1 & M1 & U1).
    { rewrite length_firstn. lia. } { intros s I. apply T. rewrite <- (firstn_skipn 6 l). apply in_or_app. now left. }
    destruct (byte_ok_read _ _ _ _ _ _ (skipn 6 l) B2) as (R2 & M2 & U2).
    { rewrite length_skipn. lia. } { intros s I. apply T. rewrite <- (firstn_skipn 6 l). apply in_or_app. now right. }
    set (b0 := or_symbols (firstn 6 l) 5 1 128) in *. set (b1 := or_symbols (skipn 6 l) 7 1 0) in *.
    change (rd [b0; b1] 0) with b0. change (rd [b0; b1] 1) with b1.
    rewrite (land_bits b0 0x80 0xC0), (land_bits b0 0x40 0xC0), M1, R1, R2 by reflexivity. cbn [Z.land Z.eqb negb].
    rewrite firstn_skipn. split; [reflexivity|now apply bytes_two].
  - assert (T : forall s, In s l -> In s three_symbols) by (intros [] _; cbn; tauto).
    destruct (byte_ok_read _ _ _ _ _ _ (firstn 3 l) B3) as (R1 & M1 & U1).
    { rewrite length_firstn. lia. } { intros s I. apply T. rewrite <- (firstn_skipn 3 l). apply in_or_app. now left. }
    destruct (byte_ok_read _ _ _ _ _ _ (skipn 3 l) B4) as (R2 & M2 & U2).
    { rewrite length_skipn. lia. } { intros s I. apply T. rewrite <- (firstn_skipn 3 l). apply in_or_app. now right. }
    set (b0 := or_symbols (firstn 3 l) 4 2 192) in *. set (b1 := or_symbols (skipn 3 l) 6 2 0) in *.
    change (rd [b0; b1] 0) with b0. change (rd [b0; b1] 1) with b1.
    rewrite (land_bits b0 0x80 0xC0), (land_bits b0 0x40 0xC0), M1, R1, R2 by reflexivity. cbn [Z.land Z.eqb negb].
    rewrite firstn_skipn. split; [reflexivity|now apply bytes_two].
  - pose proof (run_ok_read s size W) as R. unfold run_ok in R.
    set (b0 := u8 _) in *. set (b1 := Z.land size 255) in *.
    change (rd [b0; b1] 0) with b0. change (rd [b0; b1] 1) with b1.
    apply andb_true_iff in R as [R B1u]. apply andb_true_iff in R as [R B0u]. apply andb_true_iff in R as [R S].
    apply andb_true_iff in R as [R D]. apply Z.eqb_eq in R, S. destruct (symbol_eqb_spec (DecodeSymbol (Z.land (Z.shiftr b0 5) 3)) s) as [->|]; [|discriminate].
    rewrite R, S. cbn [Z.eqb negb NumSymbols]. rewrite u16_id by (unfold in_u16; lia).
    replace (max_size <? size) with false by lia. split; [reflexivity|].
    apply bytes_two; [apply u8_range|]. apply andb_true_iff in B1u as [? ?]. unfold in_u8. lia.
Qed.

(** ** Runs at the front *)

Lemma leading_range s l : 0 <= leading s l <= zlen l.
Proof.
  induction l as [|t l IH]; cbn [leading]; [rewrite (@zlen_nil StatusSymbol); lia|].
  rewrite zlen_cons. destruct (symbol_eqb t s); pose proof (zlen_nonneg l); lia.
Qed.

Lemma leading_all s l : leading s l = zlen l -> l = repeat s (Z.to_nat (zlen l)).
Proof.
  induction l as [|t l IH]; cbn [leading]; intros H; [reflexivity|].
  rewrite zlen_cons in *. pose proof (leading_range s l). pose proof (zlen_nonneg l).
  destruct (symbol_eqb_spec t s) as [->|]; [|lia].
  replace (Z.to_nat (1 + zlen l)) with (S (Z.to_nat (zlen l))) by lia. cbn [repeat]. f_equal. apply IH. lia.
Qed.

Lemma leading_repeat s n : leading s (repeat s n) = Z.of_nat n.
Proof.
  induction n as [|n IH]; [reflexivity|]. cbn [repeat leading]. rewrite IH.
  destruct (symbol_eqb_spec s s); [lia|congruence].
Qed.

Lemma leading_snoc s l x : leading s l < zlen l \/ x <> s -> leading s (l ++ [x]) = leading s l.
Proof.
  induction l as [|t l IH]; cbn [app leading].
  - rewrite (@zlen_nil StatusSymbol). intros [H|H]; [lia|]. destruct (symbol_eqb_spec x s); congruence.
  - rewrite zlen_cons. destruct (symbol_eqb_spec t s); [|reflexivity]. intros H. rewrite IH; [reflexivity|].
    destruct H; [left; lia|now right].
Qed.

Lemma zlen_repeat {A} (x : A) n : zlen (repeat x n) = Z.of_nat n.
Proof. unfold zlen. now rewrite repeat_length. Qed.

Lemma last_symbol_repeat s n d : last_symbol (repeat s (S n)) d = s.
Proof. revert d. induction n as [|n IH]; intros d; [reflexivity|]. exact (IH s). Qed.

Lemma repeat_snoc {A} (x : A) n : repeat x n ++ [x] = repeat x (S n).
Proof. change [x] with (repeat x 1). rewrite <- repeat_app. f_equal. lia. Qed.

Lemma take_symbols_spec n l :
  take_symbols n l = (firstn n l ++ repeat kNotReceived (n - length l), skipn n l).
Proof.
  revert l. induction n as [|n IH]; intros [|s l]; cbn [take_symbols firstn skipn]; try reflexivity.
  - rewrite IH, firstn_nil, skipn_nil. cbn [length]. now rewrite Nat.sub_0_r.
  - now rewrite IH.
Qed.

(** ** What has been packed *)

Definition decode (cs : list PacketStatusChunk) : list StatusSymbol := concat (map symbols_of cs).

Lemma decode_app a b : decode (a ++ b) = decode a ++ decode b.
Proof. unfold decode. now rewrite map_app, concat_app. Qed.

Lemma AppendSymbolsTo_app c vec : AppendSymbolsTo c vec = vec ++ symbols_of c.
Proof. destruct c; reflexivity. Qed.

Lemma fold_decode cs vec : fold_left (fun vec c => AppendSymbolsTo c vec) cs vec = vec ++ decode cs.
Proof.
  revert vec. induction cs as [|c cs IH]; intros vec; cbn [fold_left]; [symmetry; apply app_nil_r|].
  rewrite IH, AppendSymbolsTo_app, <- app_assoc. reflexivity.
Qed.

Definition cap (two : bool) : Z := if two then 7 else 14.
Lemma capacity_cap f : capacity f = cap (vec_needs_two_bit_symbols_ f).
Proof. reflexivity. Qed.

(** The pending symbols are a run, of which at most [cap] are kept, or a mix
    that does not fill a chunk. *)
Definition pending_ok (two : bool) (vec : list StatusSymbol) (card : Z) : Prop :=
  match vec with
  | [] => True
  | s :: _ =>
      (two = false -> Forall small vec) /\ 1 <= card <= 8190 /\
      (vec = repeat s (Z.to_nat (Z.min card (cap two))) \/ (card = leading s vec /\ card < zlen vec < cap two))
  end.
Definition pending (two : bool) (vec : list StatusSymbol) (card : Z) : list StatusSymbol :=
  match vec with
  | [] => []
  | s :: _ => if cap two <? card then repeat s (Z.to_nat card) else vec
  end.

Definition nonempty {A} (l : list A) : Z := match l with [] => 0 | _ => 1 end.
Fixpoint deltas_size (l : list StatusSymbol) : Z :=
  match l with [] => 0 | s :: l => delta_size s + deltas_size l end.

Lemma deltas_size_app a b : deltas_size (a ++ b) = deltas_size a + deltas_size b.
Proof. induction a; cbn; lia. Qed.
Lemma deltas_size_range l : 0 <= deltas_size l <= 2 * zlen l.
Proof. induction l as [|[] l IH]; rewrite ?zlen_cons, ?(@zlen_nil StatusSymbol); cbn [deltas_size delta_size]; lia. Qed.

(** The symbols [S] have been packed into [f]. *)
Record packed (f : TransportFeedback) (S : list StatusSymbol) : Prop := {
  pk_decode : decode (status_chunks_ f) ++
      pending (vec_needs_two_bit_symbols_ f) (symbol_vec_ f) (first_symbol_cardinality_ f) = S;
  pk_wf : Forall wf_chunk (status_chunks_ f);
  pk_vec : pending_ok (vec_needs_two_bit_symbols_ f) (symbol_vec_ f) (first_symbol_cardinality_ f);
  pk_size : size_bytes_ f = 20 + 2 * (zlen (status_chunks_ f) + nonempty (symbol_vec_ f)) + deltas_size S;
  pk_seven : 7 * zlen (status_chunks_ f) <= zlen (decode (status_chunks_ f))
}.

Lemma packed_new : packed new_TransportFeedback [].
Proof. constructor; cbn; try reflexivity; constructor. Qed.

Lemma packed_size f S : packed f S -> zlen S <= 65536 -> 20 <= size_bytes_ f <= 149820.
Proof.
  intros [D _ _ E Sv] L. pose proof (deltas_size_range S). pose proof (zlen_nonneg (status_chunks_ f)).
  assert (Z : zlen (decode (status_chunks_ f)) <= zlen S)
    by (rewrite <- D, zlen_app; match goal with |- _ <= _ + zlen ?l => pose proof (zlen_nonneg l) end; lia).
  rewrite E. destruct (symbol_vec_ f); cbn [nonempty]; lia.
Qed.

(** Only the fields of the packing change. *)
Definition repacked (f f' : TransportFeedback) : Prop :=
  f' = set_symbols f (status_chunks_ f') (symbol_vec_ f') (first_symbol_cardinality_ f')
         (vec_needs_two_bit_symbols_ f') (size_bytes_ f').
Lemma repacked_refl f : repacked f f.
Proof. now destruct f. Qed.
Lemma repacked_trans f g h : repacked f g -> repacked g h -> repacked f h.
Proof. unfold repacked. intros -> ->. reflexivity. Qed.

(** ** One symbol *)

Lemma encode_first f S x :
  packed f S -> symbol_vec_ f = [] -> zlen S <= 65535 ->
  exists f', EncodeFirst f x = (true, f') /\ packed f' (S ++ [x]) /\ repacked f f'.
Proof.
  intros P V L. pose proof (packed_size f S P ltac:(lia)) as B. destruct P as [D W _ E Sv].
  rewrite V in D, E. cbn [pending nonempty] in D, E. rewrite app_nil_r in D.
  unfold EncodeFirst, kMaxSizeBytes, kChunkSizeBytes.
  assert (Dx : 0 <= delta_size x <= 2) by (destruct x; cbn; lia).
  rewrite !u32_id by (unfold in_u32; lia). replace (65536 * 4 <? _) with false by lia.
  eexists. split; [reflexivity|]. split; [|reflexivity].
  constructor; cbn [set_symbols status_chunks_ symbol_vec_ first_symbol_cardinality_ vec_needs_two_bit_symbols_
    size_bytes_ pending pending_ok nonempty]; try assumption.
  - rewrite D. destruct (is_two_bit x); reflexivity.
  - split; [|split; [lia|left; destruct (is_two_bit x); reflexivity]].
    intros T. constructor; [|constructor]. intros ->. discriminate.
  - rewrite deltas_size_app. cbn [deltas_size]. lia.
Qed.

(** The vector of a chunk with no padding. *)
Lemma emit_vector_full f S x l :
  symbol_vec_ f = x :: l -> zlen (x :: l) = capacity f -> first_symbol_cardinality_ f <= capacity f ->
  (vec_needs_two_bit_symbols_ f = false -> Forall small (x :: l)) ->
  decode (status_chunks_ f) ++ symbol_vec_ f = S -> Forall wf_chunk (status_chunks_ f) ->
  7 * zlen (status_chunks_ f) <= zlen (decode (status_chunks_ f)) ->
  let g := EmitVectorChunk f in
  decode (status_chunks_ g) = S /\ Forall wf_chunk (status_chunks_ g) /\ symbol_vec_ g = [] /\
  first_symbol_cardinality_ g = 1 /\ zlen (status_chunks_ g) = zlen (status_chunks_ f) + 1 /\
  7 * zlen (status_chunks_ g) <= zlen (decode (status_chunks_ g)) /\ repacked f g /\
  size_bytes_ g = size_bytes_ f /\ vec_needs_two_bit_symbols_ g = vec_needs_two_bit_symbols_ f.
Proof.
  intros V Z _ Sm D W Sv. unfold EmitVectorChunk. rewrite V, take_symbols_spec.
  rewrite capacity_cap in Z. unfold cap in Z.
  set (n := if vec_needs_two_bit_symbols_ f then 7%nat else 14%nat).
  assert (N : length (x :: l) = n) by (subst n; unfold zlen in Z; destruct (vec_needs_two_bit_symbols_ f); lia).
  rewrite firstn_all2, skipn_all2, N, Nat.sub_diag by lia. cbn [repeat]. rewrite app_nil_r.
  set (c := if vec_needs_two_bit_symbols_ f then _ else _).
  assert (C : symbols_of c = x :: l /\ wf_chunk c).
  { subst c n. destruct (vec_needs_two_bit_symbols_ f); cbn; auto. }
  assert (E : decode (status_chunks_ f ++ [c]) = S).
  { rewrite decode_app. unfold decode at 2. cbn [map concat]. now rewrite (proj1 C), app_nil_r, <- V. }
  cbv zeta. cbn [set_symbols status_chunks_ symbol_vec_ first_symbol_cardinality_ size_bytes_ vec_needs_two_bit_symbols_].
  rewrite E, zlen_app. assert (K : zlen [c] = 1) by reflexivity. rewrite K.
  assert (7 <= zlen (symbol_vec_ f)) by (rewrite V; destruct (vec_needs_two_bit_symbols_ f); lia).
  repeat split; try reflexivity.
  - apply Forall_app. split; [assumption|]. constructor; [apply C|constructor].
  - rewrite <- D, zlen_app. lia.
Qed.

(** A symbol that makes or keeps the pending ones a mix. *)
Lemma encode_in_vector f S x s l :
  packed f S -> zlen S <= 65535 -> symbol_vec_ f = s :: l -> zlen (s :: l) < capacity f ->
  (vec_needs_two_bit_symbols_ f = false -> small x) ->
  first_symbol_cardinality_ f = leading s (s :: l) ->
  (first_symbol_cardinality_ f < zlen (s :: l) \/ x <> s) ->
  let g := EncodeInVector f x (capacity f) in packed g (S ++ [x]) /\ repacked f g.
Proof.
  intros P L V Z Sm C M. pose proof (packed_size f S P ltac:(lia)) as B. destruct P as [D W Vo E Sv].
  pose proof (leading_range s (s :: l)) as R. rewrite <- C in R. rewrite capacity_cap in *.
  rewrite V in D, Vo, E. cbn [pending pending_ok nonempty] in D, Vo, E.
  replace (cap _ <? first_symbol_cardinality_ f) with false in D by lia.
  assert (Dx : 0 <= delta_size x <= 2) by (destruct x; cbn; lia).
  unfold EncodeInVector. cbv zeta. rewrite V.
  set (h := set_symbols f _ _ _ _ _).
  assert (Sm2 : vec_needs_two_bit_symbols_ h = false -> Forall small (s :: l ++ [x])).
  { intros T. change (s :: l ++ [x]) with ((s :: l) ++ [x]). apply Forall_app. split; [now apply Vo|].
    constructor; [now apply Sm|constructor]. }
  assert (Zx : zlen (s :: l ++ [x]) = zlen (s :: l) + 1)
    by (change (s :: l ++ [x]) with ((s :: l) ++ [x]); now rewrite zlen_app).
  change (symbol_vec_ h) with (s :: l ++ [x]).
  assert (Dh : decode (status_chunks_ h) ++ symbol_vec_ h = S ++ [x]).
  { change (decode (status_chunks_ f) ++ (s :: l) ++ [x] = S ++ [x]). rewrite app_assoc. now rewrite D. }
  destruct (Z.eqb_spec (zlen (s :: l ++ [x])) (cap (vec_needs_two_bit_symbols_ f))) as [F|F].
  - destruct (emit_vector_full h (S ++ [x]) s (l ++ [x])) as (G1 & G2 & G3 & G4 & G5 & G6 & G7 & G8 & G9);
      try assumption; [reflexivity|cbn; rewrite capacity_cap; cbn; lia|].
    split; [|rewrite G7; reflexivity].
    constructor; cbn [set_symbols status_chunks_ symbol_vec_ first_symbol_cardinality_ size_bytes_ vec_needs_two_bit_symbols_].
    + rewrite G1, G3. cbn [pending]. apply app_nil_r.
    + exact G2.
    + rewrite G3. exact I.
    + rewrite G3, G5, G8. change (status_chunks_ h) with (status_chunks_ f).
      change (size_bytes_ h) with (size_bytes_ f). rewrite u32_id by (unfold in_u32; lia). cbn [nonempty]. rewrite deltas_size_app. cbn [deltas_size]. lia.
    + exact G6.
  - split; [|reflexivity].
    constructor; cbn [set_symbols status_chunks_ symbol_vec_ first_symbol_cardinality_ size_bytes_ vec_needs_two_bit_symbols_];
      change (symbol_vec_ h) with (s :: l ++ [x]); change (status_chunks_ h) with (status_chunks_ f) in *;
      change (first_symbol_cardinality_ h) with (first_symbol_cardinality_ f);
      change (vec_needs_two_bit_symbols_ h) with (vec_needs_two_bit_symbols_ f) in *; try assumption.
    + cbn [pending]. now replace (cap _ <? first_symbol_cardinality_ f) with false by lia.
    + cbn [pending_ok]. split; [assumption|]. split; [lia|]. right. split; [|lia].
      rewrite C. symmetry. change (s :: l ++ [x]) with ((s :: l) ++ [x]). apply leading_snoc. rewrite <- C. exact M.
    + change (size_bytes_ h) with (size_bytes_ f). rewrite u32_id by (unfold in_u32; lia).
      cbn [nonempty]. rewrite deltas_size_app. cbn [deltas_size]. lia.
Qed.

(** A symbol that continues a run. *)
Lemma encode_in_run f S s l :
  packed f S -> zlen S <= 65535 -> symbol_vec_ f = s :: l ->
  s :: l = repeat s (Z.to_nat (Z.min (first_symbol_cardinality_ f) (capacity f))) ->
  exists g, EncodeInRun f s = Ok g /\ packed g (S ++ [s]) /\ repacked f g.
Proof.
  intros P L V R. pose proof (packed_size f S P ltac:(lia)) as B. destruct P as [D W Vo E Sv].
  rewrite V in D, Vo, E. cbn [nonempty] in E. destruct Vo as (Sm & C & _).
  unfold EncodeInRun. cbv zeta. rewrite capacity_cap in *. rewrite u16_id by (unfold in_u16; lia).
  set (card := first_symbol_cardinality_ f) in *. set (two := vec_needs_two_bit_symbols_ f) in *.
  assert (T : cap two = 7 \/ cap two = 14) by (destruct two; cbn; lia).
  assert (Ds : 0 <= delta_size s <= 2) by (destruct s; cbn; lia).
  assert (Pd : decode (status_chunks_ f) ++ repeat s (Z.to_nat card) = S).
  { rewrite <- D. f_equal. cbn [pending]. destruct (Z.ltb_spec (cap two) card); [reflexivity|].
    rewrite R. f_equal. lia. }
  assert (Pd' : decode (status_chunks_ f) ++ repeat s (Z.to_nat (card + 1)) = S ++ [s]).
  { rewrite <- Pd, <- app_assoc, repeat_snoc. do 2 f_equal. lia. }
  assert (Sz : u32 (size_bytes_ f + delta_size s) = 20 + 2 * (zlen (status_chunks_ f) + 1) + deltas_size (S ++ [s]))
    by (rewrite u32_id by (unfold in_u32; lia); rewrite deltas_size_app; cbn [deltas_size]; lia).
  assert (K : wf_chunk (RunLengthChunk s (card + 1)) /\ 7 <= card + 1 -> decode (status_chunks_ f ++ [RunLengthChunk s (card + 1)]) = S ++ [s] /\
     7 * zlen (status_chunks_ f ++ [RunLengthChunk s (card + 1)]) <= zlen (S ++ [s])).
  { intros [_ K]. split.
    - rewrite decode_app. cbn. rewrite app_nil_r. exact Pd'.
    - rewrite <- Pd', !zlen_app, zlen_repeat. change (zlen [RunLengthChunk s (card + 1)]) with 1. lia. }
  destruct (Z.leb_spec (card + 1) (cap two)) as [F|F]; cbn [negb andb].
  - eexists. split; [reflexivity|]. split; [|reflexivity].
    assert (Rv : s :: l ++ [s] = repeat s (Z.to_nat (card + 1))).
    { change (s :: l ++ [s]) with ((s :: l) ++ [s]). rewrite R, repeat_snoc. f_equal. lia. }
    constructor; cbn [set_symbols status_chunks_ symbol_vec_ first_symbol_cardinality_ size_bytes_ vec_needs_two_bit_symbols_];
      rewrite ?V; cbn [app]; try assumption.
    + cbn [pending]. fold two. replace (cap two <? card + 1) with false by lia. now rewrite Rv.
    + cbn [pending_ok]. split; [|split; [lia|left]].
      * intros N. change (s :: l ++ [s]) with ((s :: l) ++ [s]). apply Forall_app. split; [now apply Sm|].
        specialize (Sm N). inversion Sm. now constructor.
      * rewrite Rv. do 2 f_equal. fold two. lia.
  - destruct (Z.eqb_spec (card + 1) kRunLengthCapacity) as [M|M].
    + unfold EmitRunLengthChunk. cbn [set_symbols symbol_vec_]. rewrite V. cbn [bind].
      eexists. split; [reflexivity|]. split; [|reflexivity].
      destruct K as [K1 K2]; [unfold kRunLengthCapacity in M; cbn; lia|].
      constructor; cbn [set_symbols status_chunks_ symbol_vec_ first_symbol_cardinality_ size_bytes_ vec_needs_two_bit_symbols_];
        rewrite ?K1; try assumption.
      * cbn [pending]. now rewrite app_nil_r.
      * apply Forall_app. split; [assumption|]. unfold kRunLengthCapacity in M. constructor; [cbn; lia|constructor].
      * exact I.
      * rewrite Sz, zlen_app. change (zlen [RunLengthChunk s (card + 1)]) with 1. cbn [nonempty]. lia.
    + cbn [bind]. eexists. split; [reflexivity|]. split; [|reflexivity].
      unfold kRunLengthCapacity in M.
      constructor; cbn [set_symbols status_chunks_ symbol_vec_ first_symbol_cardinality_ size_bytes_ vec_needs_two_bit_symbols_];
        rewrite ?V; try assumption.
      * cbn [pending]. fold two. replace (cap two <? card + 1) with true by lia. exact Pd'.
      * cbn [pending_ok]. split; [assumption|]. split; [lia|]. left. fold two. rewrite R at 1. do 2 f_equal. lia.
Qed.

(** A run that cannot go on becomes a chunk. *)
Lemma emit_run f S s l :
  packed f S -> symbol_vec_ f = s :: l ->
  s :: l = repeat s (Z.to_nat (Z.min (first_symbol_cardinality_ f) (capacity f))) ->
  capacity f <= first_symbol_cardinality_ f ->
  exists g, EmitRunLengthChunk f = Ok g /\ packed g S /\ symbol_vec_ g = [] /\ repacked f g.
Proof.
  intros [D W Vo E Sv] V R M. rewrite V in D, Vo, E. cbn [nonempty] in E. destruct Vo as (_ & C & _).
  unfold EmitRunLengthChunk. rewrite V. eexists. split; [reflexivity|]. split; [|split; reflexivity].
  rewrite capacity_cap in *. set (card := first_symbol_cardinality_ f) in *. set (two := vec_needs_two_bit_symbols_ f) in *.
  assert (T : cap two = 7 \/ cap two = 14) by (destruct two; cbn; lia).
  assert (Pd : decode (status_chunks_ f) ++ repeat s (Z.to_nat card) = S).
  { rewrite <- D. f_equal. cbn [pending]. destruct (Z.ltb_spec (cap two) card); [reflexivity|].
    rewrite R. f_equal. lia. }
  assert (K : decode (status_chunks_ f ++ [RunLengthChunk s card]) = S).
  { rewrite decode_app. cbn. now rewrite app_nil_r. }
  constructor; cbn [set_symbols status_chunks_ symbol_vec_ first_symbol_cardinality_ size_bytes_ vec_needs_two_bit_symbols_];
    rewrite ?K.
  - cbn [pending]. apply app_nil_r.
  - apply Forall_app. split; [assumption|]. constructor; [cbn; lia|constructor].
  - exact I.
  - rewrite E, zlen_app. change (zlen [RunLengthChunk s card]) with 1. cbn [nonempty]. lia.
  - rewrite <- Pd, !zlen_app, zlen_repeat. change (zlen [RunLengthChunk s card]) with 1. lia.
Qed.

(** When a symbol of two bits comes, seven of the pending symbols go into a
    chunk of two bits and the rest waits in the next one. *)
Lemma emit_conversion f S s l :
  packed f S -> symbol_vec_ f = s :: l -> vec_needs_two_bit_symbols_ f = false -> zlen S <= 65535 ->
  7 <= zlen (s :: l) < 14 -> first_symbol_cardinality_ f <= 14 ->
  let g := EmitPart (NeedTwoBits f) in
  packed g S /\ repacked f g /\ vec_needs_two_bit_symbols_ g = true /\ zlen (symbol_vec_ g) < 7 /\
  Forall small (symbol_vec_ g) /\
  match symbol_vec_ g with [] => True | t :: m => first_symbol_cardinality_ g = leading t (t :: m) end.
Proof.
  intros P V T L Z C. pose proof (packed_size f S P ltac:(lia)) as B. destruct P as [D W Vo E Sv].
  rewrite V in D, Vo, E. rewrite T in D, Vo. cbn [nonempty] in E.
  destruct Vo as (Sm & _). specialize (Sm eq_refl).
  assert (Pd : pending false (s :: l) (first_symbol_cardinality_ f) = s :: l).
  { cbn [pending]. change (cap false) with 14. now replace (14 <? first_symbol_cardinality_ f) with false by lia. }
  rewrite Pd in D. cbv zeta. unfold EmitPart, NeedTwoBits, EmitVectorChunk. cbn [set_symbols symbol_vec_ vec_needs_two_bit_symbols_].
  rewrite V, take_symbols_spec.
  replace (7 - length (s :: l))%nat with 0%nat by (unfold zlen in Z; lia). cbn [repeat]. rewrite app_nil_r.
  set (taken := firstn 7 (s :: l)). set (rest := skipn 7 (s :: l)).
  assert (Split : taken ++ rest = s :: l) by apply firstn_skipn.
  assert (Lt : length taken = 7%nat) by (subst taken; rewrite length_firstn; unfold zlen in Z; lia).
  assert (Lr : zlen rest < 7) by (subst rest; unfold zlen in *; rewrite length_skipn; lia).
  assert (Sr : Forall small rest) by (rewrite <- Split in Sm; now apply Forall_app in Sm as [_ Sm]).
  assert (K : decode (status_chunks_ f ++ [TwoBitVectorChunk taken]) ++ rest = S).
  { rewrite decode_app. change (decode [TwoBitVectorChunk taken]) with (taken ++ []).
    rewrite app_nil_r, <- app_assoc, Split. exact D. }
  assert (W' : Forall wf_chunk (status_chunks_ f ++ [TwoBitVectorChunk taken]))
    by (apply Forall_app; split; [assumption|]; constructor; [exact Lt|constructor]).
  assert (Sv' : 7 * zlen (status_chunks_ f ++ [TwoBitVectorChunk taken]) <=
    zlen (decode (status_chunks_ f ++ [TwoBitVectorChunk taken]))).
  { rewrite decode_app. change (decode [TwoBitVectorChunk taken]) with (taken ++ []).
    rewrite app_nil_r, !zlen_app. change (zlen [TwoBitVectorChunk taken]) with 1.
    replace (zlen taken) with 7 by (unfold zlen; now rewrite Lt). lia. }
  assert (Zc : zlen (status_chunks_ f ++ [TwoBitVectorChunk taken]) = zlen (status_chunks_ f) + 1)
    by (now rewrite zlen_app).
  clearbody taken rest. destruct rest as [|t m].
  - cbn [set_symbols symbol_vec_]. split; [|split; [reflexivity|]].
    + constructor; cbn [set_symbols status_chunks_ symbol_vec_ first_symbol_cardinality_ size_bytes_ vec_needs_two_bit_symbols_];
        try assumption; [exact I|]. rewrite E, Zc. cbn [nonempty]. lia.
    + cbn. split; [reflexivity|]. split; [reflexivity || lia|]. split; [constructor|exact I].
  - pose proof (leading_range t m) as R. rewrite zlen_cons in Lr. pose proof (zlen_nonneg m).
    cbn [set_symbols symbol_vec_ first_symbol_cardinality_]. rewrite u16_id by (unfold in_u16; lia).
    assert (Ld : 1 + leading t m = leading t (t :: m))
      by (cbn [leading]; destruct (symbol_eqb_spec t t); [reflexivity|congruence]).
    split; [|split; [reflexivity|]].
    + constructor; cbn [set_symbols status_chunks_ symbol_vec_ first_symbol_cardinality_ size_bytes_ vec_needs_two_bit_symbols_];
        try assumption.
      * cbn [pending]. change (cap true) with 7. now replace (7 <? 1 + leading t m) with false by lia.
      * cbn [pending_ok]. split; [discriminate|]. split; [lia|]. change (cap true) with 7.
        destruct (Z.eq_dec (leading t (t :: m)) (zlen (t :: m))) as [A|A].
        -- left. rewrite (leading_all t (t :: m) A) at 1. f_equal. rewrite zlen_cons in *. lia.
        -- right. rewrite zlen_cons in *. lia.
      * unfold kChunkSizeBytes. rewrite u32_id by (unfold in_u32; lia). rewrite E, Zc. cbn [nonempty]. lia.
    + cbn [set_symbols symbol_vec_ vec_needs_two_bit_symbols_ first_symbol_cardinality_].
      split; [reflexivity|]. split; [rewrite zlen_cons; lia|]. split; assumption.
Qed.

Lemma packed_two_bits f S s l :
  packed f S -> symbol_vec_ f = s :: l -> vec_needs_two_bit_symbols_ f = false ->
  first_symbol_cardinality_ f = leading s (s :: l) -> zlen (s :: l) < 7 -> packed (NeedTwoBits f) S.
Proof.
  intros [D W Vo E Sv] V T C Z. pose proof (leading_range s (s :: l)) as R. rewrite <- C in R.
  rewrite V in D, Vo, E. rewrite T in D, Vo. cbn [pending pending_ok] in D, Vo. destruct Vo as (Sm & C1 & Sh).
  change (cap false) with 14 in *. replace (14 <? first_symbol_cardinality_ f) with false in D by lia.
  constructor; cbn [NeedTwoBits set_symbols status_chunks_ symbol_vec_ first_symbol_cardinality_ size_bytes_
    vec_needs_two_bit_symbols_]; rewrite ?V; try assumption.
  - cbn [pending]. change (cap true) with 7. now replace (7 <? first_symbol_cardinality_ f) with false by lia.
  - cbn [pending_ok]. change (cap true) with 7. split; [discriminate|]. split; [assumption|].
    destruct (Z.eq_dec (first_symbol_cardinality_ f) (zlen (s :: l))) as [A|A]; [left|right; lia].
    rewrite (leading_all s (s :: l)) at 1 by congruence. f_equal. lia.
Qed.

Lemma last_symbol_in l d : last_symbol l d = d \/ In (last_symbol l d) l.
Proof.
  revert d. induction l as [|s l IH]; intros d; [now left|]. right. cbn [last_symbol In].
  destruct (IH s) as [->|]; auto.
Qed.

(** A symbol of two bits after the conversion. *)
Lemma encode_large f n t m :
  last_seq_ f - base_seq_ f + 1 <= 65535 -> 0 <= size_bytes_ f <= 149820 -> symbol_vec_ f = t :: m ->
  vec_needs_two_bit_symbols_ f = true -> zlen (t :: m) < 7 -> Forall small (t :: m) ->
  first_symbol_cardinality_ f = leading t (t :: m) ->
  Encode (S n) f kReceivedLargeDelta = Ok (true, EncodeInVector f kReceivedLargeDelta (capacity f)).
Proof.
  intros G B V T Z Sm C. pose proof (leading_range t (t :: m)) as R. rewrite <- C in R.
  cbn [Encode]. rewrite V. replace (0xFFFF <? _) with false by lia.
  unfold kMaxSizeBytes. rewrite u32_id by (unfold in_u32; cbn; lia). cbn [delta_size].
  replace (65536 * 4 <? size_bytes_ f + 2) with false by lia.
  destruct (symbol_eqb_spec (last_symbol (t :: m) t) kReceivedLargeDelta) as [A|A].
  { exfalso. rewrite Forall_forall in Sm. destruct (last_symbol_in (t :: m) t) as [I|I];
      [apply (Sm t); [now left|congruence]|exact (Sm _ I A)]. }
  rewrite andb_false_r, capacity_cap, T. change (cap true) with 7.
  replace (7 <=? first_symbol_cardinality_ f) with false by lia. rewrite andb_false_r. reflexivity.
Qed.

(** Encoding a symbol appends it to what has been packed. *)
Lemma Encode_packed f S x :
  packed f S -> zlen S <= 65535 -> last_seq_ f - base_seq_ f + 1 <= 65535 ->
  exists g, Encode 3 f x = Ok (true, g) /\ packed g (S ++ [x]) /\ repacked f g.
Proof.
  intros P L G. pose proof (packed_size f S P ltac:(lia)) as B.
  assert (Dx : 0 <= delta_size x <= 2) by (destruct x; cbn; lia).
  assert (Again : forall n f1, packed f1 S -> repacked f f1 -> symbol_vec_ f1 = [] ->
    exists g, Encode (Datatypes.S n) f1 x = Ok (true, g) /\ packed g (S ++ [x]) /\ repacked f g).
  { intros n f1 P1 R1 V1. destruct (encode_first f1 S x P1 V1 L) as (g & Eg & Pg & Rg).
    exists g. split; [|split; [exact Pg|exact (repacked_trans _ _ _ R1 Rg)]].
    cbn [Encode]. rewrite V1. assert (A : last_seq_ f1 - base_seq_ f1 = last_seq_ f - base_seq_ f) by (now rewrite R1).
    replace (0xFFFF <? _) with false by lia. now rewrite Eg. }
  destruct (symbol_vec_ f) as [|s l] eqn:V; [exact (Again 2%nat f P (repacked_refl f) V)|].
  remember 2%nat as n eqn:N. cbn [Encode]. rewrite V. replace (0xFFFF <? _) with false by lia.
  unfold kMaxSizeBytes. rewrite !u32_id by (unfold in_u32, kChunkSizeBytes; cbn [NeedTwoBits size_bytes_ set_symbols]; lia).
  replace (65536 * 4 <? size_bytes_ f + delta_size x) with false by lia.
  pose proof (pk_vec f S P) as Vo. rewrite V in Vo. cbn [pending_ok] in Vo. destruct Vo as (Sm & C & Sh).
  rewrite <- capacity_cap in Sh. set (card := first_symbol_cardinality_ f) in *.
  assert (Tc : capacity f = 7 \/ capacity f = 14)
    by (rewrite capacity_cap; destruct (vec_needs_two_bit_symbols_ f); cbn; lia).
  set (rle := _ || _).
  assert (K : (rle = true /\ s :: l = repeat s (Z.to_nat (Z.min card (capacity f))) /\
               (x = s \/ (x <> s /\ capacity f <= card))) \/
              (rle && symbol_eqb (last_symbol (s :: l) s) x = false /\ card < capacity f /\
               card = leading s (s :: l) /\ zlen (s :: l) < capacity f /\ (card < zlen (s :: l) \/ x <> s))).
  { destruct Sh as [R|(R & Z)].
    - assert (Zv : zlen (s :: l) = Z.min card (capacity f)) by (rewrite R at 1; rewrite zlen_repeat; lia).
      assert (Lv : last_symbol (s :: l) s = s).
      { rewrite R. replace (Z.to_nat _) with (Datatypes.S (Z.to_nat (Z.min card (capacity f) - 1))) by lia.
        apply last_symbol_repeat. }
      destruct (symbol_eqb_spec x s) as [->|Nx]; [left; subst rle; repeat split; [lia|exact R|now left]|].
      destruct (Z.leb_spec (capacity f) card); [left; subst rle; repeat split; [lia|exact R|now right]|].
      right. rewrite Lv. destruct (symbol_eqb_spec s x); [congruence|].
      rewrite andb_false_r. repeat split; try lia; [|now right].
      rewrite R at 1. rewrite leading_repeat. lia.
    - right. subst rle. repeat split; try lia; auto. }
  clearbody rle. destruct K as [(-> & R & Kx)|(-> & Kc & Kl & Kz & Kx)]; cbn [andb].
  - assert (Lv : last_symbol (s :: l) s = s).
    { rewrite R. replace (Z.to_nat _) with (Datatypes.S (Z.to_nat (Z.min card (capacity f) - 1))) by lia.
      apply last_symbol_repeat. }
    rewrite Lv. destruct Kx as [->|[Nx M]].
    + destruct (symbol_eqb_spec s s); [|congruence].
      destruct (encode_in_run f S s l P L V R) as (g & Eg & Pg & Rg). exists g. rewrite Eg. auto.
    + destruct (symbol_eqb_spec s x); [congruence|]. replace (capacity f <=? card) with true by lia.
      destruct (emit_run f S s l P V R M) as (g & Eg & Pg & Vg & Rg). rewrite Eg. cbn [bind]. subst n.
      exact (Again 1%nat g Pg Rg Vg).
  - replace (capacity f <=? card) with false by lia. rewrite andb_false_r.
    destruct (is_two_bit x && negb (vec_needs_two_bit_symbols_ f)) eqn:Cv.
    + apply andb_true_iff in Cv as [Tx T]. apply negb_true_iff in T. destruct x; try discriminate.
      rewrite capacity_cap, T in Kz, Kc. change (cap false) with 14 in *.
      change (symbol_vec_ (NeedTwoBits f)) with (symbol_vec_ f). rewrite V. unfold kTwoBitVectorCapacity.
      destruct (Z.leb_spec 7 (zlen (s :: l))) as [M|M].
      * unfold kChunkSizeBytes. cbn [NeedTwoBits size_bytes_ set_symbols].
        replace (65536 * 4 <? size_bytes_ f + delta_size kReceivedLargeDelta + 2) with false by lia.
        destruct (emit_conversion f S s l P V T L ltac:(lia) ltac:(subst card; lia)) as (Pg & Rg & Tg & Zg & Smg & Cg).
        change (set_symbols f _ _ _ true _) with (NeedTwoBits f). subst n.
        set (g := EmitPart (NeedTwoBits f)) in *. clearbody g.
        destruct (symbol_vec_ g) as [|t m] eqn:Vg; [exact (Again 1%nat g Pg Rg Vg)|].
        assert (A : last_seq_ g - base_seq_ g = last_seq_ f - base_seq_ f) by (now rewrite Rg).
        pose proof (packed_size g S Pg ltac:(lia)) as Bg.
        rewrite (encode_large g 1 t m) by (auto; lia).
        destruct (encode_in_vector g S kReceivedLargeDelta t m) as [H1 H2]; auto.
        { rewrite capacity_cap, Tg. change (cap true) with 7. lia. }
        { congruence. }
        { right. inversion Smg. unfold small in *. congruence. }
        eexists. split; [reflexivity|]. split; [exact H1|exact (repacked_trans _ _ _ Rg H2)].
      * destruct (encode_in_vector (NeedTwoBits f) S kReceivedLargeDelta s l) as [H1 H2]; auto.
        { now apply (packed_two_bits f S s l). }
        { discriminate. }
        eexists. split; [reflexivity|]. split; [exact H1|]. exact (repacked_trans f _ _ eq_refl H2).
    + destruct (encode_in_vector f S x s l) as [H1 H2]; auto.
      { intros T. rewrite T in Cv. destruct x; [discriminate|discriminate|now cbn in Cv]. }
      eexists. split; [reflexivity|]. split; assumption.
Qed.

End TransportFeedbackFacts.
