(* ===== verification/TransportFeedbackRoundtrip.v ===== *)
(** * Transport feedback: the round trip

    A run of packets fed to the builder of TransportFeedback.v, in the order of
    their sequence numbers, is what the parser reports of the bytes the builder
    writes; and the times it reports are within half a tick of those given. *)

From S2P Require Import Prelude Wire RtcpCommon RtcpWriter TransportFeedback TransportFeedbackFacts.
Import Wire RtcpCommon RtcpWriter TransportFeedback TransportFeedbackFacts.

Module TransportFeedbackRoundtrip.

(** ** The builder *)

(** [f] was brought to the packet [seq], and only packing was done. *)
Definition moved (f g : TransportFeedback) (seq : Z) : Prop := repacked (set_last_seq f seq) g.

Lemma moved_last f g seq : moved f g seq -> last_seq_ g = seq.
Proof. intros ->. reflexivity. Qed.
Lemma moved_base f g seq : moved f g seq -> base_seq_ g = base_seq_ f.
Proof. intros ->. reflexivity. Qed.
Lemma moved_trans f g h a b : moved f g a -> moved g h b -> moved f h b.
Proof. unfold moved, repacked. intros -> ->. reflexivity. Qed.
Lemma moved_repacked f g seq : repacked f g -> moved f (set_last_seq g seq) seq.
Proof. unfold moved, repacked. intros ->. reflexivity. Qed.
Lemma packed_set_last f S v : packed f S -> packed (set_last_seq f v) S.
Proof. intros [D W V E Sv]. constructor; assumption. Qed.

Lemma add_missing_packed gap : forall f S,
  packed f S -> zlen S = last_seq_ f - base_seq_ f + 1 -> zlen S + Z.of_nat gap <= 65535 ->
  exists g, add_missing gap f = Ok (true, g) /\ packed g (S ++ repeat kNotReceived gap) /\
            moved f g (last_seq_ f + Z.of_nat gap).
Proof.
  induction gap as [|gap IH]; intros f S P Z L; cbn [add_missing repeat].
  - exists f. rewrite app_nil_r, Z.add_0_r. split; [reflexivity|]. split; [assumption|]. now destruct f.
  - destruct (Encode_packed f S kNotReceived P) as (g & -> & Pg & Rg); try lia. cbn [bind].
    pose proof (moved_repacked f g (last_seq_ f + 1) Rg) as M.
    assert (Lg : last_seq_ g = last_seq_ f) by (now rewrite Rg). rewrite Lg.
    destruct (IH (set_last_seq g (last_seq_ f + 1)) (S ++ [kNotReceived])) as (h & Eh & Ph & Mh).
    + now apply packed_set_last.
    + rewrite (moved_base _ _ _ M), zlen_app. cbn [set_last_seq set_base last_seq_]. change (zlen [kNotReceived]) with 1. lia.
    + rewrite zlen_app. change (zlen [kNotReceived]) with 1. lia.
    + exists h. rewrite Eh. split; [reflexivity|]. rewrite <- app_assoc in Ph. split; [exact Ph|].
      cbn [set_last_seq set_base last_seq_] in Mh. replace (last_seq_ f + Z.of_nat (Datatypes.S gap)) with (last_seq_ f + 1 + Z.of_nat gap) by lia.
      exact (moved_trans _ _ _ _ _ M Mh).
Qed.

(** The statuses up to the packet [seq], whose own is [x]. *)
Definition statuses (last seq : Z) (x : StatusSymbol) : list StatusSymbol :=
  repeat kNotReceived (Z.to_nat (seq - 1 - last)) ++ [x].

Lemma zlen_statuses last seq x : last < seq -> zlen (statuses last seq x) = seq - last.
Proof. intros H. unfold statuses. rewrite zlen_app, zlen_repeat. change (zlen [x]) with 1. lia. Qed.

(** The number of statuses: before the first packet the last one is the base. *)
Definition counted (f : TransportFeedback) (S : list StatusSymbol) : Prop :=
  zlen S = last_seq_ f - base_seq_ f + 1.

Lemma AddSymbol_packed f S x seq :
  packed f S -> counted f S -> last_seq_ f < seq -> seq - base_seq_ f <= 65534 ->
  exists g, AddSymbol f x seq = Ok (true, g) /\ packed g (S ++ statuses (last_seq_ f) seq x) /\
            moved f g seq /\ counted g (S ++ statuses (last_seq_ f) seq x).
Proof.
  intros P C N L. unfold counted in C. unfold AddSymbol.
  destruct (add_missing_packed (Z.to_nat (seq - 1 - last_seq_ f)) f S P C) as (g & -> & Pg & Mg); [lia|].
  cbn [bind]. pose proof (moved_last _ _ _ Mg). pose proof (moved_base _ _ _ Mg).
  destruct (Encode_packed g _ x Pg) as (h & -> & Ph & Rh); [rewrite zlen_app, zlen_repeat; lia|lia|].
  cbn [bind]. eexists. split; [reflexivity|]. rewrite <- app_assoc in Ph.
  pose proof (moved_trans _ _ _ _ _ Mg (moved_repacked g h seq Rh)) as M.
  split; [now apply packed_set_last|]. split; [exact M|]. unfold counted.
  rewrite zlen_app, zlen_statuses, (moved_base _ _ _ M) by lia. cbn. lia.
Qed.

(** The first packet is the base. *)
Lemma AddSymbol_first f x :
  packed f [] -> last_seq_ f = base_seq_ f ->
  exists g, AddSymbol f x (base_seq_ f) = Ok (true, g) /\ packed g [x] /\ moved f g (base_seq_ f) /\ counted g [x].
Proof.
  intros P L. unfold AddSymbol. rewrite L. replace (Z.to_nat _) with 0%nat by lia. cbn [add_missing bind].
  destruct (Encode_packed f [] x P) as (h & -> & Ph & Rh); [cbn; lia|lia|]. cbn [bind].
  eexists. split; [reflexivity|]. split; [now apply packed_set_last|].
  pose proof (moved_repacked f h (base_seq_ f) Rh) as M. split; [exact M|].
  unfold counted. rewrite (moved_base _ _ _ M). cbn. lia.
Qed.

(** ** What the builder is told, and what it keeps *)

(** The ticks of a time after the last one, rounded to the nearest. *)
Definition ticks (time timestamp : Z) : Z :=
  let d := timestamp - time in Z.quot (if d <? 0 then d - 125 else d + 125) 250.

Lemma ticks_near time timestamp : -125 <= timestamp - (time + 250 * ticks time timestamp) <= 125.
Proof.
  unfold ticks. cbv zeta. destruct (Z.ltb_spec (timestamp - time) 0); Z.to_euclidean_division_equations; lia.
Qed.

Definition symbol_of (delta : Z) : StatusSymbol :=
  if (0 <=? delta) && (delta <=? 0xFF) then kReceivedSmallDelta else kReceivedLargeDelta.

(** The packets, with their sequence numbers not reduced to sixteen bits,
    after the packet [last] received at [time]: each is newer than the one
    before, by less than half the range, and not too far in time. *)
Fixpoint in_order (base last time : Z) (packets : list (Z * Z)) : Prop :=
  match packets with
  | [] => True
  | (seq, timestamp) :: packets =>
      last < seq < last + 32768 /\ seq - base <= 65534 /\ in_s16 (ticks time timestamp) /\
      in_order base seq (time + 250 * ticks time timestamp) packets
  end.
(** Their statuses and deltas. *)
Fixpoint report (last time : Z) (packets : list (Z * Z)) : list StatusSymbol * list Z :=
  match packets with
  | [] => ([], [])
  | (seq, timestamp) :: packets =>
      let delta := ticks time timestamp in
      let (symbols, deltas) := report seq (time + 250 * delta) packets in
      (statuses last seq (symbol_of delta) ++ symbols, delta :: deltas)
  end.

(** The packets are given to the builder, until one is refused. *)
Fixpoint feed (f : TransportFeedback) (packets : list (Z * Z)) : res (bool * TransportFeedback) :=
  match packets with
  | [] => Ok (true, f)
  | (seq, timestamp) :: packets =>
      let! (ok, f) := WithReceivedPacket f (u16 seq) timestamp in
      if ok then feed f packets else Ok (false, f)
  end.

Lemma Unwrap_newer f seq :
  0 <= last_seq_ f < seq -> seq < last_seq_ f + 32768 -> seq < 131072 -> Unwrap f (u16 seq) = seq.
Proof.
  intros L H U. unfold Unwrap. replace (last_seq_ f =? -1) with false by lia.
  unfold IsNewerSequenceNumber. set (l := last_seq_ f) in *.
  assert (E : u16 (u16 seq - u16 l) = seq - l)
    by (unfold u16; rewrite <- Zminus_mod; apply Z.mod_small; lia).
  rewrite E. replace (seq - l =? 0x8000) with false by lia.
  assert (N : (u16 seq =? u16 l) = false) by (apply Z.eqb_neq; intros A; rewrite A, Z.sub_diag in E; cbn in E; lia).
  rewrite N. replace (seq - l <? 0x8000) with true by lia. cbn [negb andb].
  clear E N. unfold u16. destruct (Z.ltb_spec (seq mod 65536 - l) 0); Z.to_euclidean_division_equations; lia.
Qed.

Lemma Unwrap_same f : in_u16 (last_seq_ f) -> Unwrap f (u16 (last_seq_ f)) = last_seq_ f.
Proof.
  intros L. unfold Unwrap. rewrite !u16_id, Z.sub_diag by assumption. unfold in_u16 in L.
  replace (last_seq_ f =? -1) with false by lia. unfold IsNewerSequenceNumber.
  rewrite Z.sub_diag, Z.eqb_refl. cbn. lia.
Qed.

(** What the builder has kept of the packets so far. *)
Record holds (f : TransportFeedback) (base last time : Z) (S : list StatusSymbol) (D : list Z) : Prop := {
  h_packed : packed f S;
  h_base : base_seq_ f = base;
  h_last : last_seq_ f = last;
  h_time : last_timestamp_ f = time;
  h_deltas : receive_deltas_ f = D
}.

Definition same_head (f g : TransportFeedback) : Prop :=
  packet_sender_ssrc_ g = packet_sender_ssrc_ f /\ media_source_ssrc_ g = media_source_ssrc_ f /\
  feedback_seq_ g = feedback_seq_ f /\ base_time_ g = base_time_ f.

(** The rest of a received packet, once its number is unwrapped. *)
Lemma received f base last time S D seq timestamp g x :
  holds f base last time S D -> seq = base \/ last < seq -> Unwrap f (u16 seq) = seq ->
  in_s16 (ticks time timestamp) -> x = symbol_of (ticks time timestamp) ->
  forall S', AddSymbol f x seq = Ok (true, g) -> packed g S' -> moved f g seq ->
  exists h, WithReceivedPacket f (u16 seq) timestamp = Ok (true, h) /\ same_head f h /\
    holds h base seq (time + 250 * ticks time timestamp) S' (D ++ [ticks time timestamp]).
Proof.
  intros [P B L T Dd] N U R -> S' A Pg M. unfold WithReceivedPacket. rewrite U, B, L.
  replace (negb (seq =? base) && (seq <=? last)) with false
    by (destruct (Z.eqb_spec seq base); [reflexivity|]; destruct (Z.leb_spec seq last); [lia|reflexivity]).
  rewrite T. change (Z.quot kDeltaScaleFactor 2) with 125. unfold kDeltaScaleFactor.
  change ((if timestamp - time <? 0 then timestamp - time - 125 else timestamp - time + 125) ÷ 250)
    with (ticks time timestamp).
  set (d := ticks time timestamp) in *. rewrite (s16_id d R), Z.eqb_refl. cbn [negb].
  change (if (0 <=? d) && (d <=? 255) then _ else _) with (symbol_of d). rewrite A. cbn [bind].
  eexists. split; [reflexivity|]. unfold moved, repacked in M. destruct Pg as [PD PW PV PS P7].
  split; [rewrite M; repeat split|].
  constructor; [now constructor|rewrite M; exact B|rewrite M; reflexivity| |].
  - cbn [set_deltas last_timestamp_]. rewrite M. cbn [set_symbols set_last_seq set_base last_timestamp_]. rewrite T. ring.
  - cbn [set_deltas receive_deltas_]. rewrite M. cbn. now rewrite Dd.
Qed.

Lemma same_head_trans f g h : same_head f g -> same_head g h -> same_head f h.
Proof. unfold same_head. intros (A & B & C & D) (E & F & G & H). repeat split; congruence. Qed.

Lemma feed_holds packets : forall f base last time S D,
  holds f base last time S D -> counted f S -> 0 <= base <= last -> base <= 65535 -> in_order base last time packets ->
  exists h last' time', feed f packets = Ok (true, h) /\ same_head f h /\
    let (symbols, deltas) := report last time packets in
    holds h base last' time' (S ++ symbols) (D ++ deltas) /\ counted h (S ++ symbols).
Proof.
  induction packets as [|[seq timestamp] packets IH]; intros f base last time S D H C B U O; cbn [feed report].
  - exists f, last, time. rewrite !app_nil_r. repeat split; try apply H. assumption.
  - cbn [in_order] in O. destruct O as (O1 & O2 & O3 & O4).
    pose proof (h_last _ _ _ _ _ _ H) as L. pose proof (h_base _ _ _ _ _ _ H) as Bf.
    destruct (AddSymbol_packed f S (symbol_of (ticks time timestamp)) seq (h_packed _ _ _ _ _ _ H) C) as (g & A & Pg & M & Cg);
      [lia|lia|].
    destruct (received f base last time S D seq timestamp g _ H (or_intror (proj1 O1))
      (Unwrap_newer f seq ltac:(lia) ltac:(lia) ltac:(lia)) O3 eq_refl _ A Pg M) as (h & -> & Hh & HH).
    cbn [bind]. rewrite L in HH, Cg.
    destruct (IH h base seq (time + 250 * ticks time timestamp) _ _ HH) as (k & l' & t' & Ek & Hk & K); auto; try lia.
    { unfold counted in *. rewrite Cg, (moved_last _ _ _ M), (moved_base _ _ _ M), (h_last _ _ _ _ _ _ HH), (h_base _ _ _ _ _ _ HH). lia. }
    exists k, l', t'. split; [exact Ek|]. split; [exact (same_head_trans _ _ _ Hh Hk)|].
    destruct (report seq _ packets) as [sy de]. rewrite <- !app_assoc in K. exact K.
Qed.

(** ** The chunks *)

(** Chunks that hold [n] symbols, but for what the last one is filled up with;
    a run is no longer than what is left. *)
Fixpoint fits (n : Z) (cs : list PacketStatusChunk) : Prop :=
  match cs with
  | [] => n <= 0
  | c :: cs =>
      0 < n /\ match c with RunLengthChunk _ size => size <= n | _ => True end /\ fits (n - NumSymbols c) cs
  end.

Lemma zlen_decode_cons c cs : wf_chunk c -> zlen (decode (c :: cs)) = NumSymbols c + zlen (decode cs).
Proof. intros W. change (decode (c :: cs)) with (symbols_of c ++ decode cs). now rewrite zlen_app, zlen_symbols_of. Qed.

Lemma run_size c size s : wf_chunk c -> c = RunLengthChunk s size -> NumSymbols c = size.
Proof. intros W ->. cbn in *. apply u16_id. unfold in_u16. lia. Qed.

Lemma fits_app cs : forall n last,
  Forall wf_chunk cs -> zlen (decode cs) < n ->
  match last with
  | RunLengthChunk _ size => n = zlen (decode cs) + size
  | _ => n <= zlen (decode cs) + NumSymbols last
  end -> wf_chunk last -> fits n (cs ++ [last]).
Proof.
  induction cs as [|c cs IH]; intros n last W L M Wl; cbn [app fits].
  - change (zlen (decode [])) with 0 in *. split; [lia|].
    destruct last; cbn [NumSymbols] in *; try (split; [exact I|lia]).
    cbn in Wl. rewrite u16_id by (unfold in_u16; lia). lia.
  - inversion W as [|? ? Wc Wcs]; subst. rewrite zlen_decode_cons in L, M by assumption.
    pose proof (zlen_nonneg (decode cs)). pose proof (NumSymbols_pos c Wc).
    split; [lia|]. split.
    + destruct c; auto. rewrite (run_size _ size symbol Wc eq_refl) in *. lia.
    + apply IH; auto; [lia|]. destruct last; lia.
Qed.

Lemma fits_exact cs : forall n, Forall wf_chunk cs -> zlen (decode cs) = n -> fits n cs.
Proof.
  induction cs as [|c cs IH]; intros n W L; cbn [fits].
  - change (zlen (decode [])) with 0 in L. lia.
  - inversion W as [|? ? Wc Wcs]; subst. rewrite zlen_decode_cons by assumption.
    pose proof (zlen_nonneg (decode cs)). pose proof (NumSymbols_pos c Wc).
    split; [lia|]. split; [|apply IH; auto; lia].
    destruct c; auto. rewrite (run_size _ size symbol Wc eq_refl). lia.
Qed.

(** The symbols that are left go into a last chunk. *)
Lemma EmitRemaining_packed f S :
  packed f S -> zlen S <= 65535 ->
  exists g fill, EmitRemaining f = Ok g /\ repacked f g /\ Forall wf_chunk (status_chunks_ g) /\
    decode (status_chunks_ g) = S ++ fill /\ fits (zlen S) (status_chunks_ g) /\
    zlen (status_chunks_ g) = zlen (status_chunks_ f) + nonempty (symbol_vec_ f) /\
    size_bytes_ g = size_bytes_ f.
Proof.
  intros [D W Vo E Sv] L. unfold EmitRemaining. destruct (symbol_vec_ f) as [|s l] eqn:V.
  { exists f, []. cbn [pending] in D. rewrite app_nil_r in *. cbn [nonempty]. rewrite Z.add_0_r.
    repeat split; auto; [now destruct f|]. apply fits_exact; [assumption|now rewrite D]. }
  cbn [pending_ok pending nonempty] in *. destruct Vo as (Sm & C & Sh).
  set (card := first_symbol_cardinality_ f) in *. set (two := vec_needs_two_bit_symbols_ f) in *.
  rewrite capacity_cap. fold two. pose proof (zlen_nonneg l).
  destruct (Z.ltb_spec (cap two) card) as [R|R].
  - unfold EmitRunLengthChunk. rewrite V. exists (set_symbols f (status_chunks_ f ++ [RunLengthChunk s card]) []
      card two (size_bytes_ f)), []. split; [reflexivity|]. split; [reflexivity|].
    cbn [set_symbols status_chunks_ size_bytes_]. rewrite app_nil_r.
    assert (Wl : wf_chunk (RunLengthChunk s card)) by (cbn; lia).
    repeat split.
    + apply Forall_app. split; [assumption|]. constructor; [exact Wl|constructor].
    + rewrite decode_app. cbn. rewrite app_nil_r. exact D.
    + assert (Z : zlen S = zlen (decode (status_chunks_ f)) + card)
        by (rewrite <- D, zlen_app, zlen_repeat; lia).
      apply fits_app; auto; lia.
    + now rewrite zlen_app.
  - assert (Zv : zlen (s :: l) <= cap two).
    { destruct Sh as [Sh|Sh]; [rewrite Sh, zlen_repeat; lia|lia]. }
    unfold EmitVectorChunk. fold two. rewrite V, take_symbols_spec.
    set (n := if two then 7%nat else 14%nat).
    assert (N : Z.of_nat n = cap two) by (subst n; destruct two; reflexivity).
    rewrite skipn_all2, firstn_all2 by (unfold zlen in Zv; lia).
    set (fill := repeat kNotReceived (n - length (s :: l))).
    set (c := if two then _ else _).
    assert (Wc : wf_chunk c /\ symbols_of c = (s :: l) ++ fill /\ NumSymbols c = cap two).
    { assert (Ln : length ((s :: l) ++ fill) = n)
        by (rewrite length_app; subst fill; rewrite repeat_length; unfold zlen in Zv; lia).
      subst c n. destruct two; cbn [wf_chunk]; (split; [|split; reflexivity]); [exact Ln|]. split; [exact Ln|].
      apply Forall_app. split; [now apply Sm|]. subst fill. apply Forall_forall. intros x I.
      apply repeat_spec in I. subst x. discriminate. }
    destruct Wc as (Wc & Sc & Nc).
    eexists _, fill. split; [reflexivity|]. split; [reflexivity|].
    cbn [set_symbols status_chunks_ size_bytes_].
    repeat split.
    + apply Forall_app. split; [assumption|]. constructor; [exact Wc|constructor].
    + rewrite decode_app. unfold decode at 2. cbn [map concat]. rewrite Sc, app_nil_r, app_assoc. now rewrite D.
    + assert (Z : zlen S = zlen (decode (status_chunks_ f)) + zlen (s :: l)) by (now rewrite <- D, zlen_app).
      rewrite zlen_cons in *. apply fits_app; auto; [lia|]. rewrite Nc.
      subst c. destruct two; lia.
    + now rewrite zlen_app.
Qed.

(** ** Reading the chunks and the deltas *)

Definition chunk_bytes (cs : list PacketStatusChunk) : list Z := concat (map WriteTo cs).

Lemma zlen_chunk_bytes cs : zlen (chunk_bytes cs) = 2 * zlen cs.
Proof.
  induction cs as [|c cs IH]; [reflexivity|]. unfold chunk_bytes. cbn [map concat].
  rewrite zlen_app, length_WriteTo, zlen_cons. fold (chunk_bytes cs). lia.
Qed.

Lemma read_chunks_written cs : forall fuel pre post o index end_index n count read,
  Forall wf_chunk cs -> fits (n - count) cs -> (length cs < fuel)%nat ->
  zlen pre = o + index -> index + 2 * zlen cs <= end_index ->
  read_chunks fuel (pre ++ chunk_bytes cs ++ post) o index end_index n count read =
    Ok (Some (index + 2 * zlen cs, read ++ cs)).
Proof.
  induction cs as [|c cs IH]; intros fuel pre post o index end_index n count read W F L P E;
    destruct fuel as [|fuel]; cbn [length] in L; try lia; cbn [fits] in F.
  - cbn [read_chunks]. replace (count <? n) with false by lia. rewrite (@zlen_nil PacketStatusChunk), app_nil_r.
    do 3 f_equal. lia.
  - destruct F as (F1 & F2 & F3). inversion W as [|? ? Wc Wcs]; subst. cbn [read_chunks].
    replace (count <? n) with true by lia. rewrite zlen_cons in *. pose proof (zlen_nonneg cs).
    replace (end_index <? index + 2) with false by lia. rewrite <- P.
    change (chunk_bytes (c :: cs)) with (WriteTo c ++ chunk_bytes cs). rewrite <- app_assoc.
    destruct (ParseChunk_WriteTo pre c (chunk_bytes cs ++ post) (n - count) Wc) as [-> _];
      [destruct c; auto|]. cbn [bind].
    rewrite app_assoc, IH; auto; try lia.
    + rewrite <- app_assoc. cbn [app]. do 3 f_equal. lia.
    + now replace (n - (count + NumSymbols c)) with (n - count - NumSymbols c) by lia.
    + rewrite zlen_app, length_WriteTo. lia.
Qed.

(** The deltas of the symbols: one for each packet received, its size that of
    the symbol. *)
Inductive agree : list StatusSymbol -> list Z -> Prop :=
| agree_nil : agree [] []
| agree_none S D : agree S D -> agree (kNotReceived :: S) D
| agree_delta d S D : in_s16 d -> agree S D -> agree (symbol_of d :: S) (d :: D).

Lemma agree_app S D S' D' : agree S D -> agree S' D' -> agree (S ++ S') (D ++ D').
Proof. induction 1; intros A; cbn [app]; [assumption|constructor; auto|constructor; auto]. Qed.

Lemma agree_statuses last seq d : in_s16 d -> agree (statuses last seq (symbol_of d)) [d].
Proof.
  intros R. unfold statuses. change [d] with ([] ++ [d]). apply agree_app.
  - induction (Z.to_nat _); cbn [repeat]; constructor; assumption.
  - constructor; [assumption|constructor].
Qed.

Lemma report_agree packets : forall base last time,
  in_order base last time packets -> let (S, D) := report last time packets in agree S D.
Proof.
  induction packets as [|[seq timestamp] packets IH]; intros base last time O; cbn [report]; [constructor|].
  cbn [in_order] in O. destruct O as (O1 & O2 & O3 & O4).
  specialize (IH base seq (time + 250 * ticks time timestamp) O4). destruct (report seq _ packets) as [S D].
  change (ticks time timestamp :: D) with ([ticks time timestamp] ++ D).
  apply agree_app; [now apply agree_statuses|exact IH].
Qed.

Definition deltas_bytes (D : list Z) : list Z := concat (map delta_bytes D).

Lemma symbol_of_cases d :
  (0 <= d <= 255 /\ symbol_of d = kReceivedSmallDelta /\ delta_bytes d = [d]) \/
  (symbol_of d = kReceivedLargeDelta /\ delta_bytes d = bytes16 d).
Proof.
  unfold symbol_of, delta_bytes. destruct ((0 <=? d) && (d <=? 0xFF)) eqn:E; [left|right; auto].
  apply andb_true_iff in E as [A B]. rewrite u8_id by (unfold in_u8; lia). split; [lia|auto].
Qed.

Lemma zlen_deltas_bytes S D : agree S D -> zlen (deltas_bytes D) = deltas_size S.
Proof.
  induction 1 as [|S D A IH|d S D R A IH]; cbn [deltas_size delta_size]; [reflexivity|assumption|].
  unfold deltas_bytes in *. cbn [map concat]. rewrite zlen_app, IH.
  destruct (symbol_of_cases d) as [(_ & -> & ->)|(-> & ->)]; reflexivity.
Qed.

Lemma be16_bytes16 pre v post : be16 (pre ++ bytes16 v ++ post) (zlen pre) = Ok (u16 v).
Proof.
  rewrite <- (Z.add_0_r (zlen pre)), be16_mid by (rewrite ?zlen_bytes16; lia). f_equal.
  unfold b16, bytes16. change (rd [_; _] 0) with (u8 (Z.shiftr v 8)). change (rd [_; _] (0 + 1)) with (u8 v).
  rewrite shiftr_div by lia. unfold u8, u16. change (2 ^ 8) with 256. Z.to_euclidean_division_equations. lia.
Qed.

Lemma read_deltas_written S D : agree S D -> forall pre post o index end_index read,
  zlen pre = o + index -> index + deltas_size S <= end_index ->
  read_deltas (pre ++ deltas_bytes D ++ post) o index end_index S read =
    Ok (Some (index + deltas_size S, read ++ D)).
Proof.
  induction 1 as [|S D A IH|d S D R A IH]; intros pre post o index end_index read P E;
    cbn [deltas_size] in *.
  - cbn [read_deltas]. now rewrite app_nil_r, Z.add_0_r.
  - cbn [read_deltas delta_size] in *. apply IH; assumption.
  - pose proof (deltas_size_range S) as Ds.
    change (deltas_bytes (d :: D)) with (delta_bytes d ++ deltas_bytes D). rewrite <- app_assoc.
    destruct (symbol_of_cases d) as [(B & Es & Eb)|(Es & Eb)]; rewrite Es, Eb in *;
      cbn [read_deltas delta_size] in *; rewrite <- P.
    + replace (end_index <? index + 1) with false by lia.
      rewrite <- (Z.add_0_r (zlen pre)), byte_mid by (cbn; lia). cbn [bind]. change (rd [d] 0) with d.
      rewrite app_assoc, IH, <- app_assoc; [cbn [app]; do 3 f_equal; lia|rewrite zlen_app; cbn; lia|lia].
    + replace (end_index <? index + 2) with false by lia.
      rewrite be16_bytes16. cbn [bind].
      rewrite app_assoc, IH, <- app_assoc; [cbn [app]|rewrite zlen_app, zlen_bytes16; lia|lia].
      do 3 f_equal; [lia|]. do 2 f_equal. unfold in_s16, s16, u16 in *.
      Z.to_euclidean_division_equations. lia.
Qed.

(** ** Writing *)

Lemma put_wrote l m w : room (zlen l + zlen m) w -> put m (wrote l w) = Ok (wrote (l ++ m) w).
Proof.
  intros R. rewrite put_writes by (apply room_wrote; [exact R|apply zlen_nonneg]). now rewrite wrote_app.
Qed.

Lemma put_all_wrote ls : forall l w, room (zlen l + zlen (concat ls)) w ->
  put_all ls (wrote l w) = Ok (wrote (l ++ concat ls) w).
Proof.
  induction ls as [|m ls IH]; intros l w R; cbn [put_all concat] in *; [now rewrite app_nil_r|].
  rewrite zlen_app in R. pose proof (zlen_nonneg (concat ls)).
  rewrite put_wrote by (eapply room_le; [exact R|lia]). cbn [bind].
  rewrite IH by (rewrite zlen_app; eapply room_le; [exact R|lia]). now rewrite app_assoc.
Qed.

Lemma pad_wrote fuel l w : let n := (- (index w + zlen l)) mod 4 in
  n <= Z.of_nat fuel -> room (zlen l + n) w -> pad fuel (wrote l w) = Ok (wrote (l ++ zeros n) w).
Proof.
  cbv zeta. revert l. induction fuel as [|fuel IH]; intros l F R; cbn [pad]; change (index (wrote l w)) with (index w + zlen l).
  - assert (E : (index w + zlen l) mod 4 = 0 /\ (- (index w + zlen l)) mod 4 = 0)
      by (Z.to_euclidean_division_equations; lia). destruct E as [-> ->].
    cbn. now rewrite app_nil_r.
  - destruct (Z.eqb_spec ((index w + zlen l) mod 4) 0) as [E|E].
    + replace (- (index w + zlen l) mod 4) with 0 by (Z.to_euclidean_division_equations; lia).
      cbn. now rewrite app_nil_r.
    + set (n := - (index w + zlen l) mod 4) in *.
      assert (N : 1 <= n /\ - (index w + zlen (l ++ [0])) mod 4 = n - 1).
      { rewrite zlen_app. change (zlen [0]) with 1. subst n. Z.to_euclidean_division_equations. lia. }
      destruct N as [N1 N2].
      rewrite put_wrote by (eapply room_le; [exact R|cbn; lia]). cbn [bind].
      rewrite IH; rewrite ?N2; [|lia|rewrite zlen_app; eapply room_le; [exact R|change (zlen [0]) with 1; lia]].
      rewrite <- app_assoc. do 3 f_equal. unfold zeros.
      replace (Z.to_nat n) with (S (Z.to_nat (n - 1))) by lia. reflexivity.
Qed.

Definition head_bytes (f : TransportFeedback) (size : Z) : list Z :=
  [0x8F; 205] ++ bytes16 (HeaderLength size) ++ bytes32 (packet_sender_ssrc_ f) ++ bytes32 (media_source_ssrc_ f) ++
  bytes16 (base_seq_ f) ++ bytes16 (last_seq_ f - base_seq_ f + 1) ++ bytes24 (base_time_ f) ++ [u8 (feedback_seq_ f)].
Lemma zlen_head f size : zlen (head_bytes f size) = 20.
Proof. reflexivity. Qed.

(** The bytes of a message whose chunks are complete. *)
Definition message (f : TransportFeedback) (size : Z) : list Z :=
  head_bytes f size ++ chunk_bytes (status_chunks_ f) ++ deltas_bytes (receive_deltas_ f) ++ zeros ((- size) mod 4).

(** The size of the written message: that of the fields, filled up to words. *)
Definition padded (n : Z) : Z := n + (- n) mod 4.
Lemma padded_words n : padded n = 4 * ((n + 3) / 4).
Proof. unfold padded. Z.to_euclidean_division_equations. lia. Qed.

Lemma Create_written f S max w w' :
  packed f S -> zlen S <= 65535 -> agree S (receive_deltas_ f) -> base_seq_ f <> -1 ->
  MakeRoom (size_bytes_ f) max w = (true, w') -> index w' mod 4 = 0 -> room (padded (size_bytes_ f)) w' ->
  exists g fill, Create f max w = Ok (true, wrote (message g (size_bytes_ f)) w', g) /\ repacked f g /\
    Forall wf_chunk (status_chunks_ g) /\ decode (status_chunks_ g) = S ++ fill /\
    fits (zlen S) (status_chunks_ g) /\ zlen (message g (size_bytes_ f)) = padded (size_bytes_ f) /\
    size_bytes_ f = 20 + 2 * zlen (status_chunks_ g) + deltas_size S.
Proof.
  intros P L A B M I R. destruct (EmitRemaining_packed f S P L) as (g & fill & E & Rg & W & D & F & Zc & _).
  pose proof (pk_size f S P) as Sz. rewrite <- Zc in Sz.
  pose proof (zlen_deltas_bytes S _ A) as Zd. pose proof (zlen_chunk_bytes (status_chunks_ g)) as Zb.
  assert (Dg : receive_deltas_ g = receive_deltas_ f) by (now rewrite Rg).
  exists g, fill. unfold Create. replace (base_seq_ f =? -1) with false by lia. rewrite M. cbn [negb].
  set (size := size_bytes_ f) in *. unfold padded in R.
  assert (N : 0 <= (- size) mod 4) by (apply Z.mod_pos_bound; lia).
  pose proof (zlen_nonneg (status_chunks_ g)). pose proof (deltas_size_range S).
  assert (Rm : forall n, n <= size -> room n w') by (intros n Hn; eapply room_le; [exact R|lia]).
  unfold CreateHeader, AssignUWord8, AssignUWord16.
  rewrite put_writes by (apply Rm; cbn; lia). cbn [bind].
  repeat (rewrite put_wrote by (apply Rm; cbn; lia); cbn [bind]).
  rewrite E. cbn [bind].
  match goal with |- context [wrote ?l w'] => assert (Hh : l = head_bytes g size) by (now rewrite Rg); rewrite Hh end.
  fold (chunk_bytes (status_chunks_ g)) in *.
  rewrite put_all_wrote by (fold (chunk_bytes (status_chunks_ g)); rewrite zlen_head; apply Rm; lia). cbn [bind].
  fold (chunk_bytes (status_chunks_ g)). rewrite Dg.
  rewrite put_all_wrote by (fold (deltas_bytes (receive_deltas_ f)); rewrite zlen_app, zlen_head; apply Rm; lia). cbn [bind].
  fold (deltas_bytes (receive_deltas_ f)).
  assert (Zm : zlen ((head_bytes g size ++ chunk_bytes (status_chunks_ g)) ++ deltas_bytes (receive_deltas_ f)) = size)
    by (rewrite !zlen_app, zlen_head; lia).
  assert (Md : (- (index w' + size)) mod 4 = (- size) mod 4) by (clear - I; Z.to_euclidean_division_equations; lia).
  rewrite pad_wrote; rewrite Zm, Md; [|pose proof (Z.mod_pos_bound (- size) 4); lia|exact R]. cbn [bind].
  unfold message. rewrite Dg, <- !app_assoc. repeat split; auto.
  rewrite !zlen_app in *. rewrite zlen_zeros by assumption. unfold padded. lia.
Qed.

(** ** Parsing what was written *)

Lemma two_bytes v : u8 (Z.shiftr v 8) * 256 + u8 v = u16 v.
Proof. rewrite shiftr_div by lia. unfold u8, u16. change (2 ^ 8) with 256. Z.to_euclidean_division_equations. lia. Qed.
Lemma three_bytes v : (u8 (Z.shiftr v 16) * 256 + u8 (Z.shiftr v 8)) * 256 + u8 v = v mod 16777216.
Proof.
  rewrite !shiftr_div by lia. unfold u8. change (2 ^ 8) with 256. change (2 ^ 16) with 65536.
  Z.to_euclidean_division_equations. lia.
Qed.
Lemma four_bytes v :
  (u8 (Z.shiftr v 24) * 256 + u8 (Z.shiftr v 16)) * 65536 + (u8 (Z.shiftr v 8) * 256 + u8 v) = u32 v.
Proof.
  rewrite !shiftr_div by lia. unfold u8, u32. change (2 ^ 8) with 256. change (2 ^ 16) with 65536.
  change (2 ^ 24) with 16777216. Z.to_euclidean_division_equations. lia.
Qed.

(** The fields are those the message has room for. *)
Record in_range (f : TransportFeedback) : Prop := {
  r_sender : in_u32 (packet_sender_ssrc_ f);
  r_media : in_u32 (media_source_ssrc_ f);
  r_base : in_u16 (base_seq_ f);
  r_feedback : in_u8 (feedback_seq_ f);
  r_time : -8388608 <= base_time_ f < 8388608
}.

(** What the parser makes of the message of [f]. *)
Definition parsed (f : TransportFeedback) : TransportFeedback :=
  mk_feedback (packet_sender_ssrc_ f) (media_source_ssrc_ f) (base_seq_ f) (base_time_ f) (feedback_seq_ f)
    (status_chunks_ f) (receive_deltas_ f) (last_seq_ f) (-1) [] 0 false 20.

Lemma header_written pre f size post length :
  0 <= size <= 149823 -> 20 <= padded size <= length ->
  RtcpParseCommonHeader (pre ++ head_bytes f size ++ post) (zlen pre) length =
    Ok (Some (mk_header 2 15 205 (padded size - 4) 0)).
Proof.
  intros B L. rewrite padded_words in *. unfold RtcpParseCommonHeader, RtcpCommon.kHeaderSizeBytes.
  replace (length <? 4) with false by lia. rewrite <- (Z.add_0_r (zlen pre)) at 1.
  rewrite !byte_mid, be16_mid by (rewrite ?zlen_head; lia). cbn [bind].
  assert (E : b16 (head_bytes f size) 2 = (size + 3) / 4 - 1).
  { change (b16 (head_bytes f size) 2) with (u8 (Z.shiftr (HeaderLength size) 8) * 256 + u8 (HeaderLength size)).
    rewrite two_bytes. apply u16_id. unfold in_u16, HeaderLength. Z.to_euclidean_division_equations. lia. }
  rewrite E. change (rd (head_bytes f size) 0) with 0x8F. change (rd (head_bytes f size) 1) with 205.
  change (negb (Z.shiftr 0x8F 6 =? 2)) with false. change (negb (Z.land 0x8F 0x20 =? 0)) with false.
  change (Z.land 0x8F 0x1F) with 15. cbv iota.
  replace (length <? ((size + 3) / 4 - 1 + 1) * 4) with false by lia. do 3 f_equal. lia.
Qed.

Lemma ParseFrom_written f S fill size pre post :
  in_range f -> S <> [] -> counted f S -> zlen S <= 65535 -> agree S (receive_deltas_ f) ->
  Forall wf_chunk (status_chunks_ f) -> decode (status_chunks_ f) = S ++ fill -> fits (zlen S) (status_chunks_ f) ->
  size = 20 + 2 * zlen (status_chunks_ f) + deltas_size S -> size <= 149823 ->
  ParseFrom (pre ++ message f size ++ post) (zlen pre) (padded size) = Ok (Some (parsed f)) /\
  GetStatusVector (parsed f) = Ok S.
Proof.
  intros Rf NS C L A W D F E B. unfold counted in C.
  assert (V : GetStatusVector (parsed f) = Ok S).
  { unfold GetStatusVector, parsed. cbn [status_chunks_ last_seq_ base_seq_]. rewrite <- C, fold_decode, D.
    cbn [app]. pose proof (zlen_nonneg S). pose proof (zlen_nonneg fill). rewrite zlen_app.
    replace ((0 <=? zlen S) && _) with true by lia.
    unfold zlen. rewrite Nat2Z.id, firstn_app, Nat.sub_diag, firstn_all. cbn [firstn]. now rewrite app_nil_r. }
  split; [|exact V].
  pose proof (zlen_deltas_bytes S _ A) as Zd. pose proof (zlen_chunk_bytes (status_chunks_ f)) as Zb.
  pose proof (zlen_nonneg (status_chunks_ f)). pose proof (deltas_size_range S).
  assert (Pd : size <= padded size) by (unfold padded; pose proof (Z.mod_pos_bound (- size) 4); lia).
  assert (One : 1 <= zlen (status_chunks_ f)).
  { destruct S as [|s S]; [congruence|]. destruct (status_chunks_ f); [discriminate|]. rewrite zlen_cons. pose proof (zlen_nonneg l). lia. }
  assert (ZS : 1 <= zlen S) by (destruct S as [|s S]; [congruence|]; rewrite zlen_cons; pose proof (zlen_nonneg S); lia).
  unfold message. rewrite <- app_assoc.
  set (tail := (chunk_bytes _ ++ _) ++ post). unfold ParseFrom, kMinSizeBytes, kHeaderSizeBytes, kChunkSizeBytes.
  replace (padded size <? 20 + 2) with false by lia.
  rewrite header_written by lia. cbn [bind count_or_format packet_type payload_size_bytes].
  change (negb (15 =? kFeedbackMessageType)) with false. change (negb (205 =? kPayloadType)) with false. cbv iota.
  rewrite !be32_mid, !be16_mid, !byte_mid by (rewrite ?zlen_head; lia). cbn [bind].
  change (b32 (head_bytes f size) 4) with ((u8 (Z.shiftr (packet_sender_ssrc_ f) 24) * 256 + u8 (Z.shiftr (packet_sender_ssrc_ f) 16)) * 65536 + (u8 (Z.shiftr (packet_sender_ssrc_ f) 8) * 256 + u8 (packet_sender_ssrc_ f))).
  change (b32 (head_bytes f size) 8) with ((u8 (Z.shiftr (media_source_ssrc_ f) 24) * 256 + u8 (Z.shiftr (media_source_ssrc_ f) 16)) * 65536 + (u8 (Z.shiftr (media_source_ssrc_ f) 8) * 256 + u8 (media_source_ssrc_ f))).
  change (b16 (head_bytes f size) 12) with (u8 (Z.shiftr (base_seq_ f) 8) * 256 + u8 (base_seq_ f)).
  change (b16 (head_bytes f size) 14) with (u8 (Z.shiftr (last_seq_ f - base_seq_ f + 1) 8) * 256 + u8 (last_seq_ f - base_seq_ f + 1)).
  change (b16 (head_bytes f size) 16 * 256 + rd (head_bytes f size) 18) with
    ((u8 (Z.shiftr (base_time_ f) 16) * 256 + u8 (Z.shiftr (base_time_ f) 8)) * 256 + u8 (base_time_ f)).
  change (rd (head_bytes f size) 19) with (u8 (feedback_seq_ f)).
  rewrite !four_bytes, !two_bytes, three_bytes, <- C.
  destruct Rf as [R1 R2 R3 R4 R5].
  rewrite !u32_id, (u16_id (base_seq_ f)), (u16_id (zlen S)), u8_id by (assumption || (unfold in_u16; lia)).
  replace (zlen S =? 0) with false by lia.
  assert (T : s24 (base_time_ f mod 16777216) = base_time_ f)
    by (unfold s24; clear - R5; Z.to_euclidean_division_equations; lia).
  rewrite T.
  assert (P1 : pre ++ head_bytes f size ++ tail = (pre ++ head_bytes f size) ++ chunk_bytes (status_chunks_ f) ++
    (deltas_bytes (receive_deltas_ f) ++ zeros ((- size) mod 4) ++ post)) by (subst tail; now rewrite <- !app_assoc).
  assert (P2 : pre ++ head_bytes f size ++ tail = ((pre ++ head_bytes f size) ++ chunk_bytes (status_chunks_ f)) ++
    deltas_bytes (receive_deltas_ f) ++ (zeros ((- size) mod 4) ++ post)) by (subst tail; now rewrite <- !app_assoc).
  rewrite P1 at 1.
  rewrite read_chunks_written; try assumption; try lia.
  - cbn [bind app].
    replace (mk_feedback _ _ _ _ _ _ _ _ _ _ _ _ _) with (set_deltas (parsed f) [] (-1))
      by (unfold parsed, set_deltas; cbn; f_equal; lia).
    change (GetStatusVector (set_deltas (parsed f) [] (-1))) with (GetStatusVector (parsed f)). rewrite V. cbn [bind].
    rewrite P2.
    rewrite (read_deltas_written S); [reflexivity|assumption|rewrite !zlen_app, zlen_head; lia|lia].
  - replace (zlen S - 0) with (zlen S) by lia. assumption.
  - unfold zlen in *. lia.
  - now rewrite zlen_app, zlen_head.
Qed.

(** ** The packets a report names *)

(** The packets received, with their times, as a reader of the statuses and the
    deltas finds them. *)
Fixpoint arrivals (seq time : Z) (symbols : list StatusSymbol) (deltas : list Z) : list (Z * Z) :=
  match symbols with
  | [] => []
  | kNotReceived :: symbols => arrivals (seq + 1) time symbols deltas
  | _ :: symbols =>
      match deltas with
      | [] => []
      | delta :: deltas =>
          (seq, time + 250 * delta) :: arrivals (seq + 1) (time + 250 * delta) symbols deltas
      end
  end.

(** The same packet, at the same time but for half a tick. *)
Definition near (a b : Z * Z) : Prop := fst a = fst b /\ Z.abs (snd a - snd b) <= 125.

Lemma arrivals_received seq time d symbols deltas :
  arrivals seq time (symbol_of d :: symbols) (d :: deltas) =
    (seq, time + 250 * d) :: arrivals (seq + 1) (time + 250 * d) symbols deltas.
Proof. destruct (symbol_of_cases d) as [(_ & -> & _)|(-> & _)]; reflexivity. Qed.

Lemma arrivals_missing n : forall seq time symbols deltas,
  arrivals seq time (repeat kNotReceived n ++ symbols) deltas = arrivals (seq + Z.of_nat n) time symbols deltas.
Proof.
  induction n as [|n IH]; intros; cbn [repeat app arrivals]; [now rewrite Z.add_0_r|].
  rewrite IH. f_equal. lia.
Qed.

Lemma arrivals_report packets : forall base last time, in_order base last time packets ->
  let (S, D) := report last time packets in Forall2 near packets (arrivals (last + 1) time S D).
Proof.
  induction packets as [|[seq timestamp] packets IH]; intros base last time O; cbn [report]; [constructor|].
  cbn [in_order] in O. destruct O as (O1 & O2 & O3 & O4). specialize (IH _ _ _ O4).
  destruct (report seq _ packets) as [S D]. unfold statuses. rewrite <- app_assoc, arrivals_missing.
  replace (last + 1 + Z.of_nat _) with seq by lia. cbn [app]. rewrite arrivals_received.
  constructor; [|exact IH]. pose proof (ticks_near time timestamp). unfold near. cbn [fst snd]. lia.
Qed.

Lemma zlen_report packets : forall base last time, in_order base last time packets -> last - base <= 65534 ->
  zlen (fst (report last time packets)) <= 65534 - (last - base).
Proof.
  induction packets as [|[seq timestamp] packets IH]; intros base last time O L; cbn [report].
  - cbn [fst]. rewrite (@zlen_nil StatusSymbol). lia.
  - cbn [in_order] in O. destruct O as (O1 & O2 & O3 & O4). specialize (IH _ _ _ O4 O2).
    destruct (report seq _ packets) as [S D]. cbn [fst] in *. rewrite zlen_app, zlen_statuses by lia. lia.
Qed.

(** A new message about the packets from [base] on. *)
Definition started (sender media feedback base ref : Z) : TransportFeedback :=
  WithBase (WithFeedbackSequenceNumber (WithMediaSourceSsrc (WithPacketSenderSsrc new_TransportFeedback sender)
    media) feedback) base ref.

Lemma feed_started sender media feedback base ref t0 packets :
  let time0 := Z.quot ref kBaseScaleFactor * kBaseScaleFactor in
  let f := started sender media feedback base ref in
  in_u16 base -> in_s16 (ticks time0 t0) -> in_order base base (time0 + 250 * ticks time0 t0) packets ->
  exists h S last time', feed f ((base, t0) :: packets) = Ok (true, h) /\ same_head f h /\
    holds h base last time' S (receive_deltas_ h) /\ counted h S /\ S <> [] /\ zlen S <= 65535 /\
    agree S (receive_deltas_ h) /\ Forall2 near ((base, t0) :: packets) (arrivals base time0 S (receive_deltas_ h)).
Proof.
  cbv zeta. intros B R O. set (time0 := Z.quot ref kBaseScaleFactor * kBaseScaleFactor) in *.
  set (f := started _ _ _ _ _). cbn [feed].
  assert (H0 : holds f base base time0 [] []) by (constructor; try reflexivity; constructor; try reflexivity; constructor).
  destruct (AddSymbol_first f (symbol_of (ticks time0 t0)) (h_packed _ _ _ _ _ _ H0) eq_refl) as (g & A & Pg & M & Cg).
  change (base_seq_ f) with base in A, M.
  destruct (received f base base time0 [] [] base t0 g _ H0 (or_introl eq_refl) (Unwrap_same f B) R eq_refl _ A Pg M)
    as (h & -> & Hh & HH). cbn [bind].
  assert (Ch : counted h [symbol_of (ticks time0 t0)])
    by (unfold counted; rewrite (h_last _ _ _ _ _ _ HH), (h_base _ _ _ _ _ _ HH); cbn; lia).
  destruct (feed_holds packets h base base _ _ _ HH Ch) as (k & l' & t' & Ek & Hk & K); try (unfold in_u16 in B; lia); [exact O|].
  pose proof (zlen_report _ _ _ _ O ltac:(lia)) as Zr. pose proof (report_agree _ _ _ _ O) as Ag. pose proof (arrivals_report _ _ _ _ O) as Ar.
  destruct (report base _ packets) as [S D]. destruct K as [K Ck]. rewrite Ek. cbn [app] in *.
  exists k, (symbol_of (ticks time0 t0) :: S), l', t'. pose proof (h_deltas _ _ _ _ _ _ K) as Dk.
  split; [reflexivity|]. split; [exact (same_head_trans _ _ _ Hh Hk)|]. split; [now rewrite Dk|].
  split; [exact Ck|]. split; [discriminate|]. rewrite Dk.
  split; [|split; [now constructor|]].
  - rewrite zlen_cons. cbn [fst] in Zr. lia.
  - rewrite arrivals_received. constructor; [|exact Ar].
    pose proof (ticks_near time0 t0). unfold near. cbn [fst snd]. lia.
Qed.

Lemma holds_in_range f h base last time S D sender media feedback ref :
  f = started sender media feedback base ref -> same_head f h -> holds h base last time S D ->
  in_u32 sender -> in_u32 media -> in_u16 base -> in_u8 feedback ->
  -8388608 <= Z.quot ref kBaseScaleFactor < 8388608 -> in_range h.
Proof.
  intros -> (E1 & E2 & E3 & E4) H R1 R2 R3 R4 R5.
  constructor; rewrite ?E1, ?E2, ?E3, ?E4, ?(h_base _ _ _ _ _ _ H); assumption.
Qed.

(** C4. The round trip of a feedback message.  A message is started at a base
    number and time and is given, each in the order of the numbers, the packets
    that arrived, the first being the base; consecutive ones are less than
    32,768 apart, all within 65,535 numbers, and their times, in ticks of 250
    microseconds, are within a signed 16-bit number of each other.  Then every
    packet is accepted; the message is written, into any place on a word
    boundary with room for it, as exactly the bytes its length announces, after
    those already there; and the parser reads from them the ids, the base and a
    report that names exactly the packets that were given, each with its
    time to within half a tick. *)
Theorem feedback_roundtrip sender media feedback base ref t0 packets :
  let time0 := Z.quot ref kBaseScaleFactor * kBaseScaleFactor in
  in_u32 sender -> in_u32 media -> in_u16 base -> in_u8 feedback ->
  -8388608 <= Z.quot ref kBaseScaleFactor < 8388608 ->
  in_s16 (ticks time0 t0) -> in_order base base (time0 + 250 * ticks time0 t0) packets ->
  exists f, feed (started sender media feedback base ref) ((base, t0) :: packets) = Ok (true, f) /\
  forall max w w', MakeRoom (BlockLength f) max w = (true, w') -> index w' mod 4 = 0 ->
    room (padded (BlockLength f)) w' ->
    exists bytes f' g, Create f max w = Ok (true, wrote bytes w', f') /\
      zlen bytes = padded (BlockLength f) /\ written (wrote bytes w') = written w' ++ bytes /\
      ParseFrom (buffer (wrote bytes w')) (index w') (zlen bytes) = Ok (Some g) /\
      packet_sender_ssrc_ g = sender /\ media_source_ssrc_ g = media /\ feedback_seq_ g = feedback /\
      GetBaseSequence g = base /\ GetBaseTimeUs g = time0 /\
      exists symbols, GetStatusVector g = Ok symbols /\
        Forall2 near ((base, t0) :: packets) (arrivals base time0 symbols (GetReceiveDeltas g)).
Proof.
  cbv zeta. intros R1 R2 R3 R4 R5 R6 O.
  destruct (feed_started sender media feedback base ref t0 packets R3 R6 O)
    as (f & S & last' & time' & Ef & Hf & H & C & NS & L & A & N).
  exists f. split; [exact Ef|]. intros max w w' M I Rm. unfold BlockLength in *.
  pose proof (holds_in_range _ f base last' time' S _ sender media feedback ref eq_refl Hf H R1 R2 R3 R4 R5) as Rf.
  pose proof (h_packed _ _ _ _ _ _ H) as P. pose proof (h_base _ _ _ _ _ _ H) as B.
  destruct (Create_written f S max w w' P L A) as (g & fill & Ec & Rg & W & D & F & Zl & Sz); auto.
  { rewrite B. unfold in_u16 in R3. lia. }
  set (size := size_bytes_ f) in *.
  assert (Eg : receive_deltas_ g = receive_deltas_ f /\ last_seq_ g = last_seq_ f /\ base_seq_ g = base_seq_ f /\
    packet_sender_ssrc_ g = packet_sender_ssrc_ f /\ media_source_ssrc_ g = media_source_ssrc_ f /\
    feedback_seq_ g = feedback_seq_ f /\ base_time_ g = base_time_ f) by (rewrite Rg; repeat split).
  destruct Eg as (E1 & E2 & E3 & E4 & E5 & E6 & E7).
  pose proof (packed_size f S P ltac:(lia)) as Bs. fold size in Bs.
  set (a := slice (buffer w') 0 (index w')).
  assert (Za : zlen a = index w') by (destruct Rm as [Rm1 Rm2]; apply zlen_slice; unfold padded in Rm2; pose proof (Z.mod_pos_bound (- size) 4); lia).
  destruct (ParseFrom_written g S fill size a
    (slice (buffer w') (index w' + zlen (message g size)) (zlen (buffer w') - index w' - zlen (message g size))))
    as [Ep V]; auto; try lia.
  { destruct Rf. constructor; congruence. }
  { unfold counted. rewrite E2, E3. exact C. }
  { now rewrite E1. }
  exists (message g size), g, (parsed g). split; [exact Ec|]. split; [exact Zl|].
  split; [apply written_wrote; now rewrite Zl|]. split.
  { unfold wrote. cbn [buffer]. destruct Rm as [Rm1 Rm2]. rewrite blit_split by (rewrite ?Zl; lia). fold a.
    rewrite Zl. rewrite Zl, Za in Ep. exact Ep. }
  destruct Hf as (G1 & G2 & G3 & G4).
  unfold parsed, GetBaseSequence, GetBaseTimeUs. cbn [packet_sender_ssrc_ media_source_ssrc_ feedback_seq_ base_seq_ base_time_].
  rewrite E4, E5, E6, E7, G1, G2, G3, G4. do 3 (split; [reflexivity|]). split; [|split; [reflexivity|]].
  - rewrite E3, B. now apply u16_id.
  - exists S. split; [exact V|]. unfold GetReceiveDeltas, parsed. cbn [receive_deltas_]. rewrite E1. exact N.
Qed.

(** Packets that are missing, late, at large and small distances, and beyond
    the wrap of the numbers. *)
Definition sample_packets : list (Z * Z) :=
  [(65531, 64001000); (65532, 64031000); (65535, 64041000); (65538, 64080000); (65548, 64081000);
   (65576, 64081000); (65577, 64982000); (65578, 64982000)].

Lemma feedback_roundtrip_witness : exists (bytes : list Z) f f' g symbols w,
  feed (started 1 2 3 65530 64000000) ((65530, 64000100) :: sample_packets) = Ok (true, f) /\
  Create f 100 (new_Writer (zeros 100)) = Ok (true, w, f') /\
  ParseFrom (buffer w) 0 (zlen bytes) = Ok (Some g) /\ GetStatusVector g = Ok symbols /\
  Forall2 near ((65530, 64000100) :: sample_packets) (arrivals 65530 64000000 symbols (GetReceiveDeltas g)).
Proof.
  destruct (feedback_roundtrip 1 2 3 65530 64000000 64000100 sample_packets) as (f & E & K).
  1-7: (vm_compute; intuition discriminate).
  assert (B : BlockLength f = 38)
    by (revert E; vm_compute; intros H; injection H as <-; reflexivity).
  destruct (K 100 (new_Writer (zeros 100)) (new_Writer (zeros 100)))
    as (bytes & f' & g & Ec & _ & _ & Ep & _ & _ & _ & _ & _ & symbols & V & N);
    [rewrite B; reflexivity|reflexivity|rewrite B; vm_compute; intuition discriminate|].
  exists bytes, f, f', g, symbols, (wrote bytes (new_Writer (zeros 100))).
  repeat split; assumption.
Defined.

(** ** Parsing any bytes *)

(** What the parser can make of two bytes: a chunk with as many symbols as it
    says. *)
Definition full_chunk (c : PacketStatusChunk) : Prop := zlen (symbols_of c) = NumSymbols c.

Lemma ParseChunk_safe p o max_size : bytes p -> 0 <= o -> o + 2 <= zlen p ->
  exists r, ParseChunk p o max_size = Ok r /\ forall c, r = Some c -> full_chunk c /\ 0 <= NumSymbols c.
Proof.
  intros B O L. unfold ParseChunk. rewrite !Wire.byte_ok by lia. cbn [bind].
  destruct (negb (Z.land (rd p o) 0x80 =? 0)).
  - destruct (negb (Z.land (rd p o) 0x40 =? 0)); (eexists; split; [reflexivity|]; intros c [= <-]; split; [|cbn; lia]);
      reflexivity.
  - set (size := Z.lor (Z.shiftl (Z.land (rd p o) 0x1F) 8) (rd p (o + 1))).
    assert (S : 0 <= size < 65536).
    { pose proof (bytes_rd p (o + 1) B) as R. unfold in_u8 in R. change 65536 with (2 ^ 16). apply lor_lt_pow2; [lia| |lia].
      rewrite shiftl_mul by lia. change (Z.land (rd p o) 31) with (Z.land (rd p o) (2 ^ 5 - 1)). rewrite land_ones_mod by lia.
      pose proof (Z.mod_pos_bound (rd p o) (2 ^ 5)). lia. }
    eexists. split; [reflexivity|]. intros c. cbn [NumSymbols]. rewrite u16_id by exact S.
    destruct (max_size <? size); [discriminate|]. intros [= <-]. unfold full_chunk, symbols_of.
    cbn [AppendSymbolsTo app NumSymbols]. rewrite u16_id by exact S. rewrite zlen_repeat. lia.
Qed.

Lemma decode_snoc cs c : decode (cs ++ [c]) = decode cs ++ symbols_of c.
Proof. rewrite decode_app. unfold decode at 2. cbn [map concat]. now rewrite app_nil_r. Qed.

Lemma read_chunks_safe p o end_index n : bytes p -> 0 <= o -> o + end_index <= zlen p ->
  forall fuel index count chunks, 0 <= index -> Z.max 0 (end_index - index) < 2 * Z.of_nat fuel ->
  zlen (decode chunks) = count ->
  exists r, read_chunks fuel p o index end_index n count chunks = Ok r /\
    forall index' chunks', r = Some (index', chunks') -> index <= index' /\ n <= zlen (decode chunks').
Proof.
  intros B O L. induction fuel as [|fuel IH]; intros index count chunks I F C; [lia|]. cbn [read_chunks].
  destruct (Z.ltb_spec count n); [|eexists; split; [reflexivity|]; intros ? ? [= <- <-]; lia].
  destruct (Z.ltb_spec end_index (index + 2)); [eexists; split; [reflexivity|discriminate]|].
  destruct (ParseChunk_safe p (o + index) (n - count) B) as (c & -> & Hc); try lia. cbn [bind].
  destruct c as [c|]; [|eexists; split; [reflexivity|discriminate]]. destruct (Hc c eq_refl) as [Fc _].
  destruct (IH (index + 2) (count + NumSymbols c) (chunks ++ [c])) as (r & -> & Hr); try lia.
  - rewrite decode_snoc, zlen_app, Fc. lia.
  - exists r. split; [reflexivity|]. intros i' c' E. specialize (Hr i' c' E). lia.
Qed.

(** The packets received, of the statuses. *)
Fixpoint received_count (symbols : list StatusSymbol) : Z :=
  match symbols with
  | [] => 0
  | kNotReceived :: symbols => received_count symbols
  | _ :: symbols => 1 + received_count symbols
  end.

Lemma read_deltas_safe p o end_index symbols : bytes p -> 0 <= o -> o + end_index <= zlen p ->
  forall index deltas, 0 <= index ->
  exists r, read_deltas p o index end_index symbols deltas = Ok r /\
    forall index' deltas', r = Some (index', deltas') ->
      zlen deltas' = zlen deltas + received_count symbols /\ (Forall in_s16 deltas -> Forall in_s16 deltas').
Proof.
  intros B O L. induction symbols as [|[| |] symbols IH]; intros index deltas I; cbn [read_deltas received_count].
  - eexists. split; [reflexivity|]. intros ? ? [= <- <-]. split; [lia|auto].
  - now apply IH.
  - destruct (Z.ltb_spec end_index (index + 1)); [eexists; split; [reflexivity|discriminate]|].
    rewrite Wire.byte_ok by lia. cbn [bind]. pose proof (bytes_rd p (o + index) B) as R. unfold in_u8 in R.
    destruct (IH (index + 1) (deltas ++ [rd p (o + index)])) as (r & -> & Hr); [lia|].
    exists r. split; [reflexivity|]. intros i' d' E. destruct (Hr i' d' E) as [Z F]. rewrite zlen_app in Z.
    change (zlen [_]) with 1 in Z. split; [lia|]. intros D. apply F. apply Forall_app. split; [assumption|].
    constructor; [unfold in_s16; lia|constructor].
  - destruct (Z.ltb_spec end_index (index + 2)); [eexists; split; [reflexivity|discriminate]|].
    rewrite be16_ok by lia. cbn [bind].
    destruct (IH (index + 2) (deltas ++ [s16 (b16 p (o + index))])) as (r & -> & Hr); [lia|].
    exists r. split; [reflexivity|]. intros i' d' E. destruct (Hr i' d' E) as [Z F]. rewrite zlen_app in Z.
    change (zlen [_]) with 1 in Z. split; [lia|]. intros D. apply F. apply Forall_app. split; [assumption|].
    constructor; [apply s16_range|constructor].
Qed.

(** What the parser accepts. *)
Lemma ParseFrom_report p o length : bytes p -> 0 <= o -> o + length <= zlen p ->
  exists r, ParseFrom p o length = Ok r /\
    forall f, r = Some f -> exists symbols, GetStatusVector f = Ok symbols /\ 1 <= zlen symbols <= 65535 /\
      zlen (GetReceiveDeltas f) = received_count symbols /\ Forall in_s16 (GetReceiveDeltas f) /\
      in_u16 (base_seq_ f).
Proof.
  intros B O L. unfold ParseFrom, kMinSizeBytes, kHeaderSizeBytes, kChunkSizeBytes.
  destruct (Z.ltb_spec length (20 + 2)); [eexists; split; [reflexivity|discriminate]|].
  destruct (RtcpParseCommonHeader_safe p o length B O L) as (h & -> & Hh). cbn [bind].
  destruct h as [h|]; [|eexists; split; [reflexivity|discriminate]].
  destruct (Hh h eq_refl) as (H1 & H2 & H3 & H4 & _ & _ & _ & H5). clear Hh.
  destruct (negb _); [eexists; split; [reflexivity|discriminate]|].
  destruct (negb _); [eexists; split; [reflexivity|discriminate]|].
  rewrite !be32_ok, !be16_ok, !Wire.byte_ok by lia. cbn [bind].
  set (n := b16 p (o + 14)). pose proof (b16_range p (o + 14) B) as Rn. fold n in Rn. unfold in_u16 in Rn.
  pose proof (b16_range p (o + 12) B) as Rb.
  destruct (Z.eqb_spec n 0); [eexists; split; [reflexivity|discriminate]|].
  assert (E : 4 + payload_size_bytes h <= length) by lia.
  destruct (read_chunks_safe p o (4 + payload_size_bytes h) n B O ltac:(lia) (S (Z.to_nat length)) 20 0 [])
    as (r & -> & Hr); [lia|lia|reflexivity|]. cbn [bind].
  destruct r as [[index chunks]|]; [|eexists; split; [reflexivity|discriminate]].
  destruct (Hr index chunks eq_refl) as [I N]. clear Hr.
  set (f := mk_feedback _ _ _ _ _ _ _ _ _ _ _ _ _).
  assert (V : GetStatusVector f = Ok (firstn (Z.to_nat n) (decode chunks))).
  { unfold GetStatusVector, f. cbn [status_chunks_ last_seq_ base_seq_]. rewrite fold_decode. cbn [app].
    replace (b16 p (o + 12) + n - 1 - b16 p (o + 12) + 1) with n by lia.
    now replace ((0 <=? n) && (n <=? zlen (decode chunks))) with true by lia. }
  rewrite V. cbn [bind]. set (symbols := firstn _ _) in *.
  assert (Zs : zlen symbols = n) by (apply zlen_firstn; lia).
  destruct (read_deltas_safe p o (4 + payload_size_bytes h) symbols B O ltac:(lia) index []) as (r & -> & Hr); [lia|].
  cbn [bind]. destruct r as [[i' deltas]|]; [|eexists; split; [reflexivity|discriminate]].
  destruct (Hr i' deltas eq_refl) as [Zd Fd]. eexists. split; [reflexivity|]. intros g [= <-].
  exists symbols. split; [exact V|]. split; [lia|]. split; [exact Zd|]. split; [apply Fd; constructor|exact Rb].
Qed.

(** C18. The parser reads nothing outside the message and ends, whatever the
    bytes; and what it accepts is a report of between 1 and 65,535 packets with
    a delta for each packet that was received. *)
Theorem ParseFrom_safe p o length : bytes p -> 0 <= o -> o + length <= zlen p ->
  exists r, ParseFrom p o length = Ok r /\
    forall f, r = Some f -> exists symbols, GetStatusVector f = Ok symbols /\ 1 <= zlen symbols <= 65535 /\
      zlen (GetReceiveDeltas f) = received_count symbols /\ Forall in_s16 (GetReceiveDeltas f) /\
      in_u16 (base_seq_ f).
Proof. apply ParseFrom_report. Qed.

Lemma ParseFrom_safe_witness : exists r,
  ParseFrom [0x8F; 205; 0; 5; 0; 0; 0; 1; 0; 0; 0; 2; 0; 10; 0; 3; 0; 3; 232; 7; 0xC6; 0; 4; 255] 0 24 = Ok r /\
    forall f, r = Some f -> exists symbols, GetStatusVector f = Ok symbols /\ 1 <= zlen symbols <= 65535 /\
      zlen (GetReceiveDeltas f) = received_count symbols /\ Forall in_s16 (GetReceiveDeltas f) /\
      in_u16 (base_seq_ f).
Proof.
  apply ParseFrom_safe; [|lia|vm_compute; discriminate]. apply bytes_forallb. vm_compute. reflexivity.
Defined.

(** ** What is refused *)

(** A packet is refused, and nothing changes, when its unwrapped number is
    neither the base nor above the last one, or when its time is more than a
    signed 16-bit number of ticks away from that of the last packet. *)
Theorem received_refused f sequence_number timestamp :
  (Unwrap f sequence_number <> base_seq_ f /\ Unwrap f sequence_number <= last_seq_ f) \/
  ~ in_s16 (ticks (last_timestamp_ f) timestamp) ->
  WithReceivedPacket f sequence_number timestamp = Ok (false, f).
Proof.
  intros H. unfold WithReceivedPacket. cbv zeta.
  destruct (negb (Unwrap f sequence_number =? base_seq_ f) && (Unwrap f sequence_number <=? last_seq_ f)) eqn:E;
    [reflexivity|].
  change (Z.quot kDeltaScaleFactor 2) with 125. unfold kDeltaScaleFactor.
  change ((if timestamp - last_timestamp_ f <? 0 then timestamp - last_timestamp_ f - 125
           else timestamp - last_timestamp_ f + 125) ÷ 250) with (ticks (last_timestamp_ f) timestamp).
  set (d := ticks (last_timestamp_ f) timestamp) in *.
  destruct (Z.eqb_spec (s16 d) d) as [A|A]; [|reflexivity]. exfalso.
  pose proof (s16_range d) as R. rewrite A in R. destruct H as [[H1 H2]|H]; [|exact (H R)].
  destruct (Z.eqb_spec (Unwrap f sequence_number) (base_seq_ f)); [congruence|].
  destruct (Z.leb_spec (Unwrap f sequence_number) (last_seq_ f)); [discriminate|lia].
Qed.

Lemma received_refused_witness :
  WithReceivedPacket (set_last_seq (started 1 2 3 65530 64000000) 65540) 2 64000000 =
    Ok (false, set_last_seq (started 1 2 3 65530 64000000) 65540).
Proof. apply received_refused. left. vm_compute. intuition discriminate. Defined.

(** The base itself is accepted again, and counted as another packet: the
    report then names the packet after it, which was not received, and not the
    last one. *)
Example base_accepted_twice :
  match feed (started 1 2 3 10 64000000) [(10, 64000000); (10, 64000250); (12, 64000500)] with
  | Ok (true, f) =>
      match Create f 100 (new_Writer (zeros 100)) with
      | Ok (true, w, _) =>
          match ParseFrom (buffer w) 0 (index w) with
          | Ok (Some g) =>
              GetStatusVector g = Ok [kReceivedSmallDelta; kReceivedSmallDelta; kNotReceived]
          | _ => False
          end
      | _ => False
      end
  | _ => False
  end.
Proof. vm_compute. reflexivity. Qed.

(** The limit on the number of statuses is one too high: 65,536 are accepted,
    and written as 0, which the parser refuses. *)
Example too_many_statuses :
  match feed (started 1 2 3 0 64000000) [(0, 64000000); (32767, 64000000); (65534, 64000000); (65535, 64000000)] with
  | Ok (true, f) =>
      match Create f 100 (new_Writer (zeros 100)) with
      | Ok (true, w, _) => ParseFrom (buffer w) 0 (index w) = Ok None
      | _ => False
      end
  | _ => False
  end.
Proof. vm_compute. reflexivity. Qed.

End TransportFeedbackRoundtrip.
