(* ===== verification/RtcpParser.v ===== *)
(** * The parser of RTCP packets

    Models RTCPParserV2 of src/orbit/webrtc/modules/rtp_rtcp/source/
    rtcp_utility.cc and rtcp_utility.h: a state machine that reads a compound
    packet and hands out one item at each call of [Iterate].  The buffer is the
    list [p]; a pointer is an offset into it, so that the packet begins at 0 and
    ends at [zlen p].  The union of the structures is an inductive type whose
    value is that of the member last written; a member that is read again
    when another was written is a fault. *)

From S2P Require Import Prelude Wire RtcpCommon TransportFeedback.
Import Wire RtcpCommon.

Module RtcpParser.

Definition RTCP_CNAME_SIZE : Z := 256.
Definition RTCP_RPSI_DATA_SIZE : Z := 30.
Definition kRtcpAppCode_DATA_SIZE : Z := 32 * 4.

Record RTCPPacketRR := mk_RR { RR_SenderSSRC : Z; RR_NumberOfReportBlocks : Z }.
Record RTCPPacketSR := mk_SR {
  SR_SenderSSRC : Z; SR_NumberOfReportBlocks : Z; NTPMostSignificant : Z; NTPLeastSignificant : Z;
  RTPTimestamp : Z; SenderPacketCount : Z; SenderOctetCount : Z
}.
Record RTCPPacketReportBlockItem := mk_ReportBlockItem {
  SSRC : Z; FractionLost : Z; CumulativeNumOfPacketsLost : Z; ExtendedHighestSequenceNumber : Z;
  Jitter : Z; LastSR : Z; DelayLastSR : Z
}.
Record RTCPPacketSDESCName := mk_CName { CName_SenderSSRC : Z; CName : list Z }.
Record RTCPPacketXRReceiverReferenceTimeItem := mk_Rrtr { Rrtr_NTPMostSignificant : Z; Rrtr_NTPLeastSignificant : Z }.
Record RTCPPacketXRDLRRReportBlockItem := mk_DLRR { DLRR_SSRC : Z; LastRR : Z; DelayLastRR : Z }.
Record RTCPPacketXRVOIPMetricItem := mk_VOIPMetric {
  VOIP_SSRC : Z; lossRate : Z; discardRate : Z; burstDensity : Z; gapDensity : Z; burstDuration : Z;
  gapDuration : Z; roundTripDelay : Z; endSystemDelay : Z; signalLevel : Z; noiseLevel : Z; RERL : Z;
  Gmin : Z; Rfactor : Z; extRfactor : Z; MOSLQ : Z; MOSCQ : Z; RXconfig : Z; JBnominal : Z; JBmax : Z;
  JBabsMax : Z
}.
(** The ids of a feedback message: the structures of the NACK, the TMMBR, the
    TMMBN, the FIR, the PLI, the SLI and the application message hold these two. *)
Record Feedback := mk_Feedback { SenderSSRC : Z; MediaSSRC : Z }.
Record RTCPPacketRTPFBNACKItem := mk_NACKItem { PacketID : Z; BitMask : Z }.
Record RTCPPacketRTPFBTMMBRItem := mk_TMMBRItem { TMMBR_SSRC : Z; MaxTotalMediaBitRate : Z; MeasuredOverhead : Z }.
Record RTCPPacketPSFBFIRItem := mk_FIRItem { FIR_SSRC : Z; CommandSequenceNumber : Z }.
Record RTCPPacketPSFBSLIItem := mk_SLIItem { FirstMB : Z; NumberOfMB : Z; PictureId : Z }.
Record RTCPPacketPSFBRPSI := mk_RPSI {
  RPSI_Feedback : Feedback; PayloadType : Z; NumberOfValidBits : Z; NativeBitString : list Z
}.
Record RTCPPacketPSFBREMBItem := mk_REMBItem { BitRate : Z; NumberOfSSRCs : Z; SSRCs : list Z }.
Record RTCPPacketAPP := mk_APP { SubType : Z; Name : Z; Data : list Z; Size : Z }.

Inductive RTCPPacket :=
| PktNone
| PktRR (r : RTCPPacketRR)
| PktSR (r : RTCPPacketSR)
| PktReportBlockItem (r : RTCPPacketReportBlockItem)
| PktCName (r : RTCPPacketSDESCName)
| PktBYE (SenderSSRC : Z)
| PktExtendedJitterReportItem (Jitter : Z)
| PktNACK (f : Feedback)
| PktNACKItem (r : RTCPPacketRTPFBNACKItem)
| PktPLI (f : Feedback)
| PktSLI (f : Feedback)
| PktSLIItem (r : RTCPPacketPSFBSLIItem)
| PktRPSI (r : RTCPPacketPSFBRPSI)
| PktPSFBAPP (f : Feedback)
| PktREMBItem (r : RTCPPacketPSFBREMBItem)
| PktTMMBR (f : Feedback)
| PktTMMBRItem (r : RTCPPacketRTPFBTMMBRItem)
| PktTMMBN (f : Feedback)
| PktTMMBNItem (r : RTCPPacketRTPFBTMMBRItem)
| PktFIR (f : Feedback)
| PktFIRItem (r : RTCPPacketPSFBFIRItem)
| PktXR (OriginatorSSRC : Z)
| PktXRReceiverReferenceTimeItem (r : RTCPPacketXRReceiverReferenceTimeItem)
| PktXRDLRRReportBlockItem (r : RTCPPacketXRDLRRReportBlockItem)
| PktXRVOIPMetricItem (r : RTCPPacketXRVOIPMetricItem)
| PktAPP (r : RTCPPacketAPP).

Inductive RTCPPacketTypes :=
| kInvalid | kRr | kSr | kReportBlockItem | kSdes | kSdesChunk | kBye | kExtendedIj | kExtendedIjItem
| kRtpfbNack | kRtpfbNackItem | kPsfbPli | kPsfbRpsi | kPsfbSli | kPsfbSliItem | kPsfbApp | kPsfbRemb
| kPsfbRembItem | kRtpfbTmmbr | kRtpfbTmmbrItem | kRtpfbTmmbn | kRtpfbTmmbnItem | kPsfbFir | kPsfbFirItem
| kRtpfbSrReq | kXrHeader | kXrReceiverReferenceTime | kXrDlrrReportBlock | kXrDlrrReportBlockItem
| kXrVoipMetric | kApp | kAppItem | kTransportFeedback.

Inductive ParseState :=
| State_TopLevel | State_ReportBlockItem | State_SDESChunk | State_BYEItem | State_ExtendedJitterItem
| State_RTPFB_NACKItem | State_RTPFB_TMMBRItem | State_RTPFB_TMMBNItem | State_PSFB_SLIItem
| State_PSFB_RPSIItem | State_PSFB_FIRItem | State_PSFB_AppItem | State_PSFB_REMBItem | State_XRItem
| State_XR_DLLRItem | State_AppItem.

Record RTCPParserV2 := mk_parser {
  _validPacket : bool;
  _ptrRTCPData : Z;
  _ptrRTCPBlockEnd : Z;
  _state : ParseState;
  _numberOfBlocks : Z;
  num_skipped_blocks_ : Z;
  _packetType : RTCPPacketTypes;
  _packet : RTCPPacket;
  rtcp_packet_ : option TransportFeedback.TransportFeedback
}.

Definition set_data (s : RTCPParserV2) (v : Z) : RTCPParserV2 :=
  mk_parser (_validPacket s) v (_ptrRTCPBlockEnd s) (_state s) (_numberOfBlocks s) (num_skipped_blocks_ s)
    (_packetType s) (_packet s) (rtcp_packet_ s).
Definition set_block_end (s : RTCPParserV2) (v : Z) : RTCPParserV2 :=
  mk_parser (_validPacket s) (_ptrRTCPData s) v (_state s) (_numberOfBlocks s) (num_skipped_blocks_ s)
    (_packetType s) (_packet s) (rtcp_packet_ s).
Definition set_state (s : RTCPParserV2) (v : ParseState) : RTCPParserV2 :=
  mk_parser (_validPacket s) (_ptrRTCPData s) (_ptrRTCPBlockEnd s) v (_numberOfBlocks s)
    (num_skipped_blocks_ s) (_packetType s) (_packet s) (rtcp_packet_ s).
Definition set_blocks (s : RTCPParserV2) (v : Z) : RTCPParserV2 :=
  mk_parser (_validPacket s) (_ptrRTCPData s) (_ptrRTCPBlockEnd s) (_state s) v (num_skipped_blocks_ s)
    (_packetType s) (_packet s) (rtcp_packet_ s).
Definition set_type (s : RTCPParserV2) (v : RTCPPacketTypes) : RTCPParserV2 :=
  mk_parser (_validPacket s) (_ptrRTCPData s) (_ptrRTCPBlockEnd s) (_state s) (_numberOfBlocks s)
    (num_skipped_blocks_ s) v (_packet s) (rtcp_packet_ s).
Definition set_packet (s : RTCPParserV2) (v : RTCPPacket) : RTCPParserV2 :=
  mk_parser (_validPacket s) (_ptrRTCPData s) (_ptrRTCPBlockEnd s) (_state s) (_numberOfBlocks s)
    (num_skipped_blocks_ s) (_packetType s) v (rtcp_packet_ s).
Definition set_rtcp_packet (s : RTCPParserV2) (v : option TransportFeedback.TransportFeedback) : RTCPParserV2 :=
  mk_parser (_validPacket s) (_ptrRTCPData s) (_ptrRTCPBlockEnd s) (_state s) (_numberOfBlocks s)
    (num_skipped_blocks_ s) (_packetType s) (_packet s) v.
Definition count_skipped (s : RTCPParserV2) : RTCPParserV2 :=
  mk_parser (_validPacket s) (_ptrRTCPData s) (_ptrRTCPBlockEnd s) (_state s) (_numberOfBlocks s)
    (num_skipped_blocks_ s + 1) (_packetType s) (_packet s) (rtcp_packet_ s).

Definition PacketType (s : RTCPParserV2) : RTCPPacketTypes := _packetType s.
Definition Packet (s : RTCPParserV2) : RTCPPacket := _packet s.
Definition ReleaseRtcpPacket (s : RTCPParserV2) : option TransportFeedback.TransportFeedback * RTCPParserV2 :=
  (rtcp_packet_ s, set_rtcp_packet s None).
Definition IsValid (s : RTCPParserV2) : bool := _validPacket s.
Definition NumSkippedBlocks (s : RTCPParserV2) : Z := num_skipped_blocks_ s.

Definition EndCurrentBlock (s : RTCPParserV2) : RTCPParserV2 := set_data s (_ptrRTCPBlockEnd s).

(** [_state = State_TopLevel; EndCurrentBlock(); return false;] *)
Definition end_items (s : RTCPParserV2) : res (bool * RTCPParserV2) :=
  Ok (false, EndCurrentBlock (set_state s State_TopLevel)).

(** An item was read: the pointer has moved by [n]. *)
Definition item (s : RTCPParserV2) (n : Z) (t : RTCPPacketTypes) (packet : RTCPPacket) : res (bool * RTCPParserV2) :=
  Ok (true, set_packet (set_type (set_data s (_ptrRTCPData s + n)) t) packet).
(** A header was read, and its items are next. *)
Definition header_read (s : RTCPParserV2) (n : Z) (t : RTCPPacketTypes) (packet : RTCPPacket) (state : ParseState)
    : res (bool * RTCPParserV2) :=
  item (set_state s state) n t packet.

Section Parser.
Variable p : list Z.

Definition LengthLeft (s : RTCPParserV2) : Z := zlen p - _ptrRTCPData s.
Definition length_ (s : RTCPParserV2) : Z := _ptrRTCPBlockEnd s - _ptrRTCPData s.

(** [memcpy] of [n] bytes at [o]. *)
Definition copy (o n : Z) : res (list Z) :=
  if (0 <=? o) && (0 <=? n) && (o + n <=? zlen p) then Ok (slice p o n) else Oob.

(** ** Reports *)

Definition ParseRR (s : RTCPParserV2) : res (bool * RTCPParserV2) :=
  let o := _ptrRTCPData s in
  if length_ s <? 8 then Ok (false, s)
  else
    let! ssrc := be32 p (o + 4) in
    header_read s 8 kRr (PktRR (mk_RR ssrc (_numberOfBlocks s))) State_ReportBlockItem.

Definition ParseSR (s : RTCPParserV2) : res (bool * RTCPParserV2) :=
  let o := _ptrRTCPData s in
  if length_ s <? 28 then Ok (false, EndCurrentBlock s)
  else
    let! ssrc := be32 p (o + 4) in
    let! ntp_secs := be32 p (o + 8) in
    let! ntp_frac := be32 p (o + 12) in
    let! timestamp := be32 p (o + 16) in
    let! packets := be32 p (o + 20) in
    let! octets := be32 p (o + 24) in
    let! (ok, s) := item s 28 kSr (PktSR (mk_SR ssrc (_numberOfBlocks s) ntp_secs ntp_frac timestamp packets octets)) in
    Ok (ok, if negb (_numberOfBlocks s =? 0) then set_state s State_ReportBlockItem
            else EndCurrentBlock (set_state s State_TopLevel)).

Definition ParseReportBlockItem (s : RTCPParserV2) : res (bool * RTCPParserV2) :=
  let o := _ptrRTCPData s in
  if (length_ s <? 24) || (_numberOfBlocks s <=? 0) then end_items s
  else
    let! ssrc := be32 p o in
    let! fraction := byte p (o + 4) in
    let! lost_high := byte p (o + 5) in
    let! lost_low := be16 p (o + 6) in
    let! highest := be32 p (o + 8) in
    let! jitter := be32 p (o + 12) in
    let! last_sr := be32 p (o + 16) in
    let! delay := be32 p (o + 20) in
    item (set_blocks s (_numberOfBlocks s - 1)) 24 kReportBlockItem
      (PktReportBlockItem (mk_ReportBlockItem ssrc fraction (lost_high * 65536 + lost_low) highest jitter last_sr delay)).

Definition ParseIJ (s : RTCPParserV2) : res (bool * RTCPParserV2) :=
  if length_ s <? 4 then Ok (false, s)
  else Ok (true, set_state (set_type (set_data s (_ptrRTCPData s + 4)) kExtendedIj) State_ExtendedJitterItem).

Definition ParseIJItem (s : RTCPParserV2) : res (bool * RTCPParserV2) :=
  let o := _ptrRTCPData s in
  if (length_ s <? 4) || (_numberOfBlocks s <=? 0) then end_items s
  else
    let! jitter := be32 p o in
    item (set_blocks s (_numberOfBlocks s - 1)) 4 kExtendedIjItem (PktExtendedJitterReportItem jitter).

(** ** Source descriptions *)

Definition ParseSDES (s : RTCPParserV2) : res (bool * RTCPParserV2) :=
  if length_ s <? 8 then end_items s
  else Ok (true, set_type (set_state (set_data s (_ptrRTCPData s + 4)) State_SDESChunk) kSdes).

Definition illegal (c : Z) : bool := (c <? 32) || (123 <? c) || (c =? 37) || (c =? 92).

(** The characters of a name; [None] when one is not allowed. *)
Fixpoint read_name (len : nat) (o : Z) : res (option (list Z)) :=
  match len with
  | O => Ok (Some [])
  | S len =>
      let! c := byte p o in
      if illegal c then Ok None
      else
        let! name := read_name len (o + 1) in
        Ok (option_map (cons c) name)
  end.

(** [while ((itemOctetsRead++ % 4) != 0) ++_ptrRTCPData;] *)
Fixpoint align (fuel : nat) (s : RTCPParserV2) (octets : Z) : res RTCPParserV2 :=
  if octets mod 4 =? 0 then Ok s
  else match fuel with
       | O => NoFuel
       | S fuel => align fuel (set_data s (_ptrRTCPData s + 1)) (octets + 1)
       end.

(** The sender of the name is set by the caller. *)
Fixpoint ParseSDESItem (fuel : nat) (s : RTCPParserV2) (octets : Z) (found : bool) : res (bool * RTCPParserV2) :=
  if _ptrRTCPData s <? _ptrRTCPBlockEnd s then
    match fuel with
    | O => NoFuel
    | S fuel =>
        let! tag := byte p (_ptrRTCPData s) in
        let s := set_data s (_ptrRTCPData s + 1) in
        let octets := octets + 1 in
        if tag =? 0 then
          let! s := align 3 s octets in
          Ok (found, s)
        else if _ptrRTCPData s <? _ptrRTCPBlockEnd s then
          let! len := byte p (_ptrRTCPData s) in
          let s := set_data s (_ptrRTCPData s + 1) in
          let octets := octets + 1 in
          let next s found := ParseSDESItem fuel (set_data s (_ptrRTCPData s + len)) (octets + len) found in
          if tag =? 1 then
            if _ptrRTCPBlockEnd s <=? _ptrRTCPData s + len then end_items s
            else
              let! name := read_name (Z.to_nat len) (_ptrRTCPData s) in
              match name with
              | None => end_items s
              | Some name => next (set_packet (set_type s kSdesChunk) (PktCName (mk_CName 0 name))) true
              end
          else next s found
        else ParseSDESItem fuel s octets found
    end
  else end_items s.

Fixpoint find_cname (fuel : nat) (s : RTCPParserV2) : res (bool * RTCPParserV2) :=
  if _ptrRTCPData s <? _ptrRTCPBlockEnd s then
    match fuel with
    | O => NoFuel
    | S fuel =>
        if length_ s <? 4 then end_items s
        else
          let! ssrc := be32 p (_ptrRTCPData s) in
          let! (found, s) := ParseSDESItem (S (length p)) (set_data s (_ptrRTCPData s + 4)) 0 false in
          if found then
            match _packet s with
            | PktCName c => Ok (true, set_packet s (PktCName (mk_CName ssrc (CName c))))
            | _ => Oob
            end
          else find_cname fuel s
    end
  else end_items s.
Definition ParseSDESChunk (s : RTCPParserV2) : res (bool * RTCPParserV2) :=
  if _numberOfBlocks s <=? 0 then end_items s
  else find_cname (S (length p)) (set_blocks s (_numberOfBlocks s - 1)).

(** ** Goodbyes *)

Definition ParseBYEItem (s : RTCPParserV2) : res (bool * RTCPParserV2) :=
  let o := _ptrRTCPData s in
  if (length_ s <? 4) || (_numberOfBlocks s =? 0) then end_items s
  else
    let! ssrc := be32 p o in
    let sources := if 4 * _numberOfBlocks s <=? length_ s then (_numberOfBlocks s - 1) * 4 else 0 in
    item (set_blocks s 0) (4 + sources) kBye (PktBYE ssrc).
Definition ParseBYE (s : RTCPParserV2) : res (bool * RTCPParserV2) :=
  ParseBYEItem (set_state (set_data s (_ptrRTCPData s + 4)) State_BYEItem).

(** ** Extended reports *)

Definition ParseXr (s : RTCPParserV2) : res (bool * RTCPParserV2) :=
  if length_ s <? 8 then Ok (false, EndCurrentBlock s)
  else
    let! ssrc := be32 p (_ptrRTCPData s + 4) in
    header_read s 8 kXrHeader (PktXR ssrc) State_XRItem.

Definition ParseXrReceiverReferenceTimeItem (s : RTCPParserV2) (block_length_4bytes : Z) : res (bool * RTCPParserV2) :=
  let o := _ptrRTCPData s in
  if negb (block_length_4bytes =? 2) || (length_ s <? 8) then end_items s
  else
    let! ntp_secs := be32 p o in
    let! ntp_frac := be32 p (o + 4) in
    header_read s 8 kXrReceiverReferenceTime (PktXRReceiverReferenceTimeItem (mk_Rrtr ntp_secs ntp_frac)) State_XRItem.

Definition ParseXrDlrr (s : RTCPParserV2) (block_length_4bytes : Z) : res (bool * RTCPParserV2) :=
  if (block_length_4bytes <? 0) || negb (Z.rem block_length_4bytes 3 =? 0) then end_items s
  else
    Ok (true, set_blocks (set_state (set_type s kXrDlrrReportBlock) State_XR_DLLRItem) (u8 (Z.quot block_length_4bytes 3))).

Definition ParseXrDlrrItem (s : RTCPParserV2) : res (bool * RTCPParserV2) :=
  let o := _ptrRTCPData s in
  if _numberOfBlocks s =? 0 then Ok (false, set_state s State_XRItem)
  else if length_ s <? 12 then end_items s
  else
    let! ssrc := be32 p o in
    let! last_rr := be32 p (o + 4) in
    let! delay := be32 p (o + 8) in
    header_read (set_blocks s (_numberOfBlocks s - 1)) 12 kXrDlrrReportBlockItem
      (PktXRDLRRReportBlockItem (mk_DLRR ssrc last_rr delay)) State_XR_DLLRItem.

Definition ParseXrVoipMetricItem (s : RTCPParserV2) (block_length_4bytes : Z) : res (bool * RTCPParserV2) :=
  let o := _ptrRTCPData s in
  if negb (block_length_4bytes =? 8) || (length_ s <? 32) then end_items s
  else
    let! ssrc := be32 p o in
    let! loss := byte p (o + 4) in
    let! discard := byte p (o + 5) in
    let! burst_density := byte p (o + 6) in
    let! gap_density := byte p (o + 7) in
    let! burst := be16 p (o + 8) in
    let! gap := be16 p (o + 10) in
    let! rtt := be16 p (o + 12) in
    let! delay := be16 p (o + 14) in
    let! signal := byte p (o + 16) in
    let! noise := byte p (o + 17) in
    let! rerl := byte p (o + 18) in
    let! gmin := byte p (o + 19) in
    let! r := byte p (o + 20) in
    let! ext_r := byte p (o + 21) in
    let! moslq := byte p (o + 22) in
    let! moscq := byte p (o + 23) in
    let! rx := byte p (o + 24) in
    let! jb_nominal := be16 p (o + 26) in
    let! jb_max := be16 p (o + 28) in
    let! jb_abs := be16 p (o + 30) in
    header_read s 32 kXrVoipMetric
      (PktXRVOIPMetricItem (mk_VOIPMetric ssrc loss discard burst_density gap_density burst gap rtt delay signal
         noise rerl gmin r ext_r moslq moscq rx jb_nominal jb_max jb_abs)) State_XRItem.

Definition ParseXrUnsupportedBlockType (s : RTCPParserV2) (block_length_4bytes : Z) : res (bool * RTCPParserV2) :=
  if length_ s <? block_length_4bytes * 4 then end_items s
  else Ok (false, set_state (set_data s (_ptrRTCPData s + block_length_4bytes * 4)) State_XRItem).

Definition kBtReceiverReferenceTime : Z := 4.
Definition kBtDlrr : Z := 5.
Definition kBtVoipMetric : Z := 7.

Definition ParseXrItem (s : RTCPParserV2) : res (bool * RTCPParserV2) :=
  let o := _ptrRTCPData s in
  if length_ s <? 4 then end_items s
  else
    let! block_type := byte p o in
    let! block_length_in_4bytes := be16 p (o + 2) in
    let s := set_data s (o + 4) in
    if block_type =? kBtReceiverReferenceTime then ParseXrReceiverReferenceTimeItem s block_length_in_4bytes
    else if block_type =? kBtDlrr then ParseXrDlrr s block_length_in_4bytes
    else if block_type =? kBtVoipMetric then ParseXrVoipMetricItem s block_length_in_4bytes
    else ParseXrUnsupportedBlockType s block_length_in_4bytes.

(** ** Feedback *)

Definition ParseFBCommon (header : RtcpCommonHeader) (s : RTCPParserV2) : res (bool * RTCPParserV2) :=
  let o := _ptrRTCPData s in
  let length := length_ s in
  if length <? 12 then Ok (false, s)
  else
    let! sender := be32 p (o + 4) in
    let! media := be32 p (o + 8) in
    let f := mk_Feedback sender media in
    let format := count_or_format header in
    if packet_type header =? PT_RTPFB then
      if format =? 1 then header_read s 12 kRtpfbNack (PktNACK f) State_RTPFB_NACKItem
      else if format =? 3 then header_read s 12 kRtpfbTmmbr (PktTMMBR f) State_RTPFB_TMMBRItem
      else if format =? 4 then header_read s 12 kRtpfbTmmbn (PktTMMBN f) State_RTPFB_TMMBNItem
      else if format =? 5 then Ok (true, set_type (set_data s (o + 12)) kRtpfbSrReq)
      else if format =? 15 then
        let! feedback := TransportFeedback.ParseFrom p o length in
        let s := EndCurrentBlock (set_rtcp_packet s feedback) in
        match feedback with
        | Some _ => Ok (true, set_type s kTransportFeedback)
        | None => Ok (false, count_skipped s)
        end
      else Ok (false, count_skipped (set_data s (o + 12)))
    else
      if format =? 1 then item s 12 kPsfbPli (PktPLI f)
      else if format =? 2 then header_read s 12 kPsfbSli (PktSLI f) State_PSFB_SLIItem
      else if format =? 3 then header_read s 12 kPsfbRpsi (PktRPSI (mk_RPSI f 0 0 [])) State_PSFB_RPSIItem
      else if format =? 4 then header_read s 12 kPsfbFir (PktFIR f) State_PSFB_FIRItem
      else if format =? 15 then header_read s 12 kPsfbApp (PktPSFBAPP f) State_PSFB_AppItem
      else Ok (false, set_data s (o + 12)).

Definition ParseRPSIItem (s : RTCPParserV2) : res (bool * RTCPParserV2) :=
  let o := _ptrRTCPData s in
  let length := length_ s in
  if length <? 4 then end_items s
  else if 2 + RTCP_RPSI_DATA_SIZE <? length then end_items s
  else
    let! padding_bits := byte p o in
    let! payload_type := byte p (o + 1) in
    match _packet s with
    | PktRPSI r =>
        let! bits := copy (o + 2) (length - 2) in
        item s length kPsfbRpsi
          (PktRPSI (mk_RPSI (RPSI_Feedback r) payload_type (u16 (u16 (length - 2) * 8 - padding_bits)) bits))
    | _ => Oob
    end.

Definition ParseNACKItem (s : RTCPParserV2) : res (bool * RTCPParserV2) :=
  let o := _ptrRTCPData s in
  if length_ s <? 4 then end_items s
  else
    let! pid := be16 p o in
    let! mask := be16 p (o + 2) in
    item s 4 kRtpfbNackItem (PktNACKItem (mk_NACKItem pid mask)).

(** The pointer stops behind the first character that is not one of REMB. *)
Definition ParsePsfbAppItem (s : RTCPParserV2) : res (bool * RTCPParserV2) :=
  let o := _ptrRTCPData s in
  if length_ s <? 4 then end_items s
  else
    let! c0 := byte p o in
    if negb (c0 =? 82) then end_items (set_data s (o + 1)) else
    let! c1 := byte p (o + 1) in
    if negb (c1 =? 69) then end_items (set_data s (o + 2)) else
    let! c2 := byte p (o + 2) in
    if negb (c2 =? 77) then end_items (set_data s (o + 3)) else
    let! c3 := byte p (o + 3) in
    if negb (c3 =? 66) then end_items (set_data s (o + 4)) else
    Ok (true, set_state (set_type (set_data s (o + 4)) kPsfbRemb) State_PSFB_REMBItem).

Fixpoint read_ssrcs (n : nat) (o : Z) : res (list Z) :=
  match n with
  | O => Ok []
  | S n =>
      let! ssrc := be32 p o in
      let! ssrcs := read_ssrcs n (o + 4) in
      Ok (ssrc :: ssrcs)
  end.

(** A 32-bit number shifted to the left; the language does not define the
    shift by 32 or more, which loses all bits here. *)
Definition shl32 (mantissa exponent : Z) : Z := u32 (Z.shiftl mantissa exponent).

Definition ParsePsfbREMBItem (s : RTCPParserV2) : res (bool * RTCPParserV2) :=
  let o := _ptrRTCPData s in
  if length_ s <? 4 then end_items s
  else
    let! number := byte p o in
    let! b0 := byte p (o + 1) in
    let! b1 := byte p (o + 2) in
    let! b2 := byte p (o + 3) in
    let brExp := Z.land (Z.shiftr b0 2) 0x3F in
    let brMantissa := Z.shiftl (Z.land b0 0x03) 16 + Z.shiftl b1 8 + b2 in
    let s := set_data s (o + 4) in
    if length_ s <? 4 * number then end_items s
    else
      let! ssrcs := read_ssrcs (Z.to_nat number) (o + 4) in
      item s (4 * number) kPsfbRembItem (PktREMBItem (mk_REMBItem (shl32 brMantissa brExp) number ssrcs)).

(** The four bytes of a rate and its overhead: in thousands of bits per second. *)
Definition read_rate (o : Z) : res (Z * Z) :=
  let! b0 := byte p o in
  let! b1 := byte p (o + 1) in
  let! b2 := byte p (o + 2) in
  let! b3 := byte p (o + 3) in
  let mxtbrExp := Z.land (Z.shiftr b0 2) 0x3F in
  let mxtbrMantissa := Z.shiftl (Z.land b0 0x03) 15 + Z.shiftl b1 7 + Z.land (Z.shiftr b2 1) 0x7F in
  let measuredOH := Z.shiftl (Z.land b2 0x01) 8 + b3 in
  Ok (shl32 mxtbrMantissa mxtbrExp / 1000, measuredOH).

Definition ParseTMMBRItem (s : RTCPParserV2) : res (bool * RTCPParserV2) :=
  let o := _ptrRTCPData s in
  if length_ s <? 8 then end_items s
  else
    let! ssrc := be32 p o in
    let! (rate, overhead) := read_rate (o + 4) in
    item s 8 kRtpfbTmmbrItem (PktTMMBRItem (mk_TMMBRItem ssrc rate overhead)).

Definition ParseTMMBNItem (s : RTCPParserV2) : res (bool * RTCPParserV2) :=
  let o := _ptrRTCPData s in
  if length_ s <? 8 then end_items s
  else
    let! ssrc := be32 p o in
    let! (rate, overhead) := read_rate (o + 4) in
    item s 8 kRtpfbTmmbnItem (PktTMMBNItem (mk_TMMBRItem ssrc rate overhead)).

Definition ParseSLIItem (s : RTCPParserV2) : res (bool * RTCPParserV2) :=
  let o := _ptrRTCPData s in
  if length_ s <? 4 then end_items s
  else
    let! buffer := be32 p o in
    item s 4 kPsfbSliItem
      (PktSLIItem (mk_SLIItem (Z.land (Z.shiftr buffer 19) 0x1fff) (Z.land (Z.shiftr buffer 6) 0x1fff) (Z.land buffer 0x3f))).

Definition ParseFIRItem (s : RTCPParserV2) : res (bool * RTCPParserV2) :=
  let o := _ptrRTCPData s in
  if length_ s <? 8 then end_items s
  else
    let! ssrc := be32 p o in
    let! number := byte p (o + 4) in
    item s 8 kPsfbFirItem (PktFIRItem (mk_FIRItem ssrc number)).

(** ** Application packets *)

Definition ParseAPP (header : RtcpCommonHeader) (s : RTCPParserV2) : res (bool * RTCPParserV2) :=
  let o := _ptrRTCPData s in
  if length_ s <? 12 then Ok (false, EndCurrentBlock s)
  else
    let! name := be32 p (o + 8) in
    header_read s 12 kApp (PktAPP (mk_APP (count_or_format header) name [] 0)) State_AppItem.

Definition ParseAPPItem (s : RTCPParserV2) : res (bool * RTCPParserV2) :=
  let o := _ptrRTCPData s in
  let length := length_ s in
  if length <? 4 then end_items s
  else
    match _packet s with
    | PktAPP a =>
        let n := if kRtcpAppCode_DATA_SIZE <? length then kRtcpAppCode_DATA_SIZE else length in
        let! data := copy o n in
        item s n kAppItem (PktAPP (mk_APP (SubType a) (Name a) data (u16 n)))
    | _ => Oob
    end.

(** ** The state machine *)

(** The switch on the type of a packet: whether to go on with the next one. *)
Definition ParseBlock (header : RtcpCommonHeader) (s : RTCPParserV2) : res (bool * RTCPParserV2) :=
  let counted := set_blocks s (count_or_format header) in
  let stop (r : res (bool * RTCPParserV2)) : res (bool * RTCPParserV2) := let! (_, s) := r in Ok (false, s) in
  let unless_ok (r : res (bool * RTCPParserV2)) : res (bool * RTCPParserV2) := let! (ok, s) := r in Ok (negb ok, s) in
  let t := packet_type header in
  if t =? PT_SR then stop (ParseSR counted)
  else if t =? PT_RR then stop (ParseRR counted)
  else if t =? PT_SDES then unless_ok (ParseSDES counted)
  else if t =? PT_BYE then unless_ok (ParseBYE counted)
  else if t =? PT_IJ then stop (ParseIJ counted)
  else if (t =? PT_RTPFB) || (t =? PT_PSFB) then unless_ok (ParseFBCommon header s)
  else if t =? PT_APP then unless_ok (ParseAPP header s)
  else if t =? PT_XR then unless_ok (ParseXr s)
  else Ok (true, EndCurrentBlock (count_skipped s)).

Fixpoint IterateTopLevel (fuel : nat) (s : RTCPParserV2) : res RTCPParserV2 :=
  match fuel with
  | O => NoFuel
  | S fuel =>
      if zlen p <=? _ptrRTCPData s then Ok s
      else
        let! header := RtcpParseCommonHeader p (_ptrRTCPData s) (zlen p - _ptrRTCPData s) in
        match header with
        | None => Ok s
        | Some header =>
            let s := set_block_end s (_ptrRTCPData s + BlockSize header) in
            if zlen p <? _ptrRTCPBlockEnd s then Ok (count_skipped s)
            else
              let! (again, s) := ParseBlock header s in
              if again then IterateTopLevel fuel s else Ok s
        end
  end.

Definition ParseItem (s : RTCPParserV2) : res (bool * RTCPParserV2) :=
  match _state s with
  | State_TopLevel => Oob
  | State_ReportBlockItem => ParseReportBlockItem s
  | State_SDESChunk => ParseSDESChunk s
  | State_BYEItem => ParseBYEItem s
  | State_ExtendedJitterItem => ParseIJItem s
  | State_RTPFB_NACKItem => ParseNACKItem s
  | State_RTPFB_TMMBRItem => ParseTMMBRItem s
  | State_RTPFB_TMMBNItem => ParseTMMBNItem s
  | State_PSFB_SLIItem => ParseSLIItem s
  | State_PSFB_RPSIItem => ParseRPSIItem s
  | State_PSFB_FIRItem => ParseFIRItem s
  | State_PSFB_AppItem => ParsePsfbAppItem s
  | State_PSFB_REMBItem => ParsePsfbREMBItem s
  | State_XRItem => ParseXrItem s
  | State_XR_DLLRItem => ParseXrDlrrItem s
  | State_AppItem => ParseAPPItem s
  end.

Fixpoint Iterate (fuel : nat) (s : RTCPParserV2) : res RTCPParserV2 :=
  match fuel with
  | O => NoFuel
  | S fuel =>
      let s := set_type s kInvalid in
      if IsValid s then
        match _state s with
        | State_TopLevel => IterateTopLevel fuel s
        | _ =>
            let! (success, s) := ParseItem s in
            if success then Ok s else Iterate fuel s
        end
      else Ok s
  end.

Definition Begin (fuel : nat) (s : RTCPParserV2) : res RTCPParserV2 := Iterate fuel (set_data s 0).

Definition Validate (reduced_size : bool) : res bool :=
  if zlen p <=? 0 then Ok false
  else
    let! header := RtcpParseCommonHeader p 0 (zlen p) in
    Ok match header with
       | None => false
       | Some header => reduced_size || negb (negb (packet_type header =? PT_SR) && negb (packet_type header =? PT_RR))
       end.

Definition new_RTCPParserV2 (rtcpReducedSizeEnable : bool) : res RTCPParserV2 :=
  let! valid := Validate rtcpReducedSizeEnable in
  Ok (mk_parser valid 0 0 State_TopLevel 0 0 kInvalid PktNone None).

End Parser.

End RtcpParser.
