(* ===== verification/RtcpParserFacts.v ===== *)
(** * The parser of RTCP packets: properties

    On any bytes the parser stays inside the buffer.  It ends, unless it comes
    to a feedback packet shorter than twelve bytes, where it never does; every
    item it hands out brings it nearer to the end. *)

From S2P Require Import Prelude Wire RtcpCommon TransportFeedback TransportFeedbackRoundtrip RtcpParser.
Import Wire RtcpCommon RtcpParser.

Module RtcpParserFacts.

Section Facts.
Variable p : list Z.
Hypothesis B : bytes p.

(** ** The invariant and the measure *)

(** The union holds the structure that the items of the state complete. *)
Definition shape (state : ParseState) (packet : RTCPPacket) : Prop :=
  match state with
  | State_PSFB_RPSIItem => exists r, packet = PktRPSI r
  | State_AppItem => exists a, packet = PktAPP a
  | _ => True
  end.

Record inv (s : RTCPParserV2) : Prop := {
  i_data : 0 <= _ptrRTCPData s;
  i_end : 0 <= _ptrRTCPBlockEnd s <= zlen p;
  i_top : _state s = State_TopLevel -> _ptrRTCPData s <= zlen p;
  i_blocks : in_u8 (_numberOfBlocks s);
  i_shape : shape (_state s) (_packet s)
}.

(** Where the next item or packet begins; the alignment of a source description
    can lead past the end of its packet. *)
Definition pos (s : RTCPParserV2) : Z :=
  match _state s with
  | State_TopLevel => _ptrRTCPData s
  | _ => Z.min (_ptrRTCPData s) (_ptrRTCPBlockEnd s)
  end.
Definition weight (state : ParseState) : Z :=
  match state with State_TopLevel => 0 | State_XR_DLLRItem => 2 | _ => 1 end.
Definition measure (s : RTCPParserV2) : Z := 3 * (zlen p - pos s) + weight (_state s).

Lemma weight_range st : 0 <= weight st <= 2.
Proof. destruct st; cbn; lia. Qed.

Lemma measure_nonneg s : inv s -> 0 <= measure s.
Proof.
  intros [D E T _ _]. unfold measure, pos. pose proof (weight_range (_state s)).
  destruct (_state s); try specialize (T eq_refl); lia.
Qed.

(** A step of the items: it succeeds or not, the invariant is kept, and the
    parser is nearer to the end. *)
Definition advanced (s : RTCPParserV2) (r : res (bool * RTCPParserV2)) : Prop :=
  exists ok s', r = Ok (ok, s') /\ inv s' /\ _validPacket s' = _validPacket s /\ measure s' < measure s.

Lemma end_items_advanced s s0 :
  inv s0 -> _state s0 <> State_TopLevel -> _ptrRTCPBlockEnd s = _ptrRTCPBlockEnd s0 ->
  _validPacket s = _validPacket s0 -> in_u8 (_numberOfBlocks s) -> advanced s0 (end_items s).
Proof.
  intros [D E T U S] N Ee V Us. eexists _, _. split; [reflexivity|].
  split; [constructor; cbn; rewrite ?Ee; try assumption; lia|]. split; [exact V|].
  unfold measure, pos. cbn [EndCurrentBlock set_data set_state _state _ptrRTCPData _ptrRTCPBlockEnd weight].
  rewrite Ee. destruct (_state s0) eqn:St; try congruence; cbn [weight]; lia.
Qed.

(** The pointer moved by at least four bytes inside the packet. *)
Lemma moved_advanced s s' ok :
  inv s -> _state s <> State_TopLevel -> _ptrRTCPData s + 4 <= _ptrRTCPData s' <= _ptrRTCPBlockEnd s ->
  _ptrRTCPBlockEnd s' = _ptrRTCPBlockEnd s -> _validPacket s' = _validPacket s -> in_u8 (_numberOfBlocks s') ->
  shape (_state s') (_packet s') -> advanced s (Ok (ok, s')).
Proof.
  intros [D E T U S] N M Ee V Us Sh. eexists _, _. split; [reflexivity|].
  split; [constructor; try assumption; rewrite ?Ee; lia|]. split; [exact V|].
  unfold measure, pos. pose proof (weight_range (_state s')). rewrite Ee.
  destruct (_state s) eqn:St; try congruence; cbn [weight] in *; destruct (_state s'); cbn [weight] in *; lia.
Qed.

Ltac reads := rewrite ?be32_ok, ?be16_ok, ?byte_ok by (unfold length_ in *; lia); cbn [bind].

(** Unfolds the updates of the parser, and nothing of the arithmetic. *)
Ltac fields := cbn [item header_read EndCurrentBlock set_packet set_type set_data set_state set_blocks set_block_end
  set_rtcp_packet count_skipped _validPacket _ptrRTCPData _ptrRTCPBlockEnd _state _numberOfBlocks num_skipped_blocks_
  _packetType _packet rtcp_packet_ shape] in *.

Ltac fails := apply end_items_advanced; fields; auto; congruence.
Ltac moves := apply moved_advanced; fields; auto; unfold length_ in *; try lia; try congruence.
(** The test at the head of the step. *)
Ltac test C := lazymatch goal with |- advanced _ (if ?b then _ else _) => destruct b eqn:C end.
Ltac start I :=
  pose proof (i_data _ I); pose proof (i_end _ I);
  let U := fresh "U" in pose proof (i_blocks _ I) as U; unfold in_u8 in U.

Lemma ParseReportBlockItem_advanced s :
  inv s -> _state s = State_ReportBlockItem -> advanced s (ParseReportBlockItem p s).
Proof.
  intros I St. start I. unfold ParseReportBlockItem. test C; [fails|].
  apply orb_false_iff in C as [C1 C2]. reads. moves; [unfold in_u8; lia|now rewrite St].
Qed.

Lemma ParseIJItem_advanced s : inv s -> _state s = State_ExtendedJitterItem -> advanced s (ParseIJItem p s).
Proof.
  intros I St. start I. unfold ParseIJItem. test C; [fails|].
  apply orb_false_iff in C as [C1 C2]. reads. moves; [unfold in_u8; lia|now rewrite St].
Qed.

Lemma ParseBYEItem_advanced s : inv s -> _state s = State_BYEItem -> advanced s (ParseBYEItem p s).
Proof.
  intros I St. start I. unfold ParseBYEItem. test C; [fails|].
  apply orb_false_iff in C as [C1 C2]. reads.
  destruct (4 * _numberOfBlocks s <=? length_ s) eqn:C3; moves; try (now rewrite St); unfold in_u8; lia.
Qed.

Lemma ParseNACKItem_advanced s : inv s -> _state s = State_RTPFB_NACKItem -> advanced s (ParseNACKItem p s).
Proof. intros I St. start I. unfold ParseNACKItem. test C; [fails|]. reads. moves. now rewrite St. Qed.

Lemma ParseSLIItem_advanced s : inv s -> _state s = State_PSFB_SLIItem -> advanced s (ParseSLIItem p s).
Proof. intros I St. start I. unfold ParseSLIItem. test C; [fails|]. reads. moves. now rewrite St. Qed.

Lemma ParseFIRItem_advanced s : inv s -> _state s = State_PSFB_FIRItem -> advanced s (ParseFIRItem p s).
Proof. intros I St. start I. unfold ParseFIRItem. test C; [fails|]. reads. moves. now rewrite St. Qed.

Lemma ParseTMMBRItem_advanced s : inv s -> _state s = State_RTPFB_TMMBRItem -> advanced s (ParseTMMBRItem p s).
Proof.
  intros I St. start I. unfold ParseTMMBRItem, read_rate. test C; [fails|]. reads. moves. now rewrite St.
Qed.

Lemma ParseTMMBNItem_advanced s : inv s -> _state s = State_RTPFB_TMMBNItem -> advanced s (ParseTMMBNItem p s).
Proof.
  intros I St. start I. unfold ParseTMMBNItem, read_rate. test C; [fails|]. reads. moves. now rewrite St.
Qed.

Lemma ParseRPSIItem_advanced s : inv s -> _state s = State_PSFB_RPSIItem -> advanced s (ParseRPSIItem p s).
Proof.
  intros I St. start I. unfold ParseRPSIItem. test C; [fails|]. test C2; [fails|].
  reads. pose proof (i_shape _ I) as Sh. rewrite St in Sh. destruct Sh as [r ->].
  unfold copy. replace (_ && _) with true by (unfold length_ in *; lia). cbn [bind].
  moves; rewrite St; cbn; eauto.
Qed.

Lemma ParseAPPItem_advanced s : inv s -> _state s = State_AppItem -> advanced s (ParseAPPItem p s).
Proof.
  intros I St. start I. unfold ParseAPPItem. test C; [fails|].
  pose proof (i_shape _ I) as Sh. rewrite St in Sh. destruct Sh as [r ->].
  unfold copy, kRtcpAppCode_DATA_SIZE.
  destruct (32 * 4 <? length_ s) eqn:C2; replace (_ && _) with true by (unfold length_ in *; lia); cbn [bind];
    moves; rewrite St; cbn; eauto.
Qed.

Lemma ParsePsfbAppItem_advanced s : inv s -> _state s = State_PSFB_AppItem -> advanced s (ParsePsfbAppItem p s).
Proof.
  intros I St. start I. unfold ParsePsfbAppItem. test C; [fails|]. reads.
  do 4 (let C := fresh "K" in test C; [fails|reads]). moves.
Qed.

Lemma read_ssrcs_ok n : forall o, 0 <= o -> o + 4 * Z.of_nat n <= zlen p ->
  exists l, read_ssrcs p n o = Ok l /\ zlen l = Z.of_nat n.
Proof.
  induction n as [|n IH]; intros o O L; cbn [read_ssrcs]; [eexists; split; reflexivity|].
  rewrite be32_ok by lia. cbn [bind]. destruct (IH (o + 4)) as (l & -> & Zl); [lia|lia|]. cbn [bind].
  eexists. split; [reflexivity|]. rewrite zlen_cons. lia.
Qed.

Lemma ParsePsfbREMBItem_advanced s : inv s -> _state s = State_PSFB_REMBItem -> advanced s (ParsePsfbREMBItem p s).
Proof.
  intros I St. start I. unfold ParsePsfbREMBItem. test C; [fails|]. reads.
  pose proof (bytes_rd p (_ptrRTCPData s) B) as R. unfold in_u8 in R.
  test C2; [fails|]. unfold length_ in C, C2. fields.
  destruct (read_ssrcs_ok (Z.to_nat (rd p (_ptrRTCPData s))) (_ptrRTCPData s + 4)) as (l & -> & _); [lia|lia|].
  cbn [bind]. moves. now rewrite St.
Qed.

(** ** Extended reports *)

Lemma ParseXrDlrrItem_advanced s : inv s -> _state s = State_XR_DLLRItem -> advanced s (ParseXrDlrrItem p s).
Proof.
  intros I St. start I. unfold ParseXrDlrrItem. destruct (_numberOfBlocks s =? 0) eqn:Z0.
  { eexists _, _. split; [reflexivity|]. destruct I as [D E T U0 S].
    split; [constructor; cbn; auto; discriminate|]. split; [reflexivity|].
    unfold measure, pos. cbn. rewrite St. cbn. lia. }
  test C; [fails|]. reads. moves. unfold in_u8. lia.
Qed.

Lemma ParseXrItem_advanced s : inv s -> _state s = State_XRItem -> advanced s (ParseXrItem p s).
Proof.
  intros I St. start I. unfold ParseXrItem. test C; [fails|]. reads.
  pose proof (b16_range p (_ptrRTCPData s + 2) B) as R. unfold in_u16 in R.
  set (n := b16 p (_ptrRTCPData s + 2)) in *. unfold length_ in C.
  let C := fresh "K" in test C.
  { unfold ParseXrReceiverReferenceTimeItem. test C1; [fails|].
    apply orb_false_iff in C1 as [_ C1]. unfold length_ in C1. fields.
    rewrite !be32_ok by lia. cbn [bind]. moves. }
  let C := fresh "K" in test C.
  { unfold ParseXrDlrr. test C1; [fails|]. moves. apply u8_range. }
  let C := fresh "K" in test C.
  { unfold ParseXrVoipMetricItem. test C1; [fails|].
    apply orb_false_iff in C1 as [_ C1]. unfold length_ in C1. fields.
    rewrite !be32_ok, !be16_ok, !byte_ok by lia. cbn [bind]. moves. }
  unfold ParseXrUnsupportedBlockType. test C1; [fails|]. unfold length_ in C1. fields. moves.
Qed.

(** ** Source descriptions *)

Lemma align_ok fuel : forall s octets, (- octets) mod 4 <= Z.of_nat fuel ->
  align fuel s octets = Ok (set_data s (_ptrRTCPData s + (- octets) mod 4)).
Proof.
  induction fuel as [|fuel IH]; intros s octets F; cbn [align]; destruct (Z.eqb_spec (octets mod 4) 0) as [E|E].
  1, 3: replace ((- octets) mod 4) with 0 by (Z.to_euclidean_division_equations; lia);
    rewrite Z.add_0_r; now destruct s.
  - exfalso. clear B. Z.to_euclidean_division_equations. lia.
  - assert (K : (- (octets + 1)) mod 4 = (- octets) mod 4 - 1) by (clear B; Z.to_euclidean_division_equations; lia).
    rewrite IH by lia. rewrite K. f_equal. unfold set_data. cbn. f_equal. lia.
Qed.

Lemma read_name_ok n : forall o, 0 <= o -> o + Z.of_nat n <= zlen p ->
  exists r, read_name p n o = Ok r /\ forall l, r = Some l -> zlen l = Z.of_nat n.
Proof.
  induction n as [|n IH]; intros o O L; cbn [read_name]; [eexists; split; [reflexivity|]; now intros l [= <-]|].
  rewrite byte_ok by lia. cbn [bind]. destruct (illegal _); [eexists; split; [reflexivity|discriminate]|].
  destruct (IH (o + 1)) as (r & -> & Hr); [lia|lia|]. cbn [bind].
  eexists. split; [reflexivity|]. intros l. destruct r as [m|]; [|discriminate]. intros [= <-].
  rewrite zlen_cons, (Hr m eq_refl). lia.
Qed.

Definition is_cname (packet : RTCPPacket) : Prop := exists c, packet = PktCName c.

(** What reading inside a source description does not change. *)
Definition inside (s s' : RTCPParserV2) : Prop :=
  _validPacket s' = _validPacket s /\ _ptrRTCPBlockEnd s' = _ptrRTCPBlockEnd s /\
  _numberOfBlocks s' = _numberOfBlocks s /\ Z.min (_ptrRTCPData s) (_ptrRTCPBlockEnd s) <= _ptrRTCPData s'.

Lemma ParseSDESItem_ok fuel : forall s octets found,
  0 <= _ptrRTCPData s -> 0 <= _ptrRTCPBlockEnd s <= zlen p -> Z.max 0 (_ptrRTCPBlockEnd s - _ptrRTCPData s) <= Z.of_nat fuel ->
  (found = true -> is_cname (_packet s)) ->
  exists ok s', ParseSDESItem p fuel s octets found = Ok (ok, s') /\ inside s s' /\
    (if ok then _state s' = _state s /\ is_cname (_packet s')
     else _state s' = _state s \/ _ptrRTCPData s' = _ptrRTCPBlockEnd s).
Proof.
  induction fuel as [|fuel IH]; intros s octets found D E F C; cbn [ParseSDESItem];
    (destruct (Z.ltb_spec (_ptrRTCPData s) (_ptrRTCPBlockEnd s));
      [|eexists _, _; split; [reflexivity|]; unfold inside; fields; repeat split; auto; lia]); [lia|].
  pose proof (bytes_rd p (_ptrRTCPData s + 1) B) as R. unfold in_u8 in R.
  rewrite byte_ok by lia. cbn [bind]. fields. destruct (rd p (_ptrRTCPData s) =? 0).
  { rewrite align_ok by (pose proof (Z.mod_pos_bound (- (octets + 1)) 4); lia). cbn [bind].
    pose proof (Z.mod_pos_bound (- (octets + 1)) 4). eexists _, _. split; [reflexivity|]. unfold inside. fields.
    split; [repeat split; auto; lia|]. destruct found; auto. }
  assert (Next : forall s1 octets found, inside s s1 -> _ptrRTCPData s + 1 <= _ptrRTCPData s1 ->
    _state s1 = _state s -> (found = true -> is_cname (_packet s1)) ->
    exists ok s', ParseSDESItem p fuel s1 octets found = Ok (ok, s') /\ inside s s' /\
    (if ok then _state s' = _state s /\ is_cname (_packet s')
     else _state s' = _state s \/ _ptrRTCPData s' = _ptrRTCPBlockEnd s)).
  { intros s1 o1 f1 (N1 & N2 & N3 & N4) N5 N6 N7.
    destruct (IH s1 o1 f1) as (ok & s' & -> & (P1 & P2 & P3 & P4) & P5); auto; rewrite ?N2; try lia.
    exists ok, s'. split; [reflexivity|]. rewrite N2 in *. split; [unfold inside; repeat split; try congruence; lia|].
    now rewrite N6 in P5. }
  destruct (Z.ltb_spec (_ptrRTCPData s + 1) (_ptrRTCPBlockEnd s)).
  2: { apply Next; fields; auto; [unfold inside; fields; repeat split; lia|lia]. }
  rewrite byte_ok by lia. cbn [bind]. destruct (rd p (_ptrRTCPData s) =? 1).
  2: { apply Next; fields; auto; [unfold inside; fields; repeat split; lia|lia]. }
  fields. destruct (Z.leb_spec (_ptrRTCPBlockEnd s) (_ptrRTCPData s + 1 + 1 + rd p (_ptrRTCPData s + 1))).
  { eexists _, _; split; [reflexivity|]; unfold inside; fields; repeat split; auto; lia. }
  destruct (read_name_ok (Z.to_nat (rd p (_ptrRTCPData s + 1))) (_ptrRTCPData s + 1 + 1)) as (r & -> & _); [lia|lia|].
  cbn [bind]. destruct r as [l|].
  - apply Next; fields; auto; [unfold inside; fields; repeat split; lia|lia|]. intros _. now eexists.
  - eexists _, _; split; [reflexivity|]; unfold inside; fields; repeat split; auto; lia.
Qed.

Lemma find_cname_ok fuel : forall s,
  0 <= _ptrRTCPData s -> 0 <= _ptrRTCPBlockEnd s <= zlen p -> Z.max 0 (_ptrRTCPBlockEnd s - _ptrRTCPData s) <= Z.of_nat fuel ->
  _state s = State_SDESChunk \/ _ptrRTCPData s = _ptrRTCPBlockEnd s ->
  exists ok s', find_cname p fuel s = Ok (ok, s') /\ inside s s' /\
    (if ok then _state s' = State_SDESChunk /\ _ptrRTCPData s < _ptrRTCPBlockEnd s /\ _ptrRTCPData s + 4 <= _ptrRTCPData s'
     else _state s' = State_TopLevel /\ _ptrRTCPData s' = _ptrRTCPBlockEnd s).
Proof.
  induction fuel as [|fuel IH]; intros s D E F C; cbn [find_cname];
    (destruct (Z.ltb_spec (_ptrRTCPData s) (_ptrRTCPBlockEnd s));
      [|eexists _, _; split; [reflexivity|]; unfold inside; fields; repeat split; auto; lia]); [lia|].
  destruct (Z.ltb_spec (length_ s) 4) as [L|L]; unfold length_ in L.
  { eexists _, _; split; [reflexivity|]; unfold inside; fields; repeat split; auto; lia. }
  rewrite be32_ok by lia. cbn [bind]. destruct C as [C|C]; [|lia].
  destruct (ParseSDESItem_ok (S (length p)) (set_data s (_ptrRTCPData s + 4)) 0 false)
    as (ok & s1 & -> & (P1 & P2 & P3 & P4) & P5); fields; try discriminate; try lia; [unfold zlen in E; lia|].
  cbn [bind]. destruct ok.
  - destruct P5 as [P5 [c Pc]]. rewrite Pc. eexists _, _. split; [reflexivity|]. unfold inside. fields.
    rewrite P1, P3. repeat split; auto; try lia; try congruence.
  - destruct (IH s1) as (ok & s' & -> & (Q1 & Q2 & Q3 & Q4) & Q5); rewrite ?P2; try lia.
    { rewrite C in P5. destruct P5; auto. }
    rewrite P2 in *. eexists _, _. split; [reflexivity|]. split; [unfold inside; repeat split; try congruence; lia|].
    destruct ok; [|assumption]. destruct Q5 as (Q5 & Q6 & Q7). repeat split; auto. lia.
Qed.

Lemma ParseSDESChunk_advanced s : inv s -> _state s = State_SDESChunk -> advanced s (ParseSDESChunk p s).
Proof.
  intros I St. start I. unfold ParseSDESChunk. test C; [fails|].
  destruct (find_cname_ok (S (length p)) (set_blocks s (_numberOfBlocks s - 1))) as (ok & s' & -> & (P1 & P2 & P3 & P4) & P5);
    fields; auto; [unfold zlen in *; lia|].
  eexists _, _. split; [reflexivity|].
  assert (Us : in_u8 (_numberOfBlocks s')) by (rewrite P3; unfold in_u8; lia).
  destruct ok.
  - destruct P5 as (P5 & P6 & P7). split; [constructor; rewrite ?P5, ?P2; auto; try lia; try discriminate; exact Logic.I|].
    split; [exact P1|]. unfold measure, pos. rewrite St, P5, P2. cbn [weight]. lia.
  - destruct P5 as (P5 & P6). split; [constructor; rewrite ?P5, ?P2; auto; try lia; exact Logic.I|].
    split; [exact P1|]. unfold measure, pos. rewrite St, P5, P6. cbn [weight]. lia.
Qed.

(** Every item keeps the invariant and comes nearer to the end. *)
Lemma ParseItem_advanced s : inv s -> _state s <> State_TopLevel -> advanced s (ParseItem p s).
Proof.
  intros I N. unfold ParseItem. destruct (_state s) eqn:St; [congruence|..].
  - now apply ParseReportBlockItem_advanced.
  - now apply ParseSDESChunk_advanced.
  - now apply ParseBYEItem_advanced.
  - now apply ParseIJItem_advanced.
  - now apply ParseNACKItem_advanced.
  - now apply ParseTMMBRItem_advanced.
  - now apply ParseTMMBNItem_advanced.
  - now apply ParseSLIItem_advanced.
  - now apply ParseRPSIItem_advanced.
  - now apply ParseFIRItem_advanced.
  - now apply ParsePsfbAppItem_advanced.
  - now apply ParsePsfbREMBItem_advanced.
  - now apply ParseXrItem_advanced.
  - now apply ParseXrDlrrItem_advanced.
  - now apply ParseAPPItem_advanced.
Qed.

(** ** The packets *)

(** A feedback packet that is shorter than its fixed part. *)
Definition short_feedback (o : Z) : Prop :=
  exists h, RtcpParseCommonHeader p o (zlen p - o) = Ok (Some h) /\
    (packet_type h = PT_RTPFB \/ packet_type h = PT_PSFB) /\ BlockSize h < 12.

(** What the switch on the type of a packet does: it goes on, with no item, or
    it stops, at an item or where the packet was too short; only at a short
    feedback packet does it go on where it is. *)
Definition switched (s : RTCPParserV2) (short : Prop) (r : res (bool * RTCPParserV2)) : Prop :=
  exists again s', r = Ok (again, s') /\ inv s' /\ _validPacket s' = _validPacket s /\
    (again = true -> _state s' = State_TopLevel /\ _packetType s' = _packetType s) /\
    (measure s' < measure s \/ (again = false /\ _packetType s' = _packetType s) \/ (again = true /\ s' = s /\ short)).

Lemma top_moved s s' :
  inv s -> _state s = State_TopLevel -> _ptrRTCPData s + 4 <= _ptrRTCPData s' <= _ptrRTCPBlockEnd s ->
  _ptrRTCPBlockEnd s' = _ptrRTCPBlockEnd s -> in_u8 (_numberOfBlocks s') ->
  shape (_state s') (_packet s') -> inv s' /\ measure s' < measure s.
Proof.
  intros [D E T U S] N M Ee Us Sh. split; [constructor; try assumption; rewrite ?Ee; lia|].
  unfold measure, pos. pose proof (weight_range (_state s')). rewrite Ee, N. cbn [weight].
  destruct (_state s'); cbn [weight] in *; lia.
Qed.

Ltac switches I N := eexists _, _; split; [reflexivity|];
  let K := fresh "K" in
  lazymatch goal with |- inv ?s' /\ _ =>
    lazymatch type of I with inv ?s =>
      assert (K : inv s' /\ measure s' < measure s)
        by (apply top_moved; fields; auto; unfold length_ in *; fields; try lia; try (unfold in_u8; lia); rewrite ?N; cbn; eauto)
    end end;
  split; [exact (proj1 K)|]; split; [reflexivity|]; split; [|left; exact (proj2 K)];
  first [discriminate | intros _; split; [first [reflexivity|exact N]|reflexivity]].

Lemma ParseFBCommon_switched s h :
  inv s -> _state s = State_TopLevel -> RtcpParseCommonHeader p (_ptrRTCPData s) (zlen p - _ptrRTCPData s) = Ok (Some h) ->
  (packet_type h = PT_RTPFB \/ packet_type h = PT_PSFB) -> _ptrRTCPBlockEnd s = _ptrRTCPData s + BlockSize h ->
  switched s (short_feedback (_ptrRTCPData s)) (let! (ok, s) := ParseFBCommon p h s in Ok (negb ok, s)).
Proof.
  intros I N Hh Ht Be. start I. unfold ParseFBCommon. destruct (Z.ltb_spec (length_ s) 12) as [L|L].
  { cbn [bind negb]. eexists _, _. split; [reflexivity|]. split; [assumption|]. split; [reflexivity|].
    split; [auto|]. right. right. repeat split. exists h. repeat split; auto. unfold length_ in L. lia. }
  unfold length_ in L. reads.
  destruct (packet_type h =? PT_RTPFB).
  - do 4 (destruct (_ =? _); [cbn [bind negb item header_read]; switches I N|]).
    destruct (_ =? _).
    + destruct (TransportFeedbackRoundtrip.ParseFrom_report p (_ptrRTCPData s) (length_ s) B) as (r & -> & _); [lia|unfold length_; lia|].
      cbn [bind]. destruct r; cbn [bind negb]; switches I N.
    + cbn [bind negb]. switches I N.
  - do 5 (destruct (_ =? _); [cbn [bind negb item header_read]; switches I N|]).
    cbn [bind negb]. switches I N.
Qed.

Lemma inv_blocks s n : inv s -> in_u8 n -> inv (set_blocks s n).
Proof. intros [D E T U S] N. now constructor. Qed.

Lemma ParseBlock_switched s h :
  inv s -> _state s = State_TopLevel -> RtcpParseCommonHeader p (_ptrRTCPData s) (zlen p - _ptrRTCPData s) = Ok (Some h) ->
  _ptrRTCPBlockEnd s = _ptrRTCPData s + BlockSize h -> 4 <= BlockSize h -> 0 <= count_or_format h < 32 ->
  switched s (short_feedback (_ptrRTCPData s)) (ParseBlock p h s).
Proof.
  intros I N Hh Be Hs Hc. start I. unfold ParseBlock.
  assert (Un : in_u8 (count_or_format h)) by (unfold in_u8; lia).
  assert (Ic : inv (set_blocks s (count_or_format h))) by now apply inv_blocks.
  set (c := set_blocks s (count_or_format h)) in *.
  assert (Ec : _ptrRTCPData c = _ptrRTCPData s /\ _ptrRTCPBlockEnd c = _ptrRTCPBlockEnd s /\ _state c = _state s)
    by (repeat split). destruct Ec as (Ec1 & Ec2 & Ec3).
  assert (Same : forall s', s' = c \/ s' = EndCurrentBlock c -> switched s (short_feedback (_ptrRTCPData s)) (Ok (false, s'))).
  { intros s' Es. eexists _, _. split; [reflexivity|]. destruct Ic as [D E T U' S].
    destruct Es as [->| ->]; (split; [constructor; fields; auto; rewrite ?Ec1, ?Ec2; lia|]);
      (split; [reflexivity|]; split; [discriminate|]; right; left; now split). }
  destruct (packet_type h =? PT_SR).
  { unfold ParseSR. destruct (Z.ltb_spec (length_ c) 28); [cbn [bind]; apply Same; auto|]. unfold length_ in *.
    rewrite Ec1, Ec2 in *. reads. cbn [item bind].
    destruct (negb _); switches I N. }
  destruct (packet_type h =? PT_RR).
  { unfold ParseRR. destruct (Z.ltb_spec (length_ c) 8); [cbn [bind]; apply Same; auto|]. unfold length_ in *.
    rewrite Ec1, Ec2 in *. reads. cbn [item header_read bind]. switches I N. }
  destruct (packet_type h =? PT_SDES).
  { unfold ParseSDES. destruct (Z.ltb_spec (length_ c) 8); unfold length_ in *; rewrite Ec1, Ec2 in *;
      cbn [end_items bind negb]; switches I N. }
  destruct (packet_type h =? PT_BYE).
  { unfold ParseBYE, ParseBYEItem. fields. unfold length_. fields. rewrite Ec1, Ec2 in *. subst c. fields.
    destruct (_ || _) eqn:C; [cbn [end_items bind negb]; switches I N|]. apply orb_false_iff in C as [C1 C2].
    reads. cbn [item bind negb]. destruct (4 * count_or_format h <=? _) eqn:C3; switches I N. }
  destruct (packet_type h =? PT_IJ).
  { unfold ParseIJ. destruct (Z.ltb_spec (length_ c) 4); [cbn [bind]; apply Same; auto|].
    unfold length_ in *; rewrite Ec1, Ec2 in *. cbn [bind]. switches I N. }
  destruct (_ || _) eqn:Ct.
  { apply ParseFBCommon_switched; auto. apply orb_true_iff in Ct as [Ct|Ct]; apply Z.eqb_eq in Ct; auto. }
  destruct (packet_type h =? PT_APP).
  { unfold ParseAPP. destruct (Z.ltb_spec (length_ s) 12); unfold length_ in *; [cbn [bind negb]; switches I N|].
    reads. cbn [item header_read bind negb]. switches I N. }
  destruct (packet_type h =? PT_XR).
  { unfold ParseXr. destruct (Z.ltb_spec (length_ s) 8); unfold length_ in *; [cbn [bind negb]; switches I N|].
    reads. cbn [item header_read bind negb]. switches I N. }
  switches I N.
Qed.

(** ** The iteration *)

(** Enough fuel for the state: the parser ends there and keeps the invariant;
    if it has an item it is nearer to the end. *)
Definition ends (s : RTCPParserV2) (run : nat -> res RTCPParserV2) : Prop :=
  exists s', (forall fuel, measure s < Z.of_nat fuel -> run fuel = Ok s') /\ inv s' /\
    _validPacket s' = _validPacket s /\ (_packetType s' <> _packetType s -> measure s' < measure s).
(** No fuel is enough: there is a short feedback packet. *)
Definition hangs (run : nat -> res RTCPParserV2) : Prop :=
  (forall fuel, run fuel = NoFuel) /\ exists o, 0 <= o < zlen p /\ short_feedback o.

Lemma IterateTopLevel_ends_or_hangs n : forall s,
  inv s -> _state s = State_TopLevel -> measure s < Z.of_nat n ->
  ends s (fun fuel => IterateTopLevel p fuel s) \/ hangs (fun fuel => IterateTopLevel p fuel s).
Proof.
  induction n as [|n IH]; intros s I N M; pose proof (measure_nonneg s I); [lia|]. start I.
  destruct (Z.leb_spec (zlen p) (_ptrRTCPData s)) as [L|L].
  { left. exists s. split; [intros [|fuel] F; [lia|]; cbn [IterateTopLevel]; now replace (zlen p <=? _) with true by lia|].
    repeat split; try apply I; congruence. }
  destruct (RtcpParseCommonHeader_safe p (_ptrRTCPData s) (zlen p - _ptrRTCPData s) B) as (h & Eh & Hh); [lia|lia|].
  destruct h as [h|].
  2: { left. exists s. split; [intros [|fuel] F; [lia|]; cbn [IterateTopLevel]; replace (zlen p <=? _) with false by lia; now rewrite Eh|].
       repeat split; try apply I; congruence. }
  destruct (Hh h eq_refl) as (_ & H2 & _ & _ & H3 & _). clear Hh.
  set (s1 := set_block_end s (_ptrRTCPData s + BlockSize h)).
  assert (I1 : inv s1) by (destruct I as [D E T U' S]; constructor; subst s1; fields; auto; lia).
  assert (Unf : forall fuel, IterateTopLevel p (S fuel) s =
    (let! (again, s) := ParseBlock p h s1 in if again then IterateTopLevel p fuel s else Ok s)).
  { intros fuel. cbn [IterateTopLevel]. replace (zlen p <=? _ptrRTCPData s) with false by lia. rewrite Eh. cbn [bind].
    fields. now replace (zlen p <? _) with false by lia. }
  destruct (ParseBlock_switched s1 h I1 N Eh eq_refl) as (again & s2 & E2 & I2 & V2 & A2 & D2); [lia|lia|].
  change (_validPacket s1) with (_validPacket s) in *. change (_packetType s1) with (_packetType s) in *.
  change (measure s1) with (3 * (zlen p - pos s1) + weight (_state s1)) in D2.
  assert (Ms : 3 * (zlen p - pos s1) + weight (_state s1) = measure s) by (unfold measure, pos, s1; fields; now rewrite N).
  rewrite Ms in D2. destruct again.
  - destruct (A2 eq_refl) as [N2 T2]. destruct D2 as [D2|[[? _]|(_ & -> & Sh)]]; [|discriminate|].
    + destruct (IH s2 I2 N2) as [(s' & R & Is & Vs & Ts)|(R & o & Ro & Sh)]; [lia| |].
      * left. exists s'. split; [|repeat split; try apply Is; [congruence|intros K; rewrite T2 in Ts; specialize (Ts K); lia]].
        intros [|fuel] F; [lia|]. rewrite Unf, E2. cbn [bind]. apply R. lia.
      * right. split; [|eauto]. intros [|fuel]; [reflexivity|]. rewrite Unf, E2. apply R.
    + right. split; [|exists (_ptrRTCPData s); split; [lia|exact Sh]].
      assert (Stuck : forall fuel, IterateTopLevel p fuel s1 = NoFuel).
      { induction fuel as [|fuel IHf]; [reflexivity|]. cbn [IterateTopLevel].
        change (_ptrRTCPData s1) with (_ptrRTCPData s). replace (zlen p <=? _ptrRTCPData s) with false by lia.
        rewrite Eh. cbn [bind]. change (set_block_end s1 _) with s1. change (_ptrRTCPBlockEnd s1) with (_ptrRTCPData s + BlockSize h).
        replace (zlen p <? _) with false by lia. rewrite E2. cbn [bind]. exact IHf. }
      intros [|fuel]; [reflexivity|]. rewrite Unf, E2. apply Stuck.
  - left. exists s2. split; [intros [|fuel] F; [lia|]; rewrite Unf, E2; reflexivity|].
    repeat split; try apply I2; [congruence|]. intros K. destruct D2 as [D2|[[_ D2]|[? _]]]; [lia|congruence|discriminate].
Qed.

Lemma Iterate_ends_or_hangs n : forall s,
  inv s -> measure s < Z.of_nat n ->
  (exists s', (forall fuel, measure s + 1 < Z.of_nat fuel -> Iterate p fuel s = Ok s') /\ inv s' /\
     _validPacket s' = _validPacket s /\ (_packetType s' <> kInvalid -> measure s' < measure s)) \/
  hangs (fun fuel => Iterate p fuel s).
Proof.
  induction n as [|n IH]; intros s I M; pose proof (measure_nonneg s I); [lia|].
  set (s1 := set_type s kInvalid).
  assert (I1 : inv s1) by (destruct I; now constructor).
  destruct (IsValid s1) eqn:Va.
  2: { left. exists s1. split; [intros [|fuel] F; [lia|]; cbn [Iterate]; fold s1; now rewrite Va|].
       repeat split; try apply I1. cbn. congruence. }
  assert (Ms : measure s1 = measure s) by reflexivity.
  assert (Dec : _state s1 = State_TopLevel \/ _state s1 <> State_TopLevel) by (destruct (_state s1); auto; right; discriminate).
  destruct Dec as [N|N].
  - assert (Unf : forall fuel, Iterate p (S fuel) s = IterateTopLevel p fuel s1)
      by (intros fuel; cbn [Iterate]; fold s1; rewrite Va; now rewrite N).
    destruct (IterateTopLevel_ends_or_hangs (S n) s1 I1 N) as [(s' & R & Is & Vs & Ts)|(R & o & Ro & Sh)]; [lia| |].
    + left. exists s'. split; [intros [|fuel] F; [lia|]; rewrite Unf; apply R; lia|]. repeat split; try apply Is; assumption.
    + right. split; [|eauto]. intros [|fuel]; [reflexivity|]. rewrite Unf. apply R.
  - assert (Unf : forall fuel, Iterate p (S fuel) s =
      (let! (success, s) := ParseItem p s1 in if success then Ok s else Iterate p fuel s))
      by (intros fuel; cbn [Iterate]; fold s1; rewrite Va; destruct (_state s1); congruence).
    destruct (ParseItem_advanced s1 I1 N) as (ok & s2 & E2 & I2 & V2 & D2). destruct ok.
    + left. exists s2. split; [intros [|fuel] F; [lia|]; rewrite Unf, E2; reflexivity|].
      split; [assumption|]. split; [exact V2|]. intros _. lia.
    + destruct (IH s2 I2) as [(s' & R & Is & Vs & Ts)|(R & o & Ro & Sh)]; [lia| |].
      * left. exists s'. split; [intros [|fuel] F; [lia|]; rewrite Unf, E2; cbn [bind]; apply R; lia|].
        split; [assumption|]. split; [rewrite Vs; exact V2|]. intros K. specialize (Ts K). lia.
      * right. split; [|eauto]. intros [|fuel]; [reflexivity|]. rewrite Unf, E2. apply R.
Qed.

(** With less fuel than a run takes there is no other result. *)
Lemma IterateTopLevel_less fuel : forall s r more, IterateTopLevel p more s = Ok r -> (fuel <= more)%nat ->
  IterateTopLevel p fuel s = NoFuel \/ IterateTopLevel p fuel s = Ok r.
Proof.
  induction fuel as [|fuel IH]; intros s r more E L; [now left|]. destruct more as [|more]; [lia|].
  cbn [IterateTopLevel] in *. destruct (zlen p <=? _); [now right|].
  destruct (RtcpParseCommonHeader p _ _) as [[h|]| |]; cbn [bind] in *; auto.
  destruct (zlen p <? _); [now right|]. destruct (ParseBlock p h _) as [[again s1]| |]; cbn [bind] in *; try discriminate.
  destruct again; [|now right]. apply (IH s1 r more); [assumption|lia].
Qed.

Lemma Iterate_less fuel : forall s r more, Iterate p more s = Ok r -> (fuel <= more)%nat ->
  Iterate p fuel s = NoFuel \/ Iterate p fuel s = Ok r.
Proof.
  induction fuel as [|fuel IH]; intros s r more E L; [now left|]. destruct more as [|more]; [lia|].
  cbn [Iterate] in *. destruct (IsValid _); [|now right].
  destruct (_state (set_type s kInvalid)); try (apply (IterateTopLevel_less fuel _ _ more); [assumption|lia]);
    (destruct (ParseItem p (set_type s kInvalid)) as [[ok s1]| |]; cbn [bind] in *; try discriminate;
     destruct ok; [now right|]; apply (IH s1 r more); [assumption|lia]).
Qed.

End Facts.

(** ** All the items of a packet *)

(** What a client may look at: the type, the structure that belongs to it, and
    the feedback message. *)
Definition fills (t : RTCPPacketTypes) : bool :=
  match t with
  | kInvalid | kSdes | kExtendedIj | kPsfbRemb | kRtpfbSrReq | kXrDlrrReportBlock | kTransportFeedback => false
  | _ => true
  end.
Definition event : Type := RTCPPacketTypes * RTCPPacket * option TransportFeedback.TransportFeedback.
Definition observe (s : RTCPParserV2) : event :=
  let t := PacketType s in
  (t, if fills t then Packet s else PktNone, match t with kTransportFeedback => rtcp_packet_ s | _ => None end).

(** The loop of the clients, until there is no item. *)
Fixpoint items (fuel : nat) (p : list Z) (s : RTCPParserV2) : res (list event) :=
  match fuel with
  | O => NoFuel
  | S n =>
      let! s := Iterate p fuel s in
      match PacketType s with
      | kInvalid => Ok []
      | _ => let! l := items n p s in Ok (observe s :: l)
      end
  end.

Lemma items_S n p s s' : Iterate p (S n) s = Ok s' ->
  items (S n) p s = match PacketType s' with
                    | kInvalid => Ok []
                    | _ => let! l := items n p s' in Ok (observe s' :: l)
                    end.
Proof. intros E. cbn [items]. now rewrite E. Qed.

Lemma items_end_or_hang p n : bytes p -> forall s, inv p s -> measure p s < Z.of_nat n ->
  (exists l, (forall fuel, measure p s + 1 < Z.of_nat fuel -> items fuel p s = Ok l) /\ zlen l <= measure p s) \/
  ((forall fuel, items fuel p s = NoFuel) /\ exists o, 0 <= o < zlen p /\ short_feedback p o).
Proof.
  intros B. induction n as [|n IH]; intros s I M; pose proof (measure_nonneg p s I); [lia|].
  destruct (Iterate_ends_or_hangs p B (S n) s I M) as [(s' & R & Is & Vs & Ts)|(R & o & Ro & Sh)].
  2: { right. split; [|eauto]. intros [|fuel]; [reflexivity|]. cbn [items]. now rewrite R. }
  assert (Dec : PacketType s' = kInvalid \/ PacketType s' <> kInvalid) by (destruct (PacketType s'); auto; right; discriminate).
  destruct Dec as [K|K].
  { left. exists []. split; [|cbn; lia]. intros [|fuel] F; [lia|]. rewrite (items_S _ _ _ _ (R _ F)). now rewrite K. }
  assert (More : forall r, match PacketType s' with kInvalid => Ok [] | _ => let! l := r in Ok (observe s' :: l) end =
    (let! l := r in Ok (observe s' :: l))) by (intros r; destruct (PacketType s'); congruence).
  specialize (Ts K). destruct (IH s' Is) as [(l & Rl & Ll)|(Rl & o & Ro & Sh)]; [lia| |].
  - left. exists (observe s' :: l). split; [|rewrite zlen_cons; lia].
    intros [|fuel] F; [lia|]. rewrite (items_S _ _ _ _ (R _ F)), More, Rl by lia. reflexivity.
  - right. split; [|eauto]. intros [|fuel]; [reflexivity|]. cbn [items].
    set (more := Nat.max (S fuel) (Z.to_nat (measure p s + 2))).
    destruct (Iterate_less p (S fuel) s s' more) as [->| ->]; [apply R; lia|lia|reflexivity|].
    cbn [bind]. rewrite More, Rl. reflexivity.
Qed.

Lemma inv_new p valid : inv p (mk_parser valid 0 0 State_TopLevel 0 0 kInvalid PktNone None).
Proof. pose proof (zlen_nonneg p). constructor; cbn; try lia. int_lia. Qed.

Lemma new_parser_ok p reduced : bytes p ->
  exists valid, new_RTCPParserV2 p reduced = Ok (mk_parser valid 0 0 State_TopLevel 0 0 kInvalid PktNone None) /\
    (valid = true -> reduced = false -> rd p 1 = PT_SR \/ rd p 1 = PT_RR).
Proof.
  intros B. unfold new_RTCPParserV2, Validate. destruct (Z.leb_spec (zlen p) 0).
  { eexists. split; [reflexivity|discriminate]. }
  destruct (RtcpParseCommonHeader_safe p 0 (zlen p) B) as (h & -> & Hh); [lia|lia|]. cbn [bind].
  eexists. split; [reflexivity|]. destruct h as [h|]; [|discriminate]. intros V ->.
  destruct (Hh h eq_refl) as (_ & _ & _ & _ & _ & _ & Hp & _). change (0 + 1) with 1 in Hp. rewrite <- Hp. cbn [orb] in V.
  destruct (Z.eqb_spec (packet_type h) PT_SR); [auto|]. destruct (Z.eqb_spec (packet_type h) PT_RR); [auto|discriminate].
Qed.

(** C5. On any bytes the parser reads nothing outside the buffer, and either
    all its items are handed out, in number and in fuel at most three times the
    bytes, or the packet contains the header of a feedback packet shorter than
    its twelve fixed bytes, and no fuel is enough.  When packets of reduced
    size are not allowed there are items only if the first packet is a report. *)
Theorem parser_ends_or_hangs p reduced : bytes p ->
  exists s, new_RTCPParserV2 p reduced = Ok s /\
  ((exists l, (forall fuel, 3 * zlen p + 1 < Z.of_nat fuel -> items fuel p s = Ok l) /\ zlen l <= 3 * zlen p /\
      (reduced = false -> l <> [] -> rd p 1 = PT_SR \/ rd p 1 = PT_RR)) \/
   ((forall fuel, items fuel p s = NoFuel) /\ exists o, 0 <= o < zlen p /\ short_feedback p o)).
Proof.
  intros B. destruct (new_parser_ok p reduced B) as (valid & E & V).
  eexists. split; [exact E|].
  pose proof (zlen_nonneg p). set (s := mk_parser valid 0 0 State_TopLevel 0 0 kInvalid PktNone None).
  assert (M : measure p s = 3 * zlen p) by (unfold measure, pos, s; cbn [_state _ptrRTCPData weight]; lia).
  destruct (items_end_or_hang p (S (Z.to_nat (3 * zlen p))) B s (inv_new p valid)) as [(l & R & L)|K]; [lia| |now right].
  left. exists l. rewrite M in *. split; [exact R|]. split; [exact L|]. intros Rd N. apply V; [|exact Rd].
  destruct valid; [reflexivity|]. exfalso. apply N.
  specialize (R (S (S (Z.to_nat (3 * zlen p)))) ltac:(lia)). cbn in R. congruence.
Qed.

Lemma parser_ends_or_hangs_witness : exists s, new_RTCPParserV2 [0x80; 201; 0; 1; 0; 0; 0; 9] false = Ok s /\
  ((exists l, (forall fuel, 3 * 8 + 1 < Z.of_nat fuel -> items fuel [0x80; 201; 0; 1; 0; 0; 0; 9] s = Ok l) /\ zlen l <= 3 * 8 /\
      (false = false -> l <> [] -> 201 = PT_SR \/ 201 = PT_RR)) \/
   ((forall fuel, items fuel [0x80; 201; 0; 1; 0; 0; 0; 9] s = NoFuel) /\
    exists o, 0 <= o < 8 /\ short_feedback [0x80; 201; 0; 1; 0; 0; 0; 9] o)).
Proof.
  apply (parser_ends_or_hangs [0x80; 201; 0; 1; 0; 0; 0; 9] false). apply bytes_forallb. reflexivity.
Defined.

(** Four bytes that keep the parser busy for ever. *)
Example short_feedback_hangs : exists s, new_RTCPParserV2 [0x81; 205; 0; 0] true = Ok s /\
  forall fuel, items fuel [0x81; 205; 0; 0] s = NoFuel.
Proof.
  assert (H : forall n b, IterateTopLevel [0x81; 205; 0; 0] n (mk_parser true 0 b State_TopLevel 0 0 kInvalid PktNone None) = NoFuel)
    by (induction n as [|n IH]; intros b; [reflexivity|exact (IH 4)]).
  eexists. split; [reflexivity|]. intros [|fuel]; [reflexivity|]. exact (f_equal (fun r => bind r _) (H fuel 0)).
Qed.

End RtcpParserFacts.
