(* ===== verification/RtcpPackets.v ===== *)
(** * Building RTCP packets

    Models src/orbit/webrtc/modules/rtp_rtcp/source/rtcp_packet.cc and
    rtcp_packet.h and the classes in rtcp_packet/ besides the transport feedback
    (TransportFeedback.v): sender and receiver reports, source descriptions,
    goodbyes, application packets, feedback messages and extended reports.
    An object is a record, its methods are functions with its class in their
    names.  What a packet writes after its header is the list of the bytes in
    the order they are written; packets are written one after the other
    through the writer of RtcpWriter.v. *)

From S2P Require Import Prelude Wire RtcpCommon RtcpWriter TransportFeedback RtcpParser.
Import Wire RtcpCommon RtcpWriter RtcpParser.

Module RtcpPackets.

Definition kUnusedMediaSourceSsrc0 : Z := 0.
Definition kCommonFbFmtLength : Z := 12.
Definition kHeaderLength : Z := 4.
Definition IP_PACKET_SIZE : Z := 1500.

(** [for (i = 0; i < 64; ++i) if (input_base10 <= (mantissa_max << i))]. *)
Fixpoint find_exponent (n : nat) (i input_base10 mantissa_max : Z) : Z :=
  match n with
  | O => 0
  | S n => if input_base10 <=? shl32 mantissa_max i then i else find_exponent n (i + 1) input_base10 mantissa_max
  end.
Definition ComputeMantissaAnd6bitBase2Exponent (input_base10 bits_mantissa : Z) : Z * Z :=
  let mantissa_max := Z.shiftl 1 bits_mantissa - 1 in
  let exponent := find_exponent 64 0 input_base10 mantissa_max in
  (Z.shiftr input_base10 exponent, exponent).

(** ** Report blocks *)

Record ReportBlock := mk_ReportBlock {
  source_ssrc_ : Z; fraction_lost_ : Z; cumulative_lost_ : Z; extended_high_seq_num_ : Z; jitter_ : Z;
  last_sr_ : Z; delay_since_last_sr_ : Z
}.
Definition new_ReportBlock : ReportBlock := mk_ReportBlock 0 0 0 0 0 0 0.
Definition ReportBlock_kLength : Z := 24.

Definition ReportBlock_Parse (p : list Z) (o length : Z) : res (option ReportBlock) :=
  if length <? ReportBlock_kLength then Ok None
  else
    let! ssrc := be32 p o in
    let! fraction := byte p (o + 4) in
    let! lost_high := byte p (o + 5) in
    let! lost_low := be16 p (o + 6) in
    let! highest := be32 p (o + 8) in
    let! jitter := be32 p (o + 12) in
    let! last_sr := be32 p (o + 16) in
    let! delay := be32 p (o + 20) in
    Ok (Some (mk_ReportBlock ssrc fraction (lost_high * 65536 + lost_low) highest jitter last_sr delay)).
Definition ReportBlock_Create (b : ReportBlock) : list Z :=
  bytes32 (source_ssrc_ b) ++ [u8 (fraction_lost_ b)] ++ bytes24 (cumulative_lost_ b) ++
  bytes32 (extended_high_seq_num_ b) ++ bytes32 (jitter_ b) ++ bytes32 (last_sr_ b) ++ bytes32 (delay_since_last_sr_ b).
Definition ReportBlock_WithCumulativeLost (b : ReportBlock) (cumulative_lost : Z) : bool * ReportBlock :=
  if Z.shiftl 1 24 <=? cumulative_lost then (false, b)
  else (true, mk_ReportBlock (source_ssrc_ b) (fraction_lost_ b) cumulative_lost (extended_high_seq_num_ b)
                (jitter_ b) (last_sr_ b) (delay_since_last_sr_ b)).

Definition CreateReportBlocks (blocks : list ReportBlock) : list Z := concat (map ReportBlock_Create blocks).

(** ** Reports *)

Definition kMaxNumberOfReportBlocks : Z := 0x1f.

Record SenderReport := mk_SenderReport { sr_ : RTCPPacketSR; sr_report_blocks_ : list ReportBlock }.
Definition new_SenderReport : SenderReport := mk_SenderReport (mk_SR 0 0 0 0 0 0 0) [].
Definition SenderReport_WithReportBlock (p : SenderReport) (block : ReportBlock) : bool * SenderReport :=
  if kMaxNumberOfReportBlocks <=? zlen (sr_report_blocks_ p) then (false, p)
  else
    let blocks := sr_report_blocks_ p ++ [block] in
    let sr := sr_ p in
    (true, mk_SenderReport (mk_SR (SR_SenderSSRC sr) (u8 (zlen blocks)) (NTPMostSignificant sr)
             (NTPLeastSignificant sr) (RTPTimestamp sr) (SenderPacketCount sr) (SenderOctetCount sr)) blocks).
Definition SenderReport_BlockLength (p : SenderReport) : Z :=
  8 + 20 + zlen (sr_report_blocks_ p) * ReportBlock_kLength.
Definition CreateSenderReport (sr : RTCPPacketSR) : list Z :=
  bytes32 (SR_SenderSSRC sr) ++ bytes32 (NTPMostSignificant sr) ++ bytes32 (NTPLeastSignificant sr) ++
  bytes32 (RTPTimestamp sr) ++ bytes32 (SenderPacketCount sr) ++ bytes32 (SenderOctetCount sr).

Record ReceiverReport := mk_ReceiverReport { rr_sender_ssrc_ : Z; rr_report_blocks_ : list ReportBlock }.
Definition ReceiverReport_WithReportBlock (p : ReceiverReport) (block : ReportBlock) : bool * ReceiverReport :=
  if kMaxNumberOfReportBlocks <=? zlen (rr_report_blocks_ p) then (false, p)
  else (true, mk_ReceiverReport (rr_sender_ssrc_ p) (rr_report_blocks_ p ++ [block])).
Definition ReceiverReport_BlockLength (p : ReceiverReport) : Z :=
  kHeaderLength + 4 + zlen (rr_report_blocks_ p) * ReportBlock_kLength.

(** ** Source descriptions *)

Record Chunk := mk_Chunk { ssrc : Z; name : list Z; null_octets : Z }.
Record Sdes := mk_Sdes { chunks_ : list Chunk }.
Definition kMaxNumberOfChunks : Z := 0x1f.
Definition Sdes_WithCName (p : Sdes) (ssrc : Z) (cname : list Z) : bool * Sdes :=
  if kMaxNumberOfChunks <=? zlen (chunks_ p) then (false, p)
  else
    let null_octets := 4 - (2 + zlen cname) mod 4 in
    (true, mk_Sdes (chunks_ p ++ [mk_Chunk ssrc cname null_octets])).
Definition Sdes_BlockLength (p : Sdes) : Z :=
  fold_left (fun length chunk => length + (6 + zlen (name chunk) + null_octets chunk)) (chunks_ p) kHeaderLength.
Definition CreateChunk (c : Chunk) : list Z :=
  bytes32 (ssrc c) ++ [1; u8 (zlen (name c))] ++ name c ++ zeros (null_octets c).
Definition CreateSdes (chunks : list Chunk) : list Z := concat (map CreateChunk chunks).

(** ** Goodbyes *)

Record Bye := mk_Bye { bye_sender_ssrc_ : Z; csrcs_ : list Z; reason_ : list Z }.
Definition kMaxNumberOfCsrcs : Z := 0x1f - 1.
Definition Bye_WithCsrc (p : Bye) (csrc : Z) : bool * Bye :=
  if kMaxNumberOfCsrcs <=? zlen (csrcs_ p) then (false, p)
  else (true, mk_Bye (bye_sender_ssrc_ p) (csrcs_ p ++ [csrc]) (reason_ p)).
Definition Bye_WithReason (p : Bye) (reason : list Z) : Bye := mk_Bye (bye_sender_ssrc_ p) (csrcs_ p) reason.
Definition Bye_BlockLength (p : Bye) : Z :=
  let src_count := 1 + zlen (csrcs_ p) in
  let reason_size_in_32bits := match reason_ p with [] => 0 | _ => zlen (reason_ p) / 4 + 1 end in
  kHeaderLength + 4 * (src_count + reason_size_in_32bits).
(** The length of the reason is a [uint8_t], and so many bytes are copied. *)
Definition CreateBye (p : Bye) : list Z :=
  let sources := bytes32 (bye_sender_ssrc_ p) ++ concat (map bytes32 (csrcs_ p)) in
  match reason_ p with
  | [] => sources
  | _ =>
      let reason_length := u8 (zlen (reason_ p)) in
      let reason := [reason_length] ++ firstn (Z.to_nat reason_length) (reason_ p) in
      let bytes_to_pad := Bye_BlockLength p - (kHeaderLength + zlen sources + zlen reason) in
      sources ++ reason ++ zeros bytes_to_pad
  end.

(** ** Application packets *)

Record App := mk_App { sub_type_ : Z; app_ssrc_ : Z; name_ : Z; data_ : list Z }.
Definition App_BlockLength (p : App) : Z := 12 + zlen (data_ p).
Definition CreateApp (p : App) : list Z := bytes32 (app_ssrc_ p) ++ bytes32 (name_ p) ++ data_ p.

(** ** Extended jitter reports *)

Record ExtendedJitterReport := mk_ExtendedJitterReport { inter_arrival_jitters_ : list Z }.
Definition kMaxNumberOfJitters : Z := 0x1f.
Definition ExtendedJitterReport_WithJitter (p : ExtendedJitterReport) (jitter : Z) : bool * ExtendedJitterReport :=
  if kMaxNumberOfJitters <=? zlen (inter_arrival_jitters_ p) then (false, p)
  else (true, mk_ExtendedJitterReport (inter_arrival_jitters_ p ++ [jitter])).
Definition ExtendedJitterReport_BlockLength (p : ExtendedJitterReport) : Z :=
  kHeaderLength + 4 * zlen (inter_arrival_jitters_ p).

(** ** Feedback *)

Definition kCommonFeedbackLength : Z := 8.
Definition CreateCommonFeedback (f : Feedback) : list Z := bytes32 (SenderSSRC f) ++ bytes32 (MediaSSRC f).

Record Pli := mk_Pli { pli_ssrcs_ : Feedback }.
Definition Pli_BlockLength (p : Pli) : Z := kHeaderLength + kCommonFeedbackLength.

(** A run of macroblocks is kept as the 32-bit number it is written as. *)
Record Sli := mk_Sli { sli_ssrcs_ : Feedback; items_ : list Z }.
Definition Macroblocks (picture_id first number : Z) : Z :=
  u32 (Z.lor (Z.lor (u32 (Z.shiftl first 19)) (Z.shiftl number 6)) picture_id).
Definition Macroblocks_first (item : Z) : Z := u16 (Z.shiftr item 19).
Definition Macroblocks_number (item : Z) : Z := Z.land (Z.shiftr item 6) 0x1fff.
Definition Macroblocks_picture_id (item : Z) : Z := Z.land item 0x3f.
Definition Sli_WithPictureId (p : Sli) (picture_id first_macroblock number_macroblocks : Z) : Sli :=
  mk_Sli (sli_ssrcs_ p) (items_ p ++ [Macroblocks picture_id first_macroblock number_macroblocks]).
Definition Sli_BlockLength (p : Sli) : Z := kHeaderLength + kCommonFeedbackLength + zlen (items_ p) * 4.

Record Rpsi := mk_Rpsi { padding_bytes_ : Z; rpsi_ : RTCPPacketPSFBRPSI }.
(** [do { ++required_bytes; ... } while (shifted_pid > 0)]. *)
Fixpoint required_bytes (fuel : nat) (shifted_pid : Z) : res Z :=
  match fuel with
  | O => NoFuel
  | S fuel =>
      let shifted_pid := Z.land (Z.shiftr shifted_pid 7) 0x1ffffffffffffff in
      if 0 <? shifted_pid then let! n := required_bytes fuel shifted_pid in Ok (1 + n) else Ok 1
  end.
(** The bytes for [i], [i] - 1, ..., 1. *)
Fixpoint high_bytes (i : nat) (picture_id : Z) : list Z :=
  match i with
  | O => []
  | S n => Z.lor 0x80 (u8 (Z.shiftr picture_id (Z.of_nat i * 7))) :: high_bytes n picture_id
  end.
Definition Rpsi_WithPictureId (p : Rpsi) (picture_id : Z) : res Rpsi :=
  let! required_bytes := required_bytes 10 picture_id in
  let bits := high_bytes (Z.to_nat (required_bytes - 1)) picture_id ++ [Z.land picture_id 0x7f] in
  let padding_bytes := 4 - (2 + required_bytes) mod 4 in
  let r := rpsi_ p in
  Ok (mk_Rpsi (if padding_bytes =? 4 then 0 else padding_bytes)
        (mk_RPSI (RPSI_Feedback r) (PayloadType r) (zlen bits * 8) bits)).
Definition Rpsi_BlockLength (p : Rpsi) : Z :=
  kCommonFbFmtLength + (2 + NumberOfValidBits (rpsi_ p) / 8 + padding_bytes_ p).
Definition CreateRpsi (rpsi : RTCPPacketPSFBRPSI) (padding_bytes : Z) : list Z :=
  CreateCommonFeedback (RPSI_Feedback rpsi) ++ [u8 (padding_bytes * 8); u8 (PayloadType rpsi)] ++
  firstn (Z.to_nat (NumberOfValidBits rpsi / 8)) (NativeBitString rpsi) ++ zeros padding_bytes.

Record Fir := mk_Fir { fir_ : Feedback; fir_item_ : RTCPPacketPSFBFIRItem }.
Definition Fir_BlockLength (p : Fir) : Z := kCommonFbFmtLength + 8.
Definition CreateFir (fir : Feedback) (fir_item : RTCPPacketPSFBFIRItem) : list Z :=
  bytes32 (SenderSSRC fir) ++ bytes32 kUnusedMediaSourceSsrc0 ++ bytes32 (FIR_SSRC fir_item) ++
  [u8 (CommandSequenceNumber fir_item)] ++ bytes24 0.

Record Remb := mk_Remb { remb_ : Feedback; remb_item_ : RTCPPacketPSFBREMBItem }.
Definition kMaxNumberOfSsrcs : Z := 0xff.
Definition Remb_AppliesTo (p : Remb) (ssrc : Z) : Remb :=
  let item := remb_item_ p in
  if kMaxNumberOfSsrcs <=? NumberOfSSRCs item then p
  else mk_Remb (remb_ p) (mk_REMBItem (BitRate item) (NumberOfSSRCs item + 1) (SSRCs item ++ [ssrc])).
Definition Remb_BlockLength (p : Remb) : Z := (NumberOfSSRCs (remb_item_ p) + 5) * 4.
Definition CreateRemb (remb : Feedback) (remb_item : RTCPPacketPSFBREMBItem) : list Z :=
  let (mantissa, exp) := ComputeMantissaAnd6bitBase2Exponent (BitRate remb_item) 18 in
  bytes32 (SenderSSRC remb) ++ bytes32 kUnusedMediaSourceSsrc0 ++ [82; 69; 77; 66] ++
  [u8 (NumberOfSSRCs remb_item); u8 (Z.shiftl exp 2 + Z.land (Z.shiftr mantissa 16) 0x03); u8 (Z.shiftr mantissa 8);
   u8 mantissa] ++ concat (map bytes32 (SSRCs remb_item)).

Record Tmmbr := mk_Tmmbr { tmmbr_ : Feedback; tmmbr_item_ : RTCPPacketRTPFBTMMBRItem }.
Record Tmmbn := mk_Tmmbn { tmmbn_ : Feedback; tmmbn_items_ : list RTCPPacketRTPFBTMMBRItem }.
Definition kMaxNumberOfTmmbrs : Z := 50.
Definition Tmmbn_WithTmmbr (p : Tmmbn) (ssrc bitrate_kbps overhead : Z) : bool * Tmmbn :=
  if kMaxNumberOfTmmbrs <=? zlen (tmmbn_items_ p) then (false, p)
  else (true, mk_Tmmbn (tmmbn_ p) (tmmbn_items_ p ++ [mk_TMMBRItem ssrc bitrate_kbps overhead])).
Definition CreateTmmbrItem (item : RTCPPacketRTPFBTMMBRItem) : list Z :=
  let bitrate_bps := u32 (MaxTotalMediaBitRate item * 1000) in
  let (mantissa, exp) := ComputeMantissaAnd6bitBase2Exponent bitrate_bps 17 in
  bytes32 (TMMBR_SSRC item) ++
  [u8 (Z.shiftl exp 2 + Z.land (Z.shiftr mantissa 15) 0x03); u8 (Z.shiftr mantissa 7);
   u8 (Z.shiftl mantissa 1 + Z.land (Z.shiftr (MeasuredOverhead item) 8) 0x01); u8 (MeasuredOverhead item)].
Definition CreateTmmbr (tmmbr : Feedback) (item : RTCPPacketRTPFBTMMBRItem) : list Z :=
  bytes32 (SenderSSRC tmmbr) ++ bytes32 kUnusedMediaSourceSsrc0 ++ CreateTmmbrItem item.
(** The counter of the loop has 8 bits, which is enough for the items allowed. *)
Definition CreateTmmbn (tmmbn : Feedback) (items : list RTCPPacketRTPFBTMMBRItem) : list Z :=
  bytes32 (SenderSSRC tmmbn) ++ bytes32 kUnusedMediaSourceSsrc0 ++ concat (map CreateTmmbrItem items).
Definition Tmmbr_BlockLength (p : Tmmbr) : Z := kCommonFbFmtLength + 8.
Definition Tmmbn_BlockLength (p : Tmmbn) : Z := kCommonFbFmtLength + 8 * zlen (tmmbn_items_ p).

(** ** Extended reports *)

Record Dlrr := mk_Dlrr { sub_blocks_ : list RTCPPacketXRDLRRReportBlockItem }.
Definition kMaxNumberOfDlrrItems : Z := 100.
Definition Dlrr_WithDlrrItem (d : Dlrr) (ssrc last_rr delay_last_rr : Z) : bool * Dlrr :=
  if kMaxNumberOfDlrrItems <=? zlen (sub_blocks_ d) then (false, d)
  else (true, mk_Dlrr (sub_blocks_ d ++ [mk_DLRR ssrc last_rr delay_last_rr])).
Definition Dlrr_BlockLength (d : Dlrr) : Z :=
  match sub_blocks_ d with [] => 0 | _ => 4 + 12 * zlen (sub_blocks_ d) end.
Definition SubBlock_Create (b : RTCPPacketXRDLRRReportBlockItem) : list Z :=
  bytes32 (DLRR_SSRC b) ++ bytes32 (LastRR b) ++ bytes32 (DelayLastRR b).
Definition Dlrr_Create (d : Dlrr) : list Z :=
  match sub_blocks_ d with
  | [] => []
  | _ => [5; 0] ++ bytes16 (3 * zlen (sub_blocks_ d)) ++ concat (map SubBlock_Create (sub_blocks_ d))
  end.

Definition Rrtr_kLength : Z := 4 * (2 + 1).
Definition Rrtr_Create (r : RTCPPacketXRReceiverReferenceTimeItem) : list Z :=
  [4; 0] ++ bytes16 2 ++ bytes32 (Rrtr_NTPMostSignificant r) ++ bytes32 (Rrtr_NTPLeastSignificant r).

Definition VoipMetric_kLength : Z := 4 * (8 + 1).
Definition VoipMetric_Create (v : RTCPPacketXRVOIPMetricItem) : list Z :=
  [7; 0] ++ bytes16 8 ++ bytes32 (VOIP_SSRC v) ++
  [u8 (lossRate v); u8 (discardRate v); u8 (burstDensity v); u8 (gapDensity v)] ++ bytes16 (burstDuration v) ++
  bytes16 (gapDuration v) ++ bytes16 (roundTripDelay v) ++ bytes16 (endSystemDelay v) ++
  [u8 (signalLevel v); u8 (noiseLevel v); u8 (RERL v); u8 (Gmin v); u8 (Rfactor v); u8 (extRfactor v);
   u8 (MOSLQ v); u8 (MOSCQ v); u8 (RXconfig v); 0] ++ bytes16 (JBnominal v) ++ bytes16 (JBmax v) ++ bytes16 (JBabsMax v).

Record Xr := mk_Xr {
  xr_header_ : Z;
  rrtr_blocks_ : list RTCPPacketXRReceiverReferenceTimeItem;
  dlrr_blocks_ : list Dlrr;
  voip_metric_blocks_ : list RTCPPacketXRVOIPMetricItem
}.
Definition kMaxNumberOfXrBlocks : Z := 50.
Definition Xr_WithRrtr (p : Xr) (rrtr : RTCPPacketXRReceiverReferenceTimeItem) : bool * Xr :=
  if kMaxNumberOfXrBlocks <=? zlen (rrtr_blocks_ p) then (false, p)
  else (true, mk_Xr (xr_header_ p) (rrtr_blocks_ p ++ [rrtr]) (dlrr_blocks_ p) (voip_metric_blocks_ p)).
Definition Xr_WithDlrr (p : Xr) (dlrr : Dlrr) : bool * Xr :=
  if kMaxNumberOfXrBlocks <=? zlen (dlrr_blocks_ p) then (false, p)
  else (true, mk_Xr (xr_header_ p) (rrtr_blocks_ p) (dlrr_blocks_ p ++ [dlrr]) (voip_metric_blocks_ p)).
Definition Xr_WithVoipMetric (p : Xr) (voip_metric : RTCPPacketXRVOIPMetricItem) : bool * Xr :=
  if kMaxNumberOfXrBlocks <=? zlen (voip_metric_blocks_ p) then (false, p)
  else (true, mk_Xr (xr_header_ p) (rrtr_blocks_ p) (dlrr_blocks_ p) (voip_metric_blocks_ p ++ [voip_metric])).
Definition DlrrLength (p : Xr) : Z :=
  fold_left (fun length block => length + Dlrr_BlockLength block) (dlrr_blocks_ p) 0.
Definition Xr_BlockLength (p : Xr) : Z :=
  8 + Rrtr_kLength * zlen (rrtr_blocks_ p) + DlrrLength p + VoipMetric_kLength * zlen (voip_metric_blocks_ p).
Definition CreateXr (p : Xr) : list Z :=
  bytes32 (xr_header_ p) ++ concat (map Rrtr_Create (rrtr_blocks_ p)) ++ concat (map Dlrr_Create (dlrr_blocks_ p)) ++
  concat (map VoipMetric_Create (voip_metric_blocks_ p)).

(** ** NACKs *)

Record PackedNack := mk_PackedNack { first_pid : Z; bitmask : Z }.
Record Nack := mk_Nack { nack_ssrcs_ : Feedback; packed_ : list PackedNack; packet_ids_ : list Z }.
Definition kNackItemLength : Z := 4.

(** The numbers that fit into the mask of [pid], and the rest. *)
Fixpoint pack_mask (ids : list Z) (pid mask : Z) : Z * list Z :=
  match ids with
  | [] => (mask, [])
  | id :: rest =>
      let shift := u16 (id - pid - 1) in
      if shift <=? 15 then pack_mask rest pid (Z.lor mask (Z.shiftl 1 shift)) else (mask, ids)
  end.
Fixpoint Pack (fuel : nat) (ids : list Z) : res (list PackedNack) :=
  match ids with
  | [] => Ok []
  | pid :: ids =>
      match fuel with
      | O => NoFuel
      | S fuel =>
          let (mask, ids) := pack_mask ids pid 0 in
          let! packed := Pack fuel ids in
          Ok (mk_PackedNack pid mask :: packed)
      end
  end.
Definition Nack_WithList (p : Nack) (nack_list : list Z) : res Nack :=
  let! packed := Pack (length nack_list) nack_list in
  Ok (mk_Nack (nack_ssrcs_ p) packed nack_list).

(** [for (bitmask = item.bitmask; bitmask != 0; bitmask >>= 1, ++pid)]. *)
Fixpoint unpack_mask (fuel : nat) (mask pid : Z) : res (list Z) :=
  if mask =? 0 then Ok []
  else
    match fuel with
    | O => NoFuel
    | S fuel =>
        let! ids := unpack_mask fuel (Z.shiftr mask 1) (u16 (pid + 1)) in
        Ok (if negb (Z.land mask 1 =? 0) then pid :: ids else ids)
    end.
Fixpoint Unpack (packed : list PackedNack) : res (list Z) :=
  match packed with
  | [] => Ok []
  | item :: packed =>
      let! ids := unpack_mask 16 (bitmask item) (u16 (first_pid item + 1)) in
      let! rest := Unpack packed in
      Ok (first_pid item :: ids ++ rest)
  end.

Definition Nack_BlockLength (p : Nack) : Z := zlen (packed_ p) * kNackItemLength + kCommonFeedbackLength + kHeaderLength.
Definition CreateNackItem (item : PackedNack) : list Z := bytes16 (first_pid item) ++ bytes16 (bitmask item).

(** The loop over [packed_] from [nack_index] on, of which [left] are left. *)
Fixpoint Nack_create (fuel : nat) (p : Nack) (left : list PackedNack) (max_length : Z) (w : Writer) : res (bool * Writer) :=
  match fuel with
  | O => NoFuel
  | S fuel =>
      let bytes_left_in_buffer := u64 (max_length - index w) in
      if bytes_left_in_buffer <? kCommonFbFmtLength + kNackItemLength then
        let (ok, w) := OnBufferFull w in
        if negb ok then Ok (false, w)
        else if 0 <? zlen left then Nack_create fuel p left max_length w else Ok (true, w)
      else
        let num_nack_fields := Z.min ((bytes_left_in_buffer - kCommonFbFmtLength) / kNackItemLength) (zlen left) in
        let size_bytes := num_nack_fields * kNackItemLength + kCommonFbFmtLength in
        let! w := CreateHeader 1 PT_RTPFB (HeaderLength size_bytes) w in
        let! w := put (CreateCommonFeedback (nack_ssrcs_ p)) w in
        let! w := put (concat (map CreateNackItem (firstn (Z.to_nat num_nack_fields) left))) w in
        let left := skipn (Z.to_nat num_nack_fields) left in
        if 0 <? zlen left then Nack_create fuel p left max_length w else Ok (true, w)
  end.

(** ** Packets of any class *)

Inductive RtcpPacket :=
| P_SenderReport (p : SenderReport)
| P_ReceiverReport (p : ReceiverReport)
| P_Sdes (p : Sdes)
| P_Bye (p : Bye)
| P_App (p : App)
| P_ExtendedJitterReport (p : ExtendedJitterReport)
| P_Pli (p : Pli)
| P_Sli (p : Sli)
| P_Rpsi (p : Rpsi)
| P_Fir (p : Fir)
| P_Remb (p : Remb)
| P_Tmmbr (p : Tmmbr)
| P_Tmmbn (p : Tmmbn)
| P_Xr (p : Xr)
| P_Nack (p : Nack)
| P_TransportFeedback (p : TransportFeedback.TransportFeedback)
| P_CompoundPacket.

Definition BlockLength (p : RtcpPacket) : Z :=
  match p with
  | P_SenderReport p => SenderReport_BlockLength p
  | P_ReceiverReport p => ReceiverReport_BlockLength p
  | P_Sdes p => Sdes_BlockLength p
  | P_Bye p => Bye_BlockLength p
  | P_App p => App_BlockLength p
  | P_ExtendedJitterReport p => ExtendedJitterReport_BlockLength p
  | P_Pli p => Pli_BlockLength p
  | P_Sli p => Sli_BlockLength p
  | P_Rpsi p => Rpsi_BlockLength p
  | P_Fir p => Fir_BlockLength p
  | P_Remb p => Remb_BlockLength p
  | P_Tmmbr p => Tmmbr_BlockLength p
  | P_Tmmbn p => Tmmbn_BlockLength p
  | P_Xr p => Xr_BlockLength p
  | P_Nack p => Nack_BlockLength p
  | P_TransportFeedback p => TransportFeedback.BlockLength p
  | P_CompoundPacket => 0
  end.

(** The steps that the [Create] methods share: room for the packet, its header
    and what follows. *)
Definition create (block_length count_or_format packet_type words : Z) (body : list Z) (max_length : Z) (w : Writer)
    : res (bool * Writer) :=
  let (ok, w) := MakeRoom block_length max_length w in
  if negb ok then Ok (false, w)
  else
    let! w := CreateHeader count_or_format packet_type words w in
    let! w := put body w in
    Ok (true, w).

Definition SenderReport_Create (p : SenderReport) : Z -> Writer -> res (bool * Writer) :=
  let n := SenderReport_BlockLength p in
  create n (SR_NumberOfReportBlocks (sr_ p)) PT_SR (HeaderLength n) (CreateSenderReport (sr_ p) ++ CreateReportBlocks (sr_report_blocks_ p)).
Definition ReceiverReport_Create (p : ReceiverReport) : Z -> Writer -> res (bool * Writer) :=
  let n := ReceiverReport_BlockLength p in
  create n (zlen (rr_report_blocks_ p)) PT_RR (HeaderLength n) (bytes32 (rr_sender_ssrc_ p) ++ CreateReportBlocks (rr_report_blocks_ p)).
Definition Sdes_Create (p : Sdes) : Z -> Writer -> res (bool * Writer) :=
  let n := Sdes_BlockLength p in
  create n (zlen (chunks_ p)) PT_SDES (HeaderLength n) (CreateSdes (chunks_ p)).
Definition Bye_Create (p : Bye) : Z -> Writer -> res (bool * Writer) :=
  let n := Bye_BlockLength p in
  create n (1 + zlen (csrcs_ p)) PT_BYE (HeaderLength n) (CreateBye p).
Definition App_Create (p : App) : Z -> Writer -> res (bool * Writer) :=
  let n := App_BlockLength p in
  create n (sub_type_ p) PT_APP (HeaderLength n) (CreateApp p).
Definition ExtendedJitterReport_Create (p : ExtendedJitterReport) : Z -> Writer -> res (bool * Writer) :=
  let length := zlen (inter_arrival_jitters_ p) in
  create (ExtendedJitterReport_BlockLength p) length PT_IJ length (concat (map bytes32 (inter_arrival_jitters_ p))).
Definition Pli_Create (p : Pli) : Z -> Writer -> res (bool * Writer) :=
  let n := Pli_BlockLength p in
  create n 1 PT_PSFB (HeaderLength n) (CreateCommonFeedback (pli_ssrcs_ p)).
Definition Sli_Create (p : Sli) : Z -> Writer -> res (bool * Writer) :=
  let n := Sli_BlockLength p in
  create n 2 PT_PSFB (HeaderLength n) (CreateCommonFeedback (sli_ssrcs_ p) ++ concat (map bytes32 (items_ p))).
Definition Rpsi_Create (p : Rpsi) : Z -> Writer -> res (bool * Writer) :=
  let n := Rpsi_BlockLength p in
  create n 3 PT_PSFB (HeaderLength n) (CreateRpsi (rpsi_ p) (padding_bytes_ p)).
Definition Fir_Create (p : Fir) : Z -> Writer -> res (bool * Writer) :=
  let n := Fir_BlockLength p in
  create n 4 PT_PSFB (HeaderLength n) (CreateFir (fir_ p) (fir_item_ p)).
Definition Remb_Create (p : Remb) : Z -> Writer -> res (bool * Writer) :=
  let n := Remb_BlockLength p in
  create n 15 PT_PSFB (HeaderLength n) (CreateRemb (remb_ p) (remb_item_ p)).
Definition Tmmbr_Create (p : Tmmbr) : Z -> Writer -> res (bool * Writer) :=
  let n := Tmmbr_BlockLength p in
  create n 3 PT_RTPFB (HeaderLength n) (CreateTmmbr (tmmbr_ p) (tmmbr_item_ p)).
Definition Tmmbn_Create (p : Tmmbn) : Z -> Writer -> res (bool * Writer) :=
  let n := Tmmbn_BlockLength p in
  create n 4 PT_RTPFB (HeaderLength n) (CreateTmmbn (tmmbn_ p) (tmmbn_items_ p)).
Definition Xr_Create (p : Xr) : Z -> Writer -> res (bool * Writer) :=
  let n := Xr_BlockLength p in
  create n 0 PT_XR (HeaderLength n) (CreateXr p).

Definition Create (p : RtcpPacket) (max_length : Z) (w : Writer) : res (bool * Writer) :=
  match p with
  | P_SenderReport p => SenderReport_Create p max_length w
  | P_ReceiverReport p => ReceiverReport_Create p max_length w
  | P_Sdes p => Sdes_Create p max_length w
  | P_Bye p => Bye_Create p max_length w
  | P_App p => App_Create p max_length w
  | P_ExtendedJitterReport p => ExtendedJitterReport_Create p max_length w
  | P_Pli p => Pli_Create p max_length w
  | P_Sli p => Sli_Create p max_length w
  | P_Rpsi p => Rpsi_Create p max_length w
  | P_Fir p => Fir_Create p max_length w
  | P_Remb p => Remb_Create p max_length w
  | P_Tmmbr p => Tmmbr_Create p max_length w
  | P_Tmmbn p => Tmmbn_Create p max_length w
  | P_Xr p => Xr_Create p max_length w
  | P_Nack p => Nack_create (2 * length (packed_ p) + 2) p (packed_ p) max_length w
  | P_TransportFeedback p =>
      let! (ok, w, _) := TransportFeedback.Create p max_length w in
      Ok (ok, w)
  | P_CompoundPacket => Ok (true, w)
  end.

(** ** Compound packets *)

Inductive Packet := mk_Packet (packet : RtcpPacket) (appended_packets_ : list Packet).

Definition Append (t packet : Packet) : Packet :=
  match t with mk_Packet p appended => mk_Packet p (appended ++ [packet]) end.

Fixpoint CreateAndAddAppended (t : Packet) (max_length : Z) (w : Writer) : res (bool * Writer) :=
  match t with
  | mk_Packet p appended =>
      let! (ok, w) := Create p max_length w in
      if negb ok then Ok (false, w)
      else
        (fix add (appended : list Packet) (w : Writer) : res (bool * Writer) :=
           match appended with
           | [] => Ok (true, w)
           | packet :: appended =>
               let! (ok, w) := CreateAndAddAppended packet max_length w in
               if ok then add appended w else Ok (false, w)
           end) appended w
  end.

(** Whether all was built, and the packets delivered. *)
Definition BuildExternalBuffer (t : Packet) (buffer : list Z) (max_length : Z) : res (bool * list (list Z)) :=
  let! (ok, w) := CreateAndAddAppended t max_length (new_Writer buffer) in
  if negb ok then Ok (false, ready w)
  else
    let (ok, w) := OnBufferFull w in
    Ok (ok, ready w).

(** [buffer] is what the local array happens to hold. *)
Definition Build (t : Packet) (buffer : list Z) : res (bool * list (list Z)) :=
  BuildExternalBuffer t buffer IP_PACKET_SIZE.

End RtcpPackets.
