(* ===== verification/RtcpPacketsFacts.v ===== *)
(** * RTCP packets: what is built is what is read

    The bytes that the builders of RtcpPackets.v write, wherever they stand in
    a compound packet, make the parser of RtcpParser.v hand out the items they
    were built from. *)

From S2P Require Import Prelude Wire RtcpCommon RtcpWriter TransportFeedback TransportFeedbackFacts TransportFeedbackRoundtrip RtcpParser RtcpParserFacts RtcpPackets.
Import Wire RtcpCommon RtcpWriter TransportFeedbackRoundtrip RtcpParser RtcpParserFacts RtcpPackets.

Module RtcpPacketsFacts.

Lemma nonempty_zlen {A} (l : list A) : l <> [] -> 0 < zlen l.
Proof. intros N. destruct l as [|x l]; [congruence|]. rewrite zlen_cons. pose proof (zlen_nonneg l). lia. Qed.

(** ** Reading at a place *)

Section At.
Variables (p pre q : list Z).
Hypothesis Hp : p = pre ++ q.

Lemma skipn_rd n l x (r : list Z) : skipn n l = x :: r -> (n < length l)%nat /\ rd l (Z.of_nat n) = x /\ skipn (S n) l = r.
Proof.
  revert l. induction n as [|n IH]; intros [|y l] E; cbn [skipn] in E; try discriminate.
  - injection E as -> ->. cbn. repeat split; lia.
  - destruct (IH l E) as (L & R & S). split; [cbn; lia|]. split; [|exact S].
    rewrite rd_cons by lia. now replace (Z.of_nat (Datatypes.S n) - 1) with (Z.of_nat n) by lia.
Qed.

Lemma read_byte_at i a r : 0 <= i -> skipn (Z.to_nat i) q = a :: r -> byte p (zlen pre + i) = Ok a.
Proof.
  intros I E. destruct (skipn_rd _ _ _ _ E) as (L & R & _). rewrite Z2Nat.id in R by lia. rewrite Hp.
  rewrite <- (app_nil_r q), byte_mid by (unfold zlen; lia). now rewrite R.
Qed.

Lemma be16_at i a b r : 0 <= i -> skipn (Z.to_nat i) q = a :: b :: r -> be16 p (zlen pre + i) = Ok (a * 256 + b).
Proof.
  intros I E. unfold be16. rewrite (read_byte_at i a (b :: r)) by assumption. cbn [bind].
  destruct (skipn_rd _ _ _ _ E) as (_ & _ & E2). rewrite <- Z.add_assoc.
  rewrite (read_byte_at (i + 1) b r); [reflexivity|lia|]. now replace (Z.to_nat (i + 1)) with (S (Z.to_nat i)) by lia.
Qed.

Lemma be32_at i a b c d r : 0 <= i -> skipn (Z.to_nat i) q = a :: b :: c :: d :: r ->
  be32 p (zlen pre + i) = Ok ((a * 256 + b) * 65536 + (c * 256 + d)).
Proof.
  intros I E. unfold be32. rewrite (be16_at i a b (c :: d :: r)) by assumption. cbn [bind].
  destruct (skipn_rd _ _ _ _ E) as (_ & _ & E2). destruct (skipn_rd _ _ _ _ E2) as (_ & _ & E3).
  rewrite <- Z.add_assoc. rewrite (be16_at (i + 2) c d r); [reflexivity|lia|].
  now replace (Z.to_nat (i + 2)) with (S (S (Z.to_nat i))) by lia.
Qed.

Lemma u16_at i v r : 0 <= i -> skipn (Z.to_nat i) q = bytes16 v ++ r -> in_u16 v -> be16 p (zlen pre + i) = Ok v.
Proof. intros I E R. erewrite be16_at by (first [eassumption|exact E]). f_equal. rewrite two_bytes. now apply u16_id. Qed.

Lemma u32_at i v r : 0 <= i -> skipn (Z.to_nat i) q = bytes32 v ++ r -> in_u32 v -> be32 p (zlen pre + i) = Ok v.
Proof.
  intros I E R. erewrite be32_at by (first [eassumption|exact E]). f_equal. rewrite four_bytes. now apply u32_id.
Qed.

Lemma byte_here a r : q = a :: r -> byte p (zlen pre) = Ok a.
Proof. intros E. rewrite <- (Z.add_0_r (zlen pre)). apply (read_byte_at 0 a r); [lia|exact E]. Qed.
Lemma u16_here v r : q = bytes16 v ++ r -> in_u16 v -> be16 p (zlen pre) = Ok v.
Proof. intros E R. rewrite <- (Z.add_0_r (zlen pre)). apply (u16_at 0 v r); [lia|exact E|exact R]. Qed.
Lemma u32_here v r : q = bytes32 v ++ r -> in_u32 v -> be32 p (zlen pre) = Ok v.
Proof. intros E R. rewrite <- (Z.add_0_r (zlen pre)). apply (u32_at 0 v r); [lia|exact E|exact R]. Qed.

End At.

(** ** Runs of the parser *)

(** One call of [Iterate] leads from [s] to [s1], with enough fuel. *)
Definition steps (p : list Z) (s s1 : RTCPParserV2) : Prop := exists k, forall n, Iterate p (k + n) s = Ok s1.

(** Calls of [Iterate] that hand out [es]. *)
Inductive emits (p : list Z) : RTCPParserV2 -> list event -> RTCPParserV2 -> Prop :=
| emits_nil s : emits p s [] s
| emits_cons s s1 s2 es : steps p s s1 -> PacketType s1 <> kInvalid -> emits p s1 es s2 ->
    emits p s (observe s1 :: es) s2.

(** The next packet is read at [o]: the parser is there, or leaves the items
    of the last packet without handing out another. *)
Definition at_top (p : list Z) (s : RTCPParserV2) (o : Z) : Prop :=
  exists s0 k, _validPacket s0 = true /\ _state s0 = State_TopLevel /\ _ptrRTCPData s0 = o /\
    forall n, Iterate p (k + n) s = Iterate p n s0.

(** The bytes [b], at the top level, are handed out as [es]. *)
Definition block (b : list Z) (es : list event) : Prop :=
  (zlen b mod 4 = 0 /\ (es = [] -> b = [])) /\
  forall p pre post s, p = pre ++ b ++ post -> at_top p s (zlen pre) ->
    exists s', emits p s es s' /\ at_top p s' (zlen pre + zlen b).

Lemma emits_app p s es s' fs s'' : emits p s es s' -> emits p s' fs s'' -> emits p s (es ++ fs) s''.
Proof. induction 1; intros E; cbn [app]; [assumption|]. econstructor; eauto. Qed.

Lemma emits_one p s s1 e : steps p s s1 -> PacketType s1 <> kInvalid -> observe s1 = e -> emits p s [e] s1.
Proof. intros S T <-. econstructor; [eassumption|assumption|constructor]. Qed.

Lemma at_top_self p s o : _validPacket s = true -> _state s = State_TopLevel -> _ptrRTCPData s = o -> at_top p s o.
Proof. intros V T D. exists s, 0%nat. repeat split; auto. Qed.

Lemma block_nil : block [] [].
Proof.
  split; [split; reflexivity|]. intros p pre post s _ T. exists s. split; [constructor|].
  now rewrite (@zlen_nil Z), Z.add_0_r.
Qed.

Lemma block_app b c es fs : block b es -> block c fs -> block (b ++ c) (es ++ fs).
Proof.
  intros [[Mb Nb] Rb] [[Mc Nc] Rc]. split.
  { split; [rewrite zlen_app; Z.to_euclidean_division_equations; lia|]. intros E. apply app_eq_nil in E as [E1 E2].
    now rewrite Nb, Nc. }
  intros p pre post s Hp T. destruct (Rb p pre (c ++ post) s) as (s1 & E1 & T1); [now rewrite Hp, <- app_assoc|assumption|].
  destruct (Rc p (pre ++ b) post s1) as (s2 & E2 & T2); [now rewrite Hp, <- !app_assoc|now rewrite zlen_app|].
  exists s2. split; [exact (emits_app _ _ _ _ _ _ E1 E2)|]. now rewrite !zlen_app, Z.add_assoc in *.
Qed.

Lemma block_concat {A} (f : A -> list Z) (g : A -> list event) l :
  Forall (fun x => block (f x) (g x)) l -> block (concat (map f l)) (concat (map g l)).
Proof. induction 1; cbn [map concat]; [apply block_nil|now apply block_app]. Qed.

(** What a client sees of a packet that is all blocks. *)
Lemma items_emits p es s s' : emits p s es s' -> at_top p s' (zlen p) ->
  exists k, forall n, items (k + n) p s = Ok es.
Proof.
  induction 1 as [s|s s1 s2 es [k K] T E IH]; intros A.
  - destruct A as (s0 & k & V & T & D & K). exists (k + 2)%nat. intros n.
    assert (I : Iterate p (k + 2 + n) s = Ok (set_type s0 kInvalid)).
    { replace (k + 2 + n)%nat with (k + (2 + n))%nat by lia. rewrite K. cbn [Nat.add Iterate IsValid set_type _validPacket _state].
      rewrite V, T. cbn [IterateTopLevel set_type _ptrRTCPData]. rewrite D. now rewrite Z.leb_refl. }
    replace (k + 2 + n)%nat with (S (k + 1 + n)) in * by lia. rewrite (items_S _ _ _ _ I). reflexivity.
  - destruct (IH A) as (j & J). exists (S (k + j)). intros n.
    assert (I : Iterate p (S (k + j) + n) s = Ok s1) by (replace (S (k + j) + n)%nat with (k + (1 + j + n))%nat by lia; apply K).
    cbn [Nat.add] in *. rewrite (items_S _ _ _ _ I). replace (k + j + n)%nat with (j + (k + n))%nat by lia. rewrite J.
    cbn [bind]. destruct (PacketType s1); congruence.
Qed.

(** ** The top level *)

Definition head (count packet_type words : Z) : list Z := [u8 (Z.shiftl 2 6 + count); packet_type] ++ bytes16 words.

Lemma header_at p pre count packet_type words rest length :
  p = pre ++ head count packet_type words ++ rest -> 0 <= count < 32 -> 0 <= words < 65536 ->
  4 * (words + 1) <= length ->
  RtcpParseCommonHeader p (zlen pre) length = Ok (Some (mk_header 2 count packet_type (4 * (words + 1) - 4) 0)).
Proof.
  intros Hp C W L. unfold RtcpParseCommonHeader, RtcpCommon.kHeaderSizeBytes.
  replace (length <? 4) with false by lia. rewrite <- (Z.add_0_r (zlen pre)) at 1.
  erewrite !read_byte_at, be16_at by (first [eassumption | lia | reflexivity]). cbn [bind].
  rewrite two_bytes, u16_id by (unfold in_u16; lia).
  assert (E : forallb (fun c => let b := u8 (Z.shiftl 2 6 + c) in
    (Z.shiftr b 6 =? 2) && (Z.land b 0x20 =? 0) && (Z.land b 0x1F =? c)) (map Z.of_nat (seq 0 32)) = true) by reflexivity.
  rewrite forallb_forall in E. specialize (E count). cbv zeta in E.
  assert (I : In count (map Z.of_nat (seq 0 32))).
  { rewrite <- (Z2Nat.id count) by lia. apply in_map, in_seq. lia. }
  specialize (E I). apply andb_true_iff in E as [E E3]. apply andb_true_iff in E as [E1 E2].
  rewrite E1, E2. apply Z.eqb_eq in E3. rewrite E3. cbn [negb].
  replace (length <? (words + 1) * 4) with false by lia. do 3 f_equal. lia.
Qed.

(** The parser comes to a packet. *)
Lemma top_step p s pre count packet_type words rest b post :
  p = pre ++ b ++ post -> b = head count packet_type words ++ rest -> zlen b = 4 * (words + 1) ->
  0 <= count < 32 -> 0 <= words < 65536 -> at_top p s (zlen pre) ->
  exists s0, _validPacket s0 = true /\ _state s0 = State_TopLevel /\ _ptrRTCPData s0 = zlen pre /\
    _ptrRTCPBlockEnd s0 = zlen pre + zlen b /\ _packetType s0 = kInvalid /\
    forall s1, ParseBlock p (mk_header 2 count packet_type (4 * (words + 1) - 4) 0) s0 = Ok (false, s1) -> steps p s s1.
Proof.
  intros Hp Hb L C W (s0 & k & V & T & D & K). pose proof (zlen_nonneg post). pose proof (zlen_nonneg pre).
  assert (Lp : zlen p = zlen pre + zlen b + zlen post) by (rewrite Hp, !zlen_app; lia).
  set (s1 := set_type s0 kInvalid). exists (set_block_end s1 (zlen pre + zlen b)).
  do 5 (split; [first [exact V|exact T|exact D|reflexivity]|]). intros s2 E. exists (k + 2)%nat. intros n.
  replace (k + 2 + n)%nat with (k + (2 + n))%nat by lia. rewrite K. cbn [Nat.add Iterate]. fold s1.
  change (IsValid s1) with (_validPacket s0). rewrite V. change (_state s1) with (_state s0). rewrite T.
  cbn [IterateTopLevel]. change (_ptrRTCPData s1) with (_ptrRTCPData s0). rewrite D.
  replace (zlen p <=? zlen pre) with false by lia.
  rewrite (header_at p pre count packet_type words (rest ++ post)); try assumption; [|now rewrite Hp, Hb, <- app_assoc|lia].
  cbn [bind]. unfold BlockSize, RtcpCommon.kHeaderSizeBytes. cbn [payload_size_bytes padding_bytes].
  rewrite u32_id by (unfold in_u32; lia). replace (4 + (4 * (words + 1) - 4) + 0) with (zlen b) by lia.
  change (_ptrRTCPBlockEnd (set_block_end s1 ?x)) with x.
  replace (zlen p <? zlen pre + zlen b) with false by lia. rewrite E. reflexivity.
Qed.

(** ** Items *)

(** A parser that reads items of the kind [st] at [o] of the packet that ends
    at [e]; what the items need of the number of blocks and of the structure
    is [Q]. *)
Definition at_item (p : list Z) (st : ParseState) (Q : Z -> RTCPPacket -> Prop) (o e : Z) (s : RTCPParserV2) : Prop :=
  exists s0 k, _validPacket s0 = true /\ _state s0 = st /\ _ptrRTCPData s0 = o /\ _ptrRTCPBlockEnd s0 = e /\
    Q (_numberOfBlocks s0) (_packet s0) /\ forall n, Iterate p (k + n) s = Iterate p n s0.

Lemma at_item_self p st (Q : Z -> RTCPPacket -> Prop) o e s :
  _validPacket s = true -> _state s = st -> _ptrRTCPData s = o -> _ptrRTCPBlockEnd s = e ->
  Q (_numberOfBlocks s) (_packet s) -> at_item p st Q o e s.
Proof. intros V T D E C. exists s, 0%nat. repeat split; auto. Qed.

Lemma Iterate_item p s n : _validPacket s = true -> _state s <> State_TopLevel ->
  Iterate p (1 + n) s = (let! (success, s) := ParseItem p (set_type s kInvalid) in if success then Ok s else Iterate p n s).
Proof.
  intros V N. cbn [Nat.add Iterate]. change (IsValid (set_type s kInvalid)) with (_validPacket s). rewrite V.
  change (_state (set_type s kInvalid)) with (_state s). destruct (_state s); congruence.
Qed.

(** The end of the items. *)
Lemma item_end p st (Q : Z -> RTCPPacket -> Prop) o e s : at_item p st Q o e s -> st <> State_TopLevel ->
  (forall s0, _state s0 = st -> _ptrRTCPData s0 = o -> _ptrRTCPBlockEnd s0 = e -> Q (_numberOfBlocks s0) (_packet s0) ->
    ParseItem p s0 = end_items s0) ->
  at_top p s e.
Proof.
  intros (s0 & k & V & T & D & E & C & K) N F. set (s1 := set_type s0 kInvalid).
  exists (EndCurrentBlock (set_state s1 State_TopLevel)), (k + 1)%nat. repeat split; [exact V|exact E|].
  intros n. rewrite <- Nat.add_assoc, K, Iterate_item by congruence. fold s1. rewrite F by assumption. reflexivity.
Qed.

Definition anything : Z -> RTCPPacket -> Prop := fun _ _ => True.

(** Items that end where the packet ends. *)
Lemma items_end p st Q e s : at_item p st Q e e s ->
  ~ In st [State_TopLevel; State_XR_DLLRItem; State_BYEItem] -> (st = State_SDESChunk -> forall b packet, Q b packet -> b = 0) ->
  at_top p s e.
Proof.
  intros A N K. apply (item_end _ _ _ _ _ _ A); [intros ->; apply N; now left|].
  intros s0 T D E C. unfold ParseItem. rewrite T. clear A. cbn [In] in N.
  destruct st; try tauto;
    unfold ParseReportBlockItem, ParseSDESChunk, ParseIJItem, ParseNACKItem, ParseTMMBRItem, ParseTMMBNItem,
      ParseSLIItem, ParseRPSIItem, ParseFIRItem, ParsePsfbAppItem, ParsePsfbREMBItem, ParseXrItem, ParseAPPItem, length_;
    first [now rewrite (K eq_refl _ _ C) | rewrite D, E, Z.sub_diag; reflexivity].
Qed.

(** One item that is handed out. *)
Lemma item_emits p st (Q Q' : Z -> RTCPPacket -> Prop) st' o e s n ev :
  at_item p st Q o e s -> st <> State_TopLevel ->
  (forall s0, _validPacket s0 = true -> _state s0 = st -> _ptrRTCPData s0 = o -> _ptrRTCPBlockEnd s0 = e ->
     Q (_numberOfBlocks s0) (_packet s0) ->
     exists s1, ParseItem p s0 = Ok (true, s1) /\ PacketType s1 <> kInvalid /\ observe s1 = ev /\
       _validPacket s1 = true /\ _state s1 = st' /\ _ptrRTCPData s1 = o + n /\ _ptrRTCPBlockEnd s1 = e /\
       Q' (_numberOfBlocks s1) (_packet s1)) ->
  exists s1, emits p s [ev] s1 /\ at_item p st' Q' (o + n) e s1.
Proof.
  intros (s0 & k & V & T & D & E & C & K) N F.
  destruct (F (set_type s0 kInvalid)) as (s1 & Er & Ht & Ho & V1 & T1 & D1 & E1 & C1); try assumption.
  exists s1. split; [|now apply at_item_self]. apply emits_one; try assumption.
  exists (k + 1)%nat. intros m. rewrite <- Nat.add_assoc, K, Iterate_item by congruence. now rewrite Er.
Qed.

(** A run of items, of which [Q] knows how many are left. *)
Lemma run_emits {A} p st (Q : Z -> Z -> RTCPPacket -> Prop) e (enc : A -> list Z) (evs : A -> list event) :
  forall l,
  (forall x pre post s n, In x l -> p = pre ++ enc x ++ post -> 0 <= n -> zlen pre + zlen (enc x) <= e ->
     at_item p st (Q (n + 1)) (zlen pre) e s ->
     exists s', emits p s (evs x) s' /\ at_item p st (Q n) (zlen pre + zlen (enc x)) e s') ->
  forall pre post s, p = pre ++ concat (map enc l) ++ post -> zlen pre + zlen (concat (map enc l)) <= e ->
    at_item p st (Q (zlen l)) (zlen pre) e s ->
  exists s', emits p s (concat (map evs l)) s' /\ at_item p st (Q 0) (zlen pre + zlen (concat (map enc l))) e s'.
Proof.
  induction l as [|x l IH]; intros F pre post s Hp L I; cbn [map concat] in *.
  { exists s. split; [constructor|]. now rewrite (@zlen_nil Z), Z.add_0_r. }
  rewrite zlen_app in L. rewrite zlen_cons in I. pose proof (zlen_nonneg (concat (map enc l))). pose proof (zlen_nonneg l).
  destruct (F x pre (concat (map enc l) ++ post) s (zlen l)) as (s1 & E1 & A1); [now left|now rewrite Hp, <- app_assoc|lia|lia| |].
  { now rewrite Z.add_comm. }
  destruct (IH ltac:(intros; eapply F; eauto; now right) (pre ++ enc x) post s1) as (s2 & E2 & A2).
  { now rewrite Hp, <- !app_assoc. } { rewrite zlen_app. lia. } { now rewrite zlen_app. }
  exists s2. split; [exact (emits_app _ _ _ _ _ _ E1 E2)|]. rewrite zlen_app in A2. now rewrite zlen_app, Z.add_assoc.
Qed.

(** ** Packets *)

(** A parser that has found the packet from [o] to [e]. *)
Definition fresh (s : RTCPParserV2) (o e : Z) : Prop :=
  _validPacket s = true /\ _state s = State_TopLevel /\ _ptrRTCPData s = o /\ _ptrRTCPBlockEnd s = e.

Lemma packet_block count packet_type words body e es :
  0 <= count < 32 -> 0 <= words < 65536 -> zlen body = 4 * words ->
  (forall p pre post s, p = pre ++ (head count packet_type words ++ body) ++ post ->
     fresh s (zlen pre) (zlen pre + 4 + zlen body) ->
     exists s1 s2, ParseBlock p (mk_header 2 count packet_type (4 * words) 0) s = Ok (false, s1) /\
       PacketType s1 <> kInvalid /\ observe s1 = e /\ emits p s1 es s2 /\ at_top p s2 (zlen pre + 4 + zlen body)) ->
  block (head count packet_type words ++ body) (e :: es).
Proof.
  intros C W L F. set (b := head count packet_type words ++ body) in *.
  assert (Lb : zlen b = 4 + zlen body) by (unfold b; rewrite zlen_app; reflexivity).
  split; [split; [rewrite Lb, L; clear; Z.to_euclidean_division_equations; lia|discriminate]|]. intros p pre post s Hp T.
  destruct (top_step p s pre count packet_type words body b post) as (s0 & V & St & D & E & _ & R); try assumption; [reflexivity|lia|].
  rewrite Lb in E. destruct (F p pre post s0 Hp) as (s1 & s2 & P & K & O & Em & A); [repeat split; try assumption; lia|].
  exists s2. rewrite Lb, Z.add_assoc. split; [|exact A]. subst e. econstructor; [|exact K|exact Em].
  apply R. rewrite <- P. do 2 f_equal. lia.
Qed.

(** The packet has a header and, behind it, items of one kind. *)
Lemma items_block {A} st (Q : Z -> Z -> RTCPPacket -> Prop) count packet_type words fixed (enc : A -> list Z) (evs : A -> list event) l e :
  0 <= count < 32 -> 0 <= words < 65536 -> zlen (fixed ++ concat (map enc l)) = 4 * words ->
  ~ In st [State_TopLevel; State_XR_DLLRItem; State_BYEItem] -> (st = State_SDESChunk -> forall b packet, Q 0 b packet -> b = 0) ->
  (forall p pre post s, p = pre ++ (head count packet_type words ++ fixed ++ concat (map enc l)) ++ post ->
     fresh s (zlen pre) (zlen pre + 4 + 4 * words) ->
     exists s1, ParseBlock p (mk_header 2 count packet_type (4 * words) 0) s = Ok (false, s1) /\
       PacketType s1 <> kInvalid /\ observe s1 = e /\
       _validPacket s1 = true /\ _state s1 = st /\ _ptrRTCPData s1 = zlen pre + (4 + zlen fixed) /\
       _ptrRTCPBlockEnd s1 = zlen pre + 4 + 4 * words /\ Q (zlen l) (_numberOfBlocks s1) (_packet s1)) ->
  (forall p e x pre post s n, In x l -> p = pre ++ enc x ++ post -> 0 <= n -> zlen pre + zlen (enc x) <= e ->
     at_item p st (Q (n + 1)) (zlen pre) e s ->
     exists s', emits p s (evs x) s' /\ at_item p st (Q n) (zlen pre + zlen (enc x)) e s') ->
  block (head count packet_type words ++ fixed ++ concat (map enc l)) (e :: concat (map evs l)).
Proof.
  intros C W L N K F Items. apply packet_block; try assumption. intros p pre post s Hp Fr. rewrite L in Fr.
  destruct (F p pre post s Hp Fr) as (s1 & P & T & O & V1 & S1 & D1 & E1 & Q1).
  assert (Lh : zlen (head count packet_type words ++ fixed) = 4 + zlen fixed) by (rewrite zlen_app; reflexivity).
  rewrite zlen_app in L.
  destruct (run_emits p st Q (zlen pre + 4 + 4 * words) enc evs l
    (Items p (zlen pre + 4 + 4 * words)) (pre ++ head count packet_type words ++ fixed) post s1)
    as (s2 & Em & A2); [now rewrite Hp, <- !app_assoc|rewrite zlen_app, Lh; lia| |].
  { apply at_item_self; try assumption. now rewrite zlen_app, Lh. }
  exists s1, s2. repeat split; try assumption.
  rewrite zlen_app, Lh in A2. replace (zlen pre + (4 + zlen fixed) + zlen (concat (map enc l))) with (zlen pre + 4 + 4 * words) in A2 by lia.
  replace (zlen pre + 4 + zlen (fixed ++ concat (map enc l))) with (zlen pre + 4 + 4 * words) by (rewrite zlen_app; lia).
  exact (items_end _ _ _ _ _ A2 N (fun H => K H)).
Qed.

(** ** Reports *)

Definition ev (t : RTCPPacketTypes) (packet : RTCPPacket) : event := (t, packet, None).

Lemma HeaderLength_words w : HeaderLength (4 * w + 4) = w.
Proof. unfold HeaderLength. Z.to_euclidean_division_equations. lia. Qed.

Lemma HeaderLength_is w n : n = 4 * w + 4 -> HeaderLength n = w.
Proof. intros ->. apply HeaderLength_words. Qed.

Lemma zlen_concat_map {A} (enc : A -> list Z) k l : (forall x, In x l -> zlen (enc x) = k) -> zlen (concat (map enc l)) = k * zlen l.
Proof.
  induction l as [|x l IH]; intros F; cbn [map concat]; [cbn; lia|].
  rewrite zlen_app, zlen_cons, F, IH by (first [now left | intros; apply F; now right]). lia.
Qed.

Lemma three_at v : 0 <= v < 16777216 -> u8 (Z.shiftr v 16) * 65536 + (u8 (Z.shiftr v 8) * 256 + u8 v) = v.
Proof. intros R. rewrite <- (Z.mod_small v 16777216) at 4 by lia. rewrite <- three_bytes. lia. Qed.

Definition ReportBlock_ok (b : ReportBlock) : Prop :=
  in_u32 (source_ssrc_ b) /\ in_u8 (fraction_lost_ b) /\ 0 <= cumulative_lost_ b < 16777216 /\
  in_u32 (extended_high_seq_num_ b) /\ in_u32 (jitter_ b) /\ in_u32 (last_sr_ b) /\ in_u32 (delay_since_last_sr_ b).
Definition ReportBlock_events (b : ReportBlock) : list event :=
  [ev kReportBlockItem (PktReportBlockItem (mk_ReportBlockItem (source_ssrc_ b) (fraction_lost_ b) (cumulative_lost_ b)
     (extended_high_seq_num_ b) (jitter_ b) (last_sr_ b) (delay_since_last_sr_ b)))].

(** As many items are left as blocks. *)
Definition counted (n b : Z) (_ : RTCPPacket) : Prop := b = n.

(** Reads what stands at the place that [Hp] names. *)
Ltac reads Hp := repeat first
  [ erewrite (u32_at _ _ _ Hp) by (first [reflexivity | eassumption | lia])
  | erewrite (u16_at _ _ _ Hp) by (first [reflexivity | eassumption | lia])
  | erewrite (be16_at _ _ _ Hp) by (first [reflexivity | lia])
  | erewrite (read_byte_at _ _ _ Hp) by (first [reflexivity | lia]) ]; cbn [bind].
(** The first of them. *)
Ltac reads_here Hp :=
  first [ erewrite (u32_here _ _ _ Hp) by (first [reflexivity | eassumption])
        | erewrite (u16_here _ _ _ Hp) by (first [reflexivity | eassumption])
        | erewrite (byte_here _ _ _ Hp) by reflexivity ]; reads Hp.

(** What the parser holds after its updates. *)
Ltac parser_is := unfold observe; cbn [item header_read EndCurrentBlock set_packet set_type set_data set_state set_blocks set_block_end
  set_rtcp_packet count_skipped _validPacket _ptrRTCPData _ptrRTCPBlockEnd _state _numberOfBlocks num_skipped_blocks_
  _packetType _packet rtcp_packet_ PacketType RtcpParser.Packet fills bind].
Ltac handed := eexists; split; [reflexivity|]; parser_is; split; [discriminate|]; split; [unfold ev; repeat f_equal; try (apply u8_id; assumption)|];
  repeat split; try assumption; try (rewrite ?zlen_app, ?zlen_bytes32; lia).

(** The switch on the type of the packet. *)
Ltac switch := unfold ParseBlock; cbn [packet_type count_or_format];
  cbv [PT_IJ PT_SR PT_RR PT_SDES PT_BYE PT_APP PT_RTPFB PT_PSFB PT_XR]; cbn [Z.eqb Pos.eqb orb bind].
(** How long what was written is. *)
Ltac sizes := rewrite ?zlen_app, ?zlen_bytes32, ?zlen_bytes16, ?(@zlen_nil Z); lia.

Lemma report_block_item p e x pre post s n : ReportBlock_ok x -> p = pre ++ ReportBlock_Create x ++ post -> 0 <= n ->
  zlen pre + zlen (ReportBlock_Create x) <= e -> at_item p State_ReportBlockItem (counted (n + 1)) (zlen pre) e s ->
  exists s', emits p s (ReportBlock_events x) s' /\
    at_item p State_ReportBlockItem (counted n) (zlen pre + zlen (ReportBlock_Create x)) e s'.
Proof.
  intros (R1 & R2 & R3 & R4 & R5 & R6 & R7) Hp N L A. change (zlen (ReportBlock_Create x)) with 24 in *.
  eapply item_emits; [exact A|discriminate|]. unfold counted. intros s0 V T D E C.
  unfold ParseItem. rewrite T. unfold ParseReportBlockItem, length_. rewrite D, E, C.
  replace ((e - zlen pre <? 24) || (n + 1 <=? 0)) with false by lia.
  reads_here Hp. handed. now apply three_at.
Qed.

Definition ReceiverReport_ok (p : ReceiverReport) : Prop :=
  in_u32 (rr_sender_ssrc_ p) /\ Forall ReportBlock_ok (rr_report_blocks_ p) /\ zlen (rr_report_blocks_ p) < 32.
Definition ReceiverReport_events (p : ReceiverReport) : list event :=
  ev kRr (PktRR (mk_RR (rr_sender_ssrc_ p) (zlen (rr_report_blocks_ p)))) :: concat (map ReportBlock_events (rr_report_blocks_ p)).

Lemma ReceiverReport_block p : ReceiverReport_ok p ->
  block (head (zlen (rr_report_blocks_ p)) PT_RR (HeaderLength (ReceiverReport_BlockLength p)) ++
         bytes32 (rr_sender_ssrc_ p) ++ CreateReportBlocks (rr_report_blocks_ p)) (ReceiverReport_events p).
Proof.
  destruct p as [ssrc bs]. intros (R & F & L). cbn in R, F, L. pose proof (zlen_nonneg bs).
  unfold ReceiverReport_events, CreateReportBlocks. cbn [rr_sender_ssrc_ rr_report_blocks_].
  assert (Lc : zlen (concat (map ReportBlock_Create bs)) = 24 * zlen bs) by (apply zlen_concat_map; reflexivity).
  assert (Ew : HeaderLength (ReceiverReport_BlockLength (mk_ReceiverReport ssrc bs)) = 1 + 6 * zlen bs).
  { rewrite <- (HeaderLength_words (1 + 6 * zlen bs)). f_equal. unfold ReceiverReport_BlockLength, kHeaderLength, ReportBlock_kLength.
    cbn [rr_report_blocks_]. lia. }
  rewrite Ew. apply (items_block State_ReportBlockItem counted); try lia.
  - rewrite zlen_app, Lc, zlen_bytes32. lia.
  - cbn. intuition discriminate.
  - discriminate.
  - intros q pre post s Hp (V & T & D & E). unfold ParseBlock. cbn [packet_type count_or_format].
    change (PT_RR =? PT_SR) with false. change (PT_RR =? PT_RR) with true. cbn [bind].
    unfold ParseRR, length_. parser_is. rewrite D, E. replace (_ <? 8) with false by lia.
    reads Hp. handed.
  - intros q e x pre post s n I Hp N Le A. rewrite Forall_forall in F.
    exact (report_block_item q e x pre post s n (F x I) Hp N Le A).
Qed.

Definition RTCPPacketSR_ok (sr : RTCPPacketSR) : Prop :=
  in_u32 (SR_SenderSSRC sr) /\ in_u32 (NTPMostSignificant sr) /\ in_u32 (NTPLeastSignificant sr) /\
  in_u32 (RTPTimestamp sr) /\ in_u32 (SenderPacketCount sr) /\ in_u32 (SenderOctetCount sr).
Definition SenderReport_ok (p : SenderReport) : Prop :=
  RTCPPacketSR_ok (sr_ p) /\ Forall ReportBlock_ok (sr_report_blocks_ p) /\
  SR_NumberOfReportBlocks (sr_ p) = zlen (sr_report_blocks_ p) /\ zlen (sr_report_blocks_ p) < 32.
Definition SenderReport_events (p : SenderReport) : list event :=
  ev kSr (PktSR (sr_ p)) :: concat (map ReportBlock_events (sr_report_blocks_ p)).

Lemma SenderReport_block p : SenderReport_ok p ->
  block (head (SR_NumberOfReportBlocks (sr_ p)) PT_SR (HeaderLength (SenderReport_BlockLength p)) ++
         CreateSenderReport (sr_ p) ++ CreateReportBlocks (sr_report_blocks_ p)) (SenderReport_events p).
Proof.
  destruct p as [[ssrc n secs frac stamp packets octets] bs]. intros ((R1 & R2 & R3 & R4 & R5 & R6) & F & N & L).
  cbn in R1, R2, R3, R4, R5, R6, F, N, L. subst n. pose proof (zlen_nonneg bs).
  unfold SenderReport_events, CreateReportBlocks, CreateSenderReport. cbn [sr_ sr_report_blocks_ SR_SenderSSRC SR_NumberOfReportBlocks NTPMostSignificant
    NTPLeastSignificant RTPTimestamp SenderPacketCount SenderOctetCount].
  assert (Lc : zlen (concat (map ReportBlock_Create bs)) = 24 * zlen bs) by (apply zlen_concat_map; reflexivity).
  rewrite (HeaderLength_is (6 + 6 * zlen bs)) by (unfold SenderReport_BlockLength, ReportBlock_kLength; cbn [sr_report_blocks_]; lia).
  assert (N : bs = [] \/ 0 < zlen bs) by (destruct bs; [now left|right; rewrite zlen_cons; pose proof (zlen_nonneg bs); lia]).
  destruct N as [->|N]; [|apply (items_block State_ReportBlockItem counted); try lia].
  - apply packet_block; [cbn; lia|cbn; lia|reflexivity|]. intros q pre post s Hp (V & T & D & E).
    switch. unfold ParseSR, length_. parser_is. rewrite D, E. replace (_ <? 28) with false by (cbn; lia).
    reads Hp. change (zlen [] =? 0) with true. cbn [negb]. eexists _, _. split; [reflexivity|]. parser_is.
    split; [discriminate|]. split; [reflexivity|]. split; [constructor|]. apply at_top_self; [exact V|reflexivity|exact E].
  - sizes.
  - cbn. intuition discriminate.
  - discriminate.
  - intros q pre post s Hp (V & T & D & E). switch.
    unfold ParseSR, length_. parser_is. rewrite D, E. replace (_ <? 28) with false by lia. reads Hp. parser_is.
    replace (zlen bs =? 0) with false by lia. cbn [negb]. handed.
  - intros q e x pre post s k I Hp K Le A. rewrite Forall_forall in F.
    exact (report_block_item q e x pre post s k (F x I) Hp K Le A).
Qed.

(** ** Extended jitter reports *)

Definition ExtendedJitterReport_ok (p : ExtendedJitterReport) : Prop :=
  Forall in_u32 (inter_arrival_jitters_ p) /\ zlen (inter_arrival_jitters_ p) < 32.
Definition ExtendedJitterReport_events (p : ExtendedJitterReport) : list event :=
  ev kExtendedIj PktNone :: concat (map (fun j => [ev kExtendedIjItem (PktExtendedJitterReportItem j)]) (inter_arrival_jitters_ p)).

Lemma ExtendedJitterReport_block p : ExtendedJitterReport_ok p ->
  block (head (zlen (inter_arrival_jitters_ p)) PT_IJ (zlen (inter_arrival_jitters_ p)) ++
         [] ++ concat (map bytes32 (inter_arrival_jitters_ p))) (ExtendedJitterReport_events p).
Proof.
  destruct p as [js]. intros (F & L). cbn in F, L. pose proof (zlen_nonneg js). unfold ExtendedJitterReport_events.
  cbn [inter_arrival_jitters_]. assert (Lc : zlen (concat (map bytes32 js)) = 4 * zlen js) by (apply zlen_concat_map; reflexivity).
  apply (items_block State_ExtendedJitterItem counted); try lia.
  - sizes.
  - cbn. intuition discriminate.
  - discriminate.
  - intros q pre post s Hp (V & T & D & E). switch. unfold ParseIJ, length_. parser_is. rewrite D, E.
    replace (_ <? 4) with false by lia. cbn [bind]. handed.
  - intros q e x pre post s k I Hp N Le A. rewrite Forall_forall in F. specialize (F x I).
    change (zlen (bytes32 x)) with 4 in *.
    eapply item_emits; [exact A|discriminate|]. unfold counted. intros s0 V T D E C.
    unfold ParseItem. rewrite T. unfold ParseIJItem, length_. rewrite D, E, C.
    replace ((e - zlen pre <? 4) || (k + 1 <=? 0)) with false by lia. reads_here Hp. handed.
Qed.

End RtcpPacketsFacts.
