(* ===== verification/RtcpFeedbackFacts.v ===== *)
(** * RTCP feedback packets: what is built is what is read

    The feedback messages of RtcpPackets.v: NACKs, picture and slice losses,
    reference pictures, full intra requests, and the bit rates of REMB, TMMBR
    and TMMBN. *)

From S2P Require Import Prelude Wire RtcpCommon RtcpWriter TransportFeedback TransportFeedbackRoundtrip RtcpParser RtcpParserFacts RtcpPackets RtcpPacketsFacts.
Import Wire RtcpCommon RtcpWriter TransportFeedbackRoundtrip RtcpParser RtcpParserFacts RtcpPackets RtcpPacketsFacts.

Module RtcpFeedbackFacts.

Definition Feedback_ok (f : Feedback) : Prop := in_u32 (SenderSSRC f) /\ in_u32 (MediaSSRC f).

(** ** Messages of items *)

Definition uncounted (_ : Z) : Z -> RTCPPacket -> Prop := anything.

Section Items.
Context {A : Type} (count t : Z) (kind : RTCPPacketTypes) (packet : Feedback -> RTCPPacket) (st : ParseState).
Hypothesis count_ok : 0 <= count < 32.
Hypothesis t_ok : (t =? PT_RTPFB) || (t =? PT_PSFB) = true.
Hypothesis kind_ok : kind <> kInvalid /\ fills kind = true /\ kind <> kTransportFeedback.
Hypothesis st_ok : In st [State_RTPFB_NACKItem; State_RTPFB_TMMBRItem; State_RTPFB_TMMBNItem; State_PSFB_SLIItem; State_PSFB_FIRItem].
Hypothesis reads_head : forall p s sender media, (length_ s <? 12) = false ->
  be32 p (_ptrRTCPData s + 4) = Ok sender -> be32 p (_ptrRTCPData s + 8) = Ok media ->
  forall words, ParseFBCommon p (mk_header 2 count t words 0) s =
  header_read s 12 kind (packet (mk_Feedback sender media)) st.

Lemma feedback_switch p words s : ParseBlock p (mk_header 2 count t words 0) s =
  (let! (ok, s) := ParseFBCommon p (mk_header 2 count t words 0) s in Ok (negb ok, s)).
Proof.
  unfold ParseBlock. cbn [packet_type]. apply orb_true_iff in t_ok as [K|K]; apply Z.eqb_eq in K; rewrite K; reflexivity.
Qed.

Variables (f : Feedback) (enc : A -> list Z) (evs : A -> list event) (l : list A) (words k : Z).
Hypothesis f_ok : Feedback_ok f.
Hypothesis enc_size : forall x, In x l -> zlen (enc x) = 4 * k.
Hypothesis words_ok : words = 2 + k * zlen l.
Hypothesis words_range : 0 <= words < 65536.
Hypothesis k_range : 0 <= k.
Hypothesis reads_item : forall p e x pre post s, In x l -> p = pre ++ enc x ++ post -> zlen pre + zlen (enc x) <= e ->
  at_item p st anything (zlen pre) e s ->
  exists s', emits p s (evs x) s' /\ at_item p st anything (zlen pre + zlen (enc x)) e s'.

Lemma feedback_items_block :
  block (head count t words ++ CreateCommonFeedback f ++ concat (map enc l)) (ev kind (packet f) :: concat (map evs l)).
Proof.
  destruct f as [sender media]. destruct f_ok as [R1 R2]. cbn in R1, R2. destruct kind_ok as (K1 & K2 & K3).
  pose proof (zlen_concat_map enc (4 * k) l enc_size) as Lc. pose proof (zlen_nonneg l).
  apply (items_block st uncounted); try assumption.
  - unfold CreateCommonFeedback. rewrite !zlen_app, Lc, words_ok, !zlen_bytes32. lia.
  - cbn [In] in *. intros N. intuition congruence.
  - cbn [In] in *. intros N. intuition congruence.
  - intros p pre post s Hp (V & T & D & E). rewrite feedback_switch.
    erewrite reads_head;
      [|unfold length_; rewrite D, E; nia|rewrite D; apply (u32_at _ _ _ Hp 4 sender (bytes32 media ++ concat (map enc l) ++ post)); [lia|reflexivity|exact R1]
       |rewrite D; apply (u32_at _ _ _ Hp 8 media (concat (map enc l) ++ post)); [lia|reflexivity|exact R2]].
    eexists. split; [reflexivity|]. parser_is. split; [assumption|]. split.
    { rewrite K2. unfold ev. f_equal. destruct kind; congruence. }
    rewrite D, E. repeat split; try assumption.
  - intros p e x pre post s n I Hp N L At. now apply (reads_item p e x pre post s).
Qed.

End Items.

(** The item is all there is to read. *)
Ltac item_here A Hp := eapply item_emits; [exact A|discriminate|]; intros s0 V T D E C; unfold ParseItem; rewrite T;
  unfold ParseNACKItem, ParseSLIItem, ParseFIRItem, ParseTMMBRItem, ParseTMMBNItem, length_; rewrite D, E;
  match goal with |- context [if ?b then _ else _] => replace b with false by lia end; reads_here Hp.

(** ** NACKs *)

Definition PackedNack_ok (i : PackedNack) : Prop := in_u16 (first_pid i) /\ in_u16 (bitmask i).
Definition nack_events (f : Feedback) (l : list PackedNack) : list event :=
  ev kRtpfbNack (PktNACK f) :: concat (map (fun i => [ev kRtpfbNackItem (PktNACKItem (mk_NACKItem (first_pid i) (bitmask i)))]) l).

Lemma nack_block f l : Feedback_ok f -> Forall PackedNack_ok l -> zlen l < 65534 ->
  block (head 1 PT_RTPFB (2 + zlen l) ++ CreateCommonFeedback f ++ concat (map CreateNackItem l)) (nack_events f l).
Proof.
  intros F P L. pose proof (zlen_nonneg l). rewrite Forall_forall in P.
  apply (feedback_items_block 1 PT_RTPFB kRtpfbNack PktNACK State_RTPFB_NACKItem) with (k := 1); try assumption; try reflexivity; try lia.
  - repeat split; discriminate.
  - cbn; tauto.
  - intros p s sender media K E1 E2 words. unfold ParseFBCommon. now rewrite K, E1, E2.
  - intros p e x pre post s I Hp Le A. destruct (P x I) as [R1 R2]. change (zlen (CreateNackItem x)) with 4 in *.
    item_here A Hp. handed.
Qed.

(** ** Losses of pictures and slices *)

Definition Pli_ok (p : Pli) : Prop := Feedback_ok (pli_ssrcs_ p).
Definition Pli_events (p : Pli) : list event := [ev kPsfbPli (PktPLI (pli_ssrcs_ p))].

Lemma Pli_block p : Pli_ok p -> block (head 1 PT_PSFB (HeaderLength (Pli_BlockLength p)) ++ CreateCommonFeedback (pli_ssrcs_ p)) (Pli_events p).
Proof.
  destruct p as [[sender media]]. intros [R1 R2]. cbn in R1, R2. change (HeaderLength _) with 2.
  apply packet_block; try lia; [reflexivity|]. intros q pre post s Hp (V & T & D & E). switch.
  unfold ParseFBCommon, length_. rewrite D, E. replace (_ <? 12) with false by (cbn; lia). reads Hp.
  cbn [packet_type count_or_format]. cbv [PT_RTPFB]. cbn [Z.eqb Pos.eqb]. eexists _, _. split; [reflexivity|]. parser_is.
  split; [discriminate|]. split; [reflexivity|]. split; [constructor|].
  apply at_top_self; [exact V|exact T|]. parser_is. rewrite D. cbn. lia.
Qed.

Definition Sli_ok (p : Sli) : Prop := Feedback_ok (sli_ssrcs_ p) /\ Forall in_u32 (items_ p) /\ zlen (items_ p) < 65534.
Definition Sli_events (p : Sli) : list event :=
  ev kPsfbSli (PktSLI (sli_ssrcs_ p)) ::
  concat (map (fun i => [ev kPsfbSliItem (PktSLIItem (mk_SLIItem (Z.land (Z.shiftr i 19) 0x1fff)
    (Z.land (Z.shiftr i 6) 0x1fff) (Z.land i 0x3f)))]) (items_ p)).

Lemma Sli_block p : Sli_ok p ->
  block (head 2 PT_PSFB (HeaderLength (Sli_BlockLength p)) ++ CreateCommonFeedback (sli_ssrcs_ p) ++ concat (map bytes32 (items_ p)))
    (Sli_events p).
Proof.
  destruct p as [f l]. intros (F & P & L). cbn in F, P, L. pose proof (zlen_nonneg l). rewrite Forall_forall in P.
  rewrite (HeaderLength_is (2 + zlen l)) by (unfold Sli_BlockLength, kHeaderLength, kCommonFeedbackLength; cbn [items_]; lia).
  unfold Sli_events. cbn [items_ sli_ssrcs_].
  apply (feedback_items_block 2 PT_PSFB kPsfbSli PktSLI State_PSFB_SLIItem) with (k := 1); try assumption; try reflexivity; try lia.
  - repeat split; discriminate.
  - cbn; tauto.
  - intros p s sender media K E1 E2 words. unfold ParseFBCommon. now rewrite K, E1, E2.
  - intros p e x pre post s I Hp Le A. specialize (P x I). change (zlen (bytes32 x)) with 4 in *.
    item_here A Hp. handed.
Qed.

(** ** Full intra requests *)

Definition Fir_ok (p : Fir) : Prop :=
  in_u32 (SenderSSRC (fir_ p)) /\ in_u32 (FIR_SSRC (fir_item_ p)) /\ in_u8 (CommandSequenceNumber (fir_item_ p)).
Definition unused (f : Feedback) : Feedback := mk_Feedback (SenderSSRC f) kUnusedMediaSourceSsrc0.
Definition Fir_events (p : Fir) : list event :=
  [ev kPsfbFir (PktFIR (unused (fir_ p))); ev kPsfbFirItem (PktFIRItem (fir_item_ p))].

Lemma unused_ok f : in_u32 (SenderSSRC f) -> Feedback_ok (unused f).
Proof. intros R. split; [exact R|]. unfold in_u32, unused, kUnusedMediaSourceSsrc0. cbn [MediaSSRC]. lia. Qed.

Lemma Fir_block p : Fir_ok p ->
  block (head 4 PT_PSFB (HeaderLength (Fir_BlockLength p)) ++ CreateFir (fir_ p) (fir_item_ p)) (Fir_events p).
Proof.
  destruct p as [f [ssrc n]]. intros (R & R1 & R2). cbn in R, R1, R2. change (HeaderLength _) with 4.
  refine (feedback_items_block 4 PT_PSFB kPsfbFir PktFIR State_PSFB_FIRItem _ _ _ _ _ (unused f)
    (fun i => bytes32 (FIR_SSRC i) ++ [u8 (CommandSequenceNumber i)] ++ bytes24 0) (fun i => [ev kPsfbFirItem (PktFIRItem i)])
    [mk_FIRItem ssrc n] 4 2 (unused_ok f R) _ _ _ _ _); try lia; try (intros; reflexivity).
  - repeat split; discriminate.
  - cbn; tauto.
  - intros p s sender media K E1 E2 words. unfold ParseFBCommon. now rewrite K, E1, E2.
  - intros p e x pre post s [<-|[]] Hp Le A. match type of Le with _ + ?n <= _ => change n with 8 in * end.
    cbn [FIR_SSRC CommandSequenceNumber] in Hp. item_here A Hp. handed.
Qed.

(** ** Bit rates *)

Lemma find_exponent_spec v mantissa_max j : 0 <= mantissa_max -> mantissa_max * 2 ^ j < 4294967296 -> v <= mantissa_max * 2 ^ j ->
  forall n i, 0 <= i <= j -> j < i + Z.of_nat n ->
  let e := find_exponent n i v mantissa_max in
  i <= e <= j /\ v <= mantissa_max * 2 ^ e /\ (e = i \/ mantissa_max * 2 ^ (e - 1) < v).
Proof.
  intros M R V. induction n as [|n IH]; intros i I L; [lia|]. cbv zeta. cbn [find_exponent].
  assert (Ei : shl32 mantissa_max i = mantissa_max * 2 ^ i).
  { unfold shl32. rewrite shiftl_mul by lia. apply u32_id. pose proof (Z.pow_le_mono_r 2 i j ltac:(lia) ltac:(lia)).
    pose proof (Z.pow_pos_nonneg 2 i ltac:(lia) ltac:(lia)). unfold in_u32. nia. }
  rewrite Ei. destruct (Z.leb_spec v (mantissa_max * 2 ^ i)) as [K|K]; [repeat split; try lia|].
  assert (i <> j) by (intros ->; lia). destruct (IH (i + 1)) as (A & B & C); [lia|lia|].
  split; [lia|]. split; [exact B|]. right. destruct C as [->|C]; [now replace (i + 1 - 1) with i by lia|exact C].
Qed.

(** The rate that is read back. *)
Definition coarse (bits v : Z) : Z := let (mantissa, e) := ComputeMantissaAnd6bitBase2Exponent v bits in mantissa * 2 ^ e.

Lemma mantissa_exponent bits v j : 0 < bits -> 0 <= j < 64 -> j + bits <= 32 -> 0 <= v <= (2 ^ bits - 1) * 2 ^ j ->
  exists m e, ComputeMantissaAnd6bitBase2Exponent v bits = (m, e) /\ 0 <= e <= j /\ 0 <= m < 2 ^ bits /\
    shl32 m e = m * 2 ^ e /\ m * 2 ^ e <= v < m * 2 ^ e + 2 ^ e /\ (e = 0 \/ (2 ^ bits - 1) * 2 ^ (e - 1) < v).
Proof.
  intros B J JB V. unfold ComputeMantissaAnd6bitBase2Exponent.
  assert (M : Z.shiftl 1 bits - 1 = 2 ^ bits - 1) by (rewrite shiftl_mul; lia). rewrite M.
  pose proof (Z.pow_pos_nonneg 2 bits ltac:(lia) ltac:(lia)) as Pb. pose proof (Z.pow_pos_nonneg 2 j ltac:(lia) ltac:(lia)) as Pj.
  assert (R : (2 ^ bits - 1) * 2 ^ j < 4294967296).
  { change 4294967296 with (2 ^ 32). apply Z.lt_le_trans with (2 ^ bits * 2 ^ j); [nia|].
    rewrite <- Z.pow_add_r by lia. apply Z.pow_le_mono_r; lia. }
  destruct (find_exponent_spec v (2 ^ bits - 1) j ltac:(lia) R ltac:(lia) 64 0 ltac:(lia) ltac:(lia)) as (A & C & D).
  set (e := find_exponent 64 0 v (2 ^ bits - 1)) in *. pose proof (Z.pow_pos_nonneg 2 e ltac:(lia) ltac:(lia)) as Pe.
  exists (Z.shiftr v e), e. rewrite shiftr_div by lia. pose proof (Z.mul_div_le v (2 ^ e) Pe). pose proof (Z.mul_succ_div_gt v (2 ^ e) Pe).
  assert (0 <= v / 2 ^ e) by (apply Z.div_pos; lia).
  assert (v / 2 ^ e < 2 ^ bits) by (apply Z.div_lt_upper_bound; nia).
  repeat split; try lia. unfold shl32. rewrite shiftl_mul by lia. apply u32_id. unfold in_u32. lia.
Qed.

(** What the packet loses of a rate is less than two in the mantissa's range. *)
Lemma coarse_near bits v j : 0 < bits -> 0 <= j < 64 -> j + bits <= 32 -> 0 <= v <= (2 ^ bits - 1) * 2 ^ j ->
  coarse bits v <= v /\ (2 ^ bits - 1) * (v - coarse bits v) <= 2 * v /\ in_u32 (coarse bits v).
Proof.
  intros B J JB V. destruct (mantissa_exponent bits v j B J JB V) as (m & e & E & Ee & M & S & Lo & Hi).
  unfold coarse. rewrite E. split; [lia|]. split; [|rewrite <- S; apply u32_range]. destruct Hi as [->|Hi].
  - change (2 ^ 0) with 1 in *. nia.
  - assert (P : 2 ^ e = 2 * 2 ^ (e - 1) \/ e = 0) by (destruct (Z.eq_dec e 0); [now right|left; rewrite <- Z.pow_succ_r by lia; f_equal; lia]).
    destruct P as [P|P]; [|subst e; change (2 ^ 0) with 1 in *; nia].
    pose proof (Z.pow_pos_nonneg 2 bits ltac:(lia) ltac:(lia)). nia.
Qed.

Lemma split18 m e : 0 <= e < 64 -> 0 <= m < 262144 ->
  let b0 := u8 (Z.shiftl e 2 + Z.land (Z.shiftr m 16) 0x03) in
  Z.land (Z.shiftr b0 2) 0x3F = e /\
  Z.shiftl (Z.land b0 0x03) 16 + Z.shiftl (u8 (Z.shiftr m 8)) 8 + u8 m = m.
Proof.
  intros E M. cbv zeta. change 0x03 with (2 ^ 2 - 1). change 0x3F with (2 ^ 6 - 1).
  rewrite !land_ones_mod, !shiftl_mul, !shiftr_div by lia. unfold u8. change (2 ^ 2) with 4. change (2 ^ 6) with 64.
  change (2 ^ 16) with 65536. change (2 ^ 8) with 256. split; Z.to_euclidean_division_equations; lia.
Qed.

Lemma split17 m e o : 0 <= e < 64 -> 0 <= m < 131072 -> 0 <= o < 512 ->
  let b0 := u8 (Z.shiftl e 2 + Z.land (Z.shiftr m 15) 0x03) in
  let b2 := u8 (Z.shiftl m 1 + Z.land (Z.shiftr o 8) 0x01) in
  Z.land (Z.shiftr b0 2) 0x3F = e /\
  Z.shiftl (Z.land b0 0x03) 15 + Z.shiftl (u8 (Z.shiftr m 7)) 7 + Z.land (Z.shiftr b2 1) 0x7F = m /\
  Z.shiftl (Z.land b2 0x01) 8 + u8 o = o.
Proof.
  intros E M O. cbv zeta. change 0x03 with (2 ^ 2 - 1). change 0x3F with (2 ^ 6 - 1). change 0x01 with (2 ^ 1 - 1). change 0x7F with (2 ^ 7 - 1).
  rewrite !land_ones_mod, !shiftl_mul, !shiftr_div by lia. unfold u8. change (2 ^ 2) with 4. change (2 ^ 6) with 64.
  change (2 ^ 15) with 32768. change (2 ^ 8) with 256. change (2 ^ 7) with 128. change (2 ^ 1) with 2.
  repeat split; Z.to_euclidean_division_equations; lia.
Qed.

(** ** Limits of the sender's rate *)

Definition TMMBRItem_ok (i : RTCPPacketRTPFBTMMBRItem) : Prop :=
  in_u32 (TMMBR_SSRC i) /\ 0 <= MaxTotalMediaBitRate i <= 4294934 /\ 0 <= MeasuredOverhead i < 512.
Definition coarse_item (i : RTCPPacketRTPFBTMMBRItem) : RTCPPacketRTPFBTMMBRItem :=
  mk_TMMBRItem (TMMBR_SSRC i) (coarse 17 (MaxTotalMediaBitRate i * 1000) / 1000) (MeasuredOverhead i).

Lemma read_rate_at p pre q i : p = pre ++ CreateTmmbrItem i ++ q -> TMMBRItem_ok i ->
  be32 p (zlen pre) = Ok (TMMBR_SSRC i) /\
  read_rate p (zlen pre + 4) = Ok (MaxTotalMediaBitRate (coarse_item i), MeasuredOverhead i).
Proof.
  intros Hp (R1 & R2 & R3). unfold CreateTmmbrItem in Hp. rewrite u32_id in Hp by (unfold in_u32; lia).
  destruct (mantissa_exponent 17 (MaxTotalMediaBitRate i * 1000) 15) as (m & e & E & Ee & M & S & _); [lia|lia|lia|lia|].
  unfold coarse_item, coarse. cbn [MaxTotalMediaBitRate]. rewrite E in *. change (2 ^ 17) with 131072 in M.
  destruct (split17 m e (MeasuredOverhead i)) as (S1 & S2 & S3); [lia|lia|lia|].
  split; [now reads_here Hp|]. unfold read_rate. rewrite <- !Z.add_assoc. reads Hp. cbv zeta. now rewrite S1, S2, S3, S.
Qed.

Definition Tmmbr_ok (p : Tmmbr) : Prop := in_u32 (SenderSSRC (tmmbr_ p)) /\ TMMBRItem_ok (tmmbr_item_ p).
Definition Tmmbr_events (p : Tmmbr) : list event :=
  [ev kRtpfbTmmbr (PktTMMBR (unused (tmmbr_ p))); ev kRtpfbTmmbrItem (PktTMMBRItem (coarse_item (tmmbr_item_ p)))].

Lemma zlen_tmmbr i : zlen (CreateTmmbrItem i) = 8.
Proof. unfold CreateTmmbrItem. now destruct (ComputeMantissaAnd6bitBase2Exponent _ _). Qed.

Lemma Tmmbr_block p : Tmmbr_ok p ->
  block (head 3 PT_RTPFB (HeaderLength (Tmmbr_BlockLength p)) ++ CreateTmmbr (tmmbr_ p) (tmmbr_item_ p)) (Tmmbr_events p).
Proof.
  destruct p as [f i]. intros (R & Ri). cbn in R, Ri. change (HeaderLength _) with 4. unfold CreateTmmbr, Tmmbr_events.
  cbn [tmmbr_ tmmbr_item_]. rewrite <- (app_nil_r (CreateTmmbrItem i)).
  refine (feedback_items_block 3 PT_RTPFB kRtpfbTmmbr PktTMMBR State_RTPFB_TMMBRItem _ _ _ _ _ (unused f)
    CreateTmmbrItem (fun i => [ev kRtpfbTmmbrItem (PktTMMBRItem (coarse_item i))]) [i] 4 2 (unused_ok f R) _ _ _ _ _); try lia; try reflexivity; try (intros; apply zlen_tmmbr).
  - repeat split; discriminate.
  - cbn; tauto.
  - intros p s sender media K E1 E2 words. unfold ParseFBCommon. now rewrite K, E1, E2.
  - intros p e x pre post s [<-|[]] Hp Le A. rewrite zlen_tmmbr in *. destruct (read_rate_at _ _ _ _ Hp Ri) as [E1 E2].
    eapply item_emits; [exact A|discriminate|]; intros s0 V T D E C; unfold ParseItem; rewrite T; unfold ParseTMMBRItem, length_.
    rewrite D, E. replace (_ <? 8) with false by lia. rewrite E1. cbn [bind]. rewrite E2. cbn [bind]. handed.
Qed.

Definition Tmmbn_ok (p : Tmmbn) : Prop :=
  in_u32 (SenderSSRC (tmmbn_ p)) /\ Forall TMMBRItem_ok (tmmbn_items_ p) /\ zlen (tmmbn_items_ p) <= kMaxNumberOfTmmbrs.
Definition Tmmbn_events (p : Tmmbn) : list event :=
  ev kRtpfbTmmbn (PktTMMBN (unused (tmmbn_ p))) ::
  concat (map (fun i => [ev kRtpfbTmmbnItem (PktTMMBNItem (coarse_item i))]) (tmmbn_items_ p)).

Lemma Tmmbn_block p : Tmmbn_ok p ->
  block (head 4 PT_RTPFB (HeaderLength (Tmmbn_BlockLength p)) ++ CreateTmmbn (tmmbn_ p) (tmmbn_items_ p)) (Tmmbn_events p).
Proof.
  destruct p as [f l]. intros (R & Ri & L). cbn in R, Ri, L. unfold kMaxNumberOfTmmbrs in L. unfold CreateTmmbn, Tmmbn_events. rewrite Forall_forall in Ri.
  rewrite (HeaderLength_is (2 + 2 * zlen l)) by (unfold Tmmbn_BlockLength, kCommonFbFmtLength; cbn [tmmbn_items_]; lia).
  cbn [tmmbn_ tmmbn_items_]. pose proof (zlen_nonneg l).
  refine (feedback_items_block 4 PT_RTPFB kRtpfbTmmbn PktTMMBN State_RTPFB_TMMBNItem _ _ _ _ _ (unused f)
    CreateTmmbrItem (fun i => [ev kRtpfbTmmbnItem (PktTMMBNItem (coarse_item i))]) l _ 2 (unused_ok f R) _ _ _ _ _); try lia; try reflexivity; try (intros; apply zlen_tmmbr).
  - repeat split; discriminate.
  - cbn; tauto.
  - intros p s sender media K E1 E2 words. unfold ParseFBCommon. now rewrite K, E1, E2.
  - intros p e x pre post s I Hp Le A. rewrite zlen_tmmbr in *. destruct (read_rate_at _ _ _ _ Hp (Ri x I)) as [E1 E2].
    eapply item_emits; [exact A|discriminate|]; intros s0 V T D E C; unfold ParseItem; rewrite T; unfold ParseTMMBNItem, length_.
    rewrite D, E. replace (_ <? 8) with false by lia. rewrite E1. cbn [bind]. rewrite E2. cbn [bind]. handed.
Qed.

(** ** Estimates of the receiver *)

Lemma read_ssrcs_at p l : forall pre post o, p = pre ++ concat (map bytes32 l) ++ post -> o = zlen pre -> Forall in_u32 l ->
  read_ssrcs p (length l) o = Ok l.
Proof.
  induction l as [|x l IH]; intros pre post o Hp -> F; cbn [length read_ssrcs map concat] in *; [reflexivity|].
  inversion F; subst x0 l0. rewrite <- app_assoc in Hp. reads_here Hp.
  rewrite (IH (pre ++ bytes32 x) post); [reflexivity|now rewrite Hp, <- app_assoc|now rewrite zlen_app|assumption].
Qed.

Lemma regroup (pre a b c d e x post : list Z) :
  pre ++ (a ++ b ++ c ++ d ++ e ++ x) ++ post = (pre ++ a ++ b ++ c ++ d ++ e) ++ x ++ post.
Proof. now rewrite <- !app_assoc. Qed.

Definition Remb_ok (p : Remb) : Prop :=
  let item := remb_item_ p in
  in_u32 (SenderSSRC (remb_ p)) /\ 0 <= BitRate item <= 0xFFFFC000 /\ NumberOfSSRCs item = zlen (SSRCs item) /\
  zlen (SSRCs item) < 256 /\ Forall in_u32 (SSRCs item).
Definition Remb_events (p : Remb) : list event :=
  let item := remb_item_ p in
  [ev kPsfbApp (PktPSFBAPP (unused (remb_ p))); ev kPsfbRemb PktNone;
   ev kPsfbRembItem (PktREMBItem (mk_REMBItem (coarse 18 (BitRate item)) (NumberOfSSRCs item) (SSRCs item)))].

Lemma Remb_block p : Remb_ok p ->
  block (head 15 PT_PSFB (HeaderLength (Remb_BlockLength p)) ++ CreateRemb (remb_ p) (remb_item_ p)) (Remb_events p).
Proof.
  destruct p as [[sender media] [rate n l]]. intros (R & Rr & N & L & F). cbn in R, Rr, N, L, F. subst n. pose proof (zlen_nonneg l).
  destruct (mantissa_exponent 18 rate 14) as (m & e & E & Ee & M & S & _); [lia|lia|lia|lia|]. change (2 ^ 18) with 262144 in M.
  destruct (split18 m e) as (S1 & S2); [lia|lia|].
  unfold Remb_events, CreateRemb, coarse, unused. cbn [remb_ remb_item_ BitRate NumberOfSSRCs SSRCs SenderSSRC]. rewrite E.
  assert (Lc : zlen (concat (map bytes32 l)) = 4 * zlen l) by (apply zlen_concat_map; reflexivity).
  rewrite (HeaderLength_is (4 + zlen l)) by (unfold Remb_BlockLength; cbn [remb_item_ NumberOfSSRCs]; lia).
  assert (Lb : forall a, zlen (bytes32 sender ++ bytes32 kUnusedMediaSourceSsrc0 ++ [82; 69; 77; 66] ++ [u8 (zlen l); a; u8 (Z.shiftr m 8); u8 m] ++
    concat (map bytes32 l)) = 4 * (4 + zlen l)) by (intros a; rewrite !zlen_app, Lc; change (zlen [u8 (zlen l); a; u8 (Z.shiftr m 8); u8 m]) with 4; change (zlen [82; 69; 77; 66]) with 4; rewrite !zlen_bytes32; lia).
  apply packet_block; [lia|lia|apply Lb|]. intros p pre post s Hp (V & T & D & En). rewrite Lb in En |- *. switch.
  assert (R0 : in_u32 kUnusedMediaSourceSsrc0) by (unfold in_u32, kUnusedMediaSourceSsrc0; lia).
  unfold ParseFBCommon, length_. rewrite D, En. replace (_ <? 12) with false by lia. reads Hp.
  cbn [packet_type count_or_format]. cbv [PT_RTPFB]. cbn [Z.eqb Pos.eqb].
  destruct (item_emits p State_PSFB_AppItem anything anything State_PSFB_REMBItem (zlen pre + 12) (zlen pre + 4 + 4 * (4 + zlen l))
    (set_packet (set_type (set_data (set_state s State_PSFB_AppItem) (_ptrRTCPData s + 12)) kPsfbApp) (PktPSFBAPP (mk_Feedback sender kUnusedMediaSourceSsrc0)))
    4 (ev kPsfbRemb PktNone)) as (s2 & E2 & A2);
    [apply at_item_self; try assumption; [reflexivity|parser_is; lia|constructor]|discriminate| |].
  { intros s0 V0 T0 D0 En0 _. unfold ParseItem. rewrite T0. unfold ParsePsfbAppItem, length_. rewrite D0, En0.
    replace (_ <? 4) with false by lia. rewrite <- !Z.add_assoc. reads Hp. cbn [Z.eqb Pos.eqb negb].
    do 3 (reads Hp; cbn [Z.eqb Pos.eqb negb]). handed. }
  destruct (item_emits p State_PSFB_REMBItem anything anything State_PSFB_REMBItem (zlen pre + 12 + 4) (zlen pre + 4 + 4 * (4 + zlen l)) s2
    (4 + 4 * zlen l) (ev kPsfbRembItem (PktREMBItem (mk_REMBItem (m * 2 ^ e) (zlen l) l)))) as (s3 & E3 & A3); [assumption|discriminate| |].
  { intros s0 V0 T0 D0 En0 _. unfold ParseItem. rewrite T0. unfold ParsePsfbREMBItem, length_. rewrite D0, En0.
    replace (_ <? 4) with false by lia. rewrite <- !Z.add_assoc. reads Hp. cbv zeta. rewrite S1, S2, S. parser_is. rewrite ?D0, ?En0.
    rewrite u8_id by (unfold in_u8; lia). replace (_ <? _) with false by lia. replace (Z.to_nat (zlen l)) with (length l) by (unfold zlen; lia).
    erewrite (read_ssrcs_at p l _ post); [cbn [bind]; handed| | |assumption].
    - etransitivity; [exact Hp|apply regroup].
    - rewrite !zlen_app. reflexivity. }
  eexists _, s3. split; [reflexivity|]. parser_is. split; [discriminate|]. split; [reflexivity|].
  split; [exact (emits_app _ _ _ _ _ _ E2 E3)|].
  replace (zlen pre + 12 + 4 + (4 + 4 * zlen l)) with (zlen pre + 4 + 4 * (4 + zlen l)) in A3 by lia.
  apply (items_end _ _ _ _ _ A3); [cbn; intuition discriminate|discriminate].
Qed.

(** ** Reference pictures *)

Definition Rpsi_ok (p : Rpsi) : Prop :=
  let r := rpsi_ p in
  Feedback_ok (RPSI_Feedback r) /\ in_u8 (PayloadType r) /\ NumberOfValidBits r = 8 * zlen (NativeBitString r) /\
  0 < zlen (NativeBitString r) <= 27 /\ padding_bytes_ p = (- (2 + zlen (NativeBitString r))) mod 4.
Definition Rpsi_events (p : Rpsi) : list event :=
  let r := rpsi_ p in
  [ev kPsfbRpsi (PktRPSI (mk_RPSI (RPSI_Feedback r) 0 0 []));
   ev kPsfbRpsi (PktRPSI (mk_RPSI (RPSI_Feedback r) (PayloadType r) (NumberOfValidBits r)
     (NativeBitString r ++ zeros (padding_bytes_ p))))].

Lemma regroup4 (pre a b c d x post : list Z) :
  pre ++ (a ++ (b ++ c) ++ d ++ x) ++ post = (pre ++ a ++ b ++ c ++ d) ++ x ++ post.
Proof. now rewrite <- !app_assoc. Qed.

Lemma copy_at p pre x post o n : p = pre ++ x ++ post -> o = zlen pre -> n = zlen x -> copy p o n = Ok x.
Proof.
  intros -> -> ->. unfold copy. pose proof (zlen_nonneg pre). pose proof (zlen_nonneg post). pose proof (zlen_nonneg x).
  rewrite !zlen_app. replace (_ && _) with true by lia. now rewrite slice_mid.
Qed.

Lemma Rpsi_block p : Rpsi_ok p ->
  block (head 3 PT_PSFB (HeaderLength (Rpsi_BlockLength p)) ++ CreateRpsi (rpsi_ p) (padding_bytes_ p)) (Rpsi_events p).
Proof.
  destruct p as [pad [[sender media] pt n bits]]. intros ([R1 R2] & R3 & N & L & P). unfold rpsi_, padding_bytes_ in *.
  cbn [RPSI_Feedback PayloadType NumberOfValidBits NativeBitString SenderSSRC MediaSSRC] in R1, R2, R3, N, L, P. subst n.
  assert (Pr : 0 <= pad < 4) by (subst pad; apply Z.mod_pos_bound; lia).
  assert (Pw : exists w, 2 + zlen bits + pad = 4 * w).
  { exists ((2 + zlen bits + pad) / 4). clear - P. Z.to_euclidean_division_equations. lia. }
  destruct Pw as [w Pw]. clear P.
  unfold Rpsi_events, CreateRpsi, CreateCommonFeedback. cbn [rpsi_ padding_bytes_ RPSI_Feedback PayloadType NumberOfValidBits NativeBitString SenderSSRC MediaSSRC].
  replace (8 * zlen bits / 8) with (zlen bits) by (rewrite Z.mul_comm, Z.div_mul; lia).
  replace (firstn (Z.to_nat (zlen bits)) bits) with bits by (symmetry; apply firstn_all2; unfold zlen; lia).
  rewrite (HeaderLength_is (2 + w)).
  2: { unfold Rpsi_BlockLength, kCommonFbFmtLength. cbn [rpsi_ padding_bytes_ NumberOfValidBits].
       replace (8 * zlen bits / 8) with (zlen bits) by (rewrite Z.mul_comm, Z.div_mul; lia). lia. }
  assert (Lz : zlen (bits ++ zeros pad) = zlen bits + pad) by (rewrite zlen_app, zlen_zeros; lia).
  assert (Lb : zlen ((bytes32 sender ++ bytes32 media) ++ [u8 (pad * 8); u8 pt] ++ bits ++ zeros pad) = 4 * (2 + w)).
  { rewrite !zlen_app, zlen_zeros by lia. change (zlen [u8 (pad * 8); u8 pt]) with 2. rewrite !zlen_bytes32. lia. }
  apply packet_block; [lia|lia|exact Lb|]. intros p pre post s Hp (V & T & D & En). rewrite Lb in En |- *. switch.
  unfold ParseFBCommon, length_. rewrite D, En. replace (_ <? 12) with false by lia. reads Hp.
  cbn [packet_type count_or_format]. cbv [PT_RTPFB]. cbn [Z.eqb Pos.eqb]. set (f := mk_Feedback sender media).
  destruct (item_emits p State_PSFB_RPSIItem (fun _ packet => packet = PktRPSI (mk_RPSI f 0 0 [])) anything State_PSFB_RPSIItem
    (zlen pre + 12) (zlen pre + 4 + 4 * (2 + w))
    (set_packet (set_type (set_data (set_state s State_PSFB_RPSIItem) (_ptrRTCPData s + 12)) kPsfbRpsi) (PktRPSI (mk_RPSI f 0 0 [])))
    (4 * w) (ev kPsfbRpsi (PktRPSI (mk_RPSI f pt (8 * zlen bits) (bits ++ zeros pad))))) as (s2 & E2 & A2);
    [apply at_item_self; try assumption; [reflexivity|parser_is; lia|reflexivity]|discriminate| |].
  { intros s0 V0 T0 D0 En0 C0. unfold ParseItem. rewrite T0. unfold ParseRPSIItem, RTCP_RPSI_DATA_SIZE, length_. rewrite D0, En0, C0.
    replace (_ <? 4) with false by lia. replace (2 + 30 <? _) with false by lia. rewrite <- !Z.add_assoc. reads Hp.
    erewrite (copy_at p _ (bits ++ zeros pad) post); [| etransitivity; [exact Hp|apply regroup4] | rewrite !zlen_app; reflexivity | lia].
    cbn [bind RPSI_Feedback]. rewrite (u8_id (pad * 8)) by (unfold in_u8; lia).
    replace (u16 (u16 _ * 8 - _)) with (8 * zlen bits) by (rewrite (u16_id (_ - 2)), u16_id; unfold in_u16; lia). handed. }
  eexists _, s2. split; [reflexivity|]. parser_is. split; [discriminate|]. split; [reflexivity|]. split; [exact E2|].
  replace (zlen pre + 12 + 4 * w) with (zlen pre + 4 + 4 * (2 + w)) in A2 by lia.
  apply (items_end _ _ _ _ _ A2); [cbn; intuition discriminate|discriminate].
Qed.

(** ** Packing sequence numbers *)

(** [b] comes after [a], not more than a turn of the numbers later. *)
Definition follows (a b : Z) : Prop := 0 < u16 (b - a) < 65520.
Inductive increasing : list Z -> Prop :=
| increasing_nil : increasing []
| increasing_one a : increasing [a]
| increasing_cons a b l : follows a b -> increasing (b :: l) -> increasing (a :: b :: l).

(** The numbers behind [pid] whose bits are set in [mask], up to the [n]th bit from the [i]th on. *)
Fixpoint numbers (n : nat) (i pid mask : Z) : list Z :=
  match n with
  | O => []
  | S n => (if Z.testbit mask i then [u16 (pid + i + 1)] else []) ++ numbers n (i + 1) pid mask
  end.

Lemma unpack_mask_numbers fuel : forall mask pid, 0 <= mask < 2 ^ Z.of_nat fuel ->
  unpack_mask fuel mask (u16 (pid + 1)) = Ok (numbers fuel 0 pid mask).
Proof.
  assert (Sh : forall n i pid mask, 0 <= i -> numbers n (i + 1) pid mask = numbers n i (pid + 1) (Z.shiftr mask 1)).
  { induction n as [|n IH]; intros i pid mask I; cbn [numbers]; [reflexivity|].
    rewrite Z.shiftr_spec, IH by lia. now replace (pid + 1 + i + 1) with (pid + (i + 1) + 1) by lia. }
  assert (Nz : forall n i pid, numbers n i pid 0 = []).
  { induction n as [|n IH]; intros i pid; cbn [numbers]; [reflexivity|]. now rewrite Z.bits_0, IH. }
  induction fuel as [|fuel IH]; intros mask pid M; cbn [unpack_mask].
  { change (2 ^ Z.of_nat 0) with 1 in M. now replace (mask =? 0) with true by lia. }
  destruct (Z.eqb_spec mask 0) as [->|N]; [now rewrite Nz|]. cbn [numbers].
  assert (U : u16 (u16 (pid + 1) + 1) = u16 (pid + 1 + 1)) by (unfold u16; Z.to_euclidean_division_equations; lia).
  rewrite U, IH.
  2: { rewrite Z.shiftr_div_pow2 by lia. change (2 ^ 1) with 2. replace (Z.of_nat (S fuel)) with (Z.of_nat fuel + 1) in M by lia.
       rewrite Z.pow_add_r in M by lia. change (2 ^ 1) with 2 in M. clear - M. Z.to_euclidean_division_equations. nia. }
  cbn [bind]. rewrite <- (Sh fuel 0 pid mask) by lia. rewrite Z.add_0_r.
  assert (T : negb (Z.land mask 1 =? 0) = Z.testbit mask 0).
  { change 1 with (Z.ones 1). rewrite Z.land_ones by lia. change (2 ^ 1) with 2. rewrite <- Z.bit0_mod.
    now destruct (Z.testbit mask 0). }
  rewrite T. now destruct (Z.testbit mask 0).
Qed.

Lemma bits_above m s j : 0 <= m < 2 ^ s -> 0 <= s <= j -> Z.testbit m j = false.
Proof. intros M J. rewrite <- (Z.mod_small m (2 ^ s)) by exact M. apply Z.mod_pow2_bits_high. lia. Qed.

Lemma numbers_none n : forall i pid m, (forall j, i <= j -> Z.testbit m j = false) -> numbers n i pid m = [].
Proof.
  induction n as [|n IH]; intros i pid m F; cbn [numbers]; [reflexivity|].
  rewrite F by lia. cbn [app]. apply IH. intros j J. apply F. lia.
Qed.

Lemma numbers_add n : forall i s pid m, 0 <= i <= s -> s < i + Z.of_nat n -> 0 <= m < 2 ^ s ->
  numbers n i pid (Z.lor m (Z.shiftl 1 s)) = numbers n i pid m ++ [u16 (pid + s + 1)].
Proof.
  assert (B : forall s j, 0 <= s -> 0 <= j -> Z.testbit (Z.shiftl 1 s) j = (j =? s)).
  { intros s j S J. rewrite Z.shiftl_spec by lia. destruct (Z.eqb_spec j s) as [->|N]; [now rewrite Z.sub_diag|].
    destruct (Z.lt_ge_cases j s); [apply Z.testbit_neg_r; lia|]. change 1 with (2 ^ 0). now apply Z.pow2_bits_false; lia. }
  induction n as [|n IH]; intros i s pid m I L M; [lia|]. cbn [numbers]. rewrite Z.lor_spec, B by lia.
  destruct (Z.eqb_spec i s) as [->|N].
  - rewrite (bits_above m s s) by lia. cbn [orb app].
    rewrite !numbers_none; [reflexivity| |]; intros j J; rewrite ?Z.lor_spec, ?B by lia; rewrite (bits_above m s j) by lia; [reflexivity|].
    now replace (j =? s) with false by lia.
  - rewrite orb_false_r, IH by lia. apply app_assoc.
Qed.

Lemma pack_mask_numbers ids : forall pid o mask, in_u16 pid -> 0 <= o <= 16 -> 0 <= mask < 2 ^ o ->
  Forall in_u16 ids -> increasing (u16 (pid + o) :: ids) ->
  exists taken mask' rest, pack_mask ids pid mask = (mask', rest) /\ ids = taken ++ rest /\ in_u16 mask' /\
    numbers 16 0 pid mask' = numbers 16 0 pid mask ++ taken /\ increasing rest.
Proof.
  induction ids as [|id ids IH]; intros pid o mask P Ob M F Inc; cbn [pack_mask].
  { exists [], mask, []. repeat (split; [reflexivity|]). split; [|split; [now rewrite app_nil_r|constructor]].
    pose proof (Z.pow_le_mono_r 2 o 16 ltac:(lia) ltac:(lia)) as K. change (2 ^ 16) with 65536 in K. unfold in_u16. lia. }
  inversion F as [|? ? Fi Fl]; subst. inversion Inc as [| |? ? ? Fo Ir]; subst. unfold follows in Fo.
  set (d := u16 (id - u16 (pid + o))) in *. unfold in_u16 in P, Fi.
  assert (Es : u16 (id - pid - 1) = o + d - 1).
  { unfold d, u16 in *. clear - Fo Fi P Ob. Z.to_euclidean_division_equations. lia. }
  assert (Ei : id = u16 (pid + (o + d - 1) + 1)).
  { unfold d, u16 in *. clear - Fo Fi P Ob. Z.to_euclidean_division_equations. lia. }
  rewrite Es. destruct (Z.leb_spec (o + d - 1) 15) as [K|K].
  - assert (Lo : 0 <= mask < 2 ^ (o + d - 1)) by (pose proof (Z.pow_le_mono_r 2 o (o + d - 1) ltac:(lia) ltac:(lia)); lia).
    destruct (IH pid (o + d) (Z.lor mask (Z.shiftl 1 (o + d - 1)))) as (taken & mask' & rest & E & El & R & Nm & Ir');
      [assumption|lia| |assumption|now replace (u16 (pid + (o + d))) with id by (rewrite Ei at 1; f_equal; lia)|].
    { rewrite shiftl_mul by lia. replace (1 * 2 ^ (o + d - 1)) with (1 * 2 ^ (o + d - 1)) by lia. rewrite lor_add by lia.
      replace (2 ^ (o + d)) with (2 * 2 ^ (o + d - 1)) by (rewrite <- Z.pow_succ_r by lia; f_equal; lia). lia. }
    exists (id :: taken), mask', rest. split; [exact E|]. split; [now rewrite El|]. split; [exact R|]. split; [|exact Ir'].
    rewrite Nm, numbers_add by lia. rewrite <- Ei, <- app_assoc. reflexivity.
  - exists [], mask, (id :: ids). repeat (split; [reflexivity|]). split; [|split; [now rewrite app_nil_r|exact Ir]].
    pose proof (Z.pow_le_mono_r 2 o 16 ltac:(lia) ltac:(lia)) as K'. change (2 ^ 16) with 65536 in K'. unfold in_u16. lia.
Qed.

Lemma Pack_numbers fuel : forall ids, (length ids <= fuel)%nat -> Forall in_u16 ids -> increasing ids ->
  exists packed, Pack fuel ids = Ok packed /\ Unpack packed = Ok ids /\ Forall PackedNack_ok packed /\ (ids <> [] -> packed <> []) /\
    zlen packed <= zlen ids.
Proof.
  induction fuel as [|fuel IH]; intros [|pid ids] L F Inc; try (cbn in L; lia);
    try (exists []; repeat split; [constructor|congruence|cbn; lia]).
  inversion F as [|? ? Fi Fl]; subst. cbn [Pack].
  destruct (pack_mask_numbers ids pid 0 0 Fi ltac:(lia) ltac:(cbn; lia) Fl) as (taken & mask & rest & E & El & R & Nm & Ir).
  { rewrite Z.add_0_r, u16_id by assumption. exact Inc. }
  rewrite E. assert (Lr : (length rest <= fuel)%nat) by (cbn [length] in L; rewrite El, length_app in L; lia).
  destruct (IH rest Lr) as (packed & Ep & Eu & Fp & _ & Zp); [rewrite El in Fl; now apply Forall_app in Fl|assumption|].
  rewrite Ep. cbn [bind]. exists (mk_PackedNack pid mask :: packed). split; [reflexivity|]. split; [|split; [|split; [discriminate|]]].
  - cbn [Unpack first_pid bitmask]. rewrite unpack_mask_numbers by (unfold in_u16 in R; cbn; lia). cbn [bind]. rewrite Eu. cbn [bind].
    rewrite Nm, El. rewrite (numbers_none 16 0 pid 0) by (intros; apply Z.bits_0). reflexivity.
  - constructor; [split; assumption|assumption].
  - rewrite !zlen_cons, El, zlen_app. pose proof (zlen_nonneg taken). lia.
Qed.

(** The sequence numbers given to a NACK, in their order and around the
    end of their range, are those that its packed items stand for; the items
    are what a packet may carry. *)
Theorem nack_numbers_kept p ids : Feedback_ok (nack_ssrcs_ p) -> Forall in_u16 ids -> increasing ids ->
  exists p', Nack_WithList p ids = Ok p' /\ packet_ids_ p' = ids /\ Unpack (packed_ p') = Ok ids /\
    nack_ssrcs_ p' = nack_ssrcs_ p /\ Forall PackedNack_ok (packed_ p') /\ zlen (packed_ p') <= zlen ids.
Proof.
  intros Fo F Inc. unfold Nack_WithList. destruct (Pack_numbers (length ids) ids (le_n _) F Inc) as (packed & -> & U & P & _ & L).
  eexists. repeat (split; [reflexivity|]). auto.
Qed.

Lemma nack_numbers_kept_witness : exists p', Nack_WithList (mk_Nack (mk_Feedback 1 2) [] []) [65530; 65535; 0; 7; 9; 100] = Ok p' /\
  packet_ids_ p' = [65530; 65535; 0; 7; 9; 100] /\ Unpack (packed_ p') = Ok [65530; 65535; 0; 7; 9; 100] /\
  nack_ssrcs_ p' = mk_Feedback 1 2 /\ Forall PackedNack_ok (packed_ p') /\ zlen (packed_ p') <= 6.
Proof.
  apply (nack_numbers_kept (mk_Nack (mk_Feedback 1 2) [] []) [65530; 65535; 0; 7; 9; 100]).
  - split; unfold in_u32; cbn; lia.
  - repeat constructor; unfold in_u16; lia.
  - repeat constructor.
Defined.

End RtcpFeedbackFacts.
