(* ===== verification/RtcpOtherFacts.v ===== *)
(** * Other RTCP packets: what is built is what is read

    The source descriptions, goodbyes, application packets and extended reports
    of RtcpPackets.v. *)

From S2P Require Import Prelude Wire RtcpCommon RtcpWriter TransportFeedback TransportFeedbackRoundtrip RtcpParser RtcpParserFacts RtcpPackets RtcpPacketsFacts RtcpFeedbackFacts.
Import Wire RtcpCommon RtcpWriter TransportFeedbackRoundtrip RtcpParser RtcpParserFacts RtcpPackets RtcpPacketsFacts RtcpFeedbackFacts.

Module RtcpOtherFacts.

(** ** Goodbyes *)

Definition Bye_ok (p : Bye) : Prop :=
  in_u32 (bye_sender_ssrc_ p) /\ zlen (csrcs_ p) < 31 /\ zlen (reason_ p) < 256.
Definition Bye_events (p : Bye) : list event := [ev kBye (PktBYE (bye_sender_ssrc_ p))].

Definition reason_words (reason : list Z) : Z := match reason with [] => 0 | _ => zlen reason / 4 + 1 end.

Lemma CreateBye_size p : zlen (CreateBye p) = 4 * (1 + zlen (csrcs_ p) + reason_words (reason_ p)).
Proof.
  destruct p as [ssrc l r]. unfold CreateBye. cbn [bye_sender_ssrc_ csrcs_ reason_].
  assert (Lc : zlen (concat (map bytes32 l)) = 4 * zlen l) by (apply zlen_concat_map; reflexivity).
  destruct r as [|x r]; [unfold reason_words; rewrite zlen_app, Lc, zlen_bytes32; lia|].
  set (reason := x :: r). unfold Bye_BlockLength, kHeaderLength. cbn [csrcs_ reason_]. fold reason. unfold reason_words. fold reason.
  change (match reason with [] => 0 | _ => zlen reason / 4 + 1 end) with (zlen reason / 4 + 1).
  pose proof (zlen_nonneg reason). rewrite !zlen_app, Lc, zlen_bytes32. change (zlen [u8 (zlen reason)]) with 1.
  assert (u8 (zlen reason) <= zlen reason) by (apply Z.mod_le; lia). pose proof (u8_range (zlen reason)). unfold in_u8 in *. rewrite zlen_firstn by lia.
  rewrite zlen_zeros; [lia|]. Z.to_euclidean_division_equations. lia.
Qed.

Lemma Bye_block p : Bye_ok p ->
  block (head (1 + zlen (csrcs_ p)) PT_BYE (HeaderLength (Bye_BlockLength p)) ++ CreateBye p) (Bye_events p).
Proof.
  intros (R & L & Lr). pose proof (zlen_nonneg (csrcs_ p)). pose proof (CreateBye_size p) as Lb.
  assert (W : 0 <= reason_words (reason_ p) <= 65).
  { unfold reason_words. pose proof (zlen_nonneg (reason_ p)). destruct (reason_ p); [lia|]. Z.to_euclidean_division_equations. lia. }
  rewrite (HeaderLength_is (1 + zlen (csrcs_ p) + reason_words (reason_ p)))
    by (unfold Bye_BlockLength, kHeaderLength, reason_words; destruct (reason_ p); lia).
  apply packet_block; [lia|lia|exact Lb|]. intros q pre post s Hp (V & T & D & E). rewrite Lb in E |- *. switch.
  unfold ParseBYE, ParseBYEItem, length_. parser_is. rewrite D, E.
  replace ((_ <? 4) || _) with false by lia.
  assert (Hb : exists rest, CreateBye p = bytes32 (bye_sender_ssrc_ p) ++ rest)
    by (unfold CreateBye; destruct (reason_ p); eexists; rewrite <- ?app_assoc; reflexivity).
  destruct Hb as [rest Hb]. rewrite Hb in Hp. reads Hp. replace (4 * (1 + _) <=? _) with true by lia.
  eexists _, _. split; [reflexivity|]. parser_is. split; [discriminate|]. split; [reflexivity|]. split; [constructor|].
  apply (item_end _ State_BYEItem (fun b _ => b = 0) (zlen pre + (8 + 4 * zlen (csrcs_ p))) (zlen pre + 4 + 4 * (1 + zlen (csrcs_ p) + reason_words (reason_ p)))).
  - apply at_item_self; parser_is; try assumption; try reflexivity. rewrite ?D. lia.
  - discriminate.
  - intros s0 T0 _ _ B0. unfold ParseItem. rewrite T0. unfold ParseBYEItem. rewrite B0. now rewrite orb_true_r.
Qed.

(** ** Application packets *)

Fixpoint data_events (fuel : nat) (sub_type name : Z) (data : list Z) : list event :=
  match fuel, data with
  | S fuel, _ :: _ =>
      let piece := firstn 128 data in
      ev kAppItem (PktAPP (mk_APP sub_type name piece (zlen piece))) :: data_events fuel sub_type name (skipn 128 data)
  | _, _ => []
  end.
Definition App_ok (p : App) : Prop :=
  0 <= sub_type_ p < 32 /\ in_u32 (app_ssrc_ p) /\ in_u32 (name_ p) /\ zlen (data_ p) mod 4 = 0 /\ zlen (data_ p) < 262000.
Definition App_events (p : App) : list event :=
  ev kApp (PktAPP (mk_APP (sub_type_ p) (name_ p) [] 0)) :: data_events (length (data_ p)) (sub_type_ p) (name_ p) (data_ p).

Definition app_of (sub_type name : Z) (_ : Z) (packet : RTCPPacket) : Prop :=
  exists data size, packet = PktAPP (mk_APP sub_type name data size).

Lemma data_emits p sub_type name : forall fuel data pre post s, p = pre ++ data ++ post -> zlen data mod 4 = 0 -> (length data <= fuel)%nat ->
  at_item p State_AppItem (app_of sub_type name) (zlen pre) (zlen pre + zlen data) s ->
  exists s', emits p s (data_events fuel sub_type name data) s' /\
    at_item p State_AppItem (app_of sub_type name) (zlen pre + zlen data) (zlen pre + zlen data) s'.
Proof.
  induction fuel as [|fuel IH]; intros data pre post s Hp M F A.
  { destruct data; [|cbn in F; lia]. exists s. split; [constructor|]. now rewrite (@zlen_nil Z), Z.add_0_r in *. }
  assert (N : data = [] \/ 0 < zlen data) by (destruct data; [now left|right; rewrite zlen_cons; pose proof (zlen_nonneg data); lia]).
  destruct N as [->|N]; [exists s; split; [constructor|]; now rewrite (@zlen_nil Z), Z.add_0_r in *|].
  set (piece := firstn 128 data). set (rest := skipn 128 data).
  assert (Ed : data = piece ++ rest) by (symmetry; apply firstn_skipn).
  assert (Lp : zlen piece = Z.min 128 (zlen data)) by (unfold piece, zlen; rewrite length_firstn; lia).
  assert (Lr : zlen rest = zlen data - zlen piece) by (pose proof (f_equal zlen Ed) as K; rewrite zlen_app in K; lia).
  assert (L4 : 4 <= zlen data) by (clear - M N; Z.to_euclidean_division_equations; lia).
  assert (Hq : p = pre ++ piece ++ rest ++ post) by (rewrite (app_assoc piece), <- Ed; exact Hp).
  destruct (item_emits p State_AppItem (app_of sub_type name) (app_of sub_type name) State_AppItem (zlen pre) (zlen pre + zlen data) s
    (zlen piece) (ev kAppItem (PktAPP (mk_APP sub_type name piece (zlen piece))))) as (s1 & E1 & A1); [assumption|discriminate| |].
  { intros s0 V0 T0 D0 E0 (d0 & z0 & Q0). unfold ParseItem. rewrite T0. unfold ParseAPPItem, kRtcpAppCode_DATA_SIZE, length_.
    rewrite D0, E0, Q0. replace (_ <? 4) with false by lia.
    replace (if 32 * 4 <? zlen pre + zlen data - zlen pre then 32 * 4 else zlen pre + zlen data - zlen pre) with (zlen piece)
      by (rewrite Lp; destruct (32 * 4 <? zlen pre + zlen data - zlen pre) eqn:C; lia).
    rewrite (copy_at p pre piece (rest ++ post)) by (first [exact Hq|reflexivity]). cbn [bind]. rewrite (u16_id (zlen piece)) by (unfold in_u16; lia).
    handed. cbn. unfold app_of. eauto. }
  destruct (IH rest (pre ++ piece) post s1) as (s2 & E2 & A2).
  - now rewrite Hq, <- app_assoc.
  - rewrite Lr, Lp. clear - M. Z.to_euclidean_division_equations. lia.
  - unfold zlen in Lr, Lp, N. lia.
  - rewrite zlen_app, Lr. now replace (zlen pre + zlen piece + (zlen data - zlen piece)) with (zlen pre + zlen data) by lia.
  - exists s2. rewrite zlen_app, Lr in A2. replace (zlen pre + zlen piece + (zlen data - zlen piece)) with (zlen pre + zlen data) in A2 by lia.
    split; [|exact A2]. cbn [data_events]. fold piece rest. destruct data; [cbn in N; lia|]. exact (emits_app _ _ _ _ _ _ E1 E2).
Qed.

Lemma App_block p : App_ok p ->
  block (head (sub_type_ p) PT_APP (HeaderLength (App_BlockLength p)) ++ CreateApp p) (App_events p).
Proof.
  destruct p as [t ssrc name data]. intros (R & R1 & R2 & M & L). cbn [sub_type_ app_ssrc_ name_ data_] in *. pose proof (zlen_nonneg data).
  assert (W : exists w, zlen data = 4 * w) by (exists (zlen data / 4); clear - M; Z.to_euclidean_division_equations; lia). destruct W as [w W].
  unfold App_events, CreateApp. cbn [sub_type_ app_ssrc_ name_ data_].
  rewrite (HeaderLength_is (2 + w)) by (unfold App_BlockLength; cbn [data_]; lia).
  assert (Lb : zlen (bytes32 ssrc ++ bytes32 name ++ data) = 4 * (2 + w)) by (rewrite !zlen_app, !zlen_bytes32; lia).
  apply packet_block; [lia|lia|exact Lb|]. intros p pre post s Hp (V & T & D & E). rewrite Lb in E |- *. switch.
  unfold ParseAPP, length_. rewrite D, E. replace (_ <? 12) with false by lia. reads Hp. cbn [count_or_format].
  set (s1 := set_packet (set_type (set_data (set_state s State_AppItem) (_ptrRTCPData s + 12)) kApp) (PktAPP (mk_APP t name [] 0))).
  assert (Lh : zlen (pre ++ head t PT_APP (2 + w) ++ bytes32 ssrc ++ bytes32 name) = zlen pre + 12) by (rewrite !zlen_app; reflexivity).
  destruct (data_emits p t name (length data) data (pre ++ head t PT_APP (2 + w) ++ bytes32 ssrc ++ bytes32 name) post s1) as (s2 & E2 & A2).
  - rewrite Hp, <- !app_assoc. reflexivity.
  - exact M.
  - lia.
  - rewrite Lh. apply at_item_self; unfold s1; parser_is; try assumption; [reflexivity|lia|lia|]. unfold app_of. eauto.
  - exists s1, s2. rewrite Lh in A2. split; [reflexivity|]. split; [discriminate|]. split; [reflexivity|]. split; [exact E2|].
    replace (zlen pre + 4 + 4 * (2 + w)) with (zlen pre + 12 + zlen data) by lia.
    apply (items_end _ _ _ _ _ A2); [cbn; intuition discriminate|discriminate].
Qed.

(** ** Source descriptions *)

(** A name of allowed characters, as [Sdes_WithCName] pads it. *)
Definition Chunk_ok (c : Chunk) : Prop :=
  in_u32 (ssrc c) /\ Forall (fun x => in_u8 x /\ illegal x = false) (name c) /\ zlen (name c) < 256 /\
  null_octets c = 4 - (2 + zlen (name c)) mod 4.
Definition Chunk_events (c : Chunk) : list event := [ev kSdesChunk (PktCName (mk_CName (ssrc c) (name c)))].

Lemma zlen_chunk c : Chunk_ok c -> zlen (CreateChunk c) = 6 + zlen (name c) + null_octets c.
Proof.
  intros (_ & _ & _ & N). pose proof (Z.mod_pos_bound (2 + zlen (name c)) 4 ltac:(lia)).
  unfold CreateChunk. rewrite !zlen_app, zlen_zeros, zlen_bytes32 by lia. change (zlen [1; u8 (zlen (name c))]) with 2. lia.
Qed.

Lemma read_name_at p l : forall pre post o, p = pre ++ l ++ post -> o = zlen pre -> Forall (fun x => in_u8 x /\ illegal x = false) l ->
  read_name p (length l) o = Ok (Some l).
Proof.
  induction l as [|x l IH]; intros pre post o Hp -> F; cbn [length read_name]; [reflexivity|].
  inversion F as [|? ? [_ I] F']; subst. cbn [app] in *. rewrite (byte_here _ _ _ eq_refl x (l ++ post)) by reflexivity.
  cbn [bind]. rewrite I. rewrite (IH (pre ++ [x]) post); [reflexivity|now rewrite <- app_assoc|now rewrite zlen_app|assumption].
Qed.

(** The list of the items of a chunk. *)
Lemma cname_found p fuel pre c post s : p = pre ++ CreateChunk c ++ post -> Chunk_ok c ->
  _ptrRTCPData s = zlen pre + 4 -> zlen pre + zlen (CreateChunk c) <= _ptrRTCPBlockEnd s ->
  exists s', ParseSDESItem p (S (S fuel)) s 0 false = Ok (true, s') /\ _packet s' = PktCName (mk_CName 0 (name c)) /\
    _packetType s' = kSdesChunk /\ _validPacket s' = _validPacket s /\ _state s' = _state s /\ _numberOfBlocks s' = _numberOfBlocks s /\
    _ptrRTCPBlockEnd s' = _ptrRTCPBlockEnd s /\ _ptrRTCPData s' = zlen pre + zlen (CreateChunk c).
Proof.
  intros Hp Oc D E. rewrite (zlen_chunk c Oc) in *. destruct Oc as (_ & F & L & N).
  pose proof (Z.mod_pos_bound (2 + zlen (name c)) 4 ltac:(lia)) as M. pose proof (zlen_nonneg (name c)).
  set (l := name c) in *. unfold CreateChunk in Hp. fold l in Hp.
  assert (Hz : exists z, zeros (null_octets c) = 0 :: z).
  { unfold zeros. destruct (Z.to_nat (null_octets c)) eqn:K; [lia|]. cbn [repeat]. eauto. }
  destruct Hz as [z Hz]. rewrite Hz in Hp.
  remember (S fuel) as fuel1 eqn:Ef. cbn [ParseSDESItem]. rewrite D. replace (_ <? _) with true by lia. reads Hp. parser_is. cbn [Z.eqb Pos.eqb].
  replace (zlen pre + 4 + 1 <? _) with true by lia. rewrite <- !Z.add_assoc.
  reads Hp. parser_is. rewrite u8_id by (unfold in_u8; lia). rewrite <- ?Z.add_assoc.
  replace (_ <=? _) with false by lia. replace (Z.to_nat (zlen l)) with (length l) by (unfold zlen; lia).
  assert (Hq : p = (pre ++ bytes32 (ssrc c) ++ [1; u8 (zlen l)]) ++ l ++ (0 :: z) ++ post) by (rewrite Hp, <- !app_assoc; reflexivity).
  erewrite (read_name_at p l) by (first [exact Hq | rewrite !zlen_app; reflexivity | assumption]). cbn [bind].
  parser_is. subst fuel1. cbn [ParseSDESItem]. parser_is. replace (_ <? _) with true by lia.
  assert (Hr : p = ((pre ++ bytes32 (ssrc c) ++ [1; u8 (zlen l)]) ++ l) ++ 0 :: (z ++ post)) by (rewrite Hq, <- !app_assoc; reflexivity).
  match goal with |- context [byte p ?o] =>
    replace o with (zlen ((pre ++ bytes32 (ssrc c) ++ [1; u8 (zlen l)]) ++ l))
      by (rewrite !zlen_app, zlen_bytes32; change (zlen [1; u8 (zlen l)]) with 2; lia) end.
  rewrite (byte_here _ _ _ Hr 0 (z ++ post)) by reflexivity. cbn [bind]. change (0 =? 0) with true. cbv beta iota.
  match goal with |- context [align 3 _ ?n] => assert (Ea : (- n) mod 4 = null_octets c - 1) by (rewrite N; clear; Z.to_euclidean_division_equations; lia) end.
  rewrite align_ok by (rewrite Ea; lia). rewrite Ea. cbn [bind]. eexists. split; [reflexivity|]. parser_is.
  repeat split; try reflexivity. rewrite !zlen_app, zlen_bytes32. change (zlen [1; u8 (zlen l)]) with 2. lia.
Qed.

Definition Sdes_ok (p : Sdes) : Prop := Forall Chunk_ok (chunks_ p) /\ 0 < zlen (chunks_ p) < 32.
Definition Sdes_events (p : Sdes) : list event := ev kSdes PktNone :: concat (map Chunk_events (chunks_ p)).

Lemma Sdes_length l n : Forall Chunk_ok l ->
  fold_left (fun length chunk => length + (6 + zlen (name chunk) + null_octets chunk)) l n = n + zlen (CreateSdes l).
Proof.
  intros F. revert n. induction F as [|c l Oc F IH]; intros n; cbn [fold_left]; [change (zlen (CreateSdes [])) with 0; lia|].
  rewrite IH. unfold CreateSdes. cbn [map concat]. rewrite zlen_app, (zlen_chunk c Oc). lia.
Qed.

Lemma Sdes_words l : Forall Chunk_ok l -> exists w, zlen (CreateSdes l) = 4 * w /\ 2 * zlen l <= w <= 70 * zlen l.
Proof.
  induction 1 as [|c l Oc F [w [W I]]]; [exists 0; split; [reflexivity|cbn; lia]|].
  unfold CreateSdes in *. cbn [map concat]. rewrite zlen_app, (zlen_chunk c Oc), zlen_cons. destruct Oc as (_ & _ & L & N).
  pose proof (zlen_nonneg (name c)). exists (w + (6 + zlen (name c) + null_octets c) / 4). clear F.
  Z.to_euclidean_division_equations. lia.
Qed.

Lemma Sdes_block p : Sdes_ok p ->
  block (head (zlen (chunks_ p)) PT_SDES (HeaderLength (Sdes_BlockLength p)) ++ CreateSdes (chunks_ p)) (Sdes_events p).
Proof.
  destruct p as [l]. intros (F & L). unfold Sdes_events, Sdes_BlockLength. cbn [chunks_] in *.
  destruct (Sdes_words l F) as (w & W & I). rewrite Sdes_length by assumption.
  rewrite (HeaderLength_is w) by (unfold kHeaderLength; lia). rewrite Forall_forall in F.
  refine (items_block State_SDESChunk counted (zlen l) PT_SDES w [] CreateChunk Chunk_events l (ev kSdes PktNone) _ _ W _ _ _ _); try lia.
  - cbn. intuition discriminate.
  - intros _ b packet Q. exact Q.
  - intros p pre post s Hp (V & T & D & E). switch. unfold ParseSDES, length_. parser_is. rewrite D, E.
    replace (_ <? 8) with false by lia. cbn [bind]. handed.
  - intros p e c pre post s n In Hp N Le A. specialize (F c In).
    eapply item_emits; [exact A|discriminate|]. unfold counted. intros s0 V T D E B.
    assert (Lc : 8 <= zlen (CreateChunk c)).
    { rewrite (zlen_chunk c F). destruct F as (_ & _ & _ & K). pose proof (zlen_nonneg (name c)). clear - K H. Z.to_euclidean_division_equations. lia. }
    assert (Lp : (1 < length p)%nat) by (pose proof (zlen_nonneg pre); pose proof (zlen_nonneg post); apply (f_equal zlen) in Hp;
      rewrite !zlen_app in Hp; unfold zlen in *; lia).
    unfold ParseItem. rewrite T. unfold ParseSDESChunk. rewrite B. replace (n + 1 <=? 0) with false by lia.
    cbn [find_cname]. parser_is. rewrite D, E. replace (_ <? _) with true by lia. unfold length_. parser_is. rewrite D, E. replace (_ <? 4) with false by lia.
    destruct F as (R & F'). reads_here Hp.
    destruct (cname_found p (length p - 1) pre c post (set_data (set_blocks s0 (n + 1 - 1)) (zlen pre + 4))) as (s1 & E1 & K1 & K2 & K3 & K4 & K5 & K6 & K7);
      [exact Hp|split; assumption|reflexivity|parser_is; lia|].
    replace (S (S (length p - 1))) with (S (length p)) in E1 by lia. rewrite E1. cbn [bind]. rewrite K1. eexists. split; [reflexivity|]. parser_is.
    rewrite K2, K3, K4, K5, K6, K7. parser_is. repeat split; try assumption; [discriminate|lia].
Qed.

(** ** Extended reports *)

Inductive XrBlock :=
| Rrtr_block (r : RTCPPacketXRReceiverReferenceTimeItem)
| Dlrr_block (d : Dlrr)
| Voip_block (v : RTCPPacketXRVOIPMetricItem).

Definition XrBlock_Create (b : XrBlock) : list Z :=
  match b with Rrtr_block r => Rrtr_Create r | Dlrr_block d => Dlrr_Create d | Voip_block v => VoipMetric_Create v end.
Definition dlrr_events (b : RTCPPacketXRDLRRReportBlockItem) : list event :=
  [ev kXrDlrrReportBlockItem (PktXRDLRRReportBlockItem b)].
Definition XrBlock_events (b : XrBlock) : list event :=
  match b with
  | Rrtr_block r => [ev kXrReceiverReferenceTime (PktXRReceiverReferenceTimeItem r)]
  | Dlrr_block d => match sub_blocks_ d with [] => [] | _ => ev kXrDlrrReportBlock PktNone :: concat (map dlrr_events (sub_blocks_ d)) end
  | Voip_block v => [ev kXrVoipMetric (PktXRVOIPMetricItem v)]
  end.

Definition DLRR_ok (b : RTCPPacketXRDLRRReportBlockItem) : Prop := in_u32 (DLRR_SSRC b) /\ in_u32 (LastRR b) /\ in_u32 (DelayLastRR b).
Definition Voip_ok (v : RTCPPacketXRVOIPMetricItem) : Prop :=
  in_u32 (VOIP_SSRC v) /\
  (in_u8 (lossRate v) /\ in_u8 (discardRate v) /\ in_u8 (burstDensity v) /\ in_u8 (gapDensity v)) /\
  (in_u16 (burstDuration v) /\ in_u16 (gapDuration v) /\ in_u16 (roundTripDelay v) /\ in_u16 (endSystemDelay v)) /\
  (in_u8 (signalLevel v) /\ in_u8 (noiseLevel v) /\ in_u8 (RERL v) /\ in_u8 (Gmin v)) /\
  (in_u8 (Rfactor v) /\ in_u8 (extRfactor v) /\ in_u8 (MOSLQ v) /\ in_u8 (MOSCQ v)) /\ in_u8 (RXconfig v) /\
  in_u16 (JBnominal v) /\ in_u16 (JBmax v) /\ in_u16 (JBabsMax v).
Definition XrBlock_ok (b : XrBlock) : Prop :=
  match b with
  | Rrtr_block r => in_u32 (Rrtr_NTPMostSignificant r) /\ in_u32 (Rrtr_NTPLeastSignificant r)
  | Dlrr_block d => Forall DLRR_ok (sub_blocks_ d) /\ zlen (sub_blocks_ d) < 256
  | Voip_block v => Voip_ok v
  end.

(** The state is left when no report is. *)
Lemma dlrr_left p o e s : at_item p State_XR_DLLRItem (fun b _ => b = 0) o e s -> at_item p State_XRItem anything o e s.
Proof.
  intros (s0 & k & V & T & D & E & Q & K). exists (set_state (set_type s0 kInvalid) State_XRItem), (k + 1)%nat.
  repeat split; try assumption. intros n. rewrite <- Nat.add_assoc, K, Iterate_item by congruence.
  unfold ParseItem. change (_state (set_type s0 kInvalid)) with (_state s0). rewrite T. unfold ParseXrDlrrItem.
  change (_numberOfBlocks (set_type s0 kInvalid)) with (_numberOfBlocks s0). rewrite Q. reflexivity.
Qed.

Ltac xr_item A Hp := eapply item_emits; [exact A|discriminate|]; intros s0 V T D E C; unfold ParseItem; rewrite T;
  unfold ParseXrItem, length_; rewrite D, E; replace (_ <? 4) with false by lia; reads_here Hp.

Lemma voip_item p e v pre post s : Voip_ok v -> p = pre ++ VoipMetric_Create v ++ post -> zlen pre + 36 <= e ->
  at_item p State_XRItem anything (zlen pre) e s ->
  exists s', emits p s [ev kXrVoipMetric (PktXRVOIPMetricItem v)] s' /\ at_item p State_XRItem anything (zlen pre + 36) e s'.
Proof.
  intros (R0 & (R1 & R2 & R3 & R4) & (R5 & R6 & R7 & R8) & (R9 & R10 & R11 & R12) & (R13 & R14 & R15 & R16) & R17 & R18 & R19 & R20) Hp L A.
  xr_item A Hp. cbv [kBtReceiverReferenceTime kBtDlrr kBtVoipMetric]. cbn [Z.eqb Pos.eqb].
  unfold ParseXrVoipMetricItem, length_. parser_is. rewrite ?E.
  change (u8 (Z.shiftr 8 8) * 256 + u8 8) with 8. replace (negb (8 =? 8) || _) with false by lia.
  rewrite <- ?Z.add_assoc. reads Hp. handed. unfold ev. repeat f_equal. destruct v; cbn in *. now rewrite !u8_id by assumption.
Qed.

Lemma rrtr_item p e r pre post s : in_u32 (Rrtr_NTPMostSignificant r) -> in_u32 (Rrtr_NTPLeastSignificant r) ->
  p = pre ++ Rrtr_Create r ++ post -> zlen pre + 12 <= e -> at_item p State_XRItem anything (zlen pre) e s ->
  exists s', emits p s [ev kXrReceiverReferenceTime (PktXRReceiverReferenceTimeItem r)] s' /\
    at_item p State_XRItem anything (zlen pre + 12) e s'.
Proof.
  intros R1 R2 Hp L A. xr_item A Hp. cbv [kBtReceiverReferenceTime]. cbn [Z.eqb Pos.eqb].
  unfold ParseXrReceiverReferenceTimeItem, length_. parser_is. rewrite ?E.
  change (u8 (Z.shiftr 2 8) * 256 + u8 2) with 2. replace (negb (2 =? 2) || _) with false by lia.
  rewrite <- ?Z.add_assoc. reads Hp. handed. now destruct r.
Qed.

Lemma dlrr_item p e x pre post s n : DLRR_ok x -> p = pre ++ SubBlock_Create x ++ post -> 0 <= n -> zlen pre + 12 <= e ->
  at_item p State_XR_DLLRItem (counted (n + 1)) (zlen pre) e s ->
  exists s', emits p s (dlrr_events x) s' /\ at_item p State_XR_DLLRItem (counted n) (zlen pre + 12) e s'.
Proof.
  intros (R1 & R2 & R3) Hp N L A. eapply item_emits; [exact A|discriminate|]. unfold counted. intros s0 V T D E C.
  unfold ParseItem. rewrite T. unfold ParseXrDlrrItem, length_. rewrite D, E, C.
  replace (n + 1 =? 0) with false by lia. replace (_ <? 12) with false by lia. reads_here Hp. handed. now destruct x.
Qed.

Lemma dlrr_block_emits p e d pre post s : Forall DLRR_ok (sub_blocks_ d) -> zlen (sub_blocks_ d) < 256 ->
  p = pre ++ Dlrr_Create d ++ post -> zlen pre + zlen (Dlrr_Create d) <= e -> at_item p State_XRItem anything (zlen pre) e s ->
  exists s', emits p s (XrBlock_events (Dlrr_block d)) s' /\ at_item p State_XRItem anything (zlen pre + zlen (Dlrr_Create d)) e s'.
Proof.
  destruct d as [l]. unfold Dlrr_Create, XrBlock_events. cbn [sub_blocks_]. intros F U Hp L A.
  destruct l as [|x0 l0]; [exists s; split; [constructor|]; now rewrite (@zlen_nil Z), Z.add_0_r|]. set (l := x0 :: l0) in *.
  assert (N : 0 < zlen l) by (unfold l; rewrite zlen_cons; pose proof (zlen_nonneg l0); lia).
  assert (Lc : zlen (concat (map SubBlock_Create l)) = 12 * zlen l) by (apply zlen_concat_map; reflexivity).
  assert (Lh : zlen ([5; 0] ++ bytes16 (3 * zlen l) ++ concat (map SubBlock_Create l)) = 4 + 12 * zlen l)
    by (rewrite !zlen_app, Lc, zlen_bytes16; change (zlen [5; 0]) with 2; lia).
  rewrite Lh in *.
  destruct (item_emits p State_XRItem anything (counted (zlen l)) State_XR_DLLRItem (zlen pre) e s 4 (ev kXrDlrrReportBlock PktNone))
    as (s1 & E1 & A1); [assumption|discriminate| |].
  { intros s0 V T D E _. assert (R : in_u16 (3 * zlen l)) by (unfold in_u16; lia). unfold ParseItem. rewrite T. unfold ParseXrItem, length_.
    rewrite D, E. replace (_ <? 4) with false by lia. reads_here Hp. cbv [kBtReceiverReferenceTime kBtDlrr]. cbn [Z.eqb Pos.eqb].
    unfold ParseXrDlrr. rewrite Z.mul_comm, Z.rem_mul, Z.quot_mul, u8_id by (first [lia | unfold in_u8; lia]).
    replace (_ || negb (0 =? 0)) with false by lia. handed. }
  destruct (run_emits p State_XR_DLLRItem counted e SubBlock_Create dlrr_events l
    (fun x pre post s n I Hp N L A => dlrr_item p e x pre post s n (proj1 (Forall_forall _ _) F x I) Hp N L A)
    (pre ++ [5; 0] ++ bytes16 (3 * zlen l)) post s1) as (s2 & E2 & A2).
  - rewrite Hp, <- !app_assoc. reflexivity.
  - rewrite !zlen_app, Lc, zlen_bytes16. change (zlen [5; 0]) with 2. lia.
  - rewrite !zlen_app, zlen_bytes16. exact A1.
  - exists s2. split; [exact (emits_app _ _ _ _ _ _ E1 E2)|]. rewrite !zlen_app, zlen_bytes16, Lc in A2. change (zlen [5; 0]) with 2 in A2.
    replace (zlen pre + (2 + 2) + 12 * zlen l) with (zlen pre + (4 + 12 * zlen l)) in A2 by lia. now apply dlrr_left.
Qed.

Definition xr_blocks (p : Xr) : list XrBlock :=
  map Rrtr_block (rrtr_blocks_ p) ++ map Dlrr_block (dlrr_blocks_ p) ++ map Voip_block (voip_metric_blocks_ p).
Definition Xr_ok (p : Xr) : Prop :=
  in_u32 (xr_header_ p) /\ Forall XrBlock_ok (xr_blocks p) /\ Xr_BlockLength p < 262000.
Definition Xr_events (p : Xr) : list event := ev kXrHeader (PktXR (xr_header_ p)) :: concat (map XrBlock_events (xr_blocks p)).

Lemma CreateXr_blocks p : CreateXr p = bytes32 (xr_header_ p) ++ concat (map XrBlock_Create (xr_blocks p)).
Proof. unfold CreateXr, xr_blocks. now rewrite !map_app, !concat_app, !map_map. Qed.

Lemma Dlrr_size d : zlen (Dlrr_Create d) = Dlrr_BlockLength d.
Proof.
  unfold Dlrr_Create, Dlrr_BlockLength. destruct (sub_blocks_ d) as [|x l] eqn:E; [reflexivity|]. rewrite <- E.
  assert (Lc : zlen (concat (map SubBlock_Create (sub_blocks_ d))) = 12 * zlen (sub_blocks_ d)) by (apply zlen_concat_map; reflexivity).
  rewrite !zlen_app, Lc, zlen_bytes16. change (zlen [5; 0]) with 2. lia.
Qed.

Lemma Xr_size p : zlen (CreateXr p) = Xr_BlockLength p - 4.
Proof.
  assert (Ld : zlen (concat (map Dlrr_Create (dlrr_blocks_ p))) = DlrrLength p).
  { unfold DlrrLength. assert (G : forall l n, fold_left (fun length block => length + Dlrr_BlockLength block) l n =
      n + zlen (concat (map Dlrr_Create l))).
    { induction l as [|d l IH]; intros n; cbn [fold_left map concat]; [change (zlen (@nil Z)) with 0; lia|].
      rewrite IH, zlen_app, Dlrr_size. lia. }
    rewrite G. lia. }
  unfold CreateXr, Xr_BlockLength. rewrite !zlen_app, Ld, zlen_bytes32.
  rewrite (zlen_concat_map Rrtr_Create 12), (zlen_concat_map VoipMetric_Create 36) by reflexivity.
  unfold Rrtr_kLength, VoipMetric_kLength. lia.
Qed.

Lemma XrBlock_words b : exists w, zlen (XrBlock_Create b) = 4 * w.
Proof.
  destruct b as [r|d|v]; cbn [XrBlock_Create]; [now exists 3| |now exists 9].
  rewrite Dlrr_size. unfold Dlrr_BlockLength. destruct (sub_blocks_ d) as [|x l]; [now exists 0|]. exists (1 + 3 * zlen (x :: l)). lia.
Qed.

Lemma concat_words {A} (f : A -> list Z) l : (forall x, exists w, zlen (f x) = 4 * w) -> exists w, zlen (concat (map f l)) = 4 * w.
Proof.
  intros F. induction l as [|x l [w W]]; [now exists 0|]. destruct (F x) as [v V]. exists (v + w).
  cbn [map concat]. rewrite zlen_app. lia.
Qed.

Lemma Xr_block p : Xr_ok p -> block (head 0 PT_XR (HeaderLength (Xr_BlockLength p)) ++ CreateXr p) (Xr_events p).
Proof.
  intros (R & F & L). pose proof (Xr_size p) as Sz. rewrite CreateXr_blocks in *. unfold Xr_events.
  destruct (concat_words XrBlock_Create (xr_blocks p) XrBlock_words) as [w W].
  assert (Lb : zlen (bytes32 (xr_header_ p) ++ concat (map XrBlock_Create (xr_blocks p))) = 4 * (1 + w)) by (rewrite zlen_app, W, zlen_bytes32; lia).
  pose proof (zlen_nonneg (concat (map XrBlock_Create (xr_blocks p)))). rewrite (HeaderLength_is (1 + w)) by lia. rewrite Forall_forall in F.
  refine (items_block State_XRItem uncounted 0 PT_XR (1 + w) (bytes32 (xr_header_ p)) XrBlock_Create XrBlock_events (xr_blocks p)
    (ev kXrHeader (PktXR (xr_header_ p))) _ _ Lb _ _ _ _); try lia.
  - cbn. intuition discriminate.
  - discriminate.
  - intros q pre post s Hp (V & T & D & E). switch. unfold ParseXr, length_. rewrite D, E. replace (_ <? 8) with false by lia.
    reads Hp. handed.
  - intros q e b pre post s n I Hp N Le A. specialize (F b I). destruct b as [r|d|v]; cbn [XrBlock_Create XrBlock_ok] in *.
    + destruct F as [R1 R2]. exact (rrtr_item q e r pre post s R1 R2 Hp Le A).
    + destruct F as [F U]. exact (dlrr_block_emits q e d pre post s F U Hp Le A).
    + exact (voip_item q e v pre post s F Hp Le A).
Qed.

End RtcpOtherFacts.
