(* ===== verification/RtcpPacketParse.v ===== *)
(** * Reading single RTCP packets

    The [Parse] methods of the classes in src/orbit/webrtc/modules/rtp_rtcp/
    source/rtcp_packet/: each fills its object from the payload of a packet
    whose common header has been read.  [p] is the buffer, [o] the offset of
    the payload in it; a method returns whether it succeeded, and the object,
    which is as it was when it did not.  The debug assertions on the type are
    left out. *)

From S2P Require Import Prelude Wire RtcpCommon RtcpWriter TransportFeedback TransportFeedbackRoundtrip RtcpParser RtcpParserFacts RtcpPackets RtcpPacketsFacts RtcpFeedbackFacts RtcpOtherFacts.
Import Wire RtcpCommon RtcpWriter TransportFeedbackRoundtrip RtcpParser RtcpParserFacts RtcpPackets RtcpPacketsFacts RtcpFeedbackFacts RtcpOtherFacts.

Module RtcpPacketParse.

Definition ParseCommonFeedback (p : list Z) (o : Z) : res Feedback :=
  let! sender := be32 p o in
  let! media := be32 p (o + 4) in
  Ok (mk_Feedback sender media).

Definition App_Parse (header : RtcpCommonHeader) (p : list Z) (o : Z) : res App :=
  let! ssrc := be32 p o in
  let! name := be32 p (o + 4) in
  let! data := copy p (o + 8) (u32 (payload_size_bytes header - 8)) in
  Ok (mk_App (count_or_format header) ssrc name data).

Definition Bye_Parse (self : Bye) (header : RtcpCommonHeader) (p : list Z) (o : Z) : res (bool * Bye) :=
  let src_count := count_or_format header in
  if payload_size_bytes header <? 4 * src_count then Ok (false, self)
  else
    let has_reason := 4 * src_count <? payload_size_bytes header in
    let! reason_length := if has_reason then byte p (o + 4 * src_count) else Ok 0 in
    if has_reason && (payload_size_bytes header - 4 * src_count <? 1 + reason_length) then Ok (false, self)
    else
      let! (sender, csrcs) :=
        if src_count =? 0 then Ok (0, [])
        else
          let! sender := be32 p o in
          let! csrcs := read_ssrcs p (Z.to_nat (src_count - 1)) (o + 4) in
          Ok (sender, csrcs) in
      let! reason := if has_reason then copy p (o + (4 * src_count + 1)) reason_length else Ok [] in
      Ok (true, mk_Bye sender csrcs reason).

Fixpoint read_sub_blocks (n : nat) (p : list Z) (o : Z) : res (list RTCPPacketXRDLRRReportBlockItem) :=
  match n with
  | O => Ok []
  | S n =>
      let! ssrc := be32 p o in
      let! last_rr := be32 p (o + 4) in
      let! delay := be32 p (o + 8) in
      let! blocks := read_sub_blocks n p (o + 12) in
      Ok (mk_DLRR ssrc last_rr delay :: blocks)
  end.
Definition Dlrr_Parse (self : Dlrr) (block_length_32bits : Z) (p : list Z) (o : Z) : res (bool * Dlrr) :=
  if negb (block_length_32bits mod 3 =? 0) then Ok (false, self)
  else
    let! blocks := read_sub_blocks (Z.to_nat (block_length_32bits / 3)) p (o + 4) in
    Ok (true, mk_Dlrr blocks).

Definition ExtendedJitterReport_Parse (self : ExtendedJitterReport) (header : RtcpCommonHeader) (p : list Z) (o : Z)
    : res (bool * ExtendedJitterReport) :=
  let jitters_count := count_or_format header in
  if payload_size_bytes header <? jitters_count * 4 then Ok (false, self)
  else
    let! jitters := read_ssrcs p (Z.to_nat jitters_count) o in
    Ok (true, mk_ExtendedJitterReport jitters).

Fixpoint read_nacks (n : nat) (p : list Z) (o : Z) : res (list PackedNack) :=
  match n with
  | O => Ok []
  | S n =>
      let! pid := be16 p o in
      let! mask := be16 p (o + 2) in
      let! packed := read_nacks n p (o + 4) in
      Ok (mk_PackedNack pid mask :: packed)
  end.
Definition Nack_Parse (self : Nack) (header : RtcpCommonHeader) (p : list Z) (o : Z) : res (bool * Nack) :=
  if payload_size_bytes header <? kCommonFeedbackLength + kNackItemLength then Ok (false, self)
  else
    let nack_items := (payload_size_bytes header - kCommonFeedbackLength) / kNackItemLength in
    let! f := ParseCommonFeedback p o in
    let! packed := read_nacks (Z.to_nat nack_items) p (o + kCommonFeedbackLength) in
    let! ids := Unpack packed in
    Ok (true, mk_Nack f packed ids).

Definition Pli_Parse (self : Pli) (header : RtcpCommonHeader) (p : list Z) (o : Z) : res (bool * Pli) :=
  if payload_size_bytes header <? kCommonFeedbackLength then Ok (false, self)
  else
    let! f := ParseCommonFeedback p o in
    Ok (true, mk_Pli f).

Fixpoint read_report_blocks (n : nat) (p : list Z) (o : Z) : res (list ReportBlock) :=
  match n with
  | O => Ok []
  | S n =>
      let! block := ReportBlock_Parse p o ReportBlock_kLength in
      let! blocks := read_report_blocks n p (o + ReportBlock_kLength) in
      Ok (match block with Some block => block | None => new_ReportBlock end :: blocks)
  end.
Definition ReceiverReport_Parse (self : ReceiverReport) (header : RtcpCommonHeader) (p : list Z) (o : Z) : res (bool * ReceiverReport) :=
  let report_blocks_count := count_or_format header in
  if payload_size_bytes header <? 4 + report_blocks_count * ReportBlock_kLength then Ok (false, self)
  else
    let! ssrc := be32 p o in
    let! blocks := read_report_blocks (Z.to_nat report_blocks_count) p (o + 4) in
    Ok (true, mk_ReceiverReport ssrc blocks).

Definition Rrtr_Parse (p : list Z) (o : Z) : res RTCPPacketXRReceiverReferenceTimeItem :=
  let! seconds := be32 p (o + 4) in
  let! fraction := be32 p (o + 8) in
  Ok (mk_Rrtr seconds fraction).

Definition Sli_Parse (self : Sli) (header : RtcpCommonHeader) (p : list Z) (o : Z) : res (bool * Sli) :=
  if payload_size_bytes header <? kCommonFeedbackLength + 4 then Ok (false, self)
  else
    let number_of_items := (payload_size_bytes header - kCommonFeedbackLength) / 4 in
    let! f := ParseCommonFeedback p o in
    let! items := read_ssrcs p (Z.to_nat number_of_items) (o + kCommonFeedbackLength) in
    Ok (true, mk_Sli f items).

Definition VoipMetric_Parse (p : list Z) (o : Z) : res RTCPPacketXRVOIPMetricItem :=
  let! ssrc := be32 p (o + 4) in
  let! loss := byte p (o + 8) in
  let! discard := byte p (o + 9) in
  let! burst_density := byte p (o + 10) in
  let! gap_density := byte p (o + 11) in
  let! burst := be16 p (o + 12) in
  let! gap := be16 p (o + 14) in
  let! rtt := be16 p (o + 16) in
  let! delay := be16 p (o + 18) in
  let! signal := byte p (o + 20) in
  let! noise := byte p (o + 21) in
  let! rerl := byte p (o + 22) in
  let! gmin := byte p (o + 23) in
  let! r := byte p (o + 24) in
  let! ext_r := byte p (o + 25) in
  let! moslq := byte p (o + 26) in
  let! moscq := byte p (o + 27) in
  let! rx := byte p (o + 28) in
  let! jb_nominal := be16 p (o + 30) in
  let! jb_max := be16 p (o + 32) in
  let! jb_abs := be16 p (o + 34) in
  Ok (mk_VOIPMetric ssrc loss discard burst_density gap_density burst gap rtt delay signal
        noise rerl gmin r ext_r moslq moscq rx jb_nominal jb_max jb_abs).

(** ** What was written is read *)

Section Payload.
Variables (p pre post : list Z) (o : Z).
Hypothesis o_is : o = zlen pre.

Lemma App_read header a : p = pre ++ CreateApp a ++ post -> App_ok a -> payload_size_bytes header = zlen (CreateApp a) ->
  count_or_format header = sub_type_ a -> App_Parse header p o = Ok a.
Proof.
  destruct a as [t ssrc name data]. intros Hp (_ & R1 & R2 & _ & L) S C. cbn [sub_type_ app_ssrc_ name_ data_] in *. rewrite o_is.
  unfold App_Parse. unfold CreateApp in Hp, S. cbn [app_ssrc_ name_ data_] in Hp, S. reads_here Hp. rewrite S, !zlen_app, !zlen_bytes32, C.
  pose proof (zlen_nonneg data). rewrite u32_id by (unfold in_u32; lia).
  rewrite (copy_at p (pre ++ bytes32 ssrc ++ bytes32 name) data post); [reflexivity|rewrite Hp, <- !app_assoc; reflexivity|rewrite !zlen_app; reflexivity|lia].
Qed.

Lemma Pli_read self header a : p = pre ++ CreateCommonFeedback (pli_ssrcs_ a) ++ post -> Pli_ok a -> payload_size_bytes header = 8 ->
  Pli_Parse self header p o = Ok (true, a).
Proof.
  destruct a as [[s m]]. intros Hp [R1 R2] S. cbn in R1, R2. unfold Pli_Parse. rewrite S, o_is. cbn [pli_ssrcs_] in Hp.
  change (8 <? kCommonFeedbackLength) with false. unfold ParseCommonFeedback. now reads_here Hp.
Qed.

Lemma Bye_read self header a : p = pre ++ CreateBye a ++ post -> Bye_ok a -> Forall in_u32 (csrcs_ a) ->
  payload_size_bytes header = zlen (CreateBye a) -> count_or_format header = 1 + zlen (csrcs_ a) ->
  Bye_Parse self header p o = Ok (true, a).
Proof.
  destruct a as [s l r]. intros Hp (R & L & Lr) F S C. pose proof (CreateBye_size (mk_Bye s l r)) as Sz. rewrite Sz in S.
  cbn [bye_sender_ssrc_ csrcs_ reason_] in *. unfold Bye_Parse. rewrite C, S, o_is. pose proof (zlen_nonneg l). pose proof (zlen_nonneg r).
  assert (W : 0 <= reason_words r) by (unfold reason_words; destruct r as [|x r0]; [lia|]; pose proof (Z.div_pos (zlen (x :: r0)) 4); lia).
  replace (_ <? 4 * (1 + zlen l)) with false by lia. replace (1 + zlen l =? 0) with false by lia.
  replace (1 + zlen l - 1) with (zlen l) by lia. replace (Z.to_nat (zlen l)) with (length l) by (unfold zlen; lia).
  assert (Lc : zlen (concat (map bytes32 l)) = 4 * zlen l) by (apply zlen_concat_map; reflexivity).
  assert (Rs : forall rest, p = (pre ++ bytes32 s) ++ concat (map bytes32 l) ++ rest ->
    be32 p (zlen pre) = Ok s /\ read_ssrcs p (length l) (zlen pre + 4) = Ok l).
  { intros rest Hq. split; [rewrite <- app_assoc in Hq; now reads_here Hq|]. apply (read_ssrcs_at p l (pre ++ bytes32 s) rest); [exact Hq|now rewrite zlen_app|exact F]. }
  destruct r as [|x r0].
  - unfold reason_words in S |- *. replace (4 * (1 + zlen l) <? 4 * (1 + zlen l + 0)) with false by lia. cbn [andb bind].
    unfold CreateBye in Hp. cbn [reason_ bye_sender_ssrc_ csrcs_] in Hp. rewrite <- app_assoc in Hp.
    destruct (Rs post) as [-> E]; [now rewrite Hp, <- app_assoc|]. cbn [bind]. now rewrite E.
  - set (reason := x :: r0) in *. assert (Nr : 0 < zlen reason) by (now apply nonempty_zlen).
    unfold CreateBye in Hp. cbn [reason_ bye_sender_ssrc_ csrcs_] in Hp. fold reason in Hp. set (pad := zeros _) in Hp.
    change (p = pre ++ ((bytes32 s ++ concat (map bytes32 l)) ++
      ([u8 (zlen reason)] ++ firstn (Z.to_nat (u8 (zlen reason))) reason) ++ pad) ++ post) in Hp.
    replace (firstn _ reason) with reason in Hp
      by (rewrite u8_id by (unfold in_u8; lia); symmetry; apply firstn_all2; unfold zlen; lia).
    assert (Rw : zlen reason + 1 <= 4 * reason_words reason) by (unfold reason_words, reason; fold reason; Z.to_euclidean_division_equations; lia).
    replace (4 * (1 + zlen l) <? 4 * (1 + zlen l + reason_words reason)) with true by lia.
    assert (Hq : p = ((pre ++ bytes32 s) ++ concat (map bytes32 l)) ++ u8 (zlen reason) :: reason ++ pad ++ post)
      by (rewrite Hp, <- !app_assoc; reflexivity).
    assert (Ho : zlen ((pre ++ bytes32 s) ++ concat (map bytes32 l)) = zlen pre + 4 * (1 + zlen l)) by (rewrite !zlen_app, Lc, zlen_bytes32; lia).
    rewrite <- Ho, (byte_here _ _ _ Hq (u8 (zlen reason)) (reason ++ pad ++ post)) by reflexivity. cbn [bind].
    rewrite u8_id by (unfold in_u8; lia). replace (true && _) with false by lia.
    destruct (Rs (u8 (zlen reason) :: reason ++ pad ++ post)) as [-> E]; [now rewrite Hq, <- app_assoc|]. cbn [bind]. rewrite E. cbn [bind].
    rewrite (copy_at p (((pre ++ bytes32 s) ++ concat (map bytes32 l)) ++ [u8 (zlen reason)]) reason (pad ++ post));
      [reflexivity|rewrite Hq, <- !app_assoc; reflexivity|rewrite zlen_app, Ho; change (zlen [_]) with 1; lia|reflexivity].
Qed.

Lemma read_nacks_at l : forall a b o, p = a ++ concat (map CreateNackItem l) ++ b -> o = zlen a -> Forall PackedNack_ok l ->
  read_nacks (length l) p o = Ok l.
Proof.
  induction l as [|x l IH]; intros a b o' Hp -> F; cbn [length read_nacks map concat] in *; [reflexivity|].
  inversion F as [|? ? [R1 R2] F']; subst x0 l0. rewrite <- app_assoc in Hp. reads_here Hp.
  rewrite (IH (a ++ CreateNackItem x) b); [now destruct x|now rewrite Hp, <- app_assoc|now rewrite zlen_app|assumption].
Qed.

Lemma Nack_read self header f l ids : p = pre ++ (CreateCommonFeedback f ++ concat (map CreateNackItem l)) ++ post ->
  Feedback_ok f -> Forall PackedNack_ok l -> l <> [] -> Unpack l = Ok ids -> payload_size_bytes header = 8 + 4 * zlen l ->
  Nack_Parse self header p o = Ok (true, mk_Nack f l ids).
Proof.
  destruct f as [s m]. intros Hp [R1 R2] F N U S. cbn in R1, R2. unfold Nack_Parse, kNackItemLength, kCommonFeedbackLength. rewrite S, o_is.
  assert (0 < zlen l) by (now apply nonempty_zlen). replace (_ <? 8 + 4) with false by lia.
  replace ((8 + 4 * zlen l - 8) / 4) with (zlen l) by (rewrite Z.add_simpl_l, Z.mul_comm, Z.div_mul; lia).
  replace (Z.to_nat (zlen l)) with (length l) by (unfold zlen; lia). unfold ParseCommonFeedback. reads_here Hp.
  rewrite (read_nacks_at l (pre ++ CreateCommonFeedback (mk_Feedback s m)) post); [|rewrite Hp, <- !app_assoc; reflexivity|now rewrite zlen_app|exact F].
  cbn [bind]. now rewrite U.
Qed.

End Payload.

End RtcpPacketParse.
