(* ===== verification/RtcpCompound.v ===== *)
(** * Compound packets: what is built is what is read

    However the builders of RtcpPackets.v split a tree of packets over buffers,
    the parser of RtcpParser.v hands out, buffer by buffer, what the packets of
    the tree say, in their order and complete. *)

From S2P Require Import Prelude Wire RtcpCommon RtcpWriter TransportFeedback TransportFeedbackFacts TransportFeedbackRoundtrip RtcpParser RtcpParserFacts RtcpPackets RtcpPacketsFacts RtcpFeedbackFacts RtcpOtherFacts.
Import Wire RtcpCommon RtcpWriter TransportFeedbackRoundtrip RtcpParser RtcpParserFacts RtcpPackets RtcpPacketsFacts RtcpFeedbackFacts RtcpOtherFacts.

Module RtcpCompound.

(** ** What a packet says *)

(** The NACK items come in as many messages as the buffers require. *)
Definition Nack_shows (p : Nack) (es : list event) : Prop :=
  exists pieces, concat pieces = packed_ p /\ Forall (fun l => l <> []) pieces /\ es = concat (map (nack_events (nack_ssrcs_ p)) pieces).

Definition Nack_ok (p : Nack) : Prop :=
  Feedback_ok (nack_ssrcs_ p) /\ Forall PackedNack_ok (packed_ p) /\ packed_ p <> [] /\ zlen (packed_ p) < 65000.

(** A transport feedback that reports [S], and the message that is read. *)
Definition Report_ok (f : TransportFeedback.TransportFeedback) (S : list TransportFeedback.StatusSymbol) : Prop :=
  TransportFeedbackFacts.packed f S /\ S <> [] /\ zlen S <= 65535 /\
  TransportFeedbackRoundtrip.agree S (TransportFeedback.receive_deltas_ f) /\ TransportFeedbackRoundtrip.counted f S /\ in_range f.
Definition same_report (f : TransportFeedback.TransportFeedback) (S : list TransportFeedback.StatusSymbol)
    (g : TransportFeedback.TransportFeedback) : Prop :=
  TransportFeedback.packet_sender_ssrc_ g = TransportFeedback.packet_sender_ssrc_ f /\
  TransportFeedback.media_source_ssrc_ g = TransportFeedback.media_source_ssrc_ f /\
  TransportFeedback.feedback_seq_ g = TransportFeedback.feedback_seq_ f /\
  TransportFeedback.base_seq_ g = TransportFeedback.base_seq_ f /\
  TransportFeedback.base_time_ g = TransportFeedback.base_time_ f /\
  TransportFeedback.GetStatusVector g = Ok S /\
  TransportFeedback.receive_deltas_ g = TransportFeedback.receive_deltas_ f.

(** Its fields are in their ranges. *)
Definition packet_ok (p : RtcpPacket) : Prop :=
  match p with
  | P_SenderReport p => SenderReport_ok p
  | P_ReceiverReport p => ReceiverReport_ok p
  | P_Sdes p => Sdes_ok p
  | P_Bye p => Bye_ok p
  | P_App p => App_ok p
  | P_ExtendedJitterReport p => ExtendedJitterReport_ok p
  | P_Pli p => Pli_ok p
  | P_Sli p => Sli_ok p
  | P_Rpsi p => Rpsi_ok p
  | P_Fir p => Fir_ok p
  | P_Remb p => Remb_ok p
  | P_Tmmbr p => Tmmbr_ok p
  | P_Tmmbn p => Tmmbn_ok p
  | P_Xr p => Xr_ok p
  | P_Nack p => Nack_ok p
  | P_TransportFeedback f => exists S, Report_ok f S
  | P_CompoundPacket => True
  end.

(** What a client of the parser is told. *)
Definition shows (p : RtcpPacket) (es : list event) : Prop :=
  match p with
  | P_SenderReport p => es = SenderReport_events p
  | P_ReceiverReport p => es = ReceiverReport_events p
  | P_Sdes p => es = Sdes_events p
  | P_Bye p => es = Bye_events p
  | P_App p => es = App_events p
  | P_ExtendedJitterReport p => es = ExtendedJitterReport_events p
  | P_Pli p => es = Pli_events p
  | P_Sli p => es = Sli_events p
  | P_Rpsi p => es = Rpsi_events p
  | P_Fir p => es = Fir_events p
  | P_Remb p => es = Remb_events p
  | P_Tmmbr p => es = Tmmbr_events p
  | P_Tmmbn p => es = Tmmbn_events p
  | P_Xr p => es = Xr_events p
  | P_Nack p => Nack_shows p es
  | P_TransportFeedback f => exists S g, Report_ok f S /\ same_report f S g /\ es = [(kTransportFeedback, PktNone, Some g)]
  | P_CompoundPacket => es = []
  end.

(** Whether the packet fits into a buffer; a NACK is split. *)
Definition fits_in (max : Z) (p : RtcpPacket) : Prop :=
  match p with P_Nack _ => True | p => BlockLength p <= max end.

(** ** The writer *)

Definition delivery : Type := list Z * list event.

(** What was delivered, and what the buffer holds. *)
Record holds (max : Z) (w : Writer) (D : list delivery) (cur : list event) : Prop := {
  h_buffer : max <= zlen (buffer w);
  h_index : 0 <= index w <= max;
  h_ready : ready w = map fst D;
  h_delivered : Forall (fun d => block (fst d) (snd d) /\ fst d <> [] /\ zlen (fst d) <= max) D;
  h_written : block (written w) cur
}.
Definition total (D : list delivery) (cur : list event) : list event := concat (map snd D) ++ cur.

Lemma zlen_written w : 0 <= index w <= zlen (buffer w) -> zlen (written w) = index w.
Proof. intros I. unfold written. apply zlen_slice; lia. Qed.

Lemma holds_words max w D cur : holds max w D cur -> index w mod 4 = 0.
Proof. intros [B I R F [[M _] _]]. rewrite zlen_written in M by lia. exact M. Qed.

(** Delivers what the buffer holds. *)
Lemma holds_flushed max w D cur : holds max w D cur -> index w <> 0 ->
  OnBufferFull w = (true, mk_writer (buffer w) 0 (ready w ++ [written w])) /\
  holds max (mk_writer (buffer w) 0 (ready w ++ [written w])) (D ++ [(written w, cur)]) [] /\
  total (D ++ [(written w, cur)]) [] = total D cur.
Proof.
  intros [B I R F W] N. split; [unfold OnBufferFull; now replace (index w =? 0) with false by lia|]. split.
  - constructor; cbn [buffer index ready]; try lia; [now rewrite R, map_app|apply Forall_app; split; [exact F|]|apply block_nil].
    constructor; [|constructor]. cbn [fst snd]. split; [exact W|]. assert (L : zlen (written w) = index w) by (apply zlen_written; lia).
    split; [|lia]. intros E. rewrite E in L. cbn in L. lia.
  - unfold total. rewrite map_app, concat_app, app_nil_r. cbn [map concat snd]. now rewrite app_nil_r.
Qed.

Lemma made_room max n w D cur : holds max w D cur -> 0 <= n <= max ->
  exists w' D' cur', MakeRoom n max w = (true, w') /\ holds max w' D' cur' /\ index w' + n <= max /\ total D' cur' = total D cur.
Proof.
  intros H N. pose proof (h_index _ _ _ _ H) as I. destruct (MakeRoom_fits n max w N ltac:(lia)) as [M1 M2].
  destruct (Z.le_gt_cases (index w + n) max) as [K|K].
  - exists w, D, cur. rewrite M1 by assumption. auto.
  - rewrite M2 by lia. destruct (holds_flushed max w D cur H ltac:(lia)) as (_ & H' & T).
    eexists _, _, _. split; [reflexivity|]. split; [exact H'|]. split; [cbn; lia|exact T].
Qed.

Lemma holds_wrote max w D cur b es : holds max w D cur -> block b es -> index w + zlen b <= max ->
  holds max (wrote b w) D (cur ++ es).
Proof.
  intros [B I R F W] Bl L. pose proof (zlen_nonneg b).
  constructor; unfold wrote; cbn [buffer index ready]; rewrite ?zlen_blit; try lia; try assumption.
  change (block (written (wrote b w)) (cur ++ es)). rewrite written_wrote by (unfold room; lia). now apply block_app.
Qed.

Lemma total_app D cur es : total D (cur ++ es) = total D cur ++ es.
Proof. unfold total. now rewrite app_assoc. Qed.

Lemma header_put count t words body w : room (4 + zlen body) w ->
  (let! w := CreateHeader count t words w in let! w := put body w in Ok (true, w)) =
  Ok (true, wrote ([u8 (Z.shiftl 2 6 + count); u8 t] ++ bytes16 words ++ body) w).
Proof.
  intros R. pose proof (zlen_nonneg body). unfold CreateHeader, AssignUWord8, AssignUWord16.
  assert (Sz : forall n, n <= 4 + zlen body -> room n w) by (intros n Hn; eapply room_le; [exact R|exact Hn]).
  rewrite put_writes by (apply Sz; rewrite zlen_cons, (@zlen_nil Z); lia). cbn [bind].
  repeat (rewrite put_wrote by (apply Sz; unfold bytes16; cbn [app]; rewrite ?zlen_cons, ?(@zlen_nil Z); lia); cbn [bind]).
  now rewrite <- app_assoc.
Qed.

(** A packet that is written at once. *)
Lemma create_holds max w D cur n count t words body es :
  holds max w D cur -> n <= max -> n = 4 + zlen body -> in_u8 t -> block (head count t words ++ body) es ->
  exists w' D' cur', create n count t words body max w = Ok (true, w') /\ holds max w' D' cur' /\
    total D' cur' = total D cur ++ es /\ 0 < index w'.
Proof.
  intros H N E T Bl. pose proof (zlen_nonneg body). destruct (made_room max n w D cur H ltac:(lia)) as (w1 & D1 & c1 & M & H1 & I1 & T1).
  unfold create. rewrite M. cbn [negb]. pose proof (h_buffer _ _ _ _ H1). pose proof (h_index _ _ _ _ H1).
  rewrite header_put by (unfold room; lia). rewrite (u8_id t T).
  eexists _, D1, _. split; [reflexivity|]. split.
  - apply (holds_wrote max w1 D1 c1 (head count t words ++ body) es H1 Bl). rewrite zlen_app. change (zlen (head count t words)) with 4. lia.
  - split; [now rewrite total_app, T1|]. unfold wrote. cbn [index]. rewrite !zlen_app, !zlen_cons, (@zlen_nil Z), zlen_bytes16. lia.
Qed.

(** ** Every packet *)

(** A packet that is written at once, and what it is written as. *)
Definition written_as (p : RtcpPacket) (es : list event) : Prop :=
  exists count t words body, (forall max w, Create p max w = create (BlockLength p) count t words body max w) /\
    BlockLength p = 4 + zlen body /\ in_u8 t /\ block (head count t words ++ body) es.

Ltac written := eexists _, _, _, _; split; [intros; reflexivity|]; split; [cbn [BlockLength]|split; [unfold in_u8; cbv; split; congruence|]].

Lemma reports_written p es : packet_ok p -> shows p es ->
  match p with P_SenderReport _ | P_ReceiverReport _ | P_Sdes _ | P_Bye _ | P_App _ | P_ExtendedJitterReport _ | P_Xr _ => written_as p es | _ => True end.
Proof.
  destruct p as [p|p|p|p|p|p|p|p|p|p|p|p|p|p|p|p|]; intros Ok S; try exact I; cbn [packet_ok shows] in *; subst es.
  - written; [|now apply SenderReport_block].
    unfold SenderReport_BlockLength, CreateSenderReport, CreateReportBlocks, ReportBlock_kLength.
    rewrite !zlen_app, (zlen_concat_map ReportBlock_Create 24), !zlen_bytes32 by reflexivity. lia.
  - written; [|now apply ReceiverReport_block].
    unfold ReceiverReport_BlockLength, CreateReportBlocks, ReportBlock_kLength, kHeaderLength.
    rewrite !zlen_app, (zlen_concat_map ReportBlock_Create 24), !zlen_bytes32 by reflexivity. lia.
  - written; [|now apply Sdes_block]. unfold Sdes_BlockLength. now rewrite Sdes_length by apply Ok.
  - written; [|now apply Bye_block]. rewrite CreateBye_size. unfold Bye_BlockLength, kHeaderLength, reason_words.
    destruct (reason_ p); lia.
  - written; [|now apply App_block]. unfold App_BlockLength, CreateApp. rewrite !zlen_app, !zlen_bytes32. lia.
  - written; [|exact (ExtendedJitterReport_block p Ok)]. unfold ExtendedJitterReport_BlockLength, kHeaderLength. cbn [app].
    rewrite (zlen_concat_map bytes32 4) by reflexivity. lia.
  - written; [|now apply Xr_block]. rewrite Xr_size. lia.
Qed.

Lemma feedback_written p es : packet_ok p -> shows p es ->
  match p with P_Pli _ | P_Sli _ | P_Rpsi _ | P_Fir _ | P_Remb _ | P_Tmmbr _ | P_Tmmbn _ => written_as p es | _ => True end.
Proof.
  destruct p as [p|p|p|p|p|p|p|p|p|p|p|p|p|p|p|p|]; intros Ok S; try exact I; cbn [packet_ok shows] in *; subst es.
  - written; [|now apply Pli_block]. reflexivity.
  - written; [|now apply Sli_block]. unfold Sli_BlockLength, kHeaderLength, kCommonFeedbackLength, CreateCommonFeedback.
    rewrite !zlen_app, (zlen_concat_map bytes32 4), !zlen_bytes32 by reflexivity. lia.
  - written; [|now apply Rpsi_block]. destruct p as [pad [f pt n bits]]. destruct Ok as (_ & _ & N & L & P).
    unfold rpsi_, padding_bytes_ in *. cbn [NumberOfValidBits NativeBitString] in N, L, P.
    unfold Rpsi_BlockLength, kCommonFbFmtLength, CreateRpsi, CreateCommonFeedback. cbn [rpsi_ padding_bytes_ NumberOfValidBits NativeBitString].
    rewrite N, (Z.mul_comm 8), Z.div_mul, firstn_all2 by (unfold zlen in *; lia).
    pose proof (Z.mod_pos_bound (- (2 + zlen bits)) 4 ltac:(lia)). rewrite !zlen_app, zlen_zeros, !zlen_bytes32 by lia.
    rewrite !zlen_cons, (@zlen_nil Z). lia.
  - written; [|now apply Fir_block]. reflexivity.
  - written; [|now apply Remb_block]. destruct Ok as (_ & _ & N & _). unfold Remb_BlockLength, CreateRemb. rewrite N.
    destruct (ComputeMantissaAnd6bitBase2Exponent _ _). rewrite !zlen_app, (zlen_concat_map bytes32 4), !zlen_bytes32 by reflexivity.
    rewrite !zlen_cons, (@zlen_nil Z). lia.
  - written; [|now apply Tmmbr_block]. unfold CreateTmmbr. now rewrite !zlen_app, zlen_tmmbr, !zlen_bytes32.
  - written; [|now apply Tmmbn_block]. unfold Tmmbn_BlockLength, kCommonFbFmtLength, CreateTmmbn.
    rewrite !zlen_app, (zlen_concat_map CreateTmmbrItem 8), !zlen_bytes32 by (intros; apply zlen_tmmbr). lia.
Qed.

(** The step of a packet: what it says is added to the total, and the buffer
    is not empty; or it says nothing. *)
Definition filled (max : Z) (w : Writer) (D : list delivery) (cur : list event) (r : res (bool * Writer))
    (says : list event -> Prop) : Prop :=
  exists w' D' cur' es, r = Ok (true, w') /\ holds max w' D' cur' /\ says es /\ total D' cur' = total D cur ++ es /\ 0 < index w'.
Definition created (max : Z) (w : Writer) (D : list delivery) (cur : list event) (r : res (bool * Writer))
    (says : list event -> Prop) : Prop :=
  filled max w D cur r says \/ (r = Ok (true, w) /\ says []).

Lemma written_created max w D cur p es : holds max w D cur -> written_as p es -> BlockLength p <= max -> shows p es ->
  filled max w D cur (Create p max w) (shows p).
Proof.
  intros H (c & t & n & b & E & L & T & Bl) M S. rewrite E.
  destruct (create_holds max w D cur _ c t n b es H M L T Bl) as (w' & D' & c' & R & H' & Tt & K).
  exists w', D', c', es. repeat (split; auto).
Qed.

(** ** NACKs *)

Definition nack_pieces (f : Feedback) (left : list PackedNack) (es : list event) : Prop :=
  exists pieces, concat pieces = left /\ Forall (fun l => l <> []) pieces /\ es = concat (map (nack_events f) pieces).

Section Nacks.
Variables (max : Z) (p : Nack).
Hypothesis max_range : 16 <= max < 18446744073709551616.
Hypothesis f_ok : Feedback_ok (nack_ssrcs_ p).
Let f := nack_ssrcs_ p.

(** As many items as there is room for. *)
Lemma nack_piece_put left w D cur : left <> [] -> Forall PackedNack_ok left -> zlen left < 65000 -> holds max w D cur ->
  16 <= max - index w ->
  let n := Z.min ((max - index w - 12) / 4) (zlen left) in
  let piece := firstn (Z.to_nat n) left in
  let rest := skipn (Z.to_nat n) left in
  exists w', (let! w := CreateHeader 1 PT_RTPFB (HeaderLength (n * 4 + 12)) w in
              let! w := put (CreateCommonFeedback f) w in
              put (concat (map CreateNackItem piece)) w) = Ok w' /\
    holds max w' D (cur ++ nack_events f piece) /\ piece <> [] /\ left = piece ++ rest /\ 0 < index w'.
Proof.
  intros N P L H R. cbv zeta. set (n := Z.min _ _). set (piece := firstn _ _). set (rest := skipn _ _).
  pose proof (h_index _ _ _ _ H) as I. pose proof (h_buffer _ _ _ _ H) as B.
  assert (Nl : 0 < zlen left) by now apply nonempty_zlen.
  assert (Q : 1 <= (max - index w - 12) / 4 /\ 4 * ((max - index w - 12) / 4) <= max - index w - 12)
    by (clear - R; Z.to_euclidean_division_equations; lia).
  assert (Lp : zlen piece = n) by (unfold piece; rewrite zlen_firstn; lia).
  assert (El : left = piece ++ rest) by (symmetry; apply firstn_skipn).
  assert (Pp : Forall PackedNack_ok piece) by (now apply Forall_firstn).
  pose proof (nack_block f piece f_ok Pp ltac:(lia)) as Bl. rewrite Lp in Bl.
  rewrite (HeaderLength_is (2 + n)) by lia.
  assert (Lc : zlen (concat (map CreateNackItem piece)) = 4 * n) by (rewrite <- Lp; apply zlen_concat_map; reflexivity).
  assert (Sz : forall k, k <= 12 + 4 * n -> room k w) by (intros k Hk; unfold room; lia).
  exists (wrote (head 1 PT_RTPFB (2 + n) ++ CreateCommonFeedback f ++ concat (map CreateNackItem piece)) w).
  split; [|split; [|split; [|split; [exact El|]]]].
  - unfold CreateHeader, AssignUWord8, AssignUWord16, CreateCommonFeedback.
    rewrite put_writes by (apply Sz; rewrite zlen_cons, (@zlen_nil Z); lia). cbn [bind].
    repeat (rewrite put_wrote by (apply Sz; unfold bytes16, bytes32; cbn [app]; rewrite ?zlen_cons, ?(@zlen_nil Z), ?Lc; lia); cbn [bind]).
    rewrite <- !app_assoc. reflexivity.
  - apply holds_wrote; [exact H|exact Bl|]. rewrite !zlen_app, Lc. change (zlen (head 1 PT_RTPFB (2 + n))) with 4.
    change (zlen (CreateCommonFeedback f)) with 8. lia.
  - intros E. rewrite E in Lp. cbn in Lp. lia.
  - unfold wrote. cbn [index]. rewrite zlen_app. change (zlen (head 1 PT_RTPFB (2 + n))) with 4.
    pose proof (zlen_nonneg (CreateCommonFeedback f ++ concat (map CreateNackItem piece))). lia.
Qed.

Lemma nack_created fuel : forall left w D cur,
  left <> [] -> Forall PackedNack_ok left -> zlen left < 65000 ->
  (2 * length left + (if (max - index w <? 16)%Z then 1 else 0) <= fuel)%nat -> holds max w D cur ->
  filled max w D cur (Nack_create fuel p left max w) (nack_pieces f left).
Proof.
  induction fuel as [|fuel IH]; intros left w D cur N P L F H; [destruct left; [congruence|cbn in F; lia]|].
  pose proof (h_index _ _ _ _ H) as I. unfold filled. cbn [Nack_create]. unfold u64. rewrite Z.mod_small by lia.
  unfold kCommonFbFmtLength, kNackItemLength. change (12 + 4) with 16.
  assert (Nl : 0 < zlen left) by now apply nonempty_zlen.
  destruct (Z.ltb_spec (max - index w) 16) as [K|K].
  - destruct (holds_flushed max w D cur H ltac:(lia)) as (E & H' & T). rewrite E. cbn [negb].
    replace (0 <? zlen left) with true by lia. set (w1 := mk_writer (buffer w) 0 (ready w ++ [written w])) in *.
    destruct (IH left w1 (D ++ [(written w, cur)]) []) as (w' & D' & c' & es & E' & Ho & S & Tt & Po); try assumption.
    { change (index w1) with 0. replace (max - 0 <? 16) with false by lia. lia. }
    exists w', D', c', es. rewrite T in Tt. auto.
  - destruct (nack_piece_put left w D cur N P L H K) as (w1 & E & H1 & Np & El & Po1). fold f.
    set (n := Z.min _ _) in *. set (piece := firstn _ _) in *. set (rest := skipn _ _) in *.
    destruct (CreateHeader 1 PT_RTPFB (HeaderLength (n * 4 + 12)) w) as [wa| |]; cbn [bind] in *; try discriminate.
    destruct (put (CreateCommonFeedback f) wa) as [wb| |]; cbn [bind] in *; try discriminate.
    rewrite E. cbn [bind]. assert (Lr : zlen left = zlen piece + zlen rest) by (rewrite El at 1; apply zlen_app).
    assert (Zp : 0 < zlen piece) by now apply nonempty_zlen.
    destruct (Z.ltb_spec 0 (zlen rest)) as [Kr|Kr].
    + destruct (IH rest w1 D (cur ++ nack_events f piece)) as (w' & D' & c' & es & E' & Ho & (pieces & Pc & Pn & Pe) & Tt & Po);
        [intros Er; rewrite Er in Kr; cbn in Kr; lia|now apply Forall_skipn|lia| |exact H1|].
      { unfold zlen in *. destruct (max - index w1 <? 16); lia. }
      exists w', D', c', (nack_events f piece ++ es). split; [exact E'|]. split; [exact Ho|]. split.
      * exists (piece :: pieces). cbn [map concat]. rewrite Pc, <- El, <- Pe. auto.
      * split; [now rewrite Tt, total_app, app_assoc|exact Po].
    + assert (Er : rest = []) by (destruct rest as [|x l]; [reflexivity|exfalso; rewrite zlen_cons in Kr; pose proof (zlen_nonneg l); lia]).
      exists w1, D, (cur ++ nack_events f piece), (nack_events f piece). split; [reflexivity|]. split; [exact H1|]. split; [|split; [apply total_app|exact Po1]].
      exists [piece]. cbn [map concat]. rewrite !app_nil_r. rewrite Er, app_nil_r in El. auto.
Qed.

End Nacks.

(** ** Transport feedback *)

Lemma report_block f S fill size : in_range f -> S <> [] -> TransportFeedbackRoundtrip.counted f S -> zlen S <= 65535 ->
  TransportFeedbackRoundtrip.agree S (TransportFeedback.receive_deltas_ f) ->
  Forall TransportFeedbackFacts.wf_chunk (TransportFeedback.status_chunks_ f) ->
  TransportFeedbackFacts.decode (TransportFeedback.status_chunks_ f) = S ++ fill ->
  TransportFeedbackRoundtrip.fits (zlen S) (TransportFeedback.status_chunks_ f) ->
  size = 20 + 2 * zlen (TransportFeedback.status_chunks_ f) + TransportFeedbackFacts.deltas_size S -> size <= 149823 ->
  zlen (message f size) = padded size -> 20 <= padded size ->
  block (message f size) [(kTransportFeedback, PktNone, Some (parsed f))].
Proof.
  intros Rf N C L A W D F E B Zm P20. set (body := skipn 4 (message f size)).
  assert (Em : message f size = head 15 PT_RTPFB (HeaderLength size) ++ body) by reflexivity.
  assert (Pw : padded size = 4 * (HeaderLength size + 1)) by (rewrite padded_words; unfold HeaderLength; lia).
  assert (Wd : 4 <= HeaderLength size < 65536) by (split; [lia|clear - B; unfold HeaderLength; Z.to_euclidean_division_equations; lia]).
  assert (Lb : zlen body = 4 * HeaderLength size) by (apply (f_equal zlen) in Em; rewrite zlen_app in Em; change (zlen (head 15 PT_RTPFB (HeaderLength size))) with 4 in Em; lia).
  rewrite Em. apply packet_block; [lia|lia|exact Lb|]. intros p pre post s Hp (V & T & Dt & En). rewrite <- Em in Hp. rewrite Lb in *. switch.
  unfold ParseFBCommon, length_. rewrite Dt, En. replace (_ <? 12) with false by lia.
  assert (Rd : exists sender media, be32 p (zlen pre + 4) = Ok sender /\ be32 p (zlen pre + 8) = Ok media).
  { destruct Rf as [R1 R2 _ _ _]. eexists _, _. split; reads Hp; reflexivity. }
  destruct Rd as (sender & media & -> & ->). cbn [bind packet_type count_or_format]. cbv [PT_RTPFB]. cbn [Z.eqb Pos.eqb].
  replace (zlen pre + 4 + 4 * HeaderLength size - zlen pre) with (padded size) by lia. rewrite Hp.
  destruct (ParseFrom_written f S fill size pre post Rf N C L A W D F E B) as [-> _]. cbn [bind].
  eexists _, _. split; [reflexivity|]. parser_is. split; [discriminate|]. split; [reflexivity|]. split; [constructor|].
  apply at_top_self; [exact V|exact T|exact En].
Qed.

Lemma report_created max w D cur f S : Report_ok f S -> TransportFeedback.BlockLength f <= max -> max mod 4 = 0 -> holds max w D cur ->
  filled max w D cur (let! (ok, w, _) := TransportFeedback.Create f max w in Ok (ok, w))
    (fun es => exists S g, Report_ok f S /\ same_report f S g /\ es = [(kTransportFeedback, PktNone, Some g)]).
Proof.
  intros Rp Mx M4 H. pose proof Rp as (P & N & L & A & C & Rf). unfold TransportFeedback.BlockLength in Mx.
  pose proof (TransportFeedbackFacts.packed_size f S P ltac:(lia)) as Sz. set (size := TransportFeedback.size_bytes_ f) in *.
  destruct (made_room max size w D cur H ltac:(lia)) as (w1 & D1 & c1 & Mr & H1 & I1 & T1).
  pose proof (holds_words _ _ _ _ H1) as W4. pose proof (h_index _ _ _ _ H1). pose proof (h_buffer _ _ _ _ H1).
  assert (Pd : index w1 + padded size <= max /\ size <= padded size <= size + 3).
  { clear - I1 W4 M4. unfold padded. Z.to_euclidean_division_equations. lia. }
  assert (B : TransportFeedback.base_seq_ f <> -1) by (destruct Rf as [_ _ Rb _ _]; unfold in_u16 in Rb; lia).
  destruct (Create_written f S max w w1 P L A B Mr W4) as (g & fill & Ec & Rg & W & Dg & Fg & Zl & Szg); [fold size; unfold room; lia|].
  fold size in Ec, Zl, Szg. rewrite Ec. cbn [bind].
  assert (Eg : TransportFeedback.receive_deltas_ g = TransportFeedback.receive_deltas_ f /\ TransportFeedback.last_seq_ g = TransportFeedback.last_seq_ f /\
    TransportFeedback.base_seq_ g = TransportFeedback.base_seq_ f /\ TransportFeedback.packet_sender_ssrc_ g = TransportFeedback.packet_sender_ssrc_ f /\
    TransportFeedback.media_source_ssrc_ g = TransportFeedback.media_source_ssrc_ f /\ TransportFeedback.feedback_seq_ g = TransportFeedback.feedback_seq_ f /\
    TransportFeedback.base_time_ g = TransportFeedback.base_time_ f) by (rewrite Rg; repeat split).
  destruct Eg as (E1 & E2 & E3 & E4 & E5 & E6 & E7).
  assert (Rg' : in_range g) by (destruct Rf; constructor; congruence).
  assert (Cg : TransportFeedbackRoundtrip.counted g S) by (unfold TransportFeedbackRoundtrip.counted in *; now rewrite E2, E3).
  assert (Ag : TransportFeedbackRoundtrip.agree S (TransportFeedback.receive_deltas_ g)) by now rewrite E1.
  destruct (ParseFrom_written g S fill size [] [] Rg' N Cg L Ag W Dg Fg Szg ltac:(lia)) as [_ V].
  assert (Bl : block (message g size) [(kTransportFeedback, PktNone, Some (parsed g))])
    by (apply (report_block g S fill size); auto; lia).
  exists (wrote (message g size) w1), D1, (c1 ++ [(kTransportFeedback, PktNone, Some (parsed g))]), [(kTransportFeedback, PktNone, Some (parsed g))].
  split; [reflexivity|]. split; [apply (holds_wrote max w1 D1 c1 _ _ H1 Bl); lia|].
  split; [|split; [now rewrite total_app, T1|unfold wrote; cbn [index]; lia]].
  exists S, (parsed g). split; [exact Rp|]. split; [|reflexivity]. unfold same_report, parsed.
  cbn [TransportFeedback.packet_sender_ssrc_ TransportFeedback.media_source_ssrc_ TransportFeedback.feedback_seq_ TransportFeedback.base_seq_
    TransportFeedback.base_time_ TransportFeedback.receive_deltas_]. repeat split; try assumption.
Qed.

(** ** Trees of packets *)

Lemma Create_created max w D cur p : 16 <= max < 18446744073709551616 -> max mod 4 = 0 ->
  packet_ok p -> fits_in max p -> holds max w D cur -> created max w D cur (Create p max w) (shows p).
Proof.
  intros Mx M4 Rp F H.
  destruct p eqn:E; try (left; eapply written_created; [exact H|first [exact (reports_written _ _ Rp eq_refl) | exact (feedback_written _ _ Rp eq_refl)]|exact F|reflexivity]).
  - destruct Rp as (Fo & P & N & L). left. cbn [Create]. apply nack_created; try assumption.
    destruct (max - index w <? 16); lia.
  - destruct Rp as [S Rp]. left. exact (report_created max w D cur p0 S Rp F M4 H).
  - now right.
Qed.

Fixpoint packets_of (t : Packet) : list RtcpPacket :=
  match t with mk_Packet p appended => p :: concat (map packets_of appended) end.

Section Tree.
Variable P : Packet -> Prop.
Hypothesis node : forall p appended, Forall P appended -> P (mk_Packet p appended).
Fixpoint Packet_tree (t : Packet) : P t :=
  match t with
  | mk_Packet p appended => node p appended ((fix all (l : list Packet) : Forall P l :=
      match l with [] => Forall_nil P | t :: l => Forall_cons t (Packet_tree t) (all l) end) appended)
  end.
End Tree.

(** The events of packets, one after the other. *)
Inductive show : list RtcpPacket -> list event -> Prop :=
| show_nil : show [] []
| show_cons p ps es fs : shows p es -> show ps fs -> show (p :: ps) (es ++ fs).

Lemma show_app ps es qs fs : show ps es -> show qs fs -> show (ps ++ qs) (es ++ fs).
Proof. induction 1; intros S; cbn [app]; [exact S|]. rewrite <- app_assoc. constructor; auto. Qed.

Section Trees.
Variable max : Z.
Hypothesis max_range : 16 <= max < 18446744073709551616.
Hypothesis max_words : max mod 4 = 0.

(** Two steps, one after the other. *)
Lemma created_then w D cur r k ps qs :
  created max w D cur r (show ps) ->
  (forall w' D' cur', holds max w' D' cur' -> created max w' D' cur' (k w') (show qs)) -> holds max w D cur ->
  created max w D cur (let! (ok, w) := r in if ok then k w else Ok (false, w)) (show (ps ++ qs)).
Proof.
  intros [(w1 & D1 & c1 & es & -> & H1 & S1 & T1 & P1)|(-> & S1)] K H; cbn [bind].
  - left. destruct (K w1 D1 c1 H1) as [(w2 & D2 & c2 & fs & -> & H2 & S2 & T2 & P2)|(-> & S2)].
    + exists w2, D2, c2, (es ++ fs). repeat (split; auto); [now apply show_app|]. now rewrite T2, T1, app_assoc.
    + exists w1, D1, c1, es. repeat (split; auto). rewrite <- (app_nil_r es). now apply show_app.
  - destruct (K w D cur H) as [(w2 & D2 & c2 & fs & -> & H2 & S2 & T2 & P2)|(-> & S2)].
    + left. exists w2, D2, c2, fs. repeat (split; auto). change fs with ([] ++ fs). now apply show_app.
    + right. split; [reflexivity|]. change (@nil event) with (@nil event ++ []). now apply show_app.
Qed.

Lemma tree_created t : forall w D cur, Forall packet_ok (packets_of t) -> Forall (fits_in max) (packets_of t) -> holds max w D cur ->
  created max w D cur (CreateAndAddAppended t max w) (show (packets_of t)).
Proof.
  induction t as [p appended IH] using Packet_tree. intros w D cur Rp F H. cbn [packets_of] in *.
  inversion Rp as [|? ? Op Oa]; subst. inversion F as [|? ? Fp Fa]; subst. cbn [CreateAndAddAppended].
  set (add := fix add (appended : list Packet) (w : Writer) : res (bool * Writer) :=
           match appended with
           | [] => Ok (true, w)
           | packet :: appended =>
               let! (ok, w) := CreateAndAddAppended packet max w in
               if ok then add appended w else Ok (false, w)
           end).
  assert (G : forall w D cur, holds max w D cur -> created max w D cur (add appended w) (show (concat (map packets_of appended)))).
  { clear Rp F Op Fp H. induction appended as [|t l IHl]; intros w1 D1 c1 H1; cbn [map concat add] in *.
    - right. split; [reflexivity|constructor].
    - apply Forall_app in Oa as [Ot Ol]. apply Forall_app in Fa as [Ft Fl]. inversion IH as [|? ? It Il]; subst.
      refine (created_then w1 D1 c1 _ (add l) _ _ (It w1 D1 c1 Ot Ft H1) _ H1). intros w2 D2 c2 H2. now apply IHl. }
  assert (C : created max w D cur (Create p max w) (show [p])).
  { destruct (Create_created max w D cur p max_range max_words Op Fp H) as [(w1 & D1 & c1 & es & E & H1 & S1 & T1)|(E & S1)].
    - left. exists w1, D1, c1, es. repeat (split; [assumption|]). split; [|exact T1]. rewrite <- (app_nil_r es). now repeat constructor.
    - right. split; [exact E|]. change (@nil event) with (@nil event ++ []). now repeat constructor. }
  pose proof (created_then w D cur _ (add appended) [p] _ C G H) as R.
  destruct (Create p max w) as [[[|] w1]| |]; exact R.
Qed.

End Trees.

(** ** What the setters establish *)

Lemma Sdes_WithCName_ok p c cname : Forall Chunk_ok (chunks_ p) -> in_u32 c ->
  Forall (fun x => in_u8 x /\ illegal x = false) cname -> zlen cname < 256 -> zlen (chunks_ p) < 31 ->
  exists p', Sdes_WithCName p c cname = (true, p') /\ Sdes_ok p' /\ chunks_ p' = chunks_ p ++ [mk_Chunk c cname (4 - (2 + zlen cname) mod 4)].
Proof.
  intros F R Fc L N. unfold Sdes_WithCName, kMaxNumberOfChunks. replace (0x1f <=? _) with false by lia.
  eexists. split; [reflexivity|]. pose proof (zlen_nonneg (chunks_ p)). unfold Sdes_ok. cbn [chunks_]. split; [|reflexivity].
  split; [apply Forall_app; split; [exact F|apply Forall_cons; [exact (conj R (conj Fc (conj L eq_refl)))|apply Forall_nil]]|].
  rewrite zlen_app. change (zlen [_]) with 1. lia.
Qed.

Lemma required_bytes_range fuel : forall pid, 0 <= pid < 2 ^ (7 * (Z.of_nat fuel + 1)) ->
  exists n, required_bytes (S fuel) pid = Ok n /\ 1 <= n <= Z.of_nat fuel + 1.
Proof.
  induction fuel as [|fuel IH]; intros pid R; cbn [required_bytes]; set (m := Z.land (Z.shiftr pid 7) _).
  all: assert (M : 0 <= m <= pid / 128) by (unfold m; change 0x1ffffffffffffff with (2 ^ 57 - 1); rewrite land_ones_mod, shiftr_div by lia;
    change (2 ^ 7) with 128; assert (0 <= pid / 128) by (apply Z.div_pos; lia); split; [apply Z.mod_pos_bound; lia|apply Z.mod_le; lia]).
  - change (2 ^ (7 * (Z.of_nat 0 + 1))) with 128 in R. rewrite Z.div_small in M by lia. replace (0 <? m) with false by lia.
    exists 1. split; [reflexivity|lia].
  - destruct (0 <? m); [|exists 1; split; [reflexivity|lia]]. destruct (IH m) as (n & E & N).
    + split; [lia|]. apply Z.le_lt_trans with (pid / 128); [lia|]. apply Z.div_lt_upper_bound; [lia|].
      change 128 with (2 ^ 7). rewrite <- Z.pow_add_r by lia. replace (7 + 7 * (Z.of_nat fuel + 1)) with (7 * (Z.of_nat (S fuel) + 1)) by lia. lia.
    + cbn [required_bytes] in E. rewrite E. exists (1 + n). split; [reflexivity|lia].
Qed.

Lemma length_high_bytes n pid : length (high_bytes n pid) = n.
Proof. induction n as [|n IH]; cbn [high_bytes length]; congruence. Qed.

Lemma Rpsi_WithPictureId_ok p pid : Feedback_ok (RPSI_Feedback (rpsi_ p)) -> in_u8 (PayloadType (rpsi_ p)) -> in_u64 pid ->
  exists p', Rpsi_WithPictureId p pid = Ok p' /\ Rpsi_ok p'.
Proof.
  intros F R U. destruct (required_bytes_range 9 pid) as (n & E & N); [unfold in_u64 in U; cbn; lia|].
  unfold Rpsi_WithPictureId. rewrite E. cbn [bind]. set (bits := _ ++ [_]).
  assert (L : zlen bits = n) by (unfold bits; rewrite zlen_app; unfold zlen; rewrite length_high_bytes; cbn [length]; lia).
  eexists. split; [reflexivity|]. unfold Rpsi_ok. cbn [rpsi_ padding_bytes_ RPSI_Feedback PayloadType NumberOfValidBits NativeBitString].
  split; [exact F|]. split; [exact R|]. split; [lia|]. split; [lia|]. rewrite L. clear.
  destruct (Z.eqb_spec (4 - (2 + n) mod 4) 4) as [K|K]; Z.to_euclidean_division_equations; lia.
Qed.

Lemma Remb_AppliesTo_ok p c : Remb_ok p -> in_u32 c -> Remb_ok (Remb_AppliesTo p c).
Proof.
  destruct p as [f [rate n l]]. intros (R & B & N & L & F) C. cbn [remb_ remb_item_ BitRate NumberOfSSRCs SSRCs] in *. unfold Remb_AppliesTo, kMaxNumberOfSsrcs.
  cbn [remb_ remb_item_ BitRate NumberOfSSRCs SSRCs]. destruct (Z.leb_spec 0xff n); [exact (conj R (conj B (conj N (conj L F))))|].
  unfold Remb_ok. cbn [remb_ remb_item_ BitRate NumberOfSSRCs SSRCs]. rewrite zlen_app. change (zlen [c]) with 1.
  split; [exact R|]. split; [exact B|]. split; [lia|]. split; [lia|]. apply Forall_app. split; [exact F|apply Forall_cons; [exact C|apply Forall_nil]].
Qed.

(** ** Everything that is built is read *)

(** The parser hands out [es] of the bytes, with enough fuel. *)
Definition read_as (b : list Z) (es : list event) : Prop :=
  exists s enough, new_RTCPParserV2 b true = Ok s /\ forall more, items (enough + more) b s = Ok es.

Lemma block_read b es : block b es -> b <> [] -> read_as b es.
Proof.
  intros [[_ Ne] R] N. set (s := mk_parser true 0 0 State_TopLevel 0 0 kInvalid PktNone None).
  destruct (R b [] [] s) as (s' & E & A); [now rewrite app_nil_r|now apply at_top_self|].
  destruct (items_emits b es s s' E A) as (k & K). exists s, k. split; [|exact K].
  pose proof (nonempty_zlen b N) as L. unfold new_RTCPParserV2, Validate. replace (zlen b <=? 0) with false by lia.
  assert (Es : es <> []) by (intros ->; apply N; now apply Ne).
  specialize (K 2%nat). rewrite Nat.add_comm in K. cbn [Nat.add items] in K.
  assert (I : Iterate b (S (S k)) s = IterateTopLevel b (S k) s) by reflexivity. rewrite I in K.
  cbn [IterateTopLevel] in K. change (_ptrRTCPData s) with 0 in K. replace (zlen b <=? 0) with false in K by lia.
  rewrite Z.sub_0_r in K. destruct (RtcpParseCommonHeader b 0 (zlen b)) as [[h|]| |]; cbn [bind] in K; try discriminate; [reflexivity|].
  cbn in K. congruence.
Qed.

Lemma shows_something p es : packet_ok p -> shows p es -> p <> P_CompoundPacket -> es <> [].
Proof.
  intros Rp S N. destruct p; cbn [shows] in S; try (rewrite S; discriminate).
  - destruct Rp as (_ & _ & Ne & _). destruct S as ([|l ls] & Pc & _ & ->); [cbn in Pc; congruence|discriminate].
  - destruct S as (S & g & _ & _ & ->). discriminate.
  - congruence.
Qed.

Lemma show_something ps es : Forall packet_ok ps -> show ps es -> (exists p, In p ps /\ p <> P_CompoundPacket) -> es <> [].
Proof.
  intros F S (p & I & N) E. induction S as [|q ps es fs Sq S IH]; [contradiction|]. apply app_eq_nil in E as [-> ->].
  inversion F as [|? ? Fq Fs]; subst. destruct I as [->|I]; [|now apply IH]. exact (shows_something p [] Fq Sq N eq_refl).
Qed.

Lemma holds_new max buffer : max = zlen buffer -> holds max (new_Writer buffer) [] [].
Proof.
  intros ->. pose proof (zlen_nonneg buffer). constructor; cbn [RtcpWriter.buffer index ready new_Writer]; try lia; [reflexivity|constructor|exact block_nil].
Qed.

(** C1. A tree of packets whose fields are in their ranges, and each of which
    but the NACKs fits into the buffer, is built and delivered in buffers that
    are no longer than the limit; the parser accepts each of them, and the
    items that it hands out, buffer after buffer, are those of the packets of
    the tree in their order: nothing is lost, added or changed where the tree is
    split over buffers, but that a NACK comes in several messages there, and
    that bit rates are rounded. *)
Theorem build_is_read t buffer : let max := zlen buffer in
  16 <= max < 18446744073709551616 -> max mod 4 = 0 ->
  Forall packet_ok (packets_of t) -> Forall (fits_in max) (packets_of t) ->
  (exists p, In p (packets_of t) /\ p <> P_CompoundPacket) ->
  exists D : list delivery, BuildExternalBuffer t buffer max = Ok (true, map fst D) /\
    show (packets_of t) (concat (map snd D)) /\
    Forall (fun d => 0 < zlen (fst d) <= max /\ read_as (fst d) (snd d)) D.
Proof.
  cbv zeta. intros Mx M4 Rp F So. set (max := zlen buffer) in *. unfold BuildExternalBuffer.
  destruct (tree_created max Mx M4 t (new_Writer buffer) [] [] Rp F (holds_new max buffer eq_refl)) as [(w & D & cur & es & -> & H & S & T & P)|(_ & S)].
  2: { exfalso. exact (show_something _ _ Rp S So eq_refl). }
  cbn [bind negb]. destruct (holds_flushed max w D cur H ltac:(lia)) as (-> & H' & Tf).
  exists (D ++ [(written w, cur)]). destruct H' as [_ _ R Fd _]. cbn [ready] in *. rewrite R. split; [reflexivity|].
  unfold total in T, Tf. rewrite app_nil_r in Tf. rewrite Tf, T. split; [exact S|].
  eapply Forall_impl; [|exact Fd]. intros d (Bl & N & L). split; [pose proof (nonempty_zlen _ N); lia|]. now apply block_read.
Qed.

(** Fields of a concrete packet are in their ranges. *)
Ltac fields_ok := repeat first
  [ lazymatch goal with |- _ /\ _ => split | |- Forall _ _ => constructor | |- _ <= _ => vm_compute; discriminate
                        | |- _ < _ => reflexivity | |- @eq _ _ _ => reflexivity | |- _ <> _ => discriminate | |- True => exact I end
  | progress red ].

(** A receiver report, a name, three lost packets, a rate and a message of an
    application, for buffers of 64 bytes. *)
Definition sample_tree : Packet :=
  mk_Packet (P_ReceiverReport (mk_ReceiverReport 1 [mk_ReportBlock 2 3 70000 5 6 7 8]))
    [mk_Packet P_CompoundPacket [mk_Packet (P_Sdes (mk_Sdes [mk_Chunk 1 [97; 98; 99] 3])) [];
       mk_Packet (P_Nack (mk_Nack (mk_Feedback 1 2) [mk_PackedNack 10 5; mk_PackedNack 65530 0; mk_PackedNack 500 65535] [])) []];
     mk_Packet (P_Remb (mk_Remb (mk_Feedback 1 0) (mk_REMBItem 1000001 2 [2; 9]))) [];
     mk_Packet (P_App (mk_App 7 1 2 [1; 2; 3; 4; 5; 6; 7; 8])) []].

Lemma build_is_read_witness : exists D : list delivery, BuildExternalBuffer sample_tree (zeros 64) (zlen (zeros 64)) = Ok (true, map fst D) /\
  show (packets_of sample_tree) (concat (map snd D)) /\
  Forall (fun d => 0 < zlen (fst d) <= zlen (zeros 64) /\ read_as (fst d) (snd d)) D.
Proof.
  apply (build_is_read sample_tree (zeros 64)).
  - vm_compute. split; congruence.
  - reflexivity.
  - repeat (constructor; [fields_ok|]). constructor.
  - cbn [packets_of sample_tree map concat app]. repeat (constructor; [vm_compute; solve [exact I | congruence]|]). constructor.
  - eexists. split; [now left|discriminate].
Defined.

(** Its buffers: the NACK is in the first two of them. *)
Example sample_buffers : option_map (fun r => map zlen (snd r)) (match BuildExternalBuffer sample_tree (zeros 64) 64 with Ok r => Some r | _ => None end) =
  Some [64; 48; 20].
Proof. vm_compute. reflexivity. Qed.

(** The padding of a feedback message is not counted when room is made: in 23
    bytes, one short of the words, the builder writes past the buffer. *)
Example padding_overruns : exists f, feed (started 1 2 0 10 0) [(10, 0)] = Ok (true, f) /\
  BlockLength (P_TransportFeedback f) = 23 /\
  BuildExternalBuffer (mk_Packet (P_TransportFeedback f) []) (zeros 23) 23 = Oob.
Proof. eexists. split; [vm_compute; reflexivity|]. split; vm_compute; reflexivity. Qed.

End RtcpCompound.
