(* ===== verification/RtcpProcessor.v ===== *)
(** * The RTCP processor of a transport

    Models src/orbit/rtp/rtcp_processor.cc and rtcp_processor.h: what a transport
    does with the RTP and the RTCP packets it receives, on top of the sender and
    the receiver of reports, the NACK and the REMB processors, the parsers, the
    estimators and the network status.  The estimator of the bitrate is used
    through its interface.  The clocks that are read, the buffers on the stack
    and the value of a variable that is not initialised are arguments; locks and
    logging are left out. *)

From Stdlib Require Import SpecFloat.
From S2P Require Import Prelude Wire Floats OrderedMap RtpHeaders JanusRtcp Nack Remb NtpTime NetworkStatus RtpExtensions RemoteBitrate RtcpReports RtcpParser Depacketize.
Import Wire Floats OrderedMap JanusRtcp.

Module RtcpProcessor.

Definition FIR_PLI_WAIT : Z := 1000.

(** ** The state *)

Record RTCPSenderInfo := mk_info {
  NTPseconds : Z;
  NTPfraction : Z;
  RTPtimeStamp : Z;
  sendPacketCount : Z;
  sendOctetCount : Z
}.

Record RtcpSyncContext := mk_sync {
  ntp_estimator_ : NtpTime.RemoteNtpTimeEstimator;
  _remoteSenderInfo : RTCPSenderInfo;
  _lastReceivedSRNTPsecs : Z;
  _lastReceivedSRNTPfrac : Z
}.
Definition new_RtcpSyncContext (now_ms : Z) : RtcpSyncContext :=
  mk_sync (NtpTime.new_RemoteNtpTimeEstimator now_ms) (mk_info 0 0 0 0 0) 0 0.

(** The NTP time and the timestamp of the last report; always true. *)
Definition RemoteNTP (c : RtcpSyncContext) : bool * (Z * Z * Z) :=
  (true, (NTPseconds (_remoteSenderInfo c), NTPfraction (_remoteSenderInfo c), RTPtimeStamp (_remoteSenderInfo c))).

Record RttContext := mk_rtt {
  RTT_ : Z;
  minRTT : Z;
  maxRTT : Z;
  avgRTT : Z;
  numAverageCalcs : Z
}.
Definition new_RttContext : RttContext := mk_rtt 0 0 0 0 0.

Record NackProcessor := mk_nack {
  retransmit_list_ : list Nack.RtpRetransmitPacket;
  receiver_ : Nack.receiver
}.
Definition new_NackProcessor : NackProcessor := mk_nack [] (Nack.mk_recv [] 0 true 0).
Definition set_receiver (n : NackProcessor) (r : Nack.receiver) : NackProcessor := mk_nack (retransmit_list_ n) r.
Definition set_get_fir (n : NackProcessor) : NackProcessor :=
  let r := receiver_ n in set_receiver n (Nack.mk_recv (Nack.last_seqs r) (Nack.fir_seq r) true (Nack.last_fir_request r)).

(** InitializeAudioAndVideoContext. *)
Definition new_rtcp_context (tb : Z) : rtcp_context := mk_ctx 0 0 0 0 0 f64_zero tb 0 0 0 0 0 0 0 0.

Section Processor.
Context {E : Type} `{RemoteBitrate.RemoteBitrateEstimator E}.

Record RtcpProcessor := mk_processor {
  rtcp_sender_ : RtcpReports.RtcpSender;
  rtcp_ctxs_ : option rtcp_context * option rtcp_context;
  audio_nack_processor_ : NackProcessor;
  default_video_nack_processor_ : NackProcessor;
  extended_video_nack_processors_ : map_t NackProcessor;
  remb_processor_ : Remb.RembProcessor;
  rtt_ctxs_ : map_t RttContext;
  video_sync_ctx_ : RtcpSyncContext;
  audio_sync_ctx_ : RtcpSyncContext;
  audio_remote_bitrate_estimator_ : E;
  video_remote_bitrate_estimator_ : E;
  network_status_ : NetworkStatus.NetworkStatus
}.

(** [before] is what RtcpSender::Init reads, [now_ms] what the extrapolators
    read; the fields of the REMB processor are not initialised. *)
Definition new_RtcpProcessor (before now_ms : Z) (remb : Remb.RembProcessor) (audio video : E) (st : NetworkStatus.NetworkStatus)
    : RtcpProcessor :=
  mk_processor (RtcpReports.Init before RtcpReports.new_RtcpSender) (Some (new_rtcp_context 48000), Some (new_rtcp_context 90000))
    new_NackProcessor new_NackProcessor [] remb [] (new_RtcpSyncContext now_ms) (new_RtcpSyncContext now_ms) audio video st.

(** *** The stores *)

Definition set_sender (s : RtcpProcessor) (x : RtcpReports.RtcpSender) : RtcpProcessor :=
  mk_processor x (rtcp_ctxs_ s) (audio_nack_processor_ s) (default_video_nack_processor_ s) (extended_video_nack_processors_ s)
    (remb_processor_ s) (rtt_ctxs_ s) (video_sync_ctx_ s) (audio_sync_ctx_ s) (audio_remote_bitrate_estimator_ s)
    (video_remote_bitrate_estimator_ s) (network_status_ s).
Definition set_ctxs (s : RtcpProcessor) (x : option rtcp_context * option rtcp_context) : RtcpProcessor :=
  mk_processor (rtcp_sender_ s) x (audio_nack_processor_ s) (default_video_nack_processor_ s) (extended_video_nack_processors_ s)
    (remb_processor_ s) (rtt_ctxs_ s) (video_sync_ctx_ s) (audio_sync_ctx_ s) (audio_remote_bitrate_estimator_ s)
    (video_remote_bitrate_estimator_ s) (network_status_ s).
Definition set_nacks (s : RtcpProcessor) (audio default : NackProcessor) (extended : map_t NackProcessor) : RtcpProcessor :=
  mk_processor (rtcp_sender_ s) (rtcp_ctxs_ s) audio default extended
    (remb_processor_ s) (rtt_ctxs_ s) (video_sync_ctx_ s) (audio_sync_ctx_ s) (audio_remote_bitrate_estimator_ s)
    (video_remote_bitrate_estimator_ s) (network_status_ s).
Definition set_remb (s : RtcpProcessor) (x : Remb.RembProcessor) : RtcpProcessor :=
  mk_processor (rtcp_sender_ s) (rtcp_ctxs_ s) (audio_nack_processor_ s) (default_video_nack_processor_ s)
    (extended_video_nack_processors_ s) x (rtt_ctxs_ s) (video_sync_ctx_ s) (audio_sync_ctx_ s)
    (audio_remote_bitrate_estimator_ s) (video_remote_bitrate_estimator_ s) (network_status_ s).
Definition set_rtts (s : RtcpProcessor) (x : map_t RttContext) : RtcpProcessor :=
  mk_processor (rtcp_sender_ s) (rtcp_ctxs_ s) (audio_nack_processor_ s) (default_video_nack_processor_ s)
    (extended_video_nack_processors_ s) (remb_processor_ s) x (video_sync_ctx_ s) (audio_sync_ctx_ s)
    (audio_remote_bitrate_estimator_ s) (video_remote_bitrate_estimator_ s) (network_status_ s).
Definition set_syncs (s : RtcpProcessor) (video audio : RtcpSyncContext) : RtcpProcessor :=
  mk_processor (rtcp_sender_ s) (rtcp_ctxs_ s) (audio_nack_processor_ s) (default_video_nack_processor_ s)
    (extended_video_nack_processors_ s) (remb_processor_ s) (rtt_ctxs_ s) video audio
    (audio_remote_bitrate_estimator_ s) (video_remote_bitrate_estimator_ s) (network_status_ s).
Definition set_estimators (s : RtcpProcessor) (audio video : E) : RtcpProcessor :=
  mk_processor (rtcp_sender_ s) (rtcp_ctxs_ s) (audio_nack_processor_ s) (default_video_nack_processor_ s)
    (extended_video_nack_processors_ s) (remb_processor_ s) (rtt_ctxs_ s) (video_sync_ctx_ s) (audio_sync_ctx_ s)
    audio video (network_status_ s).
Definition set_status (s : RtcpProcessor) (x : NetworkStatus.NetworkStatus) : RtcpProcessor :=
  mk_processor (rtcp_sender_ s) (rtcp_ctxs_ s) (audio_nack_processor_ s) (default_video_nack_processor_ s)
    (extended_video_nack_processors_ s) (remb_processor_ s) (rtt_ctxs_ s) (video_sync_ctx_ s) (audio_sync_ctx_ s)
    (audio_remote_bitrate_estimator_ s) (video_remote_bitrate_estimator_ s) x.

(** *** The beginning *)

Definition SetRemoteSdp (s : RtcpProcessor) (audio_ssrc video_ssrc : Z) : RtcpProcessor :=
  set_sender s (RtcpReports.SetRemoteSdp (rtcp_sender_ s) audio_ssrc video_ssrc).

Definition InitRttContextsWithSsrcs (s : RtcpProcessor) (ext_video_ssrcs : list Z) (default_video_ssrc default_audio_ssrc : Z)
    : RtcpProcessor :=
  let m := fold_left (fun m ssrc => store ssrc new_RttContext m) ext_video_ssrcs (rtt_ctxs_ s) in
  set_rtts s (store default_video_ssrc new_RttContext (store default_audio_ssrc new_RttContext m)).

Definition GenerateNackProcessorsByExtendedSsrcs (s : RtcpProcessor) (extended_video_ssrcs : list Z) : RtcpProcessor :=
  set_nacks s (audio_nack_processor_ s) (default_video_nack_processor_ s)
    (fold_left (fun m ssrc => store ssrc new_NackProcessor m) extended_video_ssrcs (extended_video_nack_processors_ s)).

(** [transport] is what the sender asks. *)
Definition InitWithSsrcs (transport : RtcpReports.TransportDelegate) (s : RtcpProcessor) (extended_video_ssrcs : list Z)
    (default_video_ssrc default_audio_ssrc : Z) : RtcpProcessor :=
  let s := GenerateNackProcessorsByExtendedSsrcs s extended_video_ssrcs in
  let s := InitRttContextsWithSsrcs s extended_video_ssrcs default_video_ssrc default_audio_ssrc in
  set_sender s (RtcpReports.InitSrSendHistories transport (rtcp_sender_ s) extended_video_ssrcs).

Definition GetRttContext (s : RtcpProcessor) (ssrc : Z) : option RttContext := find ssrc (rtt_ctxs_ s).

Definition RTT (s : RtcpProcessor) (ssrc : Z) : option (Z * Z * Z * Z) :=
  match GetRttContext s ssrc with
  | None => None
  | Some c => Some (RTT_ c, avgRTT c, minRTT c, maxRTT c)
  end.

(** The NACK processor of a source, and its store. *)
Definition GetNackProcessor (s : RtcpProcessor) (media_ssrc : Z) : NackProcessor :=
  match find media_ssrc (extended_video_nack_processors_ s) with
  | Some n => n
  | None => default_video_nack_processor_ s
  end.
Definition put_nack_processor (s : RtcpProcessor) (media_ssrc : Z) (n : NackProcessor) : RtcpProcessor :=
  match find media_ssrc (extended_video_nack_processors_ s) with
  | Some _ => set_nacks s (audio_nack_processor_ s) (default_video_nack_processor_ s)
                (store media_ssrc n (extended_video_nack_processors_ s))
  | None => set_nacks s (audio_nack_processor_ s) n (extended_video_nack_processors_ s)
  end.
Definition put_audio_nack (s : RtcpProcessor) (n : NackProcessor) : RtcpProcessor :=
  set_nacks s n (default_video_nack_processor_ s) (extended_video_nack_processors_ s).

(** ** Reports *)

(** What the clocks answer while an item is handled: the NTP time, the time in
    milliseconds the network status reads first and then, that of the
    extrapolator, and the two of the NACK processor. *)
Record moment := mk_moment {
  ntp_now : Z * Z;
  status_ms : Z;
  status_ms' : Z;
  extrapolator_ms : Z;
  nack_ms : Z;
  nack_ms' : Z
}.

Definition is_media (t : Nack.packetType) : bool :=
  match t with Nack.VIDEO_PACKET | Nack.AUDIO_PACKET => true | _ => false end.

Definition sync_of (s : RtcpProcessor) (t : Nack.packetType) : RtcpSyncContext :=
  match t with Nack.VIDEO_PACKET => video_sync_ctx_ s | _ => audio_sync_ctx_ s end.
Definition put_sync (s : RtcpProcessor) (t : Nack.packetType) (c : RtcpSyncContext) : RtcpProcessor :=
  match t with Nack.VIDEO_PACKET => set_syncs s c (audio_sync_ctx_ s) | _ => set_syncs s (video_sync_ctx_ s) c end.

(** The report is at the front of [buf]. *)
Definition UpdateRemoteNTPEstimator (now : moment) (s : RtcpProcessor) (packet_type : Nack.packetType) (buf : list Z)
    : res RtcpProcessor :=
  if negb (is_media packet_type) then Ok s
  else
    let! secs := be32 buf 8 in
    let! frac := be32 buf 12 in
    let! ts := be32 buf 16 in
    let! packets := RtpHeaders.getPacketsSent buf in
    let! octets := RtpHeaders.getOctetsSent buf in
    let (last_secs, last_frac) := ntp_now now in
    let c := mk_sync (ntp_estimator_ (sync_of s packet_type)) (mk_info secs frac ts packets octets) last_secs last_frac in
    let rtt := NetworkStatus.GetLastestRttOfSsrcs (network_status_ s) in
    if rtt =? 0 then Ok (put_sync s packet_type c)
    else
      let (_, e) := NtpTime.UpdateRtcpTimestamp (extrapolator_ms now) (ntp_estimator_ c) rtt secs frac ts in
      Ok (put_sync s packet_type (mk_sync e (_remoteSenderInfo c) last_secs last_frac)).

Definition HandleSenderReport := UpdateRemoteNTPEstimator.

(** The delay since the last report, in 1/65536 s, in milliseconds. *)
Definition delay_ms (delaySinceLastSendReport : Z) : Z :=
  let d := u32 (Z.land delaySinceLastSendReport 0x0000ffff * 1000) / 65536 in
  u32 (d + u32 (Z.shiftr (Z.land delaySinceLastSendReport 0xffff0000) 16 * 1000)).

(** The context with one more measurement. *)
Definition measured (c : RttContext) (rtt : Z) : RttContext :=
  let rtt := if rtt <=? 0 then 1 else rtt in
  let max := if maxRTT c <? rtt then rtt else maxRTT c in
  let min := if minRTT c =? 0 then rtt else if rtt <? minRTT c then rtt else minRTT c in
  let avg :=
    if negb (numAverageCalcs c =? 0) then
      let ac := f32_of_Z (numAverageCalcs c) in
      let one := f32_of_Z 1 in
      let newAverage :=
        f32_add (f32_mul (f32_div ac (f32_add ac one)) (f32_of_Z (avgRTT c))) (f32_mul (f32_div one (f32_add ac one)) (f32_of_Z rtt)) in
      to_s64 (f32_add newAverage f32_half)
    else rtt in
  mk_rtt rtt min max avg (u32 (numAverageCalcs c + 1)).

Definition UpdateRTT (now : moment) (s : RtcpProcessor) (buf : list Z) (local_ssrc : Z) : res RtcpProcessor :=
  let! t := RtpHeaders.getPacketType buf in
  if negb (t =? RtpHeaders.RTCP_Receiver_PT) then Ok s
  else
    let! delaySinceLastSendReport := RtpHeaders.getDelaySinceLastSr buf in
    let! last_sr := RtpHeaders.getLastSr buf in
    let sendTimeMS := RtcpReports.GetSendTimeOfSendReport (rtcp_sender_ s) last_sr local_ssrc in
    let d := delay_ms delaySinceLastSendReport in
    let receiveTimeMS := NtpTime.NtpToMs (fst (ntp_now now)) (snd (ntp_now now)) in
    match GetRttContext s local_ssrc with
    | None => Ok s
    | Some c =>
        if 0 <? sendTimeMS then
          Ok (set_rtts s (store local_ssrc (measured c (s64 (s64 (receiveTimeMS - d) - sendTimeMS))) (rtt_ctxs_ s)))
        else Ok s
    end.

(** [rtt0] is what the variable holds when no source is found. *)
Definition HandleReceiverReport (now : moment) (rtt0 : Z) (s : RtcpProcessor) (packet_type : Nack.packetType) (buf : list Z)
    : res RtcpProcessor :=
  let! local_ssrc := RtpHeaders.getSourceSSRC buf in
  let! cumulative_lost := RtpHeaders.getLostPackets buf in
  let! highest_seqnumber := RtpHeaders.getHighestSeqnum buf in
  let! jitter := RtpHeaders.getJitter buf in
  let! s := UpdateRTT now s buf local_ssrc in
  let rtt := match RTT s local_ssrc with Some (rtt, _, _, _) => rtt | None => rtt0 end in
  let st := NetworkStatus.UpdateRTT (status_ms now) (network_status_ s) rtt local_ssrc in
  let st :=
    if is_media packet_type then
      let video := match packet_type with Nack.VIDEO_PACKET => true | _ => false end in
      let st := NetworkStatus.UpdateJitters st NetworkStatus.CLIENT_REPORT video jitter local_ssrc in
      NetworkStatus.StatisticSendFractionLost (status_ms' now) st highest_seqnumber cumulative_lost local_ssrc
    else st in
  Ok (set_status s st).

Definition HandleSDES (packet_type : Nack.packetType) (buf : list Z) : res Z := RtpHeaders.getSSRC_rtcp buf.

Definition GetRtpfbNackMediaSSRC (buf : list Z) (len : Z) : res Z := janus_rtcp_get_fbnack_media_ssrc (Some buf) len.

Definition HandleNackItem (now : moment) (s : RtcpProcessor) (packet_type : Nack.packetType) (buf : list Z) (len : Z)
    : res (RtcpProcessor * list Nack.dataPacket) :=
  let process (n : NackProcessor) (put : NackProcessor -> RtcpProcessor) :=
    let! nacks_count := Nack.GetRtcpNackPackets buf len in
    if negb (nacks_count =? 0) then
      let! (l, _, sent) := Nack.ProcessRtcpNackPackets (nack_ms now) (nack_ms' now) (retransmit_list_ n) buf len in
      let s := put (mk_nack l (receiver_ n)) in
      Ok (set_status s (NetworkStatus.IncreaseNackCount (network_status_ s) false), sent)
    else Ok (s, []) in
  match packet_type with
  | Nack.VIDEO_PACKET =>
      let! media_ssrc := GetRtpfbNackMediaSSRC buf len in
      process (GetNackProcessor s media_ssrc) (put_nack_processor s media_ssrc)
  | Nack.AUDIO_PACKET => process (audio_nack_processor_ s) (put_audio_nack s)
  | _ => Ok (s, [])
  end.

(** ** Incoming RTCP packets *)

(** The types that have a case in the switch. *)
Definition listed (t : RtcpParser.RTCPPacketTypes) : bool :=
  match t with
  | RtcpParser.kReportBlockItem | RtcpParser.kSdesChunk | RtcpParser.kExtendedIjItem | RtcpParser.kPsfbSliItem
  | RtcpParser.kPsfbRemb | RtcpParser.kPsfbRembItem | RtcpParser.kRtpfbTmmbrItem | RtcpParser.kRtpfbTmmbnItem
  | RtcpParser.kPsfbFirItem | RtcpParser.kXrDlrrReportBlockItem | RtcpParser.kInvalid => false
  | _ => true
  end.

(** The case of the switch: what is done before the parser goes on. *)
Definition HandleItem (now : moment) (rtt0 : Z) (s : RtcpProcessor) (packet_type : Nack.packetType) (buf : list Z) (len : Z)
    (t : RtcpParser.RTCPPacketTypes) : res (RtcpProcessor * list Nack.dataPacket) :=
  match t with
  | RtcpParser.kSr => let! s := HandleSenderReport now s packet_type buf in Ok (s, [])
  | RtcpParser.kRr => let! s := HandleReceiverReport now rtt0 s packet_type buf in Ok (s, [])
  | RtcpParser.kSdes => let! _ := HandleSDES packet_type buf in Ok (s, [])
  | RtcpParser.kRtpfbNack | RtcpParser.kRtpfbNackItem => HandleNackItem now s packet_type buf len
  | _ => Ok (s, [])
  end.

(** The loop; [k] counts its rounds.  An item that has no case lets the parser
    go on twice. *)
Fixpoint process_items (fuel : nat) (now : nat -> moment) (rtt0 : nat -> Z) (k : nat) (packet_type : Nack.packetType)
    (buf : list Z) (len : Z) (parser : RtcpParser.RTCPParserV2) (s : RtcpProcessor) : res (RtcpProcessor * list Nack.dataPacket) :=
  let p := slice buf 0 len in
  match fuel with
  | O => NoFuel
  | S n =>
      match RtcpParser.PacketType parser with
      | RtcpParser.kInvalid => Ok (s, [])
      | t =>
          let! (s, sent) := HandleItem (now k) (rtt0 k) s packet_type buf len t in
          let! parser := if listed t then Ok parser else RtcpParser.Iterate p fuel parser in
          let! parser := RtcpParser.Iterate p fuel parser in
          let! (s, sent') := process_items n now rtt0 (S k) packet_type buf len parser s in
          Ok (s, sent ++ sent')
      end
  end.

(** [buf] is the memory that begins with the [len] bytes of the packet;
    [ctx_now] is the time janus_rtcp_parse reads. *)
Definition RtcpProcessIncomingRtcp (fuel : nat) (now : nat -> moment) (rtt0 : nat -> Z) (ctx_now : Z) (s : RtcpProcessor)
    (packet_type : Nack.packetType) (buf : list Z) (len : Z) : res (RtcpProcessor * list Nack.dataPacket) :=
  let p := slice buf 0 len in
  let! parser := RtcpParser.new_RTCPParserV2 p true in
  if negb (RtcpParser.IsValid parser) then Ok (s, [])
  else
    let! parser := RtcpParser.Begin p fuel parser in
    let! (s, sent) := process_items fuel now rtt0 0 packet_type buf len parser s in
    let! ctxs := RtcpReports.RtcpProcessIncomingRtcp ctx_now (rtcp_ctxs_ s) packet_type buf len in
    Ok (set_ctxs s ctxs, sent).

(** ** Incoming RTP packets *)

(** The clocks: [getTimeMS], the one janus_rtcp_process_incoming_rtp reads, the
    three of the NTP estimator, and those of the estimator of the bitrate. *)
Record rtp_moment := mk_rtp_moment {
  fir_ms : Z;
  rtp_us : Z;
  ntp_times : Z * Z * Z;
  arrival_ms : Z;
  estimator_ms : Z;
  until_ms : Z;
  process_times : Z * Z * Z
}.

Definition EstimateRemoteNTPTimeMS (times : Z * Z * Z) (s : RtcpProcessor) (packet_type : Nack.packetType) (timestamp : Z)
    : Z * RtcpProcessor :=
  if negb (is_media packet_type) then (-1, s)
  else
    let '(ntp_now, now, now') := times in
    let c := sync_of s packet_type in
    let (t, e) := NtpTime.Estimate ntp_now now now' (ntp_estimator_ c) timestamp in
    (t, put_sync s packet_type (mk_sync e (_remoteSenderInfo c) (_lastReceivedSRNTPsecs c) (_lastReceivedSRNTPfrac c))).

(** Key frames are noted, and asked for again after a second; [stack] is the
    rest of the packet on the stack. *)
Definition watch_key_frames (now_ms : Z) (stack : list Z) (s : RtcpProcessor) (buf : list Z) (len : Z)
    : res (RtcpProcessor * list Nack.dataPacket) :=
  let! packet := Nack.data_packet Nack.VIDEO_PACKET buf len in
  let! ssrc := RtpHeaders.getSSRC buf in
  let n := GetNackProcessor s ssrc in
  let! (_, key) := Depacketize.IsKeyFramePacket (Nack.p_data packet ++ stack) len in
  if (key : bool) then Ok (put_nack_processor s ssrc (set_get_fir n), [])
  else
    let r := receiver_ n in
    if negb (Nack.get_fir r) && (FIR_PLI_WAIT <? now_ms - Nack.last_fir_request r) then
      let! (seq, sent) := Nack.SendFirPacket (Nack.fir_seq r) in
      Ok (put_nack_processor s ssrc (set_receiver n (Nack.mk_recv (Nack.last_seqs r) seq (Nack.get_fir r) now_ms)), sent)
    else Ok (s, []).

(** The packet and its header go to the estimator, which is asked whether it is
    time to process. *)
Definition feed_estimator (now : rtp_moment) (e : E) (len : Z) (h : RtpExtensions.RTPHeader) : res (E * list RemoteBitrate.change) :=
  let! (e, told) :=
    RemoteBitrate.IncomingPacket (estimator_ms now) (arrival_ms now) (u64 (len - RtpExtensions.headerLength h)) h false e in
  if RemoteBitrate.TimeUntilNextProcess (until_ms now) e <=? 0 then
    let! (e, told') := RemoteBitrate.Process (process_times now) e in
    Ok (e, told ++ told')
  else Ok (e, told).

(** The parser of the headers has no extension registered. *)
Definition RtcpProcessIncomingRtp (now : rtp_moment) (stack : list Z) (max_nack_queue : Z) (s : RtcpProcessor)
    (packet_type : Nack.packetType) (buf : list Z) (len : Z)
    : res (RtcpProcessor * list Nack.dataPacket * list RemoteBitrate.change) :=
  let! (s, sent) :=
    match packet_type with
    | Nack.VIDEO_PACKET => watch_key_frames (fir_ms now) stack s buf len
    | _ => Ok (s, [])
    end in
  let! ctxs := RtcpReports.RtcpProcessIncomingRtp (rtp_us now) max_nack_queue (rtcp_ctxs_ s) packet_type buf len in
  let s := set_ctxs s ctxs in
  let! (_, h) := RtpExtensions.RtpHeaderParserImpl_Parse [] buf len in
  let (_, s) := EstimateRemoteNTPTimeMS (ntp_times now) s packet_type (RtpExtensions.timestamp h) in
  match packet_type with
  | Nack.VIDEO_PACKET =>
      let! (e, told) := feed_estimator now (video_remote_bitrate_estimator_ s) len h in
      Ok (set_estimators s (audio_remote_bitrate_estimator_ s) e, sent, told)
  | Nack.AUDIO_PACKET =>
      let! (e, told) := feed_estimator now (audio_remote_bitrate_estimator_ s) len h in
      Ok (set_estimators s e (video_remote_bitrate_estimator_ s), sent, told)
  | _ => Ok (s, sent, [])
  end.

(** ** Sending *)

Definition SendRTCP (s : RtcpProcessor) (rtcp_type : Z) (media_type : Nack.packetType) (rtcp_buf : list Z) (len : Z)
    : res (list Nack.dataPacket) := RtcpReports.SendRTCP rtcp_type media_type rtcp_buf len.

Section Nacks.
(** [g_slist_sort] of glib, as in the NACK processor. *)
Variable g_slist_sort : (Z -> Z -> Z) -> list Z -> list Z.

(** The NACK message of a processor goes through [SendRTCP]. *)
Definition nack_by_condition (now now_ms : Z) (fir_flag locked : bool) (nackbuf : list Z) (s : RtcpProcessor) (n : NackProcessor)
    (t : Nack.packetType) (seqnumber : Z) : res (Z * NackProcessor * list Nack.dataPacket) :=
  let! (size, r, pkts, messages) := Nack.SendNackByCondition g_slist_sort now now_ms fir_flag locked (receiver_ n) seqnumber nackbuf in
  let! sent :=
    match messages with
    | m :: _ => SendRTCP s RtpHeaders.RTCP_RTP_Feedback_PT t m size
    | [] => Ok []
    end in
  Ok (size, set_receiver n r, pkts ++ sent).

(** Both count a NACK of the sender. *)
Definition SendVideoNackByCondition (now now_ms : Z) (fir_flag locked : bool) (nackbuf : list Z) (s : RtcpProcessor)
    (ssrc seqnumber : Z) : res (RtcpProcessor * list Nack.dataPacket) :=
  let! (size, n, sent) :=
    nack_by_condition now now_ms fir_flag locked nackbuf s (GetNackProcessor s ssrc) Nack.VIDEO_PACKET seqnumber in
  let s := put_nack_processor s ssrc n in
  Ok (if negb (size =? 0) then set_status s (NetworkStatus.IncreaseNackCount (network_status_ s) true) else s, sent).

Definition SendAudioNackByCondition (now now_ms : Z) (fir_flag locked : bool) (nackbuf : list Z) (s : RtcpProcessor)
    (seqnumber : Z) : res (RtcpProcessor * list Nack.dataPacket) :=
  let! (size, n, sent) :=
    nack_by_condition now now_ms fir_flag locked nackbuf s (audio_nack_processor_ s) Nack.AUDIO_PACKET seqnumber in
  let s := put_audio_nack s n in
  Ok (if negb (size =? 0) then set_status s (NetworkStatus.IncreaseNackCount (network_status_ s) true) else s, sent).
End Nacks.

(** [memcpy(rbuf, buf, len)] of the packet that is kept. *)
Definition push (now_ms : Z) (n : NackProcessor) (buf : list Z) (len : Z) : res NackProcessor :=
  if (0 <=? len) && (len <=? zlen buf) then
    let! l := Nack.PushPacket now_ms (retransmit_list_ n) (slice buf 0 len) in Ok (mk_nack l (receiver_ n))
  else Oob.

Definition NackPushVideoPacket (now_ms : Z) (s : RtcpProcessor) (buf : list Z) (len : Z) : res RtcpProcessor :=
  let! ssrc := RtpHeaders.getSSRC buf in
  let! n := push now_ms (GetNackProcessor s ssrc) buf len in Ok (put_nack_processor s ssrc n).

Definition NackPushAudioPacket (now_ms : Z) (s : RtcpProcessor) (buf : list Z) (len : Z) : res RtcpProcessor :=
  let! n := push now_ms (audio_nack_processor_ s) buf len in Ok (put_audio_nack s n).

(** ** The bitrate *)

Definition SendRembPacket (rtcpbuf : list Z) (s : RtcpProcessor) (bitrate : Z) : res Nack.dataPacket :=
  Remb.SendRembPacket rtcpbuf bitrate.

Definition UpdateBitrate (s : RtcpProcessor) (bitrate : Z) : RtcpProcessor := set_remb s (Remb.SetBitrate (remb_processor_ s) bitrate).

Definition SlowLinkUpdate (rtcpbuf : list Z) (s : RtcpProcessor) (nacks video uplink now : Z)
    : res (RtcpProcessor * list Nack.dataPacket) :=
  let! (r, built) := Remb.SlowLinkUpdate rtcpbuf (remb_processor_ s) nacks video uplink now in
  Ok (set_remb s r, built).

(** The sources and the bitrate of each when there is an estimate. *)
Definition GetBitrateEstimate (s : RtcpProcessor) (packet_type : Nack.packetType) : option (list Z * Z) :=
  let estimate (e : E) :=
    match RemoteBitrate.LatestEstimate e with
    | None => None
    | Some (ssrcs, bitrate) => Some (ssrcs, match ssrcs with [] => bitrate | _ => bitrate / zlen ssrcs end)
    end in
  match packet_type with
  | Nack.VIDEO_PACKET => estimate (video_remote_bitrate_estimator_ s)
  | Nack.AUDIO_PACKET => estimate (audio_remote_bitrate_estimator_ s)
  | _ => None
  end.
End Processor.
Arguments RtcpProcessor E : clear implicits.

(** ** Round trips *)

Lemma delay_ms_exact d : in_u32 d -> delay_ms d = d * 1000 / 65536.
Proof.
  intros D. unfold delay_ms. change 0x0000ffff with (2 ^ 16 - 1). rewrite land_ones_mod by lia.
  assert (E : Z.shiftr (Z.land d 0xffff0000) 16 = d / 65536).
  { rewrite Z.shiftr_land. change (Z.shiftr 0xffff0000 16) with (2 ^ 16 - 1). rewrite land_ones_mod, shiftr_div by lia.
    change (2 ^ 16) with 65536. apply Z.mod_small. unfold in_u32 in D. dlia. }
  rewrite E. change (2 ^ 16) with 65536. int_lia.
Qed.

(** The measurements of a source: none, or the last one is between the least and
    the largest. *)
Definition rtt_ok (c : RttContext) : Prop :=
  (minRTT c = 0 /\ maxRTT c = 0) \/ (0 < minRTT c /\ minRTT c <= RTT_ c <= maxRTT c).

Lemma measured_ok c rtt : rtt_ok c ->
  let c' := measured c rtt in RTT_ c' = Z.max 1 rtt /\ 0 < minRTT c' <= Z.max 1 rtt /\ Z.max 1 rtt <= maxRTT c' /\ rtt_ok c'.
Proof.
  unfold rtt_ok. intros H. cbn [measured RTT_ minRTT maxRTT].
  replace (if rtt <=? 0 then 1 else rtt) with (Z.max 1 rtt) by (destruct (Z.leb_spec rtt 0); lia). set (r := Z.max 1 rtt) in *.
  assert (R : 1 <= r) by lia. destruct (Z.ltb_spec (maxRTT c) r); destruct (Z.eqb_spec (minRTT c) 0); destruct (Z.ltb_spec r (minRTT c)); lia.
Qed.

Section RoundTrip.
Context {E : Type} `{RemoteBitrate.RemoteBitrateEstimator E}.

Lemma UpdateRTT_measures now (s : RtcpProcessor E) buf ssrc c t :
  bytes buf -> 32 <= zlen buf -> rd buf 1 = RtpHeaders.RTCP_Receiver_PT ->
  GetRttContext s ssrc = Some c -> RtcpReports.GetSendTimeOfSendReport (rtcp_sender_ s) (b32 buf 24) ssrc = t -> 0 < t < 2 ^ 62 ->
  0 <= NtpTime.NtpToMs (fst (ntp_now now)) (snd (ntp_now now)) < 2 ^ 62 ->
  UpdateRTT now s buf ssrc =
    Ok (set_rtts s (store ssrc (measured c (NtpTime.NtpToMs (fst (ntp_now now)) (snd (ntp_now now)) - b32 buf 28 * 1000 / 65536 - t)) (rtt_ctxs_ s))).
Proof.
  intros B L T C Ts Tr Nr. unfold UpdateRTT, RtpHeaders.getPacketType, RtpHeaders.getDelaySinceLastSr, RtpHeaders.getLastSr.
  rewrite byte_ok, !be32_ok, T by lia. cbn [bind]. rewrite Z.eqb_refl. cbn [negb]. rewrite C, Ts.
  replace (0 <? t) with true by lia. assert (D : in_u32 (b32 buf 28)) by now apply b32_range.
  rewrite delay_ms_exact by assumption.
  assert (0 <= b32 buf 28 * 1000 / 65536 < 2 ^ 32) by (unfold in_u32 in D; dlia).
  rewrite (s64_id (_ - _ / _)) by (unfold in_s64; lia). rewrite s64_id by (unfold in_s64; lia). reflexivity.
Qed.

(** The counting of the losses and of the jitter leaves the round trips. *)
Lemma report_counted now t (st : NetworkStatus.NetworkStatus) rtt ssrc jitter highest lost : sorted (NetworkStatus.map_rtt_status_ st) ->
  let st1 := NetworkStatus.UpdateRTT (status_ms now) st rtt ssrc in
  let st2 :=
    if is_media t then
      NetworkStatus.StatisticSendFractionLost (status_ms' now)
        (NetworkStatus.UpdateJitters st1 NetworkStatus.CLIENT_REPORT (match t with Nack.VIDEO_PACKET => true | _ => false end) jitter ssrc)
        highest lost ssrc
    else st1 in
  find ssrc (NetworkStatus.map_rtt_status_ st2) =
    option_map (fun r => NetworkStatus.UpdateRTT_status (status_ms now) r rtt) (find ssrc (NetworkStatus.map_rtt_status_ st)).
Proof.
  intros Sm. cbv zeta. set (st1 := NetworkStatus.UpdateRTT _ _ _ _).
  assert (E1 : find ssrc (NetworkStatus.map_rtt_status_ st1) =
    option_map (fun r => NetworkStatus.UpdateRTT_status (status_ms now) r rtt) (find ssrc (NetworkStatus.map_rtt_status_ st))).
  { unfold st1, NetworkStatus.UpdateRTT. destruct (find ssrc (NetworkStatus.map_rtt_status_ st)) as [r|] eqn:F; [|exact F].
    cbn [NetworkStatus.set_rtts NetworkStatus.map_rtt_status_ option_map]. rewrite find_store, Z.eqb_refl by assumption. reflexivity. }
  destruct (is_media t); [|exact E1]. rewrite <- E1. f_equal.
  set (v := match t with Nack.VIDEO_PACKET => true | _ => false end). clearbody v. unfold NetworkStatus.StatisticSendFractionLost.
  assert (J : NetworkStatus.map_rtt_status_ (NetworkStatus.UpdateJitters st1 NetworkStatus.CLIENT_REPORT v jitter ssrc) = NetworkStatus.map_rtt_status_ st1)
    by now destruct v.
  destruct (find ssrc (NetworkStatus.map_send_packets_status_ _)); [|exact J]. unfold NetworkStatus.UpdateTotalSendFractionLost. destruct (NetworkStatus.sent_totals _) as [[a b] d]. exact J.
Qed.

(** C8. A receiver report that answers one of the last sixty sender reports of
    a source is measured as the time between them less the delay at the
    receiver, at least a millisecond, whatever other sources sent between; the
    measurements of the other sources stay, and the network status is told. *)
Theorem rtt_measured now rtt0 (s : RtcpProcessor E) s0 sent t buf k sec frac c :
  let ssrc := b32 buf 8 in
  let l := RtcpReports.of_source ssrc sent in
  let name '(sec, frac) := RtcpReports.middle sec frac in
  let received := NtpTime.NtpToMs (fst (ntp_now now)) (snd (ntp_now now)) in
  let rtt := Z.max 1 (received - b32 buf 28 * 1000 / 65536 - NtpTime.NtpToMs sec frac) in
  let status s := find ssrc (NetworkStatus.map_rtt_status_ (network_status_ s)) in
  rtcp_sender_ s = RtcpReports.record sent s0 -> sorted (RtcpReports.sr_send_histories_ s0) ->
  find ssrc (RtcpReports.sr_send_histories_ s0) = Some RtcpReports.new_SrSendHistory ->
  sorted (rtt_ctxs_ s) -> GetRttContext s ssrc = Some c -> rtt_ok c -> sorted (NetworkStatus.map_rtt_status_ (network_status_ s)) ->
  nth_error l k = Some (sec, frac) -> (k < 60)%nat -> RtcpReports.middle sec frac <> 0 -> map name (firstn 1 l) <> [0] ->
  ~ In (RtcpReports.middle sec frac) (map name (firstn k l)) ->
  bytes buf -> 32 <= zlen buf -> rd buf 1 = RtpHeaders.RTCP_Receiver_PT -> b32 buf 24 = RtcpReports.middle sec frac ->
  0 < NtpTime.NtpToMs sec frac < 2 ^ 62 -> 0 <= received < 2 ^ 62 ->
  exists s' avg min max, HandleReceiverReport now rtt0 s t buf = Ok s' /\ RTT s' ssrc = Some (rtt, avg, min, max) /\
    0 < min <= rtt /\ rtt <= max /\ (forall other, other <> ssrc -> RTT s' other = RTT s other) /\
    status s' = option_map (fun r => NetworkStatus.UpdateRTT_status (status_ms now) r rtt) (status s).
Proof.
  cbv zeta. intros Se Sh Fh Sr C Ok_c Sn K K60 NZ NF D B L T Last Tr Nr.
  assert (G : RtcpReports.GetSendTimeOfSendReport (rtcp_sender_ s) (b32 buf 24) (b32 buf 8) = NtpTime.NtpToMs sec frac)
    by (rewrite Last, Se; now apply (RtcpReports.report_found sent s0 (b32 buf 8) RtcpReports.new_SrSendHistory k)).
  pose proof (UpdateRTT_measures now s buf (b32 buf 8) c _ B L T C G Tr Nr) as U. destruct (measured_ok c
    (NtpTime.NtpToMs (fst (ntp_now now)) (snd (ntp_now now)) - b32 buf 28 * 1000 / 65536 - NtpTime.NtpToMs sec frac) Ok_c) as (M1 & M2 & M3 & _).
  set (m := measured c _) in *. unfold HandleReceiverReport, RtpHeaders.getSourceSSRC, RtpHeaders.getLostPackets, RtpHeaders.be24,
    RtpHeaders.getHighestSeqnum, RtpHeaders.getJitter.
  rewrite !be32_ok, byte_ok, be16_ok by lia. cbn [bind]. rewrite U. cbn [bind]. set (s1 := set_rtts s _).
  assert (R1 : RTT s1 (b32 buf 8) = Some (RTT_ m, avgRTT m, minRTT m, maxRTT m)).
  { unfold RTT, GetRttContext, s1. cbn [set_rtts rtt_ctxs_]. rewrite find_store, Z.eqb_refl by assumption. reflexivity. }
  rewrite R1. eexists _, (avgRTT m), (minRTT m), (maxRTT m). split; [reflexivity|]. rewrite <- M1. split; [exact R1|].
  split; [lia|]. split; [lia|]. split.
  - intros other O. unfold RTT, GetRttContext, s1. cbn [set_status set_rtts rtt_ctxs_]. rewrite find_store by assumption.
    now replace (other =? b32 buf 8) with false by lia.
  - exact (report_counted now t (network_status_ s) (RTT_ m) (b32 buf 8) (b32 buf 20) (b32 buf 16) _ Sn).
Qed.
End RoundTrip.

(** ** An example *)

Definition sample_history : RtcpReports.RtcpSender :=
  RtcpReports.set_histories RtcpReports.new_RtcpSender [(7, RtcpReports.new_SrSendHistory); (9, RtcpReports.new_SrSendHistory)].
Definition sample_sent : list (Z * (Z * Z)) := [(9, (101, 0)); (7, (100, 0x80000000)); (9, (100, 5)); (7, (99, 0))].
Definition sample_report : list Z :=
  [0x81; 201; 0; 7; 0; 0; 0; 5; 0; 0; 0; 7; 12; 0; 0; 3; 0; 0; 4; 0; 0; 0; 0; 9; 0; 100; 128; 0; 0; 0; 128; 0].
Definition sample_moment : moment := mk_moment (101, 0x40000000) 5000 5000 5000 5000 5000.

Section Sample.
Local Instance sample_estimator : RemoteBitrate.RemoteBitrateEstimator RemoteBitrate.RemoteBitrateEstimatorSingleStream :=
  RemoteBitrate.single_stream (fun _ => None) (fun _ x => x) None.

Definition sample_processor : RtcpProcessor RemoteBitrate.RemoteBitrateEstimatorSingleStream :=
  let e := RemoteBitrate.new_RemoteBitrateEstimatorSingleStream None in
  let st := NetworkStatus.InitWithSsrcs (fun _ => 0) (NetworkStatus.new_NetworkStatus 9) [] 7 9 in
  let s := new_RtcpProcessor 0 0 (Remb.new_RembProcessor 0 0 0) e e st in
  set_sender (InitRttContextsWithSsrcs s [] 7 9) (RtcpReports.record sample_sent sample_history).

Lemma rtt_measured_witness :
  let status (s : RtcpProcessor RemoteBitrate.RemoteBitrateEstimatorSingleStream) := find 7 (NetworkStatus.map_rtt_status_ (network_status_ s)) in
  exists s' avg min max, HandleReceiverReport sample_moment (-1) sample_processor Nack.VIDEO_PACKET sample_report = Ok s' /\
    RTT s' 7 = Some (250, avg, min, max) /\ 0 < min <= 250 /\ 250 <= max /\
    (forall other, other <> 7 -> RTT s' other = RTT sample_processor other) /\
    status s' = option_map (fun r => NetworkStatus.UpdateRTT_status 5000 r 250) (status sample_processor).
Proof.
  apply (rtt_measured sample_moment (-1) sample_processor sample_history sample_sent Nack.VIDEO_PACKET sample_report 0 100 0x80000000 new_RttContext).
  - reflexivity.
  - vm_compute. repeat constructor.
  - reflexivity.
  - vm_compute. repeat constructor.
  - reflexivity.
  - left. now split.
  - vm_compute. repeat constructor.
  - reflexivity.
  - lia.
  - discriminate.
  - discriminate.
  - intros [].
  - apply bytes_forallb. reflexivity.
  - vm_compute. congruence.
  - reflexivity.
  - reflexivity.
  - vm_compute. split; congruence.
  - vm_compute. split; congruence.
Defined.

(** A receiver report that follows the report of a block in a compound packet
    is passed over: here the round trip of source 7 is not measured. *)
Example report_passed_over :
  let sr := [0x81; 200; 0; 12; 0; 0; 0; 5] ++ repeat 1 20 ++ [0; 0; 0; 8] ++ repeat 0 20 in
  let buf := sr ++ sample_report in
  match RtcpProcessIncomingRtcp 100 (fun _ => sample_moment) (fun _ => 0) 0 sample_processor Nack.VIDEO_PACKET buf (zlen buf) with
  | Ok (s', _) => RTT s' 7 = RTT sample_processor 7
  | _ => False
  end.
Proof. vm_compute. reflexivity. Qed.

Example report_handled :
  match RtcpProcessIncomingRtcp 100 (fun _ => sample_moment) (fun _ => 0) 0 sample_processor Nack.VIDEO_PACKET sample_report 32 with
  | Ok (s', _) => RTT s' 7 = Some (250, 250, 250, 250)
  | _ => False
  end.
Proof. vm_compute. reflexivity. Qed.
End Sample.
End RtcpProcessor.
