(* ===== verification/Text.v ===== *)
(** * Strings

    What the C++ library does with strings, for the text the server reads and
    writes: a string is the list of its bytes.  Searching, splitting, lines,
    numbers in decimal notation and the extraction of words and numbers from a
    stream, as the standard describes them. *)

From Stdlib Require Import Ascii String.
From S2P Require Import Prelude Wire.

Module Text.

Definition str : Type := list Z.

(** The bytes of a literal. *)
Definition lit (s : string) : str := map (fun c => Z.of_N (N_of_ascii c)) (list_ascii_of_string s).

(** [endl] and [\n]. *)
Definition newline : Z := 10.

(** ** Comparing and searching *)

Fixpoint str_eqb (a b : str) : bool :=
  match a, b with
  | [], [] => true
  | x :: a, y :: b => (x =? y) && str_eqb a b
  | _, _ => false
  end.

(** [operator<]: the bytes as unsigned characters. *)
Fixpoint str_ltb (a b : str) : bool :=
  match a, b with
  | _, [] => false
  | [], _ :: _ => true
  | x :: a, y :: b => (x <? y) || ((x =? y) && str_ltb a b)
  end.

Fixpoint prefix (needle s : str) : bool :=
  match needle, s with
  | [], _ => true
  | x :: needle, y :: s => (x =? y) && prefix needle s
  | _ :: _, [] => false
  end.

(** [s.find(needle) != npos]. *)
Fixpoint has (needle s : str) : bool :=
  prefix needle s || match s with [] => false | _ :: s => has needle s end.

Definition mem (c : Z) (delims : str) : bool := existsb (Z.eqb c) delims.

(** [find_first_of]: what is before and what is behind the first delimiter. *)
Fixpoint cut_at (delims s : str) : option (str * str) :=
  match s with
  | [] => None
  | c :: s =>
      if mem c delims then Some ([], s)
      else match cut_at delims s with Some (a, b) => Some (c :: a, b) | None => None end
  end.

(** The lines [std::getline] gives one after the other. *)
Fixpoint lines (text : str) : list str :=
  match text with
  | [] => []
  | c :: text =>
      if c =? newline then [] :: lines text
      else match lines text with [] => [[c]] | l :: ls => (c :: l) :: ls end
  end.

(** ** Numbers *)

Definition is_space (c : Z) : bool := (c =? 32) || ((9 <=? c) && (c <=? 13)).
Definition is_digit (c : Z) : bool := (48 <=? c) && (c <=? 57).

Fixpoint skip_spaces (s : str) : str :=
  match s with
  | [] => []
  | c :: r => if is_space c then skip_spaces r else s
  end.

(** The digits at the front and the rest. *)
Fixpoint span_digits (s : str) : str * str :=
  match s with
  | [] => ([], [])
  | c :: r => if is_digit c then let (d, r) := span_digits r in (c :: d, r) else ([], s)
  end.

Definition value_of (digits : str) : Z := fold_left (fun v c => 10 * v + (c - 48)) digits 0.

(** An optional sign: whether it is a minus, and the rest. *)
Definition sign_of (s : str) : bool * str :=
  match s with
  | c :: r => if c =? 45 then (true, r) else if c =? 43 then (false, r) else (false, s)
  | [] => (false, [])
  end.

(** [strtoul(s.c_str(), NULL, 10)] with 64 bits. *)
Definition strtoul (s : str) : Z :=
  let (neg, s) := sign_of (skip_spaces s) in
  let v := value_of (fst (span_digits s)) in
  if 18446744073709551615 <? v then 18446744073709551615 else if neg then u64 (- v) else v.

(** [<<] of an integer; 20 digits are enough for 64 bits. *)
Fixpoint digits (fuel : nat) (n : Z) (acc : str) : str :=
  match fuel with
  | O => acc
  | S fuel => let acc := (48 + n mod 10) :: acc in if n / 10 =? 0 then acc else digits fuel (n / 10) acc
  end.
Definition dec (n : Z) : str := if n <? 0 then 45 :: digits 20 (- n) [] else digits 20 n [].

(** ** Extraction from a stream *)

(** What is left, and whether no extraction has failed. *)
Definition istream : Type := str * bool.

(** Characters up to white space. *)
Fixpoint span_word (s : str) : str * str :=
  match s with
  | [] => ([], [])
  | c :: r => if is_space c then ([], s) else let (w, r) := span_word r in (c :: w, r)
  end.

(** [in >> word]: a stream without a word leaves the variable alone. *)
Definition read_word (i : istream) (old : str) : str * istream :=
  match i with
  | (s, true) =>
      match skip_spaces s with
      | [] => (old, ([], false))
      | s => let (w, r) := span_word s in (w, (r, true))
      end
  | _ => (old, i)
  end.

(** [in >> n] for an integer between [lo] and [hi]: a stream that has failed
    leaves the variable alone, what is no number sets it to 0, and what is out
    of range to the bound. *)
Definition read_number (lo hi : Z) (i : istream) (old : Z) : Z * istream :=
  match i with
  | (s, true) =>
      match skip_spaces s with
      | [] => (old, ([], false))
      | s =>
          let (neg, s) := sign_of s in
          let (d, r) := span_digits s in
          let v := value_of d in
          match d with
          | [] => (0, (r, false))
          | _ =>
              if lo <? 0 then
                let v := if neg then - v else v in
                if v <? lo then (lo, (r, false)) else if hi <? v then (hi, (r, false)) else (v, (r, true))
              else if hi <? v then (hi, (r, false))
              else ((if neg then (- v) mod (hi + 1) else v), (r, true))
          end
      end
  | _ => (old, i)
  end.
Definition read_uint (i : istream) (old : Z) : Z * istream := read_number 0 4294967295 i old.
Definition read_int (i : istream) (old : Z) : Z * istream := read_number (-2147483648) 2147483647 i old.

(** ** Maps with strings for keys *)

Fixpoint str_store {V} (k : str) (v : V) (m : list (str * V)) : list (str * V) :=
  match m with
  | [] => [(k, v)]
  | (j, w) :: m' =>
      if str_eqb k j then (k, v) :: m' else if str_ltb k j then (k, v) :: m else (j, w) :: str_store k v m'
  end.

(** ** Facts *)

(** No byte of [s] is one of [cs]. *)
Definition free (cs : str) (s : str) : bool := forallb (fun c => negb (mem c cs)) s.

Lemma free_app cs a b : free cs (a ++ b) = free cs a && free cs b.
Proof. apply forallb_app. Qed.

Lemma free_cons cs c s : free cs (c :: s) = negb (mem c cs) && free cs s.
Proof. reflexivity. Qed.

Lemma free_weaken cs ds s : (forall c, mem c ds = true -> mem c cs = true) -> free cs s = true -> free ds s = true.
Proof.
  intros W. unfold free. rewrite !forallb_forall. intros F c H. specialize (F c H). destruct (mem c ds) eqn:M; [|reflexivity].
  now rewrite W in F.
Qed.

Lemma str_eqb_eq a b : str_eqb a b = true <-> a = b.
Proof.
  revert b. induction a as [|x a IH]; intros [|y b]; cbn; try easy. rewrite andb_true_iff, Z.eqb_eq, IH.
  split; [intros [-> ->]; reflexivity|]. intros E. now injection E.
Qed.

Lemma str_eqb_refl a : str_eqb a a = true.
Proof. now apply str_eqb_eq. Qed.

(** Text made of lines is read as these lines. *)
Lemma lines_cons l t : free [newline] l = true -> lines (l ++ newline :: t) = l :: lines t.
Proof.
  induction l as [|c l IH]; intros F; [reflexivity|]. cbn [app lines]. rewrite free_cons in F.
  apply andb_true_iff in F as [N F]. unfold mem in N. cbn [existsb] in N. rewrite orb_false_r in N.
  destruct (c =? newline); [discriminate|]. now rewrite IH.
Qed.

Lemma lines_concat ls : forallb (free [newline]) ls = true -> lines (concat (map (fun l => l ++ [newline]) ls)) = ls.
Proof.
  induction ls as [|l ls IH]; intros F; [reflexivity|]. cbn [forallb] in F. apply andb_true_iff in F as [F G].
  cbn [map concat]. rewrite <- app_assoc. cbn [app]. now rewrite lines_cons, IH.
Qed.

(** *** Decimal numbers *)

Lemma value_of_app a b : value_of (a ++ b) = fold_left (fun v c => 10 * v + (c - 48)) b (value_of a).
Proof. unfold value_of. apply fold_left_app. Qed.

Lemma digits_acc fuel : forall n acc, digits fuel n acc = digits fuel n [] ++ acc.
Proof.
  induction fuel as [|fuel IH]; intros n acc; cbn [digits]; [reflexivity|]. destruct (n / 10 =? 0); [reflexivity|].
  rewrite IH. rewrite (IH _ [_]). now rewrite <- app_assoc.
Qed.

Lemma digits_ok fuel : forall n, 0 <= n < 10 ^ Z.of_nat fuel -> (0 < fuel)%nat ->
  value_of (digits fuel n []) = n /\ Forall (fun c => is_digit c = true) (digits fuel n []) /\ digits fuel n [] <> [].
Proof.
  induction fuel as [|fuel IH]; intros n N F; [lia|]. cbn [digits]. assert (D : is_digit (48 + n mod 10) = true) by (unfold is_digit; dlia).
  destruct (Z.eqb_spec (n / 10) 0) as [E|E].
  - split; [unfold value_of; cbn [fold_left]; dlia|]. split; [now repeat constructor|discriminate].
  - rewrite digits_acc. rewrite Nat2Z.inj_succ, Z.pow_succ_r in N by lia.
    assert (0 < fuel)%nat by (destruct fuel; [cbn in N; dlia|lia]).
    destruct (IH (n / 10)) as (V & A & NE); [dlia|assumption|]. rewrite value_of_app, V. cbn [fold_left].
    split; [dlia|]. split; [apply Forall_app; split; [assumption|now repeat constructor]|]. intros H'. now apply app_eq_nil in H' as [_ H'].
Qed.

Lemma span_digits_all d r : Forall (fun c => is_digit c = true) d -> (match r with c :: _ => is_digit c = false | [] => True end) ->
  span_digits (d ++ r) = (d, r).
Proof.
  intros D R. induction D as [|c d H D IH]; cbn [app span_digits].
  - destruct r as [|c r]; [reflexivity|]. cbn [span_digits]. now rewrite R.
  - now rewrite H, IH.
Qed.

Lemma dec_digits n : 0 <= n < 2 ^ 64 -> value_of (dec n) = n /\ Forall (fun c => is_digit c = true) (dec n) /\ dec n <> [].
Proof. intros N. unfold dec. replace (n <? 0) with false by lia. apply digits_ok; [|lia]. change (10 ^ Z.of_nat 20) with 100000000000000000000. change (2 ^ 64) with 18446744073709551616 in N. lia. Qed.

Lemma dec_head n : 0 <= n < 2 ^ 64 -> exists c r, dec n = c :: r /\ is_digit c = true.
Proof. intros N. destruct (dec_digits n N) as (_ & D & NE). destruct (dec n) as [|c r]; [contradiction|]. inversion D; eauto. Qed.

Lemma strtoul_dec n r : 0 <= n < 2 ^ 64 -> (match r with c :: _ => is_digit c = false | [] => True end) -> strtoul (dec n ++ r) = n.
Proof.
  intros N R. destruct (dec_digits n N) as (V & D & _). destruct (dec_head n N) as (c & r' & E & C). unfold strtoul.
  assert (S : skip_spaces (dec n ++ r) = dec n ++ r).
  { rewrite E. cbn [app skip_spaces]. replace (is_space c) with false by (unfold is_space, is_digit in *; lia). reflexivity. }
  rewrite S. assert (G : sign_of (dec n ++ r) = (false, dec n ++ r)).
  { rewrite E. cbn [app sign_of]. unfold is_digit in C. replace (c =? 45) with false by lia. now replace (c =? 43) with false by lia. }
  rewrite G, span_digits_all by assumption. cbn [fst]. rewrite V. now replace (18446744073709551615 <? n) with false by lia.
Qed.

(** Digits are none of the characters that separate. *)
Lemma dec_free cs n : 0 <= n < 2 ^ 64 -> forallb (fun c => negb (is_digit c)) cs = true -> free cs (dec n) = true.
Proof.
  intros N F. destruct (dec_digits n N) as (_ & D & _). unfold free. rewrite forallb_forall in *. rewrite Forall_forall in D.
  intros c H. specialize (D c H). destruct (mem c cs) eqn:M; [|reflexivity]. unfold mem in M. apply existsb_exists in M as (d & I & E).
  apply Z.eqb_eq in E. subst. specialize (F d I). now rewrite D in F.
Qed.

(** *** Keys in their order *)

Lemma str_ltb_after j : forall k, str_ltb j k = true -> str_eqb k j = false /\ str_ltb k j = false.
Proof.
  induction j as [|y j IH]; intros [|x k] F; try discriminate; [split; reflexivity|]. cbn in *.
  destruct (y <? x) eqn:A; [split; [|apply orb_false_iff; split; [lia|]]; apply andb_false_iff; left; lia|].
  cbn [orb] in F. apply andb_true_iff in F as [E F]. destruct (IH k F) as [-> ->]. rewrite !andb_false_r. split; [reflexivity|lia].
Qed.

(** A key behind all others is stored at the end. *)
Lemma str_store_end {V} k (v : V) l : forallb (fun e => str_ltb (fst e) k) l = true -> str_store k v l = l ++ [(k, v)].
Proof.
  induction l as [|[j w] l IH]; intros F; [reflexivity|]. cbn [forallb fst] in F. apply andb_true_iff in F as [F G]. cbn [str_store app].
  destruct (str_ltb_after j k F) as [-> ->]. now rewrite IH.
Qed.
End Text.
