(* ===== verification/Sdp.v ===== *)
(** * Session descriptions

    Models src/orbit/sdp_info.cc and sdp_info.h: the description of a session
    as the server holds it, its text, and the reading of the text that a client
    sends.  The members of the class are grouped in records.  An element of a
    vector behind its end, which the source reads without a test, is [Oob].
    The flags of the program, the numbers of [rand], what a constructor leaves
    uninitialised and what lies behind an array on the stack are arguments; the
    search for a regular expression is boost's and is a parameter.  Logging is
    left out. *)

From Stdlib Require Import Ascii String.
From S2P Require Import Prelude Wire OrderedMap Text.
Import Wire OrderedMap Text.

Module Sdp.

(** ** sdp_info.h: the data *)

Inductive HostType := HOST | SRFLX | PRFLX | RELAY.
Inductive MediaType := VIDEO_TYPE | AUDIO_TYPE | OTHER.
Inductive StreamDirection := SENDRECV | SENDONLY | RECVONLY.
Inductive Profile := AVPF | SAVPF.
(** olive::VideoEncoding of stream_service.proto. *)
Inductive VideoEncoding := VP8 | H264 | VP9.

Definition media_eqb (a b : MediaType) : bool :=
  match a, b with
  | VIDEO_TYPE, VIDEO_TYPE | AUDIO_TYPE, AUDIO_TYPE | OTHER, OTHER => true
  | _, _ => false
  end.

Record CryptoInfo := mk_crypto {
  crypto_tag : Z;
  cipherSuite : str;
  keyParams : str;
  crypto_mediaType : MediaType
}.

Record CandidateInfo := mk_candidate {
  cand_isBundle : bool;
  tag : Z;
  priority : Z;
  componentId : Z;
  foundation : str;
  hostAddress : str;
  rAddress : str;
  hostPort : Z;
  rPort : Z;
  netProtocol : str;
  hostType : HostType;
  transProtocol : str;
  username : str;
  password : str;
  mediaType : MediaType
}.

(** The constructor sets the tag and the strings; the rest is [junk]. *)
Definition new_CandidateInfo (junk : CandidateInfo) : CandidateInfo :=
  mk_candidate (cand_isBundle junk) 0 (priority junk) (componentId junk) [] [] [] (hostPort junk) (rPort junk) [] (hostType junk)
    [] [] [] (mediaType junk).

Definition hostType_str (t : HostType) : str :=
  match t with
  | HOST => lit "host" | SRFLX => lit "srflx" | PRFLX => lit "prflx" | RELAY => lit "relay"
  end.
Definition is_reflexive (t : HostType) : bool := match t with SRFLX | RELAY => true | _ => false end.

(** What both methods write. *)
Definition ToDebugString (c : CandidateInfo) : str :=
  lit "a=candidate:" ++ foundation c ++ lit " " ++ dec (componentId c) ++ lit " " ++ netProtocol c ++ lit " " ++
  dec (priority c) ++ lit " " ++ hostAddress c ++ lit " " ++ dec (hostPort c) ++ lit " typ " ++ hostType_str (hostType c) ++
  (if is_reflexive (hostType c) then lit " raddr " ++ rAddress c ++ lit " rport " ++ dec (rPort c) else []).
Definition ToString (c : CandidateInfo) : str := ToDebugString c ++ lit " generation 0".

Definition host_type_of (s : str) : HostType :=
  if str_eqb s (lit "host") then HOST else if str_eqb s (lit "srflx") then SRFLX
  else if str_eqb s (lit "prflx") then PRFLX else if str_eqb s (lit "relay") then RELAY else HOST.

Definition SDP_HEAD_LEN : nat := 12.
(** [substr] throws when the string is shorter. *)
Definition FromString (c : CandidateInfo) (s : str) : option CandidateInfo :=
  if (length s <? SDP_HEAD_LEN)%nat then None
  else
    let i := (skipn SDP_HEAD_LEN s, true) in
    let (f, i) := read_word i (foundation c) in
    let (id, i) := read_uint i (componentId c) in
    let (net, i) := read_word i (netProtocol c) in
    let (prio, i) := read_uint i (priority c) in
    let (host, i) := read_word i (hostAddress c) in
    let (port, i) := read_int i (hostPort c) in
    let (placeholder, i) := read_word i [] in
    let (type, i) := read_word i [] in
    let t := host_type_of type in
    let '(raddr, rport) :=
      if is_reflexive t then
        let (placeholder, i) := read_word i placeholder in
        let (raddr, i) := read_word i (rAddress c) in
        let (placeholder, i) := read_word i placeholder in
        let (rport, i) := read_int i (rPort c) in (raddr, rport)
      else (rAddress c, rPort c) in
    Some (mk_candidate (cand_isBundle c) (tag c) prio id f host raddr port rport net t (transProtocol c) (username c) (password c)
            (mediaType c)).

Record BundleTag := mk_tag { id : str; tag_mediaType : MediaType }.

Record RtpMap := mk_map {
  payloadType : Z;
  encodingName : str;
  clockRate : Z;
  map_mediaType : MediaType;
  channels : Z;
  feedbackTypes : list str;
  formatParameters : list (str * str)
}.

Definition kTargetBandwidthKbps : Z := 250.
Definition kDefaultMinBitrateKbps : Z := 120.

Record credentials := mk_ice {
  iceVideoUsername_ : str;
  iceAudioUsername_ : str;
  iceVideoPassword_ : str;
  iceAudioPassword_ : str
}.
Record sources := mk_sources {
  audioSsrc : Z;
  videoSsrc : Z;
  videoRtxSsrc : Z;
  extended_video_ssrc : list Z
}.
Record session := mk_session {
  isBundle : bool;
  isRtcpMux : bool;
  profile : Profile;
  isFingerprint : bool;
  fingerprint : str;
  setup_ : str;
  bundleTags : list BundleTag
}.
Record streams := mk_streams {
  hasAudio : bool;
  hasVideo : bool;
  videoDirection : StreamDirection;
  audioDirection : StreamDirection;
  videoSdpMLine : Z;
  audioSdpMLine : Z;
  videoCodecs : Z;
  audioCodecs : Z;
  videoBandwidth : Z
}.
Record payloads := mk_payloads {
  internalPayloadVector_ : list RtpMap;
  payloadVector : list RtpMap;
  inOutPTMap : map_t Z;
  outInPTMap : map_t Z;
  inOut_payload_ : map_t Z;
  outIn_payload_ : map_t Z
}.
Record settings := mk_settings {
  isExtMapEnabled : bool;
  isRedFecEnabled : bool;
  target_bandwidth_ : Z;
  min_bitrate_ : Z;
  video_encoding_ : VideoEncoding
}.

Record SdpInfo := mk_sdp {
  candidateVector_ : list CandidateInfo;
  cryptoVector_ : list CryptoInfo;
  ice : credentials;
  ssrcs : sources;
  sess : session;
  strs : streams;
  pays : payloads;
  sets : settings
}.

Definition set_candidates (s : SdpInfo) (x : list CandidateInfo) : SdpInfo :=
  mk_sdp x (cryptoVector_ s) (ice s) (ssrcs s) (sess s) (strs s) (pays s) (sets s).
Definition set_cryptos (s : SdpInfo) (x : list CryptoInfo) : SdpInfo :=
  mk_sdp (candidateVector_ s) x (ice s) (ssrcs s) (sess s) (strs s) (pays s) (sets s).
Definition set_ice (s : SdpInfo) (x : credentials) : SdpInfo :=
  mk_sdp (candidateVector_ s) (cryptoVector_ s) x (ssrcs s) (sess s) (strs s) (pays s) (sets s).
Definition set_ssrcs (s : SdpInfo) (x : sources) : SdpInfo :=
  mk_sdp (candidateVector_ s) (cryptoVector_ s) (ice s) x (sess s) (strs s) (pays s) (sets s).
Definition set_sess (s : SdpInfo) (x : session) : SdpInfo :=
  mk_sdp (candidateVector_ s) (cryptoVector_ s) (ice s) (ssrcs s) x (strs s) (pays s) (sets s).
Definition set_strs (s : SdpInfo) (x : streams) : SdpInfo :=
  mk_sdp (candidateVector_ s) (cryptoVector_ s) (ice s) (ssrcs s) (sess s) x (pays s) (sets s).
Definition set_pays (s : SdpInfo) (x : payloads) : SdpInfo :=
  mk_sdp (candidateVector_ s) (cryptoVector_ s) (ice s) (ssrcs s) (sess s) (strs s) x (sets s).
Definition set_sets (s : SdpInfo) (x : settings) : SdpInfo :=
  mk_sdp (candidateVector_ s) (cryptoVector_ s) (ice s) (ssrcs s) (sess s) (strs s) (pays s) x.

(** The sets of single members. *)
Definition with_ssrcs (s : SdpInfo) (audio video rtx : Z) : SdpInfo :=
  set_ssrcs s (mk_sources audio video rtx (extended_video_ssrc (ssrcs s))).
Definition with_bundle (s : SdpInfo) (bundle : bool) (tags : list BundleTag) : SdpInfo :=
  set_sess s (mk_session bundle (isRtcpMux (sess s)) (profile (sess s)) (isFingerprint (sess s)) (fingerprint (sess s)) (setup_ (sess s))
    tags).
Definition with_fingerprint (s : SdpInfo) (is_fingerprint : bool) (print : str) : SdpInfo :=
  set_sess s (mk_session (isBundle (sess s)) (isRtcpMux (sess s)) (profile (sess s)) is_fingerprint print (setup_ (sess s))
    (bundleTags (sess s))).
Definition with_mux (s : SdpInfo) (mux : bool) (p : Profile) : SdpInfo :=
  set_sess s (mk_session (isBundle (sess s)) mux p (isFingerprint (sess s)) (fingerprint (sess s)) (setup_ (sess s)) (bundleTags (sess s))).
Definition with_directions (s : SdpInfo) (video audio : StreamDirection) : SdpInfo :=
  let m := strs s in
  set_strs s (mk_streams (hasAudio m) (hasVideo m) video audio (videoSdpMLine m) (audioSdpMLine m) (videoCodecs m) (audioCodecs m)
    (videoBandwidth m)).
Definition with_counts (s : SdpInfo) (video audio : Z) : SdpInfo :=
  let m := strs s in
  set_strs s (mk_streams (hasAudio m) (hasVideo m) (videoDirection m) (audioDirection m) (videoSdpMLine m) (audioSdpMLine m) video audio
    (videoBandwidth m)).
Definition with_bandwidth (s : SdpInfo) (bandwidth : Z) : SdpInfo :=
  let m := strs s in
  set_strs s (mk_streams (hasAudio m) (hasVideo m) (videoDirection m) (audioDirection m) (videoSdpMLine m) (audioSdpMLine m)
    (videoCodecs m) (audioCodecs m) bandwidth).
Definition with_payloads (s : SdpInfo) (v : list RtpMap) : SdpInfo :=
  let p := pays s in
  set_pays s (mk_payloads (internalPayloadVector_ p) v (inOutPTMap p) (outInPTMap p) (inOut_payload_ p) (outIn_payload_ p)).
Definition with_maps (s : SdpInfo) (inOut outIn : map_t Z) : SdpInfo :=
  let p := pays s in
  set_pays s (mk_payloads (internalPayloadVector_ p) (payloadVector p) inOut outIn (inOut_payload_ p) (outIn_payload_ p)).
Definition with_codes (s : SdpInfo) (inOut outIn : map_t Z) : SdpInfo :=
  let p := pays s in
  set_pays s (mk_payloads (internalPayloadVector_ p) (payloadVector p) (inOutPTMap p) (outInPTMap p) inOut outIn).

(** ** The codecs *)

(** The payload types of rtp_headers.h. *)
Definition VP8_90000_PT : Z := 100.
Definition VP9_90000_PT : Z := 101.
Definition H264_90000_PT : Z := 107.
Definition RED_90000_PT : Z := 116.
Definition ULP_90000_PT : Z := 117.
Definition ISAC_16000_PT : Z := 103.
Definition ISAC_32000_PT : Z := 104.
Definition PCMU_8000_PT : Z := 0.
Definition OPUS_48000_PT : Z := 111.
Definition CN_8000_PT : Z := 13.
Definition CN_16000_PT : Z := 105.
Definition CN_32000_PT : Z := 106.
Definition CN_48000_PT : Z := 107.
Definition TEL_8000_PT : Z := 126.

Definition video_map (pt : Z) (name : string) : RtpMap := mk_map pt (lit name) 90000 VIDEO_TYPE 1 [] [].
Definition audio_map (pt : Z) (name : string) (clock : Z) : RtpMap := mk_map pt (lit name) clock AUDIO_TYPE 1 [] [].

(** What InitializeRtpMap appends. *)
Definition internal_maps (encoding : VideoEncoding) (red_fec : bool) : list RtpMap :=
  match encoding with
  | H264 => [video_map H264_90000_PT "H264"]
  | VP9 => [video_map VP9_90000_PT "VP9"]
  | VP8 => [video_map VP8_90000_PT "VP8"]
  end ++
  (if red_fec then [video_map RED_90000_PT "red"; video_map ULP_90000_PT "ulpfec"] else []) ++
  [mk_map OPUS_48000_PT (lit "opus") 48000 AUDIO_TYPE 2 [] [(lit "useinbandfec", lit "1")];
   audio_map ISAC_16000_PT "ISAC" 16000; audio_map ISAC_32000_PT "ISAC" 32000; audio_map PCMU_8000_PT "PCMU" 8000;
   audio_map CN_8000_PT "CN" 8000; audio_map CN_16000_PT "CN" 16000; audio_map CN_32000_PT "CN" 32000;
   audio_map CN_48000_PT "CN" 48000; audio_map TEL_8000_PT "telephone-event" 8000].

Definition InitializeRtpMap (s : SdpInfo) : SdpInfo :=
  let p := pays s in
  set_pays s (mk_payloads (internalPayloadVector_ p ++ internal_maps (video_encoding_ (sets s)) (isRedFecEnabled (sets s)))
    (payloadVector p) (inOutPTMap p) (outInPTMap p) (inOut_payload_ p) (outIn_payload_ p)).

(** [red_fec] is the flag of the program; the encoding and the directions are
    not initialised. *)
Definition new_SdpInfo (red_fec : bool) (encoding : VideoEncoding) (video audio : StreamDirection) : SdpInfo :=
  InitializeRtpMap
    (mk_sdp [] [] (mk_ice [] [] [] []) (mk_sources 0 0 0 []) (mk_session false false SAVPF false [] [] [])
       (mk_streams false false video audio (-1) (-1) 0 0 0) (mk_payloads [] [] [] [] [] [])
       (mk_settings false red_fec kTargetBandwidthKbps kDefaultMinBitrateKbps encoding)).

Definition set_video_encoding (s : SdpInfo) (encoding : VideoEncoding) : SdpInfo :=
  let x := sets s in
  let p := pays s in
  let s := set_sets s (mk_settings (isExtMapEnabled x) (isRedFecEnabled x) (target_bandwidth_ x) (min_bitrate_ x) encoding) in
  InitializeRtpMap (set_pays s (mk_payloads [] (payloadVector p) (inOutPTMap p) (outInPTMap p) (inOut_payload_ p) (outIn_payload_ p))).

Definition set_target_bandwidth (s : SdpInfo) (bwe : Z) : SdpInfo :=
  let x := sets s in set_sets s (mk_settings (isExtMapEnabled x) (isRedFecEnabled x) bwe (min_bitrate_ x) (video_encoding_ x)).
Definition set_min_bitrate (s : SdpInfo) (min_bitrate : Z) : SdpInfo :=
  let x := sets s in set_sets s (mk_settings (isExtMapEnabled x) (isRedFecEnabled x) (target_bandwidth_ x) min_bitrate (video_encoding_ x)).

(** ** The interface *)

Definition addCandidate (s : SdpInfo) (info : CandidateInfo) : str * SdpInfo :=
  (ToString info, set_candidates s (candidateVector_ s ++ [info])).
Definition addCrypto (s : SdpInfo) (info : CryptoInfo) : SdpInfo := set_cryptos s (cryptoVector_ s ++ [info]).

Definition setCredentials (s : SdpInfo) (user pass : str) (media : MediaType) : SdpInfo :=
  let i := ice s in
  match media with
  | VIDEO_TYPE => set_ice s (mk_ice user (iceAudioUsername_ i) pass (iceAudioPassword_ i))
  | AUDIO_TYPE => set_ice s (mk_ice (iceVideoUsername_ i) user (iceVideoPassword_ i) pass)
  | OTHER => set_ice s (mk_ice user user pass pass)
  end.

(** The two variables of the caller; of the password as many bytes are replaced
    as the user name now has. *)
Definition getCredentials (s : SdpInfo) (media : MediaType) (pass : str) : str * str :=
  let i := ice s in
  match media with
  | AUDIO_TYPE => (iceAudioUsername_ i, iceAudioPassword_ i ++ skipn (length (iceAudioUsername_ i)) pass)
  | _ => (iceVideoUsername_ i, iceVideoPassword_ i ++ skipn (length (iceVideoUsername_ i)) pass)
  end.

Definition AddVideoBundleTag (s : SdpInfo) : SdpInfo :=
  with_bundle s (isBundle (sess s)) (bundleTags (sess s) ++ [mk_tag (lit "video") VIDEO_TYPE]).
Definition AddAudioBundleTag (s : SdpInfo) : SdpInfo :=
  with_bundle s (isBundle (sess s)) (bundleTags (sess s) ++ [mk_tag (lit "audio") AUDIO_TYPE]).
Definition setIsFingerprint (s : SdpInfo) (b : bool) : SdpInfo := with_fingerprint s b (fingerprint (sess s)).
Definition setFingerprint (s : SdpInfo) (f : str) : SdpInfo := with_fingerprint s (isFingerprint (sess s)) f.
Definition set_setup (s : SdpInfo) (setup : str) : SdpInfo :=
  let x := sess s in
  set_sess s (mk_session (isBundle x) (isRtcpMux x) (profile x) (isFingerprint x) (fingerprint x) setup (bundleTags x)).
Definition setProfile (s : SdpInfo) (p : Profile) : SdpInfo := with_mux s (isRtcpMux (sess s)) p.

(** Both return a bool. *)
Definition getVideoSdpMLine (s : SdpInfo) : bool := negb (videoSdpMLine (strs s) =? 0).
Definition getAudioSdpMLine (s : SdpInfo) : bool := negb (audioSdpMLine (strs s) =? 0).

(** [rands] are the numbers that [rand] gives. *)
Definition initExtendedVideoSsrc (rands : nat -> Z) (s : SdpInfo) (number : Z) : SdpInfo :=
  let x := ssrcs s in
  let missing := Z.to_nat (number - zlen (extended_video_ssrc x)) in
  set_ssrcs s (mk_sources (audioSsrc x) (videoSsrc x) (videoRtxSsrc x)
    (extended_video_ssrc x ++ map (fun i => u32 (rands i)) (seq 0 missing))).

Fixpoint getCodecByName (v : list RtpMap) (codecName : str) (clock : Z) : option RtpMap :=
  match v with
  | [] => None
  | r :: v => if str_eqb (encodingName r) codecName && (clockRate r =? clock) then Some r else getCodecByName v codecName clock
  end.

(** [inOutPTMap[rtp.payloadType]] enters 0 for a number that is not there. *)
Fixpoint supported (m : map_t Z) (v : list RtpMap) (payload : Z) : bool * map_t Z :=
  match v with
  | [] => (false, m)
  | r :: v =>
      let k := s32 (payloadType r) in
      let (x, m) := match find k m with Some x => (x, m) | None => (0, store k 0 m) end in
      if x =? payload then (true, m) else supported m v payload
  end.
Definition supportPayloadType (s : SdpInfo) (payload : Z) : bool * SdpInfo :=
  match find payload (inOutPTMap (pays s)) with
  | None => (false, s)
  | Some _ =>
      let (r, m) := supported (inOutPTMap (pays s)) (payloadVector (pays s)) payload in
      (r, with_maps s m (outInPTMap (pays s)))
  end.
Definition supportCodecByName (s : SdpInfo) (codecName : str) (clock : Z) : bool * SdpInfo :=
  match getCodecByName (internalPayloadVector_ (pays s)) codecName clock with
  | Some r => supportPayloadType s (s32 (payloadType r))
  | None => (false, s)
  end.

Definition getAudioInternalPT (s : SdpInfo) (externalPT : Z) : Z :=
  match find externalPT (outInPTMap (pays s)) with Some p => p | None => externalPT end.
Definition getVideoInternalPT (s : SdpInfo) (externalPT : Z) : Z := getAudioInternalPT s externalPT.
Definition getAudioExternalPT (s : SdpInfo) (internalPT : Z) : Z :=
  match find internalPT (inOutPTMap (pays s)) with Some p => p | None => internalPT end.
Definition getVideoExternalPT (s : SdpInfo) (internalPT : Z) : Z := getAudioExternalPT s internalPT.

(** [outIn_payload_[source_codec]] enters 0 as well. *)
Definition GetCodec (s : SdpInfo) (source_codec : Z) : Z * SdpInfo :=
  let p := pays s in
  let (result, m) :=
    match find source_codec (outIn_payload_ p) with
    | Some x => (x, outIn_payload_ p)
    | None => (0, store source_codec 0 (outIn_payload_ p))
    end in
  (if result =? 0 then source_codec else result, with_codes s (inOut_payload_ p) m).

Definition createOfferSdp (s : SdpInfo) : SdpInfo :=
  let p := pays s in
  let s := with_payloads s (internalPayloadVector_ p) in
  let s := with_bundle s true (bundleTags (sess s)) in
  let s := with_mux s true SAVPF in
  let m := strs s in
  let s := set_strs s (mk_streams true true SENDRECV SENDRECV 0 1 (videoCodecs m) (audioCodecs m) (videoBandwidth m)) in
  with_ssrcs s (audioSsrc (ssrcs s)) 55543 55555.

Definition mirrored (d : StreamDirection) : StreamDirection :=
  match d with SENDONLY => RECVONLY | RECVONLY => SENDONLY | SENDRECV => SENDRECV end.

(** [rands] are three numbers. *)
Definition setOfferSdp (rands : nat -> Z) (s offer : SdpInfo) : SdpInfo :=
  let p := pays s in
  let o := strs offer in
  let s :=
    set_pays s (mk_payloads (internalPayloadVector_ p) (payloadVector (pays offer)) (inOutPTMap (pays offer)) (outInPTMap (pays offer))
      (inOut_payload_ p) (outIn_payload_ p)) in
  let s := with_bundle s (isBundle (sess offer)) (bundleTags (sess offer)) in
  let s := with_mux s (isRtcpMux (sess offer)) (profile (sess offer)) in
  let s :=
    set_strs s (mk_streams (hasAudio o) (hasVideo o) (mirrored (videoDirection o)) (mirrored (audioDirection o)) (videoSdpMLine o)
      (audioSdpMLine o) (videoCodecs o) (audioCodecs o) (videoBandwidth (strs s))) in
  with_ssrcs s (u32 (rands 0%nat)) (u32 (rands 1%nat))
    (if negb (videoRtxSsrc (ssrcs offer) =? 0) then 55555 else u32 (rands 2%nat)).

(** ** The codes of an offer *)

Section Codes.
(** boost::regex_search with the expression: its first group when it matches. *)
Variable regex_search : str -> str -> option str.

Definition GetCodesNumber (offer reg : str) : Z :=
  match regex_search offer reg with
  | Some group => fst (read_int (group, true) (-1))
  | None => -1
  end.

(** [insert] of a map keeps an entry that is there. *)
Definition insert (k v : Z) (m : map_t Z) : map_t Z := match find k m with Some _ => m | None => store k v m end.

Definition extract_code (offer : str) (s : SdpInfo) (reg : string * Z) : SdpInfo :=
  let (name, pt) := reg in
  let codes := GetCodesNumber offer (lit "a=rtpmap:([1-9][0-9]*) " ++ lit name) in
  if negb (codes =? -1) && negb (codes =? pt)
  then with_codes s (insert codes pt (inOut_payload_ (pays s))) (insert pt codes (outIn_payload_ (pays s)))
  else s.

Definition ExtractNewCodes (s : SdpInfo) (offer : str) : SdpInfo :=
  fold_left (extract_code offer)
    [("VP8"%string, VP8_90000_PT); ("VP9"%string, VP9_90000_PT); ("H264"%string, H264_90000_PT); ("red"%string, RED_90000_PT);
     ("ulpfec"%string, ULP_90000_PT)] s.
End Codes.

(** ** Writing: getSdp *)

Definition line (s : str) : str := s ++ [newline].

Definition alphanum : str := lit "0123456789ABCDEFGHIJKLMNOPQRSTUVWXYZabcdefghijklmnopqrstuvwxyz".

Fixpoint random_chars (n : nat) (rands : nat -> Z) (k : nat) (a : list Z) : res (list Z) :=
  match n with
  | O => Ok a
  | S n => let! a := set8 a (Z.of_nat k) (rd alphanum (rands k mod 62)) in random_chars n rands (S k) a
  end.
Definition gen_random (rands : nat -> Z) (a : list Z) (len : nat) : res (list Z) :=
  let! a := random_chars len rands 0 a in set8 a (Z.of_nat len) 0.

(** A string up to its terminator. *)
Fixpoint c_str (a : list Z) : str :=
  match a with
  | [] => []
  | c :: a => if c =? 0 then [] else c :: c_str a
  end.

(** The loops over the tags count in 8 bits; they end when there are at most
    255 tags. *)
Fixpoint each_tag (fuel : nat) (i : Z) (tags : list BundleTag) (f : BundleTag -> str) : res str :=
  if i <? zlen tags then
    match fuel with
    | O => NoFuel
    | S fuel =>
        match nth_error tags (Z.to_nat i) with
        | Some t => let! rest := each_tag fuel (u8 (i + 1)) tags f in Ok (f t ++ rest)
        | None => Oob
        end
    end
  else Ok [].
Definition tags_fuel : nat := 256.

Definition mid_line (media : MediaType) (t : BundleTag) : str :=
  if media_eqb (tag_mediaType t) media then line (lit "a=mid:" ++ id t) else [].

Definition direction_line (d : StreamDirection) : str :=
  match d with
  | SENDONLY => line (lit "a=sendonly") | SENDRECV => line (lit "a=sendrecv") | RECVONLY => line (lit "a=recvonly")
  end.

Definition crypto_lines (media : MediaType) (l : list CryptoInfo) : str :=
  concat (map (fun c =>
    if media_eqb (crypto_mediaType c) media
    then line (lit "a=crypto:" ++ dec (crypto_tag c) ++ lit " " ++ cipherSuite c ++ lit " inline:" ++ keyParams c) else []) l).

Definition of_media (media : MediaType) (v : list RtpMap) : list RtpMap := filter (fun r => media_eqb (map_mediaType r) media) v.

(** The payload types of the first line of a stream: those of audio with a space
    between them, those of video with one while fewer than [codecs]. *)
Definition audio_numbers (v : list RtpMap) : str :=
  match of_media AUDIO_TYPE v with
  | [] => []
  | r :: v => dec (payloadType r) ++ concat (map (fun r => lit " " ++ dec (payloadType r)) v)
  end.
Fixpoint video_numbers (counter codecs : Z) (v : list RtpMap) : str :=
  match v with
  | [] => []
  | r :: v =>
      let counter := counter + 1 in
      dec (payloadType r) ++ (if counter <? codecs then lit " " else []) ++ video_numbers counter codecs v
  end.

Definition fmtp_line (pt : Z) (kv : str * str) : str :=
  let (k, v) := kv in
  lit "a=fmtp:" ++ dec pt ++ lit " " ++ (if negb (str_eqb k (lit "none")) then k ++ lit "=" else []) ++ v.
Definition fmtp_lines (r : RtpMap) : str := concat (map (fun kv => line (fmtp_line (s32 (payloadType r)) kv)) (formatParameters r)).

Definition audio_map_lines (r : RtpMap) : str :=
  line (lit "a=rtpmap:" ++ dec (s32 (payloadType r)) ++ lit " " ++ encodingName r ++ lit "/" ++ dec (clockRate r) ++
        (if 1 <? channels r then lit "/" ++ dec (channels r) else [])) ++
  fmtp_lines r.

(** [set_min] is the flag that asks for a least bitrate. *)
Definition video_map_lines (set_min : bool) (min_bitrate : Z) (r : RtpMap) : str :=
  line (lit "a=rtpmap:" ++ dec (s32 (payloadType r)) ++ lit " " ++ encodingName r ++ lit "/" ++ dec (clockRate r)) ++
  concat (map (fun f => line (lit "a=rtcp-fb:" ++ dec (s32 (payloadType r)) ++ lit " " ++ f)) (feedbackTypes r)) ++
  fmtp_lines r ++
  (if set_min then line (lit "a=fmtp:" ++ dec (s32 (payloadType r)) ++ lit " x-google-min-bitrate=" ++ dec min_bitrate) else []).

Definition ssrc_lines (ssrc : Z) (cname : str) (msid label : str) : str :=
  line (lit "a=ssrc:" ++ dec ssrc ++ lit " cname:" ++ cname) ++
  line (lit "a=ssrc:" ++ dec ssrc ++ lit " msid:" ++ msid ++ lit " " ++ label) ++
  line (lit "a=ssrc:" ++ dec ssrc ++ lit " mslabel:" ++ msid) ++
  line (lit "a=ssrc:" ++ dec ssrc ++ lit " label:" ++ msid ++ label).

Fixpoint extended_lines (t : Z) (l : list Z) (msid : str) : str :=
  match l with
  | [] => []
  | ssrc :: l => ssrc_lines ssrc (lit "o/orbit") msid (lit "v" ++ dec t) ++ extended_lines (t + 1) l msid
  end.

Definition profile_str (p : Profile) : str := match p with SAVPF => lit "SAVPF " | AVPF => lit "AVPF " end.

Definition candidate_lines (wanted : CandidateInfo -> bool) (l : list CandidateInfo) : str :=
  concat (map (fun c => if wanted c then line (ToString c) else []) l).

Definition transport_lines (s : SdpInfo) : str :=
  (if isFingerprint (sess s) then line (lit "a=fingerprint:sha-256 " ++ fingerprint (sess s)) else []) ++
  (match setup_ (sess s) with [] => [] | setup => line (lit "a=setup:" ++ setup) end).

(** The part of audio, with the source that is to be printed. *)
Definition audio_part (audio_nack : bool) (msid : str) (s : SdpInfo) : res str :=
  let x := sess s in
  let i := ice s in
  let! mids := each_tag tags_fuel 0 (bundleTags x) (mid_line AUDIO_TYPE) in
  Ok (line (lit "m=audio 1 UDP/TLS/RTP/" ++ profile_str (profile x) ++ audio_numbers (payloadVector (pays s))) ++
      line (lit "c=IN IP4 0.0.0.0") ++
      (if isRtcpMux x then line (lit "a=rtcp:1 IN IP4 0.0.0.0") else []) ++
      candidate_lines (fun c => media_eqb (mediaType c) AUDIO_TYPE || isBundle x) (candidateVector_ s) ++
      (match iceAudioUsername_ i with
       | [] => line (lit "a=ice-ufrag:" ++ iceVideoUsername_ i) ++ line (lit "a=ice-pwd:" ++ iceVideoPassword_ i)
       | user => line (lit "a=ice-ufrag:" ++ user) ++ line (lit "a=ice-pwd:" ++ iceAudioPassword_ i)
       end) ++
      transport_lines s ++ direction_line (audioDirection (strs s)) ++ mids ++
      (if isExtMapEnabled (sets s) then line (lit "a=extmap:1 urn:ietf:params:rtp-hdrext:ssrc-audio-level") else []) ++
      (if isRtcpMux x then line (lit "a=rtcp-mux") else []) ++ crypto_lines AUDIO_TYPE (cryptoVector_ s) ++
      concat (map audio_map_lines (of_media AUDIO_TYPE (payloadVector (pays s)))) ++
      line (lit "a=ptime:50") ++ line (lit "a=maxptime:60") ++
      ssrc_lines (audioSsrc (ssrcs s)) (lit "o/i14u9pJrxRKAsu") msid (lit "a0") ++
      (if audio_nack then line (lit "a=rtcp-fb:111 nack") else [])).

Definition video_part (set_min : bool) (msid : str) (s : SdpInfo) : res str :=
  let x := sess s in
  let i := ice s in
  let r := ssrcs s in
  let! mids := each_tag tags_fuel 0 (bundleTags x) (mid_line VIDEO_TYPE) in
  Ok (line (lit "m=video 1 UDP/TLS/RTP/" ++ profile_str (profile x) ++
            video_numbers 0 (videoCodecs (strs s)) (of_media VIDEO_TYPE (payloadVector (pays s)))) ++
      line (lit "b=AS:" ++ dec (target_bandwidth_ (sets s))) ++ line (lit "c=IN IP4 0.0.0.0") ++
      (if isRtcpMux x then line (lit "a=rtcp:1 IN IP4 0.0.0.0") else []) ++
      candidate_lines (fun c => media_eqb (mediaType c) VIDEO_TYPE) (candidateVector_ s) ++
      line (lit "a=ice-ufrag:" ++ iceVideoUsername_ i) ++ line (lit "a=ice-pwd:" ++ iceVideoPassword_ i) ++
      (if isExtMapEnabled (sets s)
       then line (lit "a=extmap:2 urn:ietf:params:rtp-hdrext:toffset") ++
            line (lit "a=extmap:3 http://www.webrtc.org/experiments/rtp-hdrext/abs-send-time") else []) ++
      transport_lines s ++ direction_line (videoDirection (strs s)) ++ mids ++
      (if isRtcpMux x then line (lit "a=rtcp-mux") else []) ++ crypto_lines VIDEO_TYPE (cryptoVector_ s) ++
      concat (map (video_map_lines set_min (min_bitrate_ (sets s))) (of_media VIDEO_TYPE (payloadVector (pays s)))) ++
      (if negb (videoSsrc r =? 0) then ssrc_lines (videoSsrc r) (lit "o/orbit") msid (lit "v0") else []) ++
      extended_lines 1 (extended_video_ssrc r) msid ++
      (if negb (videoRtxSsrc r =? 0) then ssrc_lines (videoRtxSsrc r) (lit "o/orbit") msid (lit "v0") else [])).

(** [audio_nack] and [set_min] are flags; [beyond] is what lies behind the ten
    bytes of the array of the identifier, whose terminator is written there.
    The source of audio is chosen when it is written. *)
Definition getSdp (audio_nack set_min : bool) (rands : nat -> Z) (beyond : list Z) (s : SdpInfo) : res (str * SdpInfo) :=
  let! a := gen_random rands (zeros 10 ++ beyond) 10 in
  let msid := c_str a in
  let x := sess s in
  let! group :=
    if isBundle x then
      let! ids := each_tag tags_fuel 0 (bundleTags x) (fun t => lit " " ++ id t) in
      Ok (line (lit "a=group:BUNDLE" ++ ids) ++ line (lit "a=msid-semantic: WMS " ++ msid))
    else Ok [] in
  let r := ssrcs s in
  let s := if hasAudio (strs s) && (audioSsrc r =? 0) then with_ssrcs s 44444 (videoSsrc r) (videoRtxSsrc r) else s in
  let! audio := if hasAudio (strs s) then audio_part audio_nack msid s else Ok [] in
  let! video := if hasVideo (strs s) then video_part set_min msid s else Ok [] in
  Ok (line (lit "v=0") ++ line (lit "o=- 0 0 IN IP4 127.0.0.1") ++ line (lit "s=" ++ lit "Orbit") ++ line (lit "t=0 0") ++
      group ++ audio ++ video, s).

(** ** Reading: processSdp *)

(** splitOneOf, which leaves at most [left] characters of [delims] behind as
    ends of parts and keeps a last part only when there is something of it. *)
Definition may_split (left : option nat) : bool := match left with Some O => false | _ => true end.
Definition one_less (left : option nat) : option nat := match left with Some (S n) => Some n | _ => left end.
Fixpoint splitOneOf (s delims : str) (left : option nat) : list str :=
  match s with
  | [] => []
  | c :: s =>
      if may_split left && mem c delims then [] :: splitOneOf s delims (one_less left)
      else match splitOneOf s delims left with [] => [[c]] | p :: parts => (c :: p) :: parts end
  end.

(** [parts[k]]. *)
Definition part (parts : list str) (k : nat) : res str :=
  match nth_error parts k with Some p => Ok p | None => Oob end.

(** The characters [\r] and [\n] after those of a literal. *)
Definition cr_lf : str := [13; 10].

(** [junk k] is what the members of the [k]-th candidate hold that its
    constructor does not set. *)
Definition processCandidate (junk : nat -> CandidateInfo) (pieces : list str) (media : MediaType) (s : SdpInfo) : res (bool * SdpInfo) :=
  let c := new_CandidateInfo (junk (length (candidateVector_ s))) in
  let! f := part pieces 1 in
  let! component := part pieces 2 in
  let! net := part pieces 3 in
  if negb (str_eqb net (lit "UDP")) && negb (str_eqb net (lit "udp")) then Ok (false, s)
  else
    let! prio := part pieces 4 in
    let! host := part pieces 5 in
    let! port := part pieces 6 in
    let! typ := part pieces 7 in
    if negb (str_eqb typ (lit "typ")) then Ok (false, s)
    else
      let! type := part pieces 8 in
      let t := host_type_of type in
      let! (raddr, rport) :=
        (if is_reflexive t
         then let! raddr := part pieces 10 in
              let! rport := part pieces 12 in
              Ok (raddr, s32 (u32 (strtoul rport)))
         else Ok (rAddress c, rPort c)) in
      Ok (true,
          set_candidates s (candidateVector_ s ++
            [mk_candidate (cand_isBundle c) (tag c) (u32 (strtoul prio)) (u32 (strtoul component)) f host raddr
               (s32 (u32 (strtoul port))) rport net t (transProtocol c) (username c) (password c) media])).

(** What the loop over the lines keeps. *)
Record reader := mk_reader {
  desc : SdpInfo;
  mlineNum : Z;
  mtype : MediaType;
  tmpFeedbackVector : list str
}.
Definition set_desc (r : reader) (s : SdpInfo) : reader := mk_reader s (mlineNum r) (mtype r) (tmpFeedbackVector r).

Definition on_mux (r : reader) : reader := let s := desc r in set_desc r (with_mux s true (profile (sess s))).
Definition on_savpf (r : reader) : reader := let s := desc r in set_desc r (with_mux s (isRtcpMux (sess s)) SAVPF).

Definition on_direction (d : StreamDirection) (r : reader) : reader :=
  let s := desc r in
  set_desc r
    (match mtype r with
     | AUDIO_TYPE => with_directions s (videoDirection (strs s)) d
     | _ => with_directions s d (audioDirection (strs s))
     end).

Definition on_fingerprint (line : str) (r : reader) : res reader :=
  let! value := part (splitOneOf line (lit ":") (Some 1%nat)) 1 in
  let! print := part (splitOneOf value (lit " ") None) 1 in
  Ok (set_desc r (with_fingerprint (desc r) true print)).

Definition on_group (line : str) (r : reader) : res reader :=
  let s := desc r in
  let parts := splitOneOf line (lit ":  " ++ cr_lf) (Some 10%nat) in
  let! kind := part parts 1 in
  Ok (set_desc r (with_bundle s (isBundle (sess s) || str_eqb kind (lit "BUNDLE"))
        (bundleTags (sess s) ++ map (fun t => mk_tag t OTHER) (skipn 2 parts)))).

Definition on_video (r : reader) : reader :=
  let s := desc r in
  let m := strs s in
  let n := mlineNum r + 1 in
  mk_reader
    (set_strs s (mk_streams (hasAudio m) true (videoDirection m) (audioDirection m) n (audioSdpMLine m) (videoCodecs m) (audioCodecs m)
       (videoBandwidth m))) n VIDEO_TYPE (tmpFeedbackVector r).
Definition on_audio (r : reader) : reader :=
  let s := desc r in
  let m := strs s in
  let n := mlineNum r + 1 in
  mk_reader
    (set_strs s (mk_streams true (hasVideo m) (videoDirection m) (audioDirection m) (videoSdpMLine m) n (videoCodecs m) (audioCodecs m)
       (videoBandwidth m))) n AUDIO_TYPE (tmpFeedbackVector r).

Definition on_candidate (junk : nat -> CandidateInfo) (line : str) (r : reader) : res reader :=
  let! (_, s) := processCandidate junk (splitOneOf line (lit " :") None) (mtype r) (desc r) in
  Ok (set_desc r s).

Definition on_crypto (line : str) (r : reader) : res reader :=
  let pieces := splitOneOf line (lit " :") None in
  let! suite := part pieces 2 in
  let! key := part pieces 4 in
  Ok (set_desc r (set_cryptos (desc r) (cryptoVector_ (desc r) ++ [mk_crypto 0 suite key (mtype r)]))).

(** The value of a credential, unless it is empty. *)
Definition credential (line : str) : res (option str) :=
  let! value := part (splitOneOf line (lit ":") (Some 1%nat)) 1 in
  Ok (nth_error (splitOneOf value [13] (Some 1%nat)) 0).
Definition on_user (line : str) (r : reader) : res reader :=
  let! user := credential line in
  let s := desc r in
  let i := ice s in
  Ok (set_desc r
    (match user with
     | None => s
     | Some user =>
         match mtype r with
         | AUDIO_TYPE => set_ice s (mk_ice (iceVideoUsername_ i) user (iceVideoPassword_ i) (iceAudioPassword_ i))
         | _ => set_ice s (mk_ice user (iceAudioUsername_ i) (iceVideoPassword_ i) (iceAudioPassword_ i))
         end
     end)).
Definition on_pass (line : str) (r : reader) : res reader :=
  let! pass := credential line in
  let s := desc r in
  let i := ice s in
  Ok (set_desc r
    (match pass with
     | None => s
     | Some pass =>
         match mtype r with
         | AUDIO_TYPE => set_ice s (mk_ice (iceVideoUsername_ i) (iceAudioUsername_ i) (iceVideoPassword_ i) pass)
         | _ => set_ice s (mk_ice (iceVideoUsername_ i) (iceAudioUsername_ i) pass (iceAudioPassword_ i))
         end
     end)).

(** The loop over the tags, which counts in 8 bits: a tag that has the name gets
    the type. *)
Fixpoint set_tags (fuel : nat) (i : Z) (name : str) (media : MediaType) (tags : list BundleTag) : res (list BundleTag) :=
  if i <? zlen tags then
    match fuel with
    | O => NoFuel
    | S fuel =>
        match nth_error tags (Z.to_nat i) with
        | Some t =>
            set_tags fuel (u8 (i + 1)) name media
              (if str_eqb (id t) name then upd tags (Z.to_nat i) (mk_tag (id t) media) else tags)
        | None => Oob
        end
    end
  else Ok tags.
Definition on_mid (line : str) (r : reader) : res reader :=
  let s := desc r in
  match splitOneOf line (lit ": " ++ cr_lf) (Some 4%nat) with
  | _ :: name :: _ =>
      let! tags := set_tags tags_fuel 0 name (mtype r) (bundleTags (sess s)) in
      Ok (set_desc r (with_bundle s (isBundle (sess s)) tags))
  | _ => Ok r
  end.

Definition on_ssrc (line : str) (r : reader) : res reader :=
  let s := desc r in
  let x := ssrcs s in
  let parts := splitOneOf line (lit " :") (Some 2%nat) in
  if media_eqb (mtype r) VIDEO_TYPE && (videoSsrc x =? 0) then
    let! ssrc := part parts 1 in Ok (set_desc r (with_ssrcs s (audioSsrc x) (u32 (strtoul ssrc)) (videoRtxSsrc x)))
  else if media_eqb (mtype r) AUDIO_TYPE && (audioSsrc x =? 0) then
    let! ssrc := part parts 1 in Ok (set_desc r (with_ssrcs s (u32 (strtoul ssrc)) (videoSsrc x) (videoRtxSsrc x)))
  else Ok r.
Definition on_ssrc_group (line : str) (r : reader) : reader :=
  let s := desc r in
  let x := ssrcs s in
  match mtype r, nth_error (splitOneOf line (lit " :") (Some 10%nat)) 3 with
  | VIDEO_TYPE, Some ssrc => set_desc r (with_ssrcs s (audioSsrc x) (videoSsrc x) (u32 (strtoul ssrc)))
  | _, _ => r
  end.

(** The loop over the server's own codecs: the map that is read gets the type
    and the channels of the last that has the name and the clock. *)
Definition match_codec (pt : Z) (name : str) (clock : Z) (st : SdpInfo * option RtpMap) (media : MediaType) (rtp : RtpMap)
  : SdpInfo * option RtpMap :=
  if str_eqb (encodingName rtp) name && (clockRate rtp =? clock) then
    let p := pays (fst st) in
    (with_maps (fst st) (store (s32 (payloadType rtp)) (s32 pt) (inOutPTMap p)) (store (s32 pt) (s32 (payloadType rtp)) (outInPTMap p)),
     Some (mk_map (payloadType rtp) name clock media (channels rtp) [] []))
  else st.
Definition learn_codec (pt : Z) (name : str) (clock : Z) (media : MediaType) (s : SdpInfo) : SdpInfo :=
  let (s, found) :=
    fold_left (fun st rtp => match_codec pt name clock st media rtp) (internalPayloadVector_ (pays s)) (s, None) in
  match found with
  | Some theMap =>
      let m := strs s in
      let s :=
        if media_eqb media VIDEO_TYPE then with_counts s (s32 (videoCodecs m + 1)) (audioCodecs m)
        else with_counts s (videoCodecs m) (s32 (audioCodecs m + 1)) in
      with_payloads s (payloadVector (pays s) ++ [theMap])
  | None => s
  end.
Definition on_rtpmap (line : str) (r : reader) : res reader :=
  let parts := splitOneOf line (lit " :/" ++ [newline]) (Some 4%nat) in
  let! pt := part parts 1 in
  let! name := part parts 2 in
  let! clock := part parts 3 in
  Ok (set_desc r (learn_codec (u32 (strtoul pt)) name (u32 (strtoul clock)) (mtype r) (desc r))).

Definition on_feedback (line : str) (r : reader) : reader :=
  mk_reader (desc r) (mlineNum r) (mtype r) (tmpFeedbackVector r ++ [line]).

Definition add_format (pt : Z) (option value : str) (rtp : RtpMap) : RtpMap :=
  if payloadType rtp =? pt
  then mk_map (payloadType rtp) (encodingName rtp) (clockRate rtp) (map_mediaType rtp) (channels rtp) (feedbackTypes rtp)
         (str_store option value (formatParameters rtp))
  else rtp.
Definition on_fmtp (line : str) (r : reader) : reader :=
  let s := desc r in
  match splitOneOf line (lit " :=") (Some 4%nat) with
  | _ :: _ :: pt :: value :: more =>
      let (option, value) := match more with [] => (lit "none", value) | v :: _ => (value, v) end in
      set_desc r (with_payloads s (map (add_format (u32 (strtoul pt)) option value) (payloadVector (pays s))))
  | _ => r
  end.

Definition on_bandwidth (line : str) (r : reader) : reader :=
  let s := desc r in
  match mtype r, nth_error (splitOneOf line (lit ":") (Some 2%nat)) 1 with
  | VIDEO_TYPE, Some v => set_desc r (with_bandwidth s (u32 (strtoul v)))
  | _, _ => r
  end.

Definition on_if (b : bool) (f : reader -> res reader) (r : reader) : res reader := if b then f r else Ok r.

(** The body of the loop: what is found in the line is looked at in this order. *)
Definition process_found (found : str -> bool) (junk : nat -> CandidateInfo) (line : str) (r : reader) : res reader :=
  let r := if found (lit "a=rtcp-mux") then on_mux r else r in
  let r :=
    if found (lit "a=recvonly") then on_direction RECVONLY r
    else if found (lit "a=sendonly") then on_direction SENDONLY r
    else if found (lit "a=sendrecv") then on_direction SENDRECV r else r in
  let r := if found (lit "SAVPF") then on_savpf r else r in
  let! r := on_if (found (lit "a=fingerprint")) (on_fingerprint line) r in
  let! r := on_if (found (lit "a=group:")) (on_group line) r in
  let r := if found (lit "m=video") then on_video r else r in
  let r := if found (lit "m=audio") then on_audio r else r in
  let! r := on_if (found (lit "a=candidate:")) (on_candidate junk line) r in
  let! r := on_if (found (lit "a=crypto:")) (on_crypto line) r in
  let! r := on_if (found (lit "a=ice-ufrag")) (on_user line) r in
  let! r := on_if (found (lit "a=ice-pwd")) (on_pass line) r in
  let! r := on_if (found (lit "a=mid")) (on_mid line) r in
  let! r := on_if (found (lit "a=ssrc")) (on_ssrc line) r in
  let r := if found (lit "a=ssrc-group") then on_ssrc_group line r else r in
  let! r := on_if (found (lit "a=rtpmap:")) (on_rtpmap line) r in
  let r := if found (lit "a=rtcp-fb:") then on_feedback line r else r in
  let r := if found (lit "a=fmtp:") then on_fmtp line r else r in
  Ok (if found (lit "b=AS:") then on_bandwidth line r else r).
Definition process_line (junk : nat -> CandidateInfo) (line : str) (r : reader) : res reader :=
  process_found (fun needle => has needle line) junk line r.

Fixpoint process_lines (junk : nat -> CandidateInfo) (ls : list str) (r : reader) : res reader :=
  match ls with
  | [] => Ok r
  | l :: ls => let! r := process_line junk l r in process_lines junk ls r
  end.

(** The credentials a stream lacks are those of the other. *)
Definition share_credentials (i : credentials) : option credentials :=
  match iceVideoUsername_ i, iceAudioUsername_ i with
  | [], [] => None
  | [], _ => Some (mk_ice (iceAudioUsername_ i) (iceAudioUsername_ i) (iceAudioPassword_ i) (iceAudioPassword_ i))
  | _, [] => Some (mk_ice (iceVideoUsername_ i) (iceVideoUsername_ i) (iceVideoPassword_ i) (iceVideoPassword_ i))
  | _, _ => Some i
  end.

Definition fill_candidate (s : SdpInfo) (c : CandidateInfo) : CandidateInfo :=
  let i := ice s in
  let (user, pass) :=
    match mediaType c with
    | VIDEO_TYPE => (iceVideoUsername_ i, iceVideoPassword_ i)
    | _ => (iceAudioUsername_ i, iceAudioPassword_ i)
    end in
  mk_candidate (isBundle (sess s)) (tag c) (priority c) (componentId c) (foundation c) (hostAddress c) (rAddress c) (hostPort c) (rPort c)
    (netProtocol c) (hostType c) (transProtocol c) user pass (mediaType c).

Definition add_feedback (pt : Z) (feedback : str) (rtp : RtpMap) : RtpMap :=
  if payloadType rtp =? pt
  then mk_map (payloadType rtp) (encodingName rtp) (clockRate rtp) (map_mediaType rtp) (channels rtp) (feedbackTypes rtp ++ [feedback])
         (formatParameters rtp)
  else rtp.
Fixpoint map_feedback (lines : list str) (v : list RtpMap) : res (list RtpMap) :=
  match lines with
  | [] => Ok v
  | l :: lines =>
      let parts := splitOneOf l (lit " :") (Some 2%nat) in
      let! pt := part parts 1 in
      let! feedback := part parts 2 in
      map_feedback lines (map (add_feedback (u32 (strtoul pt)) feedback) v)
  end.

Definition media_of (media : str) : MediaType :=
  if str_eqb media (lit "audio") then AUDIO_TYPE else if str_eqb media (lit "video") then VIDEO_TYPE else OTHER.

Definition processSdp (junk : nat -> CandidateInfo) (sdp media : str) (s : SdpInfo) : res (bool * SdpInfo) :=
  let! r := process_lines junk (lines sdp) (mk_reader s (-1) (media_of media) []) in
  let s := desc r in
  match share_credentials (ice s) with
  | None => Ok (false, s)
  | Some i =>
      let s := set_ice s i in
      let s := set_candidates s (map (fill_candidate s) (candidateVector_ s)) in
      let! v := map_feedback (tmpFeedbackVector r) (payloadVector (pays s)) in
      Ok (true, with_payloads s v)
  end.

Definition initWithSdp (junk : nat -> CandidateInfo) (s : SdpInfo) (sdp media : str) : res (bool * SdpInfo) := processSdp junk sdp media s.

Definition copyCandidateInfos (s : SdpInfo) : list CandidateInfo := candidateVector_ s.
End Sdp.
