(* ===== verification/SdpFacts.v ===== *)
(** * Session descriptions: the lines

    How [processSdp] reads each kind of line, and the text that [getSdp] writes
    as the list of its lines. *)

From Stdlib Require Import Ascii String.
From S2P Require Import Prelude Wire OrderedMap Text Sdp.
Import Wire OrderedMap Text Sdp.

Module SdpFacts.

(** The store at the end of what is done. *)
Lemma upd_end {A} (a : list A) x r v : upd (a ++ x :: r) (length a) v = a ++ v :: r.
Proof. induction a as [|y a IH]; cbn [app length upd]; [reflexivity|]. now rewrite IH. Qed.
Lemma wr_end a x r v : wr (a ++ x :: r) (zlen a) v = a ++ v :: r.
Proof. unfold wr. pose proof (zlen_nonneg a). replace (zlen a <? 0) with false by lia. unfold zlen. rewrite Nat2Z.id. apply upd_end. Qed.

(** ** Searching a line for a keyword

    All keywords but the profile's have an equals sign behind their first
    character. *)

Lemma has_behind y n p x s : free [61] p = true -> x <> 61 -> x <> y -> has (y :: 61 :: n) (p ++ x :: s) = has (y :: 61 :: n) s.
Proof.
  intros F X Y. induction p as [|c p IH].
  - cbn [app has prefix]. now replace (y =? x) with false by lia.
  - rewrite free_cons in F. apply andb_true_iff in F as [_ F]. cbn [app has]. rewrite (IH F).
    replace (prefix (y :: 61 :: n) (c :: p ++ x :: s)) with false; [reflexivity|]. symmetry. cbn [prefix].
    apply andb_false_iff. right. destruct p as [|d p]; cbn [app].
    + now replace (61 =? x) with false by lia.
    + rewrite free_cons in F. unfold mem in F. cbn [existsb] in F. now replace (61 =? d) with false by lia.
Qed.

Lemma has_free y n s : free [61] s = true -> has (y :: 61 :: n) s = false.
Proof.
  induction s as [|c s IH]; intros F; [reflexivity|]. rewrite free_cons in F. apply andb_true_iff in F as [_ F]. cbn [has]. rewrite (IH F).
  rewrite orb_false_r. cbn [prefix]. apply andb_false_iff. right. destruct s as [|d s]; [reflexivity|].
  rewrite free_cons in F. unfold mem in F. cbn [existsb] in F. now replace (61 =? d) with false by lia.
Qed.

Lemma has_front y n x s : free [61] s = true -> has (y :: 61 :: n) (x :: 61 :: s) = prefix (y :: 61 :: n) (x :: 61 :: s).
Proof.
  intros F. cbn [has]. rewrite (has_free _ _ _ F), orb_false_r. destruct (prefix (y :: 61 :: n) (x :: 61 :: s)); [reflexivity|].
  cbn [orb prefix]. destruct s as [|c s]; [now rewrite andb_false_r|]. rewrite free_cons in F. unfold mem in F. cbn [existsb] in F.
  replace (61 =? c) with false by lia. cbn [andb]. now rewrite andb_false_r.
Qed.

(** A string is free of fewer characters as well. *)
Lemma free_sub cs ds s : free cs s = true -> forallb (fun d => mem d cs) ds = true -> free ds s = true.
Proof.
  intros F S. revert F. apply free_weaken. intros c M. unfold mem in M. apply existsb_exists in M as (d & I & E). apply Z.eqb_eq in E. subst.
  rewrite forallb_forall in S. now apply S.
Qed.

(** A line with one equals sign, behind its first character. *)
Definition plain (l : str) : bool :=
  match l with
  | x :: y :: s => negb (x =? newline) && (y =? 61) && free [61; newline] s
  | _ => false
  end.

Lemma plain_shape l : plain l = true -> exists x s, l = x :: 61 :: s /\ free [61] s = true /\ free [newline] l = true.
Proof.
  destruct l as [|x [|y s]]; try discriminate. cbn [plain]. intros H. apply andb_true_iff in H as [H F]. apply andb_true_iff in H as [X Y].
  apply Z.eqb_eq in Y. subst. assert (G := free_sub _ [newline] s F eq_refl). apply (free_sub _ [61] s) in F; [|reflexivity]. exists x, s. repeat split; [assumption|].
  rewrite !free_cons, G. unfold mem. cbn [existsb]. now rewrite orb_false_r, X.
Qed.

Lemma plain_app a b : plain a = true -> free [61; newline] b = true -> plain (a ++ b) = true.
Proof.
  destruct a as [|x [|y a]]; try discriminate. cbn [plain app]. intros H F. apply andb_true_iff in H as [H G]. now rewrite H, free_app, G, F.
Qed.

(** *** The body of the loop depends on the keywords that are found alone *)

Definition marked : list string :=
  ["a=rtcp-mux"; "a=recvonly"; "a=sendonly"; "a=sendrecv"; "a=fingerprint"; "a=group:"; "m=video"; "m=audio"; "a=candidate:";
   "a=crypto:"; "a=ice-ufrag"; "a=ice-pwd"; "a=mid"; "a=ssrc"; "a=ssrc-group"; "a=rtpmap:"; "a=rtcp-fb:"; "a=fmtp:"; "b=AS:"]%string.

Lemma marked_in n : existsb (String.eqb n) marked = true -> In n marked.
Proof. intros H. apply existsb_exists in H as (m & I & E). apply String.eqb_eq in E. now subst. Qed.

Lemma marked_shape n : In n marked -> exists y m, lit n = y :: 61 :: m /\ (y = 97 \/ y = 98 \/ y = 109).
Proof.
  intros I. assert (A : forallb (fun n => match lit n with y :: e :: _ => (e =? 61) && ((y =? 97) || (y =? 98) || (y =? 109)) | _ => false end) marked = true)
    by reflexivity.
  rewrite forallb_forall in A. specialize (A n I). destruct (lit n) as [|y [|e m]]; try discriminate. exists y, m.
  apply andb_true_iff in A as [A B]. apply Z.eqb_eq in A. subst. split; [reflexivity|lia].
Qed.

Definition SAVPF_only (r : reader) : Prop := profile (sess (desc r)) = SAVPF.

Lemma savpf_idle r : SAVPF_only r -> on_savpf r = r.
Proof.
  destruct r as [[cv cr i x [b m p f fi st t] ss pa se] n mt fb]. unfold SAVPF_only. cbn. intros ->. reflexivity.
Qed.

Lemma mux_savpf (b : bool) r : SAVPF_only r -> SAVPF_only (if b then on_mux r else r).
Proof. now destruct b. Qed.

Lemma direction_savpf d r : SAVPF_only r -> SAVPF_only (on_direction d r).
Proof. unfold SAVPF_only, on_direction. now destruct (mtype r). Qed.

Lemma found_alike f g junk l r : (forall n, In n marked -> f (lit n) = g (lit n)) -> SAVPF_only r ->
  process_found f junk l r = process_found g junk l r.
Proof.
  intros E P. unfold process_found.
  repeat match goal with |- context [f (lit ?s)] => lazymatch s with "SAVPF"%string => fail 
    | _ => replace (f (lit s)) with (g (lit s)) by (symmetry; apply E, marked_in; reflexivity) end end.
  set (r1 := if g (lit "a=rtcp-mux") then on_mux r else r). assert (P1 : SAVPF_only r1) by now apply mux_savpf. clearbody r1.
  match goal with |- context [if f _ then on_savpf ?x else ?x] => set (r2 := x) end.
  assert (P2 : SAVPF_only r2). { unfold r2. destruct (g (lit "a=recvonly")), (g (lit "a=sendonly")), (g (lit "a=sendrecv")); (assumption || now apply direction_savpf). }
  rewrite (savpf_idle r2 P2). clearbody r2. now destruct (f (lit "SAVPF")), (g (lit "SAVPF")).
Qed.

Lemma plain_process junk l r : plain l = true -> SAVPF_only r -> process_line junk l r = process_found (fun n => prefix n l) junk l r.
Proof.
  intros H P. destruct (plain_shape l H) as (x & s & -> & F & _). unfold process_line. apply found_alike; [|assumption].
  intros n I. destruct (marked_shape n I) as (y & m & -> & _). now apply has_front.
Qed.

(** ** Splitting a line *)

Lemma split_part s delims left d r : may_split left = true -> free delims s = true -> mem d delims = true ->
  splitOneOf (s ++ d :: r) delims left = s :: splitOneOf r delims (one_less left).
Proof.
  intros M F D. induction s as [|c s IH]; cbn [app splitOneOf]; rewrite M; cbn [andb].
  - now rewrite D.
  - rewrite free_cons in F. apply andb_true_iff in F as [N F]. apply negb_true_iff in N. now rewrite N, (IH F).
Qed.

Lemma split_last s delims left : may_split left && negb (free delims s) = false -> s <> [] -> splitOneOf s delims left = [s].
Proof.
  induction s as [|c s IH]; intros F N; [contradiction|]. cbn [splitOneOf]. rewrite free_cons in F.
  assert (E : may_split left && mem c delims = false) by (destruct (may_split left), (mem c delims); [discriminate F|reflexivity..]).
  rewrite E. destruct s as [|e s]; [reflexivity|]. rewrite IH; [reflexivity| |discriminate].
  destruct (may_split left), (mem c delims); [discriminate E|exact F|reflexivity..].
Qed.

(** ** How the lines are read

    [reads ls F]: the lines are lines, and reading them does [F], from every
    reader that holds few tags and the profile of its constructor. *)

Definition Ready (r : reader) : Prop := SAVPF_only r /\ zlen (bundleTags (sess (desc r))) <= 255.

Section Reading.
Context (junk : nat -> CandidateInfo).

Definition reads (ls : list str) (F : reader -> reader) : Prop :=
  forallb (free [newline]) ls = true /\ forall r, Ready r -> process_lines junk ls r = Ok (F r) /\ Ready (F r).

Lemma process_lines_app l1 l2 r : process_lines junk (l1 ++ l2) r = bind (process_lines junk l1 r) (process_lines junk l2).
Proof. revert r. induction l1 as [|l l1 IH]; intros r; [reflexivity|]. cbn [app process_lines]. destruct (process_line junk l r); cbn; auto. Qed.

Lemma reads_nil : reads [] (fun r => r).
Proof. split; auto. Qed.

Lemma reads_app l1 l2 F G : reads l1 F -> reads l2 G -> reads (l1 ++ l2) (fun r => G (F r)).
Proof.
  intros [A H] [B K]. split; [now rewrite forallb_app, A, B|]. intros r R. destruct (H r R) as [E R']. rewrite process_lines_app, E. cbn [bind].
  now apply K.
Qed.

Lemma reads_when (b : bool) l F : (b = true -> reads l F) -> reads (if b then l else []) (fun r => if b then F r else r).
Proof. destruct b; intros H; [now apply H|apply reads_nil]. Qed.

Lemma reads_each {A} (f : A -> list str) (F : A -> reader -> reader) l : Forall (fun x => reads (f x) (F x)) l ->
  reads (concat (map f l)) (fun r => fold_left (fun r x => F x r) l r).
Proof.
  induction 1 as [|x l H _ IH]; [apply reads_nil|]. cbn [map concat fold_left]. exact (reads_app _ _ _ _ H IH).
Qed.

Lemma reads_same l F G : reads l F -> (forall r, F r = G r) -> reads l G.
Proof. intros [A H] E. split; [assumption|]. intros r R. rewrite <- (E r). auto. Qed.

Lemma reads_plain l F : plain l = true ->
  (forall r, Ready r -> process_found (fun n => prefix n l) junk l r = Ok (F r) /\ Ready (F r)) -> reads [l] F.
Proof.
  intros P H. destruct (plain_shape l P) as (_ & _ & _ & _ & N). split; [cbn; now rewrite N|]. intros r R. cbn [process_lines].
  rewrite plain_process by (apply P || apply R). destruct (H r R) as [E R']. now rewrite E.
Qed.
End Reading.

(** A line that is plain because of its parts. *)
Lemma free_both cs a b : free cs a = true -> free cs b = true -> free cs (a ++ b) = true.
Proof. intros A B. now rewrite free_app, A, B. Qed.
Lemma free_front cs c s : mem c cs = false -> free cs s = true -> free cs (c :: s) = true.
Proof. intros A B. now rewrite free_cons, A, B. Qed.
Lemma free_dec_u32 cs n : 0 <= n < 2 ^ 32 -> forallb (fun c => negb (is_digit c)) cs = true -> free cs (dec n) = true.
Proof. intros N. apply dec_free. change (2 ^ 64) with (2 ^ 32 * 2 ^ 32). lia. Qed.
Ltac free_parts :=
  repeat lazymatch goal with
  | |- free _ (_ ++ _) = true => apply free_both
  | |- free _ (_ :: _) = true => apply free_front; [reflexivity|]
  | |- free _ (lit _) = true => reflexivity
  | |- free _ [] = true => reflexivity
  | |- free _ (dec _) = true => apply free_dec_u32; [lia|reflexivity]
  | |- free _ _ = true => assumption
  end.
Ltac plain_parts := lazymatch goal with |- plain (lit _ ++ _) = true => apply plain_app; [reflexivity|free_parts] | _ => reflexivity end.

(** Which keywords a line begins with. *)
Ltac keywords :=
  repeat match goal with |- context [prefix (lit ?s) ?l] => let b := eval lazy in (prefix (lit s) l) in change (prefix (lit s) l) with b end;
  cbn [on_if bind].
Ltac read_line := apply reads_plain; [plain_parts|]; let r := fresh "r" in let R := fresh "R" in intros r R; unfold process_found; keywords.
(** A reader whose profile and tags are those of one that is ready. *)
Ltac still_ready := match goal with R : Ready _ |- Ready _ => destruct R as [?S ?T]; split; [assumption|assumption] end.

Section Lines.
Context (junk : nat -> CandidateInfo).

Lemma idle_read l : plain l = true -> forallb (fun n => negb (prefix (lit n) l)) ("SAVPF"%string :: marked) = true ->
  reads junk [l] (fun r => r).
Proof.
  intros P K. apply reads_plain; [assumption|]. intros r R. unfold marked in K. cbn [forallb] in K. repeat (apply andb_true_iff in K as [?K0 K]).
  unfold process_found. repeat match goal with H : negb (prefix _ _) = true |- _ => apply negb_true_iff in H; rewrite H; clear H end. now split.
Qed.

Lemma mux_read : reads junk [lit "a=rtcp-mux"] on_mux.
Proof. read_line. split; [reflexivity|still_ready]. Qed.

Definition direction_word (d : StreamDirection) : str :=
  match d with SENDONLY => lit "a=sendonly" | SENDRECV => lit "a=sendrecv" | RECVONLY => lit "a=recvonly" end.
Lemma direction_read d : reads junk [direction_word d] (on_direction d).
Proof. destruct d; (read_line; split; [reflexivity|]; unfold on_direction; destruct (mtype r); still_ready). Qed.

Lemma audio_read x : free [61; newline] x = true -> reads junk [lit "m=audio" ++ x] on_audio.
Proof. intros F. read_line. split; [reflexivity|still_ready]. Qed.
Lemma video_read x : free [61; newline] x = true -> reads junk [lit "m=video" ++ x] on_video.
Proof. intros F. read_line. split; [reflexivity|still_ready]. Qed.

(** *** Lines with values *)

Lemma fingerprint_read fp : free (lit " =" ++ [newline]) fp = true -> fp <> [] ->
  reads junk [lit "a=fingerprint:sha-256 " ++ fp] (fun r => set_desc r (with_fingerprint (desc r) true fp)).
Proof.
  intros F N. assert (G : free [61; newline] fp = true) by now apply (free_sub _ _ _ F).
  read_line. unfold on_fingerprint. change (lit "a=fingerprint:sha-256 " ++ fp) with (lit "a=fingerprint" ++ 58 :: lit "sha-256 " ++ fp).
  rewrite split_part, split_last by (reflexivity || discriminate). cbn [part nth_error bind].
  change (lit "sha-256 " ++ fp) with (lit "sha-256" ++ 32 :: fp).
  assert (E : free (lit " ") fp = true) by now apply (free_sub _ _ _ F).
  rewrite split_part, split_last by (reflexivity || assumption || now rewrite E). cbn [part nth_error bind one_less]. split; [reflexivity|still_ready].
Qed.

(** Values of credentials. *)
Definition clean (v : str) : bool := free (lit "=" ++ cr_lf) v && match v with [] => false | _ => true end.

Lemma clean_free v : clean v = true -> free [61; newline] v = true /\ free [13] v = true /\ v <> [].
Proof.
  unfold clean. intros C. apply andb_true_iff in C as [F N]. repeat split; [now apply (free_sub _ _ _ F)..|now destruct v].
Qed.

Lemma credential_value a v : free (lit ":") a = true -> clean v = true -> credential (a ++ 58 :: v) = Ok (Some v).
Proof.
  intros A C. destruct (clean_free v C) as (_ & F & N). unfold credential.
  rewrite split_part, split_last by (assumption || reflexivity). cbn [part nth_error bind]. now rewrite split_last by (assumption || now rewrite F).
Qed.

Definition take_user (user : str) (r : reader) : reader :=
  let s := desc r in
  let i := ice s in
  set_desc r
    (match mtype r with
     | AUDIO_TYPE => set_ice s (mk_ice (iceVideoUsername_ i) user (iceVideoPassword_ i) (iceAudioPassword_ i))
     | _ => set_ice s (mk_ice user (iceAudioUsername_ i) (iceVideoPassword_ i) (iceAudioPassword_ i))
     end).
Definition take_pass (pass : str) (r : reader) : reader :=
  let s := desc r in
  let i := ice s in
  set_desc r
    (match mtype r with
     | AUDIO_TYPE => set_ice s (mk_ice (iceVideoUsername_ i) (iceAudioUsername_ i) (iceVideoPassword_ i) pass)
     | _ => set_ice s (mk_ice (iceVideoUsername_ i) (iceAudioUsername_ i) pass (iceAudioPassword_ i))
     end).

Lemma user_read v : clean v = true -> reads junk [lit "a=ice-ufrag:" ++ v] (take_user v).
Proof.
  intros C. destruct (clean_free v C) as (F & _). read_line. unfold on_user.
  change (lit "a=ice-ufrag:" ++ v) with (lit "a=ice-ufrag" ++ 58 :: v). rewrite credential_value by (assumption || reflexivity). cbn [bind].
  split; [reflexivity|]. unfold take_user. destruct (mtype r); still_ready.
Qed.
Lemma pass_read v : clean v = true -> reads junk [lit "a=ice-pwd:" ++ v] (take_pass v).
Proof.
  intros C. destruct (clean_free v C) as (F & _). read_line. unfold on_pass.
  change (lit "a=ice-pwd:" ++ v) with (lit "a=ice-pwd" ++ 58 :: v). rewrite credential_value by (assumption || reflexivity). cbn [bind].
  split; [reflexivity|]. unfold take_pass. destruct (mtype r); still_ready.
Qed.

Lemma number_free cs n : 0 <= n < 2 ^ 32 -> forallb (fun c => negb (is_digit c)) cs = true -> free cs (dec n) = true /\ dec n <> [].
Proof. intros N F. split; [now apply free_dec_u32|]. destruct (dec_head n) as (c & s & -> & _); [lia|discriminate]. Qed.

Lemma number_read n : 0 <= n < 2 ^ 32 -> u32 (strtoul (dec n)) = n.
Proof. intros N. rewrite <- (app_nil_r (dec n)), strtoul_dec by (auto; lia). now apply u32_id. Qed.

Lemma bandwidth_read n : 0 <= n < 2 ^ 32 ->
  reads junk [lit "b=AS:" ++ dec n] (fun r => match mtype r with VIDEO_TYPE => set_desc r (with_bandwidth (desc r) n) | _ => r end).
Proof.
  intros N. destruct (number_free (lit ":") n N eq_refl) as [F G]. read_line. unfold on_bandwidth.
  change (lit "b=AS:" ++ dec n) with (lit "b=AS" ++ 58 :: dec n).
  rewrite split_part, split_last by (assumption || reflexivity || now rewrite F). cbn [nth_error]. rewrite number_read by assumption.
  split; destruct (mtype r); (reflexivity || still_ready).
Qed.

Definition take_ssrc (ssrc : Z) (r : reader) : reader :=
  let s := desc r in
  let x := ssrcs s in
  if media_eqb (mtype r) VIDEO_TYPE && (videoSsrc x =? 0) then set_desc r (with_ssrcs s (audioSsrc x) ssrc (videoRtxSsrc x))
  else if media_eqb (mtype r) AUDIO_TYPE && (audioSsrc x =? 0) then set_desc r (with_ssrcs s ssrc (videoSsrc x) (videoRtxSsrc x))
  else r.

Lemma ssrc_read n x : 0 <= n < 2 ^ 32 -> free [61; newline] x = true -> reads junk [lit "a=ssrc:" ++ dec n ++ 32 :: x] (take_ssrc n).
Proof.
  intros N X. destruct (number_free (lit " :") n N eq_refl) as [F G]. read_line. unfold on_ssrc.
  change (lit "a=ssrc:" ++ dec n ++ 32 :: x) with (lit "a=ssrc" ++ 58 :: dec n ++ 32 :: x).
  rewrite split_part, split_part by (assumption || reflexivity). cbn [part nth_error bind]. rewrite number_read by assumption. unfold take_ssrc.
  destruct (media_eqb _ _ && _); [split; [reflexivity|still_ready]|]. destruct (media_eqb _ _ && _); (split; [reflexivity|]); [still_ready|assumption].
Qed.

(** *** Keys and candidates *)

(** What can be a part between spaces and colons. *)
Definition word (w : str) : bool := free (lit " :=" ++ [newline]) w.

Lemma word_free w : word w = true -> free [61; newline] w = true /\ free (lit " :") w = true.
Proof. intros W. split; now apply (free_sub _ _ _ W). Qed.

Definition crypto_ok (c : CryptoInfo) : bool :=
  (0 <=? crypto_tag c) && (crypto_tag c <? 4294967296) && word (cipherSuite c) && word (keyParams c) &&
  match keyParams c with [] => false | _ => true end.
Definition crypto_line (c : CryptoInfo) : str :=
  lit "a=crypto:" ++ dec (crypto_tag c) ++ lit " " ++ cipherSuite c ++ lit " inline:" ++ keyParams c.
Definition take_crypto (c : CryptoInfo) (r : reader) : reader :=
  set_desc r (set_cryptos (desc r) (cryptoVector_ (desc r) ++ [mk_crypto 0 (cipherSuite c) (keyParams c) (mtype r)])).

Lemma crypto_read c : crypto_ok c = true -> reads junk [crypto_line c] (take_crypto c).
Proof.
  unfold crypto_ok. rewrite !andb_true_iff. intros [[[[N0 N1] S] K] E]. destruct (word_free _ S) as [S1 S2], (word_free _ K) as [K1 K2].
  assert (N : 0 <= crypto_tag c < 2 ^ 32) by lia. destruct (number_free (lit " :") _ N eq_refl) as [F _]. unfold crypto_line. read_line.
  unfold on_crypto. match goal with |- context [splitOneOf ?l] => change l with
    (lit "a=crypto" ++ 58 :: dec (crypto_tag c) ++ 32 :: cipherSuite c ++ 32 :: lit "inline" ++ 58 :: keyParams c) end.
  rewrite !split_part, split_last by (reflexivity || assumption || (now rewrite K2) || now destruct (keyParams c)).
  cbn [part nth_error bind]. split; [reflexivity|still_ready].
Qed.

Definition is_udp (c : CandidateInfo) : bool := str_eqb (netProtocol c) (lit "UDP") || str_eqb (netProtocol c) (lit "udp").
Definition port_ok (n : Z) : bool := (0 <=? n) && (n <? 2147483648).
Definition candidate_ok (c : CandidateInfo) : bool :=
  word (foundation c) && word (netProtocol c) && word (hostAddress c) && word (rAddress c) &&
  (0 <=? priority c) && (priority c <? 4294967296) && (0 <=? componentId c) && (componentId c <? 4294967296) &&
  port_ok (hostPort c) && port_ok (rPort c).

(** The candidate that is read, where [j] is what its constructor leaves. *)
Definition heard (j : CandidateInfo) (media : MediaType) (c : CandidateInfo) : CandidateInfo :=
  mk_candidate (cand_isBundle j) 0 (priority c) (componentId c) (foundation c) (hostAddress c)
    (if is_reflexive (hostType c) then rAddress c else []) (hostPort c) (if is_reflexive (hostType c) then rPort c else rPort j)
    (netProtocol c) (hostType c) [] [] [] media.
Definition take_candidate (c : CandidateInfo) (r : reader) : reader :=
  let v := candidateVector_ (desc r) in
  if is_udp c then set_desc r (set_candidates (desc r) (v ++ [heard (junk (length v)) (mtype r) c])) else r.

Lemma port_read n : port_ok n = true -> s32 (u32 (strtoul (dec n))) = n.
Proof. unfold port_ok. intros P. rewrite number_read by lia. apply s32_id. unfold in_s32. lia. Qed.

Lemma candidate_plain c tail : candidate_ok c = true -> free [61; newline] tail = true -> plain (ToDebugString c ++ tail) = true.
Proof.
  unfold candidate_ok, port_ok, ToDebugString. rewrite !andb_true_iff.
  intros [[[[[[[[[W1 W2] W3] W4] A] B] C] D] [E F]] [G H]] T.
  apply word_free in W1 as [W1 _], W2 as [W2 _], W3 as [W3 _], W4 as [W4 _].
  apply plain_app; [|assumption]. apply plain_app; [reflexivity|]. destruct (hostType c); unfold hostType_str, is_reflexive; free_parts.
Qed.

(** The parts of the line, with what is behind it. *)
Lemma candidate_parts c tail : candidate_ok c = true -> splitOneOf (ToDebugString c ++ 32 :: tail) (lit " :") None =
  lit "a=candidate" :: foundation c :: dec (componentId c) :: netProtocol c :: dec (priority c) :: hostAddress c :: dec (hostPort c) ::
  lit "typ" :: hostType_str (hostType c) ::
  (if is_reflexive (hostType c) then [lit "raddr"; rAddress c; lit "rport"; dec (rPort c)] else []) ++ splitOneOf tail (lit " :") None.
Proof.
  unfold candidate_ok. rewrite !andb_true_iff. intros [[[[[[[[[W1 W2] W3] W4] A] B] C] D] E] F].
  apply word_free in W1 as [_ W1], W2 as [_ W2], W3 as [_ W3], W4 as [_ W4].
  assert (N : forall n, 0 <= n < 2 ^ 32 -> free (lit " :") (dec n) = true) by (intros; now apply free_dec_u32).
  unfold ToDebugString. rewrite <- ?app_assoc. cbn [app].
  change (lit "a=candidate:" ++ ?x) with (lit "a=candidate" ++ 58 :: x).
  assert (T : free (lit " :") (hostType_str (hostType c)) = true) by now destruct (hostType c). unfold port_ok in *.
  assert (Sp : forall x, lit " " ++ x = 32 :: x) by reflexivity. rewrite !Sp.
  change (lit " typ " ++ ?x) with (32 :: lit "typ" ++ 32 :: x). destruct (is_reflexive (hostType c));
    [change (lit " raddr " ++ ?x) with (32 :: lit "raddr" ++ 32 :: x); change (lit " rport " ++ ?x) with (32 :: lit "rport" ++ 32 :: x)|];
    repeat (rewrite <- ?app_assoc; cbn [app]); rewrite !split_part by (reflexivity || assumption || apply N; lia); reflexivity.
Qed.

Lemma host_type_read t : host_type_of (hostType_str t) = t.
Proof. now destruct t. Qed.

Lemma candidate_process c tail media s : candidate_ok c = true ->
  processCandidate junk (splitOneOf (ToDebugString c ++ 32 :: tail) (lit " :") None) media s =
  Ok (is_udp c, if is_udp c then set_candidates s (candidateVector_ s ++ [heard (junk (length (candidateVector_ s))) media c]) else s).
Proof.
  intros K. rewrite candidate_parts by assumption. revert K. unfold candidate_ok. rewrite !andb_true_iff. intros [[[[[[_ A] B] C] D] E] F].
  unfold processCandidate, is_udp. cbn [part nth_error bind].
  destruct (str_eqb (netProtocol c) (lit "UDP")), (str_eqb (netProtocol c) (lit "udp")); cbn [negb andb orb]; try reflexivity;
    change (str_eqb (lit "typ") (lit "typ")) with true; cbn [negb]; rewrite host_type_read, !number_read, port_read by (assumption || lia);
    unfold heard; destruct (is_reflexive (hostType c)); cbn [app part nth_error bind]; now rewrite ?port_read.
Qed.

Lemma candidate_read c : candidate_ok c = true -> reads junk [ToString c] (take_candidate c).
Proof.
  intros K. unfold ToString. change (lit " generation 0") with (32 :: lit "generation 0"). apply reads_plain; [now apply candidate_plain|].
  intros r R. unfold process_found.
  keywords. unfold on_candidate. rewrite candidate_process by assumption. cbn [bind]. unfold take_candidate.
  split; destruct (is_udp c); (reflexivity || still_ready || now destruct r).
Qed.

(** *** Codecs *)

Definition codec_ok (r : RtpMap) : bool :=
  (0 <=? payloadType r) && (payloadType r <? 2147483648) && (0 <=? clockRate r) && (clockRate r <? 4294967296) &&
  (0 <=? channels r) && (channels r <? 4294967296) && free (lit " :/=" ++ [newline]) (encodingName r).

Lemma codec_fields r : codec_ok r = true ->
  0 <= payloadType r < 2 ^ 32 /\ s32 (payloadType r) = payloadType r /\ 0 <= clockRate r < 2 ^ 32 /\ 0 <= channels r < 2 ^ 32 /\
  free [61; newline] (encodingName r) = true /\ free (lit " :/" ++ [newline]) (encodingName r) = true.
Proof.
  unfold codec_ok. rewrite !andb_true_iff. intros [[[[[[A B] C] D] E] F] G]. split; [lia|]. split; [apply s32_id; unfold in_s32; lia|].
  split; [lia|]. split; [lia|]. split; now apply (free_sub _ _ _ G).
Qed.

Definition take_map (c : RtpMap) (r : reader) : reader :=
  set_desc r (learn_codec (payloadType c) (encodingName c) (clockRate c) (mtype r) (desc r)).

Lemma match_sess pt name clock media l st :
  sess (fst (fold_left (fun st rtp => match_codec pt name clock st media rtp) l st)) = sess (fst st).
Proof.
  revert st. induction l as [|x l IH]; intros st; cbn [fold_left]; [reflexivity|]. rewrite IH. unfold match_codec. now destruct (_ && _).
Qed.

Lemma learn_sess pt name clock media s : sess (learn_codec pt name clock media s) = sess s.
Proof.
  unfold learn_codec. pose proof (match_sess pt name clock media (internalPayloadVector_ (pays s)) (s, None)) as E.
  destruct (fold_left _ _ _) as [s' [m|]]; cbn in E; [|exact E]. destruct (media_eqb _ _); exact E.
Qed.

Lemma map_read c tail : codec_ok c = true -> tail = [] \/ (exists t, tail = 47 :: t /\ free [61; newline] t = true) ->
  reads junk [lit "a=rtpmap:" ++ dec (s32 (payloadType c)) ++ lit " " ++ encodingName c ++ lit "/" ++ dec (clockRate c) ++ tail] (take_map c).
Proof.
  intros K T. destruct (codec_fields c K) as (P & -> & C & _ & N & M).
  assert (F : free [61; newline] tail = true) by (destruct T as [-> | (t & -> & E)]; [reflexivity|now apply free_front]).
  destruct (number_free (lit " :/" ++ [newline]) _ P eq_refl) as [D _], (number_free (lit " :/" ++ [newline]) _ C eq_refl) as [G NE].
  read_line. unfold on_rtpmap. match goal with |- context [splitOneOf ?l] => change l with
    (lit "a=rtpmap" ++ 58 :: dec (payloadType c) ++ 32 :: encodingName c ++ 47 :: dec (clockRate c) ++ tail) end.
  rewrite !split_part by (reflexivity || assumption). cbn [one_less part nth_error bind].
  assert (E : nth_error (splitOneOf (dec (clockRate c) ++ tail) (lit " :/" ++ [newline]) (Some 1%nat)) 0 = Some (dec (clockRate c))).
  { destruct T as [-> | (t & -> & _)]; [rewrite app_nil_r, split_last by (assumption || now rewrite G)|rewrite split_part by (reflexivity || assumption)];
    reflexivity. }
  destruct (splitOneOf (dec (clockRate c) ++ tail) _ _) as [|clock l]; [discriminate|]. injection E as ->. cbn [part nth_error bind].
  rewrite !number_read by assumption. split; [reflexivity|]. destruct R as [S U]. unfold take_map.
  split; [unfold SAVPF_only in *|]; cbn [set_desc desc]; now rewrite learn_sess.
Qed.

Definition take_feedback (c : RtpMap) (f : str) : reader -> reader := on_feedback (lit "a=rtcp-fb:" ++ dec (s32 (payloadType c)) ++ lit " " ++ f).
Lemma feedback_read c f : codec_ok c = true -> free [61; newline] f = true ->
  reads junk [lit "a=rtcp-fb:" ++ dec (s32 (payloadType c)) ++ lit " " ++ f] (take_feedback c f).
Proof. intros K F. destruct (codec_fields c K) as (P & E & _). unfold take_feedback. rewrite E. read_line. split; [reflexivity|still_ready]. Qed.

(** A parameter of a format: its text hides no keyword. *)
Definition format_text (kv : str * str) : str := (if negb (str_eqb (fst kv) (lit "none")) then fst kv ++ lit "=" else []) ++ snd kv.
Definition format_ok (kv : str * str) : bool :=
  free [newline] (format_text kv) && forallb (fun n => negb (has (lit n) (format_text kv))) marked &&
  (if str_eqb (fst kv) (lit "none") then free (lit " :=") (snd kv) else free (lit " :=") (fst kv)) &&
  match snd kv with [] => false | _ => true end.
Definition take_format (pt : Z) (kv : str * str) (r : reader) : reader :=
  set_desc r (with_payloads (desc r) (map (add_format pt (fst kv) (snd kv)) (payloadVector (pays (desc r))))).

Lemma format_found pt kv n : 0 <= pt < 2 ^ 32 -> format_ok kv = true -> In n marked ->
  has (lit n) (fmtp_line pt kv) = prefix (lit n) (fmtp_line pt kv).
Proof.
  intros P K I. unfold format_ok in K. rewrite !andb_true_iff in K. destruct K as [[[_ K] _] _]. rewrite forallb_forall in K.
  specialize (K n I). apply negb_true_iff in K. destruct (number_free [61] pt P eq_refl) as [F _].
  assert (E : fmtp_line pt kv = 97 :: 61 :: (lit "fmtp:" ++ dec pt) ++ 32 :: format_text kv) by (destruct kv; unfold fmtp_line; now rewrite <- app_assoc).
  rewrite E. clear E. destruct (marked_shape n I) as (y & m & M & Y). rewrite M in *. clear M.
  assert (G : has (y :: 61 :: m) (61 :: (lit "fmtp:" ++ dec pt) ++ 32 :: format_text kv) = false).
  { cbn [has]. rewrite has_behind by (lia || now apply free_both). rewrite K, orb_false_r. cbn [prefix]. now replace (y =? 61) with false by lia. }
  cbn [has] in *. now rewrite G, orb_false_r.
Qed.

Lemma format_read c kv : codec_ok c = true -> format_ok kv = true ->
  reads junk [fmtp_line (s32 (payloadType c)) kv] (take_format (payloadType c) kv).
Proof.
  intros C K. destruct (codec_fields c C) as (P & -> & _). destruct (number_free (lit " :=" ++ [newline]) _ P eq_refl) as [D _].
  assert (D' := free_sub _ (lit " :=") _ D eq_refl). assert (D'' := free_sub _ [newline] _ D eq_refl).
  assert (E : fmtp_line (payloadType c) kv = lit "a" ++ 61 :: lit "fmtp" ++ 58 :: dec (payloadType c) ++ 32 :: format_text kv) by now destruct kv.
  split. { unfold format_ok in K. rewrite !andb_true_iff in K. destruct K as [[[K _] _] _]. rewrite E. cbn [forallb]. rewrite andb_true_r.
    free_parts. }
  intros r [S T]. cbn [process_lines]. unfold process_line.
  rewrite (found_alike _ (fun n => prefix n (fmtp_line (payloadType c) kv))) by (intros; now apply format_found || assumption).
  unfold process_found. rewrite E. keywords. unfold on_fmtp. rewrite !split_part by (reflexivity || assumption). cbn [one_less].
  rewrite number_read by assumption. unfold format_ok, format_text in *. rewrite !andb_true_iff in K. destruct K as [[[_ _] K] N].
  destruct kv as [k v]. cbn [fst snd] in *. destruct (str_eqb k (lit "none")) eqn:Q; cbn [negb app] in *.
  - apply str_eqb_eq in Q. subst. rewrite split_last by (now rewrite K || now destruct v). now split.
  - change (k ++ lit "=") with (k ++ [61]). rewrite <- app_assoc. cbn [app]. rewrite split_part, split_last by (reflexivity || assumption || now destruct v).
    now split.
Qed.

(** *** The tags of the bundle *)

Definition retag (name : str) (media : MediaType) (t : BundleTag) : BundleTag :=
  if str_eqb (id t) name then mk_tag (id t) media else t.

Lemma set_tags_loop name media fuel : forall done rest, (length rest <= fuel)%nat -> zlen (done ++ rest) <= 255 ->
  set_tags fuel (zlen done) name media (done ++ rest) = Ok (done ++ map (retag name media) rest).
Proof.
  induction fuel as [|fuel IH]; intros done [|t rest] L B; try (cbn in L; lia).
  1, 2: cbn [set_tags map]; rewrite ?app_nil_r, Z.ltb_irrefl; reflexivity.
  cbn [set_tags]. rewrite zlen_app, zlen_cons in *. pose proof (zlen_nonneg rest). pose proof (zlen_nonneg done).
  replace (zlen done <? zlen done + (1 + zlen rest)) with true by lia.
  unfold zlen. rewrite Nat2Z.id, nth_error_app2, Nat.sub_diag by lia. cbn [nth_error]. fold (zlen done).
  assert (U : (if str_eqb (id t) name then upd (done ++ t :: rest) (length done) (mk_tag (id t) media) else done ++ t :: rest)
    = (done ++ [retag name media t]) ++ rest).
  { rewrite <- app_assoc. unfold retag. cbn [app]. destruct (str_eqb (id t) name); [apply upd_end|reflexivity]. }
  rewrite U. rewrite u8_id by (unfold in_u8; lia). replace (zlen done + 1) with (zlen (done ++ [retag name media t])) by now rewrite zlen_app.
  rewrite IH; [now rewrite <- app_assoc|cbn in L; lia|]. rewrite !zlen_app, zlen_cons. change (zlen []) with 0. lia.
Qed.

Lemma set_tags_all name media tags : zlen tags <= 255 -> set_tags tags_fuel 0 name media tags = Ok (map (retag name media) tags).
Proof. intros B. apply (set_tags_loop name media tags_fuel [] tags); [unfold zlen, tags_fuel in *; lia|assumption]. Qed.

Lemma each_tag_loop f fuel : forall done rest, (length rest <= fuel)%nat -> zlen (done ++ rest) <= 255 ->
  each_tag fuel (zlen done) (done ++ rest) f = Ok (concat (map f rest)).
Proof.
  induction fuel as [|fuel IH]; intros done [|t rest] L B; try (cbn in L; lia).
  1, 2: cbn [each_tag map concat]; rewrite ?app_nil_r, Z.ltb_irrefl; reflexivity.
  cbn [each_tag]. rewrite zlen_app, zlen_cons in *. pose proof (zlen_nonneg rest). pose proof (zlen_nonneg done).
  replace (zlen done <? zlen done + (1 + zlen rest)) with true by lia.
  unfold zlen. rewrite Nat2Z.id, nth_error_app2, Nat.sub_diag by lia. cbn [nth_error]. fold (zlen done).
  rewrite u8_id by (unfold in_u8; lia). replace (zlen done + 1) with (zlen (done ++ [t])) by now rewrite zlen_app.
  replace (done ++ t :: rest) with ((done ++ [t]) ++ rest) by now rewrite <- app_assoc.
  rewrite IH; [reflexivity|cbn in L; lia|]. rewrite !zlen_app, zlen_cons. change (zlen []) with 0. lia.
Qed.

Lemma each_tag_all f tags : zlen tags <= 255 -> each_tag tags_fuel 0 tags f = Ok (concat (map f tags)).
Proof. intros B. apply (each_tag_loop f tags_fuel [] tags); [unfold zlen, tags_fuel in *; lia|assumption]. Qed.

Definition tag_ok (t : BundleTag) : bool := free (lit " :=" ++ cr_lf) (id t) && match id t with [] => false | _ => true end.

Lemma tag_fields t : tag_ok t = true -> free [61; newline] (id t) = true /\ free (lit ": " ++ cr_lf) (id t) = true /\ id t <> [].
Proof. unfold tag_ok. intros K. apply andb_true_iff in K as [F N]. repeat split; [now apply (free_sub _ _ _ F)..|now destruct (id t)]. Qed.

Definition take_mid (t : BundleTag) (r : reader) : reader :=
  let s := desc r in set_desc r (with_bundle s (isBundle (sess s)) (map (retag (id t) (mtype r)) (bundleTags (sess s)))).
Lemma mid_read t : tag_ok t = true -> reads junk [lit "a=mid:" ++ id t] (take_mid t).
Proof.
  intros K. destruct (tag_fields t K) as (F & D & N). read_line. unfold on_mid. change (lit "a=mid:" ++ id t) with (lit "a=mid" ++ 58 :: id t).
  rewrite split_part, split_last by (reflexivity || assumption || now rewrite D). destruct R as [S T]. rewrite set_tags_all by assumption.
  cbn [bind]. split; [reflexivity|]. split; [assumption|]. cbn. unfold zlen in *. now rewrite length_map.
Qed.

(** The line of the group gives the tags, of which there are nine at most. *)
Lemma words_split delims w left tags : mem 32 delims = true -> free delims w = true -> w <> [] ->
  Forall (fun t => free delims (id t) = true /\ id t <> []) tags -> (length tags <= left)%nat ->
  splitOneOf (w ++ concat (map (fun t => 32 :: id t) tags)) delims (Some left) = w :: map id tags.
Proof.
  intros D. revert w left. induction tags as [|t tags IH]; intros w left F N A L; cbn [map concat].
  - rewrite app_nil_r, split_last by (assumption || now rewrite F, andb_false_r). reflexivity.
  - inversion A as [|? ? [Ft Nt] A']; subst. destruct left as [|left]; [cbn in L; lia|]. cbn [app]. rewrite split_part by (reflexivity || assumption).
    cbn [one_less]. rewrite IH by (assumption || (cbn in L; lia)). reflexivity.
Qed.

Definition group_line (tags : list BundleTag) : str := lit "a=group:BUNDLE" ++ concat (map (fun t => 32 :: id t) tags).
Lemma group_read tags r : forallb tag_ok tags = true -> (length tags <= 9)%nat -> Ready r -> bundleTags (sess (desc r)) = [] ->
  free [newline] (group_line tags) = true /\
  process_line junk (group_line tags) r = Ok (set_desc r (with_bundle (desc r) true (map (fun t => mk_tag (id t) OTHER) tags))).
Proof.
  intros K L [S _] E. rewrite forallb_forall in K.
  assert (F : free [61; newline] (concat (map (fun t => 32 :: id t) tags)) = true).
  { clear L. induction tags as [|t tags IH]; [reflexivity|]. cbn [map concat app]. destruct (tag_fields t (K t (or_introl eq_refl))) as (F & _).
    apply free_front; [reflexivity|]. apply free_both; [assumption|]. apply IH. intros x I. apply K. now right. }
  assert (P : plain (group_line tags) = true) by now apply plain_app. split; [now destruct (plain_shape _ P) as (_ & _ & _ & _ & N)|].
  rewrite plain_process by assumption. unfold process_found, group_line. keywords. unfold on_group.
  change (lit "a=group:BUNDLE" ++ ?x) with (lit "a=group" ++ 58 :: lit "BUNDLE" ++ x).
  rewrite split_part by reflexivity. cbn [one_less]. rewrite words_split; try reflexivity; try assumption; try discriminate.
  - cbn [part nth_error bind skipn]. change (str_eqb (lit "BUNDLE") (lit "BUNDLE")) with true. rewrite orb_true_r, E, map_map. reflexivity.
  - apply Forall_forall. intros t I. destruct (tag_fields t (K t I)) as (_ & D & N). split; [|assumption]. now apply (free_sub _ _ _ D).
Qed.
End Lines.

(** ** The lines of the text *)

Definition unlines (ls : list str) : str := concat (map line ls).

Lemma unlines_app a b : unlines (a ++ b) = unlines a ++ unlines b.
Proof. unfold unlines. now rewrite map_app, concat_app. Qed.
Lemma unlines_cons l ls : unlines (l :: ls) = line l ++ unlines ls.
Proof. reflexivity. Qed.
Lemma unlines_if (b : bool) l : unlines (if b then l else []) = if b then unlines l else [].
Proof. now destruct b. Qed.
Lemma unlines_each {A} (f : A -> list str) l : unlines (concat (map f l)) = concat (map (fun x => unlines (f x)) l).
Proof. induction l as [|x l IH]; [reflexivity|]. cbn [map concat]. now rewrite unlines_app, IH. Qed.
Lemma lines_unlines ls : forallb (free [newline]) ls = true -> lines (unlines ls) = ls.
Proof. exact (lines_concat ls). Qed.
Lemma concat_filter {A} (b : A -> bool) (f : A -> str) l :
  concat (map (fun x => if b x then line (f x) else []) l) = unlines (map f (filter b l)).
Proof. induction l as [|x l IH]; [reflexivity|]. cbn [map concat filter]. destruct (b x); now rewrite IH. Qed.

Definition transport_ls (s : SdpInfo) : list str :=
  (if isFingerprint (sess s) then [lit "a=fingerprint:sha-256 " ++ fingerprint (sess s)] else []) ++
  (match setup_ (sess s) with [] => [] | setup => [lit "a=setup:" ++ setup] end).
Definition candidate_ls (wanted : CandidateInfo -> bool) (s : SdpInfo) : list str := map ToString (filter wanted (candidateVector_ s)).
Definition crypto_ls (media : MediaType) (s : SdpInfo) : list str :=
  map crypto_line (filter (fun c => media_eqb (crypto_mediaType c) media) (cryptoVector_ s)).
Definition mid_ls (media : MediaType) (s : SdpInfo) : list str :=
  map (fun t => lit "a=mid:" ++ id t) (filter (fun t => media_eqb (tag_mediaType t) media) (bundleTags (sess s))).
Definition ssrc_ls (ssrc : Z) (cname msid label : str) : list str :=
  [lit "a=ssrc:" ++ dec ssrc ++ 32 :: (lit "cname:" ++ cname); lit "a=ssrc:" ++ dec ssrc ++ 32 :: (lit "msid:" ++ msid ++ lit " " ++ label);
   lit "a=ssrc:" ++ dec ssrc ++ 32 :: (lit "mslabel:" ++ msid); lit "a=ssrc:" ++ dec ssrc ++ 32 :: (lit "label:" ++ msid ++ label)].
Fixpoint extended_ls (t : Z) (l : list Z) (msid : str) : list str :=
  match l with
  | [] => []
  | ssrc :: l => ssrc_ls ssrc (lit "o/orbit") msid (lit "v" ++ dec t) ++ extended_ls (t + 1) l msid
  end.

Definition map_line (c : RtpMap) (tail : str) : str :=
  lit "a=rtpmap:" ++ dec (s32 (payloadType c)) ++ lit " " ++ encodingName c ++ lit "/" ++ dec (clockRate c) ++ tail.
Definition audio_map_ls (c : RtpMap) : list str :=
  map_line c (if 1 <? channels c then lit "/" ++ dec (channels c) else []) :: map (fmtp_line (s32 (payloadType c))) (formatParameters c).
Definition min_rate (min_bitrate : Z) : str * str := (lit "x-google-min-bitrate", dec min_bitrate).
Definition video_map_ls (set_min : bool) (min_bitrate : Z) (c : RtpMap) : list str :=
  map_line c [] :: map (fun f => lit "a=rtcp-fb:" ++ dec (s32 (payloadType c)) ++ lit " " ++ f) (feedbackTypes c) ++
  map (fmtp_line (s32 (payloadType c))) (formatParameters c) ++
  (if set_min then [fmtp_line (s32 (payloadType c)) (min_rate min_bitrate)] else []).

(** The credentials of audio. *)
Definition audio_user (s : SdpInfo) : str := match iceAudioUsername_ (ice s) with [] => iceVideoUsername_ (ice s) | u => u end.
Definition audio_pass (s : SdpInfo) : str := match iceAudioUsername_ (ice s) with [] => iceVideoPassword_ (ice s) | _ => iceAudioPassword_ (ice s) end.

Definition first_line (name : str) (s : SdpInfo) (numbers : str) : str :=
  name ++ lit " 1 UDP/TLS/RTP/" ++ profile_str (profile (sess s)) ++ numbers.

Definition audio_ls (audio_nack : bool) (msid : str) (s : SdpInfo) : list str :=
  let x := sess s in
  [first_line (lit "m=audio") s (audio_numbers (payloadVector (pays s))); lit "c=IN IP4 0.0.0.0"] ++
  (if isRtcpMux x then [lit "a=rtcp:1 IN IP4 0.0.0.0"] else []) ++
  candidate_ls (fun c => media_eqb (mediaType c) AUDIO_TYPE || isBundle x) s ++
  [lit "a=ice-ufrag:" ++ audio_user s; lit "a=ice-pwd:" ++ audio_pass s] ++
  transport_ls s ++ [direction_word (audioDirection (strs s))] ++ mid_ls AUDIO_TYPE s ++
  (if isExtMapEnabled (sets s) then [lit "a=extmap:1 urn:ietf:params:rtp-hdrext:ssrc-audio-level"] else []) ++
  (if isRtcpMux x then [lit "a=rtcp-mux"] else []) ++ crypto_ls AUDIO_TYPE s ++
  concat (map audio_map_ls (of_media AUDIO_TYPE (payloadVector (pays s)))) ++
  [lit "a=ptime:50"; lit "a=maxptime:60"] ++ ssrc_ls (audioSsrc (ssrcs s)) (lit "o/i14u9pJrxRKAsu") msid (lit "a0") ++
  (if audio_nack then [lit "a=rtcp-fb:111 nack"] else []).

Definition video_ls (set_min : bool) (msid : str) (s : SdpInfo) : list str :=
  let x := sess s in
  let r := ssrcs s in
  [first_line (lit "m=video") s (video_numbers 0 (videoCodecs (strs s)) (of_media VIDEO_TYPE (payloadVector (pays s))));
   lit "b=AS:" ++ dec (target_bandwidth_ (sets s)); lit "c=IN IP4 0.0.0.0"] ++
  (if isRtcpMux x then [lit "a=rtcp:1 IN IP4 0.0.0.0"] else []) ++ candidate_ls (fun c => media_eqb (mediaType c) VIDEO_TYPE) s ++
  [lit "a=ice-ufrag:" ++ iceVideoUsername_ (ice s); lit "a=ice-pwd:" ++ iceVideoPassword_ (ice s)] ++
  (if isExtMapEnabled (sets s)
   then [lit "a=extmap:2 urn:ietf:params:rtp-hdrext:toffset";
         lit "a=extmap:3 http://www.webrtc.org/experiments/rtp-hdrext/abs-send-time"] else []) ++
  transport_ls s ++ [direction_word (videoDirection (strs s))] ++ mid_ls VIDEO_TYPE s ++
  (if isRtcpMux x then [lit "a=rtcp-mux"] else []) ++ crypto_ls VIDEO_TYPE s ++
  concat (map (video_map_ls set_min (min_bitrate_ (sets s))) (of_media VIDEO_TYPE (payloadVector (pays s)))) ++
  (if negb (videoSsrc r =? 0) then ssrc_ls (videoSsrc r) (lit "o/orbit") msid (lit "v0") else []) ++
  extended_ls 1 (extended_video_ssrc r) msid ++
  (if negb (videoRtxSsrc r =? 0) then ssrc_ls (videoRtxSsrc r) (lit "o/orbit") msid (lit "v0") else []).

Lemma unlines_transport s : transport_lines s = unlines (transport_ls s).
Proof.
  unfold transport_lines, transport_ls. rewrite unlines_app, unlines_if. destruct (setup_ (sess s)); destruct (isFingerprint (sess s));
    unfold unlines; cbn [map concat app]; now rewrite ?app_nil_r.
Qed.
Lemma unlines_candidates w s : candidate_lines w (candidateVector_ s) = unlines (candidate_ls w s).
Proof. apply concat_filter. Qed.
Lemma unlines_cryptos m s : crypto_lines m (cryptoVector_ s) = unlines (crypto_ls m s).
Proof. apply concat_filter. Qed.
Lemma unlines_mids m s : concat (map (mid_line m) (bundleTags (sess s))) = unlines (mid_ls m s).
Proof. unfold mid_ls. rewrite <- concat_filter. reflexivity. Qed.
Lemma unlines_ssrc ssrc cname msid label : ssrc_lines ssrc cname msid label = unlines (ssrc_ls ssrc cname msid label).
Proof. unfold ssrc_lines, ssrc_ls. unfold unlines. cbn [map concat]. now rewrite app_nil_r. Qed.
Lemma unlines_extended msid l : forall t, extended_lines t l msid = unlines (extended_ls t l msid).
Proof. induction l as [|x l IH]; intros t; [reflexivity|]. cbn [extended_lines extended_ls]. now rewrite unlines_app, <- unlines_ssrc, IH. Qed.
Lemma unlines_direction d : direction_line d = unlines [direction_word d].
Proof. now destruct d. Qed.
Lemma unlines_audio_map c : audio_map_lines c = unlines (audio_map_ls c).
Proof. unfold audio_map_lines, audio_map_ls, fmtp_lines. rewrite unlines_cons. unfold unlines. now rewrite map_map. Qed.
Lemma unlines_video_map b m c : video_map_lines b m c = unlines (video_map_ls b m c).
Proof.
  unfold video_map_lines, video_map_ls, fmtp_lines. rewrite unlines_cons, !unlines_app, unlines_if. unfold unlines. rewrite !map_map.
  unfold map_line. cbn [map concat]. rewrite !app_nil_r. reflexivity.
Qed.

Ltac as_lines :=
  rewrite ?unlines_app, ?unlines_if, ?unlines_each, <- ?unlines_transport, <- ?unlines_candidates, <- ?unlines_cryptos, <- ?unlines_mids,
    <- ?unlines_ssrc, <- ?unlines_extended, <- ?unlines_direction.

Lemma audio_part_lines audio_nack msid s : zlen (bundleTags (sess s)) <= 255 ->
  audio_part audio_nack msid s = Ok (unlines (audio_ls audio_nack msid s)).
Proof.
  intros B. unfold audio_part, audio_ls. rewrite each_tag_all by assumption. cbn [bind]. f_equal. as_lines.
  rewrite (map_ext _ _ (fun c => eq_sym (unlines_audio_map c))). unfold unlines. cbn [map concat]. rewrite !app_nil_r. unfold audio_user, audio_pass.
  rewrite <- ?app_assoc. unfold first_line. rewrite <- ?app_assoc. cbn [app].
  destruct (iceAudioUsername_ (ice s)); rewrite <- ?app_assoc; reflexivity.
Qed.

Lemma video_part_lines set_min msid s : zlen (bundleTags (sess s)) <= 255 ->
  video_part set_min msid s = Ok (unlines (video_ls set_min msid s)).
Proof.
  intros B. unfold video_part, video_ls. rewrite each_tag_all by assumption. cbn [bind]. f_equal. as_lines.
  rewrite (map_ext _ _ (fun c => eq_sym (unlines_video_map _ _ c))). unfold unlines. cbn [map concat]. rewrite !app_nil_r.
  unfold first_line. rewrite <- ?app_assoc. reflexivity.
Qed.

(** The identifier of the stream: ten letters and digits. *)
Definition msid_of (rands : nat -> Z) : str := map (fun k => rd alphanum (rands k mod 62)) (seq 0 10).

Definition alnum (c : Z) : bool := is_digit c || (65 <=? c) && (c <=? 90) || (97 <=? c) && (c <=? 122).

Lemma alphanum_range i : alnum (rd alphanum (i mod 62)) = true.
Proof.
  assert (A : forallb (fun k => alnum (rd alphanum k)) (map Z.of_nat (seq 0 62)) = true) by reflexivity.
  rewrite forallb_forall in A. apply A. apply in_map_iff. exists (Z.to_nat (i mod 62)). split; [dlia|]. apply in_seq. dlia.
Qed.

Lemma random_chars_ok rands n : forall done rest, (n <= length rest)%nat ->
  random_chars n rands (length done) (done ++ rest) =
  Ok (done ++ map (fun k => rd alphanum (rands k mod 62)) (seq (length done) n) ++ skipn n rest).
Proof.
  induction n as [|n IH]; intros done rest L; [reflexivity|]. destruct rest as [|b rest]; [cbn in L; lia|]. cbn [random_chars].
  set (c := rd alphanum _). assert (C : alnum c = true) by apply alphanum_range.
  assert (E : set8 (done ++ b :: rest) (Z.of_nat (length done)) c = Ok ((done ++ [c]) ++ rest)).
  { unfold set8. rewrite zlen_app, zlen_cons. pose proof (zlen_nonneg rest). fold (zlen done). pose proof (zlen_nonneg done).
    replace ((0 <=? zlen done) && (zlen done <? zlen done + (1 + zlen rest))) with true by lia. f_equal.
    rewrite u8_id by (unfold alnum, is_digit in C; unfold in_u8; lia).
    rewrite <- app_assoc. cbn [app]. apply wr_end. }
  rewrite E. cbn [bind]. replace (S (length done)) with (length (done ++ [c])) by (rewrite length_app; cbn; lia).
  rewrite IH by (cbn in L; lia). rewrite <- app_assoc. rewrite length_app. cbn [length app seq map skipn]. rewrite Nat.add_comm. reflexivity.
Qed.

Lemma gen_random_ok rands b beyond : gen_random rands (zeros 10 ++ b :: beyond) 10 = Ok (msid_of rands ++ 0 :: beyond).
Proof.
  unfold gen_random. pose proof (random_chars_ok rands 10 [] (zeros 10 ++ b :: beyond)) as E. cbn [length app] in E.
  rewrite E by (rewrite length_app; change (List.length (zeros 10)) with 10%nat; lia). cbn [bind]. change (skipn 10 (zeros 10 ++ b :: beyond)) with (b :: beyond). fold (msid_of rands).
  unfold set8. assert (L : zlen (msid_of rands) = 10) by reflexivity. rewrite zlen_app, zlen_cons, L. pose proof (zlen_nonneg beyond).
  change (Z.of_nat 10) with 10. replace ((0 <=? 10) && (10 <? 10 + (1 + zlen beyond))) with true by lia. reflexivity.
Qed.

Lemma msid_alnum rands : forallb alnum (msid_of rands) = true.
Proof. unfold msid_of. apply forallb_forall. intros c I. apply in_map_iff in I as (k & <- & _). apply alphanum_range. Qed.

Lemma c_str_alnum s r : forallb alnum s = true -> c_str (s ++ 0 :: r) = s.
Proof.
  induction s as [|c s IH]; intros A; [reflexivity|]. cbn [forallb] in A. apply andb_true_iff in A as [C A]. cbn [app c_str].
  replace (c =? 0) with false by (unfold alnum, is_digit in C; lia). now rewrite IH.
Qed.

Lemma alnum_free cs s : forallb alnum s = true -> forallb (fun c => negb (alnum c)) cs = true -> free cs s = true.
Proof.
  intros A C. unfold free. rewrite forallb_forall in *. intros c I. specialize (A c I). destruct (mem c cs) eqn:M; [|reflexivity].
  unfold mem in M. apply existsb_exists in M as (d & J & E). apply Z.eqb_eq in E. subst. specialize (C d J). now rewrite A in C.
Qed.

(** The source of audio is chosen when it is written. *)
Definition with_audio_source (s : SdpInfo) : SdpInfo :=
  if audioSsrc (ssrcs s) =? 0 then with_ssrcs s 44444 (videoSsrc (ssrcs s)) (videoRtxSsrc (ssrcs s)) else s.

Definition sdp_ls (audio_nack set_min : bool) (msid : str) (s : SdpInfo) : list str :=
  [lit "v=0"; lit "o=- 0 0 IN IP4 127.0.0.1"; lit "s=Orbit"; lit "t=0 0"] ++
  (if isBundle (sess s) then [group_line (bundleTags (sess s)); lit "a=msid-semantic: WMS " ++ msid] else []) ++
  audio_ls audio_nack msid (with_audio_source s) ++ video_ls set_min msid (with_audio_source s).

Lemma getSdp_lines audio_nack set_min rands b beyond s :
  hasAudio (strs s) = true -> hasVideo (strs s) = true -> zlen (bundleTags (sess s)) <= 255 ->
  getSdp audio_nack set_min rands (b :: beyond) s =
  Ok (unlines (sdp_ls audio_nack set_min (msid_of rands) s), with_audio_source s).
Proof.
  intros A V B. unfold getSdp. rewrite gen_random_ok. cbn [bind]. rewrite c_str_alnum by apply msid_alnum. rewrite each_tag_all by assumption.
  rewrite A. fold (with_audio_source s).
  assert (S : sess (with_audio_source s) = sess s /\ strs (with_audio_source s) = strs s) by (unfold with_audio_source; now destruct (_ =? 0)).
  cbn [andb]. fold (with_audio_source s). destruct S as [S1 S2]. rewrite S2, A, V.
  rewrite audio_part_lines, video_part_lines by now rewrite S1.
  unfold sdp_ls. rewrite !unlines_app. destruct (isBundle (sess s)); cbn [bind]; f_equal; f_equal; unfold unlines; cbn [map concat];
    rewrite ?app_nil_r, <- ?app_assoc; reflexivity.
Qed.
End SdpFacts.
