(* ===== verification/SdpRoundtrip.v ===== *)
(** * Session descriptions: the description that is read

    What each part of a text leaves in the reader, the descriptions that can be
    written, and the theorem that a peer reads what was written; the payload
    types of a peer, candidates as strings, and where the code does not do what
    it means to. *)

From Stdlib Require Import Ascii String Sorted.
From S2P Require Import Prelude Wire OrderedMap Text Sdp SdpFacts.
Import Wire OrderedMap Text Sdp SdpFacts.

Module SdpRoundtrip.

(** ** What the parts of the text leave in the reader *)

(** *** Codecs *)

(** The codec is one of the server's own, under the server's payload type. *)
Definition same_codec (name : str) (clock : Z) (i : RtpMap) : bool := str_eqb (encodingName i) name && (clockRate i =? clock).
Definition known (internal : list RtpMap) (c : RtpMap) : bool :=
  match filter (same_codec (encodingName c) (clockRate c)) internal with
  | [i] => (payloadType i =? payloadType c) && (channels i =? channels c)
  | _ => false
  end.

Lemma match_filter pt name clock media l : forall st,
  fold_left (fun st rtp => match_codec pt name clock st media rtp) l st =
  fold_left (fun st rtp => match_codec pt name clock st media rtp) (filter (same_codec name clock) l) st.
Proof.
  induction l as [|i l IH]; intros st; [reflexivity|]. cbn [fold_left filter]. unfold same_codec at 1, match_codec at 2.
  destruct (str_eqb _ _ && _) eqn:E; cbn [fold_left]; [|apply IH]. unfold match_codec at 3. rewrite E. apply IH.
Qed.

Definition told_map (media : MediaType) (ps : list (str * str)) (c : RtpMap) : RtpMap :=
  mk_map (payloadType c) (encodingName c) (clockRate c) media (channels c) [] ps.

(** The description with some codecs of a stream more, of which [params] gives
    the parameters. *)
Definition learned (media : MediaType) (params : RtpMap -> list (str * str)) (v : list RtpMap) (s : SdpInfo) : SdpInfo :=
  let p := pays s in
  let m := strs s in
  set_pays
    (if media_eqb media VIDEO_TYPE then with_counts s (s32 (videoCodecs m + zlen v)) (audioCodecs m)
     else with_counts s (videoCodecs m) (s32 (audioCodecs m + zlen v)))
    (mk_payloads (internalPayloadVector_ p) (payloadVector p ++ map (fun c => told_map media (params c) c) v)
       (fold_left (fun m c => store (payloadType c) (payloadType c) m) v (inOutPTMap p))
       (fold_left (fun m c => store (payloadType c) (payloadType c) m) v (outInPTMap p)) (inOut_payload_ p) (outIn_payload_ p)).

Lemma learn_known media c s : codec_ok c = true -> known (internalPayloadVector_ (pays s)) c = true ->
  learn_codec (payloadType c) (encodingName c) (clockRate c) media s = learned media (fun _ => []) [c] s.
Proof.
  intros K N. destruct (codec_fields c K) as (_ & P & _). unfold learn_codec. rewrite match_filter. unfold known in N.
  destruct (filter _ _) as [|i [|? ?]] eqn:F; try discriminate. assert (I : In i (filter (same_codec (encodingName c) (clockRate c))
    (internalPayloadVector_ (pays s)))) by (rewrite F; now left). apply filter_In in I as [_ I]. unfold same_codec in I.
  apply andb_true_iff in N as [N1 N2]. apply Z.eqb_eq in N1, N2. cbn [fold_left]. unfold match_codec. rewrite I, N1, N2, P.
  unfold learned. cbn [fst map fold_left]. change (zlen [c]) with 1. now destruct (media_eqb media VIDEO_TYPE).
Qed.

Definition fresh_type (c : RtpMap) (v : list RtpMap) : bool := forallb (fun m => negb (payloadType m =? payloadType c)) v.

Lemma formats_taken media c v kvs r : fresh_type c v = true -> forall ps,
  fold_left (fun r kv => take_format (payloadType c) kv r) kvs (set_desc r (with_payloads (desc r) (v ++ [told_map media ps c]))) =
  set_desc r (with_payloads (desc r) (v ++ [told_map media (fold_left (fun ps kv => str_store (fst kv) (snd kv) ps) kvs ps) c])).
Proof.
  intros F. induction kvs as [|kv kvs IH]; intros ps; [reflexivity|]. cbn [fold_left]. rewrite <- IH. f_equal.
  unfold take_format. change (payloadVector _) with (v ++ [told_map media ps c]). rewrite map_app.
  replace (map (add_format (payloadType c) (fst kv) (snd kv)) v) with v.
  - cbn [map]. unfold add_format at 1. cbn [payloadType told_map]. rewrite Z.eqb_refl. reflexivity.
  - clear -F. induction v as [|m v IH]; [reflexivity|]. cbn [fresh_type forallb map] in *. apply andb_true_iff in F as [N F].
    rewrite <- IH by assumption. unfold add_format. apply negb_true_iff in N. now rewrite N.
Qed.

Definition stored (kvs ps : list (str * str)) : list (str * str) := fold_left (fun ps kv => str_store (fst kv) (snd kv) ps) kvs ps.

Lemma codec_taken c kvs r : codec_ok c = true -> known (internalPayloadVector_ (pays (desc r))) c = true ->
  fresh_type c (payloadVector (pays (desc r))) = true ->
  fold_left (fun r kv => take_format (payloadType c) kv r) kvs (take_map c r) = set_desc r (learned (mtype r) (fun _ => stored kvs []) [c] (desc r)).
Proof.
  intros K N F. unfold take_map. rewrite learn_known by assumption.
  pose proof (formats_taken (mtype r) c (payloadVector (pays (desc r))) kvs (set_desc r (learned (mtype r) (fun _ => []) [c] (desc r))) F []) as E.
  unfold learned in *. destruct (media_eqb (mtype r) VIDEO_TYPE); exact E.
Qed.

Definition counted (s : SdpInfo) : Prop := in_s32 (videoCodecs (strs s)) /\ in_s32 (audioCodecs (strs s)).

Lemma s32_add a b : s32 (s32 a + b) = s32 (a + b).
Proof. unfold s32. dlia. Qed.

Lemma learned_nil media params s : counted s -> learned media params [] s = s.
Proof.
  intros [V A]. destruct s as [cv cr ic x se [ha hv vd ad vm am vc ac vb] [ip pv io oi ic' oc] st]. unfold learned. cbn in *. rewrite !Z.add_0_r, !s32_id by assumption.
  rewrite app_nil_r. now destruct (media_eqb media VIDEO_TYPE).
Qed.

Lemma learned_cons media params c v s : learned media params v (learned media params [c] s) = learned media params (c :: v) s.
Proof.
  unfold learned. change (zlen [c]) with 1. rewrite zlen_cons. cbn [map fold_left].
  destruct (media_eqb media VIDEO_TYPE); unfold set_pays, with_counts, set_strs;
    cbn -[s32 Z.add]; now rewrite s32_add, Z.add_assoc, <- app_assoc.
Qed.

Lemma learned_counted media params v s : counted s -> counted (learned media params v s).
Proof. intros [V A]. unfold learned, counted. destruct (media_eqb media VIDEO_TYPE); cbn; split; (assumption || apply s32_range). Qed.

Lemma fresh_nodup c v : NoDup (map payloadType (v ++ [c])) -> fresh_type c v = true.
Proof.
  intros N. apply forallb_forall. intros m I. rewrite map_app in N. apply NoDup_remove_2 in N. rewrite app_nil_r in N.
  apply negb_true_iff, Z.eqb_neq. intros E. apply N. rewrite <- E. now apply in_map.
Qed.

Definition with_feedback (r : reader) (ls : list str) : reader := mk_reader (desc r) (mlineNum r) (mtype r) (tmpFeedbackVector r ++ ls).

(** A list of codecs, each of which is read by [take] and has the lines [extra]
    on feedback. *)
Lemma codecs_taken (take : RtpMap -> reader -> reader) (extra : RtpMap -> list str) params internal media :
  (forall c r, codec_ok c = true -> known internal c = true -> internalPayloadVector_ (pays (desc r)) = internal -> mtype r = media ->
     fresh_type c (payloadVector (pays (desc r))) = true ->
     take c r = set_desc (with_feedback r (extra c)) (learned media params [c] (desc r))) ->
  forall v r, internalPayloadVector_ (pays (desc r)) = internal -> mtype r = media -> counted (desc r) ->
  forallb (fun c => codec_ok c && known internal c) v = true -> NoDup (map payloadType (payloadVector (pays (desc r)) ++ v)) ->
  fold_left (fun r c => take c r) v r = set_desc (with_feedback r (concat (map extra v))) (learned media params v (desc r)).
Proof.
  intros H. induction v as [|c v IH]; intros r I M C K N; cbn [fold_left].
  { rewrite learned_nil by assumption. unfold with_feedback. cbn. rewrite app_nil_r. now destruct r. }
  cbn [forallb] in K. apply andb_true_iff in K as [K K']. apply andb_true_iff in K as [K1 K2].
  assert (N1 : NoDup (map payloadType ((payloadVector (pays (desc r)) ++ [c]) ++ v))) by now rewrite <- app_assoc.
  assert (F : fresh_type c (payloadVector (pays (desc r))) = true).
  { apply fresh_nodup. rewrite map_app in N1. now apply NoDup_app_remove_r in N1. }
  rewrite (H c r K1 K2 I M F), IH; cbn [set_desc with_feedback desc mtype]; try assumption.
  - rewrite learned_cons. unfold with_feedback. cbn. now rewrite <- app_assoc.
  - now apply learned_counted.
  - revert N1. unfold learned. cbn [pays set_pays payloadVector map]. now rewrite !map_app.
Qed.

Definition take_audio_codec (c : RtpMap) (r : reader) : reader :=
  fold_left (fun r kv => take_format (payloadType c) kv r) (formatParameters c) (take_map c r).
Definition take_video_codec (set_min : bool) (min_bitrate : Z) (c : RtpMap) (r : reader) : reader :=
  let r := fold_left (fun r kv => take_format (payloadType c) kv r) (formatParameters c)
             (fold_left (fun r f => take_feedback c f r) (feedbackTypes c) (take_map c r)) in
  if set_min then take_format (payloadType c) (min_rate min_bitrate) r else r.

Definition video_params (set_min : bool) (min_bitrate : Z) (c : RtpMap) : list (str * str) :=
  stored (formatParameters c ++ (if set_min then [min_rate min_bitrate] else [])) [].

Definition feedback_text (c : RtpMap) : list str := map (fun f => lit "a=rtcp-fb:" ++ dec (s32 (payloadType c)) ++ lit " " ++ f) (feedbackTypes c).

Lemma feedback_taken c r : fold_left (fun r f => take_feedback c f r) (feedbackTypes c) r = with_feedback r (feedback_text c).
Proof.
  unfold feedback_text. revert r. induction (feedbackTypes c) as [|f l IH]; intros r; cbn [fold_left map].
  - unfold with_feedback. rewrite app_nil_r. now destruct r.
  - rewrite IH. unfold with_feedback. cbn. now rewrite <- app_assoc.
Qed.

Lemma video_codec_taken set_min min_bitrate c r : codec_ok c = true -> known (internalPayloadVector_ (pays (desc r))) c = true ->
  fresh_type c (payloadVector (pays (desc r))) = true ->
  take_video_codec set_min min_bitrate c r =
  set_desc (with_feedback r (feedback_text c)) (learned (mtype r) (video_params set_min min_bitrate) [c] (desc r)).
Proof.
  intros K N F. unfold take_video_codec, video_params. rewrite feedback_taken.
  change (with_feedback (take_map c r) (feedback_text c)) with (take_map c (with_feedback r (feedback_text c))).
  pose proof (codec_taken c (formatParameters c ++ (if set_min then [min_rate min_bitrate] else [])) (with_feedback r (feedback_text c)) K N F) as E.
  rewrite fold_left_app in E. destruct set_min; exact E.
Qed.

Lemma audio_codecs_taken internal v r : internalPayloadVector_ (pays (desc r)) = internal -> mtype r = AUDIO_TYPE -> counted (desc r) ->
  forallb (fun c => codec_ok c && known internal c) v = true -> NoDup (map payloadType (payloadVector (pays (desc r)) ++ v)) ->
  fold_left (fun r c => take_audio_codec c r) v r =
  set_desc r (learned AUDIO_TYPE (fun c => stored (formatParameters c) []) v (desc r)).
Proof.
  intros I M C K N. rewrite (codecs_taken _ (fun _ => []) (fun c => stored (formatParameters c) []) internal AUDIO_TYPE); try assumption.
  - unfold with_feedback. replace (concat _) with (@nil str) by (clear; induction v; auto). rewrite app_nil_r. now destruct r.
  - clear. intros c r K N I M F. subst. unfold take_audio_codec. rewrite codec_taken, M by assumption. unfold with_feedback. rewrite app_nil_r. now destruct r.
Qed.

Lemma video_codecs_taken set_min min_bitrate internal v r :
  internalPayloadVector_ (pays (desc r)) = internal -> mtype r = VIDEO_TYPE -> counted (desc r) ->
  forallb (fun c => codec_ok c && known internal c) v = true -> NoDup (map payloadType (payloadVector (pays (desc r)) ++ v)) ->
  fold_left (fun r c => take_video_codec set_min min_bitrate c r) v r =
  set_desc (with_feedback r (concat (map feedback_text v))) (learned VIDEO_TYPE (video_params set_min min_bitrate) v (desc r)).
Proof.
  intros I M C K N. apply (codecs_taken _ _ _ internal); try assumption.
  clear. intros c r K N I M F. subst. rewrite video_codec_taken by assumption. now rewrite M.
Qed.

(** *** Candidates, keys, sources and tags *)

Fixpoint heards (junk : nat -> CandidateInfo) (k : nat) (media : MediaType) (l : list CandidateInfo) : list CandidateInfo :=
  match l with
  | [] => []
  | c :: l => if is_udp c then heard (junk k) media c :: heards junk (S k) media l else heards junk k media l
  end.

Lemma candidates_taken junk l r : fold_left (fun r c => take_candidate junk c r) l r =
  set_desc r (set_candidates (desc r) (candidateVector_ (desc r) ++ heards junk (length (candidateVector_ (desc r))) (mtype r) l)).
Proof.
  revert r. induction l as [|c l IH]; intros r; cbn [fold_left heards].
  - rewrite app_nil_r. now destruct r as [[] ? ? ?].
  - rewrite IH. unfold take_candidate. destruct (is_udp c); [|reflexivity]. cbn. rewrite <- app_assoc, length_app, Nat.add_comm. reflexivity.
Qed.

Definition told_crypto (media : MediaType) (c : CryptoInfo) : CryptoInfo := mk_crypto 0 (cipherSuite c) (keyParams c) media.
Lemma cryptos_taken l r : fold_left (fun r c => take_crypto c r) l r =
  set_desc r (set_cryptos (desc r) (cryptoVector_ (desc r) ++ map (told_crypto (mtype r)) l)).
Proof.
  revert r. induction l as [|c l IH]; intros r; cbn [fold_left map].
  - rewrite app_nil_r. now destruct r as [[] ? ? ?].
  - rewrite IH. cbn. now rewrite <- app_assoc.
Qed.

(** The tags with the type [media] for those that [l] names. *)
Definition retagged (media : MediaType) (l tags : list BundleTag) : list BundleTag :=
  map (fun t => if existsb (fun u => str_eqb (id t) (id u)) l then mk_tag (id t) media else t) tags.
Lemma mids_taken l r : fold_left (fun r t => take_mid t r) l r =
  set_desc r (with_bundle (desc r) (isBundle (sess (desc r))) (retagged (mtype r) l (bundleTags (sess (desc r))))).
Proof.
  revert r. induction l as [|t l IH]; intros r; cbn [fold_left].
  - unfold retagged. cbn [existsb]. rewrite map_id. now destruct r as [[? ? ? ? [] ? ? ?] ? ? ?].
  - rewrite IH. replace (retagged _ (t :: l) _) with (retagged (mtype r) l (map (retag (id t) (mtype r)) (bundleTags (sess (desc r)))));
      [reflexivity|]. unfold retagged. rewrite map_map. apply map_ext. intros u. unfold retag. cbn [existsb].
    destruct (str_eqb (id u) (id t)); cbn [orb id]; [|reflexivity]. now destruct (existsb _ l).
Qed.

Lemma ssrc_again n r : take_ssrc n (take_ssrc n r) = take_ssrc n r.
Proof.
  destruct r as [[? ? ? [a v x e] ? ? ? ?] ? m ?]. unfold take_ssrc. cbn. destruct m; cbn; try reflexivity.
  - destruct (v =? 0) eqn:E; cbn; rewrite ?E; [|reflexivity]. now destruct (n =? 0).
  - destruct (a =? 0) eqn:E; cbn; rewrite ?E; [|reflexivity]. now destruct (n =? 0).
Qed.

(** A stream takes the first of some sources. *)
Definition first_source (old : Z) (l : list Z) : Z := fold_left (fun x n => if x =? 0 then n else x) l old.
Lemma sources_taken l r : mtype r = VIDEO_TYPE -> fold_left (fun r n => take_ssrc n r) l r =
  set_desc r (with_ssrcs (desc r) (audioSsrc (ssrcs (desc r))) (first_source (videoSsrc (ssrcs (desc r))) l) (videoRtxSsrc (ssrcs (desc r)))).
Proof.
  unfold first_source. revert r. induction l as [|n l IH]; intros r M; cbn [fold_left].
  - now destruct r as [[? ? ? [] ? ? ? ?] ? ? ?].
  - rewrite IH; [|unfold take_ssrc; rewrite M; cbn; now destruct (_ =? 0)]. unfold take_ssrc. rewrite M. cbn. destruct (videoSsrc (ssrcs (desc r)) =? 0) eqn:E; cbn; reflexivity.
Qed.

(** ** A description that can be written *)

Fixpoint sorted_keys (l : list (str * str)) : bool :=
  match l with
  | [] => true
  | (k, _) :: l => forallb (fun e => str_ltb k (fst e)) l && sorted_keys l
  end.
Definition feedback_ok (f : str) : bool := free [61; newline] f && match f with [] => false | _ => true end.
Definition in_u32b (n : Z) : bool := (0 <=? n) && (n <? 4294967296).

(** The codecs are the server's own; no text holds what separates its parts or
    a keyword. *)
Record Writable (internal : list RtpMap) (s : SdpInfo) : Prop := {
  both_streams : hasAudio (strs s) = true /\ hasVideo (strs s) = true;
  good_credentials : forallb clean [iceVideoUsername_ (ice s); iceVideoPassword_ (ice s); audio_user s; audio_pass s] = true;
  good_fingerprint : isFingerprint (sess s) = true -> free (lit " =" ++ [newline]) (fingerprint (sess s)) = true /\ fingerprint (sess s) <> [];
  good_setup : free [61; newline] (setup_ (sess s)) = true;
  good_tags : forallb tag_ok (bundleTags (sess s)) = true;
  few_tags : (length (bundleTags (sess s)) <= 9)%nat;
  own_tags : NoDup (map id (bundleTags (sess s)));
  good_candidates : forallb candidate_ok (candidateVector_ s) = true;
  good_cryptos : forallb crypto_ok (cryptoVector_ s) = true;
  good_codecs : forallb (fun c => codec_ok c && known internal c) (payloadVector (pays s)) = true;
  own_types : NoDup (map payloadType (payloadVector (pays s)));
  good_formats : forallb (fun c => forallb format_ok (formatParameters c) && sorted_keys (formatParameters c)) (payloadVector (pays s)) = true;
  good_feedback : forallb (fun c => forallb feedback_ok (feedbackTypes c)) (payloadVector (pays s)) = true;
  good_numbers : forallb in_u32b (audioSsrc (ssrcs s) :: videoSsrc (ssrcs s) :: videoRtxSsrc (ssrcs s) :: target_bandwidth_ (sets s) ::
    min_bitrate_ (sets s) :: extended_video_ssrc (ssrcs s)) = true;
  few_sources : zlen (extended_video_ssrc (ssrcs s)) < 2 ^ 32 - 1
}.

Section Parts.
Context (junk : nat -> CandidateInfo) (internal : list RtpMap) (s : SdpInfo) (W : Writable internal s).

Lemma reads_one {A} (f : A -> str) (F : A -> reader -> reader) l : (forall x, In x l -> reads junk [f x] (F x)) ->
  reads junk (map f l) (fun r => fold_left (fun r x => F x r) l r).
Proof.
  intros H. replace (map f l) with (concat (map (fun x => [f x]) l)) by (clear; induction l as [|x l IH]; cbn; now rewrite ?IH).
  apply reads_each. now apply Forall_forall.
Qed.

Lemma reads_two l1 l2 F G : reads junk [l1] F -> reads junk [l2] G -> reads junk [l1; l2] (fun r => G (F r)).
Proof. exact (reads_app junk [l1] [l2] F G). Qed.

Definition codec_here (c : RtpMap) : Prop := In c (payloadVector (pays s)).

Lemma here_media media c : In c (of_media media (payloadVector (pays s))) -> codec_here c.
Proof. unfold of_media. intros I. now apply filter_In in I as [I _]. Qed.

Lemma here_ok c : codec_here c -> codec_ok c = true /\ forallb format_ok (formatParameters c) = true /\ forallb feedback_ok (feedbackTypes c) = true.
Proof.
  intros I. pose proof (good_codecs _ _ W) as K. pose proof (good_formats _ _ W) as F. pose proof (good_feedback _ _ W) as B.
  rewrite forallb_forall in K, F, B. specialize (K c I). specialize (F c I). specialize (B c I). apply andb_true_iff in K as [K _], F as [F _]. auto.
Qed.

Lemma number_here c : codec_here c -> free [61; newline] (dec (payloadType c)) = true.
Proof. intros I. destruct (here_ok c I) as [K _]. destruct (codec_fields c K) as [P _]. now apply free_dec_u32. Qed.

Lemma audio_numbers_free : free [61; newline] (audio_numbers (payloadVector (pays s))) = true.
Proof.
  unfold audio_numbers. pose proof (here_media AUDIO_TYPE) as H. destruct (of_media AUDIO_TYPE _) as [|c v]; [reflexivity|].
  apply free_both; [apply number_here, H; now left|]. assert (H' : forall x, In x v -> codec_here x) by (intros; apply H; now right). clear H.
  induction v as [|x v IH]; [reflexivity|]. cbn [map concat]. apply free_both; [apply free_both; [reflexivity|apply number_here, H'; now left]|].
  apply IH. intros; apply H'. now right.
Qed.

Lemma video_numbers_free n k : free [61; newline] (video_numbers k n (of_media VIDEO_TYPE (payloadVector (pays s)))) = true.
Proof.
  pose proof (here_media VIDEO_TYPE) as H. revert k. induction (of_media VIDEO_TYPE _) as [|c v IH]; intros k; [reflexivity|]. cbn [video_numbers].
  apply free_both; [apply number_here, H; now left|]. apply free_both; [now destruct (_ <? _)|]. apply IH. intros; apply H. now right.
Qed.

Lemma audio_codec_read c : codec_here c -> reads junk (audio_map_ls c) (take_audio_codec c).
Proof.
  intros I. destruct (here_ok c I) as (K & F & _). rewrite forallb_forall in F. unfold audio_map_ls, map_line.
  apply (reads_app junk [_] _ (take_map c) (fun r => fold_left (fun r kv => take_format (payloadType c) kv r) (formatParameters c) r)).
  - apply map_read; [assumption|]. destruct (1 <? channels c); [right|now left]. exists (dec (channels c)). split; [reflexivity|].
    destruct (codec_fields c K) as (_ & _ & _ & N & _). now apply free_dec_u32.
  - apply (reads_one _ (take_format (payloadType c))). intros kv J. now apply format_read, F.
Qed.

Lemma min_rate_ok n : 0 <= n < 2 ^ 32 -> format_ok (min_rate n) = true.
Proof.
  intros N. destruct (number_free [61] n N eq_refl) as [F G]. destruct (number_free [newline] n N eq_refl) as [F' _].
  unfold format_ok, min_rate, format_text. cbn [fst snd]. change (str_eqb (lit "x-google-min-bitrate") (lit "none")) with false. cbn [negb].
  rewrite !andb_true_iff. repeat split; [now apply free_both| |now destruct (dec n)]. apply forallb_forall. intros k I.
  destruct (marked_shape k I) as (y & m & -> & Y). apply negb_true_iff.
  change ((lit "x-google-min-bitrate" ++ lit "=") ++ dec n) with (lit "x-google-min-bitrat" ++ 101 :: 61 :: dec n).
  rewrite has_behind by (reflexivity || lia). cbn [has prefix]. replace (y =? 61) with false by lia. now apply has_free.
Qed.

Lemma video_codec_read set_min c : codec_here c ->
  reads junk (video_map_ls set_min (min_bitrate_ (sets s)) c) (take_video_codec set_min (min_bitrate_ (sets s)) c).
Proof.
  intros I. destruct (here_ok c I) as (K & F & B). rewrite forallb_forall in F, B. unfold video_map_ls, map_line.
  eapply reads_same; [apply (reads_app junk [_]); [apply map_read; [assumption|now left]|]; apply reads_app;
    [apply (reads_one (fun f => _) (take_feedback c)); intros f J; apply feedback_read; [assumption|];
     specialize (B f J); now apply andb_true_iff in B as [B _]|]; apply reads_app;
    [apply (reads_one _ (take_format (payloadType c))); intros kv J; now apply format_read, F|]; apply reads_when; intros _;
    apply format_read; [assumption|apply min_rate_ok]|reflexivity].
  pose proof (good_numbers _ _ W) as G. cbn [forallb] in G. unfold in_u32b in G. rewrite !andb_true_iff in G. lia.
Qed.

(** *** The two streams *)

Definition of_candidates (wanted : CandidateInfo -> bool) (r : reader) : reader :=
  fold_left (fun r c => take_candidate junk c r) (filter wanted (candidateVector_ s)) r.
Definition of_transport (r : reader) : reader :=
  if isFingerprint (sess s) then set_desc r (with_fingerprint (desc r) true (fingerprint (sess s))) else r.
Definition of_mids (media : MediaType) (r : reader) : reader :=
  fold_left (fun r t => take_mid t r) (filter (fun t => media_eqb (tag_mediaType t) media) (bundleTags (sess s))) r.
Definition of_mux (r : reader) : reader := if isRtcpMux (sess s) then on_mux r else r.
Definition of_cryptos (media : MediaType) (r : reader) : reader :=
  fold_left (fun r c => take_crypto c r) (filter (fun c => media_eqb (crypto_mediaType c) media) (cryptoVector_ s)) r.

Lemma candidates_read w : reads junk (candidate_ls w s) (of_candidates w).
Proof.
  apply reads_one. intros c I. apply filter_In in I as [I _]. apply candidate_read. pose proof (good_candidates _ _ W) as K.
  rewrite forallb_forall in K. auto.
Qed.
Lemma mids_read m : reads junk (mid_ls m s) (of_mids m).
Proof.
  apply (reads_one (fun t => lit "a=mid:" ++ id t) take_mid). intros t I. apply filter_In in I as [I _]. apply mid_read.
  pose proof (good_tags _ _ W) as K. rewrite forallb_forall in K. auto.
Qed.
Lemma cryptos_read m : reads junk (crypto_ls m s) (of_cryptos m).
Proof.
  apply reads_one. intros c I. apply filter_In in I as [I _]. apply crypto_read. pose proof (good_cryptos _ _ W) as K.
  rewrite forallb_forall in K. auto.
Qed.
Lemma idle_list ls : forallb (fun l => plain l && forallb (fun n => negb (prefix (lit n) l)) ("SAVPF"%string :: marked)) ls = true ->
  reads junk ls (fun r => r).
Proof.
  induction ls as [|l ls IH]; intros K; [apply reads_nil|]. cbn [forallb] in K. apply andb_true_iff in K as [K K']. apply andb_true_iff in K as [P Q].
  apply (reads_app junk [l] ls (fun r => r) (fun r => r)); [now apply idle_read|now apply IH].
Qed.
Lemma reads_idle_if (b : bool) ls : forallb (fun l => plain l && forallb (fun n => negb (prefix (lit n) l)) ("SAVPF"%string :: marked)) ls = true ->
  reads junk (if b then ls else []) (fun r => r).
Proof. intros K. destruct b; [now apply idle_list|apply reads_nil]. Qed.
Lemma transport_read : reads junk (transport_ls s) of_transport.
Proof.
  unfold transport_ls. eapply reads_same; [apply reads_app; [apply reads_when; intros E; destruct (good_fingerprint _ _ W E); now apply fingerprint_read|]|].
  - instantiate (1 := fun r => r). pose proof (good_setup _ _ W) as G. destruct (setup_ (sess s)) as [|c l]; [apply reads_nil|].
    apply idle_read; [apply plain_app; [reflexivity|assumption]|reflexivity].
  - reflexivity.
Qed.
Lemma ssrc_four n cname msid label : 0 <= n < 2 ^ 32 -> free [61; newline] cname = true -> free [61; newline] msid = true ->
  free [61; newline] label = true -> reads junk (ssrc_ls n cname msid label) (take_ssrc n).
Proof.
  intros N C M L. eapply reads_same; [apply (reads_app junk [_]); [|apply (reads_app junk [_]); [|apply reads_two]]; apply ssrc_read; try assumption; free_parts|].
  intros r. cbn beta. now rewrite !ssrc_again.
Qed.
Lemma mux_line : reads junk (if isRtcpMux (sess s) then [lit "a=rtcp-mux"] else []) of_mux.
Proof. apply reads_when. intros _. apply mux_read. Qed.
Lemma credentials_read u p : clean u = true -> clean p = true ->
  reads junk [lit "a=ice-ufrag:" ++ u; lit "a=ice-pwd:" ++ p] (fun r => take_pass p (take_user u r)).
Proof. intros U P. apply reads_two; [now apply user_read|now apply pass_read]. Qed.

Definition audio_effect (audio_nack : bool) (r : reader) : reader :=
  let r := of_candidates (fun c => media_eqb (mediaType c) AUDIO_TYPE || isBundle (sess s)) (on_audio r) in
  let r := of_transport (take_pass (audio_pass s) (take_user (audio_user s) r)) in
  let r := of_mux (of_mids AUDIO_TYPE (on_direction (audioDirection (strs s)) r)) in
  let r := fold_left (fun r c => take_audio_codec c r) (of_media AUDIO_TYPE (payloadVector (pays s))) (of_cryptos AUDIO_TYPE r) in
  let r := take_ssrc (audioSsrc (ssrcs s)) r in
  if audio_nack then on_feedback (lit "a=rtcp-fb:111 nack") r else r.

Lemma audio_reads audio_nack msid : free [61; newline] msid = true -> reads junk (audio_ls audio_nack msid s) (audio_effect audio_nack).
Proof.
  intros M. pose proof (good_numbers _ _ W) as G. cbn [forallb] in G. unfold in_u32b in G. rewrite !andb_true_iff in G.
  pose proof (good_credentials _ _ W) as C. cbn [forallb] in C. rewrite !andb_true_iff in C. destruct C as (_ & _ & U & P & _).
  unfold audio_ls. eapply reads_same.
  - apply reads_app; [apply reads_two; [apply audio_read; unfold first_line; destruct (profile (sess s)); unfold profile_str; free_parts; apply audio_numbers_free
                                       |now apply idle_read]|].
    apply reads_app; [now apply reads_idle_if|]. apply reads_app; [apply candidates_read|]. apply reads_app; [now apply credentials_read|].
    apply reads_app; [apply transport_read|]. apply reads_app; [apply direction_read|]. apply reads_app; [apply mids_read|].
    apply reads_app; [now apply reads_idle_if|]. apply reads_app; [apply mux_line|]. apply reads_app; [apply cryptos_read|].
    apply reads_app; [apply reads_each, Forall_forall; intros c I; apply audio_codec_read; eapply here_media, I|].
    apply reads_app; [now apply idle_list|]. apply reads_app; [apply ssrc_four; [lia|reflexivity|assumption|reflexivity]|].
    apply reads_when. intros _. apply (reads_plain junk _ (on_feedback (lit "a=rtcp-fb:111 nack"))); [reflexivity|].
    intros r R. unfold process_found. keywords. split; [reflexivity|still_ready].
  - reflexivity.
Qed.

Definition video_sources : list Z :=
  (if negb (videoSsrc (ssrcs s) =? 0) then [videoSsrc (ssrcs s)] else []) ++ extended_video_ssrc (ssrcs s) ++
  (if negb (videoRtxSsrc (ssrcs s) =? 0) then [videoRtxSsrc (ssrcs s)] else []).

Definition video_effect (set_min : bool) (r : reader) : reader :=
  let r := on_video r in
  let r := match mtype r with VIDEO_TYPE => set_desc r (with_bandwidth (desc r) (target_bandwidth_ (sets s))) | _ => r end in
  let r := of_candidates (fun c => media_eqb (mediaType c) VIDEO_TYPE) r in
  let r := of_transport (take_pass (iceVideoPassword_ (ice s)) (take_user (iceVideoUsername_ (ice s)) r)) in
  let r := of_mux (of_mids VIDEO_TYPE (on_direction (videoDirection (strs s)) r)) in
  let r := fold_left (fun r c => take_video_codec set_min (min_bitrate_ (sets s)) c r) (of_media VIDEO_TYPE (payloadVector (pays s)))
             (of_cryptos VIDEO_TYPE r) in
  fold_left (fun r n => take_ssrc n r) video_sources r.

Lemma extended_read msid : free [61; newline] msid = true -> forall l t, 0 <= t -> t + zlen l < 2 ^ 32 -> forallb in_u32b l = true ->
  reads junk (extended_ls t l msid) (fun r => fold_left (fun r n => take_ssrc n r) l r).
Proof.
  intros M. induction l as [|n l IH]; intros t T B K; [apply reads_nil|]. cbn [forallb extended_ls fold_left] in *.
  unfold in_u32b in K at 1. rewrite !andb_true_iff in K. rewrite zlen_cons in B. pose proof (zlen_nonneg l).
  apply (reads_app junk _ _ (take_ssrc n) (fun r => fold_left (fun r n => take_ssrc n r) l r)).
  - apply ssrc_four; [lia|reflexivity|assumption|]. apply free_both; [reflexivity|apply free_dec_u32; [lia|reflexivity]].
  - apply IH; (lia || apply K).
Qed.

Lemma video_reads set_min msid : free [61; newline] msid = true -> reads junk (video_ls set_min msid s) (video_effect set_min).
Proof.
  intros M. pose proof (few_sources _ _ W) as X. pose proof (good_numbers _ _ W) as G. cbn [forallb] in G. unfold in_u32b in G at 1 2 3 4 5. rewrite !andb_true_iff in G.
  pose proof (good_credentials _ _ W) as C. cbn [forallb] in C. rewrite !andb_true_iff in C. destruct C as (U & P & _).
  unfold video_ls. eapply reads_same.
  - apply (reads_app junk [_; _; _]);
      [apply (reads_app junk [_]); [apply video_read; unfold first_line; destruct (profile (sess s)); unfold profile_str; free_parts; apply video_numbers_free|];
       apply reads_two; [apply bandwidth_read; lia|now apply idle_read]|].
    apply reads_app; [now apply reads_idle_if|]. apply reads_app; [apply candidates_read|]. apply reads_app; [now apply credentials_read|].
    apply reads_app; [now apply reads_idle_if|]. apply reads_app; [apply transport_read|]. apply reads_app; [apply direction_read|].
    apply reads_app; [apply mids_read|]. apply reads_app; [apply mux_line|]. apply reads_app; [apply cryptos_read|].
    apply reads_app; [apply reads_each, Forall_forall; intros c I; apply video_codec_read; eapply here_media, I|].
    apply reads_app; [apply reads_when; intros _; apply ssrc_four; [lia|reflexivity|assumption|reflexivity]|].
    apply reads_app; [apply extended_read; [assumption|lia|lia|apply G]|].
    apply reads_when; intros _; apply ssrc_four; [lia|reflexivity|assumption|reflexivity].
  - intros r. unfold video_effect, video_sources. rewrite !fold_left_app. destruct (videoSsrc _ =? 0), (videoRtxSsrc _ =? 0); reflexivity.
Qed.
End Parts.

(** ** The description that is read *)

Definition audio_candidates (s : SdpInfo) : list CandidateInfo :=
  filter (fun c => media_eqb (mediaType c) AUDIO_TYPE || isBundle (sess s)) (candidateVector_ s).
Definition video_candidates (s : SdpInfo) : list CandidateInfo := filter (fun c => media_eqb (mediaType c) VIDEO_TYPE) (candidateVector_ s).
Definition media_cryptos (media : MediaType) (s : SdpInfo) : list CryptoInfo := filter (fun c => media_eqb (crypto_mediaType c) media) (cryptoVector_ s).
Definition media_tags (media : MediaType) (s : SdpInfo) : list BundleTag := filter (fun t => media_eqb (tag_mediaType t) media) (bundleTags (sess s)).
Definition media_codecs (media : MediaType) (s : SdpInfo) : list RtpMap := of_media media (payloadVector (pays s)).

(** A reader before the streams, with the tags of the group. *)
Definition before (bundle : bool) (tags : list BundleTag) (internal : list RtpMap) (va aa : StreamDirection) (st : settings) : reader :=
  mk_reader
    (mk_sdp [] [] (mk_ice [] [] [] []) (mk_sources 0 0 0 []) (mk_session bundle false SAVPF false [] [] tags)
       (mk_streams false false va aa (-1) (-1) 0 0 0) (mk_payloads internal [] [] [] [] []) st) (-1) OTHER [].

Definition identities (v : list RtpMap) (m : map_t Z) : map_t Z := fold_left (fun m c => store (payloadType c) (payloadType c) m) v m.
Definition own_params (c : RtpMap) : list (str * str) := stored (formatParameters c) [].

(** The reader behind the part of audio. *)
Definition behind_audio (junk : nat -> CandidateInfo) (audio_nack : bool) (s : SdpInfo) (bundle : bool) (tags : list BundleTag)
    (internal : list RtpMap) (va : StreamDirection) (st : settings) : reader :=
  let x := sess s in
  mk_reader
    (mk_sdp (heards junk 0 AUDIO_TYPE (audio_candidates s)) (map (told_crypto AUDIO_TYPE) (media_cryptos AUDIO_TYPE s))
       (mk_ice [] (audio_user s) [] (audio_pass s)) (mk_sources (audioSsrc (ssrcs s)) 0 0 [])
       (mk_session bundle (isRtcpMux x) SAVPF (isFingerprint x) (if isFingerprint x then fingerprint x else []) []
          (retagged AUDIO_TYPE (media_tags AUDIO_TYPE s) tags))
       (mk_streams true false va (audioDirection (strs s)) (-1) 0 0 (s32 (0 + zlen (media_codecs AUDIO_TYPE s))) 0)
       (mk_payloads internal (map (fun c => told_map AUDIO_TYPE (own_params c) c) (media_codecs AUDIO_TYPE s))
          (identities (media_codecs AUDIO_TYPE s) []) (identities (media_codecs AUDIO_TYPE s) []) [] []) st)
    0 AUDIO_TYPE (if audio_nack then [lit "a=rtcp-fb:111 nack"] else []).

Section Told.
Context (junk : nat -> CandidateInfo) (internal : list RtpMap) (s : SdpInfo) (W : Writable internal s).

Lemma media_good media : forallb (fun c => codec_ok c && known internal c) (media_codecs media s) = true.
Proof.
  pose proof (good_codecs _ _ W) as K. rewrite forallb_forall in *. intros c I. apply K. unfold media_codecs, of_media in I.
  now apply filter_In in I as [I _].
Qed.

Lemma filters_nodup {A B} (f : A -> B) (p q : A -> bool) v : (forall x, p x = true -> q x = false) ->
  NoDup (map f v) -> NoDup (map f (filter p v ++ filter q v)).
Proof.
  intros D. assert (I2 : forall x v, In x (map f (filter p v ++ filter q v)) -> In x (map f v)).
  { clear. intros x v I. apply in_map_iff in I as (c & <- & I). apply in_map. apply in_app_iff in I as [I | I]; now apply filter_In in I as [I _]. }
  induction v as [|c v IH]; intros N; [constructor|]. cbn [map] in N. inversion N as [|? ? I N']; subst. specialize (IH N').
  assert (O : ~ In (f c) (map f (filter p v ++ filter q v))) by (intros H; now apply I, I2). cbn [filter].
  destruct (p c) eqn:P; [rewrite (D c P); cbn [map app]; now constructor|]. destruct (q c); [|assumption].
  rewrite map_app in *. cbn [map]. apply (NoDup_Add (Add_app (f c) _ _)). now split.
Qed.

Lemma media_types : NoDup (map payloadType (media_codecs AUDIO_TYPE s ++ media_codecs VIDEO_TYPE s)).
Proof. apply filters_nodup; [|apply (own_types _ _ W)]. intros c. now destruct (map_mediaType c). Qed.

Lemma audio_types : NoDup (map payloadType (media_codecs AUDIO_TYPE s)).
Proof. pose proof media_types as N. rewrite map_app in N. now apply NoDup_app_remove_r in N. Qed.

Ltac taken := rewrite ?candidates_taken, ?mids_taken, ?cryptos_taken.

Lemma audio_is_behind audio_nack bundle tags va aa st :
  audio_effect junk s audio_nack (before bundle tags internal va aa st) = behind_audio junk audio_nack s bundle tags internal va st.
Proof.
  unfold audio_effect, of_candidates, of_mids, of_cryptos. taken.
  unfold of_mux, of_transport, behind_audio.
  destruct (isRtcpMux (sess s)), (isFingerprint (sess s)); rewrite (audio_codecs_taken internal);
    try reflexivity; try (split; cbn; unfold in_s32; lia); try (exact (media_good AUDIO_TYPE)); try (exact audio_types);
    destruct audio_nack; reflexivity.
Qed.


(** The reader behind the part of video, before its sources are read: with the
    codecs, their formats and the lines on feedback that were read. *)
Definition in_video (audio_nack bundle : bool) (tags : list BundleTag) (st : settings) (source codecs : Z) (v : list RtpMap) (types : map_t Z)
    (feedback : list str) : reader :=
  let x := sess s in
  let heard := heards junk 0 AUDIO_TYPE (audio_candidates s) in
  let A := media_codecs AUDIO_TYPE s in
  mk_reader
    (mk_sdp (heard ++ heards junk (length heard) VIDEO_TYPE (video_candidates s))
       (map (told_crypto AUDIO_TYPE) (media_cryptos AUDIO_TYPE s) ++ map (told_crypto VIDEO_TYPE) (media_cryptos VIDEO_TYPE s))
       (mk_ice (iceVideoUsername_ (ice s)) (audio_user s) (iceVideoPassword_ (ice s)) (audio_pass s))
       (mk_sources (audioSsrc (ssrcs s)) source 0 [])
       (mk_session bundle (isRtcpMux x) SAVPF (isFingerprint x) (if isFingerprint x then fingerprint x else []) []
          (retagged VIDEO_TYPE (media_tags VIDEO_TYPE s) (retagged AUDIO_TYPE (media_tags AUDIO_TYPE s) tags)))
       (mk_streams true true (videoDirection (strs s)) (audioDirection (strs s)) 1 0 codecs (s32 (0 + zlen A)) (target_bandwidth_ (sets s)))
       (mk_payloads internal (map (fun c => told_map AUDIO_TYPE (own_params c) c) A ++ v) types types [] []) st)
    1 VIDEO_TYPE ((if audio_nack then [lit "a=rtcp-fb:111 nack"] else []) ++ feedback).

Definition behind_video (audio_nack set_min bundle : bool) (tags : list BundleTag) (st : settings) : reader :=
  let A := media_codecs AUDIO_TYPE s in
  let V := media_codecs VIDEO_TYPE s in
  in_video audio_nack bundle tags st (first_source 0 (video_sources s)) (s32 (0 + zlen V))
    (map (fun c => told_map VIDEO_TYPE (video_params set_min (min_bitrate_ (sets s)) c) c) V) (identities V (identities A []))
    (concat (map feedback_text V)).

Lemma video_codecs_read audio_nack set_min bundle tags st :
  fold_left (fun r c => take_video_codec set_min (min_bitrate_ (sets s)) c r) (media_codecs VIDEO_TYPE s)
    (in_video audio_nack bundle tags st 0 0 [] (identities (media_codecs AUDIO_TYPE s) []) []) =
  in_video audio_nack bundle tags st 0 (s32 (0 + zlen (media_codecs VIDEO_TYPE s)))
    (map (fun c => told_map VIDEO_TYPE (video_params set_min (min_bitrate_ (sets s)) c) c) (media_codecs VIDEO_TYPE s))
    (identities (media_codecs VIDEO_TYPE s) (identities (media_codecs AUDIO_TYPE s) [])) (concat (map feedback_text (media_codecs VIDEO_TYPE s))).
Proof.
  rewrite (video_codecs_taken set_min _ internal).
  - unfold in_video, with_feedback. cbn [tmpFeedbackVector]. rewrite app_nil_r. unfold learned. cbn -[s32]. now rewrite app_nil_r.
  - reflexivity.
  - reflexivity.
  - split; [cbn; unfold in_s32; lia|apply s32_range].
  - exact (media_good VIDEO_TYPE).
  - unfold in_video. cbn [desc pays payloadVector]. rewrite app_nil_r, map_app, map_map, <- map_app. exact media_types.
Qed.

Lemma video_is_behind audio_nack set_min bundle tags va st :
  video_effect junk s set_min (behind_audio junk audio_nack s bundle tags internal va st) = behind_video audio_nack set_min bundle tags st.
Proof.
  unfold video_effect, of_candidates, of_mids, of_cryptos. taken.
  match goal with |- context [fold_left (fun r c => take_video_codec _ _ c r) _ ?r0] =>
    replace r0 with (in_video audio_nack bundle tags st 0 0 [] (identities (media_codecs AUDIO_TYPE s) []) []) end.
  - fold (media_codecs VIDEO_TYPE s). rewrite video_codecs_read, sources_taken by reflexivity. reflexivity.
  - unfold of_mux, of_transport, behind_audio, in_video. rewrite !app_nil_r. destruct (isRtcpMux (sess s)), (isFingerprint (sess s)); reflexivity.
Qed.

(** *** The end of the reading *)

Lemma stored_sorted l : forall done, sorted_keys l = true -> Forall (fun e => forallb (fun d => str_ltb (fst d) (fst e)) done = true) l ->
  stored l done = done ++ l.
Proof.
  unfold stored. induction l as [|[k v] l IH]; intros done S D; cbn [fold_left]; [now rewrite app_nil_r|].
  inversion D as [|? ? D1 D2]; subst. cbn [fst snd] in *. rewrite str_store_end by assumption.
  cbn [sorted_keys] in S. apply andb_true_iff in S as [S1 S2]. rewrite IH, <- app_assoc; [reflexivity|assumption|].
  rewrite forallb_forall in S1. rewrite Forall_forall in *. intros e I. rewrite forallb_app, D2 by assumption. cbn. now rewrite S1.
Qed.

Lemma own_params_kept c : codec_here s c -> own_params c = formatParameters c.
Proof.
  intros I. pose proof (good_formats _ _ W) as F. rewrite forallb_forall in F. specialize (F c I). apply andb_true_iff in F as [_ F].
  apply (stored_sorted _ []); [assumption|]. now apply Forall_forall.
Qed.

(** The codec as the peer has it. *)
Definition heard_feedback (all : list (Z * str)) (m : RtpMap) : RtpMap :=
  mk_map (payloadType m) (encodingName m) (clockRate m) (map_mediaType m) (channels m)
    (feedbackTypes m ++ map snd (filter (fun e => fst e =? payloadType m) all)) (formatParameters m).

Definition feedback_line (e : Z * str) : str := lit "a=rtcp-fb:" ++ dec (fst e) ++ lit " " ++ snd e.
Definition pair_ok (e : Z * str) : bool := in_u32b (fst e) && match snd e with [] => false | _ => true end.
Lemma feedback_mapped all : forall v, forallb pair_ok all = true ->
  map_feedback (map feedback_line all) v = Ok (map (heard_feedback all) v).
Proof.
  induction all as [|[pt f] all IH]; intros v K.
  - cbn [map map_feedback]. f_equal. symmetry. rewrite <- (map_id v) at 2. apply map_ext. intros []. unfold heard_feedback. cbn. now rewrite app_nil_r.
  - cbn [forallb] in K. unfold pair_ok in K at 1. cbn [fst snd] in K. apply andb_true_iff in K as [K K']. apply andb_true_iff in K as [K N]. unfold in_u32b in K.
    cbn [map map_feedback].
    change (feedback_line (pt, f)) with (lit "a=rtcp-fb" ++ 58 :: dec pt ++ 32 :: f).
    destruct (number_free (lit " :") pt) as [D _]; [lia|reflexivity|].
    rewrite !split_part, split_last by (reflexivity || assumption || now destruct f). cbn [one_less part nth_error bind].
    rewrite number_read by lia. rewrite IH by assumption. f_equal. rewrite map_map. apply map_ext. intros m. unfold heard_feedback, add_feedback.
    cbn [filter fst]. rewrite (Z.eqb_sym pt). destruct (payloadType m =? pt) eqn:E; cbn; [|reflexivity]. now rewrite <- app_assoc.
Qed.

Definition feedback_pairs (v : list RtpMap) : list (Z * str) := concat (map (fun c => map (fun f => (payloadType c, f)) (feedbackTypes c)) v).

Lemma pairs_none pt v : ~ In pt (map payloadType v) -> filter (fun e => fst e =? pt) (feedback_pairs v) = [].
Proof.
  unfold feedback_pairs. induction v as [|c v IH]; intros N; [reflexivity|]. cbn [map concat In] in *. rewrite filter_app, IH by tauto.
  rewrite app_nil_r. assert (E : payloadType c =? pt = false) by (apply Z.eqb_neq; tauto). clear -E.
  induction (feedbackTypes c) as [|f l IH]; [reflexivity|]. cbn [map filter fst]. now rewrite E.
Qed.

Lemma pairs_own c v : NoDup (map payloadType v) -> In c v -> map snd (filter (fun e => fst e =? payloadType c) (feedback_pairs v)) = feedbackTypes c.
Proof.
  induction v as [|d v IH]; intros N I; [contradiction|]. inversion N as [|? ? O N']; subst. unfold feedback_pairs in *. cbn [map concat].
  rewrite filter_app, map_app. destruct I as [-> | I].
  - fold (feedback_pairs v). rewrite pairs_none, app_nil_r by assumption. clear. induction (feedbackTypes c) as [|f l IH]; [reflexivity|].
    cbn [map filter fst]. rewrite Z.eqb_refl. cbn [map snd]. now rewrite IH.
  - rewrite IH by assumption. assert (E : payloadType d =? payloadType c = false).
    { apply Z.eqb_neq. intros E. apply O. rewrite E. now apply in_map. }
    clear -E. induction (feedbackTypes d) as [|f l IH]; [reflexivity|]. cbn [map filter fst]. now rewrite E.
Qed.

(** The codec a peer learns: the server writes the feedback of video alone and,
    when it is asked to, that of its own codec for audio. *)
Definition told_codec (audio_nack set_min : bool) (min_bitrate : Z) (media : MediaType) (c : RtpMap) : RtpMap :=
  mk_map (payloadType c) (encodingName c) (clockRate c) media (channels c)
    ((if audio_nack && (payloadType c =? 111) then [lit "nack"] else []) ++ (if media_eqb media VIDEO_TYPE then feedbackTypes c else []))
    (if media_eqb media VIDEO_TYPE && set_min then str_store (lit "x-google-min-bitrate") (dec min_bitrate) (formatParameters c)
     else formatParameters c).

Definition all_feedback (audio_nack : bool) : list (Z * str) :=
  (if audio_nack then [(111, lit "nack")] else []) ++ feedback_pairs (media_codecs VIDEO_TYPE s).

Lemma codec_told audio_nack set_min media c : media <> OTHER -> In c (media_codecs media s) ->
  heard_feedback (all_feedback audio_nack)
    (told_map media (if media_eqb media VIDEO_TYPE then video_params set_min (min_bitrate_ (sets s)) c else own_params c) c) =
  told_codec audio_nack set_min (min_bitrate_ (sets s)) media c.
Proof.
  intros M I. unfold heard_feedback, told_codec, all_feedback. cbn [told_map payloadType encodingName clockRate map_mediaType channels feedbackTypes formatParameters].
  rewrite filter_app, map_app. cbn [app]. f_equal; [f_equal|].
  - destruct audio_nack; [|reflexivity]. cbn [filter fst andb]. rewrite Z.eqb_sym. now destruct (_ =? 111).
  - pose proof media_types as N. rewrite map_app in N. destruct media; [| |contradiction]; cbn [media_eqb].
    + apply pairs_own; [now apply NoDup_app_remove_l in N|assumption].
    + rewrite pairs_none; [reflexivity|]. intros J. apply in_map with (f := payloadType) in I. apply in_split in J as (x & y & E). rewrite E in N.
      rewrite app_assoc in N. apply NoDup_remove_2 in N. apply N. rewrite !in_app_iff. auto.
  - assert (H : codec_here s c) by (eapply here_media; exact I). pose proof (own_params_kept c H) as E.
    destruct media; [| |contradiction]; cbn [media_eqb andb]; [|assumption]. unfold video_params, stored, own_params, stored in *. rewrite fold_left_app, E.
    now destruct set_min.
Qed.

Lemma feedback_lines_are (audio_nack : bool) : (if audio_nack then [lit "a=rtcp-fb:111 nack"] else []) ++ concat (map feedback_text (media_codecs VIDEO_TYPE s)) =
  map feedback_line (all_feedback audio_nack).
Proof.
  unfold all_feedback. rewrite map_app. f_equal; [now destruct audio_nack|]. pose proof (media_good VIDEO_TYPE) as K. unfold feedback_pairs.
  rewrite concat_map, map_map. f_equal. apply map_ext_in. intros c I. rewrite forallb_forall in K. specialize (K c I). apply andb_true_iff in K as [K _].
  destruct (codec_fields c K) as (_ & E & _). unfold feedback_text. rewrite E, map_map. reflexivity.
Qed.

Lemma feedback_is_ok audio_nack : forallb pair_ok (all_feedback audio_nack) = true.
Proof.
  apply forallb_forall. intros e I. unfold all_feedback in I. apply in_app_iff in I as [I | I].
  - destruct audio_nack; [|contradiction]. destruct I as [<- | []]. reflexivity.
  - unfold feedback_pairs in I. apply in_concat in I as (l & J & I). apply in_map_iff in J as (c & <- & J). apply in_map_iff in I as (f & <- & I).
    destruct (here_ok internal s W c) as (K & _ & B); [eapply here_media; exact J|]. rewrite forallb_forall in B. specialize (B f I).
    destruct (codec_fields c K) as (P & _). unfold pair_ok, in_u32b, feedback_ok in *. cbn [fst snd]. apply andb_true_iff in B as [_ B]. rewrite B. lia.
Qed.

(** The tags have the types of their streams again. *)
Lemma tag_found media t : In t (bundleTags (sess s)) ->
  existsb (fun u => str_eqb (id t) (id u)) (media_tags media s) = media_eqb (tag_mediaType t) media.
Proof.
  intros I. apply eq_true_iff_eq. rewrite existsb_exists. unfold media_tags. split.
  - intros (u & J & E). apply filter_In in J as [J M]. apply str_eqb_eq in E. pose proof (own_tags _ _ W) as N.
    replace t with u; [assumption|]. clear -N I J E. induction (bundleTags (sess s)) as [|x l IH]; [contradiction|]. cbn [map] in N. inversion N as [|? ? O N']; subst.
    destruct I as [-> | I], J as [-> | J]; [reflexivity| | |auto]; exfalso; apply O; [rewrite E|rewrite <- E]; now apply in_map.
  - intros M. exists t. split; [apply filter_In; auto|apply str_eqb_refl].
Qed.

Lemma tags_again : retagged VIDEO_TYPE (media_tags VIDEO_TYPE s) (retagged AUDIO_TYPE (media_tags AUDIO_TYPE s)
  (map (fun t => mk_tag (id t) OTHER) (bundleTags (sess s)))) = bundleTags (sess s).
Proof.
  unfold retagged. rewrite !map_map. transitivity (map (fun t => t) (bundleTags (sess s))); [|apply map_id]. apply map_ext_in.
  intros t I. cbn [id]. pose proof (tag_found VIDEO_TYPE t I) as V. rewrite (tag_found AUDIO_TYPE t I).
  destruct t as [i m]. destruct m; cbn [tag_mediaType media_eqb id] in *; now rewrite V.
Qed.

(** What a peer holds of the description, where [internal] and [st] are its own
    codecs and settings: the credentials, with those of video for audio when
    audio has none; the candidates of each stream, those of a bundle once for
    either; the keys; the first source of either stream; the tags of a bundle
    with their streams; the directions and the bandwidth; the codecs of audio and
    then those of video, under the same numbers. *)
Definition told_candidate (i : credentials) (bundle : bool) (c : CandidateInfo) : CandidateInfo :=
  mk_candidate bundle (tag c) (priority c) (componentId c) (foundation c) (hostAddress c) (rAddress c) (hostPort c) (rPort c)
    (netProtocol c) (hostType c) (transProtocol c)
    (match mediaType c with VIDEO_TYPE => iceVideoUsername_ i | _ => iceAudioUsername_ i end)
    (match mediaType c with VIDEO_TYPE => iceVideoPassword_ i | _ => iceAudioPassword_ i end) (mediaType c).

Definition told (audio_nack set_min : bool) (st : settings) : SdpInfo :=
  let x := sess s in
  let m := strs s in
  let heard := heards junk 0 AUDIO_TYPE (audio_candidates s) in
  let A := media_codecs AUDIO_TYPE s in
  let V := media_codecs VIDEO_TYPE s in
  let i := mk_ice (iceVideoUsername_ (ice s)) (audio_user s) (iceVideoPassword_ (ice s)) (audio_pass s) in
  mk_sdp (map (told_candidate i (isBundle x)) (heard ++ heards junk (length heard) VIDEO_TYPE (video_candidates s)))
    (map (told_crypto AUDIO_TYPE) (media_cryptos AUDIO_TYPE s) ++ map (told_crypto VIDEO_TYPE) (media_cryptos VIDEO_TYPE s)) i
    (mk_sources (audioSsrc (ssrcs s)) (first_source 0 (video_sources s)) 0 [])
    (mk_session (isBundle x) (isRtcpMux x) SAVPF (isFingerprint x) (if isFingerprint x then fingerprint x else []) []
       (if isBundle x then bundleTags x else []))
    (mk_streams true true (videoDirection m) (audioDirection m) 1 0 (s32 (zlen V)) (s32 (zlen A)) (target_bandwidth_ (sets s)))
    (mk_payloads internal
       (map (told_codec audio_nack set_min (min_bitrate_ (sets s)) AUDIO_TYPE) A ++
        map (told_codec audio_nack set_min (min_bitrate_ (sets s)) VIDEO_TYPE) V)
       (identities V (identities A [])) (identities V (identities A [])) [] []) st.

Lemma fill_is_told d : map (fill_candidate d) (candidateVector_ d) = map (told_candidate (ice d) (isBundle (sess d))) (candidateVector_ d).
Proof. apply map_ext. intros c. unfold fill_candidate, told_candidate. now destruct (mediaType c). Qed.

(** The tags that the reader has after the group. *)
Definition group_tags : list BundleTag := if isBundle (sess s) then map (fun t => mk_tag (id t) OTHER) (bundleTags (sess s)) else [].

Lemma told_in_the_end audio_nack set_min st :
  let r := behind_video audio_nack set_min (isBundle (sess s)) group_tags st in
  exists i v, share_credentials (ice (desc r)) = Some i /\ map_feedback (tmpFeedbackVector r) (payloadVector (pays (desc r))) = Ok v /\
  (let d := set_ice (desc r) i in with_payloads (set_candidates d (map (fill_candidate d) (candidateVector_ d))) v) = told audio_nack set_min st.
Proof.
  intros r. exists (ice (desc r)), (payloadVector (pays (told audio_nack set_min st))). split; [|split].
  - pose proof (good_credentials _ _ W) as C. cbn [forallb] in C. rewrite !andb_true_iff in C. destruct C as (U & _ & A & _).
    apply clean_free in U as (_ & _ & U), A as (_ & _ & A). cbn. unfold share_credentials. cbn.
    destruct (iceVideoUsername_ (ice s)), (audio_user s); contradiction || reflexivity.
  - unfold r, behind_video, in_video, told. cbn [tmpFeedbackVector desc pays payloadVector]. rewrite feedback_lines_are.
    rewrite feedback_mapped by apply feedback_is_ok. rewrite map_app, !map_map. f_equal.
    f_equal; apply map_ext_in; intros c I; [now apply (codec_told _ set_min AUDIO_TYPE)|now apply (codec_told _ _ VIDEO_TYPE)].
  - cbv zeta. rewrite fill_is_told.
    assert (T : retagged VIDEO_TYPE (media_tags VIDEO_TYPE s) (retagged AUDIO_TYPE (media_tags AUDIO_TYPE s) group_tags) =
      if isBundle (sess s) then bundleTags (sess s) else []) by (unfold group_tags; destruct (isBundle (sess s)); [apply tags_again|reflexivity]).
    unfold r, behind_video, in_video. rewrite T, !Z.add_0_l. reflexivity.
Qed.

(** The text before the streams. *)
Definition head_ls (msid : str) : list str :=
  [lit "v=0"; lit "o=- 0 0 IN IP4 127.0.0.1"; lit "s=Orbit"; lit "t=0 0"] ++
  (if isBundle (sess s) then [group_line (bundleTags (sess s)); lit "a=msid-semantic: WMS " ++ msid] else []).

Lemma head_read msid va aa st : free [61; newline] msid = true ->
  forallb (free [newline]) (head_ls msid) = true /\
  process_lines junk (head_ls msid) (before false [] internal va aa st) = Ok (before (isBundle (sess s)) group_tags internal va aa st) /\
  Ready (before (isBundle (sess s)) group_tags internal va aa st).
Proof.
  intros M. set (r0 := before false [] internal va aa st). assert (R0 : Ready r0) by (split; [reflexivity|cbn; unfold zlen; cbn; lia]).
  destruct (idle_list junk [lit "v=0"; lit "o=- 0 0 IN IP4 127.0.0.1"; lit "s=Orbit"; lit "t=0 0"] eq_refl) as [F1 H1].
  destruct (H1 r0 R0) as [E1 _]. unfold head_ls, group_tags. rewrite forallb_app, process_lines_app, F1, E1. cbn [bind andb].
  destruct (isBundle (sess s)); [|split; [reflexivity|now split]].
  destruct (group_read junk (bundleTags (sess s)) r0 (good_tags _ _ W) (few_tags _ _ W) R0 eq_refl) as [F2 E2].
  assert (R1 : Ready (before true (map (fun t => mk_tag (id t) OTHER) (bundleTags (sess s))) internal va aa st)).
  { split; [reflexivity|]. cbn. unfold zlen. rewrite length_map. pose proof (few_tags _ _ W). lia. }
  destruct (idle_read junk (lit "a=msid-semantic: WMS " ++ msid)) as [F3 H3]; [now apply plain_app|reflexivity|].
  destruct (H3 _ R1) as [E3 _]. split; [cbn [forallb] in *; rewrite F2; exact F3|]. split; [|assumption].
  cbn [process_lines]. rewrite E2. cbn [bind]. exact E3.
Qed.
End Told.

Lemma source_writable internal s : Writable internal s -> Writable internal (with_audio_source s).
Proof.
  intros W. unfold with_audio_source. destruct (audioSsrc (ssrcs s) =? 0); [|assumption]. destruct W. constructor; try assumption.
  cbn [ssrcs with_ssrcs set_ssrcs audioSsrc videoSsrc videoRtxSsrc extended_video_ssrc sets forallb] in *.
  apply andb_true_iff in good_numbers0 as [_ G]. exact G.
Qed.

Lemma lines_read junk internal s audio_nack set_min msid va aa st : Writable internal s -> free [61; newline] msid = true ->
  process_lines junk (lines (unlines (sdp_ls audio_nack set_min msid s))) (before false [] internal va aa st) =
  Ok (behind_video junk internal (with_audio_source s) audio_nack set_min (isBundle (sess s)) (group_tags s) st).
Proof.
  intros W M. assert (W' := source_writable _ _ W). destruct (head_read junk internal s W msid va aa st M) as (F1 & E1 & R1).
  destruct (audio_reads junk internal _ W' audio_nack msid M) as [F2 H2], (video_reads junk internal _ W' set_min msid M) as [F3 H3].
  destruct (H2 _ R1) as [E2 R2]. destruct (H3 _ R2) as [E3 _].
  assert (L : sdp_ls audio_nack set_min msid s = head_ls s msid ++ audio_ls audio_nack msid (with_audio_source s) ++ video_ls set_min msid (with_audio_source s))
    by (unfold sdp_ls, head_ls; now rewrite <- app_assoc).
  rewrite L, lines_unlines by now rewrite !forallb_app, F1, F2, F3.
  rewrite process_lines_app, E1. cbn [bind]. rewrite process_lines_app, E2. cbn [bind]. rewrite E3. f_equal.
  rewrite (audio_is_behind junk internal _ W'). apply (video_is_behind junk internal _ W').
Qed.

(** C3. What is written is read: from a description whose texts hold no
    separators and no keywords, [getSdp] produces a text, and a fresh
    description that reads the text with [initWithSdp] holds the credentials,
    fingerprint, tags, directions, bandwidth, sources, candidates, keys and
    codecs of the first, each with its stream, and the codecs under their
    numbers. *)
Theorem description_is_read junk audio_nack set_min rands b beyond red_fec encoding va aa s :
  let peer := new_SdpInfo red_fec encoding va aa in
  Writable (internalPayloadVector_ (pays peer)) s ->
  exists text, getSdp audio_nack set_min rands (b :: beyond) s = Ok (text, with_audio_source s) /\
  initWithSdp junk peer text [] =
    Ok (true, told junk (internalPayloadVector_ (pays peer)) (with_audio_source s) audio_nack set_min (sets peer)).
Proof.
  intros peer W. exists (unlines (sdp_ls audio_nack set_min (msid_of rands) s)). destruct (both_streams _ _ W) as [A V].
  assert (M : free [61; newline] (msid_of rands) = true) by (apply alnum_free; [apply msid_alnum|reflexivity]).
  split. { apply getSdp_lines; try assumption. pose proof (few_tags _ _ W). unfold zlen. lia. }
  unfold initWithSdp, processSdp. change (mk_reader peer (-1) (media_of []) []) with (before false [] (internalPayloadVector_ (pays peer)) va aa (sets peer)).
  rewrite (lines_read junk _ s _ _ _ va aa (sets peer) W M). cbn [bind].
  assert (G : isBundle (sess s) = isBundle (sess (with_audio_source s)) /\ group_tags s = group_tags (with_audio_source s))
    by (unfold with_audio_source; now destruct (audioSsrc (ssrcs s) =? 0)).
  destruct G as [-> ->].
  destruct (told_in_the_end junk _ _ (source_writable _ _ W) audio_nack set_min (sets peer)) as (i & v & E1 & E2 & E3).
  rewrite E1. set (r := behind_video _ _ _ _ _ _ _ _) in *. clearbody r. cbn zeta in *.
  change (payloadVector (pays (set_candidates _ _))) with (payloadVector (pays (desc r))). rewrite E2. cbn [bind]. now rewrite <- E3.
Qed.

(** *** An offer *)

Definition sample_junk (k : nat) : CandidateInfo := mk_candidate false 7 7 7 [] [] [] 7 7 [] HOST [] [] [] OTHER.
Definition sample_candidate : CandidateInfo :=
  mk_candidate false 0 2122260223 1 (lit "3141053312") (lit "10.171.94.20") (lit "1.2.3.4") 62087 99 (lit "udp") SRFLX [] [] [] VIDEO_TYPE.
Definition sample_offer : SdpInfo :=
  let s := createOfferSdp (new_SdpInfo false VP8 SENDONLY SENDONLY) in
  let s := setFingerprint (setIsFingerprint s true) (lit "58:8B:E5") in
  let s := setCredentials (setCredentials s (lit "abc") (lit "123") AUDIO_TYPE) (lit "def") (lit "456") VIDEO_TYPE in
  snd (addCandidate (AddAudioBundleTag (AddVideoBundleTag (set_setup s (lit "actpass")))) sample_candidate).

Ltac all_different := repeat (constructor; [cbn; intuition discriminate|]); constructor.

Lemma sample_writable : Writable (internalPayloadVector_ (pays (new_SdpInfo false VP8 SENDRECV SENDRECV))) sample_offer.
Proof. constructor; try reflexivity; try (split; (reflexivity || discriminate)); try all_different; cbn; lia. Qed.

Lemma description_is_read_witness :
  exists text, getSdp true false (fun i => 7 * Z.of_nat i) [0] sample_offer = Ok (text, with_audio_source sample_offer) /\
  initWithSdp sample_junk (new_SdpInfo false VP8 SENDRECV SENDRECV) text [] =
    Ok (true, told sample_junk (internalPayloadVector_ (pays (new_SdpInfo false VP8 SENDRECV SENDRECV))) (with_audio_source sample_offer) true false
      (sets (new_SdpInfo false VP8 SENDRECV SENDRECV))).
Proof. apply (description_is_read sample_junk true false (fun i => 7 * Z.of_nat i) 0 [] false VP8 SENDRECV SENDRECV sample_offer sample_writable). Defined.

(** What the peer of this offer holds. *)
Example sample_told :
  let d := told sample_junk (internal_maps VP8 false) (with_audio_source sample_offer) true false (sets (new_SdpInfo false VP8 SENDRECV SENDRECV)) in
  map mediaType (candidateVector_ d) = [AUDIO_TYPE; VIDEO_TYPE] /\ map (fun c => payloadType c) (payloadVector (pays d)) =
    [111; 103; 104; 0; 13; 105; 106; 107; 126; 100] /\ audioSsrc (ssrcs d) = 44444 /\ videoSsrc (ssrcs d) = 55543 /\ videoRtxSsrc (ssrcs d) = 0.
Proof. vm_compute. repeat split. Qed.

(** *** Where the code does not do what it means to *)

(** The terminator of the identifier is written behind the array. *)
Example identifier_overruns : getSdp true false (fun i => 7 * Z.of_nat i) [] sample_offer = Oob.
Proof. vm_compute. reflexivity. Qed.

(** The payload types of an offer with redundancy stand without spaces, because
    an offer has counted no codecs. *)
Example offer_numbers_run_together :
  let s := createOfferSdp (new_SdpInfo true VP8 SENDRECV SENDRECV) in
  video_numbers 0 (videoCodecs (strs s)) (media_codecs VIDEO_TYPE s) = lit "100116117".
Proof. vm_compute. reflexivity. Qed.

(** H264 and the comfort noise at 48 kHz have one payload type. *)
Example one_type_twice :
  map encodingName (filter (fun c => payloadType c =? 107) (payloadVector (pays (createOfferSdp (new_SdpInfo false H264 SENDRECV SENDRECV))))) =
  [lit "H264"; lit "CN"].
Proof. vm_compute. reflexivity. Qed.

(** Lines that end too early are read behind their parts; so is the line the
    server writes itself when it has no credentials. *)
Example short_lines_are_overrun :
  map (fun text => initWithSdp sample_junk (new_SdpInfo false VP8 SENDRECV SENDRECV) (lit text) [])
    ["a=fingerprint"; "a=ice-ufrag:"; "a=ice-pwd"; "a=rtpmap:100"; "a=crypto:1"; "a=candidate:1 1"; "a=group:"]%string =
  repeat Oob 7.
Proof. vm_compute. reflexivity. Qed.

(** The addresses of IPv6 are split at their colons: the candidate is dropped. *)
Example ipv6_is_dropped :
  let s := setCredentials (new_SdpInfo false VP8 SENDRECV SENDRECV) (lit "u") (lit "p") OTHER in
  match initWithSdp sample_junk s (lit "a=candidate:1 1 udp 1 2001:db8::1 9 typ host generation 0") (lit "audio") with
  | Ok (true, s) => candidateVector_ s = []
  | _ => False
  end.
Proof. vm_compute. reflexivity. Qed.

(** The parameters of a codec are kept under the server's number alone: those
    the peer gives under its own are lost. *)
Example remote_parameters_are_lost :
  let s := setCredentials (new_SdpInfo false VP8 SENDRECV SENDRECV) (lit "u") (lit "p") OTHER in
  match initWithSdp sample_junk s (lit "m=audio" ++ [newline] ++ lit "a=rtpmap:96 opus/48000/2" ++ [newline] ++ lit "a=fmtp:96 useinbandfec=1") [] with
  | Ok (true, s) => map (fun c => (payloadType c, formatParameters c)) (payloadVector (pays s)) = [(111, [])]
  | _ => False
  end.
Proof. vm_compute. reflexivity. Qed.

(** With more than 255 tags the loops over them do not end. *)
Example many_tags_hang :
  let tags := lit "a=group:BUNDLE 1 2 3 4 5 6 7 8 9" in
  initWithSdp sample_junk (new_SdpInfo false VP8 SENDRECV SENDRECV) (unlines (repeat tags 29 ++ [lit "a=mid:1"])) [] = NoFuel.
Proof. vm_compute. reflexivity. Qed.

(** Of the password as many bytes are replaced as the name of the user has. *)
Example password_keeps_its_tail :
  getCredentials (setCredentials sample_offer (lit "u") (lit "new") VIDEO_TYPE) VIDEO_TYPE (lit "oldpassword") = (lit "u", lit "newldpassword").
Proof. vm_compute. reflexivity. Qed.

(** ** The types of a peer *)

(** C21. A codec of the server that a peer offers under a number of its own is
    known by both numbers: the line of the peer is read, its number leads to the
    server's, the server's to it, and the codec is recorded under the server's
    number with the server's channels. *)
Theorem remote_type_is_mapped junk (own : RtpMap) remote tail r :
  let c := mk_map remote (encodingName own) (clockRate own) (mtype r) 1 [] [] in
  codec_ok own = true -> codec_ok c = true -> tail = [] \/ (exists t, tail = 47 :: t /\ free [61; newline] t = true) -> Ready r ->
  filter (same_codec (encodingName own) (clockRate own)) (internalPayloadVector_ (pays (desc r))) = [own] ->
  sorted (inOutPTMap (pays (desc r))) -> sorted (outInPTMap (pays (desc r))) ->
  exists r', process_line junk (map_line c tail) r = Ok r' /\
    getVideoInternalPT (desc r') remote = payloadType own /\ getVideoExternalPT (desc r') (payloadType own) = remote /\
    payloadVector (pays (desc r')) = payloadVector (pays (desc r)) ++
      [mk_map (payloadType own) (encodingName own) (clockRate own) (mtype r) (channels own) [] []] /\
    (forall ext, ext <> remote -> getVideoInternalPT (desc r') ext = getVideoInternalPT (desc r) ext).
Proof.
  intros c K1 K2 T R F S1 S2. destruct (map_read junk c tail K2 T) as [_ H]. destruct (H r R) as [E _].
  exists (take_map c r). split; [cbn [process_lines] in E; unfold map_line; destruct (process_line _ _ _); [exact E|discriminate..]|]. clear H E.
  destruct (codec_fields own K1) as (_ & P1 & _), (codec_fields c K2) as (_ & P2 & _). cbn [payloadType c] in P2.
  assert (I : In own (filter (same_codec (encodingName own) (clockRate own)) (internalPayloadVector_ (pays (desc r))))) by (rewrite F; now left).
  apply filter_In in I as [_ I]. unfold same_codec in I. unfold take_map, learn_codec. cbn [payloadType encodingName clockRate c].
  rewrite match_filter, F. cbn [fold_left]. unfold match_codec. rewrite I, P1, P2. cbn [fst].
  unfold getVideoInternalPT, getVideoExternalPT, getAudioInternalPT, getAudioExternalPT.
  destruct (media_eqb (mtype r) VIDEO_TYPE); cbn -[find store s32];
    (split; [rewrite find_store, Z.eqb_refl by assumption; reflexivity|]); (split; [rewrite find_store, Z.eqb_refl by assumption; reflexivity|]);
    (split; [reflexivity|]); intros ext N; rewrite find_store by assumption; now rewrite (proj2 (Z.eqb_neq ext remote)).
Qed.

(** ** Candidates as strings *)

(** A word of a stream. *)
Definition solid (w : str) : bool := forallb (fun c => negb (is_space c)) w && match w with [] => false | _ => true end.

Lemma span_solid w r : forallb (fun c => negb (is_space c)) w = true -> span_word (w ++ 32 :: r) = (w, 32 :: r).
Proof.
  induction w as [|c w IH]; intros S; [reflexivity|]. cbn [forallb] in S. apply andb_true_iff in S as [N S]. cbn [app span_word].
  apply negb_true_iff in N. now rewrite N, (IH S).
Qed.

Lemma skip_solid w r : solid w = true -> skip_spaces (32 :: w ++ r) = w ++ r /\ skip_spaces (w ++ r) = w ++ r.
Proof.
  unfold solid. intros S. apply andb_true_iff in S as [S N]. destruct w as [|c w]; [discriminate|]. cbn [forallb] in S.
  apply andb_true_iff in S as [C _]. apply negb_true_iff in C. cbn [skip_spaces app]. change (is_space 32) with true. cbn iota. now rewrite C.
Qed.

Lemma word_next w r old : solid w = true ->
  read_word (32 :: w ++ 32 :: r, true) old = (w, (32 :: r, true)) /\ read_word (w ++ 32 :: r, true) old = (w, (32 :: r, true)).
Proof.
  intros S. destruct (skip_solid w (32 :: r) S) as [E1 E2]. unfold read_word. rewrite E1, E2. unfold solid in S. apply andb_true_iff in S as [S N].
  pose proof (span_solid w r S) as P. destruct w as [|c w]; [discriminate|]. cbn [app] in *. now rewrite P.
Qed.

Lemma dec_solid n : 0 <= n < 2 ^ 32 -> solid (dec n) = true.
Proof.
  intros N. destruct (dec_digits n) as (_ & D & E); [lia|]. unfold solid. apply andb_true_iff. split; [|now destruct (dec n)].
  apply forallb_forall. rewrite Forall_forall in D. intros c I. specialize (D c I). unfold is_digit, is_space in *. lia.
Qed.

Lemma number_next lo hi n r old : 0 <= n < 2 ^ 32 -> lo <= 0 -> n <= hi -> read_number lo hi (32 :: dec n ++ 32 :: r, true) old = (n, (32 :: r, true)).
Proof.
  intros N L H. destruct (dec_digits n) as (V & D & E); [lia|]. destruct (dec_head n) as (c & t & Q & C); [lia|].
  destruct (skip_solid (dec n) (32 :: r) (dec_solid n N)) as [S _]. unfold read_number. rewrite S.
  assert (G : sign_of (dec n ++ 32 :: r) = (false, dec n ++ 32 :: r)).
  { rewrite Q. cbn [app sign_of]. unfold is_digit in C. replace (c =? 45) with false by lia. now replace (c =? 43) with false by lia. }
  assert (A : span_digits (dec n ++ 32 :: r) = (dec n, 32 :: r)) by (apply span_digits_all; [assumption|reflexivity]).
  rewrite Q in *. cbn [app] in *. rewrite G, A, V. replace (hi <? n) with false by lia. destruct (lo <? 0); [|reflexivity].
  now replace (n <? lo) with false by lia.
Qed.

Definition readable (c : CandidateInfo) : bool :=
  solid (foundation c) && solid (netProtocol c) && solid (hostAddress c) && (negb (is_reflexive (hostType c)) || solid (rAddress c)) &&
  in_u32b (priority c) && in_u32b (componentId c) && port_ok (hostPort c) && (negb (is_reflexive (hostType c)) || port_ok (rPort c)).

(** [FromString] reads what [ToString] writes: every candidate whose
    texts are words and whose numbers are in range, those of the related address
    for the reflexive and relayed kinds alone, and nothing else of the candidate
    that is read into. *)
Theorem candidate_from_string c old : readable c = true ->
  FromString old (ToString c) =
    Some (mk_candidate (cand_isBundle old) (tag old) (priority c) (componentId c) (foundation c) (hostAddress c)
            (if is_reflexive (hostType c) then rAddress c else rAddress old) (hostPort c)
            (if is_reflexive (hostType c) then rPort c else rPort old) (netProtocol c) (hostType c) (transProtocol old) (username old)
            (password old) (mediaType old)).
Proof.
  unfold readable, in_u32b, port_ok. rewrite !andb_true_iff. intros [[[[[[[F N] H] R] P] I] O] Q].
  assert (Sp : forall x, lit " " ++ x = 32 :: x) by reflexivity.
  assert (E : ToString c = lit "a=candidate:" ++ foundation c ++ 32 :: dec (componentId c) ++ 32 :: netProtocol c ++ 32 :: dec (priority c) ++
    32 :: hostAddress c ++ 32 :: dec (hostPort c) ++ 32 :: lit "typ" ++ 32 :: hostType_str (hostType c) ++
    32 :: ((if is_reflexive (hostType c) then lit "raddr" ++ 32 :: rAddress c ++ 32 :: lit "rport" ++ 32 :: dec (rPort c) ++ [32] else []) ++ lit "generation 0")).
  { unfold ToString, ToDebugString. repeat (rewrite <- ?app_assoc; rewrite ?Sp; cbn [app]). change (lit " typ " ++ ?x) with (32 :: lit "typ" ++ 32 :: x).
    destruct (is_reflexive (hostType c)); [change (lit " raddr " ++ ?x) with (32 :: lit "raddr" ++ 32 :: x); change (lit " rport " ++ ?x) with (32 :: lit "rport" ++ 32 :: x)|];
      cbn [app]; repeat (rewrite <- ?app_assoc; cbn [app]); reflexivity. }
  rewrite E. unfold FromString. match goal with |- (if ?b then _ else _) = _ => replace b with false end.
  2: { symmetry. apply Nat.ltb_ge. rewrite length_app. change (List.length (lit "a=candidate:")) with 12%nat. unfold SDP_HEAD_LEN. lia. }
  match goal with |- context [skipn SDP_HEAD_LEN (?a ++ ?b)] => change (skipn SDP_HEAD_LEN (a ++ b)) with b end.
  assert (T : solid (hostType_str (hostType c)) = true) by now destruct (hostType c).
  rewrite (proj2 (word_next _ _ (foundation old) F)). unfold read_uint, read_int.
  rewrite number_next by lia. rewrite (proj1 (word_next _ _ _ N)). rewrite number_next by lia. rewrite (proj1 (word_next _ _ _ H)).
  rewrite number_next by lia. rewrite (proj1 (word_next (lit "typ") _ _ eq_refl)), (proj1 (word_next _ _ _ T)), host_type_read.
  destruct (is_reflexive (hostType c)); [|reflexivity]. cbn [negb orb] in R, Q. repeat (rewrite <- ?app_assoc; cbn [app]).
  rewrite (proj1 (word_next (lit "raddr") _ _ eq_refl)), (proj1 (word_next _ _ _ R)), (proj1 (word_next (lit "rport") _ _ eq_refl)).
  now rewrite number_next by lia.
Qed.

Lemma candidate_from_string_witness : readable sample_candidate = true /\
  FromString (sample_junk 0) (ToString sample_candidate) =
    Some (mk_candidate false 7 2122260223 1 (lit "3141053312") (lit "10.171.94.20") (lit "1.2.3.4") 62087 99 (lit "udp") SRFLX [] [] [] OTHER).
Proof. split; [reflexivity|]. exact (candidate_from_string sample_candidate (sample_junk 0) eq_refl). Defined.

Definition sample_reader : reader := on_video (before false [] (internal_maps VP8 false) SENDRECV SENDRECV (sets sample_offer)).
Lemma remote_type_is_mapped_witness : Ready sample_reader /\
  exists r', process_line sample_junk (lit "a=rtpmap:96 VP8/90000") sample_reader = Ok r' /\
    getVideoInternalPT (desc r') 96 = 100 /\ getVideoExternalPT (desc r') 100 = 96 /\
    payloadVector (pays (desc r')) = [mk_map 100 (lit "VP8") 90000 VIDEO_TYPE 1 [] []] /\
    (forall ext, ext <> 96 -> getVideoInternalPT (desc r') ext = getVideoInternalPT (desc sample_reader) ext).
Proof.
  assert (R : Ready sample_reader) by (split; [reflexivity|cbn; unfold zlen; cbn; lia]). split; [exact R|].
  exact (remote_type_is_mapped sample_junk (video_map VP8_90000_PT "VP8") 96 [] sample_reader eq_refl eq_refl (or_introl eq_refl) R eq_refl
    (SSorted_nil _) (SSorted_nil _)).
Defined.
End SdpRoundtrip.
