(* ===== verification/Transport.v ===== *)
(** * The transport of a stream: its state, and sending

    Models the state of src/orbit/transport_delegate.h, the packets that
    transport_delegate.cc sends, and rtp_sender.h and rtp_sender.cc, the queue in
    front of the network; TransportNegotiate has the descriptions and the
    candidates.  What the delegate tells the transports, the plugin and the
    listeners is an [event].  The clocks are arguments.  An assertion that does
    not hold is [Oob].  The priority queue of the sender and the estimators are
    used through their interfaces.  Locks, logging and what the session
    information is told in words are left out. *)

From Stdlib Require Import Ascii String Permutation Sorted.
From S2P Require Import Prelude Wire OrderedMap RtpHeaders JanusRtcp Nack NackFacts NetworkStatus RemoteBitrate RtcpReports RtcpProcessor PacketBuffer Text Sdp.
Import Wire OrderedMap Text Sdp.

Module Transport.

(** ** rtp_sender.h *)

Definition RETRANSMIT_PRIORITY : Z := 5.
Definition VIDEO_RTX_PRIORITY : Z := 2.
Definition RTCP_PRIORITY : Z := 5.
Definition AUDIO_PRIORITY : Z := 6.
Definition REMB_PRIORITY : Z := 8.
Definition DEFAULT_PRIORITY : Z := 10.

(** A transport is the one of video or that of audio; [buf] is a copy. *)
Record RtpSendPacket := mk_send {
  send_priority : Z;
  send_seqn : Z;
  queue_ts : Z;
  send_transport : MediaType;
  send_buf : list Z
}.

(** Whether [a] is sent after [b]. *)
Definition RtpSendPacketComparator (a b : RtpSendPacket) : bool :=
  if send_priority b <? send_priority a then true else send_seqn b <? send_seqn a.

Inductive TransportState :=
  TRANSPORT_INITIAL | TRANSPORT_STARTED | TRANSPORT_GATHERED | TRANSPORT_READY | TRANSPORT_FINISHED | TRANSPORT_FAILED.
Definition is_ready (t : TransportState) : bool := match t with TRANSPORT_READY => true | _ => false end.

(** ** transport_delegate.h: the state *)

(** What the delegate tells the transports, the plugin and the listener. *)
Inductive event :=
| CreateTransport (media : MediaType) (bundle mux : bool) (user pass : str) (is_server : bool)
| SetRemoteCredentials (media : MediaType) (user pass : str)
| ToldCandidates (media : MediaType) (candidates : list CandidateInfo) (bundle : bool)
| PluginSources (down up : Z) (extended : list Z)
| PluginState (state : TransportState)
| PluginActive
| PluginRtp (type : Nack.packetType) (data : list Z) (rtp_timestamp arrival_time_ms remote_ntp_time_ms : Z)
| PluginRtcp (type : Nack.packetType) (data : list Z)
| NotifyCandidate (object : str)
| FoundCandidate
| ConnectReady
| RecvRtp (type : Nack.packetType) (data : list Z)
| RecvRtcp (type : Nack.packetType) (data : list Z)
| Written (media : MediaType) (bytes : list Z)
| ToldEstimate (c : RemoteBitrate.change)
| Reported (r : NetworkStatus.report).

Definition UPDATE_BITRATE_STAT_TIMEOUT : Z := 1000.

(** The bits sent or received since [last_time_] and in the second before. *)
Record meter := mk_meter { bitrate_ : Z; bitrate_last_ : Z; last_time_ : Z }.
Definition metered (cur len : Z) (m : meter) : meter :=
  let m := if UPDATE_BITRATE_STAT_TIMEOUT <? cur - last_time_ m then mk_meter 0 (bitrate_ m) cur else m in
  mk_meter (s32 (bitrate_ m + len * 8)) (bitrate_last_ m) (last_time_ m).

(** The descriptions, the transports and the sources the delegate sends with. *)
Record negotiated := mk_negotiated {
  bundle_ : bool;
  video_transport_ : bool;
  audio_transport_ : bool;
  remote_sdp_ : SdpInfo;
  local_sdp_ : SdpInfo;
  AUDIO_SSRC : Z;
  VIDEO_SSRC : Z;
  VIDEO_RTX_SSRC : Z
}.

(** What is set before: [min_encoding_bitrate_] is 0 when it is not. *)
Record configuration := mk_configuration {
  should_rewrite_ssrc_ : bool;
  video_encoding_ : VideoEncoding;
  min_encoding_bitrate_ : Z;
  is_server_mode_ : bool;
  use_relay_mode : bool;
  trickle_enabled_ : bool;
  has_listener : bool
}.

Section Delegate.
Context {E : Type} `{RemoteBitrate.RemoteBitrateEstimator E}.
Context {PQ : Type} {Q : PacketBuffer.PriorityQueue RtpSendPacket PQ RtpSendPacketComparator}.

(** Of the plugin the delegate asks how many sources it has besides the first. *)
Record TransportDelegate := mk_delegate {
  config : configuration;
  negot : negotiated;
  transport_state_ : TransportState;
  plugin_ : option Z;
  rtcp_processor_ : RtcpProcessor.RtcpProcessor E;
  send_pq_ : PQ;
  sender_rate : meter;
  receiver_rate : meter;
  last_update_ns_time_ : Z
}.

Definition set_config (d : TransportDelegate) (x : configuration) : TransportDelegate :=
  mk_delegate x (negot d) (transport_state_ d) (plugin_ d) (rtcp_processor_ d) (send_pq_ d) (sender_rate d)
    (receiver_rate d) (last_update_ns_time_ d).
Definition set_negot (d : TransportDelegate) (x : negotiated) : TransportDelegate :=
  mk_delegate (config d) x (transport_state_ d) (plugin_ d) (rtcp_processor_ d) (send_pq_ d) (sender_rate d)
    (receiver_rate d) (last_update_ns_time_ d).
Definition set_state (d : TransportDelegate) (x : TransportState) : TransportDelegate :=
  mk_delegate (config d) (negot d) x (plugin_ d) (rtcp_processor_ d) (send_pq_ d) (sender_rate d)
    (receiver_rate d) (last_update_ns_time_ d).
Definition set_plugin (d : TransportDelegate) (x : option Z) : TransportDelegate :=
  mk_delegate (config d) (negot d) (transport_state_ d) x (rtcp_processor_ d) (send_pq_ d) (sender_rate d)
    (receiver_rate d) (last_update_ns_time_ d).
Definition set_processor (d : TransportDelegate) (x : RtcpProcessor.RtcpProcessor E) : TransportDelegate :=
  mk_delegate (config d) (negot d) (transport_state_ d) (plugin_ d) x (send_pq_ d) (sender_rate d)
    (receiver_rate d) (last_update_ns_time_ d).
Definition set_queue (d : TransportDelegate) (x : PQ) : TransportDelegate :=
  mk_delegate (config d) (negot d) (transport_state_ d) (plugin_ d) (rtcp_processor_ d) x (sender_rate d)
    (receiver_rate d) (last_update_ns_time_ d).
Definition set_sender_rate (d : TransportDelegate) (x : meter) : TransportDelegate :=
  mk_delegate (config d) (negot d) (transport_state_ d) (plugin_ d) (rtcp_processor_ d) (send_pq_ d) x
    (receiver_rate d) (last_update_ns_time_ d).
Definition set_receiver_rate (d : TransportDelegate) (x : meter) : TransportDelegate :=
  mk_delegate (config d) (negot d) (transport_state_ d) (plugin_ d) (rtcp_processor_ d) (send_pq_ d) (sender_rate d)
    x (last_update_ns_time_ d).
Definition set_update (d : TransportDelegate) (x : Z) : TransportDelegate :=
  mk_delegate (config d) (negot d) (transport_state_ d) (plugin_ d) (rtcp_processor_ d) (send_pq_ d) (sender_rate d)
    (receiver_rate d) x.

(** The network status is shared with the processor. *)
Definition status (d : TransportDelegate) : NetworkStatus.NetworkStatus := RtcpProcessor.network_status_ (rtcp_processor_ d).
Definition put_status (d : TransportDelegate) (x : NetworkStatus.NetworkStatus) : TransportDelegate :=
  set_processor d (RtcpProcessor.set_status (rtcp_processor_ d) x).

Definition remote (d : TransportDelegate) : SdpInfo := remote_sdp_ (negot d).
Definition local (d : TransportDelegate) : SdpInfo := local_sdp_ (negot d).
Definition put_remote (d : TransportDelegate) (s : SdpInfo) : TransportDelegate :=
  let n := negot d in
  set_negot d (mk_negotiated (bundle_ n) (video_transport_ n) (audio_transport_ n) s (local_sdp_ n) (AUDIO_SSRC n) (VIDEO_SSRC n)
    (VIDEO_RTX_SSRC n)).
Definition put_local (d : TransportDelegate) (s : SdpInfo) : TransportDelegate :=
  let n := negot d in
  set_negot d (mk_negotiated (bundle_ n) (video_transport_ n) (audio_transport_ n) (remote_sdp_ n) s (AUDIO_SSRC n) (VIDEO_SSRC n)
    (VIDEO_RTX_SSRC n)).
Definition put_bundle (d : TransportDelegate) (b : bool) : TransportDelegate :=
  let n := negot d in
  set_negot d (mk_negotiated b (video_transport_ n) (audio_transport_ n) (remote_sdp_ n) (local_sdp_ n) (AUDIO_SSRC n) (VIDEO_SSRC n)
    (VIDEO_RTX_SSRC n)).
Definition put_transports (d : TransportDelegate) (video audio : bool) : TransportDelegate :=
  let n := negot d in
  set_negot d (mk_negotiated (bundle_ n) video audio (remote_sdp_ n) (local_sdp_ n) (AUDIO_SSRC n) (VIDEO_SSRC n) (VIDEO_RTX_SSRC n)).
Definition put_sources (d : TransportDelegate) (audio video rtx : Z) : TransportDelegate :=
  let n := negot d in
  set_negot d (mk_negotiated (bundle_ n) (video_transport_ n) (audio_transport_ n) (remote_sdp_ n) (local_sdp_ n) audio video rtx).

(** ** Sending: rtp_sender.cc *)

(** RtpSender::WriteAndSend. *)
Definition WriteAndSend (now : Z) (d : TransportDelegate) (transport : MediaType) (priority : Z) (data : list Z) (len : Z)
    : res TransportDelegate :=
  if (0 <=? len) && (len <=? zlen data) then
    let buf := slice data 0 len in
    let! seqn := RtpHeaders.getSeqNumber buf in
    Ok (set_queue d (PacketBuffer.push (mk_send priority seqn now transport buf) (send_pq_ d)))
  else Oob.

(** [session] is whether the session information knows the session. *)
Definition UpdateSenderBitrate (cur : Z) (session : bool) (d : TransportDelegate) (len : Z) : TransportDelegate * list event :=
  let m := metered cur len (sender_rate d) in
  let reports :=
    if UPDATE_BITRATE_STAT_TIMEOUT <? cur - last_time_ (sender_rate d) then NetworkStatus.UpdateStatusZ session (status d) else [] in
  (put_status (set_sender_rate d m) (NetworkStatus.UpdateBitrate (status d) true (bitrate_last_ m)), map Reported reports).

(** A round of the thread, which sends a packet when the transport is ready and
    there is one. *)
Definition SendThreadRound (cur : Z) (session : bool) (d : TransportDelegate) : TransportDelegate * list event :=
  if is_ready (transport_state_ d) then
    match PacketBuffer.top (send_pq_ d) with
    | None => (d, [])
    | Some p =>
        let d := set_queue d (PacketBuffer.pop (send_pq_ d)) in
        let (d, reports) := UpdateSenderBitrate cur session d (zlen (send_buf p)) in
        (d, Written (send_transport p) (send_buf p) :: reports)
    end
  else (d, []).

(** The loop of the thread, for a number of rounds. *)
Fixpoint SendThreadLoop (rounds : nat) (cur : nat -> Z) (session : bool) (d : TransportDelegate) : TransportDelegate * list event :=
  match rounds with
  | O => (d, [])
  | S n =>
      let (d, out) := SendThreadRound (cur n) session d in
      let (d, out') := SendThreadLoop n cur session d in (d, out ++ out')
  end.

(** ** Packets that are relayed *)

Definition ResetRelayPacketCodec (d : TransportDelegate) (data : list Z) (type : Nack.packetType) : res (TransportDelegate * list Z) :=
  let! rtcp := RtpHeaders.isRtcp data in
  match type with
  | Nack.VIDEO_PACKET =>
      if (rtcp : bool) then Ok (d, data)
      else
        let! payload := RtpHeaders.getPayloadType data in
        let (new_codec, l) := GetCodec (local d) payload in
        let d := put_local d l in
        if negb (payload =? new_codec) then
          let! data := RtpHeaders.setPayloadType data new_codec in Ok (d, data)
        else Ok (d, data)
  | _ => Ok (d, data)
  end.

Definition fixed_ssrc (buf : list Z) (len local remote : Z) : res (list Z) :=
  let! (_, p, _) := JanusRtcp.janus_rtcp_fix_ssrc 0 true (u32 local) (u32 remote) None (Some buf) len in
  Ok (match p with Some p => p | None => buf end).

(** What is done to an RTCP packet; [now] is the clock of the network status. *)
Definition queue_rtcp (now : Z) (session : bool) (d : TransportDelegate) (buf : list Z) (len : Z) (type : Nack.packetType)
    : res (TransportDelegate * list Z * list event) :=
  let n := negot d in
  match type with
  | Nack.AUDIO_PACKET =>
      let! buf := fixed_ssrc buf len (AUDIO_SSRC n) (audioSsrc (ssrcs (remote d))) in
      let (st, out) := NetworkStatus.SendingRTCPPacket now session (status d) false in
      Ok (put_status d st, buf, map Reported out)
  | Nack.VIDEO_PACKET =>
      let! packet_type := RtpHeaders.getPacketType buf in
      let! buf :=
        if negb (packet_type =? RtpHeaders.RTCP_Sender_PT)
        then fixed_ssrc buf len (VIDEO_SSRC n) (videoSsrc (ssrcs (remote d))) else Ok buf in
      let (st, out) := NetworkStatus.SendingRTCPPacket now session (status d) true in
      Ok (put_status d st, buf, map Reported out)
  | Nack.VIDEO_RTX_PACKET =>
      let! buf := fixed_ssrc buf len (VIDEO_RTX_SSRC n) (videoRtxSsrc (ssrcs (remote d))) in Ok (d, buf, [])
  | _ => Ok (d, buf, [])
  end.

(** What is done to an RTP packet before it is queued. *)
Definition queue_rtp (now : Z) (session : bool) (d : TransportDelegate) (buf : list Z) (len : Z) (type : Nack.packetType)
    : res (TransportDelegate * list Z * list event) :=
  let n := negot d in
  let! timestamp := RtpHeaders.getTimestamp buf in
  match type with
  | Nack.AUDIO_PACKET =>
      let! buf := RtpHeaders.setSSRC buf (AUDIO_SSRC n) in
      let (st, out) := NetworkStatus.SendingPacket now session (status d) false (u32 (AUDIO_SSRC n)) len timestamp in
      let d := put_status d st in
      let! p := RtcpProcessor.NackPushAudioPacket now (rtcp_processor_ d) buf len in
      Ok (set_processor d p, buf, map Reported out)
  | Nack.VIDEO_PACKET =>
      let! buf := if should_rewrite_ssrc_ (config d) then RtpHeaders.setSSRC buf (VIDEO_SSRC n) else Ok buf in
      let! local_ssrc := RtpHeaders.getSSRC buf in
      let (st, out) := NetworkStatus.SendingPacket now session (status d) true local_ssrc len timestamp in
      let d := put_status d st in
      let! p := RtcpProcessor.NackPushVideoPacket now (rtcp_processor_ d) buf len in
      Ok (set_processor d p, buf, map Reported out)
  | Nack.VIDEO_RTX_PACKET => let! buf := RtpHeaders.setSSRC buf (VIDEO_RTX_SSRC n) in Ok (d, buf, [])
  | _ => Ok (d, buf, [])
  end.

Definition rtp_priority (type : Nack.packetType) : Z :=
  match type with
  | Nack.AUDIO_PACKET => AUDIO_PRIORITY
  | Nack.VIDEO_PACKET => DEFAULT_PRIORITY
  | Nack.VIDEO_RTX_PACKET => VIDEO_RTX_PRIORITY
  | Nack.RETRANSMIT_PACKET => RETRANSMIT_PRIORITY
  | _ => DEFAULT_PRIORITY
  end.
Definition rtcp_priority (type : Nack.packetType) : Z := match type with Nack.REMB_PACKET => REMB_PRIORITY | _ => RTCP_PRIORITY end.

(** [data] is copied, so that the bytes of the caller stay as they are. *)
Definition queueData (now : Z) (session : bool) (d : TransportDelegate) (data : list Z) (len : Z) (transport : MediaType)
    (type : Nack.packetType) : res (TransportDelegate * list event) :=
  if (0 <=? len) && (len <=? zlen data) then
    let! (d, buf) := ResetRelayPacketCodec d (slice data 0 len) type in
    let! rtcp := RtpHeaders.isRtcp buf in
    if (rtcp : bool) then
      let! (d, buf, out) := queue_rtcp now session d buf len type in
      let! d := WriteAndSend now d transport (rtcp_priority type) buf len in
      Ok (d, out)
    else
      let! (d, buf, out) := queue_rtp now session d buf len type in
      let! d := WriteAndSend now d transport (rtp_priority type) buf len in
      Ok (d, out)
  else Oob.

Definition RelayPacket (now : Z) (session : bool) (d : TransportDelegate) (packet : Nack.dataPacket) : res (TransportDelegate * list event) :=
  if bundle_ (negot d) then
    if video_transport_ (negot d)
    then queueData now session d (Nack.p_data packet) (zlen (Nack.p_data packet)) VIDEO_TYPE (Nack.p_type packet)
    else Ok (d, [])
  else Oob.
End Delegate.
Arguments TransportDelegate E PQ : clear implicits.

(** ** Facts *)

Section Facts.
Context {E : Type} `{RemoteBitrate.RemoteBitrateEstimator E}.
Context {PQ : Type} {Q : PacketBuffer.PriorityQueue RtpSendPacket PQ RtpSendPacketComparator}.
Notation Delegate := (TransportDelegate E PQ).

Definition queued (d : Delegate) : list RtpSendPacket := PacketBuffer.elems (send_pq_ d).

(** *** The sender *)

(** What the transports are told to write. *)
Definition writes (out : list event) : list (MediaType * list Z) :=
  flat_map (fun e => match e with Written media data => [(media, data)] | _ => [] end) out.
Definition to_write (p : RtpSendPacket) : MediaType * list Z := (send_transport p, send_buf p).

Definition one_priority (l : list RtpSendPacket) : Prop := exists n, forall p, In p l -> send_priority p = n.

Lemma seqn_order l : one_priority l -> PacketBuffer.weak_order RtpSendPacketComparator l.
Proof.
  intros [n P]. assert (C : forall a b, In a l -> In b l -> RtpSendPacketComparator a b = (send_seqn b <? send_seqn a)).
  { intros a b A B. unfold RtpSendPacketComparator. now rewrite (P a A), (P b B), Z.ltb_irrefl. }
  split.
  - intros a A. rewrite C by assumption. apply Z.ltb_irrefl.
  - intros a b c A B D. rewrite !C by assumption. lia.
  - intros a b c A B D. rewrite !C by assumption. lia.
Qed.

Lemma writes_reports l : writes (map Reported l) = [].
Proof. induction l; auto. Qed.

Lemma round_sends cur session (d : Delegate) : is_ready (transport_state_ d) = true -> queued d <> [] ->
  exists p d' out, SendThreadRound cur session d = (d', out) /\ writes out = [to_write p] /\ Permutation (queued d) (p :: queued d') /\
    transport_state_ d' = transport_state_ d /\ (one_priority (queued d) -> forall x, In x (queued d) -> send_seqn p <= send_seqn x).
Proof.
  intros R N. unfold SendThreadRound. rewrite R. destruct (PacketBuffer.top_some (send_pq_ d) N) as (p & T & P). rewrite T.
  unfold UpdateSenderBitrate. exists p. eexists _, _. split; [reflexivity|]. split; [|split; [exact P|split; [reflexivity|]]].
  - cbn [writes flat_map]. unfold writes in *. cbn. f_equal. apply writes_reports.
  - intros O x I. pose proof (PacketBuffer.top_max (send_pq_ d) p (seqn_order _ O) T x I) as L. destruct O as [n O]. unfold RtpSendPacketComparator in L.
    rewrite (O x I), (O p) in L by (apply (Permutation_in p (Permutation_sym P)); now left). rewrite Z.ltb_irrefl in L. lia.
Qed.

Lemma one_priority_sub l l' : (forall p, In p l' -> In p l) -> one_priority l -> one_priority l'.
Proof. intros S [n P]. exists n. auto. Qed.

(** C10. The sender loses nothing: when the transport is ready, as many rounds of
    its thread as there are packets in the queue write each of them once and
    leave none.  When all the packets of the queue have one priority they are
    written in the order of their sequence numbers.  Of a queue with several
    priorities no order is claimed, not even among the packets of one of them:
    the comparison is then no order ([mixed_queue_has_no_order]), and what
    [std::priority_queue] makes of it is not specified; that it neither loses
    nor repeats an element is taken for every comparison, as its heap
    operations only move elements. *)
Theorem everything_is_sent cur session (d : Delegate) : is_ready (transport_state_ d) = true ->
  exists sent, Permutation sent (queued d) /\
    let (d', out) := SendThreadLoop (length (queued d)) cur session d in
    queued d' = [] /\ writes out = map to_write sent /\
    (one_priority (queued d) -> StronglySorted (fun a b => send_seqn a <= send_seqn b) sent).
Proof.
  remember (length (queued d)) as n eqn:L. revert d L. induction n as [|n IH]; intros d L R.
  { destruct (queued d) eqn:Z; [|discriminate]. exists []. cbn. rewrite Z. repeat split; auto using SSorted_nil. }
  assert (N : queued d <> []) by (intros Z; now rewrite Z in L).
  destruct (round_sends (cur n) session d R N) as (p & d1 & out & S1 & W1 & P1 & R1 & O1). cbn [SendThreadLoop]. rewrite S1.
  assert (L1 : n = length (queued d1)) by (apply Permutation_length in P1; cbn in P1; lia).
  rewrite <- R1 in R. destruct (IH d1 L1 R) as (sent & P & X). destruct (SendThreadLoop n cur session d1) as [d2 out2]. destruct X as (Z & W2 & O2).
  assert (P2 : Permutation (p :: sent) (queued d)) by (rewrite P1; now constructor).
  exists (p :: sent). split; [exact P2|]. split; [assumption|]. split; [unfold writes in *; now rewrite flat_map_app, W1, W2|].
  intros O. constructor.
  - apply O2. eapply one_priority_sub; [|exact O]. intros x I. apply (Permutation_in x (Permutation_sym P1)). now right.
  - apply Forall_forall. intros x I. apply (O1 O). apply (Permutation_in x P2). now right.
Qed.

(** *** A video packet that is relayed *)

Definition payload_type (data : list Z) : Z := RtpHeaders.bits (rd data 1) 0 7.
Definition marker (data : list Z) : Z := RtpHeaders.bits (rd data 1) 7 1.

(** The payload types that the types of RTCP packets leave free (RFC 5761). *)
Definition free_type (t : Z) : Prop := t < 64 \/ 95 < t.

Lemma free_is_rtp data : bytes data -> 2 <= zlen data -> free_type (payload_type data) -> RtpHeaders.isRtcp data = Ok false.
Proof.
  intros B Z F. unfold RtpHeaders.isRtcp, RtpHeaders.isFeedback, RtpHeaders.getPacketType. rewrite byte_ok by lia. cbn [bind].
  unfold payload_type, RtpHeaders.bits in F. rewrite Z.shiftr_0_r, Z.land_ones in F by lia. change (2 ^ 7) with 128 in F.
  unfold free_type in F. f_equal. rewrite !orb_false_iff, !Z.eqb_neq.
  repeat split; intros X; rewrite X in F; cbv in F; destruct F; discriminate.
Qed.

(** [p'] is [p] with other bytes where [changed] holds. *)
Definition kept_but (changed : Z -> bool) (p p' : list Z) : Prop :=
  bytes p' /\ zlen p' = zlen p /\ forall i, changed i = false -> rd p' i = rd p i.

Lemma retyped (d : Delegate) data : bytes data -> 2 <= zlen data -> free_type (payload_type data) ->
  let codec := fst (GetCodec (local d) (payload_type data)) in
  exists l data', ResetRelayPacketCodec d data Nack.VIDEO_PACKET = Ok (put_local d l, data') /\ kept_but (fun i => i =? 1) data data' /\
    payload_type data' = codec mod 128 /\ marker data' = marker data.
Proof.
  intros B Z F codec. unfold ResetRelayPacketCodec. rewrite free_is_rtp by assumption. cbn [bind]. unfold RtpHeaders.getPayloadType.
  rewrite RtpHeaders.get_bits_ok by lia. cbn [bind]. fold (payload_type data). subst codec.
  destruct (GetCodec (local d) (payload_type data)) as [codec l]. cbn [fst]. destruct (payload_type data =? codec) eqn:E'; cbn [negb].
  - apply Z.eqb_eq in E'. exists l, data. split; [reflexivity|]. split; [now split|]. split; [|reflexivity]. rewrite <- E'. unfold payload_type, RtpHeaders.bits.
    rewrite Z.shiftr_0_r, Z.land_ones by lia. change (2 ^ 7) with 128. now rewrite Z.mod_mod.
  - unfold RtpHeaders.setPayloadType. rewrite RtpHeaders.set_bits_ok by (assumption || lia). cbn [bind].
    eexists l, _. split; [reflexivity|]. unfold payload_type, marker. rewrite rd_wr_eq by lia. split; [|split].
    + split; [apply RtpHeaders.bytes_put; assumption || lia|]. split; [apply zlen_wr|]. intros i I. apply rd_wr_ne; lia.
    + now rewrite RtpHeaders.bits_put by lia.
    + rewrite RtpHeaders.bits_put_ne by lia. reflexivity.
Qed.

(** What is kept for retransmission to a source. *)
Definition kept (d : Delegate) (ssrc : Z) : list Nack.RtpRetransmitPacket :=
  RtcpProcessor.retransmit_list_ (RtcpProcessor.GetNackProcessor (rtcp_processor_ d) ssrc).

Lemma nack_put (s : RtcpProcessor.RtcpProcessor E) ssrc n : sorted (RtcpProcessor.extended_video_nack_processors_ s) ->
  RtcpProcessor.GetNackProcessor (RtcpProcessor.put_nack_processor s ssrc n) ssrc = n.
Proof.
  intros S. unfold RtcpProcessor.put_nack_processor, RtcpProcessor.GetNackProcessor.
  destruct (find ssrc (RtcpProcessor.extended_video_nack_processors_ s)) eqn:F; cbn [RtcpProcessor.extended_video_nack_processors_ RtcpProcessor.set_nacks].
  - now rewrite find_store, Z.eqb_refl.
  - now rewrite F.
Qed.

Lemma pushed_is_kept now (s : RtcpProcessor.RtcpProcessor E) buf : bytes buf -> 12 <= zlen buf <= 1500 ->
  sorted (RtcpProcessor.extended_video_nack_processors_ s) ->
  let l := RtcpProcessor.retransmit_list_ (RtcpProcessor.GetNackProcessor s (b32 buf 8)) in
  NackFacts.wf_queue l -> exists s', RtcpProcessor.NackPushVideoPacket now s buf (zlen buf) = Ok s' /\
    RtcpProcessor.retransmit_list_ (RtcpProcessor.GetNackProcessor s' (b32 buf 8)) = skipn (length l - 299) l ++ [Nack.mk_rp (b16 buf 2) buf now 0].
Proof.
  intros B Z S l W. unfold RtcpProcessor.NackPushVideoPacket, RtpHeaders.getSSRC. rewrite be32_ok by lia. cbn [bind].
  unfold RtcpProcessor.push. replace ((0 <=? zlen buf) && (zlen buf <=? zlen buf)) with true by lia. rewrite slice_all.
  destruct (NackFacts.PushPacket_spec now l buf W B Z) as (l' & P & _ & E'). fold l. rewrite P. cbn [bind]. eexists. split; [reflexivity|].
  now rewrite nack_put.
Qed.

(** The bytes that relaying a video packet may change. *)
Definition rewritten (i : Z) : bool := (i =? 1) || ((8 <=? i) && (i <? 12)).

Lemma resourced (rewrite : bool) data data1 v : 12 <= zlen data -> kept_but (fun i => i =? 1) data data1 ->
  exists buf, (if rewrite then RtpHeaders.setSSRC data1 v else Ok data1) = Ok buf /\ kept_but rewritten data buf /\ rd buf 1 = rd data1 1 /\
    b32 buf 8 = (if rewrite then u32 v else b32 data 8) /\ b16 buf 2 = b16 data 2.
Proof.
  intros Z (K1 & K2 & K3). assert (K : forall j, 2 <= j -> b16 data1 j = b16 data j) by (intros j J; unfold b16; now rewrite !K3 by lia).
  destruct rewrite.
  - unfold RtpHeaders.setSSRC. rewrite set32_ok by lia. eexists. split; [reflexivity|]. split; [split; [now apply bytes_w32|split; [now rewrite zlen_w32|]]|].
    + intros i I. unfold rewritten in I. rewrite rd_w32_ne by lia. apply K3. lia.
    + split; [apply rd_w32_ne; lia|]. split; [apply RtpHeaders.b32_w32_mod; lia|]. rewrite b16_w32_ne by lia. apply K. lia.
  - exists data1. split; [reflexivity|]. split; [split; [assumption|split; [assumption|]]; intros i I; apply K3; unfold rewritten in I; lia|].
    split; [reflexivity|]. unfold b32. rewrite !K by lia. now split.
Qed.

(** C9. A video packet that is relayed is queued and kept: the bytes that are
    queued have the payload type of the peer and, where the delegate rewrites
    it, its source, and otherwise are those of the packet; they are queued once,
    with the priority of video and the packet's sequence number, and the same
    bytes are the newest kept for retransmission to their source. *)
Theorem relayed_video_is_kept now session (d : Delegate) data :
  let codec := fst (GetCodec (local d) (payload_type data)) in
  let ssrc := if should_rewrite_ssrc_ (config d) then u32 (VIDEO_SSRC (negot d)) else b32 data 8 in
  bundle_ (negot d) = true -> video_transport_ (negot d) = true -> bytes data -> 12 <= zlen data <= 1500 ->
  free_type (payload_type data) -> free_type (codec mod 128) ->
  sorted (RtcpProcessor.extended_video_nack_processors_ (rtcp_processor_ d)) -> NackFacts.wf_queue (kept d ssrc) ->
  exists d' out buf, RelayPacket now session d (Nack.mk_data Nack.VIDEO_PACKET data) = Ok (d', out) /\
    kept_but rewritten data buf /\ payload_type buf = codec mod 128 /\ marker buf = marker data /\ b32 buf 8 = ssrc /\
    Permutation (queued d') (mk_send DEFAULT_PRIORITY (b16 data 2) now VIDEO_TYPE buf :: queued d) /\
    kept d' ssrc = skipn (length (kept d ssrc) - 299) (kept d ssrc) ++ [Nack.mk_rp (b16 data 2) buf now 0].
Proof.
  intros codec ssrc B T BY Z F F' S W. unfold RelayPacket. rewrite B, T. cbn [Nack.p_data Nack.p_type]. unfold queueData.
  replace ((0 <=? zlen data) && (zlen data <=? zlen data)) with true by lia. rewrite slice_all.
  destruct (retyped d data BY ltac:(lia) F) as (l & data1 & -> & (K1 & K2 & K3) & K4 & K5). cbn [bind].
  rewrite free_is_rtp by (assumption || lia || (rewrite K4; exact F')). cbn [bind]. unfold queue_rtp, RtpHeaders.getTimestamp.
  rewrite be32_ok by lia. cbn [bind].
  change (config (put_local d l)) with (config d). change (VIDEO_SSRC (negot (put_local d l))) with (VIDEO_SSRC (negot d)).
  destruct (resourced (should_rewrite_ssrc_ (config d)) data data1 (VIDEO_SSRC (negot d)) ltac:(lia) (conj K1 (conj K2 K3)))
    as (buf & -> & (B1 & B2 & B3) & R1 & R2 & R3). fold ssrc in R2.
  cbn [bind]. unfold RtpHeaders.getSSRC. rewrite be32_ok by lia. cbn [bind]. destruct (NetworkStatus.SendingPacket _ _ _ _ _ _ _) as [st out].
  rewrite <- B2. unfold kept in *. rewrite <- R2 in *.
  destruct (pushed_is_kept now (rtcp_processor_ (put_status (put_local d l) st)) buf B1 ltac:(lia) S W) as (p & -> & P). cbn [bind].
  unfold WriteAndSend. replace ((0 <=? zlen buf) && (zlen buf <=? zlen buf)) with true by lia. rewrite slice_all.
  unfold RtpHeaders.getSeqNumber. rewrite be16_ok by lia. cbn [bind]. eexists _, _, buf. split; [reflexivity|].
  split; [now split|]. unfold payload_type, marker in *. rewrite R1, <- R3. split; [exact K4|]. split; [exact K5|]. split; [reflexivity|].
  split; [|exact P]. apply (PacketBuffer.elems_push (PriorityQueue := Q)).
Qed.
End Facts.

(** ** An example *)

(** A delegate whose peer has the number 96 for VP8. *)
Section Sample.
#[local] Existing Instance RtcpProcessor.sample_estimator.
#[local] Existing Instance PacketBuffer.list_queue.

Definition sample_sdp : SdpInfo := new_SdpInfo false VP8 SENDRECV SENDRECV.
Definition sample_delegate (opened : bool) (queue : list RtpSendPacket)
    : TransportDelegate RemoteBitrate.RemoteBitrateEstimatorSingleStream (list RtpSendPacket) :=
  mk_delegate (mk_configuration true VP8 300 true false true true)
    (mk_negotiated true opened false sample_sdp (if opened then with_codes sample_sdp [] [(100, 96)] else sample_sdp) 9 7 11)
    TRANSPORT_READY (Some 1) RtcpProcessor.sample_processor queue (mk_meter 0 0 0) (mk_meter 0 0 0) 0.
Definition sample_packet : list Z := [0x80; 0xE4; 0; 21; 0; 0; 1; 0; 0; 0; 0; 99; 1; 2; 3].
Definition sample_sent (n : Z) : RtpSendPacket := mk_send DEFAULT_PRIORITY n 0 VIDEO_TYPE [0x80; 96; 0; n].

Lemma relayed_video_is_kept_witness :
  let d := sample_delegate true [sample_sent 20] in
  exists d' out buf, RelayPacket 5 false d (Nack.mk_data Nack.VIDEO_PACKET sample_packet) = Ok (d', out) /\
    kept_but rewritten sample_packet buf /\ payload_type buf = 96 /\ marker buf = 1 /\ b32 buf 8 = 7 /\
    Permutation (queued d') [mk_send DEFAULT_PRIORITY 21 5 VIDEO_TYPE buf; sample_sent 20] /\
    kept d' 7 = [Nack.mk_rp 21 buf 5 0].
Proof.
  refine (relayed_video_is_kept 5 false (sample_delegate true [sample_sent 20]) sample_packet _ _ _ _ _ _ _ _).
  - reflexivity.
  - reflexivity.
  - apply bytes_forallb. reflexivity.
  - vm_compute. split; congruence.
  - right. reflexivity.
  - right. reflexivity.
  - constructor.
  - split; [vm_compute; congruence|constructor].
Defined.

Lemma everything_is_sent_witness :
  let d := sample_delegate true [sample_sent 22; sample_sent 20; sample_sent 21] in
  exists sent, Permutation sent (queued d) /\
    let (d', out) := SendThreadLoop 3 (fun _ => 5000) false d in
    queued d' = [] /\ writes out = map to_write sent /\
    (one_priority (queued d) -> StronglySorted (fun a b => send_seqn a <= send_seqn b) sent).
Proof. exact (everything_is_sent (fun _ => 5000) false (sample_delegate true [sample_sent 22; sample_sent 20; sample_sent 21]) eq_refl). Defined.
End Sample.

(** The comparison is no order: of an audio packet and a video packet with a
    smaller number either is sent after the other. *)
Example comparator_is_no_order :
  let a := mk_send AUDIO_PRIORITY 1000 0 VIDEO_TYPE [] in
  let b := mk_send DEFAULT_PRIORITY 50 0 VIDEO_TYPE [] in
  RtpSendPacketComparator a b = true /\ RtpSendPacketComparator b a = true.
Proof. split; reflexivity. Qed.

(** So a queue that holds an audio packet among video packets has no order it
    could keep: the video packet 4 may be overtaken by 8. *)
Example mixed_queue_has_no_order :
  let video n := mk_send DEFAULT_PRIORITY n 0 VIDEO_TYPE [] in
  ~ PacketBuffer.weak_order RtpSendPacketComparator
      [video 4; mk_send AUDIO_PRIORITY 9 0 VIDEO_TYPE []; video 8].
Proof.
  cbv zeta. intros [I T _].
  specialize (T (mk_send DEFAULT_PRIORITY 4 0 VIDEO_TYPE []) (mk_send AUDIO_PRIORITY 9 0 VIDEO_TYPE [])
    (mk_send DEFAULT_PRIORITY 4 0 VIDEO_TYPE [])).
  rewrite I in T by (now left). discriminate T; cbn; auto.
Qed.

End Transport.
