(* ===== verification/TransportReceive.v ===== *)
(** * The packets a transport receives

    Models the way of an incoming packet through transport_delegate.cc
    (onTransportData): its source gives its type, the network status counts it,
    the RTCP processor sees it, and the plugin and the listeners get it.  What
    the RTCP processor sends goes out by [RelayPacket].  The receiver of the
    error correction is not modelled: what it recovers of a packet is an
    argument.  The clocks, the flags of the program and what is not initialised
    are arguments. *)

From Stdlib Require Import Ascii String.
From S2P Require Import Prelude Wire OrderedMap RtpHeaders Nack NtpTime NetworkStatus RemoteBitrate RtcpProcessor PacketBuffer Text Sdp Transport.
Import Wire OrderedMap Sdp Transport.

Module TransportReceive.

(** What is read while one RTP packet is processed: the clocks of the bitrate,
    of the RTCP processor, of the plugin's times and of the NACK processor, the
    rest of the packet on the stack and the buffer of NACKs; whether the lock of
    the NACK processor is taken and key frames are asked for. *)
Record arrival := mk_arrival {
  bitrate_ms : Z;
  rtp_now : RtcpProcessor.rtp_moment;
  rtp_stack : list Z;
  plugin_ms : Z;
  plugin_ntp : Z * Z * Z;
  nack_us : Z;
  nack_ms : Z;
  fir_flag : bool;
  nack_locked : bool;
  nackbuf : list Z
}.

(** What is read while what the network brings is handled: [relay_ms] is the
    clock of what is sent meanwhile, [arrivals k] belongs to the [k]-th RTP
    packet that is processed, [recovered] are the packets the error correction
    gives back. *)
Record incoming := mk_incoming {
  known_session : bool;
  relay_ms : Z;
  count_ms : Z;
  loss_ms : Z * Z * Z;
  update_ms : Z * Z;
  rtcp_fuel : nat;
  rtcp_now : nat -> RtcpProcessor.moment;
  rtt_before : nat -> Z;
  rtcp_ms : Z;
  arrivals : nat -> arrival;
  max_nack_queue : Z;
  enable_red_fec : bool;
  recovered : list (list Z);
  type_before : Nack.packetType;
  source_before : Z
}.

Section Delegate.
Context {E : Type} `{RemoteBitrate.RemoteBitrateEstimator E}.
Context {PQ : Type} {Q : PacketBuffer.PriorityQueue RtpSendPacket PQ RtpSendPacketComparator}.
Notation Delegate := (TransportDelegate E PQ).
(** [g_slist_sort] of glib, as in the NACK processor. *)
Variable g_slist_sort : (Z -> Z -> Z) -> list Z -> list Z.

(** What the RTCP processor sends. *)
Fixpoint relay_all (i : incoming) (d : Delegate) (l : list Nack.dataPacket) : res (Delegate * list event) :=
  match l with
  | [] => Ok (d, [])
  | p :: l =>
      let! (d, out) := RelayPacket (relay_ms i) (known_session i) d p in
      let! (d, out') := relay_all i d l in Ok (d, out ++ out')
  end.

Definition UpdateReceiverBitrate (cur : Z) (session : bool) (d : Delegate) (len : Z) : Delegate * list event :=
  let m := metered cur len (receiver_rate d) in
  let reports :=
    if UPDATE_BITRATE_STAT_TIMEOUT <? cur - last_time_ (receiver_rate d) then NetworkStatus.UpdateStatusZ session (status d) else [] in
  let d := put_status (set_receiver_rate d m) (NetworkStatus.UpdateBitrate (status d) false (bitrate_last_ m)) in
  (set_processor d (RtcpProcessor.UpdateBitrate (rtcp_processor_ d) (bitrate_last_ m)), map Reported reports).

Definition ProcessPacket (i : incoming) (a : arrival) (d : Delegate) (packet_type : Nack.packetType) (buf : list Z) (len : Z)
    : res (Delegate * list event) :=
  let (d, reports) := UpdateReceiverBitrate (bitrate_ms a) (known_session i) d len in
  let! (p, sent, told) :=
    RtcpProcessor.RtcpProcessIncomingRtp (rtp_now a) (rtp_stack a) (max_nack_queue i) (rtcp_processor_ d) packet_type buf len in
  let! (d, out) := relay_all i (set_processor d p) sent in
  Ok (d, reports ++ out ++ map ToldEstimate told).

(** The capture of packets to a file is left out. *)
Definition SendPacketToPlugin (a : arrival) (d : Delegate) (packet : Nack.dataPacket) : res (Delegate * list event) :=
  let! rtp_timestamp := RtpHeaders.getTimestamp (Nack.p_data packet) in
  let (t, p) := RtcpProcessor.EstimateRemoteNTPTimeMS (plugin_ntp a) (rtcp_processor_ d) (Nack.p_type packet) rtp_timestamp in
  Ok (set_processor d p, [PluginRtp (Nack.p_type packet) (Nack.p_data packet) rtp_timestamp (s32 (plugin_ms a)) t]).

(** A packet that is processed and goes to the plugin and the listeners. *)
Definition deliver (i : incoming) (a : arrival) (d : Delegate) (packet : Nack.dataPacket) : res (Delegate * list event) :=
  let! (d, out) := ProcessPacket i a d (Nack.p_type packet) (Nack.p_data packet) (zlen (Nack.p_data packet)) in
  let! (d, told) := SendPacketToPlugin a d packet in
  Ok (d, out ++ told ++ [RecvRtp (Nack.p_type packet) (Nack.p_data packet)]).

Definition video_nack (i : incoming) (a : arrival) (d : Delegate) (ssrc seqnumber : Z) : res (Delegate * list event) :=
  let! (p, sent) :=
    RtcpProcessor.SendVideoNackByCondition g_slist_sort (nack_us a) (nack_ms a) (fir_flag a) (nack_locked a) (nackbuf a)
      (rtcp_processor_ d) ssrc seqnumber in
  relay_all i (set_processor d p) sent.
Definition audio_nack (i : incoming) (a : arrival) (d : Delegate) (seqnumber : Z) : res (Delegate * list event) :=
  let! (p, sent) :=
    RtcpProcessor.SendAudioNackByCondition g_slist_sort (nack_us a) (nack_ms a) (fir_flag a) (nack_locked a) (nackbuf a)
      (rtcp_processor_ d) seqnumber in
  relay_all i (set_processor d p) sent.

Definition OnRecoveredPacket (i : incoming) (a : arrival) (d : Delegate) (rtp_packet : list Z) : res (Delegate * list event) :=
  let! packet := Nack.data_packet Nack.VIDEO_PACKET rtp_packet (zlen rtp_packet) in
  let! seqnumber := RtpHeaders.getSeqNumber (Nack.p_data packet) in
  let! recvSSRC := RtpHeaders.getSSRC (Nack.p_data packet) in
  let! (d, nacks) := video_nack i a d recvSSRC seqnumber in
  let! (d, out) := deliver i a d packet in
  Ok (d, nacks ++ out).
Fixpoint recover_all (i : incoming) (k : nat) (d : Delegate) (l : list (list Z)) : res (Delegate * list event) :=
  match l with
  | [] => Ok (d, [])
  | p :: l =>
      let! (d, out) := OnRecoveredPacket i (arrivals i k) d p in
      let! (d, out') := recover_all i (S k) d l in Ok (d, out ++ out')
  end.

Definition ReceivePacketAsFec (i : incoming) (d : Delegate) (packet : Nack.dataPacket) : res (Delegate * list event) :=
  let buf := Nack.p_data packet in
  let a := arrivals i 0 in
  let! seqnumber := RtpHeaders.getSeqNumber buf in
  let! recvSSRC := RtpHeaders.getSSRC buf in
  match Nack.p_type packet with
  | Nack.VIDEO_PACKET =>
      let! payload := RtpHeaders.getPayloadType buf in
      if payload =? RED_90000_PT then
        let! red := RtpHeaders.get_bits buf 12 0 7 in
        let! (d, nacks) := if red =? ULP_90000_PT then video_nack i a d recvSSRC seqnumber else Ok (d, []) in
        let! (d, out) := recover_all i 1 d (recovered i) in
        Ok (d, nacks ++ out)
      else if payload =? VP8_90000_PT then
        let! (d, nacks) := video_nack i a d recvSSRC seqnumber in
        let! (d, out) := deliver i a d packet in
        Ok (d, nacks ++ out)
      else Ok (d, [])
  | Nack.AUDIO_PACKET => deliver i a d packet
  | _ => Ok (d, [])
  end.

(** Every three seconds the estimates of the bitrate are noted; what the session
    information is told of the round trip is left out. *)
Definition target (d : Delegate) (t : Nack.packetType) (video : bool) : Delegate :=
  match RtcpProcessor.GetBitrateEstimate (rtcp_processor_ d) t with
  | Some (_, bitrate) => put_status d (NetworkStatus.UpdateTargetBitrate (status d) video bitrate)
  | None => d
  end.
Definition UpdateNetworkStatus (times : Z * Z) (d : Delegate) : Delegate :=
  let d := if last_update_ns_time_ d =? 0 then set_update d (fst times) else d in
  if 3000 <? snd times - last_update_ns_time_ d
  then target (target (set_update d (snd times)) Nack.VIDEO_PACKET true) Nack.AUDIO_PACKET false
  else d.

(** The type of a packet by its source. *)
Definition type_of_source (d : Delegate) (ssrc : Z) : option Nack.packetType :=
  let x := ssrcs (remote d) in
  if ssrc =? audioSsrc x then Some Nack.AUDIO_PACKET
  else if ssrc =? videoSsrc x then Some Nack.VIDEO_PACKET
  else if ssrc =? videoRtxSsrc x then Some Nack.VIDEO_RTX_PACKET else None.

Definition count_rtcp (i : incoming) (d : Delegate) (video : bool) : Delegate * list event :=
  let (st, out) := NetworkStatus.ReceivingRTCPPacket (count_ms i) (known_session i) (status d) video in
  (put_status d st, map Reported out).
Definition count_rtp (i : incoming) (d : Delegate) (video : bool) (seqnumber : Z) : Delegate * list event :=
  let (st, out) := NetworkStatus.ReceivingPacket (count_ms i) (known_session i) (status d) video in
  let '(t0, t1, t2) := loss_ms i in
  let (st, out') := NetworkStatus.StatisticRecvFractionLost t0 t1 t2 (known_session i) st video seqnumber in
  (put_status d st, map Reported (out ++ out')).

(** An RTCP packet of a source that is not known is dropped, unless the peer
    sends no video. *)
Definition receive_rtcp (i : incoming) (d : Delegate) (buf : list Z) : res (Delegate * list event) :=
  let len := zlen buf in
  let! recvSSRC := RtpHeaders.getSSRC_rtcp buf in
  match plugin_ d with
  | None => Ok (UpdateNetworkStatus (update_ms i) d, [])
  | Some _ =>
      let handle (t : Nack.packetType) (d : Delegate) (counted : list event) :=
        let! packet := Nack.data_packet t buf len in
        let! (p, sent) :=
          RtcpProcessor.RtcpProcessIncomingRtcp (rtcp_fuel i) (rtcp_now i) (rtt_before i) (rtcp_ms i) (rtcp_processor_ d) t buf len in
        let! (d, out) := relay_all i (set_processor d p) sent in
        Ok (UpdateNetworkStatus (update_ms i) d, counted ++ out ++ [PluginRtcp t (Nack.p_data packet); RecvRtcp t (Nack.p_data packet)]) in
      match type_of_source d recvSSRC with
      | Some Nack.AUDIO_PACKET => let (d, out) := count_rtcp i d false in handle Nack.AUDIO_PACKET d out
      | Some Nack.VIDEO_PACKET => let (d, out) := count_rtcp i d true in handle Nack.VIDEO_PACKET d out
      | Some t => handle t d []
      | None =>
          match videoDirection (strs (remote d)) with
          | RECVONLY => handle Nack.VIDEO_PACKET d []
          | _ => let! _ := Nack.data_packet Nack.OTHER_PACKET buf len in Ok (d, [])
          end
      end
  end.

(** An RTP packet of a source that is not known has the type that is on the
    stack. *)
Definition receive_rtp (i : incoming) (d : Delegate) (buf : list Z) : res (Delegate * list event) :=
  let! recvSSRC := if bundle_ (negot d) then RtpHeaders.getSSRC buf else Ok (source_before i) in
  match plugin_ d with
  | None => Ok (UpdateNetworkStatus (update_ms i) d, [])
  | Some _ =>
      let! seqnumber := RtpHeaders.getSeqNumber buf in
      let t := match type_of_source d recvSSRC with Some t => t | None => type_before i end in
      let (d, counted) :=
        match type_of_source d recvSSRC with
        | Some Nack.AUDIO_PACKET => count_rtp i d false seqnumber
        | Some Nack.VIDEO_PACKET => count_rtp i d true seqnumber
        | _ => (d, [])
        end in
      let! packet := Nack.data_packet t buf (zlen buf) in
      let! (d, out) :=
        if enable_red_fec i then ReceivePacketAsFec i d packet
        else
          let! (d, nacks) :=
            match t with Nack.VIDEO_PACKET => video_nack i (arrivals i 0) d recvSSRC seqnumber | _ => Ok (d, []) end in
          let! (d, out) := deliver i (arrivals i 0) d packet in
          Ok (d, nacks ++ out) in
      let! (d, nacks) :=
        match t with Nack.AUDIO_PACKET => audio_nack i (arrivals i 0) d seqnumber | _ => Ok (d, []) end in
      Ok (UpdateNetworkStatus (update_ms i) d, counted ++ out ++ nacks)
  end.

Definition onTransportData (i : incoming) (d : Delegate) (buf : list Z) : res (Delegate * list event) :=
  let! rtcp := RtpHeaders.isRtcp buf in
  if (rtcp : bool) then receive_rtcp i d buf else receive_rtp i d buf.

(** ** Facts *)

(** What the plugin gets, and that relaying tells it nothing. *)
Definition to_plugin (out : list event) : list (Nack.packetType * list Z) :=
  flat_map (fun e => match e with PluginRtp t data _ _ _ => [(t, data)] | _ => [] end) out.

Lemma to_plugin_app a b : to_plugin (a ++ b) = to_plugin a ++ to_plugin b.
Proof. apply flat_map_app. Qed.
Lemma to_plugin_reports l : to_plugin (map Reported l) = [].
Proof. induction l; auto. Qed.
Lemma to_plugin_estimates l : to_plugin (map ToldEstimate l) = [].
Proof. induction l; auto. Qed.

(** Equations of a computation that succeeds. *)
Ltac step E := match type of E with bind ?x _ = Ok _ => let R := fresh "R" in destruct x eqn:R; cbn [bind] in E; [|discriminate..] end.

Lemma queue_quiet now session (d : Delegate) data len media t d' out : queueData now session d data len media t = Ok (d', out) -> to_plugin out = [].
Proof.
  unfold queueData. destruct (_ && _); [|discriminate]. intros E1. step E1. destruct a as [d1 b1]. step E1. destruct a.
  - step E1. destruct a as [[d2 b2] o]. step E1. injection E1 as <- <-. unfold queue_rtcp in R1.
    destruct t; repeat step R1; try (destruct (NetworkStatus.SendingRTCPPacket _ _ _ _)); injection R1 as <- <- <-; apply to_plugin_reports || reflexivity.
  - step E1. destruct a as [[d2 b2] o]. step E1. injection E1 as <- <-. unfold queue_rtp in R1. step R1.
    destruct t; repeat step R1; try (destruct (NetworkStatus.SendingPacket _ _ _ _ _ _ _); repeat step R1); injection R1 as <- <- <-;
      apply to_plugin_reports || reflexivity.
Qed.

Lemma relay_quiet i l : forall (d d' : Delegate) out, relay_all i d l = Ok (d', out) -> to_plugin out = [].
Proof.
  induction l as [|p l IH]; intros d d' out E1; [now injection E1 as <- <-|]. cbn [relay_all] in E1. step E1. destruct a as [d1 o1]. step E1.
  destruct a as [d2 o2]. injection E1 as <- <-. rewrite to_plugin_app, (IH _ _ _ R0), app_nil_r. unfold RelayPacket in R.
  destruct (bundle_ (negot d)); [|discriminate]. destruct (video_transport_ (negot d)); [now apply queue_quiet in R|now injection R as <- <-].
Qed.

Lemma delivered i a (d d' : Delegate) packet out : deliver i a d packet = Ok (d', out) ->
  to_plugin out = [(Nack.p_type packet, Nack.p_data packet)].
Proof.
  unfold deliver. intros E1. step E1. destruct a0 as [d1 o1]. step E1. destruct a0 as [d2 o2]. injection E1 as <- <-.
  unfold ProcessPacket in R. destruct (UpdateReceiverBitrate _ _ _ _) as [d3 reports] eqn:U. step R. destruct a0 as [[p sent] told]. step R.
  destruct a0 as [d4 o4]. injection R as <- <-. unfold UpdateReceiverBitrate in U. injection U as <- <-.
  unfold SendPacketToPlugin in R0. step R0. destruct (RtcpProcessor.EstimateRemoteNTPTimeMS _ _ _ _) as [t p']. injection R0 as <- <-.
  rewrite !to_plugin_app, to_plugin_reports, to_plugin_estimates, (relay_quiet _ _ _ _ _ R2). reflexivity.
Qed.

Lemma nack_quiet i a (d d' : Delegate) ssrc n out : video_nack i a d ssrc n = Ok (d', out) -> to_plugin out = [].
Proof. unfold video_nack. intros E1. step E1. destruct a0 as [p sent]. exact (relay_quiet _ _ _ _ _ E1). Qed.
Lemma audio_quiet i a (d d' : Delegate) n out : audio_nack i a d n = Ok (d', out) -> to_plugin out = [].
Proof. unfold audio_nack. intros E1. step E1. destruct a0 as [p sent]. exact (relay_quiet _ _ _ _ _ E1). Qed.

(** Without error correction a packet of a known source that is handled reaches
    the plugin once, as it came and with the type of its source. *)
Theorem plugin_hears_packet i (d d' : Delegate) buf out n t :
  enable_red_fec i = false -> plugin_ d = Some n -> bundle_ (negot d) = true -> RtpHeaders.isRtcp buf = Ok false -> 12 <= zlen buf ->
  type_of_source d (b32 buf 8) = Some t -> onTransportData i d buf = Ok (d', out) -> to_plugin out = [(t, buf)].
Proof.
  intros F P B R Z T O. unfold onTransportData in O. rewrite R in O. cbn [bind] in O. unfold receive_rtp in O. rewrite B, P, F in O.
  unfold RtpHeaders.getSSRC, RtpHeaders.getSeqNumber in O. rewrite be32_ok in O by lia. cbn [bind] in O. rewrite be16_ok in O by lia. cbn [bind] in O. rewrite T in O.
  destruct (match t with Nack.AUDIO_PACKET => _ | _ => _ end) as [d0 counted] eqn:C in O.
  assert (Q0 : to_plugin counted = []).
  { destruct t; try (injection C as <- <-; reflexivity); unfold count_rtp in C; destruct (NetworkStatus.ReceivingPacket _ _ _ _), (loss_ms i) as [[? ?] ?],
      (NetworkStatus.StatisticRecvFractionLost _ _ _ _ _ _ _); injection C as <- <-; apply to_plugin_reports. }
  clear C. unfold Nack.data_packet in O. destruct (_ && _) in O; [|discriminate]. cbn [bind] in O. rewrite slice_all in O.
  step O. destruct a as [d1 o1]. step O. destruct a as [d2 o2]. injection O as <- <-. step R0. destruct a as [d3 o3]. step R0. destruct a as [d4 o4].
  injection R0 as <- <-. apply delivered in R3. cbn [Nack.p_type Nack.p_data] in R3.
  assert (Q1 : to_plugin o3 = []) by (destruct t; try (injection R2 as <- <-; reflexivity); exact (nack_quiet _ _ _ _ _ _ _ R2)).
  assert (Q2 : to_plugin o2 = []) by (destruct t; try (injection R1 as <- <-; reflexivity); exact (audio_quiet _ _ _ _ _ _ R1)).
  now rewrite !to_plugin_app, Q0, Q1, Q2, R3.
Qed.

(** An RTCP packet of a stranger changes nothing, unless the peer sends no video. *)
Lemma stranger_is_ignored i (d : Delegate) buf n : RtpHeaders.isRtcp buf = Ok true -> 8 <= zlen buf <= 1500 -> plugin_ d = Some n ->
  type_of_source d (b32 buf 4) = None -> videoDirection (strs (remote d)) <> RECVONLY -> onTransportData i d buf = Ok (d, []).
Proof.
  intros R Z P T V. unfold onTransportData. rewrite R. cbn [bind]. unfold receive_rtcp, RtpHeaders.getSSRC_rtcp. rewrite be32_ok by lia. cbn [bind].
  rewrite P, T. unfold Nack.data_packet. replace ((0 <=? zlen buf) && (zlen buf <=? 1500) && (zlen buf <=? zlen buf)) with true by lia.
  now destruct (videoDirection (strs (remote d))).
Qed.
End Delegate.

(** ** An example *)

Section Sample.
#[local] Existing Instance RtcpProcessor.sample_estimator.
#[local] Existing Instance PacketBuffer.list_queue.

Definition sample_arrival : arrival :=
  mk_arrival 5000 (RtcpProcessor.mk_rtp_moment 5000 5000000 (5000, 5000, 5000) 5000 5000 5000 (5000, 5000, 5000)) (zeros 1500) 5000 (5000, 5000, 5000)
    5000000 5000 false false (zeros 120).
Definition sample_incoming (red_fec : bool) (before : Nack.packetType) : incoming :=
  mk_incoming false 5000 5000 (5000, 5000, 5000) (5000, 5000) 100 (fun _ => RtcpProcessor.sample_moment) (fun _ => 0) 5000 (fun _ => sample_arrival)
    300 red_fec [] before 0.

(** A delegate whose peer sends video with the source 5. *)
Definition listening : TransportDelegate RemoteBitrate.RemoteBitrateEstimatorSingleStream (list RtpSendPacket) :=
  let d := sample_delegate true [] in put_remote d (with_ssrcs (remote d) 3 5 4).
Definition video_from (ssrc : Z) : list Z := [0x80; 100; 0; 21; 0; 0; 1; 0; 0; 0; 0; ssrc; 0x10; 2; 3].

Example video_is_delivered :
  match onTransportData (fun _ l => l) (sample_incoming true Nack.OTHER_PACKET) listening (video_from 5) with
  | Ok (_, out) => to_plugin out = [(Nack.VIDEO_PACKET, video_from 5)]
  | _ => False
  end.
Proof. vm_compute. reflexivity. Qed.

Lemma plugin_hears_packet_witness :
  match onTransportData (fun _ l => l) (sample_incoming false Nack.OTHER_PACKET) listening (video_from 5) with
  | Ok (_, out) => to_plugin out = [(Nack.VIDEO_PACKET, video_from 5)]
  | _ => False
  end.
Proof.
  destruct (onTransportData (fun _ l => l) (sample_incoming false Nack.OTHER_PACKET) listening (video_from 5)) as [[d' out]| |] eqn:O;
    [|vm_compute in O; discriminate..].
  exact (plugin_hears_packet (fun _ l => l) (sample_incoming false Nack.OTHER_PACKET) listening d' (video_from 5) out 1 Nack.VIDEO_PACKET eq_refl eq_refl
    eq_refl eq_refl ltac:(vm_compute; congruence) eq_refl O).
Defined.

(** The packet of a stranger is delivered or not as the stack has it. *)
Example stranger_has_any_type :
  map (fun before =>
    match onTransportData (fun _ l => l) (sample_incoming true before) listening (video_from 9) with Ok (_, out) => to_plugin out | _ => [] end)
    [Nack.VIDEO_PACKET; Nack.AUDIO_PACKET; Nack.OTHER_PACKET] =
  [[(Nack.VIDEO_PACKET, video_from 9)]; [(Nack.AUDIO_PACKET, video_from 9)]; []].
Proof. vm_compute. reflexivity. Qed.
End Sample.
End TransportReceive.
