(* ===== verification/TransportNegotiate.v ===== *)
(** * Negotiation of a transport

    Models how src/orbit/transport_delegate.cc takes an offer, answers it, and
    exchanges candidates with the peer, with processLocalSdp of
    dtls_transport.cc.  ICE and DTLS are libraries: what they are told is an
    [event], what they answer an argument.  The numbers of [rand], the flags of
    the program, the search for regular expressions and what lies behind an
    array on the stack are arguments too.  An assertion that does not hold, and
    a call through a null pointer, are [Oob]. *)

From Stdlib Require Import Ascii String.
From S2P Require Import Prelude Wire OrderedMap RtcpReports NetworkStatus RemoteBitrate RtcpProcessor PacketBuffer Text Sdp SdpFacts SdpRoundtrip Transport.
Import Wire OrderedMap Text Sdp SdpFacts SdpRoundtrip Transport.

Module TransportNegotiate.

(** What a transport answers when it is asked for its side. *)
Record own_side := mk_side { my_fingerprint : str; my_user : str; my_pass : str }.

(** DtlsTransport::processLocalSdp. *)
Definition processLocalSdp (o : own_side) (bundle : bool) (media : MediaType) (s : SdpInfo) : SdpInfo :=
  let s := setFingerprint (setIsFingerprint s true) (my_fingerprint o) in
  if bundle then setCredentials (setCredentials s (my_user o) (my_pass o) VIDEO_TYPE) (my_user o) (my_pass o) AUDIO_TYPE
  else setCredentials s (my_user o) (my_pass o) media.

(** What GetJSONCandidate writes; [beyond] is the memory behind the one byte
    the line number is printed to. *)
Definition quoted (kv : str * str) : str :=
  let q := [34] in q ++ fst kv ++ q ++ lit ":" ++ q ++ snd kv ++ q.
Definition GetJSONCandidate (beyond : list Z) (local : SdpInfo) (mid sdp : str) : res str :=
  let line := if negb (str_eqb mid (lit "video")) then getAudioSdpMLine local else getVideoSdpMLine local in
  let! a := set8 (zeros 1 ++ beyond) 0 (if line then 49 else 48) in
  let! a := set8 a 1 0 in
  Ok (lit "{" ++ quoted (lit "candidate", sdp) ++ lit "," ++ quoted (lit "sdpMLineIndex", c_str a) ++ lit "," ++
      quoted (lit "sdpMid", mid) ++ lit "}").

(** The loop over the candidates counts in 8 bits. *)
Fixpoint add_candidates (fuel : nat) (i : Z) (l : list CandidateInfo) (s : SdpInfo) : res SdpInfo :=
  if i <? zlen l then
    match fuel with
    | O => NoFuel
    | S fuel =>
        match nth_error l (Z.to_nat i) with
        | Some c => add_candidates fuel (u8 (i + 1)) l (snd (addCandidate s c))
        | None => Oob
        end
    end
  else Ok s.
Definition candidates_fuel : nat := 256.

(** The flags and what is random or not initialised while an offer is answered. *)
Record surroundings := mk_surroundings {
  junk : nat -> CandidateInfo;
  rand_offer : nat -> Z;
  rand_extended : nat -> Z;
  rand_msid : nat -> Z;
  behind_msid : list Z;
  audio_nack : bool;
  set_min : bool;
  setup_passive_server : bool;
  red_fec : bool;
  rtt_now : Z -> Z;
  side : own_side
}.

Section Delegate.
Context {E : Type} `{RemoteBitrate.RemoteBitrateEstimator E}.
Context {PQ : Type} {Q : PacketBuffer.PriorityQueue RtpSendPacket PQ RtpSendPacketComparator}.
Notation Delegate := (TransportDelegate E PQ).

(** ** Setters of the endpoint *)

Definition set_target_bandwidth (d : Delegate) (bandwidth : Z) : Delegate := put_local d (Sdp.set_target_bandwidth (local d) bandwidth).
Definition get_target_bandwidth (d : Delegate) : Z := target_bandwidth_ (sets (local d)).
Definition set_video_encoding (d : Delegate) (encoding : VideoEncoding) : Delegate :=
  let c := config d in
  set_config d (mk_configuration (should_rewrite_ssrc_ c) encoding (min_encoding_bitrate_ c) (is_server_mode_ c) (use_relay_mode c)
    (trickle_enabled_ c) (has_listener c)).
Definition set_min_encoding_bitrate (d : Delegate) (min_encoding_bitrate : Z) : Delegate :=
  let c := config d in
  set_config d (mk_configuration (should_rewrite_ssrc_ c) (video_encoding_ c) min_encoding_bitrate (is_server_mode_ c) (use_relay_mode c)
    (trickle_enabled_ c) (has_listener c)).
Definition GetClientLocalCandidateInfos (d : Delegate) : list CandidateInfo := copyCandidateInfos (local d).
Definition GetExtendedVideoSsrcs (d : Delegate) : list Z := extended_video_ssrc (ssrcs (local d)).
Definition Stop (d : Delegate) : Delegate := set_plugin d None.

(** ** The answer to an offer *)

Definition SetRemoteSdp (junk : nat -> CandidateInfo) (d : Delegate) (sdp : str) : res (bool * Delegate) :=
  let! (ret, s) := initWithSdp junk (remote d) sdp [] in
  let d := put_remote d s in
  if (ret : bool) then
    if isBundle (sess s) then Ok (true, put_bundle d true) else Oob
  else Ok (false, d).

(** What the RTCP sender asks of the delegate. *)
Definition as_sources (d : Delegate) : RtcpReports.TransportDelegate :=
  RtcpReports.mk_delegate (u32 (AUDIO_SSRC (negot d))) (u32 (VIDEO_SSRC (negot d))) (GetExtendedVideoSsrcs d).

Definition InitWithSsrcs (rtt_now : Z -> Z) (d : Delegate) (extended_video_ssrcs : list Z) (default_video_ssrc default_audio_ssrc : Z)
    : Delegate :=
  let d := set_processor d (RtcpProcessor.InitWithSsrcs (as_sources d) (rtcp_processor_ d) extended_video_ssrcs default_video_ssrc
                              default_audio_ssrc) in
  put_status d (NetworkStatus.InitWithSsrcs rtt_now (status d) extended_video_ssrcs default_video_ssrc default_audio_ssrc).

(** The plugin is told the sources. *)
Definition tell_plugin (rands : nat -> Z) (d : Delegate) : Delegate * list event :=
  match plugin_ d with
  | None => (d, [])
  | Some number =>
      let d := put_local d (initExtendedVideoSsrc rands (local d) number) in
      (d, [PluginSources (videoSsrc (ssrcs (local d))) (videoSsrc (ssrcs (remote d))) (GetExtendedVideoSsrcs d)])
  end.

(** The transport of one stream is created, or told the credentials. *)
Definition open_transport (d : Delegate) (media : MediaType) (exists_ is_server : bool) : event :=
  let (user, pass) := getCredentials (remote d) media [] in
  if exists_ then SetRemoteCredentials media user pass
  else CreateTransport media (bundle_ (negot d)) (isRtcpMux (sess (remote d))) user pass is_server.
(** The one of audio would follow the assertion that there is a bundle. *)
Definition open_transports (d : Delegate) (is_server : bool) : res (Delegate * list event) :=
  let n := negot d in
  let r := remote d in
  match profile (sess r) with
  | SAVPF =>
      if isFingerprint (sess r) then
        let video := hasVideo (strs r) || bundle_ n in
        let out := if video then [open_transport d VIDEO_TYPE (video_transport_ n) is_server] else [] in
        if bundle_ n then Ok (put_transports d (video_transport_ n || video) (audio_transport_ n), out) else Oob
      else Ok (d, [])
  | AVPF => Ok (d, [])
  end.

(** The candidates of the offer. *)
Definition offer_candidates (d : Delegate) : res (list event) :=
  let n := negot d in
  let r := remote d in
  match candidateVector_ r with
  | [] => Ok []
  | l =>
      let! video :=
        if hasVideo (strs r) then if video_transport_ n then Ok [ToldCandidates VIDEO_TYPE l (bundle_ n)] else Oob else Ok [] in
      let! audio :=
        if negb (bundle_ n) && hasAudio (strs r)
        then if audio_transport_ n then Ok [ToldCandidates AUDIO_TYPE l (bundle_ n)] else Oob else Ok [] in
      Ok (video ++ audio)
  end.

(** A transport has the bundle of the delegate, which is asserted when it is
    created. *)
Definition GetLocalSdp (w : surroundings) (d : Delegate) : res (str * Delegate) :=
  let n := negot d in
  let s := if video_transport_ n then processLocalSdp (side w) (bundle_ n) VIDEO_TYPE (local d) else local d in
  let s := if negb (bundle_ n) && audio_transport_ n then processLocalSdp (side w) (bundle_ n) AUDIO_TYPE s else s in
  let s := setProfile s (profile (sess (remote d))) in
  let! (text, s) := getSdp (audio_nack w) (set_min w) (rand_msid w) (behind_msid w) s in
  Ok (text, put_local d s).

(** What is done to the side of the server when the offer has been read. *)
Definition prepare_answer (w : surroundings) (d : Delegate) : Delegate * list event :=
  let min := min_encoding_bitrate_ (config d) in
  let d := if negb (min =? 0) then put_local d (set_min_bitrate (local d) min) else d in
  let d := put_local d (setOfferSdp (rand_offer w) (local d) (remote d)) in
  let (d, told) := tell_plugin (rand_extended w) d in
  let x := ssrcs (local d) in
  let d := put_sources d (s32 (audioSsrc x)) (s32 (videoSsrc x)) (s32 (videoRtxSsrc x)) in
  let d := InitWithSsrcs (rtt_now w) d (extended_video_ssrc x) (u32 (VIDEO_SSRC (negot d))) (u32 (AUDIO_SSRC (negot d))) in
  let r := ssrcs (remote d) in
  let d := set_processor d (RtcpProcessor.SetRemoteSdp (rtcp_processor_ d) (audioSsrc r) (videoSsrc r)) in
  (if setup_passive_server w then put_local d (set_setup (local d) (lit "passive")) else d, told).

Section Offer.
Variable regex_search : str -> str -> option str.

(** The answer when the offer is read, the state and what happened. *)
Definition ProcessOffer (w : surroundings) (d : Delegate) (offer : str) : res (option str * Delegate * list event) :=
  let d := put_local d (ExtractNewCodes regex_search (local d) offer) in
  let d := put_remote d (ExtractNewCodes regex_search (remote d) offer) in
  let d := put_remote d (Sdp.set_video_encoding (remote d) (video_encoding_ (config d))) in
  let! (ok, d) := SetRemoteSdp (junk w) d offer in
  if negb ok then Ok (None, d, [])
  else
    let (d, told) := prepare_answer w d in
    let! (d, opened) := open_transports d (setup_passive_server w) in
    let! candidates := offer_candidates d in
    let! (text, d) := GetLocalSdp w d in
    Ok (Some text, d, told ++ opened ++ candidates).
End Offer.

(** ** Candidates *)

(** [fresh] is the description the constructor makes, [accepted] what the
    transport answers. *)
Definition AddRemoteCandidate (junk : nat -> CandidateInfo) (fresh : SdpInfo) (accepted : bool) (d : Delegate) (mid : str) (mLineIndex : Z)
    (sdp : str) : res (bool * Delegate * list event) :=
  let n := negot d in
  let video := str_eqb mid (lit "video") || (mLineIndex =? Z.b2z (getVideoSdpMLine (remote d))) in
  let theType := if video then VIDEO_TYPE else AUDIO_TYPE in
  let theMid := if video then lit "video" else lit "audio" in
  let (user, pass) := getCredentials (remote d) theType [] in
  let! (ok, temp) := initWithSdp junk (setCredentials fresh user pass OTHER) sdp theMid in
  let! (res, out) :=
    if (ok : bool) then
      if video || bundle_ n then
        if video_transport_ n then Ok (accepted, [ToldCandidates VIDEO_TYPE (candidateVector_ temp) (bundle_ n)]) else Oob
      else if audio_transport_ n then Ok (accepted, [ToldCandidates AUDIO_TYPE (candidateVector_ temp) (bundle_ n)]) else Oob
    else Ok (false, []) in
  let! s := add_candidates candidates_fuel 0 (candidateVector_ temp) (remote d) in
  Ok (res, put_remote d s, out).

Definition SetRemoteCandidates (accepted : bool) (d : Delegate) (candidates : list CandidateInfo) : res (bool * list event) :=
  let n := negot d in
  if bundle_ n then
    if video_transport_ n then Ok (accepted, [ToldCandidates VIDEO_TYPE candidates true]) else Ok (true, [])
  else Oob.

Definition is_relay (t : HostType) : bool := match t with RELAY => true | _ => false end.

(** [name] is the name of the transport that found the candidate. *)
Definition onCandidate (beyond : list Z) (d : Delegate) (cand : CandidateInfo) (name : str) : res (Delegate * list event) :=
  if use_relay_mode (config d) && negb (is_relay (hostType cand)) then Ok (d, [])
  else
    let (sdp, s) := addCandidate (local d) cand in
    let d := put_local d s in
    let notify (mid : str) := let! object := GetJSONCandidate beyond (local d) mid sdp in Ok [NotifyCandidate object] in
    if trickle_enabled_ (config d) && has_listener (config d) then
      if bundle_ (negot d) then
        let! audio := if hasAudio (strs (remote d)) then notify (lit "audio") else Ok [] in
        let! video := if hasVideo (strs (remote d)) then notify (lit "video") else Ok [] in
        Ok (d, FoundCandidate :: audio ++ video)
      else let! out := notify name in Ok (d, FoundCandidate :: out)
    else Ok (d, [FoundCandidate]).

Definition updateState (d : Delegate) (state : TransportState) : Delegate * list event :=
  let told := match plugin_ d with Some _ => [PluginState state] | None => [] end in
  (set_state d state,
   told ++ match state with
           | TRANSPORT_READY => match plugin_ d with Some _ => [PluginActive] | None => [] end ++ [ConnectReady]
           | _ => []
           end).

(** ** The side of a client *)

Definition client_fingerprint : str :=
  lit "58:8B:E5:05:5C:0F:B6:38:28:F9:DC:24:00:8F:E2:A5:52:B6:92:E7:58:38:53:6B:01:1A:12:7F:EF:55:78:6E".

(** The sides are the transports' answers for their local credentials. *)
Definition GetClientLocalSdp (video audio : own_side) (d : Delegate) (sdp : option SdpInfo) : bool * option SdpInfo :=
  let n := negot d in
  match sdp with
  | None => (false, None)
  | Some s =>
      if is_server_mode_ (config d) then (false, sdp)
      else if negb (video_transport_ n) && negb (audio_transport_ n) then (false, sdp)
      else
        let s := AddVideoBundleTag (AddAudioBundleTag (createOfferSdp s)) in
        let s := set_setup (setFingerprint (setIsFingerprint s true) client_fingerprint) (lit "active") in
        let s := if video_transport_ n then setCredentials s (my_user video) (my_pass video) VIDEO_TYPE else s in
        (true, Some (if audio_transport_ n then setCredentials s (my_user audio) (my_pass audio) AUDIO_TYPE else s))
  end.

(** [fresh] is the processor that is made; the sender is new as well. *)
Definition StartAsClient (rtt_now : Z -> Z) (fresh : RtcpProcessor.RtcpProcessor E) (d : Delegate) : Delegate * list event :=
  let st := status d in
  let d := put_transports d true false in
  let d := set_queue (put_status (set_processor d fresh) st) PacketBuffer.empty in
  (InitWithSsrcs rtt_now d [] (u32 (VIDEO_SSRC (negot d))) (u32 (AUDIO_SSRC (negot d))), [CreateTransport VIDEO_TYPE true true [] [] true]).
End Delegate.

(** ** Facts *)

(** *** The codecs of an offer can be written again *)

Lemma ltb_trans a : forall b c, str_ltb a b = true -> str_ltb b c = true -> str_ltb a c = true.
Proof.
  induction a as [|x a IH]; intros [|y b] [|z c] A B; try discriminate; [reflexivity|]. cbn [str_ltb] in *.
  apply orb_true_iff in A, B. apply orb_true_iff. rewrite !andb_true_iff in *. destruct A as [A | [A1 A2]], B as [B | [B1 B2]]; [left; lia..|].
  right. split; [lia|eauto].
Qed.

Lemma str_total j : forall k, str_eqb j k = false -> str_ltb j k = false -> str_ltb k j = true.
Proof.
  induction j as [|x j IH]; intros [|y k] E F; try discriminate; [reflexivity|]. cbn in *. apply orb_false_iff in F as [F G].
  apply orb_true_iff. destruct (x =? y) eqn:Q; cbn in E, G; [right|left; lia]. rewrite IH by assumption. lia.
Qed.

Lemma format_keys {V} k (v : V) l e : In e (str_store k v l) -> fst e = k \/ In e l.
Proof.
  induction l as [|[j w] l IH]; cbn; [intros [<- | []]; now left|].
  destruct (str_eqb k j); [intros [<- | I]; auto|]. destruct (str_ltb k j); [intros [<- | I]; auto|]. intros [<- | I]; [auto|]. destruct (IH I); auto.
Qed.

Lemma format_sorted k v l : sorted_keys l = true -> sorted_keys (str_store k v l) = true.
Proof.
  induction l as [|[j w] l IH]; intros S; [reflexivity|]. cbn [sorted_keys str_store] in *. apply andb_true_iff in S as [S1 S2].
  rewrite forallb_forall in S1. destruct (str_eqb k j) eqn:E; [|destruct (str_ltb k j) eqn:L]; cbn [sorted_keys]; apply andb_true_iff; split; auto.
  - apply forallb_forall. apply str_eqb_eq in E. now subst.
  - apply forallb_forall. intros e [<- | I]; [assumption|]. eapply ltb_trans; [exact L|auto].
  - cbn [sorted_keys]. apply andb_true_iff. split; [now apply forallb_forall|assumption].
  - apply forallb_forall. intros e I. apply format_keys in I as [-> | I]; [now apply str_total|auto].
Qed.

Section Answer.
Context (internal : list RtpMap) (offer : SdpInfo) (W : Writable internal offer).

(** The codecs the server holds of the offer. *)
Definition offered (nack min : bool) : list RtpMap :=
  map (told_codec nack min (min_bitrate_ (sets offer)) AUDIO_TYPE) (media_codecs AUDIO_TYPE offer) ++
  map (told_codec nack min (min_bitrate_ (sets offer)) VIDEO_TYPE) (media_codecs VIDEO_TYPE offer).

Lemma offered_types nack min : map payloadType (offered nack min) = map payloadType (media_codecs AUDIO_TYPE offer ++ media_codecs VIDEO_TYPE offer).
Proof. unfold offered. now rewrite !map_app, !map_map. Qed.

Lemma offered_each nack min (P : RtpMap -> Prop) :
  (forall c media, In c (payloadVector (pays offer)) -> P (told_codec nack min (min_bitrate_ (sets offer)) media c)) -> Forall P (offered nack min).
Proof.
  intros H. apply Forall_app. split; apply Forall_forall; intros x I; apply in_map_iff in I as (c & <- & I); apply H; eapply here_media; exact I.
Qed.

Lemma offered_media nack min media : media <> OTHER ->
  media_codecs media (with_payloads offer (offered nack min)) =
  map (told_codec nack min (min_bitrate_ (sets offer)) media) (media_codecs media offer).
Proof.
  intros M. unfold media_codecs at 1, of_media, offered. cbn [pays with_payloads set_pays payloadVector]. rewrite filter_app.
  assert (F : forall m l, filter (fun r => media_eqb (map_mediaType r) media) (map (told_codec nack min (min_bitrate_ (sets offer)) m) l) =
    if media_eqb m media then map (told_codec nack min (min_bitrate_ (sets offer)) m) l else []).
  { intros m l. induction l as [|c l IH]; [now destruct (media_eqb m media)|]. cbn [map filter told_codec map_mediaType]. rewrite IH. now destruct (media_eqb m media). }
  rewrite !F. destruct media; [| |contradiction]; cbn [media_eqb app]; now rewrite ?app_nil_r.
Qed.

Lemma offered_codecs nack min : forallb (fun c => codec_ok c && known internal c) (offered nack min) = true.
Proof.
  apply forallb_forall, Forall_forall, offered_each. intros c media I. pose proof (good_codecs _ _ W) as K. rewrite forallb_forall in K.
  exact (K c I).
Qed.

Lemma offered_formats nack min : forallb (fun c => forallb format_ok (formatParameters c) && sorted_keys (formatParameters c)) (offered nack min) = true.
Proof.
  apply forallb_forall, Forall_forall, offered_each. intros c media I. pose proof (good_formats _ _ W) as K. rewrite forallb_forall in K.
  specialize (K c I). cbn [told_codec formatParameters]. destruct (_ && min); [|exact K]. apply andb_true_iff in K as [K S].
  rewrite format_sorted, andb_true_r by assumption. apply forallb_forall. rewrite forallb_forall in K. intros [k v] J.
  pose proof (good_numbers _ _ W) as G. cbn [forallb] in G. unfold in_u32b in G. rewrite !andb_true_iff in G.
  assert (R : format_ok (min_rate (min_bitrate_ (sets offer))) = true) by (apply min_rate_ok; lia).
  clear -J K R. induction (formatParameters c) as [|[j w] l IH]; cbn [str_store] in J; [destruct J as [<- | []]; exact R|].
  assert (K' : forall x, In x l -> format_ok x = true) by (intros; apply K; now right).
  destruct (str_eqb _ j); [destruct J as [<- | J]; [exact R|auto]|].
  destruct (str_ltb _ j); [destruct J as [<- | J]; [exact R|now apply K]|]. destruct J as [<- | J]; [apply K; now left|auto].
Qed.

Lemma offered_feedback nack min : forallb (fun c => forallb feedback_ok (feedbackTypes c)) (offered nack min) = true.
Proof.
  apply forallb_forall, Forall_forall, offered_each. intros c media I. pose proof (good_feedback _ _ W) as K. rewrite forallb_forall in K.
  specialize (K c I). cbn [told_codec feedbackTypes]. rewrite forallb_app. destruct (nack && _), (media_eqb media VIDEO_TYPE); cbn [forallb];
    rewrite ?K; reflexivity.
Qed.

(** A description of the server with the codecs and the tags of the offer. *)
Lemma answer_writable nack min a u p :
  payloadVector (pays a) = offered nack min -> bundleTags (sess a) = bundleTags (sess offer) -> hasAudio (strs a) = true -> hasVideo (strs a) = true ->
  clean u = true -> clean p = true -> ice a = mk_ice u u p p -> free (lit " =" ++ [newline]) (fingerprint (sess a)) = true -> fingerprint (sess a) <> [] ->
  free [61; newline] (setup_ (sess a)) = true -> candidateVector_ a = [] -> cryptoVector_ a = [] ->
  forallb in_u32b (audioSsrc (ssrcs a) :: videoSsrc (ssrcs a) :: videoRtxSsrc (ssrcs a) :: target_bandwidth_ (sets a) ::
    min_bitrate_ (sets a) :: extended_video_ssrc (ssrcs a)) = true -> zlen (extended_video_ssrc (ssrcs a)) < 2 ^ 32 - 1 ->
  Writable internal a.
Proof.
  intros C T A V U P I F F' S K K' N X. constructor; try assumption; rewrite ?C, ?T, ?K, ?K', ?I; try reflexivity.
  - now split.
  - unfold audio_user, audio_pass. rewrite I. cbn [iceAudioUsername_ iceVideoUsername_ iceVideoPassword_ iceAudioPassword_ forallb].
    rewrite U, P. apply clean_free in U as U'. destruct U' as (_ & _ & U'). destruct u; [contradiction|]. now rewrite U, P.
  - now split.
  - apply (good_tags _ _ W).
  - apply (few_tags _ _ W).
  - apply (own_tags _ _ W).
  - apply offered_codecs.
  - rewrite offered_types. apply (media_types internal), W.
  - apply offered_formats.
  - apply offered_feedback.
Qed.
End Answer.

(** *** An offer whose codecs have the server's numbers *)

Definition own_codes : list (string * Z) :=
  [("VP8"%string, VP8_90000_PT); ("VP9"%string, VP9_90000_PT); ("H264"%string, H264_90000_PT); ("red"%string, RED_90000_PT);
   ("ulpfec"%string, ULP_90000_PT)].
Definition numbers_kept (regex_search : str -> str -> option str) (offer : str) : Prop :=
  Forall (fun reg => let codes := GetCodesNumber regex_search offer (lit "a=rtpmap:([1-9][0-9]*) " ++ lit (fst reg)) in
                     codes = -1 \/ codes = snd reg) own_codes.

Lemma codes_kept regex_search offer s : numbers_kept regex_search offer -> ExtractNewCodes regex_search s offer = s.
Proof.
  unfold numbers_kept, ExtractNewCodes. change [_; _; _; _; _] with own_codes. generalize own_codes. intros l H. revert s.
  induction H as [|[name pt] l C _ IH]; intros s; [reflexivity|]. cbn [fold_left]. rewrite IH. unfold extract_code. cbn [fst snd] in C.
  destruct C as [-> | ->]; [reflexivity|]. now rewrite Z.eqb_refl, andb_false_r.
Qed.

Section Delegates.
Context {E : Type} `{RemoteBitrate.RemoteBitrateEstimator E}.
Context {PQ : Type} {Q : PacketBuffer.PriorityQueue RtpSendPacket PQ RtpSendPacketComparator}.

(** The description the server answers with, for what it was before and the
    offer it has read. *)
Definition answering (w : surroundings) (number : option Z) (min : Z) (s r : SdpInfo) : SdpInfo :=
  let s := if negb (min =? 0) then set_min_bitrate s min else s in
  let s := setOfferSdp (rand_offer w) s r in
  let s := match number with Some n => initExtendedVideoSsrc (rand_extended w) s n | None => s end in
  if setup_passive_server w then set_setup s (lit "passive") else s.

Lemma prepared w (d : TransportDelegate E PQ) :
  let x := prepare_answer w d in
  let l := answering w (plugin_ d) (min_encoding_bitrate_ (config d)) (local d) (remote d) in
  local (fst x) = l /\ remote (fst x) = remote d /\ bundle_ (negot (fst x)) = bundle_ (negot d) /\
  video_transport_ (negot (fst x)) = video_transport_ (negot d) /\ audio_transport_ (negot (fst x)) = audio_transport_ (negot d) /\
  VIDEO_SSRC (negot (fst x)) = s32 (videoSsrc (ssrcs l)) /\
  snd x = match plugin_ d with
          | Some _ => [PluginSources (videoSsrc (ssrcs l)) (videoSsrc (ssrcs (remote d))) (extended_video_ssrc (ssrcs l))]
          | None => []
          end.
Proof.
  intros x l. subst x l. unfold prepare_answer, answering, tell_plugin. destruct (negb (_ =? 0)); cbn [plugin_ put_local set_negot];
    destruct (plugin_ d), (setup_passive_server w); repeat split; reflexivity.
Qed.

(** What is opened for the credentials of the description [r]. *)
Definition opened (existed passive : bool) (r : SdpInfo) : event :=
  let i := ice r in
  if existed then SetRemoteCredentials VIDEO_TYPE (iceVideoUsername_ i) (iceVideoPassword_ i)
  else CreateTransport VIDEO_TYPE true (isRtcpMux (sess r)) (iceVideoUsername_ i) (iceVideoPassword_ i) passive.

Lemma transports_open (d : TransportDelegate E PQ) passive :
  profile (sess (remote d)) = SAVPF -> isFingerprint (sess (remote d)) = true -> bundle_ (negot d) = true ->
  open_transports d passive = Ok (put_transports d true (audio_transport_ (negot d)), [opened (video_transport_ (negot d)) passive (remote d)]).
Proof.
  intros P F B. unfold open_transports. rewrite P, F, B, !orb_true_r. unfold open_transport, opened, getCredentials. rewrite B, skipn_nil, app_nil_r.
  reflexivity.
Qed.

Definition told_candidates (r : SdpInfo) : list event := match candidateVector_ r with [] => [] | l => [ToldCandidates VIDEO_TYPE l true] end.

Lemma candidates_told (d : TransportDelegate E PQ) : hasVideo (strs (remote d)) = true -> video_transport_ (negot d) = true -> bundle_ (negot d) = true ->
  offer_candidates d = Ok (told_candidates (remote d)).
Proof. intros V T B. unfold offer_candidates, told_candidates. rewrite V, T, B. now destruct (candidateVector_ (remote d)). Qed.

(** The description that is written, with the credentials of the transport. *)
Definition own_answer (w : surroundings) (s : SdpInfo) (p : Profile) : SdpInfo := setProfile (processLocalSdp (side w) true VIDEO_TYPE s) p.

(** What the events of an offer are, for what the server holds after it. *)
Definition events_of_offer (d d' : TransportDelegate E PQ) (passive : bool) : list event :=
  match plugin_ d with
  | Some _ => [PluginSources (videoSsrc (ssrcs (local d'))) (videoSsrc (ssrcs (remote d'))) (extended_video_ssrc (ssrcs (local d')))]
  | None => []
  end ++ [opened (video_transport_ (negot d)) passive (remote d')] ++ told_candidates (remote d').

Lemma ProcessOffer_answers regex_search w (d : TransportDelegate E PQ) text r b beyond internal :
  let s := own_answer w (answering w (plugin_ d) (min_encoding_bitrate_ (config d)) (local d) r) SAVPF in
  numbers_kept regex_search text ->
  initWithSdp (junk w) (Sdp.set_video_encoding (remote d) (video_encoding_ (config d))) text [] = Ok (true, r) ->
  isBundle (sess r) = true -> profile (sess r) = SAVPF -> isFingerprint (sess r) = true -> hasVideo (strs r) = true ->
  behind_msid w = b :: beyond -> Writable internal s ->
  exists answer d', ProcessOffer regex_search w d text = Ok (Some answer, d', events_of_offer d d' (setup_passive_server w)) /\
    getSdp (audio_nack w) (set_min w) (rand_msid w) (b :: beyond) s = Ok (answer, local d') /\ local d' = with_audio_source s /\
    remote d' = r /\ bundle_ (negot d') = true /\ video_transport_ (negot d') = true /\ VIDEO_SSRC (negot d') = s32 (videoSsrc (ssrcs s)).
Proof.
  intros s N RD B P F V BM W. unfold ProcessOffer, SetRemoteSdp. rewrite !codes_kept by assumption.
  change (remote (put_remote (put_remote _ _) _)) with (Sdp.set_video_encoding (remote d) (video_encoding_ (config d))).
  change (remote (put_remote (put_local _ _) _)) with (remote d). change (config (put_remote _ _)) with (config d).
  rewrite RD. cbn [bind]. rewrite B. cbn [bind negb].
  match goal with |- context [prepare_answer w ?x] => pose proof (prepared w x) as HP; destruct (prepare_answer w x) as [d1 told1] end.
  cbn zeta in HP. cbn [fst snd] in HP.
  cbn [local remote negot config plugin_ put_bundle put_remote put_local set_negot local_sdp_ remote_sdp_ bundle_ video_transport_ audio_transport_] in HP.
  destruct HP as (L & R & B1 & T & A & S & O).
  rewrite transports_open by (rewrite ?R; assumption). cbn [bind]. rewrite candidates_told by (cbn; fold (remote d1); rewrite ?R; assumption || reflexivity).
  cbn [bind]. unfold GetLocalSdp.
  change (bundle_ (negot (put_transports d1 true (audio_transport_ (negot d1))))) with (bundle_ (negot d1)).
  change (local (put_transports d1 true _)) with (local d1). change (remote (put_transports d1 true _)) with (remote d1).
  cbn [video_transport_ negot put_transports set_negot]. rewrite B1, L, R, P, BM, T. cbn [negb andb]. fold (own_answer w (answering w (plugin_ d) (min_encoding_bitrate_ (config d)) (local d) r) SAVPF).
  fold s. destruct (both_streams _ _ W) as [SA SV].
  rewrite (getSdp_lines (audio_nack w) (set_min w) (rand_msid w) b beyond s SA SV) by (pose proof (few_tags _ _ W); unfold zlen; lia).
  cbn [bind]. eexists _, (put_local (put_transports d1 true (audio_transport_ (negot d1))) (with_audio_source s)).
  split; [|split; [reflexivity|repeat split; try assumption; exact S]].
  do 2 f_equal. unfold events_of_offer. rewrite O. cbn [local remote negot put_local put_transports set_negot local_sdp_ remote_sdp_].
  fold (remote d1). rewrite R. replace (ssrcs (answering _ _ _ _ _)) with (ssrcs s) by reflexivity.
  replace (videoSsrc (ssrcs (with_audio_source s))) with (videoSsrc (ssrcs s)) by (unfold with_audio_source; now destruct (_ =? 0)).
  replace (extended_video_ssrc (ssrcs (with_audio_source s))) with (extended_video_ssrc (ssrcs s)) by (unfold with_audio_source; now destruct (_ =? 0)).
  reflexivity.
Qed.

(** A delegate no description was set for; [red] is whether redundancy is on. *)
Definition untouched (red : bool) (d : TransportDelegate E PQ) : Prop :=
  (exists e v a, remote d = new_SdpInfo red e v a) /\ (exists e v a, local d = new_SdpInfo red e v a) /\
  0 <= min_encoding_bitrate_ (config d) < 2 ^ 32 /\ match plugin_ d with Some n => n < 2 ^ 32 - 1 | None => True end.

Definition good_side (o : own_side) : Prop :=
  clean (my_user o) = true /\ clean (my_pass o) = true /\ free (lit " =" ++ [newline]) (my_fingerprint o) = true /\ my_fingerprint o <> [].

(** *** The answer can be written *)

Lemma u32_in n : in_u32b (u32 n) = true.
Proof. unfold in_u32b. pose proof (u32_range n) as R. unfold in_u32 in R. lia. Qed.

Lemma answer_numbers w red e v a number bitrate r :
  let s := own_answer w (answering w number bitrate (new_SdpInfo red e v a) r) SAVPF in
  0 <= bitrate < 2 ^ 32 -> match number with Some n => n < 2 ^ 32 - 1 | None => True end ->
  forallb in_u32b (audioSsrc (ssrcs s) :: videoSsrc (ssrcs s) :: videoRtxSsrc (ssrcs s) :: target_bandwidth_ (sets s) :: min_bitrate_ (sets s) ::
    extended_video_ssrc (ssrcs s)) = true /\ zlen (extended_video_ssrc (ssrcs s)) < 2 ^ 32 - 1.
Proof.
  intros s M X.
  assert (N : audioSsrc (ssrcs s) = u32 (rand_offer w 0) /\ videoSsrc (ssrcs s) = u32 (rand_offer w 1) /\
    in_u32b (videoRtxSsrc (ssrcs s)) = true /\ target_bandwidth_ (sets s) = 250 /\ in_u32b (min_bitrate_ (sets s)) = true /\
    extended_video_ssrc (ssrcs s) = match number with Some n => map (fun i => u32 (rand_extended w i)) (seq 0 (Z.to_nat (n - 0))) | None => [] end).
  { subst s. unfold answering. destruct (negb (bitrate =? 0)), number, (setup_passive_server w); repeat split; cbn -[u32 in_u32b];
      try (destruct (negb (videoRtxSsrc (ssrcs r) =? 0)); [reflexivity|apply u32_in]); try reflexivity; unfold in_u32b; lia. }
  destruct N as (N1 & N2 & N3 & N4 & N5 & N6). rewrite N1, N2, N4, N6. cbn [forallb]. rewrite !u32_in, N3, N5. split.
  - destruct number; [|reflexivity]. apply forallb_forall. intros x I. apply in_map_iff in I as (k & <- & _). apply u32_in.
  - destruct number as [n|]; [|cbn; lia]. unfold zlen. rewrite length_map, length_seq. lia.
Qed.

Lemma own_answer_writable w internal offer nack min junk st red e v a number bitrate :
  let r := told junk internal offer nack min st in
  let s := own_answer w (answering w number bitrate (new_SdpInfo red e v a) r) SAVPF in
  Writable internal offer -> isBundle (sess offer) = true -> good_side (side w) -> 0 <= bitrate < 2 ^ 32 ->
  match number with Some n => n < 2 ^ 32 - 1 | None => True end ->
  Writable internal s /\ payloadVector (pays s) = offered offer nack min.
Proof.
  intros r s W B (U & P & F & F') M X. assert (C : payloadVector (pays s) = offered offer nack min)
    by (unfold s, answering; destruct (negb (bitrate =? 0)), number, (setup_passive_server w); reflexivity). split; [|exact C].
  destruct (answer_numbers w red e v a number bitrate r M X) as [N1 N2].
  assert (T : bundleTags (sess r) = bundleTags (sess offer)) by (unfold r, told; now rewrite B).
  assert (HA : hasAudio (strs r) = true) by reflexivity. assert (HV : hasVideo (strs r) = true) by reflexivity. clearbody r.
  apply (answer_writable internal offer W nack min s (my_user (side w)) (my_pass (side w))); try assumption.
  1: rewrite <- T.
  all: unfold s, answering; destruct (negb (bitrate =? 0)), number as [n|], (setup_passive_server w); try reflexivity; assumption.
Qed.

Lemma same_codecs_types s offer nack min : payloadVector (pays (with_audio_source s)) = offered offer nack min ->
  map payloadType (media_codecs AUDIO_TYPE (with_audio_source s) ++ media_codecs VIDEO_TYPE (with_audio_source s)) =
  map payloadType (media_codecs AUDIO_TYPE offer ++ media_codecs VIDEO_TYPE offer).
Proof.
  intros C. unfold media_codecs at 1 2. rewrite C. change (of_media ?m (offered offer nack min)) with (media_codecs m (with_payloads offer (offered offer nack min))).
  rewrite !offered_media by discriminate. now rewrite !map_app, !map_map.
Qed.

Lemma first_source_video s : videoSsrc (ssrcs s) <> 0 -> first_source 0 (video_sources s) = videoSsrc (ssrcs s).
Proof.
  intros N. unfold video_sources. apply Z.eqb_neq in N as N'. rewrite N'. cbn [negb app first_source fold_left].
  assert (K : forall x l, x <> 0 -> first_source x l = x).
  { unfold first_source. intros x l X. induction l as [|n l IH]; [reflexivity|]. cbn [fold_left]. apply Z.eqb_neq in X. now rewrite X. }
  unfold first_source in *. cbn [fold_left]. now apply K.
Qed.

(** What the answer has of the transport and of the offer, and what the choice of
    a source for audio leaves. *)
Lemma answer_fields w number bitrate l r :
  let s := own_answer w (answering w number bitrate l r) SAVPF in
  ice s = mk_ice (my_user (side w)) (my_user (side w)) (my_pass (side w)) (my_pass (side w)) /\
  isFingerprint (sess s) = true /\ fingerprint (sess s) = my_fingerprint (side w) /\ isBundle (sess s) = isBundle (sess r) /\
  bundleTags (sess s) = bundleTags (sess r) /\ videoDirection (strs s) = mirrored (videoDirection (strs r)) /\
  audioDirection (strs s) = mirrored (audioDirection (strs r)).
Proof. intros s. subst s. unfold answering. destruct (negb (bitrate =? 0)), number, (setup_passive_server w); repeat split; reflexivity. Qed.

Lemma with_source_fields s :
  ice (with_audio_source s) = ice s /\ sess (with_audio_source s) = sess s /\ strs (with_audio_source s) = strs s /\
  pays (with_audio_source s) = pays s /\ videoSsrc (ssrcs (with_audio_source s)) = videoSsrc (ssrcs s).
Proof. unfold with_audio_source. destruct (_ =? 0); repeat split; reflexivity. Qed.

(** C2. An offer is answered.  A delegate no description was set for reads a
    bundled offer with a fingerprint, written by [getSdp], whose codecs have the
    server's numbers.  It holds what the offer tells; the transport is opened
    with the peer's credentials and told its candidates, the plugin learns the
    sources; and the text of the answer tells a peer that reads it the server's
    credentials, its fingerprint, the tags and the codecs of the offer under
    their numbers, the mirrored directions and the source the delegate sends
    with. *)
Theorem offer_is_answered regex_search w red (d : TransportDelegate E PQ) offer nack min rands b beyond b' beyond' text peer_junk v a :
  let encoding := video_encoding_ (config d) in
  let internal := internal_maps encoding red in
  let user := my_user (side w) in
  let pass := my_pass (side w) in
  Writable internal offer -> isBundle (sess offer) = true -> isFingerprint (sess offer) = true ->
  getSdp nack min rands (b :: beyond) offer = Ok (text, with_audio_source offer) ->
  numbers_kept regex_search text -> untouched red d -> good_side (side w) -> behind_msid w = b' :: beyond' ->
  exists answer d' p,
    ProcessOffer regex_search w d text = Ok (Some answer, d', events_of_offer d d' (setup_passive_server w)) /\
    remote d' = told (junk w) internal (with_audio_source offer) nack min (sets (new_SdpInfo red encoding v a)) /\
    video_transport_ (negot d') = true /\
    initWithSdp peer_junk (new_SdpInfo red encoding v a) answer [] = Ok (true, p) /\
    ice p = mk_ice user user pass pass /\ fingerprint (sess p) = my_fingerprint (side w) /\ bundleTags (sess p) = bundleTags (sess offer) /\
    videoDirection (strs p) = mirrored (videoDirection (strs offer)) /\ audioDirection (strs p) = mirrored (audioDirection (strs offer)) /\
    map payloadType (payloadVector (pays p)) = map payloadType (media_codecs AUDIO_TYPE offer ++ media_codecs VIDEO_TYPE offer) /\
    (videoSsrc (ssrcs (local d')) <> 0 -> videoSsrc (ssrcs p) = videoSsrc (ssrcs (local d'))) /\
    VIDEO_SSRC (negot d') = s32 (videoSsrc (ssrcs (local d'))).
Proof.
  intros encoding internal user pass W B F T N ((e0 & v0 & a0 & R) & (e1 & v1 & a1 & L) & M & P) SD BM.
  destruct (description_is_read (junk w) nack min rands b beyond red encoding v0 a0 offer W) as (text' & T' & RD).
  rewrite T in T'. injection T' as <-.
  assert (W' := source_writable _ _ W).
  assert (B' : isBundle (sess (with_audio_source offer)) = true) by (unfold with_audio_source; now destruct (_ =? 0)).
  set (r := told _ _ _ _ _ _) in RD.
  destruct (own_answer_writable w internal _ nack min (junk w) (sets (new_SdpInfo red encoding v0 a0)) red e1 v1 a1 (plugin_ d)
    (min_encoding_bitrate_ (config d)) W' B' SD M P) as [WS C].
  change (told _ _ _ _ _ _) with r in WS, C. set (s := own_answer _ _ _) in WS, C.
  destruct (ProcessOffer_answers regex_search w d text r b' beyond' internal) as (answer & d' & E1 & E2 & E3 & E4 & E5 & E6 & E7); try assumption; try reflexivity.
  { rewrite R. exact RD. }
  { unfold r, told. cbn [sess isFingerprint]. unfold with_audio_source. now destruct (_ =? 0). }
  { rewrite L. exact WS. }
  rewrite L in E2, E3, E7. fold s in E2, E3, E7.
  destruct (description_is_read peer_junk (audio_nack w) (set_min w) (rand_msid w) b' beyond' red encoding v a s WS) as (answer' & T2 & RD2).
  rewrite T2 in E2. injection E2 as <- _. exists answer', d', (told peer_junk internal (with_audio_source s) (audio_nack w) (set_min w) (sets (new_SdpInfo red encoding v a))).
  rewrite E3. split; [exact E1|]. split; [exact E4|]. split; [exact E6|]. split; [exact RD2|].
  destruct (answer_fields w (plugin_ d) (min_encoding_bitrate_ (config d)) (new_SdpInfo red e1 v1 a1) r) as (F1 & F2 & F3 & F4 & F5 & F6 & F7).
  fold s in F1, F2, F3, F4, F5, F6, F7.
  destruct (with_source_fields s) as (G1 & G2 & G3 & G4 & G5). destruct (with_source_fields offer) as (O1 & O2 & O3 & O4 & O5).
  destruct SD as (U & _). apply clean_free in U as (_ & _ & U). repeat split.
  - unfold told, audio_user, audio_pass. cbn [ice]. rewrite G1, F1. cbn [iceAudioUsername_ iceVideoUsername_ iceVideoPassword_ iceAudioPassword_].
    fold user pass in U |- *. now destruct user.
  - unfold told. cbn [sess fingerprint]. now rewrite G2, F2, F3.
  - unfold told. cbn [sess bundleTags]. rewrite G2, F4, F5. unfold r, told. cbn [sess isBundle bundleTags]. rewrite B'. now rewrite O2.
  - unfold told. cbn [strs videoDirection]. rewrite G3, F6. unfold r, told. cbn [strs videoDirection]. now rewrite O3.
  - unfold told. cbn [strs audioDirection]. rewrite G3, F7. unfold r, told. cbn [strs audioDirection]. now rewrite O3.
  - unfold told. cbn [pays payloadVector]. change (map payloadType (offered (with_audio_source s) (audio_nack w) (set_min w)) = map payloadType
      (media_codecs AUDIO_TYPE offer ++ media_codecs VIDEO_TYPE offer)).
    rewrite offered_types, (same_codecs_types s (with_audio_source offer) nack min) by (now rewrite G4). unfold media_codecs. now rewrite O4.
  - intros Z. unfold told. cbn [ssrcs videoSsrc]. now apply first_source_video.
  - rewrite E7, G5. reflexivity.
Qed.

(** *** Candidates of the peer *)

Lemma lines_one l : free [newline] l = true -> l <> [] -> lines l = [l].
Proof.
  induction l as [|c l IH]; intros F N; [contradiction|]. rewrite free_cons in F. apply andb_true_iff in F as [C F].
  cbn [lines]. unfold mem in C. cbn [existsb] in C. rewrite orb_false_r in C.
  destruct (c =? newline); [discriminate|].
  destruct l as [|c' l]; [reflexivity|]. now rewrite IH by (assumption || discriminate).
Qed.

(** The candidate that is made of [c], whose rest is [j]. *)
Definition added_candidate (j : CandidateInfo) (video : bool) (i : credentials) (c : CandidateInfo) : CandidateInfo :=
  mk_candidate false 0 (priority c) (componentId c) (foundation c) (hostAddress c) (if is_reflexive (hostType c) then rAddress c else [])
    (hostPort c) (if is_reflexive (hostType c) then rPort c else rPort j) (netProtocol c) (hostType c) []
    (if video then iceVideoUsername_ i else iceAudioUsername_ i) (if video then iceVideoPassword_ i else iceAudioPassword_ i)
    (if video then VIDEO_TYPE else AUDIO_TYPE).

Lemma candidate_alone junk red e v a i c (video : bool) :
  candidate_ok c = true -> is_udp c = true -> (if video then iceVideoUsername_ i else iceAudioUsername_ i) <> [] ->
  let user := if video then iceVideoUsername_ i else iceAudioUsername_ i in
  let pass := if video then iceVideoPassword_ i else iceAudioPassword_ i in
  exists s, initWithSdp junk (setCredentials (new_SdpInfo red e v a) user pass OTHER) (ToString c) (if video then lit "video" else lit "audio") =
    Ok (true, s) /\ candidateVector_ s = [added_candidate (junk 0%nat) video i c].
Proof.
  intros K UDP N user pass. destruct (candidate_read junk c K) as [F RD]. cbn [forallb] in F. rewrite andb_true_r in F.
  unfold initWithSdp, processSdp. rewrite lines_one by (assumption || discriminate).
  match goal with |- context [process_lines _ _ ?r] => destruct (RD r) as [-> _]; [split; [reflexivity|cbn; unfold zlen; cbn; lia]|] end.
  cbn [bind]. unfold take_candidate. rewrite UDP. cbn [desc set_desc set_candidates ice setCredentials set_ice].
  unfold share_credentials. cbn [iceVideoUsername_ iceAudioUsername_]. fold user in N.
  destruct user as [|x u] eqn:U; [contradiction|]. cbn [tmpFeedbackVector set_desc map_feedback bind].
  eexists. split; [reflexivity|]. unfold added_candidate. fold user pass. rewrite U. now destruct video.
Qed.

(** C11. A candidate of the peer, as the server writes them, reaches the
    transport: it is read with the credentials of its stream, given to the
    transport of the bundle, kept with the peer's candidates, and the answer is
    the transport's; the stream is that of the name, or of the line when this is
    video's. *)
Theorem candidate_is_added junk red e v a accepted (d : TransportDelegate E PQ) mid line c :
  let video := str_eqb mid (lit "video") || (line =? Z.b2z (getVideoSdpMLine (remote d))) in
  let added := added_candidate (junk 0%nat) video (ice (remote d)) c in
  candidate_ok c = true -> is_udp c = true -> bundle_ (negot d) = true -> video_transport_ (negot d) = true ->
  (if video then iceVideoUsername_ (ice (remote d)) else iceAudioUsername_ (ice (remote d))) <> [] ->
  AddRemoteCandidate junk (new_SdpInfo red e v a) accepted d mid line (ToString c) =
    Ok (accepted, put_remote d (set_candidates (remote d) (candidateVector_ (remote d) ++ [added])), [ToldCandidates VIDEO_TYPE [added] true]).
Proof.
  intros video added K UDP B T N. unfold AddRemoteCandidate. fold video.
  replace (getCredentials (remote d) (if video then VIDEO_TYPE else AUDIO_TYPE) []) with
    (if video then iceVideoUsername_ (ice (remote d)) else iceAudioUsername_ (ice (remote d)),
     if video then iceVideoPassword_ (ice (remote d)) else iceAudioPassword_ (ice (remote d)))
    by (unfold getCredentials; destruct video; now rewrite skipn_nil, app_nil_r).
  destruct (candidate_alone junk red e v a (ice (remote d)) c video K UDP N) as (s & -> & C). cbn [bind].
  rewrite B, T, orb_true_r, C. reflexivity.
Qed.

End Delegates.

(** ** An example *)

(** The search for the number of a codec in an offer. *)
Fixpoint rtpmap_search (s name : str) : option str :=
  match s with
  | [] => None
  | _ :: s' =>
      let (digits, rest) := span_digits (skipn 9 s) in
      if prefix (lit "a=rtpmap:") s && prefix name rest then Some digits else rtpmap_search s' name
  end.
Definition sample_search (s reg : str) : option str := rtpmap_search s (skipn 22 reg).

Section Sample.
#[local] Existing Instance RtcpProcessor.sample_estimator.
#[local] Existing Instance PacketBuffer.list_queue.

Definition sample_surroundings (behind : list Z) : surroundings :=
  mk_surroundings sample_junk (fun i => 1000 + Z.of_nat i) (fun i => 2000 + Z.of_nat i) (fun i => 7 * Z.of_nat i) behind true false true
    false (fun _ => 0) (mk_side (lit "A1:B2") (lit "server") (lit "secret")).
Definition sample_text : str := match getSdp true false (fun i => 7 * Z.of_nat i) [0] sample_offer with Ok (t, _) => t | _ => [] end.

Lemma offer_is_answered_witness :
  let d := sample_delegate false [] in
  exists answer d' p, ProcessOffer sample_search (sample_surroundings [0]) d sample_text = Ok (Some answer, d', events_of_offer d d' true) /\
    video_transport_ (negot d') = true /\ initWithSdp sample_junk sample_sdp answer [] = Ok (true, p) /\
    ice p = mk_ice (lit "server") (lit "server") (lit "secret") (lit "secret") /\ videoDirection (strs p) = SENDRECV.
Proof.
  intros d. destruct (offer_is_answered sample_search (sample_surroundings [0]) false (sample_delegate false []) sample_offer true false
    (fun i => 7 * Z.of_nat i) 0 [] 0 [] sample_text sample_junk SENDRECV SENDRECV) as (answer & d' & p & E1 & _ & E2 & E3 & E4 & _ & _ & E5 & _).
  - exact sample_writable.
  - reflexivity.
  - reflexivity.
  - vm_compute. reflexivity.
  - repeat (constructor; [vm_compute; auto|]). constructor.
  - split; [now exists VP8, SENDRECV, SENDRECV|]. split; [now exists VP8, SENDRECV, SENDRECV|]. split; [cbn; lia|reflexivity].
  - repeat split. discriminate.
  - reflexivity.
  - exists answer, d', p. repeat split; assumption.
Defined.

(** A delegate whose peer has told credentials. *)
Definition with_peer (opened : bool) : TransportDelegate RemoteBitrate.RemoteBitrateEstimatorSingleStream (list RtpSendPacket) :=
  put_remote (sample_delegate opened []) (setCredentials sample_sdp (lit "peer") (lit "pass") OTHER).

Lemma candidate_is_added_witness :
  let added := added_candidate (sample_junk 0) true (ice (remote (with_peer true))) sample_candidate in
  username added = lit "peer" /\
  AddRemoteCandidate sample_junk sample_sdp true (with_peer true) (lit "video") 0 (ToString sample_candidate) =
    Ok (true, put_remote (with_peer true) (set_candidates (remote (with_peer true)) [added]), [ToldCandidates VIDEO_TYPE [added] true]).
Proof.
  split; [reflexivity|].
  refine (candidate_is_added sample_junk false VP8 SENDRECV SENDRECV true (with_peer true) (lit "video") 0 sample_candidate _ _ _ _ _);
    (reflexivity || discriminate).
Defined.

(** *** Where the code does not do what it means to *)

(** The number of a line and its terminator are printed to an array of one byte. *)
Example line_number_overruns : GetJSONCandidate [] sample_sdp (lit "video") (lit "candidate") = Oob.
Proof. reflexivity. Qed.
Example line_number_as_meant :
  GetJSONCandidate [7] sample_sdp (lit "video") (lit "x") =
  Ok (lit "{" ++ quoted (lit "candidate", lit "x") ++ lit "," ++ quoted (lit "sdpMLineIndex", lit "1") ++ lit "," ++
      quoted (lit "sdpMid", lit "video") ++ lit "}").
Proof. reflexivity. Qed.

Definition offer_lines (ls : list string) : str := unlines (map lit ls).

(** No transport is made for an offer without a fingerprint; its candidates are
    given to it all the same, through a null pointer. *)
Example no_fingerprint_no_transport :
  ProcessOffer sample_search (sample_surroundings [0]) (sample_delegate false [])
    (offer_lines ["a=group:BUNDLE video"; "m=video 1 SAVPF 100"; "a=ice-ufrag:u"; "a=ice-pwd:p"; "a=mid:video";
                  "a=candidate:1 1 udp 1 1.2.3.4 9 typ host generation 0"]%string) = Oob.
Proof. vm_compute. reflexivity. Qed.

(** So is a candidate that comes before the offer. *)
Example candidate_before_offer :
  AddRemoteCandidate sample_junk sample_sdp true (with_peer false) (lit "video") 0 (ToString sample_candidate) = Oob.
Proof. vm_compute. reflexivity. Qed.

(** An offer that is not bundled ends the program. *)
Example unbundled_offer_aborts :
  ProcessOffer sample_search (sample_surroundings [0]) (sample_delegate false [])
    (offer_lines ["m=video 1 SAVPF 100"; "a=ice-ufrag:u"; "a=ice-pwd:p"]%string) = Oob.
Proof. vm_compute. reflexivity. Qed.

(** The candidates of a bundled offer that has no video are told to nobody. *)
Example audio_candidates_are_dropped :
  match ProcessOffer sample_search (sample_surroundings [0]) (sample_delegate false [])
    (offer_lines ["a=group:BUNDLE audio"; "m=audio 1 SAVPF 111"; "a=fingerprint:sha-256 AB:CD"; "a=ice-ufrag:u"; "a=ice-pwd:p"; "a=mid:audio";
                  "a=candidate:1 1 udp 1 1.2.3.4 9 typ host generation 0"]%string) with
  | Ok (Some _, d, out) =>
      length (candidateVector_ (remote d)) = 1%nat /\
      existsb (fun e => match e with ToldCandidates _ _ _ => true | _ => false end) out = false
  | _ => False
  end.
Proof. vm_compute. split; reflexivity. Qed.

(** Where video has the line 2, a candidate for line 2 is taken for one of audio. *)
Example third_line_is_audio :
  let m := strs sample_sdp in
  let lines := set_strs sample_sdp (mk_streams true true (videoDirection m) (audioDirection m) 2 0 0 0 0) in
  match AddRemoteCandidate sample_junk sample_sdp true (put_remote (with_peer true) (setCredentials lines (lit "peer") (lit "pass") OTHER))
          (lit "m2") 2 (ToString sample_candidate) with
  | Ok (true, _, [ToldCandidates _ [c] _]) => mediaType c = AUDIO_TYPE
  | _ => False
  end.
Proof. vm_compute. reflexivity. Qed.
End Sample.
End TransportNegotiate.
